(* ===== verification/_CoqProject ===== *)
-Q . S2P
Prelude.v
Varint.v
Ctype.v
Ints.v
Utf.v
Mem.v
Serial.v
IndexKey.v
Lmdb.v
LmdbSim.v
Btree.v
BtreeTxn.v
BtreeTable.v
BtreeCursor.v
BtreeData.v
BtreeEntry.v
Heap.v
Bitvec.v
RowSet.v
Like.v
Hash.v
Vfs.v
Sorter.v
SorterRead.v
SorterWrite.v
SorterState.v
SorterList.v
SorterTree.v
SorterMerge.v
SorterFill.v
SorterPass.v
SorterRewind.v
SorterRun.v
SorterOrder.v
SorterRows.v
Token.v
TokenSpec.v
TokenLex.v
TokenStream.v
Complete.v
CompleteGrammar.v
CompleteText.v
Printf.v
PrintfSpec.v
Quote.v
Alter.v
AlterSpec.v
Real.v
FloatText.v
PrintfBounds.v
Value.v
Vdbe.v
VdbeExec.v
CellOk.v
MakeRecord.v
CellKeep.v
VdbeType.v
VdbeSafe.v
VdbeOps.v
VdbeCalc.v
VdbeCmp.v
VdbeJump.v
VdbeFunc.v
VdbeSound.v
Func.v
FuncSafe.v
VdbeRun.v
VdbeSpec.v
FuncSpec.v
