(* ===== verification/Prelude.v ===== *)
(** * LumoSQL: a verification library for the SQLite-on-LMDB code base

    The repository holds SQLite 3.7.17 with its pager and B-tree replaced by
    LMDB (src/lmdb-backend/src/), its extensions (ext/), its tests (test/,
    the test_*.c files) and a tool that tracks upstream sources
    (not-forking/).  This library models the parts of src/lmdb-backend/src/
    that carry the program's own logic and proves what makes them correct.
    Definitions follow the C functions branch by branch and keep their names;
    each is executable, so a concrete run is a computation.

    ** The program and the files

    A statement runs on the virtual machine (vdbe.c), whose registers are
    memory cells; rows and keys are cells packed into records; records are
    stored in tables of the storage back-end (btree.c), which calls LMDB.
    Around them are the utilities all of them use.

    - Utilities.  [Varint]: sqlite3PutVarint, sqlite3GetVarint and the 32-bit
      variants (util.c).  [Ctype]: the character tables of global.c, string
      comparison, dequoting and hexadecimal blobs (util.c).  [Ints]:
      overflow-checked 64-bit arithmetic and sqlite3Atoi64 (util.c).  [Utf]:
      readers and writers of UTF-8 and UTF-16 (utf.c).
    - Values.  [Mem]: the cells of vdbemem.c, their storage, translation
      between encodings, comparison.  [Serial]: serial types, and records of
      cells, unpacked and compared (vdbeaux.c).  [MakeRecord]:
      OP_MakeRecord (vdbe.c), with its affinities and the zero-filled blobs it
      leaves compressed.
    - Storage.  [Lmdb]: the functions of LMDB that btree.c calls, as a class,
      and LMDB's documented behaviour, as the class [LmdbLaws]; [LmdbSim]: an
      executable instance of both.  [Btree]: handles, environments and
      cursors in a store of objects with the pointers of the code, and the
      operations on them.  [BtreeTxn]: transactions.  [BtreeTable]: tables and
      meta values.  [BtreeCursor]: lists of cursors and reference counts.
      [BtreeData] and [BtreeEntry]: moving cursors, reading and writing
      entries, over the nodes of LMDB (classes [LmdbEntry] and
      [LmdbEntryLaws]).  [IndexKey]: the keys of index entries, which the
      back-end splits into LMDB key and data, joins again, and squashes when
      they are too long, rewriting the buffer that the unpacked key points
      into.
    - Containers.  [Heap]: allocations that may fail.  [Bitvec]: sets of page
      numbers (bitvec.c).  [RowSet]: sets of rowids (rowset.c).  [Hash]: symbol
      tables (hash.c).
    - Sorting.  [Vfs]: temporary files through the methods of a VFS (class
      [Vfs], its documented behaviour [VfsLaws]; os.c) and memory that may
      fail, with a logic for programs over both and an executable instance.
      [Sorter]: the data and operations of vdbesort.c.  [SorterRead] and
      [SorterWrite]: iterators over packed arrays and file writers.
      [SorterState]: the blocks and files a sorter owns, opening and closing.
      [SorterList]: the order of keys (class [KeyOrder]) and sorting the list;
      [SorterFill]: collecting and spilling.  [SorterTree] and [SorterMerge]:
      the tree of comparisons and the incremental merge; [SorterPass] and
      [SorterRewind]: merge passes and rewinding.  [SorterRun]: the calls of
      the virtual machine from opening to closing.  [SorterOrder]: records as
      an instance of [KeyOrder]; [SorterRows]: the theorems, for rows.
    - The virtual machine.  [Real]: doubles and the long doubles of x86, and
      sqlite3AtoF (util.c).  [FloatText]: the floating point conversions of
      printf.c.  [Value]: casts, copies, texts and affinities of cells, with
      allocations that may fail (vdbemem.c, vdbe.c).  [Vdbe]: programs,
      registers and the instructions on control flow, constants and copies;
      [VdbeExec]: the instructions that compute, and the loop
      (sqlite3VdbeExec).  [CellOk] and [CellKeep]: well-formed cells, and the
      operations that keep them so.  [VdbeType]: a checker of programs, with
      types of registers at each address; [VdbeSafe]: the invariant of a run.
      [VdbeOps], [VdbeCalc], [VdbeCmp], [VdbeJump], [VdbeFunc]: each
      instruction keeps it; [VdbeSound]: so does a step; [VdbeRun]: runs.
      [VdbeSpec]: what instructions compute.  [FuncSafe]: the contract that a
      run asks of the functions it calls, for functions of [Func].
    - SQL functions (func.c).  [Like]: LIKE and GLOB.  [Func]: the functions of
      one or more values, over the interface sqlite3_value_* and
      sqlite3_result_* (vdbeapi.c); [FuncSpec]: substr(), instr() and
      replace() on characters and pieces of text.
    - Text of statements.  [Token]: sqlite3GetToken (tokenize.c); [TokenSpec]:
      the grammar of tokens; [TokenLex]: the one against the other;
      [TokenStream]: a text as a list of tokens.  [Complete]: sqlite3_complete
      (complete.c); [CompleteGrammar]: complete statements as a grammar;
      [CompleteText]: the automaton against the tokens.  [Alter] and
      [AlterSpec]: the SQL functions that rename tables inside CREATE
      statements (alter.c).
    - Formatted text.  [Printf]: accumulators and conversions (printf.c), over
      an interface [Accum] that the buffers of the code and a plain list of
      bytes implement; [PrintfSpec]: the former refines the latter; [Quote]:
      numbers and quoted texts read back; [PrintfBounds]: what each conversion
      may write, with the floating point ones of [FloatText].

    ** What the theorems show

    - The connection a Btree handle presents refines an abstract one: idle,
      reading a snapshot, or writing with a stack of snapshots
      ([BtreeTxn.btree_txn_refinement]); at most one handle of an environment
      writes ([btree_single_writer]).  Tables are created with unused numbers,
      cleared and dropped without touching others, meta values read back; a
      scan visits every row once and ends, an inserted row is found, zero-filled
      tail included, where LMDB accepts it; cursor lists stay well formed.  The
      error theorems are runs that return the wrong result or leave a wrong
      state, as the findings of the manifest say.
    - Records round-trip: what OP_MakeRecord packs is what unpacking reads, and
      comparison of records is the field-by-field order of their cells, with
      the code's own rule for records of different lengths.  The key and data
      of an index entry are those of its columns and rowid, with long values
      replaced by a prefix and a hash; the unpacked key that the code passes
      beside them is not always the same ([IndexKey.squashIndexKey_stale]).
      Varints, UTF encodings, hexadecimal blobs, quoting and index keys
      round-trip as well; the decoder of varints, unrolled in the code, equals
      a loop.
    - Sorting rows gives back all memory and files whatever fails, and on
      success gives all rows; when nothing fails it succeeds
      ([SorterRows.sorter_sort_rows], [sorter_sort_live]).  The rows are sorted
      by the leading columns that the key compares, as far as no column holds
      integers in some rows and reals in others: there the comparison is no
      order ([vdbeSorterSort_mixed_numbers]).
    - A program that the checker accepts runs without undefined behaviour: no
      register is read before it is written, no assertion fails, no jump
      leaves the program, whatever allocations do
      ([VdbeRun.well_typed_programs_run]), as long as the functions it calls
      keep their contract, which [FuncSafe] proves of typeof and abs and
      refutes for instr; without jumps back it ends within its length.
      Arithmetic on integers is exact or falls back to doubles, but for the
      products that sqlite3MulInt64 lets wrap; logic is three-valued,
      comparisons follow the numbers and NULL, casts between integers and
      texts are inverse.
    - Integer arithmetic detects overflow exactly; text converts to integers
      with the three-way overflow result of the code.
    - sqlite3GetToken takes the longest lexeme of the grammar; sqlite3_complete
      agrees with the tokens it makes, but for those that the two scanners see
      differently; renaming replaces one token.
    - Formatting into fixed or growing buffers refines formatting into a list:
      a prefix that fits, or the whole text; printed integers and quoted texts
      are read back by sqlite3Atoi64, the tokenizer and sqlite3Dequote.  No
      conversion writes outside its buffer, but %c with a precision above 70
      and %f of small numbers.
    - Bitvec, RowSet and Hash refine plain sets and a finite map, for every
      sequence of operations, allocation failures included, with no leak.
      patternCompare decides the matching of a parsed pattern.
    - substr() and instr() count characters as SQLITE_SKIP_UTF8 and the test
      for continuation bytes separate them; replace() joins the pieces between
      the occurrences ([FuncSpec.substr_correct], [instr_correct],
      [replace_correct], for texts and integers when no allocation fails).

    ** Conventions

    A C integer is a [Z], wrapped where the C type wraps; a buffer is the list
    of its bytes and a pointer into it the suffix it points to.  A function
    that can leave its buffer, follow a dangling or NULL pointer or fail an
    assertion returns an option: [None] is undefined behaviour, and the
    theorems show when it does not happen.  Allocation and system calls that can
    fail take their outcomes from a list or a parameter the theorems quantify
    over.  Generated or platform dependent code is a class: the keyword table
    ([Keywords]) and, where no theorem depends on it, the text of floating point
    numbers ([FloatText], whose instance of that file is the code).  Doubles
    are IEEE binary64, long doubles the 80-bit format of x86, a cast of a double
    out of range gives the smallest integer, as on x86-64.  The interpreter
    takes the number of instructions as fuel and gives back the state where
    they run out.  Other loops without a structural measure take fuel: the length of the
    input for scans of strings, the number of elements in the store for linked
    lists, the size of a table for probing, the number of arrays and the bytes
    of a file for merging; the theorems give the bound that
    is enough, and state that the function returns.  Memory that the code reads
    before it is written has a value of the class [Indeterminate].  A memcpy
    between overlapping parts of a buffer, which C leaves undefined, is taken
    as memmove where the code makes one ([IndexKey]).

    ** What is not modelled, and why

    - LMDB (mdb.c, midl.c): not in the repository; it enters through classes of
      documented laws.  Its locking between processes is part of those laws.
    - The SQL compiler (parse.y, sqlite3RunParser, build.c, expr.c, resolve.c,
      select.c, where.c, insert.c, update.c, delete.c, trigger.c, fkey.c, the
      rest of alter.c, analyze.c, attach.c, vacuum.c, pragma.c, prepare.c, auth.c,
      callback.c, vtab.c, walker.c): code generation over large mutable syntax
      trees; its correctness needs a semantics of SQL.
    - The instructions of vdbe.c on cursors, transactions, trigger programs,
      aggregates and virtual tables, sqlite3VdbeHalt and the rest of vdbeaux.c,
      vdbeapi.c, vdbeblob.c, vdbetrace.c: they tie the components modelled here
      to a schema in memory, the state of a connection and the C API.  The
      text of an error message is converted, but not kept.
    - Of func.c: the aggregates, random(), soundex(), load_extension(), the
      functions on the state of a connection, and the registration.
    - Operating system and platform: the rest of os.c, os_unix.c, os_win.c, mutex_*.c,
      mem0.c to mem5.c, malloc.c, pager.c, pcache.c, pcache1.c, wal.c (the last
      four are stubs in this repository), memjournal.c, journal.c, loadext.c.
    - Interfaces, formatting and tools: main.c, legacy.c, table.c, shell.c,
      tclsqlite.c, date.c, status.c, ctime.c, notify.c, backup.c,
      random.c, the test_*.c files, ext/, tool/, not-forking/.
    - Assertions that only document (debug builds), mutexes (a connection is
      used by one thread at a time) and logging. *)

From Stdlib Require Export ZArith Lia.
From stdpp Require Export prelude gmap.

#[global] Open Scope Z_scope.

(** ** Machine integers

    A C integer of width [w] is a [Z]; every operation that can leave the
    width is followed by one of the wrappers below, exactly where the C
    conversion or the modular arithmetic happens. *)

Definition wrap_u (w : Z) (x : Z) : Z := x mod 2 ^ w.
Definition wrap_s (w : Z) (x : Z) : Z := (x + 2 ^ (w - 1)) mod 2 ^ w - 2 ^ (w - 1).

Abbreviation u8 := (wrap_u 8).
Abbreviation u16 := (wrap_u 16).
Abbreviation u32 := (wrap_u 32).
Abbreviation u64 := (wrap_u 64).
Abbreviation i8 := (wrap_s 8).
Abbreviation i32 := (wrap_s 32).
Abbreviation i64 := (wrap_s 64).

Definition in_u (w x : Z) : Prop := 0 <= x < 2 ^ w.
Definition in_s (w x : Z) : Prop := - 2 ^ (w - 1) <= x < 2 ^ (w - 1).

Abbreviation is_u8 := (in_u 8).
Abbreviation is_u32 := (in_u 32).
Abbreviation is_u64 := (in_u 64).
Abbreviation is_i32 := (in_s 32).
Abbreviation is_i64 := (in_s 64).

(** A buffer is the list of its bytes; reading outside it is undefined
    behaviour in C and [None] here. *)
Definition bytes_ok (p : list Z) : Prop := Forall is_u8 p.

Definition rd (p : list Z) (i : Z) : option Z :=
  if decide (0 <= i) then p !! Z.to_nat i else None.

(** ** Tactics *)

(** Unfold the width predicates and wrappers into arithmetic with literal
    powers of two. *)
Ltac unfold_int :=
  unfold in_u, in_s, wrap_u, wrap_s in *;
  change (2 ^ 8) with 256 in *; change (2 ^ 7) with 128 in *;
  change (2 ^ 16) with 65536 in *;
  change (2 ^ 32) with 4294967296 in *;
  change (2 ^ 31) with 2147483648 in *;
  change (2 ^ 64) with 18446744073709551616 in *;
  change (2 ^ 63) with 9223372036854775808 in *;
  change (2 ^ (8 - 1)) with 128 in *;
  change (2 ^ (32 - 1)) with 2147483648 in *;
  change (2 ^ (64 - 1)) with 9223372036854775808 in *.

Ltac zlia := unfold_int; Z.div_mod_to_equations; lia.

(** Split the boolean comparison that decides the goal. *)
Ltac zcase :=
  match goal with
  | |- context [Z.ltb ?a ?b] => destruct (Z.ltb_spec a b)
  | |- context [Z.leb ?a ?b] => destruct (Z.leb_spec a b)
  | |- context [Z.gtb ?a ?b] => rewrite (Z.gtb_ltb a b); destruct (Z.ltb_spec b a)
  | |- context [Z.geb ?a ?b] => rewrite (Z.geb_leb a b); destruct (Z.leb_spec b a)
  | |- context [Z.eqb ?a ?b] => destruct (Z.eqb_spec a b)
  end.

(** ** Bits *)

Lemma lor_disjoint_add a b n :
  0 <= n -> 0 <= b < 2 ^ n -> Z.lor (a * 2 ^ n) b = a * 2 ^ n + b.
Proof.
  intros Hn Hb. rewrite Z.lor_comm, (Z.add_comm _ b).
  symmetry. rewrite <- Z.lxor_lor; [apply Z.add_nocarry_lxor|];
    apply Z.bits_inj'; intros i Hi; rewrite Z.land_spec, Z.bits_0;
    (destruct (Z.lt_ge_cases i n) as [Hlt|Hge];
     [rewrite Z.mul_pow2_bits_low by lia; apply Bool.andb_false_r|
      rewrite <- (Z.mod_small b (2 ^ n)) by lia;
      rewrite Z.mod_pow2_bits_high by lia; reflexivity]).
Qed.

Lemma land_ones_mod x n : 0 <= n -> Z.land x (2 ^ n - 1) = x mod 2 ^ n.
Proof. intros. rewrite <- Z.land_ones, Z.ones_equiv by lia. f_equal. Qed.

Lemma wrap_u_small w x : in_u w x -> wrap_u w x = x.
Proof. apply Z.mod_small. Qed.

Lemma wrap_u_range w x : 0 <= w -> in_u w (wrap_u w x).
Proof. intros. apply Z.mod_pos_bound. apply Z.pow_pos_nonneg; lia. Qed.

Lemma wrap_s_small w x : 0 < w -> in_s w x -> wrap_s w x = x.
Proof.
  unfold in_s, wrap_s. intros Hw Hx.
  assert (2 ^ w = 2 * 2 ^ (w - 1)) as E.
  { rewrite <- Z.pow_succ_r by lia. f_equal. lia. }
  rewrite Z.mod_small; lia.
Qed.

Lemma i32_small x : - 2147483648 <= x < 2147483648 -> i32 x = x.
Proof. intros Hx. apply wrap_s_small; [lia|]. unfold in_s. change (2 ^ (32 - 1)) with 2147483648. lia. Qed.

Lemma wrap_s_range w x : 0 < w -> in_s w (wrap_s w x).
Proof.
  unfold in_s, wrap_s. intros Hw.
  assert (2 ^ w = 2 * 2 ^ (w - 1)) as E.
  { rewrite <- Z.pow_succ_r by lia. f_equal. lia. }
  pose proof (Z.mod_pos_bound (x + 2 ^ (w - 1)) (2 ^ w)).
  pose proof (Z.pow_pos_nonneg 2 (w - 1)). lia.
Qed.

(** The bytes and bits of [x] above a wrapped left shift. *)
Lemma lor_shl_add w a b n :
  0 <= n <= w -> 0 <= b < 2 ^ n ->
  Z.lor (wrap_u w (Z.shiftl a n)) b = wrap_u w (a * 2 ^ n) + b.
Proof.
  intros Hn Hb. rewrite Z.shiftl_mul_pow2 by lia. unfold wrap_u.
  replace w with (n + (w - n)) by lia.
  rewrite Z.pow_add_r, (Z.mul_comm a), Z.mul_mod_distr_l, Z.mul_comm by lia.
  apply lor_disjoint_add; lia.
Qed.

Lemma land_pow2 x n : 0 <= n -> Z.land x (2 ^ n) = if Z.testbit x n then 2 ^ n else 0.
Proof.
  intros Hn. apply Z.bits_inj'. intros i Hi.
  rewrite Z.land_spec, Z.pow2_bits_eqb by lia.
  destruct (Z.eqb_spec n i) as [->|Hne].
  - rewrite Bool.andb_true_r. destruct (Z.testbit x i) eqn:E.
    + by rewrite Z.pow2_bits_true.
    + by rewrite Z.bits_0.
  - rewrite Bool.andb_false_r. destruct (Z.testbit x n).
    + by rewrite Z.pow2_bits_false.
    + by rewrite Z.bits_0.
Qed.

(** The sign bit of the low byte. *)
Lemma land_80 x : (Z.land x 0x80 =? 0) = (x mod 256 <? 128).
Proof.
  change 0x80 with (2 ^ 7). rewrite land_pow2 by lia.
  destruct (Z.testbit x 7) eqn:E;
    [apply Z.testbit_true in E|apply Z.testbit_false in E]; try lia;
    change (2 ^ 7) with 128 in *;
    destruct (Z.ltb_spec (x mod 256) 128); try reflexivity; zlia.
Qed.

Lemma land_7f x : Z.land x 0x7f = x mod 128.
Proof. apply (land_ones_mod x 7). lia. Qed.

Lemma land_ff x : Z.land x 0xff = x mod 256.
Proof. apply (land_ones_mod x 8). lia. Qed.

(** A mask made of two fields. *)
Lemma land_fields x m n k :
  0 <= n -> 0 <= k -> 0 <= m < 2 ^ k ->
  Z.land x (m + n * 2 ^ k) = Z.land (x mod 2 ^ k) m + Z.land (x / 2 ^ k) n * 2 ^ k.
Proof.
  intros Hn Hk Hm.
  rewrite (Z.add_comm (Z.land _ m)), (Z.add_comm m).
  assert (0 <= Z.land (x mod 2 ^ k) m < 2 ^ k) as Hr.
  { replace (Z.land (x mod 2 ^ k) m) with (Z.land x m mod 2 ^ k);
      [apply Z.mod_pos_bound; lia|].
    rewrite <- !Z.land_ones, <- !Z.land_assoc by lia. f_equal. apply Z.land_comm. }
  rewrite <- !lor_disjoint_add by lia.
  apply Z.bits_inj'. intros i Hi.
  rewrite Z.land_spec, !Z.lor_spec, Z.land_spec.
  destruct (Z.lt_ge_cases i k).
  - rewrite !Z.mul_pow2_bits_low, Z.mod_pow2_bits_low by lia. reflexivity.
  - rewrite !Z.mul_pow2_bits, Z.land_spec by lia.
    rewrite <- Z.shiftr_div_pow2, Z.shiftr_spec by lia.
    replace (i - k + k) with i by lia.
    rewrite Z.mod_pow2_bits_high by lia.
    rewrite <- (Z.mod_small m (2 ^ k)), Z.mod_pow2_bits_high by lia.
    simpl. by rewrite !Bool.orb_false_r.
Qed.

(** [lor] acts separately on the part above bit [n] and the part below. *)
Lemma lor_fields a b c d n :
  0 <= n -> 0 <= b < 2 ^ n -> 0 <= d < 2 ^ n ->
  Z.lor (a * 2 ^ n + b) (c * 2 ^ n + d) = Z.lor a c * 2 ^ n + Z.lor b d.
Proof.
  intros Hn Hb Hd.
  assert (0 <= Z.lor b d < 2 ^ n) as Hr.
  { rewrite <- (Z.mod_small b (2 ^ n)), <- (Z.mod_small d (2 ^ n)) by lia.
    rewrite <- !Z.land_ones, <- Z.land_lor_distr_l, Z.land_ones by lia.
    apply Z.mod_pos_bound. lia. }
  rewrite <- !lor_disjoint_add by lia.
  rewrite <- !Z.shiftl_mul_pow2, Z.shiftl_lor by lia.
  rewrite !Z.lor_assoc. f_equal. rewrite <- !Z.lor_assoc. f_equal. apply Z.lor_comm.
Qed.

(** ** Buffers *)

Lemma rd_nat p (n : nat) : rd p (Z.of_nat n) = p !! n.
Proof. unfold rd. rewrite decide_True by lia. by rewrite Nat2Z.id. Qed.

Lemma rd_cons_0 x p : rd (x :: p) 0 = Some x.
Proof. reflexivity. Qed.

Lemma rd_cons_S x p i : 0 < i -> rd (x :: p) i = rd p (i - 1).
Proof.
  intros. unfold rd. rewrite !decide_True by lia.
  replace (Z.to_nat i) with (S (Z.to_nat (i - 1))) by lia. reflexivity.
Qed.

Lemma rd_byte p i b : bytes_ok p -> rd p i = Some b -> is_u8 b.
Proof.
  unfold rd. intros Hp H. case_decide; [|done].
  by apply (Forall_lookup_1 _ _ _ _ Hp H).
Qed.

Lemma bytes_ok_app p q : bytes_ok (p ++ q) <-> bytes_ok p /\ bytes_ok q.
Proof. apply Forall_app. Qed.

Lemma bytes_ok_drop n p : bytes_ok p -> bytes_ok (drop n p).
Proof. apply Forall_drop. Qed.

Create HintDb lumo discriminated.
Create Rewrite HintDb lumo.
#[export] Hint Resolve bytes_ok_drop wrap_u_range : lumo.
#[export] Hint Rewrite rd_nat rd_cons_0 : lumo.

(** ** Membership in a list of constants *)

Ltac not_in := rewrite ?not_elem_of_cons; repeat split; (lia || apply not_elem_of_nil).
Ltac in_cases H := rewrite ?elem_of_cons, ?elem_of_nil in H; destruct_or! H; try done; simplify_eq.
