(* ===== verification/Varint.v ===== *)
(** * Variable-length integers (src/lmdb-backend/src/util.c) *)

From S2P Require Import Prelude.

(** ** Writing *)

(** [for(i=7; i>=0; i--){ p[i] = (u8)((v & 0x7f) | 0x80); v >>= 7; }]:
    the bytes [p[0] .. p[n-1]] for a loop that still has [n] bytes to fill. *)
Fixpoint put_high (n : nat) (v : Z) (acc : list Z) : list Z :=
  match n with
  | O => acc
  | S n => put_high n (Z.shiftr v 7) (u8 (Z.lor (Z.land v 0x7f) 0x80) :: acc)
  end.

(** [do{ buf[n++] = (u8)((v & 0x7f) | 0x80); v >>= 7; }while( v!=0 )]: the
    bytes of [buf] from the current [n] on. *)
Fixpoint put_buf (fuel : nat) (v : Z) : list Z :=
  match fuel with
  | O => []
  | S fuel =>
      let byte := u8 (Z.lor (Z.land v 0x7f) 0x80) in
      let v := Z.shiftr v 7 in
      if v =? 0 then [byte] else byte :: put_buf fuel v
  end.

(** The bytes written at [p]; their number is the function's result. *)
Definition sqlite3PutVarint (v : Z) : list Z :=
  if negb (Z.land v (Z.shiftl 0xff000000 32) =? 0) then
    put_high 8 (Z.shiftr v 8) [u8 v]
  else
    match put_buf 10 v with
    | [] => []
    | b0 :: buf => rev (Z.land b0 0x7f :: buf)
    end.

Definition sqlite3PutVarint32 (v : Z) : list Z :=
  if Z.land v (u32 (Z.lnot 0x3fff)) =? 0 then
    [u8 (Z.lor (Z.shiftr v 7) 0x80); u8 (Z.land v 0x7f)]
  else sqlite3PutVarint v.

(** The [putVarint32] macro (sqliteInt.h). *)
Definition putVarint32 (v : Z) : list Z :=
  if v <? 0x80 then [u8 v] else sqlite3PutVarint32 v.

(** ** Reading *)

Definition SLOT_2_0 : Z := 0x001fc07f.
Definition SLOT_4_2_0 : Z := 0xf01fc07f.

(** The five- to nine-byte cases.  [a] is [p0<<14 | p2] (masked), [b] is
    [p1<<14 | p3] (unmasked). *)
Definition sqlite3GetVarint_5_9 (p : list Z) (a b : Z) : option (Z * Z) :=
  let b := Z.land b SLOT_2_0 in
  let s := a in
  c ← rd p 4;
  let a := Z.lor (u32 (Z.shiftl a 14)) c in
  if Z.land a 0x80 =? 0 then
    let b := u32 (Z.shiftl b 7) in
    let a := Z.lor a b in
    let s := Z.shiftr s 18 in
    Some (5, Z.lor (u64 (Z.shiftl s 32)) a)
  else
  let s := u32 (Z.shiftl s 7) in
  let s := Z.lor s b in
  c ← rd p 5;
  let b := Z.lor (u32 (Z.shiftl b 14)) c in
  if Z.land b 0x80 =? 0 then
    let a := Z.land a SLOT_2_0 in
    let a := u32 (Z.shiftl a 7) in
    let a := Z.lor a b in
    let s := Z.shiftr s 18 in
    Some (6, Z.lor (u64 (Z.shiftl s 32)) a)
  else
  c ← rd p 6;
  let a := Z.lor (u32 (Z.shiftl a 14)) c in
  if Z.land a 0x80 =? 0 then
    let a := Z.land a SLOT_4_2_0 in
    let b := Z.land b SLOT_2_0 in
    let b := u32 (Z.shiftl b 7) in
    let a := Z.lor a b in
    let s := Z.shiftr s 11 in
    Some (7, Z.lor (u64 (Z.shiftl s 32)) a)
  else
  let a := Z.land a SLOT_2_0 in
  c ← rd p 7;
  let b := Z.lor (u32 (Z.shiftl b 14)) c in
  if Z.land b 0x80 =? 0 then
    let b := Z.land b SLOT_4_2_0 in
    let a := u32 (Z.shiftl a 7) in
    let a := Z.lor a b in
    let s := Z.shiftr s 4 in
    Some (8, Z.lor (u64 (Z.shiftl s 32)) a)
  else
  c ← rd p 8;
  let a := u32 (Z.shiftl a 15) in
  let a := Z.lor a c in
  let b := Z.land b SLOT_2_0 in
  let b := u32 (Z.shiftl b 8) in
  let a := Z.lor a b in
  let s := u32 (Z.shiftl s 4) in
  b ← rd p 4;
  let b := Z.land b 0x7f in
  let b := Z.shiftr b 3 in
  let s := Z.lor s b in
  Some (9, Z.lor (u64 (Z.shiftl s 32)) a).

(** The number of bytes read and [*v]. *)
Definition sqlite3GetVarint (p : list Z) : option (Z * Z) :=
  a ← rd p 0;
  if Z.land a 0x80 =? 0 then Some (1, a)
  else
  b ← rd p 1;
  if Z.land b 0x80 =? 0 then
    let a := Z.land a 0x7f in
    let a := u32 (Z.shiftl a 7) in
    Some (2, Z.lor a b)
  else
  c ← rd p 2;
  let a := Z.lor (u32 (Z.shiftl a 14)) c in
  if Z.land a 0x80 =? 0 then
    let a := Z.land a SLOT_2_0 in
    let b := Z.land b 0x7f in
    let b := u32 (Z.shiftl b 7) in
    Some (3, Z.lor a b)
  else
  let a := Z.land a SLOT_2_0 in
  c ← rd p 3;
  let b := Z.lor (u32 (Z.shiftl b 14)) c in
  if Z.land b 0x80 =? 0 then
    let b := Z.land b SLOT_2_0 in
    let a := u32 (Z.shiftl a 7) in
    Some (4, Z.lor a b)
  else sqlite3GetVarint_5_9 p a b.

Definition SQLITE_MAX_U32 : Z := 0xffffffff.

Definition sqlite3GetVarint32 (p : list Z) : option (Z * Z) :=
  a ← rd p 0;
  b ← rd p 1;
  if Z.land b 0x80 =? 0 then
    let a := Z.land a 0x7f in
    let a := u32 (Z.shiftl a 7) in
    Some (2, Z.lor a b)
  else
  c ← rd p 2;
  let a := Z.lor (u32 (Z.shiftl a 14)) c in
  if Z.land a 0x80 =? 0 then
    let a := Z.land a (Z.lor (Z.shiftl 0x7f 14) 0x7f) in
    let b := Z.land b 0x7f in
    let b := u32 (Z.shiftl b 7) in
    Some (3, Z.lor a b)
  else
  '(n, v64) ← sqlite3GetVarint p;
  if negb (Z.land v64 SQLITE_MAX_U32 =? v64) then Some (n, 0xffffffff)
  else Some (n, u32 v64).

(** The [getVarint32] macro (sqliteInt.h). *)
Definition getVarint32 (p : list Z) : option (Z * Z) :=
  a ← rd p 0;
  if a <? 0x80 then Some (1, a) else sqlite3GetVarint32 p.

(** [do{ i++; v >>= 7; }while( v!=0 && ALWAYS(i<9) )] *)
Fixpoint varint_len_loop (fuel : nat) (i v : Z) : Z :=
  match fuel with
  | O => i
  | S fuel =>
      let i := i + 1 in
      let v := Z.shiftr v 7 in
      if negb (v =? 0) && (i <? 9) then varint_len_loop fuel i v else i
  end.

Definition sqlite3VarintLen (v : Z) : Z := varint_len_loop 10 0 v.

Definition sqlite3Get4byte (p : list Z) : option Z :=
  p0 ← rd p 0; p1 ← rd p 1; p2 ← rd p 2; p3 ← rd p 3;
  Some (Z.lor (Z.lor (Z.lor (u32 (Z.shiftl p0 24)) (Z.shiftl p1 16))
                     (Z.shiftl p2 8)) p3).

Definition sqlite3Put4byte (v : Z) : list Z :=
  [u8 (Z.shiftr v 24); u8 (Z.shiftr v 16); u8 (Z.shiftr v 8); u8 v].

(** ** The reference encoding

    "7 bits - A; 14 bits - BA; ...; 64 bits - BBBBBBBBC": up to eight bytes
    with seven bits each, the high bit set on all but the last, then a ninth
    byte with eight bits. *)
Fixpoint varint_ref (k : nat) (acc : Z) (p : list Z) {struct p} : option (Z * Z) :=
  match p with
  | [] => None
  | b :: p =>
      match k with
      | O => Some (1, acc * 256 + b)
      | S k =>
          if b <? 128 then Some (1, acc * 128 + b)
          else '(n, v) ← varint_ref k (acc * 128 + (b - 128)) p; Some (n + 1, v)
      end
  end.

Definition varint_decode (p : list Z) : option (Z * Z) := varint_ref 8 0 p.

(** ** Three-field accumulators

    Every value of the locals [a] and [b] is [x<<28 | y<<14 | z]; the decoder's
    steps act on the fields. *)
Definition fld (x y z : Z) : Z := x * 2 ^ 28 + y * 2 ^ 14 + z.

Lemma fld_0 z : z = fld 0 0 z.
Proof. reflexivity. Qed.

Lemma fld_test x y z : 0 <= z < 256 -> (Z.land (fld x y z) 0x80 =? 0) = (z <? 128).
Proof.
  intros. rewrite land_80. replace (fld x y z mod 256) with z; [done|].
  unfold fld. change (2 ^ 28) with (1048576 * 256). change (2 ^ 14) with (64 * 256). zlia.
Qed.

Lemma fld_step x y z c :
  0 <= y < 256 -> 0 <= z < 256 -> 0 <= c < 256 ->
  Z.lor (u32 (Z.shiftl (fld x y z) 14)) c = fld (y mod 16) z c.
Proof.
  intros. rewrite (lor_shl_add 32) by lia. unfold fld.
  change (2 ^ 28) with 268435456. change (2 ^ 14) with 16384. zlia.
Qed.

Lemma land_SLOT_2_0 x :
  Z.land x SLOT_2_0 = x mod 128 + (x / 2 ^ 14) mod 128 * 2 ^ 14.
Proof.
  change SLOT_2_0 with (127 + 127 * 2 ^ 14).
  rewrite land_fields, !land_7f by lia. change (2 ^ 14) with 16384. zlia.
Qed.

Lemma land_SLOT_4_2_0 x :
  Z.land x SLOT_4_2_0
  = x mod 128 + (x / 2 ^ 14) mod 128 * 2 ^ 14 + (x / 2 ^ 28) mod 16 * 2 ^ 28.
Proof.
  change SLOT_4_2_0 with (SLOT_2_0 + 15 * 2 ^ 28).
  rewrite land_fields by (unfold SLOT_2_0; lia).
  rewrite land_SLOT_2_0. change 15 with (2 ^ 4 - 1). rewrite land_ones_mod by lia.
  change (2 ^ 28) with 268435456. change (2 ^ 14) with 16384. change (2 ^ 4) with 16. zlia.
Qed.

Lemma fld_mask x y z :
  0 <= y < 256 -> 0 <= z < 256 ->
  Z.land (fld x y z) SLOT_2_0 = fld 0 (y mod 128) (z mod 128).
Proof.
  intros. rewrite land_SLOT_2_0. unfold fld.
  change (2 ^ 28) with 268435456. change (2 ^ 14) with 16384. zlia.
Qed.

Lemma fld_mask4 x y z :
  0 <= x < 16 -> 0 <= y < 256 -> 0 <= z < 256 ->
  Z.land (fld x y z) SLOT_4_2_0 = fld x (y mod 128) (z mod 128).
Proof.
  intros. rewrite land_SLOT_4_2_0. unfold fld.
  change (2 ^ 28) with 268435456. change (2 ^ 14) with 16384. zlia.
Qed.

(** Merging the even and the odd seven-bit groups; the lowest group has [w]
    bits. *)
Lemma lor_groups w x y z y' z' :
  0 <= w -> 0 <= z < 2 ^ w -> 0 <= y < 128 -> 0 <= z' < 128 -> 0 <= y' < 128 ->
  Z.lor (((x * 128 + 0) * 128 + y) * 128 * 2 ^ w + z)
        (((0 * 128 + y') * 128 + 0) * 128 * 2 ^ w + z' * 2 ^ w)
  = (((x * 128 + y') * 128 + y) * 128 + z') * 2 ^ w + z.
Proof.
  intros.
  replace (((x * 128 + 0) * 128 + y) * 128 * 2 ^ w + z)
    with ((((x * 2 ^ 7 + 0) * 2 ^ 7 + y) * 2 ^ 7 + 0) * 2 ^ w + z)
    by (change (2 ^ 7) with 128; ring).
  replace (((0 * 128 + y') * 128 + 0) * 128 * 2 ^ w + z' * 2 ^ w)
    with ((((0 * 2 ^ 7 + y') * 2 ^ 7 + 0) * 2 ^ 7 + z') * 2 ^ w + 0)
    by (change (2 ^ 7) with 128; ring).
  rewrite !lor_fields by (change (2 ^ 7) with 128; lia).
  rewrite !Z.lor_0_r, !Z.lor_0_l. change (2 ^ 7) with 128. ring.
Qed.

Lemma fld_merge x y z y' z' :
  0 <= y < 128 -> 0 <= z < 128 -> 0 <= y' < 128 -> 0 <= z' < 128 ->
  Z.lor (fld x y z) (u32 (Z.shiftl (fld 0 y' z') 7))
  = (((x * 128 + y') * 128 + y) * 128 + z') * 128 + z.
Proof.
  intros. change 128 with (2 ^ 7) at 4. rewrite <- lor_groups by (change (2 ^ 7) with 128; lia).
  rewrite Z.shiftl_mul_pow2 by lia. unfold fld.
  change (2 ^ 28) with 268435456. change (2 ^ 14) with 16384. change (2 ^ 7) with 128.
  f_equal; zlia.
Qed.

(** The value assembled from the high word and the low word. *)
Lemma hi_lo s lo :
  0 <= s < 4294967296 -> 0 <= lo < 4294967296 ->
  Z.lor (u64 (Z.shiftl s 32)) lo = s * 4294967296 + lo.
Proof. intros. rewrite (lor_shl_add 64 s lo 32) by lia. zlia. Qed.

(** The low word of the nine-byte case. *)
Lemma merge_last y z c y' z' :
  0 <= y < 128 -> 0 <= z < 128 -> 0 <= y' < 128 -> 0 <= z' < 128 -> 0 <= c < 256 ->
  Z.lor (Z.lor (u32 (Z.shiftl (fld 0 y z) 15)) c) (u32 (Z.shiftl (fld 0 y' z') 8))
  = ((((y mod 8) * 128 + y') * 128 + z) * 128 + z') * 256 + c.
Proof.
  intros. change 256 with (2 ^ 8).
  rewrite <- lor_groups, (lor_shl_add 32) by (try change (2 ^ 8) with 256; zlia).
  rewrite Z.shiftl_mul_pow2 by lia. unfold fld.
  change (2 ^ 28) with 268435456. change (2 ^ 14) with 16384.
  change (2 ^ 15) with 32768. change (2 ^ 8) with 256.
  f_equal; zlia.
Qed.

Lemma unflag l : 0 <= l < 128 -> (l + 128) mod 128 = l.
Proof. intros. zlia. Qed.

Lemma unflag_id l : 0 <= l < 128 -> l mod 128 = l.
Proof. intros. zlia. Qed.

(** The saved word [s], and the values of the six- to nine-byte cases. *)
Lemma fld_save l0 l1 l2 l3 :
  0 <= l0 < 128 -> 0 <= l1 < 128 -> 0 <= l2 < 128 -> 0 <= l3 < 128 ->
  Z.lor (u32 (Z.shiftl (fld 0 l0 l2) 7)) (fld 0 l1 l3)
  = ((l0 * 128 + l1) * 128 + l2) * 128 + l3.
Proof. intros. rewrite Z.lor_comm, fld_merge by lia. lia. Qed.

Ltac fld_simpl :=
  repeat first
    [ rewrite fld_test by zlia | rewrite fld_step by zlia
    | rewrite fld_mask by zlia | rewrite fld_mask4 by zlia
    | rewrite unflag by lia | rewrite unflag_id by lia
    | rewrite fld_save by lia ].

(** Read the next byte [q] of the buffer, whose rest is [r]. *)
Ltac next_byte q r Hr Hq :=
  destruct r as [|q r]; [done|]; apply Forall_cons in Hr as [Hq Hr];
  match goal with
  | |- context [rd ?l ?k] => change (rd l k) with (Some q)
  end;
  cbn [mbind option_bind varint_ref]; fld_simpl.

(** The byte [q] ends the integer: compare the two values. *)
Ltac last_byte :=
  cbn [mbind option_bind]; apply (f_equal Some), f_equal2; [reflexivity|];
  rewrite ?(Z.lor_comm (u32 _) (fld _ _ _)), ?fld_merge, ?merge_last by zlia;
  rewrite ?Z.shiftr_div_pow2 by lia;
  rewrite ?hi_lo; unfold fld;
  repeat match goal with
    | |- context [2 ^ ?k] => let v := eval cbv in (2 ^ k) in change (2 ^ k) with v
    end; zlia.

(** The byte [q] has the continuation bit and seven data bits [l]. *)
Ltac more_bytes q l H :=
  let E := fresh in
  assert (exists l, q = l + 128 /\ 0 <= l < 128) as (l & E & ?)
    by (exists (q - 128); zlia);
  subst q; clear H; rewrite ?Z.add_simpl_r; fld_simpl.

Section Groups.
  (** The first four bytes, all with the continuation bit. *)
  Context (l0 l1 l2 l3 : Z) (p : list Z).
  Hypothesis (H0 : 0 <= l0 < 128) (H1 : 0 <= l1 < 128)
             (H2 : 0 <= l2 < 128) (H3 : 0 <= l3 < 128).
  Hypothesis Hp : bytes_ok p.

Lemma getvarint_5_9_ref :
    sqlite3GetVarint_5_9 (l0 + 128 :: l1 + 128 :: l2 + 128 :: l3 + 128 :: p)
      (fld 0 l0 l2) (fld 0 (l1 + 128) (l3 + 128))
    = '(n, v) ← varint_ref 4 (((l0 * 128 + l1) * 128 + l2) * 128 + l3) p; Some (n + 4, v).
  Proof.
    unfold sqlite3GetVarint_5_9. fld_simpl. revert Hp. generalize p. clear p. intros r Hr.
    next_byte p4 r Hr Hb4.
    destruct (Z.ltb_spec p4 128); [last_byte|]. more_bytes p4 l4 Hb4.
    next_byte p5 r Hr Hb5.
    destruct (Z.ltb_spec p5 128); [last_byte|]. more_bytes p5 l5 Hb5.
    next_byte p6 r Hr Hb6.
    destruct (Z.ltb_spec p6 128); [last_byte|]. more_bytes p6 l6 Hb6.
    next_byte p7 r Hr Hb7.
    destruct (Z.ltb_spec p7 128); [last_byte|]. more_bytes p7 l7 Hb7.
    next_byte p8 r Hr Hb8.
    rewrite land_7f, unflag, merge_last by zlia.
    rewrite (Z.shiftr_div_pow2 l4), (lor_shl_add 32) by zlia.
    apply (f_equal Some), f_equal2; [reflexivity|].
    change (2 ^ 3) with 8. change (2 ^ 4) with 16. rewrite hi_lo by zlia. zlia.
  Qed.
End Groups.

Lemma fld_start z c :
  0 <= z < 256 -> 0 <= c < 256 -> Z.lor (u32 (Z.shiftl z 14)) c = fld 0 z c.
Proof. intros. rewrite (fld_0 z), fld_step by lia. reflexivity. Qed.

Lemma lor_start x c :
  0 <= x < 128 -> 0 <= c < 128 -> Z.lor (u32 (Z.shiftl x 7)) c = x * 128 + c.
Proof. intros. rewrite (lor_shl_add 32) by lia. change (2 ^ 7) with 128. zlia. Qed.

(** The unrolled decoder computes the reference decoding, on every buffer. *)
Lemma getvarint_ref p : bytes_ok p -> sqlite3GetVarint p = varint_decode p.
Proof.
  intros Hr. unfold sqlite3GetVarint, varint_decode. rename p into r.
  next_byte p0 r Hr Hb0. rewrite (fld_0 p0) at 1. fld_simpl.
  destruct (Z.ltb_spec p0 128); [done|]. more_bytes p0 l0 Hb0.
  next_byte p1 r Hr Hb1. rewrite (fld_0 p1) at 1. fld_simpl.
  destruct (Z.ltb_spec p1 128).
  { rewrite land_7f, unflag, lor_start by zlia. done. }
  more_bytes p1 l1 Hb1. rewrite land_7f, unflag by lia.
  change (Z.shiftl l1 7) with (Z.shiftl (fld 0 0 l1) 7).
  next_byte p2 r Hr Hb2. rewrite fld_start by zlia. fld_simpl.
  destruct (Z.ltb_spec p2 128); [last_byte|]. more_bytes p2 l2 Hb2.
  next_byte p3 r Hr Hb3. rewrite fld_start by zlia. fld_simpl.
  destruct (Z.ltb_spec p3 128); [last_byte|]. more_bytes p3 l3 Hb3.
  rewrite getvarint_5_9_ref by done. cbn [Z.mul Z.add].
  destruct (varint_ref _ _ _) as [[n v]|]; [|done]. cbn. do 2 f_equal. lia.
Qed.

(** ** The encoder *)

Lemma flagged_byte v : u8 (Z.lor (Z.land v 0x7f) 0x80) = v mod 128 + 128.
Proof.
  rewrite land_7f, Z.lor_comm. change 0x80 with (1 * 2 ^ 7).
  rewrite lor_disjoint_add by (change (2 ^ 7) with 128; zlia).
  change (2 ^ 7) with 128. zlia.
Qed.

Lemma shiftr_7 v : Z.shiftr v 7 = v / 128.
Proof. apply (Z.shiftr_div_pow2 v 7). lia. Qed.

Lemma put_high_decode n : forall k a v acc,
  varint_ref (n + k) a (put_high n v acc)
  = '(m, x) ← varint_ref k (a * 128 ^ Z.of_nat n + v mod 128 ^ Z.of_nat n) acc;
    Some (m + Z.of_nat n, x).
Proof.
  induction n as [|n IH]; intros k a v acc; cbn [put_high].
  - change (128 ^ Z.of_nat 0) with 1. rewrite Z.mod_1_r, Z.mul_1_r, Z.add_0_r.
    destruct (varint_ref _ _ _) as [[m x]|]; cbn; [|done]. by rewrite Z.add_0_r.
  - replace (S n + k)%nat with (n + S k)%nat by lia.
    rewrite IH, flagged_byte, shiftr_7. cbn [varint_ref].
    destruct (Z.ltb_spec (v mod 128 + 128) 128); [zlia|].
    rewrite Z.add_simpl_r, Nat2Z.inj_succ, Z.pow_succ_r by lia.
    replace ((a * 128 ^ Z.of_nat n + (v / 128) mod 128 ^ Z.of_nat n) * 128 + v mod 128)
      with (a * (128 * 128 ^ Z.of_nat n) + v mod (128 * 128 ^ Z.of_nat n))
      by (rewrite Z.rem_mul_r by lia; lia).
    destruct (varint_ref _ _ _) as [[m x]|]; cbn; [|done]. do 2 f_equal. lia.
Qed.

Lemma put_high_length n : forall v acc, length (put_high n v acc) = (n + length acc)%nat.
Proof. induction n; intros; cbn; [done|]. rewrite IHn. cbn. lia. Qed.

Lemma put_high_bytes n : forall v acc, bytes_ok acc -> bytes_ok (put_high n v acc).
Proof.
  induction n; intros; cbn; [done|]. apply IHn. apply Forall_cons. split; [|done].
  apply wrap_u_range. lia.
Qed.

(** The buffer, reversed, is the big-endian sequence of groups. *)
Lemma put_buf_rev f : forall v acc,
  rev (put_buf f v) ++ acc = put_high (length (put_buf f v)) v acc.
Proof.
  induction f as [|f IH]; intros v acc; cbn [put_buf]; [done|].
  destruct (Z.shiftr v 7 =? 0); [done|].
  cbn [rev length put_high]. rewrite <- app_assoc. apply IH.
Qed.

Lemma put_buf_bound f : forall v,
  0 <= v < 128 ^ Z.of_nat f -> (0 < f)%nat ->
  v < 128 ^ Z.of_nat (length (put_buf f v)) /\ (0 < length (put_buf f v))%nat.
Proof.
  induction f as [|f IH]; intros v Hv Hf; [lia|]. cbn [put_buf]. rewrite shiftr_7.
  rewrite Nat2Z.inj_succ, Z.pow_succ_r in Hv by lia.
  destruct (Z.eqb_spec (v / 128) 0); cbn [length].
  - change (128 ^ Z.of_nat 1) with 128. zlia.
  - destruct f as [|f]; [change (128 ^ Z.of_nat 0) with 1 in Hv; zlia|].
    destruct (IH (v / 128)) as [Hb ?]; [zlia|lia|].
    rewrite Nat2Z.inj_succ, Z.pow_succ_r by lia. split; [zlia|lia].
Qed.

Lemma put_buf_len k : forall f v i,
  0 <= v < 128 ^ Z.of_nat k -> (0 < k <= f)%nat -> i + Z.of_nat k <= 9 ->
  varint_len_loop f i v = i + Z.of_nat (length (put_buf f v)).
Proof.
  induction k as [|k IH]; intros f v i Hv Hf Hi; [lia|].
  destruct f as [|f]; [lia|]. cbn [varint_len_loop put_buf]. rewrite shiftr_7.
  rewrite Nat2Z.inj_succ, Z.pow_succ_r in Hv by lia.
  destruct (Z.eqb_spec (v / 128) 0); cbn [length negb andb]; [lia|].
  destruct k as [|k]; [change (128 ^ Z.of_nat 0) with 1 in Hv; zlia|].
  destruct (Z.ltb_spec (i + 1) 9); [|lia]. rewrite IH; [lia|zlia|lia|lia].
Qed.

(** The length loop stops at nine bytes. *)
Lemma varint_len_nine n : forall f v i,
  128 ^ Z.of_nat n <= v -> i + Z.of_nat n = 8 -> (n < f)%nat ->
  varint_len_loop f i v = 9.
Proof.
  induction n as [|n IH]; intros f v i Hv Hi Hf;
    (destruct f as [|f]; [lia|]); cbn [varint_len_loop]; rewrite shiftr_7.
  - replace i with 8 by lia. by rewrite Bool.andb_false_r.
  - rewrite Nat2Z.inj_succ, Z.pow_succ_r in Hv by lia.
    pose proof (Z.pow_pos_nonneg 128 (Z.of_nat n)).
    destruct (Z.eqb_spec (v / 128) 0); [zlia|].
    destruct (Z.ltb_spec (i + 1) 9); [|lia]. apply IH; [zlia|lia|lia].
Qed.

(** Fuel beyond the length does not matter. *)
Lemma put_buf_fuel f g : forall v,
  0 <= v < 128 ^ Z.of_nat f -> (0 < f <= g)%nat -> put_buf g v = put_buf f v.
Proof.
  revert g. induction f as [|f IH]; intros g v Hv Hf; [lia|].
  destruct g as [|g]; [lia|]. cbn [put_buf]. rewrite shiftr_7.
  rewrite Nat2Z.inj_succ, Z.pow_succ_r in Hv by lia.
  destruct (Z.eqb_spec (v / 128) 0); [done|]. f_equal.
  destruct f as [|f]; [change (128 ^ Z.of_nat 0) with 1 in Hv; zlia|].
  apply IH; [zlia|lia].
Qed.

Lemma put_test v :
  is_u64 v -> (Z.land v (Z.shiftl 0xff000000 32) =? 0) = (v <? 2 ^ 56).
Proof.
  intros Hv. change (Z.shiftl 0xff000000 32) with (0 + 255 * 2 ^ 56).
  rewrite land_fields, Z.land_0_r, land_ff by lia.
  change (2 ^ 56) with 72057594037927936.
  destruct (Z.eqb_spec (0 + (v / 72057594037927936) mod 256 * 72057594037927936) 0);
    destruct (Z.ltb_spec v 72057594037927936); try done; zlia.
Qed.

Lemma put_high_app n : forall v acc r, put_high n v acc ++ r = put_high n v (acc ++ r).
Proof. induction n; intros; cbn; [done|]. by rewrite IHn. Qed.

Lemma put_buf_cons f v :
  0 <= v < 128 ^ Z.of_nat f -> (0 < f)%nat ->
  exists buf, put_buf f v = (v mod 128 + 128) :: buf
    /\ (forall acc, rev buf ++ acc = put_high (length buf) (v / 128) acc)
    /\ (length buf < f)%nat /\ v < 128 * 128 ^ Z.of_nat (length buf).
Proof.
  intros Hv Hf. destruct (put_buf_bound f v Hv Hf) as [Hb _].
  assert (length (put_buf f v) <= f)%nat as Hl.
  { clear. revert v. induction f as [|f IH]; intros v; cbn; [lia|].
    destruct (_ =? 0); cbn; [lia|]. specialize (IH (Z.shiftr v 7)). lia. }
  destruct f as [|f]; [lia|]. cbn [put_buf] in *. rewrite flagged_byte, shiftr_7 in *.
  destruct (v / 128 =? 0); eexists; (split; [reflexivity|]); cbn [length] in *;
    rewrite Nat2Z.inj_succ, Z.pow_succ_r in Hb by lia;
    (split; [intros; first [done|apply put_buf_rev]|]); (split; [lia|done]).
Qed.

(** The three views of the encoder: what it decodes to, its length, its bytes. *)
Lemma putvarint_lo v rest :
  0 <= v < 128 ^ Z.of_nat 8 ->
  varint_decode (sqlite3PutVarint v ++ rest)
    = Some (Z.of_nat (length (sqlite3PutVarint v)), v)
  /\ Z.of_nat (length (sqlite3PutVarint v)) = sqlite3VarintLen v
  /\ bytes_ok (sqlite3PutVarint v).
Proof.
  intros Hv. unfold sqlite3PutVarint, sqlite3VarintLen, varint_decode.
  rewrite put_test by (unfold_int; lia). change (2 ^ 56) with (128 ^ Z.of_nat 8).
  destruct (Z.ltb_spec v (128 ^ Z.of_nat 8)); [cbn [negb]|lia].
  rewrite (put_buf_len 8), (put_buf_fuel 8 10) by (try lia; unfold_int; lia).
  destruct (put_buf_cons 8 v Hv) as (buf & -> & Hrev & Hlen & Hb); [lia|].
  rewrite land_7f, unflag by zlia. cbn [rev]. rewrite <- app_assoc, Hrev.
  rewrite length_app, length_rev. cbn [length app].
  replace 8%nat with (length buf + S (7 - length buf))%nat by lia.
  rewrite put_high_decode. cbn [varint_ref].
  destruct (Z.ltb_spec (v mod 128) 128); [|zlia]. cbn [mbind option_bind].
  rewrite (Z.mod_small (v / 128)) by zlia.
  split; [do 2 f_equal; zlia|]. split; [lia|].
  rewrite Hrev. apply put_high_bytes, Forall_cons. split; [zlia|constructor].
Qed.

Lemma putvarint_hi v rest :
  128 ^ Z.of_nat 8 <= v < 2 ^ 64 ->
  varint_decode (sqlite3PutVarint v ++ rest)
    = Some (Z.of_nat (length (sqlite3PutVarint v)), v)
  /\ Z.of_nat (length (sqlite3PutVarint v)) = sqlite3VarintLen v
  /\ bytes_ok (sqlite3PutVarint v).
Proof.
  intros Hv. unfold sqlite3PutVarint, sqlite3VarintLen, varint_decode.
  rewrite put_test by (unfold_int; lia). change (2 ^ 56) with (128 ^ Z.of_nat 8).
  destruct (Z.ltb_spec v (128 ^ Z.of_nat 8)); [lia|cbn [negb]].
  rewrite (varint_len_nine 8), put_high_length, put_high_app by lia.
  rewrite (put_high_decode 8 0), Z.shiftr_div_pow2 by lia. cbn [app varint_ref].
  change (128 ^ Z.of_nat 8) with 72057594037927936 in *.
  split; [cbn [mbind option_bind]; do 2 f_equal; change (2 ^ 8) with 256; zlia|].
  split; [done|]. apply put_high_bytes, Forall_cons. split; [zlia|constructor].
Qed.

Lemma putvarint_spec v rest :
  is_u64 v ->
  varint_decode (sqlite3PutVarint v ++ rest)
    = Some (Z.of_nat (length (sqlite3PutVarint v)), v)
  /\ Z.of_nat (length (sqlite3PutVarint v)) = sqlite3VarintLen v
  /\ bytes_ok (sqlite3PutVarint v).
Proof.
  intros Hv. destruct (Z.lt_ge_cases v (128 ^ Z.of_nat 8)).
  - apply putvarint_lo. unfold_int. lia.
  - apply putvarint_hi. unfold_int. lia.
Qed.

(** ** The 32-bit variants *)

Lemma varint_ref_range k : forall acc p n v,
  bytes_ok p -> varint_ref k acc p = Some (n, v) -> 0 <= acc -> 1 <= n <= Z.of_nat k + 1 /\ 0 <= v.
Proof.
  induction k as [|k IH]; intros acc [|b p] n v Hp H Hacc; cbn in H; try done;
    apply Forall_cons in Hp as [Hb Hp]; [simplify_eq; zlia|].
  destruct (Z.ltb_spec b 128); [simplify_eq; zlia|].
  destruct (varint_ref k _ p) as [[n' v']|] eqn:E; cbn in H; simplify_eq.
  apply IH in E; [lia|done|zlia].
Qed.

Lemma sat_u32 v : 0 <= v ->
  (if negb (Z.land v SQLITE_MAX_U32 =? v) then 0xffffffff else u32 v)
  = Z.min v SQLITE_MAX_U32.
Proof.
  intros Hv. change SQLITE_MAX_U32 with (2 ^ 32 - 1). rewrite land_ones_mod by lia.
  unfold wrap_u. change (2 ^ 32) with 4294967296.
  destruct (Z.eqb_spec (v mod 4294967296) v); cbn [negb]; zlia.
Qed.

(** [getVarint32] is the full decoder followed by saturation. *)
Lemma getVarint32_ref p :
  bytes_ok p ->
  getVarint32 p = '(n, v) ← varint_decode p; Some (n, Z.min v SQLITE_MAX_U32).
Proof.
  intros Hp. unfold getVarint32.
  destruct p as [|p0 p]; [done|]. change (rd (p0 :: p) 0) with (Some p0).
  apply Forall_cons in Hp as Hp'. destruct Hp' as [H0 Hp'].
  cbn [mbind option_bind]. unfold varint_decode, sqlite3GetVarint32. cbn [varint_ref].
  destruct (Z.ltb_spec p0 128).
  { cbn [mbind option_bind]. do 2 f_equal. unfold SQLITE_MAX_U32. zlia. }
  pose proof (getvarint_ref _ Hp) as Href. unfold varint_decode in Href. cbn [varint_ref] in Href.
  destruct (Z.ltb_spec p0 128) as [?|_]; [lia|].
  destruct p as [|p1 r]; [done|]. apply Forall_cons in Hp' as [H1 Hr].
  revert Href. more_bytes p0 l0 H0. intros Href.
  change (rd (l0 + 128 :: p1 :: r) 0) with (Some (l0 + 128)).
  change (rd (l0 + 128 :: p1 :: r) 1) with (Some p1).
  cbn [mbind option_bind varint_ref] in *. rewrite (fld_0 p1) at 1. fld_simpl.
  destruct (Z.ltb_spec p1 128).
  { rewrite land_7f, unflag, lor_start by zlia. cbn [mbind option_bind]; do 2 f_equal; unfold SQLITE_MAX_U32; zlia. }
  revert Href. more_bytes p1 l1 H1. intros Href. rewrite land_7f, unflag by lia.
  change (Z.shiftl l1 7) with (Z.shiftl (fld 0 0 l1) 7).
  destruct r as [|p2 r]; [done|]. apply Forall_cons in Hr as [H2 Hr'].
  change (rd (l0 + 128 :: l1 + 128 :: p2 :: r) 2) with (Some p2).
  cbn [mbind option_bind varint_ref] in *. rewrite fld_start by zlia. fld_simpl.
  destruct (Z.ltb_spec p2 128).
  { change (Z.lor (Z.shiftl 0x7f 14) 0x7f) with SLOT_2_0. fld_simpl.
    rewrite fld_merge by zlia. cbn [mbind option_bind]; do 2 f_equal; unfold SQLITE_MAX_U32; zlia. }
  rewrite Href.
  destruct (varint_ref 5 _ _) as [[n v]|] eqn:E; [|done].
  cbn [mbind option_bind] in *. apply varint_ref_range in E; [|done|zlia].
  rewrite <- sat_u32 by lia. destruct (negb _); f_equal.
Qed.

Lemma putVarint32_ref v : is_u32 v -> putVarint32 v = sqlite3PutVarint v.
Proof.
  intros Hv. unfold putVarint32, sqlite3PutVarint32.
  destruct (Z.ltb_spec v 128) as [Hs|Hs].
  - unfold sqlite3PutVarint. rewrite put_test by (unfold_int; lia).
    destruct (Z.ltb_spec v (2 ^ 56)); [cbn [negb]|lia].
    cbn [put_buf]. rewrite flagged_byte, shiftr_7.
    destruct (Z.eqb_spec (v / 128) 0); [|zlia]. rewrite land_7f, unflag by zlia.
    cbn. f_equal. zlia.
  - change (u32 (Z.lnot 0x3fff)) with (0 + 262143 * 2 ^ 14).
    rewrite land_fields, Z.land_0_r by lia. change 262143 with (2 ^ 18 - 1).
    rewrite land_ones_mod by lia. change (2 ^ 14) with 16384. change (2 ^ 18) with 262144.
    destruct (Z.eqb_spec (0 + (v / 16384) mod 262144 * 16384) 0) as [Hz|]; [|done].
    assert (v < 16384) as Hv' by zlia.
    unfold sqlite3PutVarint. rewrite put_test by (unfold_int; lia).
    destruct (Z.ltb_spec v (2 ^ 56)); [cbn [negb]|lia].
    rewrite (put_buf_fuel 2 10) by (change (128 ^ Z.of_nat 2) with 16384; lia).
    cbn [put_buf]. rewrite !flagged_byte, !shiftr_7.
    destruct (Z.eqb_spec (v / 128) 0); [zlia|].
    destruct (Z.eqb_spec (v / 128 / 128) 0); [|zlia]. cbn [rev app].
    rewrite !land_7f, unflag by zlia.
    rewrite Z.lor_comm. change 0x80 with (1 * 2 ^ 7).
    rewrite lor_disjoint_add by (change (2 ^ 7) with 128; zlia).
    change (2 ^ 7) with 128. f_equal; [zlia|f_equal; zlia].
Qed.

(** ** Theorems *)

(** C33: the hand-unrolled decoder, which works on interleaved 32-bit halves,
    computes the documented encoding ("7 bits - A ... 64 bits - BBBBBBBBC") on
    every buffer, including its behaviour on a buffer that ends too early. *)
Theorem sqlite3GetVarint_correct p :
  bytes_ok p -> sqlite3GetVarint p = varint_decode p.
Proof. apply getvarint_ref. Qed.

Example sqlite3GetVarint_correct_witness :
  bytes_ok [0x81; 0x82; 0x83; 0x84; 0x85; 0x86; 0x87; 0x88; 0xff] /\
  sqlite3GetVarint [0x81; 0x82; 0x83; 0x84; 0x85; 0x86; 0x87; 0x88; 0xff]
  = varint_decode [0x81; 0x82; 0x83; 0x84; 0x85; 0x86; 0x87; 0x88; 0xff].
Proof.
  assert (bytes_ok [0x81; 0x82; 0x83; 0x84; 0x85; 0x86; 0x87; 0x88; 0xff]) as H
    by (repeat constructor; lia).
  split; [exact H|exact (sqlite3GetVarint_correct _ H)].
Defined.

(** C34: what [sqlite3PutVarint] writes is one to nine bytes, as many as
    [sqlite3VarintLen] announces, and [sqlite3GetVarint] reads the value and
    the length back from a buffer that goes on after them. *)
Theorem sqlite3PutVarint_roundtrip v rest :
  is_u64 v -> bytes_ok rest ->
  1 <= sqlite3VarintLen v <= 9 /\
  Z.of_nat (length (sqlite3PutVarint v)) = sqlite3VarintLen v /\
  sqlite3GetVarint (sqlite3PutVarint v ++ rest) = Some (sqlite3VarintLen v, v).
Proof.
  intros Hv Hr. destruct (putvarint_spec v rest Hv) as (Hd & Hl & Hb).
  assert (bytes_ok (sqlite3PutVarint v ++ rest)) as Hok by (by apply bytes_ok_app).
  rewrite getvarint_ref, Hd, <- Hl by done. split; [|done].
  apply varint_ref_range in Hd; [lia|done|lia].
Qed.

Example sqlite3PutVarint_roundtrip_witness :
  sqlite3GetVarint (sqlite3PutVarint 0xfedcba9876543210 ++ [7])
  = Some (9, 0xfedcba9876543210).
Proof.
  refine (proj2 (proj2 (sqlite3PutVarint_roundtrip 0xfedcba9876543210 [7] _ _))).
  - unfold_int; lia.
  - repeat constructor; lia.
Defined.

(** The 32-bit accessors (the macros with their one-byte fast path and
    the functions behind them) agree with the 64-bit ones: a 32-bit value is
    written to the same bytes, and reading decodes the same length and
    saturates a larger value at 0xffffffff. *)
Theorem varint32_agrees p v rest :
  bytes_ok p -> is_u32 v -> bytes_ok rest ->
  getVarint32 p
    = ('(n, x) ← sqlite3GetVarint p; Some (n, Z.min x SQLITE_MAX_U32)) /\
  putVarint32 v = sqlite3PutVarint v /\
  getVarint32 (putVarint32 v ++ rest) = Some (sqlite3VarintLen v, v).
Proof.
  intros Hp Hv Hr. assert (is_u64 v) as Hv' by (unfold_int; lia).
  destruct (putvarint_spec v rest Hv') as (Hd & Hl & Hb).
  rewrite getvarint_ref, getVarint32_ref, putVarint32_ref by done.
  split; [done|]. split; [done|].
  rewrite getVarint32_ref by (by apply bytes_ok_app). rewrite Hd, <- Hl.
  cbn [mbind option_bind]. do 2 f_equal. unfold SQLITE_MAX_U32. zlia.
Qed.

Example varint32_agrees_witness :
  getVarint32 [0x90; 0x80; 0x80; 0x80; 0x00] = Some (5, 0xffffffff) /\
  getVarint32 (putVarint32 300 ++ [1]) = Some (2, 300).
Proof.
  destruct (varint32_agrees [0x90; 0x80; 0x80; 0x80; 0x00] 300 [1]) as (Hg & _ & Hr).
  - repeat constructor; lia.
  - unfold_int; lia.
  - repeat constructor; lia.
  - split; [rewrite Hg; reflexivity|exact Hr].
Defined.

Lemma get4byte_sum p0 p1 p2 p3 rest :
  is_u8 p0 -> is_u8 p1 -> is_u8 p2 -> is_u8 p3 ->
  sqlite3Get4byte (p0 :: p1 :: p2 :: p3 :: rest)
  = Some (p0 * 16777216 + p1 * 65536 + p2 * 256 + p3).
Proof.
  intros. unfold sqlite3Get4byte.
  change (rd (p0 :: p1 :: p2 :: p3 :: rest) 0) with (Some p0).
  change (rd (p0 :: p1 :: p2 :: p3 :: rest) 1) with (Some p1).
  change (rd (p0 :: p1 :: p2 :: p3 :: rest) 2) with (Some p2).
  change (rd (p0 :: p1 :: p2 :: p3 :: rest) 3) with (Some p3).
  cbn [mbind option_bind]. f_equal.
  rewrite !Z.shiftl_mul_pow2 by lia.
  change (2 ^ 24) with 16777216. change (2 ^ 16) with 65536. change (2 ^ 8) with 256.
  rewrite wrap_u_small by (unfold_int; lia).
  change 16777216 with (2 ^ 24) at 1. rewrite lor_disjoint_add by zlia.
  replace (p0 * 2 ^ 24 + p1 * 65536) with ((p0 * 256 + p1) * 2 ^ 16) by lia.
  rewrite lor_disjoint_add by zlia.
  replace ((p0 * 256 + p1) * 2 ^ 16 + p2 * 256)
    with (((p0 * 256 + p1) * 256 + p2) * 2 ^ 8) by lia.
  rewrite lor_disjoint_add by zlia. lia.
Qed.

Lemma put4byte_spec v rest :
  is_u32 v ->
  bytes_ok (sqlite3Put4byte v) /\
  sqlite3Get4byte (sqlite3Put4byte v ++ rest) = Some v.
Proof.
  intros Hv. split.
  - repeat apply List.Forall_cons; try apply wrap_u_range; try lia. constructor.
  - unfold sqlite3Put4byte. cbn [app].
    rewrite get4byte_sum by (apply wrap_u_range; lia).
    rewrite !Z.shiftr_div_pow2 by lia.
    change (2 ^ 24) with 16777216. change (2 ^ 16) with 65536. f_equal. zlia.
Qed.

(** [sqlite3Put4byte] and [sqlite3Get4byte] are inverse to each other on
    32-bit integers and on four-byte buffers. *)
Theorem sqlite3Put4byte_roundtrip v p0 p1 p2 p3 rest :
  is_u32 v -> bytes_ok [p0; p1; p2; p3] ->
  sqlite3Get4byte (sqlite3Put4byte v ++ rest) = Some v /\
  (exists x, sqlite3Get4byte (p0 :: p1 :: p2 :: p3 :: rest) = Some x /\
             sqlite3Put4byte x = [p0; p1; p2; p3]).
Proof.
  intros Hv Hp. split; [by apply put4byte_spec|].
  repeat (apply Forall_cons in Hp as [? Hp]).
  eexists. split; [by apply get4byte_sum|]. unfold sqlite3Put4byte.
  rewrite !Z.shiftr_div_pow2 by lia.
  change (2 ^ 24) with 16777216. change (2 ^ 16) with 65536. change (2 ^ 8) with 256.
  repeat f_equal; zlia.
Qed.

Example sqlite3Put4byte_roundtrip_witness :
  sqlite3Get4byte (sqlite3Put4byte 0xdeadbeef ++ [1]) = Some 0xdeadbeef.
Proof.
  refine (proj1 (sqlite3Put4byte_roundtrip 0xdeadbeef 1 2 3 4 [1] _ _)).
  - unfold_int; lia.
  - repeat constructor; lia.
Defined.
