(* ===== verification/Ctype.v ===== *)
(** * Character classes and C strings (src/lmdb-backend/src/global.c, util.c)

    A zero-terminated C string is the list of its bytes without the
    terminator; a pointer into it is the remaining suffix, and dereferencing
    the empty suffix reads the terminator. *)

From S2P Require Import Prelude.

Definition sqlite3UpperToLower : list Z :=
  [   0;   1;   2;   3;   4;   5;   6;   7;   8;   9;  10;  11;  12;  13;  14;  15;
    16;  17;  18;  19;  20;  21;  22;  23;  24;  25;  26;  27;  28;  29;  30;  31;
    32;  33;  34;  35;  36;  37;  38;  39;  40;  41;  42;  43;  44;  45;  46;  47;
    48;  49;  50;  51;  52;  53;  54;  55;  56;  57;  58;  59;  60;  61;  62;  63;
    64;  97;  98;  99; 100; 101; 102; 103; 104; 105; 106; 107; 108; 109; 110; 111;
   112; 113; 114; 115; 116; 117; 118; 119; 120; 121; 122;  91;  92;  93;  94;  95;
    96;  97;  98;  99; 100; 101; 102; 103; 104; 105; 106; 107; 108; 109; 110; 111;
   112; 113; 114; 115; 116; 117; 118; 119; 120; 121; 122; 123; 124; 125; 126; 127;
   128; 129; 130; 131; 132; 133; 134; 135; 136; 137; 138; 139; 140; 141; 142; 143;
   144; 145; 146; 147; 148; 149; 150; 151; 152; 153; 154; 155; 156; 157; 158; 159;
   160; 161; 162; 163; 164; 165; 166; 167; 168; 169; 170; 171; 172; 173; 174; 175;
   176; 177; 178; 179; 180; 181; 182; 183; 184; 185; 186; 187; 188; 189; 190; 191;
   192; 193; 194; 195; 196; 197; 198; 199; 200; 201; 202; 203; 204; 205; 206; 207;
   208; 209; 210; 211; 212; 213; 214; 215; 216; 217; 218; 219; 220; 221; 222; 223;
   224; 225; 226; 227; 228; 229; 230; 231; 232; 233; 234; 235; 236; 237; 238; 239;
   240; 241; 242; 243; 244; 245; 246; 247; 248; 249; 250; 251; 252; 253; 254; 255].

(** In decimal: 1 space, 2 alpha, 4 digit, 8 xdigit, 32 lower case, 64 other
    identifier characters. *)
Definition sqlite3CtypeMap : list Z :=
  [  0;  0;  0;  0;  0;  0;  0;  0;  0;  1;  1;  1;  1;  1;  0;  0;
    0;  0;  0;  0;  0;  0;  0;  0;  0;  0;  0;  0;  0;  0;  0;  0;
    1;  0;  0;  0; 64;  0;  0;  0;  0;  0;  0;  0;  0;  0;  0;  0;
   12; 12; 12; 12; 12; 12; 12; 12; 12; 12;  0;  0;  0;  0;  0;  0;
    0; 10; 10; 10; 10; 10; 10;  2;  2;  2;  2;  2;  2;  2;  2;  2;
    2;  2;  2;  2;  2;  2;  2;  2;  2;  2;  2;  0;  0;  0;  0; 64;
    0; 42; 42; 42; 42; 42; 42; 34; 34; 34; 34; 34; 34; 34; 34; 34;
   34; 34; 34; 34; 34; 34; 34; 34; 34; 34; 34;  0;  0;  0;  0;  0;
   64; 64; 64; 64; 64; 64; 64; 64; 64; 64; 64; 64; 64; 64; 64; 64;
   64; 64; 64; 64; 64; 64; 64; 64; 64; 64; 64; 64; 64; 64; 64; 64;
   64; 64; 64; 64; 64; 64; 64; 64; 64; 64; 64; 64; 64; 64; 64; 64;
   64; 64; 64; 64; 64; 64; 64; 64; 64; 64; 64; 64; 64; 64; 64; 64;
   64; 64; 64; 64; 64; 64; 64; 64; 64; 64; 64; 64; 64; 64; 64; 64;
   64; 64; 64; 64; 64; 64; 64; 64; 64; 64; 64; 64; 64; 64; 64; 64;
   64; 64; 64; 64; 64; 64; 64; 64; 64; 64; 64; 64; 64; 64; 64; 64;
   64; 64; 64; 64; 64; 64; 64; 64; 64; 64; 64; 64; 64; 64; 64; 64].

(** Table access with an [unsigned char] index. *)
Definition UpperToLower (c : Z) : Z := nth (Z.to_nat c) sqlite3UpperToLower 0.
Definition CtypeMap (c : Z) : Z := nth (Z.to_nat c) sqlite3CtypeMap 0.

Definition ctype_bit (m c : Z) : bool := negb (Z.land (CtypeMap c) m =? 0).

Definition sqlite3Toupper (c : Z) : Z :=
  Z.land c (Z.lnot (Z.land (CtypeMap c) 0x20)).
Definition sqlite3Isspace : Z -> bool := ctype_bit 0x01.
Definition sqlite3Isalnum : Z -> bool := ctype_bit 0x06.
Definition sqlite3Isalpha : Z -> bool := ctype_bit 0x02.
Definition sqlite3Isdigit : Z -> bool := ctype_bit 0x04.
Definition sqlite3Isxdigit : Z -> bool := ctype_bit 0x08.
Definition sqlite3Tolower : Z -> Z := UpperToLower.
(** The tokenizer's IdChar macro. *)
Definition IdChar : Z -> bool := ctype_bit 0x46.

(** ** C strings *)

Definition deref (z : list Z) : Z := match z with [] => 0 | c :: _ => c end.

(** [z[i]] *)
Definition at_ (z : list Z) (i : nat) : Z := deref (drop i z).

Fixpoint strlen_loop (z : list Z) (n : Z) : Z :=
  match z with [] => n | _ :: z => strlen_loop z (n + 1) end.

Definition sqlite3Strlen30 (z : option (list Z)) : Z :=
  match z with
  | None => 0
  | Some z => Z.land 0x3fffffff (i32 (strlen_loop z 0))
  end.

(** The loop of [sqlite3Dequote] from [z[i]] on: the bytes stored at [z[j]]
    from the current [j] on. *)
Fixpoint dequote_loop (quote : Z) (z : list Z) : list Z :=
  match z with
  | [] => []
  | c :: z1 =>
      if c =? quote then
        match z1 with
        | c1 :: z2 => if c1 =? quote then quote :: dequote_loop quote z2 else []
        | [] => []
        end
      else c :: dequote_loop quote z1
  end.

(** The result and the string left in [z]. *)
Definition sqlite3Dequote (z : option (list Z)) : Z * option (list Z) :=
  match z with
  | None => (-1, None)
  | Some z =>
      let quote := deref z in
      let go q :=
        let out := dequote_loop q (drop 1 z) in
        (Z.of_nat (length out), Some out) in
      if quote =? 39 (* ' *) then go quote
      else if quote =? 34 (* double quote *) then go quote
      else if quote =? 96 (* ` *) then go quote
      else if quote =? 91 (* [ *) then go 93 (* ] *)
      else (-1, Some z)
  end.

Fixpoint sqlite3_stricmp (a b : list Z) : Z :=
  match a with
  | [] => UpperToLower 0 - UpperToLower (deref b)
  | ca :: a1 =>
      if UpperToLower ca =? UpperToLower (deref b)
      then sqlite3_stricmp a1 (drop 1 b)
      else UpperToLower ca - UpperToLower (deref b)
  end.

(** [n] is the number of iterations left; running out leaves [N < 0]. *)
Fixpoint strnicmp_loop (a b : list Z) (n : nat) : Z :=
  match n with
  | O => 0
  | S n =>
      if negb (deref a =? 0) && (UpperToLower (deref a) =? UpperToLower (deref b))
      then strnicmp_loop (drop 1 a) (drop 1 b) n
      else UpperToLower (deref a) - UpperToLower (deref b)
  end.

Definition sqlite3_strnicmp (zLeft zRight : list Z) (N : Z) : Z :=
  strnicmp_loop zLeft zRight (Z.to_nat N).

(** ** Hexadecimal *)

Definition sqlite3HexToInt (h : Z) : Z :=
  let h := h + 9 * Z.land 1 (Z.shiftr h 6) in
  u8 (Z.land h 0xf).

(** [for(i=0; i<n; i+=2) zBlob[i/2] = ...] over the digits [z[i] ..]; the
    final [zBlob[i/2] = 0] is the terminator of the result. *)
Fixpoint hexblob_loop (z : list Z) : list Z :=
  match z with
  | a :: b :: z =>
      u8 (Z.lor (Z.shiftl (sqlite3HexToInt a) 4) (sqlite3HexToInt b)) :: hexblob_loop z
  | _ => []
  end.

(** The bytes of the blob, or [None] when the allocation fails. *)
Definition sqlite3HexToBlob (oom : bool) (z : list Z) (n : nat) : option (list Z) :=
  if oom then None else Some (hexblob_loop (take n z)).

(** ** The tables are the ASCII classes *)

Definition byte_range (lo hi c : Z) : bool := (lo <=? c) && (c <=? hi).

Definition ascii_spec (c : Z) : Prop :=
  let upper := byte_range 65 90 c in
  let lower := byte_range 97 122 c in
  let digit := byte_range 48 57 c in
  sqlite3Isspace c = byte_range 9 13 c || (c =? 32)
  /\ sqlite3Isdigit c = digit
  /\ sqlite3Isalpha c = upper || lower
  /\ sqlite3Isalnum c = upper || lower || digit
  /\ sqlite3Isxdigit c = digit || byte_range 65 70 c || byte_range 97 102 c
  /\ sqlite3Tolower c = (if upper then c + 32 else c)
  /\ sqlite3Toupper c = (if lower then c - 32 else c)
  /\ IdChar c = upper || lower || digit || (c =? 36) || (c =? 95) || (128 <=? c).

Lemma all_bytes (P : Z -> Prop) :
  Forall P (seqZ 0 256) -> forall c, is_u8 c -> P c.
Proof.
  intros H c Hc. rewrite Forall_forall in H. apply H, elem_of_seqZ. unfold_int. lia.
Qed.

#[local] Instance ascii_spec_dec c : Decision (ascii_spec c).
Proof. unfold ascii_spec. apply _. Defined.

Lemma ascii_tables c : is_u8 c -> ascii_spec c.
Proof.
  revert c. apply all_bytes. apply (bool_decide_unpack _). vm_compute. exact I.
Qed.

Lemma isdigit_spec c : is_u8 c -> sqlite3Isdigit c = (48 <=? c) && (c <=? 57).
Proof. intros H. apply (ascii_tables c H). Qed.

Lemma isspace_spec c : is_u8 c -> sqlite3Isspace c = (9 <=? c) && (c <=? 13) || (c =? 32).
Proof. intros H. apply (ascii_tables c H). Qed.

Lemma tolower_spec c :
  is_u8 c -> UpperToLower c = if byte_range 65 90 c then c + 32 else c.
Proof. intros H. apply (ascii_tables c H). Qed.

Lemma tolower_0 c : is_u8 c -> UpperToLower c = 0 -> c = 0.
Proof.
  intros Hc. rewrite tolower_spec by done. unfold byte_range.
  destruct (Z.leb_spec 65 c), (Z.leb_spec c 90); cbn; lia.
Qed.

(** ** Theorems *)

(** A C string: bytes, none of them the terminator. *)
Definition cstring (z : list Z) : Prop := Forall (fun c => 0 < c < 256) z.

Lemma cstring_bytes z : cstring z -> bytes_ok z.
Proof. intros H. apply (Forall_impl _ _ _ H). intros. unfold_int. lia. Qed.

Definition quote_pairs : list (Z * Z) := [(39, 39); (34, 34); (96, 96); (91, 93)].

(** A string written between quotes: every closing quote inside is doubled. *)
Definition escape (q : Z) (s : list Z) : list Z :=
  concat (map (fun c => if c =? q then [c; c] else [c]) s).

Lemma dequote_escape q s rest :
  deref rest <> q -> dequote_loop q (escape q s ++ q :: rest) = s.
Proof.
  intros Hr. induction s as [|c s IH]; cbn.
  - rewrite Z.eqb_refl. destruct rest as [|r rest]; [done|].
    cbn in Hr. by destruct (Z.eqb_spec r q).
  - destruct (Z.eqb_spec c q) as [->|Hc]; cbn.
    + rewrite !Z.eqb_refl. f_equal. apply IH.
    + destruct (Z.eqb_spec c q); [done|]. f_equal. apply IH.
Qed.

(** Quoting then [sqlite3Dequote] is the identity, for each of the four
    quote styles, whatever follows the closing quote. *)
Theorem sqlite3Dequote_escape o q s rest :
  (o, q) ∈ quote_pairs -> deref rest <> q ->
  sqlite3Dequote (Some (o :: escape q s ++ q :: rest))
  = (Z.of_nat (length s), Some s).
Proof.
  intros Ho Hr. unfold sqlite3Dequote. cbn [deref drop].
  unfold quote_pairs in Ho. rewrite !elem_of_cons, elem_of_nil in Ho.
  destruct_or! Ho; simplify_eq; cbn [Z.eqb Pos.eqb];
    rewrite ?drop_0, ?dequote_escape by done; reflexivity.
Qed.

Example sqlite3Dequote_escape_witness :
  sqlite3Dequote (Some (91 :: escape 93 [97; 93; 98] ++ 93 :: [32]))
  = (3, Some [97; 93; 98]).
Proof.
  apply (sqlite3Dequote_escape 91 93 [97; 93; 98] [32]); [|done].
  unfold quote_pairs. rewrite !elem_of_cons. tauto.
Defined.

Lemma stricmp_zero a : forall b,
  cstring a -> cstring b ->
  sqlite3_stricmp a b = 0 <-> map UpperToLower a = map UpperToLower b.
Proof.
  induction a as [|ca a IH]; intros [|cb b] Ha Hb; cbn [sqlite3_stricmp deref drop map].
  - done.
  - apply Forall_cons in Hb as [Hb _]. change (UpperToLower 0) with 0.
    pose proof (tolower_0 cb). unfold_int. split; [|done]. lia.
  - apply Forall_cons in Ha as [Ha _]. change (UpperToLower 0) with 0.
    pose proof (tolower_0 ca). unfold_int.
    destruct (Z.eqb_spec (UpperToLower ca) 0); [lia|]. split; [lia|done].
  - apply Forall_cons in Ha as [Ha ?], Hb as [Hb ?].
    destruct (Z.eqb_spec (UpperToLower ca) (UpperToLower cb)) as [E|E].
    + rewrite IH by done. rewrite E. split; [by intros ->|by intros [= ?]].
    + split; [lia|by intros [= ?]].
Qed.

Lemma strnicmp_stricmp a : forall b n,
  cstring a -> cstring b ->
  strnicmp_loop a b n = sqlite3_stricmp (take n a) (take n b).
Proof.
  induction a as [|ca a IH]; intros b n Ha Hb; destruct n as [|n]; try done.
  - destruct b; done.
  - apply Forall_cons in Ha as [Ha ?].
    cbn [strnicmp_loop deref drop take sqlite3_stricmp].
    destruct (Z.eqb_spec ca 0); [lia|]. cbn [negb andb].
    replace (deref (take (S n) b)) with (deref b) by by destruct b.
    destruct (_ =? _); [|done].
    replace (drop 1 (take (S n) b)) with (take n (drop 1 b))
      by (destruct b; cbn; by rewrite ?drop_0, ?take_nil).
    rewrite drop_0. apply IH; [done|]. by apply Forall_drop.
Qed.

(** The bounded case-insensitive comparison returns 0 exactly when the
    first [N] characters of the strings agree up to ASCII case; it stops at a
    terminator like the unbounded one. *)
Theorem sqlite3_strnicmp_zero a b N :
  cstring a -> cstring b ->
  sqlite3_strnicmp a b N = 0 <->
  map sqlite3Tolower (take (Z.to_nat N) a) = map sqlite3Tolower (take (Z.to_nat N) b).
Proof.
  intros Ha Hb. unfold sqlite3_strnicmp. rewrite strnicmp_stricmp by done.
  apply stricmp_zero; by apply Forall_take.
Qed.

Example sqlite3_strnicmp_zero_witness :
  sqlite3_strnicmp [67; 114; 69] [99; 82; 101; 97] 3 = 0 <->
  map sqlite3Tolower [67; 114; 69] = map sqlite3Tolower [99; 82; 101].
Proof.
  apply (sqlite3_strnicmp_zero [67; 114; 69] [99; 82; 101; 97] 3);
    repeat constructor; lia.
Defined.

(** Hexadecimal digits of a byte, upper or lower case. *)
Definition hex_digit (lower : bool) (d : Z) : Z :=
  if d <? 10 then 48 + d else if lower then 87 + d else 55 + d.

Lemma hex_digit_int l d : 0 <= d < 16 -> sqlite3HexToInt (hex_digit l d) = d.
Proof.
  intros Hd. assert (d ∈ seqZ 0 16) as He by (apply elem_of_seqZ; lia).
  clear Hd. revert d He. apply Forall_forall.
  destruct l; apply (bool_decide_unpack _); vm_compute; exact I.
Qed.

Definition hex_encode (l : bool) (bs : list Z) : list Z :=
  concat (map (fun b => [hex_digit l (b / 16); hex_digit l (b mod 16)]) bs).

Lemma hexblob_encode l bs : bytes_ok bs -> hexblob_loop (hex_encode l bs) = bs.
Proof.
  induction 1 as [|b bs Hb _ IH]; [done|]. unfold hex_encode in *.
  cbn [map concat app hexblob_loop]. rewrite IH, !hex_digit_int by zlia.
  rewrite Z.shiftl_mul_pow2, lor_disjoint_add by (change (2 ^ 4) with 16; zlia).
  f_equal. change (2 ^ 4) with 16. zlia.
Qed.

Lemma hex_encode_length l bs : length (hex_encode l bs) = (2 * length bs)%nat.
Proof. unfold hex_encode. induction bs; cbn in *; lia. Qed.

(** A blob literal's digits decode to the bytes they spell, for upper-
    and lower-case digits; what follows the [n] digits is not read. *)
Theorem sqlite3HexToBlob_encode l bs rest :
  bytes_ok bs ->
  sqlite3HexToBlob false (hex_encode l bs ++ rest) (2 * length bs) = Some bs.
Proof.
  intros H. unfold sqlite3HexToBlob.
  rewrite <- (hex_encode_length l), take_app_length, hexblob_encode; done.
Qed.

Example sqlite3HexToBlob_encode_witness :
  bytes_ok [0; 171; 255] /\
  sqlite3HexToBlob false (hex_encode true [0; 171; 255] ++ [39]) 6 = Some [0; 171; 255].
Proof.
  assert (bytes_ok [0; 171; 255]) as H by (repeat constructor; lia).
  split; [exact H|exact (sqlite3HexToBlob_encode true [0; 171; 255] [39] H)].
Defined.
