(* ===== verification/Ints.v ===== *)
(** * Integer arithmetic and integer text (src/lmdb-backend/src/util.c) *)

From S2P Require Import Prelude Ctype.

Definition LARGEST_INT64 : Z := Z.lor 0xffffffff (i64 (Z.shiftl 0x7fffffff 32)).
Definition SMALLEST_INT64 : Z := -1 - LARGEST_INT64.

(** ** Overflow-checked arithmetic

    The result is the return code and the value left in [*pA]. *)

Definition sqlite3AddInt64 (iA iB : Z) : Z * Z :=
  if iB >=? 0 then
    if (iA >? 0) && (LARGEST_INT64 - iA <? iB) then (1, iA)
    else (0, i64 (iA + iB))
  else
    if (iA <? 0) && (- (iA + LARGEST_INT64) >? iB + 1) then (1, iA)
    else (0, i64 (iA + iB)).

Definition sqlite3SubInt64 (iA iB : Z) : Z * Z :=
  if iB =? SMALLEST_INT64 then
    if iA >=? 0 then (1, iA) else (0, i64 (iA - iB))
  else sqlite3AddInt64 iA (i64 (- iB)).

Definition TWOPOWER32 : Z := i64 (Z.shiftl 1 32).
Definition TWOPOWER31 : Z := i64 (Z.shiftl 1 31).

Definition sqlite3MulInt64 (iA iB : Z) : Z * Z :=
  let iA1 := Z.quot iA TWOPOWER32 in
  let iA0 := Z.rem iA TWOPOWER32 in
  let iB1 := Z.quot iB TWOPOWER32 in
  let iB0 := Z.rem iB TWOPOWER32 in
  if negb (i64 (iA1 * iB1) =? 0) then (1, iA)
  else
    let r := i64 (i64 (iA1 * iB0) + i64 (iA0 * iB1)) in
    if (r <? - TWOPOWER31) || (r >=? TWOPOWER31) then (1, iA)
    else
      let r := i64 (r * TWOPOWER32) in
      let '(rc, r) := sqlite3AddInt64 r (i64 (iA0 * iB0)) in
      if negb (rc =? 0) then (1, iA) else (0, r).

Definition sqlite3AbsInt32 (x : Z) : Z :=
  if x >=? 0 then x
  else if x =? i32 0x80000000 then 0x7fffffff
  else i32 (- x).

(** ** Text to 64-bit integer *)

Definition SQLITE_UTF8 : Z := 1.
Definition SQLITE_UTF16LE : Z := 2.
Definition SQLITE_UTF16BE : Z := 3.

(** [for(i=0; c==0 && i<18; i++) c = (zNum[i*incr]-pow63[i])*10;] over the
    digits of [pow63] not compared yet. *)
Fixpoint compare2pow63_loop (zNum : list Z) (incr : nat) (pow63 : list Z) : Z :=
  match pow63 with
  | [] => 0
  | d :: pow63 =>
      let c := (deref zNum - d) * 10 in
      if c =? 0 then compare2pow63_loop (drop incr zNum) incr pow63 else c
  end.

(** "922337203685477580" *)
Definition pow63 : list Z :=
  [57; 50; 50; 51; 51; 55; 50; 48; 51; 54; 56; 53; 52; 55; 55; 53; 56; 48].

Definition compare2pow63 (zNum : list Z) (incr : nat) : Z :=
  let c := compare2pow63_loop zNum incr pow63 in
  if c =? 0 then at_ zNum (18 * incr) - 56 else c.

(** [while( zNum<zEnd && f(zNum[0]) ) zNum+=incr;] on the bytes from [zNum] to
    [zEnd]. *)
Fixpoint skip_while (fuel : nat) (f : Z -> bool) (incr : nat) (r : list Z) : list Z :=
  match fuel with
  | O => r
  | S fuel =>
      match r with
      | [] => []
      | c :: _ => if f c then skip_while fuel f incr (drop incr r) else r
      end
  end.

(** [for(i=0; &zNum[i]<zEnd && (c=zNum[i])>='0' && c<='9'; i+=incr)
    u = u*10 + c - '0';]: the final [i], [c], [u] and the bytes left. *)
Fixpoint digits_loop (fuel : nat) (incr : nat) (r : list Z) (i : nat) (c u : Z)
    : nat * Z * Z * list Z :=
  match fuel with
  | O => (i, c, u, r)
  | S fuel =>
      match r with
      | [] => (i, c, u, [])
      | c :: _ =>
          if (48 <=? c) && (c <=? 57)
          then digits_loop fuel incr (drop incr r) (i + incr) c (u64 (u * 10 + c - 48))
          else (i, c, u, r)
      end
  end.

(** [for(i=3-enc; i<length && zNum[i]==0; i+=2){}] *)
Fixpoint utf16_scan (fuel : nat) (z : list Z) (i : nat) : nat :=
  match fuel with
  | O => i
  | S fuel =>
      match z !! i with
      | Some c => if c =? 0 then utf16_scan fuel z (i + 2) else i
      | None => i
      end
  end.

(** The step, the bytes from [zNum] to [zEnd], and [nonNum]. *)
Definition atoi64_region (z : list Z) (enc : Z) : nat * list Z * bool :=
  if enc =? SQLITE_UTF8 then (1%nat, z, false)
  else
    let e := Z.to_nat enc in
    let i := utf16_scan (S (length z)) z (3 - e) in
    let start := Z.to_nat (Z.land enc 1) in
    (2%nat, drop start (take (i + e - 3) z), bool_decide (i < length z)%nat).

(** [z] is the [length] bytes at [zNum].  The result is the return code and
    the value written to [*pNum]. *)
Definition sqlite3Atoi64 (z : list Z) (enc : Z) : Z * Z :=
  let '(incr, r, nonNum) := atoi64_region z enc in
  let fuel := S (length r) in
  let r := skip_while fuel sqlite3Isspace incr r in
  let '(neg, r) :=
    match r with
    | 45 :: _ => (true, drop incr r)
    | 43 :: _ => (false, drop incr r)
    | _ => (false, r)
    end in
  let zStart := r in
  let r := skip_while fuel (fun c => c =? 48) incr r in
  let zNum := r in
  let '(i, c, u, rest) := digits_loop fuel incr r 0 0 0 in
  let pNum :=
    if u >? LARGEST_INT64 then SMALLEST_INT64
    else if neg then i64 (- i64 u) else i64 u in
  let more := match rest with [] => false | _ => true end in
  if (negb (c =? 0) && more)
     || (Nat.eqb i 0 && Nat.eqb (length zStart) (length zNum))
     || Nat.ltb (19 * incr) i || nonNum
  then (1, pNum)
  else if Nat.ltb i (19 * incr) then (0, pNum)
  else
    let c := compare2pow63 zNum incr in
    if c <? 0 then (0, pNum)
    else if c >? 0 then (1, pNum)
    else (if neg then 0 else 2, pNum).

(** ** Text to 32-bit integer *)

(** [for(i=0; i<11 && (c = zNum[i] - '0')>=0 && c<=9; i++) v = v*10 + c;] *)
Fixpoint int32_loop (fuel : nat) (z : list Z) (i v : Z) : Z * Z :=
  match fuel with
  | O => (i, v)
  | S fuel =>
      let c := deref z - 48 in
      if (c >=? 0) && (c <=? 9) then int32_loop fuel (drop 1 z) (i + 1) (v * 10 + c)
      else (i, v)
  end.

Fixpoint skip_zeros (z : list Z) : list Z :=
  match z with 48 :: z => skip_zeros z | _ => z end.

(** [None] is the result 0 (and [*pValue] untouched). *)
Definition sqlite3GetInt32 (zNum : list Z) : option Z :=
  let '(neg, zNum) :=
    match zNum with
    | 45 :: z => (true, z)
    | 43 :: z => (false, z)
    | _ => (false, zNum)
    end in
  let zNum := skip_zeros zNum in
  let '(i, v) := int32_loop 11 zNum 0 0 in
  if i >? 10 then None
  else if v - (if neg then 1 else 0) >? 2147483647 then None
  else
    let v := if neg then - v else v in
    Some (i32 v).

Definition sqlite3Atoi (z : option (list Z)) : Z :=
  match z with
  | None => 0
  | Some z => match sqlite3GetInt32 z with None => 0 | Some x => x end
  end.

(** ** Arithmetic *)

Definition fits (x : Z) : bool := (- 2 ^ 63 <=? x) && (x <? 2 ^ 63).

Lemma fits_spec x : BoolSpec (is_i64 x) (~ is_i64 x) (fits x).
Proof.
  unfold fits. destruct (Z.leb_spec (- 2 ^ 63) x), (Z.ltb_spec x (2 ^ 63));
    constructor; unfold in_s; change (64 - 1) with 63; lia.
Qed.

Lemma largest_int64 : LARGEST_INT64 = 9223372036854775807.
Proof. reflexivity. Qed.

Lemma smallest_int64 : SMALLEST_INT64 = -9223372036854775808.
Proof. reflexivity. Qed.

Ltac zcases := repeat (zcase; cbn [andb orb negb]).

Lemma add_spec a b :
  is_i64 a -> is_i64 b ->
  sqlite3AddInt64 a b = if fits (a + b) then (0, a + b) else (1, a).
Proof.
  intros Ha Hb. unfold sqlite3AddInt64. rewrite largest_int64.
  destruct (fits_spec (a + b)) as [Hf|Hf].
  - rewrite (wrap_s_small 64) by (done || lia). unfold_int. zcases; f_equal; lia.
  - unfold_int. zcases; try reflexivity; lia.
Qed.

Lemma sub_spec a b :
  is_i64 a -> is_i64 b ->
  sqlite3SubInt64 a b = if fits (a - b) then (0, a - b) else (1, a).
Proof.
  intros Ha Hb. unfold sqlite3SubInt64. rewrite smallest_int64.
  destruct (Z.eqb_spec b (-9223372036854775808)) as [->|Hn].
  - destruct (fits_spec (a - -9223372036854775808)) as [Hf|Hf].
    + rewrite (wrap_s_small 64) by (done || lia). unfold_int. zcases; f_equal; lia.
    + unfold_int. zcases; try reflexivity; lia.
  - rewrite (wrap_s_small 64) by (unfold_int; lia).
    rewrite add_spec by (unfold_int; lia). by replace (a + - b) with (a - b) by lia.
Qed.

(** The two halves of an operand: truncated division keeps the sign. *)
Lemma halves a :
  is_i64 a ->
  exists h l, Z.quot a TWOPOWER32 = h /\ Z.rem a TWOPOWER32 = l
    /\ a = h * 4294967296 + l /\ -4294967296 < l < 4294967296
    /\ (0 <= a -> 0 <= h /\ 0 <= l) /\ (a <= 0 -> h <= 0 /\ l <= 0)
    /\ -2147483648 <= h < 2147483648.
Proof.
  intros Ha. change TWOPOWER32 with 4294967296.
  eexists _, _. split; [reflexivity|]. split; [reflexivity|]. unfold_int.
  Z.quot_rem_to_equations. lia.
Qed.
Lemma mul_fits x y m n :
  - m <= x <= m -> - n <= y <= n -> m * n < 9223372036854775808 -> is_i64 (x * y).
Proof.
  intros Hx Hy Hmn. assert (- (m * n) <= x * y <= m * n) by nia. unfold_int. lia.
Qed.

Lemma mul_spec a b :
  is_i64 a -> is_i64 b ->
  is_i64 (Z.rem a TWOPOWER32 * Z.rem b TWOPOWER32) ->
  sqlite3MulInt64 a b = if fits (a * b) then (0, a * b) else (1, a).
Proof.
  intros Ha Hb Hl. unfold sqlite3MulInt64.
  destruct (halves a Ha) as (ah & al & -> & Eal & Ea & Hal & Hap & Han & Hah).
  destruct (halves b Hb) as (bh & bl & -> & Ebl & Eb & Hbl & Hbp & Hbn & Hbh).
  rewrite Eal, Ebl in *. clear Eal Ebl.
  rewrite (wrap_s_small 64 (ah * bh))
    by (lia || apply (mul_fits _ _ 2147483648 2147483648); lia).
  assert (0 <= a \/ a <= 0) as Hsa by lia. assert (0 <= b \/ b <= 0) as Hsb by lia.
  assert (a * b = (ah * bh * 4294967296 + (ah * bl + al * bh)) * 4294967296 + al * bl)
    as Eab by (subst; ring).
  destruct (Z.eqb_spec (ah * bh) 0) as [Hz|Hnz]; cbn [negb].
  - assert (is_i64 (ah * bl)) by (apply (mul_fits _ _ 2147483648 4294967295); lia).
    assert (is_i64 (al * bh)) by (apply (mul_fits _ _ 4294967295 2147483648); lia).
    rewrite Hz in Eab.
    assert (ah * bl = 0 \/ al * bh = 0) as Hone.
    { apply Z.mul_eq_0 in Hz as [-> | ->]; lia. }
    assert (0 <= (ah * bl + al * bh) /\ 0 <= al * bl
            \/ (ah * bl + al * bh) <= 0 /\ al * bl <= 0) as Hs.
    { destruct Hsa as [Hp|Hp]; destruct Hsb as [Hq|Hq];
        [left|right|right|left]; nia. }
    rewrite (wrap_s_small 64 (ah * bl)), (wrap_s_small 64 (al * bh)),
      (wrap_s_small 64 (al * bl)) by (lia || done).
    rewrite (wrap_s_small 64 (ah * bl + al * bh)) by (try lia; destruct Hone; unfold_int; lia).
    revert Eab Hs. generalize (ah * bl + al * bh). generalize dependent (al * bl).
    intros lo Hlo r Eab Hs. change TWOPOWER31 with 2147483648.
    change TWOPOWER32 with 4294967296.
    destruct (Z.ltb_spec r (Z.opp 2147483648)); cbn [orb];
      [|rewrite Z.geb_leb; destruct (Z.leb_spec 2147483648 r)].
    + destruct (fits_spec (a * b)); [unfold_int; lia|done].
    + destruct (fits_spec (a * b)); [unfold_int; lia|done].
    + rewrite (wrap_s_small 64 (r * 4294967296)) by (unfold_int; lia).
      rewrite add_spec by (unfold_int; lia).
      replace (a * b) with (r * 4294967296 + lo) by lia.
      by destruct (fits _).
  - destruct (fits_spec (a * b)) as [Hf|]; [|done].
    assert (1 <= ah * bh \/ ah * bh <= -1) as Hh by lia.
    assert (0 <= ah * bl + al * bh /\ 0 <= al * bl /\ 1 <= ah * bh
            \/ ah * bl + al * bh <= 0 /\ al * bl <= 0 /\ ah * bh <= -1) as Hs.
    { destruct Hsa as [Hp|Hp]; destruct Hsb as [Hq|Hq];
        [left|right|right|left]; nia. }
    exfalso. unfold_int. lia.
Qed.

(** The code also takes a product for exact whose low halves' product is too
    large, if what is left of it after the wrap does not overflow again. *)
Definition mul_wraps (a b : Z) : bool :=
  let ah := Z.quot a TWOPOWER32 in let al := Z.rem a TWOPOWER32 in
  let bh := Z.quot b TWOPOWER32 in let bl := Z.rem b TWOPOWER32 in
  let r := ah * bl + al * bh in
  negb (fits (al * bl)) && (ah * bh =? 0) && (-2147483648 <=? r) && (r <? 2147483648)
  && fits (r * 4294967296 + i64 (al * bl)).

(** Both halves of a product have its sign. *)
Lemma halves_sign a b ah al bh bl :
  a = ah * 4294967296 + al -> b = bh * 4294967296 + bl ->
  (0 <= a -> 0 <= ah /\ 0 <= al) /\ (a <= 0 -> ah <= 0 /\ al <= 0) ->
  (0 <= b -> 0 <= bh /\ 0 <= bl) /\ (b <= 0 -> bh <= 0 /\ bl <= 0) ->
  0 <= ah * bh /\ 0 <= ah * bl + al * bh /\ 0 <= al * bl \/ ah * bh <= 0 /\ ah * bl + al * bh <= 0 /\ al * bl <= 0.
Proof.
  intros Ea Eb [Hap Han] [Hbp Hbn]. assert (0 <= a \/ a <= 0) as Hsa by lia. assert (0 <= b \/ b <= 0) as Hsb by lia.
  destruct Hsa as [Hp|Hp]; destruct Hsb as [Hq|Hq]; [left|right|right|left]; nia.
Qed.

(** The product for all 64-bit integers. *)
Lemma mul_total a b :
  is_i64 a -> is_i64 b ->
  sqlite3MulInt64 a b = if fits (a * b) then (0, a * b) else if mul_wraps a b then (0, i64 (a * b)) else (1, a).
Proof.
  intros Ha Hb. destruct (fits_spec (Z.rem a TWOPOWER32 * Z.rem b TWOPOWER32)) as [Hl|Hl].
  { rewrite mul_spec by done. assert (mul_wraps a b = false) as ->; [|done]. unfold mul_wraps.
    destruct (fits_spec (Z.rem a TWOPOWER32 * Z.rem b TWOPOWER32)); done. }
  unfold mul_wraps, sqlite3MulInt64. destruct (fits_spec (Z.rem a TWOPOWER32 * Z.rem b TWOPOWER32)) as [|_]; [done|].
  destruct (halves a Ha) as (ah & al & -> & Eal & Ea & Hal & Hap & Han & Hah).
  destruct (halves b Hb) as (bh & bl & -> & Ebl & Eb & Hbl & Hbp & Hbn & Hbh).
  rewrite Eal, Ebl in *. clear Eal Ebl. cbn [negb andb].
  pose proof (halves_sign a b ah al bh bl Ea Eb (conj Hap Han) (conj Hbp Hbn)) as Hs.
  assert (a * b = (ah * bh * 4294967296 + (ah * bl + al * bh)) * 4294967296 + al * bl) as Eab by (subst; ring).
  assert (fits (a * b) = false) as ->.
  { destruct (fits_spec (a * b)) as [Hf|]; [|done]. exfalso. clear -Hs Eab Hl Hf. unfold_int. lia. }
  rewrite (wrap_s_small 64 (ah * bh)) by (lia || apply (mul_fits _ _ 2147483648 2147483648); lia).
  destruct (Z.eqb_spec (ah * bh) 0) as [Hz|Hnz]; cbn [negb andb]; [|done].
  assert (is_i64 (ah * bl)) by (apply (mul_fits _ _ 2147483648 4294967295); lia).
  assert (is_i64 (al * bh)) by (apply (mul_fits _ _ 4294967295 2147483648); lia).
  assert (ah * bl = 0 \/ al * bh = 0) as Hone by (apply Z.mul_eq_0 in Hz as [-> | ->]; lia).
  rewrite (wrap_s_small 64 (ah * bl)), (wrap_s_small 64 (al * bh)) by (lia || done).
  rewrite (wrap_s_small 64 (ah * bl + al * bh)) by (try lia; destruct Hone; unfold_int; lia).
  rewrite Hz in Eab. revert Eab. generalize (ah * bl + al * bh). clear -Ha. generalize (al * bl). intros lo r Eab.
  change TWOPOWER31 with 2147483648. change TWOPOWER32 with 4294967296. change (Z.opp 2147483648) with (-2147483648).
  rewrite Z.geb_leb. destruct (Z.ltb_spec r (-2147483648)), (Z.leb_spec (-2147483648) r); try lia; cbn [orb andb]; [done|].
  destruct (Z.leb_spec 2147483648 r), (Z.ltb_spec r 2147483648); try lia; cbn [andb]; [done|].
  rewrite (wrap_s_small 64 (r * 4294967296)) by (unfold_int; lia).
  rewrite add_spec by (try apply wrap_s_range; unfold_int; lia).
  destruct (fits_spec (r * 4294967296 + i64 lo)) as [Hf|]; [|done]. cbn [negb Z.eqb]. f_equal.
  rewrite <- (wrap_s_small 64 (r * 4294967296 + i64 lo)) by (lia || done). rewrite Eab. zlia.
Qed.

(** ** Decimal text *)

Definition digits (ds : list Z) : Prop := Forall (fun d => 0 <= d <= 9) ds.
Definition chars (ds : list Z) : list Z := map (Z.add 48) ds.
Definition dacc (a : Z) (ds : list Z) : Z := fold_left (fun a d => a * 10 + d) ds a.
Definition dval (ds : list Z) : Z := dacc 0 ds.

(** The text after the digits does not go on with a digit. *)
Definition stops (rest : list Z) : Prop :=
  bytes_ok rest /\ match rest with [] => True | c :: _ => sqlite3Isdigit c = false end.

Definition pow10 (ds : list Z) : Z := 10 ^ Z.of_nat (length ds).

Lemma pow10_cons d ds : pow10 (d :: ds) = 10 * pow10 ds.
Proof. unfold pow10. cbn [length]. rewrite Nat2Z.inj_succ, Z.pow_succ_r; lia. Qed.

Lemma pow10_pos ds : 1 <= pow10 ds.
Proof. unfold pow10. pose proof (Z.pow_pos_nonneg 10 (Z.of_nat (length ds))). lia. Qed.

Lemma dacc_val ds : forall a, dacc a ds = a * pow10 ds + dval ds.
Proof.
  unfold dval. induction ds as [|d ds IH]; intros a; [unfold dacc, pow10; cbn; lia|].
  cbn [dacc fold_left]. fold (dacc (a * 10 + d) ds) (dacc (0 * 10 + d) ds).
  rewrite (IH (a * 10 + d)), (IH (0 * 10 + d)), pow10_cons. lia.
Qed.

Lemma dval_cons d ds : dval (d :: ds) = d * pow10 ds + dval ds.
Proof. unfold dval at 1. cbn [dacc fold_left]. apply (dacc_val ds). Qed.

Lemma dval_bound ds : digits ds -> 0 <= dval ds < pow10 ds.
Proof.
  induction 1 as [|d ds Hd _ IH]; [unfold dval, pow10; cbn; lia|].
  rewrite dval_cons, pow10_cons. nia.
Qed.

Lemma dval_zeros n ds : dval (replicate n 0 ++ ds) = dval ds.
Proof. induction n; cbn [replicate app]; rewrite ?dval_cons; lia. Qed.

Lemma chars_app a b : chars (a ++ b) = chars a ++ chars b.
Proof. apply map_app. Qed.

Lemma skip_while_spec f fuel pre r :
  Forall (fun c => f c = true) pre ->
  match r with [] => True | c :: _ => f c = false end ->
  (length pre < fuel)%nat ->
  skip_while fuel f 1 (pre ++ r) = r.
Proof.
  intros Hpre. revert fuel. induction Hpre as [|c pre Hc _ IH]; intros [|fuel] Hr Hf;
    cbn [length] in Hf; try lia; cbn [app skip_while].
  - destruct r as [|c r]; [done|]. by rewrite Hr.
  - rewrite Hc. cbn [drop]. rewrite drop_0. apply IH; [done|lia].
Qed.

(** Every digit string is its leading zeros and the rest. *)
Lemma zeros_split ds :
  exists n es, ds = replicate n 0 ++ es /\ match es with [] => True | d :: _ => d <> 0 end.
Proof.
  induction ds as [|d ds (n & es & -> & He)]; [by exists O, []|].
  destruct (Z.eq_dec d 0) as [->|Hd].
  - by exists (S n), es.
  - by exists O, (d :: replicate n 0 ++ es).
Qed.

Lemma digit_char_eq d : 0 <= d <= 9 -> (48 <=? 48 + d) && (48 + d <=? 57) = true.
Proof. intros. zcases; lia || done. Qed.

Lemma stops_nodigit c rest : stops (c :: rest) -> (48 <=? c) && (c <=? 57) = false.
Proof. intros [Hb Hs]. apply Forall_cons in Hb as [Hb _]. by rewrite <- isdigit_spec. Qed.

(** The digit loop: it consumes exactly the digits. *)
Lemma digits_loop_spec ds : forall fuel rest i c u,
  digits ds -> stops rest -> (length ds < fuel)%nat ->
  digits_loop fuel 1 (chars ds ++ rest) i c u
  = ((i + length ds)%nat,
     match rest with c' :: _ => c' | [] => match last ds with Some d => 48 + d | None => c end end,
     match ds with [] => u | _ => u64 (dacc u ds) end, rest).
Proof.
  induction ds as [|d ds IH]; intros [|fuel] rest i c u Hd Hs Hf; cbn [length] in Hf; try lia.
  - cbn [chars map app digits_loop]. rewrite Nat.add_0_r.
    destruct rest as [|c' rest]; [done|]. by rewrite (stops_nodigit _ _ Hs).
  - apply Forall_cons in Hd as [Hd Hds].
    cbn [chars map app digits_loop]. rewrite digit_char_eq by done. cbn [drop].
    fold (chars ds). rewrite drop_0, IH by (done || lia).
    replace (i + 1 + length ds)%nat with (i + S (length ds))%nat by lia.
    f_equal. f_equal. f_equal.
    + destruct rest; [|done]. destruct ds; [done|]. rewrite !last_cons. by destruct (last ds).
    + destruct ds as [|d' ds]; cbn [dacc fold_left]; [f_equal; lia|].
      fold (dacc ((u * 10 + d) * 10 + d') ds) (dacc (u64 (u * 10 + (48 + d) - 48) * 10 + d') ds).
      rewrite !(dacc_val ds). unfold wrap_u.
      replace (u * 10 + (48 + d) - 48) with (u * 10 + d) by lia.
      set (x := u * 10 + d). rewrite (Z.div_mod x (2 ^ 64)) at 2 by lia.
      rewrite <- (Z_mod_plus_full _ (x / 2 ^ 64 * 10 * pow10 ds)). f_equal. ring.
Qed.

(** The loop compares lexicographically, which is numerically. *)
Lemma compare_loop_spec es : forall ds rest,
  digits ds -> digits es -> (length es <= length ds)%nat ->
  let c := compare2pow63_loop (chars ds ++ rest) 1 (chars es) in
  let d := dval (take (length es) ds) in
  (c < 0 <-> d < dval es) /\ (c > 0 <-> d > dval es) /\ (c = 0 <-> d = dval es).
Proof.
  induction es as [|e es IH]; intros ds rest Hds Hes Hl; [rewrite take_0; unfold dval, dacc; cbn; lia|].
  destruct ds as [|d ds]; [cbn [length] in Hl; lia|].
  apply Forall_cons in Hds as [Hd Hds], Hes as [He Hes].
  cbn [length] in Hl. assert (length es <= length ds)%nat as Hl' by lia.
  assert (length (take (length es) ds) = length es) as Hlt by (rewrite length_take; lia).
  cbn [chars map app compare2pow63_loop deref length take drop].
  fold (chars ds) (chars es). rewrite drop_0, !dval_cons.
  pose proof (dval_bound (take (length es) ds)) as Hb1. pose proof (dval_bound es Hes) as Hb2.
  unfold pow10 in *. rewrite Hlt in *.
  assert (digits (take (length es) ds)) as Hdt by by apply Forall_take.
  specialize (Hb1 Hdt). set (P := 10 ^ _) in *.
  destruct (Z.eqb_spec ((48 + d - (48 + e)) * 10) 0).
  - assert (d = e) as -> by lia. specialize (IH ds rest Hds Hes Hl').
    cbn zeta in IH. lia.
  - assert (d < e \/ d > e) as [?|?] by lia; nia.
Qed.

Definition pow63_digits : list Z := [9; 2; 2; 3; 3; 7; 2; 0; 3; 6; 8; 5; 4; 7; 7; 5; 8; 0].

Lemma digits_take_last n (ds : list Z) :
  length ds = S n ->
  exists es e, ds = es ++ [e] /\ length es = n /\ take n ds = es.
Proof.
  intros Hl. destruct (exists_last (l := ds)) as (es & e & ->); [by destruct ds|].
  rewrite length_app in Hl. cbn in Hl. exists es, e. split; [done|].
  split; [lia|]. replace n with (length es) by lia. apply take_app_length.
Qed.

Lemma dval_snoc ds d : dval (ds ++ [d]) = dval ds * 10 + d.
Proof. unfold dval, dacc. by rewrite fold_left_app. Qed.

Lemma compare2pow63_spec ds rest :
  digits ds -> length ds = 19%nat ->
  let c := compare2pow63 (chars ds ++ rest) 1 in
  (c < 0 <-> dval ds < 2 ^ 63) /\ (c > 0 <-> dval ds > 2 ^ 63).
Proof.
  intros Hds Hl. unfold compare2pow63. change pow63 with (chars pow63_digits).
  assert (digits pow63_digits) as Hp by (repeat constructor; lia).
  pose proof (compare_loop_spec pow63_digits ds rest Hds Hp ltac:(rewrite Hl; cbn; lia)) as Hc.
  cbn zeta in *. change (length pow63_digits) with 18%nat in Hc.
  change (dval pow63_digits) with 922337203685477580 in Hc.
  set (c := compare2pow63_loop _ _ _) in *.
  destruct (digits_take_last 18 ds Hl) as (es & e & -> & Hle & Ht). rewrite Ht in Hc.
  apply Forall_app in Hds as [_ He]. apply Forall_cons in He as [He _].
  rewrite dval_snoc. change (2 ^ 63) with 9223372036854775808.
  rewrite chars_app, <- app_assoc. change (18 * 1)%nat with 18%nat.
  assert (at_ (chars es ++ chars [e] ++ rest) 18 = 48 + e) as ->.
  { unfold at_. replace 18%nat with (length (chars es)) by (unfold chars; by rewrite length_map).
    by rewrite drop_app_length. }
  destruct (Z.eqb_spec c 0); lia.
Qed.

(** An optional sign. *)
Inductive sign : Type := NoSign | Plus | Minus.
Definition sign_text (s : sign) : list Z :=
  match s with NoSign => [] | Plus => [43] | Minus => [45] end.
Definition sign_val (s : sign) (v : Z) : Z := match s with Minus => - v | _ => v end.

Lemma nine_digits (P : Z -> Prop) :
  P 0 -> P 1 -> P 2 -> P 3 -> P 4 -> P 5 -> P 6 -> P 7 -> P 8 -> P 9 ->
  forall d, 0 <= d <= 9 -> P d.
Proof.
  intros. assert (d = 0 \/ d = 1 \/ d = 2 \/ d = 3 \/ d = 4 \/ d = 5 \/ d = 6 \/ d = 7
    \/ d = 8 \/ d = 9) as Hd by lia. by destruct_or! Hd; subst.
Qed.

(** The sign test, as it is written, on a text that begins with a sign or a digit. *)
Lemma sign_match {A} (s : sign) d t (k : bool -> list Z -> A) :
  0 <= d <= 9 ->
  (let '(neg, r) :=
     match sign_text s ++ (48 + d) :: t with
     | 45 :: _ => (true, drop 1 (sign_text s ++ (48 + d) :: t))
     | 43 :: _ => (false, drop 1 (sign_text s ++ (48 + d) :: t))
     | _ => (false, sign_text s ++ (48 + d) :: t)
     end in k neg r)
  = k (match s with Minus => true | _ => false end) ((48 + d) :: t).
Proof. destruct s; [|done..]. revert d. by apply nine_digits. Qed.

Lemma digit_not_space d : 0 <= d <= 9 -> sqlite3Isspace (48 + d) = false.
Proof. revert d. by apply nine_digits. Qed.

Lemma zeros_skip fuel n es rest :
  digits es -> match es with [] => True | d :: _ => d <> 0 end -> stops rest ->
  (n < fuel)%nat ->
  skip_while fuel (fun c => c =? 48) 1 (chars (replicate n 0 ++ es) ++ rest) = chars es ++ rest.
Proof.
  intros Hd He Hs Hf. rewrite chars_app, <- app_assoc. apply skip_while_spec.
  - clear. induction n; constructor; done.
  - destruct es as [|d es]; cbn.
    + destruct rest as [|c rest]; [done|]. pose proof (stops_nodigit _ _ Hs).
      destruct (Z.eqb_spec c 48) as [->|]; [|done]. done.
    + apply Forall_cons in Hd as [Hd _]. destruct (Z.eqb_spec (48 + d) 48); [lia|done].
  - unfold chars. by rewrite length_map, length_replicate.
Qed.

(** The code and value the comments of [sqlite3Atoi64] promise. *)
Definition atoi64_code (s : sign) (v : Z) (rest : list Z) : Z :=
  if negb (deref rest =? 0) then 1
  else if fits (sign_val s v) then 0
  else if v =? 2 ^ 63 then 2 else 1.

Lemma pow10_small ds n : (length ds < n)%nat -> 10 * pow10 ds <= 10 ^ Z.of_nat n.
Proof.
  intros. unfold pow10. rewrite <- Z.pow_succ_r by lia. apply Z.pow_le_mono_r; lia.
Qed.

Lemma dval_first d ds : digits (d :: ds) -> d <> 0 -> pow10 ds <= dval (d :: ds).
Proof.
  intros Hd Hn. apply Forall_cons in Hd as [Hd Hds]. rewrite dval_cons.
  pose proof (dval_bound ds Hds). pose proof (pow10_pos ds). nia.
Qed.

Lemma u64_le_largest v : 0 <= v -> fits v = true -> u64 v = v /\ (v >? LARGEST_INT64) = false.
Proof.
  intros Hv. destruct (fits_spec v) as [Hf|]; [|done]. intros _.
  rewrite wrap_u_small, largest_int64 by (unfold_int; lia). split; [done|].
  rewrite Z.gtb_ltb. zcases; [unfold_int; lia|done].
Qed.

Lemma signed_value s v :
  0 <= v -> fits v = true ->
  (if match s with Minus => true | _ => false end then i64 (- i64 v) else i64 v) = sign_val s v.
Proof.
  intros Hv. destruct (fits_spec v) as [Hf|]; [|done]. intros _.
  rewrite (wrap_s_small 64 v) by (done || lia).
  destruct s; cbn [sign_val]; try done. apply wrap_s_small; [lia|]. unfold_int. lia.
Qed.

(** The value part: [u] after the loop gives [*pNum]. *)
Lemma atoi64_pnum s v :
  0 <= v ->
  let u := u64 v in
  let pNum :=
    if u >? LARGEST_INT64 then SMALLEST_INT64
    else if match s with Minus => true | _ => false end then i64 (- i64 u) else i64 u in
  (fits (sign_val s v) = true -> pNum = sign_val s v) /\
  (v = 2 ^ 63 -> pNum = SMALLEST_INT64).
Proof.
  intros Hv u pNum. destruct (Z.eq_dec v (2 ^ 63)) as [->|Hn].
  - split; [|done]. destruct s; done.
  - split; [|done]. intros Hf. assert (fits v = true) as Hfv.
    { destruct (fits_spec v) as [|Hnf]; [done|]. destruct Hnf.
      destruct (fits_spec (sign_val s v)); [|done].
      destruct s; cbn [sign_val] in *; unfold_int; lia. }
    unfold pNum, u. destruct (u64_le_largest v Hv Hfv) as [-> ->].
    by apply signed_value.
Qed.

(** The decision part: by the number of significant digits, then by [compare2pow63]. *)
Lemma atoi64_decide s es rest (pNum : Z) :
  digits es -> match es with [] => True | d :: _ => d <> 0 end ->
  (if Nat.ltb 19 (length es) then 1
   else if Nat.ltb (length es) 19 then 0
   else
     let c := compare2pow63 (chars es ++ rest) 1 in
     if c <? 0 then 0 else if c >? 0 then 1
     else if match s with Minus => true | _ => false end then 0 else 2)
  = if fits (sign_val s (dval es)) then 0 else if dval es =? 2 ^ 63 then 2 else 1.
Proof.
  intros Hd He. pose proof (dval_bound es Hd) as Hb.
  destruct (Nat.ltb_spec 19 (length es)).
  - destruct es as [|d es]; [cbn in *; lia|]. pose proof (dval_first d es Hd He).
    assert (10 ^ 19 <= pow10 es).
    { unfold pow10. apply Z.pow_le_mono_r; [lia|]. cbn [length] in *. lia. }
    destruct (fits_spec (sign_val s (dval (d :: es)))) as [Hf|];
      [destruct s; cbn [sign_val] in Hf; unfold_int; lia|].
    destruct (Z.eqb_spec (dval (d :: es)) (2 ^ 63)); [lia|done].
  - destruct (Nat.ltb_spec (length es) 19).
    + pose proof (pow10_small es 19 ltac:(done)) as Hp.
      destruct (fits_spec (sign_val s (dval es))) as [|Hnf]; [done|].
      destruct Hnf. destruct s; cbn [sign_val]; unfold_int; lia.
    + assert (length es = 19%nat) as Hl by lia.
      pose proof (compare2pow63_spec es rest Hd Hl) as [Hlt Hgt].
      cbn zeta in *. set (c := compare2pow63 _ _) in *. rewrite Z.gtb_ltb.
      destruct (fits_spec (sign_val s (dval es))) as [Hf|Hnf], (Z.eqb_spec (dval es) (2 ^ 63));
        destruct (Z.ltb_spec c 0), (Z.ltb_spec 0 c); destruct s; cbn [sign_val] in *;
        try reflexivity; try (unfold_int; lia); destruct Hnf; unfold_int; lia.
Qed.

Lemma last_char_nonzero es c : digits es -> es <> [] ->
  (match last es with Some d => 48 + d | None => c end =? 0) = false.
Proof.
  intros Hd Hne. destruct (last es) as [d|] eqn:E.
  - apply last_Some_elem_of in E.
    unfold digits in Hd. rewrite Forall_forall in Hd. apply Hd in E.
    destruct (Z.eqb_spec (48 + d) 0); [lia|done].
  - by apply last_None in E.
Qed.

Lemma atoi64_spec sp s ds rest :
  Forall (fun c => sqlite3Isspace c = true) sp -> digits ds -> ds <> [] -> stops rest ->
  let r := sqlite3Atoi64 (sp ++ sign_text s ++ chars ds ++ rest) SQLITE_UTF8 in
  let v := dval ds in
  fst r = atoi64_code s v rest /\
  (fits (sign_val s v) = true -> snd r = sign_val s v) /\
  (v = 2 ^ 63 -> snd r = SMALLEST_INT64).
Proof.
  intros Hsp Hd Hne Hs r v. unfold r, sqlite3Atoi64. clear r.
  change (atoi64_region ?z SQLITE_UTF8) with (1%nat, z, false). cbv iota.
  destruct (zeros_split ds) as (n & es & Eds & He).
  assert (digits es) as Hes by (rewrite Eds in Hd; by apply Forall_app in Hd as [_ ?]).
  assert (v = dval es) as Ev by (unfold v; rewrite Eds; apply dval_zeros).
  rewrite skip_while_spec; [|done| |rewrite !length_app; lia].
  2: { destruct s, ds as [|d ds]; try done. apply Forall_cons in Hd as [Hd _].
       by apply digit_not_space. }
  destruct ds as [|d0 ds0]; [done|]. apply Forall_cons in Hd as Hd0.
  cbn [chars map app]. fold (chars ds0).
  rewrite (sign_match s d0 (chars ds0 ++ rest)) by apply Hd0.
  change ((48 + d0) :: chars ds0 ++ rest) with (chars (d0 :: ds0) ++ rest).
  rewrite Eds. rewrite zeros_skip; [|done|done|done|].
  2: { unfold chars. rewrite !length_app, length_map, length_app, length_replicate. lia. }
  rewrite digits_loop_spec;
    [|done|done|unfold chars; rewrite !length_app, length_map, length_app; lia].
  rewrite Nat.add_0_l. cbv iota beta. cbn [fst snd].
  destruct (dval_bound es Hes) as [Hv0 _].
  assert (match es with [] => 0 | _ => u64 (dacc 0 es) end = u64 v) as ->
    by (rewrite Ev; by destruct es).
  pose proof (atoi64_pnum s v ltac:(lia)) as Hp. cbn zeta in Hp.
  set (pNum := if u64 v >? LARGEST_INT64 then _ else _) in *.
  pose proof (atoi64_decide s es rest pNum Hes He) as Hdec. rewrite <- Ev in Hdec.
  assert (Nat.eqb (length es) 0
          && Nat.eqb (length (chars (replicate n 0 ++ es) ++ rest)) (length (chars es ++ rest))
          = false) as ->.
  { destruct es; [|done]. unfold chars.
    rewrite !length_app, !length_map, length_app, length_replicate.
    destruct n as [|n]; [done|]. apply andb_false_intro2, Nat.eqb_neq. cbn. lia. }
  match goal with
  | |- context [negb ?x && ?y] =>
      replace (negb x && y) with (negb (deref rest =? 0))
        by (destruct rest; cbn [deref]; rewrite ?andb_false_r, ?andb_true_r; done)
  end.
  rewrite !orb_false_r, Nat.mul_1_r. unfold atoi64_code.
  destruct (negb (deref rest =? 0)); cbn [orb fst snd]; [by rewrite <- Ev in *|].
  rewrite <- Hdec. cbn zeta.
  repeat case_match; cbn [fst snd]; (split; [done|exact Hp]).
Qed.

(** ** 32-bit text *)

Lemma int32_loop_spec es : forall fuel rest i v,
  digits es -> stops rest ->
  int32_loop fuel (chars es ++ rest) i v
  = (i + Z.of_nat (Nat.min fuel (length es)), dacc v (take fuel es)).
Proof.
  induction es as [|e es IH]; intros [|fuel] rest i v Hd Hs; cbn [int32_loop];
    try (rewrite ?Nat.min_0_r, ?Nat.min_0_l, Z.add_0_r; done).
  - cbn [chars map app]. rewrite Nat.min_0_r, Z.add_0_r.
    destruct rest as [|c rest]; [done|]. pose proof (stops_nodigit _ _ Hs) as Hc.
    cbn [deref]. revert Hc. rewrite Z.geb_leb.
    destruct (Z.leb_spec 48 c), (Z.leb_spec c 57), (Z.leb_spec 0 (c - 48)),
      (Z.leb_spec (c - 48) 9); cbn [andb]; intros; done || lia.
  - apply Forall_cons in Hd as [He Hd]. cbn [chars map app deref drop take length].
    fold (chars es). rewrite drop_0, IH by done.
    replace (48 + e - 48) with e by lia. rewrite Z.geb_leb.
    destruct (Z.leb_spec 0 e), (Z.leb_spec e 9); cbn [andb]; try lia.
    f_equal. lia.
Qed.

Lemma skip_zeros_spec n es rest :
  digits es -> match es with [] => True | d :: _ => d <> 0 end -> stops rest ->
  skip_zeros (chars (replicate n 0 ++ es) ++ rest) = chars es ++ rest.
Proof.
  intros Hd He Hs. induction n as [|n IH]; [|done]. cbn [replicate app].
  destruct es as [|e es].
  - cbn [chars map app]. destruct rest as [|c rest]; [done|].
    pose proof (stops_nodigit _ _ Hs). cbn [skip_zeros]. by repeat case_match.
  - apply Forall_cons in Hd as [Hd _]. revert e Hd He. cbn [chars map app].
    apply (nine_digits (fun e => e <> 0 -> skip_zeros (48 + e :: map (Z.add 48) es ++ rest)
             = 48 + e :: map (Z.add 48) es ++ rest)); done.
Qed.

Lemma getint32_sign {A} (s : sign) d t (k : bool -> list Z -> A) :
  0 <= d <= 9 ->
  (let '(neg, r) :=
     match sign_text s ++ (48 + d) :: t with
     | 45 :: z => (true, z)
     | 43 :: z => (false, z)
     | _ => (false, sign_text s ++ (48 + d) :: t)
     end in k neg r)
  = k (match s with Minus => true | _ => false end) ((48 + d) :: t).
Proof. destruct s; [|done..]. revert d. by apply nine_digits. Qed.

Lemma getint32_spec s ds rest :
  digits ds -> ds <> [] -> stops rest ->
  let v := sign_val s (dval ds) in
  sqlite3GetInt32 (sign_text s ++ chars ds ++ rest)
  = if (- 2 ^ 31 <=? v) && (v <? 2 ^ 31) then Some v else None.
Proof.
  intros Hd Hne Hs v. unfold sqlite3GetInt32.
  destruct (zeros_split ds) as (n & es & Eds & He).
  assert (digits es) as Hes by (rewrite Eds in Hd; by apply Forall_app in Hd as [_ ?]).
  assert (dval ds = dval es) as Ev by (rewrite Eds; apply dval_zeros).
  destruct ds as [|d0 ds0]; [done|]. apply Forall_cons in Hd as Hd0.
  cbn [chars map app]. rewrite getint32_sign by apply Hd0.
  change ((48 + d0) :: map (Z.add 48) ds0 ++ rest) with (chars (d0 :: ds0) ++ rest).
  rewrite Eds, skip_zeros_spec, int32_loop_spec by done.
  pose proof (dval_bound es Hes) as Hb. unfold v. rewrite Ev, Z.add_0_l.
  destruct (Z.gtb_spec (Z.of_nat (Nat.min 11 (length es))) 10) as [Hl|Hl].
  - destruct es as [|e es]; [cbn in Hl; lia|]. pose proof (dval_first e es Hes He).
    assert (10 ^ 10 <= pow10 es).
    { unfold pow10. apply Z.pow_le_mono_r; [lia|]. cbn [length] in *. lia. }
    change (10 ^ 10) with 10000000000 in *. change (2 ^ 31) with 2147483648.
    destruct s; cbn [sign_val]; zcases; lia || done.
  - rewrite take_ge by lia. fold (dval es).
    change (2 ^ 31) with 2147483648. rewrite Z.gtb_ltb.
    destruct s; cbn [sign_val]; zcases; try lia; try done;
      rewrite wrap_s_small by (lia || unfold_int; lia); done.
Qed.

(** ** Theorems *)

(** C36: [sqlite3Atoi64] on UTF-8 text made of white space, an optional sign,
    at least one digit and whatever follows: the code is 0 exactly when the
    text ends there and the number fits in 64 bits, 2 for an unsigned 2^63,
    and 1 otherwise; the value is the number when it fits, and the smallest
    integer for 2^63. *)
Theorem sqlite3Atoi64_correct sp s ds rest :
  Forall (fun c => sqlite3Isspace c = true) sp -> digits ds -> ds <> [] -> stops rest ->
  let r := sqlite3Atoi64 (sp ++ sign_text s ++ chars ds ++ rest) SQLITE_UTF8 in
  let v := dval ds in
  fst r = atoi64_code s v rest /\
  (fits (sign_val s v) = true -> snd r = sign_val s v) /\
  (v = 2 ^ 63 -> snd r = SMALLEST_INT64).
Proof. apply atoi64_spec. Qed.

(** " -0123x" *)
Example sqlite3Atoi64_correct_witness :
  fst (sqlite3Atoi64 ([32] ++ sign_text Minus ++ chars [0; 1; 2; 3] ++ [120]) SQLITE_UTF8)
  = atoi64_code Minus (dval [0; 1; 2; 3]) [120].
Proof.
  refine (proj1 (sqlite3Atoi64_correct [32] Minus [0; 1; 2; 3] [120] _ _ _ _)).
  - repeat constructor.
  - repeat constructor; lia.
  - discriminate.
  - split; [repeat constructor; lia|reflexivity].
Defined.

(** [sqlite3GetInt32] accepts an optionally signed digit string exactly
    when its value fits in 32 bits, and returns that value; leading zeros do
    not count, and what follows the digits is ignored. *)
Theorem sqlite3GetInt32_correct s ds rest :
  digits ds -> ds <> [] -> stops rest ->
  let v := sign_val s (dval ds) in
  sqlite3GetInt32 (sign_text s ++ chars ds ++ rest)
  = if (- 2 ^ 31 <=? v) && (v <? 2 ^ 31) then Some v else None.
Proof. apply getint32_spec. Qed.

Example sqlite3GetInt32_correct_witness :
  sqlite3GetInt32 (sign_text Minus ++ chars [0; 2; 1; 4; 7; 4; 8; 3; 6; 4; 8] ++ [])
  = Some (-2147483648).
Proof.
  refine (sqlite3GetInt32_correct Minus [0; 2; 1; 4; 7; 4; 8; 3; 6; 4; 8] [] _ _ _).
  - repeat constructor; lia.
  - discriminate.
  - split; [constructor|exact I].
Defined.

(** Addition, subtraction and, when the product of the low 32-bit halves
    itself fits in 64 bits, multiplication detect overflow exactly: they
    return the mathematical result with code 0, or code 1 with the first
    operand unchanged when the result is not a 64-bit integer. *)
Theorem int64_arith_exact a b :
  is_i64 a -> is_i64 b ->
  sqlite3AddInt64 a b = (if fits (a + b) then (0, a + b) else (1, a)) /\
  sqlite3SubInt64 a b = (if fits (a - b) then (0, a - b) else (1, a)) /\
  (is_i64 (Z.rem a TWOPOWER32 * Z.rem b TWOPOWER32) ->
   sqlite3MulInt64 a b = if fits (a * b) then (0, a * b) else (1, a)).
Proof.
  intros Ha Hb. split; [by apply add_spec|]. split; [by apply sub_spec|]. by apply mul_spec.
Qed.

Example int64_arith_exact_witness :
  sqlite3SubInt64 (-2) (- 2 ^ 63) = (0, 2 ^ 63 - 2) /\
  sqlite3MulInt64 (- 2 ^ 40) (2 ^ 23) = (0, - 2 ^ 63).
Proof.
  split.
  - refine (proj1 (proj2 (int64_arith_exact (-2) (- 2 ^ 63) _ _))); unfold_int; lia.
  - refine (proj2 (proj2 (int64_arith_exact (- 2 ^ 40) (2 ^ 23) _ _)) _); unfold_int; try lia.
    vm_compute. split; [discriminate|reflexivity].
Defined.

(** outside that case multiplication is wrong: the product of two low
    halves above 2^63 is an overflowing [i64] product (it wraps around on two's
    complement machines) that nothing checks, so that
    4294967295 * 4294967295 is reported as -8589934591 with success. *)
Theorem sqlite3MulInt64_wraps :
  sqlite3MulInt64 4294967295 4294967295 = (0, -8589934591) /\
  fits (4294967295 * 4294967295) = false.
Proof. split; reflexivity. Qed.
