(* ===== verification/Utf.v ===== *)
(** * Unicode transformation formats (src/lmdb-backend/src/utf.c)

    A [zIn++] cursor with its end pointer is the list of the bytes left; a
    [zOut++] cursor is the list of the bytes written. *)

From S2P Require Import Prelude Ctype.

Definition sqlite3Utf8Trans1 : list Z :=
  [ 0;  1;  2;  3;  4;  5;  6;  7;  8;  9; 10; 11; 12; 13; 14; 15;
   16; 17; 18; 19; 20; 21; 22; 23; 24; 25; 26; 27; 28; 29; 30; 31;
    0;  1;  2;  3;  4;  5;  6;  7;  8;  9; 10; 11; 12; 13; 14; 15;
    0;  1;  2;  3;  4;  5;  6;  7;  0;  1;  2;  3;  0;  1;  0;  0].

Definition Utf8Trans1 (i : Z) : Z := nth (Z.to_nat i) sqlite3Utf8Trans1 0.

(** ** Writers *)

Definition WRITE_UTF8 (c : Z) : list Z :=
  if c <? 0x80 then [u8 (Z.land c 0xFF)]
  else if c <? 0x800 then
    [u8 (0xC0 + u8 (Z.land (Z.shiftr c 6) 0x1F));
     u8 (0x80 + u8 (Z.land c 0x3F))]
  else if c <? 0x10000 then
    [u8 (0xE0 + u8 (Z.land (Z.shiftr c 12) 0x0F));
     u8 (0x80 + u8 (Z.land (Z.shiftr c 6) 0x3F));
     u8 (0x80 + u8 (Z.land c 0x3F))]
  else
    [u8 (0xF0 + u8 (Z.land (Z.shiftr c 18) 0x07));
     u8 (0x80 + u8 (Z.land (Z.shiftr c 12) 0x3F));
     u8 (0x80 + u8 (Z.land (Z.shiftr c 6) 0x3F));
     u8 (0x80 + u8 (Z.land c 0x3F))].

Definition WRITE_UTF16LE (c : Z) : list Z :=
  if c <=? 0xFFFF then
    [u8 (Z.land c 0x00FF); u8 (Z.land (Z.shiftr c 8) 0x00FF)]
  else
    [u8 (Z.land (Z.shiftr c 10) 0x003F + Z.land (Z.shiftr (u32 (c - 0x10000)) 10) 0x00C0);
     u8 (0x00D8 + Z.land (Z.shiftr (u32 (c - 0x10000)) 18) 0x03);
     u8 (Z.land c 0x00FF);
     u8 (0x00DC + Z.land (Z.shiftr c 8) 0x03)].

Definition WRITE_UTF16BE (c : Z) : list Z :=
  if c <=? 0xFFFF then
    [u8 (Z.land (Z.shiftr c 8) 0x00FF); u8 (Z.land c 0x00FF)]
  else
    [u8 (0x00D8 + Z.land (Z.shiftr (u32 (c - 0x10000)) 18) 0x03);
     u8 (Z.land (Z.shiftr c 10) 0x003F + Z.land (Z.shiftr (u32 (c - 0x10000)) 10) 0x00C0);
     u8 (0x00DC + Z.land (Z.shiftr c 8) 0x03);
     u8 (Z.land c 0x00FF)].

(** ** Readers

    [None] is a read past the end. *)

(** The surrogate pair arithmetic shared by the two byte orders. *)
Definition surrogate (c c2 : Z) : Z :=
  Z.land c2 0x03FF + Z.shiftl (Z.land c 0x003F) 10
  + Z.shiftl (Z.land c 0x03C0 + 0x0040) 10.

(** [TERM] is the macro's argument as a function of the cursor it is tested
    at: [zIn<zTerm] in the translators, [1] in [sqlite3Utf16ByteLen]. *)
Definition READ_UTF16LE (TERM : list Z -> bool) (z : list Z) : option (Z * list Z) :=
  match z with
  | b0 :: b1 :: z =>
      let c := b0 + Z.shiftl b1 8 in
      if (c >=? 0xD800) && (c <? 0xE000) && TERM z then
        match z with
        | b2 :: b3 :: z =>
            let c2 := b2 + Z.shiftl b3 8 in
            Some (surrogate c c2, z)
        | _ => None
        end
      else Some (c, z)
  | _ => None
  end.

Definition READ_UTF16BE (TERM : list Z -> bool) (z : list Z) : option (Z * list Z) :=
  match z with
  | b0 :: b1 :: z =>
      let c := Z.shiftl b0 8 + b1 in
      if (c >=? 0xD800) && (c <? 0xE000) && TERM z then
        match z with
        | b2 :: b3 :: z =>
            let c2 := Z.shiftl b2 8 + b3 in
            Some (surrogate c c2, z)
        | _ => None
        end
      else Some (c, z)
  | _ => None
  end.

(** [while( zIn!=zTerm && ( *zIn & 0xc0)==0x80 ){ c = (c<<6) + (0x3f & *(zIn++)); }] *)
Fixpoint utf8_tail (c : Z) (z : list Z) : Z * list Z :=
  match z with
  | b :: z1 =>
      if Z.land b 0xc0 =? 0x80
      then utf8_tail (u32 (Z.shiftl c 6 + Z.land 0x3f b)) z1
      else (c, z)
  | [] => (c, [])
  end.

Definition READ_UTF8 (z : list Z) : option (Z * list Z) :=
  match z with
  | [] => None
  | c :: z =>
      if c >=? 0xc0 then
        let '(c, z) := utf8_tail (Utf8Trans1 (c - 0xc0)) z in
        if (c <? 0x80) || (Z.land c 0xFFFFF800 =? 0xD800) || (Z.land c 0xFFFFFFFE =? 0xFFFE)
        then Some (0xFFFD, z) else Some (c, z)
      else Some (c, z)
  end.

(** The same on a zero-terminated string, whose terminator stops the loop. *)
Definition sqlite3Utf8Read (z : list Z) : Z * list Z :=
  match z with
  | [] => (0, [])
  | c :: z =>
      if c >=? 0xc0 then
        let '(c, z) := utf8_tail (Utf8Trans1 (c - 0xc0)) z in
        if (c <? 0x80) || (Z.land c 0xFFFFF800 =? 0xD800) || (Z.land c 0xFFFFFFFE =? 0xFFFE)
        then (0xFFFD, z) else (c, z)
      else (c, z)
  end.

(** ** Translation

    [while( zIn<zTerm ){ READ(...); WRITE(...); }] *)
Fixpoint translate_loop (fuel : nat) (rd : list Z -> option (Z * list Z))
    (wr : Z -> list Z) (z : list Z) : option (list Z) :=
  match z with
  | [] => Some []
  | _ =>
      match fuel with
      | O => None
      | S fuel =>
          '(c, z) ← rd z;
          out ← translate_loop fuel rd wr z;
          Some (wr c ++ out)
      end
  end.

(** [zIn<zTerm] *)
Definition more (z : list Z) : bool := match z with [] => false | _ => true end.

(** [while( zIn<zTerm ){ temp = *zIn; ... }] *)
Fixpoint swap_bytes (z : list Z) : list Z :=
  match z with
  | a :: b :: z => b :: a :: swap_bytes z
  | z => z
  end.

(** ** Lengths *)

(** [if( ( *(zIn++))>=0xc0 ){ while( ( *zIn & 0xc0)==0x80 ){ zIn++; } }]: the
    number of bytes skipped. *)
Fixpoint skip_tail (z : list Z) : nat :=
  match z with
  | b :: z => if Z.land b 0xc0 =? 0x80 then S (skip_tail z) else O
  | [] => O
  end.

Definition SQLITE_SKIP_UTF8 (z : list Z) : nat :=
  match z with
  | [] => O
  | c :: z => if c >=? 0xc0 then S (skip_tail z) else 1%nat
  end.

(** [while( *z!=0 && z<zTerm ){ SQLITE_SKIP_UTF8(z); r++; }]; [left] is
    [zTerm - z], [None] for the pointer [-1]. *)
Fixpoint charlen_loop (fuel : nat) (z : list Z) (left : option Z) (r : Z) : Z :=
  match fuel with
  | O => r
  | S fuel =>
      if negb (deref z =? 0) && match left with Some l => 0 <? l | None => true end then
        let n := SQLITE_SKIP_UTF8 z in
        charlen_loop fuel (drop n z) (option_map (fun l => l - Z.of_nat n) left) (r + 1)
      else r
  end.

Definition sqlite3Utf8CharLen (zIn : list Z) (nByte : Z) : Z :=
  charlen_loop (S (length zIn)) zIn (if nByte >=? 0 then Some nByte else None) 0.

(** [while( n<nChar ){ READ_UTF16xx(z, 1, c); n++; }] *)
Fixpoint utf16_skip (rd : list Z -> option (Z * list Z)) (n : nat) (z : list Z)
    : option (list Z) :=
  match n with
  | O => Some z
  | S n => '(_, z) ← rd z; utf16_skip rd n z
  end.

Definition sqlite3Utf16ByteLen (native_be : bool) (zIn : list Z) (nChar : nat) : option Z :=
  z ← utf16_skip ((if native_be then READ_UTF16BE else READ_UTF16LE) (fun _ => true)) nChar zIn;
  Some (Z.of_nat (length zIn) - Z.of_nat (length z)).

(** ** One character *)

(** Not a continuation byte: where a character may begin. *)
Definition boundary (z : list Z) : bool :=
  match z with [] => true | b :: _ => negb (Z.land b 0xc0 =? 0x80) end.

Lemma land_c0 b : Z.land b 0xc0 = (b / 64) mod 4 * 64.
Proof.
  change 0xc0 with (0 + 3 * 2 ^ 6). rewrite land_fields, Z.land_0_r by lia.
  change 3 with (2 ^ 2 - 1). rewrite land_ones_mod by lia.
  change (2 ^ 6) with 64. change (2 ^ 2) with 4. lia.
Qed.

Lemma land_3f b : Z.land 0x3f b = b mod 64.
Proof. rewrite Z.land_comm. apply (land_ones_mod b 6). lia. Qed.

Lemma utf8_tail_step c y z :
  0 <= y < 64 -> utf8_tail c (u8 (0x80 + u8 y) :: z) = utf8_tail (u32 (c * 64 + y)) z.
Proof.
  intros Hy. cbn [utf8_tail]. rewrite land_c0, land_3f.
  replace (u8 (0x80 + u8 y)) with (128 + y) by zlia.
  destruct (Z.eqb_spec ((128 + y) / 64 mod 4 * 64) 128); [|zlia].
  rewrite Z.shiftl_mul_pow2 by lia. change (2 ^ 6) with 64. f_equal. f_equal. zlia.
Qed.

Lemma utf8_tail_stop c z : boundary z = true -> utf8_tail c z = (c, z).
Proof. destruct z as [|b z]; [done|]. cbn. by destruct (_ =? _). Qed.

Lemma trans1_lead k n x :
  (k, n) = (0, 32) \/ (k, n) = (32, 16) \/ (k, n) = (48, 8) ->
  0 <= x < n -> Utf8Trans1 (k + x) = x.
Proof.
  intros Hk Hx. assert (x ∈ seqZ 0 n) as He by (apply elem_of_seqZ; lia). clear Hx.
  destruct_or! Hk; simplify_eq; revert x He; apply Forall_forall;
    apply (bool_decide_unpack _); vm_compute; exact I.
Qed.

(** What [READ_UTF8] makes of the code points it refuses. *)
Definition utf8_norm (c : Z) : Z :=
  if (0xD800 <=? c) && (c <=? 0xDFFF) || (c =? 0xFFFE) || (c =? 0xFFFF) then 0xFFFD else c.

Lemma utf8_check c :
  0x80 <= c < 0x110000 ->
  (if (c <? 0x80) || (Z.land c 0xFFFFF800 =? 0xD800) || (Z.land c 0xFFFFFFFE =? 0xFFFE)
   then 0xFFFD else c) = utf8_norm c.
Proof.
  intros Hc. unfold utf8_norm.
  change 0xFFFFF800 with (0 + 2097151 * 2 ^ 11). change 0xFFFFFFFE with (0 + 2147483647 * 2 ^ 1).
  rewrite !land_fields, !Z.land_0_r by lia.
  change 2097151 with (2 ^ 21 - 1). change 2147483647 with (2 ^ 31 - 1).
  rewrite !land_ones_mod by lia.
  change (2 ^ 11) with 2048. change (2 ^ 21) with 2097152. change (2 ^ 1) with 2.
  change (2 ^ 31) with 2147483648.
  destruct (Z.ltb_spec c 0x80), (Z.eqb_spec (0 + c / 2048 mod 2097152 * 2048) 0xD800),
    (Z.eqb_spec (0 + c / 2 mod 2147483648 * 2) 0xFFFE), (Z.leb_spec 0xD800 c),
    (Z.leb_spec c 0xDFFF), (Z.eqb_spec c 0xFFFE), (Z.eqb_spec c 0xFFFF);
    cbn [andb orb]; try reflexivity; zlia.
Qed.

Lemma land_bits x k : 0 <= k -> Z.land x (2 ^ k - 1) = x mod 2 ^ k.
Proof. apply land_ones_mod. Qed.

(** The pieces of a code point, as arithmetic. *)
Ltac bits_arith :=
  rewrite ?Z.shiftr_div_pow2, ?Z.shiftl_mul_pow2 by lia;
  change 0xFF with (2 ^ 8 - 1); change 0x3F with (2 ^ 6 - 1); change 0x1F with (2 ^ 5 - 1);
  change 0x0F with (2 ^ 4 - 1); change 0x07 with (2 ^ 3 - 1);
  rewrite ?land_bits by lia;
  change (2 ^ 3) with 8; change (2 ^ 4) with 16; change (2 ^ 5) with 32;
  change (2 ^ 6) with 64; change (2 ^ 8) with 256; change (2 ^ 10) with 1024;
  change (2 ^ 12) with 4096; change (2 ^ 18) with 262144.

Lemma read_utf8_lead k n x z :
  (k, n) = (0, 32) \/ (k, n) = (32, 16) \/ (k, n) = (48, 8) -> 0 <= x < n ->
  READ_UTF8 (u8 (192 + k + u8 x) :: z)
  = let '(c, z) := utf8_tail x z in
    Some (if (c <? 0x80) || (Z.land c 0xFFFFF800 =? 0xD800) || (Z.land c 0xFFFFFFFE =? 0xFFFE)
          then 0xFFFD else c, z).
Proof.
  intros Hk Hx. unfold READ_UTF8.
  assert (u8 (192 + k + u8 x) = 192 + (k + x)) as ->
    by (destruct_or! Hk; simplify_eq; zlia).
  destruct (Z.geb_spec (192 + (k + x)) 192); [|destruct_or! Hk; simplify_eq; lia].
  replace (192 + (k + x) - 192) with (k + x) by lia.
  rewrite (trans1_lead k n x) by done.
  destruct (utf8_tail x z) as [c z']. by destruct (_ || _).
Qed.

Lemma read_write_utf8 c rest :
  0 <= c < 0x110000 -> boundary rest = true ->
  READ_UTF8 (WRITE_UTF8 c ++ rest) = Some (utf8_norm c, rest).
Proof.
  intros Hc Hr. unfold WRITE_UTF8. bits_arith.
  destruct (Z.ltb_spec c 0x80) as [H|H].
  { cbn [app READ_UTF8]. replace (u8 (c mod 256)) with c by zlia.
    destruct (Z.geb_spec c 192); [lia|]. unfold utf8_norm.
    repeat (zcase; cbn [andb orb]); try lia; done. }
  rewrite <- utf8_check by lia.
  destruct (Z.ltb_spec c 0x800); [|destruct (Z.ltb_spec c 0x10000)];
    cbn [app].
  - rewrite (read_utf8_lead 0 32) by (tauto || zlia).
    rewrite utf8_tail_step, utf8_tail_stop by (done || zlia).
    replace (u32 ((c / 64) mod 32 * 64 + c mod 64)) with c by zlia. done.
  - change 224 with (192 + 32). rewrite (read_utf8_lead 32 16) by (tauto || zlia).
    rewrite !utf8_tail_step, utf8_tail_stop by (done || zlia).
    replace (u32 (u32 ((c / 4096) mod 16 * 64 + (c / 64) mod 64) * 64 + c mod 64))
      with c by zlia. done.
  - change 240 with (192 + 48). rewrite (read_utf8_lead 48 8) by (tauto || zlia).
    rewrite !utf8_tail_step, utf8_tail_stop by (done || zlia).
    replace (u32 (u32 (u32 ((c / 262144) mod 8 * 64 + (c / 4096) mod 64) * 64
                       + (c / 64) mod 64) * 64 + c mod 64)) with c by zlia. done.
Qed.

(** ** UTF-16 characters *)

Definition scalar (c : Z) : Prop := 0 <= c < 0x110000 /\ ~ 0xD800 <= c < 0xE000.

Lemma surrogate_spec c c2 :
  0 <= c -> 0 <= c2 ->
  surrogate c c2 = c2 mod 1024 + (c mod 64) * 1024 + ((c / 64) mod 16 * 64 + 64) * 1024.
Proof.
  intros. unfold surrogate.
  change 0x03FF with (2 ^ 10 - 1). change 0x03C0 with (0 + 15 * 2 ^ 6).
  change 0x003F with (2 ^ 6 - 1).
  rewrite land_fields, Z.land_0_r, !land_ones_mod by lia. change 15 with (2 ^ 4 - 1).
  rewrite land_ones_mod, !Z.shiftl_mul_pow2 by lia.
  change (2 ^ 10) with 1024. change (2 ^ 6) with 64. change (2 ^ 4) with 16. lia.
Qed.

Lemma land_hi2 x : Z.land x 0x00C0 = (x / 64) mod 4 * 64.
Proof. apply land_c0. Qed.

Lemma land_3 x : Z.land x 0x03 = x mod 4.
Proof. apply (land_ones_mod x 2). lia. Qed.

(** The four bytes of a supplementary character, as two 16-bit units. *)
Lemma utf16_pair c :
  0x10000 <= c < 0x110000 ->
  let hi := u8 (0x00D8 + Z.land (Z.shiftr (u32 (c - 0x10000)) 18) 0x03) * 256
            + u8 (Z.land (Z.shiftr c 10) 0x003F
                  + Z.land (Z.shiftr (u32 (c - 0x10000)) 10) 0x00C0) in
  let lo := u8 (0x00DC + Z.land (Z.shiftr c 8) 0x03) * 256 + u8 (Z.land c 0x00FF) in
  0xD800 <= hi < 0xE000 /\ 0 <= lo /\ surrogate hi lo = c.
Proof.
  intros Hc. cbv zeta. rewrite !land_hi2, !land_3.
  change 0x003F with (2 ^ 6 - 1). change 0x00FF with (2 ^ 8 - 1).
  rewrite !land_ones_mod, !Z.shiftr_div_pow2 by lia.
  change (2 ^ 6) with 64. change (2 ^ 8) with 256. change (2 ^ 10) with 1024.
  change (2 ^ 18) with 262144.
  assert (u32 (c - 65536) = c - 65536) as -> by zlia.
  rewrite surrogate_spec by zlia. split; [zlia|]. split; zlia.
Qed.

Lemma read_write_utf16 c rest (TERM : list Z -> bool) :
  scalar c -> (forall a b z, TERM (a :: b :: z) = true) ->
  READ_UTF16LE TERM (WRITE_UTF16LE c ++ rest) = Some (c, rest) /\
  READ_UTF16BE TERM (WRITE_UTF16BE c ++ rest) = Some (c, rest).
Proof.
  intros [Hc Hs] HT. unfold WRITE_UTF16LE, WRITE_UTF16BE.
  destruct (Z.leb_spec c 0xFFFF).
  - change 0x00FF with (2 ^ 8 - 1). rewrite !land_ones_mod, !Z.shiftr_div_pow2 by lia.
    cbn [app READ_UTF16LE READ_UTF16BE]. rewrite !Z.shiftl_mul_pow2 by lia.
    change (2 ^ 8) with 256. rewrite !(wrap_u_small 8) by zlia.
    replace (c mod 256 + (c / 256) mod 256 * 256) with c by zlia.
    replace ((c / 256) mod 256 * 256 + c mod 256) with c by zlia.
    rewrite Z.geb_leb. destruct (Z.leb_spec 0xD800 c), (Z.ltb_spec c 0xE000); cbn [andb];
      done || lia.
  - destruct (utf16_pair c) as (Hhi & Hlo & Hp); [lia|]. cbv zeta in *.
    cbn [app READ_UTF16LE READ_UTF16BE]. rewrite !HT, !Z.shiftl_mul_pow2 by lia.
    change (2 ^ 8) with 256. rewrite !(Z.add_comm _ (_ * 256)).
    set (hi := u8 (216 + _) * 256 + _) in *. set (lo := u8 (220 + _) * 256 + _) in *.
    rewrite Z.geb_leb. destruct (Z.leb_spec 0xD800 hi), (Z.ltb_spec hi 0xE000); try lia.
    cbn [andb]. rewrite Hp. done.
Qed.

(** ** Strings of characters *)

Definition utf8_ok (c : Z) : Prop := scalar c /\ c <> 0xFFFE /\ c <> 0xFFFF.

Lemma utf8_norm_ok c : utf8_ok c -> utf8_norm c = c.
Proof.
  intros ([Hc Hs] & H1 & H2). unfold utf8_norm.
  repeat (zcase; cbn [andb orb]); lia || done.
Qed.

Lemma write_utf8_boundary c rest : 0 <= c -> boundary (WRITE_UTF8 c ++ rest) = true.
Proof.
  intros Hc. unfold WRITE_UTF8. bits_arith.
  destruct (Z.ltb_spec c 0x80); [|destruct (Z.ltb_spec c 0x800);
    [|destruct (Z.ltb_spec c 0x10000)]]; cbn [app boundary]; rewrite land_c0;
    zcase; cbn [negb]; done || zlia.
Qed.

Lemma write_utf8_length c : (1 <= length (WRITE_UTF8 c) <= 4)%nat.
Proof. unfold WRITE_UTF8. repeat (zcase; cbn [length]; try lia). Qed.

Lemma write_utf16_length c :
  length (WRITE_UTF16LE c) = (if (c <=? 0xFFFF)%Z then 2 else 4)%nat /\
  length (WRITE_UTF16BE c) = (if (c <=? 0xFFFF)%Z then 2 else 4)%nat.
Proof. unfold WRITE_UTF16LE, WRITE_UTF16BE. by destruct (c <=? 0xFFFF). Qed.

(** A loop over encoded characters re-encodes each of them. *)
Lemma translate_encoded rd wr (enc : Z -> list Z) (ok : Z -> Prop) :
  (forall c, ok c -> (1 <= length (enc c))%nat) ->
  (forall c cs, ok c -> Forall ok cs ->
     rd (enc c ++ concat (map enc cs)) = Some (c, concat (map enc cs))) ->
  forall cs fuel, Forall ok cs -> (length (concat (map enc cs)) <= fuel)%nat ->
  translate_loop fuel rd wr (concat (map enc cs)) = Some (concat (map wr cs)).
Proof.
  intros Hlen Hrd cs. induction cs as [|c cs IH]; intros fuel Hok Hf; [by destruct fuel|].
  apply Forall_cons in Hok as [Hc Hcs]. cbn [map concat] in *.
  rewrite length_app in Hf. specialize (Hlen c Hc).
  destruct fuel as [|fuel]; [lia|]. specialize (IH fuel Hcs ltac:(lia)).
  specialize (Hrd c cs Hc Hcs).
  destruct (enc c ++ concat (map enc cs)) as [|b z] eqn:E.
  - apply (f_equal length) in E. rewrite length_app in E. cbn in E. lia.
  - cbn [translate_loop]. rewrite Hrd. cbn [mbind option_bind]. by rewrite IH.
Qed.

Lemma concat_boundary cs : Forall utf8_ok cs -> boundary (concat (map WRITE_UTF8 cs)) = true.
Proof.
  intros H. destruct cs as [|c cs]; [done|]. apply Forall_cons in H as [[[Hc _] _] _].
  apply write_utf8_boundary. lia.
Qed.

Lemma read_utf8_string c cs :
  utf8_ok c -> Forall utf8_ok cs ->
  READ_UTF8 (WRITE_UTF8 c ++ concat (map WRITE_UTF8 cs)) = Some (c, concat (map WRITE_UTF8 cs)).
Proof.
  intros Hc Hcs. rewrite read_write_utf8, utf8_norm_ok; try done; [apply Hc|].
  by apply concat_boundary.
Qed.

(** ** Buffer bounds on arbitrary input *)

Lemma utf8_tail_bound z : forall c c' z',
  0 <= c -> utf8_tail c z = (c', z') ->
  0 <= c' /\ (length z' <= length z)%nat /\
  c' < (c + 1) * 64 ^ (Z.of_nat (length z) - Z.of_nat (length z')).
Proof.
  induction z as [|b z IH]; intros c c' z' Hc H; cbn in H.
  - simplify_eq. cbn. lia.
  - destruct (_ =? _).
    + apply IH in H; [|apply wrap_u_range; lia]. rewrite land_3f in H.
      destruct H as (H0 & Hl & Hb). split; [done|]. cbn [length]. split; [lia|].
      replace (Z.of_nat (S (length z)) - Z.of_nat (length z'))
        with (Z.of_nat (length z) - Z.of_nat (length z') + 1) by lia.
      rewrite Z.pow_add_r by lia. change (64 ^ 1) with 64.
      set (P := 64 ^ _) in *. assert (0 < P) by (apply Z.pow_pos_nonneg; lia).
      rewrite Z.shiftl_mul_pow2 in Hb by lia. change (2 ^ 6) with 64 in Hb.
      assert (u32 (c * 64 + b mod 64) + 1 <= (c + 1) * 64) by zlia. nia.
    + simplify_eq. rewrite Z.sub_diag. cbn. lia.
Qed.

Lemma trans1_range i : 0 <= Utf8Trans1 i < 32.
Proof.
  unfold Utf8Trans1. generalize (Z.to_nat i). intros n.
  destruct (Nat.lt_ge_cases n 64) as [H|H].
  - assert (Forall (fun x => 0 <= x < 32) sqlite3Utf8Trans1) as Hf
      by (repeat constructor; lia).
    rewrite Forall_forall in Hf. apply Hf, list_elem_of_In, nth_In. done.
  - rewrite nth_overflow by done. lia.
Qed.

(** Every character read from UTF-8 makes room for its UTF-16 form. *)
Lemma read_utf8_room z c z' :
  bytes_ok z -> READ_UTF8 z = Some (c, z') ->
  (length z' < length z)%nat /\
  ((if (c <=? 0xFFFF)%Z then 2 else 4) <= 2 * (length z - length z'))%nat.
Proof.
  intros Hz H. destruct z as [|b z]; [done|]. apply Forall_cons in Hz as [Hb _].
  cbn [READ_UTF8] in H. rewrite Z.geb_leb in H.
  destruct (Z.leb_spec 192 b); [|simplify_eq; cbn [length]; destruct (Z.leb_spec c 65535);
    [lia|unfold_int; lia]].
  destruct (utf8_tail (Utf8Trans1 (b - 192)) z) as [c1 z1] eqn:E.
  pose proof (trans1_range (b - 192)). apply utf8_tail_bound in E as (Hc0 & Hl & Hc); [|lia].
  assert (z1 = z' /\ c <= Z.max c1 0xFFFD) as [-> Hle] by (destruct (_ || _); simplify_eq; split; done || lia).
  cbn [length]. split; [lia|]. destruct (Z.leb_spec c 65535); [lia|].
  assert (2 <= length z - length z')%nat; [|lia].
  destruct (Nat.lt_ge_cases (length z - length z') 2) as [Hs|]; [|done]. exfalso.
  assert (64 ^ (Z.of_nat (length z) - Z.of_nat (length z')) <= 64 ^ 1)
    by (apply Z.pow_le_mono_r; lia).
  change (64 ^ 1) with 64 in *. nia.
Qed.

Lemma read_utf16_room (rd : list Z -> option (Z * list Z)) z :
  rd = READ_UTF16LE more \/ rd = READ_UTF16BE more ->
  bytes_ok z -> Nat.Even (length z) -> z <> [] ->
  exists c z', rd z = Some (c, z') /\ bytes_ok z' /\ Nat.Even (length z') /\
    (length z' < length z)%nat /\
    (length (WRITE_UTF8 c) <= 2 * (length z - length z'))%nat.
Proof.
  intros Hrd Hz [n Hn] Hne.
  destruct z as [|b0 [|b1 z]]; [done|cbn in Hn; lia|].
  apply Forall_cons in Hz as [H0 Hz]. apply Forall_cons in Hz as [H1 Hz].
  assert (Nat.Even (length z)) as Hev by (exists (n - 1)%nat; cbn [length] in Hn; lia).
  assert (forall c, (length (WRITE_UTF8 c) <= 2 * (length (b0 :: b1 :: z) - length z))%nat) as H4
    by (intros c; pose proof (write_utf8_length c); cbn [length]; lia).
  assert (exists c z', rd (b0 :: b1 :: z) = Some (c, z') /\
    (z' = z \/ exists b2 b3, z = b2 :: b3 :: z')) as (c & z' & Hr & Hz').
  { destruct z as [|b2 [|b3 z]].
    - destruct Hrd as [-> | ->]; cbn [READ_UTF16LE READ_UTF16BE more];
        rewrite andb_false_r; (eexists _, _; split; [reflexivity|by left]).
    - destruct Hev as [m Hm]. cbn in Hm. lia.
    - destruct Hrd as [-> | ->]; cbn [READ_UTF16LE READ_UTF16BE more]; destruct (_ && _);
        (eexists _, _; split; [reflexivity|first [by left|right; by eexists _, _]]). }
  exists c, z'. split; [done|].
  destruct Hz' as [-> | (b2 & b3 & ->)].
  - split; [done|]. split; [done|]. split; [cbn [length]; lia|]. apply H4.
  - apply Forall_cons in Hz as [_ Hz]. apply Forall_cons in Hz as [_ Hz].
    split; [done|]. destruct Hev as [m Hm]. cbn [length] in *.
    split; [exists (m - 1)%nat; lia|]. split; [lia|].
    pose proof (write_utf8_length c). lia.
Qed.

(** A loop whose reader always advances and leaves room for the writer ends
    and stays within twice the input. *)
Lemma translate_bound rd wr (P : list Z -> Prop) :
  (forall z, P z -> z <> [] -> exists c z', rd z = Some (c, z') /\ P z' /\
     (length z' < length z)%nat /\ (length (wr c) <= 2 * (length z - length z'))%nat) ->
  forall fuel z, P z -> (length z <= fuel)%nat ->
  exists out, translate_loop fuel rd wr z = Some out /\ (length out <= 2 * length z)%nat.
Proof.
  intros H fuel. induction fuel as [|fuel IH]; intros z Hz Hf.
  - destruct z; [|cbn in Hf; lia]. exists []. split; [done|cbn; lia].
  - destruct z as [|b z]; [exists []; split; [done|cbn; lia]|].
    destruct (H (b :: z) Hz) as (c & z' & Hr & Hz' & Hl & Hw); [done|].
    destruct (IH z' Hz') as (out & Ho & Hlen); [lia|].
    exists (wr c ++ out). cbn [translate_loop]. rewrite Hr. cbn [mbind option_bind].
    rewrite Ho. split; [done|]. rewrite length_app. lia.
Qed.

Lemma read_utf8_total z :
  bytes_ok z -> z <> [] -> exists c z', READ_UTF8 z = Some (c, z') /\ bytes_ok z'.
Proof.
  intros Hz Hne. destruct z as [|b z]; [done|]. apply Forall_cons in Hz as [Hb Hz].
  cbn [READ_UTF8]. destruct (b >=? 192); [|eauto].
  assert (forall c, bytes_ok (snd (utf8_tail c z))) as Ht.
  { clear Hne Hb. induction Hz as [|x z Hx Hz IH]; intros c; cbn; [constructor|].
    destruct (_ =? _); [apply IH|]. by constructor. }
  specialize (Ht (Utf8Trans1 (b - 192))).
  destruct (utf8_tail _ z) as [c z'] eqn:E. cbn in Ht.
  destruct (_ || _); eauto.
Qed.

(** Every Unicode scalar value survives each of the three encodings: what
    the writers write has one to four bytes and the readers give the
    character back and stop behind it, except that UTF-8 reads the surrogates
    and U+FFFE, U+FFFF as U+FFFD. *)
Theorem utf_char_roundtrip c rest :
  0 <= c < 0x110000 -> boundary rest = true ->
  (1 <= length (WRITE_UTF8 c) <= 4)%nat /\
  READ_UTF8 (WRITE_UTF8 c ++ rest) = Some (utf8_norm c, rest) /\
  (scalar c ->
   READ_UTF16LE more (WRITE_UTF16LE c ++ rest) = Some (c, rest) /\
   READ_UTF16BE more (WRITE_UTF16BE c ++ rest) = Some (c, rest)).
Proof.
  intros Hc Hr. split; [apply write_utf8_length|]. split; [by apply read_write_utf8|].
  intros Hs. by apply read_write_utf16.
Qed.

(** U+1D11E, the clef. *)
Example utf_char_roundtrip_witness :
  READ_UTF8 (WRITE_UTF8 0x1D11E ++ [65]) = Some (0x1D11E, [65]) /\
  READ_UTF16BE more (WRITE_UTF16BE 0x1D11E ++ [65]) = Some (0x1D11E, [65]).
Proof.
  destruct (utf_char_roundtrip 0x1D11E [65]) as (_ & H8 & H16); [lia|reflexivity|].
  split; [exact H8|]. apply H16. unfold scalar. lia.
Defined.
