(* ===== verification/Mem.v ===== *)
(** * Memory cells (src/lmdb-backend/src/vdbemem.c, utf.c, vdbeInt.h)

    A [Mem] holds an SQL value.  Its union [u] is one 64-bit field, read as
    [u.i] or, in its low half, as [u.nZero]; a double is its 64 bits.  Pointer
    [z] is the bytes that can be read through it, [own] whether it points to
    [zMalloc], and [szMalloc] the size of that allocation. *)

From S2P Require Import Prelude Ctype Ints Utf.
From Stdlib Require Import Floats.SpecFloat.

Definition SQLITE_OK : Z := 0.
Definition SQLITE_ERROR : Z := 1.
Definition SQLITE_NOMEM : Z := 7.
Definition SQLITE_TOOBIG : Z := 18.

Definition MEM_Null : Z := 0x0001.
Definition MEM_Str : Z := 0x0002.
Definition MEM_Int : Z := 0x0004.
Definition MEM_Real : Z := 0x0008.
Definition MEM_Blob : Z := 0x0010.
Definition MEM_Term : Z := 0x0200.
Definition MEM_Dyn : Z := 0x0400.
Definition MEM_Static : Z := 0x0800.
Definition MEM_Ephem : Z := 0x1000.
Definition MEM_Zero : Z := 0x4000.

Record Mem := mkMem {
  flags : Z;
  r : Z;
  u : Z;
  n : Z;
  z : list Z;
  enc : Z;
  own : bool;
  szMalloc : Z;
}.

Definition set_flags (m : Mem) (f : Z) : Mem :=
  mkMem f m.(r) m.(u) m.(n) m.(z) m.(enc) m.(own) m.(szMalloc).
Definition set_n (m : Mem) (x : Z) : Mem :=
  mkMem m.(flags) m.(r) m.(u) x m.(z) m.(enc) m.(own) m.(szMalloc).
Definition set_z (m : Mem) (x : list Z) : Mem :=
  mkMem m.(flags) m.(r) m.(u) m.(n) x m.(enc) m.(own) m.(szMalloc).
Definition set_enc (m : Mem) (x : Z) : Mem :=
  mkMem m.(flags) m.(r) m.(u) m.(n) m.(z) x m.(own) m.(szMalloc).
Definition set_u (m : Mem) (x : Z) : Mem :=
  mkMem m.(flags) m.(r) x m.(n) m.(z) m.(enc) m.(own) m.(szMalloc).

Definition has (f b : Z) : bool := negb (Z.land f b =? 0).
Definition nZero (m : Mem) : Z := i32 m.(u).
(** The content proper. *)
Definition content (m : Mem) : list Z := take (Z.to_nat m.(n)) m.(z).

(** ** Doubles *)

Definition double_of_bits (b : Z) : spec_float :=
  let s := Z.testbit b 63 in
  let e := Z.land (Z.shiftr b 52) 0x7ff in
  let m := Z.land b (2 ^ 52 - 1) in
  if e =? 0x7ff then (if m =? 0 then S754_infinity s else S754_nan)
  else
    match (if e =? 0 then m else m + 2 ^ 52) with
    | Zpos p => S754_finite s p (Z.max e 1 - 1075)
    | _ => S754_zero s
    end.

(** The conversion [(double)i]. *)
Definition double_of_i64 (i : Z) : spec_float := binary_normalize 53 1024 i 0 false.

Definition double_lt (x y : spec_float) : bool := SFltb x y.

(** The conversion [(i64)r] of x86: 0x8000000000000000 when the value is not in
    range, where C leaves it undefined. *)
Definition i64_of_double (x : spec_float) : Z :=
  match x with
  | S754_zero _ => 0
  | S754_finite s m e =>
      let a := if 0 <=? e then Zpos m * 2 ^ e else Zpos m / 2 ^ (- e) in
      let v := if s then - a else a in
      if fits v then v else SMALLEST_INT64
  | _ => SMALLEST_INT64
  end.

Definition doubleToInt64 (x : spec_float) : Z :=
  let maxInt := LARGEST_INT64 in
  let minInt := SMALLEST_INT64 in
  if double_lt x (double_of_i64 minInt) then minInt
  else if double_lt (double_of_i64 maxInt) x then minInt
  else i64_of_double x.

(** ** Storage

    [oom] tells whether an allocation made by the call fails. *)

Definition sqlite3VdbeMemGrow (oom : bool) (m : Mem) (nb : Z) (preserve : bool) : Z * Mem :=
  let nb := if nb <? 32 then 32 else nb in
  let enough := negb (m.(szMalloc) <? nb) in
  if negb enough && oom then
    (SQLITE_NOMEM, mkMem MEM_Null m.(r) m.(u) m.(n) [] m.(enc) true 0)
  else
    let f := Z.land m.(flags) (Z.lnot (Z.lor MEM_Ephem MEM_Static)) in
    let z := if preserve then content m else [] in
    (SQLITE_OK,
     mkMem f m.(r) m.(u) m.(n) z m.(enc) true (if enough then m.(szMalloc) else nb)).

Definition sqlite3VdbeMemExpandBlob (oom : bool) (m : Mem) : Z * Mem :=
  if has m.(flags) MEM_Zero then
    let nByte := m.(n) + nZero m in
    let nByte := if nByte <=? 0 then 1 else nByte in
    let '(rc, m1) := sqlite3VdbeMemGrow oom m nByte true in
    if negb (rc =? SQLITE_OK) then (SQLITE_NOMEM, m1)
    else
      let m2 := set_z m1 (content m1 ++ replicate (Z.to_nat (nZero m1)) 0) in
      let m3 := set_n m2 (m2.(n) + nZero m2) in
      (SQLITE_OK, set_flags m3 (Z.land m3.(flags) (Z.lnot (Z.lor MEM_Zero MEM_Term))))
  else (SQLITE_OK, m).

(** [z[n] = 0; z[n+1] = 0; flags |= MEM_Term] *)
Definition terminate (m : Mem) : Mem :=
  set_flags (set_z m (content m ++ [0; 0])) (Z.lor m.(flags) MEM_Term).

Definition sqlite3VdbeMemMakeWriteable (oom : bool) (m : Mem) : Z * Mem :=
  let m := snd (sqlite3VdbeMemExpandBlob oom m) in
  if has m.(flags) (Z.lor MEM_Str MEM_Blob) && negb m.(own) then
    let '(rc, m1) := sqlite3VdbeMemGrow oom m (m.(n) + 2) true in
    if negb (rc =? SQLITE_OK) then (SQLITE_NOMEM, m1) else (SQLITE_OK, terminate m1)
  else (SQLITE_OK, m).

Definition sqlite3VdbeMemNulTerminate (oom : bool) (m : Mem) : Z * Mem :=
  if has m.(flags) MEM_Term || negb (has m.(flags) MEM_Str) then (SQLITE_OK, m)
  else
    let '(rc, m1) := sqlite3VdbeMemGrow oom m (m.(n) + 2) true in
    if negb (rc =? SQLITE_OK) then (SQLITE_NOMEM, m1) else (SQLITE_OK, terminate m1).

(** ** Encodings *)

(** The bytes between [zIn] and [zTerm] translated: the four loops. *)
Definition translate (from to : Z) (zin : list Z) : option (list Z) :=
  let fuel := length zin in
  if from =? SQLITE_UTF8 then
    if to =? SQLITE_UTF16LE then translate_loop fuel READ_UTF8 WRITE_UTF16LE zin
    else translate_loop fuel READ_UTF8 WRITE_UTF16BE zin
  else if from =? SQLITE_UTF16LE then
    translate_loop fuel (READ_UTF16LE more) WRITE_UTF8 zin
  else translate_loop fuel (READ_UTF16BE more) WRITE_UTF8 zin.

(** The size of the buffer allocated for the output. *)
Definition translate_len (to n : Z) : Z :=
  if to =? SQLITE_UTF8 then Z.land n (Z.lnot 1) * 2 + 1 else n * 2 + 2.

(** [None] is a loop that reads out of bounds. *)
Definition sqlite3VdbeMemTranslate (oom : bool) (m : Mem) (desiredEnc : Z)
    : option (Z * Mem) :=
  if negb (m.(enc) =? SQLITE_UTF8) && negb (desiredEnc =? SQLITE_UTF8) then
    let '(rc, m1) := sqlite3VdbeMemMakeWriteable oom m in
    if negb (rc =? SQLITE_OK) then Some (SQLITE_NOMEM, m1)
    else
      let k := Z.to_nat (Z.land m1.(n) (Z.lnot 1)) in
      let m2 := set_z m1 (swap_bytes (take k m1.(z)) ++ drop k m1.(z)) in
      Some (SQLITE_OK, set_enc m2 desiredEnc)
  else
    let m1 := if desiredEnc =? SQLITE_UTF8
              then set_n m (Z.land m.(n) (Z.lnot 1)) else m in
    if oom then Some (SQLITE_NOMEM, m1)
    else
      out ← translate m1.(enc) desiredEnc (content m1);
      let f := Z.land m1.(flags) (Z.lnot (Z.lor MEM_Static (Z.lor MEM_Dyn MEM_Ephem))) in
      let f := Z.lor f (Z.lor MEM_Term MEM_Dyn) in
      let term := if m1.(enc) =? SQLITE_UTF8 then [0; 0] else [0] in
      Some (SQLITE_OK,
            mkMem f m1.(r) m1.(u) (Z.of_nat (length out)) (out ++ term) desiredEnc true
              (translate_len desiredEnc m.(n))).

Definition sqlite3VdbeChangeEncoding (oom : bool) (m : Mem) (desiredEnc : Z)
    : option (Z * Mem) :=
  if negb (has m.(flags) MEM_Str) || (m.(enc) =? desiredEnc) then Some (SQLITE_OK, m)
  else sqlite3VdbeMemTranslate oom m desiredEnc.

Definition sqlite3VdbeMemHandleBom (oom : bool) (m : Mem) : Z * Mem :=
  let bom :=
    if m.(n) >? 1 then
      let b1 := deref m.(z) in
      let b2 := at_ m.(z) 1 in
      let bom := if (b1 =? 0xFE) && (b2 =? 0xFF) then SQLITE_UTF16BE else 0 in
      if (b1 =? 0xFF) && (b2 =? 0xFE) then SQLITE_UTF16LE else bom
    else 0 in
  if negb (bom =? 0) then
    let '(rc, m1) := sqlite3VdbeMemMakeWriteable oom m in
    if rc =? SQLITE_OK then
      let m2 := set_n m1 (m1.(n) - 2) in
      let m3 := set_z m2 (take (Z.to_nat m2.(n)) (drop 2 m2.(z)) ++ [0; 0]) in
      (rc, set_enc (set_flags m3 (Z.lor m3.(flags) MEM_Term)) bom)
    else (rc, m1)
  else (SQLITE_OK, m).

(** ** Numbers *)

(** The text branch needs [sqlite3Atoi64]'s value only. *)
Definition sqlite3VdbeIntValue (m : Mem) : Z :=
  if has m.(flags) MEM_Int then m.(u)
  else if has m.(flags) MEM_Real then doubleToInt64 (double_of_bits m.(r))
  else if has m.(flags) (Z.lor MEM_Str MEM_Blob) then
    snd (sqlite3Atoi64 (content m) m.(enc))
  else 0.

(** [r==(double)i], on values that are not NaN. *)
Definition double_eq (x y : spec_float) : bool := SFeqb x y.

Definition sqlite3VdbeIntegerAffinity (m : Mem) : Mem :=
  let m := set_u m (doubleToInt64 (double_of_bits m.(r))) in
  if double_eq (double_of_bits m.(r)) (double_of_i64 m.(u))
     && (m.(u) >? SMALLEST_INT64) && (m.(u) <? LARGEST_INT64)
  then set_flags m (Z.lor m.(flags) MEM_Int) else m.

Definition MEM_TypeMask : Z := 0x01ff.
Definition MemSetTypeFlag (m : Mem) (f : Z) : Mem :=
  set_flags m (Z.lor (Z.land m.(flags) (Z.lnot (Z.lor MEM_TypeMask MEM_Zero))) f).

Definition sqlite3VdbeMemIntegerify (m : Mem) : Z * Mem :=
  (SQLITE_OK, MemSetTypeFlag (set_u m (sqlite3VdbeIntValue m)) MEM_Int).

Definition sqlite3VdbeMemSetInt64 (m : Mem) (val : Z) : Mem :=
  mkMem MEM_Int m.(r) val m.(n) [] m.(enc) true 0.

Definition sqlite3VdbeMemSetZeroBlob (m : Mem) (nb : Z) : Mem :=
  mkMem (Z.lor MEM_Blob MEM_Zero) m.(r) (if nb <? 0 then 0 else nb) 0 [] SQLITE_UTF8 true 0.

Definition sqlite3VdbeMemTooBig (limit : Z) (m : Mem) : bool :=
  if has m.(flags) (Z.lor MEM_Str MEM_Blob) then
    (if has m.(flags) MEM_Zero then m.(n) + nZero m else m.(n)) >? limit
  else false.

Definition sqlite3VdbeMemShallowCopy (pFrom : Mem) (srcType : Z) (szTo : Z) : Mem :=
  let f :=
    if has pFrom.(flags) MEM_Static then pFrom.(flags)
    else Z.lor (Z.land pFrom.(flags) (Z.lnot (Z.lor MEM_Dyn (Z.lor MEM_Static MEM_Ephem))))
               srcType in
  mkMem f pFrom.(r) pFrom.(u) pFrom.(n) pFrom.(z) pFrom.(enc) false szTo.

(** ** Comparison *)

Record CollSeq := mkColl { coll_enc : Z; xCmp : list Z -> list Z -> Z }.

(** [sqlite3ValueText] on a text or blob cell; the outer [None] is a read out
    of bounds, the inner one the NULL pointer. *)
Definition sqlite3ValueText (oom : bool) (m : Mem) (e : Z) : option (option (Mem)) :=
  if has m.(flags) MEM_Null then Some None
  else
    let m := set_flags m (Z.lor m.(flags) (Z.shiftr (Z.land m.(flags) MEM_Blob) 3)) in
    let m := snd (sqlite3VdbeMemExpandBlob oom m) in
    '(_, m) ← sqlite3VdbeChangeEncoding oom m e;
    let m := snd (sqlite3VdbeMemNulTerminate oom m) in
    Some (if m.(enc) =? e then Some m else None).

Fixpoint memcmp (a b : list Z) : Z :=
  match a, b with
  | x :: a, y :: b => if x =? y then memcmp a b else x - y
  | _, _ => 0
  end.

Definition numeric (f : Z) : bool := has f (Z.lor MEM_Int MEM_Real).

(** A number as the double it is compared as. *)
Definition mem_double (m : Mem) : spec_float :=
  if negb (has m.(flags) MEM_Real) then double_of_i64 m.(u) else double_of_bits m.(r).

Definition compare_numbers (m1 m2 : Mem) : Z :=
  if Z.land (Z.land m1.(flags) m2.(flags)) MEM_Int =? 0 then
    let r1 := mem_double m1 in
    let r2 := mem_double m2 in
    if double_lt r1 r2 then -1 else if double_lt r2 r1 then 1 else 0
  else
    if m1.(u) <? m2.(u) then -1 else if m1.(u) >? m2.(u) then 1 else 0.

Definition compare_blobs (m1 m2 : Mem) : Z :=
  let k := if m1.(n) >? m2.(n) then m2.(n) else m1.(n) in
  let rc := memcmp (take (Z.to_nat k) m1.(z)) (take (Z.to_nat k) m2.(z)) in
  if rc =? 0 then m1.(n) - m2.(n) else rc.

Definition text_bytes (o : option Mem) : list Z :=
  match o with None => [] | Some m => content m end.

Definition sqlite3MemCompare (oom : bool) (m1 m2 : Mem) (pColl : option CollSeq)
    : option Z :=
  let f1 := m1.(flags) in
  let f2 := m2.(flags) in
  let combined_flags := Z.lor f1 f2 in
  if has combined_flags MEM_Null then Some (Z.land f2 MEM_Null - Z.land f1 MEM_Null)
  else if numeric combined_flags then
    if negb (numeric f1) then Some 1
    else if negb (numeric f2) then Some (-1)
    else Some (compare_numbers m1 m2)
  else if has combined_flags MEM_Str then
    if negb (has f1 MEM_Str) then Some 1
    else if negb (has f2 MEM_Str) then Some (-1)
    else
      match pColl with
      | Some c =>
          if m1.(enc) =? c.(coll_enc) then Some (c.(xCmp) (content m1) (content m2))
          else
            let c1 := sqlite3VdbeMemShallowCopy m1 MEM_Ephem 0 in
            let c2 := sqlite3VdbeMemShallowCopy m2 MEM_Ephem 0 in
            v1 ← sqlite3ValueText oom c1 c.(coll_enc);
            v2 ← sqlite3ValueText oom c2 c.(coll_enc);
            Some (c.(xCmp) (text_bytes v1) (text_bytes v2))
      | None => Some (compare_blobs m1 m2)
      end
  else Some (compare_blobs m1 m2).

(** ** Lemmas on cells *)

(** A text or blob cell without a zero-filled tail, whose bytes are readable. *)
Definition text_wf (m : Mem) : Prop :=
  0 <= m.(n) <= Z.of_nat (length m.(z)) /\ has m.(flags) MEM_Zero = false /\
  has m.(flags) (Z.lor MEM_Str MEM_Blob) = true /\ bytes_ok m.(z).

Lemma content_length m : text_wf m -> Z.of_nat (length (content m)) = m.(n).
Proof. intros [Hn _]. unfold content. rewrite length_take. lia. Qed.

Lemma content_terminated m (x : list Z) :
  text_wf m -> take (Z.to_nat m.(n)) (content m ++ x) = content m.
Proof.
  intros Hm. pose proof (content_length m Hm).
  replace (Z.to_nat m.(n)) with (length (content m)) by lia. apply take_app_length.
Qed.

Lemma content_bytes m : text_wf m -> bytes_ok (content m).
Proof. intros (_ & _ & _ & H). by apply Forall_take. Qed.

(** Making a cell writeable keeps its value. *)
Lemma makewriteable_ok m :
  text_wf m ->
  exists m', sqlite3VdbeMemMakeWriteable false m = (SQLITE_OK, m') /\
    m'.(n) = m.(n) /\ content m' = content m /\ m'.(enc) = m.(enc) /\ bytes_ok m'.(z).
Proof.
  intros Hm. unfold sqlite3VdbeMemMakeWriteable, sqlite3VdbeMemExpandBlob.
  destruct Hm as (Hn & Hz & Hs & Hb). assert (text_wf m) as Hm by done.
  rewrite Hz. cbn [snd]. rewrite Hs. destruct (own m); cbn [negb andb]; [by exists m|].
  unfold sqlite3VdbeMemGrow. rewrite andb_false_r. cbn [negb Z.eqb].
  eexists. split; [reflexivity|]. unfold terminate, content, set_flags, set_z.
  cbn [n z enc flags]. fold (content m).
  assert (take (Z.to_nat (n m)) (content m) = content m) as E.
  { rewrite <- (app_nil_r (content m)) at 1. by apply content_terminated. }
  rewrite E. repeat split; [by apply content_terminated|].
  apply bytes_ok_app. split; [by apply content_bytes|]. repeat constructor; lia.
Qed.

Definition is_enc (e : Z) : Prop := e = SQLITE_UTF8 \/ e = SQLITE_UTF16LE \/ e = SQLITE_UTF16BE.

(** The text of a list of characters in each encoding. *)
Definition encode (e : Z) (cs : list Z) : list Z :=
  concat (map (if e =? SQLITE_UTF8 then WRITE_UTF8
               else if e =? SQLITE_UTF16LE then WRITE_UTF16LE else WRITE_UTF16BE) cs).

Lemma swap_utf16 cs :
  swap_bytes (concat (map WRITE_UTF16LE cs)) = concat (map WRITE_UTF16BE cs) /\
  swap_bytes (concat (map WRITE_UTF16BE cs)) = concat (map WRITE_UTF16LE cs).
Proof.
  induction cs as [|c cs [IH1 IH2]]; [done|]. cbn [map concat].
  unfold WRITE_UTF16LE at 1 3, WRITE_UTF16BE at 1 3.
  destruct (c <=? 0xFFFF); cbn [app swap_bytes]; by rewrite IH1, IH2.
Qed.

Lemma utf16_even e cs :
  e <> SQLITE_UTF8 -> Nat.Even (length (encode e cs)).
Proof.
  intros He. unfold encode. destruct (Z.eqb_spec e SQLITE_UTF8); [done|].
  induction cs as [|c cs [k Hk]]; [by exists O|]. cbn [map concat]. rewrite length_app.
  destruct (write_utf16_length c) as [H1 H2].
  destruct (e =? SQLITE_UTF16LE); rewrite ?H1, ?H2, Hk; destruct (c <=? 65535)%Z;
    [exists (k + 1)%nat|exists (k + 2)%nat|exists (k + 1)%nat|exists (k + 2)%nat]; lia.
Qed.

Lemma land_not1 x : Z.land x (Z.lnot 1) = x - x mod 2.
Proof.
  rewrite <- Z.ldiff_land. pose proof (Z.ldiff_ones_r x 1 ltac:(lia)) as H.
  change (Z.ones 1) with 1 in H. rewrite H, Z.shiftr_div_pow2, Z.shiftl_mul_pow2 by lia.
  change (2 ^ 1) with 2. zlia.
Qed.

Lemma even_land_not1 (l : list Z) :
  Nat.Even (length l) -> Z.land (Z.of_nat (length l)) (Z.lnot 1) = Z.of_nat (length l).
Proof. intros [k Hk]. rewrite land_not1. zlia. Qed.

Lemma translate_text from to cs :
  is_enc from -> is_enc to -> from = SQLITE_UTF8 \/ to = SQLITE_UTF8 -> from <> to ->
  Forall utf8_ok cs ->
  translate from to (encode from cs) = Some (encode to cs).
Proof.
  intros Hf Ht Hone Hne Hcs. unfold translate, encode.
  assert (forall c : Z, utf8_ok c -> (1 <= length (WRITE_UTF8 c))%nat) as H8
    by (intros c _; apply write_utf8_length).
  assert (forall c : Z, utf8_ok c ->
    (1 <= length (WRITE_UTF16LE c))%nat /\ (1 <= length (WRITE_UTF16BE c))%nat) as H16.
  { intros c _. destruct (write_utf16_length c) as [-> ->]. destruct (c <=? 65535); lia. }
  destruct (Z.eqb_spec from SQLITE_UTF8) as [->|Hf8].
  - destruct (Z.eqb_spec to SQLITE_UTF8) as [->|]; [done|].
    destruct (to =? SQLITE_UTF16LE);
      apply (translate_encoded _ _ WRITE_UTF8 utf8_ok); auto using read_utf8_string.
  - assert (to = SQLITE_UTF8) as -> by tauto. cbn [Z.eqb Pos.eqb SQLITE_UTF8].
    destruct (from =? SQLITE_UTF16LE).
    + apply (translate_encoded _ _ WRITE_UTF16LE utf8_ok); auto; [apply H16|].
      intros c cs' [Hc _] _. by apply (read_write_utf16 c).
    + apply (translate_encoded _ _ WRITE_UTF16BE utf8_ok); auto; [apply H16|].
      intros c cs' [Hc _] _. by apply (read_write_utf16 c).
Qed.

(** Every loop ends, inside the allocated buffer. *)
Lemma translate_fits from to zin :
  is_enc from -> is_enc to -> from = SQLITE_UTF8 \/ to = SQLITE_UTF8 -> from <> to ->
  bytes_ok zin -> (from <> SQLITE_UTF8 -> Nat.Even (length zin)) ->
  exists out, translate from to zin = Some out /\ (length out <= 2 * length zin)%nat.
Proof.
  intros Hf Ht Hone Hne Hz Hev. unfold translate.
  destruct (Z.eqb_spec from SQLITE_UTF8) as [->|Hf8].
  - assert (forall wr, (forall c, length (wr c) = if (c <=? 0xFFFF)%Z then 2%nat else 4%nat) ->
      exists out, translate_loop (length zin) READ_UTF8 wr zin = Some out /\
                  (length out <= 2 * length zin)%nat) as H.
    { intros wr Hwr. apply (translate_bound _ _ bytes_ok); [|done..].
      intros z Hzb Hzne. destruct (read_utf8_total z Hzb Hzne) as (c & z' & Hr & Hz').
      destruct (read_utf8_room z c z' Hzb Hr). exists c, z'. rewrite Hwr. auto. }
    destruct (to =? SQLITE_UTF16LE); apply H; intros c; apply write_utf16_length.
  - specialize (Hev Hf8).
    destruct (from =? SQLITE_UTF16LE);
      apply (translate_bound _ _ (fun z => bytes_ok z /\ Nat.Even (length z))); auto;
      intros z [Hzb Hze] Hzne.
    + destruct (read_utf16_room (READ_UTF16LE more) z) as (c & z' & ?); auto.
      exists c, z'. tauto.
    + destruct (read_utf16_room (READ_UTF16BE more) z) as (c & z' & ?); auto.
      exists c, z'. tauto.
Qed.

Lemma out_content f rr uu (out term : list Z) e o s :
  content (mkMem f rr uu (Z.of_nat (length out)) (out ++ term) e o s) = out.
Proof. unfold content. cbn [n z]. rewrite Nat2Z.id. apply take_app_length. Qed.

(** The odd byte of UTF-16 input is dropped. *)
Definition even_part (l : list Z) : list Z :=
  take (Z.to_nat (Z.land (Z.of_nat (length l)) (Z.lnot 1))) l.

Lemma even_part_even l : Nat.Even (length (even_part l)).
Proof.
  unfold even_part. rewrite length_take, land_not1.
  exists (Z.to_nat (Z.of_nat (length l) / 2)). zlia.
Qed.

Lemma masked_content m :
  text_wf m -> content (set_n m (Z.land m.(n) (Z.lnot 1))) = even_part (content m).
Proof.
  intros Hm. unfold even_part. rewrite content_length by done. unfold content, set_n.
  cbn [n z]. rewrite take_take. f_equal. destruct Hm as (? & _). rewrite land_not1. zlia.
Qed.

Lemma swap_length l : length (swap_bytes l) = length l.
Proof.
  assert (forall k l, (length l <= k)%nat -> length (swap_bytes l) = length l) as H; [|by apply (H (length l))].
  intros k. induction k as [|k IH]; intros [|a [|b l']] Hl; cbn [length swap_bytes] in *; try lia.
  rewrite IH; lia.
Qed.

(** The byte swap, on the cell. *)
Lemma swap_content m :
  m.(n) = Z.of_nat (length (content m)) -> Nat.Even (length (content m)) ->
  let k := Z.to_nat (Z.land m.(n) (Z.lnot 1)) in
  content (set_z m (swap_bytes (take k m.(z)) ++ drop k m.(z))) = swap_bytes (content m).
Proof.
  intros Hn Hev k. unfold k. rewrite Hn, even_land_not1, Nat2Z.id by done.
  unfold content at 1, set_z. cbn [n z].
  replace (take (length (content m)) (z m)) with (content m)
    by (unfold content at 1; f_equal; lia).
  rewrite Hn, Nat2Z.id, <- (swap_length (content m)). apply take_app_length.
Qed.

Lemma encode_swap e to cs :
  is_enc e -> is_enc to -> e <> SQLITE_UTF8 -> to <> SQLITE_UTF8 -> e <> to ->
  swap_bytes (encode e cs) = encode to cs.
Proof.
  destruct (swap_utf16 cs) as [HL HB]. unfold encode.
  intros [He|[He|He]] [Ht|[Ht|Ht]]; rewrite He, Ht; intros; try congruence;
    cbn [Z.eqb Pos.eqb SQLITE_UTF8 SQLITE_UTF16LE SQLITE_UTF16BE]; done.
Qed.

(** ** Comparison lemmas *)

Lemma has_lor a b m : has (Z.lor a b) m = has a m || has b m.
Proof.
  unfold has. rewrite Z.land_lor_distr_l.
  destruct (Z.eqb_spec (Z.lor (Z.land a m) (Z.land b m)) 0) as [E|E].
  - apply Z.lor_eq_0_iff in E as [-> ->]. done.
  - destruct (Z.eqb_spec (Z.land a m) 0) as [Ea|], (Z.eqb_spec (Z.land b m) 0) as [Eb|]; try done.
    by rewrite Ea, Eb in E.
Qed.

Lemma SFcompare_antisym x y :
  SFcompare y x = match SFcompare x y with
                  | Some c => Some (CompOpp c) | None => None end.
Proof.
  destruct x as [[]|[]| |[] m e], y as [[]|[]| |[] m' e']; cbn; try reflexivity;
    rewrite (Z.compare_antisym e e'); destruct (e ?= e'); cbn; try reflexivity;
    rewrite <- (Pos.compare_antisym); unfold Pos.compare;
    destruct (Pos.compare_cont Eq m m') eqn:E; try reflexivity;
    rewrite (Pos.compare_antisym m m'); unfold Pos.compare; rewrite E; reflexivity.
Qed.

Lemma double_lt_asym x y : double_lt x y = true -> double_lt y x = false.
Proof.
  unfold double_lt, SFltb. rewrite (SFcompare_antisym x y).
  destruct (SFcompare x y) as [[]|]; done.
Qed.

Lemma compare_numbers_antisym m1 m2 :
  Z.sgn (compare_numbers m1 m2) = - Z.sgn (compare_numbers m2 m1).
Proof.
  unfold compare_numbers. rewrite (Z.land_comm (flags m2)).
  destruct (_ =? 0).
  - pose proof (double_lt_asym (mem_double m1) (mem_double m2)).
    pose proof (double_lt_asym (mem_double m2) (mem_double m1)).
    destruct (double_lt (mem_double m1) (mem_double m2)),
      (double_lt (mem_double m2) (mem_double m1)); try done; intuition discriminate.
  - rewrite !Z.gtb_ltb. destruct (Z.ltb_spec (u m1) (u m2)), (Z.ltb_spec (u m2) (u m1)); done || lia.
Qed.

Lemma memcmp_antisym a : forall b, memcmp a b = - memcmp b a.
Proof.
  induction a as [|x a IH]; intros [|y b]; cbn; try done.
  destruct (Z.eqb_spec x y) as [->|]; [rewrite Z.eqb_refl; apply IH|].
  destruct (Z.eqb_spec y x); lia.
Qed.

Lemma compare_blobs_antisym m1 m2 : compare_blobs m1 m2 = - compare_blobs m2 m1.
Proof.
  unfold compare_blobs. rewrite !Z.gtb_ltb.
  replace (if n m2 <? n m1 then n m2 else n m1) with (Z.min (n m1) (n m2))
    by (destruct (Z.ltb_spec (n m2) (n m1)); lia).
  replace (if n m1 <? n m2 then n m1 else n m2) with (Z.min (n m1) (n m2))
    by (destruct (Z.ltb_spec (n m1) (n m2)); lia).
  set (k := Z.to_nat (Z.min (n m1) (n m2))). rewrite (memcmp_antisym (take k (z m1))).
  destruct (Z.eqb_spec (- memcmp (take k (z m2)) (take k (z m1))) 0),
    (Z.eqb_spec (memcmp (take k (z m2)) (take k (z m1))) 0); lia.
Qed.

(** NULL, number, text, blob. *)
Definition class (m : Mem) : Z :=
  if has m.(flags) MEM_Null then 0
  else if numeric m.(flags) then 1
  else if has m.(flags) MEM_Str then 2 else 3.

(** The collating function, in the cells' encoding, is antisymmetric. *)
Definition coll_ok (pColl : option CollSeq) (m1 m2 : Mem) : Prop :=
  match pColl with
  | None => True
  | Some c => m1.(enc) = c.(coll_enc) /\ m2.(enc) = c.(coll_enc) /\
              forall a b, Z.sgn (c.(xCmp) a b) = - Z.sgn (c.(xCmp) b a)
  end.

Lemma mem_compare_spec oom m1 m2 pColl :
  coll_ok pColl m1 m2 ->
  sqlite3MemCompare oom m1 m2 pColl
  = Some (if class m1 <? class m2 then -1
          else if class m2 <? class m1 then 1
          else if class m1 =? 0 then 0
          else if class m1 =? 1 then compare_numbers m1 m2
          else if class m1 =? 2 then
            match pColl with
            | Some c => c.(xCmp) (content m1) (content m2)
            | None => compare_blobs m1 m2
            end
          else compare_blobs m1 m2).
Proof.
  intros Hc. unfold sqlite3MemCompare, class, numeric. rewrite !has_lor.
  assert (forall f, Z.land f MEM_Null = if has f MEM_Null then 1 else 0) as HN.
  { intros f. unfold has. change MEM_Null with (2 ^ 1 - 1). rewrite land_ones_mod by lia.
    change (2 ^ 1) with 2. destruct (Z.eqb_spec (f mod 2) 0); cbn [negb]; zlia. }
  rewrite !HN. unfold has at 3 4. fold (has (flags m1) MEM_Null) (has (flags m2) MEM_Null).
  destruct (has (flags m1) MEM_Null), (has (flags m2) MEM_Null); cbn [orb];
    try (repeat case_match; done).
  destruct (has (flags m1) (Z.lor MEM_Int MEM_Real)), (has (flags m2) (Z.lor MEM_Int MEM_Real));
    cbn [orb negb]; try (repeat case_match; done).
  destruct (has (flags m1) MEM_Str), (has (flags m2) MEM_Str); cbn [orb negb]; try done.
  destruct pColl as [c|]; [|done]. destruct Hc as (-> & _). by rewrite Z.eqb_refl.
Qed.

(** ** Theorems *)

(** C35: translating a well-formed text cell between any two of the encodings,
    when its allocation succeeds, gives the same characters in the new
    encoding, for texts of characters that [READ_UTF8] keeps: no surrogates,
    no U+FFFE and no U+FFFF ([utf8_ok]). *)
Theorem sqlite3VdbeMemTranslate_text m to cs :
  text_wf m -> is_enc m.(enc) -> is_enc to -> m.(enc) <> to ->
  Forall utf8_ok cs -> content m = encode m.(enc) cs ->
  exists m', sqlite3VdbeMemTranslate false m to = Some (SQLITE_OK, m') /\
    m'.(enc) = to /\ content m' = encode to cs.
Proof.
  intros Hm Hf Ht Hne Hcs Hc. unfold sqlite3VdbeMemTranslate.
  destruct (Z.eqb_spec m.(enc) SQLITE_UTF8) as [Hf8|Hf8], (Z.eqb_spec to SQLITE_UTF8) as [Ht8|Ht8];
    cbn [negb andb]; try congruence.
  - rewrite Hc, Hf8, translate_text by (auto; congruence).
    cbn [mbind option_bind]. eexists. split; [reflexivity|]. by rewrite out_content.
  - rewrite masked_content by done. unfold even_part. rewrite Hc.
    rewrite even_land_not1, Nat2Z.id, take_ge by (by try apply utf16_even).
    cbn [set_n enc]. rewrite translate_text by auto.
    cbn [mbind option_bind]. eexists. split; [reflexivity|]. by rewrite out_content.
  - destruct (makewriteable_ok m Hm) as (m1 & -> & Hn & Hc1 & He1 & _).
    cbn [negb Z.eqb SQLITE_OK]. eexists. split; [reflexivity|]. split; [done|].
    rewrite <- (encode_swap (enc m)), <- Hc, <- Hc1 by done. apply (swap_content m1).
    + rewrite Hn, Hc1. symmetry. by apply content_length.
    + rewrite Hc1, Hc. by apply utf16_even.
Qed.

(** A static UTF-8 text cell: "a" and the euro sign. *)
Definition witness_cell : Mem :=
  mkMem (Z.lor MEM_Str MEM_Static) 0 0 4 [97; 0xE2; 0x82; 0xAC] SQLITE_UTF8 false 0.

Example sqlite3VdbeMemTranslate_text_witness :
  exists m', sqlite3VdbeMemTranslate false witness_cell SQLITE_UTF16BE = Some (SQLITE_OK, m') /\
    m'.(enc) = SQLITE_UTF16BE /\ content m' = encode SQLITE_UTF16BE [97; 0x20AC].
Proof.
  apply (sqlite3VdbeMemTranslate_text witness_cell SQLITE_UTF16BE [97; 0x20AC]).
  - split; [cbn; lia|]. split; [reflexivity|]. split; [reflexivity|].
    repeat constructor; lia.
  - by left.
  - by right; right.
  - discriminate.
  - repeat constructor; lia.
  - reflexivity.
Defined.

(** On arbitrary bytes, well formed or not, the translation loops read
    inside the input, end, and the output with its terminator fits in the
    buffer allocated for it (the function's last assert). *)
Theorem sqlite3VdbeMemTranslate_bounds m to :
  text_wf m -> is_enc m.(enc) -> is_enc to -> m.(enc) <> to ->
  m.(enc) = SQLITE_UTF8 \/ to = SQLITE_UTF8 ->
  exists m', sqlite3VdbeMemTranslate false m to = Some (SQLITE_OK, m') /\
    m'.(n) + (if to =? SQLITE_UTF8 then 1 else 2) <= translate_len to m.(n).
Proof.
  intros Hm Hf Ht Hne Hone. unfold sqlite3VdbeMemTranslate, translate_len.
  pose proof (content_length m Hm) as Hl. pose proof (content_bytes m Hm) as Hb.
  destruct (Z.eqb_spec m.(enc) SQLITE_UTF8) as [Hf8|Hf8], (Z.eqb_spec to SQLITE_UTF8) as [Ht8|Ht8];
    cbn [negb andb]; try congruence; try tauto.
  - destruct (translate_fits m.(enc) to (content m)) as (out & Ho & Hlen); auto; [congruence|].
    rewrite Ho. cbn [mbind option_bind]. eexists. split; [reflexivity|]. cbn [n]. lia.
  - rewrite masked_content by done. cbn [set_n enc].
    destruct (translate_fits m.(enc) to (even_part (content m))) as (out & Ho & Hlen); auto.
    { by apply Forall_take. } { intros _. apply even_part_even. }
    rewrite Ho. cbn [mbind option_bind]. eexists. split; [reflexivity|]. cbn [n].
    assert (Z.of_nat (length (even_part (content m))) = Z.land (n m) (Z.lnot 1)).
    { unfold even_part. rewrite length_take, Hl, land_not1. destruct Hm as (? & _). zlia. }
    lia.
Qed.

(** Four bytes that no encoder writes. *)
Definition malformed_cell : Mem :=
  mkMem (Z.lor MEM_Str MEM_Static) 0 0 4 [0xFF; 0x80; 0xC0; 0xF4] SQLITE_UTF8 false 0.

Example sqlite3VdbeMemTranslate_bounds_witness :
  exists m', sqlite3VdbeMemTranslate false malformed_cell SQLITE_UTF16LE = Some (SQLITE_OK, m') /\
    m'.(n) + 2 <= 10.
Proof.
  apply (sqlite3VdbeMemTranslate_bounds malformed_cell SQLITE_UTF16LE).
  - split; [cbn; lia|]. split; [reflexivity|]. split; [reflexivity|].
    repeat constructor; lia.
  - by left.
  - by right; left.
  - discriminate.
  - by left.
Defined.

(** C37: value comparison is a consistent order: always defined, sign-symmetric
    in its two arguments for every antisymmetric collating function (doubles
    included), and NULL < numbers < text < blobs whatever the contents. *)
Theorem sqlite3MemCompare_order oom m1 m2 pColl :
  coll_ok pColl m1 m2 ->
  exists x y,
    sqlite3MemCompare oom m1 m2 pColl = Some x /\
    sqlite3MemCompare oom m2 m1 pColl = Some y /\
    Z.sgn x = - Z.sgn y /\
    (class m1 < class m2 -> x < 0) /\ (class m1 = 0 -> class m2 = 0 -> x = 0).
Proof.
  intros Hc. assert (coll_ok pColl m2 m1) as Hc' by (destruct pColl; [cbn in *; tauto|done]).
  rewrite !mem_compare_spec by done. do 2 eexists. split; [reflexivity|]. split; [reflexivity|].
  destruct (Z.ltb_spec (class m1) (class m2)), (Z.ltb_spec (class m2) (class m1)); try lia;
    try (split; [done|lia]).
  assert (class m2 = class m1) as -> by lia.
  destruct (Z.eqb_spec (class m1) 0); [split; [done|lia]|].
  split; [|lia].
  destruct (Z.eqb_spec (class m1) 1); [apply compare_numbers_antisym|].
  destruct (Z.eqb_spec (class m1) 2), pColl as [c|]; try apply Hc;
    rewrite compare_blobs_antisym; lia.
Qed.

(** The number 2.0 against the blob x'00', under memcmp. *)
Example sqlite3MemCompare_order_witness :
  exists x y,
    sqlite3MemCompare false (mkMem MEM_Real 0x4000000000000000 0 0 [] SQLITE_UTF8 true 0)
      (mkMem MEM_Blob 0 0 1 [0] SQLITE_UTF8 true 0) (Some (mkColl SQLITE_UTF8 memcmp)) = Some x /\
    x < 0 /\ Z.sgn x = - Z.sgn y.
Proof.
  destruct (sqlite3MemCompare_order false
    (mkMem MEM_Real 0x4000000000000000 0 0 [] SQLITE_UTF8 true 0)
    (mkMem MEM_Blob 0 0 1 [0] SQLITE_UTF8 true 0) (Some (mkColl SQLITE_UTF8 memcmp)))
    as (x & y & Hx & _ & Hs & Hlt & _).
  - split; [reflexivity|]. split; [reflexivity|]. cbn [xCmp].
    intros a b. rewrite memcmp_antisym. apply Z.sgn_opp.
  - exists x, y. split; [exact Hx|]. split; [apply Hlt; reflexivity|exact Hs].
Defined.
