(* ===== verification/Serial.v ===== *)
(** * The record format (src/lmdb-backend/src/vdbeaux.c, vdbe.c)

    Serial types, the serialised form of a value, the records of tables and
    indices (OP_MakeRecord), their unpacking and comparison.  Pointers into a
    buffer are the suffix they point to. *)

From S2P Require Import Prelude Varint Ctype Ints Mem.
From Stdlib Require Import Floats.SpecFloat.

(** ** Serial types *)

Definition MAX_6BYTE : Z := i64 (Z.shiftl 0x00008000 32) - 1.

Definition serial_type_int (i file_format : Z) : Z :=
  if (i <? 0) && (i <? - MAX_6BYTE) then 6
  else
    let u := u64 (if i <? 0 then - i else i) in
    if u <=? 127 then
      (if (Z.land i 1 =? i) && (file_format >=? 4) then 8 + u32 u else 1)
    else if u <=? 32767 then 2
    else if u <=? 8388607 then 3
    else if u <=? 2147483647 then 4
    else if u <=? MAX_6BYTE then 5
    else 6.

Definition sqlite3VdbeSerialType (m : Mem) (file_format : Z) : Z :=
  if has m.(flags) MEM_Null then 0
  else if has m.(flags) MEM_Int then serial_type_int m.(u) file_format
  else if has m.(flags) MEM_Real then 7
  else
    let k := if has m.(flags) MEM_Zero then m.(n) + nZero m else m.(n) in
    u32 (k * 2 + 12 + (if has m.(flags) MEM_Str then 1 else 0)).

Definition aSize : list Z := [0; 1; 2; 3; 4; 6; 8; 8; 0; 0; 0; 0].

Definition sqlite3VdbeSerialTypeLen (serial_type : Z) : Z :=
  if serial_type >=? 12 then (serial_type - 12) / 2
  else nth (Z.to_nat serial_type) aSize 0.

(** [while( i-- ){ buf[i] = (u8)(v&0xFF); v >>= 8; }] *)
Fixpoint put_be (i : nat) (v : Z) (acc : list Z) : list Z :=
  match i with
  | O => acc
  | S i => put_be i (Z.shiftr v 8) (u8 (Z.land v 0xFF) :: acc)
  end.

(** The bytes written to [buf]; their number is the result. *)
Definition sqlite3VdbeSerialPut (nBuf : Z) (m : Mem) (file_format : Z) : list Z :=
  let serial_type := sqlite3VdbeSerialType m file_format in
  if (serial_type <=? 7) && (serial_type >? 0) then
    let v := if serial_type =? 7 then m.(r) else u64 m.(u) in
    put_be (Z.to_nat (sqlite3VdbeSerialTypeLen serial_type)) v []
  else if serial_type >=? 12 then
    if has m.(flags) MEM_Zero then
      let len := m.(n) + nZero m in
      let len := if len >? u32 nBuf then u32 nBuf else len in
      content m ++ replicate (Z.to_nat (len - m.(n))) 0
    else content m
  else [].

(** ** Reading a value *)

Definition set_int (m : Mem) (i : Z) : Mem := set_flags (set_u m i) MEM_Int.

(** The 4-byte big-endian groups of the 6- and 8-byte cases. *)
Definition be32 (b0 b1 b2 b3 : Z) : Z :=
  i32 (Z.lor (Z.lor (Z.lor (Z.shiftl b0 24) (Z.shiftl b1 16)) (Z.shiftl b2 8)) b3).

Definition sqlite3VdbeSerialGet (buf : list Z) (serial_type : Z) (m : Mem) : option (Z * Mem) :=
  if (serial_type =? 10) || (serial_type =? 11) || (serial_type =? 0) then
    Some (0, set_flags m MEM_Null)
  else if serial_type =? 1 then
    b0 ← rd buf 0; Some (1, set_int m (i8 b0))
  else if serial_type =? 2 then
    b0 ← rd buf 0; b1 ← rd buf 1;
    Some (2, set_int m (Z.lor (Z.shiftl (i8 b0) 8) b1))
  else if serial_type =? 3 then
    b0 ← rd buf 0; b1 ← rd buf 1; b2 ← rd buf 2;
    Some (3, set_int m (Z.lor (Z.lor (Z.shiftl (i8 b0) 16) (Z.shiftl b1 8)) b2))
  else if serial_type =? 4 then
    b0 ← rd buf 0; b1 ← rd buf 1; b2 ← rd buf 2; b3 ← rd buf 3;
    Some (4, set_int m (be32 b0 b1 b2 b3))
  else if serial_type =? 5 then
    b0 ← rd buf 0; b1 ← rd buf 1; b2 ← rd buf 2; b3 ← rd buf 3;
    b4 ← rd buf 4; b5 ← rd buf 5;
    let x := u64 (Z.lor (Z.shiftl (i8 b0) 8) b1) in
    let y := u32 (be32 b2 b3 b4 b5) in
    let x := Z.lor (u64 (Z.shiftl x 32)) y in
    Some (6, set_int m (i64 x))
  else if (serial_type =? 6) || (serial_type =? 7) then
    b0 ← rd buf 0; b1 ← rd buf 1; b2 ← rd buf 2; b3 ← rd buf 3;
    b4 ← rd buf 4; b5 ← rd buf 5; b6 ← rd buf 6; b7 ← rd buf 7;
    let x := u64 (be32 b0 b1 b2 b3) in
    let y := u32 (be32 b4 b5 b6 b7) in
    let x := Z.lor (u64 (Z.shiftl x 32)) y in
    if serial_type =? 6 then Some (8, set_int m (i64 x))
    else
      let nan := match double_of_bits x with S754_nan => true | _ => false end in
      Some (8, mkMem (if nan then MEM_Null else MEM_Real) x m.(u) m.(n) m.(z) m.(enc)
                 m.(own) m.(szMalloc))
  else if (serial_type =? 8) || (serial_type =? 9) then
    Some (0, set_int m (serial_type - 8))
  else
    let len := u32 (serial_type - 12) / 2 in
    Some (len, mkMem (Z.lor (if Z.land serial_type 0x01 =? 0 then MEM_Blob else MEM_Str) MEM_Ephem)
                 m.(r) m.(u) (i32 len) buf m.(enc) false m.(szMalloc)).

(** ** Records *)

(** A cell whose zero-filled tail is written out when something precedes it. *)
Definition make_expand (m : Mem) : Mem :=
  if has m.(flags) MEM_Zero && (m.(n) >? 0) then snd (sqlite3VdbeMemExpandBlob false m) else m.

(** One turn of OP_MakeRecord's first loop, after affinity and expansion: the
    accumulators [nData], [nHdr], [nZero]. *)
Definition make_size (file_format : Z) (acc : Z * Z * Z) (m : Mem) : Z * Z * Z :=
  let '(nData, nHdr, nZ) := acc in
  let serial_type := sqlite3VdbeSerialType m file_format in
  let len := sqlite3VdbeSerialTypeLen serial_type in
  let nData := nData + len in
  let nHdr := nHdr + sqlite3VarintLen serial_type in
  if has m.(flags) MEM_Zero then (nData, nHdr, nZ + nZero m)
  else if negb (len =? 0) then (nData, nHdr, 0)
  else (nData, nHdr, nZ).

(** [nHdr += nVarint = sqlite3VarintLen(nHdr); if( nVarint<... ) nHdr++;] *)
Definition header_size (nHdr : Z) : Z :=
  let nVarint := sqlite3VarintLen nHdr in
  let nHdr := nHdr + nVarint in
  if nVarint <? sqlite3VarintLen nHdr then nHdr + 1 else nHdr.

(** [for(...){ i += sqlite3VdbeSerialPut(&zNewRecord[i], (int)(nByte-i), pRec,file_format); }] *)
Fixpoint put_fields (nByte i file_format : Z) (ms : list Mem) : list Z :=
  match ms with
  | [] => []
  | m :: ms =>
      let bs := sqlite3VdbeSerialPut (i32 (nByte - i)) m file_format in
      bs ++ put_fields nByte (i + Z.of_nat (length bs)) file_format ms
  end.

Record KeyInfo := mkKeyInfo {
  ki_enc : Z;
  ki_nField : Z;
  aSortOrder : list bool;
  aColl : list (option CollSeq);
}.

Record UnpackedRecord := mkUnpacked {
  pKeyInfo : KeyInfo;
  up_nField : Z;
  up_flags : Z;
  rowid : Z;
  aMem : list Mem;
}.

Definition UNPACKED_INCRKEY : Z := 0x01.
Definition UNPACKED_PREFIX_MATCH : Z := 0x02.
Definition UNPACKED_PREFIX_SEARCH : Z := 0x04.

(** A fresh cell, and [ROUND8(sizeof(UnpackedRecord))] and [sizeof(Mem)] as
    parameters of the platform. *)
Definition blank_cell : Mem := mkMem 0 0 0 0 [] 0 false 0.

(** Whether the record is allocated ([Some true] for the heap, [Some false]
    for the caller's space), and the record. *)
Definition sqlite3VdbeAllocUnpackedRecord (szRec szMem addr : Z) (oom : bool) (ki : KeyInfo)
    (szSpace : Z) : option (bool * UnpackedRecord) :=
  let nOff := Z.land (8 - Z.land addr 7) 7 in
  let nByte := szRec + szMem * (ki.(ki_nField) + 1) in
  let p := mkUnpacked ki (ki.(ki_nField) + 1) 0 0
             (replicate (Z.to_nat (ki.(ki_nField) + 1)) blank_cell) in
  if nByte >? szSpace + nOff then (if oom then None else Some (true, p))
  else Some (false, p).

(** [while( idx<szHdr && u<p->nField && d<=nKey ){ ... }]; [todo] is
    [p->nField - u]. *)
Fixpoint unpack_loop (todo : nat) (e : Z) (nKey szHdr : Z) (aKey : list Z) (idx d : Z)
    : option (list Mem) :=
  match todo with
  | O => Some []
  | S todo =>
      if (idx <? szHdr) && (d <=? nKey) then
        '(sz, serial_type) ← getVarint32 (drop (Z.to_nat idx) aKey);
        '(l, m) ← sqlite3VdbeSerialGet (drop (Z.to_nat d) aKey) serial_type (set_enc blank_cell e);
        ms ← unpack_loop todo e nKey szHdr aKey (idx + sz) (d + l);
        Some (m :: ms)
      else Some []
  end.

Definition sqlite3VdbeRecordUnpack (ki : KeyInfo) (nKey : Z) (aKey : list Z) (p : UnpackedRecord)
    : option UnpackedRecord :=
  '(idx, szHdr) ← getVarint32 aKey;
  ms ← unpack_loop (Z.to_nat p.(up_nField)) ki.(ki_enc) nKey szHdr aKey idx szHdr;
  Some (mkUnpacked p.(pKeyInfo) (Z.of_nat (length ms)) 0 p.(rowid) ms).

(** The comparison loop from field [i] on: the result and the flags and rowid
    left in [pPKey2]. *)
Fixpoint compare_loop (oom : bool) (p2 : UnpackedRecord) (nKey1 szHdr1 : Z) (aKey1 : list Z)
    (idx1 d1 i : Z) (ms : list Mem) : option (Z * (Z * Z)) :=
  let ki := p2.(pKeyInfo) in
  let finish :=
    let rc :=
      if has p2.(up_flags) UNPACKED_INCRKEY then -1
      else if has p2.(up_flags) UNPACKED_PREFIX_MATCH then 0
      else if idx1 <? szHdr1 then 1 else 0 in
    Some (rc, (p2.(up_flags), p2.(rowid))) in
  match ms with
  | [] => finish
  | m :: ms =>
      if idx1 <? szHdr1 then
        '(k, serial_type1) ← getVarint32 (drop (Z.to_nat idx1) aKey1);
        if (d1 >=? nKey1) && (sqlite3VdbeSerialTypeLen serial_type1 >? 0) then
          let rc :=
            if has p2.(up_flags) UNPACKED_INCRKEY then -1
            else if has p2.(up_flags) UNPACKED_PREFIX_MATCH then 0
            else if idx1 + k <? szHdr1 then 1 else 0 in
          Some (rc, (p2.(up_flags), p2.(rowid)))
        else
          '(l, mem1) ← sqlite3VdbeSerialGet (drop (Z.to_nat d1) aKey1) serial_type1
                         (set_enc blank_cell ki.(ki_enc));
          rc ← sqlite3MemCompare oom mem1 m
                 (if i <? ki.(ki_nField) then nth (Z.to_nat i) ki.(aColl) None else None);
          if negb (rc =? 0) then
            let rc := if (i <? ki.(ki_nField)) && nth (Z.to_nat i) ki.(aSortOrder) false
                      then - rc else rc in
            if has p2.(up_flags) UNPACKED_PREFIX_SEARCH && (i =? p2.(up_nField) - 1)
            then Some (rc, (Z.land p2.(up_flags) (Z.lnot UNPACKED_PREFIX_SEARCH), mem1.(u)))
            else Some (rc, (p2.(up_flags), p2.(rowid)))
          else compare_loop oom p2 nKey1 szHdr1 aKey1 (idx1 + k) (d1 + l) (i + 1) ms
      else finish
  end.

(** The result, and the flags and rowid of [pPKey2] afterwards. *)
Definition sqlite3VdbeRecordCompare (oom : bool) (nKey1 : Z) (aKey1 : list Z) (p2 : UnpackedRecord)
    : option (Z * (Z * Z)) :=
  '(idx1, szHdr1) ← getVarint32 aKey1;
  compare_loop oom p2 nKey1 szHdr1 aKey1 idx1 szHdr1 0
    (take (Z.to_nat p2.(up_nField)) p2.(aMem)).

Definition SQLITE_CORRUPT : Z := 11.

(** [sqlite3VdbeIdxRowid] on the [n] bytes of the index entry: the code and,
    when it is SQLITE_OK, the rowid. *)
Definition sqlite3VdbeIdxRowid (m : list Z) : option (Z * Z) :=
  let n := Z.of_nat (length m) in
  '(_, szHdr) ← getVarint32 m;
  if (szHdr <? 3) || (i32 szHdr >? n) then Some (SQLITE_CORRUPT, 0)
  else
    '(_, typeRowid) ← getVarint32 (drop (Z.to_nat (szHdr - 1)) m);
    if (typeRowid <? 1) || (typeRowid >? 9) || (typeRowid =? 7) then Some (SQLITE_CORRUPT, 0)
    else
      let lenRowid := sqlite3VdbeSerialTypeLen typeRowid in
      if n <? u32 (szHdr + lenRowid) then Some (SQLITE_CORRUPT, 0)
      else
        '(_, v) ← sqlite3VdbeSerialGet (drop (Z.to_nat (n - lenRowid)) m) typeRowid blank_cell;
        Some (SQLITE_OK, v.(u)).

(** ** One value *)

(** Byte [k] of [v], from the least significant. *)
Definition byte (k v : Z) : Z := (v / 256 ^ k) mod 256.

Lemma byte_range k v : 0 <= byte k v < 256.
Proof. apply Z.mod_pos_bound. lia. Qed.

Fixpoint be_bytes (k : nat) (v : Z) : list Z :=
  match k with O => [] | S k => byte (Z.of_nat k) v :: be_bytes k v end.

Lemma byte_shift k v : 0 <= k -> byte k (v / 256) = byte (k + 1) v.
Proof.
  intros. unfold byte. rewrite Z.pow_add_r, Z.div_div by lia. do 2 f_equal. lia.
Qed.

Lemma be_bytes_snoc k : forall v, be_bytes (S k) v = be_bytes k (v / 256) ++ [byte 0 v].
Proof.
  induction k as [|k IH]; intros v; [done|].
  change (be_bytes (S (S k)) v) with (byte (Z.of_nat (S k)) v :: be_bytes (S k) v).
  rewrite IH. cbn [be_bytes app]. rewrite byte_shift by lia. repeat f_equal. lia.
Qed.

Lemma put_be_bytes k : forall v acc, put_be k v acc = be_bytes k v ++ acc.
Proof.
  induction k as [|k IH]; intros v acc; [done|]. cbn [put_be].
  rewrite IH, be_bytes_snoc, <- app_assoc, land_ff, Z.shiftr_div_pow2 by lia.
  cbn [app]. unfold byte. change (256 ^ 0) with 1. change (2 ^ 8) with 256.
  rewrite Z.div_1_r. do 2 f_equal. zlia.
Qed.

Lemma lor3 a b c :
  0 <= b < 256 -> 0 <= c < 256 ->
  Z.lor (Z.lor (Z.shiftl a 16) (Z.shiftl b 8)) c = (a * 256 + b) * 256 + c.
Proof.
  intros Hb Hc. rewrite !Z.shiftl_mul_pow2, lor_disjoint_add by (try lia; change (2 ^ 8) with 256; change (2 ^ 16) with 65536; lia).
  replace (a * 2 ^ 16 + b * 2 ^ 8) with ((a * 256 + b) * 2 ^ 8) by lia.
  rewrite lor_disjoint_add by lia. lia.
Qed.

Lemma lor2 a b : 0 <= b < 256 -> Z.lor (Z.shiftl a 8) b = a * 256 + b.
Proof. intros. rewrite Z.shiftl_mul_pow2, lor_disjoint_add by lia. lia. Qed.

Lemma be32_val b0 b1 b2 b3 :
  0 <= b1 < 256 -> 0 <= b2 < 256 -> 0 <= b3 < 256 ->
  be32 b0 b1 b2 b3 = i32 (((b0 * 256 + b1) * 256 + b2) * 256 + b3).
Proof.
  intros. unfold be32. f_equal.
  rewrite !Z.shiftl_mul_pow2 by lia.
  rewrite (lor_disjoint_add b0 (b1 * 2 ^ 16) 24) by lia.
  replace (b0 * 2 ^ 24 + b1 * 2 ^ 16) with ((b0 * 256 + b1) * 2 ^ 16) by lia.
  rewrite (lor_disjoint_add _ (b2 * 2 ^ 8) 16) by lia.
  replace ((b0 * 256 + b1) * 2 ^ 16 + b2 * 2 ^ 8) with (((b0 * 256 + b1) * 256 + b2) * 2 ^ 8) by lia.
  rewrite lor_disjoint_add by lia. lia.
Qed.

(** A 32-bit word of [v] from its four bytes, bytes [k .. k+3]. *)
Lemma be32_word k v :
  0 <= k ->
  be32 (byte (k + 3) v) (byte (k + 2) v) (byte (k + 1) v) (byte k v) = i32 (v / 256 ^ k).
Proof.
  intros Hk. pose proof (byte_range (k + 2) v). pose proof (byte_range (k + 1) v).
  pose proof (byte_range k v). rewrite be32_val by lia. unfold byte.
  rewrite !Z.pow_add_r, <- !Z.div_div by lia. set (w := v / 256 ^ k).
  change (256 ^ 3) with (256 * 256 * 256). change (256 ^ 2) with (256 * 256). change (256 ^ 1) with 256.
  rewrite <- !Z.div_div by lia. clearbody w. clear.
  unfold wrap_s. f_equal. change (2 ^ 32) with 4294967296. change (2 ^ (32 - 1)) with 2147483648.
  set (q1 := w / 256). set (q2 := q1 / 256). set (q3 := q2 / 256).
  assert (w = 256 * q1 + w mod 256) by (apply Z.div_mod; lia).
  assert (q1 = 256 * q2 + q1 mod 256) by (apply Z.div_mod; lia).
  assert (q2 = 256 * q3 + q2 mod 256) by (apply Z.div_mod; lia).
  assert (q3 = 256 * (q3 / 256) + q3 mod 256) by (apply Z.div_mod; lia).
  replace (((q3 mod 256 * 256 + q2 mod 256) * 256 + q1 mod 256) * 256 + w mod 256 + 2147483648)
    with (w + 2147483648 + (- (q3 / 256)) * 4294967296) by lia.
  by rewrite Z_mod_plus_full.
Qed.

Lemma byte_u64 k i : 0 <= k < 8 -> byte k (u64 i) = byte k i.
Proof.
  intros Hk. unfold byte, wrap_u.
  assert (2 ^ 64 = 256 ^ k * (256 * 256 ^ (7 - k))) as E.
  { replace (256 * 256 ^ (7 - k)) with (256 ^ (8 - k))
      by (rewrite <- Z.pow_succ_r by lia; f_equal; lia).
    rewrite <- Z.pow_add_r by lia. replace (k + (8 - k)) with 8 by lia. done. }
  rewrite E. rewrite Z.rem_mul_r by lia.
  rewrite (Z.mul_comm (256 ^ k)), Z.div_add by lia.
  rewrite (Z.div_small (i mod 256 ^ k)) by (apply Z.mod_pos_bound; lia).
  rewrite Z.add_0_l, Z.rem_mul_r, Z.mul_comm, Z.mod_add by lia.
  apply Z.mod_small, Z.mod_pos_bound. lia.
Qed.

Lemma be_bytes_u64 k i : (k <= 8)%nat -> be_bytes k (u64 i) = be_bytes k i.
Proof.
  induction k as [|k IH]; intros Hk; [done|]. cbn [be_bytes].
  rewrite byte_u64, IH by lia. done.
Qed.

Lemma be_bytes_length k v : length (be_bytes k v) = k.
Proof. induction k; cbn; congruence. Qed.

Lemma be_bytes_ok k v : bytes_ok (be_bytes k v).
Proof. induction k; constructor; [apply byte_range|done]. Qed.

(** Reads at literal offsets of an explicit list. *)
Ltac nth_term l k :=
  lazymatch k with
  | 0 => lazymatch l with ?a :: _ => constr:(a) end
  | _ => lazymatch l with _ :: ?t => let k' := eval cbv in (k - 1) in nth_term t k' end
  end.

Ltac read_bytes :=
  repeat match goal with
  | |- context [rd ?l ?k] => let x := nth_term l k in change (rd l k) with (Some x)
  end;
  cbn [mbind option_bind].

Lemma word_pair x :
  is_i64 x -> i64 (Z.lor (u64 (Z.shiftl (u64 (i32 (x / 2 ^ 32))) 32)) (u32 (i32 x))) = x.
Proof.
  intros Hx. rewrite (lor_shl_add 64) by (unfold_int; zlia).
  change (2 ^ 32) with 4294967296. zlia.
Qed.

(** The payload sizes of the integer serial types. *)
Definition int_types : list (Z * Z) := [(1, 1); (2, 2); (3, 3); (4, 4); (5, 6); (6, 8)].

Lemma get_int t k i rest m :
  (t, k) ∈ int_types -> - 2 ^ (8 * k - 1) <= i < 2 ^ (8 * k - 1) ->
  sqlite3VdbeSerialGet (be_bytes (Z.to_nat k) i ++ rest) t m = Some (k, set_int m i).
Proof.
  intros Ht Hi. unfold int_types in Ht. rewrite !elem_of_cons, elem_of_nil in Ht.
  assert (forall j, 0 <= byte j i < 256) as Hb by (intros; apply byte_range).
  destruct_or! Ht; simplify_eq;
    match goal with
    | |- context [be_bytes (Z.to_nat ?k) _] =>
        let n := eval cbv in (Z.to_nat k) in change (Z.to_nat k) with n
    end;
    cbn [be_bytes app Z.of_nat Pos.of_succ_nat Pos.succ];
    unfold sqlite3VdbeSerialGet; cbn [Z.eqb Pos.eqb orb]; read_bytes;
    rewrite ?lor2, ?lor3 by apply Hb.
  - unfold byte. change (256 ^ 0) with 1. rewrite Z.div_1_r. do 3 f_equal.
    change (2 ^ (8 * 1 - 1)) with 128 in Hi. zlia.
  - unfold byte. change (256 ^ 0) with 1. change (256 ^ 1) with 256. rewrite Z.div_1_r.
    do 3 f_equal. change (2 ^ (8 * 2 - 1)) with 32768 in Hi. zlia.
  - unfold byte. change (256 ^ 0) with 1. change (256 ^ 1) with 256.
    change (256 ^ 2) with 65536. rewrite Z.div_1_r.
    do 3 f_equal. change (2 ^ (8 * 3 - 1)) with 8388608 in Hi. zlia.
  - rewrite (be32_word 0) by lia. change (256 ^ 0) with 1. rewrite Z.div_1_r, wrap_s_small;
      [done|lia|exact Hi].
  - rewrite (be32_word 0) by lia. change (256 ^ 0) with 1. rewrite Z.div_1_r.
    do 3 f_equal. change (2 ^ (8 * 6 - 1)) with 140737488355328 in Hi.
    transitivity (i64 (Z.lor (u64 (Z.shiftl (u64 (i32 (i / 2 ^ 32))) 32)) (u32 (i32 i))));
      [|apply word_pair; unfold_int; lia].
    do 5 f_equal. change (Z.of_nat 5) with 5. change (Z.of_nat 4) with 4. unfold byte.
    change (256 ^ 5) with (4294967296 * 256). change (256 ^ 4) with 4294967296.
    change (2 ^ 32) with 4294967296. rewrite <- Z.div_div by lia.
    assert (- 32768 <= i / 4294967296 < 32768) as Hw by zlia.
    revert Hw. generalize (i / 4294967296). intros w Hw. zlia.
  - rewrite (be32_word 0), (be32_word 4) by lia. change (256 ^ 0) with 1. rewrite Z.div_1_r.
    change (256 ^ 4) with (2 ^ 32). rewrite word_pair; [done|exact Hi].
Qed.

(** ** Values *)

(** The SQL value of a cell, by the representation the serialiser prefers. *)
Inductive value : Type :=
  | VNull
  | VInt (i : Z)
  | VReal (bits : Z)
  | VText (bs : list Z)
  | VBlob (bs : list Z).

Definition tail_zeros (m : Mem) : list Z :=
  if has m.(flags) MEM_Zero then replicate (Z.to_nat (nZero m)) 0 else [].

Definition mem_value (m : Mem) : value :=
  if has m.(flags) MEM_Null then VNull
  else if has m.(flags) MEM_Int then VInt m.(u)
  else if has m.(flags) MEM_Real then VReal m.(r)
  else if has m.(flags) MEM_Str then VText (content m ++ tail_zeros m)
  else VBlob (content m ++ tail_zeros m).

Definition is_text (m : Mem) : bool :=
  negb (has m.(flags) MEM_Null) && negb (has m.(flags) MEM_Int) && negb (has m.(flags) MEM_Real).

(** The cells OP_MakeRecord is given: no NaN, sizes within SQLITE_MAX_LENGTH. *)
Definition storable (m : Mem) : Prop :=
  is_i64 m.(u) /\ is_u64 m.(r) /\ double_of_bits m.(r) <> S754_nan /\
  (has m.(flags) MEM_Zero = true -> is_text m = true /\ 0 <= nZero m) /\
  (is_text m = true ->
   0 <= m.(n) <= Z.of_nat (length m.(z)) /\ bytes_ok m.(z) /\
   Z.of_nat (length (content m ++ tail_zeros m)) <= 1000000000).

(** The full serialised form. *)
Definition payload (m : Mem) (file_format : Z) : list Z :=
  let t := sqlite3VdbeSerialType m file_format in
  if has m.(flags) MEM_Null then []
  else if has m.(flags) MEM_Int then
    be_bytes (Z.to_nat (sqlite3VdbeSerialTypeLen t)) m.(u)
  else if has m.(flags) MEM_Real then be_bytes 8 m.(r)
  else content m ++ tail_zeros m.

Lemma serial_type_int_spec i ff :
  is_i64 i ->
  let t := serial_type_int i ff in
  (t = 8 /\ i = 0 \/ t = 9 /\ i = 1) \/
  (exists k, (t, k) ∈ int_types /\ - 2 ^ (8 * k - 1) <= i < 2 ^ (8 * k - 1)).
Proof.
  intros Hi. cbv zeta. unfold serial_type_int. change MAX_6BYTE with 140737488355327.
  change (- (140737488355327)) with (-140737488355327).
  assert (forall k x, (x, k) ∈ int_types -> - 2 ^ (8 * k - 1) <= i < 2 ^ (8 * k - 1) ->
    (x = 8 /\ i = 0 \/ x = 9 /\ i = 1) \/
    (exists k, (x, k) ∈ int_types /\ - 2 ^ (8 * k - 1) <= i < 2 ^ (8 * k - 1))) as H by eauto.
  destruct ((i <? 0) && (i <? -140737488355327)) eqn:E.
  { apply (H 8); [compute_done|exact Hi]. }
  assert (-140737488355327 <= i) as Hlo.
  { destruct (Z.ltb_spec i 0), (Z.ltb_spec i (-140737488355327)); cbn in E; done || lia. }
  assert (u64 (if i <? 0 then - i else i) = Z.abs i) as ->.
  { destruct (Z.ltb_spec i 0); rewrite wrap_u_small; unfold_int; lia. }
  destruct (Z.leb_spec (Z.abs i) 127).
  { destruct ((Z.land i 1 =? i) && (ff >=? 4)) eqn:E1.
    - left. apply andb_true_iff in E1 as [E1 _]. apply Z.eqb_eq in E1.
      change (Z.land i 1) with (Z.land i (2 ^ 1 - 1)) in E1.
      rewrite land_ones_mod in E1 by lia. change (2 ^ 1) with 2 in E1. assert (i = 0 \/ i = 1) as [-> | ->] by zlia; auto.
    - apply (H 1); [compute_done|]. change (2 ^ (8 * 1 - 1)) with 128. lia. }
  destruct (Z.leb_spec (Z.abs i) 32767).
  { apply (H 2); [compute_done|]. change (2 ^ (8 * 2 - 1)) with 32768. lia. }
  destruct (Z.leb_spec (Z.abs i) 8388607).
  { apply (H 3); [compute_done|]. change (2 ^ (8 * 3 - 1)) with 8388608. lia. }
  destruct (Z.leb_spec (Z.abs i) 2147483647).
  { apply (H 4); [compute_done|]. change (2 ^ (8 * 4 - 1)) with 2147483648. lia. }
  destruct (Z.leb_spec (Z.abs i) 140737488355327).
  { apply (H 6); [compute_done|]. change (2 ^ (8 * 6 - 1)) with 140737488355328. lia. }
  apply (H 8); [compute_done|exact Hi].
Qed.

Lemma int_types_len t k :
  (t, k) ∈ int_types ->
  sqlite3VdbeSerialTypeLen t = k /\ 1 <= t <= 6 /\ 1 <= k <= 8.
Proof.
  unfold int_types. rewrite !elem_of_cons, elem_of_nil. intros Ht.
  destruct_or! Ht; simplify_eq; (split; [reflexivity|lia]).
Qed.

(** The serial type of text and blobs. *)
Lemma serial_type_text m ff :
  storable m -> is_text m = true ->
  let l := Z.of_nat (length (content m ++ tail_zeros m)) in
  sqlite3VdbeSerialType m ff = l * 2 + 12 + (if has m.(flags) MEM_Str then 1 else 0) /\
  sqlite3VdbeSerialTypeLen (sqlite3VdbeSerialType m ff) = l /\
  l = m.(n) + (if has m.(flags) MEM_Zero then nZero m else 0).
Proof.
  intros (_ & _ & _ & Hz & Hs) Ht l. specialize (Hs Ht) as (Hn & _ & Hl).
  assert (l = m.(n) + (if has m.(flags) MEM_Zero then nZero m else 0)) as El.
  { unfold l, tail_zeros, content. rewrite length_app, length_take.
    destruct (has (flags m) MEM_Zero); [destruct Hz; [done|]; rewrite length_replicate|cbn]; lia. }
  unfold sqlite3VdbeSerialType, is_text in *.
  destruct (has (flags m) MEM_Null), (has (flags m) MEM_Int), (has (flags m) MEM_Real); try done.
  replace (if has (flags m) MEM_Zero then n m + nZero m else n m) with l
    by (rewrite El; destruct (has (flags m) MEM_Zero); lia).
  fold l in Hl. rewrite wrap_u_small by (unfold_int; destruct (has (flags m) MEM_Str); lia).
  split; [done|]. split; [|done]. unfold sqlite3VdbeSerialTypeLen.
  rewrite Z.geb_leb. destruct (Z.leb_spec 12 (l * 2 + 12 + (if has (flags m) MEM_Str then 1 else 0)));
    destruct (has (flags m) MEM_Str); try lia; zlia.
Qed.

Lemma is_text_cases m :
  (has m.(flags) MEM_Null = true) \/
  (has m.(flags) MEM_Null = false /\ has m.(flags) MEM_Int = true) \/
  (has m.(flags) MEM_Null = false /\ has m.(flags) MEM_Int = false /\
   has m.(flags) MEM_Real = true) \/
  (has m.(flags) MEM_Null = false /\ has m.(flags) MEM_Int = false /\
   has m.(flags) MEM_Real = false /\ is_text m = true).
Proof.
  unfold is_text. destruct (has (flags m) MEM_Null), (has (flags m) MEM_Int), (has (flags m) MEM_Real);
    tauto.
Qed.

Lemma payload_length m ff :
  storable m ->
  Z.of_nat (length (payload m ff)) = sqlite3VdbeSerialTypeLen (sqlite3VdbeSerialType m ff).
Proof.
  intros Hs. unfold payload.
  destruct (is_text_cases m) as [E|[(E1 & E2)|[(E1 & E2 & E3)|(E1 & E2 & E3 & E)]]].
  - rewrite E. unfold sqlite3VdbeSerialType. by rewrite E.
  - rewrite E1, E2, be_bytes_length. unfold sqlite3VdbeSerialType. rewrite E1, E2.
    destruct (serial_type_int_spec (u m) ff) as [[[-> _]|[-> _]]|(k & Hk & _)];
      [apply Hs|done|done|]. apply int_types_len in Hk as (-> & _ & ?). lia.
  - rewrite E1, E2, E3, be_bytes_length. unfold sqlite3VdbeSerialType. by rewrite E1, E2, E3.
  - rewrite E1, E2, E3. symmetry. by apply serial_type_text.
Qed.

Lemma serial_put m ff nBuf :
  storable m -> Z.of_nat (length (payload m ff)) <= nBuf < 2 ^ 31 ->
  sqlite3VdbeSerialPut nBuf m ff = payload m ff.
Proof.
  intros Hs Hb. rewrite payload_length in Hb by done. unfold sqlite3VdbeSerialPut, payload.
  destruct (is_text_cases m) as [E|[(E1 & E2)|[(E1 & E2 & E3)|(E1 & E2 & E3 & E)]]].
  - rewrite E. unfold sqlite3VdbeSerialType. by rewrite E.
  - rewrite E1, E2. unfold sqlite3VdbeSerialType. rewrite E1, E2.
    destruct (serial_type_int_spec (u m) ff) as [[[-> _]|[-> _]]|(k & Hk & _)];
      [apply Hs|done|done|]. apply int_types_len in Hk as (-> & Ht & ?).
    destruct (Z.leb_spec (serial_type_int (u m) ff) 7); [|lia].
    destruct (Z.gtb_spec (serial_type_int (u m) ff) 0); [|lia].
    destruct (Z.eqb_spec (serial_type_int (u m) ff) 7); [lia|]. cbn [andb].
    by rewrite put_be_bytes, app_nil_r, be_bytes_u64 by lia.
  - rewrite E1, E2, E3. unfold sqlite3VdbeSerialType. rewrite E1, E2, E3.
    cbn [Z.leb Z.gtb Z.compare Pos.compare Pos.compare_cont andb Z.eqb Pos.eqb].
    change (Z.to_nat (sqlite3VdbeSerialTypeLen 7)) with 8%nat. by rewrite put_be_bytes, app_nil_r.
  - rewrite E1, E2, E3. destruct (serial_type_text m ff Hs E) as (Et & El & Ez).
    rewrite El in Hb. destruct Hs as (_ & _ & _ & _ & Hs). destruct (Hs E) as (Hn & _ & _).
    rewrite Et. set (l := Z.of_nat (length (content m ++ tail_zeros m))) in *.
    assert (0 <= l) by lia.
    destruct (Z.leb_spec (l * 2 + 12 + (if has (flags m) MEM_Str then 1 else 0)) 7);
      [destruct (has (flags m) MEM_Str); lia|].
    cbn [andb]. rewrite Z.geb_leb.
    destruct (Z.leb_spec 12 (l * 2 + 12 + (if has (flags m) MEM_Str then 1 else 0)));
      [|destruct (has (flags m) MEM_Str); lia].
    unfold tail_zeros. destruct (has (flags m) MEM_Zero); [|by rewrite app_nil_r].
    rewrite (wrap_u_small 32 nBuf) by (unfold_int; lia).
    destruct (Z.gtb_spec (n m + nZero m) nBuf); [lia|]. do 2 f_equal. lia.
Qed.

Lemma get_real v rest c :
  is_u64 v -> double_of_bits v <> S754_nan ->
  sqlite3VdbeSerialGet (be_bytes 8 v ++ rest) 7 c
  = Some (8, mkMem MEM_Real v c.(u) c.(n) c.(z) c.(enc) c.(own) c.(szMalloc)).
Proof.
  intros Hv Hn. unfold sqlite3VdbeSerialGet. cbn [Z.eqb Pos.eqb orb be_bytes app Z.of_nat Pos.of_succ_nat Pos.succ].
  read_bytes. rewrite (be32_word 0), (be32_word 4) by lia.
  change (256 ^ 0) with 1. rewrite Z.div_1_r. change (256 ^ 4) with (2 ^ 32).
  assert (Z.lor (u64 (Z.shiftl (u64 (i32 (v / 2 ^ 32))) 32)) (u32 (i32 v)) = v) as ->.
  { rewrite (lor_shl_add 64) by (unfold_int; zlia). change (2 ^ 32) with 4294967296. zlia. }
  by destruct (double_of_bits v).
Qed.

Lemma get_text t (bs rest : list Z) c :
  12 <= t < 2 ^ 31 -> Z.of_nat (length bs) = (t - 12) / 2 ->
  exists m, sqlite3VdbeSerialGet (bs ++ rest) t c = Some (Z.of_nat (length bs), m) /\
    m.(flags) = Z.lor (if Z.land t 0x01 =? 0 then MEM_Blob else MEM_Str) MEM_Ephem /\
    content m = bs /\ m.(n) = Z.of_nat (length bs) /\ m.(enc) = c.(enc).
Proof.
  intros Ht Hl. unfold sqlite3VdbeSerialGet.
  repeat match goal with
  | |- context [t =? ?k] => destruct (Z.eqb_spec t k) as [?|_]; [lia|]
  end. cbn [orb].
  rewrite (wrap_u_small 32 (t - 12)) by (unfold_int; lia).
  rewrite wrap_s_small, <- Hl by (unfold_int; zlia).
  eexists. split; [reflexivity|]. split; [reflexivity|]. split; [|done].
  unfold content. cbn [n z]. rewrite Nat2Z.id. apply take_app_length.
Qed.

(** A cell as reading leaves it: no zero-filled tail, one kind of number, all
    of its bytes there. *)
Definition plain_cell (m : Mem) : Prop :=
  has m.(flags) MEM_Zero = false /\ (has m.(flags) MEM_Int = true -> has m.(flags) MEM_Real = false) /\
  (is_text m = true -> m.(n) = Z.of_nat (length (content m))).

(** Reading gives the value back, whatever follows. *)
Lemma serial_get m ff rest c :
  storable m ->
  exists m', sqlite3VdbeSerialGet (payload m ff ++ rest) (sqlite3VdbeSerialType m ff) c
             = Some (Z.of_nat (length (payload m ff)), m') /\
    mem_value m' = mem_value m /\ m'.(enc) = c.(enc) /\ plain_cell m'.
Proof.
  intros Hs. pose proof (payload_length m ff Hs) as Hl. unfold payload, mem_value in *.
  destruct (is_text_cases m) as [E|[(E1 & E2)|[(E1 & E2 & E3)|(E1 & E2 & E3 & E)]]].
  - rewrite E. unfold sqlite3VdbeSerialType. rewrite E. by eexists.
  - rewrite E1, E2 in *. unfold sqlite3VdbeSerialType in *. rewrite E1, E2 in *.
    destruct (serial_type_int_spec (u m) ff) as [[[-> Hu]|[-> Hu]]|(k & Hk & Hi)]; [apply Hs| | |].
    + rewrite Hu. by eexists.
    + rewrite Hu. by eexists.
    + rewrite Hl. destruct (int_types_len _ _ Hk) as (-> & _). rewrite (get_int _ k) by done.
      by eexists.
  - rewrite E1, E2, E3 in *. unfold sqlite3VdbeSerialType in *. rewrite E1, E2, E3 in *.
    destruct Hs as (_ & Hr & Hn & _). rewrite (get_real (r m)) by done. by eexists.
  - rewrite E1, E2, E3 in *. destruct (serial_type_text m ff Hs E) as (Et & El & _).
    destruct Hs as (_ & _ & _ & _ & Hs). destruct (Hs E) as (_ & _ & Hlim).
    destruct (get_text (sqlite3VdbeSerialType m ff) (content m ++ tail_zeros m) rest c)
      as (m' & -> & Hf & Hc & Hn & He).
    { rewrite Et. destruct (has (flags m) MEM_Str); lia. }
    { rewrite Et. destruct (has (flags m) MEM_Str); zlia. }
    exists m'. split; [done|]. split; [|split; [done|]; unfold plain_cell; rewrite Hf, Hc, Hn; by destruct (_ =? _)].
    assert (tail_zeros m' = []) as -> by (unfold tail_zeros; rewrite Hf; by destruct (_ =? _)).
    rewrite Hf, Hc, Et, app_nil_r.
    change (Z.land ?x 0x01) with (Z.land x (2 ^ 1 - 1)). rewrite land_ones_mod by lia.
    change (2 ^ 1) with 2. generalize (Z.of_nat (length (content m ++ tail_zeros m))). intros l.
    destruct (has (flags m) MEM_Str).
    + by destruct (Z.eqb_spec ((l * 2 + 12 + 1) mod 2) 0); [zlia|].
    + by destruct (Z.eqb_spec ((l * 2 + 12 + 0) mod 2) 0); [|zlia].
Qed.

(** ** Headers *)

Lemma varint32_read t rest :
  0 <= t < 2 ^ 31 -> bytes_ok rest ->
  Z.of_nat (length (putVarint32 t)) = sqlite3VarintLen t /\ bytes_ok (putVarint32 t) /\
  getVarint32 (putVarint32 t ++ rest) = Some (sqlite3VarintLen t, t).
Proof.
  intros Ht Hr. assert (is_u64 t) as Hu by (unfold_int; lia).
  destruct (putvarint_spec t rest Hu) as (Hd & Hl & Hb).
  rewrite putVarint32_ref by (unfold_int; lia). split; [done|]. split; [done|].
  rewrite getVarint32_ref by (by apply bytes_ok_app). rewrite Hd, <- Hl.
  cbn [mbind option_bind]. do 2 f_equal. unfold SQLITE_MAX_U32. lia.
Qed.

Lemma varint_len_small v :
  0 <= v < 2 ^ 28 ->
  sqlite3VarintLen v = if v <? 128 then 1 else if v <? 16384 then 2
                       else if v <? 2097152 then 3 else 4.
Proof.
  intros Hv. change (2 ^ 28) with 268435456 in Hv. unfold sqlite3VarintLen.
  cbn [varint_len_loop]. rewrite !shiftr_7, !Z.div_div by lia.
  cbn [Z.add Z.mul Pos.add Pos.succ Pos.mul Z.ltb Z.compare Pos.compare Pos.compare_cont].
  rewrite !andb_true_r.
  assert (forall k, 0 < k -> (v / k =? 0) = (v <? k)) as Hk.
  { intros k Hk. destruct (Z.ltb_spec v k); [apply Z.eqb_eq, Z.div_small; lia|].
    apply Z.eqb_neq. pose proof (Z.div_le_mono k v k). rewrite Z.div_same in *; lia. }
  rewrite !Hk by lia. change (128 * 128 * 128 * 128) with 268435456.
  change (128 * 128 * 128) with 2097152. change (128 * 128) with 16384.
  destruct (Z.ltb_spec v 128); [done|]. destruct (Z.ltb_spec v 16384); [done|].
  destruct (Z.ltb_spec v 2097152); [done|]. destruct (Z.ltb_spec v 268435456); [done|lia].
Qed.

Lemma varint_len_range t : 0 <= t < 2 ^ 31 -> 1 <= sqlite3VarintLen t <= 9.
Proof.
  intros Ht. destruct (putvarint_spec t []) as (Hd & Hl & Hb); [unfold_int; lia|].
  apply varint_ref_range in Hd; [lia| |lia]. by rewrite app_nil_r.
Qed.

(** The size field counts itself. *)
Lemma header_size_spec h :
  0 <= h < 2 ^ 27 ->
  header_size h = h + sqlite3VarintLen (header_size h) /\ h < header_size h < 2 ^ 28.
Proof.
  intros Hh. change (2 ^ 27) with 134217728 in Hh. unfold header_size.
  assert (forall v, 0 <= v < 268435456 ->
    sqlite3VarintLen v = if v <? 128 then 1 else if v <? 16384 then 2
                         else if v <? 2097152 then 3 else 4) as H
    by (intros; apply varint_len_small; change (2 ^ 28) with 268435456; lia).
  change (2 ^ 28) with 268435456.
  pose proof (H h ltac:(lia)) as E. 
  assert (1 <= sqlite3VarintLen h <= 4) by (rewrite E; repeat case_match; lia).
  pose proof (H (h + sqlite3VarintLen h) ltac:(lia)) as E1.
  pose proof (H (h + sqlite3VarintLen h + 1) ltac:(lia)) as E2.
  destruct (Z.ltb_spec (sqlite3VarintLen h) (sqlite3VarintLen (h + sqlite3VarintLen h)));
    (split; [|lia]).
  - revert E E1 E2. repeat match goal with |- context [?a <? ?b] => destruct (Z.ltb_spec a b) end;
      intros; lia.
  - revert E E1. repeat match goal with |- context [?a <? ?b] => destruct (Z.ltb_spec a b) end;
      intros; lia.
Qed.

Lemma serial_type_range m ff :
  storable m -> 0 <= sqlite3VdbeSerialType m ff < 2 ^ 31.
Proof.
  intros Hs. destruct (is_text_cases m) as [E|[(E1 & E2)|[(E1 & E2 & E3)|(E1 & E2 & E3 & E)]]].
  - unfold sqlite3VdbeSerialType. rewrite E. lia.
  - unfold sqlite3VdbeSerialType. rewrite E1, E2.
    destruct (serial_type_int_spec (u m) ff) as [[[-> _]|[-> _]]|(k & Hk & _)]; [apply Hs|lia..|].
    apply int_types_len in Hk. lia.
  - unfold sqlite3VdbeSerialType. rewrite E1, E2, E3. lia.
  - destruct (serial_type_text m ff Hs E) as (-> & _ & _). destruct Hs as (_ & _ & _ & _ & Hs).
    destruct (Hs E) as (_ & _ & ?). destruct (has (flags m) MEM_Str); lia.
Qed.

(** ** The record of a list of cells *)

Definition types (ff : Z) (ms : list Mem) : list Z :=
  concat (map (fun m => putVarint32 (sqlite3VdbeSerialType m ff)) ms).
Definition payloads (ff : Z) (ms : list Mem) : list Z :=
  concat (map (fun m => payload m ff) ms).
Definition record_bytes (ff : Z) (ms : list Mem) : list Z :=
  putVarint32 (header_size (Z.of_nat (length (types ff ms)))) ++ types ff ms ++ payloads ff ms.

Lemma types_cons ff m ms :
  types ff (m :: ms) = putVarint32 (sqlite3VdbeSerialType m ff) ++ types ff ms.
Proof. reflexivity. Qed.

Lemma payloads_cons ff m ms : payloads ff (m :: ms) = payload m ff ++ payloads ff ms.
Proof. reflexivity. Qed.

Lemma payload_bytes m ff : storable m -> bytes_ok (payload m ff).
Proof.
  intros Hs. unfold payload.
  destruct (is_text_cases m) as [E|[(E1 & E2)|[(E1 & E2 & E3)|(E1 & E2 & E3 & E)]]].
  - rewrite E. constructor.
  - rewrite E1, E2. apply be_bytes_ok.
  - rewrite E1, E2, E3. apply be_bytes_ok.
  - rewrite E1, E2, E3. destruct Hs as (_ & _ & _ & _ & Hs). destruct (Hs E) as (_ & Hb & _).
    apply bytes_ok_app. split; [by apply Forall_take|]. unfold tail_zeros.
    destruct (has (flags m) MEM_Zero); [|constructor].
    apply Forall_replicate. unfold_int. lia.
Qed.

Lemma payloads_bytes ff ms : Forall storable ms -> bytes_ok (payloads ff ms).
Proof.
  induction 1; [constructor|]. rewrite payloads_cons. apply bytes_ok_app. eauto using payload_bytes.
Qed.

Lemma types_bytes ff ms : Forall storable ms -> bytes_ok (types ff ms).
Proof.
  induction 1 as [|m ms Hm _ IH]; [constructor|]. rewrite types_cons. apply bytes_ok_app.
  split; [|done]. apply (varint32_read _ []); [by apply serial_type_range|constructor].
Qed.

Lemma types_length ff ms :
  Forall storable ms ->
  Z.of_nat (length ms) <= Z.of_nat (length (types ff ms)) <= 9 * Z.of_nat (length ms).
Proof.
  induction 1 as [|m ms Hm _ IH]; [cbn; lia|]. rewrite types_cons, length_app. cbn [length].
  pose proof (serial_type_range m ff Hm) as Hr.
  destruct (varint32_read _ [] Hr) as (Hl & Hb & _); [constructor|].
  pose proof (varint_len_range _ Hr). lia.
Qed.

(** What a reader sees: the header size, the header, then the data. *)
Lemma record_layout ff ms :
  Forall storable ms -> Z.of_nat (length ms) <= 32767 ->
  let szHdr := header_size (Z.of_nat (length (types ff ms))) in
  let k := sqlite3VarintLen szHdr in
  bytes_ok (record_bytes ff ms) /\ 1 <= k /\
  getVarint32 (record_bytes ff ms) = Some (k, szHdr) /\
  szHdr = k + Z.of_nat (length (types ff ms)) /\
  drop (Z.to_nat k) (record_bytes ff ms) = types ff ms ++ payloads ff ms /\
  drop (Z.to_nat szHdr) (record_bytes ff ms) = payloads ff ms /\
  Z.of_nat (length (record_bytes ff ms)) = szHdr + Z.of_nat (length (payloads ff ms)).
Proof.
  intros Hs Hn szHdr k. pose proof (types_length ff ms Hs) as Htl.
  destruct (header_size_spec (Z.of_nat (length (types ff ms)))) as [Hsz Hlt];
    [change (2 ^ 27) with 134217728; lia|]. fold szHdr in Hsz, Hlt. fold k in Hsz.
  destruct (varint32_read szHdr (types ff ms ++ payloads ff ms)) as (Hl & Hb & Hg); [lia| |].
  { apply bytes_ok_app. eauto using types_bytes, payloads_bytes. }
  fold k in Hl, Hg. unfold record_bytes. fold szHdr.
  assert (Z.to_nat k = length (putVarint32 szHdr)) as Hk by lia.
  split; [apply bytes_ok_app; split; [done|apply bytes_ok_app; eauto using types_bytes, payloads_bytes]|].
  split; [lia|]. split; [done|]. split; [lia|]. split; [by rewrite Hk, drop_app_length|].
  split; [|rewrite !length_app; lia].
  rewrite app_assoc. replace (Z.to_nat szHdr) with (length (putVarint32 szHdr ++ types ff ms))
    by (rewrite length_app; lia).
  apply drop_app_length.
Qed.

(** ** Unpacking *)

(** A cell read from a record for the cell [m]. *)
Definition reads_as (e : Z) (c m : Mem) : Prop :=
  mem_value c = mem_value m /\ c.(enc) = e /\ plain_cell c.

Lemma unpack_loop_spec ff e aKey nKey szHdr ms : forall todo idx d,
  Forall storable ms -> bytes_ok aKey -> 0 <= idx -> 0 <= d ->
  drop (Z.to_nat idx) aKey = types ff ms ++ drop (Z.to_nat szHdr) aKey ->
  idx + Z.of_nat (length (types ff ms)) = szHdr ->
  drop (Z.to_nat d) aKey = payloads ff ms ->
  d + Z.of_nat (length (payloads ff ms)) = nKey ->
  exists cs, unpack_loop todo e nKey szHdr aKey idx d = Some cs /\ Forall2 (reads_as e) cs (take todo ms).
Proof.
  induction ms as [|m ms IH]; intros todo idx d Hs Hb Hi Hd Hty Hti Hp Hpd.
  - exists []. rewrite take_nil. split; [|constructor]. destruct todo; [done|]. cbn [unpack_loop].
    cbn in Hti. destruct (Z.ltb_spec idx szHdr); [lia|done].
  - apply Forall_cons in Hs as [Hm Hs]. destruct todo as [|todo]; [by exists []; split; [|constructor]|].
    rewrite types_cons, length_app in Hti. rewrite payloads_cons, length_app in Hpd.
    rewrite types_cons, <- app_assoc in Hty. rewrite payloads_cons in Hp.
    pose proof (serial_type_range m ff Hm) as Hr.
    assert (bytes_ok (types ff ms ++ drop (Z.to_nat szHdr) aKey)) as Hrest
      by (apply bytes_ok_app; split; [by apply types_bytes|by apply bytes_ok_drop]).
    destruct (varint32_read _ _ Hr Hrest) as (Hl & _ & Hg).
    pose proof (varint_len_range _ Hr) as Hpos. set (t := sqlite3VdbeSerialType m ff) in *.
    cbn [unpack_loop take]. destruct (Z.ltb_spec idx szHdr); [|lia].
    destruct (Z.leb_spec d nKey); [|lia]. cbn [andb].
    rewrite Hty, Hg, Hp. cbn [mbind option_bind].
    destruct (serial_get m ff (payloads ff ms) (set_enc blank_cell e) Hm) as (c & Hc & Hv & He & Hp').
    fold t in Hc. rewrite Hc. cbn [mbind option_bind].
    destruct (IH todo (idx + sqlite3VarintLen t) (d + Z.of_nat (length (payload m ff))))
      as (cs & -> & Hcs); try done; try lia.
    + rewrite Z2Nat.inj_add, <- drop_drop, Hty by lia. rewrite <- Hl, Nat2Z.id. apply drop_app_length.
    + rewrite Z2Nat.inj_add, <- drop_drop, Hp, Nat2Z.id by lia. apply drop_app_length.
    + cbn [mbind option_bind]. exists (c :: cs). split; [done|]. constructor; [|done].
      split; [done|]. by rewrite He.
Qed.

(** As many columns are unpacked as the record [p] has room for. *)
Lemma record_unpack_prefix ff ki p ms :
  Forall storable ms -> Z.of_nat (length ms) <= 32767 ->
  exists cs, sqlite3VdbeRecordUnpack ki (Z.of_nat (length (record_bytes ff ms)))
               (record_bytes ff ms) p
             = Some (mkUnpacked p.(pKeyInfo) (Z.of_nat (length cs)) 0 p.(rowid) cs) /\
    Forall2 (reads_as ki.(ki_enc)) cs (take (Z.to_nat p.(up_nField)) ms).
Proof.
  intros Hs Hn. destruct (record_layout ff ms Hs Hn) as (Hb & Hk & Hg & Hsz & Hd1 & Hd2 & Hl).
  unfold sqlite3VdbeRecordUnpack. rewrite Hg. cbn [mbind option_bind].
  set (szHdr := header_size _) in *.
  destruct (unpack_loop_spec ff ki.(ki_enc) (record_bytes ff ms)
    (Z.of_nat (length (record_bytes ff ms))) szHdr ms (Z.to_nat (up_nField p))
    (sqlite3VarintLen szHdr) szHdr) as (cs & -> & Hcs); try done; try lia.
  - by rewrite Hd1, Hd2.
  - cbn [mbind option_bind]. by exists cs.
Qed.

Lemma record_unpack ff ki p ms :
  Forall storable ms -> Z.of_nat (length ms) <= 32767 -> Z.of_nat (length ms) <= p.(up_nField) ->
  exists cs, sqlite3VdbeRecordUnpack ki (Z.of_nat (length (record_bytes ff ms)))
               (record_bytes ff ms) p
             = Some (mkUnpacked p.(pKeyInfo) (Z.of_nat (length ms)) 0 p.(rowid) cs) /\
    Forall2 (reads_as ki.(ki_enc)) cs ms.
Proof.
  intros Hs Hn Hp. destruct (record_unpack_prefix ff ki p ms Hs Hn) as (cs & Hu & Hcs).
  rewrite take_ge in Hcs by lia. exists cs. by rewrite <- (Forall2_length _ _ _ Hcs).
Qed.

(** ** Comparing *)

(** The order of keys: field by field, in the sort order of each; then the
    flags of the right-hand key decide, and else whether the left-hand one has
    fields left. *)
Fixpoint lex_compare (oom : bool) (p2 : UnpackedRecord) (i : Z) (cs ms : list Mem) : option Z :=
  match cs, ms with
  | c :: cs, m :: ms =>
      rc ← sqlite3MemCompare oom c m
             (if i <? p2.(pKeyInfo).(ki_nField) then nth (Z.to_nat i) p2.(pKeyInfo).(aColl) None
              else None);
      if rc =? 0 then lex_compare oom p2 (i + 1) cs ms
      else Some (if (i <? p2.(pKeyInfo).(ki_nField))
                    && nth (Z.to_nat i) p2.(pKeyInfo).(aSortOrder) false then - rc else rc)
  | _, _ =>
      Some (if has p2.(up_flags) UNPACKED_INCRKEY then -1
            else if has p2.(up_flags) UNPACKED_PREFIX_MATCH then 0
            else match cs with [] => 0 | _ => 1 end)
  end.

Lemma compare_loop_lex oom p2 ff aKey nKey szHdr ms : forall rs idx d i,
  Forall storable ms -> bytes_ok aKey -> 0 <= idx -> 0 <= d ->
  drop (Z.to_nat idx) aKey = types ff ms ++ drop (Z.to_nat szHdr) aKey ->
  idx + Z.of_nat (length (types ff ms)) = szHdr ->
  drop (Z.to_nat d) aKey = payloads ff ms ->
  d + Z.of_nat (length (payloads ff ms)) = nKey ->
  exists cs, Forall2 (reads_as p2.(pKeyInfo).(ki_enc)) cs ms /\
    option_map fst (compare_loop oom p2 nKey szHdr aKey idx d i rs) = lex_compare oom p2 i cs rs.
Proof.
  induction ms as [|m ms IH]; intros rs idx d i Hs Hb Hi Hd Hty Hti Hp Hpd.
  - exists []. split; [constructor|]. cbn in Hti.
    destruct rs as [|r rs]; cbn [compare_loop]; (destruct (Z.ltb_spec idx szHdr); [lia|done]).
  - apply Forall_cons in Hs as [Hm Hs].
    rewrite types_cons, length_app in Hti. rewrite payloads_cons, length_app in Hpd.
    rewrite types_cons, <- app_assoc in Hty. rewrite payloads_cons in Hp.
    pose proof (serial_type_range m ff Hm) as Hr.
    assert (bytes_ok (types ff ms ++ drop (Z.to_nat szHdr) aKey)) as Hrest
      by (apply bytes_ok_app; split; [by apply types_bytes|by apply bytes_ok_drop]).
    destruct (varint32_read _ _ Hr Hrest) as (Hl & _ & Hg).
    pose proof (varint_len_range _ Hr) as Hpos. pose proof (payload_length m ff Hm) as Hpl.
    set (t := sqlite3VdbeSerialType m ff) in *.
    destruct (serial_get m ff (payloads ff ms) (set_enc blank_cell p2.(pKeyInfo).(ki_enc)) Hm)
      as (c & Hc & Hv & He & Hpc). fold t in Hc.
    assert (reads_as p2.(pKeyInfo).(ki_enc) c m) as Hrc by (split; [done|by rewrite He]).
    destruct (IH (drop 1 rs) (idx + sqlite3VarintLen t) (d + Z.of_nat (length (payload m ff)))
      (i + 1)) as (cs & Hcs & Hrec); try done; try lia.
    { rewrite Z2Nat.inj_add, <- drop_drop, Hty by lia. rewrite <- Hl, Nat2Z.id. apply drop_app_length. }
    { rewrite Z2Nat.inj_add, <- drop_drop, Hp, Nat2Z.id by lia. apply drop_app_length. }
    exists (c :: cs). split; [by constructor|].
    destruct rs as [|r rs]; cbn [compare_loop lex_compare];
      (destruct (Z.ltb_spec idx szHdr); [|lia]); [done|].
    rewrite Hty, Hg. cbn [mbind option_bind].
    assert ((d >=? nKey) && (sqlite3VdbeSerialTypeLen t >? 0) = false) as ->.
    { rewrite Z.geb_leb, Z.gtb_ltb. destruct (Z.leb_spec nKey d), (Z.ltb_spec 0 (sqlite3VdbeSerialTypeLen t));
        try done. lia. }
    rewrite Hp, Hc. cbn [mbind option_bind].
    destruct (sqlite3MemCompare _ _ _ _) as [rc|]; [|done]. cbn [mbind option_bind].
    destruct (Z.eqb_spec rc 0); cbn [negb]; [exact Hrec|].
    by destruct (_ && (i =? _)).
Qed.

(** ** Building *)

Lemma has_clear f k b : Z.land k b = 0 -> has (Z.land f (Z.lnot k)) b = has f b.
Proof.
  intros Hk. unfold has. f_equal. f_equal. rewrite <- Z.land_assoc. f_equal.
  rewrite Z.land_comm, <- Z.ldiff_land. apply Z.bits_inj'. intros i Hi. rewrite Z.ldiff_spec.
  apply (f_equal (fun x => Z.testbit x i)) in Hk. rewrite Z.land_spec, Z.bits_0 in Hk.
  destruct (Z.testbit b i), (Z.testbit k i); done.
Qed.

Lemma has_cleared f k b : Z.land (Z.lnot k) b = 0 -> has (Z.land f (Z.lnot k)) b = false.
Proof. intros Hk. unfold has. rewrite <- Z.land_assoc, Hk, Z.land_0_r. done. Qed.

(** Only pure zero-filled blobs are left with MEM_Zero. *)
Definition pure (m : Mem) : Prop := has m.(flags) MEM_Zero = true -> m.(n) = 0.

Lemma make_expand_ok m ff :
  storable m ->
  storable (make_expand m) /\ pure (make_expand m) /\
  sqlite3VdbeSerialType (make_expand m) ff = sqlite3VdbeSerialType m ff /\
  payload (make_expand m) ff = payload m ff /\ mem_value (make_expand m) = mem_value m.
Proof.
  intros Hs. unfold make_expand, pure.
  destruct (has (flags m) MEM_Zero) eqn:Ez; cbn [andb].
  2: { split; [done|]. split; [by rewrite Ez|done]. }
  destruct Hs as (Hi & Hr & Hnan & Hz & Hs). destruct (Hz Ez) as [Ht HnZ].
  destruct (Hs Ht) as (Hn & Hb & Hlim).
  destruct (Z.gtb_spec (n m) 0) as [Hn0|Hn0].
  2: { split; [done|]. split; [intros _; lia|done]. }
  unfold sqlite3VdbeMemExpandBlob. rewrite Ez. unfold sqlite3VdbeMemGrow.
  rewrite andb_false_r. cbn [negb Z.eqb SQLITE_OK snd].
  set (m' := set_flags _ _).
  assert (forall b, Z.land (Z.lor MEM_Zero MEM_Term) b = 0 -> Z.land (Z.lor MEM_Ephem MEM_Static) b = 0 ->
    has m'.(flags) b = has m.(flags) b) as Hf by (intros; cbn [m' flags set_flags set_n set_z]; by rewrite !has_clear).
  assert (has m'.(flags) MEM_Zero = false) as Hz' by by apply has_cleared.
  assert (take (Z.to_nat (n m)) (content m) = content m) as Ec
    by (unfold content; rewrite take_take; f_equal; lia).
  assert (length (content m) = Z.to_nat (n m)) as Elen by (unfold content; rewrite length_take; lia).
  assert (tail_zeros m = replicate (Z.to_nat (nZero m)) 0) as Et by (unfold tail_zeros; by rewrite Ez).
  assert (m'.(z) = content m ++ tail_zeros m) as Ez2 by (rewrite Et, <- Ec at 1; reflexivity).
  assert (m'.(n) = n m + nZero m) as En by reflexivity.
  assert (content m' = content m ++ tail_zeros m) as Ec'.
  { unfold content at 1. rewrite Ez2, En, take_ge; [done|].
    rewrite length_app, Et, length_replicate. lia. }
  assert (tail_zeros m' = []) as Et' by (unfold tail_zeros; by rewrite Hz').
  assert (is_text m' = is_text m) as Ei by (unfold is_text; by rewrite !Hf).
  split; [split; [exact Hi|]; split; [exact Hr|]; split; [exact Hnan|]; split; [congruence|]|].
  - intros _. rewrite Ec', Et', app_nil_r, Ez2, En. split; [rewrite length_app, Et, length_replicate; lia|].
    split; [|done]. apply bytes_ok_app. split; [by apply Forall_take|]. rewrite Et.
    apply Forall_replicate. unfold_int. lia.
  - split; [congruence|]. unfold payload, mem_value, sqlite3VdbeSerialType.
    rewrite Hz', !Hf, Ez, Ec', Et', app_nil_r by done. done.
Qed.

(** The third accumulator: zeros at the end of the record. *)
Definition size_z (ff z0 : Z) (m : Mem) : Z :=
  if has m.(flags) MEM_Zero then z0 + nZero m
  else if negb (Z.of_nat (length (payload m ff)) =? 0) then 0 else z0.

Lemma make_size_spec ff a b z0 m :
  storable m ->
  make_size ff (a, b, z0) m
  = (a + Z.of_nat (length (payload m ff)),
     b + Z.of_nat (length (putVarint32 (sqlite3VdbeSerialType m ff))), size_z ff z0 m).
Proof.
  intros Hm. destruct (varint32_read _ [] (serial_type_range m ff Hm)) as (Hl & _ & _); [constructor|].
  unfold make_size, size_z. rewrite payload_length, <- Hl by done.
  destruct (has (flags m) MEM_Zero); [done|]. by destruct (negb _).
Qed.

Lemma fold_size ff ms : forall a b z0,
  Forall storable ms ->
  fold_left (make_size ff) ms (a, b, z0)
  = (a + Z.of_nat (length (payloads ff ms)), b + Z.of_nat (length (types ff ms)),
     fold_left (size_z ff) ms z0).
Proof.
  induction ms as [|m ms IH]; intros a b z0 Hs; [cbn; do 2 f_equal; lia|].
  apply Forall_cons in Hs as [Hm Hs]. cbn [fold_left].
  rewrite make_size_spec, IH, types_cons, payloads_cons, !length_app by done.
  f_equal; f_equal; lia.
Qed.

(** The cells split into those written in full and a tail of zeros that is
    not written. *)
Lemma size_split ff ms :
  Forall storable ms -> Forall pure ms ->
  exists pre suf, ms = pre ++ suf /\
    payloads ff suf = replicate (Z.to_nat (fold_left (size_z ff) ms 0)) 0 /\
    0 <= fold_left (size_z ff) ms 0 /\
    Forall (fun m => sqlite3VdbeSerialPut 0 m ff = []) suf.
Proof.
  induction ms as [|m ms IH] using rev_ind; intros Hs Hp; [by exists [], []|].
  apply Forall_app in Hs as [Hs Hm], Hp as [Hp Hmp].
  apply Forall_cons in Hm as [Hm _], Hmp as [Hmp _].
  destruct (IH Hs Hp) as (pre & suf & -> & Hsuf & Hz & Hput). rewrite fold_left_app. cbn [fold_left].
  set (z0 := fold_left (size_z ff) (pre ++ suf) 0) in *. unfold size_z.
  destruct (has (flags m) MEM_Zero) eqn:Ez.
  - exists pre, (suf ++ [m]). rewrite app_assoc. split; [done|].
    specialize (Hmp Ez). assert (content m = []) as Ec by (unfold content; rewrite Hmp; by rewrite take_0).
    pose proof Hm as (_ & _ & _ & HZ & _). destruct (HZ Ez) as [Ht HnZ].
    assert (payload m ff = replicate (Z.to_nat (nZero m)) 0) as Epay.
    { unfold payload, is_text, tail_zeros in *. rewrite Ec, Ez.
      destruct (has (flags m) MEM_Null), (has (flags m) MEM_Int), (has (flags m) MEM_Real); done. }
    split; [|split; [lia|]].
    + unfold payloads in *. rewrite map_app, concat_app, Hsuf. cbn [map concat].
      rewrite Epay, app_nil_r, <- replicate_add. f_equal. lia.
    + apply Forall_app. split; [done|]. constructor; [|constructor].
      unfold sqlite3VdbeSerialPut. rewrite Ez, Ec, Hmp.
      assert (12 <= sqlite3VdbeSerialType m ff) as Hty.
      { destruct (serial_type_text m ff) as (-> & _); [done|done|]. destruct (has _ MEM_Str); lia. }
      destruct (Z.leb_spec (sqlite3VdbeSerialType m ff) 7); [lia|]. cbn [andb].
      destruct (_ >=? 12); [|done]. change (u32 0) with 0. cbn [app].
      destruct (Z.gtb_spec (0 + nZero m) 0); [done|]. by replace (0 + nZero m - 0) with 0 by lia.
  - destruct (Z.eqb_spec (Z.of_nat (length (payload m ff))) 0) as [E0|E0]; cbn [negb].
    + assert (payload m ff = []) as Epay by (destruct (payload m ff); [done|cbn in E0; lia]).
      exists pre, (suf ++ [m]). rewrite app_assoc. split; [done|]. split; [|split; [done|]].
      * unfold payloads in *. rewrite map_app, concat_app, Hsuf. cbn [map concat].
        by rewrite Epay, !app_nil_r.
      * apply Forall_app. split; [done|]. constructor; [|constructor].
        rewrite <- Epay. apply serial_put; [done|]. rewrite Epay. cbn. lia.
    + exists ((pre ++ suf) ++ [m]), []. rewrite app_nil_r. split; [done|]. split; [done|].
      split; [done|constructor].
Qed.

(** The data loop writes the part before the tail in full. *)
Lemma put_fields_spec ff nByte ms1 : forall ms2 i,
  Forall storable ms1 -> Forall (fun m => sqlite3VdbeSerialPut 0 m ff = []) ms2 ->
  0 <= i -> nByte = i + Z.of_nat (length (payloads ff ms1)) -> nByte < 2 ^ 31 ->
  put_fields nByte i ff (ms1 ++ ms2) = payloads ff ms1.
Proof.
  induction ms1 as [|m ms1 IH]; intros ms2 i Hs Hp Hi Hn Hb.
  - cbn in Hn. cbn [app]. replace nByte with i by lia. clear Hn Hs.
    induction Hp as [|m ms2 Hm _ IH2]; [done|]. cbn [put_fields].
    rewrite Z.sub_diag. change (i32 0) with 0. rewrite Hm. cbn [length app].
    by replace (i + Z.of_nat 0) with i by lia.
  - apply Forall_cons in Hs as [Hm Hs]. cbn [app put_fields].
    rewrite payloads_cons, length_app in Hn.
    rewrite (wrap_s_small 32) by (try lia; unfold_int; lia).
    rewrite serial_put by (done || lia). rewrite payloads_cons. f_equal.
    apply IH; done || lia.
Qed.

Lemma expand_all ff regs :
  Forall storable regs ->
  let ms := map make_expand regs in
  Forall storable ms /\ Forall pure ms /\ types ff ms = types ff regs /\
  payloads ff ms = payloads ff regs /\ map mem_value ms = map mem_value regs.
Proof.
  induction 1 as [|m ms Hm _ IH]; [by repeat split; constructor|]. cbn zeta in *.
  destruct IH as (H1 & H2 & H3 & H4 & H5).
  destruct (make_expand_ok m ff Hm) as (E1 & E2 & E3 & E4 & E5).
  cbn [map]. rewrite !types_cons, !payloads_cons, H3, H4, H5, E3, E4, E5.
  repeat split; by constructor.
Qed.

(** ** Theorems *)

(** A value written in its serial type is read back, whatever bytes follow
    and whatever the cell held: [sqlite3VdbeSerialPut] writes exactly
    [sqlite3VdbeSerialTypeLen] bytes and [sqlite3VdbeSerialGet] consumes them. *)
Theorem serial_roundtrip m ff nBuf rest c :
  storable m -> sqlite3VdbeSerialTypeLen (sqlite3VdbeSerialType m ff) <= nBuf < 2 ^ 31 ->
  let t := sqlite3VdbeSerialType m ff in
  let bs := sqlite3VdbeSerialPut nBuf m ff in
  Z.of_nat (length bs) = sqlite3VdbeSerialTypeLen t /\
  exists m', sqlite3VdbeSerialGet (bs ++ rest) t c = Some (sqlite3VdbeSerialTypeLen t, m') /\
             mem_value m' = mem_value m.
Proof.
  intros Hs Hb t bs. rewrite <- payload_length in Hb by done.
  assert (bs = payload m ff) as -> by by apply serial_put.
  pose proof (payload_length m ff Hs) as Hl. split; [done|].
  destruct (serial_get m ff rest c Hs) as (m' & Hg & Hv & _). exists m'.
  split; [|done]. unfold t. by rewrite <- Hl.
Qed.

(** A six-byte integer. *)
Definition int_cell (i : Z) : Mem := mkMem MEM_Int 0 i 0 [] SQLITE_UTF8 false 0.
Definition text_cell (bs : list Z) : Mem :=
  mkMem MEM_Str 0 0 (Z.of_nat (length bs)) bs SQLITE_UTF8 false 0.
Definition zeroblob_cell (k : Z) : Mem :=
  mkMem (Z.lor MEM_Blob MEM_Zero) 0 k 0 [] SQLITE_UTF8 false 0.

Lemma int_cell_storable i : is_i64 i -> storable (int_cell i).
Proof. intros Hi. split; [exact Hi|]. split; [cbn; unfold_int; lia|]. done. Qed.

Lemma text_cell_storable bs :
  bytes_ok bs -> Z.of_nat (length bs) <= 1000000000 -> storable (text_cell bs).
Proof.
  intros Hb Hl. split; [cbn; unfold_int; lia|]. split; [cbn; unfold_int; lia|].
  split; [done|]. split; [done|]. intros _. cbn [n z text_cell]. split; [lia|].
  split; [done|]. unfold content, tail_zeros. cbn [n z text_cell flags].
  rewrite Nat2Z.id, take_ge by lia. change (has MEM_Str MEM_Zero) with false. by rewrite app_nil_r.
Qed.

Lemma zeroblob_cell_storable k : 0 <= k <= 1000000000 -> storable (zeroblob_cell k).
Proof.
  intros Hk. assert (nZero (zeroblob_cell k) = k) as E
    by (unfold nZero; cbn [u zeroblob_cell]; apply wrap_s_small; [lia|unfold_int; lia]).
  split; [cbn; unfold_int; lia|]. split; [cbn; unfold_int; lia|].
  split; [done|]. split; [rewrite E; split; [done|lia]|]. intros _. split; [cbn; lia|].
  split; [constructor|]. unfold tail_zeros.
  change (has (flags (zeroblob_cell k)) MEM_Zero) with true. cbn iota.
  rewrite E, length_app, length_replicate. change (length (content (zeroblob_cell k))) with O. lia.
Qed.

Example serial_roundtrip_witness :
  sqlite3VdbeSerialType (int_cell (-3000000000)) 4 = 5 /\
  exists m', sqlite3VdbeSerialGet (sqlite3VdbeSerialPut 6 (int_cell (-3000000000)) 4 ++ [9])
               5 blank_cell = Some (6, m') /\ mem_value m' = VInt (-3000000000).
Proof.
  split; [reflexivity|].
  refine (proj2 (serial_roundtrip (int_cell (-3000000000)) 4 6 [9] blank_cell _ _)).
  - apply int_cell_storable. unfold_int. lia.
  - change (sqlite3VdbeSerialTypeLen _) with 6. lia.
Defined.

(** A row whose zero-filled blob has an empty text behind it. *)
Definition witness_row : list Mem :=
  [int_cell 1; text_cell [97; 98]; int_cell 300; zeroblob_cell 3; text_cell []].

Lemma witness_row_storable : Forall storable witness_row.
Proof.
  repeat apply List.Forall_cons; try apply int_cell_storable; try apply text_cell_storable;
    try apply zeroblob_cell_storable; try (unfold_int; lia); try (cbn; lia);
    repeat constructor; unfold_int; lia.
Qed.

(** C21: unpacking a record gives back its values, in order, all of them, each
    cell in the text encoding of the key. *)
Theorem sqlite3VdbeRecordUnpack_correct ff ki p ms :
  Forall storable ms -> Z.of_nat (length ms) <= 32767 -> Z.of_nat (length ms) <= p.(up_nField) ->
  exists p', sqlite3VdbeRecordUnpack ki (Z.of_nat (length (record_bytes ff ms)))
               (record_bytes ff ms) p = Some p' /\
    p'.(up_nField) = Z.of_nat (length ms) /\ p'.(up_flags) = 0 /\
    map mem_value p'.(aMem) = map mem_value ms /\
    Forall (fun c => c.(enc) = ki.(ki_enc)) p'.(aMem).
Proof.
  intros Hs Hn Hp. destruct (record_unpack ff ki p ms Hs Hn Hp) as (cs & Hu & Hcs).
  eexists. split; [exact Hu|]. cbn [up_nField up_flags aMem].
  split; [done|]. split; [done|]. clear Hu Hs Hn Hp.
  induction Hcs as [|c m cs ms (Hv & He & _) _ [IH1 IH2]]; [by split|].
  cbn [map]. split; [by rewrite Hv, IH1|by constructor].
Qed.

Definition witness_keyinfo : KeyInfo := mkKeyInfo SQLITE_UTF8 4 [false; true; false; false] [].

Example sqlite3VdbeRecordUnpack_correct_witness :
  exists p', sqlite3VdbeRecordUnpack witness_keyinfo 13 (record_bytes 4 witness_row)
               (mkUnpacked witness_keyinfo 5 0 0 []) = Some p' /\
    map mem_value p'.(aMem) = [VInt 1; VText [97; 98]; VInt 300; VBlob [0; 0; 0]; VText []].
Proof.
  destruct (sqlite3VdbeRecordUnpack_correct 4 witness_keyinfo
    (mkUnpacked witness_keyinfo 5 0 0 []) witness_row) as (p' & Hu & _ & _ & Hv & _).
  - exact witness_row_storable.
  - cbn. lia.
  - cbn. lia.
  - exists p'. split; [exact Hu|exact Hv].
Defined.

(** C4: comparing a record with an unpacked key is the field-by-field order:
    the first field that differs decides, inverted for a DESC column.  When the
    fields of one run out, the flags of the key decide, and without flags the
    result is 1 if the record has fields left and 0 if it has none, also when
    the unpacked key is the longer. *)
Theorem sqlite3VdbeRecordCompare_correct oom ff p2 ms :
  Forall storable ms -> Z.of_nat (length ms) <= 32767 ->
  exists cs,
    map mem_value cs = map mem_value ms /\
    Forall (fun c => c.(enc) = p2.(pKeyInfo).(ki_enc)) cs /\
    option_map fst (sqlite3VdbeRecordCompare oom (Z.of_nat (length (record_bytes ff ms)))
                      (record_bytes ff ms) p2)
    = lex_compare oom p2 0 cs (take (Z.to_nat p2.(up_nField)) p2.(aMem)).
Proof.
  intros Hs Hn. destruct (record_layout ff ms Hs Hn) as (Hb & Hk & Hg & Hsz & Hd1 & Hd2 & Hl).
  destruct (compare_loop_lex oom p2 ff (record_bytes ff ms)
    (Z.of_nat (length (record_bytes ff ms))) (header_size (Z.of_nat (length (types ff ms)))) ms
    (take (Z.to_nat p2.(up_nField)) p2.(aMem))
    (sqlite3VarintLen (header_size (Z.of_nat (length (types ff ms)))))
    (header_size (Z.of_nat (length (types ff ms)))) 0) as (cs & Hcs & Hc); try done; try lia.
  { by rewrite Hd1, Hd2. }
  exists cs. unfold sqlite3VdbeRecordCompare. rewrite Hg. cbn [mbind option_bind].
  assert (map mem_value cs = map mem_value ms /\
          Forall (fun c => c.(enc) = p2.(pKeyInfo).(ki_enc)) cs) as [H1 H2].
  { clear -Hcs. induction Hcs as [|c m cs ms (Hv & He & _) _ [IH1 IH2]]; [by split|].
    cbn [map]. split; [by rewrite Hv, IH1|by constructor]. }
  split; [done|]. split; [done|]. exact Hc.
Qed.

(** (1, "ab") against (1, "b") with the second column descending. *)
Example sqlite3VdbeRecordCompare_correct_witness :
  exists cs, map mem_value cs = [VInt 1; VText [97; 98]] /\
    option_map fst (sqlite3VdbeRecordCompare false 6 (record_bytes 4 [int_cell 1; text_cell [97; 98]])
      (mkUnpacked witness_keyinfo 2 0 0 [int_cell 1; text_cell [98]]))
    = lex_compare false (mkUnpacked witness_keyinfo 2 0 0 [int_cell 1; text_cell [98]]) 0 cs
        [int_cell 1; text_cell [98]].
Proof.
  destruct (sqlite3VdbeRecordCompare_correct false 4
    (mkUnpacked witness_keyinfo 2 0 0 [int_cell 1; text_cell [98]])
    [int_cell 1; text_cell [97; 98]]) as (cs & Hv & _ & Hc).
  - repeat apply List.Forall_cons; [apply int_cell_storable|apply text_cell_storable|constructor];
      [unfold_int; lia|repeat constructor; unfold_int; lia|cbn; lia].
  - cbn. lia.
  - exists cs. split; [exact Hv|exact Hc].
Defined.

Lemma types_snoc ff ms m :
  types ff (ms ++ [m]) = types ff ms ++ putVarint32 (sqlite3VdbeSerialType m ff).
Proof. unfold types. rewrite map_app, concat_app. cbn. by rewrite app_nil_r. Qed.

Lemma payloads_snoc ff ms m : payloads ff (ms ++ [m]) = payloads ff ms ++ payload m ff.
Proof. unfold payloads. rewrite map_app, concat_app. cbn. by rewrite app_nil_r. Qed.

(** the rowid at the end of an index record is found without decoding the
    other fields. *)
Theorem sqlite3VdbeIdxRowid_correct ff ms i :
  Forall storable ms -> 1 <= Z.of_nat (length ms) <= 32766 -> is_i64 i ->
  Z.of_nat (length (record_bytes ff (ms ++ [int_cell i]))) < 2 ^ 31 ->
  sqlite3VdbeIdxRowid (record_bytes ff (ms ++ [int_cell i])) = Some (SQLITE_OK, i).
Proof.
  intros Hs Hn Hi Hlim. pose proof (int_cell_storable i Hi) as Hc.
  assert (Forall storable (ms ++ [int_cell i])) as Hall
    by (apply Forall_app; split; [done|by constructor]).
  destruct (record_layout ff (ms ++ [int_cell i]) Hall) as (Hb & Hk & Hg & Hsz & Hd1 & Hd2 & Hl);
    [rewrite length_app; cbn [length]; lia|].
  pose proof (types_length ff ms Hs) as Htl. pose proof (payload_length _ ff Hc) as Hpl.
  set (bs := record_bytes _ _) in *. set (szHdr := header_size _) in *.
  unfold sqlite3VdbeIdxRowid. rewrite Hg. cbn [mbind option_bind].
  set (t := sqlite3VdbeSerialType (int_cell i) ff) in *.
  assert (1 <= t <= 9 /\ t <> 7) as Ht.
  { destruct (serial_type_int_spec i ff Hi) as [[[E _]|[E _]]|(k & Hk' & _)];
      change t with (serial_type_int i ff); rewrite ?E; try lia.
    apply int_types_len in Hk'. lia. }
  assert (putVarint32 t = [t]) as Et.
  { unfold putVarint32. destruct (Z.ltb_spec t 0x80); [|lia].
    by rewrite wrap_u_small by (unfold_int; lia). }
  rewrite types_snoc in Hsz. fold t in Hsz. rewrite Et, length_app in Hsz. cbn [length] in Hsz.
  rewrite (wrap_s_small 32 szHdr) by (try lia; unfold_int; change (2 ^ 28) with 268435456 in *; lia).
  destruct (Z.ltb_spec szHdr 3); [lia|]. rewrite Z.gtb_ltb.
  destruct (Z.ltb_spec (Z.of_nat (length bs)) szHdr); [lia|]. cbn [orb].
  assert (drop (Z.to_nat (szHdr - 1)) bs = t :: payloads ff (ms ++ [int_cell i])) as Hdt.
  { replace (Z.to_nat (szHdr - 1))
      with (Z.to_nat (sqlite3VarintLen szHdr) + length (types ff ms))%nat by lia.
    rewrite <- drop_drop, Hd1, types_snoc. fold t. rewrite Et, <- app_assoc. apply drop_app_length. }
  rewrite Hdt. unfold getVarint32. change (rd (t :: ?l) 0) with (Some t). cbn [mbind option_bind].
  destruct (Z.ltb_spec t 0x80); [|lia]. cbn [mbind option_bind].
  destruct (Z.ltb_spec t 1), (Z.gtb_spec t 9), (Z.eqb_spec t 7); try lia. cbn [orb].
  rewrite payloads_snoc, length_app in Hl.
  rewrite wrap_u_small by (unfold_int; lia).
  destruct (Z.ltb_spec (Z.of_nat (length bs)) (szHdr + sqlite3VdbeSerialTypeLen t)); [lia|].
  assert (drop (Z.to_nat (Z.of_nat (length bs) - sqlite3VdbeSerialTypeLen t)) bs
          = payload (int_cell i) ff ++ []) as Hdp.
  { replace (Z.to_nat (Z.of_nat (length bs) - sqlite3VdbeSerialTypeLen t))
      with (Z.to_nat szHdr + length (payloads ff ms))%nat by lia.
    rewrite <- drop_drop, Hd2, payloads_snoc, app_nil_r. apply drop_app_length. }
  rewrite Hdp. destruct (serial_get (int_cell i) ff [] blank_cell Hc) as (m' & Hgm & Hv & _ & _).
  fold t in Hgm. rewrite Hgm. cbn [mbind option_bind].
  assert (u m' = i) as ->; [|done].
  unfold mem_value in Hv. change (has (flags (int_cell i)) MEM_Null) with false in Hv.
  change (has (flags (int_cell i)) MEM_Int) with true in Hv. cbn iota in Hv.
  repeat case_match; simplify_eq; done.
Qed.

Example sqlite3VdbeIdxRowid_correct_witness :
  sqlite3VdbeIdxRowid (record_bytes 4 ([text_cell [97; 98]] ++ [int_cell (-77)])) = Some (0, -77).
Proof.
  apply (sqlite3VdbeIdxRowid_correct 4 [text_cell [97; 98]] (-77)).
  - apply List.Forall_cons; [|constructor].
    apply text_cell_storable; [repeat constructor; unfold_int; lia|cbn; lia].
  - cbn. lia.
  - unfold_int; lia.
  - vm_compute. reflexivity.
Defined.
