(* ===== verification/IndexKey.v ===== *)
(** * Index keys of the LMDB back-end (src/lmdb-backend/src/btree.c)

    An index record ends with the rowid.  The back-end moves it out of the key
    into the data of the LMDB entry ([splitIndexKey]), puts it back when the
    record is read ([joinIndexKey]), and replaces long values by a prefix and
    a hash ([squashIndexKey]) so that keys stay below LMDB's limit. *)

From S2P Require Import Prelude Varint Ctype Ints Mem Serial.
From Stdlib Require Import Floats.SpecFloat.

(** ** Memory blocks *)

(** [memcpy(&buf[i], bs, len)], inside the buffer. *)
Definition write (buf : list Z) (i : Z) (bs : list Z) : option (list Z) :=
  let k := Z.to_nat i in
  if (0 <=? i) && (i + Z.of_nat (length bs) <=? Z.of_nat (length buf))
  then Some (take k buf ++ bs ++ drop (k + length bs) buf) else None.

(** [len] bytes at [&buf[i]]. *)
Definition read (buf : list Z) (i len : Z) : option (list Z) :=
  if (0 <=? i) && (0 <=? len) && (i + len <=? Z.of_nat (length buf))
  then Some (take (Z.to_nat len) (drop (Z.to_nat i) buf)) else None.

(** [key->mv_data] after the call, [key->mv_size] and [data->mv_size];
    [data->mv_data] is [&aKey[key->mv_size]]. *)
Definition splitIndexKey (aKey : list Z) (key_size : Z) : option (list Z * Z * Z) :=
  '(_, hdrSize) ← getVarint32 aKey;
  '(_, rowidType) ← getVarint32 (drop (Z.to_nat (u32 (hdrSize - 1))) aKey);
  let data_size := u32 (sqlite3VdbeSerialTypeLen rowidType + 1) in
  let key_size := key_size - data_size in
  moved ← read aKey hdrSize (key_size - (hdrSize - 1));
  aKey ← write aKey (hdrSize - 1) moved;
  aKey ← write aKey key_size (putVarint32 rowidType);
  aKey ← write aKey 0 (putVarint32 (hdrSize - 1));
  Some (aKey, key_size, data_size).

(** [pCur->index] as the size and contents of its allocation.  The code, and
    the buffer it leaves. *)
Definition joinIndexKey (oom : bool) (index : Z * list Z) (aKey aData : list Z) (amount : Z)
    : option (Z * (Z * list Z)) :=
  let '(isize, ibuf) := index in
  let grow := isize <? amount in
  if grow && oom then Some (SQLITE_NOMEM, (isize, []))
  else
    let isize := if grow then u32 (amount * 2) else isize in
    let newKey := if grow then replicate (Z.to_nat isize) 0 else ibuf in
    '(_, hdrSize) ← getVarint32 aKey;
    hdr ← read aKey 0 hdrSize;
    newKey ← write newKey 0 hdr;
    body ← read aKey hdrSize (Z.of_nat (length aKey) - hdrSize);
    newKey ← write newKey (hdrSize + 1) body;
    tl ← read aData 1 (Z.of_nat (length aData) - 1);
    newKey ← write newKey (Z.of_nat (length aKey) + 1) tl;
    d0 ← rd aData 0;
    newKey ← write newKey hdrSize [d0];
    newKey ← write newKey 0 (putVarint32 (hdrSize + 1));
    Some (SQLITE_OK, (isize, newKey)).

(** ** Squashing *)

(** Where the bytes of a text or blob are: in memory of its own, or at an
    offset of [key->mv_data], where unpacking leaves them. *)
Inductive place := Own | At (d : Z).

(** A cell as it is read now. *)
Definition current (buf : list Z) (cp : Mem * place) : Mem :=
  match cp.2 with Own => cp.1 | At d => set_z cp.1 (drop (Z.to_nat d) buf) end.

(** [len] bytes at [&pMem->z[i]], and a write there. *)
Definition z_read (buf : list Z) (cp : Mem * place) (i len : Z) : option (list Z) :=
  match cp.2 with Own => read cp.1.(z) i len | At d => read buf (d + i) len end.

Definition z_write (buf : list Z) (cp : Mem * place) (i : Z) (bs : list Z) : option (list Z * (Mem * place)) :=
  match cp.2 with
  | Own => z ← write cp.1.(z) i bs; Some (buf, (set_z cp.1 z, Own))
  | At d => buf ← write buf (d + i) bs; Some (buf, cp)
  end.

Section Squash.
(** [mdb_hash_val(&v, MDB_HASH_INIT)] as the eight bytes [memcpy] copies. *)
Variable mdb_hash_val : list Z -> list Z.

(** The first loop: the buffer, the cells and [changed].  The hash is written
    over the value's own bytes. *)
Fixpoint squash_loop (file_format : Z) (buf : list Z) (pun : list (Mem * place))
    : option (list Z * list (Mem * place) * bool) :=
  match pun with
  | [] => Some (buf, [], false)
  | cp :: pun =>
      let serial_type := sqlite3VdbeSerialType cp.1 file_format in
      if (serial_type >=? 12) && (cp.1.(n) >? 72) then
        v ← z_read buf cp 64 (cp.1.(n) - 64);
        '(buf, cp) ← z_write buf cp 64 (mdb_hash_val v);
        '(buf, pun, _) ← squash_loop file_format buf pun;
        Some (buf, (set_n cp.1 72, cp.2) :: pun, true)
      else
        '(buf, pun, changed) ← squash_loop file_format buf pun;
        Some (buf, cp :: pun, changed)
  end.

(** [for(...){ len += putVarint32(&zNewRecord[len], serial_type); }] *)
Fixpoint put_types (file_format len : Z) (buf : list Z) (pun : list (Mem * place)) : option (list Z * Z) :=
  match pun with
  | [] => Some (buf, len)
  | cp :: pun =>
      let bs := putVarint32 (sqlite3VdbeSerialType cp.1 file_format) in
      buf ← write buf len bs;
      put_types file_format (len + Z.of_nat (length bs)) buf pun
  end.

(** [for(...){ len += sqlite3VdbeSerialPut(&zNewRecord[len], nByte-len, ...); }]:
    a text is copied from where it is in the buffer, as [memmove] copies. *)
Fixpoint put_values (nByte file_format len : Z) (buf : list Z) (pun : list (Mem * place)) : option (list Z * Z) :=
  match pun with
  | [] => Some (buf, len)
  | cp :: pun =>
      _ ← (if sqlite3VdbeSerialType cp.1 file_format >=? 12 then z_read buf cp 0 cp.1.(n) else Some []);
      let bs := sqlite3VdbeSerialPut (i32 (nByte - len)) (current buf cp) file_format in
      buf ← write buf len bs;
      put_values nByte file_format (len + Z.of_nat (length bs)) buf pun
  end.

(** The key rewritten in its own buffer, and its new size. *)
Definition squash_record (file_format : Z) (buf : list Z) (pun : list (Mem * place)) : option (list Z * Z) :=
  let nData := fold_left (fun a cp => a + sqlite3VdbeSerialTypeLen (sqlite3VdbeSerialType cp.1 file_format)) pun 0 in
  let nHdr := fold_left (fun a cp => a + sqlite3VarintLen (sqlite3VdbeSerialType cp.1 file_format)) pun 0 in
  let nHdr := header_size nHdr in
  let nByte := nHdr + nData in
  let bs := putVarint32 nHdr in
  buf ← write buf 0 bs;
  '(buf, len) ← put_types file_format (Z.of_nat (length bs)) buf pun;
  put_values nByte file_format len buf pun.

(** [key] is [key->mv_data] and [key->mv_size], [None] for the NULL [key]. *)
Definition squashIndexKey (file_format : Z) (pun : list (Mem * place)) (key : option (list Z * Z))
    : option (list (Mem * place) * option (list Z * Z)) :=
  '(buf, pun, changed) ← squash_loop file_format (match key with Some (buf, _) => buf | None => [] end) pun;
  match key with
  | None => Some (pun, None)
  | Some (_, size) =>
      if (changed : bool) then
        '(buf, len) ← squash_record file_format buf pun;
        Some (pun, Some (buf, len))
      else Some (pun, Some (buf, size))
  end.

(** The [pMem->z] of the cells [sqlite3VdbeRecordUnpack] fills. *)
Fixpoint unpack_places (todo : nat) (nKey szHdr : Z) (aKey : list Z) (idx d : Z) : option (list place) :=
  match todo with
  | O => Some []
  | S todo =>
      if (idx <? szHdr) && (d <=? nKey) then
        '(sz, serial_type) ← getVarint32 (drop (Z.to_nat idx) aKey);
        ps ← unpack_places todo nKey szHdr aKey (idx + sz) (d + sqlite3VdbeSerialTypeLen serial_type);
        Some ((if serial_type >=? 12 then At d else Own) :: ps)
      else Some []
  end.

(** The key and data that [sqlite3BtreeInsert] gives LMDB for an index record,
    and the unpacked key as the comparisons of LMDB read it: its texts are
    still looked for where they were before the key was rewritten. *)
Definition index_key (file_format : Z) (ki : KeyInfo) (p : UnpackedRecord) (aKey : list Z) (nKey : Z)
    : option (list Z * list Z * UnpackedRecord) :=
  '(aKey, key_size, data_size) ← splitIndexKey aKey nKey;
  p ← sqlite3VdbeRecordUnpack ki nKey aKey p;
  '(idx, szHdr) ← getVarint32 aKey;
  ps ← unpack_places (length p.(aMem)) nKey szHdr aKey idx szHdr;
  '(pun, key) ← squashIndexKey file_format (zip p.(aMem) ps) (Some (aKey, key_size));
  '(aKey, size) ← key;
  key ← read aKey 0 size;
  data ← read aKey key_size data_size;
  Some (key, data, mkUnpacked p.(pKeyInfo) p.(up_nField) p.(up_flags) p.(rowid) (map (current aKey) pun)).
End Squash.

(** ** Blocks *)

Lemma write_app (a b b' c : list Z) i :
  i = Z.of_nat (length a) -> length b' = length b ->
  write (a ++ b ++ c) i b' = Some (a ++ b' ++ c).
Proof.
  intros -> Hl. unfold write. rewrite !length_app, Hl, Nat2Z.id.
  destruct (Z.leb_spec 0 (Z.of_nat (length a))); [|lia].
  destruct (Z.leb_spec (Z.of_nat (length a) + Z.of_nat (length b))
              (Z.of_nat (length a + (length b + length c)))); [|lia]. cbn [andb].
  rewrite take_app_length. do 3 f_equal.
  rewrite app_assoc, <- length_app. apply drop_app_length.
Qed.

(** A write at the front of a gap. *)
Lemma write_gap (a gap y bs : list Z) i :
  i = Z.of_nat (length a) -> (length bs <= length gap)%nat ->
  write (a ++ gap ++ y) i bs = Some ((a ++ bs) ++ drop (length bs) gap ++ y).
Proof.
  intros Hi Hl. rewrite <- (take_drop (length bs) gap) at 1. rewrite <- !app_assoc.
  by apply write_app; [|rewrite length_take; lia].
Qed.

Lemma read_app (a b c : list Z) i len :
  i = Z.of_nat (length a) -> len = Z.of_nat (length b) -> read (a ++ b ++ c) i len = Some b.
Proof.
  intros -> ->. unfold read. rewrite !length_app, !Nat2Z.id.
  destruct (Z.leb_spec 0 (Z.of_nat (length a))); [|lia].
  destruct (Z.leb_spec 0 (Z.of_nat (length b))); [|lia].
  destruct (Z.leb_spec (Z.of_nat (length a) + Z.of_nat (length b))
              (Z.of_nat (length a + (length b + length c)))); [|lia]. cbn [andb].
  by rewrite drop_app_length, take_app_length.
Qed.

Lemma read_app_end (a b : list Z) i len :
  i = Z.of_nat (length a) -> len = Z.of_nat (length b) -> read (a ++ b) i len = Some b.
Proof. intros. rewrite <- (app_nil_r b) at 1. by apply read_app. Qed.

(** Cut a buffer at given sizes. *)
Lemma cut_at (l : list Z) k :
  0 <= k <= Z.of_nat (length l) ->
  exists a b, l = a ++ b /\ Z.of_nat (length a) = k.
Proof.
  intros Hk. exists (take (Z.to_nat k) l), (drop (Z.to_nat k) l).
  rewrite take_drop, length_take. split; [done|lia].
Qed.

(** ** Headers one field shorter *)

(** A header size written in as many bytes as it was counted with. *)
Definition header_ok (H : Z) (types : list Z) : Prop :=
  H = sqlite3VarintLen H + Z.of_nat (length types) /\ 0 <= H < 2 ^ 28.

Lemma varint_len_cases v :
  0 <= v < 268435456 ->
  (sqlite3VarintLen v = 1 /\ v < 128) \/ (sqlite3VarintLen v = 2 /\ 128 <= v < 16384) \/
  (sqlite3VarintLen v = 3 /\ 16384 <= v < 2097152) \/ (sqlite3VarintLen v = 4 /\ 2097152 <= v).
Proof.
  intros Hv. rewrite varint_len_small by (change (2 ^ 28) with 268435456; lia).
  destruct (Z.ltb_spec v 128), (Z.ltb_spec v 16384), (Z.ltb_spec v 2097152); lia.
Qed.

Lemma varint_len_two v : 128 <= v -> 2 <= sqlite3VarintLen v.
Proof.
  intros Hv. assert (Hlt : forall f i w, i < varint_len_loop (S f) i w).
  { induction f as [|f IH]; intros i w; cbn [varint_len_loop] in *; (destruct (_ && _); [|lia]); [lia|].
    specialize (IH (i + 1) (Z.shiftr w 7)). lia. }
  unfold sqlite3VarintLen. cbn [varint_len_loop]. rewrite shiftr_7.
  destruct (Z.eqb_spec (v / 128) 0); [zlia|]. cbn [negb andb]. change (0 + 1 <? 9) with true. cbv iota.
  specialize (Hlt 8%nat (0 + 1) (v / 128)). cbn [varint_len_loop] in Hlt. lia.
Qed.

(** Taking one type byte away from a header OP_MakeRecord builds does not
    change the width of its size field. *)
Lemma header_size_pred h :
  1 <= h < 2 ^ 27 ->
  sqlite3VarintLen (header_size h - 1) = sqlite3VarintLen (header_size h).
Proof.
  intros Hh. change (2 ^ 27) with 134217728 in Hh.
  destruct (header_size_spec h) as [Hs Hr]; [change (2 ^ 27) with 134217728; lia|].
  change (2 ^ 28) with 268435456 in Hr. revert Hs. unfold header_size.
  pose proof (varint_len_cases h ltac:(lia)) as C0.
  pose proof (varint_len_cases (h + sqlite3VarintLen h) ltac:(lia)) as C1.
  destruct (Z.ltb_spec (sqlite3VarintLen h) (sqlite3VarintLen (h + sqlite3VarintLen h))).
  - pose proof (varint_len_cases (h + sqlite3VarintLen h + 1) ltac:(lia)).
    replace (h + sqlite3VarintLen h + 1 - 1) with (h + sqlite3VarintLen h) by lia. lia.
  - pose proof (varint_len_cases (h + sqlite3VarintLen h - 1) ltac:(lia)). lia.
Qed.

(** The header of smaller serial types fits over the old one. *)
Lemma header_size_le h H types :
  header_ok H types -> 0 <= h <= Z.of_nat (length types) -> header_size h <= H.
Proof.
  intros [HH Hr] Hh. change (2 ^ 28) with 268435456 in Hr. unfold header_size.
  pose proof (varint_len_range H ltac:(lia)).
  pose proof (varint_len_cases h ltac:(lia)) as C0. pose proof (varint_len_cases H ltac:(lia)) as C1.
  assert (Hlt : h + sqlite3VarintLen h <= H) by lia.
  pose proof (varint_len_cases (h + sqlite3VarintLen h) ltac:(lia)) as C2.
  destruct (Z.ltb_spec (sqlite3VarintLen h) (sqlite3VarintLen (h + sqlite3VarintLen h))); lia.
Qed.

(** ** Splitting *)

Section Split.
Context (ff i : Z) (ms : list Mem).
Hypothesis Hs : Forall storable ms.
Hypothesis Hn : Z.of_nat (length ms) <= 32766.
Hypothesis Hi : is_i64 i.

Let row : list Mem := ms ++ [int_cell i].
Let H : Z := header_size (Z.of_nat (length (types ff row))).
Let t : Z := sqlite3VdbeSerialType (int_cell i) ff.
Let key : list Z := putVarint32 (H - 1) ++ types ff ms ++ payloads ff ms.
Let data : list Z := t :: payload (int_cell i) ff.

Lemma rowid_type : 1 <= t <= 9 /\ putVarint32 t = [t].
Proof.
  assert (1 <= t <= 9) as Ht.
  { destruct (serial_type_int_spec i ff Hi) as [[[E _]|[E _]]|(k & Hk' & _)];
      change t with (serial_type_int i ff); rewrite ?E; try lia.
    apply int_types_len in Hk'. lia. }
  split; [done|]. unfold putVarint32. destruct (Z.ltb_spec t 0x80); [|lia].
  by rewrite wrap_u_small by (unfold_int; lia).
Qed.

Lemma row_storable : Forall storable row.
Proof. apply Forall_app. split; [done|]. constructor; [by apply int_cell_storable|constructor]. Qed.

Lemma types_row : types ff row = types ff ms ++ [t].
Proof. unfold row. rewrite types_snoc. fold t. by rewrite (proj2 rowid_type). Qed.

Lemma types_row_range : 1 <= Z.of_nat (length (types ff row)) < 2 ^ 27.
Proof.
  pose proof (types_length ff row row_storable) as Hl. unfold row in *.
  rewrite length_app in Hl. cbn [length] in Hl. change (2 ^ 27) with 134217728. lia.
Qed.

(** The sizes before and after. *)
Lemma split_sizes :
  H = sqlite3VarintLen H + Z.of_nat (length (types ff ms)) + 1 /\
  sqlite3VarintLen (H - 1) = sqlite3VarintLen H /\ 1 <= sqlite3VarintLen H <= 9 /\
  0 <= H < 2 ^ 28 /\ header_ok (H - 1) (types ff ms).
Proof.
  pose proof types_row_range as Hr.
  destruct (header_size_spec (Z.of_nat (length (types ff row)))) as [Hsz Hlt]; [lia|].
  fold H in Hsz, Hlt. change (2 ^ 28) with 268435456 in *.
  pose proof (header_size_pred _ Hr) as Hp. fold H in Hp.
  pose proof (varint_len_range H ltac:(lia)). rewrite types_row, length_app in Hsz.
  cbn [length] in Hsz. unfold header_ok. change (2 ^ 28) with 268435456. rewrite Hp. lia.
Qed.

Lemma key_layout :
  bytes_ok key /\ getVarint32 key = Some (sqlite3VarintLen H, H - 1) /\
  drop (Z.to_nat (sqlite3VarintLen H)) key = types ff ms ++ payloads ff ms /\
  drop (Z.to_nat (H - 1)) key = payloads ff ms /\
  Z.of_nat (length key) = H - 1 + Z.of_nat (length (payloads ff ms)).
Proof.
  destruct split_sizes as (HH & Hp & Hk & Hr & _). change (2 ^ 28) with 268435456 in Hr.
  destruct (varint32_read (H - 1) (types ff ms ++ payloads ff ms)) as (Hl & Hb & Hg); [lia| |].
  { apply bytes_ok_app. eauto using types_bytes, payloads_bytes. }
  rewrite Hp in *. unfold key.
  split; [apply bytes_ok_app; split; [done|apply bytes_ok_app; eauto using types_bytes, payloads_bytes]|].
  split; [done|]. split; [rewrite <- Hl, Nat2Z.id; apply drop_app_length|].
  split; [|rewrite !length_app; lia].
  rewrite app_assoc. replace (Z.to_nat (H - 1)) with (length (putVarint32 (H - 1) ++ types ff ms))
    by (rewrite length_app; lia). apply drop_app_length.
Qed.

Lemma record_split_eq : record_bytes ff row = putVarint32 H ++ (types ff ms ++ [t]) ++ payloads ff ms ++ payload (int_cell i) ff.
Proof. unfold record_bytes. fold H. rewrite types_row. unfold row. by rewrite payloads_snoc. Qed.

Lemma split_length : (length (record_bytes ff row) = length key + length data)%nat.
Proof.
  destruct split_sizes as (_ & Hp & _ & Hr & _). change (2 ^ 28) with 268435456 in Hr.
  pose proof types_row_range as Htr. destruct (header_size_spec (Z.of_nat (length (types ff row)))) as [_ Hlt]; [lia|]. fold H in Hlt.
  destruct (varint32_read H []) as (HlH & _ & _); [lia|constructor|].
  destruct (varint32_read (H - 1) []) as (HlH1 & _ & _); [lia|constructor|].
  rewrite record_split_eq. unfold key, data. rewrite !length_app. cbn [length]. lia.
Qed.

Lemma split_spec :
  Z.of_nat (length (record_bytes ff row)) < 2 ^ 31 ->
  splitIndexKey (record_bytes ff row) (Z.of_nat (length (record_bytes ff row)))
  = Some (key ++ data, Z.of_nat (length key), Z.of_nat (length data)).
Proof.
  intros Hlim. destruct (record_layout ff row row_storable) as (Hb & _ & Hg & Hsz & _ & _ & Hl).
  { unfold row. rewrite length_app. cbn [length]. lia. }
  fold H in Hg, Hsz, Hl. destruct split_sizes as (HH & Hp & Hk & Hr & _).
  change (2 ^ 28) with 268435456 in Hr. destruct rowid_type as [Ht Etv].
  pose proof (payload_length (int_cell i) ff (int_cell_storable i Hi)) as Hpl. fold t in Hpl.
  destruct (varint32_read H [] ltac:(lia)) as (HlH & _ & _); [constructor|].
  destruct (varint32_read (H - 1) [] ltac:(lia)) as (HlH1 & _ & _); [constructor|].
  rewrite Hp in HlH1. destruct key_layout as (_ & _ & _ & _ & Hkl).
  unfold row in Hl. rewrite payloads_snoc, length_app in Hl. fold row in Hl.
  unfold splitIndexKey. rewrite Hg. cbn [mbind option_bind].
  rewrite (wrap_u_small 32 (H - 1)) by (unfold_int; lia).
  rewrite record_split_eq in *. set (P := payloads ff ms) in *. set (R := payload _ ff) in *.
  assert (drop (Z.to_nat (H - 1)) (putVarint32 H ++ (types ff ms ++ [t]) ++ P ++ R) = t :: P ++ R) as ->.
  { rewrite <- app_assoc, app_assoc.
    replace (Z.to_nat (H - 1)) with (length (putVarint32 H ++ types ff ms)) by (rewrite length_app; lia).
    apply drop_app_length. }
  unfold getVarint32 at 1. change (rd (t :: ?l) 0) with (Some t). cbn [mbind option_bind].
  destruct (Z.ltb_spec t 0x80); [|lia]. cbn [mbind option_bind].
  rewrite (wrap_u_small 32) by (unfold_int; lia).
  replace (Z.of_nat (length (putVarint32 H ++ (types ff ms ++ [t]) ++ P ++ R)) - (sqlite3VdbeSerialTypeLen t + 1))
    with (Z.of_nat (length key)) by lia.
  rewrite app_assoc. rewrite (read_app _ P R) by (rewrite ?length_app; cbn [length]; lia).
  cbn [mbind option_bind].
  (* the memmove *)
  assert (exists Q x, [t] ++ P = Q ++ [x] /\ length Q = length P) as (Q & x & EQ & HQ).
  { destruct (exists_last (l := [t] ++ P)) as (Q & x & E); [done|]. exists Q, x. split; [done|].
    apply (f_equal length) in E. rewrite !length_app in E. cbn in E. lia. }
  replace ((putVarint32 H ++ types ff ms ++ [t]) ++ P ++ R)
    with ((putVarint32 H ++ types ff ms) ++ Q ++ [x] ++ R)
    by (rewrite (app_assoc Q), <- EQ, <- !app_assoc; done).
  rewrite (write_app _ Q P) by (rewrite ?length_app; lia). cbn [mbind option_bind].
  rewrite (app_assoc _ P), Etv. rewrite (write_app _ [x] [t])
    by (try done; rewrite !length_app; lia). cbn [mbind option_bind].
  rewrite <- !app_assoc.
  assert (write (putVarint32 H ++ types ff ms ++ P ++ [t] ++ R) 0 (putVarint32 (H - 1))
          = Some (putVarint32 (H - 1) ++ types ff ms ++ P ++ [t] ++ R)) as ->
    by (apply (write_app []); [done|lia]).
  cbn [mbind option_bind].
  unfold data. cbn [length]. unfold key. rewrite <- !app_assoc. cbn [app]. do 3 f_equal. lia.
Qed.
End Split.

(** ** Joining *)

(** Rebuilding the record from a key whose header can grow by one byte in
    place. *)
Lemma join_spec H ty P t R index :
  header_ok H ty -> sqlite3VarintLen (H + 1) = sqlite3VarintLen H ->
  bytes_ok ty -> bytes_ok P -> 1 <= H -> H + 1 < 2 ^ 28 ->
  let key := putVarint32 H ++ ty ++ P in
  let data := t :: R in
  let amount := Z.of_nat (length key) + Z.of_nat (length data) in
  amount < 2 ^ 31 -> fst index = Z.of_nat (length (snd index)) ->
  exists isize buf,
    joinIndexKey false index key data amount = Some (SQLITE_OK, (isize, buf)) /\
    isize = Z.of_nat (length buf) /\
    take (Z.to_nat amount) buf = putVarint32 (H + 1) ++ ty ++ [t] ++ P ++ R.
Proof.
  intros [HH HHr] Hw Hty HP H1 H28 key data amount Hlim Hidx. destruct index as [isize ibuf].
  cbn [fst snd] in Hidx. change (2 ^ 28) with 268435456 in *. change (2 ^ 31) with 2147483648 in *.
  destruct (varint32_read H (ty ++ P)) as (HlH & _ & Hg); [lia|by apply bytes_ok_app|].
  destruct (varint32_read (H + 1) []) as (HlH1 & _ & _); [lia|constructor|]. rewrite Hw in HlH1.
  assert (amount = H + Z.of_nat (length P) + 1 + Z.of_nat (length R)) as Ea.
  { unfold amount, key, data. rewrite !length_app. cbn [length]. lia. }
  unfold joinIndexKey. rewrite andb_false_r.
  set (isz := if isize <? amount then u32 (amount * 2) else isize).
  set (buf := if isize <? amount then replicate (Z.to_nat isz) 0 else ibuf).
  assert (isz = Z.of_nat (length buf) /\ amount <= isz) as [Eb Hb].
  { unfold buf, isz. destruct (Z.ltb_spec isize amount); [|lia].
    rewrite length_replicate, wrap_u_small by (unfold_int; lia). lia. }
  clearbody isz buf. clear Hidx isize ibuf.
  destruct (cut_at buf H) as (a & b & -> & Hla); [lia|]. rewrite length_app in Eb.
  destruct (cut_at b 1) as (x & b1 & -> & Hlx); [lia|]. rewrite length_app in Eb.
  destruct (cut_at b1 (Z.of_nat (length P))) as (p & b2 & -> & Hlp); [lia|]. rewrite length_app in Eb.
  destruct (cut_at b2 (Z.of_nat (length R))) as (r & rest & -> & Hlr); [lia|]. rewrite length_app in Eb.
  rewrite (Hg : getVarint32 key = _). cbn [mbind option_bind].
  assert (read key 0 H = Some (putVarint32 H ++ ty)) as ->.
  { unfold key. rewrite app_assoc. apply (read_app [] (putVarint32 H ++ ty) P); [done|].
    rewrite length_app. lia. }
  cbn [mbind option_bind].
  assert (write (a ++ x ++ p ++ r ++ rest) 0 (putVarint32 H ++ ty)
          = Some ((putVarint32 H ++ ty) ++ x ++ p ++ r ++ rest)) as ->
    by (apply (write_app []); [done|rewrite length_app; lia]).
  cbn [mbind option_bind].
  assert (read key H (Z.of_nat (length key) - H) = Some P) as ->.
  { unfold key. rewrite app_assoc. apply read_app_end; rewrite ?length_app; lia. }
  cbn [mbind option_bind]. rewrite (app_assoc _ x).
  rewrite (write_app _ p P) by (rewrite ?length_app; lia). cbn [mbind option_bind].
  assert (read data 1 (Z.of_nat (length data) - 1) = Some R) as ->.
  { unfold data. apply (read_app_end [t]); cbn [length]; lia. }
  cbn [mbind option_bind]. rewrite (app_assoc _ P).
  assert (Z.of_nat (length key) = H + Z.of_nat (length P)) as Ek
    by (unfold key; rewrite !length_app; lia).
  rewrite (write_app _ r R) by (rewrite ?length_app; lia). cbn [mbind option_bind].
  change (rd data 0) with (Some t). cbn [mbind option_bind].
  rewrite <- !app_assoc, (app_assoc (putVarint32 H)).
  rewrite (write_app _ x [t]) by (rewrite ?length_app; cbn [length]; lia). cbn [mbind option_bind].
  rewrite <- app_assoc.
  assert (write (putVarint32 H ++ ty ++ [t] ++ P ++ R ++ rest) 0 (putVarint32 (H + 1))
          = Some (putVarint32 (H + 1) ++ ty ++ [t] ++ P ++ R ++ rest)) as ->
    by (apply (write_app []); [done|lia]).
  cbn [mbind option_bind]. do 2 eexists. split; [reflexivity|].
  split; [rewrite !length_app; cbn [length]; lia|].
  assert (Z.to_nat amount = length (putVarint32 (H + 1) ++ ty ++ [t] ++ P ++ R)) as ->
    by (rewrite !length_app; cbn [length]; lia).
  replace (putVarint32 (H + 1) ++ ty ++ [t] ++ P ++ R ++ rest)
    with ((putVarint32 (H + 1) ++ ty ++ [t] ++ P ++ R) ++ rest) by (by rewrite <- !app_assoc).
  apply take_app_length.
Qed.

(** ** The squashed key *)

Section SquashLemmas.
Variable mdb_hash_val : list Z -> list Z.
(** [mdb_hash_t] is a 64-bit integer. *)
Hypothesis hash_bytes : forall bs, length (mdb_hash_val bs) = 8%nat /\ bytes_ok (mdb_hash_val bs).

(** A long value becomes its first 64 bytes and the hash of the others. *)
Definition squash_bytes (bs : list Z) : list Z :=
  if Z.of_nat (length bs) >? 72 then take 64 bs ++ mdb_hash_val (drop 64 bs) else bs.

Definition squash_value (v : value) : value :=
  match v with
  | VText bs => VText (squash_bytes bs)
  | VBlob bs => VBlob (squash_bytes bs)
  | v => v
  end.

(** Cells of an unpacked key: no zero-filled tail. *)
Definition key_cell (m : Mem) : Prop := storable m /\ has m.(flags) MEM_Zero = false.

Lemma squash_bytes_length bs : (length (squash_bytes bs) <= 72)%nat.
Proof.
  unfold squash_bytes. destruct (Z.gtb_spec (Z.of_nat (length bs)) 72); [|lia].
  rewrite length_app, length_take. destruct (hash_bytes (drop 64 bs)) as [-> _]. lia.
Qed.

(** A cell with its value squashed, in memory of its own. *)
Definition long (ff : Z) (m : Mem) : bool := (sqlite3VdbeSerialType m ff >=? 12) && (m.(n) >? 72).

Definition squashed (ff : Z) (m : Mem) : Mem :=
  if long ff m then
    let h := mdb_hash_val (take (Z.to_nat (m.(n) - 64)) (drop 64 m.(z))) in
    set_n (set_z m (take 64 m.(z) ++ h ++ drop (64 + length h) m.(z))) 72
  else m.

Lemma squashed_spec ff m :
  key_cell m ->
  let m' := squashed ff m in
  key_cell m' /\ mem_value m' = squash_value (mem_value m) /\
  Z.of_nat (length (payload m' ff)) <= 72.
Proof.
  intros [Hs Hz]. cbn zeta. pose proof (payload_length m ff Hs) as Hpl. unfold squashed, long.
  destruct (is_text_cases m) as [E|[(E1 & E2)|[(E1 & E2 & E3)|(E1 & E2 & E3 & E)]]].
  1,2,3: assert (sqlite3VdbeSerialTypeLen (sqlite3VdbeSerialType m ff) <= 8 /\
      sqlite3VdbeSerialType m ff < 12) as [Hl Ht].
  { unfold sqlite3VdbeSerialType. rewrite E. done. }
  2: { unfold sqlite3VdbeSerialType. rewrite E1, E2.
       destruct (serial_type_int_spec (u m) ff) as [[[-> _]|[-> _]]|(k & Hk & _)]; [apply Hs|done|done|].
       apply int_types_len in Hk as (-> & ? & ?). lia. }
  3: { unfold sqlite3VdbeSerialType. rewrite E1, E2, E3. done. }
  1,2,3: destruct (Z.geb_spec (sqlite3VdbeSerialType m ff) 12); [lia|]; cbn [andb fst];
    (split; [done|]; split; [|lia]); unfold mem_value; by rewrite ?E, ?E1, ?E2, ?E3.
  destruct (serial_type_text m ff Hs E) as (Et & _ & El).
  pose proof Hs as (Hi & Hr & Hnan & _ & HT). destruct (HT E) as (Hn & Hb & Hlim).
  assert (tail_zeros m = []) as Etz by (unfold tail_zeros; by rewrite Hz).
  rewrite Hz, Etz, app_nil_r, Z.add_0_r in *.
  destruct (Z.geb_spec (sqlite3VdbeSerialType m ff) 12) as [_|Hlt];
    [|destruct (has (flags m) MEM_Str); lia].
  cbn [andb]. destruct (Z.gtb_spec (n m) 72) as [H72|H72]; cbn [fst].
  - set (h := mdb_hash_val _). destruct (hash_bytes (take (Z.to_nat (n m - 64)) (drop 64 (z m)))) as [Hh Hhb].
    fold h in Hh, Hhb. set (m' := set_n _ 72).
    assert (content m' = squash_bytes (content m)) as Ec.
    { unfold squash_bytes. destruct (Z.gtb_spec (Z.of_nat (length (content m))) 72); [|lia].
      unfold content at 1. cbn [m' n z set_n set_z]. rewrite app_assoc.
      replace (Z.to_nat 72) with (length (take 64 (z m) ++ h))
        by (rewrite length_app, length_take, Hh; lia).
      rewrite take_app_length. unfold content. rewrite take_take.
      replace (64 `min` Z.to_nat (n m))%nat with 64%nat by lia. f_equal.
      unfold h. f_equal. rewrite skipn_firstn_comm. f_equal. lia. }
    assert (Z.of_nat (length (content m')) <= 72) as Hl72
      by (rewrite Ec; pose proof (squash_bytes_length (content m)); lia).
    assert (tail_zeros m' = []) as Etz' by (unfold tail_zeros; cbn [m' flags set_n set_z]; by rewrite Hz).
    split; [split; [|exact Hz]|split].
    + split; [exact Hi|]. split; [exact Hr|]. split; [exact Hnan|].
      split; [intros Hz'; cbn [m' flags set_n set_z] in Hz'; congruence|]. intros _.
      rewrite Etz', app_nil_r. cbn [m' n z set_n set_z]. rewrite !length_app, length_take, length_drop, Hh.
      split; [lia|]. split; [|lia]. repeat (apply bytes_ok_app; split); try done.
      * by apply Forall_take. * by apply bytes_ok_drop.
    + unfold mem_value. rewrite Etz, Etz'. cbn [m' flags set_n set_z]. rewrite E1, E2, E3, !app_nil_r, Ec.
      by destruct (has (flags m) MEM_Str).
    + unfold payload. rewrite Etz'. cbn [m' flags set_n set_z]. by rewrite E1, E2, E3, app_nil_r.
  - split; [done|]. split.
    + unfold mem_value. rewrite E1, E2, E3, Etz, app_nil_r.
      assert (squash_bytes (content m) = content m) as Esq.
      { unfold squash_bytes. destruct (Z.gtb_spec (Z.of_nat (length (content m))) 72); [lia|done]. }
      destruct (has (flags m) MEM_Str); cbn [squash_value]; by rewrite Esq.
    + unfold payload. rewrite E1, E2, E3, Etz, app_nil_r. lia.
Qed.


(** ** Cells of an unpacked key and the bytes they stand for *)

(** The type of a text or blob without a zero-filled tail. *)
Lemma text_type ff m :
  is_text m = true -> has m.(flags) MEM_Zero = false -> 0 <= m.(n) <= 1000000000 ->
  sqlite3VdbeSerialType m ff = m.(n) * 2 + 12 + (if has m.(flags) MEM_Str then 1 else 0).
Proof.
  unfold is_text, sqlite3VdbeSerialType. intros Ht -> Hn.
  destruct (has (flags m) MEM_Null), (has (flags m) MEM_Int), (has (flags m) MEM_Real); try done.
  rewrite wrap_u_small; destruct (has (flags m) MEM_Str); unfold_int; lia.
Qed.

Lemma number_type ff m : storable m -> is_text m = false -> sqlite3VdbeSerialType m ff < 12.
Proof.
  intros Hs Ht. unfold sqlite3VdbeSerialType.
  destruct (is_text_cases m) as [E|[(E1 & E2)|[(E1 & E2 & E3)|(_ & _ & _ & E)]]]; [by rewrite E| | |congruence].
  - rewrite E1, E2. destruct (serial_type_int_spec (u m) ff) as [[[-> _]|[-> _]]|(k & Hk & _)]; [apply Hs|done|done|].
    apply int_types_len in Hk. lia.
  - by rewrite E1, E2, E3.
Qed.

(** The bytes of a text of an unpacked key. *)
Lemma key_text ff m :
  key_cell m -> is_text m = true ->
  payload m ff = content m /\ m.(n) = Z.of_nat (length (payload m ff)) /\ m.(n) <= 1000000000.
Proof.
  intros [Hs Hz] Ht. destruct (serial_type_text m ff Hs Ht) as (_ & _ & El).
  pose proof Hs as (_ & _ & _ & _ & HT). destruct (HT Ht) as (Hn & _ & Hlim).
  assert (Hp : payload m ff = content m).
  { unfold payload, is_text, tail_zeros in *. rewrite Hz.
    destruct (has (flags m) MEM_Null), (has (flags m) MEM_Int), (has (flags m) MEM_Real); try done. apply app_nil_r. }
  unfold tail_zeros in *. rewrite Hz, app_nil_r in *. rewrite Hp. split_and!; [done|lia|lia].
Qed.

(** Cells with the same value are stored alike. *)
Lemma value_stored ff a b :
  storable a -> storable b -> mem_value a = mem_value b ->
  is_text a = is_text b /\ sqlite3VdbeSerialType a ff = sqlite3VdbeSerialType b ff /\ payload a ff = payload b ff.
Proof.
  intros Ha Hb E.
  destruct (is_text_cases a) as [A|[(A1 & A2)|[(A1 & A2 & A3)|(A1 & A2 & A3 & A4)]]],
    (is_text_cases b) as [B|[(B1 & B2)|[(B1 & B2 & B3)|(B1 & B2 & B3 & B4)]]];
    unfold mem_value in E; rewrite ?A, ?A1, ?A2, ?A3, ?B, ?B1, ?B2, ?B3 in E; try done;
    try (by destruct (has _ MEM_Str)); try (by injection E).
  - unfold is_text, sqlite3VdbeSerialType, payload. by rewrite A, B.
  - injection E as E. unfold is_text, payload, sqlite3VdbeSerialType. by rewrite A1, A2, B1, B2, E.
  - injection E as E. unfold is_text, payload, sqlite3VdbeSerialType. by rewrite A1, A2, A3, B1, B2, B3, E.
  - destruct (serial_type_text a ff Ha A4) as (-> & _ & _), (serial_type_text b ff Hb B4) as (-> & _ & _).
    unfold payload. rewrite A1, A2, A3, A4, B1, B2, B3, B4.
    by destruct (has (flags a) MEM_Str), (has (flags b) MEM_Str); try done; injection E as ->.
Qed.

(** A cell [cp] of an unpacked key whose bytes, for a text, are the first of
    the segment [s] at [d], and stand for those of the cell [m]. *)
Definition holds (ff d : Z) (cp : Mem * place) (m : Mem) (s : list Z) : Prop :=
  key_cell m /\ Z.of_nat (length (payload m ff)) <= Z.of_nat (length s) /\
  sqlite3VdbeSerialType cp.1 ff = sqlite3VdbeSerialType m ff /\
  match cp.2 with
  | Own => is_text m = false /\ storable cp.1 /\ payload cp.1 ff = payload m ff
  | At a => a = d /\ is_text m = true /\ is_text cp.1 = true /\ has cp.1.(flags) MEM_Zero = false /\
            has cp.1.(flags) MEM_Str = has m.(flags) MEM_Str /\ cp.1.(n) = m.(n) /\
            take (length (payload m ff)) s = payload m ff
  end.

Fixpoint placed (ff d : Z) (cells : list (Mem * place)) (ms : list Mem) (segs : list (list Z)) : Prop :=
  match cells, ms, segs with
  | [], [], [] => True
  | cp :: cells, m :: ms, s :: segs =>
      holds ff d cp m s /\ placed ff (d + Z.of_nat (length s)) cells ms segs
  | _, _, _ => False
  end.

Lemma text_ge ff m : key_cell m -> (sqlite3VdbeSerialType m ff >=? 12) = is_text m.
Proof.
  intros Hk. rewrite Z.geb_leb. destruct (is_text m) eqn:Ht.
  - destruct (key_text ff m Hk Ht) as (_ & Hn & Hl). rewrite text_type; [|done|apply Hk|lia].
    apply Z.leb_le. destruct (has _ MEM_Str); lia.
  - apply Z.leb_gt. apply number_type; [apply Hk|done].
Qed.

(** What the last loop writes for a cell. *)
Lemma holds_put ff d cp m s buf x nb :
  holds ff d cp m s -> 0 <= d <= Z.of_nat (length buf) -> drop (Z.to_nat d) buf = s ++ x ->
  Z.of_nat (length (payload m ff)) <= nb < 2 ^ 31 ->
  is_Some (if sqlite3VdbeSerialType cp.1 ff >=? 12 then z_read buf cp 0 cp.1.(n) else Some []) /\
  sqlite3VdbeSerialPut nb (current buf cp) ff = payload m ff.
Proof.
  intros (Hk & Hl & Et & Hp) Hd Hbuf Hnb. rewrite Et, (text_ge ff m Hk). destruct cp as [c [|a]]; cbn [fst snd] in *.
  - destruct Hp as (-> & Hc & Hp). split; [by eexists|]. cbn [current snd fst]. rewrite serial_put; [done..|]. by rewrite Hp.
  - destruct Hp as (-> & Hm & Hc & Hz & _ & Hn & Hs). rewrite Hm. destruct (key_text ff m Hk Hm) as (_ & Hmn & Hlim).
    assert (Hlen : (length s <= length buf - Z.to_nat d)%nat).
    { apply (f_equal length) in Hbuf. rewrite length_drop, length_app in Hbuf. lia. }
    split.
    + unfold z_read, read. cbn [snd fst]. destruct (Z.leb_spec 0 (d + 0)); [|lia]. destruct (Z.leb_spec 0 (n c)); [|lia].
      destruct (Z.leb_spec (d + 0 + n c) (Z.of_nat (length buf))); [by eexists|lia].
    + unfold sqlite3VdbeSerialPut. change (sqlite3VdbeSerialType (current buf (c, At d)) ff) with (sqlite3VdbeSerialType c ff).
      rewrite Et. pose proof (text_ge ff m Hk) as Hg. rewrite Hm in Hg. rewrite Hg. rewrite Z.geb_leb in Hg. apply Z.leb_le in Hg.
      destruct (Z.leb_spec (sqlite3VdbeSerialType m ff) 7); [lia|]. cbn [andb current snd fst flags set_z]. rewrite Hz.
      unfold content. cbn [n z set_z]. rewrite Hbuf, Hn, Hmn, Nat2Z.id, take_app_le by lia. done.
Qed.

(** A squashed cell that changed. *)
Lemma squashed_long ff m :
  key_cell m -> long ff m = true ->
  is_text m = true /\ 72 < m.(n) /\ is_text (squashed ff m) = true /\ (squashed ff m).(n) = 72 /\
  has (squashed ff m).(flags) MEM_Str = has m.(flags) MEM_Str /\
  payload (squashed ff m) ff = take 64 (payload m ff) ++ mdb_hash_val (drop 64 (payload m ff)).
Proof.
  intros Hk Hl. assert (Hl' := Hl). unfold long in Hl'. rewrite text_ge in Hl' by done.
  apply andb_true_iff in Hl' as [Ht H72]. rewrite Z.gtb_ltb, Z.ltb_lt in H72.
  destruct (squashed_spec ff m Hk) as (Hk' & Hv & _).
  assert (Hf : (squashed ff m).(flags) = m.(flags)) by (unfold squashed; by rewrite Hl).
  assert (Ht' : is_text (squashed ff m) = true) by (unfold is_text in *; by rewrite Hf).
  destruct (key_text ff m Hk Ht) as (Hp & Hn & _), (key_text ff _ Hk' Ht') as (Hp' & _ & _).
  split_and!; try done.
  - unfold squashed. by rewrite Hl.
  - by rewrite Hf.
  - rewrite Hp'. unfold mem_value, is_text, tail_zeros in *. rewrite Hf, (proj2 Hk) in *.
    destruct (has (flags m) MEM_Null), (has (flags m) MEM_Int), (has (flags m) MEM_Real); try done.
    rewrite !app_nil_r in Hv. rewrite Hp in *.
    assert (Hb : squash_bytes (content m) = take 64 (content m) ++ mdb_hash_val (drop 64 (content m))).
    { unfold squash_bytes. rewrite Z.gtb_ltb. by rewrite (proj2 (Z.ltb_lt _ _)) by lia. }
    rewrite <- Hb. by destruct (has (flags m) MEM_Str); injection Hv.
Qed.

(** One turn of the first loop, inside the segment of the cell. *)
Lemma squash_turn ff cp m s pre x :
  let d := Z.of_nat (length pre) in
  holds ff d cp m s -> length s = length (payload m ff) -> long ff m = true ->
  exists v s',
    z_read (pre ++ s ++ x) cp 64 (cp.1.(n) - 64) = Some v /\
    z_write (pre ++ s ++ x) cp 64 (mdb_hash_val v) = Some (pre ++ s' ++ x, cp) /\
    length s' = length s /\ holds ff d (set_n cp.1 72, cp.2) (squashed ff m) s'.
Proof.
  intros d (Hk & Hl & Et & Hp) Hs Hlong.
  destruct (squashed_long ff m Hk Hlong) as (Hm & H72 & Hm' & Hn' & Hstr & Hpay).
  destruct cp as [c [|a]]; cbn [fst snd] in *; [destruct Hp; congruence|].
  destruct Hp as (-> & _ & Hc & Hz & Hcs & Hcn & Hpre). destruct (key_text ff m Hk Hm) as (_ & Hmn & Hlim).
  rewrite <- Hs, firstn_all in Hpre. subst s.
  set (P := payload m ff) in *. set (h := mdb_hash_val (drop 64 P)). destruct (hash_bytes (drop 64 P)) as [Hh _]. fold h in Hh.
  assert (Hcut : P = take 64 P ++ take 8 (drop 64 P) ++ drop 72 P).
  { rewrite <- (take_drop 64 P) at 1. f_equal. rewrite <- (take_drop 8 (drop 64 P)) at 1. by rewrite drop_drop. }
  assert (HP64 : length (take 64 P) = 64%nat) by (rewrite length_take; lia).
  assert (HP8 : length (take 8 (drop 64 P)) = 8%nat) by (rewrite length_take, length_drop; lia).
  exists (drop 64 P), (take 64 P ++ h ++ drop 72 P). unfold z_read, z_write. cbn [snd fst].
  assert (Hread : read (pre ++ P ++ x) (d + 64) (n c - 64) = Some (drop 64 P)).
  { rewrite <- (take_drop 64 P) at 1. rewrite <- !app_assoc, app_assoc. apply read_app; rewrite ?length_app, ?length_drop; lia. }
  split; [done|]. split.
  { replace (pre ++ P ++ x) with ((pre ++ take 64 P) ++ take 8 (drop 64 P) ++ drop 72 P ++ x)
      by (rewrite Hcut at 4; rewrite <- !app_assoc; done).
    rewrite (write_app _ _ h) by (rewrite ?length_app; lia). cbn [mbind option_bind]. by rewrite <- !app_assoc. }
  destruct (squashed_spec ff m Hk) as (Hk' & _ & Hle).
  destruct (key_text ff _ Hk' Hm') as (_ & Hln & _). rewrite Hn' in Hln. split.
  { rewrite Hcut at 3. rewrite !length_app. lia. }
  unfold holds. cbn [fst snd]. split; [done|]. split; [rewrite !length_app, length_drop, HP64, Hh; lia|].
  split.
  { rewrite !text_type; cbn [flags n set_n]; try done; try lia; [|apply Hk'].
    rewrite Hn', Hstr, Hcs. done. }
  split_and!; try done; try (cbn [flags set_n]; congruence).
  rewrite Hpay at 2. fold P h. rewrite app_assoc. replace (length (payload (squashed ff m) ff)) with (length (take 64 P ++ h)).
  - by rewrite take_app_length.
  - rewrite length_app. lia.
Qed.

Lemma placed_length ff cells : forall d ms segs, placed ff d cells ms segs -> length cells = length ms /\ length segs = length ms.
Proof.
  induction cells as [|cp cells IH]; intros d [|m ms] [|s segs] H; try done.
  destruct H as [_ H]. apply IH in H as [H1 H2]. cbn [length]. lia.
Qed.

(** The first loop stays inside the segments of the cells. *)
Lemma squash_loop_spec ff cells : forall ms segs pre x,
  placed ff (Z.of_nat (length pre)) cells ms segs -> Forall2 (fun m s => length s = length (payload m ff)) ms segs ->
  exists cells' segs',
    squash_loop mdb_hash_val ff (pre ++ concat segs ++ x) cells = Some (pre ++ concat segs' ++ x, cells', existsb (long ff) ms) /\
    placed ff (Z.of_nat (length pre)) cells' (map (squashed ff) ms) segs' /\
    length (concat segs') = length (concat segs) /\ (existsb (long ff) ms = false -> segs' = segs /\ cells' = cells).
Proof.
  induction cells as [|cp cells IH]; intros [|m ms] [|s segs] pre x Hpl Hs; try done.
  { by exists [], []. }
  destruct Hpl as [Hc Hpl]. apply Forall2_cons in Hs as [Hs Hss].
  cbn [squash_loop concat map existsb]. destruct Hc as (Hk & Hl & Et & Hp) eqn:EH. clear EH.
  assert (Hlong : ((sqlite3VdbeSerialType cp.1 ff >=? 12) && (cp.1.(n) >? 72)) = long ff m).
  { unfold long. rewrite Et, text_ge by done. destruct cp as [c [|a]]; cbn [fst snd] in *.
    - by destruct Hp as (-> & _).
    - destruct Hp as (_ & -> & _ & _ & _ & -> & _). done. }
  rewrite Hlong. destruct (long ff m) eqn:El.
  - destruct (squash_turn ff cp m s pre (concat segs ++ x)) as (v & s' & Hr & Hw & Hs' & Hh); [exact (conj Hk (conj Hl (conj Et Hp)))|done|done|].
    rewrite <- !app_assoc, Hr. cbn [mbind option_bind]. rewrite Hw. cbn [mbind option_bind].
    destruct (IH ms segs (pre ++ s') x) as (cells' & segs' & Hl' & Hpl' & Hlen & _).
    { rewrite length_app, Hs', Nat2Z.inj_add. done. } { done. }
    rewrite <- !app_assoc in Hl'. rewrite Hl'. cbn [mbind option_bind]. exists ((set_n cp.1 72, cp.2) :: cells'), (s' :: segs').
    cbn [concat orb]. rewrite <- !app_assoc. split; [done|]. split.
    { split; [done|]. rewrite length_app, Nat2Z.inj_add in Hpl'. done. }
    split; [rewrite !length_app; lia|done].
  - destruct (IH ms segs (pre ++ s) x) as (cells' & segs' & Hl' & Hpl' & Hlen & Heq).
    { rewrite length_app, Nat2Z.inj_add. done. } { done. }
    rewrite <- !app_assoc in Hl'. rewrite <- !app_assoc, Hl'. cbn [mbind option_bind].
    exists (cp :: cells'), (s :: segs'). cbn [concat orb]. rewrite <- !app_assoc. split; [done|].
    split.
    { split; [unfold squashed; rewrite El; exact (conj Hk (conj Hl (conj Et Hp)))|]. rewrite length_app, Nat2Z.inj_add in Hpl'. done. }
    split; [rewrite !length_app; lia|]. intros E. by destruct (Heq E) as [-> ->].
Qed.

(** The loops that rewrite the key: what they write stays before the segments
    that are still to be read. *)
Lemma put_types_spec ff cells : forall d ms segs a gap y,
  placed ff d cells ms segs -> (length (types ff ms) <= length gap)%nat ->
  exists gap', put_types ff (Z.of_nat (length a)) (a ++ gap ++ y) cells
    = Some ((a ++ types ff ms) ++ gap' ++ y, Z.of_nat (length (a ++ types ff ms))) /\
    length gap' = (length gap - length (types ff ms))%nat.
Proof.
  induction cells as [|cp cells IH]; intros d [|m ms] [|s segs] a gap y Hpl Hl; try done.
  { exists gap. rewrite app_nil_r. split; [done|cbn; lia]. }
  destruct Hpl as [(_ & _ & Et & _) Hpl]. cbn [put_types]. rewrite Et, types_cons in *. rewrite length_app in Hl.
  rewrite write_gap by (done || lia). cbn [mbind option_bind].
  destruct (IH _ _ _ (a ++ putVarint32 (sqlite3VdbeSerialType m ff)) (drop (length (putVarint32 (sqlite3VdbeSerialType m ff))) gap) y Hpl)
    as (gap' & Hp & Hg); [rewrite length_drop; lia|].
  rewrite length_app, Nat2Z.inj_add in Hp. rewrite Hp. exists gap'. rewrite <- !app_assoc. split; [done|].
  rewrite Hg, length_drop, length_app. lia.
Qed.

Lemma put_values_spec ff nByte cells : forall ms segs a gap x,
  placed ff (Z.of_nat (length a + length gap)) cells ms segs ->
  nByte = Z.of_nat (length a + length (payloads ff ms)) -> nByte < 2 ^ 31 ->
  exists gap', put_values nByte ff (Z.of_nat (length a)) (a ++ gap ++ concat segs ++ x) cells
    = Some ((a ++ payloads ff ms) ++ gap' ++ x, nByte) /\
    (length gap' + length (payloads ff ms) = length gap + length (concat segs))%nat.
Proof.
  induction cells as [|cp cells IH]; intros [|m ms] [|s segs] a gap x Hpl Hn Hlim; try done.
  { exists gap. cbn [put_values concat app payloads map]. rewrite app_nil_r. cbn in Hn. split; [do 2 f_equal; lia|cbn; lia]. }
  destruct Hpl as [Hc Hpl]. rewrite payloads_cons, length_app in Hn. pose proof Hc as (_ & Hl & _).
  destruct (holds_put ff _ cp m s (a ++ gap ++ concat (s :: segs) ++ x) (concat segs ++ x)
    (i32 (nByte - Z.of_nat (length a))) Hc) as [[u Hu] Hput].
  { rewrite !length_app. lia. }
  { rewrite Nat2Z.id, app_assoc, <- length_app, drop_app_length. cbn [concat]. by rewrite <- app_assoc. }
  { rewrite (wrap_s_small 32) by (lia || unfold_int; lia). lia. }
  cbn [put_values]. rewrite Hu, Hput. cbn [mbind option_bind concat]. rewrite <- !app_assoc.
  set (P := payload m ff) in *. rewrite (app_assoc gap s).
  rewrite (write_gap a (gap ++ s) _ P) by (rewrite ?length_app; lia). cbn [mbind option_bind].
  destruct (IH ms segs (a ++ P) (drop (length P) (gap ++ s)) x) as (gap' & Hp & Hg).
  { rewrite length_drop, !length_app. eapply (eq_ind _ (fun d => placed ff d _ _ _)); [exact Hpl|lia]. }
  { rewrite length_app. lia. } { done. }
  rewrite length_app, Nat2Z.inj_add in Hp. rewrite Hp. exists gap'. rewrite payloads_cons. fold P. rewrite <- !app_assoc. split; [done|].
  rewrite length_drop, length_app in Hg. rewrite !length_app. lia.
Qed.

(** The sizes that the second loop counts. *)
Lemma squash_sizes ff cells : forall d ms segs a b,
  placed ff d cells ms segs ->
  fold_left (fun a cp => a + sqlite3VdbeSerialTypeLen (sqlite3VdbeSerialType cp.1 ff)) cells a
    = a + Z.of_nat (length (payloads ff ms)) /\
  fold_left (fun a cp => a + sqlite3VarintLen (sqlite3VdbeSerialType cp.1 ff)) cells b
    = b + Z.of_nat (length (types ff ms)).
Proof.
  induction cells as [|cp cells IH]; intros d [|m ms] [|s segs] a b Hpl; try done; [cbn; lia|].
  destruct Hpl as [(Hk & _ & Et & _) Hpl]. cbn [fold_left]. rewrite Et.
  destruct (IH _ _ _ (a + sqlite3VdbeSerialTypeLen (sqlite3VdbeSerialType m ff)) (b + sqlite3VarintLen (sqlite3VdbeSerialType m ff)) Hpl) as [-> ->].
  destruct (varint32_read _ [] (serial_type_range m ff (proj1 Hk))) as (Hl & _ & _); [constructor|].
  rewrite types_cons, payloads_cons, !length_app, <- (payload_length m ff) by apply Hk. lia.
Qed.

(** The key rewritten over a header of [H] bytes and the segments. *)
Lemma squash_record_spec ff cells ms segs hdr x :
  placed ff (Z.of_nat (length hdr)) cells ms segs -> Z.of_nat (length ms) <= 32766 ->
  header_size (Z.of_nat (length (types ff ms))) <= Z.of_nat (length hdr) ->
  Z.of_nat (length hdr + length (concat segs)) < 2 ^ 31 ->
  exists junk, squash_record ff (hdr ++ concat segs ++ x) cells
    = Some (record_bytes ff ms ++ junk ++ x, Z.of_nat (length (record_bytes ff ms))) /\
    (length (record_bytes ff ms ++ junk) = length hdr + length (concat segs))%nat.
Proof.
  intros Hpl Hn Hh Hlim. unfold squash_record. destruct (squash_sizes ff cells _ _ _ 0 0 Hpl) as [-> ->]. rewrite !Z.add_0_l.
  assert (Hst : Forall storable ms).
  { clear -Hpl. revert Hpl. generalize (Z.of_nat (length hdr)). intros d. revert d ms segs.
    induction cells as [|cp cells IH]; intros d [|m ms] [|s segs] Hpl; try done. destruct Hpl as [(Hk & _) Hpl].
    constructor; [apply Hk|by eapply IH]. }
  assert (Hle : Z.of_nat (length (payloads ff ms)) <= Z.of_nat (length (concat segs))).
  { clear -Hpl. revert Hpl. generalize (Z.of_nat (length hdr)). intros d. revert d ms segs.
    induction cells as [|cp cells IH]; intros d [|m ms] [|s segs] Hpl; try done. destruct Hpl as [(_ & Hl & _) Hpl].
    apply IH in Hpl. rewrite payloads_cons. cbn [concat]. rewrite !length_app. lia. }
  destruct (record_layout ff ms Hst ltac:(lia)) as (_ & _ & _ & Hsz & _ & _ & Hlen).
  set (N := header_size _) in *. pose proof (types_length ff ms Hst) as Htl.
  destruct (header_size_spec (Z.of_nat (length (types ff ms)))) as [_ HN]; [change (2 ^ 27) with 134217728; lia|]. fold N in HN.
  change (2 ^ 28) with 268435456 in HN.
  destruct (varint32_read N [] ltac:(lia)) as (Hvl & _ & _); [constructor|].
  assert (Hw : write (hdr ++ concat segs ++ x) 0 (putVarint32 N)
    = Some (([] ++ putVarint32 N) ++ drop (length (putVarint32 N)) hdr ++ concat segs ++ x))
    by (apply (write_gap []); [done|lia]).
  rewrite Hw. cbn [mbind option_bind app].
  destruct (put_types_spec ff cells _ _ _ (putVarint32 N) (drop (length (putVarint32 N)) hdr) (concat segs ++ x) Hpl)
    as (gap & -> & Hg); [rewrite length_drop; lia|]. cbn [mbind option_bind]. rewrite length_drop in Hg.
  destruct (put_values_spec ff (N + Z.of_nat (length (payloads ff ms))) cells ms segs (putVarint32 N ++ types ff ms) gap x)
    as (gap' & -> & Hg').
  { eapply (eq_ind _ (fun d => placed ff d _ _ _)); [exact Hpl|]. rewrite length_app. lia. }
  { rewrite length_app. lia. } { lia. }
  exists gap'. unfold record_bytes in *. fold N in Hlen |- *. rewrite Hlen, <- !app_assoc. split; [done|].
  rewrite !length_app in *. lia.
Qed.

Lemma get_text_cell t (bs rest : list Z) c :
  12 <= t < 2 ^ 31 -> Z.of_nat (length bs) = (t - 12) / 2 ->
  sqlite3VdbeSerialGet (bs ++ rest) t c
  = Some (Z.of_nat (length bs), mkMem (Z.lor (if Z.land t 0x01 =? 0 then MEM_Blob else MEM_Str) MEM_Ephem)
            c.(r) c.(u) (Z.of_nat (length bs)) (bs ++ rest) c.(enc) false c.(szMalloc)).
Proof.
  intros Ht Hl. unfold sqlite3VdbeSerialGet.
  repeat match goal with |- context [t =? ?k] => destruct (Z.eqb_spec t k) as [?|_]; [lia|] end. cbn [orb].
  rewrite (wrap_u_small 32 (t - 12)) by (unfold_int; lia). by rewrite wrap_s_small, <- Hl by (unfold_int; zlia).
Qed.

(** Unpacking gives cells that [OP_MakeRecord] could store again. *)
Lemma get_storable m ff rest e l c :
  storable m -> bytes_ok rest ->
  sqlite3VdbeSerialGet (payload m ff ++ rest) (sqlite3VdbeSerialType m ff) (set_enc blank_cell e) = Some (l, c) -> storable c.
Proof.
  intros Hs Hr. assert (Hplain : forall f r u, is_i64 u -> is_u64 r -> double_of_bits r <> S754_nan ->
    has f MEM_Zero = false -> is_text (mkMem f r u 0 [] e false 0) = false -> storable (mkMem f r u 0 [] e false 0)).
  { intros f r' u' Hu Hr' Hn Hz Ht. unfold storable. cbn [Mem.u Mem.r flags]. rewrite Hz, Ht. by split_and!. }
  pose proof (payload_bytes m ff Hs) as Hb. unfold payload in *.
  destruct (is_text_cases m) as [E|[(E1 & E2)|[(E1 & E2 & E3)|(E1 & E2 & E3 & E)]]].
  - rewrite E. unfold sqlite3VdbeSerialType. rewrite E. intros [= _ <-]. by apply Hplain.
  - rewrite E1, E2. unfold sqlite3VdbeSerialType. rewrite E1, E2.
    destruct (serial_type_int_spec (u m) ff) as [[[-> _]|[-> _]]|(k & Hk & Hi)]; [apply Hs| | |].
    + intros [= _ <-]. by apply Hplain.
    + intros [= _ <-]. by apply Hplain.
    + destruct (int_types_len _ _ Hk) as (-> & _). rewrite (get_int _ k) by done. intros [= _ <-]. by apply Hplain; [apply Hs|..].
  - rewrite E1, E2, E3. unfold sqlite3VdbeSerialType. rewrite E1, E2, E3. rewrite get_real by apply Hs.
    intros [= _ <-]. by apply Hplain; [done|apply Hs|apply Hs|..].
  - rewrite E1, E2, E3 in *. destruct (serial_type_text m ff Hs E) as (Et & El & _).
    pose proof Hs as (_ & _ & _ & _ & HT). destruct (HT E) as (_ & _ & Hlim).
    rewrite get_text_cell; [|rewrite Et; destruct (has (flags m) MEM_Str); lia|rewrite Et; destruct (has (flags m) MEM_Str); zlia].
    set (bs := content m ++ tail_zeros m) in *. clearbody bs.
    intros Hc. apply (inj Some), pair_eq in Hc as [_ <-]. unfold storable, tail_zeros, content. cbn [flags r u n z].
    assert (Hz : has (Z.lor (if Z.land (sqlite3VdbeSerialType m ff) 1 =? 0 then MEM_Blob else MEM_Str) MEM_Ephem) MEM_Zero = false) by (by destruct (_ =? 0)).
    rewrite Hz, app_nil_r. split_and!; try done. intros _.
    split; [rewrite length_app; lia|]. split; [by apply bytes_ok_app|]. rewrite length_take, length_app. lia.
Qed.

Lemma holds_unpacked ff m rest e c d :
  key_cell m -> bytes_ok rest ->
  sqlite3VdbeSerialGet (payload m ff ++ rest) (sqlite3VdbeSerialType m ff) (set_enc blank_cell e)
    = Some (Z.of_nat (length (payload m ff)), c) ->
  reads_as e c m -> holds ff d (c, if sqlite3VdbeSerialType m ff >=? 12 then At d else Own) m (payload m ff).
Proof.
  intros Hk Hr Hg (Hv & _ & Hp). pose proof (get_storable _ _ _ _ _ _ (proj1 Hk) Hr Hg) as Hc.
  destruct (value_stored ff c m Hc (proj1 Hk) Hv) as (Ht & Et & Epay). rewrite (text_ge ff m Hk).
  split; [done|]. split; [done|]. split; [done|]. destruct (is_text m) eqn:Hm; cbn [fst snd]; [|done].
  destruct Hp as (Hz & _). assert (Hkc : key_cell c) by done.
  destruct (key_text ff m Hk Hm) as (_ & Hn & _), (key_text ff c Hkc Ht) as (_ & Hnc & _).
  split_and!; try done; [|congruence|by rewrite take_ge].
  revert Hv. unfold mem_value, is_text in *. destruct (has (flags m) MEM_Null), (has (flags m) MEM_Int), (has (flags m) MEM_Real),
    (has (flags c) MEM_Null), (has (flags c) MEM_Int), (has (flags c) MEM_Real); try done.
  by destruct (has (flags m) MEM_Str), (has (flags c) MEM_Str).
Qed.

Lemma get_z t buf c l m : 12 <= t -> sqlite3VdbeSerialGet buf t c = Some (l, m) -> set_z m buf = m.
Proof.
  intros Ht. unfold sqlite3VdbeSerialGet.
  repeat match goal with |- context [t =? ?k] => destruct (Z.eqb_spec t k) as [?|_]; [lia|] end. cbn [orb].
  intros E. by apply (inj Some), pair_eq in E as [_ <-].
Qed.

Lemma unpack_placed ff e nKey szHdr aKey ms : forall todo idx d tl x,
  Forall key_cell ms -> bytes_ok aKey -> 0 <= idx -> 0 <= d ->
  drop (Z.to_nat idx) aKey = types ff ms ++ tl -> idx + Z.of_nat (length (types ff ms)) = szHdr ->
  drop (Z.to_nat d) aKey = payloads ff ms ++ x -> d + Z.of_nat (length (payloads ff ms)) <= nKey ->
  (length ms <= todo)%nat ->
  exists cs ps, unpack_loop todo e nKey szHdr aKey idx d = Some cs /\
    unpack_places (length cs) nKey szHdr aKey idx d = Some ps /\ length ps = length cs /\
    Forall2 (reads_as e) cs ms /\ map (current aKey) (zip cs ps) = cs /\
    placed ff d (zip cs ps) ms (map (fun m => payload m ff) ms).
Proof.
  induction ms as [|m ms IH]; intros todo idx d tl x Hs Hb Hi Hd Hty Hti Hp Hpd Htodo.
  - exists [], []. cbn in Hti. split; [|by repeat split; constructor]. destruct todo; [done|]. cbn [unpack_loop].
    destruct (Z.ltb_spec idx szHdr); [lia|done].
  - apply Forall_cons in Hs as [Hm Hs]. destruct todo as [|todo]; [cbn in Htodo; lia|].
    rewrite types_cons, length_app in Hti. rewrite payloads_cons, length_app in Hpd.
    rewrite types_cons, <- app_assoc in Hty. rewrite payloads_cons, <- app_assoc in Hp.
    pose proof (serial_type_range m ff (proj1 Hm)) as Hr.
    assert (Hrest : bytes_ok (types ff ms ++ tl)).
    { apply (bytes_ok_drop (Z.to_nat idx)) in Hb. rewrite Hty in Hb. by apply bytes_ok_app in Hb as [_ Hb]. }
    assert (Hx : bytes_ok (payloads ff ms ++ x)).
    { apply (bytes_ok_drop (Z.to_nat d)) in Hb. rewrite Hp in Hb. by apply bytes_ok_app in Hb as [_ Hb]. }
    destruct (varint32_read _ _ Hr Hrest) as (Hl & _ & Hg). pose proof (varint_len_range _ Hr) as Hpos.
    pose proof (payload_length m ff (proj1 Hm)) as Hpl.
    destruct (serial_get m ff (payloads ff ms ++ x) (set_enc blank_cell e) (proj1 Hm)) as (c & Hc & Hv & He & Hp').
    pose proof (holds_unpacked ff m _ e c d Hm Hx Hc (conj Hv (conj He Hp'))) as Hh.
    set (t := sqlite3VdbeSerialType m ff) in *.
    destruct (IH todo (idx + sqlite3VarintLen t) (d + Z.of_nat (length (payload m ff))) tl x) as (cs & ps & Hu & Hps & Hlen & Hra & Hcur & Hpl'); try done; try lia.
    { rewrite Z2Nat.inj_add, <- drop_drop, Hty by lia. rewrite <- Hl, Nat2Z.id. apply drop_app_length. }
    { rewrite Z2Nat.inj_add, <- drop_drop, Hp, Nat2Z.id by lia. apply drop_app_length. }
    { cbn in Htodo. lia. }
    exists (c :: cs), ((if t >=? 12 then At d else Own) :: ps). cbn [unpack_loop unpack_places length].
    destruct (Z.ltb_spec idx szHdr); [|lia]. destruct (Z.leb_spec d nKey); [|lia]. cbn [andb].
    rewrite Hty, Hg, Hp. cbn [mbind option_bind]. rewrite Hc. cbn [mbind option_bind]. rewrite Hu, <- Hpl, Hps. cbn [mbind option_bind].
    split; [done|]. split; [done|]. split; [by rewrite Hlen|]. split; [by constructor|].
    split; [|by split]. cbn [zip zip_with map]. rewrite Hcur. f_equal. rewrite Z.geb_leb. destruct (Z.leb_spec 12 t); [|done].
    unfold current. cbn [fst snd]. rewrite Hp. by eapply get_z.
Qed.

Definition long_value (v : value) : bool :=
  match v with VText bs | VBlob bs => Z.of_nat (length bs) >? 72 | _ => false end.

Lemma long_of_value ff m : key_cell m -> long ff m = long_value (mem_value m).
Proof.
  intros Hk. unfold long. rewrite text_ge by done. pose proof (key_text ff m Hk) as Ht. destruct Hk as [_ Hz].
  unfold payload, mem_value, is_text, tail_zeros in *. rewrite Hz in *.
  destruct (has (flags m) MEM_Null), (has (flags m) MEM_Int), (has (flags m) MEM_Real); try done. cbn [negb andb] in *.
  destruct (Ht eq_refl) as (E & -> & _). rewrite E. by destruct (has (flags m) MEM_Str).
Qed.

Lemma existsb_long ff ms : Forall key_cell ms -> existsb (long ff) ms = existsb long_value (map mem_value ms).
Proof. induction 1 as [|m ms Hm _ IH]; [done|]. cbn [existsb map]. by rewrite IH, (long_of_value ff m Hm). Qed.

(** The squashed cells. *)
Lemma squashed_all ff ms :
  Forall key_cell ms ->
  Forall key_cell (map (squashed ff) ms) /\
  map mem_value (map (squashed ff) ms) = map squash_value (map mem_value ms) /\
  Forall (fun m => Z.of_nat (length (payload m ff)) <= 72) (map (squashed ff) ms) /\
  (length (types ff (map (squashed ff) ms)) <= length (types ff ms))%nat.
Proof.
  induction 1 as [|m ms Hm _ (IH1 & IH2 & IH3 & IH4)]; [by repeat split; constructor|].
  destruct (squashed_spec ff m Hm) as (Hk & Hv & Hl). cbn [map]. rewrite IH2, Hv, !types_cons, !length_app.
  split; [by constructor|]. split; [done|]. split; [by constructor|]. apply Nat.add_le_mono; [|done].
  destruct (long ff m) eqn:El; [|by unfold squashed; rewrite El].
  destruct (squashed_long ff m Hm El) as (Ht & H72 & Ht' & Hn' & Hstr & _). destruct (key_text ff m Hm Ht) as (_ & Hn & Hlim).
  pose proof (serial_type_range m ff (proj1 Hm)) as Hr. pose proof (serial_type_range _ ff (proj1 Hk)) as Hr'.
  destruct (varint32_read _ [] Hr) as (E & _ & _); [constructor|]. destruct (varint32_read _ [] Hr') as (E' & _ & _); [constructor|].
  assert (Hty : 128 <= sqlite3VdbeSerialType m ff).
  { rewrite text_type; [destruct (has (flags m) MEM_Str); lia|done|apply Hm|lia]. }
  assert (Hty' : sqlite3VdbeSerialType (squashed ff m) ff < 16384).
  { rewrite text_type, Hn'; [destruct (has (flags (squashed ff m)) MEM_Str); lia|done|apply Hk|lia]. }
  assert (H2 : sqlite3VarintLen (sqlite3VdbeSerialType (squashed ff m) ff) <= 2).
  { destruct (varint_len_cases (sqlite3VdbeSerialType (squashed ff m) ff)) as [|[|[|]]]; lia. }
  enough (2 <= sqlite3VarintLen (sqlite3VdbeSerialType m ff)) by lia.
  by apply varint_len_two.
Qed.

(** With the NULL key: the cells alone. *)
Lemma squash_own ff buf ms :
  Forall key_cell ms ->
  squash_loop mdb_hash_val ff buf (map (fun m => (m, Own)) ms)
  = Some (buf, map (fun m => (squashed ff m, Own)) ms, existsb (long ff) ms).
Proof.
  induction 1 as [|m ms Hm _ IH]; [done|]. cbn [map squash_loop fst existsb]. fold (long ff m).
  destruct (long ff m) eqn:El; [|rewrite IH; assert (squashed ff m = m) as -> by (unfold squashed; by rewrite El); done].
  destruct (squashed_long ff m Hm El) as (Ht & H72 & _). pose proof (proj1 Hm) as (_ & _ & _ & _ & HT). destruct (HT Ht) as (Hn & _ & _).
  unfold z_read, z_write. cbn [fst snd]. unfold read. destruct (Z.leb_spec 0 64); [|lia]. destruct (Z.leb_spec 0 (n m - 64)); [|lia].
  destruct (Z.leb_spec (64 + (n m - 64)) (Z.of_nat (length (z m)))); [|lia]. cbn [andb mbind option_bind].
  change (Z.to_nat 64) with 64%nat. set (h := mdb_hash_val (take _ (drop 64 (z m)))). destruct (hash_bytes (take (Z.to_nat (n m - 64)) (drop 64 (z m)))) as [Hh _]. fold h in Hh.
  unfold write. destruct (Z.leb_spec (64 + Z.of_nat (length h)) (Z.of_nat (length (z m)))); [|lia].
  cbn [andb mbind option_bind fst snd]. change (0 <=? 64) with true. cbn [andb mbind option_bind fst snd]. rewrite IH. cbn [mbind option_bind]. do 3 f_equal.
  unfold squashed. rewrite El. done.
Qed.

(** The squashed key in its own buffer: what follows the key, which is the data
    of the entry, stays. *)
Lemma squashIndexKey_buffer ff cells ms hdr x :
  placed ff (Z.of_nat (length hdr)) cells ms (map (fun m => payload m ff) ms) -> Forall key_cell ms ->
  Z.of_nat (length ms) <= 32766 -> header_ok (Z.of_nat (length hdr)) (types ff ms) ->
  Z.of_nat (length hdr + length (payloads ff ms)) < 2 ^ 31 ->
  exists pun buf size,
    squashIndexKey mdb_hash_val ff cells (Some (hdr ++ payloads ff ms ++ x, Z.of_nat (length hdr + length (payloads ff ms))))
    = Some (pun, Some (buf ++ x, size)) /\ (length buf = length hdr + length (payloads ff ms))%nat /\
    (if existsb (long ff) ms
     then size = Z.of_nat (length (record_bytes ff (map (squashed ff) ms))) /\
          exists junk, buf = record_bytes ff (map (squashed ff) ms) ++ junk
     else pun = cells /\ buf = hdr ++ payloads ff ms /\ size = Z.of_nat (length buf)).
Proof.
  intros Hpl Hk Hn Hh Hlim. unfold squashIndexKey.
  destruct (squash_loop_spec ff cells ms (map (fun m => payload m ff) ms) hdr x Hpl) as (pun & segs & Hl & Hpl' & Hlen & Heq).
  { clear. induction ms as [|m ms IH]; cbn [map]; by constructor. }
  change (concat (map (fun m => payload m ff) ms)) with (payloads ff ms) in *. rewrite Hl. cbn [mbind option_bind].
  destruct (existsb (long ff) ms).
  - destruct (squashed_all ff ms Hk) as (_ & _ & _ & Htl).
    destruct (squash_record_spec ff pun (map (squashed ff) ms) segs hdr x Hpl') as (junk & -> & Hj).
    { by rewrite length_map. } { eapply header_size_le; [exact Hh|lia]. } { lia. }
    cbn [mbind option_bind]. exists pun, (record_bytes ff (map (squashed ff) ms) ++ junk). eexists.
    rewrite <- !app_assoc. split; [done|]. split; [lia|]. split; [done|by eexists].
  - destruct (Heq eq_refl) as [-> ->]. exists cells, (hdr ++ payloads ff ms). eexists. rewrite <- !app_assoc.
    split; [done|]. rewrite length_app. by split_and!.
Qed.

End SquashLemmas.

(** ** Theorems *)

(** C31: the two halves of an index record.  Splitting the record of the
    columns [ms] and a rowid gives a key and at most nine bytes of data; the
    comparison used by LMDB orders the key by the columns alone, for every
    right-hand side; and joining the halves restores the record byte for
    byte, whatever the cursor's buffer held. *)
Theorem splitIndexKey_joinIndexKey ff ms i index :
  Forall storable ms -> 1 <= Z.of_nat (length ms) <= 32766 -> is_i64 i ->
  let rec := record_bytes ff (ms ++ [int_cell i]) in
  Z.of_nat (length rec) < 2 ^ 31 -> fst index = Z.of_nat (length (snd index)) ->
  exists key data isize buf,
    splitIndexKey rec (Z.of_nat (length rec))
      = Some (key ++ data, Z.of_nat (length key), Z.of_nat (length data)) /\
    2 <= Z.of_nat (length key) /\ 1 <= Z.of_nat (length data) <= 9 /\
    (forall oom p2, exists cs, Forall2 (reads_as p2.(pKeyInfo).(ki_enc)) cs ms /\
       option_map fst (sqlite3VdbeRecordCompare oom (Z.of_nat (length key)) key p2)
       = lex_compare oom p2 0 cs (take (Z.to_nat p2.(up_nField)) p2.(aMem))) /\
    joinIndexKey false index key data (Z.of_nat (length rec)) = Some (SQLITE_OK, (isize, buf)) /\
    take (length rec) buf = rec.
Proof.
  intros Hs Hn Hi rec Hlim Hidx. unfold rec in *. assert (Z.of_nat (length ms) <= 32766) as Hn' by lia.
  set (H := header_size (Z.of_nat (length (types ff (ms ++ [int_cell i]))))).
  destruct (split_sizes ff i ms Hs Hn' Hi) as (HH & Hp & Hk & Hr & Hok). fold H in HH, Hp, Hk, Hr, Hok.
  destruct (key_layout ff i ms Hs Hn' Hi) as (Hb & Hg & Hd1 & Hd2 & Hkl). fold H in Hb, Hg, Hd1, Hd2, Hkl.
  pose proof (split_spec ff i ms Hs Hn' Hi Hlim) as Hsplit. fold H in Hsplit.
  pose proof (types_length ff ms Hs) as Htl. change (2 ^ 28) with 268435456 in *.
  set (key := putVarint32 (H - 1) ++ types ff ms ++ payloads ff ms) in *.
  set (data := sqlite3VdbeSerialType (int_cell i) ff :: payload (int_cell i) ff) in *.
  pose proof (payload_length _ ff (int_cell_storable i Hi)) as Hpl.
  assert (Z.of_nat (length (payload (int_cell i) ff)) <= 8) as Hp8.
  { rewrite Hpl. destruct (serial_type_int_spec i ff Hi) as [[[E _]|[E _]]|(k & Hk' & _)];
      change (sqlite3VdbeSerialType (int_cell i) ff) with (serial_type_int i ff); rewrite ?E; try done.
    apply int_types_len in Hk' as (-> & _ & ?). lia. }
  pose proof (record_split_eq ff i ms Hi) as Erec. fold H in Erec.
  assert (Z.of_nat (length (record_bytes ff (ms ++ [int_cell i])))
          = Z.of_nat (length key) + Z.of_nat (length data)) as Elen.
  { destruct (record_layout ff (ms ++ [int_cell i])) as (_ & _ & _ & _ & _ & _ & El).
    { apply Forall_app. split; [done|]. constructor; [by apply int_cell_storable|constructor]. }
    { rewrite length_app. cbn [length]. lia. }
    fold H in El. rewrite El, payloads_snoc, length_app. unfold data. cbn [length]. lia. }
  destruct (join_spec (H - 1) (types ff ms) (payloads ff ms)
    (sqlite3VdbeSerialType (int_cell i) ff) (payload (int_cell i) ff) index)
    as (isize & buf & Hj & _ & Ht); try done.
  { replace (H - 1 + 1) with H by lia. by rewrite Hp. }
  { by apply types_bytes. } { by apply payloads_bytes. } { lia. }
  { change (2 ^ 28) with 268435456. lia. } { by rewrite Elen in Hlim. }
  fold key in Hj, Ht. fold data in Hj, Ht. rewrite <- Elen in Hj, Ht.
  replace (H - 1 + 1) with H in Ht by lia.
  exists key, data, isize, buf. split; [exact Hsplit|]. split; [lia|].
  split; [unfold data; cbn [length]; lia|]. split; [|split; [exact Hj|]].
  - intros oom p2.
    destruct (compare_loop_lex oom p2 ff key (Z.of_nat (length key)) (H - 1) ms
      (take (Z.to_nat p2.(up_nField)) p2.(aMem)) (sqlite3VarintLen H) (H - 1) 0) as (cs & Hcs & Hc);
      try done; try lia.
    { by rewrite Hd1, Hd2. }
    exists cs. split; [done|]. unfold sqlite3VdbeRecordCompare. by rewrite Hg.
  - rewrite Nat2Z.id in Ht. rewrite Ht, Erec, <- !app_assoc. done.
Qed.

Example splitIndexKey_joinIndexKey_witness :
  exists key data isize buf,
    splitIndexKey (record_bytes 4 ([text_cell [97; 98]] ++ [int_cell 1000])) 7
      = Some (key ++ data, Z.of_nat (length key), Z.of_nat (length data)) /\
    joinIndexKey false (0, []) key data 7 = Some (SQLITE_OK, (isize, buf)) /\
    take 7 buf = [3; 17; 2; 97; 98; 3; 232].
Proof.
  destruct (splitIndexKey_joinIndexKey 4 [text_cell [97; 98]] 1000 (0, []))
    as (key & data & isize & buf & H1 & _ & _ & _ & H2 & H3).
  - apply List.Forall_cons; [|constructor].
    apply text_cell_storable; [repeat constructor; unfold_int; lia|cbn; lia].
  - cbn. lia.
  - unfold_int; lia.
  - vm_compute. reflexivity.
  - reflexivity.
  - exists key, data, isize, buf. split; [exact H1|]. split; [exact H2|exact H3].
Defined.

(** C32: the key and data of an index entry.  [sqlite3BtreeInsert] splits the
    record of the columns [ms] and the rowid [i], unpacks the key in place and
    squashes it: no access leaves its block, the data is the rowid's type and
    bytes, and the key is the first part of the split record when no text or
    blob has more than 72 bytes, and otherwise the record of the squashed
    values, each of at most 72 bytes.  The unpacked key is only claimed in the
    first case.  Without a key to rewrite, as for a search, the cells
    themselves are squashed. *)
Theorem squashIndexKey_correct mdb_hash_val ff ki p ms i :
  (forall bs, length (mdb_hash_val bs) = 8%nat /\ bytes_ok (mdb_hash_val bs)) ->
  Forall key_cell ms -> Z.of_nat (length ms) <= 32766 -> is_i64 i -> (length ms <= Z.to_nat p.(up_nField))%nat ->
  let rec := record_bytes ff (ms ++ [int_cell i]) in
  Z.of_nat (length rec) < 2 ^ 31 ->
  exists ms', Forall key_cell ms' /\ map mem_value ms' = map (squash_value mdb_hash_val) (map mem_value ms) /\
    Forall (fun m => Z.of_nat (length (payload m ff)) <= 72) ms' /\
    squashIndexKey mdb_hash_val ff (map (fun m => (m, Own)) ms) None = Some (map (fun m => (m, Own)) ms', None) /\
    exists key p', let data := sqlite3VdbeSerialType (int_cell i) ff :: payload (int_cell i) ff in
      index_key mdb_hash_val ff ki p rec (Z.of_nat (length rec)) = Some (key, data, p') /\
      if existsb long_value (map mem_value ms) then key = record_bytes ff ms'
      else splitIndexKey rec (Z.of_nat (length rec)) = Some (key ++ data, Z.of_nat (length key), Z.of_nat (length data)) /\
           Forall2 (fun c m => mem_value c = mem_value m) p'.(aMem) ms.
Proof.
  intros Hh Hk Hn Hi Hp rec Hlim. exists (map (squashed mdb_hash_val ff) ms).
  destruct (squashed_all mdb_hash_val Hh ff ms Hk) as (H1 & H2 & H3 & _). split; [done|]. split; [done|]. split; [done|].
  split; [unfold squashIndexKey; rewrite squash_own by done; by rewrite map_map|].
  assert (Hs : Forall storable ms) by (eapply Forall_impl; [exact Hk|by intros m []]).
  pose proof (split_spec ff i ms Hs Hn Hi Hlim) as Hsplit. fold rec in Hsplit.
  destruct (split_sizes ff i ms Hs Hn Hi) as (_ & Hkw & Hk9 & Hr & Hok).
  destruct (key_layout ff i ms Hs Hn Hi) as (Hkb & Hg & Hd1 & Hd2 & Hkl).
  set (H := header_size _) in *. set (data := _ :: payload (int_cell i) ff) in *.
  set (hdr := putVarint32 (H - 1) ++ types ff ms). rewrite app_assoc in *. fold hdr in Hsplit, Hkb, Hg, Hd1, Hd2, Hkl.
  set (k := sqlite3VarintLen H) in *. change (2 ^ 28) with 268435456 in *.
  assert (Hhdr : Z.of_nat (length hdr) = H - 1) by (rewrite length_app in Hkl; lia).
  pose proof (split_length ff i ms Hs Hn Hi) as Hrec. fold rec H data in Hrec. rewrite app_assoc in Hrec. fold hdr in Hrec.
  rewrite length_app in Hrec.
  assert (HkH : k + Z.of_nat (length (types ff ms)) = H - 1) by (destruct Hok as [Hok _]; lia).
  assert (Hbytes : bytes_ok ((hdr ++ payloads ff ms) ++ data)).
  { apply bytes_ok_app. split; [done|]. constructor; [|apply payload_bytes; by apply int_cell_storable].
    pose proof (rowid_type ff i ms Hi) as [Ht _]. unfold_int. lia. }
  unfold index_key. rewrite Hsplit. cbn [mbind option_bind]. unfold sqlite3VdbeRecordUnpack.
  assert (Hg' : getVarint32 ((hdr ++ payloads ff ms) ++ data) = Some (k, H - 1)).
  { destruct (varint32_read (H - 1) (types ff ms ++ payloads ff ms ++ data)) as (_ & _ & Hg'); [lia| |].
    - unfold hdr in Hbytes. rewrite <- !app_assoc in Hbytes. by apply bytes_ok_app in Hbytes as [_ Hbytes].
    - unfold hdr. rewrite <- !app_assoc. by rewrite Hg', Hkw. }
  rewrite Hg'. cbn [mbind option_bind].
  destruct (unpack_placed ff ki.(ki_enc) (Z.of_nat (length rec)) (H - 1) ((hdr ++ payloads ff ms) ++ data) ms
    (Z.to_nat p.(up_nField)) k (H - 1) (payloads ff ms ++ data) data) as (cs & ps & Hu & Hps & Hlen & Hra & Hcur & Hpl); try done; try lia.
  { rewrite drop_app_le, Hd1 by (rewrite length_app; lia). by rewrite app_assoc. }
  { by rewrite drop_app_le, Hd2 by (rewrite length_app; lia). }
  rewrite Hu. cbn [mbind option_bind]. cbn [aMem]. rewrite Hps. cbn [mbind option_bind].
  rewrite <- app_assoc.
  destruct (squashIndexKey_buffer mdb_hash_val Hh ff (zip cs ps) ms hdr data) as (pun & buf & size & Hsq & Hbl & Hcase); try done; try lia.
  { by rewrite Hhdr. } { rewrite Hhdr. done. }
  rewrite length_app, Hsq. cbn [mbind option_bind].
  assert (Hdata : read (buf ++ data) (Z.of_nat (length hdr + length (payloads ff ms))) (Z.of_nat (length data)) = Some data)
    by (apply read_app_end; lia).
  rewrite (existsb_long ff ms Hk) in Hcase. destruct (existsb long_value (map mem_value ms)).
  - destruct Hcase as [-> [junk ->]]. rewrite <- app_assoc in *.
    set (key := record_bytes ff (map (squashed mdb_hash_val ff) ms)) in *.
    assert (read (key ++ junk ++ data) 0 (Z.of_nat (length key)) = Some key) as -> by (by apply (read_app [])). cbn [mbind option_bind].
    rewrite Hdata. cbn [mbind option_bind]. by eexists _, _.
  - destruct Hcase as (-> & -> & ->). set (key := hdr ++ payloads ff ms) in *.
    assert (read (key ++ data) 0 (Z.of_nat (length key)) = Some key) as -> by (by apply (read_app [])). cbn [mbind option_bind].
    rewrite Hdata. cbn [mbind option_bind]. eexists _, _. split; [done|]. split; [unfold key; by rewrite <- app_assoc, length_app|]. cbn [aMem].
    rewrite Hcur. eapply Forall2_impl; [exact Hra|]. by intros c m [].
Qed.

Definition key_info (nField : Z) : KeyInfo := mkKeyInfo SQLITE_UTF8 nField [] [].
Definition room_for (nField : Z) : UnpackedRecord := mkUnpacked (key_info nField) (nField + 1) 0 0 [].

Example squashIndexKey_correct_witness :
  let ms := [int_cell 5; text_cell (replicate 100 97)] in
  let rec := record_bytes 4 (ms ++ [int_cell 1]) in
  exists ms' key p',
    map mem_value ms' = [VInt 5; VText (replicate 64 97 ++ replicate 8 7)] /\
    index_key (fun _ => replicate 8 7) 4 (key_info 2) (room_for 2) rec (Z.of_nat (length rec)) = Some (key, [9], p') /\
    key = record_bytes 4 ms'.
Proof.
  intros ms rec.
  destruct (squashIndexKey_correct (fun _ => replicate 8 7) 4 (key_info 2) (room_for 2) ms 1) as (ms' & _ & Hv & _ & _ & key & p' & Hk & Hkey).
  - intros _. split; [reflexivity|repeat constructor; lia].
  - repeat apply List.Forall_cons; [..|constructor]; (split; [|reflexivity]).
    + apply int_cell_storable. unfold_int. lia.
    + apply text_cell_storable; [|cbn; lia]. repeat constructor; unfold_int; lia.
  - cbn. lia.
  - unfold_int. lia.
  - cbn. lia.
  - vm_compute. reflexivity.
  - exists ms', key, p'. split; [exact Hv|]. split; [exact Hk|exact Hkey].
Defined.

(** The unpacked key is not that of the new key once a value has moved: a text
    of 50 bytes behind one of 100 is copied 28 bytes down, over the place
    where the comparison still reads its first bytes. *)
Theorem squashIndexKey_stale :
  let text := map Z.of_nat (seq 0 50) in
  let rec := record_bytes 4 ([text_cell (replicate 100 97); text_cell text] ++ [int_cell 1]) in
  match index_key (fun _ => replicate 8 7) 4 (key_info 2) (room_for 2) rec (Z.of_nat (length rec)) with
  | Some (_, _, p) => map mem_value p.(aMem) = [VText (replicate 64 97 ++ replicate 8 7); VText (drop 28 text ++ drop 22 text)]
  | None => False
  end.
Proof. vm_compute. reflexivity. Qed.

(** A row of a text of 100 bytes and 124 small integers, and its rowid. *)
Definition wide_row : list Mem := text_cell (replicate 100 97) :: replicate 124 (int_cell 5).

(** The key and data stored for it. *)
Definition wide_key (h : list Z -> list Z) : option (list Z * list Z) :=
  let rec := record_bytes 4 (wide_row ++ [int_cell 5]) in
  '(key, data, _) ← index_key h 4 (key_info 125) (room_for 125) rec (Z.of_nat (length rec));
  Some (key, data).

(** The first value of the record joined from it. *)
Definition wide_first (h : list Z -> list Z) : option value :=
  '(key, data) ← wide_key h;
  let amount := Z.of_nat (length key + length data) in
  '(_, (_, buf)) ← joinIndexKey false (0, []) key data amount;
  p ← sqlite3VdbeRecordUnpack (key_info 125) amount buf (room_for 125);
  head (map mem_value p.(aMem)).

(** joining is wrong after squashing when the serial types of the key take
    126 bytes: the new key's size field is one byte (127), [joinIndexKey]
    writes 128 in two bytes over the first serial type, and the record it
    returns begins with a text of 8 bytes instead of the 72 stored. *)
Theorem joinIndexKey_overwrites :
  wide_first (fun _ => replicate 8 7) = Some (VText (replicate 8 97)) /\
  squash_value (fun _ => replicate 8 7) (VText (replicate 100 97))
    = VText (replicate 64 97 ++ replicate 8 7).
Proof. split; vm_compute; reflexivity. Qed.
