(* ===== verification/Lmdb.v ===== *)
(** * The interface of LMDB, as the back-end uses it

    LMDB is not part of the repository (src/lmdb-backend/src/btree.c includes
    mdb.c and midl.c at build time).  The class [Lmdb] lists the functions and
    fields of it that btree.c uses, the class [LmdbLaws] its documented
    behaviour: environments hold a committed snapshot; a root transaction sees
    the snapshot of the moment it began; a write transaction may nest, one
    child at a time; at most one write transaction is open per environment. *)

From stdpp Require Import strings.
From S2P Require Import Prelude Mem Serial.

Abbreviation bytes := (list Z).

(** ** Constants of lmdb.h *)

Definition MDB_RDONLY : Z := 0x20000.
Definition MDB_NOSYNC : Z := 0x10000.
Definition MDB_NOSUBDIR : Z := 0x4000.
Definition MDB_CREATE : Z := 0x40000.
Definition MDB_DUPSORT : Z := 0x04.
Definition MDB_INTEGERKEY : Z := 0x08.

Definition MDB_NOTFOUND : Z := Z.opp 30798.
Definition MDB_PAGE_NOTFOUND : Z := Z.opp 30797.
Definition MDB_CORRUPTED : Z := Z.opp 30796.
Definition MDB_PANIC : Z := Z.opp 30795.
Definition MDB_VERSION_MISMATCH : Z := Z.opp 30794.
Definition MDB_INVALID : Z := Z.opp 30793.
Definition MDB_MAP_FULL : Z := Z.opp 30792.
Definition MDB_INCOMPATIBLE : Z := Z.opp 30784.
Definition MDB_BAD_RSLOT : Z := Z.opp 30783.
Definition MDB_BAD_TXN : Z := Z.opp 30782.
Definition MDB_BAD_VALSIZE : Z := Z.opp 30781.

(** The handle of the unnamed database. *)
Definition MAIN_DBI : Z := 1.

(** ** Contents of an environment *)

(** A named database: its flags and its entries in key order. *)
Record table := Table { t_flags : Z; t_rows : list (bytes * bytes) }.

(** The plain entries of the unnamed database, and the named databases. *)
Record snapshot := Snapshot {
  s_main : gmap bytes bytes;
  s_tables : gmap string table }.

Definition empty_snapshot : snapshot := Snapshot ∅ ∅.

(** What [txn->mt_dbs[dbi]] and [mc->mc_db] tell btree.c. *)
Record MDB_db := mkDb { md_flags : Z; md_entries : Z; md_root_invalid : bool }.

Inductive cursor_op : Type :=
  | CUR_CURRENT | CUR_FIRST | CUR_LAST | CUR_NEXT | CUR_PREV
  | CUR_SET | CUR_SET_RANGE | CUR_GET_BOTH_RANGE.

(** The key argument: none, bytes, or an unpacked record in [key[1]]. *)
Inductive probe : Type :=
  | NoKey
  | ByBytes (k : bytes)
  | ByRecord (p : UnpackedRecord).

(** [MDB_cursor]: the fields btree.c touches, and the rest. *)
Record MDB_cursor (txn pos : Type) := mkMc {
  mc_txn : option txn;
  mc_dbi : Z;
  mc_initialized : bool;
  mc_eof : bool;
  mc_pos : pos }.

Arguments mkMc {_ _} _ _ _ _ _.
Arguments mc_txn {_ _} _.
Arguments mc_dbi {_ _} _.
Arguments mc_initialized {_ _} _.
Arguments mc_eof {_ _} _.
Arguments mc_pos {_ _} _.

(** ** Operations *)

Class Lmdb := {
  lmdb : Type;
  txn : Type;
  pos : Type;
  txn_eq_dec :: EqDecision txn;
  pos0 : pos;
  (** environments *)
  mdb_env_create : lmdb -> Z * Z * lmdb;
  mdb_env_set_maxdbs : lmdb -> Z -> Z -> lmdb;
  mdb_env_set_maxreaders : lmdb -> Z -> Z -> lmdb;
  mdb_env_set_mapsize : lmdb -> Z -> Z -> lmdb;
  mdb_env_set_flags : lmdb -> Z -> Z -> bool -> lmdb;
  mdb_env_open : lmdb -> Z -> string -> Z -> Z * lmdb;
  mdb_env_close : lmdb -> Z -> lmdb;
  mdb_env_sync : lmdb -> Z -> Z -> Z * lmdb;
  me_path : lmdb -> Z -> string;
  me_flags : lmdb -> Z -> Z;
  me_psize : lmdb -> Z -> Z;
  me_maxpg : lmdb -> Z -> Z;
  (** transactions; beginning a write transaction waits for the current one *)
  mdb_txn_begin : lmdb -> Z -> option txn -> bool -> option (Z * txn * lmdb);
  mdb_txn_commit : lmdb -> txn -> Z * lmdb;
  mdb_txn_abort : lmdb -> txn -> lmdb;
  mt_parent : lmdb -> txn -> option txn;
  mt_rdonly : lmdb -> txn -> bool;
  mt_next_pgno : lmdb -> txn -> Z;
  (** databases *)
  mdb_open : lmdb -> txn -> option string -> Z -> Z * Z * lmdb;
  mdb_set_compare : lmdb -> txn -> Z -> lmdb;
  mt_dbs : lmdb -> txn -> Z -> MDB_db;
  mdb_get : lmdb -> txn -> Z -> bytes -> Z * bytes;
  mdb_put : lmdb -> txn -> Z -> bytes -> bytes -> Z -> Z * lmdb;
  mdb_drop : lmdb -> txn -> Z -> bool -> Z * lmdb;
  (** cursors *)
  mdb_cursor_init : lmdb -> txn -> Z -> MDB_cursor txn pos;
  mdb_cursor_get : lmdb -> MDB_cursor txn pos -> cursor_op -> probe -> option bytes
    -> Z * (bytes * bytes) * MDB_cursor txn pos;
  mdb_cursor_set_both : lmdb -> MDB_cursor txn pos -> bytes -> bytes -> MDB_cursor txn pos }.

(** ** Documented behaviour *)

(** An open root transaction: its levels from the innermost to the root. *)
Record root {T : Type} := Root {
  r_env : Z;
  r_rdonly : bool;
  r_levels : list (T * snapshot) }.
Arguments root : clear implicits.

(** The committed contents of an environment, the open root transactions, and
    the database a handle names inside a transaction. *)
Class LmdbAbs `{Lmdb} := {
  committed : lmdb -> Z -> snapshot;
  roots : lmdb -> txn -> option (root txn);
  dbi_name : lmdb -> txn -> Z -> option (option string) }.

Definition same `{LmdbAbs} (w w' : lmdb) : Prop :=
  (forall e, committed w' e = committed w e) /\ (forall r, roots w' r = roots w r).

(** [t] is an innermost transaction and sees [v]. *)
Definition view `{LmdbAbs} (w : lmdb) (t : txn) (v : snapshot) : Prop :=
  exists r R post, roots w r = Some R /\ R.(r_levels) = (t, v) :: post.

Definition writable `{LmdbAbs} (w : lmdb) (t : txn) : Prop :=
  exists r R v post, roots w r = Some R /\ R.(r_rdonly) = false /\ R.(r_levels) = (t, v) :: post.

(** Only the contents [t] sees change, to [v']. *)
Definition upd `{LmdbAbs} (w w' : lmdb) (t : txn) (v' : snapshot) : Prop :=
  (forall e, committed w' e = committed w e) /\
  (forall r R v post, roots w r = Some R -> R.(r_levels) = (t, v) :: post ->
     forall r', roots w' r' =
       if decide (r' = r) then Some (Root _ R.(r_env) R.(r_rdonly) ((t, v') :: post))
       else roots w r').

Definition set_main (v : snapshot) (k d : bytes) : snapshot :=
  Snapshot (<[k := d]> v.(s_main)) v.(s_tables).
Definition set_table (v : snapshot) (n : string) (tb : table) : snapshot :=
  Snapshot v.(s_main) (<[n := tb]> v.(s_tables)).
Definition remove_table (v : snapshot) (n : string) : snapshot :=
  Snapshot v.(s_main) (delete n v.(s_tables)).

Class LmdbLaws `{LmdbAbs} := {
  (** a handle belongs to one level of one transaction *)
  levels_nodup w r R : roots w r = Some R -> NoDup (map fst R.(r_levels));
  levels_last w r R : roots w r = Some R -> exists v, last R.(r_levels) = Some (r, v);
  levels_disjoint w r1 r2 R1 R2 t :
    roots w r1 = Some R1 -> roots w r2 = Some R2 ->
    t ∈ map fst R1.(r_levels) -> t ∈ map fst R2.(r_levels) -> r1 = r2;
  readers_flat w r R : roots w r = Some R -> R.(r_rdonly) = true ->
    length R.(r_levels) = 1%nat;
  (** mdb_txn_begin, without and with a parent *)
  begin_root w e rd rc t w' :
    mdb_txn_begin w e None rd = Some (rc, t, w') ->
    if rc =? 0 then
      roots w t = None /\ (forall e', committed w' e' = committed w e') /\
      (forall r, roots w' r =
         if decide (r = t) then Some (Root _ e rd [(t, committed w e)]) else roots w r) /\
      (rd = false -> forall r R, roots w r = Some R -> R.(r_env) = e -> R.(r_rdonly) = true)
    else same w w';
  begin_child w e r R p v rest rc t w' :
    roots w r = Some R -> R.(r_rdonly) = false -> R.(r_levels) = (p, v) :: rest ->
    mdb_txn_begin w e (Some p) false = Some (rc, t, w') ->
    if rc =? 0 then
      (forall e', committed w' e' = committed w e') /\
      (forall r', roots w' r' =
         if decide (r' = r) then Some (Root _ R.(r_env) false ((t, v) :: (p, v) :: rest))
         else roots w r')
    else same w w';
  (** mdb_txn_commit: children first; the handle is gone even on failure *)
  commit_law w r R pre t v post rc w' :
    roots w r = Some R -> R.(r_levels) = pre ++ (t, v) :: post ->
    mdb_txn_commit w t = (rc, w') ->
    let top := from_option snd v (head pre) in
    (forall e, committed w' e =
       if bool_decide (rc = 0 /\ post = [] /\ R.(r_rdonly) = false /\ e = R.(r_env))
       then top else committed w e) /\
    (forall r', roots w' r' =
       if decide (r' = r) then
         match post with
         | [] => None
         | (p, pv) :: post' =>
             Some (Root _ R.(r_env) R.(r_rdonly) ((p, if rc =? 0 then top else pv) :: post'))
         end
       else roots w r');
  (** mdb_txn_abort *)
  abort_law w r R pre t v post :
    roots w r = Some R -> R.(r_levels) = pre ++ (t, v) :: post ->
    (forall e, committed (mdb_txn_abort w t) e = committed w e) /\
    (forall r', roots (mdb_txn_abort w t) r' =
       if decide (r' = r) then
         match post with
         | [] => None
         | _ => Some (Root _ R.(r_env) R.(r_rdonly) post)
         end
       else roots w r');
  parent_law w r R pre t v post :
    roots w r = Some R -> R.(r_levels) = pre ++ (t, v) :: post ->
    mt_parent w t = fst <$> head post;
  rdonly_law w r R pre t v post :
    roots w r = Some R -> R.(r_levels) = pre ++ (t, v) :: post ->
    mt_rdonly w t = R.(r_rdonly);
  (** mdb_dbi_open *)
  open_main w t v fl rc dbi w' :
    view w t v -> mdb_open w t None fl = (rc, dbi, w') ->
    rc = 0 /\ dbi = MAIN_DBI /\ same w w' /\ dbi_name w' t dbi = Some None;
  open_named w t v n fl rc dbi w' :
    view w t v -> mdb_open w t (Some n) fl = (rc, dbi, w') ->
    if rc =? 0 then
      dbi_name w' t dbi = Some (Some n) /\
      match v.(s_tables) !! n with
      | Some _ => same w w'
      | None => Z.land fl MDB_CREATE <> 0 /\ writable w t /\
          upd w w' t (set_table v n (Table (Z.land fl (Z.lnot MDB_CREATE)) []))
      end
    else same w w';
  set_compare_law w t dbi :
    same w (mdb_set_compare w t dbi) /\
    (forall t' d, dbi_name (mdb_set_compare w t dbi) t' d = dbi_name w t' d);
  open_flags w t n fl e : me_flags (mdb_open w t n fl).2 e = me_flags w e;
  set_compare_flags w t dbi e : me_flags (mdb_set_compare w t dbi) e = me_flags w e;
  main_law w t v : view w t v ->
    md_entries (mt_dbs w t MAIN_DBI) =
      Z.of_nat (size v.(s_main)) + Z.of_nat (size v.(s_tables));
  db_law w t v dbi n tb :
    view w t v -> dbi_name w t dbi = Some (Some n) -> v.(s_tables) !! n = Some tb ->
    mt_dbs w t dbi =
      mkDb tb.(t_flags) (Z.of_nat (length tb.(t_rows))) (bool_decide (tb.(t_rows) = []));
  (** mdb_get and mdb_put in the unnamed database *)
  get_law w t v dbi k :
    view w t v -> dbi_name w t dbi = Some None ->
    match v.(s_main) !! k with
    | Some d => mdb_get w t dbi k = (0, d)
    | None => fst (mdb_get w t dbi k) <> 0
    end;
  put_law w t v dbi k d rc w' :
    view w t v -> dbi_name w t dbi = Some None -> mdb_put w t dbi k d 0 = (rc, w') ->
    if rc =? 0 then writable w t /\ upd w w' t (set_main v k d) else same w w';
  (** mdb_drop of a named database *)
  drop_law w t v dbi n tb del rc w' :
    view w t v -> dbi_name w t dbi = Some (Some n) -> v.(s_tables) !! n = Some tb ->
    mdb_drop w t dbi del = (rc, w') ->
    if rc =? 0 then
      writable w t /\
      upd w w' t (if del : bool then remove_table v n else set_table v n (Table tb.(t_flags) []))
    else same w w' }.

(** ** Consequences *)

Section consequences.
Context `{LmdbLaws}.
Implicit Types (w : lmdb) (t r : txn).

Lemma same_refl w : same w w.
Proof. done. Qed.

Lemma same_trans w1 w2 w3 : same w1 w2 -> same w2 w3 -> same w1 w3.
Proof. intros [A B] [C D]. split; intros; [by rewrite C, A | by rewrite D, B]. Qed.

Lemma same_view w w' t v : same w w' -> view w t v -> view w' t v.
Proof. intros [_ HR] (r & R & post & Hr & Hl). exists r, R, post. by rewrite HR. Qed.

Lemma same_writable w w' t : same w w' -> writable w t -> writable w' t.
Proof. intros [_ HR] (r & R & v & post & Hr & Hl). exists r, R, v, post. by rewrite HR. Qed.

Lemma upd_view w w' t v v' : view w t v -> upd w w' t v' -> view w' t v'.
Proof.
  intros (r & R & post & Hr & Hl) [_ HU]. pose proof (HU _ _ _ _ Hr Hl r) as Hr'.
  rewrite decide_True in Hr' by done. by eexists _, _, _.
Qed.

Lemma upd_writable w w' t v' : writable w t -> upd w w' t v' -> writable w' t.
Proof.
  intros (r & R & v & post & Hr & Hd & Hl) [_ HU]. pose proof (HU _ _ _ _ Hr Hl r) as Hr'.
  rewrite decide_True in Hr' by done. by eexists _, _, _, _.
Qed.

Lemma same_upd w1 w2 w3 t v : same w1 w2 -> upd w2 w3 t v -> upd w1 w3 t v.
Proof.
  intros [C R] [CU RU]. split; [intros e; by rewrite CU, C|].
  intros r RR v0 post Hr Hl r'. rewrite <- R in Hr.
  rewrite (RU _ _ _ _ Hr Hl r'). by rewrite R.
Qed.

Lemma upd_same w1 w2 w3 t v : upd w1 w2 t v -> same w2 w3 -> upd w1 w3 t v.
Proof.
  intros [CU RU] [C R]. split; [intros e; by rewrite C, CU|].
  intros r RR v0 post Hr Hl r'. rewrite R. by apply (RU _ _ v0).
Qed.

Lemma upd_upd w1 w2 w3 t v v' : upd w1 w2 t v -> upd w2 w3 t v' -> upd w1 w3 t v'.
Proof.
  intros [CU RU] [CU' RU']. split; [intros e; by rewrite CU', CU|].
  intros r RR v0 post Hr Hl r'. pose proof (RU _ _ _ _ Hr Hl) as R2.
  pose proof (R2 r) as Hr2. rewrite decide_True in Hr2 by done.
  rewrite (RU' _ _ _ _ Hr2 eq_refl r'). cbn. destruct (decide (r' = r)); [done|].
  rewrite R2. by rewrite decide_False.
Qed.

Lemma view_inj w t v v' : view w t v -> view w t v' -> v = v'.
Proof.
  intros (r & R & post & Hr & Hl) (r' & R' & post' & Hr' & Hl').
  assert (r = r') as <-.
  { apply (levels_disjoint w r r' R R' t Hr Hr'); rewrite ?Hl, ?Hl'; cbn; left. }
  rewrite Hr in Hr'. injection Hr' as <-. rewrite Hl in Hl'. by injection Hl'.
Qed.

Lemma view_exists w r R : roots w r = Some R -> exists t v post, R.(r_levels) = (t, v) :: post.
Proof.
  intros Hr. destruct (levels_last w r R Hr) as [v Hv].
  destruct (r_levels R) as [|[t v'] post]; [done|]. by eauto.
Qed.

End consequences.
