(* ===== verification/LmdbSim.v ===== *)
(** * An executable LMDB

    A small in-memory implementation of the interface of Lmdb.v, which obeys
    [LmdbLaws].  It is not a model of LMDB's source; the concrete runs of the
    back-end in the other files are computed with it. *)

From stdpp Require Import strings.
From S2P Require Import Prelude Mem Serial Lmdb.

(** An open root transaction: a reader, or a writer with the snapshots of its
    levels, the innermost first. *)
Inductive sim_root : Type :=
  | SReader (e : Z) (v : snapshot)
  | SWriter (e : Z) (v : snapshot) (vs : list snapshot).

Record sim := Sim {
  sim_committed : gmap Z snapshot;
  sim_roots : gmap Z sim_root;
  sim_dbis : list string;
  sim_envs : gmap Z (string * Z) }.

Definition sim0 : sim := Sim ∅ ∅ [] ∅.

(** A handle: the root and the depth. *)
Definition sim_txn : Type := Z * nat.

Definition with_roots (w : sim) m : sim := Sim w.(sim_committed) m w.(sim_dbis) w.(sim_envs).

Definition sim_snapshot (w : sim) (e : Z) : snapshot :=
  default empty_snapshot (w.(sim_committed) !! e).

Definition root_env (R : sim_root) : Z := match R with SReader e _ | SWriter e _ _ => e end.
Definition is_writer (R : sim_root) : bool := if R is SWriter _ _ _ then true else false.

Definition busy (w : sim) (e : Z) : bool :=
  existsb (fun kR => is_writer kR.2 && (root_env kR.2 =? e)) (map_to_list w.(sim_roots)).

Definition sim_begin (w : sim) (e : Z) (parent : option sim_txn) (rd : bool)
    : option (Z * sim_txn * sim) :=
  match parent with
  | None =>
      if negb rd && busy w e then None
      else
        let r := fresh (dom w.(sim_roots)) in
        let R := if rd then SReader e (sim_snapshot w e) else SWriter e (sim_snapshot w e) [] in
        Some (0, (r, O), with_roots w (<[r := R]> w.(sim_roots)))
  | Some (r, d) =>
      match w.(sim_roots) !! r with
      | Some (SWriter e v vs) =>
          if decide (d = length vs) then
            Some (0, (r, S d), with_roots w (<[r := SWriter e v (v :: vs)]> w.(sim_roots)))
          else Some (MDB_BAD_TXN, (r, d), w)
      | _ => Some (MDB_BAD_TXN, (r, d), w)
      end
  end.

Definition sim_commit (w : sim) (t : sim_txn) : Z * sim :=
  let '(r, d) := t in
  match w.(sim_roots) !! r with
  | Some (SReader _ _) => (0, with_roots w (delete r w.(sim_roots)))
  | Some (SWriter e v vs) =>
      match drop (S (length vs) - d) (v :: vs) with
      | [] => (0, Sim (<[e := v]> w.(sim_committed)) (delete r w.(sim_roots)) w.(sim_dbis) w.(sim_envs))
      | _ :: post => (0, with_roots w (<[r := SWriter e v post]> w.(sim_roots)))
      end
  | None => (MDB_BAD_TXN, w)
  end.

Definition sim_abort (w : sim) (t : sim_txn) : sim :=
  let '(r, d) := t in
  match w.(sim_roots) !! r with
  | Some (SReader _ _) => with_roots w (delete r w.(sim_roots))
  | Some (SWriter e v vs) =>
      match drop (S (length vs) - d) (v :: vs) with
      | [] => with_roots w (delete r w.(sim_roots))
      | p :: post => with_roots w (<[r := SWriter e p post]> w.(sim_roots))
      end
  | None => w
  end.

(** ** Databases *)

(** What an innermost transaction sees, and whether it may write. *)
Definition sim_view (w : sim) (t : sim_txn) : option (bool * snapshot) :=
  let '(r, d) := t in
  match w.(sim_roots) !! r with
  | Some (SReader _ v) => if d is O then Some (false, v) else None
  | Some (SWriter _ v vs) => if decide (d = length vs) then Some (true, v) else None
  | None => None
  end.

Definition sim_set (w : sim) (t : sim_txn) (v' : snapshot) : sim :=
  match w.(sim_roots) !! t.1 with
  | Some (SWriter e v vs) => with_roots w (<[t.1 := SWriter e v' vs]> w.(sim_roots))
  | _ => w
  end.

Fixpoint index_of (n : string) (l : list string) : nat :=
  match l with
  | [] => O
  | x :: l => if bool_decide (x = n) then O else S (index_of n l)
  end.

(** The handle of a named database, allocated on first use. *)
Definition sim_dbi (w : sim) (n : string) : Z * sim :=
  let i := index_of n w.(sim_dbis) in
  (Z.of_nat i + 2,
   if decide (i < length w.(sim_dbis))%nat then w
   else Sim w.(sim_committed) w.(sim_roots) (w.(sim_dbis) ++ [n]) w.(sim_envs)).

Definition sim_open (w : sim) (t : sim_txn) (name : option string) (fl : Z) : Z * Z * sim :=
  match name with
  | None => (0, MAIN_DBI, w)
  | Some n =>
      match sim_view w t with
      | None => (MDB_BAD_TXN, 0, w)
      | Some (wr, v) =>
          match v.(s_tables) !! n with
          | Some _ => let '(dbi, w) := sim_dbi w n in (0, dbi, w)
          | None =>
              if negb (Z.land fl MDB_CREATE =? 0) && wr then
                let '(dbi, w) := sim_dbi w n in
                (0, dbi, sim_set w t (set_table v n (Table (Z.land fl (Z.lnot MDB_CREATE)) [])))
              else (MDB_NOTFOUND, 0, w)
          end
      end
  end.

Definition sim_name (w : sim) (t : sim_txn) (dbi : Z) : option (option string) :=
  if dbi =? MAIN_DBI then Some None
  else if dbi <? 2 then None
  else Some <$> (w.(sim_dbis) !! Z.to_nat (dbi - 2)).

Definition sim_dbs (w : sim) (t : sim_txn) (dbi : Z) : MDB_db :=
  match sim_view w t, sim_name w t dbi with
  | Some (_, v), Some None =>
      let k := Z.of_nat (size v.(s_main)) + Z.of_nat (size v.(s_tables)) in mkDb 0 k (k =? 0)
  | Some (_, v), Some (Some n) =>
      match v.(s_tables) !! n with
      | Some tb => mkDb tb.(t_flags) (Z.of_nat (length tb.(t_rows))) (bool_decide (tb.(t_rows) = []))
      | None => mkDb 0 0 true
      end
  | _, _ => mkDb 0 0 true
  end.

Definition sim_get (w : sim) (t : sim_txn) (dbi : Z) (k : bytes) : Z * bytes :=
  match sim_view w t with
  | Some (_, v) => match v.(s_main) !! k with Some d => (0, d) | None => (MDB_NOTFOUND, []) end
  | None => (MDB_BAD_TXN, [])
  end.

Definition sim_put (w : sim) (t : sim_txn) (dbi : Z) (k d : bytes) (fl : Z) : Z * sim :=
  match sim_view w t with
  | Some (true, v) => (0, sim_set w t (set_main v k d))
  | Some (false, _) => (13, w)
  | None => (MDB_BAD_TXN, w)
  end.

Definition sim_drop (w : sim) (t : sim_txn) (dbi : Z) (del : bool) : Z * sim :=
  match sim_view w t, sim_name w t dbi with
  | Some (true, v), Some (Some n) =>
      match v.(s_tables) !! n with
      | Some tb =>
          (0, sim_set w t (if del then remove_table v n else set_table v n (Table tb.(t_flags) [])))
      | None => (MDB_NOTFOUND, w)
      end
  | Some (false, _), _ => (13, w)
  | _, _ => (MDB_BAD_TXN, w)
  end.

(** ** Cursors: a position is an index into the rows *)

Abbreviation sim_cursor := (MDB_cursor sim_txn nat).

Definition sim_rows (w : sim) (m : sim_cursor) : list (bytes * bytes) :=
  match m.(mc_txn) with
  | Some t =>
      match sim_view w t, sim_name w t m.(mc_dbi) with
      | Some (_, v), Some (Some n) => from_option t_rows [] (v.(s_tables) !! n)
      | _, _ => []
      end
  | None => []
  end.

Definition sim_at (rows : list (bytes * bytes)) (m : sim_cursor) (i : nat)
    : Z * (bytes * bytes) * sim_cursor :=
  match rows !! i with
  | Some kd => (0, kd, mkMc m.(mc_txn) m.(mc_dbi) true false i)
  | None => (MDB_NOTFOUND, ([], []), mkMc m.(mc_txn) m.(mc_dbi) true true i)
  end.

(** The index of the first row with the key. *)
Fixpoint find_row (k : bytes) (rows : list (bytes * bytes)) : nat :=
  match rows with
  | [] => O
  | kd :: rows => if bool_decide (kd.1 = k) then O else S (find_row k rows)
  end.

Definition sim_cursor_get (w : sim) (m : sim_cursor) (op : cursor_op) (key : probe) (data : option bytes)
    : Z * (bytes * bytes) * sim_cursor :=
  let rows := sim_rows w m in
  match op with
  | CUR_CURRENT => if m.(mc_initialized) then sim_at rows m m.(mc_pos) else (22, ([], []), m)
  | CUR_FIRST => sim_at rows m O
  | CUR_LAST => sim_at rows m (pred (length rows))
  | CUR_NEXT => sim_at rows m (if m.(mc_initialized) then S m.(mc_pos) else O)
  | CUR_PREV =>
      if m.(mc_initialized) then
        match m.(mc_pos) with
        | O => (MDB_NOTFOUND, ([], []), m)
        | S i => sim_at rows m i
        end
      else sim_at rows m (pred (length rows))
  | CUR_SET | CUR_SET_RANGE | CUR_GET_BOTH_RANGE =>
      match key with
      | ByBytes k => sim_at rows m (find_row k rows)
      | _ => (MDB_NOTFOUND, ([], []), m)
      end
  end.

(** ** Environments *)

Definition sim_env_create (w : sim) : Z * Z * sim :=
  let e := 1 + foldr Z.max 0 (map fst (map_to_list w.(sim_envs))) in
  (0, e, Sim w.(sim_committed) w.(sim_roots) w.(sim_dbis) (<[e := (""%string, 0)]> w.(sim_envs))).

Definition sim_env_open (w : sim) (e : Z) (path : string) (fl : Z) : Z * sim :=
  (0, Sim w.(sim_committed) w.(sim_roots) w.(sim_dbis) (<[e := (path, fl)]> w.(sim_envs))).

#[export] Instance sim_lmdb : Lmdb := {|
  lmdb := sim;
  txn := sim_txn;
  pos := nat;
  pos0 := O;
  mdb_env_create := sim_env_create;
  mdb_env_set_maxdbs w _ _ := w;
  mdb_env_set_maxreaders w _ _ := w;
  mdb_env_set_mapsize w _ _ := w;
  mdb_env_set_flags w e fl on :=
    let '(path, old) := default (""%string, 0) (w.(sim_envs) !! e) in
    Sim w.(sim_committed) w.(sim_roots) w.(sim_dbis)
      (<[e := (path, if on then Z.lor old fl else Z.land old (Z.lnot fl))]> w.(sim_envs));
  mdb_env_open := sim_env_open;
  mdb_env_close w e := Sim w.(sim_committed) w.(sim_roots) w.(sim_dbis) (delete e w.(sim_envs));
  mdb_env_sync w _ _ := (0, w);
  me_path w e := (default (""%string, 0) (w.(sim_envs) !! e)).1;
  me_flags w e := (default (""%string, 0) (w.(sim_envs) !! e)).2;
  me_psize _ _ := 4096;
  me_maxpg _ _ := 65536;
  mdb_txn_begin := sim_begin;
  mdb_txn_commit := sim_commit;
  mdb_txn_abort := sim_abort;
  mt_parent _ t := if t.2 is S d then Some (t.1, d) else None;
  mt_rdonly w t := match w.(sim_roots) !! t.1 with Some (SReader _ _) => true | _ => false end;
  mt_next_pgno _ _ := 2;
  mdb_open := sim_open;
  mdb_set_compare w _ _ := w;
  mt_dbs := sim_dbs;
  mdb_get := sim_get;
  mdb_put := sim_put;
  mdb_drop := sim_drop;
  mdb_cursor_init _ t dbi := mkMc (Some t) dbi false false O;
  mdb_cursor_get := sim_cursor_get;
  mdb_cursor_set_both w m k d := (sim_cursor_get w m CUR_SET (ByBytes k) None).2 |}.

(** ** The laws *)

(** Levels with their handles. *)
Fixpoint levels (r : Z) (vs : list snapshot) : list (sim_txn * snapshot) :=
  match vs with
  | [] => []
  | v :: vs => ((r, length vs), v) :: levels r vs
  end.

Definition sim_roots_of (w : sim) (t : sim_txn) : option (root sim_txn) :=
  match t.2, w.(sim_roots) !! t.1 with
  | O, Some (SReader e v) => Some (Root _ e true [(t, v)])
  | O, Some (SWriter e v vs) => Some (Root _ e false (levels t.1 (v :: vs)))
  | _, _ => None
  end.

#[export] Instance sim_abs : LmdbAbs := {|
  committed := sim_snapshot;
  roots := sim_roots_of;
  dbi_name := sim_name |}.

Lemma levels_split r vs pre t v post :
  levels r vs = pre ++ (t, v) :: post ->
  t = (r, length post) /\
  exists vpre vpost, vs = vpre ++ v :: vpost /\ pre = take (length vpre) (levels r vs) /\
    length pre = length vpre /\ post = levels r vpost /\ length vpost = length post.
Proof.
  revert pre. induction vs as [|x vs IH]; intros pre Hl; [by destruct pre|].
  destruct pre as [|a pre]; cbn in Hl.
  - injection Hl as <- -> <-. assert (length vs = length (levels r vs)) as HL.
    { clear. induction vs; cbn; congruence. }
    split; [by rewrite HL|]. exists [], vs. by repeat split.
  - injection Hl as <- Hl. destruct (IH _ Hl) as (-> & vpre & vpost & -> & Hp & Hn & -> & HL).
    split; [done|]. exists (x :: vpre), vpost.
    split; [done|]. split; [cbn; by rewrite Hp|]. split; [cbn; lia|]. done.
Qed.

Lemma levels_head r vs d : from_option snd d (head (levels r vs)) = default d (head vs).
Proof. by destruct vs. Qed.

Lemma levels_length r vs : length (levels r vs) = length vs.
Proof. induction vs; cbn; congruence. Qed.

Lemma levels_handles r vs t : t ∈ map fst (levels r vs) -> t.1 = r /\ (t.2 < length vs)%nat.
Proof.
  induction vs as [|v vs IH]; cbn; [by intros ?%elem_of_nil|].
  intros [-> | [? ?]%IH]%elem_of_cons; cbn; split; done || lia.
Qed.

Lemma levels_nodup_fst r vs : NoDup (map fst (levels r vs)).
Proof.
  induction vs as [|v vs IH]; cbn; [constructor|]. constructor; [|done].
  intros [_ Hlt]%levels_handles. cbn in Hlt. lia.
Qed.

Lemma levels_last_root r v vs : exists x, last (levels r (v :: vs)) = Some ((r, O), x).
Proof.
  revert v. induction vs as [|y vs IH]; intros v; [by exists v|].
  destruct (IH y) as [x Hx]. exists x. cbn in *. done.
Qed.

(** What a root looks like. *)
Lemma sim_root_inv w r R :
  sim_roots_of w r = Some R ->
  exists k, r = (k, O) /\
    ((exists e v, w.(sim_roots) !! k = Some (SReader e v) /\ R = Root _ e true [(r, v)]) \/
     (exists e v vs, w.(sim_roots) !! k = Some (SWriter e v vs) /\
        R = Root _ e false (levels k (v :: vs)))).
Proof.
  destruct r as [k d]. unfold sim_roots_of. cbn. destruct d; [|done].
  destruct (sim_roots w !! k) as [[e v|e v vs]|] eqn:E; [| |done]; intros [= <-]; exists k;
    split; [done| |done|]; [left|right]; eauto.
Qed.

Lemma sim_roots_alter w k x t :
  sim_roots_of (with_roots w (<[k := x]> w.(sim_roots))) t =
  if decide (t = (k, O)) then
    match x with
    | SReader e v => Some (Root _ e true [(t, v)])
    | SWriter e v vs => Some (Root _ e false (levels k (v :: vs)))
    end
  else sim_roots_of w t.
Proof.
  destruct t as [k' d]. unfold sim_roots_of. cbn. case_decide as Hd.
  - injection Hd as -> ->. by rewrite lookup_insert_eq.
  - destruct d; [|done]. rewrite lookup_insert_ne; [done|congruence].
Qed.

Lemma sim_roots_delete c w k dbis envs t :
  sim_roots_of (Sim c (delete k w.(sim_roots)) dbis envs) t =
  if decide (t = (k, O)) then None else sim_roots_of w t.
Proof.
  destruct t as [k' d]. unfold sim_roots_of. cbn. case_decide as Hd.
  - injection Hd as -> ->. by rewrite lookup_delete_eq.
  - destruct d; [|done]. rewrite lookup_delete_ne; [done|congruence].
Qed.

Lemma sim_view_inv w t v :
  view w t v ->
  exists k d e, t = (k, d) /\
    ((d = O /\ w.(sim_roots) !! k = Some (SReader e v) /\ sim_view w t = Some (false, v)) \/
     (exists vs, d = length vs /\ w.(sim_roots) !! k = Some (SWriter e v vs) /\
        sim_view w t = Some (true, v))).
Proof.
  intros (r & R & post & Hr & Hl). destruct (sim_root_inv _ _ _ Hr) as (k & -> & [(e & v' & Hk & ->) | (e & v' & vs & Hk & ->)]).
  - cbn in Hl. injection Hl as <- <- _. exists k, O, e. split; [done|]. left.
    unfold sim_view. rewrite Hk. done.
  - cbn in Hl. injection Hl as <- <- _. exists k, (length vs), e. split; [done|]. right.
    exists vs. unfold sim_view. rewrite Hk, decide_True by done. done.
Qed.

Lemma sim_writable w t v k d e vs :
  t = (k, d) -> d = length vs -> w.(sim_roots) !! k = Some (SWriter e v vs) ->
  writable w t /\ forall v', upd w (sim_set w t v') t v'.
Proof.
  intros -> -> Hk. split.
  - exists (k, O), (Root _ e false (levels k (v :: vs))), v, (levels k vs).
    unfold roots. cbn. unfold sim_roots_of. cbn. by rewrite Hk.
  - intros v'. unfold sim_set. cbn [fst]. rewrite Hk. split; [done|].
    intros r R v0 post Hr Hl r'. cbn [roots sim_abs]. rewrite sim_roots_alter.
    destruct (sim_root_inv _ _ _ Hr) as (k' & -> & [(e' & u & Hk' & ->) | (e' & u & us & Hk' & ->)]).
    + cbn in Hl. injection Hl as -> HL <- <-. rewrite Hk in Hk'. done.
    + cbn in Hl. injection Hl as -> HL <- <-. rewrite Hk in Hk'. injection Hk' as <- <- <-. done.
Qed.

Lemma sim_disjoint w r1 r2 R1 R2 t :
  sim_roots_of w r1 = Some R1 -> sim_roots_of w r2 = Some R2 ->
  t ∈ map fst R1.(r_levels) -> t ∈ map fst R2.(r_levels) -> r1 = r2.
Proof.
  assert (forall r R, sim_roots_of w r = Some R -> t ∈ map fst R.(r_levels) -> r = (t.1, O)) as HX.
  { intros r R Hr Ht.
    destruct (sim_root_inv _ _ _ Hr) as (k & -> & [(e & v & Hk & ->) | (e & v & vs & Hk & ->)]).
    - cbn in Ht. apply list_elem_of_singleton in Ht as ->. done.
    - by destruct (levels_handles k (v :: vs) t Ht) as [-> _]. }
  intros H1 H2 T1 T2. by rewrite (HX _ _ H1 T1), (HX _ _ H2 T2).
Qed.

Lemma busy_false w e k R :
  busy w e = false -> w.(sim_roots) !! k = Some R -> root_env R = e -> is_writer R = false.
Proof.
  intros Hb Hk He. destruct (is_writer R) eqn:E; [|done].
  unfold busy in Hb. rewrite <- Bool.not_true_iff_false in Hb. destruct Hb.
  apply existsb_exists. exists (k, R). split; [by apply list_elem_of_In, elem_of_map_to_list|].
  cbn. rewrite E, He. by rewrite Z.eqb_refl.
Qed.

Lemma sim_begin_root w e rd rc t w' :
  sim_begin w e None rd = Some (rc, t, w') ->
  if rc =? 0 then
    sim_roots_of w t = None /\ (forall e', sim_snapshot w' e' = sim_snapshot w e') /\
    (forall r, sim_roots_of w' r =
       if decide (r = t) then Some (Root _ e rd [(t, sim_snapshot w e)]) else sim_roots_of w r) /\
    (rd = false -> forall r R, sim_roots_of w r = Some R -> R.(r_env) = e -> R.(r_rdonly) = true)
  else same w w'.
Proof.
  cbn [sim_begin]. destruct (negb rd && busy w e) eqn:Hb; [done|]. intros [= <- <- <-]. cbn [Z.eqb].
  set (k := fresh (dom (sim_roots w))).
  assert (w.(sim_roots) !! k = None) as Hk by (apply not_elem_of_dom; apply is_fresh).
  split; [unfold sim_roots_of; cbn; by rewrite Hk|]. split; [done|]. split.
  - intros r. rewrite sim_roots_alter. case_decide as Hd; [|done]. subst r. by destruct rd.
  - intros -> r R Hr He. cbn in Hb.
    destruct (sim_root_inv _ _ _ Hr) as (k' & -> & [(e' & v & Hk' & ->) | (e' & v & vs & Hk' & ->)]);
      [done|].
    pose proof (busy_false w e k' _ Hb Hk' He). done.
Qed.

Lemma sim_begin_child w e r R p v rest rc t w' :
  sim_roots_of w r = Some R -> R.(r_rdonly) = false -> R.(r_levels) = (p, v) :: rest ->
  sim_begin w e (Some p) false = Some (rc, t, w') ->
  if rc =? 0 then
    (forall e', sim_snapshot w' e' = sim_snapshot w e') /\
    (forall r', sim_roots_of w' r' =
       if decide (r' = r) then Some (Root _ R.(r_env) false ((t, v) :: (p, v) :: rest))
       else sim_roots_of w r')
  else same w w'.
Proof.
  intros Hr Hd Hl Hb.
  destruct (sim_root_inv _ _ _ Hr) as (k & -> & [(e' & u & Hk & ->) | (e' & u & us & Hk & ->)]); [done|].
  cbn in Hl. injection Hl as <- <- <-. cbn in Hb. rewrite Hk, decide_True in Hb by done.
  injection Hb as <- <- <-. cbn [Z.eqb]. split; [done|]. intros r'. rewrite sim_roots_alter. done.
Qed.

Lemma drop_levels k vs vpre v vpost (post : list (sim_txn * snapshot)) :
  vs = vpre ++ v :: vpost -> length vpost = length post ->
  drop (length vs - length post) vs = vpost /\
  drop (S (length vpre)) (levels k vs) = levels k vpost.
Proof.
  intros -> HL. split.
  - rewrite length_app. cbn [length].
    replace (length vpre + S (length vpost) - length post)%nat with (S (length vpre)) by lia.
    clear. induction vpre; done.
  - clear. induction vpre; done.
Qed.

Lemma sim_commit_law w r R pre t v post rc w' :
  sim_roots_of w r = Some R -> R.(r_levels) = pre ++ (t, v) :: post ->
  sim_commit w t = (rc, w') ->
  let top := from_option snd v (head pre) in
  (forall e, sim_snapshot w' e =
     if bool_decide (rc = 0 /\ post = [] /\ R.(r_rdonly) = false /\ e = R.(r_env))
     then top else sim_snapshot w e) /\
  (forall r', sim_roots_of w' r' =
     if decide (r' = r) then
       match post with
       | [] => None
       | (p, pv) :: post' =>
           Some (Root _ R.(r_env) R.(r_rdonly) ((p, if rc =? 0 then top else pv) :: post'))
       end
     else sim_roots_of w r').
Proof.
  intros Hr Hl Hc.
  destruct (sim_root_inv _ _ _ Hr) as (k & -> & [(e' & u & Hk & ->) | (e' & u & us & Hk & ->)]);
    cbn [r_levels r_env r_rdonly] in *.
  - destruct pre as [|? [|]]; [|done..]. injection Hl as <- <- <-. cbn in Hc. rewrite Hk in Hc.
    injection Hc as <- <-. split.
    + intros e. by rewrite bool_decide_eq_false_2 by (by intros (_ & _ & ? & _)).
    + intros r'. unfold with_roots. by rewrite sim_roots_delete.
  - destruct (levels_split _ _ _ _ _ _ Hl) as (-> & vpre & vpost & Hvs & Hpre & Hn & -> & HL).
    set (top := from_option snd v (head pre)).
    assert (top = u) as Htop.
    { unfold top. destruct vpre as [|a vpre]; cbn in Hpre.
      - subst pre. cbn in *. by injection Hvs.
      - subst pre. cbn in *. by injection Hvs. }
    unfold sim_commit in Hc. rewrite Hk in Hc. rewrite levels_length in Hc.
    change (S (length us)) with (length (u :: us)) in Hc.
    rewrite <- (levels_length k vpost) in Hc.
    rewrite (proj1 (drop_levels k _ _ _ _ (levels k vpost) Hvs (eq_sym (levels_length _ _)))) in Hc.
    cbv zeta. rewrite Htop. destruct vpost as [|y vpost]; injection Hc as <- <-.
    + split; [|intros r'; by rewrite sim_roots_delete].
      intros e. unfold sim_snapshot. cbn. case_bool_decide as Hd.
      * destruct Hd as (_ & _ & _ & ->). by rewrite lookup_insert_eq.
      * rewrite lookup_insert_ne; [done|]. naive_solver.
    + split; [intros e; by rewrite bool_decide_eq_false_2 by (by intros (_ & ? & _))|].
      intros r'. by rewrite sim_roots_alter.
Qed.

Lemma sim_abort_law w r R pre t v post :
  sim_roots_of w r = Some R -> R.(r_levels) = pre ++ (t, v) :: post ->
  (forall e, sim_snapshot (sim_abort w t) e = sim_snapshot w e) /\
  (forall r', sim_roots_of (sim_abort w t) r' =
     if decide (r' = r) then
       match post with
       | [] => None
       | _ => Some (Root _ R.(r_env) R.(r_rdonly) post)
       end
     else sim_roots_of w r').
Proof.
  intros Hr Hl.
  destruct (sim_root_inv _ _ _ Hr) as (k & -> & [(e' & u & Hk & ->) | (e' & u & us & Hk & ->)]);
    cbn [r_levels r_env r_rdonly] in *.
  - destruct pre as [|? [|]]; [|done..]. injection Hl as <- <- <-. cbn. rewrite Hk.
    split; [done|]. intros r'. unfold with_roots; by rewrite sim_roots_delete.
  - destruct (levels_split _ _ _ _ _ _ Hl) as (-> & vpre & vpost & Hvs & Hpre & Hn & -> & HL).
    unfold sim_abort. rewrite Hk, levels_length.
    change (S (length us)) with (length (u :: us)).
    rewrite <- (levels_length k vpost).
    rewrite (proj1 (drop_levels k _ _ _ _ (levels k vpost) Hvs (eq_sym (levels_length _ _)))).
    destruct vpost as [|y vpost]; (split; [done|]); intros r'.
    + unfold with_roots; by rewrite sim_roots_delete.
    + by rewrite sim_roots_alter.
Qed.

Lemma sim_parent_law w r R pre t v post :
  sim_roots_of w r = Some R -> R.(r_levels) = pre ++ (t, v) :: post ->
  mt_parent w t = fst <$> head post /\ mt_rdonly w t = R.(r_rdonly).
Proof.
  intros Hr Hl.
  destruct (sim_root_inv _ _ _ Hr) as (k & -> & [(e' & u & Hk & ->) | (e' & u & us & Hk & ->)]);
    cbn [r_levels r_env r_rdonly] in *.
  - destruct pre as [|? [|]]; [|done..]. injection Hl as <- <- <-. cbn. by rewrite Hk.
  - destruct (levels_split _ _ _ _ _ _ Hl) as (-> & vpre & vpost & Hvs & Hpre & Hn & -> & HL).
    cbn. rewrite Hk, levels_length. split; [|done]. by destruct vpost.
Qed.

(** *** Databases *)

Lemma index_of_spec n l :
  (index_of n l <= length l)%nat /\
  (forall i, index_of n l = i -> (i < length l)%nat -> l !! i = Some n).
Proof.
  induction l as [|x l [IH1 IH2]]; cbn; [split; [lia|intros i <-; lia]|].
  case_bool_decide as Hx.
  - split; [lia|]. intros i <- _. by rewrite Hx.
  - split; [lia|]. intros i <- Hi. cbn. apply IH2; [done|lia].
Qed.

Lemma sim_dbi_spec w n dbi w' :
  sim_dbi w n = (dbi, w') ->
  same w w' /\ w'.(sim_roots) = w.(sim_roots) /\ (forall t, sim_name w' t dbi = Some (Some n)).
Proof.
  unfold sim_dbi. destruct (index_of_spec n (sim_dbis w)) as [H1 H2].
  set (i := index_of n (sim_dbis w)) in *. intros [= <- <-].
  assert (forall ds, ds !! i = Some n -> sim_name (Sim w.(sim_committed) w.(sim_roots) ds w.(sim_envs))
            ((0, O) : sim_txn) (Z.of_nat i + 2) = Some (Some n)) as Hname.
  { intros ds Hds. unfold sim_name, MAIN_DBI.
    destruct (Z.eqb_spec (Z.of_nat i + 2) 1); [lia|].
    destruct (Z.ltb_spec (Z.of_nat i + 2) 2); [lia|].
    replace (Z.to_nat (Z.of_nat i + 2 - 2)) with i by lia. cbn. by rewrite Hds. }
  case_decide as Hi; (split; [done|]); (split; [done|]); intros t.
  - destruct w. apply Hname, H2; done.
  - apply (Hname (w.(sim_dbis) ++ [n])).
    replace i with (length w.(sim_dbis)) by lia. by rewrite lookup_app_r, Nat.sub_diag by lia.
Qed.

Lemma sim_open_main w t v fl rc dbi w' :
  view w t v -> mdb_open w t None fl = (rc, dbi, w') ->
  rc = 0 /\ dbi = MAIN_DBI /\ same w w' /\ dbi_name w' t dbi = Some None.
Proof. intros _ [= <- <- <-]. done. Qed.

Lemma sim_open_named w t v n fl rc dbi w' :
  view w t v -> mdb_open w t (Some n) fl = (rc, dbi, w') ->
  if rc =? 0 then
    dbi_name w' t dbi = Some (Some n) /\
    match v.(s_tables) !! n with
    | Some _ => same w w'
    | None => Z.land fl MDB_CREATE <> 0 /\ writable w t /\
        upd w w' t (set_table v n (Table (Z.land fl (Z.lnot MDB_CREATE)) []))
    end
  else same w w'.
Proof.
  intros Hv Ho. destruct (sim_view_inv _ _ _ Hv) as (k & d & e & -> & Hcase).
  cbn [mdb_open sim_lmdb sim_open] in Ho.
  assert (exists wr, sim_view w (k, d) = Some (wr, v) /\
    (wr = true -> exists vs, d = length vs /\ w.(sim_roots) !! k = Some (SWriter e v vs)))
    as (wr & Hsv & Hwr).
  { destruct Hcase as [(_ & _ & Hs) | (vs & Hd & Hk & Hs)]; [by exists false|].
    exists true. split; [done|]. by exists vs. }
  unfold sim_open in Ho. rewrite Hsv in Ho. destruct (s_tables v !! n) as [tb|] eqn:Htb.
  - destruct (sim_dbi w n) as [dbi' w1] eqn:Hd. injection Ho as <- <- <-.
    destruct (sim_dbi_spec _ _ _ _ Hd) as (HS & _ & HN). by split.
  - destruct (negb (Z.land fl MDB_CREATE =? 0) && wr) eqn:Hc; [|by injection Ho as <- <- <-].
    apply andb_prop in Hc as [Hfl%negb_true_iff%Z.eqb_neq ->].
    destruct (Hwr eq_refl) as (vs & Hd & Hk).
    destruct (sim_dbi w n) as [dbi' w1] eqn:HD. injection Ho as <- <- <-.
    destruct (sim_dbi_spec _ _ _ _ HD) as (HS & HR & HN). cbn [Z.eqb].
    pose proof Hk as Hk1. rewrite <- HR in Hk1.
    split.
    + specialize (HN (k, d)). cbn [dbi_name sim_abs]. unfold sim_set. cbn [fst]. rewrite Hk1. exact HN.
    + split; [done|]. split; [by apply (sim_writable w (k, d) v k d e vs)|].
      eapply same_upd; [exact HS|]. by apply (sim_writable w1 (k, d) v k d e vs).
Qed.

Lemma sim_main_law w t v :
  view w t v ->
  md_entries (sim_dbs w t MAIN_DBI) = Z.of_nat (size v.(s_main)) + Z.of_nat (size v.(s_tables)).
Proof.
  intros Hv. destruct (sim_view_inv _ _ _ Hv) as (k & d & e & -> & Hcase).
  unfold sim_dbs. by destruct Hcase as [(_ & _ & ->) | (vs & _ & _ & ->)].
Qed.

Lemma sim_db_law w t v dbi n tb :
  view w t v -> sim_name w t dbi = Some (Some n) -> v.(s_tables) !! n = Some tb ->
  sim_dbs w t dbi =
    mkDb tb.(t_flags) (Z.of_nat (length tb.(t_rows))) (bool_decide (tb.(t_rows) = [])).
Proof.
  intros Hv Hn Htb. destruct (sim_view_inv _ _ _ Hv) as (k & d & e & -> & Hcase).
  unfold sim_dbs. rewrite Hn.
  destruct Hcase as [(_ & _ & ->) | (vs & _ & _ & ->)]; by rewrite Htb.
Qed.

Lemma sim_get_law w t v dbi k :
  view w t v -> sim_name w t dbi = Some None ->
  match v.(s_main) !! k with
  | Some d => sim_get w t dbi k = (0, d)
  | None => fst (sim_get w t dbi k) <> 0
  end.
Proof.
  intros Hv _. destruct (sim_view_inv _ _ _ Hv) as (r & d & e & -> & Hcase).
  unfold sim_get. destruct Hcase as [(_ & _ & ->) | (vs & _ & _ & ->)]; by destruct (s_main v !! k).
Qed.

Lemma sim_put_law w t v dbi k d rc w' :
  view w t v -> sim_name w t dbi = Some None -> sim_put w t dbi k d 0 = (rc, w') ->
  if rc =? 0 then writable w t /\ upd w w' t (set_main v k d) else same w w'.
Proof.
  intros Hv _ Hp. destruct (sim_view_inv _ _ _ Hv) as (r & dd & e & -> & Hcase).
  unfold sim_put in Hp. destruct Hcase as [(_ & _ & HE) | (vs & Hd & Hk & HE)]; rewrite HE in Hp.
  - by injection Hp as <- <-.
  - injection Hp as <- <-. destruct (sim_writable w (r, dd) v r dd e vs eq_refl Hd Hk). by split.
Qed.

Lemma sim_drop_law w t v dbi n tb del rc w' :
  view w t v -> sim_name w t dbi = Some (Some n) -> v.(s_tables) !! n = Some tb ->
  sim_drop w t dbi del = (rc, w') ->
  if rc =? 0 then
    writable w t /\
    upd w w' t (if del : bool then remove_table v n else set_table v n (Table tb.(t_flags) []))
  else same w w'.
Proof.
  intros Hv Hn Htb Hp. destruct (sim_view_inv _ _ _ Hv) as (r & dd & e & -> & Hcase).
  unfold sim_drop in Hp. rewrite Hn in Hp.
  destruct Hcase as [(_ & _ & HE) | (vs & Hd & Hk & HE)]; rewrite HE in Hp.
  - by injection Hp as <- <-.
  - rewrite Htb in Hp. injection Hp as <- <-.
    destruct (sim_writable w (r, dd) v r dd e vs eq_refl Hd Hk). by split.
Qed.

Lemma sim_open_flags w t n fl e : me_flags (mdb_open w t n fl).2 e = me_flags w e.
Proof.
  destruct n as [n|]; [|done]. cbn [mdb_open sim_lmdb sim_open]. unfold sim_open.
  assert (sim_envs (sim_dbi w n).2 = sim_envs w) as Hd by (unfold sim_dbi; cbn; by case_decide).
  assert (forall w0 v', sim_envs (sim_set w0 t v') = sim_envs w0) as Hs.
  { intros w0 v'. unfold sim_set. by destruct (sim_roots w0 !! t.1) as [[]|]. }
  destruct (sim_view w t) as [[wr v]|]; [|done].
  destruct (sim_dbi w n) as [dbi w1]. cbn in Hd.
  destruct (s_tables v !! n); [cbn; by rewrite Hd|].
  destruct (negb (Z.land fl MDB_CREATE =? 0) && wr); [|done]. cbn. by rewrite Hs, Hd.
Qed.

#[export] Instance sim_laws : LmdbLaws.
Proof.
  constructor.
  - intros w r R Hr.
    destruct (sim_root_inv _ _ _ Hr) as (k & -> & [(e & v & _ & ->) | (e & v & vs & _ & ->)]);
      [repeat constructor; by intros ?%elem_of_nil|]. apply levels_nodup_fst.
  - intros w r R Hr.
    destruct (sim_root_inv _ _ _ Hr) as (k & -> & [(e & v & _ & ->) | (e & v & vs & _ & ->)]);
      [by exists v|]. apply levels_last_root.
  - exact sim_disjoint.
  - intros w r R Hr Hd.
    by destruct (sim_root_inv _ _ _ Hr) as (k & -> & [(e & v & _ & ->) | (e & v & vs & _ & ->)]).
  - exact sim_begin_root.
  - intros w e. exact (sim_begin_child w e).
  - exact sim_commit_law.
  - exact sim_abort_law.
  - intros. by eapply sim_parent_law.
  - intros. by eapply sim_parent_law.
  - exact sim_open_main.
  - exact sim_open_named.
  - done.
  - exact sim_open_flags.
  - done.
  - exact sim_main_law.
  - exact sim_db_law.
  - exact sim_get_law.
  - exact sim_put_law.
  - exact sim_drop_law.
Qed.
