(* ===== verification/Btree.v ===== *)
(** * The LMDB back-end: handles, transactions, cursors, tables
      (src/lmdb-backend/src/btree.c, btreeInt.h)

    The objects of btree.c live in a store: [Btree] handles, [BtShared]
    environments, [BtCursor] cursors, each under its address (0 is NULL),
    linked by their pNext fields as in the code, next to the state of LMDB.
    Every function is a state transformer of the monad [M]; following a
    dangling or NULL pointer gives no result. *)

From stdpp Require Import strings.
From S2P Require Import Prelude Mem Serial Lmdb.

(** ** Result codes *)

Definition EPERM : Z := 1.
Definition ENOENT : Z := 2.
Definition EIO : Z := 5.
Definition ENOMEM : Z := 12.
Definition EACCES : Z := 13.
Definition ENOSPC : Z := 28.

Definition SQLITE_INTERNAL : Z := 2.
Definition SQLITE_PERM : Z := 3.
Definition SQLITE_ABORT : Z := 4.
Definition SQLITE_READONLY : Z := 8.
Definition SQLITE_IOERR : Z := 10.
Definition SQLITE_NOTFOUND : Z := 12.
Definition SQLITE_FULL : Z := 13.
Definition SQLITE_CANTOPEN : Z := 14.
Definition SQLITE_SCHEMA : Z := 17.
Definition SQLITE_MISUSE : Z := 21.
Definition SQLITE_NOTADB : Z := 26.

Definition errmap (err : Z) : Z :=
  if err =? 0 then SQLITE_OK
  else if err =? EACCES then SQLITE_READONLY
  else if (err =? EIO) || (err =? MDB_PANIC) then SQLITE_IOERR
  else if err =? EPERM then SQLITE_PERM
  else if err =? ENOMEM then SQLITE_NOMEM
  else if err =? ENOENT then SQLITE_CANTOPEN
  else if (err =? ENOSPC) || (err =? MDB_MAP_FULL) then SQLITE_FULL
  else if err =? MDB_NOTFOUND then SQLITE_NOTFOUND
  else if (err =? MDB_VERSION_MISMATCH) || (err =? MDB_INVALID) then SQLITE_NOTADB
  else if (err =? MDB_PAGE_NOTFOUND) || (err =? MDB_CORRUPTED) then SQLITE_CORRUPT
  else if err =? MDB_INCOMPATIBLE then SQLITE_SCHEMA
  else if err =? MDB_BAD_RSLOT then SQLITE_MISUSE
  else if err =? MDB_BAD_TXN then SQLITE_ABORT
  else if err =? MDB_BAD_VALSIZE then SQLITE_TOOBIG
  else SQLITE_INTERNAL.

Definition TRANS_NONE : Z := 0.
Definition TRANS_READ : Z := 1.
Definition TRANS_WRITE : Z := 2.

Definition SAVEPOINT_RELEASE : Z := 1.
Definition SAVEPOINT_ROLLBACK : Z := 2.

Definition BTREE_INTKEY : Z := 1.
Definition BTREE_LARGEST_ROOT_PAGE : Z := 4.

Definition SQLITE_OPEN_READONLY : Z := 0x00000001.
Definition SQLITE_OPEN_DELETEONCLOSE : Z := 0x00000008.
Definition SQLITE_OPEN_TRANSIENT_DB : Z := 0x00000400.
Definition SQLITE_OPEN_TEMP_DB : Z := 0x00000200.

(** ** Objects *)

Record Btree {T : Type} := mkBtree {
  pBt : Z;
  pCursor : Z;
  main_txn : option T;
  curr_txn : option T;
  inTrans : Z;
  isTemp : bool;
  bt_pNext : Z }.
Arguments Btree : clear implicits.

Record BtShared := mkShared {
  trees : Z;
  env : Z;
  lockname : string;
  openFlags : Z;
  inTransaction : Z;
  nTransaction : Z;
  pSchema : Z;
  xFreeSchema : Z;
  nRef : Z;
  sh_pNext : Z;
  pWriter : Z }.

Record BtCursor {T P : Type} := mkCursor {
  pNext : Z;
  pBtree : Z;
  pKeyInfo : option KeyInfo;
  cachedRowid : Z;
  index : Z * list Z;
  mc : MDB_cursor T P }.
Arguments BtCursor : clear implicits.

Section btree.
Context `{Lmdb}.
Implicit Types (p pCur : Z) (t : txn).

Abbreviation btree := (Btree txn).
Abbreviation cursor := (BtCursor txn pos).

Record state := mkState {
  btrees : gmap Z btree;
  shares : gmap Z BtShared;
  cursors : gmap Z cursor;
  sqlite3SharedCacheList : Z;
  mdb : lmdb }.

(** ** The monad *)

Definition M (A : Type) : Type := state -> option (A * state).

#[export] Instance M_ret : MRet M := fun A x s => Some (x, s).
#[export] Instance M_bind : MBind M := fun A B f m s =>
  match m s with Some (x, s') => f x s' | None => None end.

Definition undefined {A} : M A := fun _ => None.
Definition get : M state := fun s => Some (s, s).

Definition load_btree p : M btree := fun s => b ← s.(btrees) !! p; Some (b, s).
Definition load_shared (a : Z) : M BtShared := fun s => b ← s.(shares) !! a; Some (b, s).
Definition load_cursor pCur : M cursor := fun s => c ← s.(cursors) !! pCur; Some (c, s).

Definition set_btrees s m := mkState m s.(shares) s.(cursors) s.(sqlite3SharedCacheList) s.(mdb).
Definition set_shares s m := mkState s.(btrees) m s.(cursors) s.(sqlite3SharedCacheList) s.(mdb).
Definition set_cursors s m := mkState s.(btrees) s.(shares) m s.(sqlite3SharedCacheList) s.(mdb).
Definition set_list s a := mkState s.(btrees) s.(shares) s.(cursors) a s.(mdb).
Definition set_mdb s w := mkState s.(btrees) s.(shares) s.(cursors) s.(sqlite3SharedCacheList) w.

Definition store_btree p (b : btree) : M () := fun s =>
  Some ((), set_btrees s (<[p := b]> s.(btrees))).
Definition store_shared (a : Z) (b : BtShared) : M () := fun s =>
  Some ((), set_shares s (<[a := b]> s.(shares))).
Definition store_cursor pCur (c : cursor) : M () := fun s =>
  Some ((), set_cursors s (<[pCur := c]> s.(cursors))).

(** Functions of LMDB that change its state, and those that only read it. *)
Definition call {A} (f : lmdb -> A * lmdb) : M A := fun s =>
  let '(x, w) := f s.(mdb) in Some (x, set_mdb s w).
Definition run (f : lmdb -> lmdb) : M () := fun s => Some ((), set_mdb s (f s.(mdb))).
Definition ask {A} (f : lmdb -> A) : M A := fun s => Some (f s.(mdb), s).
Definition deref {A} (x : option A) : M A := fun s => a ← x; Some (a, s).

(** A successful or failed [mdb_txn_begin]. *)
Definition txn_begin (e : Z) (parent : option txn) (rd : bool) : M (Z * txn) := fun s =>
  '(rc, t, w) ← mdb_txn_begin s.(mdb) e parent rd; Some ((rc, t), set_mdb s w).

(** ** Field updates *)

Definition set_txns (b : btree) (m c : option txn) (tr : Z) : btree :=
  mkBtree _ b.(pBt) b.(pCursor) m c tr b.(isTemp) b.(bt_pNext).
Definition set_pCursor (b : btree) (a : Z) : btree :=
  mkBtree _ b.(pBt) a b.(main_txn) b.(curr_txn) b.(inTrans) b.(isTemp) b.(bt_pNext).
Definition set_bt_pNext (b : btree) (a : Z) : btree :=
  mkBtree _ b.(pBt) b.(pCursor) b.(main_txn) b.(curr_txn) b.(inTrans) b.(isTemp) a.
Definition set_pBt (b : btree) (a : Z) : btree :=
  mkBtree _ a b.(pCursor) b.(main_txn) b.(curr_txn) b.(inTrans) b.(isTemp) b.(bt_pNext).
Definition set_trees (b : BtShared) (a : Z) : BtShared :=
  mkShared a b.(env) b.(lockname) b.(openFlags) b.(inTransaction) b.(nTransaction)
    b.(pSchema) b.(xFreeSchema) b.(nRef) b.(sh_pNext) b.(pWriter).
Definition set_nRef (b : BtShared) (k : Z) : BtShared :=
  mkShared b.(trees) b.(env) b.(lockname) b.(openFlags) b.(inTransaction) b.(nTransaction)
    b.(pSchema) b.(xFreeSchema) k b.(sh_pNext) b.(pWriter).
Definition set_sh_pNext (b : BtShared) (a : Z) : BtShared :=
  mkShared b.(trees) b.(env) b.(lockname) b.(openFlags) b.(inTransaction) b.(nTransaction)
    b.(pSchema) b.(xFreeSchema) b.(nRef) a b.(pWriter).
Definition set_pSchema (b : BtShared) (a x : Z) : BtShared :=
  mkShared b.(trees) b.(env) b.(lockname) b.(openFlags) b.(inTransaction) b.(nTransaction)
    a x b.(nRef) b.(sh_pNext) b.(pWriter).
Definition set_pNext (c : cursor) (a : Z) : cursor :=
  mkCursor _ _ a c.(pBtree) c.(pKeyInfo) c.(cachedRowid) c.(index) c.(mc).
Definition set_cached (c : cursor) (i : Z) : cursor :=
  mkCursor _ _ c.(pNext) c.(pBtree) c.(pKeyInfo) i c.(index) c.(mc).
Definition set_index (c : cursor) (i : Z * list Z) : cursor :=
  mkCursor _ _ c.(pNext) c.(pBtree) c.(pKeyInfo) c.(cachedRowid) i c.(mc).
Definition set_mc (c : cursor) (m : MDB_cursor txn pos) : cursor :=
  mkCursor _ _ c.(pNext) c.(pBtree) c.(pKeyInfo) c.(cachedRowid) c.(index) m.

(** [pBt->env] of a handle. *)
Definition env_of (b : btree) : M Z := sh ← load_shared b.(pBt); mret sh.(env).

(** ** Cursors *)

Definition mc_zero : MDB_cursor txn pos := mkMc None 0 false false pos0.

Definition mc_clear (m : MDB_cursor txn pos) : MDB_cursor txn pos :=
  mkMc m.(mc_txn) m.(mc_dbi) false m.(mc_eof) m.(mc_pos).

Definition sqlite3BtreeClearCursor pCur : M () :=
  c ← load_cursor pCur;
  store_cursor pCur (set_mc c (mc_clear c.(mc))).

Definition sqlite3BtreeCursorZero pCur : M () :=
  c ← load_cursor pCur;
  store_cursor pCur (mkCursor _ _ c.(pNext) 0 None 0 (0, []) mc_zero).

(** The target of a pointer to a cursor pointer: the head of the handle's list or a pNext. *)
Inductive cursor_link : Type :=
  | Head (p : Z)
  | Next (pc : Z).

Definition load_link (l : cursor_link) : M Z :=
  match l with
  | Head p => b ← load_btree p; mret b.(pCursor)
  | Next pc => c ← load_cursor pc; mret c.(pNext)
  end.

Definition store_link (l : cursor_link) (a : Z) : M () :=
  match l with
  | Head p => b ← load_btree p; store_btree p (set_pCursor b a)
  | Next pc => c ← load_cursor pc; store_cursor pc (set_pNext c a)
  end.

(** The search for the link that points at the cursor. *)
Fixpoint find_link (fuel : nat) (prev : cursor_link) (pCur : Z) : M cursor_link :=
  match fuel with
  | O => undefined
  | S fuel =>
      a ← load_link prev;
      if a =? pCur then mret prev else find_link fuel (Next a) pCur
  end.

(** More steps than there are cursors mean that a list is cyclic. *)
Definition cursor_fuel : M nat := s ← get; mret (S (size s.(cursors))).

Definition sqlite3BtreeCloseCursor pCur : M Z :=
  c ← load_cursor pCur;
  _ ← (if c.(pBtree) =? 0 then mret ()
       else
         fuel ← cursor_fuel;
         prev ← find_link fuel (Head c.(pBtree)) pCur;
         store_link prev c.(pNext));
  _ ← sqlite3BtreeClearCursor pCur;
  mret SQLITE_OK.

Definition sqlite3BtreeCursorHasMoved pCur : M (Z * Z) :=
  c ← load_cursor pCur;
  mret (SQLITE_OK, if c.(mc).(mc_initialized) then 0 else 1).

Definition sqlite3BtreeEof pCur : M bool := c ← load_cursor pCur; mret c.(mc).(mc_eof).

Definition sqlite3BtreeGetCachedRowid pCur : M Z := c ← load_cursor pCur; mret c.(cachedRowid).

(** The two loops of sqlite3BtreeSetCachedRowid. *)
Fixpoint set_cached_cursors (fuel : nat) (pc dbi iRowid : Z) : M () :=
  match fuel with
  | O => undefined
  | S fuel =>
      if pc =? 0 then mret ()
      else
        c ← load_cursor pc;
        _ ← (if c.(mc).(mc_dbi) =? dbi then store_cursor pc (set_cached c iRowid) else mret ());
        set_cached_cursors fuel c.(pNext) dbi iRowid
  end.

Fixpoint set_cached_trees (fuel cfuel : nat) (p dbi iRowid : Z) : M () :=
  match fuel with
  | O => undefined
  | S fuel =>
      if p =? 0 then mret ()
      else
        b ← load_btree p;
        _ ← set_cached_cursors cfuel b.(pCursor) dbi iRowid;
        set_cached_trees fuel cfuel b.(bt_pNext) dbi iRowid
  end.

Definition sqlite3BtreeSetCachedRowid pCur (iRowid : Z) : M () :=
  c ← load_cursor pCur;
  b ← load_btree c.(pBtree);
  sh ← load_shared b.(pBt);
  s ← get;
  cfuel ← cursor_fuel;
  set_cached_trees (S (size s.(btrees))) cfuel sh.(trees) c.(mc).(mc_dbi) iRowid.

(** ** Transactions *)

Definition sqlite3BtreeBeginStmt p (iStatement : Z) : M Z :=
  b ← load_btree p;
  e ← env_of b;
  '(rc, t) ← txn_begin e b.(curr_txn) false;
  _ ← (if rc =? 0 then store_btree p (set_txns b b.(main_txn) (Some t) b.(inTrans)) else mret ());
  mret (errmap rc).

(** Move the cursors to the new transaction, on the entry they were on. *)
Fixpoint move_cursors (fuel : nat) (pCur : Z) (t : txn) : M () :=
  match fuel with
  | O => undefined
  | S fuel =>
      if pCur =? 0 then mret ()
      else
        c ← load_cursor pCur;
        '(rc2, (key, data), _) ← ask (fun w => mdb_cursor_get w c.(mc) CUR_CURRENT NoKey None);
        m ← ask (fun w => mdb_cursor_init w t c.(mc).(mc_dbi));
        m ← (if rc2 =? 0 then ask (fun w => mdb_cursor_set_both w m key data) else mret m);
        _ ← store_cursor pCur (set_mc c m);
        move_cursors fuel c.(pNext) t
  end.

Definition sqlite3BtreeBeginTrans p (wrflag : Z) : M Z :=
  b ← load_btree p;
  let wr := negb (wrflag =? 0) in
  if (b.(inTrans) =? TRANS_WRITE) || ((b.(inTrans) =? TRANS_READ) && negb wr)
  then mret (errmap SQLITE_OK)
  else
    let rtxn := if (b.(inTrans) =? TRANS_READ) && wr then b.(main_txn) else None in
    e ← env_of b;
    '(rc, t) ← txn_begin e None (negb wr);
    _ ← (if rc =? 0 then
           _ ← (match rtxn with
                | Some r =>
                    fuel ← cursor_fuel;
                    _ ← move_cursors fuel b.(pCursor) t;
                    run (fun w => mdb_txn_abort w r)
                | None => mret ()
                end);
           store_btree p (set_txns b (Some t) (Some t) (if wr then TRANS_WRITE else TRANS_READ))
         else mret ());
    mret (errmap rc).

(** [for (pn = p->pCursor, pc=pn; pc; pc=pn)] of sqlite3BtreeCommitPhaseOne. *)
Fixpoint close_and_zero (fuel : nat) (pc : Z) : M () :=
  match fuel with
  | O => undefined
  | S fuel =>
      if pc =? 0 then mret ()
      else
        c ← load_cursor pc;
        _ ← sqlite3BtreeCloseCursor pc;
        _ ← sqlite3BtreeCursorZero pc;
        close_and_zero fuel c.(pNext)
  end.

Definition sqlite3BtreeCommitPhaseOne p : M Z :=
  b ← load_btree p;
  rc ← (match b.(main_txn) with
        | Some t =>
            rc ← call (fun w => mdb_txn_commit w t);
            _ ← store_btree p (set_txns b None None TRANS_NONE);
            mret rc
        | None => mret 0
        end);
  b ← load_btree p;
  fuel ← cursor_fuel;
  _ ← close_and_zero fuel b.(pCursor);
  mret (errmap rc).

Definition sqlite3BtreeCommitPhaseTwo p (bCleanup : Z) : M Z := mret SQLITE_OK.

Definition sqlite3BtreeCommit p : M Z :=
  rc ← sqlite3BtreeCommitPhaseOne p;
  if rc =? 0 then sqlite3BtreeCommitPhaseTwo p 0 else mret rc.

Definition sqlite3BtreeSavepoint p (op iSavepoint : Z) : M Z :=
  b ← load_btree p;
  match b.(curr_txn) with
  | None => mret (errmap SQLITE_OK)
  | Some c =>
      parent ← ask (fun w => mt_parent w c);
      let whole := iSavepoint =? -1 in
      t ← (if whole then deref b.(main_txn) else mret c);
      rc ← (if op =? SAVEPOINT_ROLLBACK then
              _ ← run (fun w => mdb_txn_abort w t); mret SQLITE_OK
            else call (fun w => mdb_txn_commit w t));
      _ ← store_btree p
            (if whole then set_txns b None None TRANS_NONE
             else match parent with
                  | None => set_txns b None None TRANS_NONE
                  | Some _ => set_txns b b.(main_txn) parent b.(inTrans)
                  end);
      mret (errmap rc)
  end.

Definition sqlite3BtreeRollback p (tripCode : Z) : M Z :=
  sqlite3BtreeSavepoint p SAVEPOINT_ROLLBACK (-1).

Definition sqlite3BtreeIsInTrans p : M bool :=
  if p =? 0 then mret false else b ← load_btree p; mret (b.(inTrans) =? TRANS_WRITE).

Definition sqlite3BtreeIsInReadTrans p : M bool :=
  if p =? 0 then mret false else b ← load_btree p; mret (negb (b.(inTrans) =? TRANS_NONE)).

(** The loop over the databases of a connection in sqlite3VdbeCloseStatement
    (vdbeaux.c), where a statement transaction is open. *)
Fixpoint close_statement_loop (eOp iSavepoint rc : Z) (aDb : list Z) : M Z :=
  match aDb with
  | [] => mret rc
  | pBt :: aDb =>
      rc2 ← (if pBt =? 0 then mret SQLITE_OK
             else
               rc2 ← (if eOp =? SAVEPOINT_ROLLBACK
                      then sqlite3BtreeSavepoint pBt SAVEPOINT_ROLLBACK iSavepoint
                      else mret SQLITE_OK);
               if rc2 =? SQLITE_OK
               then sqlite3BtreeSavepoint pBt SAVEPOINT_RELEASE iSavepoint else mret rc2);
      close_statement_loop eOp iSavepoint (if rc =? SQLITE_OK then rc2 else rc) aDb
  end.

(** ** Tables *)

Definition hex_digit (d : Z) : Ascii.ascii :=
  Ascii.ascii_of_nat (Z.to_nat (if d <? 10 then 48 + d else 87 + d)).

(** [%0kx]: the [k] low hexadecimal digits. *)
Fixpoint hex (k : nat) (v : Z) (acc : string) : string :=
  match k with
  | O => acc
  | S k => hex k (v / 16) (String (hex_digit (v mod 16)) acc)
  end.

Definition tab_name (iTable : Z) : string := String.append "Tab." (hex 8 (u32 iTable) "").

Definition open_dbi t (name : option string) (fl : Z) : M (Z * Z) :=
  call (fun w => let '(rc, dbi, w) := mdb_open w t name fl in ((rc, dbi), w)).

Definition BtreeTableHandle p (iTable : Z) : M (Z * Z) :=
  b ← load_btree p;
  t ← deref b.(curr_txn);
  main ← ask (fun w => mt_dbs w t MAIN_DBI);
  let nptr := if (iTable =? 1) && (main.(md_entries) =? 0) then None else Some (tab_name iTable) in
  '(rc, dbi) ← open_dbi t nptr 0;
  _ ← (if rc =? 0 then
         db ← ask (fun w => mt_dbs w t dbi);
         if negb (Z.land db.(md_flags) MDB_DUPSORT =? 0)
         then run (fun w => mdb_set_compare w t dbi) else mret ()
       else mret ());
  mret (errmap rc, dbi).

(** [pnChange]: whether it is given; the result is the increment. *)
Definition sqlite3BtreeClearTable p (iTable : Z) (pnChange : bool) : M (Z * Z) :=
  b ← load_btree p;
  t ← deref b.(curr_txn);
  ents ← (if pnChange then db ← ask (fun w => mt_dbs w t iTable); mret db.(md_entries)
          else mret 0);
  '(rc, dbi) ← BtreeTableHandle p iTable;
  if negb (rc =? 0) then mret (errmap rc, 0)
  else
    rc ← call (fun w => mdb_drop w t dbi false);
    mret (errmap rc, if (rc =? 0) && pnChange then i32 ents else 0).

Definition sqlite3BtreeDropTable p (iTable : Z) : M (Z * Z) :=
  '(rc, dbi) ← BtreeTableHandle p iTable;
  rc ← (if rc =? 0 then
          b ← load_btree p;
          t ← deref b.(curr_txn);
          call (fun w => mdb_drop w t dbi true)
        else mret rc);
  mret (errmap rc, 0).

(** The bytes of a 32-bit integer in memory, little-endian. *)
Definition le32 (v : Z) : list Z :=
  [v mod 256; v / 256 mod 256; v / 65536 mod 256; v / 16777216 mod 256].

Definition of_le32 (d : list Z) : option Z :=
  match d with
  | b0 :: b1 :: b2 :: b3 :: _ => Some (b0 + 256 * b1 + 65536 * b2 + 16777216 * b3)
  | _ => None
  end.

Definition sqlite3BtreeGetMeta p (idx : Z) : M Z :=
  if idx =? 0 then mret 0
  else
    b ← load_btree p;
    t ← deref b.(curr_txn);
    '(_, dbi) ← open_dbi t None 0;
    '(rc, data) ← ask (fun w => mdb_get w t dbi (le32 idx));
    if rc =? 0 then deref (of_le32 data) else mret 0.

Definition sqlite3BtreeUpdateMeta p (idx iMeta : Z) : M Z :=
  b ← load_btree p;
  e ← env_of b;
  fl ← ask (fun w => me_flags w e);
  if negb (Z.land fl MDB_RDONLY =? 0) then mret SQLITE_READONLY
  else
    t ← deref b.(curr_txn);
    '(_, dbi) ← open_dbi t None 0;
    rc ← call (fun w => mdb_put w t dbi (le32 idx) (le32 iMeta) 0);
    mret (errmap rc).

(** The result code and [*piTable]. *)
Definition sqlite3BtreeCreateTable p (flags : Z) : M (Z * option Z) :=
  last ← sqlite3BtreeGetMeta p BTREE_LARGEST_ROOT_PAGE;
  let last := u32 (last + 1) in
  b ← load_btree p;
  t ← deref b.(main_txn);
  '(rc, last) ←
    (if last =? 1 then
       '(rc, _) ← open_dbi t (Some (tab_name last)) (Z.lor MDB_CREATE MDB_INTEGERKEY);
       mret (rc, u32 (last + 1))
     else mret (0, last));
  if negb (rc =? 0) then mret (errmap rc, None)
  else
    let mflags := if negb (Z.land flags BTREE_INTKEY =? 0) then MDB_INTEGERKEY else MDB_DUPSORT in
    rdonly ← ask (fun w => mt_rdonly w t);
    let mflags := if (rdonly : bool) then mflags else Z.lor mflags MDB_CREATE in
    '(rc, dbi) ← open_dbi t (Some (tab_name last)) mflags;
    if rc =? 0 then
      _ ← (if negb (Z.land mflags MDB_DUPSORT =? 0)
           then run (fun w => mdb_set_compare w t dbi) else mret ());
      _ ← sqlite3BtreeUpdateMeta p BTREE_LARGEST_ROOT_PAGE last;
      mret (errmap rc, Some last)
    else mret (errmap rc, None).

(** [pCur] is the caller's memory; on failure it is left alone. *)
Definition sqlite3BtreeCursor p (iTable wrFlag : Z) (ki : option KeyInfo) pCur : M Z :=
  '(rc, dbi) ← BtreeTableHandle p iTable;
  _ ← (if rc =? 0 then
         b ← load_btree p;
         t ← deref b.(curr_txn);
         m ← ask (fun w => mdb_cursor_init w t dbi);
         c ← load_cursor pCur;
         _ ← store_cursor pCur
               (mkCursor _ _ b.(pCursor) p ki c.(cachedRowid) c.(index) m);
         store_btree p (set_pCursor b pCur)
       else mret ());
  mret rc.

(** [mc->mc_db], unless the cursor is zeroed. *)
Definition cursor_db (c : cursor) : M MDB_db :=
  t ← deref c.(mc).(mc_txn);
  ask (fun w => mt_dbs w t c.(mc).(mc_dbi)).

Definition sqlite3BtreeCount pCur : M (Z * Z) :=
  c ← load_cursor pCur;
  db ← cursor_db c;
  mret (SQLITE_OK, db.(md_entries)).

(** ** Opening and closing *)

(** The search of sqlite3SharedCacheList for an open environment. *)
Fixpoint find_shared (fuel : nat) (a : Z) (path : string) : M Z :=
  match fuel with
  | O => undefined
  | S fuel =>
      if a =? 0 then mret 0
      else
        sh ← load_shared a;
        pa ← ask (fun w => me_path w sh.(env));
        if negb (sh.(env) =? 0) && bool_decide (pa = path) then mret a
        else find_shared fuel sh.(sh_pNext) path
  end.

(** What the allocator, tempnam and the VFS return: the addresses of the
    handle and of the shared object (0 is failure), whether the lock name can
    be allocated, the path, and the suffix of lock files. *)
Record open_world := mkOpen {
  ow_btree : Z;
  ow_shared : Z;
  ow_lock : bool;
  ow_path : string;
  ow_suffix : string }.

Definition is_temp (zFilename : option string) (vfsFlags : Z) : bool :=
  negb (Z.land vfsFlags SQLITE_OPEN_TRANSIENT_DB =? 0) ||
  match zFilename with
  | None => true
  | Some z => bool_decide (z = ""%string) || bool_decide (z = ":memory:"%string)
  end.

Definition env_create : M (Z * Z) :=
  call (fun w => let '(rc, e, w) := mdb_env_create w in ((rc, e), w)).

(** A new shared object and its environment. *)
Definition open_env (ow : open_world) (temp : bool) (p flags vfsFlags : Z) : M Z :=
  if ow.(ow_shared) =? 0 then mret SQLITE_NOMEM
  else
    '(rc, e) ← env_create;
    if negb (rc =? 0) then mret (errmap rc)
    else
      _ ← run (fun w => mdb_env_set_maxdbs w e (if temp then 64 else 256));
      _ ← (if temp then mret () else run (fun w => mdb_env_set_maxreaders w e 254));
      _ ← run (fun w => mdb_env_set_mapsize w e (256 * 1048576));
      let eflags := MDB_NOSUBDIR in
      let eflags := if negb (Z.land vfsFlags SQLITE_OPEN_READONLY =? 0)
                    then Z.lor eflags MDB_RDONLY else eflags in
      let eflags :=
        if negb (Z.land vfsFlags (Z.lor SQLITE_OPEN_DELETEONCLOSE
                   (Z.lor SQLITE_OPEN_TEMP_DB SQLITE_OPEN_TRANSIENT_DB)) =? 0)
        then Z.lor eflags MDB_NOSYNC else eflags in
      rc ← call (fun w => mdb_env_open w e ow.(ow_path) eflags);
      if negb (rc =? 0) then mret (errmap rc)
      else if negb ow.(ow_lock) then mret SQLITE_NOMEM
      else
        s ← get;
        _ ← store_shared ow.(ow_shared)
              (mkShared p e (String.append ow.(ow_path) ow.(ow_suffix)) flags TRANS_NONE 0 0 0 1
                 (if temp then 0 else s.(sqlite3SharedCacheList)) 0);
        _ ← (if temp then mret () else fun s => Some ((), set_list s ow.(ow_shared)));
        _ ← store_btree p (mkBtree _ ow.(ow_shared) 0 None None TRANS_NONE temp 0);
        mret SQLITE_OK.

(** The result code and [*ppBtree]. *)
Definition sqlite3BtreeOpen (ow : open_world) (zFilename : option string) (flags vfsFlags : Z)
    : M (Z * option Z) :=
  let p := ow.(ow_btree) in
  if p =? 0 then mret (SQLITE_NOMEM, None)
  else
    let temp := is_temp zFilename vfsFlags in
    s ← get;
    a ← (if temp then mret 0
         else
           a ← find_shared (S (size s.(shares))) s.(sqlite3SharedCacheList) ow.(ow_path);
           _ ← (if a =? 0 then mret ()
                else sh ← load_shared a; store_shared a (set_nRef sh (sh.(nRef) + 1)));
           mret a);
    if negb (a =? 0) then
      sh ← load_shared a;
      _ ← store_btree p (mkBtree _ a 0 None None TRANS_NONE temp sh.(trees));
      _ ← store_shared a (set_nRef (set_trees sh p) (sh.(nRef) + 1));
      mret (SQLITE_OK, Some p)
    else
      rc ← open_env ow temp p flags vfsFlags;
      mret (rc, if rc =? SQLITE_OK then Some p else None).

(** The loops of sqlite3BtreeClose: close every cursor, unlink the shared
    object, unlink the handle. *)
Fixpoint close_cursors (fuel : nat) (pCur : Z) : M () :=
  match fuel with
  | O => undefined
  | S fuel =>
      if pCur =? 0 then mret ()
      else
        c ← load_cursor pCur;
        _ ← sqlite3BtreeCloseCursor pCur;
        close_cursors fuel c.(pNext)
  end.

Fixpoint unlink_shared (fuel : nat) (prev : option Z) (a next : Z) : M () :=
  match fuel with
  | O => undefined
  | S fuel =>
      s ← get;
      cur ← (match prev with
             | None => mret s.(sqlite3SharedCacheList)
             | Some b => sh ← load_shared b; mret sh.(sh_pNext)
             end);
      if cur =? a then
        match prev with
        | None => fun s => Some ((), set_list s next)
        | Some b => sh ← load_shared b; store_shared b (set_sh_pNext sh next)
        end
      else unlink_shared fuel (Some cur) a next
  end.

Fixpoint unlink_btree (fuel : nat) (sh : Z) (prev : option Z) (p next : Z) : M () :=
  match fuel with
  | O => undefined
  | S fuel =>
      cur ← (match prev with
             | None => x ← load_shared sh; mret x.(trees)
             | Some q => b ← load_btree q; mret b.(bt_pNext)
             end);
      if cur =? p then
        match prev with
        | None => x ← load_shared sh; store_shared sh (set_trees x next)
        | Some q => b ← load_btree q; store_btree q (set_bt_pNext b next)
        end
      else unlink_btree fuel sh (Some cur) p next
  end.

Definition free_shared (a : Z) : M () := fun s => Some ((), set_shares s (delete a s.(shares))).
Definition free_btree (p : Z) : M () := fun s => Some ((), set_btrees s (delete p s.(btrees))).

Definition sqlite3BtreeClose p : M Z :=
  b ← load_btree p;
  fuel ← cursor_fuel;
  _ ← close_cursors fuel b.(pCursor);
  _ ← (match b.(main_txn) with Some t => run (fun w => mdb_txn_abort w t) | None => mret () end);
  sh ← load_shared b.(pBt);
  _ ← (if b.(isTemp) then
         _ ← free_shared b.(pBt);
         run (fun w => mdb_env_close w sh.(env))
       else
         _ ← store_shared b.(pBt) (set_nRef sh (sh.(nRef) - 1));
         s ← get;
         if sh.(nRef) - 1 =? 0 then
           _ ← run (fun w => mdb_env_close w sh.(env));
           _ ← unlink_shared (S (size s.(shares))) None b.(pBt) sh.(sh_pNext);
           free_shared b.(pBt)
         else unlink_btree (S (size s.(btrees))) b.(pBt) None p b.(bt_pNext));
  _ ← free_btree p;
  mret SQLITE_OK.

(** [blob] is what sqlite3MallocZero returns if it is called. *)
Definition sqlite3BtreeSchema p (nBytes xFree blob : Z) : M Z :=
  b ← load_btree p;
  sh ← load_shared b.(pBt);
  if (sh.(pSchema) =? 0) && (0 <? nBytes) then
    _ ← store_shared b.(pBt) (set_pSchema sh blob xFree); mret blob
  else mret sh.(pSchema).

Definition sqlite3BtreeSetSafetyLevel p (level : Z) : M Z :=
  b ← load_btree p;
  e ← env_of b;
  _ ← run (fun w => mdb_env_set_flags w e MDB_NOSYNC (level <? 2));
  mret SQLITE_OK.

Definition sqlite3BtreeSyncDisabled p : M bool :=
  b ← load_btree p;
  e ← env_of b;
  ask (fun w => negb (Z.land (me_flags w e) MDB_NOSYNC =? 0)).

Definition sqlite3BtreeMaxPageCount p (mxPage : Z) : M Z :=
  b ← load_btree p;
  e ← env_of b;
  _ ← (if 0 <? mxPage
       then run (fun w => mdb_env_set_mapsize w e (u32 (mxPage * me_psize w e))) else mret ());
  ask (fun w => me_maxpg w e).

Definition sqlite3BtreeCheckpoint p : M Z :=
  if p =? 0 then mret (errmap 0)
  else
    b ← load_btree p;
    e ← env_of b;
    rc ← call (fun w => mdb_env_sync w e 1);
    mret (errmap rc).

Definition sqlite3BtreeLastPage p : M Z :=
  b ← load_btree p;
  t ← deref b.(curr_txn);
  ask (fun w => u32 (mt_next_pgno w t - 1)).

End btree.
