(* ===== verification/BtreeTxn.v ===== *)
(** * Transactions of the LMDB back-end

    The functions of btree.c that begin and end transactions implement an
    abstract connection: idle, reading a snapshot, or writing with a stack of
    snapshots, one per statement transaction.  The store keeps its invariant:
    handles agree with LMDB, share no transaction, and own disjoint,
    well-formed cursor lists. *)

From stdpp Require Import strings.
From S2P Require Import Prelude Mem Serial Lmdb LmdbSim Btree.

(** ** The abstract connection *)

Inductive conn : Type :=
  | Idle
  | Reading (v : snapshot)
  | Writing (v : snapshot) (below : list snapshot).

Inductive txn_op : Type :=
  | BeginTrans (wrflag : Z)
  | BeginStmt (iStatement : Z)
  | Commit
  | Savepoint (op iSavepoint : Z)
  | Rollback (tripCode : Z).

(** Ending the whole transaction, keeping its changes or not. *)
Definition finish (keep : bool) (db : snapshot) (c : conn) : snapshot * conn :=
  (match c with Writing v _ => if keep then v else db | _ => db end, Idle).

(** Ending the innermost level. *)
Definition finish_level (keep : bool) (db : snapshot) (c : conn) : snapshot * conn :=
  match c with
  | Writing v (b :: below) => (db, Writing (if keep then v else b) below)
  | _ => finish keep db c
  end.

(** The committed contents and the connection after an operation that
    succeeded or failed. *)
Definition spec_step (ok : bool) (db : snapshot) (c : conn) (o : txn_op) : snapshot * conn :=
  match o with
  | BeginTrans wrflag =>
      (db, match c with
           | Writing _ _ => c
           | Reading _ => if ok && negb (wrflag =? 0) then Writing db [] else c
           | Idle => if ok then if wrflag =? 0 then Reading db else Writing db [] else c
           end)
  | BeginStmt _ =>
      (db, match c with
           | Writing v below => if ok then Writing v (v :: below) else c
           | _ => c
           end)
  | Commit => finish ok db c
  | Savepoint op iSavepoint =>
      let keep := ok && negb (op =? SAVEPOINT_ROLLBACK) in
      if iSavepoint =? -1 then finish keep db c else finish_level keep db c
  | Rollback _ => finish false db c
  end.

(** The preconditions the code asserts. *)
Definition allowed (c : conn) (o : txn_op) : Prop :=
  match o, c with
  | BeginStmt _, Writing _ _ => True
  | BeginStmt _, _ => False
  | _, _ => True
  end.

Section txn.
Context `{LmdbLaws}.
Implicit Types (s : state) (w : lmdb) (t r : txn).

Definition run_op (p : Z) (o : txn_op) : M Z :=
  match o with
  | BeginTrans wrflag => sqlite3BtreeBeginTrans p wrflag
  | BeginStmt i => sqlite3BtreeBeginStmt p i
  | Commit => sqlite3BtreeCommit p
  | Savepoint op i => sqlite3BtreeSavepoint p op i
  | Rollback tripCode => sqlite3BtreeRollback p tripCode
  end.

(** ** The invariant *)

(** The fields of a handle agree with LMDB. *)
Definition agrees (w : lmdb) (e : Z) (b : Btree txn) (c : conn) : Prop :=
  match c with
  | Idle => b.(main_txn) = None /\ b.(curr_txn) = None /\ b.(inTrans) = TRANS_NONE
  | Reading v => exists t,
      b.(main_txn) = Some t /\ b.(curr_txn) = Some t /\ b.(inTrans) = TRANS_READ /\
      roots w t = Some (Root _ e true [(t, v)])
  | Writing v below => exists r t post,
      b.(main_txn) = Some r /\ b.(curr_txn) = Some t /\ b.(inTrans) = TRANS_WRITE /\
      roots w r = Some (Root _ e false ((t, v) :: post)) /\ map snd post = below
  end.

(** The list of cursors that starts at [a]. *)
Fixpoint cursor_list (cs : gmap Z (BtCursor txn pos)) (p a : Z) (l : list Z) : Prop :=
  match l with
  | [] => a = 0
  | x :: l => a = x /\ x <> 0 /\
      exists c, cs !! x = Some c /\ c.(pBtree) = p /\ cursor_list cs p c.(pNext) l
  end.

Definition handle (s : state) (p : Z) (b : Btree txn) (e : Z) (c : conn) : Prop :=
  s.(btrees) !! p = Some b /\
  (exists sh, s.(shares) !! b.(pBt) = Some sh /\ sh.(env) = e) /\
  agrees s.(mdb) e b c.

Definition one_writer (w : lmdb) : Prop :=
  forall r1 r2 R1 R2, roots w r1 = Some R1 -> roots w r2 = Some R2 ->
    R1.(r_env) = R2.(r_env) -> R1.(r_rdonly) = false -> R2.(r_rdonly) = false -> r1 = r2.

Record inv (s : state) : Prop := mkInv {
  inv_null : s.(btrees) !! 0 = None;
  inv_handle : forall p b, s.(btrees) !! p = Some b -> exists e c, handle s p b e c;
  inv_distinct : forall p q b b' t, s.(btrees) !! p = Some b -> s.(btrees) !! q = Some b' ->
    b.(main_txn) = Some t -> b'.(main_txn) = Some t -> p = q;
  inv_cursors : forall p b, s.(btrees) !! p = Some b ->
    exists l, cursor_list s.(cursors) p b.(pCursor) l /\ NoDup l;
  inv_writer : one_writer s.(mdb) }.

(** ** Running the monad *)

Lemma bind_load_btree {A} p b s (f : Btree txn -> M A) :
  s.(btrees) !! p = Some b -> (load_btree p ≫= f) s = f b s.
Proof. intros Hb. unfold mbind, M_bind, load_btree. by rewrite Hb. Qed.

Lemma bind_load_cursor {A} x c s (f : BtCursor txn pos -> M A) :
  s.(cursors) !! x = Some c -> (load_cursor x ≫= f) s = f c s.
Proof. intros Hb. unfold mbind, M_bind, load_cursor. by rewrite Hb. Qed.

Lemma bind_env_of {A} b sh s (f : Z -> M A) :
  s.(shares) !! b.(pBt) = Some sh -> (env_of b ≫= f) s = f sh.(env) s.
Proof. intros Hb. unfold mbind, M_bind, env_of, mbind, M_bind, load_shared. by rewrite Hb. Qed.

Lemma bind_ret {A B} (x : A) (f : A -> M B) s : (mret x ≫= f) s = f x s.
Proof. done. Qed.

Lemma bind_assoc {A B C} (m : M A) (f : A -> M B) (g : B -> M C) s :
  ((m ≫= f) ≫= g) s = (m ≫= (fun x => f x ≫= g)) s.
Proof. unfold mbind, M_bind. by destruct (m s) as [[]|]. Qed.

Lemma bind_some {A B} (m : M A) (f : A -> M B) s x s' :
  m s = Some (x, s') -> (m ≫= f) s = f x s'.
Proof. intros Hm. unfold mbind, M_bind. by rewrite Hm. Qed.

Lemma bind_inv {A B} (m : M A) (f : A -> M B) s y s' :
  (m ≫= f) s = Some (y, s') -> exists x s1, m s = Some (x, s1) /\ f x s1 = Some (y, s').
Proof. unfold mbind, M_bind. destruct (m s) as [[x s1]|]; [|done]. by eauto. Qed.

(** ** Error codes *)

Lemma errmap_zero err : errmap err = SQLITE_OK <-> err = 0.
Proof.
  unfold errmap. destruct (Z.eqb_spec err 0) as [->|Hne]; [done|]. split; [|done].
  repeat match goal with |- context [if ?b then _ else _] => destruct b end; discriminate.
Qed.

Lemma errmap_eqb err : (errmap err =? SQLITE_OK) = (err =? 0).
Proof.
  destruct (Z.eqb_spec err 0) as [->|Hn]; [done|].
  apply Z.eqb_neq. intros E. apply Hn, errmap_zero, E.
Qed.

(** ** Cursor lists *)

Definition links (c : BtCursor txn pos) : Z * Z := (c.(pNext), c.(pBtree)).

Lemma cursor_list_links cs cs' p a l :
  (forall x, x ∈ l -> links <$> cs' !! x = links <$> cs !! x) ->
  cursor_list cs p a l -> cursor_list cs' p a l.
Proof.
  revert a. induction l as [|x l IH]; intros a Hx; cbn; [done|].
  intros (-> & Hn & c & Hc & Hp & Hl). split; [done|]. split; [done|].
  assert (links <$> cs' !! x = Some (links c)) as Hx' by (rewrite Hx by left; by rewrite Hc).
  apply fmap_Some in Hx' as (c' & Hc' & He). unfold links in He. injection He as HN HP.
  exists c'. split; [done|]. split; [congruence|]. rewrite <- HN.
  apply IH; [|done]. intros y Hy. apply Hx. by right.
Qed.

Lemma cursor_list_elem cs p a l x :
  cursor_list cs p a l -> x ∈ l -> exists c, cs !! x = Some c /\ c.(pBtree) = p.
Proof.
  revert a. induction l as [|y l IH]; intros a; cbn; [by intros _ ?%elem_of_nil|].
  intros (-> & _ & c & Hc & Hp & Hl) [-> | Hin]%elem_of_cons; eauto.
Qed.

Lemma cursor_list_nonnull cs p a l x : cursor_list cs p a l -> x ∈ l -> x <> 0.
Proof.
  revert a. induction l as [|y l IH]; intros a; cbn; [by intros _ ?%elem_of_nil|].
  intros (-> & Hn & c & Hc & Hp & Hl) [-> | Hin]%elem_of_cons; eauto.
Qed.

Lemma cursor_list_fuel cs p a l : cursor_list cs p a l -> NoDup l -> (length l <= size cs)%nat.
Proof.
  intros Hl Hd. rewrite <- size_dom, <- (size_list_to_set (C := gset Z) l Hd).
  apply subseteq_size. intros x Hx%elem_of_list_to_set.
  destruct (cursor_list_elem _ _ _ _ _ Hl Hx) as (c & Hc & _). by apply elem_of_dom_2 in Hc.
Qed.

Lemma run_cursor_fuel s {A} (f : nat -> M A) :
  (cursor_fuel ≫= f) s = f (S (size s.(cursors))) s.
Proof. done. Qed.

Lemma move_cursors_run t p l : forall fuel a s,
  cursor_list s.(cursors) p a l -> (length l < fuel)%nat ->
  exists cs, move_cursors fuel a t s = Some ((), set_cursors s cs) /\
    forall x, links <$> cs !! x = links <$> s.(cursors) !! x.
Proof.
  induction l as [|x l IH]; intros [|fuel] a s Hl Hf; cbn in Hf; try lia; cbn in Hl.
  - subst a. exists s.(cursors). split; [by destruct s|done].
  - destruct Hl as (-> & Hn & c & Hc & Hp & Hl). cbn [move_cursors].
    rewrite (proj2 (Z.eqb_neq x 0) Hn), (bind_load_cursor _ _ _ _ Hc).
    destruct (mdb_cursor_get (mdb s) (mc c) CUR_CURRENT NoKey None) as [[rc2 [key data]] m0] eqn:Hg.
    set (m := mdb_cursor_init (mdb s) t (mc_dbi (mc c))).
    set (m' := if rc2 =? 0 then mdb_cursor_set_both (mdb s) m key data else m).
    set (s1 := set_cursors s (<[x := set_mc c m']> (cursors s))).
    assert (forall y, links <$> cursors s1 !! y = links <$> cursors s !! y) as HL.
    { intros y. cbn. destruct (decide (x = y)) as [<-|Hne].
      - rewrite lookup_insert_eq, Hc. done.
      - by rewrite lookup_insert_ne. }
    destruct (IH fuel c.(pNext) s1) as (cs & Hrun & Hcs);
      [by eapply cursor_list_links; [intros; apply HL|]|lia|].
    exists cs. split; [|intros y; by rewrite Hcs].
    transitivity (move_cursors fuel c.(pNext) t s1); [|by rewrite Hrun].
    unfold mbind, M_bind, ask. rewrite Hg. unfold m', s1. by destruct (rc2 =? 0).
Qed.

(** Closing and zeroing the head of a list. *)
Definition zeroed (c : BtCursor txn pos) : BtCursor txn pos :=
  mkCursor _ _ c.(pNext) 0 None 0 (0, []) mc_zero.

Lemma close_head s p b x c :
  s.(btrees) !! p = Some b -> b.(pCursor) = x -> p <> 0 ->
  s.(cursors) !! x = Some c -> c.(pBtree) = p ->
  sqlite3BtreeCloseCursor x s =
  Some (SQLITE_OK, set_cursors (set_btrees s (<[p := set_pCursor b c.(pNext)]> s.(btrees)))
                     (<[x := set_mc c (mc_clear c.(mc))]> s.(cursors))).
Proof.
  intros Hb Hx Hp Hc Hcp. unfold sqlite3BtreeCloseCursor.
  rewrite (bind_load_cursor _ _ _ _ Hc). rewrite Hcp, (proj2 (Z.eqb_neq p 0) Hp).
  rewrite bind_assoc, run_cursor_fuel. cbn [find_link load_link].
  rewrite !bind_assoc, (bind_load_btree _ _ _ _ Hb), bind_ret, Hx, Z.eqb_refl, bind_ret.
  cbn [store_link]. rewrite bind_assoc, (bind_load_btree _ _ _ _ Hb).
  unfold sqlite3BtreeClearCursor, mbind, M_bind, store_btree, load_cursor. cbn. by rewrite Hc.
Qed.

Lemma close_and_zero_run p l : forall fuel a s b,
  p <> 0 -> s.(btrees) !! p = Some b -> b.(pCursor) = a ->
  cursor_list s.(cursors) p a l -> NoDup l -> (length l < fuel)%nat ->
  exists cs, close_and_zero fuel a s =
    Some ((), set_cursors (set_btrees s (<[p := set_pCursor b 0]> s.(btrees))) cs) /\
    forall x, cs !! x = if decide (x ∈ l) then zeroed <$> s.(cursors) !! x else s.(cursors) !! x.
Proof.
  induction l as [|x l IH]; intros [|fuel] a s b Hp Hb Ha Hl Hd Hf; cbn in Hf; try lia; cbn in Hl.
  - subst a. exists s.(cursors). split.
    + cbn. rewrite Hl. cbn. rewrite insert_id; [by destruct s|]. rewrite Hb. destruct b; cbn in *. by subst.
    + intros y. by rewrite decide_False by apply not_elem_of_nil.
  - destruct Hl as (-> & Hn & c & Hc & Hcp & Hl). cbn [close_and_zero].
    rewrite (proj2 (Z.eqb_neq x 0) Hn), (bind_load_cursor _ _ _ _ Hc).
    erewrite bind_some by (by eapply close_head).
    set (c1 := set_mc c (mc_clear (mc c))).
    set (b1 := set_pCursor b (pNext c)).
    set (s1 := set_cursors (set_btrees s (<[p := b1]> (btrees s))) (<[x := c1]> (cursors s))).
    set (s2 := set_cursors s1 (<[x := zeroed c1]> (cursors s1))).
    assert (sqlite3BtreeCursorZero x s1 = Some ((), s2)) as Hz.
    { unfold sqlite3BtreeCursorZero. erewrite bind_load_cursor; [done|]. cbn. apply lookup_insert_eq. }
    rewrite (bind_some _ _ _ _ _ Hz).
    apply NoDup_cons in Hd as [Hx Hd].
    assert (forall y, cursors s2 !! y = if decide (x = y) then Some (zeroed c1) else cursors s !! y) as Hs2.
    { intros y. cbn. case_decide as Hy; [subst y; apply lookup_insert_eq|].
      by rewrite !lookup_insert_ne by done. }
    destruct (IH fuel (pNext c) s2 b1 Hp) as (cs & Hrun & Hcs); [cbn; apply lookup_insert_eq|done| |done|lia|].
    { eapply cursor_list_links; [|exact Hl]. intros y Hy. rewrite Hs2, decide_False; [done|congruence]. }
    exists cs. split.
    + rewrite Hrun. cbn. unfold set_cursors, set_btrees. cbn. by rewrite insert_insert_eq.
    + intros y. rewrite Hcs, Hs2. destruct (decide (x = y)) as [<-|Hne].
      * rewrite decide_False by done. rewrite decide_True by left. by rewrite Hc.
      * apply decide_ext. split; [by right|]. by intros [-> | ?]%elem_of_cons.
Qed.

(** ** LMDB under a handle *)

Lemma one_writer_sub w w' :
  (forall r R', roots w' r = Some R' -> exists R, roots w r = Some R /\
     R.(r_env) = R'.(r_env) /\ R.(r_rdonly) = R'.(r_rdonly)) ->
  one_writer w -> one_writer w'.
Proof.
  intros HS HW r1 r2 R1' R2' H1' H2' He D1 D2.
  destruct (HS _ _ H1') as (R1 & HR1 & E1 & F1), (HS _ _ H2') as (R2 & HR2 & E2 & F2).
  eapply HW; [exact HR1|exact HR2|congruence..].
Qed.

Lemma same_one_writer w w' : same w w' -> one_writer w -> one_writer w'.
Proof. intros [_ HR]. apply one_writer_sub. intros r R'. rewrite HR. by eauto. Qed.

(** The root of a handle, and what it says about the levels. *)
Lemma agrees_root w e b c r :
  agrees w e b c -> b.(main_txn) = Some r ->
  exists R t v post, roots w r = Some R /\ R.(r_env) = e /\ b.(curr_txn) = Some t /\
    R.(r_levels) = (t, v) :: post /\
    ((c = Reading v /\ R.(r_rdonly) = true /\ t = r /\ post = []) \/
     (c = Writing v (map snd post) /\ R.(r_rdonly) = false)).
Proof.
  destruct c as [|v|v below]; cbn.
  - intros (-> & _) [=].
  - intros (t & -> & -> & _ & Hr) [= <-]. eexists _, _, _, _. split; [exact Hr|]. cbn. auto 10.
  - intros (r' & t & post & -> & -> & _ & Hr & <-) [= <-]. eexists _, _, _, _.
    split; [exact Hr|]. cbn. auto 10.
Qed.

Lemma agrees_idle w e b c : agrees w e b c -> b.(main_txn) = None -> c = Idle.
Proof.
  destruct c; cbn; [done| |].
  - intros (t & -> & _) [=].
  - intros (r & t & post & -> & _) [=].
Qed.

Lemma main_curr w e b c : agrees w e b c -> b.(main_txn) = None <-> b.(curr_txn) = None.
Proof.
  destruct c; cbn.
  - intros (-> & -> & _). done.
  - intros (t & -> & -> & _). done.
  - intros (r & t & post & -> & -> & _). done.
Qed.

Definition gone (w w' : lmdb) (r : txn) : Prop :=
  forall r', roots w' r' = if decide (r' = r) then None else roots w r'.

Lemma gone_one_writer w w' r : gone w w' r -> one_writer w -> one_writer w'.
Proof.
  intros HG. apply one_writer_sub. intros r' R'. rewrite HG. case_decide; [done|]. by eauto.
Qed.

Lemma commit_root w e b c r rc w' :
  agrees w e b c -> b.(main_txn) = Some r -> mdb_txn_commit w r = (rc, w') ->
  (forall e', committed w' e' =
     if decide (e' = e) then (finish (rc =? 0) (committed w e) c).1 else committed w e') /\
  gone w w' r.
Proof.
  intros Ha Hm Hc. destruct (agrees_root _ _ _ _ _ Ha Hm) as (R & t & v & post & Hr & He & Ht & Hl & Hcase).
  destruct (levels_last w r R Hr) as [v0 [pre Hpre]%last_Some].
  destruct (commit_law w r R pre r v0 [] rc w' Hr Hpre Hc) as [HC HR]. split; [|exact HR].
  assert (from_option snd v0 (head pre) = v) as Htop.
  { rewrite Hl in Hpre. destruct pre as [|x pre]; cbn in Hpre; injection Hpre.
    - by injection Hpre as _ -> _.
    - by injection Hpre as <- _. }
  intros e'. rewrite HC. cbv zeta. rewrite Htop. destruct Hcase as [(-> & Hd & _) | (-> & Hd)]; rewrite Hd, He; cbn.
  - rewrite bool_decide_eq_false_2 by (by intros (_ & _ & ? & _)).
    by destruct (decide (e' = e)) as [->|].
  - destruct (Z.eqb_spec rc 0) as [->|Hn]; destruct (decide (e' = e)) as [->|].
    + by rewrite bool_decide_eq_true_2.
    + by rewrite bool_decide_eq_false_2 by tauto.
    + by rewrite bool_decide_eq_false_2 by tauto.
    + by rewrite bool_decide_eq_false_2 by tauto.
Qed.

Lemma abort_root w e b c r :
  agrees w e b c -> b.(main_txn) = Some r ->
  (forall e', committed (mdb_txn_abort w r) e' = committed w e') /\ gone w (mdb_txn_abort w r) r.
Proof.
  intros Ha Hm. destruct (agrees_root _ _ _ _ _ Ha Hm) as (R & t & v & post & Hr & He & Ht & Hl & Hcase).
  destruct (levels_last w r R Hr) as [v0 [pre Hpre]%last_Some].
  destruct (abort_law w r R pre r v0 [] Hr Hpre) as [HC HR]. by split.
Qed.

(** The levels of a root agree with its name: a single level is the root. *)
Lemma single_level w r R t v : roots w r = Some R -> R.(r_levels) = [(t, v)] -> t = r.
Proof.
  intros Hr Hl. destruct (levels_last w r R Hr) as [v0 Hv]. rewrite Hl in Hv. by injection Hv.
Qed.

(** ** Updating one handle *)

Lemma agrees_frame w w' e b c :
  (forall r, b.(main_txn) = Some r -> roots w' r = roots w r) -> agrees w e b c -> agrees w' e b c.
Proof.
  intros HR. destruct c; cbn; [done| |].
  - intros (t & Hm & ? & ? & Hr). exists t. rewrite HR by done. done.
  - intros (r & t & post & Hm & ? & ? & Hr & ?). exists r, t, post. rewrite HR by done. done.
Qed.

Lemma handle_inj s p b e c b' e' c' :
  handle s p b e c -> handle s p b' e' c' -> b = b' /\ e = e'.
Proof.
  intros (Hb & (sh & Hs & <-) & _) (Hb' & (sh' & Hs' & <-) & _).
  rewrite Hb in Hb'. injection Hb' as <-. rewrite Hs in Hs'. injection Hs' as <-. done.
Qed.

Lemma agrees_main_open w e b c r : agrees w e b c -> b.(main_txn) = Some r -> exists R, roots w r = Some R.
Proof. intros Ha Hm. destruct (agrees_root _ _ _ _ _ Ha Hm) as (R & ? & ? & ? & Hr & _). by exists R. Qed.

Lemma inv_update s p b e c cs' w' b' c' :
  inv s -> handle s p b e c -> b'.(pBt) = b.(pBt) ->
  (exists l, cursor_list cs' p b'.(pCursor) l /\ NoDup l) ->
  (forall x cc, s.(cursors) !! x = Some cc -> cc.(pBtree) <> p -> cc.(pBtree) <> 0 -> links <$> cs' !! x = Some (links cc)) ->
  (forall r, b.(main_txn) <> Some r -> b'.(main_txn) <> Some r -> roots w' r = roots s.(mdb) r) ->
  (forall r, b'.(main_txn) = Some r -> b.(main_txn) = Some r \/ roots s.(mdb) r = None) ->
  agrees w' e b' c' -> one_writer w' ->
  let s' := mkState (<[p := b']> s.(btrees)) s.(shares) cs' s.(sqlite3SharedCacheList) w' in
  inv s' /\ handle s' p b' e c' /\
  (forall q bq eq cq, q <> p -> handle s q bq eq cq -> handle s' q bq eq cq).
Proof.
  intros Hi (Hb & (sh & Hsh & He) & Ha) Hpb Hcl Hcs HR Hm Ha' Hw s'.
  assert (forall q bq r, q <> p -> btrees s !! q = Some bq -> main_txn bq = Some r ->
            b.(main_txn) <> Some r /\ b'.(main_txn) <> Some r) as Hother.
  { intros q bq r Hq Hbq Hr. assert (b.(main_txn) <> Some r) as Hne.
    { intros Hr'. apply Hq. by eapply (inv_distinct _ Hi). }
    split; [done|]. intros Hr'. destruct (Hm r Hr') as [?|Hnone]; [done|].
    destruct (inv_handle _ Hi _ _ Hbq) as (eq & cq & _ & _ & Haq).
    destruct (agrees_main_open _ _ _ _ _ Haq Hr) as [R HR']. congruence. }
  assert (forall q bq eq cq, q <> p -> handle s q bq eq cq -> handle s' q bq eq cq) as Hq.
  { intros q bq eq cq Hq (Hbq & Hsq & Haq). split; [cbn; by rewrite lookup_insert_ne|].
    split; [done|]. eapply agrees_frame; [|exact Haq]. intros r Hr.
    destruct (Hother q bq r Hq Hbq Hr). by apply HR. }
  assert (handle s' p b' e c') as Hp.
  { split; [cbn; apply lookup_insert_eq|]. split; [|done]. exists sh. by rewrite Hpb. }
  split; [|done]. constructor.
  - cbn. rewrite lookup_insert_ne; [apply (inv_null _ Hi)|]. intros ->. by rewrite (inv_null _ Hi) in Hb.
  - intros q bq Hbq. cbn in Hbq. destruct (decide (q = p)) as [->|Hne].
    + rewrite lookup_insert_eq in Hbq. injection Hbq as <-. eauto.
    + rewrite lookup_insert_ne in Hbq by done. destruct (inv_handle _ Hi _ _ Hbq) as (eq & cq & Hh).
      exists eq, cq. by apply Hq.
  - intros q1 q2 b1 b2 t B1 B2 T1 T2. cbn in B1, B2.
    destruct (decide (q1 = p)) as [->|N1], (decide (q2 = p)) as [->|N2]; [done| | |].
    + rewrite lookup_insert_eq in B1. rewrite lookup_insert_ne in B2 by done.
      injection B1 as <-. by destruct (Hother _ _ _ N2 B2 T2).
    + rewrite lookup_insert_eq in B2. rewrite lookup_insert_ne in B1 by done.
      injection B2 as <-. by destruct (Hother _ _ _ N1 B1 T1).
    + rewrite lookup_insert_ne in B1, B2 by done. by eapply (inv_distinct _ Hi).
  - intros q bq Hbq. cbn in Hbq. destruct (decide (q = p)) as [->|Hne].
    + rewrite lookup_insert_eq in Hbq. by injection Hbq as <-.
    + rewrite lookup_insert_ne in Hbq by done.
      destruct (inv_cursors _ Hi _ _ Hbq) as (l & Hl & Hd). exists l. split; [|done].
      eapply cursor_list_links; [|exact Hl]. intros x Hx.
      destruct (cursor_list_elem _ _ _ _ _ Hl Hx) as (cc & Hcc & Hpc).
      assert (q <> 0) by (intros ->; by rewrite (inv_null _ Hi) in Hbq).
      cbn. rewrite (Hcs x cc Hcc) by congruence. by rewrite Hcc.
  - done.
Qed.

(** ** The operations *)

Definition outcome (s : state) (p e : Z) (c : conn) (o : txn_op) (rc : Z) (s' : state) : Prop :=
  exists b' c', inv s' /\ handle s' p b' e c' /\
    spec_step (rc =? SQLITE_OK) (committed s.(mdb) e) c o = (committed s'.(mdb) e, c') /\
    (forall e', e' <> e -> committed s'.(mdb) e' = committed s.(mdb) e') /\
    (forall q bq eq cq, q <> p -> handle s q bq eq cq -> handle s' q bq eq cq).

Lemma outcome_same s p b e c o rc w' :
  inv s -> handle s p b e c -> same s.(mdb) w' ->
  spec_step (rc =? SQLITE_OK) (committed s.(mdb) e) c o = (committed s.(mdb) e, c) ->
  outcome s p e c o rc (set_mdb s w').
Proof.
  intros Hi Hh HS Hspec. pose proof Hh as (Hb & _ & Ha).
  assert (forall q bq eq cq, handle s q bq eq cq -> handle (set_mdb s w') q bq eq cq) as HF.
  { intros q bq eq cq (? & ? & Haq). split; [done|]. split; [done|].
    eapply agrees_frame; [|exact Haq]. intros r _. apply HS. }
  exists b, c. split; [|split; [by apply HF|]; split; [|split; [|by auto]]].
  - constructor; try apply Hi.
    + intros q bq Hbq. destruct (inv_handle _ Hi _ _ Hbq) as (eq & cq & Hq). eauto.
    + by apply (same_one_writer _ _ HS), Hi.
  - cbn. by rewrite (proj1 HS).
  - intros e' _. cbn. by rewrite (proj1 HS).
Qed.

Lemma set_mdb_id s : set_mdb s s.(mdb) = s.
Proof. by destruct s. Qed.

Lemma outcome_refl s p b e c o rc :
  inv s -> handle s p b e c ->
  spec_step (rc =? SQLITE_OK) (committed s.(mdb) e) c o = (committed s.(mdb) e, c) ->
  outcome s p e c o rc s.
Proof. intros. rewrite <- (set_mdb_id s) at 2. by eapply outcome_same. Qed.

(** The handle, the cursors and LMDB change; the rest of the store does not. *)
Lemma outcome_update s p b e c o rc cs' w' b' c' :
  inv s -> handle s p b e c -> b'.(pBt) = b.(pBt) ->
  (exists l, cursor_list cs' p b'.(pCursor) l /\ NoDup l) ->
  (forall x cc, s.(cursors) !! x = Some cc -> cc.(pBtree) <> p -> cc.(pBtree) <> 0 -> links <$> cs' !! x = Some (links cc)) ->
  (forall r, b.(main_txn) <> Some r -> b'.(main_txn) <> Some r -> roots w' r = roots s.(mdb) r) ->
  (forall r, b'.(main_txn) = Some r -> b.(main_txn) = Some r \/ roots s.(mdb) r = None) ->
  agrees w' e b' c' -> one_writer w' ->
  spec_step (rc =? SQLITE_OK) (committed s.(mdb) e) c o = (committed w' e, c') ->
  (forall e', e' <> e -> committed w' e' = committed s.(mdb) e') ->
  outcome s p e c o rc
    (mkState (<[p := b']> s.(btrees)) s.(shares) cs' s.(sqlite3SharedCacheList) w').
Proof.
  intros Hi Hh Hp Hl Hcs HR Hm Ha Hw Hspec He.
  destruct (inv_update s p b e c cs' w' b' c' Hi Hh Hp Hl Hcs HR Hm Ha Hw) as (HI & HH & HO).
  exists b', c'. auto.
Qed.

Lemma own_cursors s p b : inv s -> s.(btrees) !! p = Some b ->
  (exists l, cursor_list s.(cursors) p b.(pCursor) l /\ NoDup l) /\
  (forall x cc, s.(cursors) !! x = Some cc -> cc.(pBtree) <> p -> cc.(pBtree) <> 0 ->
     links <$> s.(cursors) !! x = Some (links cc)).
Proof. intros Hi Hb. split; [by apply Hi|]. intros x cc -> _ _. done. Qed.

Lemma begin_stmt_run s p b e v below i rc t w' :
  inv s -> handle s p b e (Writing v below) ->
  mdb_txn_begin s.(mdb) e b.(curr_txn) false = Some (rc, t, w') ->
  exists s', sqlite3BtreeBeginStmt p i s = Some (errmap rc, s') /\
    outcome s p e (Writing v below) (BeginStmt i) (errmap rc) s'.
Proof.
  intros Hi Hh Hbegin. pose proof Hh as (Hb & (sh & Hsh & He) & Ha).
  unfold sqlite3BtreeBeginStmt. rewrite (bind_load_btree _ _ _ _ Hb), (bind_env_of _ _ _ _ Hsh), He.
  erewrite bind_some by (unfold txn_begin; by rewrite Hbegin).
  pose proof Ha as (r & t0 & post & Hm & Hc & Ht & Hr & Hbel).
  rewrite Hc in Hbegin.
  pose proof (begin_child _ _ _ _ _ _ _ _ _ _ Hr eq_refl eq_refl Hbegin) as HL.
  destruct (Z.eqb_spec rc 0) as [->|Hne].
  - destruct HL as [HC HR]. eexists. split; [reflexivity|].
    destruct (own_cursors s p b Hi Hb) as [Hl Hcs].
    apply (outcome_update s p b e _ _ _ s.(cursors) w' _ (Writing v (v :: below)));
      try done; cbn [set_txns main_txn].
    + intros r' Hr' _. rewrite HR, decide_False; [done|congruence].
    + intros r' Hr'. by left.
    + cbn. exists r, t, ((t0, v) :: post). rewrite HR, decide_True by done. cbn. by rewrite Hbel.
    + eapply one_writer_sub; [|apply Hi]. intros r' R'. rewrite HR. case_decide as Hd; [|by eauto].
      intros [= <-]. subst r'. eauto.
    + cbn. by rewrite HC.
  - exists (set_mdb s w'). split; [done|]. eapply outcome_same; [done..|].
    by rewrite errmap_eqb, (proj2 (Z.eqb_neq rc 0) Hne).
Qed.

Lemma agrees_inTrans w e b c : agrees w e b c ->
  b.(inTrans) = match c with Idle => TRANS_NONE | Reading _ => TRANS_READ | Writing _ _ => TRANS_WRITE end.
Proof.
  destruct c; cbn; [by intros (_ & _ & ->)| |].
  - by intros (t & _ & _ & -> & _).
  - by intros (r & t & post & _ & _ & -> & _).
Qed.

(** A new root transaction next to the others. *)
Lemma begin_root_one_writer w e rd t w' :
  mdb_txn_begin w e None rd = Some (0, t, w') -> one_writer w -> one_writer w'.
Proof.
  intros Hb Hw. destruct (begin_root _ _ _ _ _ _ Hb) as (Hn & _ & HR & HX).
  intros r1 r2 R1 R2 Q1 Q2 He D1 D2. rewrite HR in Q1, Q2.
  destruct (decide (r1 = t)) as [->|N1], (decide (r2 = t)) as [->|N2]; [done| | |by eapply Hw].
  - injection Q1 as <-. cbn in *. rewrite (HX D1 _ _ Q2) in D2; done.
  - injection Q2 as <-. cbn in *. rewrite (HX D2 _ _ Q1) in D1; done.
Qed.

(** The connection after a root transaction begins. *)
Lemma begin_root_agrees w e b rd t w' :
  mdb_txn_begin w e None rd = Some (0, t, w') ->
  agrees w' e (set_txns b (Some t) (Some t) (if rd then TRANS_READ else TRANS_WRITE))
    (if rd then Reading (committed w e) else Writing (committed w e) []).
Proof.
  intros Hb. destruct (begin_root _ _ _ _ _ _ Hb) as (Hn & _ & HR & _).
  destruct rd; cbn.
  - exists t. by rewrite HR, decide_True.
  - exists t, t, []. by rewrite HR, decide_True.
Qed.

Lemma begin_trans_idle s p b e wrflag rc t w' :
  inv s -> handle s p b e Idle ->
  mdb_txn_begin s.(mdb) e None (wrflag =? 0) = Some (rc, t, w') ->
  exists s', sqlite3BtreeBeginTrans p wrflag s = Some (errmap rc, s') /\
    outcome s p e Idle (BeginTrans wrflag) (errmap rc) s'.
Proof.
  intros Hi Hh Hbegin. pose proof Hh as (Hb & (sh & Hsh & He) & Ha).
  pose proof (agrees_inTrans _ _ _ _ Ha) as HT. pose proof Ha as (Hm & Hc & _).
  unfold sqlite3BtreeBeginTrans. rewrite (bind_load_btree _ _ _ _ Hb), HT. cbn [Z.eqb TRANS_NONE TRANS_WRITE TRANS_READ orb andb].
  rewrite (bind_env_of _ _ _ _ Hsh), He.
  erewrite bind_some by (unfold txn_begin; rewrite Bool.negb_involutive, Hbegin; reflexivity).
  destruct (Z.eqb_spec rc 0) as [->|Hne].
  - eexists. split; [reflexivity|].
    destruct (own_cursors s p b Hi Hb) as [Hl Hcs].
    pose proof (begin_root _ _ _ _ _ _ Hbegin) as (Hn & HC & HR & _).
    apply (outcome_update s p b e _ _ _ s.(cursors) w' _
             (if wrflag =? 0 then Reading (committed s.(mdb) e) else Writing (committed s.(mdb) e) []));
      try done; cbn [set_txns main_txn].
    + intros r' _ Hr'. rewrite HR, decide_False; [done|congruence].
    + intros r' [= <-]. by right.
    + pose proof (begin_root_agrees _ _ b _ _ _ Hbegin) as HA. by destruct (wrflag =? 0).
    + eapply begin_root_one_writer; [exact Hbegin|apply Hi].
    + cbn. rewrite HC. by destruct (wrflag =? 0).
  - exists (set_mdb s w'). split; [by rewrite (proj2 (Z.eqb_neq rc 0) Hne)|].
    pose proof (begin_root _ _ _ _ _ _ Hbegin) as HS. rewrite (proj2 (Z.eqb_neq rc 0) Hne) in HS.
    eapply outcome_same; [done..|]. cbn. by rewrite errmap_eqb, (proj2 (Z.eqb_neq rc 0) Hne).
Qed.

(** A reader that becomes a writer: a new transaction, the old one aborted. *)
Lemma begin_trans_upgrade s p b e v wrflag rc t w' :
  inv s -> handle s p b e (Reading v) -> wrflag <> 0 ->
  mdb_txn_begin s.(mdb) e None false = Some (rc, t, w') ->
  exists s', sqlite3BtreeBeginTrans p wrflag s = Some (errmap rc, s') /\
    outcome s p e (Reading v) (BeginTrans wrflag) (errmap rc) s'.
Proof.
  intros Hi Hh Hwr Hbegin. pose proof Hh as (Hb & (sh & Hsh & He) & Ha).
  pose proof (agrees_inTrans _ _ _ _ Ha) as HT. pose proof Ha as (r & Hm & Hc & _ & Hr).
  apply Z.eqb_neq in Hwr.
  unfold sqlite3BtreeBeginTrans. rewrite (bind_load_btree _ _ _ _ Hb), HT, Hwr, Hm.
  cbn [Z.eqb Pos.eqb TRANS_NONE TRANS_WRITE TRANS_READ orb andb negb].
  rewrite (bind_env_of _ _ _ _ Hsh), He.
  erewrite bind_some by (unfold txn_begin; rewrite Hbegin; reflexivity).
  pose proof (begin_root _ _ _ _ _ _ Hbegin) as HL.
  destruct (Z.eqb_spec rc 0) as [->|Hne].
  - destruct HL as (Hn & HC & HR & _). cbn [Z.eqb].
    destruct (own_cursors s p b Hi Hb) as [(l & Hl & Hd) Hcs].
    destruct (move_cursors_run t p l (S (size s.(cursors))) b.(pCursor) (set_mdb s w'))
      as (cs & Hrun & Hlinks); [done|cbn; pose proof (cursor_list_fuel _ _ _ _ Hl Hd); lia|].
    rewrite !bind_assoc, run_cursor_fuel, bind_assoc. cbn [cursors set_mdb].
    rewrite (bind_some _ _ _ _ _ Hrun).
    eexists. split; [reflexivity|].
    assert (roots w' r = Some (Root _ e true [(r, v)])) as Hr'.
    { rewrite HR, decide_False; [done|]. congruence. }
    destruct (abort_law w' r _ [] r v [] Hr' eq_refl) as [HC2 HR2].
    apply (outcome_update s p b e _ _ _ cs (mdb_txn_abort w' r) _ (Writing (committed s.(mdb) e) []));
      try done; cbn [set_txns main_txn pCursor].
    + exists l. split; [|done]. eapply cursor_list_links; [|exact Hl]. intros x _. apply Hlinks.
    + intros x cc Hx _ _. rewrite Hlinks. cbn. by rewrite Hx.
    + intros r' Hne1 Hne2. rewrite HR2, decide_False by congruence. by rewrite HR, decide_False by congruence.
    + intros r' [= <-]. by right.
    + pose proof (begin_root_agrees _ _ b _ _ _ Hbegin) as HA. cbn in HA.
      eapply agrees_frame; [|exact HA]. cbn. intros r' [= <-]. rewrite HR2, decide_False; [done|congruence].
    + eapply gone_one_writer; [exact HR2|]. eapply begin_root_one_writer; [exact Hbegin|apply Hi].
    + cbn. rewrite Hwr. cbn. by rewrite HC2, HC.
    + intros e' _. by rewrite HC2, HC.
  - exists (set_mdb s w'). split; [by rewrite (proj2 (Z.eqb_neq rc 0) Hne)|].
    eapply outcome_same; [done..|]. cbn. by rewrite errmap_eqb, (proj2 (Z.eqb_neq rc 0) Hne).
Qed.

Lemma begin_trans_nop s p b e c wrflag :
  inv s -> handle s p b e c -> (match c with Writing _ _ => True | Reading _ => wrflag = 0 | Idle => False end) ->
  exists s', sqlite3BtreeBeginTrans p wrflag s = Some (SQLITE_OK, s') /\
    outcome s p e c (BeginTrans wrflag) SQLITE_OK s'.
Proof.
  intros Hi Hh Hcase. pose proof Hh as (Hb & _ & Ha).
  unfold sqlite3BtreeBeginTrans. rewrite (bind_load_btree _ _ _ _ Hb), (agrees_inTrans _ _ _ _ Ha).
  exists s. destruct c; [done|subst wrflag|]; (split; [done|]); by eapply outcome_refl.
Qed.

Lemma handle_nonnull s p b e c : inv s -> handle s p b e c -> p <> 0.
Proof. intros Hi (Hb & _) ->. by rewrite (inv_null _ Hi) in Hb. Qed.

(** The transaction a commit ends: its result code and LMDB's new state. *)
Definition commit_result (w : lmdb) (b : Btree txn) : Z * lmdb :=
  match b.(main_txn) with Some r => mdb_txn_commit w r | None => (0, w) end.

Lemma commit_result_spec w e b c rc w' :
  agrees w e b c -> commit_result w b = (rc, w') ->
  finish (rc =? 0) (committed w e) c = (committed w' e, Idle) /\
  (forall e', e' <> e -> committed w' e' = committed w e') /\
  (forall r, b.(main_txn) <> Some r -> roots w' r = roots w r) /\
  (one_writer w -> one_writer w').
Proof.
  unfold commit_result. intros Ha Hc. destruct (main_txn b) as [r|] eqn:Hm.
  - destruct (commit_root _ _ _ _ _ _ _ Ha Hm Hc) as [HC HG]. repeat split.
    + rewrite HC, decide_True by done. by destruct c.
    + intros e' He'. by rewrite HC, decide_False by done.
    + intros r' Hr'. rewrite HG, decide_False; [done|congruence].
    + by eapply gone_one_writer.
  - injection Hc as <- <-. by rewrite (agrees_idle _ _ _ _ Ha Hm).
Qed.

Lemma commit_run s p b e c :
  inv s -> handle s p b e c ->
  exists s', sqlite3BtreeCommit p s = Some (errmap (commit_result s.(mdb) b).1, s') /\
    outcome s p e c Commit (errmap (commit_result s.(mdb) b).1) s'.
Proof.
  intros Hi Hh. pose proof Hh as (Hb & (sh & Hsh & He) & Ha).
  destruct (commit_result (mdb s) b) as [rc w'] eqn:Hc. cbn [fst].
  destruct (commit_result_spec _ _ _ _ _ _ Ha Hc) as (Hfin & Hoth & Hroots & Hwr).
  set (b1 := set_txns b None None TRANS_NONE).
  set (s1 := mkState (<[p := b1]> s.(btrees)) s.(shares) s.(cursors) s.(sqlite3SharedCacheList) w').
  destruct (own_cursors s p b Hi Hb) as [(l & Hl & Hd) _].
  destruct (close_and_zero_run p l (S (size s.(cursors))) b.(pCursor) s1 b1) as (cs & Hrun & Hcs);
    [by eapply handle_nonnull|cbn; apply lookup_insert_eq|done|done|done|
     pose proof (cursor_list_fuel _ _ _ _ Hl Hd); lia|].
  exists (mkState (<[p := set_pCursor b1 0]> s.(btrees)) s.(shares) cs s.(sqlite3SharedCacheList) w').
  split.
  - unfold sqlite3BtreeCommit.
    assert (sqlite3BtreeCommitPhaseOne p s = Some (errmap rc, set_cursors (set_btrees s1 (<[p := set_pCursor b1 0]> s1.(btrees))) cs)) as Hone.
    { unfold sqlite3BtreeCommitPhaseOne. rewrite (bind_load_btree _ _ _ _ Hb).
      assert (forall {A} (f : Z -> M A),
        ((match main_txn b with
          | Some t => rc ← call (fun w => mdb_txn_commit w t); _ ← store_btree p b1; mret rc
          | None => mret 0
          end) ≫= f) s = f rc s1) as Hf.
      { intros A f. unfold commit_result in Hc. destruct (main_txn b) as [r|] eqn:Hm.
        - rewrite bind_assoc. erewrite bind_some by (unfold call; by rewrite Hc). done.
        - injection Hc as <- <-. rewrite bind_ret. f_equal. unfold s1.
          rewrite insert_id; [by destruct s|]. rewrite Hb. f_equal.
          pose proof (agrees_idle _ _ _ _ Ha Hm) as ->. destruct Ha as (_ & Hcur & Htr).
          unfold b1, set_txns. destruct b. cbn in *. by subst. }
      rewrite Hf. erewrite bind_load_btree by (cbn; apply lookup_insert_eq).
      rewrite run_cursor_fuel. cbn [b1 set_txns pCursor cursors s1].
      rewrite (bind_some _ _ _ _ _ Hrun). done. }
    rewrite (bind_some _ _ _ _ _ Hone). cbn. rewrite insert_insert_eq.
    by destruct (Z.eqb_spec (errmap rc) 0) as [->|Hz].
  - apply (outcome_update s p b e c _ _ cs w' _ Idle); try done.
    + exists []. split; [done|constructor].
    + intros x cc Hx Hne _. rewrite Hcs, decide_False; [cbn; by rewrite Hx|].
      intros Hin. destruct (cursor_list_elem _ _ _ _ _ Hl Hin) as (c' & Hc' & Hp'). congruence.
    + intros r Hr _. by apply Hroots.
    + by apply Hwr, Hi.
    + cbn. by rewrite errmap_eqb.
Qed.

(** The call of LMDB made by sqlite3BtreeSavepoint. *)
Definition end_txn (w : lmdb) (op : Z) (t : txn) : Z * lmdb :=
  if op =? SAVEPOINT_ROLLBACK then (0, mdb_txn_abort w t) else mdb_txn_commit w t.

Lemma end_txn_run {A} op t s (f : Z -> M A) :
  ((if op =? SAVEPOINT_ROLLBACK
    then _ ← run (fun w => mdb_txn_abort w t); mret SQLITE_OK
    else call (fun w => mdb_txn_commit w t)) ≫= f) s =
  f (end_txn s.(mdb) op t).1 (set_mdb s (end_txn s.(mdb) op t).2).
Proof.
  unfold end_txn. destruct (op =? SAVEPOINT_ROLLBACK); [done|].
  unfold mbind, M_bind, call. by destruct (mdb_txn_commit (mdb s) t).
Qed.

(** Whether the changes survive. *)
Definition kept (op rc : Z) : bool := (errmap rc =? SQLITE_OK) && negb (op =? SAVEPOINT_ROLLBACK).

Lemma end_root_spec w op e b c r rc w' :
  agrees w e b c -> b.(main_txn) = Some r -> end_txn w op r = (rc, w') ->
  finish (kept op rc) (committed w e) c = (committed w' e, Idle) /\
  (forall e', e' <> e -> committed w' e' = committed w e') /\
  (forall r', b.(main_txn) <> Some r' -> roots w' r' = roots w r') /\
  (one_writer w -> one_writer w').
Proof.
  intros Ha Hm. unfold end_txn, kept. destruct (op =? SAVEPOINT_ROLLBACK); cbn [negb].
  - intros [= <- <-]. destruct (abort_root _ _ _ _ _ Ha Hm) as [HC HG].
    rewrite Bool.andb_false_r. repeat split.
    + rewrite HC. by destruct c.
    + intros e' _. apply HC.
    + intros r' Hr'. rewrite HG, decide_False; [done|congruence].
    + by eapply gone_one_writer.
  - intros Hc. rewrite Bool.andb_true_r, errmap_eqb. eapply commit_result_spec; [exact Ha|].
    unfold commit_result. by rewrite Hm.
Qed.

(** Ending an inner level. *)
Lemma end_level_spec w op e b r t v t1 v1 post rc w' :
  b.(main_txn) = Some r ->
  roots w r = Some (Root _ e false ((t, v) :: (t1, v1) :: post)) ->
  end_txn w op t = (rc, w') ->
  (forall e', committed w' e' = committed w e') /\
  (forall r', roots w' r' =
     if decide (r' = r) then Some (Root _ e false ((t1, if kept op rc then v else v1) :: post))
     else roots w r').
Proof.
  intros Hm Hr. unfold end_txn, kept. destruct (op =? SAVEPOINT_ROLLBACK); cbn [negb].
  - intros [= <- <-]. rewrite Bool.andb_false_r.
    exact (abort_law w r _ [] t v ((t1, v1) :: post) Hr eq_refl).
  - intros Hc. rewrite Bool.andb_true_r, errmap_eqb.
    destruct (commit_law w r _ [] t v ((t1, v1) :: post) rc w' Hr eq_refl Hc) as [HC HR].
    split; [|exact HR]. intros e'. rewrite HC. by rewrite bool_decide_eq_false_2 by (by intros (_ & ? & _)).
Qed.

(** The whole transaction ends. *)
Lemma end_root_outcome s p b e c r o op rc w' :
  inv s -> handle s p b e c -> b.(main_txn) = Some r -> end_txn s.(mdb) op r = (rc, w') ->
  spec_step (errmap rc =? SQLITE_OK) (committed s.(mdb) e) c o =
    finish (kept op rc) (committed s.(mdb) e) c ->
  outcome s p e c o (errmap rc)
    (set_btrees (set_mdb s w') (<[p := set_txns b None None TRANS_NONE]> s.(btrees))).
Proof.
  intros Hi Hh Hm Hend Hspec. pose proof Hh as (Hb & (sh & Hsh & He) & Ha).
  destruct (end_root_spec _ _ _ _ _ _ _ _ Ha Hm Hend) as (Hfin & Hoth & Hroots & Hwr).
  destruct (own_cursors s p b Hi Hb) as [Hl Hcs].
  apply (outcome_update s p b e c _ _ s.(cursors) w' _ Idle); try done.
  - intros r' Hr' _. by apply Hroots.
  - by apply Hwr, Hi.
  - by rewrite Hspec.
Qed.

Lemma savepoint_run s p b e c op i :
  inv s -> handle s p b e c ->
  exists rc s', sqlite3BtreeSavepoint p op i s = Some (rc, s') /\
    outcome s p e c (Savepoint op i) rc s'.
Proof.
  intros Hi Hh. pose proof Hh as (Hb & _ & Ha).
  unfold sqlite3BtreeSavepoint. rewrite (bind_load_btree _ _ _ _ Hb).
  destruct (main_txn b) as [r|] eqn:Hm.
  2: { pose proof (agrees_idle _ _ _ _ Ha Hm) as ->. rewrite (proj1 (proj2 Ha)).
       exists SQLITE_OK, s. split; [done|]. eapply outcome_refl; [done..|].
       cbn. by destruct (i =? -1). }
  destruct (agrees_root _ _ _ _ _ Ha Hm) as (R & t & v & post & Hr & HE & Hc & Hl & Hcase).
  rewrite Hc. erewrite bind_some by (unfold ask; by rewrite (parent_law _ _ _ [] _ _ _ Hr Hl)).
  destruct (Z.eqb_spec i (-1)) as [->|Hne].
  - unfold deref. cbn [mbind option_bind].
    erewrite bind_some by reflexivity. rewrite end_txn_run.
    destruct (end_txn (mdb s) op r) as [rc w'] eqn:Hend.
    eexists _, (set_btrees (set_mdb s w') (<[p := set_txns b None None TRANS_NONE]> s.(btrees))).
    split; [reflexivity|]. by eapply end_root_outcome.
  - rewrite bind_ret, end_txn_run. destruct (end_txn (mdb s) op t) as [rc w'] eqn:Hend.
    apply Z.eqb_neq in Hne.
    destruct post as [|[t1 v1] post]; cbn [fmap option_fmap option_map head fst snd].
    + eexists _, (set_btrees (set_mdb s w') (<[p := set_txns b None None TRANS_NONE]> s.(btrees))).
      split; [reflexivity|]. rewrite (single_level _ _ _ _ _ Hr Hl) in Hend. eapply end_root_outcome; [done..|].
      cbn. rewrite Hne. by destruct Hcase as [(-> & _) | (-> & _)].
    + destruct Hcase as [(_ & _ & _ & [=]) | (-> & Hd)].
      eexists _, (set_btrees (set_mdb s w') (<[p := set_txns b (Some r) (Some t1) b.(inTrans)]> s.(btrees))).
      split; [reflexivity|].
      assert (roots (mdb s) r = Some (Root _ e false ((t, v) :: (t1, v1) :: post))) as Hr'.
      { rewrite Hr. destruct R. cbn in *. by subst. }
      destruct (end_level_spec _ _ _ _ _ _ _ _ _ _ _ _ Hm Hr' Hend) as [HC HR].
      destruct (own_cursors s p b Hi Hb) as [Hcl Hcs].
      apply (outcome_update s p b e _ _ _ s.(cursors) w' _
               (Writing (if kept op rc then v else v1) (map snd post))); try done.
      * intros r' Hr1 _. rewrite HR, decide_False; [done|congruence].
      * intros r' [= <-]. by left.
      * exists r, t1, post. rewrite HR, decide_True by done.
        cbn. by rewrite (agrees_inTrans _ _ _ _ Ha).
      * eapply one_writer_sub; [|apply Hi]. intros r' R'. rewrite HR. case_decide as Hx; [|by eauto].
        intros [= <-]. subst r'. eauto.
      * cbn. rewrite Hne, HC. done.
Qed.

(** ** Refinement *)

(** LMDB makes the caller wait: another write transaction is open. *)
Definition waits (w : lmdb) (e : Z) (b : Btree txn) (c : conn) (o : txn_op) : Prop :=
  match o, c with
  | BeginTrans wrflag, Idle => mdb_txn_begin w e None (wrflag =? 0) = None
  | BeginTrans wrflag, Reading _ => wrflag <> 0 /\ mdb_txn_begin w e None false = None
  | BeginStmt _, Writing _ _ => mdb_txn_begin w e b.(curr_txn) false = None
  | _, _ => False
  end.

Lemma run_op_outcome p s b e c o :
  inv s -> handle s p b e c -> allowed c o -> ~ waits s.(mdb) e b c o ->
  exists rc s', run_op p o s = Some (rc, s') /\ outcome s p e c o rc s'.
Proof.
  intros Hi Hh Hal Hw. destruct o as [wrflag|i| |op i|tr]; cbn [run_op].
  - destruct c as [|v|v below].
    + cbn in Hw. destruct (mdb_txn_begin (mdb s) e None (wrflag =? 0)) as [[[rc t] w']|] eqn:E; [|done].
      destruct (begin_trans_idle _ _ _ _ _ _ _ _ Hi Hh E) as (s' & ? & ?). eauto.
    + destruct (Z.eq_dec wrflag 0) as [->|Hne].
      { destruct (begin_trans_nop _ _ _ _ _ 0 Hi Hh eq_refl) as (s' & ? & ?). eauto. }
      cbn in Hw. destruct (mdb_txn_begin (mdb s) e None false) as [[[rc t] w']|] eqn:E; [|by destruct Hw].
      destruct (begin_trans_upgrade _ _ _ _ _ _ _ _ _ Hi Hh Hne E) as (s' & ? & ?). eauto.
    + destruct (begin_trans_nop _ _ _ _ _ wrflag Hi Hh I) as (s' & ? & ?). eauto.
  - destruct c as [|v|v below]; [done..|]. cbn in Hw.
    destruct (mdb_txn_begin (mdb s) e (curr_txn b) false) as [[[rc t] w']|] eqn:E; [|done].
    destruct (begin_stmt_run _ _ _ _ _ _ i _ _ _ Hi Hh E) as (s' & ? & ?). eauto.
  - destruct (commit_run _ _ _ _ _ Hi Hh) as (s' & ? & ?). eauto.
  - by eapply savepoint_run.
  - destruct (savepoint_run _ _ _ _ _ SAVEPOINT_ROLLBACK (-1) Hi Hh) as (rc & s' & Hrun & Hout).
    exists rc, s'. split; [exact Hrun|]. destruct Hout as (b' & c' & ? & ? & Hspec & ?).
    exists b', c'. split; [done|]. split; [done|]. split; [|done]. rewrite <- Hspec. cbn.
    by destruct (rc =? SQLITE_OK).
Qed.

(** An operation that would wait does not return. *)
Lemma waits_none p s b e c o :
  handle s p b e c -> waits s.(mdb) e b c o -> run_op p o s = None.
Proof.
  intros (Hb & (sh & Hsh & He) & Ha) Hw. pose proof (agrees_inTrans _ _ _ _ Ha) as HT.
  destruct o as [wrflag|i| |op i|tr]; [| |destruct c; done..].
  - destruct c as [|v|v below]; [| |done]; cbn [run_op]; unfold sqlite3BtreeBeginTrans;
      rewrite (bind_load_btree _ _ _ _ Hb), HT.
    + cbn in Hw. cbn [Z.eqb TRANS_NONE TRANS_WRITE TRANS_READ orb andb].
      rewrite (bind_env_of _ _ _ _ Hsh), He. unfold mbind at 1, M_bind at 1, txn_begin.
      rewrite Bool.negb_involutive. by rewrite Hw.
    + destruct Hw as [Hne Hw]. rewrite (proj2 (Z.eqb_neq _ _) Hne).
      cbn [Z.eqb Pos.eqb TRANS_NONE TRANS_WRITE TRANS_READ orb andb negb].
      rewrite (bind_env_of _ _ _ _ Hsh), He. unfold mbind at 1, M_bind at 1, txn_begin. by rewrite Hw.
  - destruct c as [|v|v below]; [done..|]. cbn [run_op]. unfold sqlite3BtreeBeginStmt.
    rewrite (bind_load_btree _ _ _ _ Hb), (bind_env_of _ _ _ _ Hsh), He.
    unfold mbind at 1, M_bind at 1, txn_begin. cbn in Hw. by rewrite Hw.
Qed.

(** States reached by operations on any of the handles, in any order. *)
Inductive reachable (s0 : state) : state -> Prop :=
  | reachable_refl : reachable s0 s0
  | reachable_step s p b e c o rc s' :
      reachable s0 s -> handle s p b e c -> allowed c o ->
      run_op p o s = Some (rc, s') -> reachable s0 s'.

Lemma reachable_inv s0 s : inv s0 -> reachable s0 s -> inv s.
Proof.
  intros Hi Hr. induction Hr as [|s p b e c o rc s' Hr IH Hh Hal Hrun]; [done|].
  assert (~ waits (mdb s) e b c o) as Hw.
  { intros Hw. by rewrite (waits_none _ _ _ _ _ _ Hh Hw) in Hrun. }
  destruct (run_op_outcome _ _ _ _ _ _ IH Hh Hal Hw) as (rc1 & s1 & Hrun1 & Hout).
  rewrite Hrun1 in Hrun. injection Hrun as <- <-. by destruct Hout as (b' & c' & ? & _).
Qed.

(** Closing statements: the operations of the loop, in order. *)
Lemma close_statement_rollback p s b e v v0 i :
  inv s -> handle s p b e (Writing v [v0]) -> i <> -1 ->
  exists rc s' b', close_statement_loop SAVEPOINT_ROLLBACK i SQLITE_OK [p] s = Some (rc, s') /\
    inv s' /\ handle s' p b' e Idle /\ (rc = SQLITE_OK -> committed s'.(mdb) e = v0).
Proof.
  intros Hi Hh Hne. pose proof (proj2 (Z.eqb_neq i (-1)) Hne) as Hi'.
  destruct (savepoint_run _ _ _ _ _ SAVEPOINT_ROLLBACK i Hi Hh) as (rc & s1 & Hrun & b1 & c1 & Hi1 & Hh1 & Hspec & _).
  assert (rc = SQLITE_OK) as ->.
  { unfold sqlite3BtreeSavepoint in Hrun. destruct Hh as (Hb & _ & Ha).
    rewrite (bind_load_btree _ _ _ _ Hb) in Hrun. destruct Ha as (r & t & post & Hm & Hc & _).
    rewrite Hc, Hm in Hrun. apply bind_inv in Hrun as (par & sa & _ & Hrun).
    apply bind_inv in Hrun as (tt' & sb & _ & Hrun).
    rewrite end_txn_run in Hrun. by apply bind_inv in Hrun as ([] & sd & _ & [= <- _]). }
  cbn [spec_step] in Hspec. rewrite Hi' in Hspec. cbn in Hspec. injection Hspec as HC1 <-.
  destruct (savepoint_run _ _ _ _ _ SAVEPOINT_RELEASE i Hi1 Hh1) as (rc2 & s2 & Hrun2 & b2 & c2 & Hi2 & Hh2 & Hspec2 & _).
  cbn [spec_step] in Hspec2. rewrite Hi' in Hspec2. injection Hspec2 as HC2 <-.
  exists rc2, s2, b2. split; [|split; [done|split; [done|]]].
  - cbn [close_statement_loop]. rewrite (proj2 (Z.eqb_neq p 0)) by (by eapply handle_nonnull).
    cbn [Z.eqb Pos.eqb SAVEPOINT_ROLLBACK SQLITE_OK].
    rewrite !bind_assoc. change 2 with SAVEPOINT_ROLLBACK.
    rewrite (bind_some _ _ _ _ _ Hrun). cbn [Z.eqb SQLITE_OK]. rewrite (bind_some _ _ _ _ _ Hrun2). done.
  - intros ->. rewrite <- HC2. done.
Qed.

(** ** Properties *)

(** C3: the transaction functions implement the abstract connection.  Unless
    LMDB makes it wait, every operation on a handle returns; handle, LMDB and
    committed contents are then those of [spec_step] for the result code it
    returned; the other environments and the other handles are as before; and
    the store keeps its invariant. *)
Theorem btree_txn_refinement p s b e c o :
  inv s -> handle s p b e c -> allowed c o -> ~ waits s.(mdb) e b c o ->
  exists rc s', run_op p o s = Some (rc, s') /\ outcome s p e c o rc s'.
Proof. apply run_op_outcome. Qed.

(** C24: whatever the handles do, two handles of an environment never write at
    the same time, and what a writer will commit and what a reader sees are
    those of its own transaction. *)
Theorem btree_single_writer s0 s p q bp bq e cp cq :
  inv s0 -> reachable s0 s -> handle s p bp e cp -> handle s q bq e cq ->
  bp.(inTrans) = TRANS_WRITE -> bq.(inTrans) = TRANS_WRITE -> p = q.
Proof.
  intros Hi Hr (Hp & _ & Ap) (Hq & _ & Aq) Tp Tq. pose proof (reachable_inv _ _ Hi Hr) as HI.
  rewrite (agrees_inTrans _ _ _ _ Ap) in Tp. rewrite (agrees_inTrans _ _ _ _ Aq) in Tq.
  destruct cp; [done..|]. destruct cq; [done..|].
  destruct Ap as (r & t & post & Hm & _ & _ & Hroot & _).
  destruct Aq as (r' & t' & post' & Hm' & _ & _ & Hroot' & _).
  pose proof (inv_writer _ HI _ _ _ _ Hroot Hroot' eq_refl eq_refl eq_refl) as <-.
  by eapply (inv_distinct _ HI).
Qed.

(** C38: rolling a statement back commits the transaction around it.
    sqlite3VdbeCloseStatement calls sqlite3BtreeSavepoint first to roll back
    and then to release the savepoint of the statement; the first call already
    ends LMDB's nested transaction, so the second commits the enclosing one. *)
Theorem close_statement_commits p s b e v v0 i :
  inv s -> handle s p b e (Writing v [v0]) -> i <> -1 ->
  exists rc s' b', close_statement_loop SAVEPOINT_ROLLBACK i SQLITE_OK [p] s = Some (rc, s') /\
    inv s' /\ handle s' p b' e Idle /\ (rc = SQLITE_OK -> committed s'.(mdb) e = v0).
Proof. apply close_statement_rollback. Qed.

End txn.

(** ** Concrete runs: two handles of one environment *)

Definition idle_btree (next : Z) : Btree sim_txn := mkBtree _ 10 0 None None TRANS_NONE false next.
Definition shared_10 : BtShared := mkShared 1 1 "test.db-lock" 0 TRANS_NONE 0 0 0 2 0 0.

Definition s_idle : state :=
  mkState {[1 := idle_btree 2; 2 := idle_btree 0]} {[10 := shared_10]} ∅ 10 sim0.

(** Run a sequence of calls, keeping the state. *)
Definition after {A} (m : M A) (s : state) : state := match m s with Some (_, s') => s' | None => s end.

Lemma s_idle_handle p b : s_idle.(btrees) !! p = Some b ->
  (p = 1 /\ b = idle_btree 2) \/ (p = 2 /\ b = idle_btree 0).
Proof.
  cbn. intros [[<- <-] | [Hne [<- <-]%lookup_singleton_Some]]%lookup_insert_Some; auto.
Qed.

Lemma s_idle_ok p b : s_idle.(btrees) !! p = Some b -> handle s_idle p b 1 Idle.
Proof.
  intros Hb. split; [done|]. destruct (s_idle_handle p b Hb) as [[-> ->] | [-> ->]];
    (split; [by exists shared_10|done]).
Qed.

Lemma s_idle_inv : inv s_idle.
Proof.
  constructor.
  - done.
  - intros p b Hb. exists 1, Idle. by apply s_idle_ok.
  - intros p q b b' t Hb _ Hm _. by destruct (s_idle_handle p b Hb) as [[-> ->] | [-> ->]].
  - intros p b Hb. exists []. split; [|constructor].
    by destruct (s_idle_handle p b Hb) as [[-> ->] | [-> ->]].
  - intros r1 r2 R1 R2 Hr1. destruct (sim_root_inv sim0 r1 R1 Hr1) as (k & _ & [(e & v & Hk & _) | (e & v & vs & Hk & _)]);
      change (sim_roots sim0) with (∅ : gmap Z sim_root) in Hk; by rewrite lookup_empty in Hk.
Qed.

Example btree_txn_refinement_witness :
  exists rc s', run_op 1 (BeginTrans 1) s_idle = Some (rc, s') /\
    outcome s_idle 1 1 Idle (BeginTrans 1) rc s'.
Proof.
  apply (btree_txn_refinement 1 s_idle (idle_btree 2) 1 Idle (BeginTrans 1)).
  - exact s_idle_inv.
  - by apply s_idle_ok.
  - exact I.
  - intros Hw. vm_compute in Hw. discriminate Hw.
Defined.

Definition s_write : state := after (sqlite3BtreeBeginTrans 1 1) s_idle.

Lemma s_write_ok : exists b, inv s_write /\ handle s_write 1 b 1 (Writing empty_snapshot []) /\
  b.(inTrans) = TRANS_WRITE /\ reachable s_idle s_write.
Proof.
  destruct (begin_trans_idle s_idle 1 (idle_btree 2) 1 1 0 (0, O)
    (with_roots sim0 {[0 := SWriter 1 empty_snapshot []]}) s_idle_inv) as (s' & Hrun & b' & c' & Hi & Hh & Hspec & _);
    [by apply s_idle_ok|by vm_compute|].
  assert (s' = s_write) as -> by (unfold s_write, after; by rewrite Hrun).
  apply (f_equal snd) in Hspec. exists b'.
  cbn [snd] in Hspec. subst c'.
  split; [exact Hi|]. split; [exact Hh|]. split.
  - by rewrite (agrees_inTrans _ _ _ _ (proj2 (proj2 Hh))).
  - eapply (reachable_step s_idle s_idle 1 _ 1 Idle (BeginTrans 1));
      [apply reachable_refl|by apply (s_idle_ok 1 (idle_btree 2))|exact I|exact Hrun].
Qed.

Example btree_single_writer_witness :
  exists b, handle s_write 1 b 1 (Writing empty_snapshot []) /\ 1 = 1.
Proof.
  destruct s_write_ok as (b & Hi & Hh & HT & Hr). exists b. split; [exact Hh|].
  exact (btree_single_writer s_idle s_write 1 1 b b 1 _ _ s_idle_inv Hr Hh Hh HT HT).
Defined.

Definition s_stmt : state := after (sqlite3BtreeBeginStmt 1 1) s_write.

Lemma s_stmt_ok : exists b, inv s_stmt /\ handle s_stmt 1 b 1 (Writing empty_snapshot [empty_snapshot]).
Proof.
  destruct s_write_ok as (b & Hi & Hh & _ & _).
  assert (b = mkBtree _ 10 0 (Some (0, O)) (Some (0, O)) TRANS_WRITE false 2) as ->.
  { destruct Hh as [Hb _]. vm_compute in Hb. by injection Hb as <-. }
  destruct (begin_stmt_run s_write 1 _ 1 _ _ 1 0 (0, 1%nat)
    (with_roots sim0 {[0 := SWriter 1 empty_snapshot [empty_snapshot]]}) Hi Hh)
    as (s' & Hrun & b' & c' & Hi' & Hh' & Hspec & _); [by vm_compute|].
  assert (s' = s_stmt) as -> by (unfold s_stmt, after; by rewrite Hrun).
  apply (f_equal snd) in Hspec. cbn [snd] in Hspec. subst c'. exists b'. by split.
Qed.

Example close_statement_commits_witness :
  exists rc s' b', close_statement_loop SAVEPOINT_ROLLBACK 0 SQLITE_OK [1] s_stmt = Some (rc, s') /\
    inv s' /\ handle s' 1 b' 1 Idle /\ (rc = SQLITE_OK -> committed s'.(mdb) 1 = empty_snapshot).
Proof.
  destruct s_stmt_ok as (b & Hi & Hh).
  exact (close_statement_commits 1 s_stmt b 1 empty_snapshot empty_snapshot 0 Hi Hh ltac:(discriminate)).
Defined.

(** The same with data: the user's transaction writes 5, a statement writes 6
    and fails; after the statement is rolled back, 5 is committed. *)
Definition failed_statement : M (Z * Z) :=
  _ ← sqlite3BtreeBeginTrans 1 1;
  _ ← sqlite3BtreeUpdateMeta 1 6 5;
  _ ← sqlite3BtreeBeginStmt 1 1;
  _ ← sqlite3BtreeUpdateMeta 1 6 6;
  rc ← close_statement_loop SAVEPOINT_ROLLBACK 0 SQLITE_OK [1];
  _ ← sqlite3BtreeRollback 1 0;
  _ ← sqlite3BtreeBeginTrans 2 0;
  v ← sqlite3BtreeGetMeta 2 6;
  mret (rc, v).

Example failed_statement_commits : fst <$> failed_statement s_idle = Some (SQLITE_OK, 5).
Proof. vm_compute. reflexivity. Qed.
