(* ===== verification/BtreeTable.v ===== *)
(** * Tables and meta values of the LMDB back-end

    What the functions of btree.c that open, create, clear and drop tables and
    read and write meta values do to the snapshot a connection sees. *)

From stdpp Require Import strings.
From S2P Require Import Prelude Mem Serial Lmdb LmdbSim Btree BtreeTxn.

(** The snapshot a connection sees. *)
Definition conn_view (c : conn) : option snapshot :=
  match c with Idle => None | Reading v | Writing v _ => Some v end.

Definition with_view (c : conn) (v : snapshot) : conn :=
  match c with Idle => Idle | Reading _ => Reading v | Writing _ below => Writing v below end.

(** A meta value of a snapshot; an absent one is 0. *)
Definition meta_of (v : snapshot) (idx : Z) : option Z :=
  match v.(s_main) !! le32 idx with Some d => of_le32 d | None => Some 0 end.

(** ** Names and numbers *)

Lemma le32_inj i j : 0 <= i < 2 ^ 32 -> 0 <= j < 2 ^ 32 -> le32 i = le32 j -> i = j.
Proof. intros Hi Hj. unfold le32. intros [= E0 E1 E2 E3]. zlia. Qed.

Lemma of_le32_le32 x : 0 <= x < 2 ^ 32 -> of_le32 (le32 x) = Some x.
Proof. intros Hx. unfold le32, of_le32. f_equal. zlia. Qed.

Lemma hex_digit_inj a b : 0 <= a < 16 -> 0 <= b < 16 -> hex_digit a = hex_digit b -> a = b.
Proof.
  intros Ha Hb. unfold hex_digit. intros He.
  apply (f_equal Ascii.nat_of_ascii) in He.
  rewrite !Ascii.nat_ascii_embedding in He
    by (destruct (Z.ltb_spec a 10); destruct (Z.ltb_spec b 10); lia).
  destruct (Z.ltb_spec a 10); destruct (Z.ltb_spec b 10); lia.
Qed.

Lemma hex_inj k : forall a b acc acc', 0 <= a < 16 ^ Z.of_nat k -> 0 <= b < 16 ^ Z.of_nat k ->
  hex k a acc = hex k b acc' -> a = b /\ acc = acc'.
Proof.
  induction k as [|k IH]; intros a b acc acc' Ha Hb He.
  - cbn in *. split; [lia|done].
  - rewrite Nat2Z.inj_succ, Z.pow_succ_r in Ha, Hb by lia. cbn in He.
    apply IH in He as [Hq Hs]; [|zlia|zlia].
    injection Hs as Hd ->. apply hex_digit_inj in Hd; [|zlia..]. split; [zlia|done].
Qed.

Lemma tab_name_inj a b : 0 <= a < 2 ^ 32 -> 0 <= b < 2 ^ 32 -> tab_name a = tab_name b -> a = b.
Proof.
  intros Ha Hb. unfold tab_name. rewrite !wrap_u_small by done. intros He.
  assert (hex 8 a "" = hex 8 b "") as Hx.
  { revert He. generalize (hex 8 a ""), (hex 8 b ""). intros x y He. cbv [String.append] in He. congruence. }
  by apply hex_inj in Hx as [? _].
Qed.

Section tables.
Context `{LmdbLaws}.
Implicit Types (s : state) (w : lmdb) (t r : txn).

(** ** The view of a handle *)

Lemma handle_view s p b e c v :
  handle s p b e c -> conn_view c = Some v ->
  exists t, b.(curr_txn) = Some t /\ view s.(mdb) t v.
Proof.
  intros (_ & _ & Ha) Hv. destruct c as [|u|u below]; [done| |]; injection Hv as ->; cbn in Ha.
  - destruct Ha as (t & _ & Hc & _ & Hr). exists t. split; [done|]. by eexists _, _, _.
  - destruct Ha as (r & t & post & _ & Hc & _ & Hr & _). exists t. split; [done|]. by eexists _, _, _.
Qed.

(** LMDB changes without changing what anyone sees. *)
Lemma same_handles s w' : inv s -> same s.(mdb) w' ->
  inv (set_mdb s w') /\
  forall q bq eq cq, handle s q bq eq cq -> handle (set_mdb s w') q bq eq cq.
Proof.
  intros Hi HS.
  assert (forall q bq eq cq, handle s q bq eq cq -> handle (set_mdb s w') q bq eq cq) as HF.
  { intros q bq eq cq (? & ? & Haq). split; [done|]. split; [done|].
    eapply agrees_frame; [|exact Haq]. intros r _. apply HS. }
  split; [|exact HF]. constructor; try apply Hi.
  - intros q bq Hbq. destruct (inv_handle _ Hi _ _ Hbq) as (eq & cq & Hq). eauto.
  - by apply (same_one_writer _ _ HS), Hi.
Qed.

(** A handle's transaction changes what it sees, and nothing else. *)
Lemma upd_handles s p b e c t v v' w' :
  inv s -> handle s p b e c -> conn_view c = Some v -> b.(curr_txn) = Some t ->
  writable s.(mdb) t -> upd s.(mdb) w' t v' ->
  inv (set_mdb s w') /\ handle (set_mdb s w') p b e (with_view c v') /\
  (forall q bq eq cq, q <> p -> handle s q bq eq cq -> handle (set_mdb s w') q bq eq cq) /\
  (forall e', committed w' e' = committed s.(mdb) e').
Proof.
  intros Hi Hh Hv Ht Hw [HC HU]. pose proof Hh as (Hb & Hsh & Ha).
  assert (exists r post below, c = Writing v below /\ b.(main_txn) = Some r /\
    roots s.(mdb) r = Some (Root _ e false ((t, v) :: post)) /\ map snd post = below)
    as (r & post & below & -> & Hm & Hr & Hbel).
  { destruct c as [|u|u below]; [done| |]; injection Hv as ->; cbn in Ha.
    - destruct Ha as (t' & _ & Hc & _ & Hr). rewrite Ht in Hc. injection Hc as <-.
      destruct Hw as (r & R & u & post & Hr' & Hd & Hl).
      assert (r = t) as -> by (apply (levels_disjoint _ _ _ _ _ t Hr' Hr); rewrite ?Hl; cbn; left).
      rewrite Hr in Hr'. injection Hr' as <-. done.
    - destruct Ha as (r & t' & post & Hm & Hc & _ & Hr & Hbel). rewrite Ht in Hc. injection Hc as <-.
      by exists r, post, below. }
  pose proof (HU _ _ _ _ Hr eq_refl) as HR.
  destruct (own_cursors s p b Hi Hb) as [Hl Hcs].
  destruct (inv_update s p b e _ s.(cursors) w' b (Writing v' below) Hi Hh) as (HI & HH & HO);
    try done.
  - intros r' Hne _. rewrite HR, decide_False; [done|congruence].
  - intros r' Hr'. by left.
  - destruct Ha as (r' & t' & post' & Hm' & Hc' & HT & _). exists r, t, post.
    rewrite HR, decide_True by done. done.
  - eapply one_writer_sub; [|apply Hi]. intros r' R'. rewrite HR. case_decide as Hx; [|by eauto].
    intros [= <-]. subst r'. eauto.
  - rewrite insert_id in HI, HH, HO by done. split; [exact HI|]. split; [exact HH|]. by split.
Qed.
Lemma errmap_ne err : err <> 0 -> errmap err <> SQLITE_OK.
Proof. by rewrite errmap_zero. Qed.

(** ** Opening databases *)

Lemma run_open_main t v s {A} (f : Z * Z -> M A) :
  view s.(mdb) t v ->
  exists w', same s.(mdb) w' /\ (forall e, me_flags w' e = me_flags s.(mdb) e) /\
    dbi_name w' t MAIN_DBI = Some None /\
    (open_dbi t None 0 ≫= f) s = f (0, MAIN_DBI) (set_mdb s w').
Proof.
  intros Hv. destruct (mdb_open (mdb s) t None 0) as [[rc dbi] w'] eqn:Ho.
  destruct (open_main _ _ _ _ _ _ _ Hv Ho) as (-> & -> & HS & HN).
  exists w'. split; [done|]. split; [|split; [done|]].
  - intros e. pose proof (open_flags (mdb s) t None 0 e) as HF. by rewrite Ho in HF.
  - erewrite bind_some by (unfold open_dbi, call; by rewrite Ho). done.
Qed.

(** The database BtreeTableHandle opens. *)
Definition handle_name (v : snapshot) (iTable : Z) : option string :=
  if (iTable =? 1) && (Z.of_nat (size v.(s_main)) + Z.of_nat (size v.(s_tables)) =? 0)
  then None else Some (tab_name iTable).

Lemma table_handle_run s p b e c v t iTable :
  handle s p b e c -> conn_view c = Some v -> b.(curr_txn) = Some t -> view s.(mdb) t v ->
  exists rc dbi w', BtreeTableHandle p iTable s = Some ((rc, dbi), set_mdb s w') /\
    same s.(mdb) w' /\
    (rc = SQLITE_OK -> dbi_name w' t dbi = Some (handle_name v iTable) /\
       forall n, handle_name v iTable = Some n -> is_Some (v.(s_tables) !! n)).
Proof.
  intros (Hb & _ & Ha) Hcv Ht Hv. unfold BtreeTableHandle.
  rewrite (bind_load_btree _ _ _ _ Hb), Ht. erewrite bind_some by done.
  erewrite bind_some by done. rewrite (main_law _ _ _ Hv). fold (handle_name v iTable).
  destruct (mdb_open (mdb s) t (handle_name v iTable) 0) as [[rc dbi] w'] eqn:Ho.
  erewrite bind_some by (unfold open_dbi, call; by rewrite Ho).
  assert (if rc =? 0 then same (mdb s) w' /\ dbi_name w' t dbi = Some (handle_name v iTable) /\
       forall n, handle_name v iTable = Some n -> is_Some (v.(s_tables) !! n) else same (mdb s) w') as HO.
  { destruct (handle_name v iTable) as [n|] eqn:Hn.
    - pose proof (open_named _ _ _ _ _ _ _ _ Hv Ho) as HN. destruct (rc =? 0); [|done].
      destruct HN as [HN HT]. destruct (s_tables v !! n) as [tb|] eqn:E.
      + split; [done|]. split; [done|]. intros n' [= <-]. by exists tb.
      + destruct HT as [HT _]. by rewrite Z.land_0_l in HT.
    - destruct (open_main _ _ _ _ _ _ _ Hv Ho) as (-> & -> & HS & HN). done. }
  destruct (Z.eqb_spec rc 0) as [->|Hne].
  - destruct HO as (HS & HN & HT). cbn [Z.eqb]. rewrite bind_assoc. erewrite bind_some by done. cbn [mdb set_mdb].
    destruct (negb (Z.land (md_flags (mt_dbs w' t dbi)) MDB_DUPSORT =? 0)).
    + exists SQLITE_OK, dbi, (mdb_set_compare w' t dbi).
      destruct (set_compare_law w' t dbi) as [HS2 HN2].
      split; [done|]. split; [by eapply same_trans|]. intros _. by rewrite HN2.
    + exists SQLITE_OK, dbi, w'. done.
  - exists (errmap rc), dbi, w'. split; [by rewrite (proj2 (Z.eqb_neq rc 0) Hne)|].
    split; [done|]. intros E. by destruct (errmap_ne rc Hne).
Qed.

(** ** Meta values *)

Lemma get_meta_run s p b e c v idx :
  inv s -> handle s p b e c -> conn_view c = Some v -> idx <> 0 ->
  exists w', same s.(mdb) w' /\ (forall e', me_flags w' e' = me_flags s.(mdb) e') /\
    sqlite3BtreeGetMeta p idx s = (x ← meta_of v idx; Some (x, set_mdb s w')).
Proof.
  intros Hi Hh Hcv Hx. destruct (handle_view _ _ _ _ _ _ Hh Hcv) as (t & Ht & Hv).
  unfold sqlite3BtreeGetMeta. rewrite (proj2 (Z.eqb_neq idx 0) Hx).
  destruct Hh as (Hb & _ & _). rewrite (bind_load_btree _ _ _ _ Hb), Ht.
  erewrite bind_some by done.
  destruct (run_open_main t v s (fun '(_, dbi) =>
     '(rc, data) ← ask (fun w => mdb_get w t dbi (le32 idx));
     if rc =? 0 then deref (of_le32 data) else mret 0) Hv) as (w' & HS & HF & HN & ->).
  exists w'. split; [done|]. split; [done|]. unfold meta_of.
  pose proof (get_law w' t v MAIN_DBI (le32 idx) (same_view _ _ _ _ HS Hv) HN) as HG.
  unfold mbind at 1, M_bind at 1, ask. cbn [mdb set_mdb].
  destruct (mdb_get w' t MAIN_DBI (le32 idx)) as [rc d] eqn:E.
  destruct (s_main v !! le32 idx) as [d0|] eqn:E0.
  - injection HG as -> ->. cbn. unfold deref. by destruct (of_le32 d0).
  - cbn in HG. by rewrite (proj2 (Z.eqb_neq rc 0) HG).
Qed.

Lemma update_meta_run s p b e c v t idx x :
  inv s -> handle s p b e c -> conn_view c = Some v -> b.(curr_txn) = Some t ->
  view s.(mdb) t v -> Z.land (me_flags s.(mdb) e) MDB_RDONLY = 0 ->
  exists rc w', sqlite3BtreeUpdateMeta p idx x s = Some (errmap rc, set_mdb s w') /\
    (if rc =? 0 then writable s.(mdb) t /\ upd s.(mdb) w' t (set_main v (le32 idx) (le32 x))
     else same s.(mdb) w').
Proof.
  intros Hi (Hb & (sh & Hsh & He) & _) Hcv Ht Hv Hfl. unfold sqlite3BtreeUpdateMeta.
  rewrite (bind_load_btree _ _ _ _ Hb), (bind_env_of _ _ _ _ Hsh), He.
  erewrite bind_some by done. rewrite Hfl. cbn [Z.eqb negb]. rewrite Ht. erewrite bind_some by done.
  destruct (run_open_main t v s (fun '(_, dbi) =>
     rc ← call (fun w => mdb_put w t dbi (le32 idx) (le32 x) 0); mret (errmap rc)) Hv)
    as (w' & HS & _ & HN & ->).
  unfold mbind, M_bind, call. cbn [mdb set_mdb].
  destruct (mdb_put w' t MAIN_DBI (le32 idx) (le32 x) 0) as [rc w2] eqn:E.
  exists rc, w2. split; [done|].
  pose proof (put_law _ _ _ _ _ _ _ _ (same_view _ _ _ _ HS Hv) HN E) as HP.
  destruct (rc =? 0); [|by eapply same_trans].
  destruct HP as [HW HU]. split; [|by eapply same_upd].
  destruct HW as (r & R & u & post & Hr & Hd & Hl). exists r, R, u, post. by rewrite <- (proj2 HS).
Qed.

(** What a failed or successful write leaves. *)
Definition wrote (s : state) (p : Z) (b : Btree txn) (e : Z) (c : conn) (s' : state) (v' : snapshot) : Prop :=
  inv s' /\ handle s' p b e (with_view c v') /\
  (forall q bq eq cq, q <> p -> handle s q bq eq cq -> handle s' q bq eq cq) /\
  (forall e', committed s'.(mdb) e' = committed s.(mdb) e').

Lemma with_view_id c v : conn_view c = Some v -> with_view c v = c.
Proof. destruct c; intros [= ->]; done. Qed.

Lemma wrote_same s p b e c v w' :
  inv s -> handle s p b e c -> conn_view c = Some v -> same s.(mdb) w' ->
  wrote s p b e c (set_mdb s w') v.
Proof.
  intros Hi Hh Hv HS. destruct (same_handles s w' Hi HS) as [HI HF].
  split; [done|]. split; [rewrite (with_view_id _ _ Hv); by apply HF|].
  split; [by auto|]. intros e'. apply HS.
Qed.

Lemma conn_view_with c v v' : conn_view c = Some v -> conn_view (with_view c v') = Some v'.
Proof. by destruct c. Qed.

Lemma wrote_trans s1 s2 s3 p b e c v v1 v2 :
  conn_view c = Some v -> wrote s1 p b e c s2 v1 -> wrote s2 p b e (with_view c v1) s3 v2 ->
  wrote s1 p b e c s3 v2.
Proof.
  intros Hv (_ & _ & O1 & C1) (I2 & H2' & O2 & C2). split; [done|].
  split; [by destruct c|]. split; [by auto|]. intros e'. by rewrite C2, C1.
Qed.
(** ** Clearing and dropping *)

Lemma handle_name_some v iTable tb :
  v.(s_tables) !! tab_name iTable = Some tb -> handle_name v iTable = Some (tab_name iTable).
Proof.
  intros Ht. unfold handle_name.
  destruct (Z.eqb_spec (Z.of_nat (size v.(s_main)) + Z.of_nat (size v.(s_tables))) 0) as [E|];
    [|by rewrite Bool.andb_false_r].
  assert (size v.(s_tables) = O) as Hs by lia. apply map_size_empty_inv in Hs.
  rewrite Hs, lookup_empty in Ht. done.
Qed.

(** What a drop leaves of the view. *)
Definition dropped (del : bool) (v : snapshot) (n : string) (tb : table) : snapshot :=
  if del then remove_table v n else set_table v n (Table tb.(t_flags) []).

Lemma drop_call_run s p b e c v t n tb dbi w1 del :
  inv s -> handle s p b e c -> conn_view c = Some v -> b.(curr_txn) = Some t ->
  view s.(mdb) t v -> same s.(mdb) w1 -> dbi_name w1 t dbi = Some (Some n) ->
  v.(s_tables) !! n = Some tb ->
  exists rc w', mdb_drop w1 t dbi del = (rc, w') /\
    wrote s p b e c (set_mdb s w') (if rc =? 0 then dropped del v n tb else v).
Proof.
  intros Hi Hh Hcv Ht Hv HS HN Htb. destruct (mdb_drop w1 t dbi del) as [rc w'] eqn:E.
  exists rc, w'. split; [done|].
  pose proof (drop_law _ _ _ _ _ _ _ _ _ (same_view _ _ _ _ HS Hv) HN Htb E) as HD.
  destruct (rc =? 0).
  - destruct HD as [HW HU].
    assert (writable s.(mdb) t) as HW'.
    { destruct HW as (r & R & u & post & Hr & Hd & Hl). exists r, R, u, post. by rewrite <- (proj2 HS). }
    by destruct (upd_handles s p b e c t v _ w' Hi Hh Hcv Ht HW' (same_upd _ _ _ _ _ HS HU)) as (? & ? & ? & ?).
  - eapply wrote_same; [done..|]. by eapply same_trans.
Qed.

Lemma clear_table_run s p b e c v iTable pnChange tb :
  inv s -> handle s p b e c -> conn_view c = Some v ->
  v.(s_tables) !! tab_name iTable = Some tb ->
  exists rc k s', sqlite3BtreeClearTable p iTable pnChange s = Some ((rc, k), s') /\
    wrote s p b e c s' (if rc =? SQLITE_OK then dropped false v (tab_name iTable) tb else v).
Proof.
  intros Hi Hh Hcv Htb. destruct (handle_view _ _ _ _ _ _ Hh Hcv) as (t & Ht & Hv).
  destruct (table_handle_run s p b e c v t iTable Hh Hcv Ht Hv) as (rc & dbi & w1 & Hrun & HS & HN).
  unfold sqlite3BtreeClearTable. pose proof Hh as (Hb & _ & _).
  rewrite (bind_load_btree _ _ _ _ Hb), Ht. erewrite bind_some by done.
  assert (exists ents, (if pnChange then db ← ask (fun w => mt_dbs w t iTable); mret db.(md_entries) else mret 0) s
            = Some (ents, s)) as [ents He] by (destruct pnChange; by eexists).
  rewrite (bind_some _ _ _ _ _ He), (bind_some _ _ _ _ _ Hrun).
  destruct (Z.eqb_spec rc 0) as [->|Hne]; cbn [negb].
  - destruct (HN eq_refl) as [HN' _]. rewrite (handle_name_some _ _ _ Htb) in HN'.
    destruct (drop_call_run s p b e c v t _ tb dbi w1 false Hi Hh Hcv Ht Hv HS HN' Htb) as (rc & w' & HD & HW).
    erewrite bind_some by (unfold call; cbn [mdb set_mdb]; by rewrite HD).
    eexists _, _, (set_mdb s w'). split; [done|]. by rewrite errmap_eqb.
  - eexists _, _, (set_mdb s w1). split; [done|].
    rewrite errmap_eqb, (proj2 (Z.eqb_neq rc 0) Hne). by eapply wrote_same.
Qed.

Lemma drop_table_run s p b e c v iTable tb :
  inv s -> handle s p b e c -> conn_view c = Some v ->
  v.(s_tables) !! tab_name iTable = Some tb ->
  exists rc s', sqlite3BtreeDropTable p iTable s = Some ((rc, 0), s') /\
    wrote s p b e c s' (if rc =? SQLITE_OK then dropped true v (tab_name iTable) tb else v).
Proof.
  intros Hi Hh Hcv Htb. destruct (handle_view _ _ _ _ _ _ Hh Hcv) as (t & Ht & Hv).
  destruct (table_handle_run s p b e c v t iTable Hh Hcv Ht Hv) as (rc & dbi & w1 & Hrun & HS & HN).
  unfold sqlite3BtreeDropTable. pose proof Hh as (Hb & _ & _). rewrite (bind_some _ _ _ _ _ Hrun).
  destruct (Z.eqb_spec rc 0) as [->|Hne].
  - destruct (HN eq_refl) as [HN' _]. rewrite (handle_name_some _ _ _ Htb) in HN'.
    destruct (drop_call_run s p b e c v t _ tb dbi w1 true Hi Hh Hcv Ht Hv HS HN' Htb) as (rc & w' & HD & HW).
    cbn [Z.eqb]. rewrite bind_assoc. erewrite bind_load_btree by done. rewrite Ht, bind_assoc.
    erewrite bind_some by done.
    erewrite bind_some by (unfold call; cbn [mdb set_mdb]; by rewrite HD).
    eexists _, (set_mdb s w'). split; [done|]. by rewrite errmap_eqb.
  - rewrite bind_ret. eexists _, (set_mdb s w1). split; [done|].
    rewrite errmap_eqb, (proj2 (Z.eqb_neq rc 0) Hne). by eapply wrote_same.
Qed.

(** ** Creating *)

(** No table number exceeds [n]. *)
Definition roots_ok (v : snapshot) (n : Z) : Prop :=
  forall k, 0 <= k < 2 ^ 32 -> is_Some (v.(s_tables) !! tab_name k) -> 1 <= k <= n.

Lemma open_table_run s p b e c v t n fl {A} (f : Z * Z -> M A) :
  inv s -> handle s p b e c -> conn_view c = Some v -> b.(curr_txn) = Some t -> view s.(mdb) t v ->
  v.(s_tables) !! n = None ->
  exists rc dbi w', (open_dbi t (Some n) fl ≫= f) s = f (rc, dbi) (set_mdb s w') /\
    me_flags w' e = me_flags s.(mdb) e /\
    wrote s p b e c (set_mdb s w')
      (if rc =? 0 then set_table v n (Table (Z.land fl (Z.lnot MDB_CREATE)) []) else v).
Proof.
  intros Hi Hh Hcv Ht Hv Hn. destruct (mdb_open (mdb s) t (Some n) fl) as [[rc dbi] w'] eqn:Ho.
  exists rc, dbi, w'. split; [by erewrite bind_some by (unfold open_dbi, call; by rewrite Ho)|].
  split; [pose proof (open_flags (mdb s) t (Some n) fl e) as HF; by rewrite Ho in HF|].
  pose proof (open_named _ _ _ _ _ _ _ _ Hv Ho) as HN. destruct (rc =? 0).
  - rewrite Hn in HN. destruct HN as (_ & _ & HW & HU).
    by destruct (upd_handles s p b e c t v _ w' Hi Hh Hcv Ht HW HU) as (? & ? & ? & ?).
  - by eapply wrote_same.
Qed.

Definition created (v : snapshot) (root flags : Z) : snapshot :=
  set_table v (tab_name root)
    (Table (if negb (Z.land flags BTREE_INTKEY =? 0) then MDB_INTEGERKEY else MDB_DUPSORT) []).

(** The second half of sqlite3BtreeCreateTable: from the flags on. *)
Lemma create_second_run s p b e c v t last flags :
  inv s -> handle s p b e c -> conn_view c = Some v ->
  b.(curr_txn) = Some t -> view s.(mdb) t v -> Z.land (me_flags s.(mdb) e) MDB_RDONLY = 0 ->
  v.(s_tables) !! tab_name last = None ->
  let mflags := Z.lor (if negb (Z.land flags BTREE_INTKEY =? 0) then MDB_INTEGERKEY else MDB_DUPSORT) MDB_CREATE in
  exists rc s' v',
    ('(rc, dbi) ← open_dbi t (Some (tab_name last)) mflags;
     if rc =? 0 then
       _ ← (if negb (Z.land mflags MDB_DUPSORT =? 0)
            then run (fun w => mdb_set_compare w t dbi) else mret ());
       _ ← sqlite3BtreeUpdateMeta p BTREE_LARGEST_ROOT_PAGE last;
       mret (errmap rc, Some last)
     else mret (errmap rc, None)) s = Some ((errmap rc, if rc =? 0 then Some last else None), s') /\
    wrote s p b e c s' v' /\
    (rc <> 0 -> v' = v) /\
    (rc = 0 -> exists s2 rcu, wrote s p b e c s2 (created v last flags) /\
       sqlite3BtreeUpdateMeta p BTREE_LARGEST_ROOT_PAGE last s2 = Some (rcu, s') /\
       v' = if rcu =? SQLITE_OK then set_main (created v last flags) (le32 BTREE_LARGEST_ROOT_PAGE) (le32 last)
            else created v last flags).
Proof.
  intros Hi Hh Hcv Ht Hv Hfl Hn mflags.
  destruct (open_table_run s p b e c v t (tab_name last) mflags (fun '(rc, dbi) =>
     if rc =? 0 then
       _ ← (if negb (Z.land mflags MDB_DUPSORT =? 0)
            then run (fun w => mdb_set_compare w t dbi) else mret ());
       _ ← sqlite3BtreeUpdateMeta p BTREE_LARGEST_ROOT_PAGE last;
       mret (errmap rc, Some last)
     else mret (errmap rc, None)) Hi Hh Hcv Ht Hv Hn) as (rc & dbi & w1 & -> & Hfl1 & HW).
  assert (Z.land mflags (Z.lnot MDB_CREATE) =
    (if negb (Z.land flags BTREE_INTKEY =? 0) then MDB_INTEGERKEY else MDB_DUPSORT)) as Hm.
  { unfold mflags. by destruct (negb (Z.land flags BTREE_INTKEY =? 0)). }
  rewrite Hm in HW. fold (created v last flags) in HW.
  destruct (Z.eqb_spec rc 0) as [->|Hne]; [|exists rc, (set_mdb s w1), v; by rewrite (proj2 (Z.eqb_neq rc 0) Hne)].
  set (s1 := set_mdb s w1) in *.
  assert (exists w2, same w1 w2 /\ me_flags w2 e = me_flags w1 e /\ (if negb (Z.land mflags MDB_DUPSORT =? 0)
            then run (fun w => mdb_set_compare w t dbi) else mret ()) s1 = Some ((), set_mdb s w2)) as (w2 & HS2 & Hfl2 & Hrun2).
  { destruct (negb (Z.land mflags MDB_DUPSORT =? 0)); [|by exists w1].
    eexists. split; [apply set_compare_law|]. split; [apply set_compare_flags|done]. }
  rewrite (bind_some _ _ _ _ _ Hrun2).
  destruct HW as (I1 & H1' & O1 & C1). cbn [Z.eqb] in H1'.
  assert (wrote s p b e c (set_mdb s w2) (created v last flags)) as W2.
  { eapply (wrote_trans s s1); [done|by split; [exact I1|]|].
    apply (wrote_same s1 p b e _ (created v last flags) w2); [done|done|by eapply conn_view_with|done]. }
  pose proof W2 as (I2 & H2' & O2 & C2).
  pose proof (conn_view_with c v (created v last flags) Hcv) as Hcv2.
  destruct (handle_view _ _ _ _ _ _ H2' Hcv2) as (t' & Ht' & Hv2).
  rewrite Ht in Ht'. injection Ht' as <-.
  destruct (update_meta_run (set_mdb s w2) p b e _ _ t BTREE_LARGEST_ROOT_PAGE last I2 H2' Hcv2 Ht Hv2)
    as (rc3 & w3 & Hrun3 & HU); [cbn; by rewrite Hfl2, Hfl1|].
  rewrite (bind_some _ _ _ _ _ Hrun3).
  exists 0, (set_mdb s w3), (if rc3 =? 0 then set_main (created v last flags) (le32 BTREE_LARGEST_ROOT_PAGE) (le32 last)
    else created v last flags).
  split; [done|]. split; [|split; [done|intros _; exists (set_mdb s w2), (errmap rc3); by rewrite errmap_eqb]].
  eapply (wrote_trans s (set_mdb s w2)); [done|exact W2|].
  change (set_mdb s w3) with (set_mdb (set_mdb s w2) w3). destruct (rc3 =? 0).
  - destruct HU as [HW HU].
    by destruct (upd_handles _ p b e _ t _ _ w3 I2 H2' Hcv2 Ht HW HU) as (? & ? & ? & ?).
  - by eapply wrote_same.
Qed.
Lemma tab_fresh v n root : roots_ok v n -> n < root < 2 ^ 32 -> 0 <= n -> v.(s_tables) !! tab_name root = None.
Proof.
  intros Hok Hr Hn. destruct (s_tables v !! tab_name root) eqn:E; [|done].
  assert (1 <= root <= n); [|lia]. apply Hok; [lia|by exists t].
Qed.

Lemma roots_ok_created v n root flags :
  roots_ok v n -> 0 <= n < root -> root < 2 ^ 32 -> roots_ok (created v root flags) root.
Proof.
  intros Hok Hn Hr k Hk. cbn. destruct (decide (tab_name root = tab_name k)) as [E|E].
  - apply tab_name_inj in E; [|lia|lia]. lia.
  - rewrite lookup_insert_ne by done. intros Hs. specialize (Hok k Hk Hs). lia.
Qed.

(** The view once the implicit first table exists, and the next number. *)
Definition with_first (v : snapshot) (n : Z) : snapshot := if n =? 0 then created v 1 BTREE_INTKEY else v.
Definition next_root (n : Z) : Z := if n =? 0 then 2 else n + 1.

Lemma with_first_ok v n : 0 <= n -> roots_ok v n -> roots_ok (with_first v n) (next_root n - 1).
Proof.
  intros Hn Hok. unfold with_first, next_root. destruct (Z.eqb_spec n 0) as [->|Hne].
  - apply (roots_ok_created v 0 1); [done|lia|lia].
  - by replace (n + 1 - 1) with n by lia.
Qed.

Definition create_first (t : txn) (last : Z) : M (Z * Z) :=
  if last =? 1 then
    '(rc, _) ← open_dbi t (Some (tab_name last)) (Z.lor MDB_CREATE MDB_INTEGERKEY);
    mret (rc, u32 (last + 1))
  else mret (0, last).

Lemma create_first_run s p b e c v t n :
  inv s -> handle s p b e c -> conn_view c = Some v -> b.(curr_txn) = Some t -> view s.(mdb) t v ->
  0 <= n < 2 ^ 32 - 2 -> roots_ok v n ->
  exists rc w', create_first t (n + 1) s = Some ((rc, next_root n), set_mdb s w') /\
    me_flags w' e = me_flags s.(mdb) e /\
    wrote s p b e c (set_mdb s w') (if rc =? 0 then with_first v n else v).
Proof.
  intros Hi Hh Hcv Ht Hv Hn Hok. unfold create_first, next_root, with_first.
  destruct (Z.eqb_spec n 0) as [->|Hne].
  - change (0 + 1) with 1. change (1 + 1) with 2. change (1 =? 1) with true. cbv iota.
    destruct (open_table_run s p b e c v t (tab_name 1) (Z.lor MDB_CREATE MDB_INTEGERKEY)
      (fun '(rc, _) => mret (rc, u32 2)) Hi Hh Hcv Ht Hv) as (rc & dbi & w' & -> & Hfl & HW);
      [by eapply tab_fresh|]. exists rc, w'. done.
  - rewrite (proj2 (Z.eqb_neq (n + 1) 1)) by lia. exists 0, s.(mdb).
    rewrite set_mdb_id. split; [done|]. split; [done|]. rewrite <- (set_mdb_id s) at 2. by eapply wrote_same.
Qed.

Lemma create_table_run s p b e v n flags :
  inv s -> handle s p b e (Writing v []) -> Z.land (me_flags s.(mdb) e) MDB_RDONLY = 0 ->
  meta_of v BTREE_LARGEST_ROOT_PAGE = Some n -> 0 <= n < 2 ^ 32 - 2 -> roots_ok v n ->
  exists rc s' v', sqlite3BtreeCreateTable p flags s =
      Some ((rc, if rc =? SQLITE_OK then Some (next_root n) else None), s') /\
    wrote s p b e (Writing v []) s' v' /\
    (rc <> SQLITE_OK -> v' = v \/ v' = with_first v n) /\
    (rc = SQLITE_OK -> exists s2 rcu, wrote s p b e (Writing v []) s2 (created (with_first v n) (next_root n) flags) /\
       sqlite3BtreeUpdateMeta p BTREE_LARGEST_ROOT_PAGE (next_root n) s2 = Some (rcu, s') /\
       v' = if rcu =? SQLITE_OK then set_main (created (with_first v n) (next_root n) flags)
              (le32 BTREE_LARGEST_ROOT_PAGE) (le32 (next_root n)) else created (with_first v n) (next_root n) flags).
Proof.
  intros Hi Hh Hfl Hmeta Hn Hok. pose proof Hh as (Hb & Hsh & Ha).
  destruct (get_meta_run s p b e _ v BTREE_LARGEST_ROOT_PAGE Hi Hh eq_refl ltac:(done)) as (w1 & HS1 & HF1 & Hrun1).
  rewrite Hmeta in Hrun1. cbn [mbind option_bind] in Hrun1.
  unfold sqlite3BtreeCreateTable. rewrite (bind_some _ _ _ _ _ Hrun1).
  set (s1 := set_mdb s w1).
  pose proof (wrote_same s p b e _ v w1 Hi Hh eq_refl HS1) as W1. cbn [with_view] in W1.
  pose proof W1 as (I1 & H1' & _).
  destruct Ha as (r & t & post & Hm & Hc & _ & Hr & Hpost). destruct post; [|done].
  pose proof (single_level _ _ _ _ _ Hr eq_refl) as ->.
  destruct (handle_view _ _ _ _ _ _ H1' eq_refl) as (t' & Ht' & Hv1).
  rewrite Hc in Ht'. injection Ht' as <-.
  rewrite (wrap_u_small 32 (n + 1)) by zlia.
  erewrite bind_load_btree by exact Hb. rewrite Hm. erewrite bind_some by done.
  fold (create_first r (n + 1)).
  assert (Z.land (me_flags (mdb s1) e) MDB_RDONLY = 0) as Hfl1 by (cbn; by rewrite HF1).
  destruct (create_first_run s1 p b e _ v r n I1 H1' eq_refl Hc Hv1 Hn Hok) as (rc1 & w2 & Hrun2 & Hfl2 & W2).
  rewrite (bind_some _ _ _ _ _ Hrun2).
  pose proof (wrote_trans s s1 (set_mdb s1 w2) p b e (Writing v []) v v _ eq_refl W1 W2) as W2'.
  destruct (Z.eqb_spec rc1 0) as [->|Hne]; cbn [negb].
  2: { exists (errmap rc1), (set_mdb s1 w2), v. rewrite errmap_eqb, (proj2 (Z.eqb_neq rc1 0) Hne).
       split; [done|]. split; [done|]. split; [by left|]. intros Hz. by destruct (errmap_ne rc1 Hne). }
  cbn [Z.eqb] in W2'. set (v1 := with_first v n) in *. cbn [with_view] in W2'.
  pose proof W2' as (I2 & H2' & _ & _). set (s2 := set_mdb s1 w2) in *.
  destruct (handle_view _ _ _ _ _ _ H2' eq_refl) as (t' & Ht' & Hv2).
  rewrite Hc in Ht'. injection Ht' as <-.
  assert (mt_rdonly (mdb s2) r = false) as Hrd.
  { destruct H2' as (_ & _ & r' & t' & post & Hm' & Hc' & _ & Hr' & _).
    rewrite Hc in Hc'. injection Hc' as <-. by rewrite (rdonly_law _ _ _ [] _ _ _ Hr' eq_refl). }
  erewrite bind_some by (unfold ask; by rewrite Hrd). cbn [negb].
  destruct (create_second_run s2 p b e _ v1 r (next_root n) flags I2 H2' eq_refl Hc Hv2)
    as (rc2 & s3 & v3 & Hrun3 & W3 & HN & HY); [cbn; by rewrite Hfl2| |].
  { eapply tab_fresh; [by apply with_first_ok; [lia|]|..]; unfold next_root; destruct (n =? 0); lia. }
  cbv zeta in Hrun3. exists (errmap rc2), s3, v3. rewrite errmap_eqb. split; [exact Hrun3|].
  split; [exact (wrote_trans s s2 s3 p b e (Writing v []) v v1 v3 eq_refl W2' W3)|]. split.
  - intros Hz. right. apply HN. intros ->. by apply Hz.
  - intros Hz. destruct (HY (proj1 (errmap_zero _) Hz)) as (s4 & rcu & W4 & Hu & ->). exists s4, rcu. split; [|by split].
    exact (wrote_trans s s2 s4 p b e (Writing v []) v v1 _ eq_refl W2' W4).
Qed.
Lemma created_lookup v root flags m :
  (created v root flags).(s_tables) !! m =
  if decide (m = tab_name root)
  then Some (Table (if negb (Z.land flags BTREE_INTKEY =? 0) then MDB_INTEGERKEY else MDB_DUPSORT) [])
  else v.(s_tables) !! m.
Proof.
  cbn. case_decide as Hm; [subst m; apply lookup_insert_eq|]. by rewrite lookup_insert_ne.
Qed.

Lemma with_first_lookup v n m : m <> tab_name 1 -> (with_first v n).(s_tables) !! m = v.(s_tables) !! m.
Proof.
  intros Hm. unfold with_first. destruct (n =? 0); [|done]. by rewrite created_lookup, decide_False.
Qed.

Lemma next_root_bounds n : 0 <= n < 2 ^ 32 - 2 -> n < next_root n < 2 ^ 32 /\ 2 <= next_root n.
Proof. intros Hn. unfold next_root. destruct (Z.eqb_spec n 0); lia. Qed.

(** ** Properties *)

(** Meta values are stored and read back.  sqlite3BtreeUpdateMeta in a
    write transaction either fails and changes nothing, or succeeds, and then
    sqlite3BtreeGetMeta returns the new value for that index and the old one
    for the others; other handles and the committed contents do not change. *)
Theorem meta_roundtrip s p b e v below idx x j y :
  inv s -> handle s p b e (Writing v below) -> Z.land (me_flags s.(mdb) e) MDB_RDONLY = 0 ->
  0 < idx < 2 ^ 32 -> 0 < j < 2 ^ 32 -> 0 <= x < 2 ^ 32 -> meta_of v j = Some y ->
  exists rc s1 s2 v', sqlite3BtreeUpdateMeta p idx x s = Some (rc, s1) /\
    wrote s p b e (Writing v below) s1 v' /\ (rc <> SQLITE_OK -> v' = v) /\
    sqlite3BtreeGetMeta p j s1 =
      Some (if (rc =? SQLITE_OK) && (j =? idx) then x else y, s2).
Proof.
  intros Hi Hh Hfl Hidx Hj Hx Hy. destruct (handle_view _ _ _ _ _ _ Hh eq_refl) as (t & Ht & Hv).
  destruct (update_meta_run s p b e _ v t idx x Hi Hh eq_refl Ht Hv Hfl) as (rc & w1 & Hrun & HU).
  assert (wrote s p b e (Writing v below) (set_mdb s w1)
    (if rc =? 0 then set_main v (le32 idx) (le32 x) else v)) as HW.
  { destruct (rc =? 0); [|by eapply wrote_same]. destruct HU as [HW HU].
    by destruct (upd_handles s p b e _ t v _ w1 Hi Hh eq_refl Ht HW HU) as (? & ? & ? & ?). }
  pose proof HW as (I1 & H1' & _).
  destruct (get_meta_run _ p b e _ _ j I1 H1' eq_refl ltac:(lia)) as (w2 & _ & _ & Hget).
  assert (meta_of (if rc =? 0 then set_main v (le32 idx) (le32 x) else v) j =
    Some (if (rc =? 0) && (j =? idx) then x else y)) as Hm.
  { destruct (rc =? 0); [|done]. unfold meta_of. cbn. destruct (Z.eqb_spec j idx) as [->|Hne].
    - rewrite lookup_insert_eq. by apply of_le32_le32.
    - rewrite lookup_insert_ne; [done|]. intros He%le32_inj; lia. }
  rewrite Hm in Hget. eexists (errmap rc), (set_mdb s w1), _, _.
  split; [done|]. split; [exact HW|]. split.
  - intros Hne. destruct (Z.eqb_spec rc 0) as [->|]; done.
  - rewrite errmap_eqb. exact Hget.
Qed.

(** C28: sqlite3BtreeCreateTable in a write transaction without savepoints, the
    largest root number being [n] and no table having a larger one.  When it
    succeeds it gives the number n+1, or 2 in an empty database, where the
    table 1 is created too; no table had that number; the view has the new
    table, empty and of the kind asked for, besides what it had; and the number
    is recorded as the largest, unless sqlite3BtreeUpdateMeta fails, whose
    result is ignored.  When it fails there is no number, and nothing has
    changed but that the table 1 may have been created in the empty database. *)
Theorem create_table_fresh s p b e v n flags :
  inv s -> handle s p b e (Writing v []) -> Z.land (me_flags s.(mdb) e) MDB_RDONLY = 0 ->
  meta_of v BTREE_LARGEST_ROOT_PAGE = Some n -> 0 <= n < 2 ^ 32 - 2 -> roots_ok v n ->
  let root := if n =? 0 then 2 else n + 1 in
  let kind := if negb (Z.land flags BTREE_INTKEY =? 0) then MDB_INTEGERKEY else MDB_DUPSORT in
  let v1 := if n =? 0 then set_table v (tab_name 1) (Table MDB_INTEGERKEY []) else v in
  let v2 := set_table v1 (tab_name root) (Table kind []) in
  exists rc (res : option Z) s' v', sqlite3BtreeCreateTable p flags s = Some ((rc, res), s') /\
    wrote s p b e (Writing v []) s' v' /\
    (rc = SQLITE_OK -> res = Some root /\ v.(s_tables) !! tab_name root = None /\ roots_ok v' root /\
       exists s2 rcu, wrote s p b e (Writing v []) s2 v2 /\
         sqlite3BtreeUpdateMeta p BTREE_LARGEST_ROOT_PAGE root s2 = Some (rcu, s') /\
         v' = if rcu =? SQLITE_OK then set_main v2 (le32 BTREE_LARGEST_ROOT_PAGE) (le32 root) else v2) /\
    (rc <> SQLITE_OK -> res = None /\ (v' = v \/ v' = v1)).
Proof.
  intros Hi Hh Hfl Hmeta Hn Hok root kind v1 v2.
  destruct (create_table_run s p b e v n flags Hi Hh Hfl Hmeta Hn Hok) as (rc & s' & v' & Hrun & HW & HN & HY).
  eexists rc, _, s', v'. split; [exact Hrun|]. split; [exact HW|]. destruct (next_root_bounds n Hn) as [Hb1 Hb2].
  split; [intros ->|intros Hne; rewrite (proj2 (Z.eqb_neq rc SQLITE_OK) Hne); by auto].
  destruct (HY eq_refl) as (s2 & rcu & HW2 & Hu & Hv'). split; [done|]. split; [change root with (next_root n); by apply (tab_fresh v n); [|lia..]|].
  split; [|by exists s2, rcu].
  assert (v'.(s_tables) = (created (with_first v n) (next_root n) flags).(s_tables)) as HT by (rewrite Hv'; by destruct (rcu =? SQLITE_OK)).
  change root with (next_root n). intros k Hk. rewrite HT. apply (roots_ok_created _ (next_root n - 1)); [|lia..].
  apply with_first_ok; [lia|done].
Qed.

(** C29: clearing a table empties it and dropping one removes it, and nothing
    else in the view changes; when either fails, nothing changes at all. *)
Theorem clear_drop_table s p b e c v iTable pnChange tb :
  inv s -> handle s p b e c -> conn_view c = Some v ->
  v.(s_tables) !! tab_name iTable = Some tb ->
  (exists rc k s', sqlite3BtreeClearTable p iTable pnChange s = Some ((rc, k), s') /\
     wrote s p b e c s'
       (if rc =? SQLITE_OK then set_table v (tab_name iTable) (Table tb.(t_flags) []) else v)) /\
  (exists rc s', sqlite3BtreeDropTable p iTable s = Some ((rc, 0), s') /\
     wrote s p b e c s' (if rc =? SQLITE_OK then remove_table v (tab_name iTable) else v)).
Proof.
  intros Hi Hh Hcv Htb. split.
  - exact (clear_table_run s p b e c v iTable pnChange tb Hi Hh Hcv Htb).
  - exact (drop_table_run s p b e c v iTable tb Hi Hh Hcv Htb).
Qed.

End tables.

(** ** Concrete runs *)

Example meta_roundtrip_witness :
  exists rc s1 s2 v', sqlite3BtreeUpdateMeta 1 6 7 s_write = Some (rc, s1) /\
    (exists b, wrote s_write 1 b 1 (Writing empty_snapshot []) s1 v') /\
    sqlite3BtreeGetMeta 1 6 s1 = Some (if (rc =? SQLITE_OK) && (6 =? 6) then 7 else 0, s2).
Proof.
  destruct s_write_ok as (b & Hi & Hh & _ & _).
  destruct (meta_roundtrip s_write 1 b 1 empty_snapshot [] 6 7 6 0 Hi Hh) as (rc & s1 & s2 & v' & E1 & E2 & _ & E3);
    [reflexivity|done|done|done|reflexivity|].
  exists rc, s1, s2, v'. split; [exact E1|]. split; [by exists b|exact E3].
Defined.

Lemma roots_ok_empty : roots_ok empty_snapshot 0.
Proof. intros k _ [x Hx]. unfold empty_snapshot in Hx. cbn [s_tables] in Hx. by rewrite lookup_empty in Hx. Qed.

Example create_table_fresh_witness :
  exists rc r s' v', sqlite3BtreeCreateTable 1 BTREE_INTKEY s_write = Some ((rc, r), s') /\
    (rc = SQLITE_OK -> r = Some 2 /\ roots_ok v' 2 /\
       exists s2 rcu, sqlite3BtreeUpdateMeta 1 BTREE_LARGEST_ROOT_PAGE 2 s2 = Some (rcu, s')).
Proof.
  destruct s_write_ok as (b & Hi & Hh & _ & _).
  destruct (create_table_fresh s_write 1 b 1 empty_snapshot 0 BTREE_INTKEY Hi Hh) as (rc & r & s' & v' & E1 & _ & E3 & _);
    [reflexivity|reflexivity|done|exact roots_ok_empty|].
  exists rc, r, s', v'. split; [exact E1|]. intros Hz. destruct (E3 Hz) as (Hr & _ & Hok & s2 & rcu & _ & Hu & _).
  split; [exact Hr|]. split; [exact Hok|]. by exists s2, rcu.
Defined.

(** After the first table is created: the handle writes the view with the
    implicit table 1 and table 2. *)
Definition s_table : state := after (sqlite3BtreeCreateTable 1 BTREE_INTKEY) s_write.

Lemma s_table_ok : exists b v, inv s_table /\ handle s_table 1 b 1 (Writing v []) /\
  v.(s_tables) !! tab_name 2 = Some (Table MDB_INTEGERKEY []).
Proof.
  destruct s_write_ok as (b & Hi & Hh & _ & _).
  destruct (create_table_run s_write 1 b 1 empty_snapshot 0 BTREE_INTKEY Hi Hh) as (rc & s' & v' & Hrun & HW & _ & HY);
    [reflexivity|reflexivity|done|exact roots_ok_empty|].
  assert (s' = s_table) as -> by (unfold s_table, after; by rewrite Hrun).
  assert (rc = SQLITE_OK) as ->.
  { apply (f_equal (fmap (fun x => x.1.1))) in Hrun. vm_compute in Hrun. by injection Hrun. }
  exists b, v'. destruct HW as (I1 & H1' & _). split; [exact I1|]. split; [exact H1'|].
  destruct (HY eq_refl) as (s2 & rcu & _ & _ & ->). by destruct (_ =? _).
Qed.

Example clear_drop_table_witness :
  exists rc s', sqlite3BtreeDropTable 1 2 s_table = Some ((rc, 0), s') /\
    exists b v, wrote s_table 1 b 1 (Writing v []) s'
      (if rc =? SQLITE_OK then remove_table v (tab_name 2) else v).
Proof.
  destruct s_table_ok as (b & v & Hi & Hh & Ht).
  destruct (clear_drop_table s_table 1 b 1 _ v 2 false _ Hi Hh eq_refl Ht) as (_ & rc & s' & E1 & E2).
  exists rc, s'. split; [exact E1|]. exists b, v. exact E2.
Defined.

(** two error paths, in concrete runs.  sqlite3BtreeClearTable takes the
    number of changes from the database whose handle is the table's number:
    for the empty table 1 it reports the three entries of the unnamed
    database.  And dropping a table that does not exist reports that memory
    ran out, because errmap is applied to its own result. *)
Theorem table_error_paths :
  fst <$> (_ ← sqlite3BtreeCreateTable 1 BTREE_INTKEY; sqlite3BtreeClearTable 1 1 true) s_write
    = Some (SQLITE_OK, 3) /\
  fst <$> (_ ← sqlite3BtreeCreateTable 1 BTREE_INTKEY; sqlite3BtreeDropTable 1 99) s_write
    = Some (SQLITE_NOMEM, 0).
Proof. split; vm_compute; reflexivity. Qed.
