(* ===== verification/BtreeCursor.v ===== *)
(** * Cursor lists, cached rowids and reference counts of the LMDB back-end

    A handle's cursors form a list through their pNext fields.  Opening a
    cursor pushes it, closing one removes exactly that one; the cached rowid
    is set in the cursors of all handles of the environment; opening a file
    twice leaves a reference count that closing does not bring back to 0. *)

From stdpp Require Import strings.
From S2P Require Import Prelude Mem Serial Lmdb LmdbSim Btree BtreeTxn BtreeTable.

Section cursors.
Context `{LmdbLaws}.
Implicit Types (s : state) (w : lmdb) (t r : txn) (cs : gmap Z (BtCursor txn pos)).

(** ** Lists *)

Lemma cursor_list_split cs p a pre x post :
  cursor_list cs p a (pre ++ x :: post) ->
  exists c, cs !! x = Some c /\ c.(pBtree) = p /\ x <> 0 /\ cursor_list cs p c.(pNext) post.
Proof.
  revert a. induction pre as [|y pre IH]; intros a; cbn.
  - intros (-> & Hn & c & Hc & Hp & Hl). by exists c.
  - intros (_ & _ & c & _ & _ & Hl). by apply IH in Hl.
Qed.

(** The list ends at NULL, so its elements are determined by its head. *)
Lemma cursor_list_inj cs p a l l' : cursor_list cs p a l -> cursor_list cs p a l' -> l = l'.
Proof.
  revert a l'. induction l as [|x l IH]; intros a [|x' l']; cbn; [done| | |].
  - by intros -> (<- & ? & _).
  - by intros (-> & ? & _) ->.
  - intros (-> & Hn & c & Hc & _ & Hl) (<- & _ & c' & Hc' & _ & Hl'). f_equal.
    rewrite Hc in Hc'. injection Hc' as <-. by eapply IH.
Qed.

(** Redirecting the link to [x] past it. *)
Lemma cursor_list_unlink cs p a pre y x post cy c :
  NoDup (pre ++ y :: x :: post) ->
  cursor_list cs p a (pre ++ y :: x :: post) ->
  cs !! y = Some cy -> cs !! x = Some c ->
  cursor_list (<[y := set_pNext cy c.(pNext)]> cs) p a (pre ++ y :: post).
Proof.
  intros Hd Hl Hy Hx. revert a Hl Hd. induction pre as [|z pre IH]; intros a; cbn [app].
  - cbn. intros (-> & Hn & cy' & Hy' & Hp & _ & Hnx & c' & Hx' & Hpx & Hl) Hd.
    rewrite Hy in Hy'. injection Hy' as <-. rewrite Hx in Hx'. injection Hx' as <-.
    split; [done|]. split; [done|]. eexists. split; [apply lookup_insert_eq|]. split; [done|]. cbn.
    eapply cursor_list_links; [|exact Hl]. intros u Hu. rewrite lookup_insert_ne; [done|].
    intros <-. apply NoDup_cons in Hd as [Hd _]. apply Hd. by right.
  - cbn. intros (-> & Hn & cz & Hz & Hp & Hl) Hd. apply NoDup_cons in Hd as [Hz' Hd].
    split; [done|]. split; [done|]. exists cz.
    split; [|split; [done|by apply IH]].
    rewrite lookup_insert_ne; [done|]. intros ->. apply Hz', elem_of_app. right. left.
Qed.

(** The link found by the search. *)
Definition last_link (prev : cursor_link) (pre : list Z) : cursor_link :=
  from_option Next prev (last pre).

Lemma last_link_cons prev y pre : last_link prev (y :: pre) = last_link (Next y) pre.
Proof. unfold last_link. rewrite last_cons. by destruct (last pre). Qed.

Lemma find_link_run s p x : forall pre post prev a fuel,
  load_link prev s = Some (a, s) -> cursor_list s.(cursors) p a (pre ++ x :: post) ->
  x ∉ pre -> (length pre < fuel)%nat ->
  find_link fuel prev x s = Some (last_link prev pre, s).
Proof.
  induction pre as [|y pre IH]; intros post prev a [|fuel] Hload Hl Hx Hf; cbn in Hf; try lia;
    cbn [find_link]; rewrite (bind_some _ _ _ _ _ Hload); cbn in Hl.
  - destruct Hl as (-> & _). by rewrite Z.eqb_refl.
  - destruct Hl as (-> & Hn & c & Hc & Hp & Hl). apply not_elem_of_cons in Hx as [Hxy Hx].
    rewrite (proj2 (Z.eqb_neq y x)) by done. rewrite last_link_cons.
    eapply IH; [|exact Hl|done|lia]. cbn. by rewrite (bind_load_cursor _ _ _ _ Hc).
Qed.

(** ** Closing *)

Lemma filter_notin (l : list Z) x : x ∉ l -> filter (fun y => y <> x) l = l.
Proof.
  induction l as [|y l IH]; [done|]. intros [Hy Hl]%not_elem_of_cons.
  rewrite filter_cons_True by done. by rewrite IH.
Qed.

Lemma filter_out (pre post : list Z) x : NoDup (pre ++ x :: post) ->
  filter (fun y => y <> x) (pre ++ x :: post) = pre ++ post.
Proof.
  intros (Hd1 & Hd2 & Hd3)%NoDup_app. apply NoDup_cons in Hd3 as [Hx Hd3].
  rewrite filter_app, filter_cons_False by tauto. f_equal; apply filter_notin; [|done].
  intros Hin. apply (Hd2 x Hin). left.
Qed.

(** The state after the link to [x] is redirected. *)
Definition unlinked (s : state) (p : Z) (b : Btree txn) (pre : list Z) (next : Z) (s1 : state) : Prop :=
  match last pre with
  | None => s1 = set_btrees s (<[p := set_pCursor b next]> s.(btrees))
  | Some y => exists cy, s.(cursors) !! y = Some cy /\
      s1 = set_cursors s (<[y := set_pNext cy next]> s.(cursors))
  end.

Lemma store_link_run s p b pre x post next :
  s.(btrees) !! p = Some b -> cursor_list s.(cursors) p b.(pCursor) (pre ++ x :: post) ->
  exists s1, store_link (last_link (Head p) pre) next s = Some ((), s1) /\ unlinked s p b pre next s1.
Proof.
  intros Hb Hl. unfold last_link, unlinked. destruct (last pre) as [y|] eqn:E; cbn.
  - apply last_Some in E as [pre' ->]. rewrite <- app_assoc in Hl.
    destruct (cursor_list_split _ _ _ _ _ _ Hl) as (cy & Hy & _).
    eexists. split; [by rewrite (bind_load_cursor _ _ _ _ Hy)|]. by exists cy.
  - eexists. split; [by rewrite (bind_load_btree _ _ _ _ Hb)|done].
Qed.

(** Closing the cursor at any place of the list. *)
Lemma close_cursor_run s p b e c pre x post :
  inv s -> handle s p b e c -> cursor_list s.(cursors) p b.(pCursor) (pre ++ x :: post) ->
  NoDup (pre ++ x :: post) ->
  exists s' b', sqlite3BtreeCloseCursor x s = Some (SQLITE_OK, s') /\ inv s' /\
    handle s' p b' e c /\ s'.(mdb) = s.(mdb) /\
    cursor_list s'.(cursors) p b'.(pCursor) (pre ++ post) /\
    (forall q bq eq cq, q <> p -> handle s q bq eq cq -> handle s' q bq eq cq).
Proof.
  intros Hi Hh Hl Hd. pose proof Hh as (Hb & _ & Ha).
  destruct (cursor_list_split _ _ _ _ _ _ Hl) as (cx & Hx & Hpx & Hnx & Hpost).
  pose proof (handle_nonnull _ _ _ _ _ Hi Hh) as Hp0.
  pose proof (cursor_list_fuel _ _ _ _ Hl Hd) as Hfuel. rewrite length_app in Hfuel. cbn in Hfuel.
  assert (x ∉ pre) as Hxpre.
  { apply NoDup_app in Hd as (_ & Hd & _). intros Hin. apply (Hd x Hin). left. }
  assert (x ∉ post) as Hxpost.
  { apply NoDup_app in Hd as (_ & _ & Hd). by apply NoDup_cons in Hd as [? _]. }
  destruct (store_link_run s p b pre x post cx.(pNext) Hb Hl) as (s1 & Hstore & Hs1).
  assert (exists cx1, s1.(cursors) !! x = Some cx1 /\ links cx1 = links cx) as (cx1 & Hx1 & Hlx).
  { unfold unlinked in Hs1. destruct (last pre) as [y|] eqn:E.
    - destruct Hs1 as (cy & Hy & ->). cbn. exists cx. split; [|done].
      rewrite lookup_insert_ne; [done|]. intros ->. apply Hxpre.
      apply last_Some in E as [pre' ->]. apply elem_of_app. right. left.
    - subst s1. by exists cx. }
  set (cs2 := <[x := set_mc cx1 (mc_clear cx1.(mc))]> s1.(cursors)).
  assert (exists b', s1.(btrees) = <[p := b']> s.(btrees) /\ b'.(pBt) = b.(pBt) /\
    b'.(main_txn) = b.(main_txn) /\ b'.(curr_txn) = b.(curr_txn) /\ b'.(inTrans) = b.(inTrans) /\
    s1.(shares) = s.(shares) /\ s1.(mdb) = s.(mdb) /\
    s1.(sqlite3SharedCacheList) = s.(sqlite3SharedCacheList) /\
    cursor_list cs2 p b'.(pCursor) (pre ++ post) /\
    (forall u, u ∉ pre ++ x :: post -> cs2 !! u = s.(cursors) !! u))
    as (b' & HB & F1 & F2 & F3 & F4 & F5 & F6 & F7 & HL & HF).
  { assert (forall u, u ∈ pre ++ post -> links <$> cs2 !! u = links <$> s1.(cursors) !! u) as Hcs2.
    { intros u Hu. unfold cs2. rewrite lookup_insert_ne; [done|]. intros <-.
      by apply elem_of_app in Hu as [? | ?]. }
    assert (forall u, u ∉ pre ++ x :: post -> x <> u) as Hux.
    { intros u Hu <-. apply Hu, elem_of_app. right. left. }
    unfold unlinked in Hs1. destruct (last pre) as [y|] eqn:E.
    - destruct Hs1 as (cy & Hy & ->). apply last_Some in E as [pre' ->].
      exists b. repeat (split; [done || (cbn; by rewrite insert_id)|]). split.
      + eapply cursor_list_links; [exact Hcs2|]. cbn. rewrite <- app_assoc. cbn.
        rewrite <- !app_assoc in Hd, Hl. cbn [app] in Hd, Hl. by eapply cursor_list_unlink.
      + intros u Hu. unfold cs2. rewrite lookup_insert_ne by auto. cbn.
        rewrite lookup_insert_ne; [done|]. intros <-. apply Hu. rewrite <- app_assoc.
        apply elem_of_app. right. left.
    - subst s1. apply last_None in E as ->. exists (set_pCursor b cx.(pNext)).
      repeat (split; [done|]). split.
      + eapply cursor_list_links; [exact Hcs2|]. exact Hpost.
      + intros u Hu. unfold cs2. by rewrite lookup_insert_ne by auto. }
  destruct (inv_update s p b e c cs2 s.(mdb) b' c Hi Hh F1) as (HI & HH & HO).
  - exists (pre ++ post). split; [done|]. apply NoDup_app in Hd as (D1 & D2 & D3).
    apply NoDup_cons in D3 as [_ D3]. apply NoDup_app. split; [done|]. split; [|done].
    intros u Hu Hu'. apply (D2 u Hu). by right.
  - intros u cc Hu Hne _. rewrite HF; [by rewrite Hu|]. intros Hin.
    destruct (cursor_list_elem _ _ _ _ _ Hl Hin) as (c' & Hc' & Hp'). congruence.
  - done.
  - intros r' Hr'. left. by rewrite <- F2.
  - unfold agrees in *. by rewrite F2, F3, F4.
  - apply Hi.
  - eexists _, b'. split; [|split; [exact HI|split; [exact HH|split; [done|split; [exact HL|exact HO]]]]].
    unfold sqlite3BtreeCloseCursor. rewrite (bind_load_cursor _ _ _ _ Hx), Hpx.
    rewrite (proj2 (Z.eqb_neq p 0)) by done. rewrite bind_assoc, run_cursor_fuel.
    rewrite bind_assoc. erewrite bind_some.
    2: { eapply (find_link_run s p x pre post (Head p) b.(pCursor)); [|exact Hl|done|lia].
         cbn. by rewrite (bind_load_btree _ _ _ _ Hb). }
    rewrite (bind_some _ _ _ _ _ Hstore). unfold sqlite3BtreeClearCursor.
    rewrite bind_assoc, (bind_load_cursor _ _ _ _ Hx1).
    unfold store_cursor, mbind, M_bind, set_cursors. fold cs2. by rewrite HB, F5, F6, F7.
Qed.

(** ** Opening *)

Lemma open_cursor_run s p b e c v iTable wr ki x c0 l :
  inv s -> handle s p b e c -> conn_view c = Some v ->
  cursor_list s.(cursors) p b.(pCursor) l -> NoDup l ->
  s.(cursors) !! x = Some c0 -> c0.(pBtree) = 0 -> x <> 0 ->
  exists rc s', sqlite3BtreeCursor p iTable wr ki x s = Some (rc, s') /\ inv s' /\
    (forall q bq eq cq, q <> p -> handle s q bq eq cq -> handle s' q bq eq cq) /\
    if rc =? SQLITE_OK then
      handle s' p (set_pCursor b x) e c /\ cursor_list s'.(cursors) p x (x :: l)
    else handle s' p b e c /\ s'.(cursors) = s.(cursors).
Proof.
  intros Hi Hh Hcv Hl Hd Hx Hx0 Hxn. pose proof (handle_nonnull _ _ _ _ _ Hi Hh) as Hp0.
  destruct (handle_view _ _ _ _ _ _ Hh Hcv) as (t & Ht & Hv).
  destruct (table_handle_run s p b e c v t iTable Hh Hcv Ht Hv) as (rc & dbi & w1 & Hrun & HS & _).
  destruct (same_handles s w1 Hi HS) as [I1 HF]. pose proof (HF _ _ _ _ Hh) as H1'.
  unfold sqlite3BtreeCursor. rewrite (bind_some _ _ _ _ _ Hrun). pose proof Hh as (Hb & _ & _).
  assert (x ∉ l) as Hxl.
  { intros Hin. destruct (cursor_list_elem _ _ _ _ _ Hl Hin) as (c' & Hc' & Hp'). congruence. }
  destruct (Z.eqb_spec rc 0) as [->|Hne].
  2: { exists rc, (set_mdb s w1). split; [done|]. split; [done|]. split; [by auto|].
       by rewrite (proj2 (Z.eqb_neq rc SQLITE_OK) Hne). }
  cbn [Z.eqb]. rewrite bind_assoc. erewrite bind_load_btree by exact Hb. rewrite Ht.
  rewrite bind_assoc. erewrite bind_some by done. rewrite bind_assoc.
  erewrite bind_some by done. rewrite bind_assoc. erewrite bind_load_cursor by exact Hx. rewrite bind_assoc.
  set (nc := mkCursor _ _ b.(pCursor) p ki c0.(cachedRowid) c0.(index) (mdb_cursor_init w1 t dbi)).
  set (cs2 := <[x := nc]> s.(cursors)).
  assert (cursor_list cs2 p x (x :: l)) as HL.
  { split; [done|]. split; [done|]. exists nc. split; [apply lookup_insert_eq|]. split; [done|].
    eapply cursor_list_links; [|exact Hl]. intros y Hy. unfold cs2.
    rewrite lookup_insert_ne; [done|]. by intros <-. }
  destruct (inv_update (set_mdb s w1) p b e c cs2 w1 (set_pCursor b x) c I1 H1') as (HI & HH & HO); try done.
  - exists (x :: l). split; [done|]. by apply NoDup_cons.
  - intros y cc Hy _ Hne. cbn in Hy. unfold cs2. rewrite lookup_insert_ne; [by rewrite Hy|].
    intros <-. congruence.
  - intros r' Hr'. by left.
  - by destruct H1' as (_ & _ & Ha).
  - apply I1.
  - eexists SQLITE_OK, _. split; [reflexivity|]. split; [exact HI|].
    split; [intros q bq eq cq Hq Hqh; by apply HO, HF|]. split; [exact HH|exact HL].
Qed.

(** ** Cached rowids *)

(** The list of handles that starts at [a]. *)
Fixpoint btree_list (bs : gmap Z (Btree txn)) (a : Z) (L : list Z) : Prop :=
  match L with
  | [] => a = 0
  | q :: L => a = q /\ q <> 0 /\ exists b, bs !! q = Some b /\ btree_list bs b.(bt_pNext) L
  end.

Definition recached (dbi iRowid : Z) (c : BtCursor txn pos) : BtCursor txn pos :=
  if c.(mc).(mc_dbi) =? dbi then set_cached c iRowid else c.

Lemma recached_idem dbi i c : recached dbi i (recached dbi i c) = recached dbi i c.
Proof.
  unfold recached at 2 3. destruct (mc_dbi (mc c) =? dbi) eqn:E; unfold recached; cbn; by rewrite E.
Qed.

Lemma recached_links dbi i c : links (recached dbi i c) = links c.
Proof. unfold recached. by destruct (mc_dbi (mc c) =? dbi). Qed.

(** [cs'] is [cs] with the cursors in [P] recached. *)
Definition recaches (dbi i : Z) (P : Z -> Prop) cs cs' : Prop :=
  forall y, (P y -> cs' !! y = recached dbi i <$> cs !! y) /\
    (~ P y -> cs' !! y = cs !! y) /\
    (cs' !! y = cs !! y \/ cs' !! y = recached dbi i <$> cs !! y).

Lemma recached_fmap_idem dbi i (o : option (BtCursor txn pos)) :
  recached dbi i <$> (recached dbi i <$> o) = recached dbi i <$> o.
Proof. destruct o; [|done]. cbn. by rewrite recached_idem. Qed.

Lemma set_cached_cursors_run q dbi i : forall l a fuel s,
  cursor_list s.(cursors) q a l -> (length l < fuel)%nat ->
  exists cs, set_cached_cursors fuel a dbi i s = Some ((), set_cursors s cs) /\
    recaches dbi i (fun y => y ∈ l) s.(cursors) cs.
Proof.
  induction l as [|x l IH]; intros a [|fuel] s Hl Hf; cbn in Hf; try lia; cbn in Hl; cbn [set_cached_cursors].
  - subst a. exists s.(cursors). split; [by destruct s|]. intros y. split; [by intros ?%elem_of_nil|]. split; [done|by left].
  - destruct Hl as (-> & Hn & c & Hc & Hq & Hl). rewrite (proj2 (Z.eqb_neq x 0)) by done.
    rewrite (bind_load_cursor _ _ _ _ Hc).
    set (s1 := set_cursors s (<[x := recached dbi i c]> s.(cursors))).
    assert ((if mc_dbi (mc c) =? dbi then store_cursor x (set_cached c i) else mret ()) s = Some ((), s1)) as Hst.
    { unfold s1, recached. destruct (mc_dbi (mc c) =? dbi); [done|].
      rewrite insert_id by done. by destruct s. }
    rewrite (bind_some _ _ _ _ _ Hst).
    assert (forall y, links <$> s1.(cursors) !! y = links <$> s.(cursors) !! y) as HL.
    { intros y. cbn. destruct (decide (x = y)) as [<-|]; [|by rewrite lookup_insert_ne].
      rewrite lookup_insert_eq, Hc. cbn. by rewrite recached_links. }
    destruct (IH c.(pNext) fuel s1) as (cs & Hrun & Hcs);
      [by eapply cursor_list_links; [intros; apply HL|]|lia|].
    exists cs. split; [exact Hrun|]. intros y. destruct (Hcs y) as (H1' & H2' & H3').
    assert (s1.(cursors) !! y = if decide (x = y) then recached dbi i <$> s.(cursors) !! y else s.(cursors) !! y) as Hy.
    { cbn. case_decide; [subst y; by rewrite lookup_insert_eq, Hc|by rewrite lookup_insert_ne]. }
    split.
    + intros Hin. destruct (decide (y ∈ l)) as [Hyl|Hyl].
      * rewrite H1', Hy by done. case_decide; [|done]. apply recached_fmap_idem.
      * apply elem_of_cons in Hin as [-> | ?]; [|done]. by rewrite H2', Hy, decide_True by done.
    + split; [intros [Hne Hyl]%not_elem_of_cons; by rewrite H2', Hy, decide_False by done|].
      rewrite Hy in H3'. case_decide as Hxy; [|done].
      right. destruct H3' as [-> | ->]; [done|apply recached_fmap_idem].
Qed.

(** [y] is a cursor of one of the handles of [L]. *)
Definition cursor_in (s : state) (L : list Z) (y : Z) : Prop :=
  exists q b l, q ∈ L /\ s.(btrees) !! q = Some b /\ cursor_list s.(cursors) q b.(pCursor) l /\ y ∈ l.

Lemma set_cached_trees_run dbi i cfuel : forall L a fuel s,
  btree_list s.(btrees) a L ->
  (forall q b, q ∈ L -> s.(btrees) !! q = Some b ->
     exists l, cursor_list s.(cursors) q b.(pCursor) l /\ (length l < cfuel)%nat) ->
  (length L < fuel)%nat ->
  exists cs, set_cached_trees fuel cfuel a dbi i s = Some ((), set_cursors s cs) /\
    recaches dbi i (cursor_in s L) s.(cursors) cs.
Proof.
  induction L as [|q L IH]; intros a [|fuel] s Hl Hcl Hf; cbn in Hf; try lia; cbn in Hl; cbn [set_cached_trees].
  - subst a. exists s.(cursors). split; [by destruct s|]. intros y.
    split; [by intros (? & ? & ? & ?%elem_of_nil & _)|]. split; [done|by left].
  - destruct Hl as (-> & Hn & b & Hb & Hl). rewrite (proj2 (Z.eqb_neq q 0)) by done.
    rewrite (bind_load_btree _ _ _ _ Hb).
    destruct (Hcl q b ltac:(left) Hb) as (l & Hlq & Hlf).
    destruct (set_cached_cursors_run q dbi i l b.(pCursor) cfuel s Hlq Hlf) as (cs1 & Hrun1 & Hcs1).
    rewrite (bind_some _ _ _ _ _ Hrun1).
    assert (forall y, links <$> cs1 !! y = links <$> s.(cursors) !! y) as HL.
    { intros y. destruct (Hcs1 y) as (P1 & P2 & _). destruct (decide (y ∈ l)) as [Hy|Hy]; [|by rewrite P2].
      rewrite P1 by done. destruct (s.(cursors) !! y); [|done]. cbn. by rewrite recached_links. }
    assert (forall q' a' l', cursor_list cs1 q' a' l' <-> cursor_list s.(cursors) q' a' l') as HCL.
    { intros. split; apply cursor_list_links; intros y _; by rewrite HL. }
    destruct (IH b.(bt_pNext) fuel (set_cursors s cs1)) as (cs & Hrun & Hcs); [done| |lia|].
    { intros q' b' Hq' Hb'. destruct (Hcl q' b' ltac:(by right) Hb') as (l' & Hl' & Hf').
      exists l'. by rewrite HCL. }
    exists cs. split; [exact Hrun|]. intros y.
    destruct (Hcs y) as (Q1 & Q2 & Q3), (Hcs1 y) as (P1 & P2 & P3). cbn in Q1, Q2, Q3.
    assert (cursor_in s (q :: L) y <-> y ∈ l \/ cursor_in (set_cursors s cs1) L y) as Hin.
    { split.
      - intros (q' & b' & l' & [-> | Hq']%elem_of_cons & Hb' & Hl' & Hy).
        + rewrite Hb in Hb'. injection Hb' as <-. left. by rewrite (cursor_list_inj _ _ _ _ _ Hlq Hl').
        + right. exists q', b', l'. by rewrite HCL.
      - intros [Hy | (q' & b' & l' & Hq' & Hb' & Hl' & Hy)].
        + exists q, b, l. split; [left|done].
        + exists q', b', l'. rewrite HCL in Hl'. split; [by right|done]. }
    rewrite Hin. split; [|split].
    + intros [Hy | Hy].
      * rewrite (P1 Hy) in Q3. destruct Q3 as [-> | ->]; [done|apply recached_fmap_idem].
      * rewrite Q1 by done. destruct P3 as [-> | ->]; [done|apply recached_fmap_idem].
    + intros Hn'. rewrite Q2, P2; tauto.
    + destruct Q3 as [-> | ->], P3 as [-> | ->]; auto. right. apply recached_fmap_idem.
Qed.

Lemma btree_list_fuel bs a L : btree_list bs a L -> NoDup L -> (length L <= size bs)%nat.
Proof.
  intros Hl Hd. rewrite <- size_dom, <- (size_list_to_set (C := gset Z) L Hd).
  apply subseteq_size. intros x Hx%elem_of_list_to_set. revert a Hl.
  induction L as [|q L IH]; intros a; [by apply elem_of_nil in Hx|].
  intros (-> & Hn & b & Hb & Hl). apply NoDup_cons in Hd as [_ Hd].
  apply elem_of_cons in Hx as [-> | Hx]; [by apply elem_of_dom_2 in Hb|by eapply IH].
Qed.

(** ** Properties *)

(** C27: the cursors of a handle are a list that opening pushes and closing
    cuts.  sqlite3BtreeCursor returns, and on success its cursor is the new
    head, on failure nothing changes; sqlite3BtreeCloseCursor removes exactly
    the cursor it is given, wherever it is.  Both keep the invariant of the
    store and leave the other handles alone. *)
Theorem cursor_open_close s p b e c l :
  inv s -> handle s p b e c -> cursor_list s.(cursors) p b.(pCursor) l ->
  (forall v iTable wr ki x c0,
     conn_view c = Some v -> s.(cursors) !! x = Some c0 -> c0.(pBtree) = 0 -> x <> 0 ->
     exists rc s', sqlite3BtreeCursor p iTable wr ki x s = Some (rc, s') /\ inv s' /\
       (forall q bq eq cq, q <> p -> handle s q bq eq cq -> handle s' q bq eq cq) /\
       if rc =? SQLITE_OK then
         handle s' p (set_pCursor b x) e c /\ cursor_list s'.(cursors) p x (x :: l)
       else handle s' p b e c /\ s'.(cursors) = s.(cursors)) /\
  (forall x, x ∈ l ->
     exists s' b', sqlite3BtreeCloseCursor x s = Some (SQLITE_OK, s') /\ inv s' /\
       handle s' p b' e c /\ s'.(mdb) = s.(mdb) /\
       cursor_list s'.(cursors) p b'.(pCursor) (filter (fun y => y <> x) l) /\
       (forall q bq eq cq, q <> p -> handle s q bq eq cq -> handle s' q bq eq cq)).
Proof.
  intros Hi Hh Hl.
  assert (NoDup l) as Hd.
  { destruct Hh as (Hb & _). destruct (inv_cursors _ Hi _ _ Hb) as (l' & Hl' & Hd).
    by rewrite (cursor_list_inj _ _ _ _ _ Hl Hl'). }
  split.
  - intros. by eapply open_cursor_run.
  - intros x Hx. apply list_elem_of_split in Hx as (pre & post & ->).
    rewrite filter_out by done. by eapply close_cursor_run.
Qed.

(** Sqlite3BtreeSetCachedRowid sets the cached rowid of the cursors on the
    same table in every handle of the environment, and of no other cursor. *)
Theorem set_cached_rowid_exact s pCur c b sh L iRowid :
  inv s -> s.(cursors) !! pCur = Some c -> s.(btrees) !! c.(pBtree) = Some b ->
  s.(shares) !! b.(pBt) = Some sh -> btree_list s.(btrees) sh.(trees) L -> NoDup L ->
  exists cs, sqlite3BtreeSetCachedRowid pCur iRowid s = Some ((), set_cursors s cs) /\
    forall y d, s.(cursors) !! y = Some d ->
      (cursor_in s L y /\ d.(mc).(mc_dbi) = c.(mc).(mc_dbi) -> cs !! y = Some (set_cached d iRowid)) /\
      (~ (cursor_in s L y /\ d.(mc).(mc_dbi) = c.(mc).(mc_dbi)) -> cs !! y = Some d).
Proof.
  intros Hi Hc Hb Hsh Hl Hd. unfold sqlite3BtreeSetCachedRowid.
  rewrite (bind_load_cursor _ _ _ _ Hc), (bind_load_btree _ _ _ _ Hb).
  erewrite bind_some by (unfold load_shared; by rewrite Hsh). erewrite bind_some by done.
  rewrite run_cursor_fuel.
  destruct (set_cached_trees_run c.(mc).(mc_dbi) iRowid (S (size s.(cursors))) L sh.(trees)
    (S (size s.(btrees))) s Hl) as (cs & Hrun & Hcs).
  - intros q b' _ Hb'. destruct (inv_cursors _ Hi _ _ Hb') as (l & Hcl & Hnd). exists l.
    split; [done|]. pose proof (cursor_list_fuel _ _ _ _ Hcl Hnd). lia.
  - pose proof (btree_list_fuel _ _ _ Hl Hd). lia.
  - exists cs. split; [exact Hrun|]. intros y d Hy. destruct (Hcs y) as (Q1 & Q2 & Q3). split.
    + intros [Hin Hdbi]. rewrite Q1, Hy by done. cbn. unfold recached. by rewrite Hdbi, Z.eqb_refl.
    + intros Hn. destruct (Z.eqb_spec (mc_dbi (mc d)) (mc_dbi (mc c))) as [E|E].
      * rewrite Q2; [done|]. tauto.
      * rewrite Hy in Q3. cbn in Q3. unfold recached in Q3.
        rewrite (proj2 (Z.eqb_neq _ _) E) in Q3. by destruct Q3.
Qed.

End cursors.

(** ** Concrete runs *)

(** Three zeroed cursors, and a handle that writes with table 2 open. *)
Definition cursor_memory : gmap Z (BtCursor sim_txn nat) :=
  let z := mkCursor _ _ 0 0 None 0 (0, []) mc_zero in {[100 := z; 200 := z; 300 := z]}.

Definition open_three : M Z :=
  _ ← sqlite3BtreeCursor 1 2 1 None 100;
  _ ← sqlite3BtreeCursor 1 2 1 None 200;
  sqlite3BtreeCursor 1 1 1 None 300.

Definition s_cursors0 : state := set_cursors s_table cursor_memory.
Definition s_cursors : state := after open_three s_cursors0.

Lemma set_cursors_inv `{LmdbLaws} (s : state) cs : inv s ->
  (forall p b, s.(btrees) !! p = Some b -> b.(pCursor) = 0) -> inv (set_cursors s cs).
Proof.
  intros Hi H0'. constructor; try apply Hi.
  intros p b Hb. exists []. split; [by apply (H0' p b Hb)|constructor].
Qed.

Lemma s_table_idle_cursors p b : s_table.(btrees) !! p = Some b -> b.(pCursor) = 0.
Proof.
  assert (map_Forall (fun _ b => pCursor b = 0) s_table.(btrees)) as HF
    by (apply (bool_decide_unpack _); vm_compute; exact I).
  intros Hb. exact (HF p b Hb).
Qed.

Lemma s_cursors0_ok : exists b v, inv s_cursors0 /\ handle s_cursors0 1 b 1 (Writing v []) /\
  b.(pCursor) = 0.
Proof.
  destruct s_table_ok as (b & v & Hi & Hh & _). exists b, v.
  split; [apply (set_cursors_inv s_table); [done|apply s_table_idle_cursors]|].
  split; [exact Hh|]. eapply s_table_idle_cursors, Hh.
Qed.

Example cursor_open_close_witness :
  exists b v rc s', handle s_cursors0 1 b 1 (Writing v []) /\
    sqlite3BtreeCursor 1 2 1 None 100 s_cursors0 = Some (rc, s') /\ inv s' /\
    (rc = SQLITE_OK -> cursor_list s'.(cursors) 1 100 [100]).
Proof.
  destruct s_cursors0_ok as (b & v & Hi & Hh & Hp). exists b, v.
  destruct (cursor_open_close s_cursors0 1 b 1 _ [] Hi Hh Hp) as [Hopen _].
  destruct (Hopen v 2 1 None 100 _ eq_refl eq_refl eq_refl ltac:(done)) as (rc & s' & E1 & E2 & _ & E3).
  exists rc, s'. split; [exact Hh|]. split; [exact E1|]. split; [exact E2|].
  intros ->. apply E3.
Defined.

Definition s_cursor1 : state := after (sqlite3BtreeCursor 1 2 1 None 100) s_cursors0.

Lemma s_cursor1_inv : inv s_cursor1.
Proof.
  destruct s_cursors0_ok as (b & v & Hi & Hh & Hp).
  destruct (open_cursor_run s_cursors0 1 b 1 _ v 2 1 None 100 _ [] Hi Hh eq_refl Hp ltac:(constructor)
    eq_refl eq_refl ltac:(done)) as (rc & s' & Hrun & Hi' & _).
  by assert (s' = s_cursor1) as <- by (unfold s_cursor1, after; by rewrite Hrun).
Qed.

Example set_cached_rowid_exact_witness :
  exists cs c, sqlite3BtreeSetCachedRowid 100 7 s_cursor1 = Some ((), set_cursors s_cursor1 cs) /\
    s_cursor1.(cursors) !! 100 = Some c /\
    (cursor_in s_cursor1 [1; 2] 100 -> cs !! 100 = Some (set_cached c 7)).
Proof.
  assert (exists c b sh, s_cursor1.(cursors) !! 100 = Some c /\ s_cursor1.(btrees) !! c.(pBtree) = Some b /\
    s_cursor1.(shares) !! b.(pBt) = Some sh /\ btree_list s_cursor1.(btrees) sh.(trees) [1; 2])
    as (c & b & sh & Hc & Hb & Hsh & HL).
  { eexists _, _, _. split; [vm_compute; reflexivity|]. split; [vm_compute; reflexivity|].
    split; [vm_compute; reflexivity|]. split; [done|]. split; [done|]. eexists.
    split; [vm_compute; reflexivity|]. split; [done|]. split; [done|]. eexists.
    split; [vm_compute; reflexivity|done]. }
  destruct (set_cached_rowid_exact s_cursor1 100 c b sh [1; 2] 7 s_cursor1_inv Hc Hb Hsh HL) as (cs & Hrun & Hcs).
  { apply (bool_decide_unpack _). vm_compute. exact I. }
  exists cs, c. split; [exact Hrun|]. split; [exact Hc|].
  intros Hin. apply (Hcs 100 c Hc). by split.
Defined.

Definition s_empty : state := mkState ∅ ∅ ∅ 0 sim0.
Definition ow (p sh : Z) : open_world := mkOpen p sh true "/tmp/a.db" "-lock".

(** The shared objects left, with their reference counts, the head of the
    list of shared objects, and the number of open environments. *)
Definition left_open (s : state) : list (Z * Z) * Z * nat :=
  (prod_map id nRef <$> map_to_list s.(shares), s.(sqlite3SharedCacheList), size s.(mdb).(sim_envs)).

(** a file opened once and closed is closed: the environment and the
    shared object are gone.  A file opened by two handles stays open after
    both are closed, since the second sqlite3BtreeOpen counts its reference
    twice. *)
Theorem open_close_references :
  left_open (after (_ ← sqlite3BtreeOpen (ow 1 10) (Some "a.db") 0 0; sqlite3BtreeClose 1) s_empty)
    = ([], 0, O) /\
  left_open (after (_ ← sqlite3BtreeOpen (ow 1 10) (Some "a.db") 0 0;
                    _ ← sqlite3BtreeOpen (ow 2 20) (Some "a.db") 0 0;
                    _ ← sqlite3BtreeClose 1; sqlite3BtreeClose 2) s_empty)
    = ([(10, 1)], 10, 1%nat).
Proof. split; vm_compute; reflexivity. Qed.
