(* ===== verification/BtreeData.v ===== *)
(** * Moving cursors and reading and writing entries (btree.c)

    The functions of the LMDB back-end that position a cursor and access the
    entry under it.  LMDB's access to entries is the class [LmdbEntry]: the
    node under a cursor, writing, deleting, and the hash used for long keys. *)

From stdpp Require Import strings.
From S2P Require Import Prelude Varint Mem Serial IndexKey Lmdb Btree.

Definition MDB_CURRENT_FLAG : Z := 0x40.
Definition ROWIDMAXSIZE : Z := 10.

(** The node under a cursor: its key, its data as mdb_node_read gives them,
    the current duplicate if the node holds several (F_DUPDATA), and whether
    the data are on overflow pages (F_BIGDATA) that are dirty. *)
Record MDB_node := mkNode {
  n_key : bytes;
  n_data : bytes;
  n_dup : option bytes;
  n_big : bool;
  n_dirty : bool }.

Class LmdbEntry `{Lmdb} := {
  node : lmdb -> MDB_cursor txn pos -> option MDB_node;
  past_end : lmdb -> MDB_cursor txn pos -> bool;
  mdb_cursor_put : lmdb -> MDB_cursor txn pos -> option bytes -> option UnpackedRecord -> bytes -> Z
    -> Z * lmdb * MDB_cursor txn pos;
  mdb_cursor_del : lmdb -> MDB_cursor txn pos -> Z -> Z * lmdb * MDB_cursor txn pos;
  mdb_cursor_touch : lmdb -> MDB_cursor txn pos -> Z * lmdb * MDB_cursor txn pos;
  (** writing into the data of the node in place *)
  poke : lmdb -> MDB_cursor txn pos -> Z -> bytes -> lmdb;
  mdb_hash_val : bytes -> bytes }.

Section data.
Context `{LmdbEntry}.
Implicit Types (pCur : Z).

Abbreviation cursor := (BtCursor txn pos).

(** An i64 in memory, little-endian. *)
Definition le64 (v : Z) : bytes :=
  le32 (u64 v mod 4294967296) ++ le32 (u64 v / 4294967296).

Definition of_le64 (d : bytes) : option Z :=
  lo ← of_le32 d; hi ← of_le32 (drop 4 d); Some (i64 (lo + 4294967296 * hi)).

(** [mdb_cursor_get], leaving the cursor where LMDB puts it. *)
Definition cursor_get pCur (op : cursor_op) (key : probe) (data : option bytes) : M Z :=
  c ← load_cursor pCur;
  '(rc, _, m) ← ask (fun w => mdb_cursor_get w c.(mc) op key data);
  _ ← store_cursor pCur (set_mc c m);
  mret rc.

Definition cursor_call {A} pCur (f : lmdb -> MDB_cursor txn pos -> A * lmdb * MDB_cursor txn pos) : M A :=
  c ← load_cursor pCur;
  '(x, m) ← call (fun w => let '(x, w, m) := f w c.(mc) in ((x, m), w));
  _ ← store_cursor pCur (set_mc c m);
  mret x.

(** [NODEPTR(mc->mc_pg[mc->mc_top], mc->mc_ki[mc->mc_top])]. *)
Definition cursor_node (c : cursor) : M MDB_node := n ← ask (fun w => node w c.(mc)); deref n.

Definition is_intkey (db : MDB_db) : bool := negb (Z.land db.(md_flags) MDB_INTEGERKEY =? 0).

(** ** Moving *)

(** The result code and [*pRes]. *)
Definition sqlite3BtreeFirst pCur : M (Z * Z) :=
  c ← load_cursor pCur;
  db ← cursor_db c;
  if db.(md_root_invalid) then mret (SQLITE_OK, 1)
  else _ ← cursor_get pCur CUR_FIRST NoKey None; mret (SQLITE_OK, 0).

Definition sqlite3BtreeLast pCur : M (Z * Z) :=
  c ← load_cursor pCur;
  db ← cursor_db c;
  if db.(md_root_invalid) then mret (SQLITE_OK, 1)
  else _ ← cursor_get pCur CUR_LAST NoKey None; mret (SQLITE_OK, 0).

Definition sqlite3BtreeNext pCur : M (Z * Z) :=
  c ← load_cursor pCur;
  match c.(mc).(mc_txn) with
  | None => mret (SQLITE_OK, 1)
  | Some _ =>
      db ← cursor_db c;
      if db.(md_root_invalid) then mret (SQLITE_OK, 1)
      else
        rc ← cursor_get pCur CUR_NEXT NoKey None;
        mret (SQLITE_OK, if rc =? MDB_NOTFOUND then 1 else 0)
  end.

Definition sqlite3BtreePrevious pCur : M (Z * Z) :=
  c ← load_cursor pCur;
  db ← cursor_db c;
  if db.(md_root_invalid) then mret (SQLITE_OK, 1)
  else
    rc ← cursor_get pCur CUR_PREV NoKey None;
    mret (SQLITE_OK, if rc =? MDB_NOTFOUND then 1 else 0).

(** ** Reading *)

(** [amt] bytes at [offset]; the bound is checked in 32 bits, the copy reads
    what the bound let pass. *)
Definition sqlite3BtreeData pCur (offset amt : Z) : M (Z * bytes) :=
  c ← load_cursor pCur;
  n ← cursor_node c;
  if u32 (offset + amt) <=? Z.of_nat (length n.(n_data))
  then bs ← deref (read n.(n_data) offset amt); mret (SQLITE_OK, bs)
  else mret (SQLITE_CORRUPT, []).

Definition sqlite3BtreeKey pCur (offset amt : Z) : M (Z * bytes) :=
  c ← load_cursor pCur;
  if c.(mc).(mc_initialized) then
    n ← cursor_node c;
    if u32 (offset + amt) <=? Z.of_nat (length n.(n_key))
    then bs ← deref (read n.(n_key) offset amt); mret (SQLITE_OK, bs)
    else mret (SQLITE_CORRUPT, [])
  else mret (SQLITE_ERROR, []).

(** [*pSize] afterwards; it is [old] if the cursor is on no entry. *)
Definition sqlite3BtreeDataSize pCur (old : Z) : M (Z * Z) :=
  c ← load_cursor pCur;
  if c.(mc).(mc_initialized) then
    n ← cursor_node c; mret (SQLITE_OK, u32 (Z.of_nat (length n.(n_data))))
  else mret (SQLITE_OK, old).

Definition sqlite3BtreeKeySize pCur (old : Z) : M (Z * Z) :=
  c ← load_cursor pCur;
  if c.(mc).(mc_initialized) then
    n ← cursor_node c;
    db ← cursor_db c;
    if is_intkey db then k ← deref (of_le64 n.(n_key)); mret (SQLITE_OK, k)
    else mret (SQLITE_OK, Z.of_nat (length n.(n_key)) + Z.of_nat (length n.(n_data)))
  else mret (SQLITE_OK, old).

(** The bytes returned, at least [*pAmt] of them, and [*pAmt].  [oom]: the
    allocation joinIndexKey may need fails. *)
Definition sqlite3BtreeKeyFetch (oom : bool) pCur : M (option (bytes * Z)) :=
  c ← load_cursor pCur;
  if c.(mc).(mc_initialized) then
    n ← cursor_node c;
    db ← cursor_db c;
    if is_intkey db then mret (Some (n.(n_key), Z.of_nat (length n.(n_key))))
    else
      let data := default n.(n_data) n.(n_dup) in
      let amt := Z.of_nat (length n.(n_key)) + Z.of_nat (length data) in
      '(rc, idx) ← deref (joinIndexKey oom c.(index) n.(n_key) data amt);
      _ ← store_cursor pCur (set_index c idx);
      mret (if rc =? SQLITE_OK then Some (idx.2, amt) else None)
  else mret None.

Definition sqlite3BtreeDataFetch pCur : M (option bytes) :=
  c ← load_cursor pCur;
  db ← cursor_db c;
  if negb (is_intkey db) then mret None
  else if c.(mc).(mc_initialized) then n ← cursor_node c; mret (Some n.(n_data))
  else mret None.

(** ** Writing *)

Definition sqlite3BtreeDelete pCur : M Z :=
  rc ← cursor_call pCur (fun w m => mdb_cursor_del w m 0); mret (errmap rc).

(** [mdb_cursor_put] reads [size] bytes of the block at [v]. *)
Definition block (v : bytes) (size : Z) : M bytes := deref (read v 0 size).

(** [memset((char * )data.mv_data+nData, 0, nZero)] on the entry just written. *)
Definition zero_tail pCur (nData nZero : Z) : M () :=
  c ← load_cursor pCur;
  n ← cursor_node c;
  _ ← deref (write n.(n_data) nData (replicate (Z.to_nat nZero) 0));
  run (fun w => poke w c.(mc) nData (replicate (Z.to_nat nZero) 0)).

(** An entry of an INTKEY table. *)
Definition insert_rowid pCur (nKey : Z) (pData : bytes) (nData nZero : Z) : M Z :=
  data ← block pData (nData + nZero);
  rc ← cursor_call pCur (fun w m => mdb_cursor_put w m (Some (le64 nKey)) None data 0);
  _ ← (if negb (nZero =? 0) && (rc =? 0) then zero_tail pCur nData nZero else mret ());
  mret (errmap rc).

(** [pKey] and [pData] are the blocks of memory the pointers lead to;
    [heap] and [oom] describe the space for the unpacked record. *)
Definition sqlite3BtreeInsert (szRec szMem addr : Z) (oom : bool) (file_format : Z) pCur
    (pKey : option bytes) (nKey : Z) (pData : bytes) (nData nZero : Z) : M Z :=
  c ← load_cursor pCur;
  db ← cursor_db c;
  match pKey with
  | Some aKey =>
      if is_intkey db then insert_rowid pCur nKey pData nData nZero
      else
        ki ← deref c.(pKeyInfo);
        match sqlite3VdbeAllocUnpackedRecord szRec szMem addr oom ki 150 with
        | None => mret SQLITE_NOMEM
        | Some (pFree, p) =>
            '(key, data, p) ← deref (index_key mdb_hash_val file_format ki p aKey nKey);
            rc ← cursor_call pCur (fun w m => mdb_cursor_put w m (Some key) (Some p) data 0);
            _ ← (if negb pFree && negb (nZero =? 0) && (rc =? 0)
                 then zero_tail pCur nData nZero else mret ());
            mret (errmap rc)
        end
  | None => insert_rowid pCur nKey pData nData nZero
  end.

Definition sqlite3BtreePutData (oom : bool) pCur (offset amt : Z) (z : bytes) : M Z :=
  c ← load_cursor pCur;
  if negb c.(mc).(mc_initialized) then mret SQLITE_ABORT
  else
    rc ← cursor_call pCur (fun w m => mdb_cursor_touch w m);
    if negb (rc =? 0) then mret (errmap rc)
    else
      c ← load_cursor pCur;
      n ← cursor_node c;
      if Z.of_nat (length n.(n_data)) <? u32 (offset + amt) then mret SQLITE_CORRUPT
      else
        new ← deref (write n.(n_data) offset (take (Z.to_nat amt) z));
        if n.(n_big) && negb n.(n_dirty) then
          if (oom : bool) then mret SQLITE_NOMEM
          else
            rc ← cursor_call pCur (fun w m => mdb_cursor_put w m None None new MDB_CURRENT_FLAG);
            mret (if negb (rc =? 0) then errmap rc else SQLITE_OK)
        else
          _ ← run (fun w => poke w c.(mc) offset (take (Z.to_nat amt) z));
          mret SQLITE_OK.

(** ** Searching *)

Definition rd_cell (ms : list Mem) (i : Z) : option Mem :=
  if decide (0 <= i) then ms !! Z.to_nat i else None.


(** The rowid as the back-end stores it behind an index key. *)
Definition rowid_data (file_format : Z) (m : Mem) : bytes :=
  let serial_type := u8 (sqlite3VdbeSerialType m file_format) in
  take (Z.to_nat (sqlite3VdbeSerialTypeLen serial_type + 1))
    (putVarint32 serial_type ++ sqlite3VdbeSerialPut (ROWIDMAXSIZE - 1) m file_format).

(** The search for an unpacked key: the exact key and rowid first, then the
    first entry not below the key. *)
Definition search_record (file_format : Z) pCur (ki_nField : Z) (pun : UnpackedRecord) : M Z :=
  ret ← (if ki_nField <? pun.(up_nField) then
           m ← deref (rd_cell pun.(aMem) (pun.(up_nField) - 1));
           cursor_get pCur CUR_GET_BOTH_RANGE (ByRecord pun) (Some (rowid_data file_format m))
         else mret MDB_NOTFOUND);
  if ret =? MDB_NOTFOUND then cursor_get pCur CUR_SET_RANGE (ByRecord pun) None else mret ret.

(** The result code, [*pRes], and the unpacked key, whose cells and flags the
    search changes. *)
Definition sqlite3BtreeMovetoUnpacked (oom : bool) (file_format : Z) pCur
    (pUnKey : option UnpackedRecord) (intKey : Z) : M (Z * Z * option UnpackedRecord) :=
  c ← load_cursor pCur;
  db ← cursor_db c;
  if db.(md_entries) =? 0 then
    _ ← store_cursor pCur (set_mc c (mc_clear c.(mc)));
    mret (errmap 0, -1, pUnKey)
  else
    '(ret, pUnKey) ←
      (match pUnKey with
       | Some pun =>
           if is_intkey db then
             ret ← cursor_get pCur CUR_SET (ByBytes (le64 intKey)) None; mret (ret, Some pun)
           else
             '(cells, _) ← deref (squashIndexKey mdb_hash_val file_format (map (fun m => (m, Own)) pun.(aMem)) None);
             let pun := mkUnpacked pun.(Serial.pKeyInfo) pun.(up_nField) pun.(up_flags) pun.(rowid) (map fst cells) in
             ki ← deref c.(pKeyInfo);
             ret ← search_record file_format pCur ki.(ki_nField) pun;
             mret (ret, Some pun)
       | None =>
           ret ← cursor_get pCur CUR_SET (ByBytes (le64 intKey)) None; mret (ret, None)
       end);
    '(res, pUnKey) ←
      (if negb (ret =? 0) then
         c ← load_cursor pCur;
         e ← ask (fun w => past_end w c.(mc));
         mret (if (e : bool) then -1 else 1, pUnKey)
       else if is_intkey db then mret (0, pUnKey)
       else
         pkey ← sqlite3BtreeKeyFetch oom pCur;
         match pkey, pUnKey with
         | Some (k, len), Some pun =>
             '(res, (fl, rid)) ← deref (sqlite3VdbeRecordCompare oom len k pun);
             mret (res, Some (mkUnpacked pun.(Serial.pKeyInfo) pun.(up_nField) fl rid pun.(aMem)))
         | Some _, None => undefined
         | None, _ => mret (-1, pUnKey)
         end);
    mret (errmap (if ret =? MDB_NOTFOUND then 0 else ret), res, pUnKey).

End data.
