(* ===== verification/BtreeEntry.v ===== *)
(** * Entries of INTKEY tables

    Laws of LMDB for tables with MDB_INTEGERKEY (keys are unsigned integers in
    native byte order and sorted as such), an executable instance, and what
    the back-end's cursor functions do on SQL tables: a scan visits every row,
    an inserted row is found, and two runs where the result is wrong. *)

From Stdlib Require Import Sorted.
From stdpp Require Import strings.
From S2P Require Import Prelude Mem Serial IndexKey Lmdb LmdbSim Btree BtreeTxn BtreeTable BtreeCursor BtreeData.

(** ** Rows in key order *)

(** The number a key stands for. *)
Definition key_num (k : bytes) : Z := foldr (fun b a => b + 256 * a) 0 k.

Fixpoint row_insert (k d : bytes) (rows : list (bytes * bytes)) : list (bytes * bytes) :=
  match rows with
  | [] => [(k, d)]
  | (k', d') :: rows =>
      if bool_decide (k = k') then (k, d) :: rows
      else if key_num k <? key_num k' then (k, d) :: (k', d') :: rows
      else (k', d') :: row_insert k d rows
  end.

Lemma row_insert_in k d rows : exists i, row_insert k d rows !! i = Some (k, d).
Proof.
  induction rows as [|[k' d'] rows [i IH]]; cbn; [by exists O|].
  case_bool_decide; [by exists O|]. destruct (key_num k <? key_num k'); [by exists O|]. by exists (S i).
Qed.

Lemma row_insert_nonempty k d rows : row_insert k d rows <> [].
Proof. destruct (row_insert_in k d rows) as [i Hi]. by intros E; rewrite E in Hi. Qed.

Lemma row_insert_find k d rows : row_insert k d rows !! find_row k (row_insert k d rows) = Some (k, d).
Proof.
  induction rows as [|[k' d'] rows IH]; cbn [row_insert].
  { cbn. by rewrite bool_decide_eq_true_2. }
  case_bool_decide as Hk; [cbn; by rewrite bool_decide_eq_true_2|].
  destruct (key_num k <? key_num k'); cbn [find_row].
  - by rewrite bool_decide_eq_true_2.
  - by rewrite bool_decide_eq_false_2.
Qed.

(** ** Laws *)

Section laws.
Context `{LmdbEntry} `{!LmdbAbs}.

Definition on_table (w : lmdb) (m : MDB_cursor txn pos) (n : string) (tb : table) : Prop :=
  exists t v, m.(mc_txn) = Some t /\ view w t v /\ v.(s_tables) !! n = Some tb /\
    dbi_name w t m.(mc_dbi) = Some (Some n).

Definition intkey_table (tb : table) : Prop := Z.land tb.(t_flags) MDB_INTEGERKEY <> 0.

Definition same_target (m m' : MDB_cursor txn pos) : Prop :=
  m'.(mc_txn) = m.(mc_txn) /\ m'.(mc_dbi) = m.(mc_dbi).

Class LmdbEntryLaws := {
  (** the cursor is on the row with this index *)
  cur_at : lmdb -> MDB_cursor txn pos -> nat -> Prop;
  first_law w m n tb kd : on_table w m n tb -> tb.(t_rows) !! O = Some kd ->
    exists m', mdb_cursor_get w m CUR_FIRST NoKey None = (0, kd, m') /\ same_target m m' /\
      m'.(mc_initialized) = true /\ cur_at w m' O;
  next_law w m n tb i : on_table w m n tb -> cur_at w m i -> m.(mc_initialized) = true ->
    match tb.(t_rows) !! S i with
    | Some kd => exists m', mdb_cursor_get w m CUR_NEXT NoKey None = (0, kd, m') /\
        same_target m m' /\ m'.(mc_initialized) = true /\ cur_at w m' (S i)
    | None => (mdb_cursor_get w m CUR_NEXT NoKey None).1.1 = MDB_NOTFOUND
    end;
  set_law w m n tb i k d : on_table w m n tb -> intkey_table tb -> tb.(t_rows) !! i = Some (k, d) ->
    exists m' j d', mdb_cursor_get w m CUR_SET (ByBytes k) None = (0, (k, d'), m') /\
      tb.(t_rows) !! j = Some (k, d') /\ same_target m m' /\ m'.(mc_initialized) = true /\ cur_at w m' j;
  node_law w m n tb i k d : on_table w m n tb -> intkey_table tb -> cur_at w m i ->
    tb.(t_rows) !! i = Some (k, d) ->
    exists nd, node w m = Some nd /\ nd.(n_key) = k /\ nd.(n_data) = d;
  insert_law w m n tb t v k d rc w' m' :
    on_table w m n tb -> intkey_table tb -> m.(mc_txn) = Some t -> view w t v ->
    mdb_cursor_put w m (Some k) None d 0 = (rc, w', m') ->
    same_target m m' /\
    if rc =? 0 then
      writable w t /\ dbi_name w' t m.(mc_dbi) = Some (Some n) /\
      upd w w' t (set_table v n (Table tb.(t_flags) (row_insert k d tb.(t_rows)))) /\
      m'.(mc_initialized) = true /\
      exists i nd, row_insert k d tb.(t_rows) !! i = Some (k, d) /\ cur_at w' m' i /\
        node w' m' = Some nd /\ nd.(n_dirty) = true
    else same w w';
  (** writing into the data of an entry that this transaction has written *)
  poke_law w m n tb t v i k d nd off bs d' :
    on_table w m n tb -> intkey_table tb -> m.(mc_txn) = Some t -> view w t v -> v.(s_tables) !! n = Some tb -> writable w t ->
    cur_at w m i -> tb.(t_rows) !! i = Some (k, d) -> node w m = Some nd -> nd.(n_dirty) = true ->
    write d off bs = Some d' ->
    dbi_name (poke w m off bs) t m.(mc_dbi) = Some (Some n) /\
    upd w (poke w m off bs) t (set_table v n (Table tb.(t_flags) (alter (fun kd => (kd.1, d')) i tb.(t_rows)))) }.
End laws.

(** ** The executable LMDB obeys them *)

Definition sim_on (w : sim) (m : sim_cursor) : option (sim_txn * snapshot * string * table) :=
  t ← m.(mc_txn); '(_, v) ← sim_view w t;
  nm ← sim_name w t m.(mc_dbi); n ← nm; tb ← v.(s_tables) !! n; Some (t, v, n, tb).

(** Replace the rows of the cursor's table, in a write transaction. *)
Definition sim_write (w : sim) (m : sim_cursor) (f : list (bytes * bytes) -> list (bytes * bytes)) : Z * sim :=
  match sim_on w m with
  | Some (t, v, n, tb) =>
      match sim_view w t with
      | Some (true, _) => (0, sim_set w t (set_table v n (Table tb.(t_flags) (f tb.(t_rows)))))
      | _ => (13, w)
      end
  | None => (MDB_BAD_TXN, w)
  end.

Definition sim_insert (w : sim) (m : sim_cursor) (key : option bytes) (p : option UnpackedRecord)
    (d : bytes) (fl : Z) : Z * sim * sim_cursor :=
  match key with
  | Some k =>
      let '(rc, w') := sim_write w m (row_insert k d) in
      (rc, w', mkMc m.(mc_txn) m.(mc_dbi) true false (find_row k (sim_rows w' m)))
  | None =>
      let '(rc, w') := sim_write w m (alter (fun kd => (kd.1, d)) m.(mc_pos)) in (rc, w', m)
  end.

#[export] Instance sim_entry : LmdbEntry (H := sim_lmdb) := {|
  node w m := kd ← sim_rows w m !! m.(mc_pos); Some (mkNode kd.1 kd.2 None false true);
  past_end w m := bool_decide (length (sim_rows w m) <= m.(mc_pos))%nat;
  mdb_cursor_put := sim_insert;
  mdb_cursor_del w m _ :=
    let '(rc, w') := sim_write w m (fun rows => take m.(mc_pos) rows ++ drop (S m.(mc_pos)) rows) in
    (rc, w', m);
  mdb_cursor_touch w m := (0, w, m);
  poke w m off bs :=
    (sim_write w m (alter (fun kd => (kd.1, default kd.2 (write kd.2 off bs))) m.(mc_pos))).2;
  mdb_hash_val bs := take 8 (bs ++ replicate 8 0) |}.

Lemma sim_on_table w m n tb :
  on_table (H := sim_lmdb) w m n tb ->
  exists t v, sim_on w m = Some (t, v, n, tb) /\ m.(mc_txn) = Some t /\ sim_rows w m = tb.(t_rows) /\
    exists b, sim_view w t = Some (b, v).
Proof.
  intros (t & v & Ht & Hv & Htb & Hn). exists t, v.
  destruct (sim_view_inv _ _ _ Hv) as (k & d & e & Htk & Hcase).
  assert (exists b, sim_view w t = Some (b, v)) as [b Hb].
  { destruct Hcase as [(_ & _ & Hs) | (vs & _ & _ & Hs)]; by eexists. }
  change (sim_name w t (@mc_dbi sim_txn nat m) = Some (Some n)) in Hn.
  change (@mc_txn sim_txn nat m = Some t) in Ht.
  unfold sim_on, sim_rows. rewrite Ht. cbn [mbind option_bind]. rewrite Hb. cbn [mbind option_bind].
  rewrite Hn. cbn [mbind option_bind]. rewrite Htb. cbn [mbind option_bind]. repeat (split; [done|]). by exists b.
Qed.

Lemma find_row_lookup k rows i d : rows !! i = Some (k, d) ->
  exists d', rows !! find_row k rows = Some (k, d').
Proof.
  revert i. induction rows as [|[k' d'] rows IH]; intros [|i]; cbn; [done..| |].
  - intros [= -> ->]. rewrite bool_decide_eq_true_2 by done. by exists d.
  - intros Hi. case_bool_decide as Hk; [subst k'; by exists d'|]. by eapply IH.
Qed.

Lemma sim_set_name w t v' t' dbi n : sim_name w t' dbi = Some (Some n) -> sim_name (sim_set w t v') t' dbi = Some (Some n).
Proof. unfold sim_set, sim_name. by destruct (sim_roots w !! t.1) as [[]|]. Qed.

Lemma sim_readonly w k d e v : writable (H := sim_lmdb) w (k, d) -> w.(sim_roots) !! k = Some (SReader e v) -> False.
Proof.
  intros (r & R & v' & post & Hr & Hro & Hl) Hk. destruct (sim_root_inv _ _ _ Hr) as (k' & -> & [(e' & u & Hk' & ->) | (e' & u & us & Hk' & ->)]).
  - done.
  - cbn in Hl. injection Hl as -> _ _ _. rewrite Hk in Hk'. done.
Qed.

#[export] Instance sim_entry_laws : LmdbEntryLaws (H := sim_lmdb).
Proof.
  unshelve econstructor.
  - exact (fun w m i => m.(mc_pos) = i).
  - intros w m n tb kd Hon H0'. destruct (sim_on_table _ _ _ _ Hon) as (t & v & _ & _ & Hr & _).
    eexists. cbn. unfold sim_cursor_get, sim_at. rewrite Hr, H0'. by repeat split.
  - intros w m n tb i Hon Hi Hinit. cbn [txn pos sim_lmdb] in Hi, Hinit. destruct (sim_on_table _ _ _ _ Hon) as (t & v & _ & _ & Hr & _).
    cbn. unfold sim_cursor_get, sim_at. rewrite Hr, Hinit, Hi.
    destruct (t_rows tb !! S i) as [kd|]; [|done]. eexists. by repeat split.
  - intros w m n tb i k d Hon _ Hi. destruct (sim_on_table _ _ _ _ Hon) as (t & v & _ & _ & Hr & _).
    destruct (find_row_lookup _ _ _ _ Hi) as [d' Hd']. eexists _, (find_row k (t_rows tb)), d'.
    cbn. unfold sim_cursor_get, sim_at. rewrite Hr, Hd'. by repeat split.
  - intros w m n tb i k d Hon _ Hp Hi. cbn [txn pos sim_lmdb] in Hp. destruct (sim_on_table _ _ _ _ Hon) as (t & v & _ & _ & Hr & _).
    cbn. rewrite Hr, Hp, Hi. by eexists.
  - intros w m n tb t v k d rc w' m' Hon _ Ht Hv Hput.
    destruct (sim_on_table _ _ _ _ Hon) as (t' & v' & Hson & Ht' & Hr & b & Hb).
    cbn [txn pos sim_lmdb] in Ht, Ht'. rewrite Ht in Ht'. injection Ht' as <-.
    destruct (sim_view_inv _ _ _ Hv) as (kk & dd & e & Htk & Hcase).
    destruct Hon as (t2 & v2 & Ht2 & Hv2 & Htb & Hn). cbn [txn pos sim_lmdb] in Ht2. rewrite Ht in Ht2. injection Ht2 as <-.
    pose proof (view_inj _ _ _ _ Hv Hv2) as <-.
    cbn in Hput. unfold sim_insert, sim_write in Hput. rewrite Hson in Hput.
    destruct Hcase as [(_ & _ & Hs) | (vs & Hd & Hk & Hs)]; rewrite Hs in Hput, Hb; injection Hb as <- <-.
    + injection Hput as <- <- <-. done.
    + injection Hput as <- <- <-. split; [done|]. cbn [Z.eqb].
      destruct (sim_writable w t v kk dd e vs Htk Hd Hk) as [HW HU]. split; [done|].
      pose proof (sim_set_name w t (set_table v n (Table (t_flags tb) (row_insert k d (t_rows tb)))) t m.(mc_dbi) n Hn) as Hn'.
      split; [done|]. split; [apply HU|]. split; [done|].
      match goal with |- context [sim_set ?w ?t ?v] => set (w2 := sim_set w t v) in * end.
      assert (on_table (H := sim_lmdb) w2 m n (Table (t_flags tb) (row_insert k d (t_rows tb)))) as Hon2.
      { eexists t, _. split; [exact Ht|]. split; [exact (upd_view _ _ _ _ _ Hv (HU _))|]. split; [apply lookup_insert_eq|exact Hn']. }
      destruct (sim_on_table _ _ _ _ Hon2) as (t3 & v3 & _ & _ & Hr2 & _). cbn [t_rows] in Hr2.
      exists (find_row k (sim_rows w2 m)), (mkNode k d None false true). rewrite Hr2. split; [apply row_insert_find|].
      split; [done|]. split; [|done]. unfold node, sim_entry. cbn [mc_pos].
      match goal with |- context [sim_rows w2 ?m'] => change (sim_rows w2 m') with (sim_rows w2 m) end. by rewrite Hr2, row_insert_find.
  - intros w m n tb t v i k d nd off bs d' Hon _ Ht Hv Htb HW Hp Hi _ _ Hwr. cbn [txn pos sim_lmdb] in Hp, Ht.
    destruct (sim_on_table _ _ _ _ Hon) as (t' & v' & Hson & Ht' & Hr & b & Hb). cbn [txn pos sim_lmdb] in Ht'. rewrite Ht in Ht'. injection Ht' as <-.
    destruct Hon as (t2 & v2 & Ht2 & Hv2 & Htb2 & Hn). cbn [txn pos sim_lmdb] in Ht2. rewrite Ht in Ht2. injection Ht2 as <-.
    pose proof (view_inj _ _ _ _ Hv Hv2) as <-.
    destruct (sim_view_inv _ _ _ Hv) as (kk & dd & e & Htk & Hcase).
    destruct Hcase as [(_ & HRO & Hs) | (vs & Hd & Hk & Hs)]; [exfalso; rewrite Htk in HW; by eapply sim_readonly|].
    rewrite Hs in Hb. injection Hb as <- <-. 
    assert (alter (fun kd => (kd.1, default kd.2 (write kd.2 off bs))) i (t_rows tb) = alter (fun kd => (kd.1, d')) i (t_rows tb)) as E.
    { apply list_eq. intros j. destruct (decide (i = j)) as [<-|Hne].
      - rewrite !list_lookup_alter, Hi. cbn. by rewrite Hwr.
      - by rewrite !list_lookup_alter_ne. }
    assert (poke w m off bs = sim_set w t (set_table v n (Table (t_flags tb) (alter (fun kd => (kd.1, d')) i (t_rows tb))))) as ->.
    { rewrite <- E, <- Hp. cbn [poke sim_entry]. unfold sim_write. by rewrite Hson, Hs. }
    destruct (sim_writable w t v kk dd e vs Htk Hd Hk) as [_ HU]. split; [by apply sim_set_name|apply HU].
Qed.

(** ** SQL tables: rows by rowid *)

Definition enc_row (r : Z * bytes) : bytes * bytes := (le64 r.1, r.2).

(** The rows as the back-end reads them: rowids in the order of their
    unsigned images, each once, and data of less than 4 GB. *)
Definition table_ok (tb : table) (R : list (Z * bytes)) : Prop :=
  intkey_table tb /\ tb.(t_rows) = map enc_row R /\
  Forall (fun r => is_i64 r.1 /\ Z.of_nat (length r.2) < 2 ^ 32) R /\
  StronglySorted (fun a b => u64 a.1 < u64 b.1) R.

Fixpoint ins (i : Z) (d : bytes) (R : list (Z * bytes)) : list (Z * bytes) :=
  match R with
  | [] => [(i, d)]
  | (j, e) :: R =>
      if i =? j then (i, d) :: R
      else if u64 i <? u64 j then (i, d) :: (j, e) :: R
      else (j, e) :: ins i d R
  end.

Lemma of_le64_le64 i : is_i64 i -> of_le64 (le64 i) = Some i.
Proof.
  intros Hi. unfold of_le64, le64. cbn [app].
  set (lo := u64 i mod 4294967296). set (hi := u64 i / 4294967296).
  assert (0 <= lo < 2 ^ 32 /\ 0 <= hi < 2 ^ 32) as [Hlo Hhi] by (unfold lo, hi; zlia).
  change (of_le32 (le32 lo ++ le32 hi)) with (of_le32 (le32 lo)).
  change (drop 4 (le32 lo ++ le32 hi)) with (le32 hi).
  rewrite !of_le32_le32 by done. cbn [mbind option_bind]. f_equal. unfold lo, hi. zlia.
Qed.

Lemma le64_inj i j : is_i64 i -> is_i64 j -> le64 i = le64 j -> i = j.
Proof.
  intros Hi Hj He. apply (f_equal of_le64) in He. rewrite !of_le64_le64 in He by done. by injection He.
Qed.

Lemma key_num_le64 i : key_num (le64 i) = u64 i.
Proof. unfold key_num, le64, le32. cbn [app foldr]. zlia. Qed.

Lemma u64_inj i j : is_i64 i -> is_i64 j -> u64 i = u64 j -> i = j.
Proof. intros Hi Hj He. zlia. Qed.

Lemma row_insert_ins i d R : is_i64 i -> Forall (fun r => is_i64 r.1 /\ Z.of_nat (length r.2) < 2 ^ 32) R ->
  row_insert (le64 i) d (map enc_row R) = map enc_row (ins i d R).
Proof.
  intros Hi. induction R as [|[j e] R IH]; intros HR; [done|].
  apply Forall_cons in HR as [[Hj _] HR]. cbn in Hj.
  cbn [map row_insert ins enc_row fst snd]. rewrite !key_num_le64.
  destruct (Z.eqb_spec i j) as [->|Hne].
  - by rewrite bool_decide_eq_true_2.
  - rewrite bool_decide_eq_false_2 by (intros He; by apply Hne, le64_inj).
    destruct (u64 i <? u64 j); cbn [map enc_row fst snd]; [done|]. by rewrite IH.
Qed.

Lemma ins_in i d R : (i, d) ∈ ins i d R.
Proof.
  induction R as [|[j e] R IH]; cbn; [left|].
  destruct (i =? j); [left|]. destruct (u64 i <? u64 j); [left|]. by right.
Qed.

Lemma ins_elem i d R r : r ∈ ins i d R -> r = (i, d) \/ r ∈ R.
Proof.
  induction R as [|[j e] R IH]; cbn; [intros ->%list_elem_of_singleton; by left|].
  destruct (i =? j); [intros [-> | ?]%elem_of_cons; [by left|right; by right]|].
  destruct (u64 i <? u64 j); intros [-> | Hr]%elem_of_cons; [by left|by right|right; left|].
  destruct (IH Hr); [by left|right; by right].
Qed.

Lemma ins_sorted i d R : is_i64 i ->
  Forall (fun r => is_i64 r.1 /\ Z.of_nat (length r.2) < 2 ^ 32) R ->
  StronglySorted (fun a b => u64 a.1 < u64 b.1) R ->
  StronglySorted (fun a b => u64 a.1 < u64 b.1) (ins i d R).
Proof.
  intros Hi HR HS. induction HS as [|[j e] R HS IH HA]; cbn; [by repeat constructor|].
  apply Forall_cons in HR as [[Hj _] HR]. cbn in Hj. destruct (Z.eqb_spec i j) as [->|Hne].
  - by constructor.
  - destruct (Z.ltb_spec (u64 i) (u64 j)) as [Hlt|Hge].
    + constructor; [by constructor|]. apply List.Forall_cons; [done|].
      eapply Forall_impl; [exact HA|]. intros r Hr. cbn in *. lia.
    + constructor; [by apply IH|]. rewrite Forall_forall. intros r [-> | Hr]%ins_elem; cbn.
      * assert (u64 i <> u64 j) by (intros E; by apply Hne, u64_inj). lia.
      * rewrite Forall_forall in HA. by apply (HA r).
Qed.

(** A rowid occurs once. *)
Lemma sorted_unique (R : list (Z * bytes)) i d d' : StronglySorted (fun a b => u64 a.1 < u64 b.1) R ->
  (i, d) ∈ R -> (i, d') ∈ R -> d = d'.
Proof.
  intros HS. induction HS as [|[j e] R HS IH HA]; [by intros ?%elem_of_nil|].
  rewrite Forall_forall in HA.
  intros [E1 | H1']%elem_of_cons [E2 | H2']%elem_of_cons.
  - congruence.
  - injection E1 as -> ->. specialize (HA _ H2'). cbn in HA. lia.
  - injection E2 as -> ->. specialize (HA _ H1'). cbn in HA. lia.
  - by apply IH.
Qed.

(** What an insertion makes of a table: sorted, with the new row. *)
Lemma table_ok_insert tb R i d : table_ok tb R -> is_i64 i -> Z.of_nat (length d) < 2 ^ 32 ->
  table_ok (Table tb.(t_flags) (row_insert (le64 i) d tb.(t_rows))) (ins i d R).
Proof.
  intros (Hk & Hr & HF & HS) Hi Hd. split; [done|]. cbn [t_rows]. split; [by rewrite Hr, row_insert_ins|].
  split; [|by apply ins_sorted]. rewrite Forall_forall. intros r [-> | Hr']%ins_elem; [done|].
  rewrite Forall_forall in HF. by apply HF.
Qed.

Section entries.
Context `{LmdbEntry} `{!LmdbAbs} `{!LmdbLaws} `{!LmdbEntryLaws}.
Implicit Types (s : state) (w : lmdb) (x : Z).

(** The cursor [x] is on table [n]; it is on row [i]. *)
Definition points (s : state) (x : Z) (c : BtCursor txn pos) (n : string) (tb : table) : Prop :=
  s.(cursors) !! x = Some c /\ on_table s.(mdb) c.(mc) n tb.

Definition on_row (s : state) (c : BtCursor txn pos) (i : nat) : Prop :=
  c.(mc).(mc_initialized) = true /\ cur_at s.(mdb) c.(mc) i.

Lemma on_table_target w m m' n tb : same_target m m' -> on_table w m n tb -> on_table w m' n tb.
Proof. intros [Ht Hd] (t & v & ? & ? & ? & ?). exists t, v. by rewrite Ht, Hd. Qed.

Definition move (s : state) (x : Z) (c : BtCursor txn pos) (m : MDB_cursor txn pos) : state :=
  set_cursors s (<[x := set_mc c m]> s.(cursors)).

Lemma points_move s x c n tb m : points s x c n tb -> same_target c.(mc) m -> points (move s x c m) x (set_mc c m) n tb.
Proof. intros [Hc Hon] Hst. split; [apply lookup_insert_eq|]. by eapply on_table_target. Qed.

Lemma bind_cursor_db s x c n tb {A} (f : MDB_db -> M A) : points s x c n tb ->
  (cursor_db c ≫= f) s =
  f (mkDb tb.(t_flags) (Z.of_nat (length tb.(t_rows))) (bool_decide (tb.(t_rows) = []))) s.
Proof.
  intros [_ (t & v & Ht & Hv & Htb & Hn)]. unfold cursor_db. rewrite Ht, bind_assoc.
  erewrite bind_some by done. erewrite bind_some; [done|]. unfold ask.
  by rewrite (db_law _ _ _ _ _ _ Hv Hn Htb).
Qed.

Lemma cursor_get_run s x c op key data rc kd m {A} (f : Z -> M A) :
  s.(cursors) !! x = Some c -> mdb_cursor_get s.(mdb) c.(mc) op key data = (rc, kd, m) ->
  (cursor_get x op key data ≫= f) s = f rc (move s x c m).
Proof.
  intros Hc Hg. unfold cursor_get. rewrite bind_assoc, (bind_load_cursor _ _ _ _ Hc), bind_assoc.
  erewrite bind_some by (unfold ask; by rewrite Hg). done.
Qed.

Lemma first_run s x c n tb : points s x c n tb ->
  match tb.(t_rows) with
  | [] => sqlite3BtreeFirst x s = Some ((SQLITE_OK, 1), s)
  | _ => exists m, sqlite3BtreeFirst x s = Some ((SQLITE_OK, 0), move s x c m) /\
      points (move s x c m) x (set_mc c m) n tb /\ on_row (move s x c m) (set_mc c m) O
  end.
Proof.
  intros Hp. pose proof Hp as [Hc Hon]. unfold sqlite3BtreeFirst.
  destruct (t_rows tb) as [|kd rows] eqn:E.
  - rewrite (bind_load_cursor _ _ _ _ Hc), (bind_cursor_db _ _ _ _ _ _ Hp), E. done.
  - destruct (first_law (s.(mdb)) c.(mc) n tb kd Hon) as (m & Hg & Hst & Hin & Hat); [by rewrite E|].
    exists m. split; [|split; [by apply points_move|done]].
    rewrite (bind_load_cursor _ _ _ _ Hc), (bind_cursor_db _ _ _ _ _ _ Hp), E.
    cbn [bool_decide md_root_invalid]. rewrite bool_decide_eq_false_2 by done.
    by rewrite (cursor_get_run _ _ _ _ _ _ _ _ _ _ Hc Hg).
Qed.

Lemma next_run s x c n tb i : points s x c n tb -> on_row s c i -> (i < length tb.(t_rows))%nat ->
  if decide (S i < length tb.(t_rows))%nat then
    exists m, sqlite3BtreeNext x s = Some ((SQLITE_OK, 0), move s x c m) /\
      points (move s x c m) x (set_mc c m) n tb /\ on_row (move s x c m) (set_mc c m) (S i)
  else exists m, sqlite3BtreeNext x s = Some ((SQLITE_OK, 1), move s x c m).
Proof.
  intros Hp [Hin Hat] Hi. pose proof Hp as [Hc Hon].
  pose proof Hon as (t & v & Ht & _). unfold sqlite3BtreeNext.
  rewrite (bind_load_cursor _ _ _ _ Hc), Ht, (bind_cursor_db _ _ _ _ _ _ Hp).
  cbn [md_root_invalid]. rewrite bool_decide_eq_false_2 by (intros E; rewrite E in Hi; cbn in Hi; lia).
  pose proof (next_law s.(mdb) c.(mc) n tb i Hon Hat Hin) as HN.
  case_decide as Hlt.
  - apply lookup_lt_is_Some_2 in Hlt as [kd Hkd]. rewrite Hkd in HN.
    destruct HN as (m & Hg & Hst & Hin' & Hat'). exists m.
    rewrite (cursor_get_run _ _ _ _ _ _ _ _ _ _ Hc Hg). split; [done|]. split; [by apply points_move|done].
  - rewrite lookup_ge_None_2 in HN by lia.
    destruct (mdb_cursor_get (mdb s) (mc c) CUR_NEXT NoKey None) as [[rc kd] m] eqn:Hg. cbn in HN. subst rc.
    exists m. by rewrite (cursor_get_run _ _ _ _ _ _ _ _ _ _ Hc Hg).
Qed.

Lemma bind_cursor_node s x c n tb i k d :
  points s x c n tb -> on_row s c i -> intkey_table tb -> tb.(t_rows) !! i = Some (k, d) ->
  exists nd, (forall A (f : MDB_node -> M A), (cursor_node c ≫= f) s = f nd s) /\
    nd.(n_key) = k /\ nd.(n_data) = d.
Proof.
  intros [_ Hon] [_ Hat] Hk Hi. destruct (node_law _ _ _ _ _ _ _ Hon Hk Hat Hi) as (nd & Hnd & HK & HD).
  exists nd. split; [|done]. intros A f. unfold cursor_node. rewrite bind_assoc.
  erewrite bind_some by done. rewrite Hnd. done.
Qed.

Lemma is_intkey_true tb k : intkey_table tb -> is_intkey (mkDb tb.(t_flags) k (bool_decide (tb.(t_rows) = []))) = true.
Proof. intros Hk. unfold is_intkey. cbn. by rewrite (proj2 (Z.eqb_neq _ _) Hk). Qed.

(** ** The row under the cursor *)

Definition read_row x : M (Z * bytes) :=
  '(_, k) ← sqlite3BtreeKeySize x 0;
  '(_, sz) ← sqlite3BtreeDataSize x 0;
  '(_, d) ← sqlite3BtreeData x 0 sz;
  mret (k, d).

Lemma data_prefix s x c n tb i k d nb :
  points s x c n tb -> on_row s c i -> intkey_table tb -> tb.(t_rows) !! i = Some (k, d) ->
  0 <= nb <= Z.of_nat (length d) -> Z.of_nat (length d) < 2 ^ 32 ->
  sqlite3BtreeData x 0 nb s = Some ((SQLITE_OK, take (Z.to_nat nb) d), s).
Proof.
  intros Hp Hrow Hk Hi Hnb Hd. pose proof Hp as [Hc _]. unfold sqlite3BtreeData.
  rewrite (bind_load_cursor _ _ _ _ Hc).
  destruct (bind_cursor_node s x c n tb i k d) as (nd & Heq & HK & HD); [done..|].
  rewrite Heq, HD. rewrite wrap_u_small by (unfold in_u; lia). destruct (Z.leb_spec (0 + nb) (Z.of_nat (length d))); [|lia].
  unfold read. destruct (Z.leb_spec 0 nb); [|lia].
  destruct (Z.leb_spec (0 + nb) (Z.of_nat (length d))); [|lia]. done.
Qed.

Lemma read_row_run s x c n tb R i r :
  points s x c n tb -> on_row s c i -> table_ok tb R -> R !! i = Some r ->
  read_row x s = Some (r, s).
Proof.
  intros Hp Hrow (Hk & HR & HF & _) Hi. pose proof Hp as [Hc _]. pose proof Hrow as [Hin _].
  destruct r as [k d]. rewrite Forall_lookup in HF. destruct (HF _ _ Hi) as [Hik Hd]. cbn in Hik, Hd.
  assert (tb.(t_rows) !! i = Some (le64 k, d)) as Hi' by (rewrite HR, list_lookup_fmap, Hi; done).
  assert (sqlite3BtreeKeySize x 0 s = Some ((SQLITE_OK, k), s)) as H1'.
  { unfold sqlite3BtreeKeySize. rewrite (bind_load_cursor _ _ _ _ Hc), Hin.
    destruct (bind_cursor_node s x c n tb i _ _ Hp Hrow Hk Hi') as (nd & Heq & HK & HD).
    rewrite Heq, (bind_cursor_db _ _ _ _ _ _ Hp), is_intkey_true, HK, of_le64_le64 by done. done. }
  assert (sqlite3BtreeDataSize x 0 s = Some ((SQLITE_OK, Z.of_nat (length d)), s)) as H2'.
  { unfold sqlite3BtreeDataSize. rewrite (bind_load_cursor _ _ _ _ Hc), Hin.
    destruct (bind_cursor_node s x c n tb i _ _ Hp Hrow Hk Hi') as (nd & Heq & HK & HD).
    by rewrite Heq, HD, wrap_u_small by (unfold in_u; lia). }
  unfold read_row. rewrite (bind_some _ _ _ _ _ H1'), (bind_some _ _ _ _ _ H2').
  rewrite (bind_some _ _ _ _ _ (data_prefix s x c n tb i _ d (Z.of_nat (length d)) Hp Hrow Hk Hi' ltac:(lia) Hd)).
  by rewrite Nat2Z.id, firstn_all.
Qed.

(** ** A scan, as the virtual machine makes it: OP_Rewind, OP_Next *)

Fixpoint scan_rest (fuel : nat) x : M (list (Z * bytes)) :=
  match fuel with
  | O => undefined
  | S fuel =>
      r ← read_row x;
      '(_, res) ← sqlite3BtreeNext x;
      if res =? 1 then mret [r] else rs ← scan_rest fuel x; mret (r :: rs)
  end.

Definition scan (fuel : nat) x : M (list (Z * bytes)) :=
  '(_, res) ← sqlite3BtreeFirst x;
  if res =? 1 then mret [] else scan_rest fuel x.

Lemma scan_rest_run tb R x n : table_ok tb R -> forall k i s c,
  points s x c n tb -> on_row s c i -> (i < length R)%nat -> (length R - i <= k)%nat ->
  exists s', scan_rest k x s = Some (drop i R, s') /\ s'.(mdb) = s.(mdb).
Proof.
  intros Hok k. induction k as [|k IH]; intros i s c Hp Hrow Hi Hk; [lia|]. cbn [scan_rest].
  destruct (lookup_lt_is_Some_2 R i Hi) as [r Hr].
  rewrite (bind_some _ _ _ _ _ (read_row_run _ _ _ _ _ _ _ _ Hp Hrow Hok Hr)).
  assert (length tb.(t_rows) = length R) as HL by (destruct Hok as (_ & -> & _); apply length_map).
  pose proof (next_run s x c n tb i Hp Hrow ltac:(lia)) as HN. rewrite HL in HN.
  rewrite (drop_S _ _ _ Hr). case_decide as Hlt.
  - destruct HN as (m & Hn & Hp' & Hrow'). rewrite (bind_some _ _ _ _ _ Hn). cbn [Z.eqb].
    destruct (IH (S i) _ _ Hp' Hrow' Hlt ltac:(lia)) as (s' & Hs & Hm).
    rewrite (bind_some _ _ _ _ _ Hs). by exists s'.
  - destruct HN as (m & Hn). rewrite (bind_some _ _ _ _ _ Hn). cbn [Z.eqb Pos.eqb].
    eexists. rewrite drop_ge by lia. by split.
Qed.

(** ** Finding and inserting *)

Lemma moveto_run s x c n tb R k d : points s x c n tb -> table_ok tb R -> (k, d) ∈ R -> is_i64 k ->
  exists m i, sqlite3BtreeMovetoUnpacked false 4 x None k s = Some ((SQLITE_OK, 0, None), move s x c m) /\
    points (move s x c m) x (set_mc c m) n tb /\ on_row (move s x c m) (set_mc c m) i /\
    tb.(t_rows) !! i = Some (le64 k, d).
Proof.
  intros Hp Hok Hin Hi. pose proof Hp as [Hc Hon]. pose proof Hok as (Hk & HR & HF & HS).
  apply list_elem_of_lookup_1 in Hin as [j Hj].
  assert (tb.(t_rows) !! j = Some (le64 k, d)) as Hj' by (rewrite HR, list_lookup_fmap, Hj; done).
  destruct (set_law s.(mdb) c.(mc) n tb j _ _ Hon Hk Hj') as (m & i & d' & Hg & Hi' & Hst & Hinit & Hat).
  assert (d' = d) as ->.
  { rewrite HR, list_lookup_fmap in Hi'. destruct (R !! i) as [[k' e]|] eqn:E; [|done].
    apply (inj Some), pair_eq in Hi' as [He He2]. cbn [snd] in He2. subst e. cbn [fst] in He.
    apply le64_inj in He as ->; [|by rewrite Forall_lookup in HF; apply (HF _ _ E)|done].
    eapply sorted_unique; [exact HS|by eapply list_elem_of_lookup_2|by eapply list_elem_of_lookup_2]. }
  exists m, i. split; [|split; [by apply points_move|by split]].
  unfold sqlite3BtreeMovetoUnpacked. rewrite (bind_load_cursor _ _ _ _ Hc), (bind_cursor_db _ _ _ _ _ _ Hp).
  cbn [md_entries]. destruct (Z.eqb_spec (Z.of_nat (length (t_rows tb))) 0) as [E|_].
  { apply lookup_lt_Some in Hj'. lia. }
  rewrite bind_assoc, (cursor_get_run _ _ _ _ _ _ _ _ _ _ Hc Hg), bind_ret.
  cbn [Z.eqb negb]. by rewrite is_intkey_true.
Qed.

Lemma upd_on_table w w' t m n tb v tb' : on_table w m n tb -> m.(mc_txn) = Some t -> view w t v ->
  upd w w' t (set_table v n tb') -> dbi_name w' t m.(mc_dbi) = Some (Some n) -> on_table w' m n tb'.
Proof.
  intros Hon Ht Hv HU Hn. exists t, (set_table v n tb'). split; [done|].
  split; [by eapply upd_view|]. split; [apply lookup_insert_eq|done].
Qed.

Lemma points_insert s x c n tb t v w' m tb' : points s x c n tb -> c.(mc).(mc_txn) = Some t ->
  view s.(mdb) t v -> same_target c.(mc) m -> dbi_name w' t c.(mc).(mc_dbi) = Some (Some n) ->
  upd s.(mdb) w' t (set_table v n tb') -> points (set_mdb (move s x c m) w') x (set_mc c m) n tb'.
Proof.
  intros [Hc Hon] Ht Hv Hst Hn HU. split; [apply lookup_insert_eq|].
  eapply on_table_target; [exact Hst|]. by eapply upd_on_table.
Qed.

(** Writing over the data of the row just put in. *)
Lemma ins_alter k d0 d R i : is_i64 k -> Forall (fun r => is_i64 r.1 /\ Z.of_nat (length r.2) < 2 ^ 32) R ->
  StronglySorted (fun a b => u64 a.1 < u64 b.1) R -> map enc_row (ins k d0 R) !! i = Some (le64 k, d0) ->
  alter (fun kd => (kd.1, d)) i (map enc_row (ins k d0 R)) = map enc_row (ins k d R).
Proof.
  intros Hk HR HS. revert i. induction HS as [|[j e] R HS IH HA]; intros i Hi.
  { destruct i as [|i]; [done|]. by destruct i. }
  apply Forall_cons in HR as [[Hj Hlj] HR]. cbn [fst snd] in *.
  assert (forall (Q : list (Z * bytes)) i', Forall (fun r => is_i64 r.1 /\ Z.of_nat (length r.2) < 2 ^ 32) Q -> Forall (fun b => u64 k < u64 b.1) Q ->
    map enc_row Q !! i' = Some (le64 k, d0) -> False) as Hno.
  { intros Q i' HQ HQ' E. rewrite list_lookup_fmap in E. destruct (Q !! i') as [[k' e']|] eqn:EQ; [|done].
    apply (inj Some), pair_eq in E as [E _]. rewrite Forall_lookup in HQ, HQ'. specialize (HQ _ _ EQ). specialize (HQ' _ _ EQ). cbn [fst snd] in *.
    apply le64_inj in E; [subst; lia|apply HQ|done]. }
  cbn [ins] in *. destruct (Z.eqb_spec k j) as [<-|Hne].
  - destruct i as [|i]; [done|]. exact (False_ind _ (Hno R i HR HA Hi)).
  - destruct (Z.ltb_spec (u64 k) (u64 j)) as [Hlt|Hge].
    + destruct i as [|i]; [done|]. exfalso. eapply (Hno ((j, e) :: R) i); [by constructor| |exact Hi].
      constructor; [done|]. eapply Forall_impl; [exact HA|]. intros r Hr. cbn in *. lia.
    + destruct i as [|i]; cbn [map] in Hi.
      * apply (inj Some), pair_eq in Hi as [E _]. by apply le64_inj in E.
      * cbn [map alter list_alter]. f_equal. by apply IH.
Qed.

Lemma zero_tail_run s x c n tb t v i k d nd nData nZero :
  points s x c n tb -> intkey_table tb -> c.(mc).(mc_txn) = Some t -> view s.(mdb) t v -> v.(s_tables) !! n = Some tb ->
  writable s.(mdb) t -> on_row s c i -> tb.(t_rows) !! i = Some (k, d) -> node s.(mdb) c.(mc) = Some nd -> nd.(n_dirty) = true ->
  0 <= nData -> 0 <= nZero -> Z.of_nat (length d) = nData + nZero ->
  exists w', zero_tail x nData nZero s = Some ((), set_mdb s w') /\ dbi_name w' t c.(mc).(mc_dbi) = Some (Some n) /\
    upd s.(mdb) w' t (set_table v n (Table tb.(t_flags)
      (alter (fun kd => (kd.1, take (Z.to_nat nData) d ++ replicate (Z.to_nat nZero) 0)) i tb.(t_rows)))).
Proof.
  intros Hp Hk Ht Hv Htb HW Hrow Hi Hnd Hdirty Hn Hz Hl. pose proof Hp as [Hc Hon].
  assert (write d nData (replicate (Z.to_nat nZero) 0) = Some (take (Z.to_nat nData) d ++ replicate (Z.to_nat nZero) 0)) as Hwr.
  { unfold write. rewrite length_replicate. destruct (Z.leb_spec 0 nData); [|lia].
    destruct (Z.leb_spec (nData + Z.of_nat (Z.to_nat nZero)) (Z.of_nat (length d))); [|lia]. cbn [andb].
    rewrite (drop_ge d) by lia. by rewrite app_nil_r. }
  destruct (poke_law _ _ _ _ _ _ _ _ _ _ _ _ _ Hon Hk Ht Hv Htb HW (proj2 Hrow) Hi Hnd Hdirty Hwr) as [Hname HU].
  eexists. split; [|split; [exact Hname|exact HU]]. unfold zero_tail. rewrite (bind_load_cursor _ _ _ _ Hc).
  destruct (bind_cursor_node s x c n tb i k d Hp Hrow Hk Hi) as (nd' & Heq & _ & HD). rewrite Heq, HD.
  erewrite bind_some by (unfold deref; by rewrite Hwr). done.
Qed.

Lemma set_table_twice v n tb1 tb2 : set_table (set_table v n tb1) n tb2 = set_table v n tb2.
Proof. unfold set_table. cbn [s_main s_tables]. by rewrite insert_insert_eq. Qed.

(** The entry the caller asks for: the data and zeros behind it. *)
Definition new_data (pData : bytes) (nData nZero : Z) : bytes := take (Z.to_nat nData) pData ++ replicate (Z.to_nat nZero) 0.

Lemma insert_run s x c n tb t v R k pData nData nZero rc w' m :
  points s x c n tb -> table_ok tb R -> c.(mc).(mc_txn) = Some t -> view s.(mdb) t v -> v.(s_tables) !! n = Some tb ->
  is_i64 k -> 0 <= nData -> 0 <= nZero -> nData + nZero <= Z.of_nat (length pData) -> nData + nZero < 2 ^ 32 ->
  mdb_cursor_put s.(mdb) c.(mc) (Some (le64 k)) None (take (Z.to_nat (nData + nZero)) pData) 0 = (rc, w', m) ->
  exists s', insert_rowid x k pData nData nZero s = Some (errmap rc, s') /\
    if rc =? 0 then exists w2 tb', s' = set_mdb (move s x c m) w2 /\ points s' x (set_mc c m) n tb' /\
      table_ok tb' (ins k (new_data pData nData nZero) R) /\ upd s.(mdb) w2 t (set_table v n tb')
    else same s.(mdb) s'.(mdb).
Proof.
  intros Hp Hok Ht Hv Htb Hi Hn Hz Hlen H32 Hput. pose proof Hok as (Hk & HR & HF & HS). pose proof Hp as [Hc Hon].
  destruct (insert_law _ _ _ _ _ _ _ _ _ _ _ Hon Hk Ht Hv Hput) as [Hst HW].
  set (d0 := take (Z.to_nat (nData + nZero)) pData) in *.
  assert (Z.of_nat (length d0) = nData + nZero) as Hd0 by (unfold d0; rewrite length_take; lia).
  assert (forall A (f : Z -> M A), (data ← block pData (nData + nZero); rc ← cursor_call x (fun w m => mdb_cursor_put w m (Some (le64 k)) None data 0); f rc) s =
    f rc (set_mdb (move s x c m) w')) as Hcall.
  { intros A f. unfold block, read. rewrite Z.add_0_l. destruct (Z.leb_spec 0 (nData + nZero)); [|lia].
    destruct (Z.leb_spec (nData + nZero) (Z.of_nat (length pData))); [|lia]. cbn [andb Z.leb Z.compare].
    erewrite bind_some by done. change (drop (Z.to_nat 0) pData) with pData. fold d0.
    unfold cursor_call. rewrite bind_assoc, (bind_load_cursor _ _ _ _ Hc), bind_assoc.
    erewrite bind_some by (unfold call; cbv beta; by rewrite Hput). cbv beta iota. by rewrite bind_assoc. }
  unfold insert_rowid. rewrite Hcall. destruct (Z.eqb_spec rc 0) as [->|Hrc].
  2:{ rewrite andb_false_r. eexists. split; [done|]. done. }
  destruct HW as (Hwr & Hname & HU & Hinit & i & nd & Hrow & Hat & Hnd & Hdirty). rewrite andb_true_r.
  pose proof (points_insert s x c n tb t v w' m _ Hp Ht Hv Hst Hname HU) as Hp'.
  pose proof (table_ok_insert tb R k d0 Hok Hi ltac:(lia)) as Hok'.
  destruct (Z.eqb_spec nZero 0) as [->|Hnz]; cbn [negb].
  - assert (new_data pData nData 0 = d0) as -> by (unfold new_data, d0; cbn [replicate Z.to_nat]; rewrite app_nil_r; f_equal; lia).
    eexists. split; [done|]. by exists w', (Table (t_flags tb) (row_insert (le64 k) d0 (t_rows tb))).
  - set (s1 := set_mdb (move s x c m) w') in *. destruct Hst as [Hst1 Hst2].
    destruct (zero_tail_run s1 x (set_mc c m) n _ t (set_table v n (Table (t_flags tb) (row_insert (le64 k) d0 (t_rows tb)))) i (le64 k) d0 nd nData nZero Hp' Hk) as (w2 & Hz2 & Hname2 & HU2); try done.
    { cbn. by rewrite Hst1. } { exact (upd_view _ _ _ _ _ Hv HU). } { apply lookup_insert_eq. } { exact (upd_writable _ _ _ _ Hwr HU). }
    rewrite (bind_some _ _ _ _ _ Hz2). cbn [t_rows t_flags] in HU2. rewrite set_table_twice in HU2.
    assert (take (Z.to_nat nData) d0 ++ replicate (Z.to_nat nZero) 0 = new_data pData nData nZero) as E
      by (unfold new_data, d0; rewrite take_take; do 2 f_equal; lia).
    rewrite E, HR, row_insert_ins, ins_alter in HU2; [|done|done|done|by rewrite <- row_insert_ins, <- HR by done|done|done].
    set (tb' := Table _ _) in HU2.
    eexists. split; [done|]. exists w2, tb'. split; [done|]. split; [|split].
    + split; [apply lookup_insert_eq|]. eapply (upd_on_table w' w2 t m n _ _ tb'); [apply Hp'|by rewrite Hst1|exact (upd_view _ _ _ _ _ Hv HU)| |exact Hname2].
      by rewrite set_table_twice.
    + pose proof (table_ok_insert tb R k (new_data pData nData nZero) Hok Hi) as Ht'.
      unfold tb'. rewrite <- row_insert_ins, <- HR by done. apply Ht'. unfold new_data. rewrite length_app, length_take, length_replicate. lia.
    + exact (upd_upd _ _ _ _ _ _ HU HU2).
Qed.

Lemma insert_is_rowid szRec szMem addr oom ff s x c n tb pKey k pData nData nZero : points s x c n tb -> intkey_table tb ->
  sqlite3BtreeInsert szRec szMem addr oom ff x pKey k pData nData nZero s = insert_rowid x k pData nData nZero s.
Proof.
  intros Hp Hk. pose proof Hp as [Hc _]. unfold sqlite3BtreeInsert.
  rewrite (bind_load_cursor _ _ _ _ Hc), (bind_cursor_db _ _ _ _ _ _ Hp), is_intkey_true by done. by destruct pKey.
Qed.

(** C6: a scan of an SQL table as the virtual machine makes it, First and then
    Next until it reports the end, visits every row once, in the order of the
    unsigned rowids, reads its rowid and its data, leaves the database alone,
    and ends after as many steps as there are rows. *)
Theorem scan_complete s x c n tb R k :
  points s x c n tb -> table_ok tb R -> (length R <= k)%nat ->
  exists s', scan k x s = Some (R, s') /\ s'.(mdb) = s.(mdb).
Proof.
  intros Hp Hok Hk. pose proof (first_run s x c n tb Hp) as HF. unfold scan.
  pose proof Hok as (_ & HR & _). rewrite HR in HF. destruct R as [|r R]; cbn [map] in HF.
  - rewrite (bind_some _ _ _ _ _ HF). by exists s.
  - destruct HF as (m & HF & Hp' & Hrow). rewrite (bind_some _ _ _ _ _ HF). cbn [Z.eqb].
    destruct (scan_rest_run tb (r :: R) x n Hok k 0 _ _ Hp' Hrow) as (s' & Hs & Hm); [cbn in *; lia..|].
    exists s'. by rewrite Hs.
Qed.

(** C5: sqlite3BtreeInsert on an SQL table, of [nData] bytes and [nZero] zeros,
    returns the result of the mdb_cursor_put it makes.  After a success the
    table holds the old rows with the new one in place of a row with the same
    rowid, other tables are unchanged, and sqlite3BtreeMovetoUnpacked finds the
    rowid exactly, with the bytes and the zeros as its data; after a failure
    the database is as before.  But the block of the data must hold the zeros
    too: else the call is undefined. *)
Theorem insert_found szRec szMem addr oom ff s x c n tb t v R pKey k pData nData nZero :
  points s x c n tb -> table_ok tb R -> c.(mc).(mc_txn) = Some t -> view s.(mdb) t v ->
  v.(s_tables) !! n = Some tb -> is_i64 k -> 0 <= nData -> 0 <= nZero -> nData + nZero < 2 ^ 32 ->
  let d := new_data pData nData nZero in
  let put := mdb_cursor_put s.(mdb) c.(mc) (Some (le64 k)) None (take (Z.to_nat (nData + nZero)) pData) 0 in
  let call := sqlite3BtreeInsert szRec szMem addr oom ff x pKey k pData nData nZero s in
  if nData + nZero <=? Z.of_nat (length pData) then
    exists s', call = Some (errmap put.1.1, s') /\
      if put.1.1 =? 0 then
        exists c' tb' s'', points s' x c' n tb' /\ table_ok tb' (ins k d R) /\
          upd s.(mdb) s'.(mdb) t (set_table v n tb') /\
          sqlite3BtreeMovetoUnpacked false 4 x None k s' = Some ((SQLITE_OK, 0, None), s'') /\
          read_row x s'' = Some ((k, d), s'')
      else same s.(mdb) s'.(mdb)
  else call = None.
Proof.
  intros Hp Hok Ht Hv Htb Hi Hn Hz H32 d put call. subst call. rewrite (insert_is_rowid _ _ _ _ _ _ _ _ _ _ _ _ _ _ _ Hp (proj1 Hok)).
  destruct (Z.leb_spec (nData + nZero) (Z.of_nat (length pData))) as [Hlen|Hlen].
  2:{ unfold insert_rowid, block, read. rewrite Z.add_0_l, (proj2 (Z.leb_gt _ _) Hlen), andb_false_r. done. }
  destruct put as [[rc w'] m] eqn:Hput. cbn [fst].
  destruct (insert_run s x c n tb t v R k pData nData nZero rc w' m Hp Hok Ht Hv Htb Hi Hn Hz Hlen H32 Hput) as (s' & Hrun & HW).
  exists s'. split; [exact Hrun|]. destruct (rc =? 0); [|done]. destruct HW as (w2 & tb' & -> & Hp' & Hok' & HU).
  destruct (moveto_run _ _ _ _ _ _ k _ Hp' Hok' (ins_in _ _ _) Hi) as (m2 & i & Hmv & Hp2 & Hrow2 & Hi2).
  eexists _, _, _. split; [exact Hp'|]. split; [exact Hok'|]. split; [exact HU|]. split; [exact Hmv|].
  pose proof Hok' as (_ & HR & HF & _). rewrite HR, list_lookup_fmap in Hi2. fold d in Hi2.
  destruct (ins k d R !! i) as [[k' d']|] eqn:E; [|done].
  apply (inj Some), pair_eq in Hi2 as [He He2]. cbn [fst snd] in He, He2. subst d'.
  apply le64_inj in He as ->; [|by rewrite Forall_lookup in HF; apply (HF _ _ E)|done].
  by eapply read_row_run.
Qed.
End entries.

(** ** Concrete runs: cursor 100 on table 2 *)

Definition put_row (k : Z) (d : bytes) : M Z :=
  sqlite3BtreeInsert 40 48 0 false 4 100 None k d (Z.of_nat (length d)) 0.

Definition s_rows : state := after (_ ← put_row 1 [8]; put_row (-1) [5; 6; 7]) s_cursor1.

Definition rows1 : list (Z * bytes) := [(1, [8]); (-1, [5; 6; 7])].

(** [R] are the rows of the cursor's table, in a write transaction. *)
Definition at_table (s : state) (R : list (Z * bytes)) : Prop :=
  exists c n tb t v, points s 100 c n tb /\ table_ok tb R /\ c.(mc).(mc_txn) = Some t /\
    view s.(mdb) t v /\ v.(s_tables) !! n = Some tb.


Lemma at_table_make s R c n tb t v r RR post :
  s.(cursors) !! 100 = Some c -> c.(mc).(mc_txn) = Some t ->
  roots s.(mdb) r = Some RR -> RR.(r_levels) = (t, v) :: post ->
  dbi_name s.(mdb) t c.(mc).(mc_dbi) = Some (Some n) -> v.(s_tables) !! n = Some tb ->
  table_ok tb R -> at_table s R.
Proof.
  intros Hc Ht Hr Hl Hn Htb Hok. exists c, n, tb, t, v.
  assert (view s.(mdb) t v) as Hv by (by eexists r, RR, post).
  split; [|done]. split; [done|]. by exists t, v.
Qed.

Lemma s_cursor1_table : at_table s_cursor1 [].
Proof.
  eapply (at_table_make _ _ _ _ _ _ _ (0, O)); [vm_compute; reflexivity..|].
  split; [by vm_compute|]. split; [done|]. split; constructor.
Qed.

Lemma s_rows_table : at_table s_rows rows1.
Proof.
  eapply (at_table_make _ _ _ _ _ _ _ (0, O)); [vm_compute; reflexivity..|].
  split; [by vm_compute|]. split; [done|]. split; [|by repeat constructor].
  repeat (apply List.Forall_cons; [split; [unfold in_s; cbn [fst]; lia|by vm_compute]|]). constructor.
Qed.

Example scan_complete_witness : exists s', scan 3 100 s_rows = Some (rows1, s') /\ s'.(mdb) = s_rows.(mdb).
Proof.
  destruct s_rows_table as (c & n & tb & t & v & Hp & Hok & _).
  apply (scan_complete s_rows 100 c n tb rows1 3 Hp Hok). vm_compute. lia.
Defined.

Example insert_found_witness :
  exists c n tb t v rc s', points s_rows 100 c n tb /\ c.(mc).(mc_txn) = Some t /\
    sqlite3BtreeInsert 40 48 0 false 4 100 None 2 [9; 9; 7; 7] 2 1 s_rows = Some (errmap rc, s') /\
    if rc =? 0 then
      exists c' tb' s'', points s' 100 c' n tb' /\ table_ok tb' (ins 2 [9; 9; 0] rows1) /\
        upd s_rows.(mdb) s'.(mdb) t (set_table v n tb') /\
        sqlite3BtreeMovetoUnpacked false 4 100 None 2 s' = Some ((SQLITE_OK, 0, None), s'') /\
        read_row 100 s'' = Some ((2, [9; 9; 0]), s'')
    else same s_rows.(mdb) s'.(mdb).
Proof.
  destruct s_rows_table as (c & n & tb & t & v & Hp & Hok & Ht & Hv & Htb).
  destruct (insert_found 40 48 0 false 4 s_rows 100 c n tb t v rows1 None 2 [9; 9; 7; 7] 2 1 Hp Hok Ht Hv Htb
    ltac:(unfold in_s; lia) ltac:(lia) ltac:(lia) ltac:(lia)) as (s' & Hrun & HW).
  eexists c, n, tb, t, v, _, s'. exact (conj Hp (conj Ht (conj Hrun HW))).
Defined.

(** an insertion with a zeroed tail works on a block of memory that holds
    the tail too, but is undefined on a block of the [nData] bytes the caller
    promises, since mdb_cursor_put copies nData+nZero bytes from it; and the
    rows 1 and -1 are scanned in this order, the order of the unsigned
    rowids. *)
Theorem entry_error_paths :
  let tail bs := sqlite3BtreeInsert 40 48 0 false 4 100 None 5 bs 2 3 in
  fst <$> (_ ← tail [1; 2; 7; 7; 7]; scan 2 100) s_cursor1 = Some [(5, [1; 2; 0; 0; 0])] /\
  tail [1; 2] s_cursor1 = None /\
  fst <$> (_ ← put_row (-1) [1]; _ ← put_row 1 [2]; scan 3 100) s_cursor1 = Some [(1, [2]); (-1, [1])].
Proof. repeat split; vm_compute; reflexivity. Qed.
