(* ===== verification/Heap.v ===== *)
(** * Allocations that may fail

    The part of the allocator the data structures of this development use:
    whether the next allocations succeed, and how many blocks are in use. *)

From S2P Require Import Prelude.

(** The allocator: which of the next allocations fail, and the number of
    blocks in use. *)
Record heap := Heap { fails : list bool; live : Z }.

Definition malloc (hp : heap) : bool * heap :=
  match hp.(fails) with
  | true :: f => (false, Heap f hp.(live))
  | _ :: f => (true, Heap f (hp.(live) + 1))
  | [] => (true, Heap [] (hp.(live) + 1))
  end.

Definition free (hp : heap) : heap := Heap hp.(fails) (hp.(live) - 1).

Lemma malloc_facts hp ok hp' : malloc hp = (ok, hp') ->
  live hp' = live hp + (if ok then 1 else 0) /\ (fails hp = [] -> ok = true /\ fails hp' = []).
Proof.
  unfold malloc. destruct (fails hp) as [|[] f] eqn:E; intros [= <- <-]; cbn; (split; [lia|done]).
Qed.

