(* ===== verification/Bitvec.v ===== *)
(** * Sets of page numbers (bitvec.c)

    A [Bitvec] of size [iSize] holds numbers from 1 to [iSize]: as a bitmap
    when they fit one node, as a hash table with linear probing while they are
    few, and otherwise as 62 smaller nodes.  The functions change the object
    through a pointer; here they return it.  Every allocation may fail. *)

From S2P Require Import Prelude Mem Heap.

(** ** Data *)

Definition BITVEC_SZ : Z := 512.
(** Three [u32] fields in front, pointers of 8 bytes. *)
Definition BITVEC_USIZE : Z := (BITVEC_SZ - 3 * 4) / 8 * 8.
Definition BITVEC_SZELEM : Z := 8.
Definition BITVEC_NELEM : Z := BITVEC_USIZE / 1.
Definition BITVEC_NBIT : Z := BITVEC_NELEM * BITVEC_SZELEM.
Definition BITVEC_NINT : Z := BITVEC_USIZE / 4.
Definition BITVEC_MXHASH : Z := BITVEC_NINT / 2.
Definition BITVEC_HASH (x : Z) : Z := (x * 1) mod BITVEC_NINT.
Definition BITVEC_NPTR : Z := BITVEC_USIZE / 8.

(** The struct with its union; [iSize] and [iDivisor] tell which member of the
    union is in use. *)
Inductive Bitvec : Type :=
  | mkBitvec (iSize nSet iDivisor : Z) (u : bv_union)
with bv_union : Type :=
  | aBitmap (l : list Z)
  | aHash (l : list Z)
  | apSub (l : list (option Bitvec)).

Definition iSize (p : Bitvec) : Z := let '(mkBitvec n _ _ _) := p in n.
Definition nSet (p : Bitvec) : Z := let '(mkBitvec _ n _ _) := p in n.
Definition iDivisor (p : Bitvec) : Z := let '(mkBitvec _ _ d _) := p in d.
Definition u (p : Bitvec) : bv_union := let '(mkBitvec _ _ _ u) := p in u.

(** ** Operations *)

Definition cells (n : Z) : list Z := replicate (Z.to_nat n) 0.

(** Zeroed memory, read as the member that [iSize] selects. *)
Definition sqlite3BitvecCreate (iSize : Z) (hp : heap) : option Bitvec * heap :=
  let '(ok, hp) := malloc hp in
  if (ok : bool) then
    (Some (mkBitvec iSize 0 0
      (if iSize <=? BITVEC_NBIT then aBitmap (cells BITVEC_NELEM) else aHash (cells BITVEC_NINT))), hp)
  else (None, hp).

(** [while( p->u.aHash[h] )] of the test; [h] starts at the hash of [i-1]. *)
Fixpoint test_probe (fuel : nat) (l : list Z) (h i : Z) : option bool :=
  match fuel with
  | O => None
  | S fuel =>
      v ← rd l h;
      if v =? 0 then Some false
      else if v =? i then Some true
      else test_probe fuel l ((h + 1) mod BITVEC_NINT) i
  end.

Definition NPROBE : nat := Z.to_nat BITVEC_NINT.

Definition rd_sub (l : list (option Bitvec)) (i : Z) : option (option Bitvec) :=
  if decide (0 <= i) then l !! Z.to_nat i else None.

(** The loop of the test, from [i--] on. *)
Fixpoint test_at (fuel : nat) (p : Bitvec) (i : Z) : option bool :=
  match fuel with
  | O => None
  | S fuel =>
      let '(mkBitvec iSize _ iDivisor u) := p in
      if negb (iDivisor =? 0) then
        match u with
        | apSub l =>
            o ← rd_sub l (i / iDivisor);
            match o with
            | Some q => test_at fuel q (i mod iDivisor)
            | None => Some false
            end
        | _ => None
        end
      else if iSize <=? BITVEC_NBIT then
        match u with
        | aBitmap l =>
            b ← rd l (i / BITVEC_SZELEM);
            Some (negb (Z.land b (Z.shiftl 1 (Z.land i (BITVEC_SZELEM - 1))) =? 0))
        | _ => None
        end
      else
        match u with
        | aHash l => test_probe NPROBE l (BITVEC_HASH i) (i + 1)
        | _ => None
        end
  end.

(** A size below 2^32 splits four times; see [wf_depth]. *)
Definition DEPTH : nat := 9.

Definition sqlite3BitvecTest (p : option Bitvec) (i : Z) : option bool :=
  match p with
  | None => Some false
  | Some p => if (iSize p <? i) || (i =? 0) then Some false else test_at DEPTH p (i - 1)
  end.

(** The do-loop of the set: [None] in the result if [i] is there already,
    otherwise the first free slot. *)
Fixpoint set_probe (fuel : nat) (l : list Z) (h i : Z) : option (option Z) :=
  match fuel with
  | O => None
  | S fuel =>
      v ← rd l h;
      if v =? i then Some None
      else
        let h := if BITVEC_NINT <=? h + 1 then 0 else h + 1 in
        v ← rd l h;
        if v =? 0 then Some (Some h) else set_probe fuel l h i
  end.

Definition wr (l : list Z) (i x : Z) : option (list Z) :=
  _ ← rd l i; Some (<[Z.to_nat i := x]> l).

(** [for(j=0; j<BITVEC_NINT; j++)] after the table was split. *)
Definition set_all (set : Bitvec -> Z -> heap -> option (Z * Bitvec * heap)) :
    list Z -> Z * Bitvec * heap -> option (Z * Bitvec * heap) :=
  fix go vs st :=
    match vs with
    | [] => Some st
    | v :: vs =>
        let '(rc, p, hp) := st in
        if v =? 0 then go vs (rc, p, hp)
        else '(rc', p, hp) ← set p v hp; go vs (Z.lor rc rc', p, hp)
    end.

(** [BITVEC_NPTR] is a [size_t], so the sum is one of 64 bits. *)
Definition split_size (iSize : Z) : Z := u32 (u64 (iSize + BITVEC_NPTR - 1) / BITVEC_NPTR).

(** The object after [memset] and the new divisor. *)
Definition split (p : Bitvec) : Bitvec :=
  mkBitvec (iSize p) (nSet p) (split_size (iSize p)) (apSub (replicate (Z.to_nat BITVEC_NPTR) None)).

(** From [i--] on; the recursive calls start again at the top. *)
Fixpoint set_at (fuel : nat) (p : Bitvec) (i : Z) (hp : heap) : option (Z * Bitvec * heap) :=
  match fuel with
  | O => None
  | S fuel =>
      let '(mkBitvec iSize nSet iDivisor u) := p in
      if (BITVEC_NBIT <? iSize) && negb (iDivisor =? 0) then
        match u with
        | apSub l =>
            let bin := i / iDivisor in
            o ← rd_sub l bin;
            let '(o, hp) :=
              match o with Some q => (Some q, hp) | None => sqlite3BitvecCreate iDivisor hp end in
            match o with
            | None => Some (SQLITE_NOMEM, p, hp)
            | Some q =>
                '(rc, q, hp) ← set_at fuel q (i mod iDivisor) hp;
                Some (rc, mkBitvec iSize nSet iDivisor (apSub (<[Z.to_nat bin := Some q]> l)), hp)
            end
        | _ => None
        end
      else if iSize <=? BITVEC_NBIT then
        match u with
        | aBitmap l =>
            b ← rd l (i / BITVEC_SZELEM);
            l ← wr l (i / BITVEC_SZELEM)
              (u8 (Z.lor b (Z.shiftl 1 (Z.land i (BITVEC_SZELEM - 1)))));
            Some (SQLITE_OK, mkBitvec iSize nSet iDivisor (aBitmap l), hp)
        | _ => None
        end
      else
        match u with
        | aHash l =>
            let h := BITVEC_HASH i in
            let i := i + 1 in
            let set_end h :=
              l ← wr l h i; Some (SQLITE_OK, mkBitvec iSize (u32 (nSet + 1)) iDivisor (aHash l), hp) in
            let rehash h :=
              if BITVEC_MXHASH <=? nSet then
                let '(ok, hp) := malloc hp in
                if (ok : bool) then
                  let set p v hp := set_at fuel p (v - 1) hp in
                  '(rc, p, hp) ← set (split p) i hp;
                  '(rc, p, hp) ← set_all set l (rc, p, hp);
                  Some (rc, p, free hp)
                else Some (SQLITE_NOMEM, p, hp)
              else set_end h in
            v ← rd l h;
            if v =? 0 then
              if nSet <? BITVEC_NINT - 1 then set_end h else rehash h
            else
              r ← set_probe NPROBE l h i;
              match r with None => Some (SQLITE_OK, p, hp) | Some h => rehash h end
        | _ => None
        end
  end.

Definition sqlite3BitvecSet (p : option Bitvec) (i : Z) (hp : heap)
    : option (Z * option Bitvec * heap) :=
  match p with
  | None => Some (SQLITE_OK, None, hp)
  | Some p => '(rc, p, hp) ← set_at DEPTH p (i - 1) hp; Some (rc, Some p, hp)
  end.

(** [while( p->u.aHash[h] )] of the clear. *)
Fixpoint free_slot (fuel : nat) (l : list Z) (h : Z) : option Z :=
  match fuel with
  | O => None
  | S fuel =>
      v ← rd l h;
      if v =? 0 then Some h
      else free_slot fuel l (if BITVEC_NINT <=? h + 1 then 0 else h + 1)
  end.

(** The table rebuilt without [i], and the number of its entries. *)
Fixpoint rebuild (vs : list Z) (i : Z) (nSet : Z) (l : list Z) : option (Z * list Z) :=
  match vs with
  | [] => Some (nSet, l)
  | v :: vs =>
      if negb (v =? 0) && negb (v =? i) then
        h ← free_slot NPROBE l (BITVEC_HASH (v - 1));
        l ← wr l h v;
        rebuild vs i (u32 (nSet + 1)) l
      else rebuild vs i nSet l
  end.

Fixpoint clear_at (fuel : nat) (p : Bitvec) (i : Z) : option Bitvec :=
  match fuel with
  | O => None
  | S fuel =>
      let '(mkBitvec iSize nSet iDivisor u) := p in
      if negb (iDivisor =? 0) then
        match u with
        | apSub l =>
            let bin := i / iDivisor in
            o ← rd_sub l bin;
            match o with
            | None => Some p
            | Some q =>
                q ← clear_at fuel q (i mod iDivisor);
                Some (mkBitvec iSize nSet iDivisor (apSub (<[Z.to_nat bin := Some q]> l)))
            end
        | _ => None
        end
      else if iSize <=? BITVEC_NBIT then
        match u with
        | aBitmap l =>
            b ← rd l (i / BITVEC_SZELEM);
            l ← wr l (i / BITVEC_SZELEM)
              (u8 (Z.land b (Z.lnot (Z.shiftl 1 (Z.land i (BITVEC_SZELEM - 1))))));
            Some (mkBitvec iSize nSet iDivisor (aBitmap l))
        | _ => None
        end
      else
        match u with
        | aHash l =>
            '(n, l) ← rebuild l (i + 1) 0 (cells BITVEC_NINT);
            Some (mkBitvec iSize n iDivisor (aHash l))
        | _ => None
        end
  end.

Definition sqlite3BitvecClear (p : option Bitvec) (i : Z) : option (option Bitvec) :=
  match p with
  | None => Some None
  | Some p => p ← clear_at DEPTH p (i - 1); Some (Some p)
  end.

(** The heap after the object and its parts are freed. *)
Fixpoint sqlite3BitvecDestroy (p : Bitvec) (hp : heap) : option heap :=
  let '(mkBitvec _ _ iDivisor u) := p in
  if negb (iDivisor =? 0) then
    match u with
    | apSub l =>
        hp ← (fix go l hp :=
          match l with
          | [] => Some hp
          | None :: l => go l hp
          | Some q :: l => hp ← sqlite3BitvecDestroy q hp; go l hp
          end) l hp;
        Some (free hp)
    | _ => None
    end
  else Some (free hp).

Definition sqlite3BitvecSize (p : Bitvec) : Z := iSize p.

(** ** Probing

    [slot v k] is the [k]-th slot tried for the number [v]. *)

Definition slot (v : Z) (k : nat) : Z := (v - 1 + Z.of_nat k) mod BITVEC_NINT.

Lemma slot_range v k : 0 <= slot v k < BITVEC_NINT.
Proof. apply Z.mod_pos_bound. reflexivity. Qed.

Lemma slot_0 v : BITVEC_HASH (v - 1) = slot v 0.
Proof. unfold BITVEC_HASH, slot. f_equal. lia. Qed.

Lemma slot_S v k : (slot v k + 1) mod BITVEC_NINT = slot v (S k).
Proof. unfold slot. rewrite Z.add_mod_idemp_l by done. f_equal. lia. Qed.

Lemma slot_S_if v k :
  (if BITVEC_NINT <=? slot v k + 1 then 0 else slot v k + 1) = slot v (S k).
Proof.
  rewrite <- slot_S. pose proof (slot_range v k). zcase.
  - replace (slot v k + 1) with BITVEC_NINT by lia. reflexivity.
  - rewrite Z.mod_small by lia. done.
Qed.

(** Every slot is tried. *)
Lemma slot_onto v h : 0 <= h < BITVEC_NINT -> exists k, (k < NPROBE)%nat /\ slot v k = h.
Proof.
  intros Hh. exists (Z.to_nat ((h - (v - 1)) mod BITVEC_NINT)).
  pose proof (Z.mod_pos_bound (h - (v - 1)) BITVEC_NINT eq_refl) as Hb.
  split; [unfold NPROBE; lia|]. unfold slot. rewrite Z2Nat.id, Z.add_mod_idemp_r; [|done|lia].
  replace (v - 1 + (h - (v - 1))) with h by lia. by apply Z.mod_small.
Qed.

Definition table (l : list Z) : Prop := length l = NPROBE.

Lemma rd_slot l v k : table l -> exists x, rd l (slot v k) = Some x.
Proof.
  intros Hl. unfold rd. pose proof (slot_range v k). rewrite decide_True by lia.
  apply lookup_lt_is_Some_2. unfold table, NPROBE in Hl. lia.
Qed.

(** The first slot tried for [v] whose content is in [P]. *)
Definition first (P : Z -> Prop) (l : list Z) (v : Z) (k : nat) (x : Z) : Prop :=
  rd l (slot v k) = Some x /\ P x /\
  forall k', (k' < k)%nat -> exists y, rd l (slot v k') = Some y /\ ~ P y.

Lemma first_exists (P : Z -> Prop) `{forall x, Decision (P x)} l v h z :
  table l -> rd l h = Some z -> P z -> exists k x, (k < NPROBE)%nat /\ first P l v k x.
Proof.
  intros Hl Hz HP.
  assert (0 <= h < BITVEC_NINT) as Hh.
  { unfold rd in Hz. case_decide; [|done]. apply lookup_lt_Some in Hz. unfold table, NPROBE in Hl. lia. }
  destruct (slot_onto v h Hh) as (k & Hk & <-).
  assert (forall m, (m <= k)%nat -> (exists k x, (k < NPROBE)%nat /\ first P l v k x) \/
    forall k', (k' < m)%nat -> exists y, rd l (slot v k') = Some y /\ ~ P y) as HA.
  { induction m as [|m IH]; intros Hm; [right; intros; lia|].
    destruct (IH ltac:(lia)) as [IH' | IH']; [by left|].
    destruct (rd_slot l v m Hl) as [x Hx]. destruct (decide (P x)) as [Hs | Hs].
    - left. exists m, x. split; [lia|done].
    - right. intros k' Hk'. destruct (decide (k' = m)) as [->|]; [|apply IH'; lia]. by exists x. }
  destruct (HA k ltac:(lia)) as [? | HB]; [done|]. by exists k, z.
Qed.

(** The probe for [v] meets a free slot or [v] itself. *)
Definition stops (l : list Z) (v : Z) : nat -> Z -> Prop := first (fun x => x = 0 \/ x = v) l v.

Lemma stops_ne v y : ~ (y = 0 \/ y = v) -> y <> 0 /\ y <> v.
Proof. intros Hn. split; intros ->; apply Hn; [by left|by right]. Qed.

Lemma test_probe_stops l v k x : v <> 0 -> stops l v k x -> forall fuel m,
  (m <= k < m + fuel)%nat -> test_probe fuel l (slot v m) v = Some (bool_decide (x = v)).
Proof.
  intros Hv (Hx & Hor & Hbefore). induction fuel as [|fuel IH]; intros m Hm; [lia|]. cbn [test_probe].
  destruct (decide (m = k)) as [->|Hne].
  - rewrite Hx. cbn [mbind option_bind]. destruct (Z.eqb_spec x 0) as [->|Hx0].
    + rewrite bool_decide_eq_false_2 by lia. done.
    + destruct Hor as [? | ->]; [lia|]. by rewrite Z.eqb_refl, bool_decide_eq_true_2.
  - destruct (Hbefore m ltac:(lia)) as (y & Hy & [H0 H1]%stops_ne). rewrite Hy. cbn [mbind option_bind].
    rewrite (proj2 (Z.eqb_neq _ _) H0), (proj2 (Z.eqb_neq _ _) H1), slot_S. apply IH. lia.
Qed.

Lemma set_probe_stops l v k x : v <> 0 -> stops l v k x -> forall fuel m,
  (m <= k < m + fuel)%nat -> (m < k \/ x = v)%nat ->
  set_probe fuel l (slot v m) v = Some (if bool_decide (x = v) then None else Some (slot v k)).
Proof.
  intros Hv (Hx & Hor & Hbefore). induction fuel as [|fuel IH]; intros m Hm Hmk; [lia|]. cbn [set_probe].
  destruct (decide (m = k)) as [->|Hne].
  - destruct Hmk as [? | ->]; [lia|]. rewrite Hx. cbn [mbind option_bind].
    by rewrite Z.eqb_refl, bool_decide_eq_true_2.
  - destruct (Hbefore m ltac:(lia)) as (y & Hy & [H0 H1]%stops_ne). rewrite Hy. cbn [mbind option_bind].
    rewrite (proj2 (Z.eqb_neq _ _) H1), slot_S_if. destruct (decide (S m = k)) as [<-|Hne'].
    + rewrite Hx. cbn [mbind option_bind]. destruct (Z.eqb_spec x 0) as [->|Hx0].
      * rewrite bool_decide_eq_false_2 by lia. done.
      * apply IH; [lia|]. right. by destruct Hor.
    + destruct (Hbefore (S m) ltac:(lia)) as (z & Hz & [Hz0 _]%stops_ne). rewrite Hz. cbn [mbind option_bind].
      rewrite (proj2 (Z.eqb_neq _ _) Hz0). apply IH; lia.
Qed.


Lemma free_slot_first l v k : first (fun x => x = 0) l v k 0 -> forall fuel m,
  (m <= k < m + fuel)%nat -> free_slot fuel l (slot v m) = Some (slot v k).
Proof.
  intros (Hx & _ & Hbefore). induction fuel as [|fuel IH]; intros m Hm; [lia|]. cbn [free_slot].
  destruct (decide (m = k)) as [->|Hne].
  - by rewrite Hx.
  - destruct (Hbefore m ltac:(lia)) as (y & Hy & H0). rewrite Hy. cbn [mbind option_bind].
    rewrite (proj2 (Z.eqb_neq _ _) H0), slot_S_if. apply IH. lia.
Qed.

(** ** The hash table *)

(** The number of slots in use. *)
Fixpoint count (l : list Z) : Z :=
  match l with [] => 0 | x :: l => (if x =? 0 then 0 else 1) + count l end.

(** No free slot is met on the way to [v]. *)
Definition stored (l : list Z) (v : Z) : Prop :=
  exists k, rd l (slot v k) = Some v /\
    forall k', (k' < k)%nat -> exists y, rd l (slot v k') = Some y /\ y <> 0.

Definition hash_ok (l : list Z) (n : Z) (S : Z -> Prop) : Prop :=
  table l /\ n = count l /\ n < BITVEC_NINT /\
  (forall v, v ∈ l -> v <> 0 -> stored l v) /\ (forall v, S v <-> v ∈ l /\ v <> 0).

Lemma rd_elem l h x : rd l h = Some x -> x ∈ l.
Proof. unfold rd. case_decide; [|done]. apply list_elem_of_lookup_2. Qed.

Lemma count_bounds l : 0 <= count l <= Z.of_nat (length l).
Proof. induction l as [|x l IH]; cbn [count length]; [lia|]. destruct (x =? 0); lia. Qed.

Lemma count_insert l i v : l !! i = Some 0 -> v <> 0 -> count (<[i := v]> l) = count l + 1.
Proof.
  intros Hi Hv. revert i Hi. induction l as [|x l IH]; intros [|i] Hi; [done..| |]; cbn in *.
  - injection Hi as ->. rewrite (proj2 (Z.eqb_neq _ _) Hv). cbn. lia.
  - rewrite IH by done. lia.
Qed.

Lemma count_full l : ~ 0 ∈ l -> count l = Z.of_nat (length l).
Proof.
  induction l as [|x l IH]; intros Hn; cbn [count length]; [done|].
  apply not_elem_of_cons in Hn as [Hx Hn]. rewrite IH by done.
  destruct (Z.eqb_spec x 0); [congruence|lia].
Qed.

Lemma count_cells n : count (cells n) = 0.
Proof. unfold cells. induction (Z.to_nat n) as [|m IH]; [done|]. exact IH. Qed.

Lemma free_exists l : table l -> count l < BITVEC_NINT -> exists h, rd l h = Some 0.
Proof.
  intros Hl Hc. destruct (decide (0 ∈ l)) as [[i Hi]%list_elem_of_lookup_1|Hn].
  - exists (Z.of_nat i). by rewrite rd_nat.
  - apply count_full in Hn. unfold table, NPROBE in Hl. lia.
Qed.

Lemma wr_some l i x v : rd l i = Some x -> wr l i v = Some (<[Z.to_nat i := v]> l).
Proof. intros Hr. unfold wr. by rewrite Hr. Qed.

Lemma rd_insert l i x v j : rd l i = Some x ->
  rd (<[Z.to_nat i := v]> l) j = if decide (j = i) then Some v else rd l j.
Proof.
  unfold rd. intros Hi. case_decide as Hi0; [|done]. destruct (decide (j = i)) as [->|Hne].
  - rewrite decide_True by done. apply list_lookup_insert_eq. by eapply lookup_lt_Some.
  - case_decide; [|done]. apply list_lookup_insert_ne. lia.
Qed.

(** An entry put into the first free slot on its way. *)
Lemma hash_insert l n S v k : hash_ok l n S -> 1 <= v -> n + 1 < BITVEC_NINT ->
  first (fun x => x = 0) l v k 0 ->
  wr l (slot v k) v = Some (<[Z.to_nat (slot v k) := v]> l) /\
  hash_ok (<[Z.to_nat (slot v k) := v]> l) (n + 1) (fun j => j = v \/ S j).
Proof.
  intros (Hl & Hn & Hlt & Hst & HS) Hv Hn1 (Hk & _ & Hb). split; [by eapply wr_some|].
  pose proof Hk as Hi. unfold rd in Hi. case_decide as Hk0; [|done].
  split; [unfold table; by rewrite length_insert|]. split; [rewrite count_insert; [lia|done|lia]|]. split; [done|].
  assert (forall w, w <> 0 -> stored l w -> stored (<[Z.to_nat (slot v k) := v]> l) w) as Hkeep.
  { intros w Hw (m & Hm & Hmb). exists m. rewrite (rd_insert _ _ _ _ _ Hk). split.
    - case_decide as E; [|done]. rewrite E, Hk in Hm. congruence.
    - intros k' Hk'. rewrite (rd_insert _ _ _ _ _ Hk). case_decide; [exists v; split; [done|lia]|by apply Hmb]. }
  assert (stored (<[Z.to_nat (slot v k) := v]> l) v) as Hv'.
  { exists k. rewrite (rd_insert _ _ _ _ _ Hk), decide_True by done. split; [done|].
    intros k' Hk'. rewrite (rd_insert _ _ _ _ _ Hk). case_decide; [exists v; split; [done|lia]|by apply Hb]. }
  assert (forall w, w ∈ <[Z.to_nat (slot v k) := v]> l -> w = v \/ w ∈ l) as Hin.
  { intros w [i Hw]%list_elem_of_lookup_1. apply list_lookup_insert_Some in Hw as [(_ & -> & _) | [_ Hw]];
      [by left|right; by eapply list_elem_of_lookup_2]. }
  split.
  - intros w [-> | Hw]%Hin Hw0; [done|]. apply Hkeep; [done|]. by apply Hst.
  - intros w. rewrite HS. split.
    + intros [-> | [Hw Hw0]].
      * split; [|lia]. eapply list_elem_of_lookup_2, list_lookup_insert_eq. by eapply lookup_lt_Some.
      * split; [|done]. destruct (Hkeep w Hw0 (Hst _ Hw Hw0)) as (m & Hm & _). by eapply rd_elem.
    + intros [[-> | Hw]%Hin Hw0]; [by left|right; done].
Qed.

(** Whether the probe for [v] ends at [v]. *)
Lemma stops_elem l n S v k x : hash_ok l n S -> v <> 0 -> stops l v k x -> x = v <-> S v.
Proof.
  intros (_ & _ & _ & Hst & HS) Hv (Hk & Hx & Hb). rewrite HS. split.
  - intros ->. split; [by eapply rd_elem|done].
  - intros [Hin _]. destruct (Hst v Hin Hv) as (m & Hm & Hmb).
    destruct (lt_eq_lt_dec m k) as [[Hmk | ->]|Hmk].
    + destruct (Hb m Hmk) as (y & Hy & [_ Hyv]%stops_ne). rewrite Hm in Hy. congruence.
    + rewrite Hm in Hk. congruence.
    + destruct (Hmb k Hmk) as (y & Hy & Hy0). rewrite Hk in Hy. destruct Hx; congruence.
Qed.

Lemma hash_ok_stops l n S v : hash_ok l n S -> exists k x, (k < NPROBE)%nat /\ stops l v k x.
Proof.
  intros (Hl & -> & Hlt & _). destruct (free_exists l Hl Hlt) as [h Hh].
  eapply first_exists; [apply _|done|exact Hh|by left].
Qed.

Lemma hash_ok_ext l n S S' : (forall j, S j <-> S' j) -> hash_ok l n S -> hash_ok l n S'.
Proof. intros HE (? & ? & ? & ? & HS). repeat (split; [done|]). intros v. by rewrite <- HE. Qed.

Lemma hash_ok_cells : hash_ok (cells BITVEC_NINT) 0 (fun _ => False).
Proof.
  assert (forall v, v ∈ cells BITVEC_NINT -> v = 0) as Hz by (intros v; unfold cells; by intros [-> _]%elem_of_replicate).
  split; [done|]. split; [by rewrite count_cells|]. split; [done|]. split.
  - intros v Hv ?. by apply Hz in Hv.
  - intros v. split; [done|]. by intros [Hv%Hz ?].
Qed.

(** ** Well-formed objects

    [wf d p S]: [p] holds the numbers in [S]; [d] bounds the depth of the
    tree below [p]. *)

Definition bit_of (l : list Z) (i : Z) : bool :=
  Z.testbit (default 0 (rd l (i / BITVEC_SZELEM))) (i mod BITVEC_SZELEM).

Definition bitmap_ok (l : list Z) (n : Z) (S : Z -> Prop) : Prop :=
  Z.of_nat (length l) = BITVEC_NELEM /\ bytes_ok l /\
  forall j, 1 <= j <= n -> S j <-> bit_of l (j - 1) = true.

Fixpoint wf (d : nat) (p : Bitvec) (S : Z -> Prop) : Prop :=
  is_u32 (iSize p) /\ iSize p <= BITVEC_NBIT * BITVEC_NPTR ^ Z.of_nat d /\
  (forall j, S j -> 1 <= j <= iSize p) /\
  match u p, d with
  | aBitmap l, _ => iSize p <= BITVEC_NBIT /\ iDivisor p = 0 /\ bitmap_ok l (iSize p) S
  | aHash l, _ => BITVEC_NBIT < iSize p /\ iDivisor p = 0 /\ hash_ok l (nSet p) S
  | apSub l, O => False
  | apSub l, Datatypes.S d =>
      BITVEC_NBIT < iSize p /\ iDivisor p = split_size (iSize p) /\ Z.of_nat (length l) = BITVEC_NPTR /\
      forall bin o, l !! bin = Some o ->
        let S' j := 1 <= j <= iDivisor p /\ S (Z.of_nat bin * iDivisor p + j) in
        match o with
        | None => forall j, ~ S' j
        | Some q => iSize q = iDivisor p /\ wf d q S'
        end
  end.

Lemma wf_ext d p S S' : (forall j, S j <-> S' j) -> wf d p S -> wf d p S'.
Proof.
  revert p S S'. induction d as [|d IH]; intros p S S' HE (H1 & H2 & H3 & H4);
    (split; [done|]; split; [done|]; split; [intros j Hj; by apply H3, HE|]);
    destruct (u p) as [l|l|l]; try done.
  1,3: destruct H4 as (A & B & C & D & E); repeat (split; [done|]); intros j Hj; rewrite <- HE; by apply E.
  1,2: destruct H4 as (A & B & C); repeat (split; [done|]); by eapply hash_ok_ext.
  destruct H4 as (A & B & C & D). repeat (split; [done|]). intros bin o Ho. specialize (D bin o Ho).
  cbn zeta in *. destruct o as [q|].
  - destruct D as [Hq Hw]. split; [done|]. eapply IH; [|exact Hw]. intros j. cbn. by rewrite HE.
  - intros j [Hj Hs]. apply (D j). by rewrite HE.
Qed.

(** The divisor of a node that is split, and what it does to a number. *)
Lemma split_size_eq n : is_u32 n -> split_size n = (n + 61) / 62.
Proof.
  intros Hn. unfold split_size. change BITVEC_NPTR with 62.
  rewrite (wrap_u_small 64) by zlia. rewrite wrap_u_small by zlia. f_equal. lia.
Qed.

Lemma split_facts n d : is_u32 n -> BITVEC_NBIT < n -> n <= BITVEC_NBIT * BITVEC_NPTR ^ Z.of_nat (S d) ->
  let D := split_size n in
  is_u32 D /\ 0 < D /\ D <= BITVEC_NBIT * BITVEC_NPTR ^ Z.of_nat d /\ n <= D * BITVEC_NPTR.
Proof.
  intros Hn Hlt Hle. cbn zeta. rewrite split_size_eq by done.
  rewrite Nat2Z.inj_succ, Z.pow_succ_r in Hle by lia. change BITVEC_NPTR with 62 in *.
  set (P := 62 ^ Z.of_nat d) in *. change BITVEC_NBIT with 3968 in *. clearbody P.
  split; [zlia|]. split; [zlia|]. split; zlia.
Qed.

Lemma bin_facts n D j : 0 < D -> n <= D * BITVEC_NPTR -> 1 <= j <= n ->
  0 <= (j - 1) / D < BITVEC_NPTR /\ 0 <= (j - 1) mod D < D /\ (j - 1) / D * D + ((j - 1) mod D + 1) = j.
Proof.
  intros HD Hn Hj. change BITVEC_NPTR with 62 in *. pose proof (Z.mod_pos_bound (j - 1) D HD).
  pose proof (Z.div_mod (j - 1) D ltac:(lia)). split; [|lia].
  split; [apply Z.div_pos; lia|]. apply Z.div_lt_upper_bound; lia.
Qed.

(** ** Bits of the bitmap *)

Lemma mask_eq i : Z.shiftl 1 (Z.land i (BITVEC_SZELEM - 1)) = 2 ^ (i mod BITVEC_SZELEM).
Proof.
  change (BITVEC_SZELEM - 1) with (2 ^ 3 - 1). rewrite land_ones_mod by lia.
  rewrite Z.shiftl_1_l. reflexivity.
Qed.

Lemma rd_byte_of l n j : Z.of_nat (length l) = BITVEC_NELEM -> n <= BITVEC_NBIT -> 1 <= j <= n ->
  exists b, rd l ((j - 1) / BITVEC_SZELEM) = Some b /\ Z.testbit b ((j - 1) mod BITVEC_SZELEM) = bit_of l (j - 1).
Proof.
  intros Hl Hn Hj. assert (exists b, rd l ((j - 1) / BITVEC_SZELEM) = Some b) as [b Hb].
  { unfold rd. change BITVEC_NBIT with 3968 in Hn. change BITVEC_NELEM with 496 in Hl.
    change BITVEC_SZELEM with 8. rewrite decide_True by zlia. apply lookup_lt_is_Some_2. zlia. }
  exists b. split; [done|]. unfold bit_of. by rewrite Hb.
Qed.

Lemma bit_mod_range i : 0 <= i mod BITVEC_SZELEM < 8.
Proof. by apply Z.mod_pos_bound. Qed.

Lemma test_mask b i : negb (Z.land b (Z.shiftl 1 (Z.land i (BITVEC_SZELEM - 1))) =? 0) = Z.testbit b (i mod BITVEC_SZELEM).
Proof.
  pose proof (bit_mod_range i). rewrite mask_eq, land_pow2 by lia.
  destruct (Z.testbit b (i mod BITVEC_SZELEM)); [|done].
  rewrite (proj2 (Z.eqb_neq _ _)); [done|]. apply Z.pow_nonzero; lia.
Qed.

(** Storing a byte whose bits differ from the old one's at one place. *)
Lemma bitmap_update l n S j b b' x : bitmap_ok l n S -> n <= BITVEC_NBIT -> 1 <= j <= n ->
  rd l ((j - 1) / BITVEC_SZELEM) = Some b -> is_u8 b' ->
  (forall k, 0 <= k < 8 ->
     Z.testbit b' k = if k =? (j - 1) mod BITVEC_SZELEM then (x : bool) else Z.testbit b k) ->
  exists l', wr l ((j - 1) / BITVEC_SZELEM) b' = Some l' /\
    bitmap_ok l' n (fun i => if decide (i = j) then x = true else S i).
Proof.
  intros (Hl & Hok & HS) Hn Hj Hb Hb' Hbits. eexists. split; [by eapply wr_some|].
  split; [by rewrite length_insert|]. split; [by apply Forall_insert|].
  intros i Hi. unfold bit_of. rewrite (rd_insert _ _ _ _ _ Hb).
  assert (i = j <-> (i - 1) / 8 = (j - 1) / 8 /\ (i - 1) mod 8 = (j - 1) mod 8) as Hij by zlia.
  pose proof (bit_mod_range (i - 1)) as Hr. change BITVEC_SZELEM with 8 in *.
  destruct (decide ((i - 1) / 8 = (j - 1) / 8)) as [E|E]; cbn [default].
  - rewrite Hbits by done. destruct (Z.eqb_spec ((i - 1) mod 8) ((j - 1) mod 8)) as [E2|E2].
    + rewrite decide_True by tauto. done.
    + rewrite decide_False by tauto. rewrite HS by done. unfold bit_of. change BITVEC_SZELEM with 8. by rewrite E, Hb.
  - rewrite decide_False by tauto. by apply HS.
Qed.

Lemma bit_of_cells n i : bit_of (cells n) i = false.
Proof.
  unfold bit_of, rd. case_decide; [|apply Z.bits_0].
  destruct (cells n !! Z.to_nat (i / BITVEC_SZELEM)) as [z|] eqn:E; [|apply Z.bits_0].
  apply lookup_replicate in E as [-> _]. apply Z.bits_0.
Qed.

(** ** Testing *)

Lemma rd_sub_bin (l : list (option Bitvec)) i : Z.of_nat (length l) = BITVEC_NPTR -> 0 <= i < BITVEC_NPTR ->
  exists o, rd_sub l i = Some o /\ l !! Z.to_nat i = Some o.
Proof.
  intros Hl Hi. unfold rd_sub. rewrite decide_True by lia.
  destruct (lookup_lt_is_Some_2 l (Z.to_nat i)) as [o Ho]; [lia|]. by exists o.
Qed.

Lemma test_at_wf d : forall fuel p S j, wf d p S -> 1 <= j <= iSize p -> (d < fuel)%nat ->
  exists b, test_at fuel p (j - 1) = Some b /\ (b = true <-> S j).
Proof.
  induction d as [|d IH]; intros [|fuel] [n m D un] S j (Hn & Hle & HS & Hu) Hj Hf; try lia;
    cbn [iSize u iDivisor nSet test_at] in *; destruct un as [l|l|l].
  1,4: destruct Hu as (Hnb & -> & Hbm); pose proof Hbm as (Hl & Hok & HSb);
    destruct (rd_byte_of l n j Hl Hnb Hj) as (b & Hb & Hbit);
    cbn [Z.eqb negb]; destruct (Z.leb_spec n BITVEC_NBIT); [|lia]; rewrite Hb; cbn [mbind option_bind];
    eexists; split; [reflexivity|]; rewrite test_mask, Hbit; symmetry; by apply HSb.
  1,3: destruct Hu as (Hnb & -> & Hh); destruct (hash_ok_stops _ _ _ j Hh) as (k & x & Hk & Hs);
    cbn [Z.eqb negb]; destruct (Z.leb_spec n BITVEC_NBIT); [lia|];
    rewrite slot_0; replace (j - 1 + 1) with j by lia;
    eexists; split; [apply (test_probe_stops _ _ k x); [lia|exact Hs|lia]|];
    rewrite bool_decide_eq_true; eapply stops_elem; [exact Hh|lia|exact Hs].
  - done.
  - destruct Hu as (Hnb & -> & Hl & Hbins). pose proof (split_facts n d Hn Hnb Hle) as (HDu & HD0 & HDle & HDn).
    cbn zeta in *. set (D := split_size n) in *. clearbody D.
    destruct (bin_facts n D j HD0 HDn Hj) as (Hbin & Hmod & Hjeq).
    rewrite (proj2 (Z.eqb_neq D 0)) by lia. cbn [negb].
    destruct (rd_sub_bin l _ Hl Hbin) as (o & Ho & Ho'). rewrite Ho. cbn [mbind option_bind].
    specialize (Hbins _ _ Ho'). rewrite Z2Nat.id in Hbins by lia. destruct o as [q|].
    + destruct Hbins as [Hq Hw]. destruct (IH fuel q _ ((j - 1) mod D + 1) Hw ltac:(lia) ltac:(lia)) as (b & Hb & HbS).
      replace ((j - 1) mod D + 1 - 1) with ((j - 1) mod D) in Hb by lia. exists b. split; [done|].
      rewrite HbS, Hjeq. split; [by intros [_ ?]|]. intros ?. split; [lia|done].
    + exists false. split; [done|]. split; [done|]. intros HSj. exfalso.
      apply (Hbins ((j - 1) mod D + 1)). rewrite Hjeq. split; [lia|done].
Qed.

(** ** Blocks of memory *)

Fixpoint blocks (p : Bitvec) : Z :=
  let '(mkBitvec _ _ _ u) := p in
  match u with
  | apSub l =>
      1 + (fix go l := match l with
                       | [] => 0
                       | None :: l => go l
                       | Some q :: l => blocks q + go l
                       end) l
  | _ => 1
  end.

Definition sub_blocks (l : list (option Bitvec)) : Z :=
  foldr (fun o n => from_option blocks 0 o + n) 0 l.

Lemma blocks_sub n m D l : blocks (mkBitvec n m D (apSub l)) = 1 + sub_blocks l.
Proof. cbn [blocks]. f_equal. induction l as [|[q|] l IH]; cbn [sub_blocks foldr from_option]; [done| |]; by rewrite IH. Qed.

Lemma sub_blocks_insert l i o q : l !! i = Some o ->
  sub_blocks (<[i := Some q]> l) = sub_blocks l - from_option blocks 0 o + blocks q.
Proof.
  revert i. unfold sub_blocks. induction l as [|x l IH]; intros [|i] Hi; [done..| |].
  - injection Hi as ->. cbn [insert list_insert foldr from_option]. lia.
  - change (<[S i := Some q]> (x :: l)) with (x :: <[i := Some q]> l).
    specialize (IH i Hi). cbn [foldr]. lia.
Qed.

(** A new object is empty. *)
Lemma create_wf d n hp o hp' : is_u32 n -> n <= BITVEC_NBIT * BITVEC_NPTR ^ Z.of_nat d ->
  sqlite3BitvecCreate n hp = (o, hp') ->
  (fails hp = [] -> o <> None /\ fails hp' = []) /\
  match o with
  | Some p => wf d p (fun _ => False) /\ iSize p = n /\ blocks p = 1 /\ live hp' = live hp + 1
  | None => live hp' = live hp
  end.
Proof.
  intros Hn Hle. unfold sqlite3BitvecCreate. destruct (malloc hp) as [ok h] eqn:E.
  destruct (malloc_facts _ _ _ E) as [Hl Hf]. destruct ok; intros [= <- <-].
  2: split; [intros Hnil; by destruct (Hf Hnil)|lia].
  split; [intros Hnil; by destruct (Hf Hnil)|].
  assert (wf d (mkBitvec n 0 0 (if n <=? BITVEC_NBIT then aBitmap (cells BITVEC_NELEM) else aHash (cells BITVEC_NINT)))
    (fun _ => False)) as Hw.
  { destruct (Z.leb_spec n BITVEC_NBIT); destruct d; (split; [done|]; split; [done|]; split; [done|]);
      cbn [u iSize iDivisor nSet]; (split; [done|]; split; [done|]).
    3,4: exact hash_ok_cells.
    all: split; [done|]; split; [by apply Forall_replicate|]; intros j Hj; by rewrite bit_of_cells. }
  split; [done|]. split; [done|]. split; [|lia]. by destruct (n <=? BITVEC_NBIT).
Qed.

(** ** Setting *)

Definition is_sub (p : Bitvec) : Prop := exists l, u p = apSub l.

(** What a call that adds the numbers in [A] does: if memory runs out some
    may be missing, and others too, but none is there that was not asked
    for. *)
Record set_out (d : nat) (p : Bitvec) (S A : Z -> Prop) (rc : Z) (hp : heap)
    (p' : Bitvec) (S' : Z -> Prop) (hp' : heap) : Prop := {
  so_wf : wf d p' S';
  so_size : iSize p' = iSize p;
  so_sub : is_sub p -> is_sub p';
  so_rc : rc = SQLITE_OK \/ rc = SQLITE_NOMEM;
  so_sound : forall i, S' i -> S i \/ A i;
  so_exact : rc = SQLITE_OK -> forall i, S i \/ A i -> S' i;
  so_mem : fails hp = [] -> rc = SQLITE_OK /\ fails hp' = [];
  so_live : live hp' - live hp = blocks p' - blocks p }.

Lemma set_out_trans d p S A r hp p1 S1 hp1 B r2 p2 S2 hp2 :
  set_out d p S A r hp p1 S1 hp1 -> set_out d p1 S1 B r2 hp1 p2 S2 hp2 ->
  set_out d p S (fun i => A i \/ B i) (Z.lor r r2) hp p2 S2 hp2.
Proof.
  intros [w1 s1 b1 c1 o1 e1 m1 l1] [w2 s2 b2 c2 o2 e2 m2 l2].
  constructor; [done|by rewrite s2|by auto| | | | |lia].
  - destruct c1 as [-> | ->], c2 as [-> | ->]; cbn; first [by left|by right].
  - intros i [Hi | Hi]%o2; [apply o1 in Hi as [? | ?]|]; tauto.
  - intros E i Hi. assert (r = 0 /\ r2 = 0) as [-> ->] by (destruct c1 as [-> | ->], c2 as [-> | ->]; done).
    apply e2; [done|]. destruct Hi as [Hi | [Hi | Hi]]; [left; apply e1; tauto..|by right].
  - intros Hf. destruct (m1 Hf) as [-> Hf1]. destruct (m2 Hf1) as [-> Hf2]. by split.
Qed.

Definition set_spec (set : Bitvec -> Z -> heap -> option (Z * Bitvec * heap)) (d : nat) (p : Bitvec) (S : Z -> Prop) : Prop :=
  forall j hp, 1 <= j <= iSize p -> exists rc p' S' hp',
    set p j hp = Some (rc, p', hp') /\ set_out d p S (eq j) rc hp p' S' hp'.

Lemma set_all_out d set : (forall p S, wf d p S -> is_sub p -> set_spec set d p S) ->
  forall vs rc p hp S, wf d p S -> is_sub p -> (forall v, v ∈ vs -> v <> 0 -> 1 <= v <= iSize p) ->
  exists r p' S' hp', set_all set vs (rc, p, hp) = Some (Z.lor rc r, p', hp') /\
    set_out d p S (fun v => v ∈ vs /\ v <> 0) r hp p' S' hp'.
Proof.
  intros Hset. induction vs as [|v vs IH]; intros rc p hp S Hw Hsub Hr; cbn [set_all].
  - exists 0, p, S, hp. rewrite Z.lor_0_r. split; [done|]. constructor; try done; try lia; [by left|intros i ?; by left|].
    intros _ i [? | [Hn _]]; [done|]. by apply elem_of_nil in Hn.
  - destruct (Z.eqb_spec v 0) as [->|Hv].
    + destruct (IH rc p hp S Hw Hsub) as (r & p' & S' & hp' & Hrun & [w1 s1 b1 c1 o1 e1 m1 l1]).
      { intros v Hin. apply Hr. by right. }
      exists r, p', S', hp'. split; [done|]. constructor; try done.
      * intros i [? | [? ?]]%o1; [by left|right]. split; [by right|done].
      * intros E i [? | [[-> | ?]%elem_of_cons ?]]; apply e1; try done; [by left|by right].
    + destruct (Hset p S Hw Hsub v hp) as (r & p1 & S1 & hp1 & Hrun & Ho); [apply Hr; [left|done]|].
      rewrite Hrun. cbn [mbind option_bind].
      destruct (IH (Z.lor rc r) p1 hp1 S1 (so_wf _ _ _ _ _ _ _ _ _ Ho) (so_sub _ _ _ _ _ _ _ _ _ Ho Hsub))
        as (r2 & p2 & S2 & hp2 & Hrun2 & Ho2).
      { intros w Hin. rewrite (so_size _ _ _ _ _ _ _ _ _ Ho). apply Hr. by right. }
      exists (Z.lor r r2), p2, S2, hp2. rewrite Z.lor_assoc. split; [done|].
      destruct (set_out_trans _ _ _ _ _ _ _ _ _ _ _ _ _ _ Ho Ho2) as [w1 s1 b1 c1 o1 e1 m1 l1].
      constructor; try done.
      * intros i [? | [<- | [? ?]]]%o1; [by left|right; split; [left|done]|right; split; [by right|done]].
      * intros E i [? | [[-> | ?]%elem_of_cons ?]]; apply e1; try done; [by left|right; by left|right; by right].
Qed.

(** The part a number belongs to, created if it is missing. *)
Lemma get_sub d D o (T : Z -> Prop) hp : is_u32 D -> D <= BITVEC_NBIT * BITVEC_NPTR ^ Z.of_nat d ->
  match o with Some q => iSize q = D /\ wf d q T | None => forall j, ~ T j end ->
  match (match o with Some q => (Some q, hp) | None => sqlite3BitvecCreate D hp end) with
  | (Some q, hp1) => iSize q = D /\ wf d q T /\ (fails hp = [] -> fails hp1 = []) /\
      live hp1 - live hp = blocks q - from_option blocks 0 o
  | (None, hp1) => live hp1 = live hp /\ fails hp <> []
  end.
Proof.
  intros HD Hle Ho. destruct o as [q|].
  - destruct Ho as [Hq Hw]. cbn [from_option]. repeat split; try done. lia.
  - destruct (sqlite3BitvecCreate D hp) as [[q|] hp1] eqn:E;
      destruct (create_wf d D hp _ hp1 HD Hle E) as [Hf Hc].
    + destruct Hc as (Hw & Hs & Hb & Hl). split; [done|]. split.
      { eapply wf_ext; [|exact Hw]. intros j. split; [done|]. apply Ho. }
      split; [intros Hnil; by apply Hf|]. cbn [from_option]. lia.
    + split; [done|]. intros Hnil. by destruct (Hf Hnil).
Qed.

Lemma wf_range d p T j : wf d p T -> T j -> 1 <= j <= iSize p.
Proof. destruct d; intros (_ & _ & HR & _); apply HR. Qed.

Lemma wf_u32 d p T : wf d p T -> is_u32 (iSize p).
Proof. by destruct d; intros (? & _). Qed.

(** [S'] in the part [bin] and [T] elsewhere. *)
Definition patch (D bin : Z) (S' T : Z -> Prop) (i : Z) : Prop :=
  if decide ((i - 1) / D = bin) then S' (i - bin * D) else T i.

Lemma part_div D bin j : 0 < D -> 1 <= j <= D -> (bin * D + j - 1) / D = bin.
Proof. intros HD Hj. symmetry. apply (Z.div_unique_pos _ _ _ (j - 1)); lia. Qed.

(** Replacing one part. *)
Lemma wf_patch d n m D l bin o q S' T : 0 < D -> n <= D * BITVEC_NPTR ->
  wf (Datatypes.S d) (mkBitvec n m D (apSub l)) T -> 0 <= bin -> l !! Z.to_nat bin = Some o ->
  wf d q S' -> iSize q = D -> (forall j, S' j -> bin * D + j <= n) ->
  wf (Datatypes.S d) (mkBitvec n m D (apSub (<[Z.to_nat bin := Some q]> l))) (patch D bin S' T).
Proof.
  intros HD Hn (Hn32 & Hle & HR & Hu) Hbin Ho Hq Hqs Hmax. cbn [iSize u iDivisor nSet] in *.
  destruct Hu as (Hnb & HDeq & Hl & Hb). split; [done|]. split; [done|]. split.
  - intros i. cbn [iSize]. unfold patch. case_decide as E; [|apply HR].
    intros Hi. specialize (Hmax _ Hi). pose proof (wf_range _ _ _ _ Hq Hi). nia.
  - cbn [u iSize iDivisor]. split; [done|]. split; [done|]. split; [by rewrite length_insert|].
    intros b o' Hb'. apply list_lookup_insert_Some in Hb' as [(<- & <- & _) | [Hne Hb']].
    + rewrite Z2Nat.id by done. split; [done|]. eapply wf_ext; [|exact Hq]. intros j. split.
      * intros Hj. pose proof (wf_range _ _ _ _ Hq Hj). split; [lia|]. unfold patch.
        rewrite part_div, decide_True by (done || lia). by replace (bin * D + j - bin * D) with j by lia.
      * intros [Hj Hp]. unfold patch in Hp. rewrite part_div, decide_True in Hp by (done || lia).
        by replace (bin * D + j - bin * D) with j in Hp by lia.
    + assert (forall j, 1 <= j <= D -> patch D bin S' T (Z.of_nat b * D + j) <-> T (Z.of_nat b * D + j)) as HP.
      { intros j Hj. unfold patch. rewrite part_div by done. rewrite decide_False by lia. done. }
      specialize (Hb b o' Hb'). cbn zeta in *. destruct o' as [q'|].
      * destruct Hb as [Hs Hw]. split; [done|]. eapply wf_ext; [|exact Hw]. intros j. cbn. split; intros [? ?]; (split; [done|]); by apply HP.
      * intros j [Hj Hj']. apply (Hb j). split; [done|]. by apply HP.
Qed.

Lemma is_sub_inv p : is_sub p -> exists n m D l, p = mkBitvec n m D (apSub l).
Proof. destruct p as [n m D un]. intros [l Hl]. cbn in Hl. subst un. by eexists _, _, _, _. Qed.

(** A number given to the part it belongs to. *)
Lemma set_sub_out d fuel : (forall p T, wf d p T -> set_spec (fun p j hp => set_at fuel p (j - 1) hp) d p T) ->
  forall p T, wf (Datatypes.S d) p T -> is_sub p ->
  set_spec (fun p j hp => set_at (Datatypes.S fuel) p (j - 1) hp) (Datatypes.S d) p T.
Proof.
  intros IH p T Hw Hsub j hp Hj. destruct (is_sub_inv p Hsub) as (n & m & D & l & ->).
  pose proof Hw as (Hn & Hle & HR & Hu). cbn [iSize u iDivisor nSet set_at] in *.
  destruct Hu as (Hnb & HDeq & Hl & Hbins).
  destruct (split_facts n d Hn Hnb Hle) as (HDu & HD0 & HDle & HDn). rewrite <- HDeq in *. clear HDeq.
  destruct (bin_facts n D j HD0 HDn Hj) as (Hbin & Hmod & Hjeq).
  set (bin := (j - 1) / D) in *. set (j' := (j - 1) mod D + 1) in *.
  destruct (Z.ltb_spec BITVEC_NBIT n); [|lia]. rewrite (proj2 (Z.eqb_neq D 0)) by lia. cbn [negb andb].
  destruct (rd_sub_bin l bin Hl Hbin) as (o & Ho & Ho'). rewrite Ho. cbn [mbind option_bind].
  pose proof (Hbins _ _ Ho') as Hpart. rewrite Z2Nat.id in Hpart by lia. cbn zeta in Hpart.
  pose proof (get_sub d D o _ hp HDu HDle Hpart) as HG.
  destruct (match o with Some q => (Some q, hp) | None => sqlite3BitvecCreate D hp end) as [[q|] hp1].
  - destruct HG as (Hq & Hwq & Hf & Hlive).
    destruct (IH q _ Hwq j' hp1 ltac:(lia)) as (rc & q' & S1 & hp2 & Hrun & [w1 s1 b1 c1 o1 e1 m1 l1]).
    replace (j' - 1) with ((j - 1) mod D) in Hrun by lia. rewrite Hrun. cbn [mbind option_bind].
    eexists rc, _, (patch D bin S1 T), hp2. split; [done|]. constructor.
    + eapply wf_patch; try done; [lia|by rewrite s1|].
      intros i Hi. apply o1 in Hi as [[_ Hi]|<-]; [apply HR in Hi|]; lia.
    + done.
    + intros _. by eexists.
    + done.
    + intros i. unfold patch. case_decide as E; [|by left]. intros [[_ Hi] | Hi]%o1; [left|right; lia].
      by replace (bin * D + (i - bin * D)) with i in Hi by lia.
    + intros E i Hi. unfold patch. case_decide as Eb; [|destruct Hi as [?|<-]; done]. apply e1; [done|].
      destruct Hi as [Hi | <-]; [left|right; lia]. pose proof (HR _ Hi) as Hir.
      pose proof (Z.div_mod (i - 1) D ltac:(lia)). pose proof (Z.mod_pos_bound (i - 1) D HD0). rewrite Eb in *.
      split; [lia|]. by replace (bin * D + (i - bin * D)) with i by lia.
    + intros Hnil. by apply m1, Hf.
    + rewrite !blocks_sub, (sub_blocks_insert _ _ _ _ Ho'). lia.
  - destruct HG as [Hlive Hf]. eexists SQLITE_NOMEM, _, T, hp1. split; [done|].
    constructor; try done; try lia; first [by right|intros i ?; by left|intros Hnil; by destruct (Hf Hnil)].
Qed.

Lemma wf_table d p T l : wf d p T -> u p = aHash l -> BITVEC_NBIT < iSize p /\ iDivisor p = 0 /\ hash_ok l (nSet p) T.
Proof. intros Hw Hu. destruct d; destruct Hw as (_ & _ & _ & Hw); by rewrite Hu in Hw. Qed.

(** The split object is empty. *)
Lemma split_wf d p T l : wf (S d) p T -> u p = aHash l -> wf (S d) (split p) (fun _ => False).
Proof.
  intros Hw Hu. destruct (wf_table _ _ _ _ Hw Hu) as (Hnb & _). destruct Hw as (Hn & Hle & _).
  unfold split. split; [done|]. split; [done|]. split; [done|]. cbn [u iSize iDivisor].
  split; [done|]. split; [done|]. split; [done|]. intros bin o Ho. apply lookup_replicate in Ho as [-> _].
  cbn zeta. by intros j [_ ?].
Qed.

(** The table put into the parts. *)
Lemma rehash_out d fuel p T l : (forall p T, wf d p T -> is_sub p -> set_spec (fun p j hp => set_at fuel p (j - 1) hp) d p T) ->
  wf d p T -> u p = aHash l -> forall hp j, 1 <= j <= iSize p ->
  exists rc p' T' hp', ('(rc, p, hp) ← set_at fuel (split p) (j - 1) hp;
      '(rc, p, hp) ← set_all (fun p v hp => set_at fuel p (v - 1) hp) l (rc, p, hp);
      Some (rc, p, free hp)) = Some (rc, p', free hp') /\ set_out d p T (eq j) rc hp p' T' hp'.
Proof.
  intros IH Hw Hu hp j Hj. destruct (wf_table _ _ _ _ Hw Hu) as (Hnb & _ & _ & _ & _ & _ & HT).
  destruct d as [|d].
  { destruct Hw as (_ & Hle & _). change (BITVEC_NPTR ^ Z.of_nat 0) with 1 in Hle. lia. }
  assert (is_sub (split p)) as Hsub by (by eexists).
  destruct (IH _ _ (split_wf _ _ _ _ Hw Hu) Hsub j hp Hj) as (r1 & p1 & T1 & hp1 & Hrun & Ho).
  rewrite Hrun. cbn [mbind option_bind].
  destruct (set_all_out (S d) _ IH l r1 p1 hp1 T1 (so_wf _ _ _ _ _ _ _ _ _ Ho) (so_sub _ _ _ _ _ _ _ _ _ Ho Hsub))
    as (r2 & p2 & T2 & hp2 & Hrun2 & Ho2).
  { intros v Hv Hv0. rewrite (so_size _ _ _ _ _ _ _ _ _ Ho). change (iSize (split p)) with (iSize p). apply (wf_range _ _ _ _ Hw). by apply HT. }
  erewrite Hrun2. cbn [mbind option_bind]. eexists _, _, T2, hp2. split; [done|].
  destruct (set_out_trans _ _ _ _ _ _ _ _ _ _ _ _ _ _ Ho Ho2) as [w1 s1 b1 c1 o1 e1 m1 l1].
  constructor; try done.
  - intros _. by apply b1.
  - intros i [[] | [-> | Hi]]%o1; [by right|left; by apply HT].
  - intros E i Hi. apply e1; [done|]. right. destruct Hi as [Hi | <-]; [right; by apply HT|by left].
  - rewrite l1. unfold split. rewrite blocks_sub. destruct p as [n m D un]. cbn in Hu. subst un.
    change (sub_blocks _) with 0. cbn [blocks]. lia.
Qed.

Ltac set_out := constructor; try done; try lia; try (by left); try (by right);
  try (intros ? ?; by left); try (by intros [? ?]); try (cbn [blocks]; lia).

(** Nothing to do. *)
Lemma set_noop d p T j hp : wf d p T -> T j -> set_out d p T (eq j) SQLITE_OK hp p T hp.
Proof.
  intros Hw Hj. set_out. by intros _ i [? | <-].
Qed.

(** Memory ran out before anything was changed. *)
Lemma set_nomem d p T j hp hp' : wf d p T -> fails hp <> [] -> live hp' = live hp ->
  set_out d p T (eq j) SQLITE_NOMEM hp p T hp'.
Proof. intros Hw Hf Hl. set_out. Qed.

Lemma set_end_out d n m l T j k hp : wf d (mkBitvec n m 0 (aHash l)) T -> 1 <= j <= n ->
  m + 1 < BITVEC_NINT -> first (fun x => x = 0) l j k 0 ->
  exists p' T', (l ← wr l (slot j k) j; Some (SQLITE_OK, mkBitvec n (u32 (m + 1)) 0 (aHash l), hp))
      = Some (SQLITE_OK, p', hp) /\ set_out d (mkBitvec n m 0 (aHash l)) T (eq j) SQLITE_OK hp p' T' hp.
Proof.
  intros Hw Hj Hm Hk. destruct (wf_table _ _ _ l Hw eq_refl) as (Hnb & _ & Hh).
  cbn [iSize nSet] in *. pose proof Hh as (_ & Hmc & _). pose proof (count_bounds l).
  destruct (hash_insert l m T j k Hh ltac:(lia) Hm Hk) as [Hwr Hh']. rewrite Hwr. cbn [mbind option_bind].
  change BITVEC_NINT with 124 in Hm. rewrite wrap_u_small by zlia.
  eexists _, (fun i => i = j \/ T i). split; [done|]. set_out.
  - destruct d; destruct Hw as (Hn & Hle & HR & _); (split; [done|]; split; [done|]);
      (split; [intros i [-> | Hi]; [done|by apply HR]|done]).
  - intros i [-> | ?]; [by right|by left].
  - intros _ i [? | <-]; [by right|by left].
Qed.

Lemma bitmap_set_out d fuel n m D l T : wf d (mkBitvec n m D (aBitmap l)) T ->
  set_spec (fun p j hp => set_at (S fuel) p (j - 1) hp) d (mkBitvec n m D (aBitmap l)) T.
Proof.
  intros Hw j hp Hj. assert (n <= BITVEC_NBIT /\ D = 0 /\ bitmap_ok l n T) as (Hnb & -> & Hbm)
    by (destruct d; apply Hw).
  cbn [iSize set_at] in *. destruct (Z.ltb_spec BITVEC_NBIT n); [lia|]. destruct (Z.leb_spec n BITVEC_NBIT); [|lia].
  cbn [andb]. pose proof Hbm as (Hl & Hok & _). destruct (rd_byte_of l n j Hl Hnb Hj) as (b & Hb & _). rewrite Hb.
  cbn [mbind option_bind]. pose proof (rd_byte _ _ _ Hok Hb) as Hb8. pose proof (bit_mod_range (j - 1)) as Hmod.
  rewrite mask_eq.
  destruct (bitmap_update l n T j b (u8 (Z.lor b (2 ^ ((j - 1) mod BITVEC_SZELEM)))) true Hbm Hnb Hj Hb) as (l' & Hwr & Hbm').
  { by apply wrap_u_range. }
  { intros k Hk. unfold wrap_u. rewrite Z.mod_pow2_bits_low by lia. rewrite Z.lor_spec, Z.pow2_bits_eqb by lia.
    rewrite (Z.eqb_sym k). destruct (_ =? k); [apply Bool.orb_true_r|apply Bool.orb_false_r]. }
  rewrite Hwr. cbn [mbind option_bind]. eexists SQLITE_OK, _, (fun i => if decide (i = j) then true = true else T i), hp.
  split; [done|]. set_out.
  - destruct d; destruct Hw as (Hn & Hle & HR & _); (split; [done|]; split; [done|]);
      (split; [intros i; case_decide; [intros _; subst i; exact Hj|apply HR]|done]).
  - intros i. case_decide; [intros _; by right|by left].
  - intros _ i. case_decide as E; [done|]. by intros [? | <-].
Qed.

Lemma hash_set_out d fuel n m D l T :
  (forall p T, wf d p T -> is_sub p -> set_spec (fun p j hp => set_at fuel p (j - 1) hp) d p T) ->
  wf d (mkBitvec n m D (aHash l)) T ->
  set_spec (fun p j hp => set_at (S fuel) p (j - 1) hp) d (mkBitvec n m D (aHash l)) T.
Proof.
  intros IH Hw j hp Hj. destruct (wf_table _ _ _ l Hw eq_refl) as (Hnb & HD & Hh).
  cbn [iSize iDivisor nSet] in *. subst D.
  assert (forall k, first (fun x => x = 0) l j k 0 -> exists rc p' T' hp',
    (if BITVEC_MXHASH <=? m then
       let '(ok, hp) := malloc hp in
       if (ok : bool) then
         '(rc, p, hp) ← set_at fuel (split (mkBitvec n m 0 (aHash l))) (j - 1) hp;
         '(rc, p, hp) ← set_all (fun p v hp => set_at fuel p (v - 1) hp) l (rc, p, hp);
         Some (rc, p, free hp)
       else Some (SQLITE_NOMEM, mkBitvec n m 0 (aHash l), hp)
     else l ← wr l (slot j k) j; Some (SQLITE_OK, mkBitvec n (u32 (m + 1)) 0 (aHash l), hp))
    = Some (rc, p', hp') /\ set_out d (mkBitvec n m 0 (aHash l)) T (eq j) rc hp p' T' hp') as Hre.
  { intros k Hk. destruct (Z.leb_spec BITVEC_MXHASH m) as [Hmx|Hmx].
    - destruct (malloc hp) as [ok hp1] eqn:E. destruct (malloc_facts _ _ _ E) as [Hl Hf]. destruct ok.
      + destruct (rehash_out d fuel _ T l IH Hw eq_refl hp1 j Hj) as (rc & p' & T' & hp' & Hrun & [w1 s1 b1 c1 o1 e1 m1 l1]).
        rewrite Hrun. eexists _, _, T', _. split; [done|]. constructor; try done.
        * intros Hnil. apply m1. by apply Hf.
        * unfold free. cbn [live]. lia.
      + eexists _, _, T, hp1. split; [done|]. apply set_nomem; [done| |lia]. intros Hnil. by destruct (Hf Hnil).
    - destruct (set_end_out d n m l T j k hp Hw Hj) as (p' & T' & Hrun & Ho); [change BITVEC_MXHASH with 62 in Hmx; change BITVEC_NINT with 124; lia|done|].
      rewrite Hrun. by eexists _, _, T', hp. }
  cbn [set_at]. destruct (Z.ltb_spec BITVEC_NBIT n); [|lia]. destruct (Z.leb_spec n BITVEC_NBIT); [lia|].
  cbn [andb negb Z.eqb]. rewrite slot_0. replace (j - 1 + 1) with j by lia.
  destruct (hash_ok_stops l m T j Hh) as (k & x & Hk & Hs). pose proof Hs as (Hx & Hor & Hb).
  assert (x <> j -> first (fun x => x = 0) l j k 0) as Hfree.
  { intros Hne. destruct Hor as [-> | ?]; [|done]. split; [done|]. split; [done|].
    intros k' Hk'. destruct (Hb k' Hk') as (y & Hy & [? _]%stops_ne). by exists y. }
  pose proof (stops_elem l m T j k x Hh ltac:(lia) Hs) as Hel.
  destruct (rd_slot l j 0 ltac:(apply Hh)) as [v Hv]. rewrite Hv. cbn [mbind option_bind].
  destruct (Z.eqb_spec v 0) as [->|Hv0].
  - assert (k = O) as ->.
    { destruct k as [|k]; [done|]. destruct (Hb O ltac:(lia)) as (y & Hy & [? _]%stops_ne). congruence. }
    rewrite Hv in Hx. injection Hx as <-. specialize (Hfree ltac:(lia)). specialize (Hre O Hfree).
    destruct (Z.ltb_spec m (BITVEC_NINT - 1)); [|exact Hre].
    destruct (set_end_out d n m l T j 0 hp Hw Hj ltac:(lia) Hfree) as (p' & T' & Hrun & Ho).
    rewrite Hrun. by eexists _, _, T', hp.
  - assert (0 < k \/ x = j)%nat as Hk0.
    { destruct k as [|k]; [right|left; lia]. rewrite Hv in Hx. injection Hx as ->. by destruct Hor. }
    rewrite (set_probe_stops l j k x ltac:(lia) Hs NPROBE 0 ltac:(lia) Hk0). cbn [mbind option_bind].
    case_bool_decide as Exj.
    + eexists _, _, T, hp. split; [done|]. apply set_noop; [done|]. by apply Hel.
    + by apply Hre, Hfree.
Qed.

Definition sets (fuel d : nat) (p : Bitvec) (T : Z -> Prop) : Prop :=
  set_spec (fun p j hp => set_at fuel p (j - 1) hp) d p T.

Lemma set_at_any d :
  (forall fuel p T, (2 * d <= fuel)%nat -> wf d p T -> is_sub p -> sets fuel d p T) ->
  forall fuel p T, (2 * d < fuel)%nat -> wf d p T -> sets fuel d p T.
Proof.
  intros HA [|fuel] [n m D un] T Hf Hw; [lia|]. destruct un as [l|l|l].
  - by apply bitmap_set_out.
  - apply hash_set_out; [|done]. intros p' T' Hw' Hs. apply HA; [lia|done..].
  - apply HA; [lia|done|by eexists].
Qed.

(** Nine steps are enough for any size. *)
Lemma set_at_out d : forall fuel p T, (2 * d < fuel)%nat -> wf d p T -> sets fuel d p T.
Proof.
  induction d as [|d IH]; apply set_at_any; intros fuel p T Hf Hw Hs.
  - destruct (is_sub_inv p Hs) as (n & m & D & l & ->). by destruct Hw as (_ & _ & _ & []).
  - destruct fuel as [|fuel]; [lia|]. apply set_sub_out; [|done|done].
    intros p' T' Hw'. by apply IH; [lia|].
Qed.

(** ** Clearing *)

Lemma first_free l n S v : hash_ok l n S -> exists k, (k < NPROBE)%nat /\ first (fun x => x = 0) l v k 0.
Proof.
  intros (Hl & -> & Hlt & _). destruct (free_exists l Hl Hlt) as [h Hh].
  destruct (first_exists (fun x => x = 0) l v h 0 Hl Hh eq_refl) as (k & x & Hk & Hf).
  pose proof Hf as (_ & -> & _). by exists k.
Qed.

(** The loop that rebuilds the table has room for every entry. *)
Lemma rebuild_ok i : forall vs n l T, hash_ok l n T -> n + count vs < BITVEC_NINT ->
  (forall v, v ∈ vs -> v <> 0 -> 1 <= v) ->
  exists n' l', rebuild vs i n l = Some (n', l') /\
    hash_ok l' n' (fun v => T v \/ (v ∈ vs /\ v <> 0 /\ v <> i)).
Proof.
  induction vs as [|v vs IH]; intros n l T Hh Hroom Hpos; cbn [rebuild].
  - exists n, l. split; [done|]. eapply hash_ok_ext; [|exact Hh].
    intros v. split; [by left|]. by intros [? | [?%elem_of_nil _]].
  - cbn [count] in Hroom. pose proof Hh as (Hl & Hn & _). pose proof (count_bounds l). pose proof (count_bounds vs).
    assert (forall w, w ∈ vs -> w <> 0 -> 1 <= w) as Hpos' by (intros w Hw; apply Hpos; by right).
    destruct (decide (v = 0 \/ v = i)) as [Hskip|Hput].
    + assert (negb (v =? 0) && negb (v =? i) = false) as ->.
      { destruct Hskip as [-> | ->]; [done|]. rewrite Z.eqb_refl. by destruct (_ =? 0). }
      destruct (IH n l T Hh) as (n' & l' & Hrun & Hh'); [destruct (_ =? _); lia|done|].
      exists n', l'. split; [done|]. eapply hash_ok_ext; [|exact Hh']. intros w. rewrite elem_of_cons.
      split; [intros [? | (? & ? & ?)]; [by left|right; by split; [right|]]|].
      intros [? | ([-> | ?] & ? & ?)]; [by left| |by right]. by destruct Hskip.
    + assert (v <> 0 /\ v <> i) as [Hv0 Hvi] by (split; intros ->; apply Hput; [by left|by right]).
      rewrite (proj2 (Z.eqb_neq _ _) Hv0), (proj2 (Z.eqb_neq _ _) Hvi) in *. cbn [negb andb].
      specialize (Hpos v ltac:(left) Hv0) as Hv1.
      destruct (first_free l n T v Hh) as (k & Hk & Hfk). rewrite slot_0.
      rewrite (free_slot_first l v k Hfk NPROBE 0) by lia. cbn [mbind option_bind].
      destruct (hash_insert l n T v k Hh Hv1 ltac:(lia) Hfk) as [Hwr Hh']. rewrite Hwr. cbn [mbind option_bind].
      change BITVEC_NINT with 124 in *. rewrite wrap_u_small by zlia.
      destruct (IH (n + 1) _ _ Hh') as (n' & l' & Hrun & Hh2); [lia|done|].
      exists n', l'. split; [done|]. eapply hash_ok_ext; [|exact Hh2]. intros w. rewrite elem_of_cons.
      split; [intros [[-> | ?] | (? & ? & ?)]; [right; by split; [left|]|by left|right; by split; [right|]]|].
      intros [? | ([-> | ?] & ? & ?)]; [left; by right|left; by left|by right].
Qed.

Lemma bitmap_clear_wf d fuel n m D l T j : wf d (mkBitvec n m D (aBitmap l)) T -> 1 <= j <= n ->
  exists p', clear_at (S fuel) (mkBitvec n m D (aBitmap l)) (j - 1) = Some p' /\
    wf d p' (fun i => T i /\ i <> j) /\ iSize p' = n /\ blocks p' = 1.
Proof.
  intros Hw Hj. assert (n <= BITVEC_NBIT /\ D = 0 /\ bitmap_ok l n T) as (Hnb & -> & Hbm)
    by (destruct d; apply Hw).
  cbn [clear_at Z.eqb negb]. destruct (Z.leb_spec n BITVEC_NBIT); [|lia].
  pose proof Hbm as (Hl & Hok & _). destruct (rd_byte_of l n j Hl Hnb Hj) as (b & Hb & _). rewrite Hb.
  cbn [mbind option_bind]. pose proof (rd_byte _ _ _ Hok Hb) as Hb8. pose proof (bit_mod_range (j - 1)) as Hmod.
  rewrite mask_eq.
  destruct (bitmap_update l n T j b (u8 (Z.land b (Z.lnot (2 ^ ((j - 1) mod BITVEC_SZELEM))))) false Hbm Hnb Hj Hb)
    as (l' & Hwr & Hbm').
  { by apply wrap_u_range. }
  { intros k Hk. unfold wrap_u. rewrite Z.mod_pow2_bits_low by lia.
    rewrite Z.land_spec, Z.lnot_spec, Z.pow2_bits_eqb by lia.
    rewrite (Z.eqb_sym k). destruct (_ =? k); [apply Bool.andb_false_r|apply Bool.andb_true_r]. }
  rewrite Hwr. cbn [mbind option_bind]. eexists. split; [done|]. split; [|done].
  apply (wf_ext _ _ (fun i => if decide (i = j) then false = true else T i)).
  - intros i. case_decide; naive_solver.
  - destruct d; destruct Hw as (Hn & Hle & HR & _); (split; [done|]; split; [done|]);
      (split; [intros i; case_decide; [done|apply HR]|done]).
Qed.

Lemma hash_clear_wf d fuel n m D l T j : wf d (mkBitvec n m D (aHash l)) T -> 1 <= j <= n ->
  exists p', clear_at (S fuel) (mkBitvec n m D (aHash l)) (j - 1) = Some p' /\
    wf d p' (fun i => T i /\ i <> j) /\ iSize p' = n /\ blocks p' = 1.
Proof.
  intros Hw Hj. destruct (wf_table _ _ _ l Hw eq_refl) as (Hnb & HD & Hh). cbn [iSize iDivisor nSet] in *. subst D.
  cbn [clear_at Z.eqb negb]. destruct (Z.leb_spec n BITVEC_NBIT); [lia|].
  replace (j - 1 + 1) with j by lia. pose proof Hh as (_ & Hm & Hlt & _ & HT).
  destruct (rebuild_ok j l 0 _ _ hash_ok_cells ltac:(lia)) as (n' & l' & Hrun & Hh').
  { intros v Hv Hv0. apply (wf_range _ _ _ _ Hw). by apply HT. }
  rewrite Hrun. cbn [mbind option_bind]. eexists. split; [done|]. split; [|done].
  assert (hash_ok l' n' (fun i => T i /\ i <> j)) as Hh2.
  { eapply hash_ok_ext; [|exact Hh']. intros i. rewrite HT. naive_solver. }
  destruct d; destruct Hw as (Hn & Hle & HR & _); (split; [done|]; split; [done|]);
    (split; [intros i [? _]; by apply HR|done]).
Qed.

Lemma clear_at_wf d : forall fuel p T j, wf d p T -> 1 <= j <= iSize p -> (d < fuel)%nat ->
  exists p', clear_at fuel p (j - 1) = Some p' /\ wf d p' (fun i => T i /\ i <> j) /\
    iSize p' = iSize p /\ blocks p' = blocks p.
Proof.
  induction d as [|d IH]; intros [|fuel] [n m D un] T j Hw Hj Hf; try lia; destruct un as [l|l|l].
  1,4: by apply bitmap_clear_wf.
  1,3: by apply hash_clear_wf.
  - by destruct Hw as (_ & _ & _ & []).
  - pose proof Hw as (Hn & Hle & HR & Hu). cbn [iSize u iDivisor nSet clear_at] in *.
    destruct Hu as (Hnb & HDeq & Hl & Hbins).
    destruct (split_facts n d Hn Hnb Hle) as (HDu & HD0 & HDle & HDn). rewrite <- HDeq in *. clear HDeq.
    destruct (bin_facts n D j HD0 HDn Hj) as (Hbin & Hmod & Hjeq).
    set (bin := (j - 1) / D) in *. set (j' := (j - 1) mod D + 1) in *.
    rewrite (proj2 (Z.eqb_neq D 0)) by lia. cbn [negb].
    destruct (rd_sub_bin l bin Hl Hbin) as (o & Ho & Ho'). rewrite Ho. cbn [mbind option_bind].
    pose proof (Hbins _ _ Ho') as Hpart. rewrite Z2Nat.id in Hpart by lia. cbn zeta in Hpart.
    destruct o as [q|].
    + destruct Hpart as [Hq Hwq].
      destruct (IH fuel q _ j' Hwq ltac:(lia) ltac:(lia)) as (q' & Hrun & Hwq' & Hq' & Hbl).
      replace (j' - 1) with ((j - 1) mod D) in Hrun by lia. rewrite Hrun. cbn [mbind option_bind].
      eexists. split; [done|]. split; [|split; [done|rewrite !blocks_sub, (sub_blocks_insert _ _ _ _ Ho'); cbn [from_option]; lia]].
      eapply wf_ext; [|eapply (wf_patch _ _ _ _ _ bin); [lia|done|exact Hw|lia|exact Ho'|exact Hwq'|lia|]].
      * intros i. unfold patch. case_decide as E.
        -- pose proof (Z.div_mod (i - 1) D ltac:(lia)) as Hdm. pose proof (Z.mod_pos_bound (i - 1) D HD0). rewrite E in Hdm.
           replace (bin * D + (i - bin * D)) with i by lia. split; [intros [[_ ?] ?]; split; [done|lia]|].
           intros [? ?]. split; [split; [lia|done]|lia].
        -- split; [|by intros [? _]]. intros ?. split; [done|]. intros ->. by apply E.
      * intros i [[? Hi] _]. apply HR in Hi. lia.
    + eexists. split; [done|]. split; [|done]. eapply wf_ext; [|exact Hw]. intros i.
      split; [|by intros [? _]]. intros Hi. split; [done|]. intros ->. apply (Hpart j'). split; [lia|].
      by rewrite Hjeq.
Qed.

(** ** Destroying *)

Lemma destroy_wf d : forall p T hp, wf d p T ->
  sqlite3BitvecDestroy p hp = Some (Heap hp.(fails) (hp.(live) - blocks p)).
Proof.
  induction d as [|d IH]; intros [n m D un] T hp Hw; destruct un as [l|l|l].
  1,2,4,5: assert (D = 0) as -> by (destruct Hw as (_ & _ & _ & Hw); apply Hw); done.
  - by destruct Hw as (_ & _ & _ & []).
  - destruct Hw as (Hn & Hle & _ & Hnb & HD & _ & Hbins). cbn [iSize iDivisor] in *.
    destruct (split_facts n d Hn Hnb Hle) as (_ & HD0 & _). rewrite <- HD in HD0. clear HD.
    cbn [sqlite3BitvecDestroy]. rewrite (proj2 (Z.eqb_neq D 0)) by lia. cbn [negb].
    assert (forall l' h, (forall q, Some q ∈ l' -> Some q ∈ l) -> (fix go l hp := match l with
       | [] => Some hp
       | None :: l => go l hp
       | Some q :: l => hp ← sqlite3BitvecDestroy q hp; go l hp
       end) l' h = Some (Heap h.(fails) (h.(live) - sub_blocks l'))) as HL.
    { induction l' as [|[q|] l' IHl]; intros h Hin.
      - destruct h as [f v]. cbn. do 2 f_equal. lia.
      - assert (Some q ∈ l) as [bin Hbin]%list_elem_of_lookup_1 by (apply Hin; left).
        destruct (Hbins _ _ Hbin) as [_ Hwq]. rewrite (IH q _ h Hwq). cbn [mbind option_bind].
        rewrite IHl by (intros q' ?; apply Hin; by right). cbn [fails live]. unfold sub_blocks. cbn [foldr from_option].
        do 2 f_equal. lia.
      - rewrite IHl by (intros q' ?; apply Hin; by right). done. }
    rewrite HL by done. cbn [mbind option_bind]. unfold free. cbn [fails live]. rewrite blocks_sub.
    do 2 f_equal. lia.
Qed.

(** ** Programs *)

Inductive bv_op : Type := OSet (i : Z) | OClear (i : Z).

Definition op_arg (o : bv_op) : Z := match o with OSet i | OClear i => i end.

(** The result codes of the calls to sqlite3BitvecSet, and the final state. *)
Fixpoint run_ops (ops : list bv_op) (p : option Bitvec) (hp : heap) : option (list Z * option Bitvec * heap) :=
  match ops with
  | [] => Some ([], p, hp)
  | OSet i :: ops =>
      '(rc, p, hp) ← sqlite3BitvecSet p i hp;
      '(rcs, p, hp) ← run_ops ops p hp;
      Some (rc :: rcs, p, hp)
  | OClear i :: ops => p ← sqlite3BitvecClear p i; run_ops ops p hp
  end.

Definition ref_ops (ops : list bv_op) (S : gset Z) : gset Z :=
  foldl (fun S o => match o with OSet i => {[i]} ∪ S | OClear i => S ∖ {[i]} end) S ops.

Definition depth4 : nat := 4.

Lemma depth4_ok n : is_u32 n -> n <= BITVEC_NBIT * BITVEC_NPTR ^ Z.of_nat depth4.
Proof. intros [_ Hn]. change (BITVEC_NBIT * BITVEC_NPTR ^ Z.of_nat depth4) with 58632501248. lia. Qed.

Lemma run_ops_wf n : forall ops p T (S : gset Z) hp, wf depth4 p T -> iSize p = n ->
  (forall i, T i -> i ∈ S) -> Forall (fun o => 1 <= op_arg o <= n) ops ->
  exists rcs p' T' hp', run_ops ops (Some p) hp = Some (rcs, Some p', hp') /\ wf depth4 p' T' /\ iSize p' = n /\
    (forall i, T' i -> i ∈ ref_ops ops S) /\
    ((forall i, i ∈ S -> T i) -> Forall (eq SQLITE_OK) rcs -> forall i, i ∈ ref_ops ops S -> T' i) /\
    (fails hp = [] -> Forall (eq SQLITE_OK) rcs) /\
    live hp' - live hp = blocks p' - blocks p.
Proof.
  induction ops as [|[i|i] ops IH]; intros p T S hp Hw Hn HT Hops.
  - exists [], p, T, hp. by repeat (split; [done || lia|]); lia.
  - apply Forall_cons in Hops as [Hi Hops]. cbn [op_arg] in Hi. subst n.
    destruct (set_at_out depth4 DEPTH p T ltac:(unfold depth4, DEPTH; lia) Hw i hp Hi) as (rc & p1 & T1 & hp1 & Hrun & Ho).
    destruct (IH p1 T1 ({[i]} ∪ S) hp1 (so_wf _ _ _ _ _ _ _ _ _ Ho) (so_size _ _ _ _ _ _ _ _ _ Ho))
      as (rcs & p2 & T2 & hp2 & Hrun2 & Hw2 & Hs2 & Hsub2 & Hex2 & Hf2 & Hl2); [|done|].
    { intros x [Hx | <-]%(so_sound _ _ _ _ _ _ _ _ _ Ho); apply elem_of_union;
        [right; by apply HT|left; by apply elem_of_singleton]. }
    exists (rc :: rcs), p2, T2, hp2. cbn [run_ops sqlite3BitvecSet]. rewrite Hrun. cbn [mbind option_bind].
    rewrite Hrun2. split; [done|]. split; [done|]. split; [done|]. split; [done|]. split; [|split].
    + intros HS Hrcs%Forall_cons. destruct Hrcs as [Hrc Hrcs]. apply Hex2; [|done].
      intros x [->%elem_of_singleton | Hx]%elem_of_union; apply (so_exact _ _ _ _ _ _ _ _ _ Ho); auto.
    + intros Hf. destruct (so_mem _ _ _ _ _ _ _ _ _ Ho Hf) as [-> Hf1]. apply List.Forall_cons; [done|]. by apply Hf2.
    + pose proof (so_live _ _ _ _ _ _ _ _ _ Ho). lia.
  - apply Forall_cons in Hops as [Hi Hops]. cbn [op_arg] in Hi. subst n.
    destruct (clear_at_wf depth4 DEPTH p T i Hw Hi ltac:(unfold depth4, DEPTH; lia)) as (p1 & Hrun & Hw1 & Hs1 & Hb1).
    destruct (IH p1 _ (S ∖ {[i]}) hp Hw1 Hs1) as (rcs & p2 & T2 & hp2 & Hrun2 & Hw2 & Hs2 & Hsub2 & Hex2 & Hf2 & Hl2); [|done|].
    { intros x [Hx%HT ?]. apply elem_of_difference. split; [done|]. by intros ?%elem_of_singleton. }
    exists rcs, p2, T2, hp2. cbn [run_ops sqlite3BitvecClear]. rewrite Hrun. cbn [mbind option_bind].
    rewrite Hrun2. split; [done|]. split; [done|]. split; [done|]. split; [done|]. split; [|split; [done|lia]].
    intros HS Hrcs. apply Hex2; [|done]. intros x [Hx Hne]%elem_of_difference. split; [by apply HS|].
    intros ->. by apply Hne, elem_of_singleton.
Qed.

(** C8: A Bitvec implements a set of numbers.  After any sequence of
    sqlite3BitvecSet and sqlite3BitvecClear calls on a new object of any
    32-bit size, the recursion ends, sqlite3BitvecTest answers for every
    32-bit number, and it answers true exactly for the numbers in the
    reference set if all calls succeeded.  Calls fail only if an allocation
    fails; even then no number is reported that is not in the reference set.
    sqlite3BitvecDestroy frees every block that was allocated. *)
Theorem bitvec_refines_set n ops f p hp : is_u32 n -> Forall (fun o => 1 <= op_arg o <= n) ops ->
  sqlite3BitvecCreate n (Heap f 0) = (Some p, hp) ->
  exists rcs p' hp' hp'', run_ops ops (Some p) hp = Some (rcs, Some p', hp') /\
    (forall i, is_u32 i -> exists b, sqlite3BitvecTest (Some p') i = Some b /\
       (b = true -> i ∈ ref_ops ops ∅) /\
       (Forall (eq SQLITE_OK) rcs -> b = bool_decide (i ∈ ref_ops ops ∅))) /\
    (f = [] -> Forall (eq SQLITE_OK) rcs) /\
    sqlite3BitvecSize p' = n /\
    sqlite3BitvecDestroy p' hp' = Some hp'' /\ live hp'' = 0.
Proof.
  intros Hn Hops Hc. destruct (create_wf depth4 n _ _ _ Hn (depth4_ok n Hn) Hc) as [Hf (Hw & Hs & Hb & Hl)].
  destruct (run_ops_wf n ops p _ ∅ hp Hw Hs ltac:(done) Hops) as (rcs & p' & T' & hp' & Hrun & Hw' & Hs' & Hsub & Hex & Hm & Hl').
  assert (forall i : Z, i ∈ (∅ : gset Z) -> False) as He by (intros i; apply not_elem_of_empty).
  specialize (Hex He). eexists rcs, p', hp', _. split; [done|]. split; [|split; [|split; [done|split; [by eapply destroy_wf|cbn in *; lia]]]].
  - intros i Hi. unfold sqlite3BitvecTest. rewrite Hs'. destruct (Z.ltb_spec n i) as [Hni|Hni]; cbn [orb].
    + exists false. split; [done|]. split; [done|]. intros Hrcs. symmetry. apply bool_decide_eq_false_2.
      intros Hin%(Hex Hrcs). apply (wf_range _ _ _ _ Hw') in Hin. lia.
    + destruct (Z.eqb_spec i 0) as [->|Hi0].
      * exists false. split; [done|]. split; [done|]. intros Hrcs. symmetry. apply bool_decide_eq_false_2.
        intros Hin%(Hex Hrcs). apply (wf_range _ _ _ _ Hw') in Hin. lia.
      * destruct (test_at_wf depth4 DEPTH p' T' i Hw') as (b & Hbt & HbT); [unfold in_u in Hi; lia|unfold depth4, DEPTH; lia|].
        exists b. split; [done|]. split; [intros ->; by apply Hsub, HbT|]. intros Hrcs.
        destruct b; symmetry; [apply bool_decide_eq_true_2; by apply Hsub, HbT|apply bool_decide_eq_false_2].
        intros Hin%(Hex Hrcs). by apply HbT in Hin.
  - intros ->. apply Hm. by apply Hf.
Qed.

(** Seventy pages of a large file, which split the table, and one cleared. *)
Definition demo_ops : list bv_op := map (fun k => OSet (Z.of_nat k * 1000 + 1)) (seq 0 70) ++ [OClear 5001].

Example bitvec_refines_set_witness :
  let p := mkBitvec 100000 0 0 (aHash (cells BITVEC_NINT)) in
  exists rcs p' hp' hp'', run_ops demo_ops (Some p) (Heap [] 1) = Some (rcs, Some p', hp') /\
    Forall (eq SQLITE_OK) rcs /\ sqlite3BitvecTest (Some p') 5001 = Some false /\
    sqlite3BitvecTest (Some p') 69001 = Some true /\
    sqlite3BitvecDestroy p' hp' = Some hp'' /\ live hp'' = 0.
Proof.
  destruct (bitvec_refines_set 100000 demo_ops [] _ _ ltac:(unfold in_u; lia)
    ltac:(apply (bool_decide_unpack _); vm_compute; exact I) eq_refl) as (rcs & p' & hp' & hp'' & Hrun & HT & Hok & _ & Hd & Hl).
  specialize (Hok eq_refl). exists rcs, p', hp', hp''. split; [exact Hrun|]. split; [exact Hok|].
  destruct (HT 5001 ltac:(unfold in_u; lia)) as (b & Hb & _ & Hb').
  destruct (HT 69001 ltac:(unfold in_u; lia)) as (b2 & Hb2 & _ & Hb2').
  rewrite Hb, Hb2, (Hb' Hok), (Hb2' Hok). split; [vm_compute; reflexivity|]. split; [vm_compute; reflexivity|].
  exact (conj Hd Hl).
Defined.
