(* ===== verification/RowSet.v ===== *)
(** * Sets of rowids (rowset.c)

    A RowSet collects rowids in a list, and either gives them back in order
    (sqlite3RowSetNext) or answers whether one was there in an earlier batch
    (sqlite3RowSetTest), for which finished batches are kept as a forest of
    search trees.  Entries linked by [pRight] are a list here, those linked as
    a tree a [tree]; every entry is reachable by one pointer only. *)

From Stdlib Require Import Sorted.
From S2P Require Import Prelude Heap.

(** ** Data *)

Definition ROWSET_ALLOCATION_SIZE : Z := 1024.
(** An entry has 24 bytes. *)
Definition ROWSET_ENTRY_PER_CHUNK : Z := (ROWSET_ALLOCATION_SIZE - 8) / 24.
Definition ROWSET_SORTED : Z := 0x01.
Definition ROWSET_NEXT : Z := 0x02.
Definition SIZEOF_ROWSET : Z := 56.

Inductive tree : Type := Leaf | Node (pLeft : tree) (v : Z) (pRight : tree).

(** [pChunk] is the number of chunks on the list; [pLast] is the value of the
    last entry; a [Leaf] in [pForest] is a place without a tree. *)
Record RowSet := mkRowSet {
  pChunk : Z;
  pEntry : list Z;
  pLast : option Z;
  nFresh : Z;
  pForest : list tree;
  rsFlags : Z;
  iBatch : Z }.

Definition has (flags f : Z) : bool := negb (Z.land flags f =? 0).

(** ** Operations *)

Definition sqlite3RowSetInit (N : Z) : RowSet :=
  mkRowSet 0 [] None (u16 ((N - SIZEOF_ROWSET) / 24)) [] ROWSET_SORTED 0.

Definition sqlite3RowSetClear (p : RowSet) (hp : heap) : RowSet * heap :=
  (mkRowSet 0 [] None 0 [] ROWSET_SORTED p.(iBatch), Heap hp.(fails) (hp.(live) - p.(pChunk))).

(** Whether there is an entry, and the chunks and fresh entries left. *)
Definition rowSetEntryAlloc (chunks fresh : Z) (hp : heap) : bool * (Z * Z) * heap :=
  if fresh =? 0 then
    let '(ok, hp) := malloc hp in
    if (ok : bool) then (true, (chunks + 1, u16 (ROWSET_ENTRY_PER_CHUNK - 1)), hp)
    else (false, (chunks, fresh), hp)
  else (true, (chunks, u16 (fresh - 1)), hp).

Definition sqlite3RowSetInsert (p : RowSet) (rowid : Z) (hp : heap) : RowSet * heap :=
  let '(ok, (chunks, fresh), hp) := rowSetEntryAlloc p.(pChunk) p.(nFresh) hp in
  if (ok : bool) then
    let flags :=
      match p.(pLast) with
      | Some last =>
          if has p.(rsFlags) ROWSET_SORTED && (rowid <=? last)
          then Z.land p.(rsFlags) (Z.lnot ROWSET_SORTED) else p.(rsFlags)
      | None => p.(rsFlags)
      end in
    let entries := match p.(pLast) with Some _ => p.(pEntry) ++ [rowid] | None => [rowid] end in
    (mkRowSet chunks entries (Some rowid) fresh p.(pForest) flags p.(iBatch), hp)
  else (p, hp).

Fixpoint rowSetEntryMerge (pA : list Z) : list Z -> list Z :=
  match pA with
  | [] => fun pB => pB
  | a :: pA' =>
      fix go pB :=
        match pB with
        | [] => pA
        | b :: pB' =>
            if a <? b then a :: rowSetEntryMerge pA' pB
            else if b <? a then b :: go pB'
            else rowSetEntryMerge pA' pB
        end
  end.

(** [for(i=0; aBucket[i]; i++)]; [None] beyond the last bucket. *)
Fixpoint bucket_add (pIn : list Z) (aBucket : list (list Z)) : option (list (list Z)) :=
  match aBucket with
  | [] => None
  | [] :: bs => Some (pIn :: bs)
  | b :: bs => bs ← bucket_add (rowSetEntryMerge b pIn) bs; Some ([] :: bs)
  end.

Fixpoint bucket_all (pIn : list Z) (aBucket : list (list Z)) : option (list (list Z)) :=
  match pIn with
  | [] => Some aBucket
  | v :: pIn => bs ← bucket_add [v] aBucket; bucket_all pIn bs
  end.

Definition rowSetEntrySort (pIn : list Z) : option (list Z) :=
  bs ← bucket_all pIn (replicate 40 []);
  Some (foldl rowSetEntryMerge [] bs).

Fixpoint rowSetTreeToList (t : tree) : list Z :=
  match t with
  | Leaf => []
  | Node l v r => rowSetTreeToList l ++ v :: rowSetTreeToList r
  end.

(** The tree and what is left of the list; [iDepth] is at least 1. *)
Fixpoint rowSetNDeepTree (iDepth : nat) (l : list Z) : tree * list Z :=
  match l, iDepth with
  | [], _ => (Leaf, l)
  | _, O => (Leaf, l)
  | v :: l', 1%nat => (Node Leaf v Leaf, l')
  | _, S d =>
      let '(lt, l) := rowSetNDeepTree d l in
      match l with
      | [] => (lt, l)
      | v :: l => let '(rt, l) := rowSetNDeepTree d l in (Node lt v rt, l)
      end
  end.

Fixpoint list_to_tree (fuel iDepth : nat) (p : tree) (pList : list Z) : option tree :=
  match pList, fuel with
  | [], _ => Some p
  | _, O => None
  | v :: pList, S fuel =>
      let '(rt, pList) := rowSetNDeepTree iDepth pList in
      list_to_tree fuel (S iDepth) (Node p v rt) pList
  end.

Definition rowSetListToTree (pList : list Z) : option tree :=
  match pList with
  | [] => None
  | v :: l => list_to_tree (length l) 1 (Node Leaf v Leaf) l
  end.

Definition rowSetToList (p : RowSet) : option RowSet :=
  e ← (if has p.(rsFlags) ROWSET_SORTED then Some p.(pEntry) else rowSetEntrySort p.(pEntry));
  Some (mkRowSet p.(pChunk) e p.(pLast) p.(nFresh) p.(pForest)
    (Z.lor p.(rsFlags) ROWSET_NEXT) p.(iBatch)).

(** The rowid, if there is one. *)
Definition sqlite3RowSetNext (p : RowSet) (hp : heap) : option (option Z * RowSet * heap) :=
  p ← (if has p.(rsFlags) ROWSET_NEXT then Some p else rowSetToList p);
  match p.(pEntry) with
  | v :: l =>
      let p := mkRowSet p.(pChunk) l p.(pLast) p.(nFresh) p.(pForest) p.(rsFlags) p.(iBatch) in
      match l with
      | [] => let '(p, hp) := sqlite3RowSetClear p hp in Some (Some v, p, hp)
      | _ => Some (Some v, p, hp)
      end
  | [] => Some (None, p, hp)
  end.

(** The loop over the forest: the new forest, and the list if no place was
    found for it. *)
Fixpoint forest_add (p : list Z) (forest : list tree) : option (list tree * option (list Z)) :=
  match forest with
  | [] => Some ([], Some p)
  | Leaf :: f => t ← rowSetListToTree p; Some (t :: f, None)
  | t :: f =>
      '(f, o) ← forest_add (rowSetEntryMerge (rowSetTreeToList t) p) f;
      Some (Leaf :: f, o)
  end.

Fixpoint tree_search (t : tree) (iRowid : Z) : bool :=
  match t with
  | Leaf => false
  | Node l v r =>
      if v <? iRowid then tree_search r iRowid
      else if iRowid <? v then tree_search l iRowid
      else true
  end.

(** The entries sorted into the forest, in the first test of a batch. *)
Definition new_batch (p : RowSet) (hp : heap) : option (RowSet * heap) :=
  match p.(pEntry) with
  | [] => Some (p, hp)
  | _ =>
      l ← (if has p.(rsFlags) ROWSET_SORTED then Some p.(pEntry) else rowSetEntrySort p.(pEntry));
      '(f, o) ← forest_add l p.(pForest);
      '(f, (chunks, fresh), hp) ←
        match o with
        | None => Some (f, (p.(pChunk), p.(nFresh)), hp)
        | Some l =>
            let '(ok, cf, hp) := rowSetEntryAlloc p.(pChunk) p.(nFresh) hp in
            if (ok : bool) then t ← rowSetListToTree l; Some (f ++ [t], cf, hp) else Some (f, cf, hp)
        end;
      Some (mkRowSet chunks [] None fresh f (Z.lor p.(rsFlags) ROWSET_SORTED) p.(iBatch), hp)
  end.

(** [iBatch] is an [int] of the caller, converted to the parameter's [u8]. *)
Definition sqlite3RowSetTest (p : RowSet) (iBatch : Z) (iRowid : Z) (hp : heap) : option (bool * RowSet * heap) :=
  let iBatch := u8 iBatch in
  '(p, hp) ←
    (if negb (iBatch =? p.(RowSet.iBatch)) then
       '(p, hp) ← new_batch p hp;
       Some (mkRowSet p.(pChunk) p.(pEntry) p.(pLast) p.(nFresh) p.(pForest) p.(rsFlags) iBatch, hp)
     else Some (p, hp));
  Some (existsb (fun t => tree_search t iRowid) p.(pForest), p, hp).

(** ** Sorted lists *)

Abbreviation sorted := (StronglySorted Z.lt).

Lemma merge_nil_r a : rowSetEntryMerge a [] = a.
Proof. by destruct a. Qed.

Lemma merge_cons a la b lb : rowSetEntryMerge (a :: la) (b :: lb) =
  if a <? b then a :: rowSetEntryMerge la (b :: lb)
  else if b <? a then b :: rowSetEntryMerge (a :: la) lb else rowSetEntryMerge la (b :: lb).
Proof. reflexivity. Qed.

Lemma sorted_cons_inv a l : sorted (a :: l) -> sorted l /\ forall x, x ∈ l -> a < x.
Proof. intros HS. inversion HS as [|? ? HS' HF]; subst. split; [done|]. by rewrite Forall_forall in HF. Qed.

Lemma sorted_cons a l : sorted l -> (forall x, x ∈ l -> a < x) -> sorted (a :: l).
Proof. intros HS HF. constructor; [done|]. by rewrite Forall_forall. Qed.

(** Merging sorted lists gives their union, sorted. *)
Lemma merge_spec pA : forall pB, sorted pA -> sorted pB ->
  sorted (rowSetEntryMerge pA pB) /\ forall x, x ∈ rowSetEntryMerge pA pB <-> x ∈ pA \/ x ∈ pB.
Proof.
  induction pA as [|a la IHA]; [intros pB _ HB; split; [done|]; intros x; set_solver|].
  induction pB as [|b lb IHB]; intros HA HB; [split; [done|]; intros x; set_solver|].
  destruct (sorted_cons_inv _ _ HA) as [HA' Ha]. destruct (sorted_cons_inv _ _ HB) as [HB' Hb].
  rewrite merge_cons. destruct (Z.ltb_spec a b) as [Hab|Hab]; [|destruct (Z.ltb_spec b a) as [Hba|Hba]].
  - destruct (IHA (b :: lb) HA' HB) as [HS HE]. split.
    + apply sorted_cons; [done|]. intros x [Hx | [-> | Hx]%elem_of_cons]%HE; [by apply Ha|done|].
      specialize (Hb x Hx). lia.
    + intros x. rewrite elem_of_cons, HE, !elem_of_cons. tauto.
  - destruct (IHB HA HB') as [HS HE]. split.
    + apply sorted_cons; [done|]. intros x [[-> | Hx]%elem_of_cons | Hx]%HE; [done| |by apply Hb].
      specialize (Ha x Hx). lia.
    + intros x. rewrite elem_of_cons, HE, !elem_of_cons. tauto.
  - assert (a = b) as -> by lia. destruct (IHA (b :: lb) HA' HB) as [HS HE]. split; [done|].
    intros x. rewrite HE, !elem_of_cons. tauto.
Qed.

(** ** Sorting

    The buckets in use are the bits of the number of entries taken. *)

Fixpoint bucket_count (bs : list (list Z)) : Z :=
  match bs with
  | [] => 0
  | b :: bs => (if b is [] then 0 else 1) + 2 * bucket_count bs
  end.

Definition in_buckets (bs : list (list Z)) (x : Z) : Prop := exists b, b ∈ bs /\ x ∈ b.

Lemma bucket_count_bounds bs : 0 <= bucket_count bs < 2 ^ Z.of_nat (length bs).
Proof.
  induction bs as [|b bs IH]; [done|]. cbn [bucket_count length]. rewrite Nat2Z.inj_succ, Z.pow_succ_r by lia.
  destruct b; lia.
Qed.

Lemma in_buckets_cons b bs x : in_buckets (b :: bs) x <-> x ∈ b \/ in_buckets bs x.
Proof.
  unfold in_buckets. split.
  - intros (c & [-> | Hc]%elem_of_cons & Hx); [by left|right; by exists c].
  - intros [Hx | (c & Hc & Hx)]; [exists b; split; [left|done]|exists c; split; [by right|done]].
Qed.

Lemma bucket_add_spec bs : forall p, Forall sorted bs -> sorted p -> p <> [] ->
  bucket_count bs + 1 < 2 ^ Z.of_nat (length bs) ->
  exists bs', bucket_add p bs = Some bs' /\ length bs' = length bs /\ Forall sorted bs' /\
    bucket_count bs' = bucket_count bs + 1 /\ forall x, in_buckets bs' x <-> x ∈ p \/ in_buckets bs x.
Proof.
  induction bs as [|b bs IH]; intros p HF Hp Hne Hc; [by cbn in Hc|].
  apply Forall_cons in HF as [Hb HF]. cbn [bucket_count length] in Hc.
  rewrite Nat2Z.inj_succ, Z.pow_succ_r in Hc by lia. destruct b as [|y b].
  - exists (p :: bs). cbn [bucket_add]. split; [done|]. split; [done|]. split; [by constructor|].
    split; [cbn [bucket_count]; destruct p; [done|lia]|]. intros x. rewrite !in_buckets_cons. set_solver.
  - destruct (merge_spec (y :: b) p Hb Hp) as [HS HE].
    assert (rowSetEntryMerge (y :: b) p <> []) as Hne'.
    { intros E. assert (y ∈ rowSetEntryMerge (y :: b) p) as Hy by (apply HE; left; left). rewrite E in Hy. by apply elem_of_nil in Hy. }
    destruct (IH _ HF HS Hne' ltac:(lia)) as (bs' & Hrun & HL & HF' & Hc' & HE').
    exists ([] :: bs'). cbn [bucket_add]. rewrite Hrun. split; [done|]. split; [cbn; by rewrite HL|].
    split; [by constructor; [constructor|]|]. split; [cbn [bucket_count]; lia|].
    intros x. rewrite !in_buckets_cons, HE', HE. rewrite elem_of_nil. tauto.
Qed.

Lemma bucket_all_spec l : forall bs, Forall sorted bs ->
  bucket_count bs + Z.of_nat (length l) < 2 ^ Z.of_nat (length bs) ->
  exists bs', bucket_all l bs = Some bs' /\ Forall sorted bs' /\
    forall x, in_buckets bs' x <-> x ∈ l \/ in_buckets bs x.
Proof.
  induction l as [|v l IH]; intros bs HF Hc; cbn [bucket_all].
  - exists bs. split; [done|]. split; [done|]. intros x. rewrite elem_of_nil. tauto.
  - cbn [length] in Hc.
    destruct (bucket_add_spec bs [v] HF) as (bs1 & Hrun & HL & HF1 & Hc1 & HE1); [repeat constructor|done|lia|].
    rewrite Hrun. cbn [mbind option_bind].
    destruct (IH bs1 HF1) as (bs2 & Hrun2 & HF2 & HE2); [rewrite HL; lia|].
    exists bs2. split; [done|]. split; [done|]. intros x. rewrite HE2, HE1, list_elem_of_singleton, elem_of_cons. tauto.
Qed.

Lemma merge_all_spec bs : forall p, sorted p -> Forall sorted bs ->
  sorted (foldl rowSetEntryMerge p bs) /\ forall x, x ∈ foldl rowSetEntryMerge p bs <-> x ∈ p \/ in_buckets bs x.
Proof.
  induction bs as [|b bs IH]; intros p Hp HF; cbn [foldl].
  - split; [done|]. intros x. split; [by left|]. intros [? | (b & Hb & _)]; [done|]. by apply elem_of_nil in Hb.
  - apply Forall_cons in HF as [Hb HF]. destruct (merge_spec p b Hp Hb) as [HS HE].
    destruct (IH _ HS HF) as [HS' HE']. split; [done|]. intros x. rewrite HE', HE, in_buckets_cons. tauto.
Qed.

Lemma sort_spec l : Z.of_nat (length l) < 2 ^ 40 ->
  exists l', rowSetEntrySort l = Some l' /\ sorted l' /\ forall x, x ∈ l' <-> x ∈ l.
Proof.
  intros Hl. unfold rowSetEntrySort.
  destruct (bucket_all_spec l (replicate 40 [])) as (bs & Hrun & HF & HE).
  { apply Forall_replicate. constructor. }
  { exact Hl. }
  rewrite Hrun. cbn [mbind option_bind]. destruct (merge_all_spec bs [] ltac:(constructor) HF) as [HS HE'].
  eexists. split; [done|]. split; [done|]. intros x. rewrite HE', HE, elem_of_nil.
  assert (~ in_buckets (replicate 40 []) x) as Hno.
  { intros (b & [-> _]%elem_of_replicate & Hx). by apply elem_of_nil in Hx. }
  tauto.
Qed.

(** ** Trees *)

Lemma ndeep_spec d : forall l t rest, rowSetNDeepTree d l = (t, rest) -> rowSetTreeToList t ++ rest = l.
Proof.
  induction d as [|d IH]; intros [|v l] t rest; cbn [rowSetNDeepTree]; [intros [= <- <-]; done..|].
  destruct d as [|d]; [intros [= <- <-]; done|].
  destruct (rowSetNDeepTree (S d) (v :: l)) as [lt l1] eqn:E1. specialize (IH _ _ _ E1) as H1.
  destruct l1 as [|w l1]; [intros [= <- <-]; done|].
  destruct (rowSetNDeepTree (S d) l1) as [rt l2] eqn:E2. specialize (IH _ _ _ E2) as H2.
  intros [= <- <-]. rewrite <- H1, <- H2. cbn [rowSetTreeToList]. by rewrite <- app_assoc.
Qed.

Lemma list_to_tree_spec fuel : forall d p l, (length l <= fuel)%nat ->
  exists t, list_to_tree fuel d p l = Some t /\ rowSetTreeToList t = rowSetTreeToList p ++ l.
Proof.
  induction fuel as [|fuel IH]; intros d p [|v l] Hl; cbn [length] in Hl; try lia.
  1,2: exists p; cbn; by rewrite app_nil_r.
  cbn [list_to_tree]. destruct (rowSetNDeepTree d l) as [rt l'] eqn:E. apply ndeep_spec in E.
  destruct (IH (S d) (Node p v rt) l') as (t & Hrun & Ht).
  { rewrite <- E, length_app in Hl. lia. }
  exists t. split; [done|]. rewrite Ht. cbn [rowSetTreeToList]. rewrite <- E, <- app_assoc. done.
Qed.

(** Making a tree of a list and a list of the tree gives the list back. *)
Lemma list_tree_list l : l <> [] -> exists t, rowSetListToTree l = Some t /\ rowSetTreeToList t = l.
Proof.
  intros Hl. destruct l as [|v l]; [done|]. cbn [rowSetListToTree].
  destruct (list_to_tree_spec (length l) 1 (Node Leaf v Leaf) l ltac:(lia)) as (t & Hrun & Ht). by exists t.
Qed.

Lemma sorted_app_inv l v r : sorted (l ++ v :: r) ->
  sorted l /\ sorted r /\ (forall x, x ∈ l -> x < v) /\ (forall x, x ∈ r -> v < x).
Proof.
  induction l as [|a l IH]; cbn [app]; intros HS.
  - destruct (sorted_cons_inv _ _ HS) as [HS' HF]. split; [constructor|]. split; [done|]. split; [|done].
    by intros x ?%elem_of_nil.
  - destruct (sorted_cons_inv _ _ HS) as [HS' HF]. destruct (IH HS') as (A & B & C & D). split.
    + apply sorted_cons; [done|]. intros x Hx. apply HF. apply elem_of_app. by left.
    + split; [done|]. split; [|done]. intros x [-> | Hx]%elem_of_cons; [|by apply C].
      apply HF, elem_of_app. right. left.
Qed.

Lemma tree_search_spec t x : sorted (rowSetTreeToList t) -> tree_search t x = true <-> x ∈ rowSetTreeToList t.
Proof.
  induction t as [|l IHl v r IHr]; cbn [tree_search rowSetTreeToList]; [by rewrite elem_of_nil|].
  intros (Sl & Sr & Hl & Hr)%sorted_app_inv. rewrite elem_of_app, elem_of_cons.
  destruct (Z.ltb_spec v x) as [Hvx|Hvx]; [|destruct (Z.ltb_spec x v) as [Hxv|Hxv]].
  - rewrite IHr by done. split; [tauto|]. intros [Hx%Hl | [-> | ?]]; [lia|lia|done].
  - rewrite IHl by done. split; [tauto|]. intros [? | [-> | Hx%Hr]]; [done|lia|lia].
  - split; [intros _; right; left; lia|done].
Qed.

Definition trees_ok (f : list tree) : Prop := Forall (fun t => sorted (rowSetTreeToList t)) f.

Definition in_forest (f : list tree) (x : Z) : Prop := exists t, t ∈ f /\ x ∈ rowSetTreeToList t.

Lemma in_forest_nil x : ~ in_forest [] x.
Proof. by intros (t & Ht%elem_of_nil & _). Qed.

Lemma in_forest_cons t f x : in_forest (t :: f) x <-> x ∈ rowSetTreeToList t \/ in_forest f x.
Proof.
  unfold in_forest. split.
  - intros (c & [-> | Hc]%elem_of_cons & Hx); [by left|right; by exists c].
  - intros [Hx | (c & Hc & Hx)]; [exists t; split; [left|done]|exists c; split; [by right|done]].
Qed.

Lemma in_forest_snoc t f x : in_forest (f ++ [t]) x <-> in_forest f x \/ x ∈ rowSetTreeToList t.
Proof.
  induction f as [|t' f IH]; cbn [app]; rewrite !in_forest_cons; [|rewrite IH; tauto].
  pose proof (in_forest_nil x). tauto.
Qed.

Lemma forest_search f x : trees_ok f -> existsb (fun t => tree_search t x) f = true <-> in_forest f x.
Proof.
  induction f as [|t f IH]; cbn [existsb]; intros HF; [split; [done|intros []%in_forest_nil]|].
  apply Forall_cons in HF as [Ht HF]. by rewrite orb_true_iff, tree_search_spec, IH, in_forest_cons.
Qed.

(** The list goes into an empty place together with the trees before it, or
    all comes back. *)
Lemma forest_add_spec f : forall l, trees_ok f -> sorted l -> l <> [] ->
  exists f' o, forest_add l f = Some (f', o) /\ trees_ok f' /\
    match o with
    | None => forall x, in_forest f' x <-> in_forest f x \/ x ∈ l
    | Some l' => sorted l' /\ l' <> [] /\ (forall x, x ∈ l' <-> in_forest f x \/ x ∈ l) /\
        forall x, ~ in_forest f' x
    end.
Proof.
  induction f as [|t f IH]; intros l HF Hl Hne; cbn [forest_add].
  - exists [], (Some l). split; [done|]. split; [done|]. split; [done|]. split; [done|].
    split; intros x; pose proof (in_forest_nil x); tauto.
  - apply Forall_cons in HF as [Ht HF]. destruct t as [|tl v tr].
    + destruct (list_tree_list l Hne) as (t & Hrun & Ht'). rewrite Hrun. exists (t :: f), None.
      split; [done|]. split; [by constructor; [rewrite Ht'|]|].
      intros x. rewrite !in_forest_cons, Ht'. cbn [rowSetTreeToList]. rewrite elem_of_nil. tauto.
    + set (t := Node tl v tr) in *. destruct (merge_spec (rowSetTreeToList t) l Ht Hl) as [HM HE].
      destruct (IH (rowSetEntryMerge (rowSetTreeToList t) l) HF HM) as (f' & o & Hrun & HF' & Ho).
      { intros E. assert (v ∈ rowSetEntryMerge (rowSetTreeToList t) l) as Hv.
        { apply HE. left. cbn. apply elem_of_app. right. left. }
        rewrite E in Hv. by apply elem_of_nil in Hv. }
      exists (Leaf :: f'), o. rewrite Hrun. split; [done|]. split; [by constructor; [constructor|]|].
      destruct o as [l'|].
      * destruct Ho as (A & B & C & D). split; [done|]. split; [done|]. split.
        -- intros x. rewrite C, HE, in_forest_cons. tauto.
        -- intros x [Hx | Hx]%in_forest_cons; [by apply elem_of_nil in Hx|by apply D in Hx].
      * intros x. rewrite !in_forest_cons, Ho, HE. cbn [rowSetTreeToList]. rewrite elem_of_nil. tauto.
Qed.

(** ** The abstract object *)

Record rows := Rows { pend : gset Z; old : gset Z; batch : Z; reading : bool }.

Inductive rs_op : Type := RInsert (v : Z) | RTest (b v : Z) | RNext.

Inductive rs_out : Type := OutNone | OutTest (found : bool) | OutNext (v : option Z).

(** The least element. *)
Definition least (S : gset Z) : option Z :=
  foldr (fun x m => match m with Some y => Some (Z.min x y) | None => Some x end) None (elements S).

(** What is promised: rowids are only added and tested before the first is
    taken out (and again once all have been taken out), and not taken out
    after a batch has been set aside.  The number of a batch counts modulo
    256. *)
Definition rows_step (s : rows) (o : rs_op) : option (rs_out * rows) :=
  match o with
  | RInsert v =>
      if s.(reading) then None else Some (OutNone, Rows ({[v]} ∪ s.(pend)) s.(old) s.(batch) false)
  | RTest b v =>
      if s.(reading) then None
      else
        let s := if u8 b =? s.(batch) then s else Rows ∅ (s.(old) ∪ s.(pend)) (u8 b) false in
        Some (OutTest (bool_decide (v ∈ s.(old))), s)
  | RNext =>
      if bool_decide (s.(old) = ∅) then
        match least s.(pend) with
        | Some m =>
            let rest := s.(pend) ∖ {[m]} in
            Some (OutNext (Some m), Rows rest s.(old) s.(batch) (negb (bool_decide (rest = ∅))))
        | None => Some (OutNext None, Rows ∅ s.(old) s.(batch) true)
        end
      else None
  end.

Definition rs_step (p : RowSet) (hp : heap) (o : rs_op) : option (rs_out * RowSet * heap) :=
  match o with
  | RInsert v => let '(p, hp) := sqlite3RowSetInsert p v hp in Some (OutNone, p, hp)
  | RTest b v => '(x, p, hp) ← sqlite3RowSetTest p b v hp; Some (OutTest x, p, hp)
  | RNext => '(x, p, hp) ← sqlite3RowSetNext p hp; Some (OutNext x, p, hp)
  end.

Fixpoint rows_run (s : rows) (ops : list rs_op) : option (list rs_out * rows) :=
  match ops with
  | [] => Some ([], s)
  | o :: ops => '(x, s) ← rows_step s o; '(xs, s) ← rows_run s ops; Some (x :: xs, s)
  end.

Fixpoint rs_run (p : RowSet) (hp : heap) (ops : list rs_op) : option (list rs_out * RowSet * heap) :=
  match ops with
  | [] => Some ([], p, hp)
  | o :: ops => '(x, p, hp) ← rs_step p hp o; '(xs, p, hp) ← rs_run p hp ops; Some (x :: xs, p, hp)
  end.

(** [v] is the least element of the sorted list [v :: l]. *)
Lemma least_spec (S : gset Z) m : least S = Some m <-> m ∈ S /\ forall x, x ∈ S -> m <= x.
Proof.
  assert (forall l, match foldr (fun x m => match m with Some y => Some (Z.min x y) | None => Some x end) None l with
    | Some m => m ∈ l /\ forall x, x ∈ l -> m <= x | None => l = [] end) as HL.
  { induction l as [|x l IH]; cbn [foldr]; [done|].
    destruct (foldr _ None l) as [y|]; [|subst l; split; [left|by intros z ->%list_elem_of_singleton]].
    destruct IH as [Hy Hmin]. split.
    - destruct (Z.min_spec x y) as [[_ ->]|[_ ->]]; [left|by right].
    - intros z [-> | Hz]%elem_of_cons; [lia|]. specialize (Hmin z Hz). lia. }
  specialize (HL (elements S)). unfold least. destruct (foldr _ None (elements S)) as [y|].
  - destruct HL as [Hy Hmin]. rewrite elem_of_elements in Hy. split.
    + intros [= <-]. split; [done|]. intros x Hx. apply Hmin. by apply elem_of_elements.
    + intros [Hm Hm']. f_equal. specialize (Hm' y Hy). specialize (Hmin m (proj2 (elem_of_elements _ _) Hm)). lia.
  - split; [done|]. intros [Hm _]. apply elem_of_elements in Hm. rewrite HL in Hm. by apply elem_of_nil in Hm.
Qed.

Lemma least_none (S : gset Z) : least S = None <-> S = ∅.
Proof.
  split; [|by intros ->]. intros HN. apply set_eq. intros x. split; [|by intros ?%not_elem_of_empty].
  intros Hx. exfalso. unfold least in HN. apply elem_of_elements in Hx.
  destruct (elements S) as [|y l]; [by apply elem_of_nil in Hx|]. cbn in HN. by destruct (foldr _ None l).
Qed.

(** ** The object implements it *)

Record rep (L : Z) (p : RowSet) (hp : heap) (n : Z) (s : rows) : Prop := {
  r_flags : 0 <= p.(rsFlags) <= 3;
  r_next : has p.(rsFlags) ROWSET_NEXT = s.(reading);
  r_sorted : has p.(rsFlags) ROWSET_SORTED = true \/ s.(reading) = true -> sorted p.(pEntry);
  r_pend : forall x, x ∈ s.(pend) <-> x ∈ p.(pEntry);
  r_last : s.(reading) = false -> p.(pLast) = last p.(pEntry);
  r_len : s.(reading) = false -> Z.of_nat (length p.(pEntry)) <= n;
  r_trees : trees_ok p.(pForest);
  r_old : forall x, x ∈ s.(old) <-> in_forest p.(pForest) x;
  r_batch : p.(iBatch) = s.(batch);
  r_mem : fails hp = [];
  r_live : live hp = L + p.(pChunk) }.

Ltac flags f := let H := fresh in
  assert (f = 0 \/ f = 1 \/ f = 2 \/ f = 3) as H by lia; destruct H as [H | [H | [H | H]]]; rewrite H in *; clear H.

Lemma alloc_ok L chunks fresh hp : fails hp = [] -> live hp = L + chunks ->
  exists chunks' fresh' hp', rowSetEntryAlloc chunks fresh hp = (true, (chunks', fresh'), hp') /\
    fails hp' = [] /\ live hp' = L + chunks'.
Proof.
  intros Hf Hl. unfold rowSetEntryAlloc. destruct (fresh =? 0); [|by eexists _, _, _].
  destruct (malloc hp) as [ok hp'] eqn:E. destruct (malloc_facts _ _ _ E) as [Hl' Hf'].
  destruct (Hf' Hf) as [-> Hf2]. eexists _, _, _. split; [done|]. split; [done|lia].
Qed.

Lemma last_snoc_sorted l (a v : Z) : sorted l -> last l = Some a -> a < v -> sorted (l ++ [v]).
Proof.
  induction l as [|b l IH]; intros HS HL Hv; [done|]. destruct (sorted_cons_inv _ _ HS) as [HS' HF].
  cbn [app]. apply sorted_cons.
  - destruct l as [|c l]; [repeat constructor|]. apply IH; [done| |done]. exact HL.
  - intros x [Hx | ->%list_elem_of_singleton]%elem_of_app; [by apply HF|].
    destruct l as [|c l]; [cbn in HL; injection HL as ->; done|].
    assert (a ∈ c :: l) as Ha by (apply last_Some_elem_of; exact HL). specialize (HF a Ha). lia.
Qed.

Lemma insert_step L p hp n s v : rep L p hp n s -> s.(reading) = false ->
  exists p' hp', sqlite3RowSetInsert p v hp = (p', hp') /\
    rep L p' hp' (n + 1) (Rows ({[v]} ∪ s.(pend)) s.(old) s.(batch) false).
Proof.
  intros [Hfl Hn Hs Hp Hla Hle Ht Ho Hb Hm Hl] Hr. unfold sqlite3RowSetInsert.
  destruct (alloc_ok L (pChunk p) (nFresh p) hp Hm Hl) as (ch & fr & hp' & Ha & Hm' & Hl').
  rewrite Ha. eexists _, hp'. split; [done|]. specialize (Hla Hr). specialize (Hle Hr). rewrite Hr in *. rewrite Hla.
  destruct (last (pEntry p)) as [a|] eqn:E.
  - assert (pEntry p <> []) as Hne by (by intros E'; rewrite E' in E).
    constructor; cbn [pChunk pEntry pLast nFresh pForest rsFlags iBatch pend old batch reading]; try done.
    + destruct (_ && _); flags (rsFlags p); cbn in *; lia || done.
    + destruct (_ && _); flags (rsFlags p); cbn in *; done.
    + intros [Hs' | ?]; [|done].
      assert (has (rsFlags p) ROWSET_SORTED = true /\ a < v) as [Hs1 Hav].
      { destruct (has (rsFlags p) ROWSET_SORTED) eqn:E1; cbn [andb] in Hs'.
        - split; [done|]. destruct (Z.leb_spec v a); [|lia]. exfalso. flags (rsFlags p); cbn in Hs'; done.
        - congruence. }
      apply (last_snoc_sorted _ a); [by apply Hs; left|done|done].
    + intros x. rewrite elem_of_union, elem_of_singleton, elem_of_app, list_elem_of_singleton, Hp. tauto.
    + intros _. by rewrite last_snoc.
    + intros _. rewrite length_app. cbn. lia.
  - apply last_None in E. rewrite E in *.
    constructor; cbn [pChunk pEntry pLast nFresh pForest rsFlags iBatch pend old batch reading]; try done.
    + intros _. repeat constructor.
    + intros x. rewrite elem_of_union, elem_of_singleton, list_elem_of_singleton, Hp, elem_of_nil. tauto.
    + cbn in *. lia.
Qed.

(** The list in order, when a batch ends or the first rowid is taken out. *)
Lemma ordered_entries L p hp n s : rep L p hp n s -> s.(reading) = false -> n < 2 ^ 40 ->
  exists l, (if has p.(rsFlags) ROWSET_SORTED then Some p.(pEntry) else rowSetEntrySort p.(pEntry)) = Some l /\
    sorted l /\ (forall x, x ∈ s.(pend) <-> x ∈ l).
Proof.
  intros Hrep Hr Hn. destruct Hrep as [_ _ Hs Hp _ Hle _ _ _ _ _]. specialize (Hle Hr).
  destruct (has (rsFlags p) ROWSET_SORTED) eqn:E.
  - exists (pEntry p). split; [done|]. split; [apply Hs; by left|done].
  - destruct (sort_spec (pEntry p) ltac:(lia)) as (l & Hrun & HS & HE). exists l. split; [done|]. split; [done|].
    intros x. by rewrite Hp, HE.
Qed.

Lemma new_batch_step L p hp n s : rep L p hp n s -> s.(reading) = false -> n < 2 ^ 40 ->
  exists p' hp', new_batch p hp = Some (p', hp') /\ rep L p' hp' n (Rows ∅ (s.(old) ∪ s.(pend)) s.(batch) false).
Proof.
  intros Hrep Hr Hn. destruct (ordered_entries _ _ _ _ _ Hrep Hr Hn) as (l & Hl & HS & HE).
  pose proof Hrep as [Hfl Hnx Hs Hp Hla Hle Ht Ho Hb Hm Hlv]. specialize (Hla Hr). specialize (Hle Hr).
  rewrite Hr in Hnx. unfold new_batch. destruct (pEntry p) as [|e es] eqn:Ep.
  - exists p, hp. split; [done|]. constructor; cbn [pend old batch reading]; rewrite ?Ep; try done.
    + intros _. constructor.
    + intros x. rewrite elem_of_nil. split; [by intros ?%not_elem_of_empty|done].
    + intros x. rewrite elem_of_union, Hp, elem_of_nil, Ho. tauto.
  - rewrite Hl. cbn [mbind option_bind].
    assert (l <> []) as Hne.
    { intros ->. assert (e ∈ pend s) as He by (apply Hp; left). by apply HE, elem_of_nil in He. }
    destruct (forest_add_spec (pForest p) l Ht HS Hne) as (f' & o & Hrun & Ht' & Hof). rewrite Hrun.
    cbn [mbind option_bind].
    assert (has (Z.lor (rsFlags p) ROWSET_SORTED) ROWSET_NEXT = false /\
      0 <= Z.lor (rsFlags p) ROWSET_SORTED <= 3) as [Hf1 Hf2] by (flags (rsFlags p); cbn in *; done || (split; [done|lia])).
    destruct o as [l'|].
    + destruct (alloc_ok L (pChunk p) (nFresh p) hp Hm Hlv) as (ch & fr & hp' & Ha & Hm' & Hl').
      destruct Hof as (HS' & Hne' & HE' & Hemp). rewrite Ha. cbn [mbind option_bind].
      destruct (list_tree_list l' Hne') as (t & Hrt & Htl). rewrite Hrt. cbn [mbind option_bind].
      eexists _, hp'. split; [done|].
      constructor; cbn [pChunk pEntry pLast nFresh pForest rsFlags iBatch pend old batch reading]; try done.
      * intros _. constructor.
      * intros x. rewrite elem_of_nil. split; [by intros ?%not_elem_of_empty|done].
      * intros _. cbn. lia.
      * apply Forall_app. split; [done|]. apply List.Forall_cons; [by rewrite Htl|constructor].
      * intros x. rewrite elem_of_union, HE, in_forest_snoc, Htl, HE', Ho. pose proof (Hemp x). tauto.
    + eexists _, hp. split; [done|].
      constructor; cbn [pChunk pEntry pLast nFresh pForest rsFlags iBatch pend old batch reading]; try done.
      * intros _. constructor.
      * intros x. rewrite elem_of_nil. split; [by intros ?%not_elem_of_empty|done].
      * intros _. cbn. lia.
      * intros x. by rewrite elem_of_union, HE, Hof, Ho.
Qed.

Lemma set_batch L p hp n s b : rep L p hp n s ->
  rep L (mkRowSet p.(pChunk) p.(pEntry) p.(pLast) p.(nFresh) p.(pForest) p.(rsFlags) b) hp n
    (Rows s.(pend) s.(old) b s.(reading)).
Proof. by intros []. Qed.

Lemma test_step L p hp n s b v : rep L p hp n s -> s.(reading) = false -> n < 2 ^ 40 ->
  let s' := if u8 b =? s.(batch) then s else Rows ∅ (s.(old) ∪ s.(pend)) (u8 b) false in
  exists p' hp', sqlite3RowSetTest p b v hp = Some (bool_decide (v ∈ s'.(old)), p', hp') /\ rep L p' hp' n s'.
Proof.
  intros Hrep Hr Hn. cbn zeta. unfold sqlite3RowSetTest. generalize (u8 b) as b'. clear b. intros b. rewrite (r_batch _ _ _ _ _ Hrep).
  assert (forall p hp s, rep L p hp n s -> existsb (fun t => tree_search t v) (pForest p) = bool_decide (v ∈ old s)) as HT.
  { intros p1 hp1 s1 Hrep1. apply eq_iff_eq_true. rewrite bool_decide_eq_true, forest_search by apply Hrep1.
    symmetry. apply Hrep1. }
  destruct (b =? batch s); cbn [negb].
  - exists p, hp. cbn [mbind option_bind]. by rewrite (HT _ _ _ Hrep).
  - destruct (new_batch_step _ _ _ _ _ Hrep Hr Hn) as (p' & hp' & Hrun & Hrep'). rewrite Hrun.
    cbn [mbind option_bind]. apply (set_batch _ _ _ _ _ b) in Hrep'. cbn [pend old reading] in Hrep'.
    eexists _, hp'. split; [by rewrite (HT _ _ _ Hrep')|done].
Qed.

Lemma next_ready L p hp n s : rep L p hp n s -> n < 2 ^ 40 ->
  exists p', (if has p.(rsFlags) ROWSET_NEXT then Some p else rowSetToList p) = Some p' /\
    rep L p' hp n (Rows s.(pend) s.(old) s.(batch) true).
Proof.
  intros Hrep Hn. pose proof Hrep as [Hfl Hnx Hs Hp Hla Hle Ht Ho Hb Hm Hlv]. rewrite Hnx.
  destruct (reading s) eqn:Hr.
  - exists p. split; [done|]. constructor; cbn [pend old batch reading]; done.
  - destruct (ordered_entries _ _ _ _ _ Hrep Hr Hn) as (l & Hl & HS & HE).
    unfold rowSetToList. rewrite Hl. cbn [mbind option_bind]. eexists. split; [done|].
    constructor; cbn [pChunk pEntry pLast nFresh pForest rsFlags iBatch pend old batch reading]; try done.
    + flags (rsFlags p); by vm_compute.
    + flags (rsFlags p); done.
Qed.

Lemma next_step L p hp n s : rep L p hp n s -> n < 2 ^ 40 -> 0 <= n ->
  forall x s', rows_step s RNext = Some (x, s') ->
  exists p' hp', rs_step p hp RNext = Some (x, p', hp') /\ rep L p' hp' n s'.
Proof.
  intros Hrep Hn Hn0 x s'. cbn [rows_step rs_step]. case_bool_decide as Hold; [|done].
  destruct (next_ready _ _ _ _ _ Hrep Hn) as (p1 & Hrun & Hrep1). unfold sqlite3RowSetNext. rewrite Hrun.
  cbn [mbind option_bind]. destruct Hrep1 as [Hfl Hnx Hs Hp Hla Hle Ht Ho Hb Hm Hlv].
  cbn [pend old batch reading] in *. specialize (Hs (or_intror eq_refl)).
  destruct (pEntry p1) as [|v l] eqn:Ep.
  - assert (pend s = ∅) as -> by (apply set_eq; intros y; rewrite Hp, elem_of_nil; set_solver).
    rewrite (proj2 (least_none ∅) eq_refl). intros [= <- <-]. exists p1, hp. split; [done|].
    constructor; cbn [pend old batch reading]; rewrite ?Ep; try done.
    intros y. rewrite elem_of_nil. set_solver.
  - destruct (sorted_cons_inv _ _ Hs) as [Hs' Hlt].
    assert (least (pend s) = Some v) as ->.
    { apply least_spec. split; [apply Hp; left|]. intros y [-> | Hy%Hlt]%Hp%elem_of_cons; lia. }
    assert (forall y, y ∈ pend s ∖ {[v]} <-> y ∈ l) as Hrest.
    { intros y. rewrite elem_of_difference, elem_of_singleton, Hp, elem_of_cons. split.
      - by intros [[? | ?] ?].
      - intros Hy. split; [by right|]. specialize (Hlt y Hy). lia. }
    intros [= <- <-]. destruct l as [|w l].
    + assert (pend s ∖ {[v]} = ∅) as HE.
      { apply set_eq. intros y. rewrite Hrest, elem_of_nil. split; [done|]. by intros ?%not_elem_of_empty. }
      eexists _, _. split; [done|]. cbn [pChunk]. rewrite bool_decide_eq_true_2 by done. cbn [negb].
      constructor; cbn [pChunk pEntry pLast nFresh pForest rsFlags iBatch pend old batch reading fails live]; try done.
      * constructor.
      * intros y. rewrite Hold. split; [by intros ?%not_elem_of_empty|by intros ?%in_forest_nil].
      * lia.
    + rewrite bool_decide_eq_false_2.
      2:{ intros HE. assert (w ∈ pend s ∖ {[v]}) as Hw by (apply Hrest; left). rewrite HE in Hw. by apply not_elem_of_empty in Hw. }
      eexists _, hp. split; [done|].
      constructor; cbn [pChunk pEntry pLast nFresh pForest rsFlags iBatch pend old batch reading negb]; try done.
Qed.

Lemma rs_step_refines L p hp n s o x s' : rep L p hp n s -> 0 <= n < 2 ^ 40 -> rows_step s o = Some (x, s') ->
  exists p' hp', rs_step p hp o = Some (x, p', hp') /\ rep L p' hp' (n + 1) s'.
Proof.
  intros Hrep Hn Hstep.
  assert (forall p hp s, rep L p hp n s -> rep L p hp (n + 1) s) as Hmono.
  { intros p1 hp1 s1 []. constructor; try done. intros Hr. specialize (r_len0 Hr). lia. }
  destruct o as [v|b v|].
  - cbn [rows_step] in Hstep. destruct (reading s) eqn:Hr; [done|]. injection Hstep as <- <-.
    destruct (insert_step L p hp n s v Hrep Hr) as (p' & hp' & Hrun & Hrep').
    exists p', hp'. cbn [rs_step]. by rewrite Hrun.
  - cbn [rows_step] in Hstep. destruct (reading s) eqn:Hr; [done|]. injection Hstep as <- <-.
    destruct (test_step L p hp n s b v Hrep Hr ltac:(lia)) as (p' & hp' & Hrun & Hrep').
    exists p', hp'. cbn [rs_step]. rewrite Hrun. split; [done|]. by apply Hmono.
  - destruct (next_step L p hp n s Hrep ltac:(lia) ltac:(lia) _ _ Hstep) as (p' & hp' & Hrun & Hrep').
    exists p', hp'. split; [done|]. by apply Hmono.
Qed.

Lemma rs_run_refines L : forall ops p hp n s xs s', rep L p hp n s -> 0 <= n ->
  n + Z.of_nat (length ops) < 2 ^ 40 -> rows_run s ops = Some (xs, s') ->
  exists p' hp', rs_run p hp ops = Some (xs, p', hp') /\ rep L p' hp' (n + Z.of_nat (length ops)) s'.
Proof.
  induction ops as [|o ops IH]; intros p hp n s xs s' Hrep Hn Hlen Hrun; cbn [length] in Hlen.
  - injection Hrun as <- <-. exists p, hp. cbn [length]. by rewrite Z.add_0_r.
  - cbn [rows_run] in Hrun. destruct (rows_step s o) as [[x s1]|] eqn:E; [|done].
    cbn [mbind option_bind] in Hrun. destruct (rows_run s1 ops) as [[ys s2]|] eqn:E2; [|done].
    cbn [mbind option_bind] in Hrun. injection Hrun as <- <-.
    destruct (rs_step_refines L p hp n s o x s1 Hrep ltac:(lia) E) as (p1 & hp1 & Hs1 & Hrep1).
    destruct (IH p1 hp1 (n + 1) s1 ys s2 Hrep1 ltac:(lia) ltac:(lia) E2) as (p2 & hp2 & Hs2 & Hrep2).
    exists p2, hp2. cbn [rs_run length]. rewrite Hs1. cbn [mbind option_bind]. rewrite Hs2.
    split; [done|]. by replace (n + Z.of_nat (S (length ops))) with (n + 1 + Z.of_nat (length ops)) by lia.
Qed.

Definition rows0 : rows := Rows ∅ ∅ 0 false.

(** C10: A RowSet does what is promised of it.  Every sequence of calls that
    follows the protocol, of less than 2^40 calls and with memory to spare,
    is defined and gives the results of two plain sets: sqlite3RowSetTest
    says whether the rowid was inserted before the current batch, and
    sqlite3RowSetNext gives the least rowid left.  Afterwards
    sqlite3RowSetClear leaves no chunk allocated and an empty object. *)
Theorem rowset_refines N ops xs s' L : Z.of_nat (length ops) < 2 ^ 40 -> rows_run rows0 ops = Some (xs, s') ->
  exists p hp, rs_run (sqlite3RowSetInit N) (Heap [] L) ops = Some (xs, p, hp) /\
    let '(p0, hp0) := sqlite3RowSetClear p hp in
    live hp0 = L /\ forall v, sqlite3RowSetTest p0 (p0.(iBatch) + 1) v hp0 =
      Some (false, mkRowSet 0 [] None 0 [] ROWSET_SORTED (u8 (p0.(iBatch) + 1)), hp0).
Proof.
  intros Hlen Hrun.
  assert (rep L (sqlite3RowSetInit N) (Heap [] L) 0 rows0) as H0.
  { unfold sqlite3RowSetInit, rows0.
    constructor; cbn [pChunk pEntry pLast nFresh pForest rsFlags iBatch pend old batch reading fails live]; try done.
    - intros _. constructor.
    - intros x. rewrite elem_of_nil. split; [by intros ?%not_elem_of_empty|done].
    - constructor.
    - intros x. split; [by intros ?%not_elem_of_empty|by intros ?%in_forest_nil].
    - lia. }
  destruct (rs_run_refines L ops _ _ 0 _ _ _ H0 ltac:(lia) ltac:(lia) Hrun) as (p & hp & Hp & Hrep).
  exists p, hp. split; [done|]. cbn [sqlite3RowSetClear iBatch live]. split; [rewrite (r_live _ _ _ _ _ Hrep); cbn; lia|].
  intros v. unfold sqlite3RowSetTest. cbn [RowSet.iBatch]. 
  rewrite (proj2 (Z.eqb_neq (u8 (iBatch p + 1)) (iBatch p))) by zlia. done.
Qed.

Definition demo : list rs_op :=
  [RInsert 5; RInsert 3; RTest 1 3; RTest 1 4; RInsert 9; RTest 1 9; RInsert 1; RTest 2 9].

Definition demo_next : list rs_op :=
  [RInsert 5; RInsert 3; RInsert 9; RInsert 5; RNext; RNext; RNext; RInsert 2; RNext; RNext].

Example rowset_refines_witness :
  (exists p hp, rs_run (sqlite3RowSetInit 100) (Heap [] 7) demo =
     Some ([OutNone; OutNone; OutTest true; OutTest false; OutNone; OutTest false; OutNone; OutTest true], p, hp)) /\
  (exists p hp, rs_run (sqlite3RowSetInit 100) (Heap [] 7) demo_next =
     Some ([OutNone; OutNone; OutNone; OutNone; OutNext (Some 3); OutNext (Some 5); OutNext (Some 9); OutNone;
            OutNext (Some 2); OutNext None], p, hp)).
Proof.
  split.
  - edestruct (rowset_refines 100 demo) as (p & hp & Hrun & _); [reflexivity|vm_compute; reflexivity|].
    exists p, hp. exact Hrun.
  - edestruct (rowset_refines 100 demo_next) as (p & hp & Hrun & _); [reflexivity|vm_compute; reflexivity|].
    exists p, hp. exact Hrun.
Defined.
