(* ===== verification/Like.v ===== *)
(** * LIKE and GLOB (func.c)

    [patternCompare] matches a string against a pattern, both zero-terminated
    UTF-8.  Its specification parses the pattern into items and matches those
    against the characters of the string. *)

From stdpp Require Import strings.
From S2P Require Import Prelude Ctype Utf.

(** ** The code *)

Record compareInfo := mkInfo { matchAll : Z; matchOne : Z; matchSet : Z; noCase : bool }.

(** '*', '?' and '['; '%' and '_'. *)
Definition globInfo : compareInfo := mkInfo 42 63 91 false.
Definition likeInfoNorm : compareInfo := mkInfo 37 95 0 true.
Definition likeInfoAlt : compareInfo := mkInfo 37 95 0 false.

Definition GlogUpperToLower (a : Z) : Z := if Z.land a (Z.lnot 0x7f) =? 0 then UpperToLower a else a.

(** The byte at the pointer; the terminator follows the list. *)
Definition peek (z : list Z) : Z := match z with [] => 0 | b :: _ => b end.

Definition skip (z : list Z) : list Z := drop (SQLITE_SKIP_UTF8 z) z.

(** The loop over wildcards that follow a [matchAll]: [None] for [return 0],
    otherwise the next character and the two pointers. *)
Fixpoint skip_wild (fuel : nat) (pInfo : compareInfo) (zPattern zString : list Z)
    : option (option (Z * list Z * list Z)) :=
  match fuel with
  | O => None
  | S fuel =>
      let '(c, zPattern) := sqlite3Utf8Read zPattern in
      if (c =? pInfo.(matchAll)) || (c =? pInfo.(matchOne)) then
        if c =? pInfo.(matchOne) then
          let '(c2, zString) := sqlite3Utf8Read zString in
          if c2 =? 0 then Some None else skip_wild fuel pInfo zPattern zString
        else skip_wild fuel pInfo zPattern zString
      else Some (Some (c, zPattern, zString))
  end.

(** [while( c2 != 0 && c2 != c )] *)
Fixpoint seek (fuel : nat) (nc : bool) (c c2 : Z) (zString : list Z) : option (Z * list Z) :=
  match fuel with
  | O => None
  | S fuel =>
      if negb (c2 =? 0) && negb (c2 =? c) then
        let '(c2, zString) := sqlite3Utf8Read zString in
        seek fuel nc c (if nc then GlogUpperToLower c2 else c2) zString
      else Some (c2, zString)
  end.

(** [while( (c2 = sqlite3Utf8Read(&zString))!=0 )]; [rec] is the recursive
    call on the rest of the pattern. *)
Fixpoint find_lit (fuel : nat) (rec : list Z -> option bool) (nc : bool) (c : Z) (zString : list Z) : option bool :=
  match fuel with
  | O => None
  | S fuel =>
      let '(c2, zString) := sqlite3Utf8Read zString in
      if c2 =? 0 then Some false
      else
        let c2 := if nc then GlogUpperToLower c2 else c2 in
        let c := if nc then GlogUpperToLower c else c in
        '(c2, zString) ← seek (S (S (length zString))) nc c c2 zString;
        if c2 =? 0 then Some false
        else
          r ← rec zString;
          if (r : bool) then Some true else find_lit fuel rec nc c zString
  end.

(** [while( *zString && patternCompare(&zPattern[-1],zString,pInfo,esc)==0 )];
    the result is [*zString!=0]. *)
Fixpoint find_set (fuel : nat) (rec : list Z -> option bool) (zString : list Z) : option bool :=
  match fuel with
  | O => None
  | S fuel =>
      if peek zString =? 0 then Some false
      else
        r ← rec zString;
        if (r : bool) then Some true else find_set fuel rec (skip zString)
  end.

(** The loop over a set: [seen] and what follows the ']', [None] if there is
    none. *)
Fixpoint set_chars (fuel : nat) (c c2 prior_c : Z) (seen : bool) (zPattern : list Z)
    : option (option (bool * list Z)) :=
  match fuel with
  | O => None
  | S fuel =>
      if c2 =? 0 then Some None
      else if c2 =? 93 then Some (Some (seen, zPattern))
      else
        let '(seen, prior_c, zPattern) :=
          if (c2 =? 45) && negb (peek zPattern =? 93) && negb (peek zPattern =? 0) && (0 <? prior_c) then
            let '(c2, zPattern) := sqlite3Utf8Read zPattern in
            (seen || ((prior_c <=? c) && (c <=? c2)), 0, zPattern)
          else (seen || (c =? c2), c2, zPattern) in
        let '(c2, zPattern) := sqlite3Utf8Read zPattern in
        set_chars fuel c c2 prior_c seen zPattern
  end.

(** A set, from the character after '[' on: whether [c] is accepted, and the
    rest of the pattern. *)
Definition set_match (c : Z) (zPattern : list Z) : option (option (list Z)) :=
  let '(c2, z) := sqlite3Utf8Read zPattern in
  let '(invert, (c2, z)) := if c2 =? 94 then (true, sqlite3Utf8Read z) else (false, (c2, z)) in
  let '(seen, (c2, z)) := if c2 =? 93 then (c =? 93, sqlite3Utf8Read z) else (false, (c2, z)) in
  r ← set_chars (S (S (length z))) c c2 0 seen z;
  Some (match r with
        | Some (seen, z) => if xorb seen invert then Some z else None
        | None => None
        end).

Fixpoint pattern_loop (fuel : nat) (pInfo : compareInfo) (esc : Z) (prevEscape : bool)
    (zPattern zString : list Z) : option bool :=
  match fuel with
  | O => None
  | S fuel =>
      let '(c, zPattern) := sqlite3Utf8Read zPattern in
      if c =? 0 then Some (peek zString =? 0)
      else if (c =? pInfo.(matchAll)) && negb prevEscape then
        r ← skip_wild (S (length zPattern)) pInfo zPattern zString;
        match r with
        | None => Some false
        | Some (c, zPattern, zString) =>
            if c =? 0 then Some true
            else
              let lit c zPattern :=
                find_lit (S (length zString)) (pattern_loop fuel pInfo esc false zPattern)
                  pInfo.(noCase) c zString in
              if c =? esc then
                let '(c, zPattern) := sqlite3Utf8Read zPattern in
                if c =? 0 then Some false else lit c zPattern
              else if c =? pInfo.(matchSet) then
                find_set (S (length zString))
                  (pattern_loop fuel pInfo esc false (pInfo.(matchSet) :: zPattern)) zString
              else lit c zPattern
        end
      else if (c =? pInfo.(matchOne)) && negb prevEscape then
        let '(c2, zString) := sqlite3Utf8Read zString in
        if c2 =? 0 then Some false else pattern_loop fuel pInfo esc prevEscape zPattern zString
      else if c =? pInfo.(matchSet) then
        let '(c2, zString) := sqlite3Utf8Read zString in
        if c2 =? 0 then Some false
        else
          r ← set_match c2 zPattern;
          match r with
          | Some zPattern => pattern_loop fuel pInfo esc prevEscape zPattern zString
          | None => Some false
          end
      else if (esc =? c) && negb prevEscape then pattern_loop fuel pInfo esc true zPattern zString
      else
        let '(c2, zString) := sqlite3Utf8Read zString in
        let low x := if pInfo.(noCase) then GlogUpperToLower x else x in
        if negb (low c =? low c2) then Some false
        else pattern_loop fuel pInfo esc false zPattern zString
  end.

(** One step of the fuel for each byte of the pattern. *)
Definition patternCompare (zPattern zString : list Z) (pInfo : compareInfo) (esc : Z) : option bool :=
  pattern_loop (S (length zPattern)) pInfo esc false zPattern zString.

Definition sqlite3_strglob (zGlobPattern zString : list Z) : option bool :=
  negb <$> patternCompare zGlobPattern zString globInfo 0.

(** The SQL functions: no result (NULL), an error, or an integer. *)
Inductive like_result : Type := LikeNull | LikeError (msg : string) | LikeInt (r : bool).

Definition likeFunc (limit : Z) (pInfo : compareInfo) (zB zA : option (list Z)) (zEsc : option (option (list Z)))
    : option like_result :=
  if limit <? Z.of_nat (length (default [] zB)) then Some (LikeError "LIKE or GLOB pattern too complex")
  else
    let run escape :=
      match zA, zB with
      | Some zA, Some zB => r ← patternCompare zB zA pInfo escape; Some (LikeInt r)
      | _, _ => Some LikeNull
      end in
    match zEsc with
    | None => run 0
    | Some None => Some LikeNull
    | Some (Some zEsc) =>
        if negb (sqlite3Utf8CharLen zEsc (-1) =? 1)
        then Some (LikeError "ESCAPE expression must be a single character")
        else run (sqlite3Utf8Read zEsc).1
    end.

(** ** The specification *)

(** The characters of a string. *)
Fixpoint chars_loop (fuel : nat) (z : list Z) : list Z :=
  match fuel with
  | O => []
  | S fuel => let '(c, z) := sqlite3Utf8Read z in if c =? 0 then [] else c :: chars_loop fuel z
  end.

Definition chars (z : list Z) : list Z := chars_loop (length z) z.

(** Sets are ranges, with the '^' in front. *)
Inductive item : Type :=
  | IAny
  | IOne
  | ISet (invert : bool) (ranges : list (Z * Z))
  | ILit (c : Z)
  | INever.

(** The ranges up to ']', and what follows; a '-' makes a range of its
    neighbours unless it is the first or the last of the list or follows a
    range. *)
Fixpoint parse_ranges (cs : list Z) (prior : Z) : option (list (Z * Z) * list Z) :=
  match cs with
  | [] => None
  | c :: cs =>
      if c =? 93 then Some ([], cs)
      else
        match cs with
        | x :: cs' =>
            if (c =? 45) && negb (x =? 93) && (0 <? prior) then
              '(rs, rest) ← parse_ranges cs' 0; Some ((prior, x) :: rs, rest)
            else '(rs, rest) ← parse_ranges cs c; Some ((c, c) :: rs, rest)
        | [] => None
        end
  end.

Definition parse_set (cs : list Z) : option (item * list Z) :=
  let '(inv, cs) := match cs with 94 :: cs => (true, cs) | _ => (false, cs) end in
  let '(first, cs) := match cs with 93 :: cs => ([(93, 93)], cs) | _ => ([], cs) end in
  '(rs, rest) ← parse_ranges cs 0; Some (ISet inv (first ++ rs), rest).

(** [None] for a pattern that ends in the escape character. *)
Fixpoint parse_loop (fuel : nat) (pInfo : compareInfo) (esc : Z) (cs : list Z) : option (list item) :=
  match fuel, cs with
  | O, _ => None
  | S _, [] => Some []
  | S fuel, c :: cs =>
      if c =? pInfo.(matchAll) then cons IAny <$> parse_loop fuel pInfo esc cs
      else if c =? pInfo.(matchOne) then cons IOne <$> parse_loop fuel pInfo esc cs
      else if c =? pInfo.(matchSet) then
        match parse_set cs with
        | Some (i, cs) => cons i <$> parse_loop fuel pInfo esc cs
        | None => Some [INever]
        end
      else if c =? esc then
        match cs with
        | [] => None
        | c :: cs => cons (ILit c) <$> parse_loop fuel pInfo esc cs
        end
      else cons (ILit c) <$> parse_loop fuel pInfo esc cs
  end.

Definition parse (pInfo : compareInfo) (esc : Z) (cs : list Z) : option (list item) :=
  parse_loop (S (length cs)) pInfo esc cs.

Definition fold_case (nc : bool) (c : Z) : Z := if nc then GlogUpperToLower c else c.

Definition in_ranges (rs : list (Z * Z)) (c : Z) : bool := existsb (fun r => (r.1 <=? c) && (c <=? r.2)) rs.

(** Which strings a list of items matches. *)
Fixpoint matches (nc : bool) (ps : list item) (s : list Z) : bool :=
  match ps with
  | [] => match s with [] => true | _ => false end
  | IAny :: ps =>
      (fix any s := matches nc ps s || match s with [] => false | _ :: s => any s end) s
  | IOne :: ps => match s with [] => false | _ :: s => matches nc ps s end
  | ISet inv rs :: ps => match s with [] => false | c :: s => xorb (in_ranges rs c) inv && matches nc ps s end
  | ILit c :: ps => match s with [] => false | x :: s => (fold_case nc c =? fold_case nc x) && matches nc ps s end
  | INever :: _ => false
  end.

(** ** Characters *)

Lemma utf8_tail_skip z : forall c, (utf8_tail c z).2 = drop (skip_tail z) z.
Proof.
  induction z as [|b z IH]; intros c; [done|]. cbn [utf8_tail skip_tail].
  destruct (Z.land b 0xc0 =? 0x80); [apply IH|done].
Qed.

Lemma utf8_tail_shorter z c : (length (utf8_tail c z).2 <= length z)%nat.
Proof. rewrite utf8_tail_skip, length_drop. lia. Qed.

(** What a read does, at the end of the string and before it. *)
Lemma read_cases z :
  (sqlite3Utf8Read z).1 = 0 /\ peek z = 0 /\ chars z = [] \/
  exists b z0 c z', z = b :: z0 /\ sqlite3Utf8Read z = (c, z') /\ c <> 0 /\ b <> 0 /\ (length z' <= length z0)%nat /\
    skip z = z' /\ forall a, 0 <= a < 0x80 -> (b = a <-> c = a).
Proof.
  destruct z as [|b z0]; [by left|]. unfold chars, skip. cbn [sqlite3Utf8Read SQLITE_SKIP_UTF8 peek length chars_loop].
  destruct (Z.geb_spec b 0xc0) as [Hb|Hb].
  - right. pose proof (utf8_tail_skip z0 (Utf8Trans1 (b - 0xc0))) as Hs.
    pose proof (utf8_tail_shorter z0 (Utf8Trans1 (b - 0xc0))) as Hl.
    destruct (utf8_tail _ z0) as [c z']. cbn [snd] in *.
    destruct ((c <? 0x80) || _ || _) eqn:E; eexists b, z0, _, z'; (split; [done|]; split; [done|]).
    + repeat split; try lia; try done.
    + apply orb_false_iff in E as [[E%Z.ltb_ge _]%orb_false_iff _]. repeat split; try lia; try done.
  - destruct (Z.eqb_spec b 0) as [->|Hb0]; [by left|]. right. exists b, z0, b, z0. repeat split; try lia; try done.
Qed.

Lemma chars_loop_fuel : forall n m z, (length z <= n)%nat -> (length z <= m)%nat -> chars_loop n z = chars_loop m z.
Proof.
  assert (forall n z, (sqlite3Utf8Read z).1 = 0 -> chars_loop n z = []) as Hend.
  { intros [|n] z Hz; [done|]. cbn [chars_loop]. destruct (sqlite3Utf8Read z) as [c z']. cbn in Hz. by subst c. }
  induction n as [|n IH]; intros m z Hn Hm.
  - destruct z; [|cbn in Hn; lia]. by rewrite !Hend.
  - destruct (read_cases z) as [(Hz & _) | (b & z0 & c & z' & -> & Hr & Hc & _ & Hl & _)]; [by rewrite !Hend|].
    cbn [length] in *. destruct m as [|m]; [lia|]. cbn [chars_loop]. rewrite Hr, (proj2 (Z.eqb_neq _ _) Hc).
    f_equal. apply IH; lia.
Qed.

Lemma chars_cons z c z' : sqlite3Utf8Read z = (c, z') -> c <> 0 -> chars z = c :: chars z'.
Proof.
  intros Hr Hc. destruct (read_cases z) as [(Hz & _) | (b & z0 & c1 & z1 & -> & Hr1 & _ & _ & Hl & _)].
  - rewrite Hr in Hz. by cbn in Hz.
  - rewrite Hr in Hr1. injection Hr1 as <- <-. unfold chars at 1. cbn [length chars_loop].
    rewrite Hr, (proj2 (Z.eqb_neq _ _) Hc). f_equal. apply chars_loop_fuel; lia.
Qed.

(** The two cases in terms of the characters. *)
Lemma read_chars z : exists c z', sqlite3Utf8Read z = (c, z') /\
  match chars z with
  | [] => c = 0 /\ peek z = 0
  | x :: cs => c = x /\ chars z' = cs /\ x <> 0 /\ (length z' < length z)%nat /\ peek z <> 0 /\ skip z = z' /\
      forall a, 0 <= a < 0x80 -> (peek z = a <-> x = a)
  end.
Proof.
  destruct (read_cases z) as [(Hz & Hp & Hc) | (b & z0 & c & z' & -> & Hr & Hc & Hb & Hl & Hs & Ha)].
  - destruct (sqlite3Utf8Read z) as [c z']. exists c, z'. rewrite Hc. done.
  - exists c, z'. split; [done|]. rewrite (chars_cons _ _ _ Hr Hc). cbn [length peek]. repeat split; try done; try lia; by apply Ha.
Qed.

Lemma peek_end z : (peek z =? 0) = match chars z with [] => true | _ => false end.
Proof.
  destruct (read_chars z) as (c & z' & _ & H). destruct (chars z).
  - destruct H as [_ ->]. done.
  - destruct H as (_ & _ & _ & _ & H & _). by apply Z.eqb_neq.
Qed.

(** Read a character and name what is read. *)
Ltac read z cs :=
  let c := fresh "c" in let z' := fresh z "'" in let Hr := fresh "Hr" in let H := fresh "Hz" in
  destruct (read_chars z) as (c & z' & Hr & H); rewrite Hr; destruct (chars z) as [|? cs] eqn:?;
  [destruct H as [-> H]|destruct H as (-> & H)].

(** ** Matching *)

Lemma matches_any nc ps s : matches nc (IAny :: ps) s = matches nc ps s || match s with [] => false | _ :: s => matches nc (IAny :: ps) s end.
Proof. by destruct s. Qed.

Lemma matches_any_any nc ps s : matches nc (IAny :: IAny :: ps) s = matches nc (IAny :: ps) s.
Proof.
  induction s as [|x s IH]; rewrite matches_any; [apply orb_false_r|]. rewrite IH, (matches_any nc ps (x :: s)).
  by destruct (matches nc ps (x :: s)), (matches nc (IAny :: ps) s).
Qed.

Lemma matches_any_one nc ps s : matches nc (IAny :: IOne :: ps) s = match s with [] => false | _ :: s => matches nc (IAny :: ps) s end.
Proof.
  induction s as [|x s IH]; rewrite matches_any; [done|]. rewrite IH. change (matches nc (IOne :: ps) (x :: s)) with (matches nc ps s).
  rewrite (matches_any nc ps s). by destruct s.
Qed.

Lemma matches_any_end nc s : matches nc [IAny] s = true.
Proof. induction s as [|x s IH]; [done|]. rewrite matches_any. exact IH. Qed.

(** ** Sets *)

(** The characters from one that was read on. *)
Definition from (c : Z) (z : list Z) : list Z := if c =? 0 then [] else c :: chars z.

Lemma read_le z : (length (sqlite3Utf8Read z).2 <= length z)%nat.
Proof.
  destruct z as [|b z]; [done|]. cbn [sqlite3Utf8Read length]. destruct (b >=? 0xc0); [|cbn; lia].
  pose proof (utf8_tail_shorter z (Utf8Trans1 (b - 0xc0))). destruct (utf8_tail _ z) as [c z'].
  cbn [snd] in *. destruct (_ || _); cbn; lia.
Qed.

Lemma read_from z : exists c z', sqlite3Utf8Read z = (c, z') /\ chars z = from c z' /\
  (length z' <= length z)%nat /\ (c <> 0 -> (length z' < length z)%nat).
Proof.
  pose proof (read_le z) as Hle. destruct (read_chars z) as (c & z' & Hr & H). rewrite Hr in Hle.
  exists c, z'. split; [done|]. unfold from. destruct (chars z) as [|x cs].
  - destruct H as [-> _]. done.
  - destruct H as (-> & <- & Hc & Hl & _). by rewrite (proj2 (Z.eqb_neq _ _) Hc).
Qed.

Lemma set_chars_spec fuel c : forall c2 prior seen z, (S (length z) < fuel)%nat ->
  match parse_ranges (from c2 z) prior with
  | None => set_chars fuel c c2 prior seen z = Some None
  | Some (rs, rest) => exists z', set_chars fuel c c2 prior seen z = Some (Some (seen || in_ranges rs c, z')) /\
      chars z' = rest /\ (length z' <= length z)%nat
  end.
Proof.
  induction fuel as [|fuel IH]; intros c2 prior seen z Hf; [lia|]. unfold from. cbn [set_chars].
  destruct (Z.eqb_spec c2 0) as [->|Hc2]; [done|]. cbn [parse_ranges].
  destruct (Z.eqb_spec c2 93) as [->|Hne]; [exists z; by rewrite orb_false_r|].
  destruct (read_chars z) as (x & z1 & Hr & H). rewrite peek_end.
  destruct (chars z) as [|y cs] eqn:Hz.
  - destruct H as [-> Hp]. rewrite andb_false_r. cbn [andb]. rewrite Hr.
    destruct fuel as [|fuel]; [lia|done].
  - destruct H as (-> & Hcs & Hy & Hl & Hp & _ & Ha). cbn [negb]. rewrite andb_true_r.
    assert ((peek z =? 93) = (y =? 93)) as ->.
    { specialize (Ha 93 ltac:(lia)). destruct (Z.eqb_spec (peek z) 93), (Z.eqb_spec y 93); tauto. }
    destruct ((c2 =? 45) && negb (y =? 93) && (0 <? prior)) eqn:E.
    + rewrite Hr. destruct (read_from z1) as (c3 & z2 & Hr2 & Hf2 & Hl2 & _). rewrite Hr2.
      rewrite Hcs in Hf2. rewrite Hf2.
      specialize (IH c3 0 (seen || ((prior <=? c) && (c <=? y))) z2 ltac:(lia)).
      destruct (parse_ranges (from c3 z2) 0) as [[rs rest]|]; [|done].
      destruct IH as (z' & Hrun & Hc' & Hl'). exists z'. rewrite Hrun. cbn [in_ranges existsb fst snd].
      rewrite <- orb_assoc. split; [done|]. split; [done|lia].
    + rewrite Hr. specialize (IH y c2 (seen || (c =? c2)) z1 ltac:(lia)).
      unfold from in IH. rewrite (proj2 (Z.eqb_neq _ _) Hy), Hcs in IH.
      destruct (parse_ranges (y :: cs) c2) as [[rs rest]|]; [|done].
      destruct IH as (z' & Hrun & Hc' & Hl'). exists z'. rewrite Hrun. cbn [mbind option_bind in_ranges existsb fst snd].
      assert ((c2 <=? c) && (c <=? c2) = (c =? c2)) as -> by (repeat zcase; lia || done).
      rewrite <- orb_assoc. split; [done|]. split; [done|lia].
Qed.

Lemma set_match_spec c z :
  match parse_set (chars z) with
  | Some (ISet inv rs, rest) => exists z', chars z' = rest /\ (length z' <= length z)%nat /\
      set_match c z = Some (if xorb (in_ranges rs c) inv then Some z' else None)
  | Some _ => False
  | None => set_match c z = Some None
  end.
Proof.
  unfold parse_set, set_match.
  destruct (read_from z) as (c2 & z2 & Hr & Hc & Hl & _). rewrite Hr, Hc. clear Hr Hc.
  assert (exists inv c3 z3, (if c2 =? 94 then (true, sqlite3Utf8Read z2) else (false, (c2, z2))) = (inv, (c3, z3)) /\
    (length z3 <= length z)%nat /\
    (match from c2 z2 with 94 :: cs => (true, cs) | _ => (false, from c2 z2) end) = (inv, from c3 z3))
    as (inv & c3 & z3 & -> & Hl3 & ->).
  { destruct (Z.eqb_spec c2 94) as [->|Hne].
    - destruct (read_from z2) as (c3 & z3 & Hr & Hc & Hl3 & _). rewrite Hr. exists true, c3, z3.
      split; [done|]. split; [lia|]. cbn. by rewrite Hc.
    - exists false, c2, z2. split; [done|]. split; [lia|]. unfold from. destruct (c2 =? 0); [done|].
      destruct c2 as [|p|p]; try done. repeat (destruct p as [p|p|]; try done). }
  assert (exists first seen c4 z4, (if c3 =? 93 then (c =? 93, sqlite3Utf8Read z3) else (false, (c3, z3))) = (seen, (c4, z4)) /\
    (length z4 <= length z)%nat /\ in_ranges first c = seen /\
    (match from c3 z3 with 93 :: cs => ([(93, 93)], cs) | _ => ([], from c3 z3) end) = (first, from c4 z4))
    as (first & seen & c4 & z4 & -> & Hl4 & Hfirst & ->).
  { destruct (Z.eqb_spec c3 93) as [->|Hne].
    - destruct (read_from z3) as (c4 & z4 & Hr & Hc & Hl4 & _). rewrite Hr. exists [(93, 93)], (c =? 93), c4, z4.
      split; [done|]. split; [lia|]. split; [cbn; repeat zcase; lia || done|]. cbn. by rewrite Hc.
    - exists [], false, c3, z3. split; [done|]. split; [lia|]. split; [done|]. unfold from. destruct (c3 =? 0); [done|].
      destruct c3 as [|p|p]; try done. repeat (destruct p as [p|p|]; try done). }
  pose proof (set_chars_spec (S (S (length z4))) c c4 0 seen z4 ltac:(lia)) as HS.
  destruct (parse_ranges (from c4 z4) 0) as [[rs rest]|]; cbn [mbind option_bind].
  - destruct HS as (z' & Hrun & Hc' & Hl'). exists z'. split; [done|]. split; [lia|]. rewrite Hrun.
    cbn [mbind option_bind]. unfold in_ranges in *. by rewrite existsb_app, Hfirst.
  - by rewrite HS.
Qed.

(** ** Case folding *)

Lemma glog_eq a : GlogUpperToLower a = if decide (0 <= a < 128) then UpperToLower a else a.
Proof.
  unfold GlogUpperToLower. rewrite <- Z.ldiff_land. change 0x7f with (Z.ones 7).
  rewrite Z.ldiff_ones_r, Z.shiftr_div_pow2, Z.shiftl_mul_pow2 by lia. change (2 ^ 7) with 128.
  case_decide; destruct (Z.eqb_spec (a / 128 * 128) 0); try done; exfalso; zlia.
Qed.

Lemma fold_table : Forall (fun k => 0 <= UpperToLower (Z.of_nat k) < 128 /\
  UpperToLower (UpperToLower (Z.of_nat k)) = UpperToLower (Z.of_nat k) /\
  (UpperToLower (Z.of_nat k) = 0 -> k = O)) (seq 0 128).
Proof. apply (bool_decide_unpack _). vm_compute. exact I. Qed.

Lemma fold_case_facts nc c : fold_case nc (fold_case nc c) = fold_case nc c /\ (fold_case nc c = 0 -> c = 0).
Proof.
  destruct nc; [|done]. cbn [fold_case]. rewrite (glog_eq c). case_decide as Hc.
  - pose proof fold_table as HT. rewrite Forall_forall in HT.
    specialize (HT (Z.to_nat c)). rewrite Z2Nat.id in HT by lia.
    destruct HT as (H1 & H2 & H3); [apply elem_of_seq; lia|].
    rewrite glog_eq. rewrite decide_True by done. split; [done|]. intros Hz. specialize (H3 Hz). lia.
  - rewrite glog_eq, decide_False by done. done.
Qed.

Lemma fold_nonzero nc c : c <> 0 -> fold_case nc c <> 0.
Proof. intros Hc Hz. by apply Hc, (proj2 (fold_case_facts nc c)). Qed.

Lemma matches_lit_fold nc c ps s : matches nc (ILit (fold_case nc c) :: ps) s = matches nc (ILit c :: ps) s.
Proof. cbn [matches]. by rewrite (proj1 (fold_case_facts nc c)). Qed.

(** ** The loops after a wildcard *)

Lemma matches_any_lit nc c ps x s : matches nc (IAny :: ILit c :: ps) (x :: s) =
  (fold_case nc c =? fold_case nc x) && matches nc ps s || matches nc (IAny :: ILit c :: ps) s.
Proof. by rewrite matches_any. Qed.

(** Characters that differ are passed over. *)
Lemma seek_spec nc c ps fuel : fold_case nc c = c -> forall x z, x <> 0 -> (S (length z) < fuel)%nat ->
  exists c2 z', seek fuel nc c (fold_case nc x) z = Some (c2, z') /\ (length z' <= length z)%nat /\
    if c2 =? 0 then matches nc (IAny :: ILit c :: ps) (x :: chars z) = false
    else matches nc (IAny :: ILit c :: ps) (x :: chars z) =
      matches nc ps (chars z') || matches nc (IAny :: ILit c :: ps) (chars z').
Proof.
  intros Hc. induction fuel as [|fuel IH]; intros x z Hx Hf; [lia|]. cbn [seek].
  rewrite matches_any_lit, Hc, (Z.eqb_sym c).
  rewrite (proj2 (Z.eqb_neq _ _) (fold_nonzero nc x Hx)). cbn [negb andb].
  destruct (Z.eqb_spec (fold_case nc x) c) as [E|E]; cbn [negb andb orb].
  - exists (fold_case nc x), z. split; [done|]. split; [done|].
    by rewrite (proj2 (Z.eqb_neq _ _) (fold_nonzero nc x Hx)).
  - destruct (read_from z) as (y & z1 & Hr & Hy & Hle & Hl). rewrite Hr, Hy. unfold from.
    change (if nc then GlogUpperToLower y else y) with (fold_case nc y).
    destruct (Z.eqb_spec y 0) as [->|Hy0].
    + destruct fuel as [|fuel]; [lia|]. cbn [seek].
      assert (fold_case nc 0 = 0) as -> by (destruct nc; done). exists 0, z1. done.
    + specialize (Hl Hy0). destruct (IH y z1 Hy0 ltac:(lia)) as (c2 & z' & Hrun & Hl' & Hres).
      exists c2, z'. split; [done|]. split; [lia|done].
Qed.

Lemma find_lit_spec nc ps rec : (forall z, rec z = Some (matches nc ps (chars z))) ->
  forall fuel c z, c <> 0 -> (length z < fuel)%nat ->
  find_lit fuel rec nc c z = Some (matches nc (IAny :: ILit c :: ps) (chars z)).
Proof.
  intros Hrec. induction fuel as [|fuel IH]; intros c z Hc Hf; [lia|]. cbn [find_lit].
  destruct (read_from z) as (x & z1 & Hr & Hx & Hle & Hl). rewrite Hr, Hx. unfold from.
  destruct (Z.eqb_spec x 0) as [->|Hx0]; [done|]. specialize (Hl Hx0).
  change (if nc then GlogUpperToLower x else x) with (fold_case nc x).
  change (if nc then GlogUpperToLower c else c) with (fold_case nc c).
  assert (forall s, matches nc (IAny :: ILit c :: ps) s = matches nc (IAny :: ILit (fold_case nc c) :: ps) s) as Hfold.
  { intros s. induction s as [|y s IHs]; [done|]. rewrite !matches_any_lit, IHs. by rewrite (proj1 (fold_case_facts nc c)). }
  rewrite Hfold.
  destruct (seek_spec nc (fold_case nc c) ps (S (S (length z1))) (proj1 (fold_case_facts nc c)) x z1 Hx0 ltac:(lia))
    as (c2 & z2 & Hrun & Hl2 & Hres).
  rewrite Hrun. cbn [mbind option_bind]. destruct (c2 =? 0); [by rewrite Hres|]. rewrite Hres, Hrec.
  cbn [mbind option_bind]. destruct (matches nc ps (chars z2)); [done|]. cbn [orb]. apply IH; [by apply fold_nonzero|lia].
Qed.

Lemma find_set_spec nc ps rec : (forall z, rec z = Some (matches nc ps (chars z))) -> matches nc ps [] = false ->
  forall fuel z, (length z < fuel)%nat -> find_set fuel rec z = Some (matches nc (IAny :: ps) (chars z)).
Proof.
  intros Hrec Hnil. induction fuel as [|fuel IH]; intros z Hf; [lia|]. cbn [find_set].
  rewrite peek_end. destruct (read_chars z) as (x & z1 & Hr & H). rewrite Hrec. destruct (chars z) as [|y cs] eqn:Hz.
  - by rewrite matches_any, Hnil.
  - destruct H as (-> & Hcs & _ & Hl & _ & Hs & _). cbn [mbind option_bind]. rewrite matches_any, Hs, IH by lia.
    rewrite Hcs. by destruct (matches nc ps (y :: cs)).
Qed.

(** ** Parsing *)

Lemma parse_ranges_shorter n : forall cs prior rs rest, (length cs <= n)%nat ->
  parse_ranges cs prior = Some (rs, rest) -> (length rest < length cs)%nat.
Proof.
  induction n as [|n IH]; intros [|c cs] prior rs rest Hn; cbn [length] in Hn; try lia; [done..|].
  cbn [parse_ranges length]. destruct (c =? 93); [intros [= <- <-]; lia|]. destruct cs as [|x cs']; [done|].
  cbn [length] in *. destruct (_ && _).
  - destruct (parse_ranges cs' 0) as [[rs' rest']|] eqn:E; [|done]. intros [= <- <-]. apply IH in E; lia.
  - destruct (parse_ranges (x :: cs') c) as [[rs' rest']|] eqn:E; [|done]. intros [= <- <-].
    apply IH in E; cbn in *; lia.
Qed.

Lemma parse_set_shorter cs i rest : parse_set cs = Some (i, rest) -> (length rest < length cs)%nat.
Proof.
  unfold parse_set.
  assert (forall k : Z, exists b cs', (match cs with 94 :: cs => (true, cs) | _ => (false, cs) end) = (b, cs') /\ (length cs' <= length cs)%nat)
    as HA.
  { intros _. destruct cs as [|x cs]; [by exists false, []|]. destruct (decide (x = 94)) as [->|Hne].
    - exists true, cs. cbn. split; [done|lia].
    - exists false, (x :: cs). split; [|done]. destruct x as [|p|p]; try done. repeat (destruct p as [p|p|]; try done). }
  destruct (HA 0) as (b & cs1 & -> & Hl1).
  assert (exists f cs', (match cs1 with 93 :: cs => ([(93, 93)], cs) | _ => ([], cs1) end) = (f, cs') /\ (length cs' <= length cs1)%nat)
    as (f & cs2 & -> & Hl2).
  { destruct cs1 as [|x cs1]; [by exists [], []|]. destruct (decide (x = 93)) as [->|Hne].
    - eexists _, cs1. cbn. split; [done|lia].
    - eexists _, (x :: cs1). split; [|done]. destruct x as [|p|p]; try done. repeat (destruct p as [p|p|]; try done). }
  destruct (parse_ranges cs2 0) as [[rs rest']|] eqn:E; [|done]. cbn [mbind option_bind]. intros [= <- <-].
  apply (parse_ranges_shorter (length cs2)) in E; lia.
Qed.

Lemma parse_loop_fuel pInfo esc : forall n m cs, (length cs < n)%nat -> (length cs < m)%nat ->
  parse_loop n pInfo esc cs = parse_loop m pInfo esc cs.
Proof.
  induction n as [|n IH]; intros [|m] [|c cs] Hn Hm; cbn [length] in *; try lia; [done|]. cbn [parse_loop].
  assert (parse_loop n pInfo esc cs = parse_loop m pInfo esc cs) as E by (apply IH; lia).
  destruct (c =? matchAll pInfo); [by rewrite E|]. destruct (c =? matchOne pInfo); [by rewrite E|].
  destruct (c =? matchSet pInfo).
  - destruct (parse_set cs) as [[i rest]|] eqn:Es; [|done]. apply parse_set_shorter in Es. by rewrite (IH m) by lia.
  - destruct (c =? esc); [|by rewrite E]. destruct cs as [|c' cs]; [done|]. cbn [length] in *. by rewrite (IH m) by lia.
Qed.

Lemma parse_loop_S n pInfo esc c cs : parse_loop (S n) pInfo esc (c :: cs) =
  if c =? pInfo.(matchAll) then cons IAny <$> parse_loop n pInfo esc cs
  else if c =? pInfo.(matchOne) then cons IOne <$> parse_loop n pInfo esc cs
  else if c =? pInfo.(matchSet) then
    match parse_set cs with
    | Some (i, cs) => cons i <$> parse_loop n pInfo esc cs
    | None => Some [INever]
    end
  else if c =? esc then
    match cs with
    | [] => None
    | c :: cs => cons (ILit c) <$> parse_loop n pInfo esc cs
    end
  else cons (ILit c) <$> parse_loop n pInfo esc cs.
Proof. reflexivity. Qed.

Section pattern.
Context (pInfo : compareInfo) (esc : Z).
Hypothesis wild_nonzero : pInfo.(matchAll) <> 0 /\ pInfo.(matchOne) <> 0.
Hypothesis wild_set : pInfo.(matchSet) <> pInfo.(matchAll) /\ pInfo.(matchSet) <> pInfo.(matchOne) /\ pInfo.(matchAll) <> pInfo.(matchOne).
Hypothesis set_esc : pInfo.(matchSet) = 0 \/ esc = 0.
Hypothesis set_ascii : 0 <= pInfo.(matchSet) < 0x80.

Abbreviation parse := (parse pInfo esc).
Abbreviation nc := (pInfo.(noCase)).

Lemma parse_cons c cs : parse (c :: cs) =
  if c =? pInfo.(matchAll) then cons IAny <$> parse cs
  else if c =? pInfo.(matchOne) then cons IOne <$> parse cs
  else if c =? pInfo.(matchSet) then
    match parse_set cs with
    | Some (i, cs) => cons i <$> parse cs
    | None => Some [INever]
    end
  else if c =? esc then
    match cs with
    | [] => None
    | c :: cs => cons (ILit c) <$> parse cs
    end
  else cons (ILit c) <$> parse cs.
Proof.
  unfold Like.parse. cbn [length]. rewrite parse_loop_S. destruct (c =? matchAll pInfo); [done|]. destruct (c =? matchOne pInfo); [done|].
  destruct (c =? matchSet pInfo).
  - destruct (parse_set cs) as [[i rest]|] eqn:Es; [|done]. apply parse_set_shorter in Es.
    rewrite (parse_loop_fuel _ _ (S (length cs)) (S (length rest))) by lia. done.
  - destruct (c =? esc); [|done]. destruct cs as [|c' cs]; [done|]. cbn [length].
    rewrite (parse_loop_fuel _ _ (S (S (length cs))) (S (length cs))) by lia. done.
Qed.

Lemma skip_wild_spec fuel : forall zPattern zString ps, (length zPattern < fuel)%nat -> parse (chars zPattern) = Some ps ->
  exists r, skip_wild fuel pInfo zPattern zString = Some r /\
  match r with
  | None => matches nc (IAny :: ps) (chars zString) = false
  | Some (c, z, s) => (length z <= length zPattern)%nat /\ exists ps', matches nc (IAny :: ps) (chars zString) = matches nc (IAny :: ps') (chars s) /\
      if c =? 0 then ps' = []
      else c <> pInfo.(matchAll) /\ c <> pInfo.(matchOne) /\ parse (c :: chars z) = Some ps' /\ (length z < length zPattern)%nat
  end.
Proof.
  induction fuel as [|fuel IH]; intros zPattern zString ps Hf Hps; [lia|]. cbn [skip_wild].
  destruct (read_from zPattern) as (c & z & Hr & Hc & Hle & Hl). rewrite Hr. rewrite Hc in Hps. unfold from in Hps.
  destruct (Z.eqb_spec c 0) as [->|Hc0].
  - injection Hps as <-. destruct wild_nonzero as [H1 H2]. rewrite (proj2 (Z.eqb_neq 0 _)) by done.
    rewrite (proj2 (Z.eqb_neq 0 (matchOne pInfo))) by done. cbn [orb].
    exists (Some (0, z, zString)). split; [done|]. split; [done|]. by exists [].
  - specialize (Hl Hc0). rewrite parse_cons in Hps.
    destruct (Z.eqb_spec c (matchAll pInfo)) as [->|Ha]; [|destruct (Z.eqb_spec c (matchOne pInfo)) as [->|Ho]]; cbn [orb].
    + rewrite (proj2 (Z.eqb_neq (matchAll pInfo) (matchOne pInfo))) by apply wild_set.
      destruct (parse (chars z)) as [ps1|] eqn:E; [|done]. injection Hps as <-.
      destruct (IH z zString ps1 ltac:(lia) E) as (r & Hrun & Hres). exists r. split; [done|].
      rewrite matches_any_any. destruct r as [[[c z'] s']|]; [|done].
      destruct Hres as (Hl' & ps' & Hm & Hcase). split; [lia|]. exists ps'. split; [done|].
      destruct (c =? 0); [done|]. destruct Hcase as (? & ? & ? & ?). repeat split; try done. lia.
    + destruct (parse (chars z)) as [ps1|] eqn:E; [|done]. injection Hps as <-.
      destruct (read_from zString) as (c2 & s & Hr2 & Hc2 & _). rewrite Hr2, Hc2, matches_any_one. unfold from.
      destruct (c2 =? 0); [by exists None|].
      destruct (IH z s ps1 ltac:(lia) E) as (r & Hrun & Hres). exists r. split; [done|].
      destruct r as [[[c z'] s']|]; [|done].
      destruct Hres as (Hl' & ps' & Hm & Hcase). split; [lia|]. exists ps'. split; [done|].
      destruct (c =? 0); [done|]. destruct Hcase as (? & ? & ? & ?). repeat split; try done. lia.
    + exists (Some (c, z, zString)). split; [done|]. split; [lia|]. exists ps. split; [done|].
      rewrite (proj2 (Z.eqb_neq _ _) Hc0). repeat split; try done. rewrite parse_cons.
      by rewrite (proj2 (Z.eqb_neq _ _) Ha), (proj2 (Z.eqb_neq _ _) Ho).
Qed.

(** *** The whole pattern *)

Lemma parse_set_item cs i rest : parse_set cs = Some (i, rest) -> exists inv rs, i = ISet inv rs.
Proof.
  unfold parse_set. destruct (match cs with 94 :: cs => (true, cs) | _ => (false, cs) end) as [b cs1].
  destruct (match cs1 with 93 :: cs => ([(93, 93)], cs) | _ => ([], cs1) end) as [f cs2].
  destruct (parse_ranges cs2 0) as [[rs rest']|]; [|done]. intros [= <- _]. by eexists _, _.
Qed.

(** The pattern from [zPattern] on, [esc] seen just before it or not. *)
Definition loop_ok (fuel : nat) (zPattern : list Z) : Prop :=
  (forall zString ps, parse (chars zPattern) = Some ps ->
     pattern_loop fuel pInfo esc false zPattern zString = Some (matches nc ps (chars zString))) /\
  (forall zString c cs ps, pInfo.(matchSet) = 0 -> chars zPattern = c :: cs -> parse cs = Some ps ->
     pattern_loop fuel pInfo esc true zPattern zString = Some (matches nc (ILit c :: ps) (chars zString))).

(** After a wildcard. *)
Lemma after_wild fuel c z s ps : (forall z', (length z' < fuel)%nat -> loop_ok fuel z') -> (S (length z) < fuel)%nat ->
  c <> 0 -> c <> pInfo.(matchAll) -> c <> pInfo.(matchOne) -> parse (c :: chars z) = Some ps ->
  (let lit c zPattern := find_lit (S (length s)) (pattern_loop fuel pInfo esc false zPattern) nc c s in
   if c =? esc then
     let '(c, z) := sqlite3Utf8Read z in if c =? 0 then Some false else lit c z
   else if c =? pInfo.(matchSet) then
     find_set (S (length s)) (pattern_loop fuel pInfo esc false (pInfo.(matchSet) :: z)) s
   else lit c z) = Some (matches nc (IAny :: ps) (chars s)).
Proof.
  intros IH Hz Hc Ha Ho Hps. cbn zeta. pose proof Hps as Hps0. rewrite parse_cons in Hps.
  rewrite (proj2 (Z.eqb_neq _ _) Ha), (proj2 (Z.eqb_neq _ _) Ho) in Hps.
  destruct (Z.eqb_spec c (matchSet pInfo)) as [->|Hs]; [|destruct (Z.eqb_spec c esc) as [->|He]].
  - destruct (Z.eqb_spec (matchSet pInfo) esc) as [E|_]; [destruct set_esc; congruence|].
    apply find_set_spec; [| |lia].
    + intros s'. apply IH; [cbn; lia|]. rewrite (chars_cons _ (matchSet pInfo) z); [done| |done].
      cbn [sqlite3Utf8Read]. destruct (Z.geb_spec (matchSet pInfo) 0xc0); [lia|done].
    + destruct (parse_set (chars z)) as [[i rest]|] eqn:E; [|by injection Hps as <-].
      destruct (parse_set_item _ _ _ E) as (inv & rs & ->). destruct (parse rest); [|done]. by injection Hps as <-.
  - destruct (read_from z) as (c1 & z1 & Hr & Hc1 & Hle & Hl). rewrite Hr. rewrite Hc1 in Hps. unfold from in Hps.
    destruct (Z.eqb_spec c1 0) as [->|Hc10]; [done|]. specialize (Hl Hc10).
    destruct (parse (chars z1)) as [ps1|] eqn:E; [|done]. injection Hps as <-.
    apply find_lit_spec; [|done|lia]. intros s'. apply IH; [lia|done].
  - destruct (parse (chars z)) as [ps1|] eqn:E; [|done]. injection Hps as <-.
    apply find_lit_spec; [|done|lia]. intros s'. apply IH; [lia|done].
Qed.

(** A literal character. *)
Lemma literal_step fuel c z zString ps : (length z < fuel)%nat -> (forall z', (length z' < fuel)%nat -> loop_ok fuel z') ->
  c <> 0 -> parse (chars z) = Some ps ->
  (let '(c2, zString) := sqlite3Utf8Read zString in
   let low x := if nc then GlogUpperToLower x else x in
   if negb (low c =? low c2) then Some false else pattern_loop fuel pInfo esc false z zString)
  = Some (matches nc (ILit c :: ps) (chars zString)).
Proof.
  intros Hz IH Hc Hps. destruct (read_from zString) as (x & s & Hr & Hx & _). rewrite Hr, Hx. unfold from.
  change (if nc then GlogUpperToLower c else c) with (fold_case nc c).
  change (if nc then GlogUpperToLower x else x) with (fold_case nc x). cbn zeta.
  destruct (Z.eqb_spec x 0) as [->|Hx0].
  - assert (fold_case nc 0 = 0) as -> by (destruct nc; done).
    by rewrite (proj2 (Z.eqb_neq _ _) (fold_nonzero nc c Hc)).
  - cbn [matches]. destruct (fold_case nc c =? fold_case nc x); [|done]. cbn [negb andb]. by apply IH.
Qed.

Lemma pattern_loop_ok fuel : forall zPattern, (length zPattern < fuel)%nat -> loop_ok fuel zPattern.
Proof.
  induction fuel as [|fuel IH]; intros zPattern Hf; [lia|]. split.
  - intros zString ps Hps. cbn [pattern_loop]. destruct (read_from zPattern) as (c & z & Hr & Hc & Hle & Hl).
    rewrite Hr. rewrite Hc in Hps. unfold from in Hps. destruct (Z.eqb_spec c 0) as [->|Hc0].
    { injection Hps as <-. rewrite peek_end. by destruct (chars zString). }
    specialize (Hl Hc0). rewrite parse_cons in Hps. cbn [negb]. rewrite !andb_true_r.
    destruct (Z.eqb_spec c (matchAll pInfo)) as [->|Ha]; [|destruct (Z.eqb_spec c (matchOne pInfo)) as [->|Ho];
      [|destruct (Z.eqb_spec c (matchSet pInfo)) as [->|Hs]]].
    + destruct (parse (chars z)) as [ps1|] eqn:E; [|done]. injection Hps as <-.
      destruct (skip_wild_spec (S (length z)) z zString ps1 ltac:(lia) E) as (r & Hrun & Hres).
      rewrite Hrun. cbn [mbind option_bind]. destruct r as [[[c z'] s]|]; [|by rewrite Hres].
      destruct Hres as (Hl' & ps' & -> & Hcase). destruct (Z.eqb_spec c 0) as [->|Hc0']; [subst ps'; by rewrite matches_any_end|].
      destruct Hcase as (Ha & Ho & Hps' & Hlt). apply after_wild; try done. lia.
    + destruct (parse (chars z)) as [ps1|] eqn:E; [|done]. injection Hps as <-.
      destruct (read_from zString) as (x & s & Hr2 & Hx & _). rewrite Hr2, Hx. unfold from.
      destruct (x =? 0); [done|]. by apply IH; [lia|].
    + destruct (read_from zString) as (x & s & Hr2 & Hx & _). rewrite Hr2, Hx. unfold from.
      pose proof (set_match_spec x z) as HM. destruct (parse_set (chars z)) as [[i rest]|] eqn:Es.
      * destruct (parse_set_item _ _ _ Es) as (inv & rs & ->). destruct HM as (z' & Hz' & Hlz & HM).
        rewrite <- Hz' in Hps. destruct (parse (chars z')) as [ps1|] eqn:E; [|done]. injection Hps as <-.
        destruct (x =? 0); [done|]. rewrite HM. cbn [mbind option_bind matches].
        destruct (xorb _ inv); [|done]. by apply IH; [lia|].
      * injection Hps as <-. destruct (x =? 0); [done|]. by rewrite HM.
    + rewrite (Z.eqb_sym esc). destruct (Z.eqb_spec c esc) as [->|He].
      * destruct (chars z) as [|c' cs] eqn:Hz; [done|]. destruct (parse cs) as [ps1|] eqn:E; [|done]. injection Hps as <-.
        assert (matchSet pInfo = 0) as Hs0 by (destruct set_esc; [done|congruence]).
        apply (proj2 (IH z ltac:(lia)) zString c' cs ps1 Hs0 Hz E).
      * destruct (parse (chars z)) as [ps1|] eqn:E; [|done]. injection Hps as <-. apply literal_step; [lia|done|done|done].
  - intros zString c cs ps Hs0 Hcs Hps. cbn [pattern_loop].
    destruct (read_from zPattern) as (c1 & z & Hr & Hc & Hle & Hl). rewrite Hr. rewrite Hc in Hcs. unfold from in Hcs.
    destruct (Z.eqb_spec c1 0) as [->|Hc0]; [done|]. injection Hcs as -> <-. specialize (Hl Hc0). cbn [negb].
    rewrite !andb_false_r, Hs0. rewrite (proj2 (Z.eqb_neq _ _) Hc0). apply literal_step; [lia|done|done|done].
Qed.
End pattern.

(** C9: patternCompare, on any bytes up to their terminators, matches the
    characters of the string against the items of the pattern: wildcards,
    sets with ranges and negation, escaped and plain characters, with ASCII
    case folded for LIKE.  It holds for GLOB and for both forms of LIKE with
    any escape character, for every pattern that does not end in the escape
    character. *)
Theorem patternCompare_correct zPattern zString pInfo esc ps :
  (pInfo = globInfo /\ esc = 0) \/ pInfo = likeInfoNorm \/ pInfo = likeInfoAlt ->
  parse pInfo esc (chars zPattern) = Some ps ->
  patternCompare zPattern zString pInfo esc = Some (matches pInfo.(noCase) ps (chars zString)).
Proof.
  intros Hi Hps. unfold patternCompare.
  refine (proj1 (pattern_loop_ok pInfo esc _ _ _ _ (S (length zPattern)) zPattern ltac:(lia)) zString ps Hps).
  - by destruct Hi as [[-> ->]|[-> | ->]].
  - by destruct Hi as [[-> ->]|[-> | ->]].
  - destruct Hi as [[-> ->]|[-> | ->]]; [by right|by left|by left].
  - by destruct Hi as [[-> ->]|[-> | ->]].
Qed.

(** 'A%\_b' with escape '\' and 'axx_B'; '*[^a-c]?' and 'abxz'. *)
Example patternCompare_correct_witness :
  patternCompare [65; 37; 92; 95; 98] [97; 120; 120; 95; 66] likeInfoNorm 92 = Some true /\
  patternCompare [42; 91; 94; 97; 45; 99; 93; 63] [97; 98; 120; 122] globInfo 0 = Some true.
Proof.
  split.
  - rewrite (patternCompare_correct [65; 37; 92; 95; 98] _ likeInfoNorm 92 [ILit 65; IAny; ILit 95; ILit 98]
      ltac:(by right; left) ltac:(vm_compute; reflexivity)).
    vm_compute. reflexivity.
  - rewrite (patternCompare_correct [42; 91; 94; 97; 45; 99; 93; 63] _ globInfo 0
      [IAny; ISet true [(97, 97); (97, 99)]; IOne] ltac:(by left) ltac:(vm_compute; reflexivity)).
    vm_compute. reflexivity.
Defined.

(** A pattern that ends in the escape character: the character is ignored, or
    nothing matches if a wildcard precedes it. *)
Example trailing_escape :
  patternCompare [97; 92] [97] likeInfoNorm 92 = Some true /\
  patternCompare [97; 37; 92] [97] likeInfoNorm 92 = Some false.
Proof. split; vm_compute; reflexivity. Qed.
