(* ===== verification/Hash.v ===== *)
(** * The symbol tables (hash.c)

    All elements of a [Hash] are on one doubly linked list; the elements of a
    bucket are a run of that list, given by its first element and its length.
    Elements live in a store and are addressed by numbers, 0 being NULL.  Keys
    are compared without regard to case. *)

From S2P Require Import Prelude Ctype.

(** ** Data *)

Record HashElem := mkElem { next : Z; prev : Z; data : Z; pKey : list Z; nKey : Z }.

(** [ht] is the array of [count] and [chain] of the buckets. *)
Record Hash := mkHash { htsize : Z; count : Z; first : Z; ht : option (list (Z * Z)) }.

Abbreviation elems := (gmap Z HashElem).

Definition SQLITE_MALLOC_SOFT_LIMIT : Z := 1024.
Definition SIZEOF_HT : Z := 16.

Definition set_next (x : Z) (e : HashElem) := mkElem x e.(prev) e.(data) e.(pKey) e.(nKey).
Definition set_prev (x : Z) (e : HashElem) := mkElem e.(next) x e.(data) e.(pKey) e.(nKey).

(** Writing through a pointer. *)
Definition store (es : elems) (p : Z) (f : HashElem -> HashElem) : option elems :=
  e ← es !! p; Some (<[p := f e]> es).

(** ** Operations *)

Definition sqlite3HashInit : Hash := mkHash 0 0 0 None.

(** [while( elem )], freeing the elements. *)
Fixpoint free_all (fuel : nat) (elem : Z) (es : elems) : option elems :=
  match fuel with
  | O => None
  | S fuel =>
      if elem =? 0 then Some es
      else e ← es !! elem; free_all fuel e.(next) (delete elem es)
  end.

Definition sqlite3HashClear (pH : Hash) (es : elems) : option (Hash * elems) :=
  es ← free_all (S (size es)) pH.(first) es;
  Some (mkHash 0 0 0 None, es).

Definition strHash (z : list Z) (nKey : Z) : Z :=
  u32 (foldl (fun h c => i32 (Z.lxor (Z.lxor (i32 (Z.shiftl h 3)) h) (UpperToLower c))) 0
         (take (Z.to_nat nKey) z)).

(** [pH->first], the bucket and the elements afterwards. *)
Definition insertElement (first : Z) (pEntry : option (Z * Z)) (pNew : Z) (es : elems)
    : option (Z * option (Z * Z) * elems) :=
  let '(pHead, pEntry) :=
    match pEntry with
    | Some (count, chain) => (if count =? 0 then 0 else chain, Some (i32 (count + 1), pNew))
    | None => (0, None)
    end in
  if negb (pHead =? 0) then
    h ← es !! pHead;
    es ← store es pNew (fun e => set_prev h.(prev) (set_next pHead e));
    '(es, first) ← (if negb (h.(prev) =? 0)
                    then es ← store es h.(prev) (set_next pNew); Some (es, first)
                    else Some (es, pNew));
    es ← store es pHead (set_prev pNew);
    Some (first, pEntry, es)
  else
    es ← store es pNew (set_next first);
    es ← (if negb (first =? 0) then store es first (set_prev pNew) else Some es);
    es ← store es pNew (set_prev 0);
    Some (pNew, pEntry, es).

(** The loop that fills the new table. *)
Fixpoint rehash_loop (fuel : nat) (elem first : Z) (new_ht : list (Z * Z)) (es : elems)
    : option (Z * list (Z * Z) * elems) :=
  match fuel with
  | O => None
  | S fuel =>
      if elem =? 0 then Some (first, new_ht, es)
      else
        e ← es !! elem;
        let h := Z.to_nat (strHash e.(pKey) e.(nKey) mod Z.of_nat (length new_ht)) in
        entry ← new_ht !! h;
        '(first, entry, es) ← insertElement first (Some entry) elem es;
        entry ← entry;
        rehash_loop fuel e.(next) first (<[h := entry]> new_ht) es
  end.

(** [alloc]: the number of buckets that fit the block malloc returns. *)
Definition rehash (pH : Hash) (new_size : Z) (alloc : option nat) (es : elems) : option (bool * Hash * elems) :=
  let new_size :=
    if SQLITE_MALLOC_SOFT_LIMIT <? u64 (new_size * SIZEOF_HT)
    then SQLITE_MALLOC_SOFT_LIMIT / SIZEOF_HT else new_size in
  if new_size =? pH.(htsize) then Some (false, pH, es)
  else
    match alloc with
    | None => Some (false, pH, es)
    | Some n =>
        '(first, t, es) ← rehash_loop (S (size es)) pH.(first) 0 (replicate n (0, 0)) es;
        Some (true, mkHash (u32 (Z.of_nat n)) pH.(count) first (Some t), es)
    end.

Fixpoint find_loop (count : nat) (es : elems) (elem : Z) (key : list Z) (n : Z) : option Z :=
  match count with
  | O => Some 0
  | S count =>
      if elem =? 0 then Some 0
      else
        e ← es !! elem;
        if (e.(nKey) =? n) && (sqlite3_strnicmp e.(pKey) key n =? 0) then Some elem
        else find_loop count es e.(next) key n
  end.

Definition findElementGivenHash (pH : Hash) (es : elems) (key : list Z) (n : Z) (h : nat) : option Z :=
  match pH.(ht) with
  | Some t => '(count, chain) ← t !! h; find_loop (Z.to_nat count) es chain key n
  | None => find_loop (Z.to_nat pH.(count)) es pH.(first) key n
  end.

Definition removeElementGivenHash (pH : Hash) (es : elems) (elem : Z) (h : nat) : option (Hash * elems) :=
  e ← es !! elem;
  '(es, first) ← (if negb (e.(prev) =? 0) then es ← store es e.(prev) (set_next e.(next)); Some (es, pH.(first))
                  else Some (es, e.(next)));
  es ← (if negb (e.(next) =? 0) then store es e.(next) (set_prev e.(prev)) else Some es);
  t ← (match pH.(ht) with
       | Some t =>
           '(count, chain) ← t !! h;
           Some (Some (<[h := (i32 (count - 1), if chain =? elem then e.(next) else chain)]> t))
       | None => Some None
       end);
  let es := delete elem es in
  let pH := mkHash pH.(htsize) (u32 (pH.(count) - 1)) first t in
  if pH.(count) =? 0 then sqlite3HashClear pH es else Some (pH, es).

Definition bucket_of (pH : Hash) (key : list Z) (n : Z) : nat :=
  match pH.(ht) with
  | Some _ => Z.to_nat (strHash key n mod pH.(htsize))
  | None => O
  end.

Definition sqlite3HashFind (pH : Hash) (es : elems) (key : list Z) (n : Z) : option Z :=
  elem ← findElementGivenHash pH es key n (bucket_of pH key n);
  if elem =? 0 then Some 0 else e ← es !! elem; Some e.(data).

(** [pNew] and [alloc] are what the two allocations return. *)
Definition sqlite3HashInsert (pH : Hash) (es : elems) (key : list Z) (n d : Z)
    (pNew : option Z) (alloc : option nat) : option (Z * Hash * elems) :=
  let h := if negb (pH.(htsize) =? 0) then Z.to_nat (strHash key n mod pH.(htsize)) else O in
  elem ← findElementGivenHash pH es key n h;
  if negb (elem =? 0) then
    e ← es !! elem;
    if d =? 0 then
      '(pH, es) ← removeElementGivenHash pH es elem h; Some (e.(data), pH, es)
    else
      Some (e.(data), pH, <[elem := mkElem e.(next) e.(prev) d key e.(nKey)]> es)
  else if d =? 0 then Some (0, pH, es)
  else
    match pNew with
    | None => Some (d, pH, es)
    | Some p =>
        let es := <[p := mkElem 0 0 d key n]> es in
        let pH := mkHash pH.(htsize) (u32 (pH.(count) + 1)) pH.(first) pH.(ht) in
        '(h, pH, es) ←
          (if (10 <=? pH.(count)) && (u32 (2 * pH.(htsize)) <? pH.(count)) then
             '(ok, pH, es) ← rehash pH (u32 (pH.(count) * 2)) alloc es;
             Some (if (ok : bool) then Z.to_nat (strHash key n mod pH.(htsize)) else h, pH, es)
           else Some (h, pH, es));
        match pH.(ht) with
        | Some t =>
            entry ← t !! h;
            '(first, entry, es) ← insertElement pH.(first) (Some entry) p es;
            entry ← entry;
            Some (0, mkHash pH.(htsize) pH.(count) first (Some (<[h := entry]> t)), es)
        | None =>
            '(first, _, es) ← insertElement pH.(first) None p es;
            Some (0, mkHash pH.(htsize) pH.(count) first None, es)
        end
    end.

(** ** The list *)

(** The elements of [L], from [pr] to [nx]. *)
Fixpoint seg (es : elems) (pr : Z) (L : list Z) (nx : Z) : Prop :=
  match L with
  | [] => True
  | p :: L => (exists e, es !! p = Some e /\ e.(prev) = pr /\ e.(next) = hd nx L) /\ seg es p L nx
  end.

Definition lst (pr : Z) (L : list Z) : Z := default pr (last L).

Lemma lst_cons pr p L : lst pr (p :: L) = lst p L.
Proof. destruct L as [|q L]; [done|]. unfold lst. change (last (p :: q :: L)) with (last (q :: L)).
  destruct (last (q :: L)) eqn:E; [done|]. by apply last_None in E. Qed.

Lemma hd_app nx (l1 l2 : list Z) : hd nx (l1 ++ l2) = hd (hd nx l2) l1.
Proof. by destruct l1. Qed.

Lemma seg_app es l1 : forall pr l2 nx, seg es pr (l1 ++ l2) nx <-> seg es pr l1 (hd nx l2) /\ seg es (lst pr l1) l2 nx.
Proof.
  induction l1 as [|p l1 IH]; intros pr l2 nx; [cbn; tauto|]. cbn [app seg]. rewrite IH, hd_app, lst_cons. tauto.
Qed.

Lemma seg_ext es es' L : forall pr nx, (forall p, p ∈ L -> es' !! p = es !! p) -> seg es pr L nx -> seg es' pr L nx.
Proof.
  induction L as [|p L IH]; intros pr nx HE; [done|]. cbn [seg]. intros [(e & He & ?) Hs]. split.
  - exists e. by rewrite HE by left.
  - apply IH; [|done]. intros q Hq. apply HE. by right.
Qed.

Definition listed (es : elems) (L : list Z) (first : Z) : Prop :=
  first = hd 0 L /\ seg es 0 L 0 /\ NoDup L /\ ~ 0 ∈ L.

(** The same elements up to their links. *)
Definition same_links (e e' : HashElem) : Prop :=
  e'.(data) = e.(data) /\ e'.(pKey) = e.(pKey) /\ e'.(nKey) = e.(nKey).

Definition relinked (es es' : elems) (L : list Z) : Prop :=
  (forall p, ~ p ∈ L -> es' !! p = es !! p) /\
  (forall p e, es !! p = Some e -> exists e', es' !! p = Some e' /\ same_links e e') /\
  dom es' = dom es.

Lemma relinked_refl es L : relinked es es L.
Proof. split; [done|]. split; [|done]. intros p e He. by exists e. Qed.

Lemma relinked_trans es1 es2 es3 L : relinked es1 es2 L -> relinked es2 es3 L -> relinked es1 es3 L.
Proof.
  intros (A & B & C) (A' & B' & C'). split; [intros p Hp; by rewrite A', A|]. split; [|by rewrite C'].
  intros p e He. destruct (B p e He) as (e1 & He1 & ? & ? & ?). destruct (B' p e1 He1) as (e2 & He2 & ? & ? & ?).
  exists e2. split; [done|]. split; [congruence|]. split; congruence.
Qed.

Lemma relinked_mono es es' L L' : (forall p, p ∈ L -> p ∈ L') -> relinked es es' L -> relinked es es' L'.
Proof. intros HL (A & B & C). split; [|done]. intros p Hp. apply A. by intros ?%HL. Qed.

Lemma store_some es p e f : es !! p = Some e -> store es p f = Some (<[p := f e]> es).
Proof. intros He. unfold store. by rewrite He. Qed.

Lemma store_relinked es p e f L : es !! p = Some e -> p ∈ L -> (forall e, same_links e (f e)) ->
  relinked es (<[p := f e]> es) L.
Proof.
  intros He Hp Hf. split.
  - intros q Hq. apply lookup_insert_ne. by intros ->.
  - split; [|by apply dom_insert_lookup_L; eexists]. intros q e' He'. destruct (decide (p = q)) as [<-|Hne].
    + rewrite lookup_insert_eq. eexists. split; [done|]. rewrite He in He'. injection He' as <-. apply Hf.
    + rewrite lookup_insert_ne by done. by exists e'.
Qed.

(** Changing what the list is continued with. *)
Lemma seg_retarget es pr l q nx nx' e : NoDup (l ++ [q]) -> seg es pr (l ++ [q]) nx -> es !! q = Some e ->
  seg (<[q := set_next nx' e]> es) pr (l ++ [q]) nx'.
Proof.
  intros Hnd Hs He. apply seg_app in Hs as [H1 [(e' & He' & Hpr & Hnx) _]].
  apply NoDup_app in Hnd as (_ & Hd & _). apply seg_app. split.
  - eapply seg_ext; [|exact H1]. intros p Hp. apply lookup_insert_ne. intros <-. apply (Hd q Hp). left.
  - split; [|done]. exists (set_next nx' e). rewrite lookup_insert_eq. split; [done|]. split; [|done].
    rewrite He in He'. by injection He' as <-.
Qed.

Lemma nodup_middle (l1 l2 : list Z) x : NoDup (l1 ++ x :: l2) <-> ~ x ∈ l1 /\ ~ x ∈ l2 /\ NoDup (l1 ++ l2).
Proof.
  rewrite NoDup_app, NoDup_app, NoDup_cons. split.
  - intros (H1 & Hd & Hx & H2). split; [intros Hx1; apply (Hd x Hx1); left|]. split; [done|]. split; [done|].
    split; [|done]. intros y Hy Hy2. apply (Hd y Hy). by right.
  - intros (Hx1 & Hx2 & H1 & Hd & H2). split; [done|]. split; [|done]. intros y Hy [-> | Hy2]%elem_of_cons; [done|by apply (Hd y)].
Qed.

(** Linking [p] before [h]. *)
Lemma link_before es l1 h l2 e p : seg es 0 (l1 ++ h :: l2) 0 -> NoDup (l1 ++ h :: l2) -> ~ 0 ∈ l1 ++ h :: l2 ->
  ~ p ∈ l1 ++ h :: l2 -> es !! p = Some e -> p <> 0 ->
  exists eh es1 es', es !! h = Some eh /\ store es p (fun e => set_prev eh.(prev) (set_next h e)) = Some es1 /\
    (if negb (eh.(prev) =? 0) then es ← store es1 eh.(prev) (set_next p); Some (es, hd 0 (l1 ++ h :: l2))
     else Some (es1, p)) = Some (es', hd 0 (l1 ++ p :: h :: l2)) /\
    exists es2, store es' h (set_prev p) = Some es2 /\ seg es2 0 (l1 ++ p :: h :: l2) 0 /\
      relinked es es2 (p :: l1 ++ h :: l2).
Proof.
  intros Hs Hnd H0 Hp He Hp0. pose proof Hs as Hs0. apply seg_app in Hs as [Hs1 [(eh & Heh & Hpr & Hnx) Hs2]].
  assert (h <> p /\ ~ p ∈ l1 /\ ~ p ∈ l2) as (Hhp & Hpl1 & Hpl2).
  { split; [intros ->; apply Hp, elem_of_app; right; left|]. split; intros Hin; apply Hp, elem_of_app; [by left|right; by right]. }
  apply nodup_middle in Hnd as (Hhl1 & Hhl2 & Hnd). set (new := set_prev (prev eh) (set_next h e)).
  set (es1 := <[p := new]> es).
  exists eh, es1. cbn [hd].
  assert (relinked es es1 (p :: l1 ++ h :: l2)) as HR1 by (eapply (store_relinked _ _ _ (fun e => set_prev (prev eh) (set_next h e))); [done|left|done]).
  assert (forall q, q <> p -> es1 !! q = es !! q) as Hes1 by (intros q Hq; by apply lookup_insert_ne).
  destruct l1 as [|q l1 _] using rev_ind.
  - exists es1. split; [done|]. split; [by rewrite (store_some es p e _ He)|]. split; [by rewrite Hpr|].
    eexists. split; [apply store_some; by rewrite Hes1|]. split.
    + cbn [app seg hd]. split.
      { exists new. rewrite lookup_insert_ne by done. unfold es1. rewrite lookup_insert_eq. split; [done|]. split; [exact Hpr|done]. }
      split; [exists (set_prev p eh); by rewrite lookup_insert_eq|].
      eapply seg_ext; [|exact Hs2]. intros q Hq. rewrite lookup_insert_ne by (by intros <-). apply Hes1. by intros ->.
    + eapply relinked_trans; [exact HR1|]. eapply store_relinked; [by rewrite Hes1|right; left|done].
  - assert (q <> 0 /\ q <> h /\ q <> p) as (Hq0 & Hqh & Hqp).
    { split; [intros ->; apply H0, elem_of_app; left; apply elem_of_app; right; left|].
      split; [intros ->; apply Hhl1, elem_of_app; right; left|intros ->; apply Hpl1, elem_of_app; right; left]. }
    unfold lst in Hpr. rewrite last_snoc in Hpr. change (prev eh = q) in Hpr.
    pose proof Hs1 as Hs1'. apply seg_app in Hs1' as [_ [(eq & Heq & Heqp & Heqn) _]].
    set (es2 := <[q := set_next p eq]> es1).
    assert (relinked es es2 (p :: (l1 ++ [q]) ++ h :: l2)) as HR2.
    { eapply relinked_trans; [exact HR1|]. eapply store_relinked; [by rewrite Hes1| |done].
      right. apply elem_of_app. left. apply elem_of_app. right. left. }
    assert (es2 !! h = Some eh) as Hh2 by (unfold es2; rewrite lookup_insert_ne by done; by rewrite Hes1).
    exists es2. split; [done|]. split; [by rewrite (store_some es p e _ He)|]. split.
    { rewrite Hpr, (proj2 (Z.eqb_neq q 0) Hq0). cbn [negb]. rewrite (store_some es1 q eq _); [|by rewrite Hes1].
      cbn [mbind option_bind]. do 2 f_equal. by destruct l1. }
    eexists. split; [by apply store_some|]. split.
    + apply seg_app. cbn [hd]. split.
      * apply NoDup_app in Hnd as (Hnd1 & _ & _).
        eapply seg_ext; [|apply (seg_retarget es 0 l1 q h p eq Hnd1 Hs1 Heq)]. intros x Hx.
        assert (x <> h /\ x <> p) as [Hxh Hxp] by (split; intros ->; done).
        rewrite lookup_insert_ne by done. unfold es2. destruct (decide (q = x)) as [<-|Hne].
        -- by rewrite !lookup_insert_eq.
        -- rewrite !lookup_insert_ne by done. by apply Hes1.
      * unfold lst. rewrite last_snoc. cbn [default seg hd]. split.
        { exists new. rewrite lookup_insert_ne by done. unfold es2. rewrite lookup_insert_ne by done. unfold es1. rewrite lookup_insert_eq. split; [done|]. split; [exact Hpr|done]. }
        split; [exists (set_prev p eh); by rewrite lookup_insert_eq|].
        eapply seg_ext; [|exact Hs2]. intros x Hx. rewrite lookup_insert_ne by (by intros <-).
        unfold es2. rewrite lookup_insert_ne; [apply Hes1; by intros ->|].
        intros <-. apply NoDup_app in Hnd as (_ & Hd & _). apply (Hd q); [apply elem_of_app; right; left|done].
    + eapply relinked_trans; [exact HR2|]. eapply store_relinked; [done| |done].
      right. apply elem_of_app. right. left.
Qed.

(** Linking [p] in front. *)
Lemma link_front es L e p : seg es 0 L 0 -> NoDup L -> ~ 0 ∈ L -> ~ p ∈ L -> es !! p = Some e ->
  exists es1 es2, store es p (set_next (hd 0 L)) = Some es1 /\
    (if negb (hd 0 L =? 0) then store es1 (hd 0 L) (set_prev p) else Some es1) = Some es2 /\
    exists es3, store es2 p (set_prev 0) = Some es3 /\ seg es3 0 (p :: L) 0 /\ relinked es es3 (p :: L).
Proof.
  intros Hs Hnd H0 Hp He. set (es1 := <[p := set_next (hd 0 L) e]> es). exists es1.
  assert (relinked es es1 (p :: L)) as HR1 by (eapply store_relinked; [done|left|done]).
  assert (forall q, q <> p -> es1 !! q = es !! q) as Hes1 by (intros q Hq; by apply lookup_insert_ne).
  assert (es1 !! p = Some (set_next (hd 0 L) e)) as Hp1 by (unfold es1; by rewrite lookup_insert_eq).
  destruct L as [|h L]; cbn [hd].
  - exists es1. split; [by rewrite (store_some es p e _ He)|]. split; [done|].
    eexists. split; [by apply store_some|]. split.
    + cbn [seg hd]. split; [|done]. eexists. by rewrite lookup_insert_eq.
    + eapply relinked_trans; [exact HR1|]. eapply store_relinked; [done|left|done].
  - destruct Hs as [(eh & Heh & Hpr & Hnx) Hs]. apply NoDup_cons in Hnd as [HhL Hnd].
    apply not_elem_of_cons in H0 as [Hh0 H0]. apply not_elem_of_cons in Hp as [Hph HpL].
    set (es2 := <[h := set_prev p eh]> es1). exists es2.
    split; [by rewrite (store_some es p e _ He)|]. split.
    { rewrite (proj2 (Z.eqb_neq h 0)) by done. cbn [negb]. rewrite (store_some es1 h eh); [done|by rewrite Hes1]. }
    assert (relinked es es2 (p :: h :: L)) as HR2.
    { eapply relinked_trans; [exact HR1|]. eapply store_relinked; [by rewrite Hes1|right; left|done]. }
    eexists. split; [apply store_some; unfold es2; rewrite lookup_insert_ne by done; exact Hp1|]. split.
    + cbn [seg hd]. split; [eexists; by rewrite lookup_insert_eq|]. split.
      * exists (set_prev p eh). rewrite lookup_insert_ne by done. unfold es2. by rewrite lookup_insert_eq.
      * eapply seg_ext; [|exact Hs]. intros q Hq.
        rewrite lookup_insert_ne by (by intros <-). unfold es2. rewrite lookup_insert_ne by (by intros <-).
        apply Hes1. by intros ->.
    + eapply relinked_trans; [exact HR2|]. eapply store_relinked; [|left|done].
      unfold es2. rewrite lookup_insert_ne by done. exact Hp1.
Qed.

(** ** Buckets *)

(** Bucket [b] is the run of the elements that [bk] puts there. *)
Definition run_of (bk : Z -> nat) (L : list Z) (b : nat) (entry : Z * Z) : Prop :=
  exists l1 s l2, L = l1 ++ s ++ l2 /\ entry.1 = Z.of_nat (length s) /\ (s <> [] -> entry.2 = hd 0 s) /\
    forall p, p ∈ L -> bk p = b <-> p ∈ s.

Definition buckets (bk : Z -> nat) (t : list (Z * Z)) (L : list Z) : Prop :=
  forall b entry, t !! b = Some entry -> run_of bk L b entry.

(** A run without [h] lies before or after it. *)
Lemma run_beside (l1 l2 m1 s m2 : list Z) h : l1 ++ h :: l2 = m1 ++ s ++ m2 -> ~ h ∈ s ->
  (exists x, l1 = m1 ++ s ++ x /\ m2 = x ++ h :: l2) \/ (exists y, m1 = l1 ++ h :: y /\ l2 = y ++ s ++ m2).
Proof.
  intros E Hh. rewrite (assoc_L _ m1) in E. apply app_eq_inv in E as [(x & -> & ->) | (k & E1 & E2)].
  - left. exists x. by rewrite <- (assoc_L _ m1).
  - destruct k as [|h' k]; cbn in E2.
    + left. exists []. rewrite app_nil_r in E1. rewrite app_nil_r. by split.
    + injection E2 as <- ->. symmetry in E1. apply app_eq_inv in E1 as [(y & -> & E1) | (y & -> & E1)].
      * exfalso. apply Hh. rewrite E1. apply elem_of_app. right. left.
      * destruct y as [|h' y]; cbn in E1; [exfalso; apply Hh; rewrite <- E1; left|].
        injection E1 as <- ->. right. exists y. by rewrite <- (assoc_L _ y).
Qed.

(** A new element between the runs. *)
Lemma run_insert bk l1 h l2 p b b' entry : run_of bk (l1 ++ h :: l2) b' entry -> bk h = b -> bk p = b -> b' <> b ->
  run_of bk (l1 ++ p :: h :: l2) b' entry.
Proof.
  intros (m1 & s & m2 & HL & Hc & Hch & Hin) Hh Hp Hne.
  assert (~ h ∈ s) as Hhs by (intros Hs; apply (Hin h) in Hs; [congruence|apply elem_of_app; right; left]).
  assert (forall q, q ∈ l1 ++ p :: h :: l2 -> bk q = b' <-> q ∈ s) as Hin'.
  { intros q Hq. destruct (decide (q = p)) as [->|Hqp]; [|apply Hin; set_solver].
    split; [congruence|]. intros Hs. apply (Hin p) in Hs; [congruence|]. rewrite HL. set_solver. }
  destruct (run_beside _ _ _ _ _ _ HL Hhs) as [(x & -> & ->) | (y & -> & ->)].
  - exists m1, s, (x ++ p :: h :: l2). split; [by rewrite <- !(assoc_L (++))|done].
  - exists (l1 ++ p :: h :: y), s, m2. split; [by rewrite <- !(assoc_L (++))|done].
Qed.

Lemma run_front bk L p b b' entry : run_of bk L b' entry -> bk p = b -> b' <> b -> run_of bk (p :: L) b' entry.
Proof.
  intros (m1 & s & m2 & -> & Hc & Hch & Hin) Hp Hne. exists (p :: m1), s, m2. split; [done|]. split; [done|]. split; [done|].
  intros q [-> | Hq]%elem_of_cons; [|by apply Hin]. split; [congruence|].
  intros Hs. apply (Hin p) in Hs; [congruence|set_solver].
Qed.

Lemma insert_table es L first t bk p e b entry : listed es L first -> buckets bk t L -> t !! b = Some entry ->
  es !! p = Some e -> ~ p ∈ L -> p <> 0 -> bk p = b -> Z.of_nat (length L) < 2 ^ 30 ->
  exists first' entry' es' L', insertElement first (Some entry) p es = Some (first', Some entry', es') /\
    listed es' L' first' /\ buckets bk (<[b := entry']> t) L' /\ L' ≡ₚ p :: L /\ relinked es es' (p :: L).
Proof.
  intros (-> & Hs & Hnd & H0) Hb Hbt He Hp Hp0 Hbk Hlen. destruct (Hb b entry Hbt) as (l1 & s & l2 & HL & Hc & Hch & Hin).
  destruct entry as [c ch]. cbn [fst snd] in Hc, Hch.
  assert (Z.of_nat (length s) <= Z.of_nat (length L)) as Hls by (rewrite HL, !length_app; lia).
  unfold insertElement. destruct s as [|h s].
  - subst c. cbn [length Z.of_nat Z.eqb negb]. cbn [app] in HL.
    destruct (link_front es L e p Hs Hnd H0 Hp He) as (es1 & es2 & Hr1 & Hr2 & es3 & Hr3 & Hs3 & HR).
    eexists p, _, es3, (p :: L). split.
    { rewrite Hr1. cbn [mbind option_bind]. rewrite Hr2. cbn [mbind option_bind]. by rewrite Hr3. }
    split; [split; [done|split; [done|split; [by apply NoDup_cons|]]]; intros [E | ?]%elem_of_cons; [by apply Hp0|done]|].
    split; [|split; [done|done]]. intros b' entry' [(<- & <- & _) | [Hne Hb']]%list_lookup_insert_Some.
    + exists [], [p], L. split; [done|]. split; [done|]. split; [done|].
      intros q [-> | Hq]%elem_of_cons; [by rewrite list_elem_of_singleton|]. rewrite (Hin q Hq), list_elem_of_singleton.
      split; [by intros ?%elem_of_nil|]. intros ->. done.
    + eapply run_front; [by apply Hb|done|done].
  - assert (c <> 0) as Hc0 by (rewrite Hc; cbn; lia). rewrite (proj2 (Z.eqb_neq c 0) Hc0).
    specialize (Hch ltac:(done)). cbn [hd] in Hch. subst ch. cbn [app] in HL. subst L.
    assert (h <> 0) as Hh0 by (intros ->; apply H0; set_solver). rewrite (proj2 (Z.eqb_neq h 0) Hh0). cbn [negb].
    destruct (link_before es l1 h (s ++ l2) e p Hs Hnd H0 Hp He Hp0) as (eh & es1 & es2 & Hr1 & Hr2 & Hr3 & es3 & Hr4 & Hs3 & HR).
    rewrite Hr1. cbn [mbind option_bind]. rewrite Hr2. cbn [mbind option_bind]. rewrite Hr3. cbn [mbind option_bind]. rewrite Hr4.
    eexists _, _, es3, (l1 ++ p :: h :: s ++ l2). split; [done|].
    assert (l1 ++ p :: h :: s ++ l2 ≡ₚ p :: l1 ++ h :: s ++ l2) as HP by (by rewrite <- Permutation_middle).
    split; [split; [done|split; [done|split; [rewrite HP; by apply NoDup_cons|]]]; rewrite HP; intros [E | ?]%elem_of_cons; [by apply Hp0|done]|].
    split; [|split; [done|done]]. intros b' entry' [(<- & <- & _) | [Hne Hb']]%list_lookup_insert_Some.
    + exists l1, (p :: h :: s), l2. split; [done|]. split.
      { cbn [fst length]. rewrite Hc. cbn [length]. rewrite wrap_s_small; [lia|lia|]. unfold in_s. cbn [length] in Hls. lia. }
      split; [done|]. intros q Hq. rewrite HP in Hq. apply elem_of_cons in Hq as [-> | Hq].
      * split; [intros _; left|done].
      * rewrite (Hin q Hq), !elem_of_cons. split; [by right|]. intros [-> | ?]; [done|done].
    + eapply (run_insert _ _ _ _ _ b); [by apply Hb| |done|done]. apply Hin; [set_solver|left].
Qed.

(** Taking an element out. *)
Lemma run_remove bk l1 p l2 b entry : NoDup (l1 ++ p :: l2) -> run_of bk (l1 ++ p :: l2) b entry -> bk p <> b ->
  run_of bk (l1 ++ l2) b entry.
Proof.
  intros Hnd (m1 & s & m2 & HL & Hc & Hch & Hin) Hp.
  assert (~ p ∈ s) as Hps by (intros Hs; apply (Hin p) in Hs; [done|set_solver]).
  assert (forall q, q ∈ l1 ++ l2 -> bk q = b <-> q ∈ s) as Hin' by (intros q Hq; apply Hin; set_solver).
  destruct (run_beside _ _ _ _ _ _ HL Hps) as [(x & -> & ->) | (y & -> & ->)].
  - exists m1, s, (x ++ l2). split; [by rewrite <- !(assoc_L (++))|done].
  - exists (l1 ++ y), s, m2. split; [by rewrite <- !(assoc_L (++))|done].
Qed.

Lemma split_unique (l1 l2 k1 k2 : list Z) p : ~ p ∈ l1 -> ~ p ∈ k1 -> l1 ++ p :: l2 = k1 ++ p :: k2 -> l1 = k1 /\ l2 = k2.
Proof.
  revert k1. induction l1 as [|x l1 IH]; intros [|y k1] H1 H2 E; cbn in E; [by injection E| | |].
  - injection E as <- _. exfalso. apply H2. left.
  - injection E as -> _. exfalso. apply H1. left.
  - injection E as <- E. apply not_elem_of_cons in H1 as [_ H1]. apply not_elem_of_cons in H2 as [_ H2].
    by destruct (IH k1 H1 H2 E) as [-> ->].
Qed.

Lemma run_remove_own bk l1 p l2 b c ch nx : NoDup (l1 ++ p :: l2) -> run_of bk (l1 ++ p :: l2) b (c, ch) -> bk p = b ->
  nx = hd 0 l2 -> Z.of_nat (length (l1 ++ p :: l2)) < 2 ^ 30 ->
  run_of bk (l1 ++ l2) b (i32 (c - 1), if ch =? p then nx else ch).
Proof.
  intros Hnd (m1 & s & m2 & HL & Hc & Hch & Hin) Hp -> Hlen. cbn [fst snd] in *.
  assert (p ∈ s) as Hps by (apply Hin; [set_solver|done]).
  assert (0 < c < 2 ^ 30) as Hcb.
  { assert (length s <= length (l1 ++ p :: l2))%nat by (rewrite HL, !length_app; lia).
    destruct s; [by apply elem_of_nil in Hps|]. cbn [length] in *. lia. }
  apply list_elem_of_split in Hps as (s1 & s2 & ->).
  pose proof Hnd as Hnd0. apply nodup_middle in Hnd as (Hn1 & Hn2 & _).
  assert (l1 = m1 ++ s1 /\ l2 = s2 ++ m2) as [-> ->].
  { rewrite <- (assoc_L (++)), (assoc_L _ m1) in HL. cbn [app] in HL. apply split_unique in HL; [done|done|].
    rewrite HL in Hnd0. by apply nodup_middle in Hnd0 as (? & _). }
  exists m1, (s1 ++ s2), m2. split; [by rewrite <- !(assoc_L (++))|]. cbn [fst snd]. split.
  { rewrite wrap_s_small by (lia || (unfold in_s; lia)). rewrite length_app in *. cbn [length] in *. lia. }
  specialize (Hch ltac:(by destruct s1)). split.
  - intros Hne. rewrite Hch. destruct s1 as [|h s1]; cbn [app hd] in *.
    + rewrite Z.eqb_refl. by destruct s2.
    + rewrite (proj2 (Z.eqb_neq h p)); [done|]. intros ->. apply Hn1. set_solver.
  - intros q Hq. assert (q <> p) as Hqp by (intros ->; set_solver). rewrite Hin by set_solver. set_solver.
Qed.

Lemma remove_buckets bk t l1 p l2 b c ch : NoDup (l1 ++ p :: l2) -> buckets bk t (l1 ++ p :: l2) -> bk p = b ->
  t !! b = Some (c, ch) -> Z.of_nat (length (l1 ++ p :: l2)) < 2 ^ 30 ->
  buckets bk (<[b := (i32 (c - 1), if ch =? p then hd 0 l2 else ch)]> t) (l1 ++ l2).
Proof.
  intros Hnd Hb Hp Ht Hlen b' entry [(<- & <- & _) | [Hne Hb']]%list_lookup_insert_Some.
  - eapply run_remove_own; [exact Hnd|by apply Hb|done|done|done].
  - eapply run_remove; [exact Hnd|by apply Hb|by rewrite Hp].
Qed.

Lemma seg_head es pr pr' L nx e : seg es pr L nx -> NoDup L -> es !! hd 0 L = Some e -> L <> [] ->
  seg (<[hd 0 L := set_prev pr' e]> es) pr' L nx.
Proof.
  destruct L as [|h L]; [done|]. cbn [seg hd]. intros [(e' & He' & _ & Hnx) Hs] Hnd He _.
  rewrite He in He'. injection He' as <-. apply NoDup_cons in Hnd as [Hh _]. split.
  - exists (set_prev pr' e). by rewrite lookup_insert_eq.
  - eapply seg_ext; [|exact Hs]. intros q Hq. apply lookup_insert_ne. by intros <-.
Qed.

Lemma unlink es l1 p l2 e : seg es 0 (l1 ++ p :: l2) 0 -> NoDup (l1 ++ p :: l2) -> ~ 0 ∈ l1 ++ p :: l2 -> es !! p = Some e ->
  e.(next) = hd 0 l2 /\ exists es1 es2,
    (if negb (e.(prev) =? 0) then es ← store es e.(prev) (set_next e.(next)); Some (es, hd 0 (l1 ++ p :: l2))
     else Some (es, e.(next))) = Some (es1, hd 0 (l1 ++ l2)) /\
    (if negb (e.(next) =? 0) then store es1 e.(next) (set_prev e.(prev)) else Some es1) = Some es2 /\
    seg (delete p es2) 0 (l1 ++ l2) 0 /\ relinked es es2 (l1 ++ l2).
Proof.
  intros Hs Hnd H0 He. apply seg_app in Hs as [Hs1 [(e' & He' & Hpr & Hnx) Hs2]].
  rewrite He in He'. injection He' as <-. split; [done|].
  pose proof Hnd as Hnd0. apply nodup_middle in Hnd as (Hp1 & Hp2 & Hnd). cbn [hd] in Hs1.
  assert (exists es1, (if negb (e.(prev) =? 0) then es ← store es e.(prev) (set_next e.(next)); Some (es, hd 0 (l1 ++ p :: l2))
     else Some (es, e.(next))) = Some (es1, hd 0 (l1 ++ l2)) /\ seg es1 0 l1 (hd 0 l2) /\ relinked es es1 l1)
    as (es1 & Hr1 & Hseg1 & HR1).
  { destruct l1 as [|q l1 _] using rev_ind.
    - rewrite Hpr. exists es. split; [by rewrite Hnx|]. split; [done|apply relinked_refl].
    - unfold lst in Hpr. rewrite last_snoc in Hpr. change (prev e = q) in Hpr. rewrite Hpr, Hnx.
      assert (q <> 0) as Hq0 by (intros ->; apply H0; set_solver). rewrite (proj2 (Z.eqb_neq q 0) Hq0). cbn [negb].
      pose proof Hs1 as Hs1'. apply seg_app in Hs1' as [_ [(eq & Heq & _) _]].
      rewrite (store_some es q eq _ Heq). cbn [mbind option_bind]. eexists. split; [by destruct l1|]. split.
      + eapply seg_retarget; [|exact Hs1|done]. apply NoDup_app in Hnd. apply Hnd.
      + eapply store_relinked; [done|set_solver|done]. }
  assert (seg es1 p l2 0) as Hs2'.
  { eapply seg_ext; [|exact Hs2]. intros q Hq. apply HR1. intros Hq1. apply NoDup_app in Hnd as (_ & Hd & _). by apply (Hd q). }
  exists es1. destruct l2 as [|h l2]; cbn [hd] in *.
  - exists es1. split; [exact Hr1|]. rewrite Hnx. split; [done|]. rewrite app_nil_r in *. split; [|done].
    eapply seg_ext; [|exact Hseg1]. intros q Hq. apply lookup_delete_ne. by intros <-.
  - pose proof Hs2' as [(eh & Heh & _) _].
    assert (h <> 0) as Hh0 by (intros ->; apply H0; set_solver). eexists. split; [exact Hr1|].
    rewrite Hnx, (proj2 (Z.eqb_neq h 0) Hh0). cbn [negb].
    rewrite (store_some es1 h eh _ Heh). split; [done|].
    apply NoDup_app in Hnd as (Hnd1 & Hd & Hnd2).
    assert (relinked es (<[h := set_prev (prev e) eh]> es1) (l1 ++ h :: l2)) as HR2.
    { eapply relinked_trans; [eapply relinked_mono; [|exact HR1]; set_solver|]. eapply store_relinked; [done|set_solver|done]. }
    split; [|exact HR2].
    apply (seg_ext (<[h := set_prev (prev e) eh]> es1)).
    { intros q Hq. apply lookup_delete_ne. intros <-. apply elem_of_app in Hq as [?|?]; done. }
    apply seg_app. cbn [hd]. split.
    + eapply seg_ext; [|exact Hseg1]. intros q Hq. apply lookup_insert_ne. intros <-. apply (Hd h Hq). left.
    + rewrite <- Hpr. apply (seg_head es1 p (prev e) (h :: l2) 0 eh Hs2' Hnd2 Heh ltac:(done)).
Qed.

(** ** Keys *)

(** What two keys have in common when they differ in case only. *)
Definition norm (key : list Z) (n : Z) : list Z := map UpperToLower (take (Z.to_nat n) key).

Definition key_ok (key : list Z) (n : Z) : Prop := cstring key /\ 0 <= n <= Z.of_nat (length key).

Definition ekey (e : HashElem) : list Z := norm e.(pKey) e.(nKey).

Definition hash_norm (k : list Z) : Z :=
  u32 (foldl (fun h c => i32 (Z.lxor (Z.lxor (i32 (Z.shiftl h 3)) h) c)) 0 k).

Lemma strHash_norm key n : strHash key n = hash_norm (norm key n).
Proof.
  unfold strHash, hash_norm, norm. f_equal. generalize (take (Z.to_nat n) key) 0.
  intros l. induction l as [|c l IH]; intros a; [done|]. cbn [foldl map]. apply IH.
Qed.

Lemma norm_length key n : key_ok key n -> Z.of_nat (length (norm key n)) = n.
Proof. intros [_ Hn]. unfold norm. rewrite length_map, length_take. lia. Qed.

Lemma key_match e key n : key_ok e.(pKey) e.(nKey) -> key_ok key n ->
  (e.(nKey) =? n) && (sqlite3_strnicmp e.(pKey) key n =? 0) = bool_decide (ekey e = norm key n).
Proof.
  intros He Hk. apply eq_iff_eq_true. rewrite andb_true_iff, !Z.eqb_eq, bool_decide_eq_true.
  assert (sqlite3_strnicmp (pKey e) key n = 0 <-> norm (pKey e) n = norm key n) as HS.
  { unfold sqlite3_strnicmp. rewrite strnicmp_stricmp by (apply He || apply Hk).
    apply stricmp_zero; apply Forall_take; [apply He|apply Hk]. }
  rewrite HS. unfold ekey. split; [by intros [-> ?]|]. intros E.
  assert (nKey e = n) as E2 by (rewrite <- (norm_length _ _ He), <- (norm_length _ _ Hk); by rewrite E).
  split; [done|]. by rewrite <- E2 at 1.
Qed.

(** Where a key goes in a table of [n] buckets. *)
Definition bkt (es : elems) (n : nat) (p : Z) : nat :=
  match es !! p with Some e => Z.to_nat (hash_norm (ekey e) mod Z.of_nat n) | None => O end.

Lemma same_links_key e e' : same_links e e' -> ekey e' = ekey e.
Proof. intros (_ & H1 & H2). unfold ekey. by rewrite H1, H2. Qed.

Lemma bkt_relinked es es' L n p : relinked es es' L -> is_Some (es !! p) -> bkt es' n p = bkt es n p.
Proof.
  intros (_ & HR & _) [e He]. destruct (HR p e He) as (e' & He' & Hl). unfold bkt. rewrite He, He'.
  by rewrite (same_links_key _ _ Hl).
Qed.

Lemma buckets_ext bk bk' t L : (forall p, p ∈ L -> bk' p = bk p) -> buckets bk t L -> buckets bk' t L.
Proof.
  intros HE Hb b entry Ht. destruct (Hb b entry Ht) as (l1 & s & l2 & HL & Hc & Hch & Hin).
  exists l1, s, l2. split; [done|]. split; [done|]. split; [done|]. intros p Hp. rewrite HE by done. by apply Hin.
Qed.

(** ** Filling a new table *)

Lemma rehash_loop_ok n fuel : forall R L es first t pr, (length R < fuel)%nat -> seg es pr R 0 -> ~ 0 ∈ R ->
  NoDup (R ++ L) -> listed es L first -> buckets (bkt es n) t L -> length t = n -> (0 < n)%nat ->
  Z.of_nat (length (R ++ L)) < 2 ^ 30 -> (forall p, p ∈ L -> is_Some (es !! p)) ->
  exists first' t' es' L', rehash_loop fuel (hd 0 R) first t es = Some (first', t', es') /\
    listed es' L' first' /\ buckets (bkt es' n) t' L' /\ L' ≡ₚ R ++ L /\ length t' = n /\ relinked es es' (R ++ L).
Proof.
  induction fuel as [|fuel IH]; intros R L es first t pr Hf Hs H0 Hnd HL Hb Ht Hn Hlen Hin; [lia|].
  destruct R as [|p R]; cbn [rehash_loop hd].
  - exists first, t, es, L. split; [done|]. split; [done|]. split; [done|]. split; [done|]. split; [done|]. apply relinked_refl.
  - apply not_elem_of_cons in H0 as [Hp0 H0]. rewrite (proj2 (Z.eqb_neq p 0)) by done.
    destruct Hs as [(e & He & _ & Hnx) Hs]. rewrite He. cbn [mbind option_bind].
    cbn [app] in Hnd. apply NoDup_cons in Hnd as [Hp Hnd].
    assert (~ p ∈ L /\ ~ p ∈ R) as [HpL HpR] by (split; intros ?; apply Hp, elem_of_app; [by right|by left]).
    set (b := Z.to_nat (strHash (pKey e) (nKey e) mod Z.of_nat (length t))).
    assert (b < length t)%nat as Hbl by (unfold b; pose proof (Z.mod_pos_bound (strHash (pKey e) (nKey e)) (Z.of_nat (length t))); lia).
    destruct (lookup_lt_is_Some_2 t b Hbl) as [entry Hentry]. rewrite Hentry. cbn [mbind option_bind].
    assert (bkt es n p = b) as Hbk by (unfold bkt, b; rewrite He, strHash_norm, Ht; done).
    cbn [app length] in Hlen.
    destruct (insert_table es L first t _ p e b entry HL Hb Hentry He HpL ltac:(done) Hbk ltac:(rewrite length_app in Hlen; lia))
      as (first1 & entry1 & es1 & L1 & Hrun & HL1 & Hb1 & HP1 & HR1).
    rewrite Hrun. cbn [mbind option_bind].
    assert (forall q, q ∈ p :: L -> is_Some (es !! q)) as Hin1 by (intros q [-> | ?]%elem_of_cons; [by eexists|by apply Hin]).
    destruct (IH R L1 es1 first1 (<[b := entry1]> t) p) as (first2 & t2 & es2 & L2 & Hrun2 & HL2 & Hb2 & HP2 & Ht2 & HR2).
    + cbn [length] in Hf. lia.
    + eapply seg_ext; [|exact Hs]. intros q Hq. apply HR1. intros [-> | HqL]%elem_of_cons; [done|].
      apply NoDup_app in Hnd as (_ & Hd & _). by apply (Hd q).
    + done.
    + rewrite HP1, <- Permutation_middle. by apply NoDup_cons.
    + done.
    + eapply buckets_ext; [|exact Hb1]. intros q Hq. rewrite HP1 in Hq. eapply bkt_relinked; [exact HR1|]. by apply Hin1.
    + by rewrite length_insert.
    + done.
    + rewrite HP1, <- Permutation_middle. cbn [length]. exact Hlen.
    + intros q Hq. rewrite HP1 in Hq. destruct (Hin1 q Hq) as [eq Heq]. destruct HR1 as (_ & HR1 & _).
      destruct (HR1 q eq Heq) as (e' & He' & _). by eexists.
    + rewrite Hnx, Hrun2. exists first2, t2, es2, L2. split; [done|]. split; [done|]. split; [done|].
      assert (R ++ L1 ≡ₚ p :: R ++ L) as HP3 by (by rewrite HP1, <- Permutation_middle).
      split; [by rewrite HP2, HP3|]. split; [done|].
      eapply relinked_trans; [eapply relinked_mono; [|exact HR1]|eapply relinked_mono; [|exact HR2]].
      * intros q. cbn [app]. rewrite !elem_of_cons, elem_of_app. tauto.
      * intros q. rewrite HP3. done.
Qed.

(** ** Looking up *)

Lemma find_loop_ok es key n l2 : key_ok key n -> (forall p e, es !! p = Some e -> key_ok e.(pKey) e.(nKey)) ->
  forall s pr, seg es pr (s ++ l2) 0 -> ~ 0 ∈ s -> exists x,
  find_loop (length s) es (hd 0 (s ++ l2)) key n = Some x /\
  ((x = 0 /\ forall p e, p ∈ s -> es !! p = Some e -> ekey e <> norm key n) \/
   (x <> 0 /\ x ∈ s /\ exists e, es !! x = Some e /\ ekey e = norm key n)).
Proof.
  intros Hk Hok. induction s as [|p s IH]; intros pr Hs H0; cbn [length find_loop app hd].
  - exists 0. split; [done|]. left. split; [done|]. by intros p e ?%elem_of_nil.
  - apply not_elem_of_cons in H0 as [Hp0 H0]. rewrite (proj2 (Z.eqb_neq p 0)) by done.
    destruct Hs as [(e & He & _ & Hnx) Hs]. rewrite He. cbn [mbind option_bind].
    rewrite (key_match e key n (Hok p e He) Hk). case_bool_decide as E.
    + exists p. split; [done|]. right. split; [done|]. split; [left|by exists e].
    + fold (app s l2) in Hnx. rewrite Hnx. destruct (IH p Hs H0) as (x & Hrun & Hx). exists x. split; [done|].
      destruct Hx as [[-> Hno] | (Hx0 & Hxs & Hx)]; [left|right].
      * split; [done|]. intros q eq [-> | Hq]%elem_of_cons Heq; [congruence|by eapply Hno].
      * split; [done|]. split; [by right|done].
Qed.

(** ** The table as a map from keys to data *)

Abbreviation table := (gmap (list Z) Z).

Record hash_inv (pH : Hash) (es : elems) (m : table) (L : list Z) : Prop := {
  hi_list : listed es L pH.(first);
  hi_dom : forall p, p ∈ L <-> is_Some (es !! p);
  hi_count : pH.(count) = Z.of_nat (length L);
  hi_elem : forall p e, es !! p = Some e ->
    key_ok e.(pKey) e.(nKey) /\ e.(data) <> 0 /\ m !! ekey e = Some e.(data);
  hi_map : forall k d, m !! k = Some d -> exists p e, es !! p = Some e /\ ekey e = k;
  hi_uniq : forall p q e f, es !! p = Some e -> es !! q = Some f -> ekey e = ekey f -> p = q;
  hi_ht : match pH.(ht) with
          | None => pH.(htsize) = 0
          | Some t => pH.(htsize) = Z.of_nat (length t) /\ 0 < Z.of_nat (length t) < 2 ^ 32 /\
              buckets (bkt es (length t)) t L
          end }.

Definition slot_of (pH : Hash) (key : list Z) (n : Z) : nat :=
  if negb (pH.(htsize) =? 0) then Z.to_nat (strHash key n mod pH.(htsize)) else O.

Lemma slot_bucket pH es m L key n : hash_inv pH es m L -> slot_of pH key n = bucket_of pH key n.
Proof.
  intros Hi. unfold slot_of, bucket_of. pose proof (hi_ht _ _ _ _ Hi) as Ht. destruct (ht pH) as [t|].
  - destruct Ht as (-> & Hpos & _). by rewrite (proj2 (Z.eqb_neq _ 0)) by lia.
  - by rewrite Ht.
Qed.

(** The bucket of a key. *)
Lemma bucket_facts pH es m L key n t : hash_inv pH es m L -> pH.(ht) = Some t ->
  exists entry, t !! slot_of pH key n = Some entry /\
    forall p e, es !! p = Some e -> ekey e = norm key n -> bkt es (length t) p = slot_of pH key n.
Proof.
  intros Hi Ht. pose proof (hi_ht _ _ _ _ Hi) as H. rewrite Ht in H. destruct H as (Hsz & Hpos & _).
  unfold slot_of. rewrite Hsz, (proj2 (Z.eqb_neq _ 0)) by lia. cbn [negb].
  pose proof (Z.mod_pos_bound (strHash key n) (Z.of_nat (length t)) ltac:(lia)).
  destruct (lookup_lt_is_Some_2 t (Z.to_nat (strHash key n mod Z.of_nat (length t)))) as [entry He]; [lia|].
  exists entry. split; [done|]. intros p e Hp Hk. unfold bkt. by rewrite Hp, Hk, strHash_norm.
Qed.

Lemma find_ok pH es m L key n : hash_inv pH es m L -> key_ok key n -> Z.of_nat (length L) < 2 ^ 30 ->
  exists x, findElementGivenHash pH es key n (slot_of pH key n) = Some x /\
  ((x = 0 /\ m !! norm key n = None) \/
   (x <> 0 /\ exists e, es !! x = Some e /\ ekey e = norm key n /\ m !! norm key n = Some e.(data))).
Proof.
  intros Hi Hk Hlen. pose proof (hi_list _ _ _ _ Hi) as (Hfst & Hs & Hnd & H0).
  assert (forall p e, es !! p = Some e -> key_ok e.(pKey) e.(nKey)) as Hok by (intros p e He; by apply (hi_elem _ _ _ _ Hi p e)).
  assert (forall (s : list Z) x, (forall p e, p ∈ L -> es !! p = Some e -> ekey e = norm key n -> p ∈ s) ->
    ((x = 0 /\ forall p e, p ∈ s -> es !! p = Some e -> ekey e <> norm key n) \/
     (x <> 0 /\ x ∈ s /\ exists e, es !! x = Some e /\ ekey e = norm key n)) ->
    ((x = 0 /\ m !! norm key n = None) \/
     (x <> 0 /\ exists e, es !! x = Some e /\ ekey e = norm key n /\ m !! norm key n = Some e.(data)))) as Hfin.
  { intros s x Hall [[-> Hno] | (Hx0 & Hxs & e & He & Hek)]; [left|right]; (split; [done|]).
    - destruct (m !! norm key n) as [d|] eqn:E; [|done]. exfalso.
      destruct (hi_map _ _ _ _ Hi _ _ E) as (p & e & He & Hek). apply (Hno p e); [|done|done].
      apply (Hall p e); [|done|done]. apply (hi_dom _ _ _ _ Hi). by eexists.
    - exists e. split; [done|]. split; [done|]. rewrite <- Hek. by apply (hi_elem _ _ _ _ Hi x). }
  unfold findElementGivenHash. destruct (ht pH) as [t|] eqn:Ht.
  - destruct (bucket_facts _ _ _ _ key n t Hi Ht) as ([c ch] & Hentry & Hbk). rewrite Hentry. cbn [mbind option_bind].
    pose proof (hi_ht _ _ _ _ Hi) as H. rewrite Ht in H. destruct H as (_ & _ & Hb).
    destruct (Hb _ _ Hentry) as (l1 & s & l2 & HL & Hc & Hch & Hin). cbn [fst snd] in *. rewrite Hc, Nat2Z.id.
    rewrite HL in Hs, H0. apply seg_app in Hs as [_ Hs].
    assert (~ 0 ∈ s) as H0s by set_solver.
    destruct (find_loop_ok es key n l2 Hk Hok s _ Hs H0s) as (x & Hrun & Hx). exists x. split.
    + destruct s as [|p s]; [done|]. rewrite (Hch ltac:(done)). exact Hrun.
    + apply (Hfin s); [|done]. intros p e Hp He Hek. apply (Hin p Hp). by eapply Hbk.
  - rewrite (hi_count _ _ _ _ Hi), Nat2Z.id, Hfst. rewrite <- (app_nil_r L) in Hs.
    destruct (find_loop_ok es key n [] Hk Hok L 0 Hs H0) as (x & Hrun & Hx). rewrite app_nil_r in Hrun.
    exists x. split; [done|]. by apply (Hfin L).
Qed.

Lemma hash_init_inv : hash_inv sqlite3HashInit ∅ ∅ [].
Proof.
  constructor; try done.
  - split; [done|]. split; [done|]. split; [constructor|]. by intros ?%elem_of_nil.
  - intros p. rewrite lookup_empty. split; [by intros ?%elem_of_nil|by intros [? ?]].
Qed.

Lemma hash_find pH es m L key n : hash_inv pH es m L -> key_ok key n -> Z.of_nat (length L) < 2 ^ 30 ->
  sqlite3HashFind pH es key n = Some (default 0 (m !! norm key n)).
Proof.
  intros Hi Hk Hlen. unfold sqlite3HashFind. rewrite <- (slot_bucket _ _ _ _ key n Hi).
  destruct (find_ok pH es m L key n Hi Hk Hlen) as (x & -> & [[-> ->] | (Hx & e & He & _ & ->)]); cbn [mbind option_bind].
  - done.
  - by rewrite (proj2 (Z.eqb_neq _ _) Hx), He.
Qed.

(** Clearing frees every element. *)
Lemma free_all_ok : forall L fuel es pr, (length L < fuel)%nat -> seg es pr L 0 -> NoDup L -> ~ 0 ∈ L ->
  (forall p, p ∈ L <-> is_Some (es !! p)) -> free_all fuel (hd 0 L) es = Some ∅.
Proof.
  induction L as [|p L IH]; intros [|fuel] es pr Hf Hs Hnd H0 Hd; cbn [length] in Hf; try lia; cbn [free_all hd].
  - f_equal. apply map_eq. intros p. rewrite lookup_empty. destruct (es !! p) eqn:E; [|done].
    exfalso. assert (p ∈ []) as Hp by (apply Hd; by eexists). by apply elem_of_nil in Hp.
  - apply not_elem_of_cons in H0 as [Hp0 H0]. rewrite (proj2 (Z.eqb_neq p 0)) by done.
    destruct Hs as [(e & He & _ & Hnx) Hs]. rewrite He. cbn [mbind option_bind]. rewrite Hnx.
    apply NoDup_cons in Hnd as [Hp Hnd]. eapply (IH _ _ p); [lia| |done|done|].
    + eapply seg_ext; [|exact Hs]. intros q Hq. apply lookup_delete_ne. by intros <-.
    + intros q. destruct (decide (p = q)) as [<-|Hne].
      * rewrite lookup_delete_eq. split; [done|by intros [? ?]].
      * rewrite lookup_delete_ne by done. rewrite <- Hd, elem_of_cons. split; [by right|by intros [-> | ?]].
Qed.

Lemma size_list (es : elems) (L : list Z) : NoDup L -> (forall p, p ∈ L <-> is_Some (es !! p)) -> size es = length L.
Proof.
  intros Hnd Hd. assert (dom es = list_to_set L) as HD.
  { apply set_eq. intros p. rewrite elem_of_dom, elem_of_list_to_set. symmetry. apply Hd. }
  rewrite <- size_dom, HD. by apply size_list_to_set.
Qed.

Lemma hash_clear_inv pH es m L : hash_inv pH es m L -> sqlite3HashClear pH es = Some (sqlite3HashInit, ∅).
Proof.
  intros Hi. pose proof (hi_list _ _ _ _ Hi) as (Hfst & Hs & Hnd & H0). unfold sqlite3HashClear.
  rewrite (size_list es L Hnd (hi_dom _ _ _ _ Hi)), Hfst.
  by rewrite (free_all_ok L _ es 0) by (done || lia || apply (hi_dom _ _ _ _ Hi)).
Qed.

(** ** Insertion, replacement, removal *)

Lemma seg_links es es' L : forall pr nx,
  (forall p e, p ∈ L -> es !! p = Some e -> exists e', es' !! p = Some e' /\ e'.(prev) = e.(prev) /\ e'.(next) = e.(next)) ->
  seg es pr L nx -> seg es' pr L nx.
Proof.
  induction L as [|p L IH]; intros pr nx HE; [done|]. cbn [seg]. intros [(e & He & Hpr & Hnx) Hs]. split.
  - destruct (HE p e ltac:(left) He) as (e' & He' & E1 & E2). exists e'. by rewrite E1, E2.
  - apply IH; [|done]. intros q eq Hq. apply HE. by right.
Qed.

(** A table whose elements keep their keys keeps its buckets. *)
Lemma ht_relinked pH es es' L L' : relinked es es' L' -> (forall p, p ∈ L -> is_Some (es !! p)) ->
  match pH.(ht) with
  | None => pH.(htsize) = 0
  | Some t => pH.(htsize) = Z.of_nat (length t) /\ 0 < Z.of_nat (length t) < 2 ^ 32 /\ buckets (bkt es (length t)) t L
  end ->
  match pH.(ht) with
  | None => pH.(htsize) = 0
  | Some t => pH.(htsize) = Z.of_nat (length t) /\ 0 < Z.of_nat (length t) < 2 ^ 32 /\ buckets (bkt es' (length t)) t L
  end.
Proof.
  intros HR Hin. destruct (ht pH) as [t|]; [|done]. intros (? & ? & Hb). split; [done|]. split; [done|].
  eapply buckets_ext; [|exact Hb]. intros p Hp. eapply bkt_relinked; [exact HR|by apply Hin].
Qed.

Lemma replace_inv pH es m L x e key n d : hash_inv pH es m L -> key_ok key n -> d <> 0 -> es !! x = Some e ->
  ekey e = norm key n ->
  hash_inv pH (<[x := mkElem e.(next) e.(prev) d key e.(nKey)]> es) (<[norm key n := d]> m) L.
Proof.
  intros Hi Hk Hd He Hek. set (e' := mkElem e.(next) e.(prev) d key e.(nKey)).
  destruct (hi_elem _ _ _ _ Hi x e He) as (Hok & _ & Hm).
  assert (nKey e = n) as Hn by (rewrite <- (norm_length _ _ Hok), <- (norm_length _ _ Hk); f_equal; by rewrite <- Hek).
  assert (ekey e' = norm key n) as Hek' by (unfold ekey, e'; cbn; by rewrite Hn).
  assert (forall p f', <[x := e']> es !! p = Some f' -> (p = x /\ f' = e') \/ (p <> x /\ es !! p = Some f')) as Hlook.
  { intros p f' [(<- & ->) | [Hne ?]]%lookup_insert_Some; [by left|by right]. }
  assert (forall p f', <[x := e']> es !! p = Some f' -> exists f, es !! p = Some f /\ ekey f = ekey f') as Hkeys.
  { intros p f' [[-> ->] | [_ Hf]]%Hlook; [exists e; by rewrite Hek, Hek'|by exists f']. }
  destruct Hi as [(Hfst & Hs & Hnd & H0) Hdom Hc Hel Hmap Hu Hht]. constructor.
  - split; [done|]. split; [|done]. eapply seg_links; [|exact Hs]. intros p f Hp Hf.
    destruct (decide (x = p)) as [<-|Hne]; [exists e'; rewrite lookup_insert_eq; rewrite He in Hf; injection Hf as <-; done|].
    exists f. by rewrite lookup_insert_ne.
  - intros p. rewrite Hdom. destruct (decide (x = p)) as [<-|Hne]; [rewrite lookup_insert_eq, He; done|by rewrite lookup_insert_ne].
  - done.
  - intros p f [[-> ->] | [Hne Hf]]%Hlook.
    + split; [split; [apply Hk|cbn; rewrite Hn; apply Hk]|]. split; [done|]. rewrite Hek'. apply lookup_insert_eq.
    + destruct (Hel p f Hf) as (A & B & C). split; [done|]. split; [done|]. rewrite lookup_insert_ne; [done|].
      intros E. apply Hne. apply (Hu p x f e Hf He). by rewrite <- E, Hek.
  - intros k' d' [(<- & <-) | [Hne Hk']]%lookup_insert_Some; [exists x, e'; by rewrite lookup_insert_eq|].
    destruct (Hmap k' d' Hk') as (p & f & Hf & Hfk). exists p, f. split; [|done]. rewrite lookup_insert_ne; [done|].
    intros <-. apply Hne. rewrite He in Hf. injection Hf as <-. by rewrite <- Hek, <- Hfk.
  - intros p q f g Hf Hg E. destruct (Hkeys _ _ Hf) as (f0 & Hf0 & Ef). destruct (Hkeys _ _ Hg) as (g0 & Hg0 & Eg).
    apply (Hu p q f0 g0 Hf0 Hg0). congruence.
  - destruct (ht pH) as [t|]; [|done]. destruct Hht as (? & ? & Hb). split; [done|]. split; [done|].
    eapply buckets_ext; [|exact Hb]. intros p Hp. unfold bkt. destruct (decide (x = p)) as [<-|Hne].
    + by rewrite lookup_insert_eq, He, Hek', Hek.
    + by rewrite lookup_insert_ne.
Qed.

Lemma remove_inv pH es m L x e key n : hash_inv pH es m L -> key_ok key n -> es !! x = Some e -> ekey e = norm key n ->
  Z.of_nat (length L) < 2 ^ 30 ->
  exists pH' es' L', removeElementGivenHash pH es x (slot_of pH key n) = Some (pH', es') /\
    hash_inv pH' es' (delete (norm key n) m) L' /\ (length L' < length L)%nat /\
    (forall p, is_Some (es' !! p) -> is_Some (es !! p)).
Proof.
  intros Hi Hk He Hek Hlen. pose proof Hi as [(Hfst & Hs & Hnd & H0) Hdom Hc Hel Hmap Hu Hht].
  assert (x ∈ L) as Hx by (apply Hdom; by eexists). apply list_elem_of_split in Hx as (l1 & l2 & HL).
  rewrite HL in Hs, Hnd, H0. destruct (unlink es l1 x l2 e Hs Hnd H0 He) as (Hnx & es1 & es2 & Hr1 & Hr2 & Hseg & HR).
  pose proof Hnd as Hnd0. apply nodup_middle in Hnd as (Hx1 & Hx2 & Hnd).
  assert (forall q f', delete x es2 !! q = Some f' -> q <> x /\ exists f, es !! q = Some f /\ same_links f f') as Hback.
  { intros q f' [Hne Hf']%lookup_delete_Some. split; [done|]. destruct HR as (_ & HR & HD).
    assert (is_Some (es !! q)) as [f Hf] by (apply elem_of_dom; rewrite <- HD; apply elem_of_dom; by eexists).
    destruct (HR q f Hf) as (f2 & Hf2 & Hl). rewrite Hf' in Hf2. injection Hf2 as <-. by exists f. }
  assert (forall q f, q <> x -> es !! q = Some f -> exists f', delete x es2 !! q = Some f' /\ same_links f f') as Hfwd.
  { intros q f Hne Hf. destruct HR as (_ & HR & _). destruct (HR q f Hf) as (f' & Hf' & Hl). exists f'.
    by rewrite lookup_delete_ne. }
  assert (exists t', (match pH.(ht) with
       | Some t => '(count, chain) ← t !! slot_of pH key n;
           Some (Some (<[slot_of pH key n := (i32 (count - 1), if chain =? x then e.(next) else chain)]> t))
       | None => Some None end) = Some t' /\
    match t' with
    | None => pH.(htsize) = 0
    | Some t => pH.(htsize) = Z.of_nat (length t) /\ 0 < Z.of_nat (length t) < 2 ^ 32 /\
        buckets (bkt (delete x es2) (length t)) t (l1 ++ l2)
    end) as (t' & Hrt & Ht').
  { destruct (ht pH) as [t|] eqn:Ht; [|by exists None].
    destruct (bucket_facts _ _ _ _ key n t Hi Ht) as ([c ch] & Hentry & Hbk). rewrite Hentry. cbn [mbind option_bind].
    eexists. split; [done|]. destruct Hht as (Hsz & Hpos & Hb). rewrite HL in Hb, Hlen. rewrite length_insert.
    split; [done|]. split; [done|]. rewrite Hnx.
    eapply buckets_ext; [|apply (remove_buckets _ t l1 x l2 _ c ch Hnd0 Hb (Hbk x e He Hek) Hentry Hlen)].
    intros p Hp. assert (p <> x) as Hpx by (intros ->; apply elem_of_app in Hp as [?|?]; done).
    assert (is_Some (es !! p)) as [f Hf] by (apply Hdom; rewrite HL; set_solver).
    destruct (Hfwd p f Hpx Hf) as (f' & Hf' & Hl). unfold bkt. by rewrite Hf, Hf', (same_links_key _ _ Hl). }
  unfold removeElementGivenHash. rewrite He. cbn [mbind option_bind]. rewrite Hfst, HL, Hr1. cbn [mbind option_bind].
  rewrite Hr2. cbn [mbind option_bind]. rewrite Hrt. cbn [mbind option_bind count].
  assert (length L = S (length (l1 ++ l2))) as HlenL by (rewrite HL, !length_app; cbn; lia).
  rewrite Hc, HlenL. rewrite wrap_u_small by (unfold in_u; lia).
  assert (hash_inv (mkHash (htsize pH) (Z.of_nat (length (l1 ++ l2))) (hd 0 (l1 ++ l2)) t') (delete x es2)
    (delete (norm key n) m) (l1 ++ l2)) as Hinv.
  { constructor; cbn [first count ht htsize]; try done.
    - split; [done|]. split; [done|]. split; [done|]. set_solver.
    - intros p. split.
      + intros Hp. assert (p <> x) as Hpx by (intros ->; apply elem_of_app in Hp as [?|?]; done).
        assert (is_Some (es !! p)) as [f Hf] by (apply Hdom; rewrite HL; set_solver).
        destruct (Hfwd p f Hpx Hf) as (f' & Hf' & _). by eexists.
      + intros [f' Hf']. destruct (Hback p f' Hf') as (Hne & f & Hf & _).
        assert (p ∈ L) as Hp by (apply Hdom; by eexists). rewrite HL in Hp. set_solver.
    - intros p f' Hf'. destruct (Hback p f' Hf') as (Hne & f & Hf & Hl). destruct (Hel p f Hf) as (A & B & C).
      rewrite (same_links_key _ _ Hl). destruct Hl as (-> & -> & ->). split; [done|]. split; [done|].
      rewrite lookup_delete_ne; [done|]. intros E. apply Hne. apply (Hu p x f e Hf He). by rewrite <- E, Hek.
    - intros k d [Hne Hkd]%lookup_delete_Some. destruct (Hmap k d Hkd) as (p & f & Hf & Hfk).
      assert (p <> x) as Hpx by (intros ->; rewrite He in Hf; injection Hf as <-; apply Hne; by rewrite <- Hek, <- Hfk).
      destruct (Hfwd p f Hpx Hf) as (f' & Hf' & Hl). exists p, f'. by rewrite (same_links_key _ _ Hl).
    - intros p q f g Hf Hg E. destruct (Hback p f Hf) as (_ & f0 & Hf0 & Hl1). destruct (Hback q g Hg) as (_ & g0 & Hg0 & Hl2).
      apply (Hu p q f0 g0 Hf0 Hg0). by rewrite <- (same_links_key _ _ Hl1), <- (same_links_key _ _ Hl2). }
  replace (Z.of_nat (S (length (l1 ++ l2))) - 1) with (Z.of_nat (length (l1 ++ l2))) by lia.
  destruct (Z.eqb_spec (Z.of_nat (length (l1 ++ l2))) 0) as [E|E].
  - rewrite (hash_clear_inv _ _ _ _ Hinv). exists sqlite3HashInit, ∅, []. split; [done|]. split; [|split; [rewrite <- HL, HlenL; cbn; lia|]].
    + assert (delete (norm key n) m = ∅) as ->; [|apply hash_init_inv].
      apply map_eq. intros k. rewrite lookup_empty. destruct (delete (norm key n) m !! k) as [d|] eqn:Ek; [|done].
      exfalso. destruct (hi_map _ _ _ _ Hinv _ _ Ek) as (p & f & Hf & _).
      assert (p ∈ l1 ++ l2) as Hp by (apply (hi_dom _ _ _ _ Hinv); by eexists).
      destruct (l1 ++ l2); [by apply elem_of_nil in Hp|cbn in E; lia].
    + intros p [? Hp]. by rewrite lookup_empty in Hp.
  - eexists _, _, (l1 ++ l2). split; [done|]. split; [done|]. split; [rewrite <- HL, HlenL; lia|].
    intros p [f' Hf']. destruct (Hback p f' Hf') as (_ & f & Hf & _). by eexists.
Qed.

(** The part of the invariant that rehashing and linking maintain. *)
Definition ht_ok (pH : Hash) (es : elems) (L : list Z) : Prop :=
  match pH.(ht) with
  | None => pH.(htsize) = 0
  | Some t => pH.(htsize) = Z.of_nat (length t) /\ 0 < Z.of_nat (length t) < 2 ^ 32 /\ buckets (bkt es (length t)) t L
  end.

Lemma buckets_empty bk n : buckets bk (replicate n (0, 0)) [].
Proof.
  intros b entry [-> _]%lookup_replicate. exists [], [], []. split; [done|]. split; [done|]. split; [done|].
  by intros p ?%elem_of_nil.
Qed.

Lemma rehash_ok pH es L size alloc : listed es L pH.(first) -> (forall q, q ∈ L -> is_Some (es !! q)) -> ht_ok pH es L ->
  (forall k, alloc = Some k -> 0 < Z.of_nat k < 2 ^ 32) -> Z.of_nat (length L) < 2 ^ 30 ->
  exists ok pH' es' L', rehash pH size alloc es = Some (ok, pH', es') /\ listed es' L' pH'.(first) /\ ht_ok pH' es' L' /\
    pH'.(count) = pH.(count) /\ L' ≡ₚ L /\ relinked es es' L /\
    if (ok : bool) then exists t, pH'.(ht) = Some t else pH' = pH.
Proof.
  intros HL Hin Hht Ha Hlen. unfold rehash.
  assert (exists ok pH' es' L', Some (false, pH, es) = Some (ok, pH', es') /\ listed es' L' pH'.(first) /\ ht_ok pH' es' L' /\
    pH'.(count) = pH.(count) /\ L' ≡ₚ L /\ relinked es es' L /\
    if (ok : bool) then exists t, pH'.(ht) = Some t else pH' = pH) as Hsame.
  { exists false, pH, es, L. split; [done|]. split; [done|]. split; [done|]. split; [done|]. split; [done|].
    split; [apply relinked_refl|done]. }
  destruct (_ =? htsize pH); [exact Hsame|]. destruct alloc as [k|]; [|exact Hsame]. clear Hsame.
  specialize (Ha k eq_refl). destruct HL as (Hfst & Hs & Hnd & H0). rewrite Hfst.
  assert (length L <= base.size es)%nat as Hsz.
  { rewrite <- (size_dom es), <- (size_list_to_set (C := gset Z) L Hnd). apply subseteq_size. intros q Hq.
    apply elem_of_list_to_set in Hq. apply elem_of_dom. by apply Hin. }
  destruct (rehash_loop_ok k (S (base.size es)) L [] es 0 (replicate k (0, 0)) 0)
    as (first' & t' & es' & L' & Hrun & HL' & Hb' & HP & Ht' & HR); try done.
  - lia.
  - by rewrite app_nil_r.
  - split; [done|]. split; [done|]. split; [constructor|]. by intros ?%elem_of_nil.
  - apply buckets_empty.
  - by rewrite length_replicate.
  - lia.
  - by rewrite app_nil_r.
  - by intros p ?%elem_of_nil.
  - rewrite Hrun. cbn [mbind option_bind]. rewrite app_nil_r in *.
    eexists true, _, es', L'. split; [done|]. cbn [first ht htsize count]. split; [done|].
    split; [|split; [done|split; [done|split; [done|by eexists]]]].
    unfold ht_ok. cbn [ht htsize]. rewrite Ht'. rewrite wrap_u_small by (unfold in_u; lia). done.
Qed.

Lemma link_new pH es L p e : listed es L pH.(first) -> ht_ok pH es L -> es !! p = Some e -> ~ p ∈ L -> p <> 0 ->
  Z.of_nat (length L) < 2 ^ 30 -> (forall q, q ∈ L -> is_Some (es !! q)) ->
  exists first' ht' es' L', 
    (match pH.(ht) with
     | Some t =>
         entry ← t !! slot_of pH e.(pKey) e.(nKey);
         '(first, entry, es) ← insertElement pH.(first) (Some entry) p es;
         entry ← entry;
         Some (0, mkHash pH.(htsize) pH.(count) first (Some (<[slot_of pH e.(pKey) e.(nKey) := entry]> t)), es)
     | None =>
         '(first, _, es) ← insertElement pH.(first) None p es;
         Some (0, mkHash pH.(htsize) pH.(count) first None, es)
     end) = Some (0, mkHash pH.(htsize) pH.(count) first' ht', es') /\
    listed es' L' first' /\ ht_ok (mkHash pH.(htsize) pH.(count) first' ht') es' L' /\ L' ≡ₚ p :: L /\ relinked es es' (p :: L).
Proof.
  intros HL Hht He Hp Hp0 Hlen Hin. unfold ht_ok in Hht.
  assert (forall q, q ∈ p :: L -> is_Some (es !! q)) as Hin' by (intros q [-> | ?]%elem_of_cons; [by eexists|by apply Hin]).
  destruct (ht pH) as [t|] eqn:Ht.
  - destruct Hht as (Hsz & Hpos & Hb). unfold slot_of. rewrite Hsz, (proj2 (Z.eqb_neq _ 0)) by lia. cbn [negb].
    set (b := Z.to_nat (strHash (pKey e) (nKey e) mod Z.of_nat (length t))).
    pose proof (Z.mod_pos_bound (strHash (pKey e) (nKey e)) (Z.of_nat (length t)) ltac:(lia)).
    destruct (lookup_lt_is_Some_2 t b) as [entry Hentry]; [unfold b; lia|]. rewrite Hentry. cbn [mbind option_bind].
    assert (bkt es (length t) p = b) as Hbk by (unfold bkt, b; by rewrite He, strHash_norm).
    destruct (insert_table es L _ t _ p e b entry HL Hb Hentry He Hp Hp0 Hbk Hlen)
      as (first1 & entry1 & es1 & L1 & Hrun & HL1 & Hb1 & HP1 & HR1).
    rewrite Hrun. cbn [mbind option_bind]. exists first1, (Some (<[b := entry1]> t)), es1, L1.
    split; [done|]. split; [done|]. split; [|by split].
    unfold ht_ok. cbn [ht htsize]. rewrite length_insert. split; [done|]. split; [done|].
    eapply buckets_ext; [|exact Hb1]. intros q Hq. rewrite HP1 in Hq. eapply bkt_relinked; [exact HR1|by apply Hin'].
  - destruct HL as (Hfst & Hs & Hnd & H0). unfold insertElement. cbn [Z.eqb negb]. rewrite Hfst.
    destruct (link_front es L e p Hs Hnd H0 Hp He) as (es1 & es2 & Hr1 & Hr2 & es3 & Hr3 & Hs3 & HR).
    rewrite Hr1. cbn [mbind option_bind]. rewrite Hr2. cbn [mbind option_bind]. rewrite Hr3. cbn [mbind option_bind].
    exists p, None, es3, (p :: L). split; [done|]. split; [|by split].
    split; [done|]. split; [done|]. split; [by apply NoDup_cons|]. intros [E | ?]%elem_of_cons; [by apply Hp0|done].
Qed.

(** The map after the new element is linked. *)
Lemma linked_inv pH pH' es es' m L L' p key n d : hash_inv pH es m L -> key_ok key n -> d <> 0 -> m !! norm key n = None ->
  es !! p = None -> relinked (<[p := mkElem 0 0 d key n]> es) es' (p :: L) -> listed es' L' pH'.(first) -> ht_ok pH' es' L' ->
  L' ≡ₚ p :: L -> pH'.(count) = pH.(count) + 1 -> hash_inv pH' es' (<[norm key n := d]> m) L'.
Proof.
  intros Hi Hk Hd Hm Hp HR HL Hht HP Hc. set (e0 := mkElem 0 0 d key n) in *. destruct HR as (_ & HR & HD).
  assert (forall q f', es' !! q = Some f' -> (q = p /\ same_links e0 f') \/ (q <> p /\ exists f, es !! q = Some f /\ same_links f f')) as Hback.
  { intros q f' Hf'. assert (is_Some (<[p := e0]> es !! q)) as [f Hf] by (apply elem_of_dom; rewrite <- HD; apply elem_of_dom; by eexists).
    destruct (HR q f Hf) as (f2 & Hf2 & Hl). rewrite Hf' in Hf2. injection Hf2 as <-.
    apply lookup_insert_Some in Hf as [(<- & <-) | [Hne Hf]]; [by left|right]. split; [done|]. by exists f. }
  assert (forall q f, es !! q = Some f -> exists f', es' !! q = Some f' /\ same_links f f') as Hfwd.
  { intros q f Hf. apply HR. rewrite lookup_insert_ne; [done|]. intros <-. by rewrite Hp in Hf. }
  destruct (HR p e0 (lookup_insert_eq _ _ _)) as (e1 & He1 & Hl1).
  assert (forall q f, es !! q = Some f -> ekey f <> norm key n) as Hnew.
  { intros q f Hf E. destruct (hi_elem _ _ _ _ Hi q f Hf) as (_ & _ & Hmf). rewrite E in Hmf. congruence. }
  constructor; [done| | | | | |exact Hht].
  - intros q. rewrite HP, elem_of_cons, (hi_dom _ _ _ _ Hi). split.
    + intros [-> | [f Hf]]; [by eexists|]. destruct (Hfwd q f Hf) as (f' & Hf' & _). by eexists.
    + intros [f' Hf']. destruct (Hback q f' Hf') as [[-> _] | (_ & f & Hf & _)]; [by left|right; by eexists].
  - rewrite Hc, (hi_count _ _ _ _ Hi), HP. cbn [length]. lia.
  - intros q f' Hf'. destruct (Hback q f' Hf') as [[-> Hl] | (_ & f & Hf & Hl)]; rewrite (same_links_key _ _ Hl);
      destruct Hl as (-> & -> & ->).
    + split; [done|]. split; [done|]. apply lookup_insert_eq.
    + destruct (hi_elem _ _ _ _ Hi q f Hf) as (A & B & C). split; [done|]. split; [done|].
      rewrite lookup_insert_ne; [done|]. intros E. by apply (Hnew q f Hf).
  - intros k d' [(<- & <-) | [_ Hkd]]%lookup_insert_Some.
    + exists p, e1. split; [done|]. by rewrite (same_links_key _ _ Hl1).
    + destruct (hi_map _ _ _ _ Hi k d' Hkd) as (q & f & Hf & Hfk). destruct (Hfwd q f Hf) as (f' & Hf' & Hl).
      exists q, f'. by rewrite (same_links_key _ _ Hl).
  - intros q r f g Hf Hg E. destruct (Hback q f Hf) as [[-> Hlf] | (_ & f0 & Hf0 & Hlf)];
      destruct (Hback r g Hg) as [[-> Hlg] | (_ & g0 & Hg0 & Hlg)]; rewrite (same_links_key _ _ Hlf), (same_links_key _ _ Hlg) in E.
    + done.
    + symmetry in E. by apply (Hnew r g0 Hg0) in E.
    + by apply (Hnew q f0 Hf0) in E.
    + by apply (hi_uniq _ _ _ _ Hi q r f0 g0).
Qed.

(** What [sqlite3HashInsert] does to the map: [ok] tells whether the element could be allocated. *)
Definition map_insert (m : table) (k : list Z) (d : Z) (ok : bool) : Z * table :=
  match m !! k with
  | Some old => (old, if d =? 0 then delete k m else <[k := d]> m)
  | None => if d =? 0 then (0, m) else if ok then (0, <[k := d]> m) else (d, m)
  end.

(** The new element, after the table has possibly grown. *)
Lemma grown_inv pH es m L p key n d alloc : hash_inv pH es m L -> key_ok key n -> d <> 0 -> m !! norm key n = None ->
  es !! p = None -> p <> 0 -> (forall k, alloc = Some k -> 0 < Z.of_nat k < 2 ^ 32) -> Z.of_nat (S (length L)) < 2 ^ 30 ->
  forall pH1 es1, pH1 = mkHash pH.(htsize) (u32 (pH.(count) + 1)) pH.(first) pH.(ht) ->
  es1 = <[p := mkElem 0 0 d key n]> es -> exists pH' es' L',
  ('(h, pH, es) ←
     (if (10 <=? pH1.(count)) && (u32 (2 * pH1.(htsize)) <? pH1.(count)) then
        '(ok, pH, es) ← rehash pH1 (u32 (pH1.(count) * 2)) alloc es1;
        Some (if (ok : bool) then Z.to_nat (strHash key n mod pH.(htsize)) else slot_of pH1 key n, pH, es)
      else Some (slot_of pH1 key n, pH1, es1));
   match pH.(ht) with
   | Some t =>
       entry ← t !! h;
       '(first, entry, es) ← insertElement pH.(first) (Some entry) p es;
       entry ← entry;
       Some (0, mkHash pH.(htsize) pH.(count) first (Some (<[h := entry]> t)), es)
   | None =>
       '(first, _, es) ← insertElement pH.(first) None p es;
       Some (0, mkHash pH.(htsize) pH.(count) first None, es)
   end) = Some (0, pH', es') /\ hash_inv pH' es' (<[norm key n := d]> m) L' /\ L' ≡ₚ p :: L /\ dom es' = dom es1.
Proof.
  intros Hi Hk Hd Hm Hp Hp0 Ha Hlen pH1 es1 -> ->. set (pH1 := mkHash _ _ _ _). set (e0 := mkElem 0 0 d key n).
  set (es1 := <[p := e0]> es).
  assert (~ p ∈ L) as HpL by (intros Hin; apply (hi_dom _ _ _ _ Hi) in Hin as [? Hin]; by rewrite Hp in Hin).
  assert (forall q, q ∈ L -> es1 !! q = es !! q) as Hes1 by (intros q Hq; apply lookup_insert_ne; by intros <-).
  assert (forall q, q ∈ L -> is_Some (es1 !! q)) as Hin1 by (intros q Hq; rewrite Hes1 by done; by apply (hi_dom _ _ _ _ Hi)).
  assert (listed es1 L pH1.(first)) as HL1.
  { destruct (hi_list _ _ _ _ Hi) as (? & ? & ? & ?). split; [done|]. split; [|done]. by eapply seg_ext. }
  assert (ht_ok pH1 es1 L) as Hht1.
  { pose proof (hi_ht _ _ _ _ Hi) as Hht. unfold ht_ok, pH1. cbn [ht htsize]. destruct (ht pH) as [t|]; [|done].
    destruct Hht as (? & ? & Hb). split; [done|]. split; [done|]. eapply buckets_ext; [|exact Hb].
    intros q Hq. unfold bkt. by rewrite Hes1. }
  assert (pH1.(count) = pH.(count) + 1) as Hc1.
  { unfold pH1. cbn [count]. rewrite (hi_count _ _ _ _ Hi). apply wrap_u_small. unfold in_u. lia. }
  assert (exists pH2 es2 L2 h, (if (10 <=? pH1.(count)) && (u32 (2 * pH1.(htsize)) <? pH1.(count)) then
        '(ok, pH, es) ← rehash pH1 (u32 (pH1.(count) * 2)) alloc es1;
        Some (if (ok : bool) then Z.to_nat (strHash key n mod pH.(htsize)) else slot_of pH1 key n, pH, es)
      else Some (slot_of pH1 key n, pH1, es1)) = Some (h, pH2, es2) /\ h = slot_of pH2 key n /\
      listed es2 L2 pH2.(first) /\ ht_ok pH2 es2 L2 /\ pH2.(count) = pH1.(count) /\ L2 ≡ₚ L /\ relinked es1 es2 L)
    as (pH2 & es2 & L2 & h & -> & -> & HL2 & Hht2 & Hc2 & HP2 & HR2).
  { destruct (_ && _); [|exists pH1, es1, L; eexists; do 6 (split; [done|]); apply relinked_refl].
    destruct (rehash_ok pH1 es1 L (u32 (count pH1 * 2)) alloc HL1 Hin1 Hht1 Ha ltac:(lia))
      as (ok & pH2 & es2 & L2 & -> & HL2 & Hht2 & Hc2 & HP2 & HR2 & Hok).
    cbn [mbind option_bind]. exists pH2, es2, L2. eexists. split; [done|]. split; [|repeat (split; [done|]); done].
    destruct ok; [|by subst]. destruct Hok as [t Ht]. unfold ht_ok in Hht2. rewrite Ht in Hht2. unfold slot_of.
    rewrite (proj2 (Z.eqb_neq _ 0)) by lia. done. }
  cbn [mbind option_bind]. destruct HR2 as (HA2 & HB2 & HD2).
  assert (es2 !! p = Some e0) as He2 by (rewrite (HA2 p HpL); apply lookup_insert_eq).
  destruct (link_new pH2 es2 L2 p e0 HL2 Hht2 He2) as (first' & ht' & es3 & L3 & Hrun & HL3 & Hht3 & HP3 & HR3).
  - by rewrite HP2.
  - done.
  - rewrite HP2. lia.
  - intros q Hq. apply elem_of_dom. rewrite HD2. apply elem_of_dom, Hin1. by rewrite <- HP2.
  - cbn [pKey nKey e0] in Hrun. eexists _, es3, L3. split; [exact Hrun|].
    assert (relinked es1 es3 (p :: L)) as HR.
    { eapply relinked_trans; [eapply (relinked_mono _ _ L); [|done]; intros q Hq; by right|].
      eapply relinked_mono; [|exact HR3]. intros q. by rewrite HP2. }
    split; [|split; [by rewrite HP3, HP2|by apply HR]].
    eapply (linked_inv pH _ es _ m L L3 p); try done; [by rewrite HP3, HP2|]. cbn [count]. lia.
Qed.

Lemma hash_insert_ok pH es m L key n d pNew alloc : hash_inv pH es m L -> key_ok key n ->
  Z.of_nat (S (length L)) < 2 ^ 30 -> (forall p, pNew = Some p -> p <> 0 /\ es !! p = None) ->
  (forall k, alloc = Some k -> 0 < Z.of_nat k < 2 ^ 32) ->
  exists pH' es' L', let r := map_insert m (norm key n) d (bool_decide (is_Some pNew)) in
    sqlite3HashInsert pH es key n d pNew alloc = Some (r.1, pH', es') /\ hash_inv pH' es' r.2 L' /\
    (length L' <= S (length L))%nat.
Proof.
  intros Hi Hk Hlen Hp Ha. unfold sqlite3HashInsert, map_insert. fold (slot_of pH key n).
  destruct (find_ok pH es m L key n Hi Hk ltac:(lia)) as (x & -> & [[-> Hm] | (Hx & e & He & Hek & Hm)]);
    cbn [mbind option_bind]; rewrite Hm.
  - cbn [Z.eqb negb]. destruct (Z.eqb_spec d 0) as [->|Hd]; [exists pH, es, L; split; [done|]; split; [done|lia]|].
    destruct pNew as [p|]; [|exists pH, es, L; split; [done|]; split; [done|lia]].
    destruct (Hp p eq_refl) as [Hp0 Hpe]. rewrite bool_decide_eq_true_2 by (by eexists).
    destruct (grown_inv pH es m L p key n d alloc Hi Hk Hd Hm Hpe Hp0 Ha Hlen _ _ eq_refl eq_refl)
      as (pH' & es' & L' & Hrun & Hi' & HP & _).
    exists pH', es', L'. split; [exact Hrun|]. split; [exact Hi'|]. by rewrite HP.
  - rewrite (proj2 (Z.eqb_neq x 0) Hx), He. cbn [negb mbind option_bind].
    destruct (Z.eqb_spec d 0) as [->|Hd].
    + destruct (remove_inv pH es m L x e key n Hi Hk He Hek ltac:(lia)) as (pH' & es' & L' & -> & Hi' & Hl & _).
      cbn [mbind option_bind]. exists pH', es', L'. split; [done|]. split; [done|lia].
    + eexists pH, _, L. split; [done|]. split; [by apply replace_inv|lia].
Qed.

(** As many elements as the map has entries: none is leaked or lost. *)
Lemma hash_size pH es m L : hash_inv pH es m L -> size es = size m.
Proof.
  intros Hi. destruct (hi_list _ _ _ _ Hi) as (_ & _ & Hnd & _). rewrite (size_list es L Hnd (hi_dom _ _ _ _ Hi)).
  set (keyof p := match es !! p with Some e => ekey e | None => [] end).
  assert (dom m = list_to_set (map keyof L)) as HD.
  { apply set_eq. intros k. rewrite elem_of_dom, elem_of_list_to_set, list_elem_of_fmap. split.
    - intros [d Hd]. destruct (hi_map _ _ _ _ Hi k d Hd) as (p & e & He & <-). exists p. unfold keyof. rewrite He.
      split; [done|]. apply (hi_dom _ _ _ _ Hi). by eexists.
    - intros (p & -> & Hp). apply (hi_dom _ _ _ _ Hi) in Hp as [e He]. unfold keyof. rewrite He.
      destruct (hi_elem _ _ _ _ Hi p e He) as (_ & _ & ->). by eexists. }
  rewrite <- size_dom, HD, size_list_to_set; [by rewrite length_map|]. apply NoDup_fmap_2_strong; [|done].
  intros p q Hp Hq E. apply (hi_dom _ _ _ _ Hi) in Hp as [e He]. apply (hi_dom _ _ _ _ Hi) in Hq as [f Hf].
  unfold keyof in E. rewrite He, Hf in E. by apply (hi_uniq _ _ _ _ Hi p q e f).
Qed.

(** ** Sequences of operations *)

(** [ok] and [alloc] are what the allocations of an insertion return. *)
Inductive hash_op :=
  | HInsert (key : list Z) (n d : Z) (ok : bool) (alloc : option nat)
  | HFind (key : list Z) (n : Z)
  | HClear.

Definition hash_op_ok (op : hash_op) : Prop :=
  match op with
  | HInsert key n _ _ alloc => key_ok key n /\ forall k, alloc = Some k -> 0 < Z.of_nat k < 2 ^ 32
  | HFind key n => key_ok key n
  | HClear => True
  end.

(** On the map. *)
Definition map_step (m : table) (op : hash_op) : Z * table :=
  match op with
  | HInsert key n d ok _ => map_insert m (norm key n) d ok
  | HFind key n => (default 0 (m !! norm key n), m)
  | HClear => (0, ∅)
  end.

Fixpoint map_run (m : table) (ops : list hash_op) : list Z * table :=
  match ops with
  | [] => ([], m)
  | op :: ops => let (x, m) := map_step m op in let (xs, m) := map_run m ops in (x :: xs, m)
  end.

Section Run.
  (** The address the allocator gives to a new element. *)
  Context (malloc : elems -> Z).

Definition hash_step (pH : Hash) (es : elems) (op : hash_op) : option (Z * Hash * elems) :=
    match op with
    | HInsert key n d ok alloc => sqlite3HashInsert pH es key n d (if ok then Some (malloc es) else None) alloc
    | HFind key n => x ← sqlite3HashFind pH es key n; Some (x, pH, es)
    | HClear => '(pH, es) ← sqlite3HashClear pH es; Some (0, pH, es)
    end.

Fixpoint hash_run (pH : Hash) (es : elems) (ops : list hash_op) : option (list Z * Hash * elems) :=
    match ops with
    | [] => Some ([], pH, es)
    | op :: ops =>
        '(x, pH, es) ← hash_step pH es op;
        '(xs, pH, es) ← hash_run pH es ops;
        Some (x :: xs, pH, es)
    end.

  Context (malloc_ok : forall es, malloc es <> 0 /\ es !! malloc es = None).

Lemma hash_step_ok pH es m L op : hash_inv pH es m L -> hash_op_ok op -> Z.of_nat (S (length L)) < 2 ^ 30 ->
    exists pH' es' L', hash_step pH es op = Some ((map_step m op).1, pH', es') /\
      hash_inv pH' es' (map_step m op).2 L' /\ (length L' <= S (length L))%nat.
  Proof.
    intros Hi Hok Hlen. destruct op as [key n d ok alloc|key n|]; cbn [hash_step map_step].
    - destruct Hok as [Hk Ha].
      destruct (hash_insert_ok pH es m L key n d (if ok then Some (malloc es) else None) alloc Hi Hk Hlen) as (pH' & es' & L' & H).
      + intros p Hp. destruct ok; [|done]. injection Hp as <-. apply malloc_ok.
      + done.
      + exists pH', es', L'. destruct ok; exact H.
    - rewrite (hash_find pH es m L key n Hi Hok ltac:(lia)). exists pH, es, L. split; [done|]. split; [done|lia].
    - rewrite (hash_clear_inv _ _ _ _ Hi). exists sqlite3HashInit, ∅, []. split; [done|]. split; [apply hash_init_inv|cbn; lia].
  Qed.

Lemma hash_run_ok : forall ops pH es m L, hash_inv pH es m L -> Forall hash_op_ok ops ->
    Z.of_nat (length ops + length L) < 2 ^ 30 ->
    exists pH' es' L', hash_run pH es ops = Some ((map_run m ops).1, pH', es') /\ hash_inv pH' es' (map_run m ops).2 L'.
  Proof.
    induction ops as [|op ops IH]; intros pH es m L Hi Hok Hlen; cbn [hash_run map_run]; [by exists pH, es, L|].
    apply Forall_cons in Hok as [Hop Hok]. cbn [length] in Hlen.
    destruct (hash_step_ok pH es m L op Hi Hop ltac:(lia)) as (pH1 & es1 & L1 & -> & Hi1 & Hl1). cbn [mbind option_bind].
    destruct (map_step m op) as [x m1] eqn:Em. cbn [fst snd] in *.
    destruct (IH pH1 es1 m1 L1 Hi1 Hok ltac:(lia)) as (pH2 & es2 & L2 & -> & Hi2). cbn [mbind option_bind].
    exists pH2, es2, L2. destruct (map_run m1 ops) as [xs m2]. by split.
  Qed.

End Run.

(** C11: any sequence of insertions, replacements, removals, lookups and clearings of a symbol table, allocation
    failures and rehashings included, runs and gives what the same sequence gives on a finite map whose keys are
    compared without regard to case; the table keeps its list, buckets and count consistent, and holds exactly one
    element for each entry of the map. *)
Theorem hash_refines_map (malloc : elems -> Z) (malloc_ok : forall es, malloc es <> 0 /\ es !! malloc es = None)
    (ops : list hash_op) (Hok : Forall hash_op_ok ops) (Hlen : Z.of_nat (length ops) < 2 ^ 30) :
  exists pH es L, hash_run malloc sqlite3HashInit ∅ ops = Some ((map_run ∅ ops).1, pH, es) /\
    hash_inv pH es (map_run ∅ ops).2 L /\ size es = size (map_run ∅ ops).2.
Proof.
  destruct (hash_run_ok malloc malloc_ok ops sqlite3HashInit ∅ ∅ [] hash_init_inv Hok ltac:(cbn; lia))
    as (pH & es & L & Hrun & Hi).
  exists pH, es, L. split; [exact Hrun|]. split; [exact Hi|by eapply hash_size].
Qed.

(** An allocator: the address above all those in use. *)
Definition next_address (es : elems) : Z := 1 + foldr (fun '(p, _) a => Z.max p a) 0 (map_to_list es).

Lemma next_address_ok es : next_address es <> 0 /\ es !! next_address es = None.
Proof.
  unfold next_address.
  assert (forall (l : list (Z * HashElem)), 0 <= foldr (fun '(p, _) a => Z.max p a) 0 l /\
    forall p e, (p, e) ∈ l -> p <= foldr (fun '(p, _) a => Z.max p a) 0 l) as HF.
  { induction l as [|[q f] l [IH1 IH2]]; cbn [foldr]; [split; [lia|by intros p e ?%elem_of_nil]|]. split; [lia|].
    intros p e [[= -> ->] | Hin]%elem_of_cons; [lia|]. specialize (IH2 p e Hin). lia. }
  destruct (HF (map_to_list es)) as [H0 Hle]. split; [lia|].
  destruct (es !! (_ + _)) as [e|] eqn:E; [|done]. apply elem_of_map_to_list in E. specialize (Hle _ _ E). lia.
Qed.

(** The keys [a], [b], ... [l], [AB] and [ab]. *)
Definition sample_ops : list hash_op :=
  map (fun i => HInsert [97 + Z.of_nat i] 1 (100 + Z.of_nat i) true (Some 32%nat)) (List.seq 0 12) ++
  [HFind [67] 1; HInsert [65; 66] 2 7 true None; HInsert [97; 98] 2 8 true None; HFind [97; 66] 2;
   HInsert [68] 1 0 true None; HFind [100] 1; HInsert [120] 1 9 false None; HFind [120] 1; HClear; HFind [97] 1].

Lemma sample_ops_ok : Forall hash_op_ok sample_ops.
Proof.
  unfold sample_ops. cbn [map List.seq app].
  repeat (apply List.Forall_cons; [cbn [hash_op_ok]; unfold key_ok, cstring|]); try constructor;
    repeat first [done | intros k [= <-] | split | apply List.Forall_cons | lia | cbn; lia].
Qed.

Lemma hash_refines_map_witness :
  (hash_run next_address sqlite3HashInit ∅ sample_ops =
     Some (repeat 0 12 ++ [102; 0; 7; 8; 103; 0; 9; 0; 0; 0], sqlite3HashInit, ∅)) /\
  exists pH es L, hash_run next_address sqlite3HashInit ∅ sample_ops = Some ((map_run ∅ sample_ops).1, pH, es) /\
    hash_inv pH es (map_run ∅ sample_ops).2 L /\ size es = size (map_run ∅ sample_ops).2.
Proof.
  split; [vm_compute; reflexivity|].
  apply (hash_refines_map next_address next_address_ok sample_ops sample_ops_ok). vm_compute. reflexivity.
Defined.
