(* ===== verification/Vfs.v ===== *)
(** * Temporary files and fallible memory

    The operating system as the sorter sees it: files of a VFS, reached through
    the methods of the VFS the application has chosen (class [Vfs], with its
    documented behaviour as the class [VfsLaws]), and an allocator that may
    fail.  Programs over both are state transformers; following a NULL pointer,
    leaving a buffer or reading memory never written gives no result. *)

From S2P Require Import Prelude Mem Heap.

Definition SQLITE_IOERR : Z := 10.
Definition SQLITE_IOERR_SHORT_READ : Z := 522.

(** ** The methods of a VFS and its files

    A file is known by the address of its sqlite3_file object, 0 being NULL.
    [xOpen] opens a new temporary file. *)
Class Vfs := {
  vfs : Type;
  xOpen : vfs -> Z * Z * vfs;
  xRead : vfs -> Z -> Z -> Z -> Z * list Z * vfs;
  xWrite : vfs -> Z -> list Z -> Z -> Z * vfs;
  xClose : vfs -> Z -> Z * vfs;
}.

(** The contents of a file after [data] is written at offset [off]. *)
Definition write_at (bs : list Z) (off : nat) (data : list Z) : list Z :=
  take off bs ++ replicate (off - length bs) 0 ++ data ++ drop (off + length data) bs.

(** [contents]: of each open file.  [ready]: nothing will fail from now on. *)
Class VfsLaws (V : Vfs) := {
  contents : vfs -> Z -> option (list Z);
  ready : vfs -> Prop;
  open_law w rc f w' : xOpen w = (rc, f, w') ->
    (forall g, g <> f \/ rc <> SQLITE_OK -> contents w' g = contents w g) /\
    (rc = SQLITE_OK -> f <> 0 /\ contents w f = None /\ contents w' f = Some []) /\
    (ready w -> rc = SQLITE_OK /\ ready w');
  read_law w f n off rc data w' bs : xRead w f n off = (rc, data, w') -> contents w f = Some bs ->
    0 <= off -> 0 < n -> off + n <= Z.of_nat (length bs) ->
    (forall g, contents w' g = contents w g) /\ length data = Z.to_nat n /\
    (rc = SQLITE_OK -> data = take (Z.to_nat n) (drop (Z.to_nat off) bs)) /\
    (ready w -> rc = SQLITE_OK /\ ready w');
  write_law w f data off rc w' bs : xWrite w f data off = (rc, w') -> contents w f = Some bs ->
    0 <= off -> data <> [] ->
    (forall g, g <> f -> contents w' g = contents w g) /\ is_Some (contents w' f) /\
    (rc = SQLITE_OK -> contents w' f = Some (write_at bs (Z.to_nat off) data)) /\
    (ready w -> rc = SQLITE_OK /\ ready w');
  close_law w f rc w' : xClose w f = (rc, w') -> is_Some (contents w f) ->
    (forall g, g <> f -> contents w' g = contents w g) /\ contents w' f = None /\ (ready w -> ready w');
}.

(** ** Programs *)

(** [mallocFailed]: that of the connection. *)
Record world {V : Vfs} := World { hp : heap; mallocFailed : bool; fs : vfs }.
Arguments world : clear implicits.
Arguments World {V}.

Definition IO {V : Vfs} (A : Type) : Type := world V -> option (A * world V).

#[export] Instance IO_ret {V : Vfs} : MRet IO := fun A x w => Some (x, w).
#[export] Instance IO_bind {V : Vfs} : MBind IO := fun A B f m w => '(x, w) ← m w; f x w.

Section Programs.
Context {V : Vfs}.

Definition must {A} (o : option A) : IO A := fun w => x ← o; Some (x, w).

Definition ensure (b : bool) : IO () := fun w => if b then Some ((), w) else None.

(** [sqlite3Malloc] *)
Definition alloc : IO bool := fun w =>
  let (ok, h) := malloc w.(hp) in Some (ok, World h w.(mallocFailed) w.(fs)).

(** [sqlite3DbMallocRaw]: once it has failed, it fails until the flag is reset. *)
Definition db_alloc : IO bool := fun w =>
  if w.(mallocFailed) then Some (false, w)
  else let (ok, h) := malloc w.(hp) in Some (ok, World h (negb ok) w.(fs)).

(** [sqlite3DbFree]; a NULL pointer is not a block. *)
Definition dbfree (block : bool) : IO () := fun w =>
  Some ((), if block then World (free w.(hp)) w.(mallocFailed) w.(fs) else w).

(** ** os.c *)

Definition sqlite3OsRead (f n off : Z) : IO (Z * list Z) := fun w =>
  if f =? 0 then None else let '(rc, data, v) := xRead w.(fs) f n off in Some (rc, data, World w.(hp) w.(mallocFailed) v).

Definition sqlite3OsWrite (f : Z) (data : list Z) (off : Z) : IO Z := fun w =>
  if f =? 0 then None else let (rc, v) := xWrite w.(fs) f data off in Some (rc, World w.(hp) w.(mallocFailed) v).

Definition sqlite3OsOpen : IO (Z * Z) := fun w =>
  let '(rc, f, v) := xOpen w.(fs) in Some (rc, f, World w.(hp) w.(mallocFailed) v).

Definition sqlite3OsClose (f : Z) : IO Z := fun w =>
  let (rc, v) := xClose w.(fs) f in Some (rc, World w.(hp) w.(mallocFailed) v).

(** The result code and [*ppFile], which was NULL. *)
Definition sqlite3OsOpenMalloc : IO (Z * Z) :=
  pFile ← alloc;
  if (pFile : bool) then
    '(rc, f) ← sqlite3OsOpen;
    if negb (rc =? SQLITE_OK) then _ ← dbfree true; mret (rc, 0) else mret (rc, f)
  else mret (SQLITE_NOMEM, 0).

Definition sqlite3OsCloseFree (f : Z) : IO Z :=
  _ ← ensure (negb (f =? 0));
  rc ← sqlite3OsClose f;
  _ ← dbfree true;
  mret rc.

End Programs.

(** ** Reasoning about programs *)

Section Logic.
Context {V : Vfs} {VL : VfsLaws V}.

(** [m] is defined in [w], and [Q] holds of what it returns. *)
Definition runs {A} (m : IO A) (w : world V) (Q : A -> world V -> Prop) : Prop :=
  exists x w', m w = Some (x, w') /\ Q x w'.

(** Nothing will fail. *)
Definition good (w : world V) : Prop :=
  ready w.(fs) /\ w.(hp).(fails) = [] /\ w.(mallocFailed) = false.

(** From [w] to [w'] only the files [l] change, and there are [d] more blocks. *)
Definition step (l : list Z) (w w' : world V) (d : Z) : Prop :=
  (forall g, ~ g ∈ l -> contents w'.(fs) g = contents w.(fs) g) /\
  w'.(hp).(live) = w.(hp).(live) + d /\ (good w -> good w').

Lemma step_refl l w : step l w w 0.
Proof. split; [done|]. split; [lia|done]. Qed.

Lemma step_trans l w1 w2 w3 d1 d2 : step l w1 w2 d1 -> step l w2 w3 d2 -> step l w1 w3 (d1 + d2).
Proof.
  intros (HA1 & HB1 & HC1) (HA2 & HB2 & HC2). split; [intros g Hg; by rewrite HA2, HA1|]. split; [lia|]. intros H. by apply HC2, HC1.
Qed.

Lemma step_mono l l' w w' d d' : step l w w' d -> (forall g, g ∈ l -> g ∈ l') -> d = d' -> step l' w w' d'.
Proof. intros (A & B & C) Hl <-. split; [|done]. intros g Hg. apply A. by intros ?%Hl. Qed.

Lemma step_good l w w' d : step l w w' d -> good w -> good w'.
Proof. by intros (_ & _ & H). Qed.

Lemma step_contents w w' d g : step [] w w' d -> contents w'.(fs) g = contents w.(fs) g.
Proof. intros (H & _). apply H. by intros ?%elem_of_nil. Qed.

Lemma runs_mono {A} (m : IO A) w (Q Q' : A -> world V -> Prop) :
  runs m w Q -> (forall x w', Q x w' -> Q' x w') -> runs m w Q'.
Proof. intros (x & w' & Hm & HQ) H. exists x, w'. split; [done|by apply H]. Qed.

Lemma runs_bind {A B} (m : IO A) (f : A -> IO B) w Q :
  runs m w (fun x w' => runs (f x) w' Q) -> runs (m ≫= f) w Q.
Proof.
  intros (x & w1 & Hm & y & w2 & Hf & HQ). exists y, w2. split; [|done].
  unfold mbind, IO_bind. rewrite Hm. cbn [mbind option_bind]. exact Hf.
Qed.

Lemma runs_ret {A} (x : A) w (Q : A -> world V -> Prop) : Q x w -> runs (mret x) w Q.
Proof. intros H. by exists x, w. Qed.

Lemma runs_must {A} (o : option A) x w (Q : A -> world V -> Prop) : o = Some x -> Q x w -> runs (must o) w Q.
Proof. intros -> H. by exists x, w. Qed.

Lemma runs_ensure b w (Q : () -> world V -> Prop) : b = true -> Q () w -> runs (ensure b) w Q.
Proof. intros -> H. by exists (), w. Qed.

Lemma runs_alloc w (Q : bool -> world V -> Prop) :
  (forall (ok : bool) w', step [] w w' (if ok then 1 else 0) -> (good w -> ok = true) -> Q ok w') -> runs alloc w Q.
Proof.
  intros H. unfold runs, alloc. destruct (malloc (hp w)) as [ok h] eqn:E.
  destruct (malloc_facts _ _ _ E) as [Hl Hf]. do 2 eexists. split; [done|]. apply H.
  - split; [done|]. split; [done|]. intros (HR & Hn & Hm). apply Hf in Hn as [_ Hn]. by split.
  - intros (_ & Hn & _). by apply Hf in Hn as [-> _].
Qed.

Lemma runs_db_alloc w (Q : bool -> world V -> Prop) :
  (forall (ok : bool) w', step [] w w' (if ok then 1 else 0) -> (good w -> ok = true) ->
    (ok = false -> w'.(mallocFailed) = true) -> (w.(mallocFailed) = true -> ok = false) -> Q ok w') ->
  runs db_alloc w Q.
Proof.
  intros H. unfold runs, db_alloc. destruct (mallocFailed w) eqn:Hmf.
  { do 2 eexists. split; [done|]. apply H; [apply step_refl| |done|done]. intros (_ & _ & E). congruence. }
  destruct (malloc (hp w)) as [ok h] eqn:E. destruct (malloc_facts _ _ _ E) as [Hl Hf].
  do 2 eexists. split; [done|]. apply H; [| |by intros ->|done].
  - split; [done|]. split; [done|]. intros (HR & Hn & Hm). apply Hf in Hn as [-> Hn]. by split.
  - intros (_ & Hn & _). by apply Hf in Hn as [-> _].
Qed.

Lemma runs_dbfree (b : bool) (w : world V) (Q : () -> world V -> Prop) :
  (forall w', step [] w w' (if b then -1 else 0) -> Q () w') -> runs (dbfree b) w Q.
Proof. intros H. do 2 eexists. split; [done|]. apply H. destruct b; [|apply step_refl]. split; [done|]. split; [cbn; lia|done]. Qed.

Lemma runs_read f n off bs w Q : contents w.(fs) f = Some bs -> f <> 0 -> 0 <= off -> 0 < n ->
  off + n <= Z.of_nat (length bs) ->
  (forall rc data w', step [] w w' 0 -> length data = Z.to_nat n ->
    (rc = SQLITE_OK -> data = take (Z.to_nat n) (drop (Z.to_nat off) bs)) -> (good w -> rc = SQLITE_OK) ->
    Q (rc, data) w') -> runs (sqlite3OsRead f n off) w Q.
Proof.
  intros Hc Hf Ho Hn Hl H. unfold runs, sqlite3OsRead. rewrite (proj2 (Z.eqb_neq f 0) Hf).
  destruct (xRead (fs w) f n off) as [[rc data] v] eqn:E.
  destruct (read_law _ _ _ _ _ _ _ _ E Hc Ho Hn Hl) as (Hs & Hd & Hok & Hr).
  do 2 eexists. split; [done|]. apply H; [|done|done|].
  - split; [intros g _; apply Hs|]. split; [cbn; lia|]. intros (? & ? & ?). split; [by apply Hr|done].
  - intros (? & _ & _). by apply Hr.
Qed.

Lemma runs_write f data off bs w Q : contents w.(fs) f = Some bs -> f <> 0 -> 0 <= off -> data <> [] ->
  (forall rc w', step [f] w w' 0 -> is_Some (contents w'.(fs) f) ->
    (rc = SQLITE_OK -> contents w'.(fs) f = Some (write_at bs (Z.to_nat off) data)) ->
    (good w -> rc = SQLITE_OK) -> Q rc w') -> runs (sqlite3OsWrite f data off) w Q.
Proof.
  intros Hc Hf Ho Hd H. unfold runs, sqlite3OsWrite. rewrite (proj2 (Z.eqb_neq f 0) Hf).
  destruct (xWrite (fs w) f data off) as [rc v] eqn:E.
  destruct (write_law _ _ _ _ _ _ _ E Hc Ho Hd) as (Hs & His & Hok & Hr).
  do 2 eexists. split; [done|]. apply H; [|done|done|].
  - split; [intros g Hg; apply Hs; intros ->; apply Hg; left|]. split; [cbn; lia|].
    intros (? & ? & ?). split; [by apply Hr|done].
  - intros (? & _ & _). by apply Hr.
Qed.

Lemma runs_open w Q :
  (forall rc f w', (good w -> rc = SQLITE_OK) ->
    (rc <> SQLITE_OK -> f = 0 /\ step [] w w' 0) ->
    (rc = SQLITE_OK -> f <> 0 /\ contents w.(fs) f = None /\ contents w'.(fs) f = Some [] /\ step [f] w w' 1) ->
    Q (rc, f) w') -> runs sqlite3OsOpenMalloc w Q.
Proof.
  intros H. unfold sqlite3OsOpenMalloc. apply runs_bind, runs_alloc. intros [] w1 Hs1 Hok1.
  - apply runs_bind. unfold runs, sqlite3OsOpen. destruct (xOpen (fs w1)) as [[rc f] v] eqn:E.
    destruct (open_law _ _ _ _ E) as (Hs & Hok & Hr). do 2 eexists. split; [done|].
    pose proof Hs1 as (Hc1 & Hl1 & Hg1).
    destruct (Z.eqb_spec rc SQLITE_OK) as [->|Hrc]; cbn [negb].
    + apply runs_ret. apply H; [done|done|]. intros _. destruct (Hok eq_refl) as (Hf & Hn & He).
      split; [done|]. split; [by rewrite <- Hc1 by (by intros ?%elem_of_nil)|]. split; [done|].
      split; [intros g Hg; cbn; rewrite Hs by (left; intros ->; apply Hg; left); apply Hc1; by intros ?%elem_of_nil|].
      split; [cbn; lia|]. intros Hg. destruct (Hg1 Hg) as (? & ? & ?). split; [by apply Hr|done].
    + apply runs_bind, runs_dbfree. intros w3 (Hc3 & Hl3 & Hg3). apply runs_ret. apply H; [| |done].
      * intros Hg. destruct (Hg1 Hg) as (Hy & _). by apply Hr in Hy as [? _].
      * intros _. split; [done|]. split; [|split].
        -- intros g Hg. rewrite Hc3 by done. cbn. rewrite Hs by (by right). by apply Hc1.
        -- rewrite Hl3. cbn. lia.
        -- intros Hg. apply Hg3. destruct (Hg1 Hg) as (Hy & ? & ?). split; [by apply Hr|done].
  - apply runs_ret. apply H; [by intros ?%Hok1|done|done].
Qed.

Lemma runs_close f w Q : f <> 0 -> is_Some (contents w.(fs) f) ->
  (forall rc w', step [f] w w' (-1) -> contents w'.(fs) f = None -> Q rc w') -> runs (sqlite3OsCloseFree f) w Q.
Proof.
  intros Hf Hc H. unfold sqlite3OsCloseFree. apply runs_bind, runs_ensure; [by rewrite (proj2 (Z.eqb_neq f 0) Hf)|].
  apply runs_bind. unfold runs, sqlite3OsClose. destruct (xClose (fs w) f) as [rc v] eqn:E.
  destruct (close_law _ _ _ _ E Hc) as (Hs & Hn & Hr). do 2 eexists. split; [done|].
  apply runs_bind, runs_dbfree. intros w2 (Hc2 & Hl2 & Hg2). apply runs_ret. apply H.
  - split; [|split].
    + intros g Hg. rewrite Hc2 by (by intros ?%elem_of_nil). apply Hs. intros ->. apply Hg. left.
    + rewrite Hl2. cbn. lia.
    + intros (? & ? & ?). apply Hg2. split; [by apply Hr|done].
  - by rewrite Hc2 by (by intros ?%elem_of_nil).
Qed.

End Logic.

(** ** Files in memory

    An executable VFS that obeys the laws: the contents of the open files, and
    the result codes of the next calls (0 once they are used up). *)

Record mem_vfs := MemVfs { files : gmap Z (list Z); faults : list Z }.

Definition next_rc (w : mem_vfs) : Z * mem_vfs :=
  match w.(faults) with
  | [] => (SQLITE_OK, w)
  | rc :: l => (rc, MemVfs w.(files) l)
  end.

Definition next_file (w : mem_vfs) : Z := 1 + foldr (fun '(f, _) a => Z.max f a) 0 (map_to_list w.(files)).

Definition mem_open (w : mem_vfs) : Z * Z * mem_vfs :=
  let f := next_file w in
  let (rc, w) := next_rc w in
  if rc =? SQLITE_OK then (rc, f, MemVfs (<[f := []]> w.(files)) w.(faults)) else (rc, 0, w).

Definition mem_read (w : mem_vfs) (f n off : Z) : Z * list Z * mem_vfs :=
  let bs := default [] (w.(files) !! f) in
  let (rc, w) := next_rc w in
  if negb (rc =? SQLITE_OK) then (rc, replicate (Z.to_nat n) 0, w)
  else
    let data := take (Z.to_nat n) (drop (Z.to_nat off) bs) in
    if off + n <=? Z.of_nat (length bs) then (rc, data, w)
    else (SQLITE_IOERR_SHORT_READ, data ++ replicate (Z.to_nat n - length data) 0, w).

Definition mem_write (w : mem_vfs) (f : Z) (data : list Z) (off : Z) : Z * mem_vfs :=
  let (rc, w) := next_rc w in
  if rc =? SQLITE_OK
  then (rc, MemVfs (<[f := write_at (default [] (w.(files) !! f)) (Z.to_nat off) data]> w.(files)) w.(faults))
  else (rc, w).

Definition mem_close (w : mem_vfs) (f : Z) : Z * mem_vfs :=
  let (rc, w) := next_rc w in (rc, MemVfs (delete f w.(files)) w.(faults)).

#[export] Instance VfsMem : Vfs := {| vfs := mem_vfs; xOpen := mem_open; xRead := mem_read; xWrite := mem_write; xClose := mem_close |}.

Lemma next_rc_facts w rc w' : next_rc w = (rc, w') ->
  w'.(files) = w.(files) /\ (w.(faults) = [] -> rc = SQLITE_OK /\ w'.(faults) = []).
Proof. unfold next_rc. destruct (faults w) eqn:E; intros [= <- <-]; cbn; rewrite ?E; done. Qed.

Lemma next_file_fresh w : next_file w <> 0 /\ w.(files) !! next_file w = None.
Proof.
  unfold next_file.
  assert (forall (l : list (Z * list Z)), 0 <= foldr (fun '(f, _) a => Z.max f a) 0 l /\
    forall f bs, (f, bs) ∈ l -> f <= foldr (fun '(f, _) a => Z.max f a) 0 l) as HF.
  { induction l as [|[q bs] l [IH1 IH2]]; cbn [foldr]; [split; [lia|by intros f bs ?%elem_of_nil]|]. split; [lia|].
    intros f bs' [[= -> ->] | Hin]%elem_of_cons; [lia|]. specialize (IH2 f bs' Hin). lia. }
  destruct (HF (map_to_list (files w))) as [H0 Hle]. split; [lia|].
  destruct (files w !! (_ + _)) as [bs|] eqn:E; [|done]. apply elem_of_map_to_list in E. specialize (Hle _ _ E). lia.
Qed.

#[export] Program Instance VfsMemLaws : VfsLaws VfsMem :=
  {| contents := fun w f => w.(files) !! f; ready := fun w => w.(faults) = [] |}.
Next Obligation.
  intros w rc f w' H. cbn in H. unfold mem_open in H. destruct (next_rc w) as [rc0 w0] eqn:E.
  destruct (next_rc_facts _ _ _ E) as [HF HR]. destruct (next_file_fresh w) as [Hf Hfn].
  destruct (Z.eqb_spec rc0 SQLITE_OK) as [->|Hrc]; injection H as <- <- <-.
  - cbn [files faults]. rewrite HF. split; [intros g [Hg|Hg]; [by rewrite lookup_insert_ne by done|done]|].
    split; [intros _; split; [done|]; split; [done|]; apply lookup_insert_eq|]. intros H. split; [done|by apply HR].
  - rewrite HF. split; [done|]. split; [done|]. intros H. by apply HR in H as [? _].
Qed.
Next Obligation.
  intros w f n off rc data w' bs H Hc Hoff Hn Hlen. cbn in H, Hc. unfold mem_read in H. rewrite Hc in H.
  destruct (next_rc w) as [rc0 w0] eqn:E. destruct (next_rc_facts _ _ _ E) as [HF HR]. cbn in H.
  destruct (Z.eqb_spec rc0 SQLITE_OK) as [->|Hrc]; cbn [negb] in H.
  - rewrite (proj2 (Z.leb_le _ _) Hlen) in H. injection H as <- <- <-. rewrite HF.
    split; [done|]. split; [rewrite length_take, length_drop; lia|]. split; [done|]. intros H. split; [done|by apply HR].
  - injection H as <- <- <-. rewrite HF. split; [done|]. split; [by rewrite length_replicate|].
    split; [done|]. intros H. by apply HR in H as [? _].
Qed.
Next Obligation.
  intros w f data off rc w' bs H Hc Hoff Hd. cbn in H, Hc. unfold mem_write in H.
  destruct (next_rc w) as [rc0 w0] eqn:E. destruct (next_rc_facts _ _ _ E) as [HF HR].
  destruct (Z.eqb_spec rc0 SQLITE_OK) as [->|Hrc]; injection H as <- <-; cbn [files faults]; rewrite HF.
  - rewrite Hc. split; [intros g Hg; by rewrite lookup_insert_ne by done|]. rewrite lookup_insert_eq.
    split; [by eexists|]. split; [done|]. intros H. split; [done|by apply HR].
  - split; [done|]. split; [by eexists|]. split; [done|]. intros H. by apply HR in H as [? _].
Qed.
Next Obligation.
  intros w f rc w' H Hc. cbn in H. unfold mem_close in H.
  destruct (next_rc w) as [rc0 w0] eqn:E. destruct (next_rc_facts _ _ _ E) as [HF HR].
  injection H as <- <-. cbn [files faults]. rewrite HF. split; [intros g Hg; by rewrite lookup_delete_ne|].
  split; [apply lookup_delete_eq|]. intros H. by apply HR.
Qed.
