(* ===== verification/Sorter.v ===== *)
(** * The sorter (vdbesort.c): data and operations

    Records are collected in a list; when the list is too large it is sorted
    and written to a temporary file as a packed array (PMA).  Rewinding merges
    the arrays, at most 16 at a time, until 16 are left, which a tree of
    comparisons then merges incrementally.  Records linked by pNext are a list
    here.  Memory from malloc starts uninitialised ([None]); keys are read
    through a pointer into a buffer. *)

From S2P Require Import Prelude Varint Ints Mem Heap Serial Vfs.

(** ** Memory *)

(** What a variable that is declared without a value holds. *)
Class Indeterminate := uninit : Z.

Abbreviation buf := (list (option Z)).

Definition malloc_raw (n : Z) : buf := replicate (Z.to_nat n) None.

(** [n] bytes from [i] on, if they are inside. *)
Definition slice (b : buf) (i n : Z) : option buf :=
  if (0 <=? i) && (0 <=? n) && (i + n <=? Z.of_nat (length b))
  then Some (take (Z.to_nat n) (drop (Z.to_nat i) b)) else None.

(** [memcpy(&dst[i], src, n)] *)
Definition blit (dst : buf) (i : Z) (src : buf) : option buf :=
  if (0 <=? i) && (i + Z.of_nat (length src) <=? Z.of_nat (length dst))
  then Some (take (Z.to_nat i) dst ++ src ++ drop (Z.to_nat i + length src) dst) else None.

(** Reading bytes that must have been written. *)
Definition load (b : buf) (i n : Z) : option (list Z) := l ← slice b i n; mapM id l.

(** The bytes that can be read from the start of [b]. *)
Fixpoint initialised (b : buf) : list Z :=
  match b with Some x :: b => x :: initialised b | _ => [] end.

(** ** Data *)

Record SorterRecord := mkSorterRecord { pVal : list Z; nVal : Z }.

(** Where [aKey] points: nowhere, into [aBuffer], or at [aAlloc]. *)
Inductive keyptr := KNull | KBuffer (i : Z) | KAlloc.

Record VdbeSorterIter := mkIter {
  iReadOff : Z;
  iEof : Z;
  nAlloc : Z;
  nKey : Z;
  pFile : Z;
  aAlloc : option buf;
  aKey : keyptr;
  aBuffer : option buf;
  nBuffer : Z }.

Definition zero_iter : VdbeSorterIter := mkIter 0 0 0 0 0 None KNull None 0.

Record FileWriter := mkWriter {
  eFWErr : Z;
  fw_aBuffer : option buf;
  fw_nBuffer : Z;
  iBufStart : Z;
  iBufEnd : Z;
  fw_iWriteOff : Z;
  fw_pFile : Z }.

Record VdbeSorter := mkSorter {
  iWriteOff : Z;
  so_iReadOff : Z;
  nInMemory : Z;
  nTree : Z;
  nPMA : Z;
  mnPmaSize : Z;
  mxPmaSize : Z;
  aIter : option (list VdbeSorterIter);
  aTree : option (list Z);
  pTemp1 : Z;
  pRecord : list SorterRecord;
  pUnpacked : option UnpackedRecord }.

Definition SORTER_MIN_WORKING : Z := 10.
Definition SORTER_MAX_MERGE_COUNT : Z := 16.

Definition set_iReadOff (p : VdbeSorterIter) x :=
  mkIter x p.(iEof) p.(nAlloc) p.(nKey) p.(pFile) p.(aAlloc) p.(aKey) p.(aBuffer) p.(nBuffer).
Definition set_iEof (p : VdbeSorterIter) x :=
  mkIter p.(iReadOff) x p.(nAlloc) p.(nKey) p.(pFile) p.(aAlloc) p.(aKey) p.(aBuffer) p.(nBuffer).
Definition set_aAlloc (p : VdbeSorterIter) x n :=
  mkIter p.(iReadOff) p.(iEof) n p.(nKey) p.(pFile) x p.(aKey) p.(aBuffer) p.(nBuffer).
Definition set_aKey (p : VdbeSorterIter) x n :=
  mkIter p.(iReadOff) p.(iEof) p.(nAlloc) n p.(pFile) p.(aAlloc) x p.(aBuffer) p.(nBuffer).
Definition set_aBuffer (p : VdbeSorterIter) x :=
  mkIter p.(iReadOff) p.(iEof) p.(nAlloc) p.(nKey) p.(pFile) p.(aAlloc) p.(aKey) x p.(nBuffer).

Definition set_writer (p : FileWriter) err b s e off :=
  mkWriter err b p.(fw_nBuffer) s e off p.(fw_pFile).

Definition set_unpacked (s : VdbeSorter) r :=
  mkSorter s.(iWriteOff) s.(so_iReadOff) s.(nInMemory) s.(nTree) s.(nPMA) s.(mnPmaSize) s.(mxPmaSize)
    s.(aIter) s.(aTree) s.(pTemp1) s.(pRecord) r.
Definition set_record (s : VdbeSorter) l :=
  mkSorter s.(iWriteOff) s.(so_iReadOff) s.(nInMemory) s.(nTree) s.(nPMA) s.(mnPmaSize) s.(mxPmaSize)
    s.(aIter) s.(aTree) s.(pTemp1) l s.(pUnpacked).
Definition set_inMemory (s : VdbeSorter) n :=
  mkSorter s.(iWriteOff) s.(so_iReadOff) n s.(nTree) s.(nPMA) s.(mnPmaSize) s.(mxPmaSize)
    s.(aIter) s.(aTree) s.(pTemp1) s.(pRecord) s.(pUnpacked).
Definition set_temp (s : VdbeSorter) f :=
  mkSorter s.(iWriteOff) s.(so_iReadOff) s.(nInMemory) s.(nTree) s.(nPMA) s.(mnPmaSize) s.(mxPmaSize)
    s.(aIter) s.(aTree) f s.(pRecord) s.(pUnpacked).
Definition set_pma (s : VdbeSorter) n off :=
  mkSorter off s.(so_iReadOff) s.(nInMemory) s.(nTree) n s.(mnPmaSize) s.(mxPmaSize)
    s.(aIter) s.(aTree) s.(pTemp1) s.(pRecord) s.(pUnpacked).
Definition set_readOff (s : VdbeSorter) off :=
  mkSorter s.(iWriteOff) off s.(nInMemory) s.(nTree) s.(nPMA) s.(mnPmaSize) s.(mxPmaSize)
    s.(aIter) s.(aTree) s.(pTemp1) s.(pRecord) s.(pUnpacked).
Definition set_tree (s : VdbeSorter) its t n :=
  mkSorter s.(iWriteOff) s.(so_iReadOff) s.(nInMemory) n s.(nPMA) s.(mnPmaSize) s.(mxPmaSize)
    its t s.(pTemp1) s.(pRecord) s.(pUnpacked).

Definition set_up (r2 : UnpackedRecord) n f ro := mkUnpacked r2.(pKeyInfo) n f ro r2.(aMem).

(** ** Operations

    [ki]: the KeyInfo of the cursor; [pgsz]: the page size of the main
    database; [oom]: whether the allocations for converting texts fail in
    comparisons. *)
Section Sorter.
Context {V : Vfs} {U : Indeterminate} (oom : bool) (ki : KeyInfo) (pgsz : Z).

(** *** Reading a packed array *)

Definition is_block {A} (o : option A) : bool := match o with Some _ => true | None => false end.

Definition vdbeSorterIterZero (pIter : VdbeSorterIter) : IO VdbeSorterIter :=
  _ ← dbfree (is_block pIter.(aAlloc));
  _ ← dbfree (is_block pIter.(aBuffer));
  mret zero_iter.

Definition sqlite3DbReallocOrFree (p : option buf) (n : Z) : IO (option buf) :=
  ok ← db_alloc;
  _ ← dbfree (is_block p);
  mret (if ok : bool then Some (take (Z.to_nat n) (default [] p ++ malloc_raw n)) else None).

(** [while( nByte>nNew ) nNew = nNew*2;] *)
Fixpoint double_until (fuel : nat) (nByte nNew : Z) : option Z :=
  match fuel with
  | O => None
  | S fuel => if nByte >? nNew then double_until fuel nByte (i32 (nNew * 2)) else Some nNew
  end.

(** The bytes at [aKey]. *)
Definition deref (p : VdbeSorterIter) (k : keyptr) (n : Z) : option buf :=
  match k with
  | KNull => None
  | KBuffer i => b ← p.(aBuffer); slice b i n
  | KAlloc => b ← p.(aAlloc); slice b 0 n
  end.

(** [while( nRem>0 )]: copying through further reads. *)
Fixpoint copy_loop (fuel : nat) (read : VdbeSorterIter -> Z -> IO (Z * VdbeSorterIter * keyptr))
    (p : VdbeSorterIter) (nByte nRem : Z) : IO (Z * VdbeSorterIter) :=
  match fuel with
  | O => must None
  | S fuel =>
      if 0 <? nRem then
        let nCopy := if nRem >? p.(nBuffer) then p.(nBuffer) else nRem in
        '(rc, p, aNext) ← read p nCopy;
        if negb (rc =? SQLITE_OK) then mret (rc, p)
        else
          _ ← ensure (match aNext with KAlloc => false | _ => true end);
          src ← must (deref p aNext nCopy);
          dst ← must p.(aAlloc);
          dst ← must (blit dst (nByte - nRem) src);
          copy_loop fuel read (set_aAlloc p (Some dst) p.(nAlloc)) nByte (nRem - nCopy)
      else mret (SQLITE_OK, p)
  end.

Fixpoint vdbeSorterIterRead (fuel : nat) (p : VdbeSorterIter) (nByte : Z)
    : IO (Z * VdbeSorterIter * keyptr) :=
  match fuel with
  | O => must None
  | S fuel =>
      buffer ← must p.(aBuffer);
      _ ← ensure (negb (p.(nBuffer) =? 0));
      let iBuf := Z.rem p.(iReadOff) p.(nBuffer) in
      '(rc, buffer) ← (if iBuf =? 0 then
          let nRead := if p.(iEof) - p.(iReadOff) >? p.(nBuffer) then p.(nBuffer)
                       else i32 (p.(iEof) - p.(iReadOff)) in
          _ ← ensure (0 <? nRead);
          '(rc, data) ← sqlite3OsRead p.(pFile) nRead p.(iReadOff);
          buffer ← must (blit buffer 0 (map Some data));
          mret (rc, buffer)
        else mret (SQLITE_OK, buffer));
      let p := set_aBuffer p (Some buffer) in
      if negb (rc =? SQLITE_OK) then mret (rc, p, KNull)
      else
        let nAvail := p.(nBuffer) - iBuf in
        if nByte <=? nAvail then
          mret (SQLITE_OK, set_iReadOff p (p.(iReadOff) + nByte), KBuffer iBuf)
        else
          '(ok, p) ← (if p.(nAlloc) <? nByte then
              nNew ← must (double_until 32 nByte (i32 (p.(nAlloc) * 2)));
              a ← sqlite3DbReallocOrFree p.(aAlloc) nNew;
              mret (is_block a, set_aAlloc p a (if is_block a then nNew else p.(nAlloc)))
            else mret (true, p));
          if negb ok then mret (SQLITE_NOMEM, p, KNull)
          else
            src ← must (slice buffer iBuf nAvail);
            dst ← must p.(aAlloc);
            dst ← must (blit dst 0 src);
            let p := set_iReadOff (set_aAlloc p (Some dst) p.(nAlloc)) (p.(iReadOff) + nAvail) in
            '(rc, p) ← copy_loop (S (Z.to_nat (nByte - nAvail))) (vdbeSorterIterRead fuel) p nByte (nByte - nAvail);
            mret (rc, p, if rc =? SQLITE_OK then KAlloc else KNull)
  end.

(** A read calls itself at most once below itself. *)
Definition READ_DEPTH : nat := 2.

(** [do{ ... }while( (a[0]&0x80)!=0 );] *)
Fixpoint varint_loop (fuel : nat) (p : VdbeSorterIter) (aVarint : buf) (i : Z)
    : IO (Z * VdbeSorterIter * buf) :=
  match fuel with
  | O => must None
  | S fuel =>
      '(rc, p, a) ← vdbeSorterIterRead READ_DEPTH p 1;
      if negb (rc =? SQLITE_OK) then mret (rc, p, aVarint)
      else
        a0 ← must (l ← deref p a 1; load l 0 1);
        a0 ← must (rd a0 0);
        let aVarint := <[Z.to_nat (Z.land i 0xf) := Some a0]> aVarint in
        if negb (Z.land a0 0x80 =? 0) then varint_loop fuel p aVarint (i + 1)
        else mret (SQLITE_OK, p, aVarint)
  end.

(** Also returns [*pnOut], which is left alone when reading fails. *)
Definition vdbeSorterIterVarint (p : VdbeSorterIter) (pnOut : Z) : IO (Z * VdbeSorterIter * Z) :=
  _ ← ensure (negb (p.(nBuffer) =? 0));
  let iBuf := Z.rem p.(iReadOff) p.(nBuffer) in
  if negb (iBuf =? 0) && (p.(nBuffer) - iBuf >=? 9) then
    b ← must p.(aBuffer);
    '(n, v) ← must (sqlite3GetVarint (initialised (drop (Z.to_nat iBuf) b)));
    mret (SQLITE_OK, set_iReadOff p (p.(iReadOff) + n), v)
  else
    '(rc, p, aVarint) ← varint_loop (S (Z.to_nat (p.(iEof) - p.(iReadOff)))) p (malloc_raw 16) 0;
    if negb (rc =? SQLITE_OK) then mret (rc, p, pnOut)
    else
      '(_, v) ← must (sqlite3GetVarint (initialised aVarint));
      mret (SQLITE_OK, p, v).

Definition vdbeSorterIterNext (pIter : VdbeSorterIter) : IO (Z * VdbeSorterIter) :=
  if pIter.(iReadOff) >=? pIter.(iEof) then
    p ← vdbeSorterIterZero pIter; mret (SQLITE_OK, p)
  else
    '(rc, pIter, nRec) ← vdbeSorterIterVarint pIter 0;
    if rc =? SQLITE_OK then
      let pIter := set_aKey pIter pIter.(aKey) (i32 nRec) in
      '(rc, pIter, k) ← vdbeSorterIterRead READ_DEPTH pIter (i32 nRec);
      mret (rc, if rc =? SQLITE_OK then set_aKey pIter k pIter.(nKey) else pIter)
    else mret (rc, pIter).

(** Also returns the new value of [*pnByte]. *)
Definition vdbeSorterIterInit (pSorter : VdbeSorter) (iStart : Z) (pIter : VdbeSorterIter) (pnByte : Z)
    : IO (Z * VdbeSorterIter * Z) :=
  let nBuf := pgsz in
  _ ← ensure (pSorter.(iWriteOff) >? iStart);
  _ ← ensure (negb (is_block pIter.(aAlloc)) && negb (is_block pIter.(aBuffer)));
  okAlloc ← db_alloc;
  okBuffer ← db_alloc;
  let pIter := mkIter iStart pIter.(iEof) 128 pIter.(nKey) pSorter.(pTemp1)
    (if okAlloc : bool then Some (malloc_raw 128) else None) pIter.(aKey)
    (if okBuffer : bool then Some (malloc_raw nBuf) else None) nBuf in
  match pIter.(aBuffer) with
  | None => mret (SQLITE_NOMEM, pIter, pnByte)
  | Some buffer =>
      _ ← ensure (negb (nBuf =? 0));
      let iBuf := Z.rem iStart nBuf in
      '(rc, buffer) ← (if negb (iBuf =? 0) then
          let nRead := nBuf - iBuf in
          let nRead := if iStart + nRead >? pSorter.(iWriteOff) then i32 (pSorter.(iWriteOff) - iStart) else nRead in
          '(rc, data) ← sqlite3OsRead pSorter.(pTemp1) nRead iStart;
          buffer ← must (blit buffer iBuf (map Some data));
          mret (rc, buffer)
        else mret (SQLITE_OK, buffer));
      let pIter := set_aBuffer pIter (Some buffer) in
      if negb (rc =? SQLITE_OK) then mret (rc, pIter, pnByte)
      else
        let pIter := set_iEof pIter pSorter.(iWriteOff) in
        '(rc, pIter, nByte) ← vdbeSorterIterVarint pIter uninit;
        let pIter := set_iEof pIter (pIter.(iReadOff) + nByte) in
        let pnByte := pnByte + nByte in
        if rc =? SQLITE_OK then '(rc, pIter) ← vdbeSorterIterNext pIter; mret (rc, pIter, pnByte)
        else mret (rc, pIter, pnByte)
  end.

(** *** Comparing *)

(** [pKey2] is [None] for the key that [r2] still holds. *)
Definition vdbeSorterCompare (r2 : UnpackedRecord) (bOmitRowid : bool) (nKey1 : Z) (pKey1 : list Z)
    (pKey2 : option (Z * list Z)) : option (Z * UnpackedRecord) :=
  r2 ← match pKey2 with
       | Some (nKey2, pKey2) => sqlite3VdbeRecordUnpack ki nKey2 pKey2 r2
       | None => Some r2
       end;
  let compare r2 :=
    '(res, (fl, ro)) ← sqlite3VdbeRecordCompare oom nKey1 pKey1 r2;
    Some (res, set_up r2 r2.(up_nField) fl ro) in
  if bOmitRowid then
    let r2 := set_up r2 ki.(ki_nField) r2.(up_flags) r2.(rowid) in
    if negb (0 <? r2.(up_nField)) || (Z.of_nat (length r2.(aMem)) <? r2.(up_nField)) then None
    else if existsb (fun m => has m.(flags) MEM_Null) (take (Z.to_nat r2.(up_nField)) r2.(aMem))
    then Some (-1, r2)
    else compare (set_up r2 r2.(up_nField) (Z.lor r2.(up_flags) UNPACKED_PREFIX_MATCH) r2.(rowid))
  else compare r2.

Definition key_of (p : VdbeSorterIter) : option (list Z) := l ← deref p p.(aKey) p.(nKey); mapM id l.

Definition vdbeSorterDoCompare (pSorter : VdbeSorter) (iOut : Z) : option VdbeSorter :=
  if negb ((iOut <? pSorter.(nTree)) && (0 <? iOut)) then None
  else
    t ← pSorter.(aTree);
    its ← pSorter.(aIter);
    let half := Z.quot pSorter.(nTree) 2 in
    '(i1, i2) ← (if iOut >=? half then Some ((iOut - half) * 2, (iOut - half) * 2 + 1)
                 else i1 ← rd t (iOut * 2); i2 ← rd t (iOut * 2 + 1); Some (i1, i2));
    p1 ← (if decide (0 <= i1) then its !! Z.to_nat i1 else None);
    p2 ← (if decide (0 <= i2) then its !! Z.to_nat i2 else None);
    '(iRes, pSorter) ←
      (if p1.(pFile) =? 0 then Some (i2, pSorter)
       else if p2.(pFile) =? 0 then Some (i1, pSorter)
       else
         r2 ← pSorter.(pUnpacked);
         k1 ← key_of p1;
         k2 ← key_of p2;
         '(res, r2) ← vdbeSorterCompare r2 false p1.(nKey) k1 (Some (p2.(nKey), k2));
         Some (if res <=? 0 then i1 else i2, set_unpacked pSorter (Some r2)));
    Some (set_tree pSorter pSorter.(aIter) (Some (<[Z.to_nat iOut := iRes]> t)) pSorter.(nTree)).

(** *** Opening and closing *)

(** [None]: the sorter itself could not be allocated.  [cache_size]: that of
    the schema of the main database; [tempInMemory]: sqlite3TempInMemory. *)
Definition sqlite3VdbeSorterInit (tempInMemory : bool) (cache_size : Z) : IO (Z * option VdbeSorter) :=
  ok ← db_alloc;
  if negb ok then mret (SQLITE_NOMEM, None)
  else
    ok ← db_alloc;
    let up := if ok : bool then snd <$> sqlite3VdbeAllocUnpackedRecord 48 64 0 false ki 0 else None in
    let s := mkSorter 0 0 0 0 0 0 0 None None 0 [] up in
    if negb (is_block up) then mret (SQLITE_NOMEM, Some s)
    else if negb tempInMemory then
      let mxCache := if cache_size <? SORTER_MIN_WORKING then SORTER_MIN_WORKING else cache_size in
      mret (SQLITE_OK, Some (mkSorter 0 0 0 0 0 (i32 (SORTER_MIN_WORKING * pgsz)) (i32 (mxCache * pgsz))
                               None None 0 [] up))
    else mret (SQLITE_OK, Some s).

Fixpoint vdbeSorterRecordFree (pRecord : list SorterRecord) : IO () :=
  match pRecord with
  | [] => mret ()
  | _ :: pNext => _ ← dbfree true; vdbeSorterRecordFree pNext
  end.

Fixpoint zero_iters (its : list VdbeSorterIter) : IO () :=
  match its with
  | [] => mret ()
  | p :: its => _ ← vdbeSorterIterZero p; zero_iters its
  end.

Definition sqlite3VdbeSorterClose (pSorter : option VdbeSorter) : IO () :=
  match pSorter with
  | None => mret ()
  | Some s =>
      _ ← match s.(aIter) with
          | None => mret ()
          | Some its =>
              _ ← ensure (s.(nTree) <=? Z.of_nat (length its));
              _ ← zero_iters (take (Z.to_nat s.(nTree)) its);
              dbfree true
          end;
      _ ← (if negb (s.(pTemp1) =? 0) then sqlite3OsCloseFree s.(pTemp1) else mret SQLITE_OK);
      _ ← vdbeSorterRecordFree s.(pRecord);
      _ ← dbfree (is_block s.(pUnpacked));
      dbfree true
  end.

Definition vdbeSorterOpenTempFile : IO (Z * Z) := sqlite3OsOpenMalloc.

(** *** Sorting the list *)

(** [fresh]: [pVal2] is not 0. *)
Fixpoint vdbeSorterMerge (fuel : nat) (r2 : UnpackedRecord) (fresh : bool) (p1 p2 : list SorterRecord)
    : option (list SorterRecord * UnpackedRecord) :=
  match fuel with
  | O => None
  | S fuel =>
      match p1, p2 with
      | a :: p1', b :: p2' =>
          '(res, r2) ← vdbeSorterCompare r2 false a.(nVal) a.(pVal)
                         (if fresh then Some (b.(nVal), b.(pVal)) else None);
          if res <=? 0 then
            '(l, r2) ← vdbeSorterMerge fuel r2 false p1' p2; Some (a :: l, r2)
          else
            match p2' with
            | [] => Some (b :: p1, r2)
            | _ => '(l, r2) ← vdbeSorterMerge fuel r2 true p1 p2'; Some (b :: l, r2)
            end
      | [], _ => Some (p2, r2)
      | _, [] => Some (p1, r2)
      end
  end.

Definition merge (r2 : UnpackedRecord) (p1 p2 : list SorterRecord) :=
  vdbeSorterMerge (S (length p1 + length p2)) r2 true p1 p2.

(** [for(i=0; aSlot[i]; i++){ ... } aSlot[i] = p;] *)
Fixpoint slot_add (r2 : UnpackedRecord) (p : list SorterRecord) (aSlot : list (list SorterRecord))
    : option (list (list SorterRecord) * UnpackedRecord) :=
  match aSlot with
  | [] => None
  | [] :: rest => Some (p :: rest, r2)
  | s :: rest =>
      '(p, r2) ← merge r2 p s;
      '(rest, r2) ← slot_add r2 p rest;
      Some ([] :: rest, r2)
  end.

(** [while( p )] *)
Fixpoint slot_all (r2 : UnpackedRecord) (p : list SorterRecord) (aSlot : list (list SorterRecord))
    : option (list (list SorterRecord) * UnpackedRecord) :=
  match p with
  | [] => Some (aSlot, r2)
  | a :: pNext =>
      '(aSlot, r2) ← slot_add r2 [a] aSlot;
      slot_all r2 pNext aSlot
  end.

(** [for(i=0; i<64; i++)] *)
Fixpoint slot_merge (r2 : UnpackedRecord) (p : list SorterRecord) (aSlot : list (list SorterRecord))
    : option (list SorterRecord * UnpackedRecord) :=
  match aSlot with
  | [] => Some (p, r2)
  | s :: rest => '(p, r2) ← merge r2 p s; slot_merge r2 p rest
  end.

Definition sort_list (r2 : UnpackedRecord) (l : list SorterRecord)
    : option (list SorterRecord * UnpackedRecord) :=
  '(aSlot, r2) ← slot_all r2 l (replicate 64 []);
  slot_merge r2 [] aSlot.

Definition vdbeSorterSort (pSorter : VdbeSorter) : IO (Z * VdbeSorter) :=
  ok ← alloc;
  if negb ok then mret (SQLITE_NOMEM, pSorter)
  else
    r2 ← must pSorter.(pUnpacked);
    '(l, r2) ← must (sort_list r2 pSorter.(pRecord));
    _ ← dbfree true;
    mret (SQLITE_OK, set_unpacked (set_record pSorter l) (Some r2)).

(** *** Writing a packed array *)

Definition fileWriterInit (f iStart : Z) : IO FileWriter :=
  let nBuf := pgsz in
  ok ← db_alloc;
  if negb ok then mret (mkWriter SQLITE_NOMEM None 0 0 0 0 0)
  else
    _ ← ensure (negb (nBuf =? 0));
    let s := Z.rem iStart nBuf in
    mret (mkWriter 0 (Some (malloc_raw nBuf)) nBuf s s (iStart - s) f).

(** Writing the filled part of the buffer. *)
Definition fileWriterFlush (p : FileWriter) (b : buf) : IO Z :=
  data ← must (load b p.(iBufStart) (p.(iBufEnd) - p.(iBufStart)));
  sqlite3OsWrite p.(fw_pFile) data (p.(fw_iWriteOff) + p.(iBufStart)).

Fixpoint write_loop (fuel : nat) (p : FileWriter) (pData : list Z) : IO FileWriter :=
  match fuel with
  | O => must None
  | S fuel =>
      let nRem := Z.of_nat (length pData) in
      if (0 <? nRem) && (p.(eFWErr) =? 0) then
        let nCopy := if nRem >? p.(fw_nBuffer) - p.(iBufEnd) then p.(fw_nBuffer) - p.(iBufEnd) else nRem in
        b ← must p.(fw_aBuffer);
        b ← must (blit b p.(iBufEnd) (map Some (take (Z.to_nat nCopy) pData)));
        let p := set_writer p p.(eFWErr) (Some b) p.(iBufStart) (p.(iBufEnd) + nCopy) p.(fw_iWriteOff) in
        p ← (if p.(iBufEnd) =? p.(fw_nBuffer) then
               rc ← fileWriterFlush p b;
               mret (set_writer p rc p.(fw_aBuffer) 0 0 (p.(fw_iWriteOff) + p.(fw_nBuffer)))
             else mret p);
        _ ← ensure (p.(iBufEnd) <? p.(fw_nBuffer));
        write_loop fuel p (drop (Z.to_nat nCopy) pData)
      else mret p
  end.

Definition fileWriterWrite (p : FileWriter) (pData : list Z) : IO FileWriter :=
  write_loop (S (length pData)) p pData.

(** Returns the result code and [*piEof]. *)
Definition fileWriterFinish (p : FileWriter) : IO (Z * Z) :=
  rc ← (match p.(fw_aBuffer) with
        | Some b =>
            if (p.(eFWErr) =? 0) && (p.(iBufEnd) >? p.(iBufStart)) then fileWriterFlush p b
            else mret p.(eFWErr)
        | None => mret p.(eFWErr)
        end);
  _ ← dbfree (is_block p.(fw_aBuffer));
  mret (rc, p.(fw_iWriteOff) + p.(iBufEnd)).

Definition fileWriterWriteVarint (p : FileWriter) (iVal : Z) : IO FileWriter :=
  fileWriterWrite p (sqlite3PutVarint (u64 iVal)).

(** [for(p=pSorter->pRecord; p; p=pNext)] *)
Fixpoint write_records (writer : FileWriter) (l : list SorterRecord) : IO FileWriter :=
  match l with
  | [] => mret writer
  | p :: pNext =>
      writer ← fileWriterWriteVarint writer p.(nVal);
      writer ← fileWriterWrite writer p.(pVal);
      _ ← dbfree true;
      write_records writer pNext
  end.

Definition vdbeSorterListToPMA (s : VdbeSorter) : IO (Z * VdbeSorter) :=
  if s.(nInMemory) =? 0 then
    _ ← ensure (match s.(pRecord) with [] => true | _ => false end);
    mret (SQLITE_OK, s)
  else
    '(rc, s) ← vdbeSorterSort s;
    '(rc, s) ← (if (rc =? SQLITE_OK) && (s.(pTemp1) =? 0) then
                  '(rc, f) ← vdbeSorterOpenTempFile; mret (rc, set_temp s f)
                else mret (rc, s));
    if rc =? SQLITE_OK then
      writer ← fileWriterInit s.(pTemp1) s.(iWriteOff);
      writer ← fileWriterWriteVarint writer s.(nInMemory);
      writer ← write_records writer s.(pRecord);
      '(rc, eof) ← fileWriterFinish writer;
      mret (rc, set_pma (set_record s []) (i32 (s.(nPMA) + 1)) eof)
    else mret (rc, s).

(** [nearlyFull]: what sqlite3HeapNearlyFull says. *)
Definition sqlite3VdbeSorterWrite (s : VdbeSorter) (nearlyFull : bool) (z : list Z) : IO (Z * VdbeSorter) :=
  let n := Z.of_nat (length z) in
  let s := set_inMemory s (i32 (s.(nInMemory) + (sqlite3VarintLen (u64 n) + n))) in
  pNew ← db_alloc;
  if negb pNew then mret (SQLITE_NOMEM, s)
  else
    let s := set_record s (mkSorterRecord z n :: s.(pRecord)) in
    if (0 <? s.(mxPmaSize)) &&
       ((s.(nInMemory) >? s.(mxPmaSize)) || ((s.(nInMemory) >? s.(mnPmaSize)) && nearlyFull)) then
      '(rc, s) ← vdbeSorterListToPMA s; mret (rc, set_inMemory s 0)
    else mret (SQLITE_OK, s).

(** *** Merging *)

(** [for(i=0; i<SORTER_MAX_MERGE_COUNT; i++)] *)
Fixpoint init_iters (todo : nat) (s : VdbeSorter) (i nByte : Z) : IO (Z * VdbeSorter * Z) :=
  match todo with
  | O => mret (SQLITE_OK, s, nByte)
  | S todo =>
      its ← must s.(aIter);
      pIter ← must (its !! Z.to_nat i);
      '(rc, pIter, nByte) ← vdbeSorterIterInit s s.(so_iReadOff) pIter nByte;
      let s := set_readOff (set_tree s (Some (<[Z.to_nat i := pIter]> its)) s.(aTree) s.(nTree)) pIter.(iEof) in
      _ ← ensure (negb (rc =? SQLITE_OK) || (s.(so_iReadOff) <=? s.(iWriteOff)));
      if negb (rc =? SQLITE_OK) || (s.(so_iReadOff) >=? s.(iWriteOff)) then mret (rc, s, nByte)
      else init_iters todo s (i + 1) nByte
  end.

(** [for(i=pSorter->nTree-1; i>0; i--)]; [i] is the number of nodes left. *)
Fixpoint init_tree (i : nat) (s : VdbeSorter) : option VdbeSorter :=
  match i with
  | O => Some s
  | S j => s ← vdbeSorterDoCompare s (Z.of_nat i); init_tree j s
  end.

Definition vdbeSorterInitMerge (s : VdbeSorter) : IO (Z * VdbeSorter * Z) :=
  '(rc, s, nByte) ← init_iters (Z.to_nat SORTER_MAX_MERGE_COUNT) s 0 0;
  s ← (if rc =? SQLITE_OK then must (init_tree (Z.to_nat (s.(nTree) - 1)) s) else mret s);
  mret (rc, s, nByte).

(** [for(i=(pSorter->nTree+iPrev)/2; i>0; i=i/2)] *)
Fixpoint update_path (fuel : nat) (s : VdbeSorter) (i : Z) : option VdbeSorter :=
  match fuel with
  | O => None
  | S fuel => if 0 <? i then s ← vdbeSorterDoCompare s i; update_path fuel s (Z.quot i 2) else Some s
  end.

(** The iterator [aIter[aTree[1]]]. *)
Definition winner (s : VdbeSorter) : option (Z * VdbeSorterIter) :=
  t ← s.(aTree);
  its ← s.(aIter);
  i ← t !! 1%nat;
  p ← (if decide (0 <= i) then its !! Z.to_nat i else None);
  Some (i, p).

(** The result code, [*pbEof] and the sorter. *)
Definition sqlite3VdbeSorterNext (s : VdbeSorter) : IO (Z * bool * VdbeSorter) :=
  match s.(aTree) with
  | Some t =>
      '(iPrev, p) ← must (winner s);
      its ← must s.(aIter);
      '(rc, p) ← vdbeSorterIterNext p;
      let s := set_tree s (Some (<[Z.to_nat iPrev := p]> its)) s.(aTree) s.(nTree) in
      s ← (if rc =? SQLITE_OK
           then must (update_path (S (Z.to_nat s.(nTree))) s (Z.quot (s.(nTree) + iPrev) 2)) else mret s);
      '(_, p) ← must (winner s);
      mret (rc, p.(pFile) =? 0, s)
  | None =>
      match s.(pRecord) with
      | [] => must None
      | pFree :: pNext =>
          _ ← vdbeSorterRecordFree [pFree];
          mret (SQLITE_OK, match pNext with [] => true | _ => false end, set_record s pNext)
      end
  end.

(** [while( rc==SQLITE_OK && bEof==0 )] *)
Fixpoint merge_loop (fuel : nat) (s : VdbeSorter) (writer : FileWriter) : IO (Z * VdbeSorter * FileWriter) :=
  match fuel with
  | O => must None
  | S fuel =>
      '(_, p) ← must (winner s);
      _ ← ensure (negb (p.(pFile) =? 0));
      writer ← fileWriterWriteVarint writer p.(nKey);
      k ← must (key_of p);
      writer ← fileWriterWrite writer k;
      '(rc, bEof, s) ← sqlite3VdbeSorterNext s;
      if (rc =? SQLITE_OK) && negb bEof then merge_loop fuel s writer else mret (rc, s, writer)
  end.

(** The inner loop of a pass over the arrays: [pTemp2] and [iWrite2] are those
    of the code, [iNew] the number of arrays written. *)
Fixpoint merge_pass (fuel : nat) (rc : Z) (s : VdbeSorter) (pTemp2 iWrite2 iNew : Z)
    : IO (Z * VdbeSorter * Z * Z * Z) :=
  match fuel with
  | O => must None
  | S fuel =>
      if (rc =? SQLITE_OK) && (i32 (iNew * SORTER_MAX_MERGE_COUNT) <? s.(nPMA)) then
        '(rc, s, nWrite) ← vdbeSorterInitMerge s;
        _ ← (if rc =? SQLITE_OK then '(_, p) ← must (winner s); ensure (negb (p.(pFile) =? 0)) else mret ());
        if negb (rc =? SQLITE_OK) || (s.(nPMA) <=? SORTER_MAX_MERGE_COUNT)
        then mret (rc, s, pTemp2, iWrite2, iNew)
        else
          '(rc, pTemp2) ← (if pTemp2 =? 0 then vdbeSorterOpenTempFile else mret (rc, pTemp2));
          '(rc, s, iWrite2) ←
            (if rc =? SQLITE_OK then
               writer ← fileWriterInit pTemp2 iWrite2;
               writer ← fileWriterWriteVarint writer nWrite;
               '(rc, s, writer) ← merge_loop (S (Z.to_nat s.(iWriteOff))) s writer;
               '(rc2, iWrite2) ← fileWriterFinish writer;
               mret (if rc =? SQLITE_OK then rc2 else rc, s, iWrite2)
             else mret (rc, s, iWrite2));
          merge_pass fuel rc s pTemp2 iWrite2 (iNew + 1)
      else mret (rc, s, pTemp2, iWrite2, iNew)
  end.

(** [do{ ... }while( rc==SQLITE_OK );] *)
Fixpoint merge_passes (fuel : nat) (rc : Z) (s : VdbeSorter) (pTemp2 : Z) : IO (Z * VdbeSorter * Z) :=
  match fuel with
  | O => must None
  | S fuel =>
      '(rc, s, pTemp2, iWrite2, iNew) ← merge_pass (S (Z.to_nat s.(nPMA))) rc s pTemp2 0 0;
      if s.(nPMA) <=? SORTER_MAX_MERGE_COUNT then mret (rc, s, pTemp2)
      else
        let pTmp := s.(pTemp1) in
        let s := set_readOff (set_pma (set_temp s pTemp2) iNew iWrite2) 0 in
        if rc =? SQLITE_OK then merge_passes fuel rc s pTmp else mret (rc, s, pTmp)
  end.

(** [while( N<nIter ) N += N;] *)
Fixpoint tree_size (fuel : nat) (N nIter : Z) : option Z :=
  match fuel with
  | O => None
  | S fuel => if N <? nIter then tree_size fuel (N + N) nIter else Some N
  end.

(** The result code, [*pbEof] ([None] where it is not written) and the sorter. *)
Definition sqlite3VdbeSorterRewind (s : VdbeSorter) : IO (Z * option bool * VdbeSorter) :=
  if s.(nPMA) =? 0 then
    let bEof := match s.(pRecord) with [] => true | _ => false end in
    _ ← ensure (negb (is_block s.(aTree)));
    '(rc, s) ← vdbeSorterSort s;
    mret (rc, Some bEof, s)
  else
    '(rc, s) ← vdbeSorterListToPMA s;
    if negb (rc =? SQLITE_OK) then mret (rc, None, s)
    else
      let nIter := if s.(nPMA) >? SORTER_MAX_MERGE_COUNT then SORTER_MAX_MERGE_COUNT else s.(nPMA) in
      N ← must (tree_size 8 2 nIter);
      ok ← db_alloc;
      if negb ok then mret (SQLITE_NOMEM, None, s)
      else
        let s := set_tree s (Some (replicate (Z.to_nat N) zero_iter)) (Some (replicate (Z.to_nat N) 0)) N in
        '(rc, s, pTemp2) ← merge_passes (S (Z.to_nat s.(nPMA))) SQLITE_OK s 0;
        _ ← (if negb (pTemp2 =? 0) then sqlite3OsCloseFree pTemp2 else mret SQLITE_OK);
        '(_, p) ← must (winner s);
        mret (rc, Some (p.(pFile) =? 0), s).

(** *** The current record *)

Definition vdbeSorterRowkey (s : VdbeSorter) : option (Z * list Z) :=
  match s.(aTree) with
  | Some _ => '(_, p) ← winner s; k ← key_of p; Some (p.(nKey), k)
  | None => match s.(pRecord) with [] => None | p :: _ => Some (p.(nVal), p.(pVal)) end
  end.

Definition sqlite3VdbeSorterRowkey (noMem : bool) (s : VdbeSorter) (pOut : Mem) : option (Z * Mem) :=
  '(nKey, k) ← vdbeSorterRowkey s;
  let (rc, m) := sqlite3VdbeMemGrow noMem pOut nKey false in
  if negb (rc =? 0) then Some (SQLITE_NOMEM, m)
  else
    let m := MemSetTypeFlag (set_n m nKey) MEM_Blob in
    Some (SQLITE_OK, set_z m (take (Z.to_nat nKey) k)).

Definition sqlite3VdbeSorterCompare (s : VdbeSorter) (pVal : Mem) : option (Z * Z * VdbeSorter) :=
  '(nKey, pKey) ← vdbeSorterRowkey s;
  r2 ← s.(pUnpacked);
  '(res, r2) ← vdbeSorterCompare r2 true pVal.(n) pVal.(z) (Some (nKey, pKey));
  Some (SQLITE_OK, res, set_unpacked s (Some r2)).

End Sorter.
