(* ===== verification/SorterRead.v ===== *)
(** * The sorter: reading and writing packed arrays

    A file writer buffers what is written and the file then holds it; an
    iterator over a packed array returns its keys one by one, whatever the
    size of the buffer and of the keys, and reports its end. *)

From S2P Require Import Prelude Varint Ints Mem Heap Serial Vfs Sorter.

(** ** Parts of lists *)

(** The [n] elements of [l] from [o] on. *)
Definition sub {A} (l : list A) (o n : nat) : list A := take n (drop o l).

Lemma sub_length {A} (l : list A) o n : (o + n <= length l)%nat -> length (sub l o n) = n.
Proof. intros H. unfold sub. rewrite length_take, length_drop. lia. Qed.

Lemma sub_add {A} (l : list A) o k n : sub l o (k + n) = sub l o k ++ sub l (o + k) n.
Proof.
  unfold sub. rewrite <- drop_drop. generalize (drop o l). intros l'.
  rewrite <- (take_drop k (take (k + n) l')), take_take, Nat.min_l, skipn_firstn_comm by lia. do 2 f_equal. lia.
Qed.

Lemma sub_sub {A} (l : list A) o n i k : (i + k <= n)%nat -> sub (sub l o n) i k = sub l (o + i) k.
Proof.
  intros H. unfold sub. rewrite skipn_firstn_comm, take_take, drop_drop. f_equal. lia.
Qed.

Lemma sub_map {A B} (f : A -> B) l o n : sub (map f l) o n = map f (sub l o n).
Proof. unfold sub. by rewrite skipn_map, firstn_map. Qed.

Lemma sub_app_r {A} (l1 l2 : list A) o n : (length l1 <= o)%nat -> sub (l1 ++ l2) o n = sub l2 (o - length l1) n.
Proof. intros H. unfold sub. by rewrite skipn_app, (drop_ge l1), app_nil_l by lia. Qed.

Lemma sub_app_l {A} (l1 l2 : list A) o n : (o + n <= length l1)%nat -> sub (l1 ++ l2) o n = sub l1 o n.
Proof. intros H. unfold sub. rewrite skipn_app, take_app_le; [done|]. rewrite length_drop. lia. Qed.

Lemma sub_all {A} (l : list A) n : n = length l -> sub l 0 n = l.
Proof. intros ->. apply firstn_all. Qed.

Lemma sub_mid {A} (l1 l2 l3 : list A) o n : o = length l1 -> n = length l2 -> sub (l1 ++ l2 ++ l3) o n = l2.
Proof. intros -> ->. rewrite sub_app_r, Nat.sub_diag, sub_app_l by lia. by apply sub_all. Qed.

(** ** Buffers *)

Lemma slice_in (b : buf) i n : 0 <= i -> 0 <= n -> i + n <= Z.of_nat (length b) ->
  slice b i n = Some (sub b (Z.to_nat i) (Z.to_nat n)).
Proof. intros Hi Hn Hl. unfold slice. by rewrite !(proj2 (Z.leb_le _ _)) by lia. Qed.

Lemma blit_in (dst : buf) i src : 0 <= i -> i + Z.of_nat (length src) <= Z.of_nat (length dst) ->
  exists dst', blit dst i src = Some dst'.
Proof. intros Hi Hl. unfold blit. rewrite !(proj2 (Z.leb_le _ _)) by lia. by eexists. Qed.

Lemma blit_facts (dst : buf) i src dst' : blit dst i src = Some dst' ->
  length dst' = length dst /\ sub dst' 0 (Z.to_nat i) = sub dst 0 (Z.to_nat i) /\
  sub dst' (Z.to_nat i) (length src) = src /\ (Z.to_nat i + length src <= length dst)%nat /\
  forall P, Forall P dst -> Forall P src -> Forall P dst'.
Proof.
  unfold blit. destruct (_ && _) eqn:E; [|done]. apply andb_true_iff in E as [E1 E2].
  apply Z.leb_le in E1, E2. intros [= <-].
  assert (length (take (Z.to_nat i) dst) = Z.to_nat i) as Hl by (rewrite length_take; lia).
  split; [rewrite !length_app, Hl, length_drop; lia|].
  split; [rewrite sub_app_l by lia; unfold sub; rewrite !drop_0; rewrite take_take; f_equal; lia|].
  split; [by apply sub_mid|]. split; [lia|].
  intros P Hd Hs. apply Forall_app. split; [by apply Forall_take|]. apply Forall_app. split; [done|by apply Forall_drop].
Qed.

Lemma mapM_id_some (l : list Z) : mapM id (map Some l) = Some l.
Proof. induction l as [|x l IH]; [done|]. cbn [map]. cbn. by rewrite IH. Qed.

Lemma load_bytes (b : buf) i n l : 0 <= i -> 0 <= n -> i + n <= Z.of_nat (length b) ->
  sub b (Z.to_nat i) (Z.to_nat n) = map Some l -> load b i n = Some l.
Proof. intros Hi Hn Hl Hs. unfold load. rewrite slice_in, Hs by done. cbn [mbind option_bind]. apply mapM_id_some. Qed.

Lemma initialised_app (l : list Z) b : initialised (map Some l ++ b) = l ++ initialised b.
Proof. induction l as [|x l IH]; [done|]. cbn. by rewrite IH. Qed.

(** [k] bytes of the buffer from [i] on are those of [bs] from [o] on. *)
Definition holds_at (b : buf) (i k : nat) (bs : list Z) (o : nat) : Prop := sub b i k = map Some (sub bs o k).

Lemma holds_at_less b i k n bs o : holds_at b i k bs o -> (n <= k)%nat -> holds_at b i n bs o.
Proof.
  unfold holds_at. intros H Hn. apply (f_equal (fun l => sub l 0 n)) in H.
  rewrite sub_map, !sub_sub in H by lia. by rewrite !Nat.add_0_r in H.
Qed.

Lemma holds_at_skip b i k n bs o : holds_at b i k bs o -> (n <= k)%nat -> holds_at b (i + n) (k - n) bs (o + n).
Proof.
  unfold holds_at. intros H Hn. apply (f_equal (fun l => sub l n (k - n))) in H.
  by rewrite sub_map, !sub_sub in H by lia.
Qed.

(** What a read leaves in the buffer. *)
Lemma holds_at_read b i bs o n b' : blit b i (map Some (sub bs o n)) = Some b' -> (o + n <= length bs)%nat ->
  holds_at b' (Z.to_nat i) n bs o.
Proof.
  intros Hb Hl. apply blit_facts in Hb as (_ & _ & H & _). by rewrite length_map, sub_length in H by done.
Qed.

Definition byte_or_none (x : option Z) : Prop := match x with Some x => is_u8 x | None => True end.

Lemma bytes_some l : bytes_ok l -> Forall byte_or_none (map Some l).
Proof. intros H. by apply Forall_map. Qed.

Lemma initialised_bytes b : Forall byte_or_none b -> bytes_ok (initialised b).
Proof.
  induction 1 as [|x b Hx _ IH]; [constructor|]. cbn. destruct x; [|constructor]. by constructor.
Qed.

Lemma sub_bytes l o n : bytes_ok l -> bytes_ok (sub l o n).
Proof. intros H. by apply Forall_take, Forall_drop. Qed.

(** ** Varints *)

Lemma put_high_shape n : forall v acc, exists pre, put_high n v acc = pre ++ acc /\ length pre = n /\
  Forall (fun x => 128 <= x < 256) pre.
Proof.
  induction n as [|n IH]; intros v acc; cbn [put_high]; [by exists []|].
  destruct (IH (Z.shiftr v 7) (u8 (Z.lor (Z.land v 0x7f) 0x80) :: acc)) as (pre & -> & Hl & Hp).
  eexists (pre ++ [_]). rewrite <- (assoc_L (++)). split; [done|]. split; [rewrite length_app; cbn; lia|].
  apply Forall_app. split; [done|]. constructor; [rewrite flagged_byte; zlia|constructor].
Qed.

(** All bytes but the last have the top bit set. *)
Lemma putvarint_shape v : 0 <= v < 2 ^ 56 -> exists pre x, sqlite3PutVarint v = pre ++ [x] /\
  (length pre < 8)%nat /\ Forall (fun x => 128 <= x < 256) pre /\ 0 <= x < 128.
Proof.
  intros Hv. unfold sqlite3PutVarint. rewrite put_test by (unfold_int; lia).
  rewrite (proj2 (Z.ltb_lt _ _)) by lia. cbn [negb].
  rewrite (put_buf_fuel 8 10) by (try lia; change (128 ^ Z.of_nat 8) with (2 ^ 56); lia).
  destruct (put_buf_cons 8 v) as (buf & -> & Hrev & Hlen & Hb); [change (128 ^ Z.of_nat 8) with (2 ^ 56); lia|lia|].
  rewrite land_7f, unflag by zlia. cbn [rev]. rewrite Hrev.
  destruct (put_high_shape (length buf) (v / 128) [v mod 128]) as (pre & -> & Hl & Hp).
  exists pre, (v mod 128). split; [done|]. split; [lia|]. split; [done|zlia].
Qed.

(** ** Iterators *)

Section Read.
Context {V : Vfs} {U : Indeterminate} {VL : VfsLaws V}.

Definition bval (b : bool) : Z := if b then 1 else 0.

(** The blocks an iterator owns. *)
Definition iblocks (p : VdbeSorterIter) : Z := bval (is_block p.(aAlloc)) + bval (is_block p.(aBuffer)).

(** The iterator can read [bs] up to [iEof]. *)
Record reader (p : VdbeSorterIter) (bs : list Z) : Prop := {
  rd_nb : 0 < p.(nBuffer) < 2 ^ 30;
  rd_off : 0 <= p.(iReadOff) <= p.(iEof);
  rd_eof : p.(iEof) <= Z.of_nat (length bs);
  rd_file : p.(pFile) <> 0;
  rd_bytes : bytes_ok bs;
  rd_alloc : exists a, p.(aAlloc) = Some a /\ length a = Z.to_nat p.(nAlloc) /\ 128 <= p.(nAlloc) < 2 ^ 31;
  rd_buffer : exists b, p.(aBuffer) = Some b /\ length b = Z.to_nat p.(nBuffer) /\ Forall byte_or_none b /\
    let i := Z.rem p.(iReadOff) p.(nBuffer) in
    (i <> 0 -> holds_at b (Z.to_nat i) (Z.to_nat (Z.min (p.(nBuffer) - i) (p.(iEof) - p.(iReadOff)))) bs (Z.to_nat p.(iReadOff))) }.

(** What reading does not change. *)
Definition same_iter (p p' : VdbeSorterIter) : Prop :=
  p'.(iEof) = p.(iEof) /\ p'.(nKey) = p.(nKey) /\ p'.(pFile) = p.(pFile) /\ p'.(aKey) = p.(aKey) /\
  p'.(nBuffer) = p.(nBuffer).

Lemma same_iter_refl p : same_iter p p.
Proof. done. Qed.

Lemma same_iter_trans p1 p2 p3 : same_iter p1 p2 -> same_iter p2 p3 -> same_iter p1 p3.
Proof. intros (A & B & C & D & E) (? & ? & ? & ? & ?). split; [congruence|]. split; [congruence|]. split; [congruence|]. split; congruence. Qed.

Lemma reader_blocks p bs : reader p bs -> iblocks p = 2.
Proof. intros H. destruct (rd_alloc _ _ H) as (a & Ha & _), (rd_buffer _ _ H) as (b & Hb & _). unfold iblocks. by rewrite Ha, Hb. Qed.

Lemma reader_rem p bs : reader p bs -> 0 <= Z.rem p.(iReadOff) p.(nBuffer) < p.(nBuffer).
Proof. intros H. apply Z.rem_bound_pos; [apply (rd_off _ _ H)|apply (rd_nb _ _ H)]. Qed.

(** Filling the buffer. *)
Lemma fill_buffer p bs b w : reader p bs -> p.(aBuffer) = Some b -> contents w.(fs) p.(pFile) = Some bs ->
  p.(iReadOff) < p.(iEof) ->
  let iBuf := Z.rem p.(iReadOff) p.(nBuffer) in
  runs (if iBuf =? 0 then
          let nRead := if p.(iEof) - p.(iReadOff) >? p.(nBuffer) then p.(nBuffer)
                       else i32 (p.(iEof) - p.(iReadOff)) in
          _ ← ensure (0 <? nRead);
          '(rc, data) ← sqlite3OsRead p.(pFile) nRead p.(iReadOff);
          buffer ← must (blit b 0 (map Some data));
          mret (rc, buffer)
        else mret (SQLITE_OK, b)) w
    (fun '(rc, b') w' => step [] w w' 0 /\ (good w -> rc = SQLITE_OK) /\
      (rc = SQLITE_OK -> length b' = Z.to_nat p.(nBuffer) /\ Forall byte_or_none b' /\
        holds_at b' (Z.to_nat iBuf) (Z.to_nat (Z.min (p.(nBuffer) - iBuf) (p.(iEof) - p.(iReadOff)))) bs (Z.to_nat p.(iReadOff)))).
Proof.
  intros Hr Hb Hc Hlt iBuf. pose proof (reader_rem _ _ Hr) as Hi. fold iBuf in Hi.
  destruct Hr as [Hnb Ho He Hf Hbs _ (b0 & Hb0 & Hl & Hok & Hh)]. rewrite Hb in Hb0. injection Hb0 as <-. fold iBuf in Hh.
  destruct (Z.eqb_spec iBuf 0) as [E|E].
  - set (nRead := if _ >? _ then _ else _).
    assert (nRead = Z.min (nBuffer p) (iEof p - iReadOff p)) as HnR.
    { unfold nRead. rewrite Z.gtb_ltb. zcase; [lia|]. rewrite wrap_s_small by (lia || (unfold in_s; lia)). lia. }
    apply runs_bind, runs_ensure; [apply Z.ltb_lt; lia|]. apply runs_bind.
    eapply runs_read; [exact Hc|done|lia|lia|lia|]. intros rc data w' Hs Hd Hok1 Hg.
    destruct (blit_in b 0 (map Some data)) as [b' Hb']; [lia|rewrite length_map; lia|].
    apply runs_bind, (runs_must _ b'); [done|]. apply runs_ret. split; [done|]. split; [done|]. intros Hrc.
    specialize (Hok1 Hrc). rewrite Hok1 in Hb'. pose proof (blit_facts _ _ _ _ Hb') as (Hl' & _ & _ & _ & HP).
    split; [lia|]. split; [apply HP; [done|]; by apply bytes_some, Forall_take, Forall_drop|].
    rewrite E, Z.sub_0_r, <- HnR. apply (holds_at_read b 0); [done|lia].
  - apply runs_ret. split; [apply step_refl|]. split; [done|]. intros _. split; [done|]. split; [done|]. by apply Hh.
Qed.

Lemma rem_next o nb n : 0 <= o -> 0 < nb -> 0 <= n -> Z.rem o nb + n <= nb -> Z.rem (o + n) nb <> 0 ->
  Z.rem (o + n) nb = Z.rem o nb + n.
Proof.
  intros Ho Hnb Hn. rewrite !Z.rem_mod_nonneg by lia. intros Hle H0.
  pose proof (Z.mod_pos_bound o nb Hnb). rewrite <- Z.add_mod_idemp_l in * by lia.
  destruct (Z.eq_dec (o mod nb + n) nb) as [E|E].
  - exfalso. apply H0. rewrite E. apply Z.mod_same. lia.
  - apply Z.mod_small. lia.
Qed.

(** A read of bytes that are all in the buffer. *)
Lemma read_shallow fuel p bs n w : reader p bs -> contents w.(fs) p.(pFile) = Some bs -> 0 < n ->
  n <= p.(nBuffer) - Z.rem p.(iReadOff) p.(nBuffer) -> p.(iReadOff) + n <= p.(iEof) ->
  runs (vdbeSorterIterRead (S fuel) p n) w (fun '(rc, p', k) w' =>
    step [] w w' 0 /\ iblocks p' = 2 /\ (good w -> rc = SQLITE_OK) /\
    (rc = SQLITE_OK -> reader p' bs /\ p'.(iReadOff) = p.(iReadOff) + n /\ same_iter p p' /\
      k = KBuffer (Z.rem p.(iReadOff) p.(nBuffer)) /\ p'.(aAlloc) = p.(aAlloc) /\ p'.(nAlloc) = p.(nAlloc) /\
      deref p' k n = Some (map Some (sub bs (Z.to_nat p.(iReadOff)) (Z.to_nat n))))).
Proof.
  intros Hr Hc Hn Hav Hlim. pose proof (reader_rem _ _ Hr) as Hi. set (iBuf := Z.rem _ _) in *.
  destruct (rd_buffer _ _ Hr) as (b & Hb & Hl & _ & _). pose proof Hr as [Hnb Ho He Hf Hbs Ha _].
  cbn [vdbeSorterIterRead]. fold iBuf. apply runs_bind, (runs_must _ b); [done|].
  apply runs_bind, runs_ensure; [by rewrite (proj2 (Z.eqb_neq (nBuffer p) 0)) by lia|]. apply runs_bind.
  eapply runs_mono; [apply (fill_buffer p bs b w Hr Hb Hc); lia|]. fold iBuf. intros [rc b'] w' (Hs & Hg & Hok).
  assert (iblocks (set_aBuffer p (Some b')) = 2) as Hbl by (destruct Ha as (a & Ha & _); unfold iblocks; cbn; by rewrite Ha).
  destruct (Z.eqb_spec rc SQLITE_OK) as [->|Hrc]; cbn [negb].
  - destruct (Hok eq_refl) as (Hl' & Hok' & Hh). cbn [nBuffer set_aBuffer].
    rewrite (proj2 (Z.leb_le _ _) Hav). apply runs_ret. split; [done|]. split; [done|]. split; [done|]. intros _.
    split; [|split; [done|split; [done|split; [done|split; [done|split; [done|]]]]]].
    + constructor; cbn [nBuffer iReadOff iEof pFile aAlloc nAlloc aBuffer set_iReadOff set_aBuffer]; try done; [lia|].
      exists b'. split; [done|]. split; [done|]. split; [done|]. intros Hi0.
      assert (Z.rem (iReadOff p + n) (nBuffer p) = iBuf + n) as E by (apply rem_next; [lia..|done]).
      rewrite E. pose proof (holds_at_skip _ _ _ (Z.to_nat n) _ _ Hh ltac:(lia)) as Hh'.
      rewrite !Z2Nat.inj_add by lia.
      replace (Z.to_nat (Z.min (nBuffer p - (iBuf + n)) (iEof p - (iReadOff p + n)))) with
        (Z.to_nat (Z.min (nBuffer p - iBuf) (iEof p - iReadOff p)) - Z.to_nat n)%nat by lia. exact Hh'.
    + cbn [deref aBuffer set_iReadOff set_aBuffer mbind option_bind]. rewrite slice_in by lia. f_equal.
      apply (holds_at_less _ _ _ _ _ _ Hh). lia.
  - apply runs_ret. split; [done|]. split; [done|]. split; [done|]. done.
Qed.

Lemma set_alloc_reader p bs (a : buf) : reader p bs -> length a = Z.to_nat p.(nAlloc) -> reader (set_aAlloc p (Some a) p.(nAlloc)) bs.
Proof.
  intros [Hnb Ho He Hf Hbs (a0 & _ & _ & Hn) Hb] Ha. constructor; try done. exists a. done.
Qed.

Lemma copy_loop_ok fuel2 bs nByte : forall fuel p nRem (pre : list Z) a w, (Z.to_nat nRem < fuel)%nat -> reader p bs ->
  contents w.(fs) p.(pFile) = Some bs -> 0 <= nRem <= nByte -> p.(iReadOff) + nRem <= p.(iEof) ->
  (0 < nRem -> Z.rem p.(iReadOff) p.(nBuffer) = 0) -> p.(aAlloc) = Some a -> nByte <= p.(nAlloc) ->
  Z.of_nat (length pre) = nByte - nRem -> sub a 0 (length pre) = map Some pre ->
  runs (copy_loop fuel (vdbeSorterIterRead (S fuel2)) p nByte nRem) w (fun '(rc, p') w' =>
    step [] w w' 0 /\ iblocks p' = 2 /\ (good w -> rc = SQLITE_OK) /\
    (rc = SQLITE_OK -> reader p' bs /\ p'.(iReadOff) = p.(iReadOff) + nRem /\ same_iter p p' /\
      exists a' : buf, p'.(aAlloc) = Some a' /\ nByte <= Z.of_nat (length a') /\
        sub a' 0 (Z.to_nat nByte) = map Some (pre ++ sub bs (Z.to_nat p.(iReadOff)) (Z.to_nat nRem)))).
Proof.
  induction fuel as [|fuel IH]; intros p nRem pre a w Hfuel Hr Hc HnR Hlim Hrem Ha Hn Hpre Hsub; [lia|].
  destruct (rd_alloc _ _ Hr) as (a0 & Ha0 & Hal & _). rewrite Ha in Ha0. injection Ha0 as <-.
  cbn [copy_loop]. destruct (Z.ltb_spec 0 nRem) as [Hpos|Hz].
  - pose proof (rd_nb _ _ Hr) as Hnb. set (nCopy := if _ >? _ then _ else _).
    assert (nCopy = Z.min nRem p.(nBuffer)) as HnC by (unfold nCopy; zcase; lia).
    apply runs_bind. eapply runs_mono; [apply (read_shallow fuel2 p bs nCopy w Hr Hc); rewrite ?(Hrem Hpos); lia|].
    intros [[rc p1] k1] w1 (Hs1 & Hb1 & Hg1 & Hok1).
    destruct (Z.eqb_spec rc SQLITE_OK) as [->|Hrc]; cbn [negb]; [|apply runs_ret; by repeat (split; [done|])].
    destruct (Hok1 eq_refl) as (Hr1 & Ho1 & Hsame1 & -> & Ha1 & Hn1 & Hd1).
    apply runs_bind, runs_ensure; [done|]. apply runs_bind, (runs_must _ _ _ _ Hd1).
    apply runs_bind, (runs_must _ a); [by rewrite Ha1|].
    set (src := map Some (sub bs (Z.to_nat (iReadOff p)) (Z.to_nat nCopy))).
    assert (length src = Z.to_nat nCopy) as Hsrc.
    { unfold src. rewrite length_map, sub_length; [done|]. pose proof (rd_eof _ _ Hr). pose proof (rd_off _ _ Hr). lia. }
    destruct (blit_in a (nByte - nRem) src) as [a' Ha']; [lia|rewrite Hsrc; lia|].
    apply runs_bind, (runs_must _ a'); [done|].
    destruct (blit_facts _ _ _ _ Ha') as (Hl' & Hp' & Hs' & _ & _).
    pose proof Hsame1 as (HE & HK & HF & HA & HB).
    eapply runs_mono; [apply (IH (set_aAlloc p1 (Some a') (nAlloc p1)) (nRem - nCopy) (pre ++ sub bs (Z.to_nat (iReadOff p)) (Z.to_nat nCopy)) a' w1)|].
    + lia.
    + apply set_alloc_reader; [done|]. by rewrite Hl', Hn1.
    + cbn. rewrite HF, <- Hc. by apply (step_contents _ _ _ _ Hs1).
    + lia.
    + cbn. rewrite Ho1, HE. lia.
    + cbn. intros Hm. rewrite Ho1, HB, HnC, Z.min_r by lia.
      pose proof (rd_off _ _ Hr). specialize (Hrem Hpos). rewrite Z.rem_mod_nonneg in * by lia.
      rewrite <- Z.add_mod_idemp_l, Hrem, Z.add_0_l by lia. apply Z.mod_same. lia.
    + done.
    + cbn. rewrite Hn1. lia.
    + rewrite length_app. unfold src in Hsrc. rewrite length_map in Hsrc. rewrite Hsrc. lia.
    + assert (length (sub bs (Z.to_nat (iReadOff p)) (Z.to_nat nCopy)) = Z.to_nat nCopy) as HL by (unfold src in Hsrc; by rewrite length_map in Hsrc).
      rewrite length_app, HL, sub_add, map_app. cbn [plus].
      replace (Z.to_nat (nByte - nRem)) with (length pre) in * by lia. rewrite Hsrc in Hs'. by rewrite Hp', Hsub, Hs'.
    + intros [rc p2] w2 (Hs2 & Hb2 & Hg2 & Hok2).
      split; [eapply step_mono; [exact (step_trans _ _ _ _ _ _ Hs1 Hs2)|done|lia]|]. split; [done|].
      split; [intros Hgw; by apply Hg2, (step_good _ _ _ _ Hs1)|]. intros Hrc2.
      destruct (Hok2 Hrc2) as (Hr2 & Ho2 & Hsame2 & a2 & Ha2 & Hl2 & Hsub2). split; [done|]. cbn in Ho2. split; [lia|].
      split; [by eapply same_iter_trans; [exact Hsame1|]|]. exists a2. split; [done|]. split; [done|].
      rewrite Hsub2, <- (assoc_L (++)). do 2 f_equal. cbn. rewrite Ho1.
      replace (Z.to_nat nRem) with (Z.to_nat nCopy + Z.to_nat (nRem - nCopy))%nat by lia. rewrite sub_add. do 2 f_equal.
      pose proof (rd_off _ _ Hr). lia.
  - assert (nRem = 0) as -> by lia. apply runs_ret. split; [apply step_refl|]. split; [by eapply reader_blocks|]. split; [done|].
    intros _. split; [done|]. split; [lia|]. split; [done|]. exists a. split; [done|]. split; [lia|].
    unfold sub at 2. cbn [Z.to_nat take]. rewrite app_nil_r, <- Hsub. f_equal. lia.
Qed.

Lemma double_until_ok nByte : nByte < 2 ^ 30 -> forall fuel x, 0 < x < 2 ^ 31 -> nByte <= x * 2 ^ (Z.of_nat fuel - 1) ->
  (0 < fuel)%nat -> exists y, double_until fuel nByte x = Some y /\ nByte <= y < 2 ^ 31 /\ x <= y.
Proof.
  intros Hb. induction fuel as [|fuel IH]; intros x Hx Hle Hf; [lia|]. cbn [double_until]. zcase.
  - rewrite wrap_s_small by (lia || (unfold in_s; lia)). destruct fuel as [|fuel]; [cbn in Hle; lia|].
    destruct (IH (x * 2)) as (y & Hy & H1 & H2); [lia| |lia|exists y; split; [done|lia]].
    rewrite Nat2Z.inj_succ in Hle. replace (Z.succ (Z.of_nat (S fuel)) - 1) with (Z.succ (Z.of_nat (S fuel) - 1)) in Hle by lia.
    rewrite Z.pow_succ_r in Hle by lia. lia.
  - exists x. split; [done|]. lia.
Qed.

Lemma grow_alloc p (a : buf) n w : p.(aAlloc) = Some a -> length a = Z.to_nat p.(nAlloc) -> 128 <= p.(nAlloc) < 2 ^ 31 ->
  n < 2 ^ 30 ->
  runs (if p.(nAlloc) <? n then
          nNew ← must (double_until 32 n (i32 (p.(nAlloc) * 2)));
          a ← sqlite3DbReallocOrFree p.(aAlloc) nNew;
          mret (is_block a, set_aAlloc p a (if is_block a then nNew else p.(nAlloc)))
        else mret (true, p)) w
    (fun '(ok, p') w' => step [] w w' (iblocks p' - iblocks p) /\ (good w -> ok = true) /\
      (ok = true -> exists a' m, p' = set_aAlloc p (Some a') m /\ length a' = Z.to_nat m /\ n <= m /\ 128 <= m < 2 ^ 31)).
Proof.
  intros Ha Hl Hn Hb. destruct (Z.ltb_spec p.(nAlloc) n) as [Hlt|Hge].
  - destruct (double_until_ok n Hb 32 (i32 (nAlloc p * 2))) as (y & Hy & Hyn & Hyx);
      [rewrite wrap_s_small by (lia || (unfold in_s; lia)); lia| |lia|].
    { rewrite wrap_s_small by (lia || (unfold in_s; lia)). change (2 ^ (Z.of_nat 32 - 1)) with (2 ^ 31). lia. }
    rewrite wrap_s_small in Hyx by (lia || (unfold in_s; lia)).
    apply runs_bind, (runs_must _ y); [done|]. unfold sqlite3DbReallocOrFree.
    apply runs_bind, runs_bind, runs_db_alloc. intros ok w1 Hs1 Hg1 _ _. apply runs_bind, runs_dbfree.
    intros w2 Hs2. rewrite Ha in *. cbn [is_block default] in *. apply runs_ret, runs_ret.
    pose proof (step_trans _ _ _ _ _ _ Hs1 Hs2) as Hs.
    assert (forall a' m, iblocks (set_aAlloc p a' m) - iblocks p = bval (is_block a') - 1) as Hbl.
    { intros a' m. unfold iblocks. rewrite Ha. cbn. lia. }
    rewrite Hbl. destruct ok; cbn [is_block bval].
    + split; [eapply step_mono; [exact Hs|done|lia]|]. split; [done|]. intros _. do 2 eexists. split; [done|].
      split; [|lia]. rewrite length_take, length_app. unfold malloc_raw. rewrite length_replicate. cbn. lia.
    + split; [eapply step_mono; [exact Hs|done|lia]|]. split; [done|done].
  - apply runs_ret. split; [eapply step_mono; [apply step_refl|done|lia]|]. split; [done|]. intros _.
    exists a, p.(nAlloc). split; [destruct p; cbn in *; by rewrite Ha|]. split; [done|]. lia.
Qed.

(** What every read does. *)
Definition read_post (p : VdbeSorterIter) (bs : list Z) (n : Z) (w : world V) (rc : Z) (p' : VdbeSorterIter)
    (k : keyptr) (w' : world V) : Prop :=
  step [] w w' (iblocks p' - iblocks p) /\ (good w -> rc = SQLITE_OK) /\
  (rc = SQLITE_OK -> reader p' bs /\ p'.(iReadOff) = p.(iReadOff) + n /\ same_iter p p' /\
    deref p' k n = Some (map Some (sub bs (Z.to_nat p.(iReadOff)) (Z.to_nat n)))).

Lemma read_ok p bs n w : reader p bs -> contents w.(fs) p.(pFile) = Some bs -> 0 < n < 2 ^ 30 ->
  p.(iReadOff) + n <= p.(iEof) ->
  runs (vdbeSorterIterRead READ_DEPTH p n) w (fun '(rc, p', k) w' => read_post p bs n w rc p' k w').
Proof.
  intros Hr Hc Hn Hlim. pose proof (reader_rem _ _ Hr) as Hi. set (iBuf := Z.rem p.(iReadOff) p.(nBuffer)) in *.
  destruct (Z.leb_spec n (p.(nBuffer) - iBuf)) as [Hav|Hav].
  { eapply runs_mono; [by apply (read_shallow 1 p bs n w Hr Hc); lia|]. intros [[rc p'] k] w' (Hs & Hb & Hg & Hok).
    split; [by rewrite Hb, (reader_blocks _ _ Hr)|]. split; [done|]. intros Hrc. by destruct (Hok Hrc) as (? & ? & ? & _ & _ & _ & ?). }
  pose proof (reader_blocks _ _ Hr) as Hbl.
  destruct (rd_buffer _ _ Hr) as (b & Hb & Hl & _ & _). destruct (rd_alloc _ _ Hr) as (a & Ha & Hal & HnA).
  pose proof Hr as [Hnb Ho He Hf Hbs _ _].
  unfold READ_DEPTH. cbn [vdbeSorterIterRead]. fold iBuf. apply runs_bind, (runs_must _ b); [done|].
  apply runs_bind, runs_ensure; [by rewrite (proj2 (Z.eqb_neq (nBuffer p) 0)) by lia|]. apply runs_bind.
  eapply runs_mono; [apply (fill_buffer p bs b w Hr Hb Hc); lia|]. fold iBuf. intros [rc b'] w1 (Hs1 & Hg1 & Hok1).
  set (p1 := set_aBuffer p (Some b')).
  assert (iblocks p1 = 2) as Hbl1 by (unfold iblocks; cbn; by rewrite Ha).
  destruct (Z.eqb_spec rc SQLITE_OK) as [->|Hrc]; cbn [negb];
    [|apply runs_ret; split; [by rewrite Hbl1, Hbl|by split]].
  destruct (Hok1 eq_refl) as (Hl' & Hok' & Hh). cbn [nBuffer set_aBuffer p1].
  rewrite (proj2 (Z.leb_gt _ _) Hav). apply runs_bind.
  pose proof (grow_alloc p1 a n w1 Ha Hal HnA ltac:(lia)) as HG. eapply runs_mono; [exact HG|]. clear HG.
  intros [ok p2] w2 (Hs2 & Hg2 & Hok2). pose proof (step_trans _ _ _ _ _ _ Hs1 Hs2) as Hs12.
  destruct ok; cbn [negb]; [|apply runs_ret; split; [eapply step_mono; [exact Hs12|done|lia]|]; split; [|done];
    intros Hgw; specialize (Hg2 (step_good _ _ _ _ Hs1 Hgw)); done].
  destruct (Hok2 eq_refl) as (a2 & m & -> & Hl2 & Hnm & Hm). clear Hok2.
  assert (Z.to_nat (Z.min (nBuffer p - iBuf) (iEof p - iReadOff p)) = Z.to_nat (nBuffer p - iBuf)) as Hmin by lia.
  rewrite Hmin in Hh. set (src := map Some (sub bs (Z.to_nat (iReadOff p)) (Z.to_nat (nBuffer p - iBuf)))).
  assert (length src = Z.to_nat (nBuffer p - iBuf)) as Hsrc by (unfold src; rewrite length_map, sub_length; lia).
  apply runs_bind, (runs_must _ src); [by rewrite slice_in by lia; f_equal|].
  apply runs_bind, (runs_must _ a2); [done|].
  destruct (blit_in a2 0 src) as [a3 Ha3]; [lia|rewrite Hsrc; lia|]. apply runs_bind, (runs_must _ a3); [done|].
  destruct (blit_facts _ _ _ _ Ha3) as (Hl3 & _ & Hp3 & _ & _). cbn [nAlloc set_aAlloc iReadOff set_aBuffer p1].
  set (p3 := set_iReadOff _ _).
  assert (reader p3 bs) as Hr3.
  { constructor; cbn [nBuffer iReadOff iEof pFile aAlloc nAlloc aBuffer p3 p1 set_iReadOff set_aAlloc set_aBuffer]; try done; [lia| |].
    - exists a3. split; [done|]. by rewrite Hl3.
    - exists b'. split; [done|]. split; [done|]. split; [done|]. intros H0. exfalso. apply H0.
      replace (iReadOff p + (nBuffer p - iBuf)) with ((Z.quot (iReadOff p) (nBuffer p) + 1) * nBuffer p)
        by (pose proof (Z.quot_rem' (iReadOff p) (nBuffer p)); unfold iBuf; lia). apply Z.rem_mul. lia. }
  apply runs_bind. eapply runs_mono; [eapply (copy_loop_ok 0 bs n _ p3 (n - (nBuffer p - iBuf)) _ a3 w2)|].
  - lia.
  - exact Hr3.
  - cbn. rewrite <- Hc. by apply (step_contents _ _ _ _ Hs12).
  - lia.
  - cbn. lia.
  - intros _. destruct (rd_buffer _ _ Hr3) as (_ & _ & _ & _ & _). cbn.
    replace (iReadOff p + (nBuffer p - iBuf)) with ((Z.quot (iReadOff p) (nBuffer p) + 1) * nBuffer p)
      by (pose proof (Z.quot_rem' (iReadOff p) (nBuffer p)); unfold iBuf; lia). apply Z.rem_mul. lia.
  - done.
  - cbn. lia.
  - instantiate (1 := sub bs (Z.to_nat (iReadOff p)) (Z.to_nat (nBuffer p - iBuf))). rewrite sub_length by lia. lia.
  - rewrite sub_length by lia. fold src. by rewrite Hsrc in Hp3.
  - intros [rc p4] w3 (Hs3 & Hb3 & Hg3 & Hok3). apply runs_ret.
    split; [|split].
    + eapply step_mono; [exact (step_trans _ _ _ _ _ _ Hs12 Hs3)|done|]. rewrite Hb3, Hbl, Hbl1. unfold iblocks. cbn. lia.
    + intros Hgw. apply Hg3. by apply (step_good _ _ _ _ Hs12).
    + intros ->. destruct (Hok3 eq_refl) as (Hr4 & Ho4 & Hsame4 & a4 & Ha4 & Hl4 & Hsub4). split; [done|].
      cbn in Ho4. split; [lia|]. split; [exact Hsame4|]. cbn [Z.eqb SQLITE_OK]. cbn. rewrite Ha4. cbn.
      rewrite slice_in by lia. change (Z.to_nat 0) with 0%nat. rewrite Hsub4. do 2 f_equal. cbn.
      replace (Z.to_nat n) with (Z.to_nat (nBuffer p - iBuf) + Z.to_nat (n - (nBuffer p - iBuf)))%nat by lia.
      rewrite sub_add. do 2 f_equal. lia.
Qed.


Lemma deref_byte p k x : deref p k 1 = Some (map Some [x]) -> (l ← deref p k 1; load l 0 1) = Some [x].
Proof. intros ->. done. Qed.

(** [aVarint] after the bytes [l]. *)
Definition varint_buf (l : list Z) : buf := map Some l ++ replicate (16 - length l) None.

Lemma varint_buf_insert l y : (length l < 16)%nat ->
  <[Z.to_nat (Z.land (Z.of_nat (length l)) 0xf) := Some y]> (varint_buf l) = varint_buf (l ++ [y]).
Proof.
  intros H. unfold varint_buf. rewrite (land_ones_mod _ 4) by lia. change (2 ^ 4) with 16. rewrite Z.mod_small, Nat2Z.id by lia.
  replace (16 - length l)%nat with (S (15 - length l)) by lia. cbn [replicate].
  pose proof (insert_app_r (map Some l) (None :: replicate (15 - length l) None) 0 (Some y)) as E.
  rewrite Nat.add_0_r, length_map in E. rewrite E, map_app, <- (assoc_L (++)), length_app. cbn [map app length].
  do 2 f_equal. change (<[0%nat:=Some y]> (None :: replicate (15 - length l) None)) with (Some y :: replicate (15 - length l) None).
  do 2 f_equal. lia.
Qed.

(** Reading a varint byte by byte. *)
Lemma varint_loop_ok bs x : 0 <= x < 128 -> forall pre fuel p l w, Forall (fun x => 128 <= x < 256) pre ->
  (length pre < fuel)%nat -> (length l + length pre < 16)%nat -> reader p bs -> contents w.(fs) p.(pFile) = Some bs ->
  p.(iReadOff) + Z.of_nat (length pre) + 1 <= p.(iEof) ->
  sub bs (Z.to_nat p.(iReadOff)) (S (length pre)) = pre ++ [x] ->
  runs (varint_loop fuel p (varint_buf l) (Z.of_nat (length l))) w
    (fun '(rc, p', aVarint) w' => step [] w w' (iblocks p' - iblocks p) /\ (good w -> rc = SQLITE_OK) /\
      (rc = SQLITE_OK -> reader p' bs /\ p'.(iReadOff) = p.(iReadOff) + Z.of_nat (length pre) + 1 /\ same_iter p p' /\
        aVarint = varint_buf (l ++ pre ++ [x]))).
Proof.
  intros Hx. induction pre as [|y pre IH]; intros fuel p l w Hpre Hfuel Hlen Hr Hc Hlim Hsub;
    (destruct fuel as [|fuel]; [cbn in Hfuel; lia|]); cbn [varint_loop]; cbn [length app] in *; apply runs_bind;
    (eapply runs_mono; [apply (read_ok p bs 1 w Hr Hc); lia|]); intros [[rc p1] k] w1 (Hs & Hg & Hok);
    (destruct (Z.eqb_spec rc SQLITE_OK) as [->|Hrc]; cbn [negb]; [|apply runs_ret; by split]);
    destruct (Hok eq_refl) as (Hr1 & Ho1 & Hsame & Hd); change (Z.to_nat 1) with 1%nat in Hd.
  - rewrite Hsub in Hd. apply runs_bind, (runs_must _ _ _ _ (deref_byte _ _ _ Hd)).
    apply runs_bind, (runs_must _ x); [done|]. rewrite varint_buf_insert by lia. rewrite land_80, Z.mod_small by lia.
    rewrite (proj2 (Z.ltb_lt x 128)) by lia. cbn [negb].
    apply runs_ret. split; [done|]. split; [done|]. intros _. split; [done|]. split; [lia|]. by split.
  - pose proof (sub_add bs (Z.to_nat (iReadOff p)) 1 (S (length pre))) as Hsp. cbn [plus] in Hsp. rewrite Hsub in Hsp.
    assert (length (sub bs (Z.to_nat (iReadOff p)) 1) = 1%nat) as Hl1.
    { apply sub_length. pose proof (rd_eof _ _ Hr). pose proof (rd_off _ _ Hr). lia. }
    destruct (sub bs (Z.to_nat (iReadOff p)) 1) as [|y' [|]] eqn:E1; [done| |done]. cbn in Hsp. injection Hsp as <- Hsp.
    apply Forall_cons in Hpre as [Hy Hpre].
    apply runs_bind, (runs_must _ _ _ _ (deref_byte _ _ _ Hd)). apply runs_bind, (runs_must _ y); [done|].
    rewrite varint_buf_insert by lia. rewrite land_80, Z.mod_small by lia.
    rewrite (proj2 (Z.ltb_ge y 128)) by lia. cbn [negb].
    pose proof Hsame as (HE & HK & HF & HA & HB).
    replace (Z.of_nat (length l) + 1) with (Z.of_nat (length (l ++ [y]))) by (rewrite length_app; cbn; lia).
    eapply runs_mono; [apply (IH fuel p1 (l ++ [y]) w1)|].
    + done.
    + lia.
    + rewrite length_app. cbn. lia.
    + done.
    + rewrite HF, <- Hc. by apply (step_contents _ _ _ _ Hs).
    + rewrite HE, Ho1. lia.
    + rewrite Ho1. pose proof (rd_off _ _ Hr). replace (Z.to_nat (iReadOff p + 1)) with (Z.to_nat (iReadOff p) + 1)%nat by lia. done.
    + intros [[rc p2] av] w2 (Hs2 & Hg2 & Hok2).
      split; [eapply step_mono; [exact (step_trans _ _ _ _ _ _ Hs Hs2)|done|lia]|].
      split; [intros Hgw; by apply Hg2, (step_good _ _ _ _ Hs)|]. intros ->.
      destruct (Hok2 eq_refl) as (Hr2 & Ho2 & Hsame2 & ->). split; [done|]. split; [lia|].
      split; [by eapply same_iter_trans|]. by rewrite <- (assoc_L (++)).
Qed.

Lemma varint_bytes v : 0 <= v < 2 ^ 56 -> bytes_ok (sqlite3PutVarint v) /\
  Z.of_nat (length (sqlite3PutVarint v)) = sqlite3VarintLen v /\ 1 <= sqlite3VarintLen v <= 8 /\
  forall rest, bytes_ok rest -> sqlite3GetVarint (sqlite3PutVarint v ++ rest) = Some (sqlite3VarintLen v, v).
Proof.
  intros Hv. assert (is_u64 v) as Hu by (unfold_int; lia). destruct (putvarint_spec v [] Hu) as (_ & Hl & Hb).
  split; [done|]. split; [done|]. destruct (putvarint_shape v Hv) as (pre & x & E & Hp & _ & _).
  split; [rewrite <- Hl, E, length_app; cbn; lia|]. intros rest Hr. destruct (putvarint_spec v rest Hu) as (Hd & _).
  rewrite getvarint_ref by (by apply bytes_ok_app). by rewrite Hd, Hl.
Qed.

Lemma varint_ok p bs v prev w : reader p bs -> contents w.(fs) p.(pFile) = Some bs -> 0 <= v < 2 ^ 56 ->
  p.(iReadOff) + sqlite3VarintLen v <= p.(iEof) ->
  sub bs (Z.to_nat p.(iReadOff)) (Z.to_nat (sqlite3VarintLen v)) = sqlite3PutVarint v ->
  runs (vdbeSorterIterVarint p prev) w (fun '(rc, p', x) w' =>
    step [] w w' (iblocks p' - iblocks p) /\ (good w -> rc = SQLITE_OK) /\
    (rc = SQLITE_OK -> x = v /\ reader p' bs /\ p'.(iReadOff) = p.(iReadOff) + sqlite3VarintLen v /\ same_iter p p')).
Proof.
  intros Hr Hc Hv Hlim Hsub. destruct (varint_bytes v Hv) as (Hb & Hl & Hlen & Hget).
  pose proof (rd_nb _ _ Hr) as Hnb. pose proof (reader_rem _ _ Hr) as Hi. pose proof (rd_off _ _ Hr) as Ho.
  unfold vdbeSorterIterVarint. apply runs_bind, runs_ensure; [by rewrite (proj2 (Z.eqb_neq (nBuffer p) 0)) by lia|].
  set (iBuf := Z.rem _ _) in *. destruct (_ && _) eqn:Ecase.
  - apply andb_true_iff in Ecase as [E1 E2]. apply negb_true_iff, Z.eqb_neq in E1. rewrite Z.geb_leb in E2. apply Z.leb_le in E2.
    destruct (rd_buffer _ _ Hr) as (b & Hbf & Hbl & Hbb & Hh). cbn zeta in Hh. fold iBuf in Hh. specialize (Hh E1).
    apply runs_bind, (runs_must _ b); [done|].
    pose proof (holds_at_less _ _ _ (Z.to_nat (sqlite3VarintLen v)) _ _ Hh ltac:(lia)) as Hh'. unfold holds_at in Hh'. rewrite Hsub in Hh'.
    assert (drop (Z.to_nat iBuf) b = map Some (sqlite3PutVarint v) ++ drop (Z.to_nat iBuf + Z.to_nat (sqlite3VarintLen v)) b) as ->.
    { rewrite <- Hh', <- drop_drop. unfold sub. by rewrite take_drop. }
    rewrite initialised_app. apply runs_bind, (runs_must _ (sqlite3VarintLen v, v)).
    { apply Hget, initialised_bytes. by apply Forall_drop. }
    apply runs_ret. split; [eapply step_mono; [apply step_refl|done|unfold iblocks; cbn; lia]|]. split; [done|]. intros _.
    split; [done|]. split; [|split; [done|done]]. destruct Hr as [_ _ He Hf Hbs Ha _].
    constructor; cbn [nBuffer iReadOff iEof pFile aAlloc nAlloc aBuffer set_iReadOff]; try done; [lia|].
    exists b. split; [done|]. split; [done|]. split; [done|]. intros H0.
    rewrite (rem_next (iReadOff p)) in * by (try done; fold iBuf; lia). fold iBuf.
    pose proof (holds_at_skip _ _ _ (Z.to_nat (sqlite3VarintLen v)) _ _ Hh ltac:(lia)) as Hh2. rewrite !Z2Nat.inj_add by lia.
    replace (Z.to_nat (Z.min (nBuffer p - (iBuf + sqlite3VarintLen v)) (iEof p - (iReadOff p + sqlite3VarintLen v)))) with
      (Z.to_nat (Z.min (nBuffer p - iBuf) (iEof p - iReadOff p)) - Z.to_nat (sqlite3VarintLen v))%nat by lia. exact Hh2.
  - destruct (putvarint_shape v Hv) as (pre & x & E & Hpre & Hpb & Hx). apply runs_bind.
    assert (Z.of_nat (length pre) + 1 = sqlite3VarintLen v) as Hlp by (rewrite <- Hl, E, length_app; cbn; lia).
    eapply runs_mono; [apply (varint_loop_ok bs x Hx pre _ p [] w Hpb)|].
    + lia.
    + cbn. lia.
    + done.
    + done.
    + lia.
    + rewrite <- E, <- Hsub. f_equal. lia.
    + intros [[rc p1] av] w1 (Hs & Hg & Hok). destruct (Z.eqb_spec rc SQLITE_OK) as [->|Hrc]; cbn [negb];
        [|apply runs_ret; by split].
      destruct (Hok eq_refl) as (Hr1 & Ho1 & Hsame & ->). cbn [app]. rewrite <- E.
      apply runs_bind, (runs_must _ (sqlite3VarintLen v, v)).
      { unfold varint_buf. rewrite initialised_app. apply Hget. destruct (16 - _)%nat; constructor. }
      apply runs_ret. split; [done|]. split; [done|]. intros _. split; [done|]. split; [done|]. split; [lia|done].
Qed.

(** ** Packed arrays *)

Definition entry (k : list Z) : list Z := sqlite3PutVarint (Z.of_nat (length k)) ++ k.

(** The records of a packed array, and the array with its size. *)
Definition encode (ks : list (list Z)) : list Z := concat (map entry ks).

Definition pma (ks : list (list Z)) : list Z := sqlite3PutVarint (Z.of_nat (length (encode ks))) ++ encode ks.

Definition key_fits (k : list Z) : Prop := bytes_ok k /\ 0 < Z.of_nat (length k) < 2 ^ 30.

Lemma entry_length k : key_fits k -> Z.of_nat (length (entry k)) = sqlite3VarintLen (Z.of_nat (length k)) + Z.of_nat (length k).
Proof.
  intros [_ Hk]. destruct (varint_bytes (Z.of_nat (length k))) as (_ & Hl & _); [lia|].
  unfold entry. rewrite length_app. lia.
Qed.

Lemma lower_eof p bs x : reader p bs -> p.(iReadOff) <= x <= p.(iEof) -> reader (set_iEof p x) bs.
Proof.
  intros [Hnb Ho He Hf Hbs Ha (b & Hb & Hl & Hok & Hh)] Hx.
  constructor; cbn [nBuffer iReadOff iEof pFile aAlloc nAlloc aBuffer set_iEof]; try done; [lia|lia|].
  exists b. split; [done|]. split; [done|]. split; [done|]. intros H0. eapply holds_at_less; [by apply Hh|lia].
Qed.

(** The iterator [p] over the file [f] is at the first of the keys [l]. *)
Definition iter_rep (f : Z) (bs : list Z) (p : VdbeSorterIter) (l : list (list Z)) : Prop :=
  match l with
  | [] => p = zero_iter
  | k :: ks => reader p bs /\ p.(pFile) = f /\ key_of p = Some k /\ p.(nKey) = Z.of_nat (length k) /\
      sub bs (Z.to_nat p.(iReadOff)) (Z.to_nat (p.(iEof) - p.(iReadOff))) = encode ks /\ Forall key_fits (k :: ks)
  end.

Lemma iter_zero_ok p w : runs (vdbeSorterIterZero p) w (fun p' w' => p' = zero_iter /\ step [] w w' (- iblocks p)).
Proof.
  apply runs_bind, runs_dbfree. intros w1 Hs1. apply runs_bind, runs_dbfree. intros w2 Hs2. apply runs_ret.
  split; [done|]. eapply step_mono; [exact (step_trans _ _ _ _ _ _ Hs1 Hs2)|done|].
  unfold iblocks. by destruct (is_block _), (is_block _).
Qed.

Lemma sub_prefix {A} (l a b : list A) o n : sub l o n = a ++ b -> (o + n <= length l)%nat ->
  sub l o (length a) = a /\ sub l (o + length a) (n - length a) = b /\ (length a <= n)%nat.
Proof.
  intros H Hl. pose proof (f_equal length H) as HL. rewrite sub_length, length_app in HL by done.
  replace n with (length a + (n - length a))%nat in H by lia. rewrite sub_add in H.
  apply app_inj_1 in H as [H1 H2]; [|by rewrite sub_length by lia]. split; [done|]. split; [done|lia].
Qed.

Lemma iter_next_ok p bs ks w : reader p bs -> contents w.(fs) p.(pFile) = Some bs ->
  sub bs (Z.to_nat p.(iReadOff)) (Z.to_nat (p.(iEof) - p.(iReadOff))) = encode ks -> Forall key_fits ks ->
  runs (vdbeSorterIterNext p) w (fun '(rc, p') w' =>
    step [] w w' (iblocks p' - iblocks p) /\ (good w -> rc = SQLITE_OK) /\
    (rc = SQLITE_OK -> iter_rep p.(pFile) bs p' ks /\ (ks <> [] -> p'.(iEof) = p.(iEof)))).
Proof.
  intros Hr Hc Hsub Hfit. pose proof (rd_off _ _ Hr) as Ho. pose proof (rd_eof _ _ Hr) as He.
  unfold vdbeSorterIterNext. destruct ks as [|k ks].
  - cbn in Hsub. apply (f_equal length) in Hsub. rewrite sub_length in Hsub by lia. cbn in Hsub.
    rewrite Z.geb_leb, (proj2 (Z.leb_le _ _)) by lia. apply runs_bind.
    eapply runs_mono; [apply iter_zero_ok|]. intros p' w' [-> Hs]. apply runs_ret.
    split; [eapply step_mono; [exact Hs|done|change (iblocks zero_iter) with 0; lia]|]. split; [done|]. by intros _.
  - apply Forall_cons in Hfit as [Hk Hfit]. pose proof (entry_length k Hk) as Hel. pose proof Hk as [Hkb Hkl].
    destruct (varint_bytes (Z.of_nat (length k))) as (Hvb & Hvl & Hvr & _); [lia|].
    change (encode (k :: ks)) with ((sqlite3PutVarint (Z.of_nat (length k)) ++ k) ++ encode ks) in Hsub.
    rewrite <- (assoc_L (++)) in Hsub. apply sub_prefix in Hsub as (H1 & Hsub & Hle1); [|lia].
    apply sub_prefix in Hsub as (H2 & Hsub & Hle2); [|lia].
    rewrite Z.geb_leb, (proj2 (Z.leb_gt _ _)) by lia. apply runs_bind.
    eapply runs_mono; [apply (varint_ok p bs (Z.of_nat (length k)) 0 w Hr Hc)|].
    + lia.
    + lia.
    + rewrite <- H1. f_equal. lia.
    + intros [[rc p1] x] w1 (Hs1 & Hg1 & Hok1). destruct (Z.eqb_spec rc SQLITE_OK) as [->|Hrc]; [|apply runs_ret; by split].
      destruct (Hok1 eq_refl) as (-> & Hr1 & Ho1 & Hsame1). pose proof Hsame1 as (HE & HK & HF & HA & HB).
      rewrite wrap_s_small by (lia || (unfold in_s; lia)). set (p2 := set_aKey p1 (aKey p1) _).
      assert (reader p2 bs) as Hr2 by (destruct Hr1; by constructor).
      assert (iblocks p2 = iblocks p1) as Hb2 by done.
      apply runs_bind. eapply runs_mono; [apply (read_ok p2 bs (Z.of_nat (length k)) w1 Hr2)|].
      * cbn. rewrite HF, <- Hc. by apply (step_contents _ _ _ _ Hs1).
      * lia.
      * cbn. lia.
      * intros [[rc p3] kp] w2 (Hs2 & Hg2 & Hok2). apply runs_ret.
        split; [|split; [intros Hgw; by apply Hg2, (step_good _ _ _ _ Hs1)|]].
        { eapply step_mono; [exact (step_trans _ _ _ _ _ _ Hs1 Hs2)|done|]. rewrite Hb2. destruct (rc =? SQLITE_OK); unfold iblocks; cbn; lia. }
        intros ->. cbn [Z.eqb SQLITE_OK]. destruct (Hok2 eq_refl) as (Hr3 & Ho3 & Hsame3 & Hd3).
        pose proof Hsame3 as (HE3 & HK3 & HF3 & HA3 & HB3). cbn in Ho3, HE3, HK3, HF3.
        split; [|intros _; cbn; congruence]. cbn [iter_rep].
        split; [destruct Hr3; by constructor|]. split; [cbn; congruence|]. cbn [nKey set_aKey].
        assert (Z.to_nat (Z.of_nat (length k)) = length k) as HN by lia.
        split; [|split; [done|split; [|by constructor]]].
        -- unfold key_of. cbn [aKey nKey set_aKey]. rewrite HK3.
           assert (deref (set_aKey p3 kp (Z.of_nat (length k))) kp (Z.of_nat (length k)) = deref p3 kp (Z.of_nat (length k))) as -> by done.
           rewrite Hd3. cbn [mbind option_bind]. rewrite HN.
           replace (Z.to_nat (iReadOff p2)) with (Z.to_nat (iReadOff p) + length (sqlite3PutVarint (Z.of_nat (length k))))%nat
             by (cbn; lia). rewrite H2. apply mapM_id_some.
        -- cbn [iReadOff iEof set_aKey]. rewrite <- Hsub. f_equal; lia.
Qed.

(** Filling the buffer up to its end before the first read. *)
Lemma prefill_ok pgsz (b : buf) bs f iStart eof w : 0 < pgsz < 2 ^ 30 -> b = malloc_raw pgsz -> f <> 0 ->
  contents w.(fs) f = Some bs -> bytes_ok bs -> 0 <= iStart < eof -> eof <= Z.of_nat (length bs) ->
  let iBuf := Z.rem iStart pgsz in
  runs (if negb (iBuf =? 0) then
          let nRead := pgsz - iBuf in
          let nRead := if iStart + nRead >? eof then i32 (eof - iStart) else nRead in
          '(rc, data) ← sqlite3OsRead f nRead iStart;
          buffer ← must (blit b iBuf (map Some data));
          mret (rc, buffer)
        else mret (SQLITE_OK, b)) w
    (fun '(rc, b') w' => step [] w w' 0 /\ (good w -> rc = SQLITE_OK) /\
      (rc = SQLITE_OK -> length b' = Z.to_nat pgsz /\ Forall byte_or_none b' /\
        (iBuf <> 0 -> holds_at b' (Z.to_nat iBuf) (Z.to_nat (Z.min (pgsz - iBuf) (eof - iStart))) bs (Z.to_nat iStart)))).
Proof.
  intros Hpg Hb Hf Hc Hbs Hst He iBuf. assert (0 <= iBuf < pgsz) as Hi by (apply Z.rem_bound_pos; lia).
  assert (length b = Z.to_nat pgsz /\ Forall byte_or_none b) as [Hbl Hbb].
  { rewrite Hb. unfold malloc_raw. rewrite length_replicate. split; [done|]. by apply Forall_replicate. }
  destruct (Z.eqb_spec iBuf 0) as [E|E]; cbn [negb].
  { apply runs_ret. split; [apply step_refl|]. split; [done|]. intros _. by repeat (split; [done|]). }
  set (nRead := if _ >? _ then _ else _).
  assert (nRead = Z.min (pgsz - iBuf) (eof - iStart)) as HnR.
  { unfold nRead. rewrite Z.gtb_ltb. zcase; [|lia]. rewrite wrap_s_small by (lia || (unfold in_s; lia)). lia. }
  apply runs_bind. eapply runs_read; [exact Hc|done|lia|lia|lia|]. intros rc data w' Hs Hd Hok Hg.
  destruct (blit_in b iBuf (map Some data)) as [b' Hb']; [lia|rewrite length_map; lia|].
  apply runs_bind, (runs_must _ b'); [done|]. apply runs_ret. split; [done|]. split; [done|]. intros Hrc.
  rewrite (Hok Hrc) in Hb'. pose proof (blit_facts _ _ _ _ Hb') as (Hl' & _ & _ & _ & HP).
  split; [lia|]. split; [apply HP; [done|]; by apply bytes_some, Forall_take, Forall_drop|].
  intros _. rewrite <- HnR. apply (holds_at_read b iBuf); [done|lia].
Qed.

Lemma iter_init_ok pgsz s bs ks iStart nByte w : 0 < pgsz < 2 ^ 30 -> s.(pTemp1) <> 0 ->
  contents w.(fs) s.(pTemp1) = Some bs -> bytes_ok bs -> 0 <= iStart -> s.(iWriteOff) <= Z.of_nat (length bs) ->
  iStart + Z.of_nat (length (pma ks)) <= s.(iWriteOff) -> sub bs (Z.to_nat iStart) (length (pma ks)) = pma ks ->
  ks <> [] -> Forall key_fits ks -> Z.of_nat (length (encode ks)) < 2 ^ 56 ->
  runs (vdbeSorterIterInit pgsz s iStart zero_iter nByte) w (fun '(rc, p', n') w' =>
    step [] w w' (iblocks p') /\ (good w -> rc = SQLITE_OK) /\
    (rc = SQLITE_OK -> iter_rep s.(pTemp1) bs p' ks /\ p'.(iEof) = iStart + Z.of_nat (length (pma ks)) /\
      n' = nByte + Z.of_nat (length (encode ks)))).
Proof.
  intros Hpg Hf Hc Hbs Hst He Hend Hsub Hne Hfit Hsz. set (v := Z.of_nat (length (encode ks))) in *.
  destruct (varint_bytes v ltac:(lia)) as (Hvb & Hvl & Hvr & _).
  assert (Z.of_nat (length (pma ks)) = sqlite3VarintLen v + v) as Hpl by (unfold pma; rewrite length_app; fold v; lia).
  unfold vdbeSorterIterInit. apply runs_bind, runs_ensure; [apply Z.gtb_lt; lia|]. apply runs_bind, runs_ensure; [done|].
  apply runs_bind, runs_db_alloc. intros okA w1 Hs1 Hg1 Hm1 _. apply runs_bind, runs_db_alloc. intros okB w2 Hs2 Hg2 Hm2 Hno.
  pose proof (step_trans _ _ _ _ _ _ Hs1 Hs2) as Hs12. cbn [aBuffer].
  destruct okB.
  2:{ apply runs_ret. split; [eapply step_mono; [exact Hs12|done|unfold iblocks; cbn; by destruct okA]|]. split; [|done].
      intros Hgw. specialize (Hg2 (step_good _ _ _ _ Hs1 Hgw)); done. }
  destruct okA; [|specialize (Hno (Hm1 eq_refl)); done]. apply (step_mono _ [] _ _ _ 2) in Hs12; [|done|done].
  apply runs_bind, runs_ensure; [by rewrite (proj2 (Z.eqb_neq pgsz 0)) by lia|]. apply runs_bind.
  assert (contents w2.(fs) (pTemp1 s) = Some bs) as Hc2 by (rewrite <- Hc; by apply (step_contents _ _ _ _ Hs12)).
  eapply runs_mono; [apply (prefill_ok pgsz _ bs (pTemp1 s) iStart (iWriteOff s) w2 Hpg eq_refl Hf Hc2 Hbs); lia|].
  intros [rc b] w3 (Hs3 & Hg3 & Hok3). pose proof (step_trans _ _ _ _ _ _ Hs12 Hs3) as Hs123.
  destruct (Z.eqb_spec rc SQLITE_OK) as [->|Hrc]; cbn [negb].
  2:{ apply runs_ret. split; [eapply step_mono; [exact Hs123|done|done]|]. split; [|done].
      intros Hgw. by apply Hg3, (step_good _ _ _ _ Hs12). }
  destruct (Hok3 eq_refl) as (Hbl & Hbb & Hh). apply runs_bind. set (p0 := set_iEof _ _).
  assert (reader p0 bs) as Hr0.
  { constructor; cbn [nBuffer iReadOff iEof pFile aAlloc nAlloc aBuffer p0 set_iEof set_aBuffer]; try done; [lia| |by exists b].
    exists (malloc_raw 128). split; [done|]. split; [done|lia]. }
  assert (length (sqlite3PutVarint v) = Z.to_nat (sqlite3VarintLen v)) as HlP by lia.
  unfold pma in Hsub at 2. fold v in Hsub. apply sub_prefix in Hsub as (H1 & H2 & _); [|lia].
  eapply runs_mono; [apply (varint_ok p0 bs v uninit w3 Hr0)|].
  - cbn. rewrite <- Hc2. by apply (step_contents _ _ _ _ Hs3).
  - lia.
  - cbn [iReadOff iEof p0 set_iEof set_aBuffer]. lia.
  - cbn [iReadOff p0 set_iEof set_aBuffer]. by rewrite <- HlP.
  - intros [[rc p1] x] w4 (Hs4 & Hg4 & Hok4). pose proof (step_trans _ _ _ _ _ _ Hs123 Hs4) as Hs1234.
    set (p2 := set_iEof p1 _). assert (iblocks p2 = iblocks p1) as Hb2 by done.
    assert (iblocks p0 = 2) as Hb0 by done.
    destruct (Z.eqb_spec rc SQLITE_OK) as [->|Hrc].
    2:{ apply runs_ret. split; [eapply step_mono; [exact Hs1234|done|lia]|]. split; [|done].
        intros Hgw. by apply Hg4, (step_good _ _ _ _ Hs123). }
    destruct (Hok4 eq_refl) as (-> & Hr1 & Ho1 & Hsame). pose proof Hsame as (HE & HK & HF & HA & HB). cbn [iReadOff iEof pFile p0 set_iEof set_aBuffer] in Ho1, HE, HF.
    assert (reader p2 bs) as Hr2 by (apply lower_eof; [done|lia]).
    apply runs_bind. eapply runs_mono; [apply (iter_next_ok p2 bs ks w4 Hr2)|].
    + cbn. rewrite HF, <- Hc. by apply (step_contents _ _ _ _ Hs1234).
    + rewrite <- H2. cbn [iReadOff iEof p2 set_iEof]. f_equal; lia.
    + done.
    + intros [rc p3] w5 (Hs5 & Hg5 & Hok5). apply runs_ret.
      split; [eapply step_mono; [exact (step_trans _ _ _ _ _ _ Hs1234 Hs5)|done|lia]|].
      split; [intros Hgw; by apply Hg5, (step_good _ _ _ _ Hs1234)|]. intros Hrc. destruct (Hok5 Hrc) as [Hrep Heof].
      cbn [pFile p2 set_iEof] in Hrep. rewrite HF in Hrep. split; [done|]. split; [rewrite (Heof Hne); cbn; lia|done].
Qed.

End Read.
