(* ===== verification/SorterWrite.v ===== *)
(** * The sorter: writing packed arrays

    What is given to a file writer ends up in the file, in order, after the
    position it started at; the writer's buffer is written in blocks and its
    rest at the end. *)

From S2P Require Import Prelude Varint Ints Mem Heap Serial Vfs Sorter SorterRead.

Section Write.
Context {V : Vfs} {U : Indeterminate} {VL : VfsLaws V}.

Lemma write_at_facts bs o d : (o <= length bs)%nat -> bytes_ok bs -> bytes_ok d ->
  sub (write_at bs o d) 0 (o + length d) = sub bs 0 o ++ d /\ (o + length d <= length (write_at bs o d))%nat /\
  bytes_ok (write_at bs o d).
Proof.
  intros Ho Hb Hd. unfold write_at. replace (o - length bs)%nat with 0%nat by lia. cbn [replicate app].
  assert (length (take o bs) = o) as Hl by (rewrite length_take; lia).
  split; [|split].
  - unfold sub. rewrite !drop_0, (assoc_L (++)). apply take_app_length'. rewrite length_app. lia.
  - rewrite !length_app. lia.
  - apply bytes_ok_app. split; [by apply Forall_take|]. apply bytes_ok_app. split; [done|by apply Forall_drop].
Qed.

Definition wblocks (p : FileWriter) : Z := bval (is_block p.(fw_aBuffer)).

(** The bytes [L] are in the file, up to those still in the buffer. *)
Record writer (p : FileWriter) (f : Z) (L bs : list Z) : Prop := {
  wr_file : p.(fw_pFile) = f /\ f <> 0;
  wr_pos : 0 <= p.(iBufStart) <= p.(iBufEnd) /\ p.(iBufEnd) <= p.(fw_nBuffer) /\ 0 <= p.(fw_iWriteOff);
  wr_len : Z.of_nat (length L) = p.(fw_iWriteOff) + p.(iBufEnd);
  wr_flushed : sub bs 0 (Z.to_nat (p.(fw_iWriteOff) + p.(iBufStart))) = sub L 0 (Z.to_nat (p.(fw_iWriteOff) + p.(iBufStart)));
  wr_file_len : p.(fw_iWriteOff) + p.(iBufStart) <= Z.of_nat (length bs);
  wr_bytes : bytes_ok L /\ bytes_ok bs;
  wr_buffer : exists b, p.(fw_aBuffer) = Some b /\ length b = Z.to_nat p.(fw_nBuffer) /\
    sub b (Z.to_nat p.(iBufStart)) (Z.to_nat (p.(iBufEnd) - p.(iBufStart))) =
      map Some (sub L (Z.to_nat (p.(fw_iWriteOff) + p.(iBufStart))) (Z.to_nat (p.(iBufEnd) - p.(iBufStart)))) }.

Definition wstate (p : FileWriter) (f : Z) (L : list Z) (w : world V) : Prop :=
  is_Some (contents w.(fs) f) /\ (p.(eFWErr) = 0 -> p.(iBufEnd) < p.(fw_nBuffer) /\ exists bs, contents w.(fs) f = Some bs /\ writer p f L bs).

(** Writing the filled part of the buffer completes the file. *)
Lemma flush_ok p f L bs b w : writer p f L bs -> contents w.(fs) f = Some bs -> p.(fw_aBuffer) = Some b ->
  p.(iBufStart) < p.(iBufEnd) ->
  runs (fileWriterFlush p b) w (fun rc w' => step [f] w w' 0 /\ is_Some (contents w'.(fs) f) /\ (good w -> rc = SQLITE_OK) /\
    (rc = SQLITE_OK -> exists bs', contents w'.(fs) f = Some bs' /\ sub bs' 0 (length L) = L /\
      (length L <= length bs')%nat /\ bytes_ok bs')).
Proof.
  intros [[Hf Hf0] Hpos HL Hfl Hbl [HbL Hbb] (b0 & Hb0 & Hlb & Hsub)] Hc Hb Hlt. rewrite Hb in Hb0. injection Hb0 as <-.
  unfold fileWriterFlush. set (o := fw_iWriteOff p + iBufStart p) in *. set (n := iBufEnd p - iBufStart p) in *.
  assert (length (sub L (Z.to_nat o) (Z.to_nat n)) = Z.to_nat n) as Hn by (apply sub_length; lia).
  apply runs_bind, (runs_must _ (sub L (Z.to_nat o) (Z.to_nat n))); [apply load_bytes; [lia..|done]|].
  rewrite Hf. eapply runs_write; [exact Hc|done|lia|by intros E; rewrite E in Hn; cbn in Hn; lia|].
  intros rc w' Hs His Hok Hg. split; [done|]. split; [done|]. split; [done|]. intros Hrc. eexists. split; [by apply Hok|].
  destruct (write_at_facts bs (Z.to_nat o) (sub L (Z.to_nat o) (Z.to_nat n)) ltac:(lia) Hbb ltac:(by apply sub_bytes)) as (H1 & H2 & H3).
  rewrite Hn in H1, H2. assert (Z.to_nat o + Z.to_nat n = length L)%nat as E by lia. rewrite E in H1, H2.
  split; [|by split]. rewrite H1, Hfl, <- (sub_add L 0), E. by apply sub_all.
Qed.

Lemma write_loop_ok f : forall fuel p (data L : list Z) w, (length data < fuel)%nat -> bytes_ok data -> wstate p f L w ->
  runs (write_loop fuel p data) w (fun p' w' => step [f] w w' 0 /\ wblocks p' = wblocks p /\
    (good w -> p.(eFWErr) = 0 -> p'.(eFWErr) = 0) /\ wstate p' f (L ++ data) w').
Proof.
  induction fuel as [|fuel IH]; intros p data L w Hfuel Hd [His Hw]; [lia|]. cbn [write_loop].
  destruct (Z.ltb_spec 0 (Z.of_nat (length data))) as [Hpos|Hz]; cbn [andb].
  2:{ destruct data; [|cbn in Hz; lia]. rewrite app_nil_r. apply runs_ret. split; [apply step_refl|]. split; [done|]. split; [done|]. by split. }
  destruct (Z.eqb_spec (eFWErr p) 0) as [E0|E0].
  2:{ apply runs_ret. split; [apply step_refl|]. split; [done|]. split; [done|]. by split. }
  destruct (Hw E0) as (Hend & bs & Hc & Hwr). clear Hw. pose proof Hwr as [[Hf Hf0] Hp HL Hfl Hbl [HbL Hbb] (b & Hb & Hlb & Hsub)].
  set (nCopy := if _ >? _ then _ else _).
  assert (nCopy = Z.min (Z.of_nat (length data)) (fw_nBuffer p - iBufEnd p)) as HnC by (unfold nCopy; zcase; lia).
  apply runs_bind, (runs_must _ b); [done|]. set (d1 := take (Z.to_nat nCopy) data).
  assert (length d1 = Z.to_nat nCopy) as Hd1 by (unfold d1; rewrite length_take; lia).
  destruct (blit_in b (iBufEnd p) (map Some d1)) as [b' Hb']; [lia|rewrite length_map; lia|].
  apply runs_bind, (runs_must _ b'); [done|]. destruct (blit_facts _ _ _ _ Hb') as (Hlb' & Hpre & Hnew & _ & _).
  rewrite length_map in Hnew. set (p1 := set_writer _ _ _ _ _ _).
  assert (forall nb', sub b' (Z.to_nat (iBufStart p)) (Z.to_nat (iBufEnd p + nCopy - iBufStart p)) = nb' ->
    nb' = map Some (sub (L ++ d1) (Z.to_nat (fw_iWriteOff p + iBufStart p)) (Z.to_nat (iBufEnd p + nCopy - iBufStart p)))) as Hbuf.
  { intros nb' <-. replace (Z.to_nat (iBufEnd p + nCopy - iBufStart p)) with (Z.to_nat (iBufEnd p - iBufStart p) + length d1)%nat by lia.
    rewrite !sub_add, map_app. f_equal.
    - rewrite (sub_app_l L) by lia. rewrite <- Hsub.
      apply (f_equal (fun l => sub l (Z.to_nat (iBufStart p)) (Z.to_nat (iBufEnd p - iBufStart p)))) in Hpre.
      rewrite !sub_sub in Hpre by lia. exact Hpre.
    - rewrite sub_app_r by lia.
      replace (Z.to_nat (fw_iWriteOff p + iBufStart p) + Z.to_nat (iBufEnd p - iBufStart p) - length L)%nat with 0%nat by lia.
      rewrite (sub_all d1) by done. rewrite <- Hnew. f_equal. lia. }
  specialize (Hbuf _ eq_refl).
  assert (bytes_ok (L ++ d1)) as HbL1 by (apply bytes_ok_app; split; [done|by apply Forall_take]).
  assert (L ++ data = (L ++ d1) ++ drop (Z.to_nat nCopy) data) as HLd by (unfold d1; by rewrite <- (assoc_L (++)), take_drop).
  assert (sub bs 0 (Z.to_nat (fw_iWriteOff p + iBufStart p)) = sub (L ++ d1) 0 (Z.to_nat (fw_iWriteOff p + iBufStart p))) as Hfl1
    by (rewrite sub_app_l by lia; exact Hfl).
  apply runs_bind. cbn [iBufEnd fw_nBuffer p1 set_writer].
  destruct (Z.eqb_spec (iBufEnd p + nCopy) (fw_nBuffer p)) as [Efull|Enot].
  - assert (writer p1 f (L ++ d1) bs) as Hw1.
    { constructor; cbn [fw_pFile iBufStart iBufEnd fw_nBuffer fw_iWriteOff fw_aBuffer p1 set_writer]; try done; [lia| |].
      - rewrite length_app. lia.
      - exists b'. split; [done|]. split; [lia|done]. }
    apply runs_bind. eapply runs_mono; [apply (flush_ok p1 f (L ++ d1) bs b' w Hw1 Hc eq_refl); cbn; lia|].
    intros rc w1 (Hs1 & His1 & Hg1 & Hok1). apply runs_ret. apply runs_bind, runs_ensure; [apply Z.ltb_lt; cbn; lia|].
    set (p2 := set_writer _ _ _ _ _ _).
    eapply runs_mono; [apply (IH p2 (drop (Z.to_nat nCopy) data) (L ++ d1) w1)|].
    + rewrite length_drop. lia.
    + by apply Forall_drop.
    + split; [done|]. intros E2. cbn in E2. subst rc. destruct (Hok1 eq_refl) as (bs' & Hc' & Hpre' & Hl' & Hb'').
      split; [cbn; lia|]. exists bs'. split; [done|].
      assert (Z.to_nat (fw_iWriteOff p + fw_nBuffer p) = length (L ++ d1)) as HLE by (rewrite length_app; lia).
      constructor; cbn [fw_pFile iBufStart iBufEnd fw_nBuffer fw_iWriteOff fw_aBuffer p1 p2 set_writer]; rewrite ?Z.add_0_r, ?HLE; try done; [lia|lia| |lia|].
      * rewrite Hpre'. symmetry. by apply sub_all.
      * exists b'. split; [done|]. split; [lia|done].
    + intros p3 w3 (Hs3 & Hb3 & Hg3 & Hw3). split; [eapply step_mono; [exact (step_trans _ _ _ _ _ _ Hs1 Hs3)|done|lia]|].
      split; [rewrite Hb3; unfold wblocks; cbn; by rewrite Hb|]. rewrite HLd. split; [|done]. intros Hgw _. apply Hg3; [by apply (step_good _ _ _ _ Hs1)|].
      cbn. by apply Hg1.
  - apply runs_ret. apply runs_bind, runs_ensure; [apply Z.ltb_lt; cbn; lia|].
    eapply runs_mono; [apply (IH p1 (drop (Z.to_nat nCopy) data) (L ++ d1) w)|].
    + rewrite length_drop. lia.
    + by apply Forall_drop.
    + split; [done|]. intros _. split; [cbn; lia|]. exists bs. split; [done|].
      constructor; cbn [fw_pFile iBufStart iBufEnd fw_nBuffer fw_iWriteOff fw_aBuffer p1 set_writer]; try done; [lia| |].
      * rewrite length_app. lia.
      * exists b'. split; [done|]. split; [lia|done].
    + intros p3 w3 (Hs3 & Hb3 & Hg3 & Hw3). split; [done|]. split; [rewrite Hb3; unfold wblocks; cbn; by rewrite Hb|].
      rewrite HLd. split; [|done]. intros Hgw HE. by apply Hg3.
Qed.

Lemma write_ok p f data L w : bytes_ok data -> wstate p f L w ->
  runs (fileWriterWrite p data) w (fun p' w' => step [f] w w' 0 /\ wblocks p' = wblocks p /\
    (good w -> p.(eFWErr) = 0 -> p'.(eFWErr) = 0) /\ wstate p' f (L ++ data) w').
Proof. intros Hd Hw. apply write_loop_ok; [lia|done|done]. Qed.

Lemma writer_init_ok pgsz f bs iStart w : 0 < pgsz -> f <> 0 -> contents w.(fs) f = Some bs -> bytes_ok bs ->
  0 <= iStart <= Z.of_nat (length bs) ->
  runs (fileWriterInit pgsz f iStart) w (fun p w' => step [f] w w' (wblocks p) /\ (good w -> p.(eFWErr) = 0) /\
    wstate p f (sub bs 0 (Z.to_nat iStart)) w').
Proof.
  intros Hpg Hf Hc Hb Hst. unfold fileWriterInit. apply runs_bind, runs_db_alloc. intros ok w1 Hs Hg _ _.
  pose proof (step_contents _ _ _ f Hs) as Hc1. rewrite Hc in Hc1.
  assert (step [f] w w1 (if ok then 1 else 0)) as Hs' by (eapply step_mono; [exact Hs|intros g Hg0; by apply elem_of_nil in Hg0|done]).
  destruct ok; cbn [negb].
  - apply runs_bind, runs_ensure; [by rewrite (proj2 (Z.eqb_neq pgsz 0)) by lia|]. apply runs_ret.
    pose proof (Z.rem_bound_pos iStart pgsz ltac:(lia) ltac:(lia)) as Hr. pose proof (Z.rem_le iStart pgsz ltac:(lia) ltac:(lia)).
    split; [exact Hs'|]. split; [done|]. split; [by eexists|]. intros _. split; [cbn; lia|]. exists bs. split; [done|].
    constructor; cbn [fw_pFile iBufStart iBufEnd fw_nBuffer fw_iWriteOff fw_aBuffer]; try done; [lia| | |lia|by split; [apply sub_bytes|]|].
    + rewrite sub_length by lia. lia.
    + rewrite sub_sub by lia. done.
    + eexists. split; [done|]. rewrite Z.sub_diag. split; [unfold malloc_raw; by rewrite length_replicate|done].
  - apply runs_ret. split; [exact Hs'|]. split; [by intros ?%Hg|]. split; [by eexists|done].
Qed.

Lemma writer_finish_ok p f L w : wstate p f L w ->
  runs (fileWriterFinish p) w (fun '(rc, eof) w' => step [f] w w' (- wblocks p) /\ is_Some (contents w'.(fs) f) /\
    (good w -> p.(eFWErr) = 0 -> rc = SQLITE_OK) /\
    (rc = SQLITE_OK -> eof = Z.of_nat (length L) /\ exists bs, contents w'.(fs) f = Some bs /\ sub bs 0 (length L) = L /\
      (length L <= length bs)%nat /\ bytes_ok bs)).
Proof.
  intros [His Hw]. unfold fileWriterFinish. apply runs_bind.
  assert (forall rc w1, step [f] w w1 0 -> is_Some (contents w1.(fs) f) -> (good w -> p.(eFWErr) = 0 -> rc = SQLITE_OK) ->
    (rc = SQLITE_OK -> p.(fw_iWriteOff) + p.(iBufEnd) = Z.of_nat (length L) /\ exists bs, contents w1.(fs) f = Some bs /\
      sub bs 0 (length L) = L /\ (length L <= length bs)%nat /\ bytes_ok bs) ->
    runs (_ ← dbfree (is_block p.(fw_aBuffer)); mret (rc, p.(fw_iWriteOff) + p.(iBufEnd))) w1
      (fun '(rc, eof) w' => step [f] w w' (- wblocks p) /\ is_Some (contents w'.(fs) f) /\
        (good w -> p.(eFWErr) = 0 -> rc = SQLITE_OK) /\
        (rc = SQLITE_OK -> eof = Z.of_nat (length L) /\ exists bs, contents w'.(fs) f = Some bs /\ sub bs 0 (length L) = L /\
          (length L <= length bs)%nat /\ bytes_ok bs))) as Hend.
  { intros rc w1 Hs1 His1 Hg1 Hok1. apply runs_bind, runs_dbfree. intros w2 Hs2. apply runs_ret.
    pose proof (step_contents _ _ _ f Hs2) as Hc2. rewrite Hc2.
    split; [|split; [done|split; [done|done]]].
    eapply step_mono; [eapply step_trans; [exact Hs1|eapply step_mono; [exact Hs2|intros g Hg0; by apply elem_of_nil in Hg0|done]]|done|].
    unfold wblocks. by destruct (is_block _). }
  destruct (Z.eqb_spec (eFWErr p) 0) as [E0|E0].
  2:{ destruct (fw_aBuffer p) as [b|] eqn:Hb; cbn [andb]; apply runs_ret; rewrite ?Hb in Hend;
        (apply Hend; [apply step_refl|done|done|by intros ?%E0]). }
  destruct (Hw E0) as (Hlt & bs & Hc & Hwr). pose proof Hwr as [[Hf Hf0] Hp HL Hfl Hbl [HbL Hbb] (b & Hb & Hlb & Hsub)].
  rewrite Hb in *. rewrite Z.gtb_ltb. cbn [andb]. destruct (Z.ltb_spec (iBufStart p) (iBufEnd p)) as [Hne|He].
  - eapply runs_mono; [apply (flush_ok p f L bs b w Hwr Hc Hb Hne)|]. intros rc w1 (Hs1 & His1 & Hg1 & Hok1).
    apply Hend; [done|done|intros; by apply Hg1|]. intros Hrc. split; [done|by apply Hok1].
  - apply runs_ret. apply Hend; [apply step_refl|done|done|]. intros _. split; [done|]. exists bs. split; [done|].
    assert (Z.to_nat (fw_iWriteOff p + iBufStart p) = length L) as E by lia. rewrite E in Hfl.
    split; [rewrite Hfl; by apply sub_all|]. split; [lia|done].
Qed.

Lemma write_varint_ok p f v L w : 0 <= v < 2 ^ 56 -> wstate p f L w ->
  runs (fileWriterWriteVarint p v) w (fun p' w' => step [f] w w' 0 /\ wblocks p' = wblocks p /\
    (good w -> p.(eFWErr) = 0 -> p'.(eFWErr) = 0) /\ wstate p' f (L ++ sqlite3PutVarint v) w').
Proof.
  intros Hv Hw. unfold fileWriterWriteVarint. rewrite wrap_u_small by (unfold in_u; lia).
  apply write_ok; [|done]. by apply varint_bytes.
Qed.

End Write.
