(* ===== verification/SorterState.v ===== *)
(** * The sorter: what it owns

    The blocks and the temporary files of a sorter, counted from the world [w0]
    in which it was opened ([held]), through every operation, successful or
    not; closing gives all of them back. *)

From S2P Require Import Prelude Varint Ints Mem Heap Serial Vfs Sorter SorterRead.

Section State.
Context {V : Vfs} {U : Indeterminate} {VL : VfsLaws V}.

Definition iters_blocks (its : list VdbeSorterIter) : Z := foldr (fun p a => iblocks p + a) 0 its.

Lemma iters_blocks_insert its i p p' : its !! i = Some p ->
  iters_blocks (<[i := p']> its) = iters_blocks its + iblocks p' - iblocks p.
Proof.
  revert i. induction its as [|x its IH]; intros [|i] H; try done.
  - injection H as ->. change (<[0%nat := p']> (p :: its)) with (p' :: its). cbn. lia.
  - change (<[S i := p']> (x :: its)) with (x :: <[i := p']> its). specialize (IH i H). unfold iters_blocks in *. cbn [foldr]. lia.
Qed.

Lemma iters_blocks_zero n : iters_blocks (replicate n zero_iter) = 0.
Proof. induction n as [|n IH]; [done|]. unfold iters_blocks in *. cbn [replicate foldr]. by rewrite IH. Qed.

(** The blocks of a sorter, its files apart. *)
Definition owned (s : VdbeSorter) : Z :=
  1 + Z.of_nat (length s.(pRecord)) + bval (is_block s.(pUnpacked)) +
  match s.(aIter) with Some its => 1 + iters_blocks its | None => 0 end.

(** The iterators and the tree, if there are any, are [nTree] each. *)
Definition shape (s : VdbeSorter) : Prop :=
  match s.(aIter) with
  | None => s.(aTree) = None
  | Some its => exists t a, s.(aTree) = Some t /\ s.(nTree) = Z.of_nat (length its) /\ length t = length its /\
      t !! 1%nat = Some (Z.of_nat a) /\ (a < length its)%nat
  end.

Definition temps (f : Z) : list Z := if f =? 0 then [] else [f].

(** The sorter [s], the open files [fl] and [d] more blocks are all there is in
    [w] besides [w0]. *)
Record held (w0 : world V) (s : VdbeSorter) (fl : list Z) (d : Z) (w : world V) : Prop := {
  hd_step : step fl w0 w (owned s + Z.of_nat (length fl) + d);
  hd_files : forall f, f ∈ fl -> f <> 0 /\ contents w0.(fs) f = None /\ is_Some (contents w.(fs) f);
  hd_nodup : NoDup fl;
  hd_shape : shape s }.

Lemma held_good w0 s fl d w : held w0 s fl d w -> good w0 -> good w.
Proof. intros [H _ _ _]. by eapply step_good. Qed.

(** A step of the sorter on files it has. *)
Lemma held_step w0 s s' fl l d d' w w' e : held w0 s fl d w -> step l w w' e -> (forall f, f ∈ l -> f ∈ fl) ->
  (forall f, f ∈ l -> is_Some (contents w'.(fs) f)) -> owned s' + d' = owned s + d + e -> shape s' -> held w0 s' fl d' w'.
Proof.
  intros [Hs Hf Hn _] Hst Hl Hc He Hsh. constructor; [|intros f Hin|done|done].
  - eapply step_mono; [eapply step_trans; [exact Hs|eapply step_mono; [exact Hst|exact Hl|done]]|done|lia].
  - destruct (Hf f Hin) as (H1 & H2 & H3). split; [done|]. split; [done|].
    destruct (decide (f ∈ l)) as [Hi|Hi]; [by apply Hc|]. destruct Hst as (Hsame & _). by rewrite Hsame.
Qed.

Lemma held_step0 w0 s s' fl d d' w w' e : held w0 s fl d w -> step [] w w' e ->
  owned s' + d' = owned s + d + e -> shape s' -> held w0 s' fl d' w'.
Proof. intros H Hs He Hsh. eapply held_step; [exact H|exact Hs| | |done|done]; intros f Hf; by apply elem_of_nil in Hf. Qed.

Lemma held_same w0 s s' fl d d' w : held w0 s fl d w -> owned s' + d' = owned s + d -> shape s' -> held w0 s' fl d' w.
Proof. intros H He Hsh. eapply held_step0; [exact H|apply step_refl|lia|done]. Qed.

Lemma held_perm w0 s fl fl' d w : fl ≡ₚ fl' -> held w0 s fl d w -> held w0 s fl' d w.
Proof.
  intros HP [Hs Hf Hn Hsh]. constructor; [|intros f Hin; apply Hf; by rewrite HP|by rewrite <- HP|done].
  eapply step_mono; [exact Hs|intros g Hg; by rewrite <- HP|by rewrite HP].
Qed.

Lemma held_open w0 s fl d w w' f : held w0 s fl d w -> step [f] w w' 1 -> f <> 0 -> contents w.(fs) f = None ->
  is_Some (contents w'.(fs) f) -> held w0 s (f :: fl) d w'.
Proof.
  intros [Hs Hf Hn Hsh] Hst Hf0 Hnone Hsome. assert (~ f ∈ fl) as Hnew by (intros Hi; destruct (Hf f Hi) as (_ & _ & [x Hx]); congruence).
  constructor; [| |by constructor|done].
  - eapply step_mono; [eapply step_trans; [eapply step_mono; [exact Hs| |reflexivity]|eapply step_mono; [exact Hst| |reflexivity]]|done|].
    + intros g Hg. by right.
    + intros g Hg. apply list_elem_of_singleton in Hg as ->. left.
    + cbn [length]. lia.
  - intros g [->|Hg]%elem_of_cons.
    + split; [done|]. split; [|done]. destruct Hs as (Hsame & _). by rewrite <- Hsame.
    + destruct (Hf g Hg) as (H1 & H2 & H3). split; [done|]. split; [done|]. destruct Hst as (Hsame & _).
      rewrite Hsame; [done|]. intros E%list_elem_of_singleton. by subst.
Qed.

Lemma held_close w0 s fl d w w' f : held w0 s (f :: fl) d w -> step [f] w w' (-1) -> contents w'.(fs) f = None ->
  held w0 s fl d w'.
Proof.
  intros [Hs Hf Hn Hsh] Hst Hnone. apply NoDup_cons in Hn as [Hnew Hn]. destruct (Hf f ltac:(left)) as (_ & H0 & _).
  destruct Hs as (Hsame & Hlive & Hg), Hst as (Hsame' & Hlive' & Hg'). constructor; [| |done|done].
  - split; [|split].
    + intros g Hin. destruct (decide (g = f)) as [->|Hne]; [by rewrite Hnone|].
      rewrite Hsame' by (by intros ?%list_elem_of_singleton). apply Hsame. intros [?|?]%elem_of_cons; done.
    + rewrite Hlive', Hlive. cbn [length]. lia.
    + intros H. by apply Hg', Hg.
  - intros g Hg0. destruct (Hf g ltac:(by right)) as (H1 & H2 & H3). split; [done|]. split; [done|].
    rewrite Hsame'; [done|]. intros E%list_elem_of_singleton. by subst.
Qed.

(** ** Closing *)

Lemma record_free_ok l : forall w, runs (vdbeSorterRecordFree l) w (fun _ w' => step [] w w' (- Z.of_nat (length l))).
Proof.
  induction l as [|r l IH]; intros w; cbn [vdbeSorterRecordFree]; [apply runs_ret, step_refl|].
  apply runs_bind, runs_dbfree. intros w1 Hs1. eapply runs_mono; [apply IH|]. intros x w2 Hs2.
  eapply step_mono; [exact (step_trans _ _ _ _ _ _ Hs1 Hs2)|done|cbn [length]; lia].
Qed.

Lemma zero_iters_ok its : forall w, runs (zero_iters its) w (fun _ w' => step [] w w' (- iters_blocks its)).
Proof.
  induction its as [|p its IH]; intros w; cbn [zero_iters]; [apply runs_ret, step_refl|].
  apply runs_bind. eapply runs_mono; [apply iter_zero_ok|]. intros p' w1 [_ Hs1].
  eapply runs_mono; [apply IH|]. intros x w2 Hs2.
  eapply step_mono; [exact (step_trans _ _ _ _ _ _ Hs1 Hs2)|done|unfold iters_blocks; cbn [foldr]; lia].
Qed.

(** Closing gives back everything. *)
Lemma close_ok w0 s w : held w0 s (temps s.(pTemp1)) 0 w ->
  runs (sqlite3VdbeSorterClose (Some s)) w (fun _ w' => step [] w0 w' 0).
Proof.
  intros Hh. pose proof (hd_shape _ _ _ _ _ Hh) as Hsh. unfold sqlite3VdbeSorterClose.
  set (s1 := set_tree s None None 0).
  apply runs_bind. apply (runs_mono _ _ (fun _ w' => held w0 s1 (temps s.(pTemp1)) 0 w')).
  { unfold shape in Hsh. destruct (aIter s) as [its|] eqn:Hi.
    - destruct Hsh as (t & a & _ & HN & _). apply runs_bind, runs_ensure; [apply Z.leb_le; lia|].
      rewrite HN, Nat2Z.id, firstn_all. apply runs_bind. eapply runs_mono; [apply zero_iters_ok|]. intros x1 w1 Hs1.
      apply runs_dbfree. intros w2 Hs2. eapply held_step0; [exact Hh|exact (step_trans _ _ _ _ _ _ Hs1 Hs2)| |done].
      unfold owned. cbn [pRecord pUnpacked aIter s1 set_tree]. rewrite Hi. lia.
    - apply runs_ret. eapply held_same; [exact Hh| |done]. unfold owned. cbn [pRecord pUnpacked aIter s1 set_tree]. by rewrite Hi. }
  clear Hh Hsh. intros _ w1 Hh. apply runs_bind. apply (runs_mono _ _ (fun _ w' => held w0 s1 [] 0 w')).
  { unfold temps in Hh. destruct (Z.eqb_spec (pTemp1 s) 0) as [E|E]; cbn [negb]; [by apply runs_ret|].
    destruct (hd_files _ _ _ _ _ Hh (pTemp1 s) ltac:(left)) as (_ & _ & His). apply (runs_close _ _ _ E His).
    intros rc w2 Hs Hn. by eapply held_close. }
  clear Hh. intros _ w2 [Hs _ _ _]. apply runs_bind. eapply runs_mono; [apply record_free_ok|]. intros x3 w3 Hs3.
  apply runs_bind, runs_dbfree. intros w4 Hs4. apply runs_dbfree. intros w5 Hs5.
  eapply step_mono; [exact (step_trans _ _ _ _ _ _ Hs (step_trans _ _ _ _ _ _ Hs3 (step_trans _ _ _ _ _ _ Hs4 Hs5)))|done|].
  unfold owned. cbn [pRecord pUnpacked aIter s1 set_tree length]. unfold bval. destruct (is_block (pUnpacked s)); lia.
Qed.

(** ** Opening *)

Lemma init_state_ok ki pgsz tmp cache w :
  is_Some (sqlite3VdbeAllocUnpackedRecord 48 64 0 false ki 0) ->
  runs (sqlite3VdbeSorterInit ki pgsz tmp cache) w (fun '(rc, so) w' => (good w -> rc = SQLITE_OK) /\
    match so with
    | None => rc <> SQLITE_OK /\ step [] w w' 0
    | Some s => held w s (temps s.(pTemp1)) 0 w' /\
        (rc = SQLITE_OK -> exists b r2, sqlite3VdbeAllocUnpackedRecord 48 64 0 false ki 0 = Some (b, r2) /\
          let mn := if tmp then 0 else i32 (SORTER_MIN_WORKING * pgsz) in
          let mx := if tmp then 0 else i32 ((if cache <? SORTER_MIN_WORKING then SORTER_MIN_WORKING else cache) * pgsz) in
          s = mkSorter 0 0 0 0 0 mn mx None None 0 [] (Some r2))
    end).
Proof.
  intros [[b r2] Hup]. unfold sqlite3VdbeSorterInit. apply runs_bind, runs_db_alloc. intros [] w1 Hs1 Hg1 _ _; cbn [negb].
  2:{ apply runs_ret. split; [by intros ?%Hg1|]. done. }
  apply runs_bind, runs_db_alloc. intros ok w2 Hs2 Hg2 _ _. rewrite Hup.
  assert (forall s, owned s = 1 + bval ok -> aIter s = None -> aTree s = None -> pTemp1 s = 0 -> held w s (temps s.(pTemp1)) 0 w2) as Hheld.
  { intros s Ho Hi Ht Hf. unfold temps. rewrite Hf. cbn. constructor; [|intros f Hin; by apply elem_of_nil in Hin|constructor|by unfold shape; rewrite Hi].
    eapply step_mono; [exact (step_trans _ _ _ _ _ _ Hs1 Hs2)|done|]. rewrite Ho. unfold bval. destruct ok; cbn; lia. }
  destruct ok; cbn [fmap option_fmap option_map snd is_block negb].
  - destruct tmp; cbn [negb]; apply runs_ret; (split; [done|]; split; [by apply Hheld|]; intros _; by exists b, r2).
  - apply runs_ret. split; [by intros ?%(step_good _ _ _ _ Hs1)%Hg2|]. split; [by apply Hheld|done].
Qed.

End State.
