(* ===== verification/SorterList.v ===== *)
(** * The sorter: the order of keys and sorting the list

    What the sorter needs of the comparison of records is the class
    [KeyOrder]; with it the merge sort of the in-memory list sorts. *)

From Stdlib Require Import Sorted.
From S2P Require Import Prelude Varint Ints Mem Heap Serial Vfs Sorter.

(** The keys of a sorter with key information [ki]: which are well formed, the
    result of comparing one with another, the order that result follows, which
    records the sorter unpacks into ([up_ok]) and when such a record holds a
    key.  The result need not be antisymmetric: a key with columns behind those
    that are compared is above one whose compared columns are the same. *)
Class KeyOrder (oom : bool) (ki : KeyInfo) := {
  valid_key : list Z -> Prop;
  key_cmp : list Z -> list Z -> Z;
  key_le : list Z -> list Z -> Prop;
  up_ok : UnpackedRecord -> Prop;
  up_holds : UnpackedRecord -> list Z -> Prop;
  start_law : forall b r2, sqlite3VdbeAllocUnpackedRecord 48 64 0 false ki 0 = Some (b, r2) -> up_ok r2;
  unpack_law : forall r2 k, up_ok r2 -> valid_key k ->
    exists r2', sqlite3VdbeRecordUnpack ki (Z.of_nat (length k)) k r2 = Some r2' /\ up_ok r2' /\ up_holds r2' k;
  compare_law : forall r2 a b, up_ok r2 -> up_holds r2 b -> valid_key a -> valid_key b ->
    exists fl ro, sqlite3VdbeRecordCompare oom (Z.of_nat (length a)) a r2 = Some (key_cmp a b, (fl, ro)) /\
      up_ok (set_up r2 r2.(up_nField) fl ro) /\ up_holds (set_up r2 r2.(up_nField) fl ro) b;
  cmp_le : forall a b, valid_key a -> valid_key b -> key_cmp a b <= 0 -> key_le a b;
  cmp_gt : forall a b, valid_key a -> valid_key b -> 0 < key_cmp a b -> key_le b a;
  le_refl : forall a, valid_key a -> key_le a a;
  le_trans : forall a b c, valid_key a -> valid_key b -> valid_key c -> key_le a b -> key_le b c -> key_le a c }.

Section List.
Context {oom : bool} {ki : KeyInfo} {KO : KeyOrder oom ki}.

Definition sorted_keys (l : list (list Z)) : Prop := StronglySorted key_le l.

Lemma compare_fresh r2 a b : up_ok r2 -> valid_key a -> valid_key b ->
  exists r2', vdbeSorterCompare oom ki r2 false (Z.of_nat (length a)) a (Some (Z.of_nat (length b), b)) = Some (key_cmp a b, r2') /\
    up_ok r2' /\ up_holds r2' b.
Proof.
  intros Hr Ha Hb. unfold vdbeSorterCompare. destruct (unpack_law r2 b Hr Hb) as (r3 & -> & Hr3 & Hh3). cbn [mbind option_bind].
  destruct (compare_law r3 a b Hr3 Hh3 Ha Hb) as (fl & ro & -> & H4 & H5). cbn [mbind option_bind]. by eexists.
Qed.

Lemma compare_held r2 a b : up_ok r2 -> up_holds r2 b -> valid_key a -> valid_key b ->
  exists r2', vdbeSorterCompare oom ki r2 false (Z.of_nat (length a)) a None = Some (key_cmp a b, r2') /\
    up_ok r2' /\ up_holds r2' b.
Proof.
  intros Hr Hh Ha Hb. unfold vdbeSorterCompare. cbn [mbind option_bind].
  destruct (compare_law r2 a b Hr Hh Ha Hb) as (fl & ro & -> & H4 & H5). cbn [mbind option_bind]. by eexists.
Qed.

Definition record_ok (r : SorterRecord) : Prop := r.(nVal) = Z.of_nat (length r.(pVal)) /\ valid_key r.(pVal).

Definition sorted_records (l : list SorterRecord) : Prop := sorted_keys (map pVal l).

Lemma keys_cons a l : Forall (key_le a) l -> sorted_keys l -> sorted_keys (a :: l).
Proof. intros H1 H2. by constructor. Qed.

Lemma all_le_perm a (l l' : list (list Z)) : l ≡ₚ l' -> Forall (key_le a) l -> Forall (key_le a) l'.
Proof. intros HP H. by rewrite <- HP. Qed.

(** What is below the head of a sorted list is below all of it. *)
Lemma le_sorted a b l : valid_key a -> Forall valid_key (b :: l) -> key_le a b -> sorted_keys (b :: l) -> Forall (key_le a) (b :: l).
Proof.
  intros Ha Hv Hab Hs. apply StronglySorted_inv in Hs as [_ Hb]. apply Forall_cons in Hv as [Hvb Hv].
  constructor; [done|]. rewrite Forall_forall in *. intros x Hx. eapply le_trans; [done|exact Hvb|by apply Hv|done|by apply Hb].
Qed.

Lemma merge_loop_sorted fuel : forall r2 fresh p1 p2, (length p1 + length p2 < fuel)%nat -> up_ok r2 ->
  (fresh = false -> match p2 with b :: _ => up_holds r2 b.(pVal) | [] => True end) ->
  Forall record_ok p1 -> Forall record_ok p2 -> sorted_records p1 -> sorted_records p2 ->
  exists l r2', vdbeSorterMerge oom ki fuel r2 fresh p1 p2 = Some (l, r2') /\ up_ok r2' /\ l ≡ₚ p1 ++ p2 /\ sorted_records l.
Proof.
  induction fuel as [|fuel IH]; intros r2 fresh p1 p2 Hf Hr Hfr H1 H2 Hs1 Hs2; [lia|]. cbn [vdbeSorterMerge].
  destruct p1 as [|a p1]; [by exists p2, r2|]. destruct p2 as [|b p2]; [exists (a :: p1), r2; by rewrite app_nil_r|].
  pose proof H1 as H1'. pose proof H2 as H2'. apply Forall_cons in H1' as [[Hna Ha] H1']. apply Forall_cons in H2' as [[Hnb Hb] H2'].
  assert (exists r3, vdbeSorterCompare oom ki r2 false (nVal a) (pVal a) (if fresh then Some (nVal b, pVal b) else None)
    = Some (key_cmp (pVal a) (pVal b), r3) /\ up_ok r3 /\ up_holds r3 (pVal b)) as (r3 & -> & Hr3 & Hh3).
  { rewrite Hna, Hnb. destruct fresh; [by apply compare_fresh|apply compare_held; try done; by apply Hfr]. }
  cbn [mbind option_bind]. cbn [length] in Hf.
  assert (forall l, Forall record_ok l -> Forall valid_key (map pVal l)) as Hv by (intros l Hl; apply Forall_map; eapply Forall_impl; [exact Hl|by intros r [_ ?]]).
  destruct (Z.leb_spec (key_cmp (pVal a) (pVal b)) 0) as [Hle|Hgt].
  - destruct (IH r3 false p1 (b :: p2)) as (l & r4 & -> & Hr4 & HP & Hs); try done; [cbn; lia|by apply StronglySorted_inv in Hs1 as [? _]|].
    cbn [mbind option_bind]. exists (a :: l), r4. split; [done|]. split; [done|]. split; [by rewrite HP|].
    apply keys_cons; [|done]. eapply (all_le_perm _ (map pVal (p1 ++ b :: p2))); [by rewrite HP|].
    rewrite map_app. apply Forall_app. apply StronglySorted_inv in Hs1 as [_ Hs1]. split; [done|].
    apply le_sorted; [done|by apply (Hv (b :: p2))|by apply cmp_le|done].
  - assert (key_le (pVal b) (pVal a)) as Hba by (apply cmp_gt; [done|done|lia]).
    assert (Forall (key_le (pVal b)) (map pVal (a :: p1))) as Hall by (apply le_sorted; [done|by apply (Hv (a :: p1))|done|done]).
    destruct p2 as [|b' p2].
    + exists (b :: a :: p1), r3. split; [done|]. split; [done|]. split; [|by apply keys_cons].
      change (a :: p1 ++ [b]) with ((a :: p1) ++ [b]). by rewrite (comm (++) (a :: p1)).
    + destruct (IH r3 true (a :: p1) (b' :: p2)) as (l & r4 & -> & Hr4 & HP & Hs); try done; [cbn in *; lia|by apply StronglySorted_inv in Hs2 as [? _]|].
      cbn [mbind option_bind]. exists (b :: l), r4. split; [done|]. split; [done|].
      split; [rewrite HP; apply Permutation_middle|].
      apply keys_cons; [|done]. eapply (all_le_perm _ (map pVal ((a :: p1) ++ b' :: p2))); [by rewrite HP|].
      rewrite map_app. apply Forall_app. split; [done|]. by apply StronglySorted_inv in Hs2 as [_ ?].
Qed.

Lemma merge_sorted r2 p1 p2 : up_ok r2 -> Forall record_ok p1 -> Forall record_ok p2 -> sorted_records p1 -> sorted_records p2 ->
  exists l r2', merge oom ki r2 p1 p2 = Some (l, r2') /\ up_ok r2' /\ l ≡ₚ p1 ++ p2 /\ sorted_records l.
Proof. intros. apply merge_loop_sorted; try done. lia. Qed.

(** A run of slots, the first for lists of length [2^i]. *)
Definition slots_ok (aSlot : list (list SorterRecord)) : Prop :=
  Forall (fun s => Forall record_ok s /\ sorted_records s) aSlot.

Fixpoint slots_sized (i : nat) (aSlot : list (list SorterRecord)) : Prop :=
  match aSlot with [] => True | s :: rest => (s = [] \/ length s = 2 ^ i)%nat /\ slots_sized (S i) rest end.

Lemma slot_add_ok : forall aSlot i r2 p, up_ok r2 -> Forall record_ok p -> sorted_records p -> slots_ok aSlot -> slots_sized i aSlot ->
  (length p = 2 ^ i)%nat -> (length (concat aSlot) + 2 ^ i < 2 ^ (i + length aSlot))%nat ->
  exists aSlot' r2', slot_add oom ki r2 p aSlot = Some (aSlot', r2') /\ up_ok r2' /\ slots_ok aSlot' /\ slots_sized i aSlot' /\
    concat aSlot' ≡ₚ p ++ concat aSlot /\ length aSlot' = length aSlot.
Proof.
  induction aSlot as [|s rest IH]; intros i r2 p Hr Hp Hsp Hs Hsz Hlen Hsum; cbn [slot_add].
  - rewrite Nat.add_0_r in Hsum. cbn in Hsum. lia.
  - apply Forall_cons in Hs as [[Hs1 Hs2] Hs]. destruct Hsz as [Hz Hsz]. cbn [length concat] in Hsum. rewrite length_app in Hsum.
    destruct s as [|a s].
    + exists (p :: rest), r2. split; [done|]. split; [done|]. split; [by constructor|]. split; [split; [by right|done]|]. done.
    + destruct Hz as [Hz|Hz]; [done|].
      destruct (merge_sorted r2 p (a :: s) Hr Hp Hs1 Hsp Hs2) as (l & r3 & -> & Hr3 & HP & Hsl). cbn [mbind option_bind].
      destruct (IH (S i) r3 l) as (rest' & r4 & -> & Hr4 & Hok & Hsz' & HPc & Hl'); try done.
      * rewrite HP. by apply Forall_app.
      * rewrite HP, length_app. cbn [Nat.pow]. lia.
      * replace (S i + length rest)%nat with (i + S (length rest))%nat by lia. cbn [Nat.pow]. lia.
      * cbn [mbind option_bind]. exists ([] :: rest'), r4. split; [done|]. split; [done|].
        split; [constructor; [split; [constructor|constructor]|done]|]. split; [split; [by left|done]|]. cbn [concat app length].
        split; [rewrite HPc, HP; by rewrite <- (assoc_L (++))|by rewrite Hl'].
Qed.

Lemma slot_all_ok : forall p aSlot r2, up_ok r2 -> Forall record_ok p -> slots_ok aSlot -> slots_sized 0 aSlot -> length aSlot = 64%nat ->
  Z.of_nat (length (concat aSlot) + length p) < 2 ^ 63 ->
  exists aSlot' r2', slot_all oom ki r2 p aSlot = Some (aSlot', r2') /\ up_ok r2' /\ slots_ok aSlot' /\ concat aSlot' ≡ₚ p ++ concat aSlot.
Proof.
  induction p as [|a p IH]; intros aSlot r2 Hr Hp Hs Hsz Hl Hsum; cbn [slot_all]; [by exists aSlot, r2|].
  apply Forall_cons in Hp as [Ha Hp]. cbn [length] in Hsum.
  destruct (slot_add_ok aSlot 0 r2 [a]) as (aSlot1 & r3 & -> & Hr3 & Hs1 & Hsz1 & HP1 & Hl1); try done; [by constructor| | |].
  - repeat constructor.
  - rewrite Hl. change (0 + 64)%nat with 64%nat. assert (Z.of_nat (2 ^ 64) = 2 ^ 64) as E by (rewrite Nat2Z.inj_pow; done).
    apply Nat2Z.inj_lt. rewrite E. change (2 ^ 0)%nat with 1%nat. lia.
  - cbn [mbind option_bind]. destruct (IH aSlot1 r3) as (aSlot2 & r4 & Hrun & Hr4 & Hs2 & HP2); try done; [lia| |].
    + rewrite HP1, length_app. cbn [length]. lia.
    + exists aSlot2, r4. split; [done|]. split; [done|]. split; [done|].
      rewrite HP2, HP1. cbn [app]. by rewrite <- Permutation_middle.
Qed.

Lemma slot_merge_ok : forall aSlot r2 p, up_ok r2 -> Forall record_ok p -> sorted_records p -> slots_ok aSlot ->
  exists l r2', slot_merge oom ki r2 p aSlot = Some (l, r2') /\ up_ok r2' /\ sorted_records l /\ l ≡ₚ p ++ concat aSlot.
Proof.
  induction aSlot as [|s rest IH]; intros r2 p Hr Hp Hsp Hs; cbn [slot_merge]; [exists p, r2; by rewrite app_nil_r|].
  apply Forall_cons in Hs as [[Hs1 Hs2] Hs].
  destruct (merge_sorted r2 p s Hr Hp Hs1 Hsp Hs2) as (l & r3 & -> & Hr3 & HP & Hsl). cbn [mbind option_bind].
  destruct (IH r3 l) as (l' & r4 & Hrun & Hr4 & Hsl' & HP'); try done; [rewrite HP; by apply Forall_app|].
  exists l', r4. split; [done|]. split; [done|]. split; [done|]. rewrite HP', HP. cbn [concat]. by rewrite <- (assoc_L (++)).
Qed.

Lemma sort_list_ok r2 l : up_ok r2 -> Forall record_ok l -> Z.of_nat (length l) < 2 ^ 63 ->
  exists l' r2', sort_list oom ki r2 l = Some (l', r2') /\ up_ok r2' /\ sorted_records l' /\ l' ≡ₚ l.
Proof.
  intros Hr Hl Hlen. unfold sort_list.
  assert (forall n i, slots_sized i (replicate n [])) as Hsz by (induction n; intros; cbn; [done|by split; [left|]]).
  assert (forall n, concat (replicate n (@nil SorterRecord)) = []) as Hc by (induction n; [done|cbn; done]).
  destruct (slot_all_ok l (replicate 64 []) r2) as (aSlot & r3 & -> & Hr3 & Hs & HP); try done.
  - apply Forall_replicate. split; constructor.
  - cbn [mbind option_bind]. destruct (slot_merge_ok aSlot r3 [] Hr3 ltac:(constructor) ltac:(constructor) Hs) as (l' & r4 & -> & Hr4 & Hsl & HP').
    exists l', r4. split; [done|]. split; [done|]. split; [done|]. rewrite HP'. cbn [app]. by rewrite HP, Hc, app_nil_r.
Qed.

End List.
