(* ===== verification/SorterTree.v ===== *)
(** * The sorter: the tree of comparisons

    Node [i] of the tree, for [1 <= i < N], holds the index of the better of
    the champions of nodes [2i] and [2i+1]; node [N+l] stands for iterator
    [l].  So node 1 holds the index of an iterator whose key is smallest, and
    after that iterator advances only the nodes above it change. *)

From Stdlib Require Import Sorted.
From S2P Require Import Prelude Varint Ints Mem Heap Serial Vfs Sorter SorterRead SorterList.

(** ** Descendants *)

Definition under (j i : nat) : Prop := exists k, (i / 2 ^ k)%nat = j.

Lemma under_refl i : under i i.
Proof. exists 0%nat. apply Nat.div_1_r. Qed.

Lemma under_half j i : under j (i / 2) -> under j i.
Proof. intros [k <-]. exists (S k). cbn [Nat.pow]. by rewrite Nat.Div0.div_div. Qed.

Lemma under_parent j i : under j i -> j <> i -> under j (i / 2).
Proof.
  intros [[|k] <-] Hne; [by rewrite Nat.div_1_r in Hne|]. exists k. cbn [Nat.pow]. by rewrite Nat.Div0.div_div.
Qed.

Lemma under_le j i : under j i -> (j <= i)%nat.
Proof. intros [k <-]. apply Nat.Div0.div_le_upper_bound. pose proof (Nat.pow_nonzero 2 k). nia. Qed.

(** A child's descendants. *)
Lemma under_child j c i : under c i -> (c / 2)%nat = j -> under j i.
Proof.
  intros [k <-] <-. exists (S k). replace (2 ^ S k)%nat with (2 ^ k * 2)%nat by (cbn; lia). by rewrite <- Nat.Div0.div_div.
Qed.

Lemma under_split j i : under j i -> j <> i -> under (2 * j) i \/ under (2 * j + 1) i.
Proof.
  intros [[|k] E] Hne; [rewrite Nat.div_1_r in E; done|].
  replace (2 ^ S k)%nat with (2 ^ k * 2)%nat in E by (cbn; lia). rewrite <- Nat.Div0.div_div in E.
  pose proof (Nat.div_mod_eq (i / 2 ^ k) 2) as H. pose proof (Nat.mod_upper_bound (i / 2 ^ k) 2).
  assert ((i / 2 ^ k)%nat = (2 * j)%nat \/ (i / 2 ^ k)%nat = (2 * j + 1)%nat) as [E2|E2] by lia; [left|right]; by exists k.
Qed.

Lemma under_one i : (1 <= i)%nat -> under 1 i.
Proof.
  induction i as [i IH] using lt_wf_ind. intros Hi. destruct (decide (i = 1%nat)) as [->|Hne]; [apply under_refl|].
  apply under_half, IH.
  - apply Nat.div_lt; lia.
  - apply Nat.div_le_lower_bound; lia.
Qed.

Section Tree.
Context {oom : bool} {ki : KeyInfo} {KO : KeyOrder oom ki}.

(** ** Better keys *)

(** The current key of an iterator. *)
Definition front (rests : list (list (list Z))) (i : nat) : option (list Z) :=
  match rests !! i with Some (k :: _) => Some k | _ => None end.

Definition better (rests : list (list (list Z))) (i1 i2 : nat) : nat :=
  match front rests i1, front rests i2 with
  | None, _ => i2
  | _, None => i1
  | Some k1, Some k2 => if key_cmp k1 k2 <=? 0 then i1 else i2
  end.

(** [i]'s key is not above [j]'s; the end is above every key. *)
Definition beats (rests : list (list (list Z))) (i j : nat) : Prop :=
  match front rests j with
  | None => True
  | Some kj => match front rests i with Some ki => key_le ki kj | None => False end
  end.

Definition valid_rests (rests : list (list (list Z))) : Prop := Forall (Forall valid_key) rests.

Lemma front_valid rests i k : valid_rests rests -> front rests i = Some k -> valid_key k.
Proof.
  unfold front. intros H E. destruct (rests !! i) as [[|k' l]|] eqn:El; try done. injection E as ->.
  apply (Forall_lookup_1 _ _ _ _ H) in El. by apply Forall_cons in El as [? _].
Qed.

Lemma beats_refl rests i : valid_rests rests -> beats rests i i.
Proof.
  intros Hv. unfold beats. destruct (front rests i) as [k|] eqn:E; [|done].
  pose proof (front_valid _ _ _ Hv E) as Hk. by apply le_refl.
Qed.

Lemma beats_trans rests i j l : valid_rests rests -> beats rests i j -> beats rests j l -> beats rests i l.
Proof.
  intros Hv. unfold beats. destruct (front rests l) as [kl|] eqn:El; [|done].
  destruct (front rests j) as [kj|] eqn:Ej; [|done]. destruct (front rests i) as [ki'|] eqn:Ei; [|done].
  intros H1 H2. eapply le_trans; [| | |exact H1|exact H2]; by eapply front_valid.
Qed.

Lemma better_beats rests i1 i2 : valid_rests rests ->
  (better rests i1 i2 = i1 \/ better rests i1 i2 = i2) /\ beats rests (better rests i1 i2) i1 /\ beats rests (better rests i1 i2) i2.
Proof.
  intros Hv. pose proof (beats_refl rests i1 Hv) as H1. pose proof (beats_refl rests i2 Hv) as H2. unfold better.
  destruct (front rests i1) as [k1|] eqn:E1; [|split; [by right|]; split; [unfold beats; by rewrite E1|done]].
  destruct (front rests i2) as [k2|] eqn:E2; [|split; [by left|]; split; [done|unfold beats; by rewrite E2]].
  destruct (Z.leb_spec (key_cmp k1 k2) 0) as [Hle|Hgt].
  - split; [by left|]. split; [done|]. unfold beats. rewrite E1, E2. apply cmp_le; [by eapply front_valid|by eapply front_valid|done].
  - split; [by right|]. split; [|done]. unfold beats. rewrite E1, E2.
    apply cmp_gt; [by eapply front_valid|by eapply front_valid|lia].
Qed.

(** ** The tree *)

Definition champ (N : nat) (t : list Z) (i : nat) : nat :=
  if (N <=? i)%nat then (i - N)%nat else Z.to_nat (default 0 (t !! i)).

Definition node_ok (N : nat) (rests : list (list (list Z))) (t : list Z) (i : nat) : Prop :=
  t !! i = Some (Z.of_nat (better rests (champ N t (2 * i)) (champ N t (2 * i + 1)))).

Definition tree_ok (N : nat) (rests : list (list (list Z))) (t : list Z) : Prop :=
  length t = N /\ forall i, (1 <= i < N)%nat -> node_ok N rests t i.

(** The champion of a node is below it, and nothing below it is better. *)
Lemma champ_best N rests t : valid_rests rests -> forall d j, (d = 2 * N - j)%nat -> (1 <= j < 2 * N)%nat ->
  (forall i, (j <= i < N)%nat -> node_ok N rests t i) ->
  (champ N t j < N)%nat /\ under j (N + champ N t j) /\ forall l, (l < N)%nat -> under j (N + l) -> beats rests (champ N t j) l.
Proof.
  intros Hv. induction d as [d IH] using lt_wf_ind. intros j Hd Hj Hok. destruct (decide (N <= j)%nat) as [Hge|Hlt].
  - unfold champ. rewrite (proj2 (Nat.leb_le N j)) by done. split; [lia|].
    split; [replace (N + (j - N))%nat with j by lia; apply under_refl|].
    intros l Hl [[|k] E]; [rewrite Nat.div_1_r in E; subst j; replace (N + l - N)%nat with l by lia; by apply beats_refl|].
    exfalso. cbn [Nat.pow] in E. rewrite <- Nat.Div0.div_div in E.
    assert ((N + l) / 2 < N)%nat by (apply Nat.Div0.div_lt_upper_bound; lia).
    assert ((N + l) / 2 / 2 ^ k <= (N + l) / 2)%nat by (apply Nat.Div0.div_le_upper_bound; pose proof (Nat.pow_nonzero 2 k); nia). lia.
  - destruct (IH (2 * N - 2 * j)%nat ltac:(lia) (2 * j)%nat eq_refl ltac:(lia)) as (HN1 & Hu1 & Hb1); [intros; apply Hok; lia|].
    destruct (IH (2 * N - (2 * j + 1))%nat ltac:(lia) (2 * j + 1)%nat eq_refl ltac:(lia)) as (HN2 & Hu2 & Hb2); [intros; apply Hok; lia|].
    pose proof (Hok j ltac:(lia)) as Hn. unfold node_ok in Hn. set (c1 := champ N t (2 * j)) in *. set (c2 := champ N t (2 * j + 1)) in *.
    assert (champ N t j = better rests c1 c2) as ->.
    { unfold champ. rewrite (proj2 (Nat.leb_gt N j)) by lia. rewrite Hn. apply Nat2Z.id. }
    destruct (better_beats rests c1 c2 Hv) as (Hor & Hbt1 & Hbt2).
    assert (forall x, under (2 * j) x -> under j x) as HP1.
    { intros x Hx. apply (under_child _ _ _ Hx). rewrite Nat.mul_comm. by apply Nat.div_mul. }
    assert (forall x, under (2 * j + 1) x -> under j x) as HP2.
    { intros x Hx. apply (under_child _ _ _ Hx). rewrite Nat.add_comm, Nat.mul_comm, Nat.div_add by done. done. }
    split; [destruct Hor as [-> | ->]; done|]. split; [destruct Hor as [-> | ->]; [by apply HP1|by apply HP2]|].
    intros l Hl [Hu|Hu]%under_split; [| |lia].
    + eapply beats_trans; [done|exact Hbt1|by apply Hb1].
    + eapply beats_trans; [done|exact Hbt2|by apply Hb2].
Qed.

(** The iterator at the top. *)
Lemma top_best N rests t : valid_rests rests -> (2 <= N)%nat -> length rests = N -> tree_ok N rests t ->
  exists q, (q < N)%nat /\ t !! 1%nat = Some (Z.of_nat q) /\ forall l, beats rests q l.
Proof.
  intros Hv HN Hl [Ht Hok]. destruct (champ_best N rests t Hv _ 1 eq_refl ltac:(lia)) as (Hc & _ & Hb); [intros; apply Hok; lia|].
  exists (champ N t 1). split; [done|]. split.
  - unfold champ. rewrite (proj2 (Nat.leb_gt N 1)) by lia. rewrite (Hok 1%nat ltac:(lia)). do 2 f_equal. symmetry. apply Nat2Z.id.
  - intros l. destruct (decide (l < N)%nat) as [Hlt|Hge]; [apply Hb; [done|]; apply under_one; lia|].
    unfold beats, front. by rewrite lookup_ge_None_2 by lia.
Qed.

(** Changing one node changes the equations of no other node but its parent. *)
Lemma node_ok_insert N rests t i x j : (i < N)%nat -> node_ok N rests t j -> j <> i -> (2 * j)%nat <> i -> (2 * j + 1)%nat <> i ->
  node_ok N rests (<[i := x]> t) j.
Proof.
  intros Hi Hj H1 H2 H3. unfold node_ok, champ in *. by rewrite !list_lookup_insert_ne.
Qed.

Lemma node_ok_self N rests t i : (i < N)%nat -> (1 <= i)%nat -> length t = N ->
  node_ok N rests (<[i := Z.of_nat (better rests (champ N t (2 * i)) (champ N t (2 * i + 1)))]> t) i.
Proof.
  intros Hi H1 Hl. unfold node_ok. rewrite list_lookup_insert_eq by lia. unfold champ. by rewrite !list_lookup_insert_ne by lia.
Qed.

(** Advancing iterator [q] only matters to the nodes above it. *)
Lemma node_ok_advance N rests t q l j : valid_rests rests -> tree_ok N rests t -> (q < N)%nat -> (1 <= j < N)%nat ->
  ~ under j ((N + q) / 2) -> node_ok N (<[q := l]> rests) t j.
Proof.
  intros Hv [Ht Hok] Hq Hj Hu. unfold node_ok.
  assert (~ under j (N + q)) as Hu' by (intros H; apply Hu, under_parent; [done|lia]).
  assert (forall c, (c / 2)%nat = j -> (c < 2 * N)%nat -> front (<[q := l]> rests) (champ N t c) = front rests (champ N t c)) as Hfr.
  { intros c Hc Hc2. assert (1 <= c)%nat by (destruct c; [cbn in Hc; lia|lia]).
    destruct (champ_best N rests t Hv _ c eq_refl ltac:(lia)) as (_ & Hun & _).
    { intros i Hi. apply Hok. lia. }
    unfold front. rewrite list_lookup_insert_ne; [done|]. intros E. apply Hu'. rewrite E. by eapply under_child. }
  assert (forall c1 c2, front (<[q := l]> rests) c1 = front rests c1 -> front (<[q := l]> rests) c2 = front rests c2 ->
    better (<[q := l]> rests) c1 c2 = better rests c1 c2) as Hbt by (intros c1 c2 E1 E2; unfold better; by rewrite E1, E2).
  rewrite Hbt; [by apply Hok| |]; apply Hfr; try lia.
  - rewrite Nat.mul_comm. by apply Nat.div_mul.
  - rewrite Nat.add_comm, Nat.mul_comm, Nat.div_add by done. done.
Qed.

End Tree.
