(* ===== verification/SorterMerge.v ===== *)
(** * The sorter: merging packed arrays

    Iterators, tree and file of a sorter that merges agree with the lists of
    keys still to come ([merging]); each step takes the smallest of them. *)

From Stdlib Require Import Sorted.
From S2P Require Import Prelude Varint Ints Mem Heap Serial Vfs Sorter SorterRead SorterState SorterList SorterTree.

Section Merge.
Context {V : Vfs} {U : Indeterminate} {VL : VfsLaws V} {oom : bool} {ki : KeyInfo} {KO : KeyOrder oom ki}.

(** ** Comparing two iterators *)

(** Only the tree and the unpacked record change. *)
Definition upd (s : VdbeSorter) (t : list Z) (r2 : UnpackedRecord) : VdbeSorter :=
  set_tree (set_unpacked s (Some r2)) s.(aIter) (Some t) s.(nTree).

Lemma rep_front f bs p l rests i : f <> 0 -> iter_rep f bs p l -> rests !! i = Some l ->
  match front rests i with
  | None => p.(pFile) = 0
  | Some k => p.(pFile) <> 0 /\ key_of p = Some k /\ p.(nKey) = Z.of_nat (length k)
  end.
Proof.
  intros Hf Hr Hl. unfold front. rewrite Hl. destruct l as [|k l]; cbn in Hr; [by subst|].
  destruct Hr as (_ & Hp & Hk & Hn & _). split; [congruence|done].
Qed.

Lemma compare_iters s its rests f bs r2 i1 i2 : s.(pUnpacked) = Some r2 -> up_ok r2 ->
  Forall2 (iter_rep f bs) its rests -> f <> 0 -> valid_rests rests -> (i1 < length rests)%nat -> (i2 < length rests)%nat ->
  exists p1 p2 r2', its !! i1 = Some p1 /\ its !! i2 = Some p2 /\ up_ok r2' /\
    (if p1.(pFile) =? 0 then Some (Z.of_nat i2, s)
     else if p2.(pFile) =? 0 then Some (Z.of_nat i1, s)
     else
       r2 ← s.(pUnpacked);
       k1 ← key_of p1;
       k2 ← key_of p2;
       '(res, r2) ← vdbeSorterCompare oom ki r2 false p1.(nKey) k1 (Some (p2.(nKey), k2));
       Some (if res <=? 0 then Z.of_nat i1 else Z.of_nat i2, set_unpacked s (Some r2)))
    = Some (Z.of_nat (better rests i1 i2), set_unpacked s (Some r2')).
Proof.
  intros Hup Hok HF Hf Hv H1 H2.
  destruct (lookup_lt_is_Some_2 _ _ H1) as [l1 Hl1], (lookup_lt_is_Some_2 _ _ H2) as [l2 Hl2].
  destruct (Forall2_lookup_r _ _ _ _ _ HF Hl1) as (p1 & Hp1 & Hr1), (Forall2_lookup_r _ _ _ _ _ HF Hl2) as (p2 & Hp2 & Hr2).
  pose proof (rep_front _ _ _ _ _ _ Hf Hr1 Hl1) as HA. pose proof (rep_front _ _ _ _ _ _ Hf Hr2 Hl2) as HB.
  exists p1, p2. assert (set_unpacked s (Some r2) = s) as Hsame by (destruct s; cbn in *; by rewrite Hup).
  unfold better. destruct (front rests i1) as [k1|] eqn:E1.
  2:{ exists r2. split; [done|]. split; [done|]. split; [done|]. by rewrite HA, Hsame. }
  destruct HA as (Hf1 & Hk1 & Hn1). rewrite (proj2 (Z.eqb_neq _ 0) Hf1).
  destruct (front rests i2) as [k2|] eqn:E2.
  2:{ exists r2. split; [done|]. split; [done|]. split; [done|]. by rewrite HB, Hsame. }
  destruct HB as (Hf2 & Hk2 & Hn2). rewrite (proj2 (Z.eqb_neq _ 0) Hf2), Hup, Hk1, Hk2. cbn [mbind option_bind].
  rewrite Hn1, Hn2. destruct (compare_fresh r2 k1 k2 Hok) as (r3 & -> & Hr3 & _); [by eapply front_valid|by eapply front_valid|].
  exists r3. split; [done|]. split; [done|]. split; [done|]. cbn [mbind option_bind]. by destruct (_ <=? 0).
Qed.

(** The children of node [i] hold indices of iterators. *)
Definition in_range (N : nat) (t : list Z) (c : nat) : Prop := (c < N)%nat -> exists a, (a < N)%nat /\ t !! c = Some (Z.of_nat a).

Lemma champ_range N t c : in_range N t c -> (c < 2 * N)%nat -> (champ N t c < N)%nat.
Proof.
  intros Hr Hc. unfold champ. destruct (Nat.leb_spec N c) as [Hle|Hgt]; [lia|]. destruct (Hr Hgt) as (a & Ha & ->).
  change (Z.to_nat (Z.of_nat a) < N)%nat. by rewrite Nat2Z.id.
Qed.

Lemma do_compare_ok s N its rests bs t r2 i : s.(nTree) = Z.of_nat N -> Nat.Even N -> s.(aTree) = Some t -> s.(aIter) = Some its ->
  Forall2 (iter_rep s.(pTemp1) bs) its rests -> s.(pTemp1) <> 0 -> length rests = N -> length t = N ->
  s.(pUnpacked) = Some r2 -> up_ok r2 -> valid_rests rests -> (1 <= i < N)%nat ->
  in_range N t (2 * i) -> in_range N t (2 * i + 1) ->
  exists r2', vdbeSorterDoCompare oom ki s (Z.of_nat i) =
    Some (upd s (<[i := Z.of_nat (better rests (champ N t (2 * i)) (champ N t (2 * i + 1)))]> t) r2') /\ up_ok r2'.
Proof.
  intros HN [m Hm] Ht Hits HF Hf Hl Htl Hup Hok Hv Hi Hr1 Hr2.
  pose proof (champ_range _ _ _ Hr1 ltac:(lia)) as Hc1. pose proof (champ_range _ _ _ Hr2 ltac:(lia)) as Hc2.
  destruct (compare_iters s its rests _ bs r2 (champ N t (2 * i)) (champ N t (2 * i + 1)) Hup Hok HF Hf Hv) as (p1 & p2 & r3 & Hp1 & Hp2 & Hr3 & Hrun); [by rewrite Hl; exact Hc1|by rewrite Hl; exact Hc2|].
  exists r3. split; [|done]. unfold vdbeSorterDoCompare. rewrite HN, Ht, Hits.
  rewrite (proj2 (Z.ltb_lt (Z.of_nat i) _)), (proj2 (Z.ltb_lt 0 _)) by lia. cbn [andb negb mbind option_bind].
  assert (Z.quot (Z.of_nat N) 2 = Z.of_nat m) as -> by (rewrite Hm, Nat2Z.inj_mul, Z.mul_comm; by apply Z.quot_mul).
  assert ((if Z.of_nat i >=? Z.of_nat m then Some ((Z.of_nat i - Z.of_nat m) * 2, (Z.of_nat i - Z.of_nat m) * 2 + 1)
    else i1 ← rd t (Z.of_nat i * 2); i2 ← rd t (Z.of_nat i * 2 + 1); Some (i1, i2))
    = Some (Z.of_nat (champ N t (2 * i)), Z.of_nat (champ N t (2 * i + 1)))) as ->.
  { rewrite Z.geb_leb. destruct (Z.leb_spec (Z.of_nat m) (Z.of_nat i)) as [Hge|Hlt].
    - unfold champ. rewrite !(proj2 (Nat.leb_le N _)) by lia. f_equal. f_equal; lia.
    - replace (Z.of_nat i * 2) with (Z.of_nat (2 * i)) by lia. replace (Z.of_nat (2 * i) + 1) with (Z.of_nat (2 * i + 1)) by lia.
      rewrite !rd_nat. destruct (Hr1 ltac:(lia)) as (a1 & _ & E1), (Hr2 ltac:(lia)) as (a2 & _ & E2).
      unfold champ. rewrite !(proj2 (Nat.leb_gt N _)), E1, E2 by lia. cbn [mbind option_bind].
      change (default 0 (Some (Z.of_nat a1))) with (Z.of_nat a1). change (default 0 (Some (Z.of_nat a2))) with (Z.of_nat a2).
      by rewrite !Nat2Z.id. }
  cbn [mbind option_bind]. rewrite !decide_True, !Nat2Z.id, Hp1, Hp2 by lia. cbn [mbind option_bind].
  rewrite Hrun. cbn [mbind option_bind]. unfold upd. cbn [aIter nTree set_unpacked]. by rewrite Hits, HN.
Qed.

Lemma upd_twice s t r t' r' : upd (upd s t r) t' r' = upd s t' r'.
Proof. done. Qed.

(** ** Building and repairing the tree *)

Lemma node_in_range N rests t c : valid_rests rests -> length rests = N -> (2 <= N)%nat -> (1 <= c)%nat ->
  (forall j, (c <= j < N)%nat -> node_ok N rests t j) -> in_range N t c.
Proof.
  intros Hv Hl HN Hc Hok Hlt. destruct (champ_best N rests t Hv _ c eq_refl ltac:(lia) Hok) as (Hr & _).
  exists (champ N t c). split; [done|]. unfold champ in *. rewrite (proj2 (Nat.leb_gt N c)) in * by lia.
  pose proof (Hok c ltac:(lia)) as Hn. rewrite Hn in *. f_equal.
  match goal with |- Z.of_nat ?b = _ => change (Z.of_nat b = Z.of_nat (Z.to_nat (Z.of_nat b))) end. by rewrite Nat2Z.id.
Qed.

Lemma init_tree_ok N its rests bs : Nat.Even N -> length rests = N -> valid_rests rests -> (2 <= N)%nat ->
  forall i s t r2, (i < N)%nat -> s.(nTree) = Z.of_nat N -> s.(aTree) = Some t -> s.(aIter) = Some its ->
  Forall2 (iter_rep s.(pTemp1) bs) its rests -> s.(pTemp1) <> 0 -> length t = N -> s.(pUnpacked) = Some r2 -> up_ok r2 ->
  (forall j, (i < j < N)%nat -> node_ok N rests t j) ->
  exists t' r2', init_tree oom ki i s = Some (upd s t' r2') /\ tree_ok N rests t' /\ up_ok r2'.
Proof.
  intros He Hl Hv HN2. induction i as [|i IH]; intros s t r2 Hi HN Ht Hits HF Hf Htl Hup Hok Hnodes.
  - exists t, r2. split; [|split; [split; [done|intros j Hj; apply Hnodes; lia]|done]].
    unfold upd. destruct s; cbn in *. by rewrite Ht, Hup.
  - cbn [init_tree].
    destruct (do_compare_ok s N its rests bs t r2 (S i) HN He Ht Hits HF Hf Hl Htl Hup Hok Hv) as (r3 & -> & Hr3); [lia| | |].
    { apply (node_in_range N rests); try done; [lia|]. intros j Hj. apply Hnodes. lia. }
    { apply (node_in_range N rests); try done; [lia|]. intros j Hj. apply Hnodes. lia. }
    cbn [mbind option_bind]. set (t1 := <[S i := _]> t). edestruct (IH (upd s t1 r3) t1 r3) as (t' & r4 & Hrun & Hok' & Hr4); try done; [lia| | |].
    { unfold t1. by rewrite length_insert. }
    { intros j Hj. destruct (decide (j = S i)) as [->|Hne]; [by apply node_ok_self; [lia|lia|]|].
      apply node_ok_insert; [lia|apply Hnodes; lia|done|lia|lia]. }
    exists t', r4. by rewrite Hrun, upd_twice.
Qed.

Lemma update_path_ok N its rests bs : Nat.Even N -> length rests = N -> valid_rests rests -> (2 <= N)%nat ->
  forall fuel i s t r2, (i < fuel)%nat -> (i < N)%nat -> s.(nTree) = Z.of_nat N -> s.(aTree) = Some t -> s.(aIter) = Some its ->
  Forall2 (iter_rep s.(pTemp1) bs) its rests -> s.(pTemp1) <> 0 -> length t = N -> s.(pUnpacked) = Some r2 -> up_ok r2 ->
  (forall j, (1 <= j < N)%nat -> ~ under j i -> node_ok N rests t j) ->
  exists t' r2', update_path oom ki fuel s (Z.of_nat i) = Some (upd s t' r2') /\ tree_ok N rests t' /\ up_ok r2'.
Proof.
  intros He Hl Hv HN2. induction fuel as [|fuel IH]; intros i s t r2 Hfuel Hi HN Ht Hits HF Hf Htl Hup Hok Hnodes; [lia|].
  cbn [update_path]. destruct (Z.ltb_spec 0 (Z.of_nat i)) as [Hpos|Hz].
  - assert (forall c, (i < c)%nat -> forall j, (c <= j < N)%nat -> node_ok N rests t j) as Hbelow.
    { intros c Hc j Hj. apply Hnodes; [lia|]. intros Hu%under_le. lia. }
    destruct (do_compare_ok s N its rests bs t r2 i HN He Ht Hits HF Hf Hl Htl Hup Hok Hv) as (r3 & -> & Hr3); [lia| | |].
    { apply (node_in_range N rests); try done; [lia|]. apply Hbelow. lia. }
    { apply (node_in_range N rests); try done; [lia|]. apply Hbelow. lia. }
    cbn [mbind option_bind]. set (t1 := <[i := _]> t).
    assert (Z.quot (Z.of_nat i) 2 = Z.of_nat (i / 2)) as -> by (rewrite Z.quot_div_nonneg, Nat2Z.inj_div by lia; done).
    assert (i / 2 < i)%nat as Hhalf by (apply Nat.div_lt; lia).
    edestruct (IH (i / 2)%nat (upd s t1 r3) t1 r3) as (t' & r4 & Hrun & Hok' & Hr4); try done; [lia|lia| | |].
    { unfold t1. by rewrite length_insert. }
    { intros j Hj Hu. destruct (decide (j = i)) as [->|Hne]; [by apply node_ok_self; [lia|lia|]|].
      assert (~ under j i) as Hu2 by (intros H; apply Hu; by apply under_parent).
      assert (forall c, (c / 2)%nat = j -> c <> i) as Hc.
      { intros c Hc ->. apply Hu2. apply (under_child _ i); [apply under_refl|done]. }
      apply node_ok_insert; [lia|by apply Hnodes|done| |]; apply Hc.
      - rewrite Nat.mul_comm. by apply Nat.div_mul.
      - rewrite Nat.add_comm, Nat.mul_comm, Nat.div_add by done. done. }
    exists t', r4. by rewrite Hrun, upd_twice.
  - exists t, r2. split; [|split; [split; [done|]|done]].
    + unfold upd. destruct s; cbn in *. by rewrite Ht, Hup.
    + intros j Hj. apply Hnodes; [done|]. intros Hu%under_le. lia.
Qed.


(** ** The merge *)

(** The keys still to come, by iterator. *)
Record merging (s : VdbeSorter) (bs : list Z) (rests : list (list (list Z))) : Prop := {
  mg_size : s.(nTree) = Z.of_nat (length rests) /\ Nat.Even (length rests) /\ (2 <= length rests)%nat;
  mg_iters : exists its, s.(aIter) = Some its /\ Forall2 (iter_rep s.(pTemp1) bs) its rests;
  mg_tree : exists t, s.(aTree) = Some t /\ tree_ok (length rests) rests t;
  mg_temp : s.(pTemp1) <> 0;
  mg_up : exists r2, s.(pUnpacked) = Some r2 /\ up_ok r2;
  mg_valid : valid_rests rests;
  mg_sorted : Forall sorted_keys rests }.

Lemma front_concat rests : (forall j, front rests j = None) -> concat rests = [].
Proof.
  induction rests as [|l rests IH]; intros H; [done|]. cbn [concat]. rewrite IH by (intros j; exact (H (S j))).
  pose proof (H 0%nat) as H0. by destruct l.
Qed.

(** The key of the best iterator is the least of all. *)
Lemma best_le rests q k l : valid_rests rests -> Forall sorted_keys rests -> (forall j, beats rests q j) ->
  rests !! q = Some (k :: l) -> Forall (key_le k) (concat rests).
Proof.
  intros Hv Hs Hb Hq. assert (front rests q = Some k) as Hf by (unfold front; by rewrite Hq).
  apply Forall_concat, Forall_lookup_2. intros j l' Hj. pose proof (Hb j) as Hbj. unfold beats in Hbj. rewrite Hf in Hbj.
  destruct l' as [|k' l']; [constructor|]. unfold front in Hbj. rewrite Hj in Hbj.
  apply le_sorted; [by eapply front_valid|exact (Forall_lookup_1 _ _ _ _ Hv Hj)|done|exact (Forall_lookup_1 _ _ _ _ Hs Hj)].
Qed.

Lemma winner_ok s bs rests : merging s bs rests -> exists q p l its, (q < length rests)%nat /\ s.(aIter) = Some its /\
  winner s = Some (Z.of_nat q, p) /\ its !! q = Some p /\ rests !! q = Some l /\ iter_rep s.(pTemp1) bs p l /\
  (l = [] -> concat rests = []) /\ (forall k l', l = k :: l' -> Forall (key_le k) (concat rests)).
Proof.
  intros [(HN & He & H2) (its & Hits & HF) (t & Ht & Hok) Hf Hup Hv Hs].
  destruct (top_best _ rests t Hv H2 eq_refl Hok) as (q & Hq & Ht1 & Hb).
  destruct (lookup_lt_is_Some_2 _ _ Hq) as [l Hl]. destruct (Forall2_lookup_r _ _ _ _ _ HF Hl) as (p & Hp & Hr).
  exists q, p, l, its. split; [done|]. split; [done|]. split.
  { unfold winner. rewrite Ht, Hits. cbn [mbind option_bind]. rewrite Ht1. cbn [mbind option_bind].
    rewrite decide_True by lia. rewrite Nat2Z.id, Hp. done. }
  split; [done|]. split; [done|]. split; [done|]. split.
  - intros ->. apply front_concat. intros j. pose proof (Hb j) as Hbj. unfold beats in Hbj. destruct (front rests j); [|done].
    unfold front in Hbj. by rewrite Hl in Hbj.
  - intros k l' ->. by eapply best_le.
Qed.

Lemma concat_insert {A} (ls : list (list A)) q k l : ls !! q = Some (k :: l) -> concat ls ≡ₚ k :: concat (<[q := l]> ls).
Proof.
  revert q. induction ls as [|x ls IH]; intros [|q] H; try done.
  - injection H as ->. done.
  - change (<[S q := l]> (x :: ls)) with (x :: <[q := l]> ls). cbn [concat]. rewrite (IH q H). by rewrite Permutation_middle.
Qed.

(** Only iterators, tree and unpacked record differ. *)
Definition retree (s s' : VdbeSorter) : Prop := exists r its t,
  is_block its = is_block s.(aIter) /\ s' = set_tree (set_unpacked s r) its t s.(nTree).

Lemma retree_trans s1 s2 s3 : retree s1 s2 -> retree s2 s3 -> retree s1 s3.
Proof. intros (r & its & t & Hb & ->) (r' & its' & t' & Hb' & ->). exists r', its', t'. split; [by rewrite Hb'|done]. Qed.

Lemma merging_shape s bs rests : merging s bs rests -> shape s.
Proof.
  intros [(HN & He & H2) (its & Hits & HF) (t & Ht & Hok) Hf Hup Hv Hs].
  destruct (top_best _ rests t Hv H2 eq_refl Hok) as (q & Hq & Ht1 & Hb). pose proof (Forall2_length _ _ _ HF) as Hl.
  unfold shape. rewrite Hits. exists t, q. rewrite Hl. split; [done|]. split; [done|]. split; [by destruct Hok|]. by split.
Qed.

(** Iterator [q] has advanced: the tree above it is repaired. *)
Lemma advance_ok s bs rests its q k l p' : merging s bs rests -> s.(aIter) = Some its -> (q < length rests)%nat ->
  rests !! q = Some (k :: l) -> iter_rep s.(pTemp1) bs p' l ->
  let s1 := set_tree s (Some (<[q := p']> its)) s.(aTree) s.(nTree) in
  exists t' r3, update_path oom ki (S (Z.to_nat s1.(nTree))) s1 (Z.quot (s1.(nTree) + Z.of_nat q) 2) = Some (upd s1 t' r3) /\
    merging (upd s1 t' r3) bs (<[q := l]> rests).
Proof.
  intros Hm Hits Hq Hl Hrep s1. pose proof Hm as [(HN & He & H2) (its0 & Hits0 & HF) (t & Ht & Hok) Hf (r2 & Hup & Hur) Hv Hs].
  rewrite Hits in Hits0. injection Hits0 as <-.
  assert (valid_rests (<[q := l]> rests)) as Hv'.
  { apply Forall_insert; [done|]. pose proof (Forall_lookup_1 _ _ _ _ Hv Hl) as H. by apply Forall_cons in H as [_ ?]. }
  assert ((length rests + q) / 2 < length rests)%nat as Hhalf by (apply Nat.Div0.div_lt_upper_bound; lia).
  destruct (update_path_ok (length rests) (<[q := p']> its) (<[q := l]> rests) bs He ltac:(by rewrite length_insert) Hv' H2
    (S (length rests)) ((length rests + q) / 2) s1 t r2) as (t' & r3 & Hrun & Hok' & Hr3); try done; [lia| |by destruct Hok| |].
  { apply Forall2_insert; done. }
  { intros j Hj Hu. by apply node_ok_advance. }
  exists t', r3. split.
  - change (nTree s1) with (nTree s). rewrite HN, Nat2Z.id.
    replace (Z.quot (Z.of_nat (length rests) + Z.of_nat q) 2) with (Z.of_nat ((length rests + q) / 2)); [done|].
    rewrite Z.quot_div_nonneg, Nat2Z.inj_div by lia. f_equal. lia.
  - constructor; rewrite ?length_insert; try done.
    + eexists. split; [done|]. by apply Forall2_insert.
    + by exists t'.
    + by exists r3.
    + apply Forall_insert; [done|]. pose proof (Forall_lookup_1 _ _ _ _ Hs Hl) as H. by apply StronglySorted_inv in H as [? _].
Qed.

(** At the end when the best iterator is. *)
Lemma winner_eof s bs rests : merging s bs rests -> exists q p, winner s = Some (q, p) /\ (p.(pFile) =? 0) = bool_decide (concat rests = []).
Proof.
  intros Hm. pose proof (mg_temp _ _ _ Hm) as Hf.
  destruct (winner_ok _ _ _ Hm) as (q & p & l & its & _ & _ & Hw & _ & Hl & Hr & Hnil & Hle). exists (Z.of_nat q), p. split; [done|].
  destruct l as [|k l]; cbn in Hr.
  - rewrite Hr. symmetry. by apply bool_decide_eq_true, Hnil.
  - destruct Hr as (_ & Hpf & _). rewrite Hpf, (proj2 (Z.eqb_neq (pTemp1 s) 0) Hf). symmetry. apply bool_decide_eq_false. intros E.
    apply list_elem_of_lookup_2 in Hl. assert (k ∈ concat rests) as Hin.
    { apply list_elem_of_In, in_concat. exists (k :: l). split; apply list_elem_of_In; [done|left]. }
    rewrite E in Hin. by apply elem_of_nil in Hin.
Qed.

(** The smallest key is the current one, and the next call removes it. *)
Lemma merge_next_ok s bs rests w : merging s bs rests -> contents w.(fs) s.(pTemp1) = Some bs -> concat rests <> [] ->
  exists q p k l, winner s = Some (q, p) /\ p.(pFile) <> 0 /\ key_of p = Some k /\ p.(nKey) = Z.of_nat (length k) /\
    key_fits k /\ Forall (key_le k) (concat rests) /\ rests !! Z.to_nat q = Some (k :: l) /\
    runs (sqlite3VdbeSorterNext oom ki s) w (fun '(rc, eof, s') w' =>
      step [] w w' (owned s' - owned s) /\ shape s' /\ retree s s' /\ (good w -> rc = SQLITE_OK) /\
      (rc = SQLITE_OK -> merging s' bs (<[Z.to_nat q := l]> rests) /\ eof = bool_decide (concat (<[Z.to_nat q := l]> rests) = []))).
Proof.
  intros Hm Hc Hne. destruct (winner_ok _ _ _ Hm) as (q & p & l0 & its & Hq & Hits & Hw & Hp & Hl & Hr & H0 & Hle).
  destruct l0 as [|k l]; [by specialize (H0 eq_refl)|]. clear H0. specialize (Hle k l eq_refl).
  pose proof Hr as (Hrd & Hpf & Hk & Hn & Hsub & Hfit). pose proof Hm as [(HN & He & H2) (its0 & Hits0 & HF) (t & Ht & Hok) Hf (r2 & Hup & Hur) Hv Hs].
  rewrite Hits in Hits0. injection Hits0 as <-.
  exists (Z.of_nat q), p, k, l. rewrite Nat2Z.id. split; [done|]. split; [congruence|]. split; [done|]. split; [done|].
  split; [by apply Forall_cons in Hfit as [? _]|]. split; [done|]. split; [done|].
  unfold sqlite3VdbeSorterNext. rewrite Ht. apply runs_bind, (runs_must _ (Z.of_nat q, p)); [done|].
  apply runs_bind, (runs_must _ its); [done|]. apply runs_bind.
  eapply runs_mono; [apply (iter_next_ok p bs l w Hrd); [by rewrite Hpf|done|by apply Forall_cons in Hfit as [_ ?]]|].
  intros [rc p'] w' (Hst & Hg & Hrok). rewrite Nat2Z.id. set (s1 := set_tree _ _ _ _).
  pose proof (Forall2_length _ _ _ HF) as Hlen.
  assert (owned s1 - owned s = iblocks p' - iblocks p) as Ho1.
  { unfold owned. cbn [pRecord pUnpacked aIter s1 set_tree]. rewrite Hits, (iters_blocks_insert _ _ _ _ Hp). lia. }
  destruct (Z.eqb_spec rc SQLITE_OK) as [Hrc|Hrc].
  - destruct (Hrok Hrc) as [Hrep _]. rewrite Hpf in Hrep.
    pose proof (advance_ok s bs rests its q k l p' Hm Hits Hq Hl Hrep) as HA. cbn zeta in HA. rewrite Ht in HA. fold s1 in HA.
    destruct HA as (t' & r3 & Hrun & Hm').
    apply runs_bind, (runs_must _ (upd s1 t' r3)); [exact Hrun|]. destruct (winner_eof _ _ _ Hm') as (q2 & p2 & Hw2 & Heof).
    apply runs_bind, (runs_must _ (q2, p2)); [done|]. apply runs_ret.
    split; [|split; [by eapply merging_shape|split; [eexists _, _, _; split; [|reflexivity]; by rewrite Hits|split; [done|by intros _]]]].
    eapply step_mono; [exact Hst|done|]. rewrite <- Ho1. unfold owned. cbn [pRecord pUnpacked aIter s1 set_tree upd set_unpacked].
    by rewrite Hup.
  - destruct (top_best _ rests t Hv H2 eq_refl Hok) as (q3 & Hq3 & Ht1 & _).
    assert (winner s1 = Some (Z.of_nat q, p')) as Hw1.
    { unfold winner in *. rewrite Ht, Hits in Hw. cbn [mbind option_bind] in Hw. rewrite Ht1 in Hw. cbn [mbind option_bind] in Hw.
      destruct (if decide _ then _ else _); [|done]. injection Hw as Hq' _. cbn [aTree aIter s1 set_tree]. rewrite ?Ht. cbn [mbind option_bind].
      rewrite Ht1. rewrite Hq'. cbn [mbind option_bind]. rewrite decide_True, Nat2Z.id, list_lookup_insert_eq by lia. done. }
    apply runs_bind, runs_ret. apply runs_bind, (runs_must _ (Z.of_nat q, p')); [done|]. apply runs_ret.
    split; [by eapply step_mono; [exact Hst|done|]|]. split.
    { unfold shape. cbn [aIter aTree nTree s1 set_tree]. exists t, q3. rewrite length_insert, Hlen. split; [done|]. split; [done|].
      split; [by destruct Hok|done]. }
    split; [exists s.(pUnpacked); do 2 eexists; split; [|by destruct s]; by rewrite Hits|]. done.
Qed.

End Merge.
