(* ===== verification/SorterFill.v ===== *)
(** * The sorter: collecting and spilling

    While records come in, the list of the sorter and the packed arrays of its
    temporary file hold what was written ([filling]); every array is sorted. *)

From Stdlib Require Import Sorted.
From S2P Require Import Prelude Varint Ints Mem Heap Serial Vfs Sorter SorterRead SorterWrite SorterState SorterList.

Section Fill.
Context {V : Vfs} {U : Indeterminate} {VL : VfsLaws V} {oom : bool} {ki : KeyInfo} {KO : KeyOrder oom ki} (pgsz : Z).

(** ** Packed arrays in a file *)

Definition pmas_bytes (pmas : list (list (list Z))) : list Z := concat (map pma pmas).

Definition pma_file (w : world V) (f eof : Z) (pmas : list (list (list Z))) : Prop :=
  exists bs, contents w.(fs) f = Some bs /\ bytes_ok bs /\ eof = Z.of_nat (length (pmas_bytes pmas)) /\
    eof <= Z.of_nat (length bs) /\ sub bs 0 (length (pmas_bytes pmas)) = pmas_bytes pmas.

Lemma pma_file_step w w' f eof pmas : contents w'.(fs) f = contents w.(fs) f -> pma_file w f eof pmas -> pma_file w' f eof pmas.
Proof. intros E (bs & Hc & H). exists bs. by rewrite E. Qed.

Definition run_ok (ks : list (list Z)) : Prop := ks <> [] /\ Forall valid_key ks /\ Forall key_fits ks /\ sorted_keys ks.

Lemma pmas_bytes_snoc pmas ks : pmas_bytes (pmas ++ [ks]) = pmas_bytes pmas ++ pma ks.
Proof. unfold pmas_bytes. rewrite map_app, concat_app. cbn [map concat]. by rewrite app_nil_r. Qed.

Lemma encode_perm ks ks' : ks ≡ₚ ks' -> length (encode ks) = length (encode ks').
Proof. unfold encode. induction 1; cbn [map concat]; rewrite ?length_app; lia. Qed.

Lemma encode_app a b : encode (a ++ b) = encode a ++ encode b.
Proof. unfold encode. by rewrite map_app, concat_app. Qed.

Lemma encode_bytes ks : Forall key_fits ks -> bytes_ok (encode ks).
Proof.
  induction 1 as [|k ks [Hb Hk] _ IH]; [constructor|]. unfold encode, entry. cbn [map concat].
  apply bytes_ok_app. split; [|done]. apply bytes_ok_app. split; [|done]. by apply varint_bytes; lia.
Qed.

(** ** Sorting *)

Lemma sort_ok s r2 w : s.(pUnpacked) = Some r2 -> up_ok r2 -> Forall record_ok s.(pRecord) ->
  Z.of_nat (length s.(pRecord)) < 2 ^ 63 ->
  runs (vdbeSorterSort oom ki s) w (fun '(rc, s') w' => step [] w w' 0 /\ (good w -> rc = SQLITE_OK) /\
    exists l r2', s' = set_unpacked (set_record s l) (Some r2') /\ up_ok r2' /\ l ≡ₚ s.(pRecord) /\
      (rc = SQLITE_OK -> sorted_records l)).
Proof.
  intros Hup Hok Hr Hl. unfold vdbeSorterSort. apply runs_bind, runs_alloc. intros [] w1 Hs1 Hg1; cbn [negb].
  - apply runs_bind, (runs_must _ r2); [done|].
    destruct (sort_list_ok r2 (pRecord s) Hok Hr Hl) as (l & r3 & Hrun & Hr3 & Hsl & HP).
    apply runs_bind, (runs_must _ (l, r3)); [done|]. apply runs_bind, runs_dbfree. intros w2 Hs2. apply runs_ret.
    split; [eapply step_mono; [exact (step_trans _ _ _ _ _ _ Hs1 Hs2)|done|lia]|]. split; [done|]. by exists l, r3.
  - apply runs_ret. split; [done|]. split; [by intros ?%Hg1|]. exists (pRecord s), r2. split; [|done]. destruct s; cbn in *. by subst.
Qed.

(** ** Writing an array *)

Lemma write_records_ok f : forall l p L w, Forall record_ok l -> Forall key_fits (map pVal l) -> wstate p f L w ->
  runs (write_records p l) w (fun p' w' => step [f] w w' (- Z.of_nat (length l)) /\ wblocks p' = wblocks p /\
    (good w -> p.(eFWErr) = 0 -> p'.(eFWErr) = 0) /\ wstate p' f (L ++ encode (map pVal l)) w').
Proof.
  induction l as [|r l IH]; intros p L w Hr Hf Hw; cbn [write_records].
  { apply runs_ret. split; [apply step_refl|]. split; [done|]. split; [done|]. cbn. by rewrite app_nil_r. }
  apply Forall_cons in Hr as [[Hn Hv] Hr]. cbn [map] in Hf. apply Forall_cons in Hf as [[Hb Hk] Hf].
  rewrite Hn. apply runs_bind. eapply runs_mono; [apply (write_varint_ok p f _ L w); [lia|done]|]. intros p1 w1 (Hs1 & Hb1 & Hg1 & Hw1).
  apply runs_bind. eapply runs_mono; [by apply (write_ok p1 f _ _ w1 Hb Hw1)|]. intros p2 w2 (Hs2 & Hb2 & Hg2 & Hw2).
  apply runs_bind, runs_dbfree. intros w3 Hs3.
  assert (wstate p2 f ((L ++ sqlite3PutVarint (Z.of_nat (length (pVal r)))) ++ pVal r) w3) as Hw3.
  { destruct Hw2 as [H1 H2]. unfold wstate. by rewrite (step_contents _ _ _ _ Hs3). }
  eapply runs_mono; [by apply (IH p2 _ w3 Hr Hf Hw3)|]. intros p4 w4 (Hs4 & Hb4 & Hg4 & Hw4).
  assert (step [f] w2 w3 (-1)) as Hs3' by (eapply step_mono; [exact Hs3|intros g Hg0; by apply elem_of_nil in Hg0|done]).
  split; [eapply step_mono; [exact (step_trans _ _ _ _ _ _ Hs1 (step_trans _ _ _ _ _ _ Hs2 (step_trans _ _ _ _ _ _ Hs3' Hs4)))|done|cbn [length]; lia]|].
  split; [congruence|]. split.
  - intros Hg E. pose proof (step_good _ _ _ _ Hs1 Hg) as G1. pose proof (step_good _ _ _ _ Hs2 G1) as G2. pose proof (step_good _ _ _ _ Hs3 G2).
    apply Hg4; [done|]. apply Hg2; [done|]. by apply Hg1.
  - unfold encode, entry in *. cbn [map concat]. by rewrite <- !(assoc_L (++)) in *.
Qed.

(** The array written after those of the file. *)
Lemma write_pma_ok {B} (K : Z * Z -> IO B) Q (s : VdbeSorter) ks f eof pmas nW w : 0 < pgsz -> f <> 0 -> pma_file w f eof pmas -> map pVal s.(pRecord) = ks ->
  Forall record_ok s.(pRecord) -> Forall key_fits ks -> nW = Z.of_nat (length (encode ks)) -> nW < 2 ^ 56 ->
  (forall rc eof' w', step [f] w w' (- Z.of_nat (length ks)) -> is_Some (contents w'.(fs) f) -> (good w -> rc = SQLITE_OK) ->
    (rc = SQLITE_OK -> pma_file w' f eof' (pmas ++ [ks])) -> runs (K (rc, eof')) w' Q) ->
  runs (writer ← fileWriterInit pgsz f eof;
        writer ← fileWriterWriteVarint writer nW;
        writer ← write_records writer s.(pRecord);
        fileWriterFinish writer ≫= K) w Q.
Proof.
  intros Hpg Hf (bs & Hc & Hb & He & Hle & Hsub) Hks Hr Hfit HnW Hlt HK.
  apply runs_bind. eapply runs_mono; [apply (writer_init_ok pgsz f bs eof w Hpg Hf Hc Hb); lia|]. intros p1 w1 (Hs1 & Hg1 & Hw1).
  rewrite He, Nat2Z.id, Hsub in Hw1.
  apply runs_bind. eapply runs_mono; [apply (write_varint_ok p1 f nW (pmas_bytes pmas) w1); [lia|done]|]. intros p2 w2 (Hs2 & Hb2 & Hg2 & Hw2).
  apply runs_bind. eapply runs_mono; [apply (write_records_ok f (pRecord s) p2 (pmas_bytes pmas ++ sqlite3PutVarint nW) w2 Hr); [by rewrite Hks|done]|]. intros p3 w3 (Hs3 & Hb3 & Hg3 & Hw3).
  apply runs_bind. eapply runs_mono; [exact (writer_finish_ok p3 f _ w3 Hw3)|]. intros [rc eof'] w4 (Hs4 & His & Hg4 & Hok).
  apply HK; [eapply step_mono; [exact (step_trans _ _ _ _ _ _ Hs1 (step_trans _ _ _ _ _ _ Hs2 (step_trans _ _ _ _ _ _ Hs3 Hs4)))|done|rewrite Hb3, Hb2, <- Hks, length_map; lia]|done| |].
  - intros Hg. pose proof (step_good _ _ _ _ Hs1 Hg) as G1. pose proof (step_good _ _ _ _ Hs2 G1) as G2. pose proof (step_good _ _ _ _ Hs3 G2).
    apply Hg4; [done|]. apply Hg3; [done|]. apply Hg2; [done|]. by apply Hg1.
  - intros Hrc. destruct (Hok Hrc) as (He' & bs' & Hc' & Hsub' & Hl' & Hb'). exists bs'.
    assert ((pmas_bytes pmas ++ sqlite3PutVarint nW) ++ encode (map pVal (pRecord s)) = pmas_bytes (pmas ++ [ks])) as E.
    { rewrite pmas_bytes_snoc. unfold pma. by rewrite Hks, HnW, <- (assoc_L (++)). }
    rewrite E in *. split; [done|]. split; [done|]. split; [done|]. split; [lia|done].
Qed.

(** ** Collecting *)

Record filling (s : VdbeSorter) (pmas : list (list (list Z))) (ks : list (list Z)) (w : world V) : Prop := {
  fl_list : Forall record_ok s.(pRecord) /\ map pVal s.(pRecord) ≡ₚ ks /\ Forall key_fits ks;
  fl_mem : s.(nInMemory) = Z.of_nat (length (encode ks));
  fl_up : exists r2, s.(pUnpacked) = Some r2 /\ up_ok r2;
  fl_pmas : s.(nPMA) = Z.of_nat (length pmas) /\ Forall run_ok pmas;
  fl_file : if s.(pTemp1) =? 0 then pmas = [] /\ s.(iWriteOff) = 0 else pma_file w s.(pTemp1) s.(iWriteOff) pmas;
  fl_tree : s.(aIter) = None /\ s.(aTree) = None /\ s.(so_iReadOff) = 0 }.

Lemma fl_records s pmas ks w : filling s pmas ks w -> length s.(pRecord) = length ks.
Proof. intros [(_ & HP & _) _ _ _ _ _]. by rewrite <- HP, length_map. Qed.

Lemma encode_length ks : Forall key_fits ks -> (2 * length ks <= length (encode ks))%nat.
Proof.
  induction 1 as [|k ks Hk _ IH]; [done|]. pose proof (entry_length k Hk) as He. destruct Hk as [_ Hk].
  destruct (varint_bytes (Z.of_nat (length k))) as (_ & _ & Hv & _); [lia|].
  unfold encode in *. cbn [map concat length]. rewrite length_app. lia.
Qed.

(** The temporary file is opened when it is first needed. *)
Lemma open_temp_ok w0 s rc pmas w : held w0 s (temps s.(pTemp1)) 0 w ->
  (if s.(pTemp1) =? 0 then pmas = [] /\ s.(iWriteOff) = 0 else pma_file w s.(pTemp1) s.(iWriteOff) pmas) ->
  runs (if (rc =? SQLITE_OK) && (s.(pTemp1) =? 0) then
          '(rc, f) ← vdbeSorterOpenTempFile; mret (rc, set_temp s f)
        else mret (rc, s)) w (fun '(rc', s2) w2 => exists f, s2 = set_temp s f /\ held w0 s2 (temps f) 0 w2 /\
    (good w -> rc = SQLITE_OK -> rc' = SQLITE_OK) /\
    (rc' = SQLITE_OK -> rc = SQLITE_OK /\ f <> 0 /\ pma_file w2 f s.(iWriteOff) pmas)).
Proof.
  intros Hh Hfile. unfold temps in Hh. destruct (Z.eqb_spec rc SQLITE_OK) as [Hrc|Hrc]; cbn [andb].
  2:{ apply runs_ret. exists s.(pTemp1). split; [by destruct s|]. split; [done|]. split; [done|]. by intros ?. }
  destruct (Z.eqb_spec (pTemp1 s) 0) as [Ef|Ef].
  - destruct Hfile as [-> HiW]. apply runs_bind, runs_open. intros rc' f w2 Hg2 Hbad Hgood. apply runs_ret. exists f.
    split; [done|]. destruct (Z.eqb_spec rc' SQLITE_OK) as [Hrc'|Hrc'].
    + destruct (Hgood Hrc') as (Hf0 & Hnone & Hc & Hs2). split.
      { unfold temps. rewrite (proj2 (Z.eqb_neq f 0) Hf0). eapply held_same; [eapply held_open; [exact Hh|exact Hs2|done|done|by eexists]|done|].
        exact (hd_shape _ _ _ _ _ Hh). }
      split; [by intros ?%Hg2|]. intros _. split; [done|]. split; [done|]. exists []. rewrite HiW. split; [done|]. split; [constructor|]. done.
    + destruct (Hbad Hrc') as (-> & Hs2). split; [eapply held_step0; [exact Hh|exact Hs2|by rewrite !Z.add_0_r|exact (hd_shape _ _ _ _ _ Hh)]|].
      split; [by intros ?%Hg2|done].
  - apply runs_ret. exists (pTemp1 s). split; [by destruct s|]. split; [unfold temps; by rewrite (proj2 (Z.eqb_neq _ 0) Ef)|].
    split; [done|]. by intros _.
Qed.

(** The list becomes one more array; the caller empties it. *)
Lemma list_to_pma_ok w0 s pmas ks w : 0 < pgsz -> held w0 s (temps s.(pTemp1)) 0 w -> filling s pmas ks w ->
  Z.of_nat (length (encode ks)) < 2 ^ 56 -> Z.of_nat (length pmas) + 1 < 2 ^ 31 ->
  runs (vdbeSorterListToPMA oom ki pgsz s) w (fun '(rc, s') w' => held w0 s' (temps s'.(pTemp1)) 0 w' /\ (good w0 -> rc = SQLITE_OK) /\
    (rc = SQLITE_OK -> exists pmas', filling (set_inMemory s' 0) pmas' [] w' /\ concat pmas' ≡ₚ concat pmas ++ ks /\
      (length pmas' <= S (length pmas))%nat /\ (pmas = [] -> ks = [] -> pmas' = []) /\
      s'.(mxPmaSize) = s.(mxPmaSize) /\ s'.(mnPmaSize) = s.(mnPmaSize))).
Proof.
  intros Hpg Hh Hfl Hsz Hn. pose proof Hfl as [(Hr & HP & Hfit) Hmem (r2 & Hup & Hur) [HnP Hruns] Hfile (Hi & Ht & Ho)].
  pose proof (encode_length ks Hfit) as Hlen. pose proof (fl_records _ _ _ _ Hfl) as Hll. unfold vdbeSorterListToPMA.
  destruct (Z.eqb_spec (nInMemory s) 0) as [E0|E0].
  { assert (ks = []) as -> by (destruct ks; [done|cbn [length] in *; lia]).
    destruct (pRecord s) eqn:HR; [|done]. apply runs_bind, runs_ensure; [done|]. apply runs_ret. split; [done|]. split; [done|].
    intros _. exists pmas. split; [|split; [by rewrite app_nil_r|split; [lia|done]]].
    constructor; cbn; try done; [|by exists r2]. rewrite HR. done. }
  apply runs_bind. eapply runs_mono; [apply (sort_ok s r2 w Hup Hur Hr); lia|]. intros [rc s1] w1 (Hs1 & Hg1 & l & r3 & -> & Hr3 & HPl & Hsort).
  set (s1 := set_unpacked _ _).
  assert (held w0 s1 (temps s1.(pTemp1)) 0 w1) as Hh1.
  { eapply held_step0; [exact Hh|exact Hs1| |unfold shape; cbn; by rewrite Hi].
    unfold owned. cbn [pRecord pUnpacked aIter s1 set_unpacked set_record]. rewrite Hup, HPl. cbn. lia. }
  apply runs_bind. eapply runs_mono; [apply (open_temp_ok w0 s1 rc pmas w1 Hh1)|].
  { change (pTemp1 s1) with (pTemp1 s). destruct (_ =? 0); [done|]. eapply pma_file_step; [exact (step_contents _ _ _ _ Hs1)|exact Hfile]. }
  intros [rc' s2] w2 (f & -> & Hh2 & Hg2 & Hok2). set (s2 := set_temp s1 f) in *.
  assert (good w0 -> rc' = SQLITE_OK) as Hgood2.
  { intros Hg. apply Hg2; [by apply (held_good _ _ _ _ _ Hh1)|]. apply Hg1. by apply (held_good _ _ _ _ _ Hh). }
  destruct (Z.eqb_spec rc' SQLITE_OK) as [Hrc'|Hrc']; [|by apply runs_ret].
  destruct (Hok2 Hrc') as (-> & Hf0 & Hpf). specialize (Hsort eq_refl).
  assert (map pVal l ≡ₚ ks) as HPk by (by rewrite HPl). assert (Forall record_ok l) as Hrl by (by rewrite HPl).
  eapply (write_pma_ok _ _ s2 (map pVal l) f); try done.
  - by rewrite HPk.
  - change (nInMemory s2) with (nInMemory s). rewrite Hmem. f_equal. by apply encode_perm.
  - change (nInMemory s2) with (nInMemory s). lia.
  - intros rc3 eof w3 Hs3 His3 Hg3 Hok3. apply runs_ret. set (s3 := set_pma _ _ _).
    assert (temps (pTemp1 s3) = [f]) as Hft by (unfold temps; cbn; by rewrite (proj2 (Z.eqb_neq f 0) Hf0)).
    rewrite Hft. unfold temps in Hh2. rewrite (proj2 (Z.eqb_neq f 0) Hf0) in Hh2. split.
    { eapply held_step; [exact Hh2|exact Hs3|done|intros g Hg; apply list_elem_of_singleton in Hg as ->; done| |unfold shape; cbn; by rewrite Hi].
      unfold owned. cbn [pRecord pUnpacked aIter s3 s2 s1 set_pma set_record set_temp set_unpacked length]. rewrite length_map. lia. }
    split; [intros Hg; apply Hg3; by apply (held_good _ _ _ _ _ Hh2)|]. intros Hrc3. exists (pmas ++ [map pVal l]).
    split; [|split; [rewrite concat_app; cbn [concat]; by rewrite app_nil_r, HPk|split; [rewrite length_app; cbn; lia|split; [|done]]]].
    + constructor; cbn; try done; [by exists r3| |by rewrite (proj2 (Z.eqb_neq f 0) Hf0); apply Hok3].
      split; [rewrite HnP, wrap_s_small, length_app by (lia || (unfold in_s; lia)); cbn; lia|].
      apply Forall_app. split; [done|]. constructor; [|constructor]. split; [intros E; rewrite E in HPk; apply Permutation_nil in HPk; subst ks; by cbn in Hmem|].
      split; [|split; [by rewrite HPk|done]]. apply Forall_map. eapply Forall_impl; [exact Hrl|by intros r [_ ?]].
    + intros -> ->. by cbn in Hmem.
Qed.

(** ** Adding a record *)

Lemma runs_count pmas : Forall run_ok pmas -> (length pmas <= length (concat pmas))%nat.
Proof.
  induction 1 as [|ks pmas (Hne & _) _ IH]; [done|]. cbn [concat length]. rewrite length_app. destruct ks; [done|]. cbn [length]. lia.
Qed.

Lemma write_ok_sorter w0 s pmas ks nf z w : 0 < pgsz -> held w0 s (temps s.(pTemp1)) 0 w -> filling s pmas ks w ->
  key_fits z -> valid_key z -> Z.of_nat (length (encode (z :: ks))) < 2 ^ 31 -> Z.of_nat (length pmas) + 1 < 2 ^ 31 ->
  runs (sqlite3VdbeSorterWrite oom ki pgsz s nf z) w (fun '(rc, s') w' => held w0 s' (temps s'.(pTemp1)) 0 w' /\
    (good w0 -> rc = SQLITE_OK) /\
    (rc = SQLITE_OK -> s'.(mxPmaSize) = s.(mxPmaSize) /\ s'.(mnPmaSize) = s.(mnPmaSize) /\
      (0 < s.(mxPmaSize) -> s'.(nInMemory) <= s.(mxPmaSize)) /\
      exists pmas' ks', filling s' pmas' ks' w' /\ concat pmas' ++ ks' ≡ₚ z :: concat pmas ++ ks)).
Proof.
  intros Hpg Hh Hfl Hz Hvz Hsz Hn. pose proof Hfl as [(Hr & HP & Hfit) Hmem (r2 & Hup & Hur) HnP Hfile (Hi & Ht & Ho)].
  pose proof (entry_length z Hz) as He. pose proof Hz as [_ Hzl].
  destruct (varint_bytes (Z.of_nat (length z))) as (_ & _ & Hvl & _); [lia|].
  assert (Z.of_nat (length (encode (z :: ks))) = Z.of_nat (length (entry z)) + Z.of_nat (length (encode ks))) as Hez
    by (unfold encode; cbn [map concat]; rewrite length_app; lia).
  unfold sqlite3VdbeSorterWrite. rewrite wrap_u_small by (unfold in_u; lia).
  rewrite wrap_s_small by (lia || (unfold in_s; lia)). set (s1 := set_inMemory s _).
  assert (nInMemory s1 = Z.of_nat (length (encode (z :: ks)))) as Hmem1 by (cbn [nInMemory s1 set_inMemory]; lia).
  apply runs_bind, runs_db_alloc. intros [] w1 Hs1 Hg1 _ _; cbn [negb].
  2:{ apply runs_ret. split; [eapply held_step0; [exact Hh|exact Hs1|unfold owned; cbn; lia|unfold shape; cbn; by rewrite Hi]|].
      split; [intros Hg; by apply (held_good _ _ _ _ _ Hh), Hg1 in Hg|done]. }
  set (s2 := set_record s1 _). assert (held w0 s2 (temps s2.(pTemp1)) 0 w1) as Hh2.
  { eapply held_step0; [exact Hh|exact Hs1| |unfold shape; cbn; by rewrite Hi].
    unfold owned. cbn [pRecord pUnpacked aIter s2 s1 set_record set_inMemory length]. lia. }
  assert (filling s2 pmas (z :: ks) w1) as Hfl2.
  { constructor; cbn [pRecord nInMemory pUnpacked nPMA pTemp1 iWriteOff aIter aTree so_iReadOff s2 s1 set_record set_inMemory]; try done; [|by exists r2|].
    - split; [by constructor|]. split; [cbn [map]; by rewrite HP|by constructor].
    - destruct (_ =? 0); [done|]. eapply pma_file_step; [exact (step_contents _ _ _ _ Hs1)|done]. }
  destruct (Z.ltb_spec 0 (mxPmaSize s2)) as [Hmx|Hmx]; cbn [andb].
  2:{ apply runs_ret. split; [done|]. split; [done|]. intros _. split; [done|]. split; [done|]. split; [cbn in *; lia|].
      exists pmas, (z :: ks). split; [done|]. by rewrite Permutation_middle. }
  destruct ((nInMemory s2 >? mxPmaSize s2) || ((nInMemory s2 >? mnPmaSize s2) && nf)) eqn:Hfull.
  - apply runs_bind. eapply runs_mono; [apply (list_to_pma_ok w0 s2 pmas (z :: ks) w1 Hpg Hh2 Hfl2); lia|].
    intros [rc s3] w3 (Hh3 & Hg3 & Hok3). apply runs_ret.
    split; [eapply held_same; [exact Hh3|done|exact (hd_shape _ _ _ _ _ Hh3)]|]. split; [done|]. intros Hrc.
    destruct (Hok3 Hrc) as (pmas' & Hfl3 & HP3 & _ & _ & Hmx3 & Hmn3). split; [done|]. split; [done|]. split; [cbn; lia|].
    exists pmas', []. split; [done|]. by rewrite app_nil_r, HP3, Permutation_middle.
  - apply orb_false_iff in Hfull as [Hle _]. rewrite Z.gtb_ltb in Hle. apply Z.ltb_ge in Hle.
    apply runs_ret. split; [done|]. split; [done|]. intros _. split; [done|]. split; [done|]. split; [intros _; exact Hle|].
    exists pmas, (z :: ks). split; [done|]. by rewrite Permutation_middle.
Qed.

End Fill.
