(* ===== verification/SorterPass.v ===== *)
(** * The sorter: passes over the packed arrays

    An initialised merge holds the keys of the next arrays; a pass merges them,
    16 at a time, into another file; passes are made until 16 arrays are left. *)

From Stdlib Require Import Sorted.
From S2P Require Import Prelude Varint Ints Mem Heap Serial Vfs Sorter SorterRead SorterWrite SorterState SorterList SorterFill SorterTree SorterMerge.

Section Pass.
Context {V : Vfs} {U : Indeterminate} {VL : VfsLaws V} {oom : bool} {ki : KeyInfo} {KO : KeyOrder oom ki} (pgsz : Z).

(** ** Loading the iterators *)

Definition loaded (s : VdbeSorter) its off : VdbeSorter := set_readOff (set_tree s (Some its) s.(aTree) s.(nTree)) off.

(** The arrays [todo] are what is left of the file, from [pos] to [eof]. *)
Record at_pmas (bs : list Z) (pos eof : Z) (todo : list (list (list Z))) : Prop := {
  ap_pos : 0 <= pos;
  ap_eof : pos + Z.of_nat (length (pmas_bytes todo)) = eof;
  ap_len : eof <= Z.of_nat (length bs);
  ap_sub : sub bs (Z.to_nat pos) (length (pmas_bytes todo)) = pmas_bytes todo;
  ap_bytes : bytes_ok bs;
  ap_runs : Forall run_ok todo;
  ap_size : Z.of_nat (length (encode (concat todo))) < 2 ^ 56 }.

Lemma pmas_bytes_cons ks pmas : pmas_bytes (ks :: pmas) = pma ks ++ pmas_bytes pmas.
Proof. done. Qed.

Lemma at_pmas_cons bs pos eof ks todo : at_pmas bs pos eof (ks :: todo) ->
  sub bs (Z.to_nat pos) (length (pma ks)) = pma ks /\ run_ok ks /\ Z.of_nat (length (encode ks)) < 2 ^ 56 /\
  pos + Z.of_nat (length (pma ks)) <= eof /\
  at_pmas bs (pos + Z.of_nat (length (pma ks))) eof todo.
Proof.
  intros [Hp He Hl Hs Hb Hr Hz]. rewrite pmas_bytes_cons in He, Hs. rewrite length_app in He, Hs.
  apply Forall_cons in Hr as [Hk Hr]. cbn [concat] in Hz. rewrite encode_app, length_app in Hz.
  destruct (sub_prefix bs (pma ks) (pmas_bytes todo) (Z.to_nat pos) (length (pma ks) + length (pmas_bytes todo))) as (H1 & H2 & _); [done|lia|].
  split; [done|]. split; [done|]. split; [lia|]. split; [lia|]. constructor; try done; [lia|lia| |lia].
  etrans; [|exact H2]. f_equal; lia.
Qed.

Lemma pma_nonempty ks : run_ok ks -> (0 < length (pma ks))%nat.
Proof.
  intros (Hne & _ & Hfit & _). unfold pma. rewrite length_app. pose proof (encode_length ks Hfit). destruct ks; [done|]. cbn [length] in *. lia.
Qed.

Lemma init_iters_ok bs eof f : f <> 0 -> 0 < pgsz < 2 ^ 30 -> forall m pref todo n s its pos nByte w, todo <> [] -> (min m (length todo) <= n)%nat ->
  s.(pTemp1) = f -> contents w.(fs) f = Some bs -> s.(so_iReadOff) = pos -> s.(iWriteOff) = eof -> at_pmas bs pos eof todo ->
  s.(aIter) = Some its -> Forall2 (iter_rep f bs) its (pref ++ replicate n []) ->
  runs (init_iters pgsz m s (Z.of_nat (length pref)) nByte) w (fun '(rc, s', n') w' =>
    exists its' off, s' = loaded s its' off /\ length its' = length its /\
      step [] w w' (iters_blocks its' - iters_blocks its) /\ (good w -> rc = SQLITE_OK) /\
      (rc = SQLITE_OK -> off = pos + Z.of_nat (length (pmas_bytes (take m todo))) /\
        n' = nByte + Z.of_nat (length (encode (concat (take m todo)))) /\
        Forall2 (iter_rep f bs) its' (pref ++ take m todo ++ replicate (n - length (take m todo)) []))).
Proof.
  intros Hf Hpg. induction m as [|m IH]; intros pref todo n s its pos nByte w Hne Hmin Hsf Hc Hpos Heof Hat Hits HF; cbn [init_iters].
  { apply runs_ret. exists its, pos. split; [unfold loaded; destruct s; cbn in *; by subst|]. split; [done|].
    split; [eapply step_mono; [apply step_refl|done|lia]|]. split; [done|]. intros _. cbn [take concat app length]. change (length (pmas_bytes _)) with 0%nat. change (length (encode _)) with 0%nat. rewrite Nat.sub_0_r. split; [lia|]. split; [lia|done]. }
  destruct todo as [|ks todo]; [done|]. destruct n as [|n]; [cbn in Hmin; lia|].
  destruct (at_pmas_cons _ _ _ _ _ Hat) as (Hsub & Hrun & Hsz & Hle & Hat'). pose proof (pma_nonempty _ Hrun) as Hpne.
  apply runs_bind, (runs_must _ its); [done|]. rewrite Nat2Z.id.
  assert (its !! length pref = Some zero_iter) as Hp.
  { destruct (Forall2_lookup_r _ _ _ (length pref) [] HF) as (p & Hp & Hr); [by rewrite lookup_app_r, Nat.sub_diag by lia|].
    cbn in Hr. by subst. }
  apply runs_bind, (runs_must _ zero_iter); [done|]. apply runs_bind.
  pose proof Hrun as (Hkne & Hval & Hfit & Hsort). pose proof (ap_pos _ _ _ _ Hat) as Hp0. pose proof (ap_len _ _ _ _ Hat) as Hbl.
  eapply runs_mono; [apply (iter_init_ok pgsz s bs ks (so_iReadOff s) nByte w Hpg); rewrite ?Hsf, ?Hpos, ?Heof; try done; by destruct Hat|].
  intros [[rc p'] n'] w1 (Hs1 & Hg1 & Hok1). set (its1 := <[length pref := p']> its). set (s1 := loaded s its1 (iEof p')).
  assert (iters_blocks its1 - iters_blocks its = iblocks p') as Hb1 by (unfold its1; rewrite (iters_blocks_insert _ _ _ _ Hp); change (iblocks zero_iter) with 0; lia).
  change (set_readOff _ _) with s1.
  destruct (Z.eqb_spec rc SQLITE_OK) as [Hrc|Hrc]; cbn [negb orb].
  2:{ apply runs_bind, runs_ensure; [done|]. apply runs_ret. exists its1, (iEof p'). split; [done|].
      split; [by apply length_insert|]. split; [by rewrite Hb1|]. done. }
  destruct (Hok1 Hrc) as (Hrep & He1 & Hn1). rewrite Hpos in He1. change (so_iReadOff s1) with (iEof p'). change (iWriteOff s1) with (iWriteOff s).
  rewrite Heof, He1. apply runs_bind, runs_ensure; [by apply Z.leb_le|].
  assert (Forall2 (iter_rep f bs) its1 ((pref ++ [ks]) ++ replicate n [])) as HF1.
  { pose proof (Forall2_insert _ _ _ p' ks (length pref) HF ltac:(by rewrite <- Hsf)) as H.
    replace (length pref) with (length pref + 0)%nat in H at 2 by lia. rewrite insert_app_r in H. by rewrite <- (assoc_L (++)). }
  rewrite Z.geb_leb. destruct (Z.leb_spec eof (pos + Z.of_nat (length (pma ks)))) as [Hend|Hmore].
  - apply runs_ret. exists its1, (iEof p'). split; [done|]. split; [by apply length_insert|]. split; [by rewrite Hb1|]. split; [done|]. intros _.
    assert (todo = []) as ->.
    { destruct todo as [|ks2 todo]; [done|]. exfalso. destruct (at_pmas_cons _ _ _ _ _ Hat') as (_ & Hr2 & _ & Hle2 & _).
      pose proof (pma_nonempty _ Hr2). lia. }
    cbn [take]. rewrite take_nil. cbn [length concat]. rewrite app_nil_r, pmas_bytes_cons, app_nil_r, Nat.sub_1_r. cbn [Nat.pred].
    split; [lia|]. split; [lia|]. by rewrite (assoc_L (++)).
  - replace (Z.of_nat (length pref) + 1) with (Z.of_nat (length (pref ++ [ks]))) by (rewrite length_app; cbn; lia).
    eapply runs_mono; [apply (IH (pref ++ [ks]) todo n s1 its1 (pos + Z.of_nat (length (pma ks))) n' w1); try done|].
    + intros ->. pose proof (ap_eof _ _ _ _ Hat') as E. cbn in E. lia.
    + cbn [length Nat.min] in Hmin. lia.
    + by rewrite (step_contents _ _ _ _ Hs1).
    + intros [[rc2 s2] n2] w2 (its2 & off & -> & Hl2 & Hs2 & Hg2 & Hok2). exists its2, off. split; [done|].
      split; [rewrite Hl2; by apply length_insert|]. split; [eapply step_mono; [exact (step_trans _ _ _ _ _ _ Hs1 Hs2)|done|lia]|].
      split; [intros Hg; apply Hg2; by apply (step_good _ _ _ _ Hs1)|]. intros Hrc2. destruct (Hok2 Hrc2) as (-> & -> & HF2).
      cbn [take length concat]. rewrite pmas_bytes_cons, encode_app, !length_app. split; [lia|]. split; [lia|].
      rewrite <- (assoc_L (++)) in HF2. exact HF2.
Qed.

(** Nothing is loaded, and the tree has room for [N] iterators. *)
Record idle (s : VdbeSorter) (N : nat) : Prop := {
  id_size : s.(nTree) = Z.of_nat N /\ Nat.Even N /\ (2 <= N)%nat;
  id_iters : s.(aIter) = Some (replicate N zero_iter);
  id_shape : shape s;
  id_up : exists r2, s.(pUnpacked) = Some r2 /\ up_ok r2 }.

Lemma retree_refl s : retree s s.
Proof. exists s.(pUnpacked), s.(aIter), s.(aTree). split; [done|]. by destruct s. Qed.

Lemma shape_loaded s its its' off : s.(aIter) = Some its -> length its' = length its -> shape s -> shape (loaded s its' off).
Proof. unfold shape. intros -> E (t & a & H). exists t, a. by rewrite E. Qed.

Lemma concat_nils {A} (n : nat) : concat (replicate n (@nil A)) = [].
Proof. by induction n. Qed.

Lemma init_merge_ok s N bs todo w : 0 < pgsz < 2 ^ 30 -> idle s N -> s.(pTemp1) <> 0 -> contents w.(fs) s.(pTemp1) = Some bs ->
  at_pmas bs s.(so_iReadOff) s.(iWriteOff) todo -> todo <> [] -> (Nat.min 16 (length todo) <= N)%nat ->
  runs (vdbeSorterInitMerge oom ki pgsz s) w (fun '(rc, s', nByte) w' =>
    exists off, retree (set_readOff s off) s' /\ step [] w w' (owned s' - owned s) /\ shape s' /\ (good w -> rc = SQLITE_OK) /\
      (rc = SQLITE_OK -> off = s.(so_iReadOff) + Z.of_nat (length (pmas_bytes (take 16 todo))) /\
        nByte = Z.of_nat (length (encode (concat (take 16 todo)))) /\
        exists rests, merging s' bs rests /\ concat rests = concat (take 16 todo))).
Proof.
  intros Hpg [(HN & He & H2) Hits Hsh (r2 & Hup & Hur)] Hf Hc Hat Hne Hmin. unfold vdbeSorterInitMerge.
  apply runs_bind. eapply runs_mono.
  { apply (init_iters_ok bs (iWriteOff s) (pTemp1 s) Hf Hpg 16 [] todo N s (replicate N zero_iter) (so_iReadOff s) 0 w Hne Hmin); try done.
    cbn [app]. by apply Forall2_replicate. }
  intros [[rc s1] n1] w1 (its1 & off & -> & Hl1 & Hs1 & Hg1 & Hok1). rewrite length_replicate in Hl1. set (s1 := loaded s its1 off).
  assert (shape s1) as Hsh1 by (apply (shape_loaded s (replicate N zero_iter)); [done|by rewrite length_replicate|done]).
  assert (owned s1 - owned s = iters_blocks its1 - iters_blocks (replicate N zero_iter)) as Ho1.
  { unfold owned. cbn [pRecord pUnpacked aIter s1 loaded set_tree set_readOff]. rewrite Hits. lia. }
  destruct (Z.eqb_spec rc SQLITE_OK) as [Hrc|Hrc].
  2:{ apply runs_bind, runs_ret. apply runs_ret. exists off. split; [exists s.(pUnpacked), (Some its1), s.(aTree); split; [cbn; by rewrite Hits|by destruct s]|].
      split; [by rewrite Ho1|]. split; [done|]. split; [done|]. by intros ?. }
  destruct (Hok1 Hrc) as (-> & -> & HF). cbn [app] in HF. set (rests := take 16 todo ++ _) in *.
  assert (length rests = N) as Hlr by (rewrite <- (Forall2_length _ _ _ HF); done).
  unfold shape in Hsh1. cbn [aIter aTree nTree s1 loaded set_tree set_readOff] in Hsh1. destruct Hsh1 as (t & a & Ht & _ & Hlt & _).
  pose proof (ap_runs _ _ _ _ Hat) as Hruns.
  assert (Forall run_ok (take 16 todo)) as Htk by (by apply Forall_take).
  assert (valid_rests rests) as Hv.
  { apply Forall_app. split; [eapply Forall_impl; [exact Htk|by intros ks (_ & ? & _)]|]. apply Forall_replicate. constructor. }
  destruct (init_tree_ok N its1 rests bs He Hlr Hv H2 (N - 1) s1 t r2) as (t' & r3 & Hrun & Htok & Hr3); try done; [lia|congruence|intros; lia|].
  apply runs_bind, (runs_must _ (upd s1 t' r3)).
  { change (nTree s1) with (nTree s). rewrite HN. replace (Z.to_nat (Z.of_nat N - 1)) with (N - 1)%nat by lia. done. }
  apply runs_ret. assert (merging (upd s1 t' r3) bs rests) as Hm.
  { constructor; rewrite ?Hlr; try done; [by eexists|by exists t'|by exists r3|].
    apply Forall_app. split; [eapply Forall_impl; [exact Htk|by intros ks (_ & _ & _ & ?)]|]. apply Forall_replicate. constructor. }
  eexists. split; [exists (Some r3), (Some its1), (Some t'); split; [cbn; by rewrite Hits|reflexivity]|]. split.
  { eapply step_mono; [exact Hs1|done|]. rewrite <- Ho1. unfold owned. cbn [pRecord pUnpacked aIter s1 loaded set_tree upd set_unpacked set_readOff].
    by rewrite Hup. }
  split; [by eapply merging_shape|]. split; [done|]. intros _. split; [done|]. split; [done|].
  exists rests. split; [done|]. unfold rests. by rewrite concat_app, concat_nils, app_nil_r.
Qed.

(** ** Merging into the other file *)

Lemma done_idle s bs rests : merging s bs rests -> concat rests = [] -> idle s (length rests).
Proof.
  intros Hm Hnil. pose proof (merging_shape _ _ _ Hm) as Hsh. destruct Hm as [HN (its & Hits & HF) _ _ Hup _ _].
  constructor; try done. rewrite Hits. f_equal. clear -HF Hnil. induction HF as [|p l its rests Hr _ IH]; [done|].
  cbn [concat length replicate] in *. apply app_eq_nil in Hnil as [-> Hnil]. cbn in Hr. by rewrite Hr, IH.
Qed.

Lemma merge_loop_ok f2 bs : forall fuel s rests p L w, (length (concat rests) < fuel)%nat -> concat rests <> [] -> merging s bs rests ->
  contents w.(fs) s.(pTemp1) = Some bs -> f2 <> s.(pTemp1) -> wstate p f2 L w ->
  runs (merge_loop oom ki fuel s p) w (fun '(rc, s', p') w' =>
    step [f2] w w' (owned s' - owned s) /\ wblocks p' = wblocks p /\ shape s' /\ retree s s' /\
    (good w -> rc = SQLITE_OK /\ (p.(eFWErr) = 0 -> p'.(eFWErr) = 0)) /\
    exists L', wstate p' f2 L' w' /\
      (rc = SQLITE_OK -> idle s' (length rests) /\ exists out, L' = L ++ encode out /\ out ≡ₚ concat rests /\ sorted_keys out)).
Proof.
  induction fuel as [|fuel IH]; intros s rests p L w Hfuel Hne Hm Hc Hf2 Hw; [lia|]. cbn [merge_loop].
  destruct (merge_next_ok s bs rests w Hm Hc Hne) as (q & pi & k & l & Hwin & Hpf & Hk & Hn & Hfit & Hle & Hl & _).
  apply runs_bind, (runs_must _ (q, pi)); [done|]. apply runs_bind, runs_ensure; [by rewrite (proj2 (Z.eqb_neq _ 0) Hpf)|].
  pose proof Hfit as [Hkb Hkl]. rewrite Hn.
  apply runs_bind. eapply runs_mono; [apply (write_varint_ok p f2 _ L w); [lia|done]|]. intros p1 w1 (Hs1 & Hb1 & Hg1 & Hw1).
  apply runs_bind, (runs_must _ k); [done|].
  apply runs_bind. eapply runs_mono; [by apply (write_ok p1 f2 k _ w1 Hkb Hw1)|]. intros p2 w2 (Hs2 & Hb2 & Hg2 & Hw2).
  pose proof (step_trans _ _ _ _ _ _ Hs1 Hs2) as Hs12.
  assert (contents w2.(fs) s.(pTemp1) = Some bs) as Hc2.
  { destruct Hs12 as (Hsame & _). rewrite Hsame; [done|]. intros E%list_elem_of_singleton. congruence. }
  destruct (merge_next_ok s bs rests w2 Hm Hc2 Hne) as (q' & pi' & k' & l' & Hwin' & _ & Hk' & _ & _ & _ & Hl' & Hrun).
  rewrite Hwin in Hwin'. injection Hwin' as <- <-. rewrite Hk in Hk'. injection Hk' as <-. rewrite Hl in Hl'. injection Hl' as <-.
  set (rests' := <[Z.to_nat q := l]> rests) in *. pose proof (concat_insert _ _ _ _ Hl) as HP. fold rests' in HP.
  apply runs_bind. eapply runs_mono; [exact Hrun|]. intros [[rc eof] s3] w3 (Hs3 & Hsh3 & Hrt3 & Hg3 & Hok3).
  assert (step [f2] w w3 (owned s3 - owned s)) as Hs123.
  { eapply step_mono; [eapply step_trans; [exact Hs12|eapply step_mono; [exact Hs3|intros g Hg0; by apply elem_of_nil in Hg0|reflexivity]]|done|lia]. }
  assert (wstate p2 f2 (L ++ entry k) w3) as Hw3.
  { unfold entry. rewrite (assoc_L (++)). destruct Hw2 as [H1 H2]. unfold wstate. by rewrite (step_contents _ _ _ _ Hs3). }
  assert (good w -> good w2 /\ (p.(eFWErr) = 0 -> p2.(eFWErr) = 0)) as Hgg.
  { intros Hg. pose proof (step_good _ _ _ _ Hs1 Hg) as G1. split; [by apply (step_good _ _ _ _ Hs2)|].
    intros E. apply Hg2; [done|]. by apply Hg1. }
  destruct (Z.eqb_spec rc SQLITE_OK) as [Hrc|Hrc]; cbn [andb].
  2:{ apply runs_ret. split; [done|]. split; [congruence|]. split; [done|]. split; [done|].
      split; [intros Hg; destruct (Hgg Hg) as [G2 E2]; split; [by apply Hg3|done]|]. eexists. split; [exact Hw3|done]. }
  destruct (Hok3 Hrc) as [Hm3 ->]. case_bool_decide as Hnil; cbn [negb].
  - apply runs_ret. split; [done|]. split; [congruence|]. split; [done|]. split; [done|].
    split; [intros Hg; destruct (Hgg Hg) as [G2 E2]; by split|]. eexists. split; [exact Hw3|]. intros _.
    split; [pose proof (done_idle _ _ _ Hm3 Hnil) as H; unfold rests' in H; by rewrite length_insert in H|].
    exists [k]. split; [unfold encode; cbn [map concat]; by rewrite app_nil_r|]. split; [by rewrite HP, Hnil|]. repeat constructor.
  - assert (pTemp1 s3 = pTemp1 s) as Hf3 by (destruct Hrt3 as (? & ? & ? & ? & ->); done).
    eapply runs_mono; [apply (IH s3 rests' p2 (L ++ entry k) w3); try done|].
    + rewrite HP in Hfuel. cbn [length] in Hfuel. lia.
    + rewrite Hf3. by rewrite (step_contents _ _ _ _ Hs3).
    + by rewrite Hf3.
    + intros [[rc4 s4] p4] w4 (Hs4 & Hb4 & Hsh4 & Hrt4 & Hg4 & L' & Hw4 & Hok4).
      split; [eapply step_mono; [exact (step_trans _ _ _ _ _ _ Hs123 Hs4)|done|lia]|]. split; [congruence|]. split; [done|].
      split; [by eapply retree_trans|]. split.
      { intros Hg. destruct (Hgg Hg) as [G2 E2]. destruct (Hg4 (step_good _ _ _ _ Hs123 Hg)) as [E3 E4]. split; [done|]. intros E. by apply E4, E2. }
      exists L'. split; [done|]. intros Hrc4. destruct (Hok4 Hrc4) as (Hid & out & -> & HPo & Hso).
      unfold rests' in Hid. rewrite length_insert in Hid. split; [done|]. exists (k :: out).
      split; [unfold encode; cbn [map concat]; by rewrite <- (assoc_L (++))|]. split; [by rewrite HP, HPo|].
      apply keys_cons; [|done]. rewrite HP in Hle. apply Forall_cons in Hle as [_ Hle]. by rewrite HPo.
Qed.

Lemma write_merge_ok s bs rests f2 iW outs nW w : 0 < pgsz -> merging s bs rests -> contents w.(fs) s.(pTemp1) = Some bs ->
  concat rests <> [] -> f2 <> 0 -> f2 <> s.(pTemp1) -> pma_file w f2 iW outs -> nW = Z.of_nat (length (encode (concat rests))) ->
  nW < 2 ^ 56 -> Z.of_nat (length (concat rests)) <= s.(iWriteOff) ->
  runs (writer ← fileWriterInit pgsz f2 iW;
        writer ← fileWriterWriteVarint writer nW;
        '(rc, s, writer) ← merge_loop oom ki (S (Z.to_nat s.(iWriteOff))) s writer;
        '(rc2, iWrite2) ← fileWriterFinish writer;
        mret (if rc =? SQLITE_OK then rc2 else rc, s, iWrite2)) w
    (fun '(rc, s', iW') w' => step [f2] w w' (owned s' - owned s) /\ is_Some (contents w'.(fs) f2) /\ shape s' /\ retree s s' /\
      (good w -> rc = SQLITE_OK) /\
      (rc = SQLITE_OK -> idle s' (length rests) /\ exists out, out ≡ₚ concat rests /\ sorted_keys out /\ pma_file w' f2 iW' (outs ++ [out]))).
Proof.
  intros Hpg Hm Hc Hne Hf Hf2 (bs2 & Hc2 & Hb & He & Hle & Hsub) HnW Hlt Hfuel.
  apply runs_bind. eapply runs_mono; [apply (writer_init_ok pgsz f2 bs2 iW w Hpg Hf Hc2 Hb); lia|]. intros p1 w1 (Hs1 & Hg1 & Hw1).
  rewrite He, Nat2Z.id, Hsub in Hw1.
  apply runs_bind. eapply runs_mono; [apply (write_varint_ok p1 f2 nW (pmas_bytes outs) w1); [lia|done]|]. intros p2 w2 (Hs2 & Hb2 & Hg2 & Hw2).
  pose proof (step_trans _ _ _ _ _ _ Hs1 Hs2) as Hs12.
  assert (contents w2.(fs) s.(pTemp1) = Some bs) as Hc2'.
  { destruct Hs12 as (Hsame & _). rewrite Hsame; [done|]. intros E%list_elem_of_singleton. congruence. }
  apply runs_bind. eapply runs_mono; [apply (merge_loop_ok f2 bs (S (Z.to_nat (iWriteOff s))) s rests p2 (pmas_bytes outs ++ sqlite3PutVarint nW) w2); try done; lia|].
  intros [[rc s3] p3] w3 (Hs3 & Hb3 & Hsh3 & Hrt3 & Hg3 & L' & Hw3 & Hok3).
  apply runs_bind. eapply runs_mono; [exact (writer_finish_ok p3 f2 _ w3 Hw3)|]. intros [rc2 eof'] w4 (Hs4 & His & Hg4 & Hok4).
  apply runs_ret. split.
  { eapply step_mono; [exact (step_trans _ _ _ _ _ _ Hs12 (step_trans _ _ _ _ _ _ Hs3 Hs4))|done|rewrite Hb3, Hb2; lia]. }
  split; [done|]. split; [done|]. split; [done|]. split.
  { intros Hg. pose proof (step_good _ _ _ _ Hs12 Hg) as G2. destruct (Hg3 G2) as [-> E3]. cbn.
    apply Hg4; [by apply (step_good _ _ _ _ Hs3)|]. apply E3, Hg2; [by apply (step_good _ _ _ _ Hs1)|by apply Hg1]. }
  destruct (Z.eqb_spec rc SQLITE_OK) as [Hrc|Hrc]; [|done]. intros Hrc2. destruct (Hok3 Hrc) as (Hid & out & -> & HP & Hso).
  split; [done|]. exists out. split; [done|]. split; [done|]. destruct (Hok4 Hrc2) as (He' & bs' & Hc' & Hsub' & Hl' & Hb').
  assert ((pmas_bytes outs ++ sqlite3PutVarint nW) ++ encode out = pmas_bytes (outs ++ [out])) as E.
  { rewrite pmas_bytes_snoc. unfold pma. by rewrite HnW, (encode_perm _ _ HP), <- (assoc_L (++)). }
  rewrite E in *. exists bs'. split; [done|]. split; [done|]. split; [done|]. split; [lia|done].
Qed.

(** ** One pass *)

(** [dn] of the arrays have been merged into [outs]. *)
Record passing (s : VdbeSorter) (f2 iW iNew : Z) (dn todo outs : list (list (list Z))) (w : world V) : Prop := {
  ps_idle : idle s 16;
  ps_temp : s.(pTemp1) <> 0;
  ps_in : exists bs, contents w.(fs) s.(pTemp1) = Some bs /\ at_pmas bs s.(so_iReadOff) s.(iWriteOff) todo;
  ps_count : s.(nPMA) = Z.of_nat (length dn + length todo) /\ 16 < s.(nPMA) < 2 ^ 31 - 16;
  ps_new : iNew = Z.of_nat (length outs) /\ 16 * iNew < s.(nPMA) + 16 /\ if todo then s.(nPMA) <= 16 * iNew else Z.of_nat (length dn) = 16 * iNew;
  ps_out : if f2 =? 0 then outs = [] /\ iW = 0 else pma_file w f2 iW outs;
  ps_runs : Forall run_ok outs /\ concat outs ≡ₚ concat dn }.

Lemma at_pmas_skip bs eof a : forall pos b, at_pmas bs pos eof (a ++ b) -> at_pmas bs (pos + Z.of_nat (length (pmas_bytes a))) eof b.
Proof.
  induction a as [|ks a IH]; intros pos b H; [by rewrite Z.add_0_r|].
  destruct (at_pmas_cons _ _ _ _ _ H) as (_ & _ & _ & _ & H'). apply IH in H'. rewrite pmas_bytes_cons, length_app.
  replace (pos + Z.of_nat (length (pma ks) + length (pmas_bytes a))) with (pos + Z.of_nat (length (pma ks)) + Z.of_nat (length (pmas_bytes a))) by lia.
  done.
Qed.

Lemma runs_fit pmas : Forall run_ok pmas -> Forall valid_key (concat pmas) /\ Forall key_fits (concat pmas).
Proof. intros H. split; apply Forall_concat; (eapply Forall_impl; [exact H|by intros ks (_ & ? & ? & _)]). Qed.

Lemma keys_in_bytes pmas : Forall run_ok pmas -> (length (concat pmas) <= length (pmas_bytes pmas))%nat.
Proof.
  induction 1 as [|ks pmas (_ & _ & Hfit & _) _ IH]; [done|]. cbn [concat]. rewrite pmas_bytes_cons, !length_app.
  unfold pma. rewrite length_app. pose proof (encode_length ks Hfit). lia.
Qed.

Lemma run_nonempty todo : Forall run_ok todo -> todo <> [] -> concat (take 16 todo) <> [].
Proof.
  intros H Hne. destruct todo as [|ks todo]; [done|]. apply Forall_cons in H as [(Hk & _) _]. cbn. by destruct ks.
Qed.

(** What the merged arrays are. *)
Lemma merged_run_ok todo out : Forall run_ok todo -> todo <> [] -> out ≡ₚ concat (take 16 todo) -> sorted_keys out -> run_ok out.
Proof.
  intros H Hne HP Hs. destruct (runs_fit (take 16 todo)) as [Hv Hf]; [by apply Forall_take|]. split; [|split; [|split]].
  - intros ->. apply Permutation_nil in HP. by apply (run_nonempty todo).
  - by rewrite HP.
  - by rewrite HP.
  - done.
Qed.

(** The second file is opened when it is first needed. *)
Lemma open_second w0 s f2 iW outs w : held w0 s (temps f2 ++ temps s.(pTemp1)) 0 w ->
  (if f2 =? 0 then outs = [] /\ iW = 0 else pma_file w f2 iW outs) ->
  runs (if f2 =? 0 then vdbeSorterOpenTempFile else mret (SQLITE_OK, f2)) w (fun '(rc, f) w' =>
    held w0 s (temps f ++ temps s.(pTemp1)) 0 w' /\ (good w -> rc = SQLITE_OK) /\
    (forall g, contents w.(fs) g <> None -> contents w'.(fs) g = contents w.(fs) g) /\
    (rc = SQLITE_OK -> f <> 0 /\ pma_file w' f iW outs)).
Proof.
  intros Hh Hout. destruct (Z.eqb_spec f2 0) as [->|Hf].
  - destruct Hout as [-> ->]. apply runs_open. intros rc f w' Hg Hbad Hok. cbn [temps app] in Hh. change (temps 0) with (@nil Z) in Hh. cbn [app] in Hh.
    destruct (Z.eq_dec rc SQLITE_OK) as [Hrc|Hrc].
    + destruct (Hok Hrc) as (Hf & Hnone & Hc & Hs). split; [|split; [done|split]].
      * unfold temps at 1. rewrite (proj2 (Z.eqb_neq f 0) Hf). cbn [app]. eapply held_open; try done; by eexists.
      * intros g Hg0. destruct Hs as (Hsame & _). apply Hsame. intros E%list_elem_of_singleton. by subst.
      * intros _. split; [done|]. exists []. split; [done|]. split; [constructor|done].
    + destruct (Hbad Hrc) as (-> & Hs). split; [|split; [done|split; [intros g _; exact (step_contents _ _ _ _ Hs)|done]]].
      eapply held_step0; [exact Hh|exact Hs|lia|exact (hd_shape _ _ _ _ _ Hh)].
  - apply runs_ret. split; [done|]. split; [done|]. split; [done|]. by intros _.
Qed.

Lemma held_distinct w0 s f2 d w : held w0 s (temps f2 ++ temps s.(pTemp1)) d w -> f2 <> 0 -> s.(pTemp1) <> 0 -> f2 <> s.(pTemp1).
Proof.
  intros [_ _ Hn _] H1 H2 E. unfold temps in Hn. rewrite (proj2 (Z.eqb_neq _ 0) H1), (proj2 (Z.eqb_neq _ 0) H2) in Hn. cbn [app] in Hn.
  apply NoDup_cons in Hn as [Hn _]. apply Hn. rewrite E. left.
Qed.

(** What a pass leaves alone. *)
Definition same_pmas (s s' : VdbeSorter) : Prop := exists off, retree (set_readOff s off) s'.

Lemma same_pmas_fields s s' : same_pmas s s' -> s'.(nPMA) = s.(nPMA) /\ s'.(pTemp1) = s.(pTemp1) /\ s'.(iWriteOff) = s.(iWriteOff) /\ s'.(nTree) = s.(nTree) /\
  is_block s'.(aIter) = is_block s.(aIter).
Proof. by intros (off & r & its & t & Hb & ->). Qed.

Lemma same_pmas_refl s : same_pmas s s.
Proof. exists s.(so_iReadOff). destruct s. apply retree_refl. Qed.

Lemma same_pmas_trans s1 s2 s3 : same_pmas s1 s2 -> same_pmas s2 s3 -> same_pmas s1 s3.
Proof. intros (o & r & its & t & Hb & ->) (o' & r' & its' & t' & Hb' & ->). exists o', r', its', t'. split; [by rewrite Hb'|done]. Qed.

(** The next arrays, which [s] has loaded, go into the second file. *)
Lemma write_batch_ok w0 s bs rests rc f2 iW nW pos dn todo outs w : 0 < pgsz ->
  held w0 s (temps f2 ++ temps s.(pTemp1)) 0 w -> (good w0 -> rc = SQLITE_OK) -> (rc = SQLITE_OK -> f2 <> 0 /\ pma_file w f2 iW outs) ->
  merging s bs rests -> concat rests = concat (take 16 todo) -> contents w.(fs) s.(pTemp1) = Some bs ->
  nW = Z.of_nat (length (encode (concat (take 16 todo)))) -> at_pmas bs pos s.(iWriteOff) todo -> todo <> [] -> s.(nTree) = 16 ->
  s.(so_iReadOff) = pos + Z.of_nat (length (pmas_bytes (take 16 todo))) ->
  s.(nPMA) = Z.of_nat (length dn + length todo) -> 16 < s.(nPMA) < 2 ^ 31 - 16 -> Z.of_nat (length dn) = 16 * Z.of_nat (length outs) ->
  Forall run_ok outs -> concat outs ≡ₚ concat dn ->
  runs (if rc =? SQLITE_OK then
          writer ← fileWriterInit pgsz f2 iW;
          writer ← fileWriterWriteVarint writer nW;
          '(rc, s, writer) ← merge_loop oom ki (S (Z.to_nat s.(iWriteOff))) s writer;
          '(rc2, iWrite2) ← fileWriterFinish writer;
          mret (if rc =? SQLITE_OK then rc2 else rc, s, iWrite2)
        else mret (rc, s, iW)) w
    (fun '(rc', s', iW') w' => held w0 s' (temps f2 ++ temps s'.(pTemp1)) 0 w' /\ same_pmas s s' /\ (good w0 -> rc' = SQLITE_OK) /\
      (rc' = SQLITE_OK -> exists out, passing s' f2 iW' (Z.of_nat (length outs) + 1) (dn ++ take 16 todo) (drop 16 todo) (outs ++ [out]) w')).
Proof.
  intros Hpg Hh Hg Hout Hm Hrests Hc HnW Hat Hne HnT Hoff Hcnt H16 Hdn Hro HPo. pose proof (mg_temp _ _ _ Hm) as Hf.
  destruct (Z.eqb_spec rc SQLITE_OK) as [Hrc|Hrc]; [|apply runs_ret; split; [done|]; split; [apply same_pmas_refl|done]].
  destruct (Hout Hrc) as [Hf2 Hpf]. pose proof (held_distinct _ _ _ _ _ Hh Hf2 Hf) as Hdist.
  pose proof (ap_runs _ _ _ _ Hat) as Hruns. pose proof (run_nonempty todo Hruns Hne) as Hrne.
  assert (at_pmas bs (s.(so_iReadOff)) (iWriteOff s) (drop 16 todo)) as Hat'.
  { rewrite Hoff. apply at_pmas_skip. by rewrite take_drop. }
  assert (length (concat todo) = length (concat (take 16 todo)) + length (concat (drop 16 todo)))%nat as Hlc
    by (rewrite <- length_app, <- concat_app, take_drop; done).
  assert (length (encode (concat todo)) = length (encode (concat (take 16 todo))) + length (encode (concat (drop 16 todo))))%nat as Hle
    by (rewrite <- length_app, <- encode_app, <- concat_app, take_drop; done).
  pose proof (keys_in_bytes _ Hruns) as Hkb. destruct Hat as [Hp0 Heof _ _ _ _ Hsz].
  eapply runs_mono; [apply (write_merge_ok s bs rests f2 iW outs nW w Hpg Hm Hc); rewrite ?Hrests; try done; lia|].
  intros [[rc' s'] iW'] w' (Hs & His & Hsh & Hrt & Hgr & Hok).
  assert (same_pmas s s') as Hsm by (exists s.(so_iReadOff); by destruct s). destruct (same_pmas_fields _ _ Hsm) as (HnP & HpT & HiW & _ & _).
  assert (so_iReadOff s' = so_iReadOff s) as Hro' by (destruct Hrt as (? & ? & ? & ? & ->); done).
  split; [rewrite HpT; eapply held_step; [exact Hh|exact Hs| | |lia|done]|].
  { intros g Hg0%list_elem_of_singleton. subst. apply elem_of_app. left. unfold temps. rewrite (proj2 (Z.eqb_neq _ 0) Hf2). left. }
  { intros g Hg0%list_elem_of_singleton. by subst. }
  split; [done|]. split; [intros H; apply Hgr; by apply (held_good _ _ _ _ _ Hh)|].
  intros Hrc'. destruct (Hok Hrc') as (Hid & out & HP & Hso & Hpf'). exists out.
  assert (length rests = 16%nat) as Hl16 by (pose proof (proj1 (mg_size _ _ _ Hm)); lia). rewrite Hl16 in Hid. rewrite Hrests in HP.
  pose proof (length_take_le todo 16) as _. constructor; try done.
  - by rewrite HpT.
  - exists bs. rewrite HpT, HiW, Hro'. split; [|done]. destruct Hs as (Hsame & _). rewrite Hsame; [done|].
    intros E%list_elem_of_singleton. congruence.
  - rewrite HnP, length_app, length_take, length_drop. split; [lia|done].
  - rewrite HnP, !length_app, length_take. cbn [length]. split; [lia|].
    assert (0 < length todo)%nat by (destruct todo; [done|cbn [length]; lia]).
    destruct (drop 16 todo) as [|ks l] eqn:Hd; (apply (f_equal length) in Hd; rewrite length_drop in Hd; cbn [length] in Hd); lia.
  - by rewrite (proj2 (Z.eqb_neq _ 0) Hf2).
  - split.
    + apply Forall_app. split; [done|]. constructor; [by apply (merged_run_ok todo)|constructor].
    + rewrite !concat_app, HPo. cbn [concat]. by rewrite app_nil_r, HP.
Qed.

(** A pass merges what is left. *)
Lemma merge_pass_ok w0 : 0 < pgsz < 2 ^ 30 -> forall fuel rc s f2 iW iNew dn todo outs w, (Z.to_nat (s.(nPMA) - iNew) < fuel)%nat ->
  held w0 s (temps f2 ++ temps s.(pTemp1)) 0 w -> 16 < s.(nPMA) < 2 ^ 31 - 16 -> 0 <= iNew -> (good w0 -> rc = SQLITE_OK) ->
  (rc = SQLITE_OK -> passing s f2 iW iNew dn todo outs w) ->
  runs (merge_pass oom ki pgsz fuel rc s f2 iW iNew) w (fun '(rc', s', f2', iW', iNew') w' =>
    held w0 s' (temps f2' ++ temps s'.(pTemp1)) 0 w' /\ same_pmas s s' /\ (good w0 -> rc' = SQLITE_OK) /\
    (rc' = SQLITE_OK -> exists outs', passing s' f2' iW' iNew' (dn ++ todo) [] outs' w')).
Proof.
  intros Hpg. induction fuel as [|fuel IH]; intros rc s f2 iW iNew dn todo outs w Hfuel Hh H16 Hnew Hg Hps; [lia|]. cbn [merge_pass].
  destruct (Z.eqb_spec rc SQLITE_OK) as [Hrc|Hrc]; cbn [andb].
  2:{ apply runs_ret. split; [done|]. split; [apply same_pmas_refl|]. done. }
  specialize (Hps Hrc). pose proof Hps as [Hid Hf (bs & Hc & Hat) Hcnt (HiN & Hsm & Htodo) Hout Hrun].
  change SORTER_MAX_MERGE_COUNT with 16. rewrite wrap_s_small by (lia || (unfold in_s; lia)). destruct (Z.ltb_spec (iNew * 16) (nPMA s)) as [Hmore|Hdone].
  2:{ apply runs_ret. split; [done|]. split; [apply same_pmas_refl|]. split; [done|]. intros _. exists outs.
      destruct todo as [|ks todo]; [by rewrite app_nil_r|]. cbn [length] in Hcnt. lia. }
  assert (todo <> []) as Hne by (intros ->; lia).
  assert (Z.of_nat (length dn) = 16 * iNew) as Hdn by (by destruct todo).
  apply runs_bind. eapply runs_mono; [apply (init_merge_ok s 16 bs todo w Hpg Hid Hf Hc Hat Hne); lia|].
  intros [[rc1 s1] nW] w1 (off & Hrt & Hs1 & Hsh1 & Hg1 & Hok1).
  assert (same_pmas s s1) as Hsm1 by (by exists off). destruct (same_pmas_fields _ _ Hsm1) as (HnP & HpT & HiW & HnT & HiB).
  assert (held w0 s1 (temps f2 ++ temps s1.(pTemp1)) 0 w1) as Hh1 by (rewrite HpT; eapply held_step0; [exact Hh|exact Hs1|lia|done]).
  assert (good w0 -> rc1 = SQLITE_OK) as Hgr1 by (intros H; apply Hg1; by apply (held_good _ _ _ _ _ Hh)).
  destruct (Z.eqb_spec rc1 SQLITE_OK) as [Hrc1|Hrc1]; cbn [negb orb].
  2:{ apply runs_bind, runs_ret, runs_ret. split; [done|]. split; [done|]. done. }
  subst rc1. destruct (Hok1 eq_refl) as (-> & -> & rests & Hm & Hrests). pose proof (ap_runs _ _ _ _ Hat) as Hruns.
  assert (contents w1.(fs) s1.(pTemp1) = Some bs) as Hc1 by (rewrite HpT, <- Hc; exact (step_contents _ _ _ _ Hs1)).
  destruct (merge_next_ok s1 bs rests w1 Hm Hc1) as (q & p & _ & _ & Hwin & Hpf & _); [rewrite Hrests; by apply run_nonempty|].
  apply runs_bind, runs_bind, (runs_must _ (q, p)), runs_ensure; [done|by rewrite (proj2 (Z.eqb_neq _ 0) Hpf)|].
  rewrite HnP, (proj2 (Z.leb_gt (nPMA s) 16) (proj1 H16)).
  assert (if f2 =? 0 then outs = [] /\ iW = 0 else pma_file w1 f2 iW outs) as Hout1.
  { destruct (f2 =? 0); [done|]. eapply pma_file_step; [exact (step_contents _ _ _ _ Hs1)|done]. }
  apply runs_bind. eapply runs_mono; [by apply (open_second w0 s1 f2 iW outs w1 Hh1)|]. intros [rc2 f] w2 (Hh2 & Hg2 & Hsame2 & Hok2).
  apply runs_bind. eapply runs_mono.
  { apply (write_batch_ok w0 s1 bs rests rc2 f iW _ (so_iReadOff s) dn todo outs w2); try done; [lia| |rewrite Hsame2, Hc1; [done|congruence]|..].
    - intros H. apply Hg2. by apply (held_good _ _ _ _ _ Hh1).
    - by rewrite HiW.
    - rewrite HnT. by apply (id_size _ _ Hid).
    - destruct Hrt as (? & ? & ? & ? & ->). done.
    - rewrite HnP. by destruct Hcnt.
    - by rewrite HnP.
    - lia.
    - by destruct Hrun.
    - by destruct Hrun. }
  intros [[rc3 s3] iW3] w3 (Hh3 & Hsm3 & Hg3 & Hok3). destruct (same_pmas_fields _ _ Hsm3) as (HnP3 & HpT3 & _).
  destruct (decide (rc3 = SQLITE_OK)) as [Hrc3|Hrc3].
  - destruct (Hok3 Hrc3) as [out Hp3]. eapply runs_mono; [apply (IH rc3 s3 f iW3 (iNew + 1) (dn ++ take 16 todo) (drop 16 todo) (outs ++ [out]) w3); try done; [lia|lia|lia|by rewrite HiN]|].
    intros [[[[rc4 s4] f4] iW4] iN4] w4 (Hh4 & Hsm4 & Hg4 & Hok4). split; [done|].
    split; [eapply same_pmas_trans; [exact Hsm1|by eapply same_pmas_trans]|]. split; [done|].
    by rewrite <- (assoc_L (++)), take_drop in Hok4.
  - destruct fuel as [|fuel]; [lia|]. cbn [merge_pass]. rewrite (proj2 (Z.eqb_neq _ _) Hrc3). cbn [andb]. apply runs_ret.
    split; [done|]. split; [by eapply same_pmas_trans|]. done.
Qed.

End Pass.
