(* ===== verification/SorterRewind.v ===== *)
(** * The sorter: rewinding

    From the packed arrays and the list to a sorter whose current record is
    the smallest. *)

From Stdlib Require Import Sorted.
From S2P Require Import Prelude Varint Ints Mem Heap Serial Vfs Sorter SorterRead SorterWrite SorterState SorterList SorterFill SorterTree SorterMerge SorterPass.

Section Rewind.
Context {V : Vfs} {U : Indeterminate} {VL : VfsLaws V} {oom : bool} {ki : KeyInfo} {KO : KeyOrder oom ki} (pgsz : Z).

Lemma shape_winner s its : s.(aIter) = Some its -> shape s -> exists x, winner s = Some x.
Proof.
  intros Hi Hsh. unfold shape in Hsh. rewrite Hi in Hsh. destruct Hsh as (t & a & Ht & _ & _ & Ha & Hlt).
  destruct (lookup_lt_is_Some_2 _ _ Hlt) as [p Hp]. exists (Z.of_nat a, p). unfold winner. rewrite Ht, Hi. cbn [mbind option_bind].
  rewrite Ha. cbn [mbind option_bind]. rewrite decide_True, Nat2Z.id, Hp by lia. done.
Qed.

Lemma tree_size_ok nIter : 0 < nIter <= 16 -> exists N, tree_size 8 2 nIter = Some (Z.of_nat N) /\ Nat.Even N /\ (2 <= N)%nat /\
  nIter <= Z.of_nat N /\ (nIter = 16 -> N = 16%nat).
Proof.
  intros H. assert (exists N : nat, (N = 2 \/ N = 4 \/ N = 8 \/ N = 16)%nat /\ tree_size 8 2 nIter = Some (Z.of_nat N) /\ nIter <= Z.of_nat N
    /\ (nIter = 16 -> N = 16%nat)) as (N & HN & Hrun & Hle & H16).
  { cbn [tree_size]. destruct (Z.ltb_spec 2 nIter); [|exists 2%nat; split; [lia|split; [done|lia]]].
    destruct (Z.ltb_spec (2 + 2) nIter); [|exists 4%nat; split; [lia|split; [done|lia]]].
    destruct (Z.ltb_spec (2 + 2 + (2 + 2)) nIter); [|exists 8%nat; split; [lia|split; [done|lia]]].
    destruct (Z.ltb_spec (2 + 2 + (2 + 2) + (2 + 2 + (2 + 2))) nIter); [lia|]. exists 16%nat. split; [lia|split; [done|lia]]. }
  exists N. split; [done|]. split; [|lia]. by destruct HN as [-> | [-> | [-> | ->]]]; [exists 1%nat|exists 2%nat|exists 4%nat|exists 8%nat].
Qed.

(** The arrays of the file, when none has been read. *)
Lemma pma_file_at w f eof pmas : pma_file w f eof pmas -> Forall run_ok pmas -> Z.of_nat (length (encode (concat pmas))) < 2 ^ 56 ->
  exists bs, contents w.(fs) f = Some bs /\ at_pmas bs 0 eof pmas.
Proof. intros (bs & Hc & Hb & He & Hl & Hs) Hr Hz. exists bs. split; [done|]. constructor; try done; lia. Qed.

Lemma runs_some pmas : Forall run_ok pmas -> pmas <> [] -> concat pmas <> [].
Proof.
  intros H Hne. destruct pmas as [|ks pmas]; [done|]. apply Forall_cons in H as [(Hk & _) _]. cbn. by destruct ks.
Qed.

(** The sorter has [pmas] in its file and nothing loaded. *)
Record spilled (s : VdbeSorter) (N : nat) (pmas : list (list (list Z))) (w : world V) : Prop := {
  sp_idle : idle s N;
  sp_temp : s.(pTemp1) <> 0;
  sp_file : pma_file w s.(pTemp1) s.(iWriteOff) pmas;
  sp_off : s.(so_iReadOff) = 0;
  sp_runs : s.(nPMA) = Z.of_nat (length pmas) /\ pmas <> [] /\ Forall run_ok pmas;
  sp_size : Z.of_nat (length (encode (concat pmas))) < 2 ^ 56 /\ s.(nPMA) < 2 ^ 31 - 16;
  sp_tree : Z.min 16 s.(nPMA) <= Z.of_nat N /\ (16 < s.(nPMA) -> N = 16%nat) }.

Definition merged (s : VdbeSorter) (ks : list (list Z)) (w : world V) : Prop :=
  exists bs rests, contents w.(fs) s.(pTemp1) = Some bs /\ merging s bs rests /\ concat rests ≡ₚ ks.

(** Few enough arrays: the merge is left to the calls of Next. *)
Lemma last_pass_ok w0 fuel s N pmas f2 w : 0 < pgsz < 2 ^ 30 -> (0 < fuel)%nat -> held w0 s (temps f2 ++ temps s.(pTemp1)) 0 w ->
  spilled s N pmas w -> s.(nPMA) <= 16 ->
  runs (merge_pass oom ki pgsz fuel SQLITE_OK s f2 0 0) w (fun '(rc, s', f2', iW, iNew) w' =>
    f2' = f2 /\ s'.(nPMA) = s.(nPMA) /\ held w0 s' (temps f2 ++ temps s'.(pTemp1)) 0 w' /\ (exists its, s'.(aIter) = Some its) /\
    (good w0 -> rc = SQLITE_OK) /\ (rc = SQLITE_OK -> merged s' (concat pmas) w')).
Proof.
  intros Hpg Hfuel Hh [Hid Hf Hpf Hoff (HnP & Hne & Hruns) [Hsz Hn] [Htree _]] H16. destruct fuel as [|fuel]; [lia|]. cbn [merge_pass].
  assert (0 < length pmas)%nat by (destruct pmas; [done|cbn [length]; lia]).
  change (i32 (0 * SORTER_MAX_MERGE_COUNT)) with 0. rewrite (proj2 (Z.ltb_lt 0 _)) by lia. cbn [andb].
  change (SQLITE_OK =? SQLITE_OK) with true. cbn [andb].
  destruct (pma_file_at _ _ _ _ Hpf Hruns Hsz) as (bs & Hc & Hat). rewrite <- Hoff in Hat.
  apply runs_bind. eapply runs_mono; [apply (init_merge_ok pgsz s N bs pmas w Hpg Hid Hf Hc Hat Hne); lia|].
  intros [[rc1 s1] nW] w1 (off & Hrt & Hs1 & Hsh1 & Hg1 & Hok1).
  assert (same_pmas s s1) as Hsm1 by (by exists off). destruct (same_pmas_fields _ _ Hsm1) as (HnP1 & HpT & HiW & HnT & HiB).
  assert (held w0 s1 (temps f2 ++ temps s1.(pTemp1)) 0 w1) as Hh1 by (rewrite HpT; eapply held_step0; [exact Hh|exact Hs1|lia|done]).
  apply runs_bind. apply (runs_mono _ _ (fun _ w2 => w2 = w1)).
  { destruct (Z.eqb_spec rc1 SQLITE_OK) as [Hrc|Hrc]; [|by apply runs_ret].
    destruct (Hok1 Hrc) as (_ & _ & rests & Hm & Hrests).
    assert (contents w1.(fs) s1.(pTemp1) = Some bs) as Hc1 by (rewrite HpT, <- Hc; exact (step_contents _ _ _ _ Hs1)).
    destruct (merge_next_ok s1 bs rests w1 Hm Hc1) as (q & p & _ & _ & Hwin & Hpf1 & _); [rewrite Hrests; by apply run_nonempty|].
    apply runs_bind, (runs_must _ (q, p)), runs_ensure; [done|by rewrite (proj2 (Z.eqb_neq _ 0) Hpf1)|done]. }
  intros _ w2 ->. rewrite HnP1. change SORTER_MAX_MERGE_COUNT with 16. rewrite (proj2 (Z.leb_le (nPMA s) 16)), orb_true_r by lia.
  apply runs_ret. split; [done|]. split; [done|]. split; [done|]. split.
  { rewrite (id_iters _ _ Hid) in HiB. destruct (aIter s1) as [its|]; [by exists its|done]. }
  split; [intros Hg; apply Hg1; by apply (held_good _ _ _ _ _ Hh)|]. intros Hrc.
  destruct (Hok1 Hrc) as (_ & _ & rests & Hm & Hrests). exists bs, rests. split; [rewrite HpT, <- Hc; exact (step_contents _ _ _ _ Hs1)|].
  split; [done|]. rewrite Hrests, take_ge by lia. done.
Qed.

(** After a pass the files change places. *)
Definition swapped (s : VdbeSorter) (f2 iW iNew : Z) : VdbeSorter := set_readOff (set_pma (set_temp s f2) iNew iW) 0.

Lemma swap_ok w0 s f2 iW iNew pmas outs w : Forall run_ok pmas -> Z.of_nat (length (encode (concat pmas))) < 2 ^ 56 ->
  held w0 s (temps f2 ++ temps s.(pTemp1)) 0 w -> passing s f2 iW iNew pmas [] outs w ->
  let s2 := swapped s f2 iW iNew in
  spilled s2 16 outs w /\ pma_file w s.(pTemp1) 0 [] /\ s2.(nPMA) < s.(nPMA) /\ concat outs ≡ₚ concat pmas.
Proof.
  intros Hruns Hsz Hh [Hid Hf (bs & Hc & Hat) (HnP & H16) (HiN & Hsm & Hend) Hout [Hro HP]]. cbn [length] in HnP.
  assert (outs <> []) as Hne by (intros ->; cbn in HiN; lia).
  destruct (Z.eqb_spec f2 0) as [->|Hf2]; [by destruct Hout as [-> _]|]. cbn zeta.
  split; [|split; [exists bs; split; [done|]; split; [by destruct Hat|]; split; [done|]; split; [cbn; lia|done]|split; [cbn; lia|done]]].
  destruct Hid as [H1 H2 H3 H4]. constructor; cbn [nPMA pTemp1 iWriteOff so_iReadOff swapped set_readOff set_pma set_temp]; try done; [|lia].
  split; [by rewrite (encode_perm _ _ HP)|]. lia.
Qed.

Lemma merge_passes_ok w0 : 0 < pgsz < 2 ^ 30 -> forall fuel s N pmas f2 w, (Z.to_nat s.(nPMA) < fuel)%nat ->
  held w0 s (temps f2 ++ temps s.(pTemp1)) 0 w -> spilled s N pmas w -> (f2 <> 0 -> pma_file w f2 0 []) ->
  runs (merge_passes oom ki pgsz fuel SQLITE_OK s f2) w (fun '(rc, s', f2') w' =>
    held w0 s' (temps f2' ++ temps s'.(pTemp1)) 0 w' /\ (exists its, s'.(aIter) = Some its) /\
    (good w0 -> rc = SQLITE_OK) /\ (rc = SQLITE_OK -> merged s' (concat pmas) w')).
Proof.
  intros Hpg. induction fuel as [|fuel IH]; intros s N pmas f2 w Hfuel Hh Hsp Hf2; [lia|]. cbn [merge_passes].
  change SORTER_MAX_MERGE_COUNT with 16. destruct (Z.leb_spec (nPMA s) 16) as [Hle|Hgt].
  { apply runs_bind. eapply runs_mono; [apply (last_pass_ok w0 _ s N pmas f2 w Hpg); try done; lia|].
    intros [[[[rc s1] f1] iW] iNew] w1 (-> & HnP & Hh1 & Hits & Hg1 & Hok1). rewrite HnP, (proj2 (Z.leb_le _ _) Hle). by apply runs_ret. }
  pose proof Hsp as [Hid Hf Hpf Hoff (HnP & Hne & Hruns) [Hsz Hn] [_ HN]]. specialize (HN Hgt). subst N.
  destruct (pma_file_at _ _ _ _ Hpf Hruns Hsz) as (bs & Hc & Hat). rewrite <- Hoff in Hat.
  apply runs_bind. eapply runs_mono.
  { apply (merge_pass_ok pgsz w0 Hpg (S (Z.to_nat (nPMA s))) SQLITE_OK s f2 0 0 [] pmas [] w); try done; [lia|]. intros _.
    constructor; try done; [by exists bs| |].
    - cbn [length]. split; [done|]. split; [lia|]. by destruct pmas.
    - destruct (Z.eqb_spec f2 0) as [E|E]; [done|by apply Hf2]. }
  cbn [app]. intros [[[[rc s1] f1] iW] iNew] w1 (Hh1 & Hsm1 & Hg1 & Hok1).
  destruct (same_pmas_fields _ _ Hsm1) as (HnP1 & HpT1 & _ & _ & HiB1). rewrite HnP1, (proj2 (Z.leb_gt _ _) Hgt).
  change (set_readOff _ 0) with (swapped s1 f1 iW iNew). set (s2 := swapped s1 f1 iW iNew).
  assert (held w0 s2 (temps (pTemp1 s1) ++ temps s2.(pTemp1)) 0 w1) as Hh2.
  { change (pTemp1 s2) with f1. eapply held_same; [eapply held_perm; [|exact Hh1]; apply Permutation_app_comm|done|exact (hd_shape _ _ _ _ _ Hh1)]. }
  destruct (Z.eqb_spec rc SQLITE_OK) as [Hrc|Hrc].
  - destruct (Hok1 Hrc) as [outs Hps]. destruct (swap_ok w0 s1 f1 iW iNew pmas outs w1 Hruns Hsz Hh1 Hps) as (Hsp2 & Hf2' & Hlt & HP). fold s2 in Hsp2, Hlt.
    rewrite Hrc. eapply runs_mono; [apply (IH s2 16%nat outs (pTemp1 s1) w1); try done; lia|].
    intros [[rc3 s3] f3] w3 (Hh3 & Hi3 & Hg3 & Hok3). split; [done|]. split; [done|]. split; [done|]. intros Hrc3.
    destruct (Hok3 Hrc3) as (bs3 & rests & Hc3 & Hm3 & HP3). exists bs3, rests. split; [done|]. split; [done|]. by rewrite HP3.
  - apply runs_ret. split; [done|]. split; [|done]. cbn [aIter s2 swapped set_readOff set_pma set_temp].
    rewrite (id_iters _ _ Hid) in HiB1. destruct (aIter s1) as [its|]; [by exists its|done].
Qed.

(** ** Rewinding *)

(** What the sorter still has to give, the current record being the smallest. *)
Definition reading (s : VdbeSorter) (ks : list (list Z)) (w : world V) : Prop :=
  match s.(aTree) with
  | Some _ => merged s ks w
  | None => Forall record_ok s.(pRecord) /\ Forall key_fits ks /\ sorted_records s.(pRecord) /\ map pVal s.(pRecord) ≡ₚ ks /\ s.(aIter) = None
  end.

(** Without arrays the list is sorted. *)
Lemma rewind_list_ok w0 s ks w : held w0 s (temps s.(pTemp1)) 0 w -> filling s [] ks w -> Z.of_nat (length ks) < 2 ^ 31 ->
  runs (_ ← ensure (negb (is_block s.(aTree)));
        '(rc, s') ← vdbeSorterSort oom ki s;
        mret (rc, Some (match s.(pRecord) with [] => true | _ => false end), s')) w
    (fun '(rc, eof, s') w' => held w0 s' (temps s'.(pTemp1)) 0 w' /\ (good w0 -> rc = SQLITE_OK) /\
      (rc = SQLITE_OK -> reading s' ks w' /\ eof = Some (bool_decide (ks = [])))).
Proof.
  intros Hh Hfl Hn. pose proof Hfl as [(Hr & HP & Hfit) _ (r2 & Hup & Hur) _ _ (Hi & Ht & Ho)].
  rewrite Ht. apply runs_bind, runs_ensure; [done|]. apply runs_bind.
  pose proof (fl_records _ _ _ _ Hfl) as Hll. eapply runs_mono; [apply (sort_ok s r2 w Hup Hur Hr); lia|].
  intros [rc s1] w1 (Hs1 & Hg1 & l & r3 & -> & Hr3 & HPl & Hsort). apply runs_ret. set (s1 := set_unpacked _ _). split.
  { eapply held_step0; [exact Hh|exact Hs1| |unfold shape; cbn; by rewrite Hi].
    unfold owned. cbn [pRecord pUnpacked aIter s1 set_unpacked set_record]. rewrite Hup, HPl. cbn. lia. }
  split; [intros Hg; apply Hg1; by apply (held_good _ _ _ _ _ Hh)|]. intros Hrc. split.
  - unfold reading. change (aTree s1) with (aTree s). rewrite Ht. cbn [pRecord aIter s1 set_unpacked set_record].
    split; [by rewrite HPl|]. split; [done|]. split; [by apply Hsort|]. split; [by rewrite HPl|done].
  - f_equal. destruct ks as [|k ks].
    + symmetry in HP. apply Permutation_nil, map_eq_nil in HP. by rewrite HP.
    + rewrite bool_decide_false by done. destruct (pRecord s); [|done]. cbn in HP. by apply Permutation_nil_cons in HP.
Qed.

Lemma rewind_ok w0 s pmas ks w : 0 < pgsz < 2 ^ 30 -> held w0 s (temps s.(pTemp1)) 0 w -> filling s pmas ks w ->
  Z.of_nat (length (encode (concat pmas ++ ks))) < 2 ^ 56 -> Z.of_nat (length (concat pmas ++ ks)) < 2 ^ 31 - 17 ->
  runs (sqlite3VdbeSorterRewind oom ki pgsz s) w (fun '(rc, eof, s') w' => held w0 s' (temps s'.(pTemp1)) 0 w' /\
    (good w0 -> rc = SQLITE_OK) /\
    (rc = SQLITE_OK -> reading s' (concat pmas ++ ks) w' /\ eof = Some (bool_decide (concat pmas ++ ks = [])))).
Proof.
  intros Hpg Hh Hfl Hsz Hn. pose proof Hfl as [(Hr & HP & Hfit) Hmem (r2 & Hup & Hur) [HnP Hruns] Hfile (Hi & Ht & Ho)].
  pose proof (runs_count _ Hruns) as Hcnt. rewrite encode_app in Hsz. rewrite length_app in Hsz, Hn.
  unfold sqlite3VdbeSorterRewind. destruct (Z.eqb_spec (nPMA s) 0) as [E0|E0].
  { assert (pmas = []) as -> by (destruct pmas; [done|cbn [length] in HnP; lia]). cbn [concat app] in *.
    eapply (rewind_list_ok w0 s ks w Hh Hfl). lia. }
  assert (pmas <> []) as Hpne by (intros ->; by apply E0).
  apply runs_bind. eapply runs_mono; [apply (list_to_pma_ok pgsz w0 s pmas ks w); try done; lia|].
  intros [rc s1] w1 (Hh1 & Hg1 & Hok1).
  destruct (Z.eqb_spec rc SQLITE_OK) as [Hrc|Hrc]; cbn [negb]; [|by apply runs_ret].
  destruct (Hok1 Hrc) as (pmas' & Hfl1 & HP1 & Hlen1 & Hnil1 & _).
  destruct Hfl1 as [(_ & HPl1 & _) _ (r3 & Hup1 & Hur1) [HnP1 Hruns1] Hfile1 (Hi1 & Ht1 & Ho1)].
  cbn [pRecord pUnpacked nPMA pTemp1 iWriteOff aIter aTree so_iReadOff set_inMemory] in *.
  assert (pmas' <> []) as Hpne'.
  { intros ->. apply Permutation_nil, app_eq_nil in HP1 as [HP1 _]. by apply (runs_some pmas). }
  pose proof (runs_some pmas' Hruns1 Hpne') as Hcne.
  assert (0 < length pmas')%nat by (destruct pmas'; [done|cbn [length]; lia]).
  assert (Z.of_nat (length (encode (concat pmas'))) < 2 ^ 56) as Hsz1 by (rewrite (encode_perm _ _ HP1), encode_app, length_app; lia).
  assert (nPMA s1 < 2 ^ 31 - 16) as Hn1 by lia.
  change SORTER_MAX_MERGE_COUNT with 16. set (nIter := if nPMA s1 >? 16 then 16 else nPMA s1).
  assert (nIter = Z.min 16 (nPMA s1)) as HnI by (unfold nIter; zcase; lia).
  destruct (tree_size_ok nIter ltac:(lia)) as (N & HN & Heven & HN2 & HNle & HN16).
  apply runs_bind, (runs_must _ (Z.of_nat N)); [done|].
  apply runs_bind, runs_db_alloc. intros [] w2 Hs2 Hg2 _ _; cbn [negb].
  2:{ apply runs_ret. split; [eapply held_step0; [exact Hh1|exact Hs2|lia|exact (hd_shape _ _ _ _ _ Hh1)]|].
      split; [intros Hg; by apply (held_good _ _ _ _ _ Hh1), Hg2 in Hg|done]. }
  rewrite Nat2Z.id. set (s2 := set_tree _ _ _ _).
  assert (shape s2) as Hsh2.
  { exists (replicate N 0), 0%nat. cbn [aTree nTree s2 set_tree]. rewrite !length_replicate. split; [done|]. split; [done|]. split; [done|].
    split; [apply lookup_replicate; split; [done|lia]|lia]. }
  assert (held w0 s2 (temps 0 ++ temps s2.(pTemp1)) 0 w2) as Hh2.
  { eapply held_step0; [exact Hh1|exact Hs2| |done]. unfold owned. cbn [pRecord pUnpacked aIter s2 set_tree]. rewrite Hi1, iters_blocks_zero. lia. }
  assert (spilled s2 N pmas' w2) as Hsp.
  { destruct (Z.eqb_spec (pTemp1 s1) 0) as [E|E]; [by destruct Hfile1|].
    constructor; cbn [nPMA pTemp1 iWriteOff so_iReadOff s2 set_tree]; try done; [| |lia].
    - constructor; cbn [nTree aIter pUnpacked s2 set_tree]; try done. by exists r3.
    - eapply pma_file_step; [exact (step_contents _ _ _ _ Hs2)|done]. }
  apply runs_bind. eapply runs_mono; [apply (merge_passes_ok w0 Hpg (S (Z.to_nat (nPMA s2))) s2 N pmas' 0 w2); try done; lia|].
  intros [[rc3 s3] f3] w3 (Hh3 & (its & Hits) & Hg3 & Hok3).
  apply runs_bind. apply (runs_mono _ _ (fun _ w' => held w0 s3 (temps (pTemp1 s3)) 0 w' /\ (pTemp1 s3 <> 0 -> contents w'.(fs) (pTemp1 s3) = contents w3.(fs) (pTemp1 s3)))).
  { unfold temps in Hh3 at 1. destruct (Z.eqb_spec f3 0) as [E|E]; cbn [negb]; [by apply runs_ret|]. cbn [app] in Hh3.
    destruct (hd_files _ _ _ _ _ Hh3 f3 ltac:(left)) as (_ & _ & His). apply (runs_close _ _ _ E His).
    intros rc4 w4 Hs4 Hn4. split; [by eapply held_close|]. intros Hf. destruct Hs4 as (Hsame & _). apply Hsame.
    intros E2%list_elem_of_singleton. apply (held_distinct w0 s3 f3 0 w3); [|done|done|done].
    unfold temps at 1. by rewrite (proj2 (Z.eqb_neq _ 0) E). }
  intros _ w4 (Hh4 & Hsame). destruct (shape_winner s3 its Hits (hd_shape _ _ _ _ _ Hh4)) as [[q p] Hw].
  apply runs_bind, (runs_must _ (q, p)); [done|]. apply runs_ret. split; [done|]. split; [done|]. intros Hrc3.
  destruct (Hok3 Hrc3) as (bs & rests & Hc3 & Hm3 & HP3). destruct (mg_tree _ _ _ Hm3) as (t & Ht3 & _). split.
  - unfold reading. rewrite Ht3. exists bs, rests. split; [rewrite Hsame; [done|by destruct Hm3]|]. split; [done|]. by rewrite HP3, HP1.
  - f_equal. rewrite bool_decide_false by (intros E; rewrite E in HP1; by apply Permutation_sym, Permutation_nil in HP1).
    destruct (winner_ok _ _ _ Hm3) as (q' & p' & l' & its' & _ & _ & Hw' & _ & _ & Hr' & Hnil' & _).
    rewrite Hw in Hw'. injection Hw' as _ ->. apply Z.eqb_neq. destruct l' as [|k' l'].
    + specialize (Hnil' eq_refl). rewrite Hnil' in HP3. by apply Permutation_nil in HP3.
    + destruct Hr' as (_ & -> & _). by destruct Hm3.
Qed.

End Rewind.
