(* ===== verification/SorterRun.v ===== *)
(** * The sorter: from opening to closing

    The life of a sorter as the VDBE drives it, and what it achieves whatever
    fails on the way. *)

From Stdlib Require Import Sorted.
From S2P Require Import Prelude Varint Ints Mem Heap Serial Vfs Sorter SorterRead SorterWrite SorterState SorterList SorterFill SorterTree SorterMerge SorterPass SorterRewind.

(** ** The calls of the VDBE *)

Section Client.
Context {V : Vfs} {U : Indeterminate} (oom : bool) (ki : KeyInfo) (pgsz : Z).

(** Inserting the keys; with each, whether the heap is nearly full. *)
Fixpoint sorter_insert (s : VdbeSorter) (l : list (bool * list Z)) : IO (Z * VdbeSorter) :=
  match l with
  | [] => mret (SQLITE_OK, s)
  | (nearlyFull, k) :: l =>
      '(rc, s) ← sqlite3VdbeSorterWrite oom ki pgsz s nearlyFull k;
      if rc =? SQLITE_OK then sorter_insert s l else mret (rc, s)
  end.

(** Reading the keys, after a rewind that found one. *)
Fixpoint sorter_scan (fuel : nat) (s : VdbeSorter) : IO (Z * list (list Z) * VdbeSorter) :=
  match fuel with
  | O => must None
  | S fuel =>
      '(_, k) ← must (vdbeSorterRowkey s);
      '(rc, eof, s) ← sqlite3VdbeSorterNext oom ki s;
      if negb (rc =? SQLITE_OK) then mret (rc, [k], s)
      else if (eof : bool) then mret (SQLITE_OK, [k], s)
      else '(rc, l, s) ← sorter_scan fuel s; mret (rc, k :: l, s)
  end.

Definition sorter_work (s : VdbeSorter) (l : list (bool * list Z)) : IO (Z * list (list Z) * VdbeSorter) :=
  '(rc, s) ← sorter_insert s l;
  if negb (rc =? SQLITE_OK) then mret (rc, [], s)
  else
    '(rc, eof, s) ← sqlite3VdbeSorterRewind oom ki pgsz s;
    if negb (rc =? SQLITE_OK) then mret (rc, [], s)
    else if default true eof then mret (SQLITE_OK, [], s)
    else sorter_scan (S (length l)) s.

Definition sorter_sort (tempInMemory : bool) (cache_size : Z) (l : list (bool * list Z)) : IO (Z * list (list Z)) :=
  '(rc, so) ← sqlite3VdbeSorterInit ki pgsz tempInMemory cache_size;
  match so with
  | Some s =>
      '(rc, out, s) ← (if rc =? SQLITE_OK then sorter_work s l else mret (rc, [], s));
      _ ← sqlite3VdbeSorterClose (Some s);
      mret (rc, out)
  | None => mret (rc, [])
  end.

End Client.

Section Run.
Context {V : Vfs} {U : Indeterminate} {VL : VfsLaws V} {oom : bool} {ki : KeyInfo} {KO : KeyOrder oom ki} (pgsz : Z).

(** ** Reading *)

Lemma merged_read s ks w : merged s ks w -> ks <> [] -> exists k, vdbeSorterRowkey s = Some (Z.of_nat (length k), k) /\
  Forall (key_le k) ks /\
  runs (sqlite3VdbeSorterNext oom ki s) w (fun '(rc, eof, s') w' =>
    step [] w w' (owned s' - owned s) /\ shape s' /\ s'.(pTemp1) = s.(pTemp1) /\ (good w -> rc = SQLITE_OK) /\
    (rc = SQLITE_OK -> exists ks', ks ≡ₚ k :: ks' /\ merged s' ks' w' /\ eof = bool_decide (ks' = []))).
Proof.
  intros (bs & rests & Hc & Hm & HP) Hne.
  assert (concat rests <> []) as Hcne by (intros E; rewrite E in HP; by apply Permutation_nil in HP).
  destruct (merge_next_ok s bs rests w Hm Hc Hcne) as (q & p & k & l & Hwin & Hpf & Hk & Hn & Hfit & Hle & Hl & Hrun).
  exists k. destruct (mg_tree _ _ _ Hm) as (t & Ht & _). split.
  { unfold vdbeSorterRowkey. rewrite Ht, Hwin. cbn [mbind option_bind]. rewrite Hk. cbn [mbind option_bind]. by rewrite Hn. }
  split; [by rewrite <- HP|]. eapply runs_mono; [exact Hrun|]. intros [[rc eof] s'] w' (Hs & Hsh & Hrt & Hg & Hok).
  assert (pTemp1 s' = pTemp1 s) as Hf by (destruct Hrt as (? & ? & ? & ? & ->); done).
  split; [done|]. split; [done|]. split; [done|]. split; [done|]. intros Hrc. destruct (Hok Hrc) as [Hm' ->].
  eexists. split; [rewrite <- HP; by apply concat_insert|]. split; [|done].
  exists bs, (<[Z.to_nat q := l]> rests). split; [rewrite Hf, <- Hc; exact (step_contents _ _ _ _ Hs)|done].
Qed.

Lemma list_read s ks w : reading s ks w -> s.(aTree) = None -> ks <> [] -> exists k, vdbeSorterRowkey s = Some (Z.of_nat (length k), k) /\
  Forall (key_le k) ks /\
  runs (sqlite3VdbeSorterNext oom ki s) w (fun '(rc, eof, s') w' =>
    step [] w w' (owned s' - owned s) /\ shape s' /\ s'.(pTemp1) = s.(pTemp1) /\ (good w -> rc = SQLITE_OK) /\
    (rc = SQLITE_OK -> exists ks', ks ≡ₚ k :: ks' /\ reading s' ks' w' /\ eof = bool_decide (ks' = []))).
Proof.
  intros Hrd Ht Hne. unfold reading in Hrd. rewrite Ht in Hrd. destruct Hrd as (Hr & Hfit & Hso & HP & Hi).
  destruct (pRecord s) as [|r l] eqn:HR; [cbn in HP; by apply Permutation_nil in HP|].
  apply Forall_cons in Hr as [[Hn Hv] Hr]. unfold sorted_records in Hso. cbn [map] in Hso, HP. exists (pVal r). split.
  { unfold vdbeSorterRowkey. by rewrite Ht, HR, Hn. }
  pose proof (StronglySorted_inv Hso) as [Hso' Hle]. split.
  { rewrite <- HP. constructor; [|done]. by apply le_refl. }
  unfold sqlite3VdbeSorterNext. rewrite Ht, HR. apply runs_bind. eapply runs_mono; [apply record_free_ok|]. intros x w1 Hs1. apply runs_ret.
  split; [eapply step_mono; [exact Hs1|done|]|].
  { unfold owned. cbn [pRecord pUnpacked aIter set_record]. rewrite HR. cbn [length]. lia. }
  split; [unfold shape; cbn; by rewrite Hi|]. split; [done|]. split; [done|]. intros _. exists (map pVal l).
  split; [by rewrite <- HP|]. split.
  - unfold reading. cbn [aTree pRecord aIter set_record]. rewrite Ht. split; [done|]. split; [|done].
    rewrite <- HP in Hfit. by apply Forall_cons in Hfit as [_ ?].
  - by destruct l.
Qed.

Lemma read_next s ks w : reading s ks w -> ks <> [] -> exists k, vdbeSorterRowkey s = Some (Z.of_nat (length k), k) /\
  Forall (key_le k) ks /\
  runs (sqlite3VdbeSorterNext oom ki s) w (fun '(rc, eof, s') w' =>
    step [] w w' (owned s' - owned s) /\ shape s' /\ s'.(pTemp1) = s.(pTemp1) /\ (good w -> rc = SQLITE_OK) /\
    (rc = SQLITE_OK -> exists ks', ks ≡ₚ k :: ks' /\ reading s' ks' w' /\ eof = bool_decide (ks' = []))).
Proof.
  intros Hrd Hne. destruct (aTree s) as [t|] eqn:Ht; [|by apply list_read].
  unfold reading in Hrd at 1. rewrite Ht in Hrd. destruct (merged_read s ks w Hrd Hne) as (k & Hk & Hle & Hrun).
  exists k. split; [done|]. split; [done|]. eapply runs_mono; [exact Hrun|]. intros [[rc eof] s'] w' (Hs & Hsh & Hf & Hg & Hok).
  split; [done|]. split; [done|]. split; [done|]. split; [done|]. intros Hrc. destruct (Hok Hrc) as (ks' & HP & Hm & He).
  exists ks'. split; [done|]. split; [|done]. unfold reading. pose proof Hm as (bs & rests & _ & Hm' & _).
  destruct (mg_tree _ _ _ Hm') as (t' & -> & _). done.
Qed.

Lemma scan_ok w0 : forall fuel s ks w, (length ks <= fuel)%nat -> ks <> [] -> held w0 s (temps s.(pTemp1)) 0 w -> reading s ks w ->
  runs (sorter_scan oom ki fuel s) w (fun '(rc, out, s') w' => held w0 s' (temps s'.(pTemp1)) 0 w' /\ (good w0 -> rc = SQLITE_OK) /\
    (rc = SQLITE_OK -> out ≡ₚ ks /\ sorted_keys out)).
Proof.
  induction fuel as [|fuel IH]; intros s ks w Hfuel Hne Hh Hrd; [destruct ks; [done|cbn in Hfuel; lia]|]. cbn [sorter_scan].
  destruct (read_next s ks w Hrd Hne) as (k & Hk & Hle & Hrun).
  apply runs_bind, (runs_must _ (Z.of_nat (length k), k)); [done|]. apply runs_bind. eapply runs_mono; [exact Hrun|].
  intros [[rc eof] s1] w1 (Hs1 & Hsh1 & Hf1 & Hg1 & Hok1).
  assert (held w0 s1 (temps s1.(pTemp1)) 0 w1) as Hh1 by (rewrite Hf1; eapply held_step0; [exact Hh|exact Hs1|lia|done]).
  assert (good w0 -> rc = SQLITE_OK) as Hgr by (intros H; apply Hg1; by apply (held_good _ _ _ _ _ Hh)).
  destruct (Z.eqb_spec rc SQLITE_OK) as [Hrc|Hrc]; cbn [negb]; [|by apply runs_ret].
  destruct (Hok1 Hrc) as (ks' & HP & Hrd' & ->). case_bool_decide as Hnil.
  - apply runs_ret. split; [done|]. split; [done|]. intros _. split; [by rewrite HP, Hnil|]. repeat constructor.
  - apply runs_bind. eapply runs_mono; [apply (IH s1 ks' w1); try done|].
    { rewrite HP in Hfuel. cbn [length] in Hfuel. lia. }
    intros [[rc2 out] s2] w2 (Hh2 & Hg2 & Hok2). apply runs_ret. split; [done|]. split; [done|]. intros Hrc2.
    destruct (Hok2 Hrc2) as [HP2 Hso]. split; [by rewrite HP, HP2|]. apply keys_cons; [|done].
    rewrite HP in Hle. apply Forall_cons in Hle as [_ Hle]. by rewrite HP2.
Qed.

(** ** Inserting *)

(** Sizes that keep the counters of the sorter in their types: [mx] is its
    limit for the list, without which everything is kept there. *)
Definition sizes_ok (mx : Z) (ks : list (list Z)) : Prop :=
  Z.of_nat (length ks) < 2 ^ 31 - 17 /\ Z.of_nat (length (encode ks)) < 2 ^ 56 /\
  (0 < mx < 2 ^ 29 \/ Z.of_nat (length (encode ks)) < 2 ^ 31).

Lemma sizes_perm mx ks ks' : ks ≡ₚ ks' -> sizes_ok mx ks -> sizes_ok mx ks'.
Proof. intros HP. unfold sizes_ok. by rewrite (encode_perm _ _ HP), (Permutation_length HP). Qed.

Lemma insert_ok w0 : 0 < pgsz -> forall l s pmas ks w, held w0 s (temps s.(pTemp1)) 0 w -> filling s pmas ks w ->
  Forall (fun '(_, k) => key_fits k /\ Z.of_nat (length k) < 2 ^ 29 /\ valid_key k) l ->
  sizes_ok s.(mxPmaSize) (map snd l ++ concat pmas ++ ks) -> (0 < s.(mxPmaSize) -> s.(nInMemory) <= s.(mxPmaSize)) ->
  runs (sorter_insert oom ki pgsz s l) w (fun '(rc, s') w' => held w0 s' (temps s'.(pTemp1)) 0 w' /\ (good w0 -> rc = SQLITE_OK) /\
    (rc = SQLITE_OK -> exists pmas' ks', filling s' pmas' ks' w' /\ concat pmas' ++ ks' ≡ₚ map snd l ++ concat pmas ++ ks)).
Proof.
  intros Hpg. induction l as [|[nf k] l IH]; intros s pmas ks w Hh Hfl Hl Hsz Hmx; cbn [sorter_insert].
  { apply runs_ret. split; [done|]. split; [done|]. intros _. by exists pmas, ks. }
  apply Forall_cons in Hl as [(Hfit & Hk29 & Hv) Hl]. pose proof Hsz as (Hn & H56 & Hlim). cbn [map snd app length] in Hn.
  rewrite !length_app in Hn. pose proof (fl_mem _ _ _ _ Hfl) as Hmem. pose proof (runs_count _ (proj2 (fl_pmas _ _ _ _ Hfl))) as Hcnt.
  assert (Z.of_nat (length (encode (k :: ks))) < 2 ^ 31) as H31.
  { change (k :: ks) with ([k] ++ ks). rewrite encode_app, length_app. cbn [map snd app] in Hlim. destruct Hlim as [Hlim|Hlim].
    - specialize (Hmx ltac:(lia)). unfold encode at 1. cbn [map concat]. rewrite app_nil_r. pose proof (entry_length k Hfit) as He.
      destruct (varint_bytes (Z.of_nat (length k))) as (_ & _ & Hvl & _); [lia|]. lia.
    - change (k :: map snd l ++ concat pmas ++ ks) with ([k] ++ (map snd l ++ concat pmas ++ ks)) in Hlim. rewrite !encode_app, !length_app in Hlim. lia. }
  apply runs_bind. eapply runs_mono; [apply (write_ok_sorter pgsz w0 s pmas ks nf k w Hpg Hh Hfl Hfit Hv H31); lia|].
  intros [rc s1] w1 (Hh1 & Hg1 & Hok1). destruct (Z.eqb_spec rc SQLITE_OK) as [Hrc|Hrc]; [|by apply runs_ret].
  destruct (Hok1 Hrc) as (Hmx1 & _ & Hmem1 & pmas1 & ks1 & Hfl1 & HP1).
  assert ((map snd ((nf, k) :: l)) ++ concat pmas ++ ks ≡ₚ map snd l ++ concat pmas1 ++ ks1) as HP.
  { cbn [map snd app]. rewrite HP1. by rewrite Permutation_middle. }
  eapply runs_mono; [apply (IH s1 pmas1 ks1 w1 Hh1 Hfl1 Hl)|].
  - rewrite Hmx1. by apply (sizes_perm _ _ _ HP).
  - by rewrite Hmx1.
  - intros [rc2 s2] w2 (Hh2 & Hg2 & Hok2). split; [done|]. split; [done|]. intros Hrc2.
    destruct (Hok2 Hrc2) as (pmas2 & ks2 & Hfl2 & HP2). exists pmas2, ks2. split; [done|]. by rewrite HP2, HP.
Qed.

(** ** The whole life *)

Lemma work_ok w0 l s w : 0 < pgsz < 2 ^ 30 -> held w0 s (temps s.(pTemp1)) 0 w -> filling s [] [] w ->
  Forall (fun '(_, k) => key_fits k /\ Z.of_nat (length k) < 2 ^ 29 /\ valid_key k) l -> sizes_ok s.(mxPmaSize) (map snd l) ->
  runs (sorter_work oom ki pgsz s l) w (fun '(rc, out, s') w' => held w0 s' (temps s'.(pTemp1)) 0 w' /\ (good w0 -> rc = SQLITE_OK) /\
    (rc = SQLITE_OK -> out ≡ₚ map snd l /\ sorted_keys out)).
Proof.
  intros Hpg Hh Hfl Hl Hsz. unfold sorter_work. pose proof (fl_mem _ _ _ _ Hfl) as Hmem. cbn in Hmem.
  apply runs_bind. eapply runs_mono; [apply (insert_ok w0 ltac:(lia) l s [] [] w Hh Hfl Hl); [by rewrite app_nil_r|lia]|].
  intros [rc s1] w1 (Hh1 & Hg1 & Hok1). destruct (Z.eqb_spec rc SQLITE_OK) as [Hrc|Hrc]; cbn [negb]; [|by apply runs_ret].
  destruct (Hok1 Hrc) as (pmas & ks & Hfl1 & HP). cbn [concat] in HP. rewrite !app_nil_r in HP.
  apply (sizes_perm _ _ _ (Permutation_sym HP)) in Hsz. destruct Hsz as (Hn & H56 & _).
  apply runs_bind. eapply runs_mono; [apply (rewind_ok pgsz w0 s1 pmas ks w1 Hpg Hh1 Hfl1); lia|].
  intros [[rc2 eof] s2] w2 (Hh2 & Hg2 & Hok2). destruct (Z.eqb_spec rc2 SQLITE_OK) as [Hrc2|Hrc2]; cbn [negb]; [|by apply runs_ret].
  destruct (Hok2 Hrc2) as [Hrd ->]. cbn [default]. change (default true (Some ?b)) with b. case_bool_decide as Hnil.
  - apply runs_ret. split; [done|]. split; [done|]. intros _. split; [by rewrite <- HP, Hnil|constructor].
  - eapply runs_mono; [apply (scan_ok w0 (S (length l)) s2 (concat pmas ++ ks) w2); [|exact Hnil|exact Hh2|exact Hrd]|].
    + rewrite HP, length_map. lia.
    + intros [[rc3 out] s3] w3 (Hh3 & Hg3 & Hok3). split; [done|]. split; [done|]. intros Hrc3. destruct (Hok3 Hrc3) as [HPo Hso].
      split; [by rewrite HPo|done].
Qed.

Lemma sorter_sort_ok (tmp : bool) cache l w : 0 < pgsz < 2 ^ 30 ->
  Forall (fun '(_, k) => key_fits k /\ Z.of_nat (length k) < 2 ^ 29 /\ valid_key k) l ->
  sizes_ok (if tmp then 0 else i32 ((if cache <? SORTER_MIN_WORKING then SORTER_MIN_WORKING else cache) * pgsz)) (map snd l) ->
  runs (sorter_sort oom ki pgsz tmp cache l) w (fun '(rc, out) w' => step [] w w' 0 /\ (good w -> rc = SQLITE_OK) /\
    (rc = SQLITE_OK -> out ≡ₚ map snd l /\ sorted_keys out)).
Proof.
  intros Hpg Hl Hsz. unfold sorter_sort. apply runs_bind.
  assert (is_Some (sqlite3VdbeAllocUnpackedRecord 48 64 0 false ki 0)) as Hup by (unfold sqlite3VdbeAllocUnpackedRecord; destruct (_ >? _); by eexists).
  eapply runs_mono; [by apply (init_state_ok ki pgsz tmp cache w)|]. intros [rc [s|]] w1 [Hg1 H1].
  2:{ destruct H1 as [Hrc Hs]. by apply runs_ret. }
  destruct H1 as [Hh1 Hinit]. apply runs_bind.
  apply (runs_mono _ _ (fun '(rc, out, s') w' => held w s' (temps s'.(pTemp1)) 0 w' /\ (good w -> rc = SQLITE_OK) /\
    (rc = SQLITE_OK -> out ≡ₚ map snd l /\ sorted_keys out))).
  { destruct (Z.eqb_spec rc SQLITE_OK) as [Hrc|Hrc]; [|by apply runs_ret].
    destruct (Hinit Hrc) as (b & r2 & Hr2 & Hs). apply (work_ok w l s w1 Hpg Hh1); [|done|by rewrite Hs; destruct tmp].
    rewrite Hs. constructor; try done. exists r2. split; [done|]. by eapply start_law. }
  intros [[rc2 out] s2] w2 (Hh2 & Hg2 & Hok2). apply runs_bind. eapply runs_mono; [by apply close_ok|]. intros x w3 Hs3.
  apply runs_ret. done.
Qed.

End Run.
