(* ===== verification/SorterOrder.v ===== *)
(** * The sorter: the order of records

    The sorter compares records column by column, in the collation and the
    direction of each, as far as the key reaches.  On columns that hold no
    integers next to reals this follows a total order; with integers next to
    reals it need not. *)

From Stdlib Require Import Floats.SpecFloat.
From S2P Require Import Prelude Varint Ints Mem Heap Serial Vfs Sorter SorterList.

(** ** Comparators *)

Record good_cmp {A} (P : A -> Prop) (cmp : A -> A -> Z) : Prop := {
  gc_sym : forall a b, P a -> P b -> Z.sgn (cmp a b) = - Z.sgn (cmp b a);
  gc_trans : forall a b c, P a -> P b -> P c -> cmp a b <= 0 -> cmp b c <= 0 -> cmp a c <= 0 }.

Lemma good_reverse {A} (P : A -> Prop) cmp : good_cmp P cmp -> good_cmp P (fun a b => - cmp a b).
Proof.
  intros [Hs Ht]. constructor.
  - intros a b Ha Hb. rewrite !Z.sgn_opp. by rewrite (Hs a b).
  - intros a b c Ha Hb Hc H1 H2. pose proof (Hs a b Ha Hb). pose proof (Hs b c Hb Hc). pose proof (Hs a c Ha Hc).
    pose proof (Ht c b a Hc Hb Ha). lia.
Qed.

Definition lexi {A B} (c1 : A -> A -> Z) (c2 : B -> B -> Z) (p q : A * B) : Z :=
  if c1 p.1 q.1 =? 0 then c2 p.2 q.2 else c1 p.1 q.1.

Lemma good_lexi {A B} (P : A -> Prop) (Q : B -> Prop) c1 c2 : good_cmp P c1 -> good_cmp Q c2 ->
  good_cmp (fun p => P p.1 /\ Q p.2) (lexi c1 c2).
Proof.
  intros [Hs1 Ht1] [Hs2 Ht2]. unfold lexi. constructor.
  - intros [a x] [b y] [Ha Hx] [Hb Hy]. cbn [fst snd] in *. pose proof (Hs1 a b Ha Hb). pose proof (Hs2 x y Hx Hy).
    destruct (Z.eqb_spec (c1 a b) 0), (Z.eqb_spec (c1 b a) 0); lia.
  - intros [a x] [b y] [c z] [Ha Hx] [Hb Hy] [Hc Hz]. cbn [fst snd] in *.
    pose proof (Hs1 a b Ha Hb). pose proof (Hs1 b c Hb Hc). pose proof (Hs1 a c Ha Hc).
    pose proof (Ht1 a b c Ha Hb Hc). pose proof (Ht1 b c a Hb Hc Ha). pose proof (Ht1 c a b Hc Ha Hb).
    pose proof (Ht1 c b a Hc Hb Ha). pose proof (Ht2 x y z Hx Hy Hz).
    destruct (Z.eqb_spec (c1 a b) 0), (Z.eqb_spec (c1 b c) 0), (Z.eqb_spec (c1 a c) 0); lia.
Qed.

(** The comparators of a map into a good order. *)
Lemma good_map {A B} (f : A -> B) (P : A -> Prop) (Q : B -> Prop) cmp cmp' : good_cmp Q cmp' ->
  (forall a, P a -> Q (f a)) -> (forall a b, P a -> P b -> Z.sgn (cmp a b) = Z.sgn (cmp' (f a) (f b))) -> good_cmp P cmp.
Proof.
  intros [Hs Ht] HP He. constructor.
  - intros a b Ha Hb. rewrite !He by done. auto.
  - intros a b c Ha Hb Hc H1 H2. pose proof (He a b Ha Hb). pose proof (He b c Hb Hc). pose proof (He a c Ha Hc).
    pose proof (Ht (f a) (f b) (f c) ltac:(auto) ltac:(auto) ltac:(auto)). lia.
Qed.

Lemma good_sub : good_cmp (fun _ => True) Z.sub.
Proof. constructor; lia. Qed.

(** ** Doubles *)

Definition rank (x : spec_float) : Z * (Z * Z) :=
  match x with
  | S754_infinity true => (-2, (0, 0))
  | S754_finite true m e => (-1, (- e, Z.neg m))
  | S754_zero _ | S754_nan => (0, (0, 0))
  | S754_finite false m e => (1, (e, Z.pos m))
  | S754_infinity false => (2, (0, 0))
  end.

Definition rank_cmp : Z * (Z * Z) -> Z * (Z * Z) -> Z := lexi Z.sub (lexi Z.sub Z.sub).

Lemma good_rank : good_cmp (fun _ => True) rank_cmp.
Proof.
  eapply (good_map id); [apply good_lexi; [apply good_sub|apply good_lexi; apply good_sub]|done|done].
Qed.

Lemma double_lt_rank x y : x <> S754_nan -> y <> S754_nan -> double_lt x y = (rank_cmp (rank x) (rank y) <? 0).
Proof.
  intros Hx Hy. unfold double_lt, SFltb, rank_cmp, lexi.
  destruct x as [[]|[]| |[] m e], y as [[]|[]| |[] m' e']; try done; cbn [SFcompare rank fst snd];
    try reflexivity;
    change (Pos.compare_cont Eq m m') with (m ?= m')%positive;
    destruct (Z.compare_spec e e') as [->|H|H].
    all: try (destruct (Pos.compare_spec m m') as [->|H'|H']). all: cbn [CompOpp].
    all: repeat case_match; try done; try lia.
    all: symmetry; (apply Z.ltb_ge || apply Z.ltb_lt); lia.
Qed.
(** ** Texts and blobs *)

Definition blob_cmp (a b : list Z) : Z :=
  let k := Nat.min (length a) (length b) in
  let rc := memcmp (take k a) (take k b) in
  if rc =? 0 then Z.of_nat (length a) - Z.of_nat (length b) else rc.

Lemma blob_cmp_cons x a y b : blob_cmp (x :: a) (y :: b) = if x =? y then blob_cmp a b else x - y.
Proof.
  unfold blob_cmp. cbn [length Nat.min take memcmp]. destruct (Z.eqb_spec x y) as [->|Hne].
  - destruct (_ =? 0); [lia|done].
  - by rewrite (proj2 (Z.eqb_neq (x - y) 0)) by lia.
Qed.

Lemma good_blob : good_cmp (fun _ => True) blob_cmp.
Proof.
  constructor.
  - intros a b _ _. revert b. induction a as [|x a IH]; intros [|y b]; try (cbn; lia).
    rewrite !blob_cmp_cons. specialize (IH b). destruct (Z.eqb_spec x y), (Z.eqb_spec y x); lia.
  - intros a b c _ _ _. revert b c. induction a as [|x a IH]; intros [|y b] [|z c]; try (cbn; lia).
    rewrite !blob_cmp_cons. specialize (IH b c). destruct (Z.eqb_spec x y), (Z.eqb_spec y z), (Z.eqb_spec x z); lia.
Qed.

Lemma compare_blobs_content m1 m2 : m1.(n) = Z.of_nat (length (content m1)) -> m2.(n) = Z.of_nat (length (content m2)) ->
  compare_blobs m1 m2 = blob_cmp (content m1) (content m2).
Proof.
  intros H1 H2. unfold compare_blobs, blob_cmp. rewrite Z.gtb_ltb. unfold content in *.
  assert (Z.to_nat (if n m2 <? n m1 then n m2 else n m1) =
    Nat.min (length (take (Z.to_nat (n m1)) (z m1))) (length (take (Z.to_nat (n m2)) (z m2)))) as E
    by (destruct (Z.ltb_spec (n m2) (n m1)); lia).
  rewrite E. set (k := Nat.min _ _). assert (k <= Z.to_nat (n m1) /\ k <= Z.to_nat (n m2))%nat as [Hk1 Hk2]
    by (unfold k; rewrite !length_take; lia).
  rewrite !take_take, (Nat.min_l _ _ Hk1), (Nat.min_l _ _ Hk2). by rewrite <- H1, <- H2.
Qed.

(** ** Values *)

Definition vclass (v : value) : Z :=
  match v with VNull => 0 | VInt _ | VReal _ => 1 | VText _ => 2 | VBlob _ => 3 end.

Definition value_double (v : value) : spec_float :=
  match v with VInt i => double_of_i64 i | VReal b => double_of_bits b | _ => S754_nan end.

Definition value_cmp (c : option CollSeq) (v w : value) : Z :=
  if vclass v <? vclass w then -1
  else if vclass w <? vclass v then 1
  else
    match v, w with
    | VNull, _ => 0
    | VInt i, VInt j => if i <? j then -1 else if i >? j then 1 else 0
    | VText a, VText b => match c with Some c => c.(xCmp) a b | None => blob_cmp a b end
    | VBlob a, VBlob b => blob_cmp a b
    | _, _ =>
        if double_lt (value_double v) (value_double w) then -1
        else if double_lt (value_double w) (value_double v) then 1 else 0
    end.

Lemma has_mask_lor f a b : has f (Z.lor a b) = has f a || has f b.
Proof. unfold has. rewrite !(Z.land_comm f). apply has_lor. Qed.

Lemma both_int f1 f2 : (Z.land (Z.land f1 f2) MEM_Int =? 0) = negb (has f1 MEM_Int && has f2 MEM_Int).
Proof.
  unfold has. change MEM_Int with (2 ^ 2). rewrite !land_pow2, Z.land_spec by lia. by destruct (Z.testbit f1 2), (Z.testbit f2 2).
Qed.

Lemma mem_value_class m : vclass (mem_value m) = class m.
Proof.
  unfold mem_value, class, numeric. rewrite has_mask_lor.
  by destruct (has (flags m) MEM_Null), (has (flags m) MEM_Int), (has (flags m) MEM_Real), (has (flags m) MEM_Str).
Qed.

Lemma plain_bytes m : plain_cell m -> content m ++ tail_zeros m = content m.
Proof. intros (Hz & _). unfold tail_zeros. by rewrite Hz, app_nil_r. Qed.

(** The comparison of cells is that of their values. *)
Lemma mem_compare_value oom m1 m2 pColl : plain_cell m1 -> plain_cell m2 -> coll_ok pColl m1 m2 ->
  sqlite3MemCompare oom m1 m2 pColl = Some (value_cmp pColl (mem_value m1) (mem_value m2)).
Proof.
  intros Hp1 Hp2 Hc. rewrite mem_compare_spec by done. f_equal. unfold value_cmp. rewrite !mem_value_class.
  destruct (class m1 <? class m2) eqn:E1; [done|]. destruct (class m2 <? class m1) eqn:E2; [done|].
  apply Z.ltb_ge in E1, E2. assert (class m2 = class m1) as E by lia. clear E1 E2.
  pose proof (plain_bytes m1 Hp1) as B1. pose proof (plain_bytes m2 Hp2) as B2.
  destruct Hp1 as (_ & Hi1 & Hn1), Hp2 as (_ & Hi2 & Hn2).
  unfold class, numeric, mem_value, is_text, compare_numbers, mem_double in *. rewrite both_int, !has_mask_lor in *.
  destruct (has (flags m1) MEM_Null); cbn [negb andb orb] in *; [by destruct (has (flags m2) MEM_Null)|].
  destruct (has (flags m2) MEM_Null); [by repeat case_match|].
  destruct (has (flags m1) MEM_Int), (has (flags m2) MEM_Int); cbn [negb andb orb] in *;
    rewrite ?Hi1, ?Hi2 by done; cbn [negb andb orb];
    try done.
  all: destruct (has (flags m1) MEM_Real), (has (flags m2) MEM_Real); cbn [negb andb orb] in *; try done.
  all: destruct (has (flags m1) MEM_Str), (has (flags m2) MEM_Str); cbn [Z.eqb] in *; try done.
  all: specialize (Hn1 eq_refl); specialize (Hn2 eq_refl); rewrite ?B1, ?B2.
  - destruct pColl; [done|]. by apply compare_blobs_content.
  - by apply compare_blobs_content.
Qed.

(** ** Columns *)

(** The values of a column of integers ([reals] false) or reals, among others. *)
Definition of_kind (reals : bool) (v : value) : Prop :=
  match v with VInt _ => reals = false | VReal b => reals = true /\ double_of_bits b <> S754_nan | _ => True end.

Definition good_coll (c : option CollSeq) : Prop :=
  match c with Some c => good_cmp (fun _ => True) c.(xCmp) | None => True end.

Lemma good_value c reals : good_coll c -> good_cmp (of_kind reals) (value_cmp c).
Proof.
  intros Hc. assert (good_cmp (fun _ => True) (match c with Some c => c.(xCmp) | None => blob_cmp end)) as Ht
    by (destruct c; [done|apply good_blob]).
  pose proof good_blob as Hb. pose proof good_rank as Hr.
  assert (forall a b, (match c with Some c => c.(xCmp) a b | None => blob_cmp a b end) = (match c with Some c => c.(xCmp) | None => blob_cmp end) a b) as E
    by (by destruct c).
  constructor.
  - intros v w Hv Hw. unfold value_cmp. destruct v, w; cbn [of_kind] in Hv, Hw; try (exfalso; intuition congruence);
      cbn [vclass Z.ltb Z.compare Pos.compare Pos.compare_cont]; try done; rewrite ?E; try (by apply Ht); try (by apply Hb).
    + repeat zcase; lia.
    + destruct Hv as [_ Hv], Hw as [_ Hw]. cbn [value_double]. rewrite !double_lt_rank by done.
      pose proof (gc_sym _ _ Hr (rank (double_of_bits bits)) (rank (double_of_bits bits0)) I I). repeat zcase; lia.
  - intros v w x Hv Hw Hx. unfold value_cmp. destruct v, w, x; cbn [of_kind] in Hv, Hw, Hx; try (exfalso; intuition congruence);
      cbn [vclass Z.ltb Z.compare Pos.compare Pos.compare_cont]; try (intros; lia); try done; rewrite ?E; try (by apply Ht); try (by apply Hb).
    + repeat zcase; lia.
    + destruct Hv as [_ Hv], Hw as [_ Hw], Hx as [_ Hx]. cbn [value_double]. rewrite !double_lt_rank by done.
      pose proof (gc_sym _ _ Hr (rank (double_of_bits bits)) (rank (double_of_bits bits0)) I I).
      pose proof (gc_sym _ _ Hr (rank (double_of_bits bits0)) (rank (double_of_bits bits1)) I I).
      pose proof (gc_sym _ _ Hr (rank (double_of_bits bits)) (rank (double_of_bits bits1)) I I).
      pose proof (gc_trans _ _ Hr (rank (double_of_bits bits)) (rank (double_of_bits bits0)) (rank (double_of_bits bits1)) I I I).
      repeat zcase; lia.
Qed.

(** ** Records *)

Section Records.
Context (oom : bool) (ki : KeyInfo) (ff ncol : Z).

Definition coll_at (i : Z) : option CollSeq := if i <? ki.(ki_nField) then nth (Z.to_nat i) ki.(aColl) None else None.
Definition desc_at (i : Z) : bool := (i <? ki.(ki_nField)) && nth (Z.to_nat i) ki.(aSortOrder) false.

Fixpoint row_cmp (i : Z) (vs ws : list value) : Z :=
  match vs, ws with
  | v :: vs, w :: ws =>
      let rc := value_cmp (coll_at i) v w in
      if rc =? 0 then row_cmp (i + 1) vs ws else if desc_at i then - rc else rc
  | [], _ => 0
  | _, [] => 1
  end.

(** The values of a record of [ncol] columns. *)
Definition decode (k : list Z) : list value :=
  match sqlite3VdbeRecordUnpack ki (Z.of_nat (length k)) k (mkUnpacked ki ncol 0 0 []) with
  | Some r2 => map mem_value r2.(aMem)
  | None => []
  end.

(** The collations are for the encoding of the keys, and comparing two texts
    the other way round gives the opposite. *)
Definition colls_encoded : Prop :=
  Forall (fun c => match c with
                   | Some c => c.(coll_enc) = ki.(ki_enc) /\ forall a b, Z.sgn (c.(xCmp) a b) = - Z.sgn (c.(xCmp) b a)
                   | None => True end) ki.(aColl).

(** They are total orders. *)
Definition colls_total : Prop := Forall good_coll ki.(aColl).

Lemma coll_at_in (P : option CollSeq -> Prop) i : P None -> Forall P ki.(aColl) -> P (coll_at i).
Proof.
  intros H0 H. unfold coll_at. destruct (_ <? _); [|done]. destruct (nth_in_or_default (Z.to_nat i) (aColl ki) None) as [Hin| ->]; [|done].
  rewrite Forall_forall in H. apply H. by apply list_elem_of_In.
Qed.

Lemma coll_at_encoded i : colls_encoded -> match coll_at i with
  | Some c => c.(coll_enc) = ki.(ki_enc) /\ forall a b, Z.sgn (c.(xCmp) a b) = - Z.sgn (c.(xCmp) b a) | None => True end.
Proof. intros H. by apply (coll_at_in (fun c => match c with Some c => _ | None => True end)). Qed.

Lemma coll_at_total i : colls_total -> good_coll (coll_at i).
Proof. intros H. by apply coll_at_in. Qed.

Lemma good_row : colls_total -> forall ks i, good_cmp (Forall2 of_kind ks) (row_cmp i).
Proof.
  intros Hc. induction ks as [|k ks IH]; intros i.
  { constructor; intros; repeat match goal with H : Forall2 _ [] _ |- _ => inversion H; subst; clear H end; done. }
  set (c1 := fun v w => if desc_at i then - value_cmp (coll_at i) v w else value_cmp (coll_at i) v w).
  assert (good_cmp (of_kind k) c1) as H1.
  { pose proof (good_value (coll_at i) k (coll_at_total i Hc)) as H. unfold c1. destruct (desc_at i); [by apply good_reverse|exact H]. }
  apply (good_map (fun vs : list value => match vs with v :: vs => (v, vs) | [] => (VNull, []) end) _ _ _ _ (good_lexi _ _ _ _ H1 (IH (i + 1)))).
  - intros vs Hv. inversion Hv; by subst.
  - intros vs ws Hv Hw. inversion Hv as [|? v ? vs' Hk Hv']; subst. inversion Hw as [|? w ? ws' Hk' Hw']; subst.
    unfold lexi, c1. cbn [row_cmp fst snd]. destruct (desc_at i), (Z.eqb_spec (value_cmp (coll_at i) v w) 0) as [E|E]; rewrite ?E; try done.
    by rewrite (proj2 (Z.eqb_neq (- _) 0)) by lia.
Qed.

Lemma lex_compare_row p2 : colls_encoded -> p2.(pKeyInfo) = ki -> p2.(up_flags) = 0 ->
  forall cs ms i, Forall (fun c => plain_cell c /\ c.(enc) = ki.(ki_enc)) cs -> Forall (fun c => plain_cell c /\ c.(enc) = ki.(ki_enc)) ms ->
  lex_compare oom p2 i cs ms = Some (row_cmp i (map mem_value cs) (map mem_value ms)).
Proof.
  intros Hc Hki Hfl. induction cs as [|c cs IH]; intros [|m ms] i Hcs Hms; cbn [lex_compare map row_cmp]; rewrite ?Hfl, ?Hki; try done.
  apply Forall_cons in Hcs as [[Hp1 He1] Hcs]. apply Forall_cons in Hms as [[Hp2 He2] Hms]. fold (coll_at i) (desc_at i).
  rewrite mem_compare_value; [|done|done|].
  - cbn [mbind option_bind]. rewrite IH by done. by destruct (_ =? 0).
  - pose proof (coll_at_encoded i Hc) as H. destruct (coll_at i) as [cl|]; [|done]. destruct H as [Hce Hg].
    split; [congruence|]. split; [congruence|exact Hg].
Qed.

(** Without UNPACKED_PREFIX_SEARCH nothing is left in the flags. *)
Lemma compare_keeps_flags p2 nKey szHdr aKey : p2.(up_flags) = 0 -> forall ms idx d i rc fl ro,
  compare_loop oom p2 nKey szHdr aKey idx d i ms = Some (rc, (fl, ro)) -> fl = 0.
Proof.
  intros Hf. induction ms as [|m ms IH]; intros idx d i rc fl ro; cbn [compare_loop]; rewrite ?Hf; [by intros [= _ <- _]|].
  destruct (idx <? szHdr); [|by intros [= _ <- _]]. destruct (getVarint32 _) as [[k t]|]; [|done]. cbn [mbind option_bind].
  destruct (_ && _); [by intros [= _ <- _]|]. destruct (sqlite3VdbeSerialGet _ _ _) as [[l m1]|]; [|done]. cbn [mbind option_bind].
  destruct (sqlite3MemCompare _ _ _ _) as [x|]; [|done]. cbn [mbind option_bind].
  destruct (negb (x =? 0)); [by intros [= _ <- _]|by apply IH].
Qed.

Lemma reads_values e cs ms : Forall2 (reads_as e) cs ms ->
  map mem_value cs = map mem_value ms /\ Forall (fun c => plain_cell c /\ c.(enc) = e) cs.
Proof.
  induction 1 as [|c m cs ms (Hv & He & Hp) _ [IH1 IH2]]; [done|]. cbn [map]. rewrite Hv, IH1. split; [done|]. by constructor.
Qed.

(** The record [k] of a row of [ncol] columns. *)
Definition record_key (k : list Z) (row : list Mem) : Prop :=
  k = record_bytes ff row /\ Forall storable row /\ Z.of_nat (length row) = ncol.

(** The columns that are compared: those of the key and one more. *)
Definition key_columns : nat := Z.to_nat (ki.(ki_nField) + 1).

Lemma decode_record k row : ncol <= 32767 -> record_key k row -> decode k = map mem_value row.
Proof.
  intros Hf (-> & Hs & Hl). unfold decode.
  destruct (record_unpack ff ki (mkUnpacked ki ncol 0 0 []) row Hs) as (cs & -> & Hcs); [lia|cbn; lia|].
  by apply reads_values in Hcs as [? _].
Qed.

(** The result of comparing two records. *)
Definition record_cmp (a b : list Z) : Z := row_cmp 0 (decode a) (take key_columns (decode b)).

Definition record_up (r2 : UnpackedRecord) : Prop :=
  r2.(pKeyInfo) = ki /\ Z.min ncol (ki.(ki_nField) + 1) <= r2.(up_nField) <= ki.(ki_nField) + 1.

Definition record_holds (r2 : UnpackedRecord) (k : list Z) : Prop :=
  r2.(up_flags) = 0 /\ r2.(up_nField) = Z.of_nat (length r2.(aMem)) /\
  exists row, record_key k row /\ Forall2 (reads_as ki.(ki_enc)) r2.(aMem) (take key_columns row).

Lemma record_unpacks r2 k row : 0 <= ki.(ki_nField) -> ncol <= 32767 -> record_up r2 -> record_key k row ->
  exists r2', sqlite3VdbeRecordUnpack ki (Z.of_nat (length k)) k r2 = Some r2' /\ record_up r2' /\ record_holds r2' k.
Proof.
  intros H0 Hf [Hki Hn] Hk. pose proof Hk as (E & Hs & Hl).
  destruct (record_unpack_prefix ff ki r2 row Hs) as (cs & Hrun & Hcs); [lia|]. rewrite <- E in Hrun. eexists. split; [exact Hrun|].
  pose proof (Forall2_length _ _ _ Hcs) as Hlc. rewrite length_take in Hlc.
  split; [split; cbn [pKeyInfo up_nField]; [done|lia]|]. split; [done|]. split; [done|]. exists row. split; [done|]. cbn [aMem].
  unfold key_columns. assert (take (Z.to_nat (ki_nField ki + 1)) row = take (Z.to_nat (up_nField r2)) row) as ->; [|done].
  destruct (decide (ncol <= up_nField r2)); [rewrite !take_ge by lia; done|f_equal; lia].
Qed.

Lemma record_compares r2 a b rowa : colls_encoded -> ncol <= 32767 -> record_up r2 -> record_holds r2 b -> record_key a rowa ->
  exists fl ro, sqlite3VdbeRecordCompare oom (Z.of_nat (length a)) a r2 = Some (record_cmp a b, (fl, ro)) /\
    record_up (set_up r2 r2.(up_nField) fl ro) /\ record_holds (set_up r2 r2.(up_nField) fl ro) b.
Proof.
  intros Hc Hf [Hki Hn] (Hfl & Hnf & rowb & Hb & Hcb) Ha. unfold record_cmp.
  rewrite (decode_record _ _ Hf Ha), (decode_record _ _ Hf Hb). pose proof Ha as (E & Hs & Hla).
  destruct (record_layout ff rowa Hs ltac:(lia)) as (Hbo & Hk & Hg & Hsz & Hd1 & Hd2 & Hl). rewrite <- E in *.
  destruct (compare_loop_lex oom r2 ff a (Z.of_nat (length a)) (header_size (Z.of_nat (length (types ff rowa)))) rowa (aMem r2)
    (sqlite3VarintLen (header_size (Z.of_nat (length (types ff rowa))))) (header_size (Z.of_nat (length (types ff rowa)))) 0)
    as (cs & Hcs & Hrun); try done; try lia; [by rewrite Hd1, Hd2|].
  rewrite Hki in Hcs. destruct (reads_values _ _ _ Hcs) as [Hv Hp]. destruct (reads_values _ _ _ Hcb) as [Hvb Hpb].
  rewrite (lex_compare_row r2 Hc Hki Hfl cs (aMem r2) 0 Hp Hpb), Hv, Hvb in Hrun. rewrite firstn_map.
  unfold sqlite3VdbeRecordCompare. rewrite Hg. cbn [mbind option_bind]. rewrite take_ge by lia.
  destruct (compare_loop _ _ _ _ _ _ _ _ _) as [[rc [fl ro]]|] eqn:Hcl; [|done]. cbn in Hrun. injection Hrun as ->.
  apply (compare_keeps_flags _ _ _ _ Hfl) in Hcl. subst fl. exists 0, ro. split; [done|]. split; [done|]. split; [done|]. split; [done|]. by exists rowb.
Qed.

(** ** The order

    [kinds] tells for each of the first columns whether it holds reals. *)

(** The result on rows is that on their first columns, unless those are
    the same. *)
Lemma row_prefix : forall p vs ws i, (p <= length vs)%nat -> (p <= length ws)%nat ->
  row_cmp i (take p vs) (take p ws) = 0 \/ row_cmp i vs ws = row_cmp i (take p vs) (take p ws).
Proof.
  induction p as [|p IH]; intros [|v vs] [|w ws] i Hv Hw; cbn [length] in *; try lia; [by left..|].
  cbn [take row_cmp]. destruct (_ =? 0); [apply IH; lia|by right].
Qed.

Definition of_kinds (kinds : list bool) (row : list value) : Prop := Forall2 of_kind kinds (take (length kinds) row).

Definition values_le (p : nat) (vs ws : list value) : Prop := row_cmp 0 (take p vs) (take p ws) <= 0.

Lemma of_kinds_length kinds row : of_kinds kinds row -> (length kinds <= length row)%nat.
Proof. intros H. apply Forall2_length in H. rewrite length_take in H. lia. Qed.

Lemma compared_prefix p vs ws : (p <= length vs)%nat -> (p <= length ws)%nat -> (p <= key_columns)%nat ->
  let c := row_cmp 0 vs (take key_columns ws) in let c' := row_cmp 0 (take p vs) (take p ws) in c' = 0 \/ c = c'.
Proof.
  intros Hv Hw Hk c c'. destruct (row_prefix p vs (take key_columns ws) 0 Hv) as [H|H]; [rewrite length_take; lia| |];
    rewrite take_take, (Nat.min_l p) in H by lia; [by left|by right].
Qed.

(** The records of rows whose first columns have [kinds] are keys of the
    sorter, ordered by these columns. *)
Definition record_order (kinds : list bool) (Hc : colls_encoded) (Hn : ncol <= 32767) (H0 : 0 <= ki.(ki_nField))
    (Hk : (length kinds <= key_columns)%nat) (Hg : good_cmp (Forall2 of_kind kinds) (row_cmp 0)) : KeyOrder oom ki.
Proof.
  refine {| valid_key := fun k => exists row, record_key k row /\ of_kinds kinds (map mem_value row); key_cmp := record_cmp;
            key_le := fun a b => values_le (length kinds) (decode a) (decode b);
            up_ok := record_up; up_holds := record_holds |}.
  - intros b r2. unfold sqlite3VdbeAllocUnpackedRecord. destruct (_ >? _); intros [= _ <-]; (split; [done|]); cbn; lia.
  - intros r2 k Hr (row & Hrow & _). by eapply record_unpacks.
  - intros r2 a b Hr Hh (row & Ha & _) _. by eapply record_compares.
  - intros a b (rowa & Ha & Hka) (rowb & Hb & Hkb). unfold record_cmp, values_le.
    rewrite (decode_record _ _ Hn Ha), (decode_record _ _ Hn Hb).
    destruct (compared_prefix (length kinds) (map mem_value rowa) (map mem_value rowb)); try by apply of_kinds_length. all: lia.
  - intros a b (rowa & Ha & Hka) (rowb & Hb & Hkb). unfold record_cmp, values_le.
    rewrite (decode_record _ _ Hn Ha), (decode_record _ _ Hn Hb). pose proof (gc_sym _ _ Hg _ _ Hka Hkb).
    destruct (compared_prefix (length kinds) (map mem_value rowa) (map mem_value rowb)); try by apply of_kinds_length. all: lia.
  - intros a (rowa & Ha & Hka). unfold values_le. rewrite (decode_record _ _ Hn Ha). pose proof (gc_sym _ _ Hg _ _ Hka Hka). lia.
  - intros a b c (rowa & Ha & Hka) (rowb & Hb & Hkb) (rowc & Hcc & Hkc). unfold values_le.
    rewrite (decode_record _ _ Hn Ha), (decode_record _ _ Hn Hb), (decode_record _ _ Hn Hcc). by apply (gc_trans _ _ Hg).
Defined.

End Records.
