(* ===== verification/SorterRows.v ===== *)
(** * The sorter: sorting rows

    The whole of the sorter on the records of rows: an external merge sort
    that gives its memory and its files back whatever fails. *)

From Stdlib Require Import Sorted.
From S2P Require Import Prelude Varint Ints Mem Heap Serial Vfs Sorter SorterRead SorterState SorterList SorterRun SorterOrder.

(** The order of rows by their first [p] columns. *)
Definition row_le (ki : KeyInfo) (p : nat) (r1 r2 : list Mem) : Prop := values_le ki p (map mem_value r1) (map mem_value r2).

(** The rows [out] in the order of every run of leading columns that the key
    compares and none of which has integers in one row and reals in another. *)
Definition in_order (ki : KeyInfo) (out : list (list Mem)) : Prop :=
  forall kinds, (length kinds <= key_columns ki)%nat -> Forall (fun row => of_kinds kinds (map mem_value row)) out ->
    StronglySorted (row_le ki (length kinds)) out.

Section Rows.
Context {V : Vfs} {U : Indeterminate} {VL : VfsLaws V} (oom : bool) (ki : KeyInfo) (ff pgsz ncol : Z).

(** Rows of [ncol] columns, short enough for the sorter's counters. *)
Definition sortable (row : list Mem) : Prop :=
  Forall storable row /\ Z.of_nat (length row) = ncol /\ Z.of_nat (length (record_bytes ff row)) < 2 ^ 29.

Definition to_key (p : bool * list Mem) : bool * list Z := (p.1, record_bytes ff p.2).

Definition spill_limit (tmp : bool) (cache : Z) : Z :=
  if tmp then 0 else i32 ((if cache <? SORTER_MIN_WORKING then SORTER_MIN_WORKING else cache) * pgsz).

(** A key and the number of its columns that the sorter can work with. *)
Definition key_info_ok : Prop := colls_encoded ki /\ 0 <= ki.(ki_nField) /\ ncol <= 32767.

Lemma sortable_key row : ncol <= 32767 -> sortable row -> key_fits (record_bytes ff row).
Proof.
  intros Hf (Hs & Hk & Hl).
  destruct (record_layout ff row Hs ltac:(lia)) as (Hb & Hk1 & _ & Hsz & _ & _ & Hrl). split; [done|]. lia.
Qed.

Lemma sortable_record row : sortable row -> record_key ff ncol (record_bytes ff row) row.
Proof. by intros (H1 & H2 & _). Qed.

(** The rows in the order of the records [out]. *)
Lemma rows_sorted (kinds : list bool) rows : ncol <= 32767 -> Forall sortable rows ->
  StronglySorted (fun a b => values_le ki (length kinds) (decode ki ncol a) (decode ki ncol b)) (map (record_bytes ff) rows) ->
  StronglySorted (row_le ki (length kinds)) rows.
Proof.
  intros Hf. induction rows as [|r rows IH]; intros Hr Hs; [constructor|]. cbn [map] in Hs. apply StronglySorted_inv in Hs as [Hs Hle].
  apply Forall_cons in Hr as [Hr0 Hr]. constructor; [by apply IH|]. rewrite Forall_map in Hle.
  rewrite Forall_forall in *. intros r' Hin. specialize (Hle r' Hin). cbn beta in Hle.
  by rewrite (decode_record ki ff ncol _ r Hf (sortable_record r Hr0)), (decode_record ki ff ncol _ r' Hf (sortable_record r' (Hr r' Hin))) in Hle.
Qed.

(** The sorter with the rows compared as [kinds] tells. *)
Lemma sort_kinds kinds (tmp : bool) cache l w : 0 < pgsz < 2 ^ 30 -> key_info_ok -> (length kinds <= key_columns ki)%nat ->
  good_cmp (Forall2 of_kind kinds) (row_cmp ki 0) ->
  Forall sortable (map snd l) -> Forall (fun row => of_kinds kinds (map mem_value row)) (map snd l) ->
  sizes_ok (spill_limit tmp cache) (map (record_bytes ff) (map snd l)) ->
  runs (sorter_sort oom ki pgsz tmp cache (map to_key l)) w (fun '(rc, out) w' => step [] w w' 0 /\ (good w -> rc = SQLITE_OK) /\
    (rc = SQLITE_OK -> out ≡ₚ map (record_bytes ff) (map snd l) /\
      StronglySorted (fun a b => values_le ki (length kinds) (decode ki ncol a) (decode ki ncol b)) out)).
Proof.
  intros Hpg (Hc & H0 & Hn) Hk Hg Hl Hkl Hsz. set (KO := record_order oom ki ff ncol kinds Hc Hn H0 Hk Hg).
  assert (map snd (map to_key l) = map (record_bytes ff) (map snd l)) as E by (rewrite !map_map; done). rewrite <- E in *.
  apply (@sorter_sort_ok V U VL oom ki KO pgsz tmp cache (map to_key l) w Hpg); [|done].
  apply Forall_map. rewrite Forall_map in Hl, Hkl. rewrite Forall_forall in *. intros [nf row] Hin.
  specialize (Hl _ Hin). specialize (Hkl _ Hin). cbn [to_key fst snd] in *.
  split; [by apply sortable_key|]. split; [by destruct Hl as (_ & _ & ?)|]. exists row. split; [by apply sortable_record|done].
Qed.

Lemma sort_rows (tmp : bool) cache l w : 0 < pgsz < 2 ^ 30 -> key_info_ok -> Forall sortable (map snd l) ->
  sizes_ok (spill_limit tmp cache) (map (record_bytes ff) (map snd l)) ->
  runs (sorter_sort oom ki pgsz tmp cache (map to_key l)) w (fun '(rc, out) w' => step [] w w' 0 /\ (good w -> rc = SQLITE_OK) /\
    (rc = SQLITE_OK -> exists rows, rows ≡ₚ map snd l /\ out = map (record_bytes ff) rows /\ (colls_total ki -> in_order ki rows))).
Proof.
  intros Hpg Hki Hl Hsz. pose proof Hki as (_ & _ & Hn).
  destruct (sort_kinds [] tmp cache l w Hpg Hki) as ([rc out] & w' & Hrun & Hs & Hg & Hok); try done.
  { cbn. lia. } { split; intros; repeat match goal with H : Forall2 _ [] _ |- _ => inversion H; subst; clear H end; done. }
  { apply Forall_forall. constructor. }
  exists (rc, out), w'. split; [done|]. split; [done|]. split; [done|]. intros Hrc. destruct (Hok Hrc) as [HP _].
  destruct (Permutation_map_inv _ _ HP) as (rows & E & HP'). exists rows. split; [done|]. split; [done|].
  intros Ht kinds Hk Hkr. rewrite <- HP' in Hkr. apply rows_sorted; [done|by rewrite <- HP'|].
  destruct (sort_kinds kinds tmp cache l w Hpg Hki Hk (good_row ki Ht kinds 0) Hl Hkr Hsz) as ([rc2 out2] & w2 & Hrun2 & _ & _ & Hok2).
  rewrite Hrun in Hrun2. injection Hrun2 as <- <- <-. rewrite <- E. by apply Hok2.
Qed.

End Rows.

(** ** Theorems *)

(** Rows (i mod 3, i, a number) with a key of the first column, descending; the
    last column has integers and reals.  With a page of one byte each record
    but the first is spilled. *)
Definition real_cell (b : Z) : Mem := mkMem MEM_Real b 0 0 [] SQLITE_UTF8 false 0.
Definition witness_ki : KeyInfo := mkKeyInfo SQLITE_UTF8 1 [true] [].
Definition witness_number (i : Z) : Mem := if Z.even i then real_cell 0x4340000000000000 else int_cell i.
Definition witness_rows : list (list Mem) := map (fun i => [int_cell (i mod 3); int_cell i; witness_number i]) [5; 1; 4; 2; 3; 0].
Definition witness_list : list (bool * list Mem) := map (pair false) witness_rows.
Definition witness_world (faults : list Z) : world VfsMem := World (Heap [] 5) false (MemVfs ∅ faults).
#[local] Instance witness_uninit : Indeterminate := 77.

Lemma witness_shape : key_info_ok witness_ki 3.
Proof. split; [constructor|]. cbn. lia. Qed.

Lemma real_cell_storable b : is_u64 b -> double_of_bits b <> SpecFloat.S754_nan -> storable (real_cell b).
Proof. intros Hb Hn. split; [cbn; unfold_int; lia|]. split; [exact Hb|]. done. Qed.

Lemma witness_sortable : Forall (sortable 4 3) (map snd witness_list).
Proof.
  assert (forall i, 0 <= i < 6 -> sortable 4 3 [int_cell (i mod 3); int_cell i; witness_number i]) as H.
  { intros i Hi. split; [|split; [done|]].
    - repeat apply List.Forall_cons; [apply int_cell_storable; unfold_int; zlia|apply int_cell_storable; unfold_int; zlia| |constructor].
      unfold witness_number. destruct (Z.even i); [apply real_cell_storable; [unfold_int; lia|by vm_compute]|apply int_cell_storable; unfold_int; lia].
    - assert (i = 0 \/ i = 1 \/ i = 2 \/ i = 3 \/ i = 4 \/ i = 5) as E by lia.
      by repeat destruct E as [-> | E]; [..|subst i]; vm_compute. }
  repeat apply List.Forall_cons; [apply (H 5)|apply (H 1)|apply (H 4)|apply (H 2)|apply (H 3)|apply (H 0)|constructor]; lia.
Qed.

Lemma witness_sizes : sizes_ok (spill_limit 1 false 10) (map (record_bytes 4) (map snd witness_list)).
Proof. split; [by vm_compute|]. split; [by vm_compute|]. left. split; by vm_compute. Qed.

(** C1: whatever the memory and the files do, sorting rows ends, gives back
    every block and leaves no file behind nor touches another; and when it
    reports success it has given all the rows, sorted by the leading columns
    that the key compares, up to the first with integers next to reals. *)
Theorem sorter_sort_rows {V : Vfs} {U : Indeterminate} {VL : VfsLaws V} oom ki ff pgsz ncol (tmp : bool) cache l w :
  0 < pgsz < 2 ^ 30 -> key_info_ok ki ncol -> Forall (sortable ff ncol) (map snd l) ->
  sizes_ok (spill_limit pgsz tmp cache) (map (record_bytes ff) (map snd l)) ->
  exists rc out w', sorter_sort oom ki pgsz tmp cache (map (to_key ff) l) w = Some ((rc, out), w') /\
    w'.(hp).(live) = w.(hp).(live) /\ (forall f, contents w'.(fs) f = contents w.(fs) f) /\
    (rc = SQLITE_OK -> exists rows, rows ≡ₚ map snd l /\ out = map (record_bytes ff) rows /\ (colls_total ki -> in_order ki rows)).
Proof.
  intros Hpg Hki Hl Hsz. destruct (sort_rows oom ki ff pgsz ncol tmp cache l w Hpg Hki Hl Hsz) as ([rc out] & w' & Hrun & Hs & _ & Hok).
  exists rc, out, w'. split; [done|]. split; [destruct Hs as (_ & Hlive & _); lia|].
  split; [intros f; exact (step_contents _ _ _ f Hs)|done].
Qed.

(** The fifth call of the file system fails. *)
Example sorter_sort_rows_witness :
  exists rc out w', sorter_sort false witness_ki 1 false 10 (map (to_key 4) witness_list) (witness_world [0; 0; 0; 0; 10]) = Some ((rc, out), w') /\
    w'.(hp).(live) = 5 /\ (forall f, contents w'.(fs) f = None) /\
    (rc = SQLITE_OK -> exists rows, rows ≡ₚ witness_rows /\ out = map (record_bytes 4) rows /\ (colls_total witness_ki -> in_order witness_ki rows)).
Proof.
  destruct (sorter_sort_rows false witness_ki 4 1 3 false 10 witness_list (witness_world [0; 0; 0; 0; 10]))
    as (rc & out & w' & Hrun & Hl & Hf & Hok).
  - lia.
  - apply witness_shape.
  - apply witness_sortable.
  - apply witness_sizes.
  - exists rc, out, w'. split; [exact Hrun|]. split; [exact Hl|]. split; [exact Hf|exact Hok].
Defined.

(** C17: when neither the memory nor the files fail, sorting rows succeeds: all of
    them come out, sorted by the leading columns that the key compares, up to
    the first with integers next to reals. *)
Theorem sorter_sort_live {V : Vfs} {U : Indeterminate} {VL : VfsLaws V} oom ki ff pgsz ncol (tmp : bool) cache l w :
  0 < pgsz < 2 ^ 30 -> key_info_ok ki ncol -> Forall (sortable ff ncol) (map snd l) ->
  sizes_ok (spill_limit pgsz tmp cache) (map (record_bytes ff) (map snd l)) ->
  ready w.(fs) -> w.(hp).(fails) = [] -> w.(mallocFailed) = false ->
  exists rows w', sorter_sort oom ki pgsz tmp cache (map (to_key ff) l) w = Some ((SQLITE_OK, map (record_bytes ff) rows), w') /\
    rows ≡ₚ map snd l /\ (colls_total ki -> in_order ki rows).
Proof.
  intros Hpg Hki Hl Hsz Hr Hn Hm. destruct (sort_rows oom ki ff pgsz ncol tmp cache l w Hpg Hki Hl Hsz) as ([rc out] & w' & Hrun & _ & Hg & Hok).
  rewrite (Hg (conj Hr (conj Hn Hm))) in *. destruct (Hok eq_refl) as (rows & HP & -> & Hs). by exists rows, w'.
Qed.

(** The rows come out by the first column, descending, and then the second. *)
Example sorter_sort_live_witness :
  exists rows w', sorter_sort false witness_ki 1 false 10 (map (to_key 4) witness_list) (witness_world [])
      = Some ((SQLITE_OK, map (record_bytes 4) rows), w') /\
    rows ≡ₚ witness_rows /\ StronglySorted (row_le witness_ki 2) rows.
Proof.
  destruct (sorter_sort_live false witness_ki 4 1 3 false 10 witness_list (witness_world [])) as (rows & w' & Hrun & HP & Ho).
  - lia.
  - apply witness_shape.
  - apply witness_sortable.
  - apply witness_sizes.
  - reflexivity.
  - reflexivity.
  - reflexivity.
  - exists rows, w'. split; [exact Hrun|]. split; [exact HP|].
    apply (Ho (Forall_nil_2 _) [false; false]); [apply le_n|]. rewrite HP. repeat apply List.Forall_cons; try constructor; repeat constructor.
Defined.

(** Rows of one number each: 2^53, the real 2^53 and 2^53+1. *)
Definition mixed_ki : KeyInfo := mkKeyInfo SQLITE_UTF8 1 [false] [].
Definition mixed_records : list SorterRecord :=
  map (fun m => let k := record_bytes 4 [m] in mkSorterRecord k (Z.of_nat (length k)))
    [int_cell 9007199254740992; real_cell 0x4340000000000000; int_cell 9007199254740993].

(** Integers next to reals are not sorted numerically: a real is compared
    with an integer as a double, so 2^53 and 2^53+1 both equal the real 2^53,
    and the ascending sort of these three in order gives 2^53+1 before 2^53. *)
Theorem vdbeSorterSort_mixed_numbers :
  exists r2 l r2', sqlite3VdbeAllocUnpackedRecord 48 64 0 false mixed_ki 0 = Some (true, r2) /\
    sort_list false mixed_ki r2 mixed_records = Some (l, r2') /\
    map (fun r => decode mixed_ki 1 r.(pVal)) l = [[VInt 9007199254740993]; [VReal 0x4340000000000000]; [VInt 9007199254740992]].
Proof. do 3 eexists. split; [vm_compute; reflexivity|]. split; [vm_compute; reflexivity|]. vm_compute. reflexivity. Qed.
