(* ===== verification/Token.v ===== *)
(** * The tokenizer (src/lmdb-backend/src/tokenize.c)

    [sqlite3GetToken] measures and classifies the token at a pointer into a
    zero-terminated string, which is the list of the bytes before the
    terminator.  Its specification is a lexical grammar, [lexeme], and the
    rule of the longest match.  The codes TK_* come from parse.h, which the
    build generates: they are the constructors of [tk]. *)

From S2P Require Import Prelude Ctype.

(** ** Token codes *)

(** Keywords, of which the code names some; parse.h numbers the others. *)
Inductive kw :=
  | KW_BEGIN | KW_FOR | KW_ON | KW_REFERENCES | KW_USING | KW_WHEN | KW_other (n : Z).

Inductive tk :=
  | TK_SPACE | TK_ILLEGAL | TK_MINUS | TK_LP | TK_RP | TK_SEMI | TK_PLUS | TK_STAR | TK_SLASH
  | TK_REM | TK_EQ | TK_LE | TK_NE | TK_LSHIFT | TK_LT | TK_GE | TK_RSHIFT | TK_GT | TK_BITOR
  | TK_CONCAT | TK_COMMA | TK_BITAND | TK_BITNOT | TK_STRING | TK_ID | TK_DOT | TK_INTEGER
  | TK_FLOAT | TK_VARIABLE | TK_REGISTER | TK_BLOB | TK_KW (k : kw).

#[global] Instance kw_eq_dec : EqDecision kw.
Proof. solve_decision. Defined.
#[global] Instance tk_eq_dec : EqDecision tk.
Proof. solve_decision. Defined.

(** The hash of the keywords is generated by tool/mkkeywordhash.c. *)
Class Keywords := keyword : list Z -> option kw.

Definition keywordCode `{Keywords} (w : list Z) : tk :=
  match keyword w with Some k => TK_KW k | None => TK_ID end.

(** ** The code *)

Definition not_char (k c : Z) : bool := negb (c =? k).

(** [while( p(z[i]) ) i++]: the bytes passed.  No class of characters used
    with it contains the terminator. *)
Fixpoint scan (p : Z -> bool) (z : list Z) : nat :=
  match z with
  | c :: z1 => if p c then S (scan p z1) else O
  | [] => O
  end.

(** [for(...; (c!='*' || z[i]!='/') && (c=z[i])!=0; i++)] from [z[i]] on: the
    final [i] and [c]. *)
Fixpoint comment_loop (c : Z) (z : list Z) (i : nat) : nat * Z :=
  if negb (c =? 42) || negb (deref z =? 47) then
    match z with
    | [] => (i, 0)
    | c1 :: z1 => comment_loop c1 z1 (S i)
    end
  else (i, c).

(** [for(i=1; (c=z[i])!=0; i++)] of the quoted strings. *)
Fixpoint string_loop (delim : Z) (z : list Z) (i : nat) : nat * Z :=
  match z with
  | [] => (i, 0)
  | c :: z1 =>
      if c =? delim then
        match z1 with
        | c1 :: z2 => if c1 =? delim then string_loop delim z2 (S (S i)) else (i, c)
        | [] => (i, c)
        end
      else string_loop delim z1 (S i)
  end.

(** [for(i=1, c=z[0]; c!=']' && (c=z[i])!=0; i++)] *)
Fixpoint bracket_loop (c : Z) (z : list Z) (i : nat) : nat * Z :=
  if negb (c =? 93) then
    match z with
    | [] => (i, 0)
    | c1 :: z1 => bracket_loop c1 z1 (S i)
    end
  else (i, c).

(** [for(i=1; (c=z[i])!=0; i++)] of the parameters: the final [i], [n] and
    whether the token became TK_ILLEGAL. *)
Fixpoint variable_loop (z : list Z) (i n : nat) : nat * nat * bool :=
  match z with
  | [] => (i, n, false)
  | c :: z1 =>
      if IdChar c then variable_loop z1 (S i) (S n)
      else if (c =? 40) && (0 <? n)%nat then
        let k := scan (fun c => negb (sqlite3Isspace c) && negb (c =? 41)) z1 in
        if deref (drop k z1) =? 41 then (S (S i + k), n, false) else ((S i + k)%nat, n, true)
      else
        match z1 with
        | c1 :: z2 =>
            if (c =? 58) && (c1 =? 58) then variable_loop z2 (S (S i)) n else (i, n, false)
        | [] => (i, n, false)
        end
  end.

Section Tokens.
Context `{Keywords}.

(** The case of the digits. *)
Definition number_token (z : list Z) : nat * tk :=
  let i := scan sqlite3Isdigit z in
  let '(i, t) :=
    if at_ z i =? 46 then
      let i := S i in
      ((i + scan sqlite3Isdigit (drop i z))%nat, TK_FLOAT)
    else (i, TK_INTEGER) in
  let '(i, t) :=
    if ((at_ z i =? 101) || (at_ z i =? 69))
       && (sqlite3Isdigit (at_ z (i + 1))
           || (((at_ z (i + 1) =? 43) || (at_ z (i + 1) =? 45)) && sqlite3Isdigit (at_ z (i + 2))))
    then
      let i := (i + 2)%nat in
      ((i + scan sqlite3Isdigit (drop i z))%nat, TK_FLOAT)
    else (i, t) in
  let k := scan IdChar (drop i z) in
  ((i + k)%nat, if (0 <? k)%nat then TK_ILLEGAL else t).

(** The cases of '$', '@' and ':'. *)
Definition variable_token (z : list Z) : nat * tk :=
  let '(i, n, illegal) := variable_loop (drop 1 z) 1 0 in
  (i, if (illegal : bool) || (n =? 0)%nat then TK_ILLEGAL else TK_VARIABLE).

(** The default case. *)
Definition id_token (z : list Z) : nat * tk :=
  if IdChar (deref z) then
    let i := S (scan IdChar (drop 1 z)) in
    (i, keywordCode (take i z))
  else (1%nat, TK_ILLEGAL).

Definition sqlite3GetToken (z : list Z) : nat * tk :=
  let c0 := deref z in
  let c1 := at_ z 1 in
  if (c0 =? 32) || (c0 =? 9) || (c0 =? 10) || (c0 =? 12) || (c0 =? 13) then
    (S (scan sqlite3Isspace (drop 1 z)), TK_SPACE)
  else if c0 =? 45 (* - *) then
    if c1 =? 45 then ((2 + scan (not_char 10) (drop 2 z))%nat, TK_SPACE)
    else (1%nat, TK_MINUS)
  else if c0 =? 40 then (1%nat, TK_LP)
  else if c0 =? 41 then (1%nat, TK_RP)
  else if c0 =? 59 then (1%nat, TK_SEMI)
  else if c0 =? 43 then (1%nat, TK_PLUS)
  else if c0 =? 42 then (1%nat, TK_STAR)
  else if c0 =? 47 (* / *) then
    if negb (c1 =? 42) || (at_ z 2 =? 0) then (1%nat, TK_SLASH)
    else
      let '(i, c) := comment_loop (at_ z 2) (drop 3 z) 3 in
      ((if negb (c =? 0) then S i else i), TK_SPACE)
  else if c0 =? 37 then (1%nat, TK_REM)
  else if c0 =? 61 (* = *) then (if c1 =? 61 then 2%nat else 1%nat, TK_EQ)
  else if c0 =? 60 (* < *) then
    if c1 =? 61 then (2%nat, TK_LE)
    else if c1 =? 62 then (2%nat, TK_NE)
    else if c1 =? 60 then (2%nat, TK_LSHIFT)
    else (1%nat, TK_LT)
  else if c0 =? 62 (* > *) then
    if c1 =? 61 then (2%nat, TK_GE)
    else if c1 =? 62 then (2%nat, TK_RSHIFT)
    else (1%nat, TK_GT)
  else if c0 =? 33 (* ! *) then
    if negb (c1 =? 61) then (2%nat, TK_ILLEGAL) else (2%nat, TK_NE)
  else if c0 =? 124 (* | *) then
    if negb (c1 =? 124) then (1%nat, TK_BITOR) else (2%nat, TK_CONCAT)
  else if c0 =? 44 then (1%nat, TK_COMMA)
  else if c0 =? 38 then (1%nat, TK_BITAND)
  else if c0 =? 126 then (1%nat, TK_BITNOT)
  else if (c0 =? 96) || (c0 =? 39) || (c0 =? 34) (* quotes *) then
    let '(i, c) := string_loop c0 (drop 1 z) 1 in
    if (c =? 39)%Z then (S i, TK_STRING)
    else if negb (c =? 0)%Z then (S i, TK_ID)
    else (i, TK_ILLEGAL)
  else if c0 =? 46 (* . *) then
    if negb (sqlite3Isdigit c1) then (1%nat, TK_DOT) else number_token z
  else if (48 <=? c0) && (c0 <=? 57) then number_token z
  else if c0 =? 91 (* [ *) then
    let '(i, c) := bracket_loop c0 (drop 1 z) 1 in
    (i, if c =? 93 then TK_ID else TK_ILLEGAL)
  else if c0 =? 63 (* ? *) then (S (scan sqlite3Isdigit (drop 1 z)), TK_VARIABLE)
  else if c0 =? 35 (* # *) then
    let i := S (scan sqlite3Isdigit (drop 1 z)) in
    if (1 <? i)%nat then (i, TK_REGISTER) else variable_token z
  else if (c0 =? 36) || (c0 =? 64) || (c0 =? 58) then variable_token z
  else if (c0 =? 120) || (c0 =? 88) (* x *) then
    if c1 =? 39 then
      let i := (2 + scan sqlite3Isxdigit (drop 2 z))%nat in
      let '(i, t) :=
        if negb (at_ z i =? 39) || Nat.odd i then
          ((i + scan (not_char 39) (drop i z))%nat, TK_ILLEGAL)
        else (i, TK_BLOB) in
      ((if negb (at_ z i =? 0) then S i else i), t)
    else id_token z
  else id_token z.

End Tokens.
