(* ===== verification/TokenSpec.v ===== *)
(** * The lexical grammar of SQL and the rule of the longest match

    [lexeme] lists the shapes of the tokens; [sqlite3GetToken] returns the
    longest one that starts at the pointer. *)

From S2P Require Import Prelude Ctype Token.

(** ** The grammar *)

(** The operators and the other tokens of fixed text. *)
Definition operators : list (tk * list Z) :=
  [(TK_MINUS, [45]); (TK_LP, [40]); (TK_RP, [41]); (TK_SEMI, [59]); (TK_PLUS, [43]);
   (TK_STAR, [42]); (TK_SLASH, [47]); (TK_REM, [37]); (TK_EQ, [61]); (TK_EQ, [61; 61]);
   (TK_LE, [60; 61]); (TK_NE, [60; 62]); (TK_LSHIFT, [60; 60]); (TK_LT, [60]);
   (TK_GE, [62; 61]); (TK_RSHIFT, [62; 62]); (TK_GT, [62]); (TK_NE, [33; 61]);
   (TK_BITOR, [124]); (TK_CONCAT, [124; 124]); (TK_COMMA, [44]); (TK_BITAND, [38]);
   (TK_BITNOT, [126]); (TK_DOT, [46])].

(** The text holds no end of comment. *)
Definition no_close (s : list Z) : Prop := forall a b, s <> a ++ 42 :: 47 :: b.

Notation all p s := (Forall (fun c => p c = true) s).

(** e or E, an optional sign and digits. *)
Inductive exponent : list Z -> Prop :=
  | exponent_intro e sg ds :
      e = 101 \/ e = 69 -> sg = [] \/ sg = [43] \/ sg = [45] ->
      ds <> [] -> all sqlite3Isdigit ds -> exponent (e :: sg ++ ds).

(** The name of a parameter: identifier characters and "::", with the number
    of identifier characters. *)
Inductive param_name : nat -> list Z -> Prop :=
  | param_nil : param_name 0 []
  | param_char n c s : IdChar c = true -> param_name n s -> param_name (S n) (c :: s)
  | param_colon n s : param_name n s -> param_name n (58 :: 58 :: s).

(** The part in parentheses of a Tcl variable. *)
Definition param_tail (s : list Z) : Prop :=
  s = [] \/ exists b, s = 40 :: b ++ [41] /\ all (fun c => negb (sqlite3Isspace c) && negb (c =? 41)) b.

Section Lexemes.
Context `{Keywords}.

Inductive lexeme : tk -> list Z -> Prop :=
  | lx_op t s : (t, s) ∈ operators -> lexeme t s
  | lx_space c s : c ∈ [32; 9; 10; 12; 13] -> all sqlite3Isspace s -> lexeme TK_SPACE (c :: s)
  | lx_line s : all (not_char 10) s -> lexeme TK_SPACE (45 :: 45 :: s)
  | lx_block s : no_close s -> lexeme TK_SPACE (47 :: 42 :: s ++ [42; 47])
  | lx_block_open s : s <> [] -> no_close s -> lexeme TK_SPACE (47 :: 42 :: s)
  | lx_quoted q s : q ∈ [39; 34; 96] -> lexeme (if q =? 39 then TK_STRING else TK_ID) (q :: escape q s ++ [q])
  | lx_bracket s : all (not_char 93) s -> lexeme TK_ID (91 :: s ++ [93])
  | lx_integer ds : ds <> [] -> all sqlite3Isdigit ds -> lexeme TK_INTEGER ds
  | lx_point a b x : a <> [] \/ b <> [] -> all sqlite3Isdigit a -> all sqlite3Isdigit b ->
      x = [] \/ exponent x -> lexeme TK_FLOAT (a ++ 46 :: b ++ x)
  | lx_exponent a x : a <> [] -> all sqlite3Isdigit a -> exponent x -> lexeme TK_FLOAT (a ++ x)
  | lx_number_param ds : all sqlite3Isdigit ds -> lexeme TK_VARIABLE (63 :: ds)
  | lx_register ds : ds <> [] -> all sqlite3Isdigit ds -> lexeme TK_REGISTER (35 :: ds)
  | lx_param c n s t : c ∈ [36; 64; 58; 35] -> (c = 35 -> sqlite3Isdigit (deref s) = false) ->
      param_name (S n) s -> param_tail t -> lexeme TK_VARIABLE (c :: s ++ t)
  | lx_blob c ds : c ∈ [120; 88] -> all sqlite3Isxdigit ds -> Nat.even (length ds) = true ->
      lexeme TK_BLOB (c :: 39 :: ds ++ [39])
  | lx_word c s : IdChar c = true -> sqlite3Isdigit c = false -> c <> 36 -> all IdChar s ->
      lexeme (keywordCode (c :: s)) (c :: s).

End Lexemes.

(** ** Scans *)

Lemma scan_app p s rest : all p s -> p (deref rest) = false -> scan p (s ++ rest) = length s.
Proof.
  intros Hs Hr. induction Hs as [|c s Hc Hs IH]; cbn.
  - destruct rest as [|c rest]; [done|]. cbn in Hr |- *. by rewrite Hr.
  - by rewrite Hc, IH.
Qed.

Lemma scan_none p r : p (deref r) = false -> scan p r = O.
Proof. by intros Hr; apply (scan_app p [] r). Qed.

Lemma scan_all p s : all p s -> scan p s = length s.
Proof. intros Hs. induction Hs as [|c s Hc Hs IH]; cbn; [done|]. by rewrite Hc, IH. Qed.

Lemma scan_le p z : (scan p z <= length z)%nat.
Proof. induction z as [|c z IH]; cbn; [lia|]. destruct (p c); lia. Qed.

Lemma scan_passed p z : all p (take (scan p z) z).
Proof.
  induction z as [|c z IH]; cbn; [constructor|].
  destruct (p c) eqn:E; cbn; [by apply List.Forall_cons|constructor].
Qed.

Lemma scan_stop p z : p 0 = false -> p (at_ z (scan p z)) = false.
Proof.
  intros H0. unfold at_. induction z as [|c z IH]; cbn; [done|].
  destruct (p c) eqn:E; cbn; [apply IH|done].
Qed.

Lemma scan_take p z m : (scan p z < m)%nat -> scan p (take m z) = scan p z.
Proof.
  revert m. induction z as [|c z IH]; intros m Hm; [by rewrite take_nil|].
  cbn in Hm. destruct m as [|m]; [lia|]. cbn.
  destruct (p c); [|done]. rewrite IH by lia. done.
Qed.

Lemma at_take z m i : (i < m)%nat -> at_ (take m z) i = at_ z i.
Proof.
  intros Hi. unfold at_.
  destruct (decide (i < length z)%nat) as [Hz|Hz].
  - destruct (lookup_lt_is_Some_2 z i Hz) as [c Hc].
    rewrite (drop_S _ _ _ Hc), (drop_S _ c i); [done|].
    by rewrite lookup_take_lt.
  - rewrite !drop_ge; [done|lia|rewrite length_take; lia].
Qed.

Lemma deref_at z : deref z = at_ z 0.
Proof. done. Qed.

Lemma at_cons c z i : at_ (c :: z) (S i) = at_ z i.
Proof. done. Qed.

Lemma at_0 c z : at_ (c :: z) 0 = c.
Proof. done. Qed.

Lemma at_app_r s t i : at_ (s ++ t) (length s + i) = at_ t i.
Proof. unfold at_. by rewrite drop_app_add. Qed.

Lemma at_app_length s t : at_ (s ++ t) (length s) = deref t.
Proof. unfold at_. by rewrite drop_app_length. Qed.

(** ** Characters *)

(** Decides the tests of the dispatch on a byte whose class is known. *)
Ltac byte_tests :=
  repeat match goal with
  | |- context [?c =? ?k] =>
      first [ is_var c; destruct (Z.eqb_spec c k);
              [subst; exfalso; (discriminate || congruence || (vm_compute in *; congruence))|]
            | progress cbn [Z.eqb Pos.eqb] ]
  end; cbn [orb andb negb].

Lemma isdigit_range c : is_u8 c -> sqlite3Isdigit c = true -> 48 <= c <= 57.
Proof. intros Hc. rewrite isdigit_spec by done. zcase; cbn; lia || done. Qed.

Lemma digit_idchar c : is_u8 c -> sqlite3Isdigit c = true -> IdChar c = true.
Proof.
  intros Hc Hd. pose proof (isdigit_range c Hc Hd). destruct (ascii_tables c Hc) as (_ & _ & _ & _ & _ & _ & _ & ->).
  unfold byte_range. repeat zcase; cbn; lia || done.
Qed.

(** ** Lexemes in context

    [token_at t s rest]: [s] is a lexeme and what follows does not extend it. *)

Definition op_stop (s rest : list Z) : Prop :=
  match s with
  | [45] => deref rest <> 45
  | [47] => deref rest <> 42 \/ rest = [42]
  | [61] => deref rest <> 61
  | [60] => deref rest ∉ [61; 62; 60]
  | [62] => deref rest ∉ [61; 62]
  | [124] => deref rest <> 124
  | [46] => sqlite3Isdigit (deref rest) = false
  | _ => True
  end.

(** No exponent begins here. *)
Definition no_exponent (z : list Z) : Prop :=
  ((at_ z 0 =? 101) || (at_ z 0 =? 69))
  && (sqlite3Isdigit (at_ z 1)
      || (((at_ z 1 =? 43) || (at_ z 1 =? 45)) && sqlite3Isdigit (at_ z 2))) = false.

Definition param_stop (t rest : list Z) : Prop :=
  t = [] -> IdChar (deref rest) = false /\ deref rest <> 40 /\ (deref rest = 58 -> at_ rest 1 <> 58).

(** Refutes the tests of a byte [c] against the characters [Hk] excludes. *)
Ltac not_chars Hk :=
  repeat match goal with |- context [_ =? ?k] => rewrite (Hk k eq_refl) end.

Section InContext.
Context `{Keywords}.

Inductive token_at : tk -> list Z -> list Z -> Prop :=
  | ta_op t s r : (t, s) ∈ operators -> op_stop s r -> token_at t s r
  | ta_space c s r : c ∈ [32; 9; 10; 12; 13] -> all sqlite3Isspace s ->
      sqlite3Isspace (deref r) = false -> token_at TK_SPACE (c :: s) r
  | ta_line s r : all (not_char 10) s -> r = [] \/ deref r = 10 -> token_at TK_SPACE (45 :: 45 :: s) r
  | ta_block s r : no_close s -> token_at TK_SPACE (47 :: 42 :: s ++ [42; 47]) r
  | ta_block_open s : s <> [] -> no_close s -> token_at TK_SPACE (47 :: 42 :: s) []
  | ta_quoted q s r : q ∈ [39; 34; 96] -> deref r <> q ->
      token_at (if q =? 39 then TK_STRING else TK_ID) (q :: escape q s ++ [q]) r
  | ta_bracket s r : all (not_char 93) s -> token_at TK_ID (91 :: s ++ [93]) r
  | ta_integer ds r : ds <> [] -> all sqlite3Isdigit ds -> IdChar (deref r) = false ->
      deref r <> 46 -> token_at TK_INTEGER ds r
  | ta_point a b x r : a <> [] \/ b <> [] -> all sqlite3Isdigit a -> all sqlite3Isdigit b ->
      x = [] \/ exponent x -> IdChar (deref r) = false -> token_at TK_FLOAT (a ++ 46 :: b ++ x) r
  | ta_exponent a x r : a <> [] -> all sqlite3Isdigit a -> exponent x -> IdChar (deref r) = false ->
      token_at TK_FLOAT (a ++ x) r
  | ta_number_param ds r : all sqlite3Isdigit ds -> sqlite3Isdigit (deref r) = false ->
      token_at TK_VARIABLE (63 :: ds) r
  | ta_register ds r : ds <> [] -> all sqlite3Isdigit ds -> sqlite3Isdigit (deref r) = false ->
      token_at TK_REGISTER (35 :: ds) r
  | ta_param c n s t r : c ∈ [36; 64; 58; 35] -> (c = 35 -> sqlite3Isdigit (deref s) = false) ->
      param_name (S n) s -> param_tail t -> param_stop t r -> token_at TK_VARIABLE (c :: s ++ t) r
  | ta_blob c ds r : c ∈ [120; 88] -> all sqlite3Isxdigit ds -> Nat.even (length ds) = true ->
      token_at TK_BLOB (c :: 39 :: ds ++ [39]) r
  | ta_word c s r : IdChar c = true -> sqlite3Isdigit c = false -> c <> 36 -> all IdChar s ->
      IdChar (deref r) = false -> (c ∈ [120; 88] -> s = [] -> deref r <> 39) ->
      token_at (keywordCode (c :: s)) (c :: s) r.

Lemma token_lexeme t s r : token_at t s r -> lexeme t s.
Proof.
  intros []; [apply lx_op; auto|apply lx_space; auto|apply lx_line; auto|apply lx_block; auto|apply lx_block_open; auto|apply lx_quoted; auto|apply lx_bracket; auto
    |apply lx_integer; auto|apply lx_point; auto|apply lx_exponent; auto|apply lx_number_param; auto
    |apply lx_register; auto|eapply lx_param; eauto|apply lx_blob; auto|apply lx_word; auto].
Qed.

Lemma op_stop_nil t s : (t, s) ∈ operators -> op_stop s [].
Proof.
  unfold operators. rewrite !elem_of_cons, elem_of_nil.
  intros Hs. destruct_or! Hs; simplify_eq; cbn; try done; try (by left); not_in.
Qed.

Lemma lexeme_token t s : lexeme t s -> token_at t s [].
Proof.
  intros []; [apply ta_op|apply ta_space|apply ta_line|apply ta_block|apply ta_block_open|apply ta_quoted|apply ta_bracket
    |apply ta_integer|apply ta_point|apply ta_exponent|apply ta_number_param
    |apply ta_register|eapply ta_param|apply ta_blob|apply ta_word];
    eauto using op_stop_nil.
  - cbn. intros <-. match goal with Hq : 0 ∈ _ |- _ => in_cases Hq end.
  - by intros _.
Qed.

(** ** The code accepts the grammar *)

Lemma string_loop_app q s r i :
  deref r <> q -> string_loop q (escape q s ++ q :: r) i = ((i + length (escape q s))%nat, q).
Proof.
  intros Hr. revert i. induction s as [|c s IH]; intros i; cbn.
  - rewrite Z.eqb_refl, Nat.add_0_r. destruct r as [|c r]; [done|]. cbn in Hr.
    by destruct (Z.eqb_spec c q).
  - destruct (Z.eqb_spec c q) as [->|Hc]; cbn.
    + rewrite !Z.eqb_refl. fold (escape q s). rewrite IH. f_equal. lia.
    + destruct (Z.eqb_spec c q); [done|]. fold (escape q s). rewrite IH. f_equal. lia.
Qed.

Lemma bracket_loop_app s r c i :
  all (not_char 93) s -> c <> 93 -> bracket_loop c (s ++ 93 :: r) i = ((i + length s + 1)%nat, 93).
Proof.
  intros Hs. revert c i. induction Hs as [|d s Hd Hs IH]; intros c i Hc; cbn;
    destruct (Z.eqb_spec c 93); try done; cbn.
  - destruct r; cbn; (f_equal; lia).
  - rewrite IH; [f_equal; lia|]. unfold not_char in Hd. by destruct (Z.eqb_spec d 93).
Qed.

Lemma comment_loop_close s : forall c z r i,
  no_close s -> c :: z = s ++ 42 :: 47 :: r -> comment_loop c z i = ((i + length s)%nat, 42).
Proof.
  induction s as [|d s IH]; intros c z r i Hs [= -> ->]; cbn [length].
  - cbn. by rewrite Nat.add_0_r.
  - assert (He : negb (d =? 42) || negb (deref (s ++ 42 :: 47 :: r) =? 47) = true).
    { destruct (Z.eqb_spec d 42) as [->|]; [|done]. destruct s as [|e s]; [done|]. cbn.
      destruct (Z.eqb_spec e 47) as [->|]; [|done]. by destruct (Hs [] s). }
    assert (Hs' : no_close s) by (intros a b ->; by apply (Hs (d :: a) b)).
    destruct (s ++ 42 :: 47 :: r) as [|e z] eqn:Ez; [by destruct s|].
    cbn [comment_loop]. rewrite He. rewrite (IH e z r (S i) Hs'); [f_equal; lia|done].
Qed.

Lemma comment_loop_open z : forall c i,
  no_close (c :: z) -> comment_loop c z i = ((i + length z)%nat, 0).
Proof.
  induction z as [|e z IH]; intros c i Hs.
  - cbn. rewrite Nat.add_0_r. by destruct (negb (c =? 42)).
  - cbn [comment_loop length]. replace (negb (c =? 42) || negb (deref (e :: z) =? 47)) with true.
    + rewrite IH; [f_equal; lia|]. intros a b Hab. apply (Hs (c :: a) b). by rewrite Hab.
    + cbn. destruct (Z.eqb_spec c 42) as [->|]; [|done].
      destruct (Z.eqb_spec e 47) as [->|]; [|done]. by destruct (Hs [] z).
Qed.

Lemma variable_loop_app n s : param_name n s -> forall i n0 t r,
  param_tail t -> (t <> [] -> 0 < n0 + n)%nat -> param_stop t r ->
  variable_loop (s ++ t ++ r) i n0 = ((i + length (s ++ t))%nat, (n0 + n)%nat, false).
Proof.
  induction 1 as [|n c s Hc Hs IH|n s Hs IH]; intros i n0 t r Ht Hn Hr; cbn [app].
  - rewrite Nat.add_0_r in *. destruct Ht as [->|(b & -> & Hb)].
    + destruct (Hr eq_refl) as (Hi & H40 & H58). cbn. rewrite Nat.add_0_r.
      destruct r as [|c r]; [done|]. cbn in Hi, H40, H58 |- *. rewrite Hi.
      destruct (Z.eqb_spec c 40); [done|]. destruct r as [|d r]; [done|].
      destruct (Z.eqb_spec c 58) as [->|]; [|done]. destruct (Z.eqb_spec d 58) as [->|]; [|done].
      by specialize (H58 eq_refl).
    + cbn [app]. cbn [variable_loop]. change (IdChar 40) with false. cbn [Z.eqb Pos.eqb andb].
      assert (n0 <> O) by (specialize (Hn ltac:(done)); lia). destruct (Nat.ltb_spec 0 n0); [|lia].
      rewrite <- app_assoc. rewrite scan_app by done. rewrite drop_app_length. cbn.
      rewrite length_app. cbn. f_equal. f_equal. lia.
  - cbn [variable_loop]. rewrite Hc, IH by (done || lia). cbn. do 2 f_equal; lia.
  - cbn [variable_loop]. change (IdChar 58) with false. cbn [Z.eqb Pos.eqb andb].
    rewrite IH by done. cbn. f_equal. f_equal. lia.
Qed.

Lemma digit_id c : sqlite3Isdigit c = true -> IdChar c = true.
Proof.
  unfold sqlite3Isdigit, IdChar, ctype_bit.
  destruct (Z.eqb_spec (Z.land (CtypeMap c) 0x46) 0) as [E|]; [|done].
  change 4 with (Z.land 0x46 4). by rewrite Z.land_assoc, E.
Qed.

Lemma not_id_digit c : IdChar c = false -> sqlite3Isdigit c = false.
Proof. pose proof (digit_id c). by destruct (sqlite3Isdigit c); [rewrite H0|]. Qed.

Definition fraction (p : list Z) : Prop := p = [] \/ exists b, p = 46 :: b /\ all sqlite3Isdigit b.

Lemma exponent_head x r : exponent x -> at_ (x ++ r) 0 = 101 \/ at_ (x ++ r) 0 = 69.
Proof. by intros [e sg ds He _ _ _]. Qed.

Lemma optional_exponent_head x r :
  x = [] \/ exponent x -> IdChar (deref r) = false ->
  sqlite3Isdigit (deref (x ++ r)) = false.
Proof.
  intros [->|Hx] Hr; [by apply not_id_digit|]. unfold at_.
  destruct (exponent_head x r Hx) as [E|E]; unfold at_ in E; rewrite drop_0 in E; by rewrite E.
Qed.

Lemma drop_more i j (z : list Z) : drop (i + j) z = drop j (drop i z).
Proof. by rewrite drop_drop. Qed.

Lemma at_more z i j : at_ z (i + j) = at_ (drop i z) j.
Proof. unfold at_. by rewrite drop_more. Qed.

Definition exponent_test (z : list Z) : bool :=
  ((at_ z 0 =? 101) || (at_ z 0 =? 69))
  && (sqlite3Isdigit (at_ z 1)
      || (((at_ z 1 =? 43) || (at_ z 1 =? 45)) && sqlite3Isdigit (at_ z 2))).

Lemma exponent_scan x r :
  exponent x -> IdChar (deref r) = false ->
  exponent_test (x ++ r) = true /\ (2 + scan sqlite3Isdigit (drop 2 (x ++ r)))%nat = length x.
Proof.
  intros [e sg ds He Hsg Hne Hds] Hr%not_id_digit. destruct ds as [|d ds]; [done|].
  apply Forall_cons in Hds as [Hd Hds]. unfold exponent_test.
  assert (He' : (e =? 101) || (e =? 69) = true) by (by destruct He as [-> | ->]).
  destruct_or! Hsg; subst sg; cbn -[sqlite3Isdigit]; rewrite ?He', ?Hd, ?drop_0; cbn -[sqlite3Isdigit].
  - split; [done|]. by rewrite scan_app.
  - change (sqlite3Isdigit 43) with false. split; [done|]. by rewrite (scan_app _ ds).
  - change (sqlite3Isdigit 45) with false. split; [done|]. by rewrite (scan_app _ ds).
Qed.

Lemma exponent_test_no r : IdChar (deref r) = false -> exponent_test r = false.
Proof.
  intros Hr. unfold exponent_test. rewrite <- deref_at.
  destruct (Z.eqb_spec (deref r) 101) as [E|]; [by rewrite E in Hr|].
  by destruct (Z.eqb_spec (deref r) 69) as [E|]; [rewrite E in Hr|].
Qed.

Lemma fraction_scan a p y :
  all sqlite3Isdigit a -> fraction p -> sqlite3Isdigit (deref y) = false ->
  (p = [] -> deref y <> 46) ->
  scan sqlite3Isdigit (a ++ p ++ y) = length a
  /\ (if at_ (a ++ p ++ y) (length a) =? 46
      then ((S (length a) + scan sqlite3Isdigit (drop (S (length a)) (a ++ p ++ y)))%nat, TK_FLOAT)
      else (length a, TK_INTEGER))
     = (length (a ++ p), if decide (p = []) then TK_INTEGER else TK_FLOAT).
Proof.
  intros Ha Hp Hy Hend. rewrite at_app_length, length_app.
  destruct Hp as [->|(b & -> & Hb)]; cbn [app].
  - rewrite scan_app by done. split; [done|]. specialize (Hend eq_refl).
    destruct (Z.eqb_spec (deref y) 46); [done|]. by rewrite Nat.add_0_r.
  - rewrite scan_app by done. split; [done|]. cbn [deref Z.eqb Pos.eqb length].
    replace (S (length a)) with (length a + 1)%nat by lia. rewrite drop_more, drop_app_length. cbn [drop].
    rewrite drop_0, scan_app by done. destruct (decide _); [done|]. f_equal. lia.
Qed.

Lemma number_token_app a p x r :
  all sqlite3Isdigit a -> fraction p -> x = [] \/ exponent x -> IdChar (deref r) = false ->
  (p = [] -> x = [] -> deref r <> 46) ->
  number_token (a ++ p ++ x ++ r)
  = (length (a ++ p ++ x), if decide (p = [] /\ x = []) then TK_INTEGER else TK_FLOAT).
Proof.
  intros Ha Hp Hx Hr Hend. pose proof (optional_exponent_head x r Hx Hr) as Hxd.
  assert (Hy : p = [] -> deref (x ++ r) <> 46).
  { intros Hpn. destruct Hx as [->|Hx]; [by apply Hend|].
    destruct (exponent_head x r Hx) as [E|E]; rewrite <- deref_at in E; lia. }
  unfold number_token. destruct (fraction_scan a p (x ++ r) Ha Hp Hxd Hy) as [-> ->].
  set (z := a ++ p ++ x ++ r).
  assert (Hz : drop (length (a ++ p)) z = x ++ r) by (unfold z; by rewrite app_assoc, drop_app_length).
  replace (at_ z (length (a ++ p))) with (at_ (x ++ r) 0) by (by rewrite <- Hz, <- at_more, Nat.add_0_r).
  rewrite !at_more, Hz. fold (exponent_test (x ++ r)).
  rewrite !drop_more, Hz. rewrite (app_assoc a p x), (length_app (a ++ p) x).
  destruct Hx as [->|Hx]; cbn [app].
  - rewrite exponent_test_no by done. rewrite Hz. cbn [app].
    rewrite scan_none by done. cbn. f_equal.
    destruct (decide (p = [])), (decide _); naive_solver.
  - destruct (exponent_scan x r Hx Hr) as [-> Hlen].
    rewrite <- !(Nat.add_assoc (length (a ++ p)) 2), Hlen.
    rewrite drop_more, Hz, drop_app_length. rewrite scan_none by done. cbn.
    rewrite Nat.add_0_r. destruct (decide _) as [[_ ->]|]; [|done]. inversion Hx.
Qed.

(** The dispatch of [sqlite3GetToken] on a known first byte. *)
Ltac dispatch :=
  unfold sqlite3GetToken; cbn [deref app]; rewrite ?at_cons, ?at_0; cbn [Z.eqb Pos.eqb orb andb negb Z.leb Z.compare Pos.compare Pos.compare_cont].

Lemma op_accept t s r :
  (t, s) ∈ operators -> op_stop s r -> sqlite3GetToken (s ++ r) = (length s, t).
Proof.
  unfold operators. rewrite !elem_of_cons, elem_of_nil. intros Hs Hr.
  destruct_or! Hs; try done; simplify_eq; cbn [op_stop] in Hr; dispatch; rewrite <- ?deref_at; try done.
  - by destruct (Z.eqb_spec (deref r) 45).
  - destruct Hr as [Hr| ->]; [|done]. by destruct (Z.eqb_spec (deref r) 42).
  - by destruct (Z.eqb_spec (deref r) 61).
  - rewrite !not_elem_of_cons in Hr. repeat zcase; tauto.
  - rewrite !not_elem_of_cons in Hr. repeat zcase; tauto.
  - by destruct (Z.eqb_spec (deref r) 124).
  - by rewrite Hr.
Qed.

Lemma block_accept s r :
  cstring s -> no_close s -> sqlite3GetToken (47 :: 42 :: s ++ 42 :: 47 :: r) = (length s + 4, TK_SPACE)%nat.
Proof.
  intros Hz Hs. dispatch. destruct (s ++ 42 :: 47 :: r) as [|c z] eqn:E; [by destruct s|].
  assert (Hc : c <> 0).
  { destruct s as [|d s]; simplify_eq/=; [done|]. inversion Hz. lia. }
  rewrite at_0. cbn [Z.eqb Pos.eqb negb orb drop]. rewrite drop_0. destruct (Z.eqb_spec c 0); [done|].
  rewrite (comment_loop_close s c z r 3 Hs) by done. cbn. f_equal. lia.
Qed.

Lemma block_open_accept s :
  cstring s -> s <> [] -> no_close s -> sqlite3GetToken (47 :: 42 :: s) = (length s + 2, TK_SPACE)%nat.
Proof.
  intros Hz Hne Hs. dispatch. destruct s as [|c z]; [done|].
  rewrite at_0. cbn [Z.eqb Pos.eqb negb orb drop]. rewrite drop_0.
  destruct (Z.eqb_spec c 0); [inversion Hz; lia|].
  rewrite comment_loop_open by done. cbn. f_equal. lia.
Qed.

Lemma quoted_accept q s r :
  q ∈ [39; 34; 96] -> deref r <> q ->
  sqlite3GetToken (q :: escape q s ++ q :: r)
  = ((length (escape q s) + 2)%nat, if q =? 39 then TK_STRING else TK_ID).
Proof.
  intros Hq Hr. in_cases Hq; dispatch; cbn [drop]; rewrite drop_0, string_loop_app by done; cbn;
    f_equal; lia.
Qed.

Lemma param_accept c n s t r :
  c ∈ [36; 64; 58; 35] -> (c = 35 -> sqlite3Isdigit (deref s) = false) ->
  param_name (S n) s -> param_tail t -> param_stop t r ->
  sqlite3GetToken (c :: s ++ t ++ r) = (S (length (s ++ t)), TK_VARIABLE).
Proof.
  intros Hc Hd Hs Ht Hr.
  assert (Hv : variable_token (c :: s ++ t ++ r) = (S (length (s ++ t)), TK_VARIABLE)).
  { unfold variable_token. cbn [drop]. rewrite drop_0, (variable_loop_app (S n) s Hs 1 0 t r Ht ltac:(lia) Hr).
    by cbn. }
  in_cases Hc; dispatch; try done. cbn [drop]. rewrite drop_0, scan_none; [done|].
  specialize (Hd eq_refl). by inversion Hs; subst.
Qed.

Lemma blob_accept c ds r :
  c ∈ [120; 88] -> all sqlite3Isxdigit ds -> Nat.even (length ds) = true ->
  sqlite3GetToken (c :: 39 :: ds ++ 39 :: r) = ((length ds + 3)%nat, TK_BLOB).
Proof.
  intros Hc Hd He.
  assert (Hz : at_ (c :: 39 :: ds ++ 39 :: r) (2 + length ds) = 39)
    by (cbn [Nat.add]; by rewrite !at_cons, at_app_length).
  assert (Ho : Nat.odd (2 + length ds) = false) by (cbn [Nat.add]; by rewrite Nat.odd_succ_succ, <- Nat.negb_even, He).
  in_cases Hc; dispatch; cbn [deref drop]; rewrite drop_0, scan_app, Hz, Ho by done;
    cbn [Z.eqb Pos.eqb negb orb]; rewrite Hz; cbn; f_equal; lia.
Qed.

Lemma word_accept c s r :
  IdChar c = true -> is_u8 c -> sqlite3Isdigit c = false -> c <> 36 -> all IdChar s ->
  IdChar (deref r) = false -> (c ∈ [120; 88] -> s = [] -> deref r <> 39) ->
  sqlite3GetToken (c :: s ++ r) = (S (length s), keywordCode (c :: s)).
Proof.
  intros Hc Hb Hd H36 Hs Hr Hx.
  assert (Hid : id_token (c :: s ++ r) = (S (length s), keywordCode (c :: s))).
  { unfold id_token. cbn [deref drop]. rewrite Hc, drop_0, scan_app by done. cbn. by rewrite take_app_length. }
  assert (Hr39 : c ∈ [120; 88] -> at_ (c :: s ++ r) 1 <> 39).
  { intros Hc'. rewrite at_cons, <- deref_at. destruct s as [|d s]; [by apply Hx|]. cbn.
    intros ->. by inversion Hs. }
  unfold sqlite3GetToken. cbn [deref]. rewrite isdigit_spec in Hd by done. rewrite Hd.
  assert (Hk : forall k, IdChar k = false -> (c =? k) = false)
    by (intros k Hk; destruct (Z.eqb_spec c k); congruence).
  not_chars Hk. destruct (Z.eqb_spec c 36); [done|]. not_chars Hk. cbn [orb].
  destruct ((c =? 120) || (c =? 88)) eqn:Ex; [|done].
  destruct (Z.eqb_spec (at_ (c :: s ++ r) 1) 39) as [E|]; [|done].
  exfalso. apply Hr39; [|done]. apply orb_true_iff in Ex as [->%Z.eqb_eq| ->%Z.eqb_eq]; set_solver.
Qed.

Lemma number_dispatch z :
  bytes_ok z -> sqlite3Isdigit (deref z) = true \/ (deref z = 46 /\ sqlite3Isdigit (at_ z 1) = true) ->
  sqlite3GetToken z = number_token z.
Proof.
  intros Hz [Hd|[Hd Hd1]]; unfold sqlite3GetToken; [|by rewrite Hd, Hd1].
  assert (Hk : forall k, sqlite3Isdigit k = false -> (deref z =? k) = false)
    by (intros k Hk; destruct (Z.eqb_spec (deref z) k); congruence).
  not_chars Hk. cbn [orb]. rewrite <- isdigit_spec, Hd; [done|].
  destruct z; [done|]. by apply Forall_cons in Hz as [? _].
Qed.

Lemma number_accept a p x r :
  bytes_ok (a ++ p ++ x ++ r) ->
  all sqlite3Isdigit a -> fraction p -> x = [] \/ exponent x -> IdChar (deref r) = false ->
  (p = [] -> x = [] -> deref r <> 46) -> a <> [] \/ (exists d b, p = 46 :: d :: b) ->
  sqlite3GetToken (a ++ p ++ x ++ r)
  = (length (a ++ p ++ x), if decide (p = [] /\ x = []) then TK_INTEGER else TK_FLOAT).
Proof.
  intros Hz Ha Hp Hx Hr Hend Hne. rewrite number_dispatch; [by apply number_token_app|done|].
  destruct a as [|d a].
  - right. destruct Hne as [?|(d & b & ->)]; [done|]. split; [done|]. cbn [app]. rewrite at_cons, at_0.
    destruct Hp as [?|(b' & [= <-] & Hb)]; [done|]. by apply Forall_cons in Hb as [Hd _].
  - left. by apply Forall_cons in Ha as [Hd _].
Qed.

(** ** A lexeme that the following text does not extend is the token *)

Lemma token_accept t s r :
  token_at t s r -> cstring (s ++ r) -> sqlite3GetToken (s ++ r) = (length s, t).
Proof.
  intros Ht Hz. assert (Hb : bytes_ok (s ++ r)) by by apply cstring_bytes.
  destruct Ht as [t s r Ho Hr|c s r Hc Hs Hr|s r Hs Hr|s r Hs|s Hne Hs|q s r Hq Hr|s r Hs|ds r Hne Hd Hr H46
    |a b x r Hne Ha Hb' Hx Hr|a x r Hne Ha Hx Hr|ds r Hd Hr|ds r Hne Hd Hr|c n s t r Hc Hd Hs Ht Hr|c ds r Hc Hd He
    |c s r Hc Hd H36 Hs Hr Hx].
  - by apply op_accept.
  - cbn [app]. in_cases Hc; dispatch; cbn [drop]; by rewrite drop_0, scan_app.
  - cbn [app]. dispatch. cbn [drop]. rewrite drop_0. f_equal.
    destruct Hr as [->|Hr]; [by rewrite app_nil_r, scan_all|]. rewrite scan_app; [done..|by rewrite Hr].
  - cbn [app]. rewrite <- app_assoc. cbn [app]. rewrite block_accept; [f_equal; cbn; rewrite length_app; cbn; lia| |done].
    cbn in Hz. rewrite <- app_assoc in Hz. unfold cstring in Hz. rewrite !Forall_cons, Forall_app in Hz. tauto.
  - rewrite app_nil_r in *. rewrite block_open_accept; [f_equal; cbn; lia| |done..].
    unfold cstring in Hz. rewrite !Forall_cons in Hz. tauto.
  - cbn [app]. rewrite <- app_assoc. cbn [app]. rewrite quoted_accept by done. f_equal. cbn. rewrite length_app. cbn. lia.
  - cbn [app]. rewrite <- app_assoc. dispatch. cbn [drop]. rewrite drop_0, bracket_loop_app by done. cbn.
    f_equal. rewrite length_app. cbn. lia.
  - replace (ds ++ r) with (ds ++ [] ++ [] ++ r) by done.
    rewrite number_accept by (auto; by left). rewrite !app_nil_r. done.
  - change (46 :: b ++ x) with ((46 :: b) ++ x). rewrite <- !app_assoc in *.
    change ((46 :: b ++ x) ++ r) with (((46 :: b) ++ x) ++ r) in Hb. rewrite <- !app_assoc in Hb.
    rewrite number_accept; try done; [by right; exists b|].
    destruct b as [|d b]; [destruct Hne; [by left|done]|]. right. by exists d, b.
  - rewrite <- app_assoc in *. replace (a ++ x ++ r) with (a ++ [] ++ x ++ r) by done.
    rewrite number_accept; try done; [|by left|by right|intros _ ->; inversion Hx|by left].
    destruct (decide _) as [[_ ->]|]; [inversion Hx|done].
  - cbn [app]. dispatch. cbn [drop]. by rewrite drop_0, scan_app.
  - cbn [app]. dispatch. cbn [drop]. rewrite drop_0, scan_app by done. by destruct ds.
  - cbn [app]. rewrite <- app_assoc. by rewrite (param_accept c n).
  - cbn [app]. rewrite <- app_assoc. cbn [app]. rewrite blob_accept by done. f_equal. cbn. rewrite length_app. cbn. lia.
  - cbn [app]. apply word_accept; try done. by apply Forall_cons in Hb as [? _].
Qed.
End InContext.
