(* ===== verification/TokenLex.v ===== *)
(** * The tokenizer returns lexemes, the longest ones

    The other half of the equivalence with the grammar: what
    [sqlite3GetToken] returns is a lexeme that the text does not extend, or
    TK_ILLEGAL. *)

From S2P Require Import Prelude Ctype Token TokenSpec.

(** ** What the loops pass *)

Lemma scan_split p z : p 0 = false ->
  exists s r, z = s ++ r /\ all p s /\ p (deref r) = false /\ length s = scan p z.
Proof.
  intros H0. exists (take (scan p z) z), (drop (scan p z) z).
  rewrite take_drop. split; [done|]. split; [apply scan_passed|]. split; [by apply scan_stop|].
  rewrite length_take. pose proof (scan_le p z). lia.
Qed.

Lemma scan_until k z : k <> 0 ->
  exists s r, z = s ++ r /\ all (not_char k) s /\ (r = [] \/ deref r = k) /\ length s = scan (not_char k) z.
Proof.
  intros Hk. induction z as [|c z (s & r & -> & Hs & Hr & Hl)]; [by exists [], []; eauto|].
  cbn. unfold not_char at 2. destruct (Z.eqb_spec c k) as [->|]; cbn.
  - exists [], (k :: s ++ r). split; [done|]. split; [constructor|]. by split; [right|].
  - exists (c :: s), r. split; [done|]. split; [apply List.Forall_cons; [|done]|].
    + unfold not_char. by destruct (Z.eqb_spec c k).
    + split; [done|]. cbn. by rewrite Hl.
Qed.

Lemma string_loop_sound q (n : nat) : forall z i j c,
  (length z <= n)%nat -> string_loop q z i = (j, c) -> c <> 0 ->
  c = q /\ exists s r, z = escape q s ++ q :: r /\ deref r <> q /\ j = (i + length (escape q s))%nat.
Proof.
  induction n as [|n IH]; intros z i j c Hn Hl Hc.
  { destruct z; [|cbn in Hn; lia]. by simplify_eq/=. }
  destruct z as [|d z]; [by simplify_eq/=|]. cbn in Hl, Hn.
  destruct (Z.eqb_spec d q) as [->|Hd].
  - destruct z as [|e z]; cbn in Hl.
    + simplify_eq. split; [done|]. exists [], []. cbn. split; [done|]. split; [congruence|lia].
    + destruct (Z.eqb_spec e q) as [->|He].
      * cbn in Hn. destruct (IH z _ _ _ ltac:(lia) Hl Hc) as (-> & s & r & -> & Hr & ->).
        split; [done|]. exists (q :: s), r. cbn. rewrite Z.eqb_refl. cbn. split; [done|]. split; [done|].
        fold (escape q s). lia.
      * simplify_eq. split; [done|]. exists [], (e :: z). cbn. split; [done|]. split; [done|lia].
  - destruct (IH z _ _ _ ltac:(lia) Hl Hc) as (-> & s & r & -> & Hr & ->).
    split; [done|]. exists (d :: s), r. cbn. destruct (Z.eqb_spec d q); [done|]. cbn.
    fold (escape q s). split; [done|]. split; [done|]. lia.
Qed.

Lemma bracket_loop_sound z : forall c i j,
  bracket_loop c z i = (j, 93) -> c <> 93 ->
  exists s r, z = s ++ 93 :: r /\ all (not_char 93) s /\ j = (i + length s + 1)%nat.
Proof.
  induction z as [|d z IH]; intros c i j Hl Hc; cbn in Hl; destruct (Z.eqb_spec c 93); try done; cbn in Hl.
  destruct (decide (d = 93)) as [->|Hd].
  - exists [], z. cbn. split; [done|]. split; [constructor|]. destruct z; simplify_eq/=; lia.
  - destruct (IH _ _ _ Hl Hd) as (s & r & -> & Hs & ->). exists (d :: s), r. cbn.
    split; [done|]. split; [|lia]. apply List.Forall_cons; [|done]. unfold not_char. by destruct (Z.eqb_spec d 93).
Qed.

Lemma no_close_cons c z : no_close z -> ~ (c = 42 /\ deref z = 47) -> no_close (c :: z).
Proof.
  intros Hz Hc a b Heq. destruct a as [|d a]; simplify_eq/=; [by apply Hc|]. by apply (Hz a b).
Qed.

Lemma comment_loop_sound z : forall c i j c',
  cstring (c :: z) -> comment_loop c z i = (j, c') ->
  if c' =? 0 then no_close (c :: z) /\ j = (i + length z)%nat
  else exists s r, c :: z = s ++ 42 :: 47 :: r /\ no_close s /\ j = (i + length s)%nat.
Proof.
  induction z as [|d z IH]; intros c i j c' Hz Hl.
  - cbn in Hl. destruct (Z.eqb_spec (deref []) 47) as [E|]; [done|].
    assert (Hl' : (i, 0) = (j, c')) by (by destruct (negb (c =? 42))). simplify_eq. cbn.
    split; [|lia]. intros [|? [|]] b; done.
  - apply Forall_cons in Hz as [Hc Hz]. cbn [comment_loop] in Hl.
    destruct (decide (c = 42 /\ d = 47)) as [[-> ->]|Hne].
    + cbn in Hl. simplify_eq. exists [], z. cbn. split; [done|]. split; [by intros []|lia].
    + assert (E : negb (c =? 42) || negb (deref (d :: z) =? 47) = true).
      { cbn. destruct (Z.eqb_spec c 42), (Z.eqb_spec d 47); tauto. }
      rewrite E in Hl. specialize (IH _ _ _ _ Hz Hl). destruct (c' =? 0).
      * destruct IH as [Hn ->]. split; [|cbn; lia]. by apply no_close_cons.
      * destruct IH as (s & r & Heq & Hs & ->). exists (c :: s), r. cbn. rewrite Heq.
        split; [done|]. split; [|lia]. apply no_close_cons; [done|]. intros [-> H47].
        destruct s; simplify_eq/=; tauto.
Qed.

Ltac parts := split_and!; first [done | apply param_nil | lia | by left | (cbn; lia) | idtac].

Lemma variable_loop_sound (m : nat) : forall z i n0 j n,
  (length z <= m)%nat -> variable_loop z i n0 = (j, n, false) ->
  exists s t r k, z = s ++ t ++ r /\ param_name k s /\ n = (n0 + k)%nat /\ param_tail t
    /\ ((0 < n)%nat -> param_stop t r) /\ j = (i + length (s ++ t))%nat.
Proof.
  induction m as [|m IH]; intros z i n0 j n Hm Hl.
  { destruct z; [|cbn in Hm; lia]. simplify_eq/=. exists [], [], [], O.
    parts. }
  destruct z as [|c z].
  { simplify_eq/=. exists [], [], [], O. parts. }
  cbn [variable_loop length] in Hl, Hm. destruct (IdChar c) eqn:Ei.
  { destruct (IH z _ _ _ _ ltac:(lia) Hl) as (s & t & r & k & -> & Hs & -> & Ht & Hr & ->).
    exists (c :: s), t, r, (S k). parts. by constructor. }
  destruct ((c =? 40) && (0 <? n0)%nat) eqn:Ep.
  { apply andb_true_iff in Ep as [->%Z.eqb_eq _].
    set (p := fun c => negb (sqlite3Isspace c) && negb (c =? 41)) in *.
    pose proof (scan_passed p z) as Hb. pose proof (scan_le p z) as Hle.
    destruct (Z.eqb_spec (deref (drop (scan p z) z)) 41) as [E|]; [|done].
    destruct (drop (scan p z) z) as [|d r] eqn:Ed; simplify_eq/=.
    exists [], (40 :: take (scan p z) z ++ [41]), r, O.
    parts.
    - cbn. rewrite <- app_assoc. cbn. by rewrite <- Ed, take_drop.
    - right. by exists (take (scan p z) z).
    - cbn. rewrite length_app, length_take. cbn. lia. }
  assert (Hc40 : (0 < n0)%nat -> c <> 40).
  { intros Hn ->. destruct (Nat.ltb_spec 0 n0); [done|lia]. }
  destruct (decide (c = 58 /\ deref z = 58)) as [[-> Hz]|Hc58].
  - destruct z as [|d z]; [done|]. cbn in Hz, Hm. subst d. cbn [Z.eqb Pos.eqb andb] in Hl.
    destruct (IH z _ _ _ _ ltac:(lia) Hl) as (s & t & r & k & -> & Hs & -> & Ht & Hr & ->).
    exists (58 :: 58 :: s), t, r, k. parts. by constructor.
  - assert ((j, n) = (i, n0)) as [= -> ->].
    { destruct z as [|d z]; [congruence|]. cbn in Hc58.
      destruct (Z.eqb_spec c 58), (Z.eqb_spec d 58); cbn in Hl; try congruence. tauto. }
    exists [], [], (c :: z), O. parts.
    intros Hn _. split_and!; [done|by apply Hc40|]. cbn. intros ->. rewrite at_cons, <- deref_at. tauto.
Qed.

Lemma scan_zero p r : p 0 = false -> scan p r = O -> p (deref r) = false.
Proof. intros H0. destruct r as [|c r]; cbn; [done|]. by destruct (p c). Qed.

Lemma at_lt z i : at_ z i <> 0 -> (i < length z)%nat.
Proof. intros Hz. destruct (decide (i < length z)%nat); [done|]. unfold at_ in Hz. rewrite drop_ge in Hz; [done|lia]. Qed.

Section Sound.
Context `{Keywords}.

Lemma exponent_split z :
  exists x r, z = x ++ r /\ (if exponent_test z then exponent x else x = [])
    /\ (exponent_test z = true ->
        length x = (2 + scan sqlite3Isdigit (drop 2 z))%nat /\ sqlite3Isdigit (deref r) = false).
Proof.
  destruct (exponent_test z) eqn:E; [|by exists [], z].
  unfold exponent_test in E. apply andb_true_iff in E as [He Hd].
  destruct z as [|e z]; [done|]. rewrite at_0 in He. rewrite !at_cons in Hd.
  assert (He' : e = 101 \/ e = 69) by (apply orb_true_iff in He as [->%Z.eqb_eq| ->%Z.eqb_eq]; auto).
  destruct z as [|d z]; [done|]. rewrite at_0, at_cons in Hd. cbn [drop].
  destruct (sqlite3Isdigit d) eqn:Ed.
  - destruct (scan_split sqlite3Isdigit z eq_refl) as (s & r & -> & Hs & Hr & Hl).
    exists (e :: [] ++ d :: s), r. split; [done|]. split; [by constructor; [auto..|apply List.Forall_cons]|].
    intros _. rewrite drop_0, <- Hl. by cbn.
  - cbn in Hd. apply andb_true_iff in Hd as [Hsg Hd].
    destruct (scan_split sqlite3Isdigit z eq_refl) as (s & r & -> & Hs & Hr & Hl).
    exists (e :: [d] ++ s), r. split; [done|]. split.
    + constructor; [done| | |done].
      { apply orb_true_iff in Hsg as [->%Z.eqb_eq| ->%Z.eqb_eq]; auto. }
      intros ->. change (sqlite3Isdigit (deref r) = true) in Hd. congruence.
    + intros _. rewrite drop_0, <- Hl. by cbn.
Qed.

Lemma number_token_split z :
  exists a p x r, z = a ++ p ++ x ++ r /\ all sqlite3Isdigit a /\ fraction p /\ (x = [] \/ exponent x)
    /\ (p = [] -> x = [] -> deref r <> 46)
    /\ number_token z = ((length (a ++ p ++ x) + scan IdChar r)%nat,
         if (0 <? scan IdChar r)%nat then TK_ILLEGAL
         else if decide (p = [] /\ x = []) then TK_INTEGER else TK_FLOAT).
Proof.
  unfold number_token.
  destruct (scan_split sqlite3Isdigit z eq_refl) as (a & y & -> & Ha & Hy & Hla).
  rewrite <- Hla, at_app_length .
  assert (exists p y', y = p ++ y' /\ fraction p /\ sqlite3Isdigit (deref y') = false /\ (p = [] -> deref y' <> 46))
    as (p & y' & -> & Hp & Hy' & H46).
  { destruct (decide (deref y = 46)) as [E|E]; [|by exists [], y; split; [|split; [left|]]].
    destruct y as [|c y]; [done|]. cbn in E. subst c.
    destruct (scan_split sqlite3Isdigit y eq_refl) as (b & y' & -> & Hb & Hy' & _).
    exists (46 :: b), y'. split_and!; try done. right. by exists b. }
  destruct (fraction_scan a p y' Ha Hp Hy' H46) as [_ E]. rewrite at_app_length in E. rewrite E . clear E.
  destruct (exponent_split y') as (x & r & -> & Hx & Hlx).
  set (z := a ++ p ++ x ++ r) in *.
  assert (Hz : drop (length (a ++ p)) z = x ++ r) by (unfold z; by rewrite app_assoc, drop_app_length).
  replace (at_ z (length (a ++ p))) with (at_ (x ++ r) 0) by (by rewrite <- Hz, <- at_more, Nat.add_0_r).
  rewrite !at_more, Hz . fold (exponent_test (x ++ r)) . rewrite !drop_more, Hz .
  exists a, p, x, r. destruct (exponent_test (x ++ r)) eqn:Ex.
  - destruct (Hlx eq_refl) as [Hl Hr]. rewrite <- !(Nat.add_assoc (length (a ++ p)) 2), <- Hl.
    rewrite drop_more, Hz, drop_app_length.
    split_and!; try done; [by right|intros _ ->; by inversion Hx|].
    rewrite (app_assoc a p x), (length_app (a ++ p)).
    by destruct (decide _) as [[_ ->]|]; [inversion Hx|].
  - subst x. rewrite Hz, app_nil_r.
    split_and!; try done; [by left|by intros ? _; apply H46|].
    cbn [app]. do 2 f_equal. destruct (decide (p = [])), (decide _); naive_solver.
Qed.

Lemma number_token_sound z n t :
  number_token z = (n, t) -> t <> TK_ILLEGAL ->
  exists a p x r, z = a ++ p ++ x ++ r /\ all sqlite3Isdigit a /\ fraction p /\ (x = [] \/ exponent x)
    /\ IdChar (deref r) = false /\ (p = [] -> x = [] -> deref r <> 46) /\ n = length (a ++ p ++ x)
    /\ t = (if decide (p = [] /\ x = []) then TK_INTEGER else TK_FLOAT).
Proof.
  intros Hn Ht. destruct (number_token_split z) as (a & p & x & r & -> & Ha & Hp & Hx & H46 & E).
  rewrite E in Hn. exists a, p, x, r.
  destruct (Nat.ltb_spec 0 (scan IdChar r)); simplify_eq.
  split_and!; try done; [apply scan_zero; [done|lia]|lia].
Qed.

Definition Sound (z : list Z) (n : nat) (t : tk) : Prop :=
  exists s r, z = s ++ r /\ n = length s /\ token_at t s r.

Lemma sound_intro z s r t : token_at t s r -> z = s ++ r -> Sound z (length s) t.
Proof. intros Ht ->. by exists s, r. Qed.

Lemma sound_op z s r t : (t, s) ∈ operators -> op_stop s r -> z = s ++ r -> Sound z (length s) t.
Proof. intros Hs Hr. by apply sound_intro, ta_op. Qed.

Lemma number_sound z n t :
  sqlite3Isdigit (deref z) = true \/ (deref z = 46 /\ sqlite3Isdigit (at_ z 1) = true) ->
  number_token z = (n, t) -> t <> TK_ILLEGAL -> Sound z n t.
Proof.
  intros Hd Hn Ht.
  destruct (number_token_sound z n t Hn Ht) as (a & p & x & r & -> & Ha & Hp & Hx & Hr & Hend & -> & ->).
  exists (a ++ p ++ x), r. rewrite <- !app_assoc. split_and!; [done..|].
  destruct Hp as [->|(b & -> & Hb)].
  - assert (Hane : a <> []).
    { intros ->. cbn [app] in Hd.
      assert (Hxd := optional_exponent_head x r Hx Hr).
      destruct Hd as [Hd|[Hd _]]; [congruence|]. destruct Hx as [->|Hx]; [by apply Hend|].
      destruct (exponent_head x r Hx) as [E|E]; rewrite <- deref_at in E; lia. }
    destruct Hx as [->|Hx]; cbn [app].
    + rewrite app_nil_r. apply ta_integer; auto.
    + destruct (decide _) as [[_ ->]|]; [inversion Hx|]. by apply ta_exponent.
  - destruct (decide _) as [[? _]|]; [done|]. cbn [app]. apply ta_point; try done.
    destruct a as [|d a]; [|by left]. right. intros ->. cbn [app] in Hd.
    destruct Hd as [Hd|[_ Hd]]; [done|]. rewrite at_cons, <- deref_at in Hd.
    rewrite (optional_exponent_head x r Hx Hr) in Hd. done.
Qed.

Lemma variable_sound c z n t :
  c ∈ [36; 64; 58; 35] -> (c = 35 -> sqlite3Isdigit (deref z) = false) ->
  variable_token (c :: z) = (n, t) -> t <> TK_ILLEGAL -> Sound (c :: z) n t.
Proof.
  intros Hc Hd Hv Ht. unfold variable_token in Hv. cbn [drop] in Hv. rewrite drop_0 in Hv.
  destruct (variable_loop z 1 0) as [[j k] ill] eqn:El. destruct ill; [by simplify_eq/=|].
  destruct (Nat.eqb_spec k 0) as [->|Hk]; [by simplify_eq/=|]. simplify_eq/=.
  destruct (variable_loop_sound (length z) z 1 0 n k ltac:(lia) El) as (s & t & r & k' & -> & Hs & -> & Htl & Hr & ->).
  exists (c :: s ++ t), r. cbn. rewrite <- app_assoc. split_and!; [done..|].
  destruct k' as [|k']; [done|]. eapply ta_param; try done; [|apply Hr; lia].
  intros ->. specialize (Hd eq_refl). by inversion Hs; subst.
Qed.

Lemma word_sound c z n t :
  IdChar c = true -> sqlite3Isdigit c = false -> c <> 36 -> (c ∈ [120; 88] -> deref z <> 39) ->
  id_token (c :: z) = (n, t) -> Sound (c :: z) n t.
Proof.
  intros Hc Hd H36 Hx Hi. unfold id_token in Hi. cbn [deref drop] in Hi. rewrite Hc, drop_0 in Hi.
  destruct (scan_split IdChar z eq_refl) as (s & r & -> & Hs & Hr & Hl). rewrite <- Hl in Hi. cbn in Hi.
  rewrite take_app_length in Hi. simplify_eq. exists (c :: s), r. split_and!; [done..|].
  apply ta_word; try done. intros Hc' ->. by apply Hx.
Qed.

Lemma block_sound z n t :
  cstring z -> deref z <> 0 ->
  (let '(i, c) := comment_loop (deref z) (drop 1 z) 3 in
   ((if negb (c =? 0) then S i else i), TK_SPACE)) = (n, t) -> Sound (47 :: 42 :: z) n t.
Proof.
  intros Hz Hc0 Hl. destruct z as [|c z]; [done|]. cbn [deref drop] in Hl. rewrite drop_0 in Hl.
  destruct (comment_loop c z 3) as [i c'] eqn:El. pose proof (comment_loop_sound z c 3 i c' Hz El) as Hs.
  destruct (Z.eqb_spec c' 0) as [->|Hc']; cbn in Hl; simplify_eq.
  - destruct Hs as [Hs ->]. exists (47 :: 42 :: c :: z), []. rewrite app_nil_r. split_and!; [done|cbn; lia|].
    by apply ta_block_open.
  - destruct Hs as (s & r & -> & Hs & ->). exists (47 :: 42 :: s ++ [42; 47]), r. cbn. rewrite <- app_assoc.
    split_and!; [done|rewrite length_app; cbn; lia|]. by apply ta_block.
Qed.

Lemma quoted_sound q z n t :
  q ∈ [39; 34; 96] ->
  (let '(i, c) := string_loop q z 1 in
   if c =? 39 then (S i, TK_STRING) else if negb (c =? 0) then (S i, TK_ID) else (i, TK_ILLEGAL)) = (n, t) ->
  t <> TK_ILLEGAL -> Sound (q :: z) n t.
Proof.
  intros Hq Hl Ht. destruct (string_loop q z 1) as [i c] eqn:El.
  assert (Hc : c <> 0) by (intros ->; by simplify_eq/=).
  destruct (string_loop_sound q (length z) z 1 i c ltac:(lia) El Hc) as (-> & s & r & -> & Hr & ->).
  exists (q :: escape q s ++ [q]), r. cbn. rewrite <- app_assoc. split_and!; [done| |].
  - destruct (Z.eqb_spec q 39), (Z.eqb_spec q 0); simplify_eq/=; rewrite length_app; cbn; lia.
  - replace t with (if q =? 39 then TK_STRING else TK_ID); [by apply ta_quoted|].
    destruct (Z.eqb_spec q 39), (Z.eqb_spec q 0); by simplify_eq/=.
Qed.

Lemma blob_sound c z n t :
  c ∈ [120; 88] -> deref z = 39 ->
  (let i := (2 + scan sqlite3Isxdigit (drop 2 (c :: z)))%nat in
   let '(i, t) :=
     if negb (at_ (c :: z) i =? 39) || Nat.odd i then
       ((i + scan (not_char 39) (drop i (c :: z)))%nat, TK_ILLEGAL)
     else (i, TK_BLOB) in
   ((if negb (at_ (c :: z) i =? 0) then S i else i), t)) = (n, t) ->
  t <> TK_ILLEGAL -> Sound (c :: z) n t.
Proof.
  intros Hc Hz Hl Ht. destruct z as [|d z]; [done|]. cbn in Hz. subst d. cbn [drop] in Hl.
  rewrite drop_0 in Hl. destruct (scan_split sqlite3Isxdigit z eq_refl) as (s & r & -> & Hs & Hr & Hn).
  rewrite <- Hn in Hl. cbv zeta in Hl.
  destruct (negb (at_ (c :: 39 :: s ++ r) (2 + length s) =? 39) || Nat.odd (2 + length s)) eqn:E; [by simplify_eq|].
  apply orb_false_iff in E as [E Ho]. apply negb_false_iff, Z.eqb_eq in E. rewrite E in Hl. simplify_eq/=.
  cbn [Nat.add] in E. rewrite !at_cons, at_app_length in E. destruct r as [|d r]; [done|]. cbn in E. subst d.
  exists (c :: 39 :: s ++ [39]), r. cbn. rewrite <- app_assoc. split_and!; [done|rewrite length_app; cbn; lia|].
  apply ta_blob; try done. change (Nat.odd (S (S (length s))) = false) in Ho.
  rewrite Nat.odd_succ_succ in Ho. by rewrite <- Nat.negb_odd, Ho.
Qed.

Ltac test H :=
  match type of H with (if ?b then _ else _) = _ => destruct b eqn:?E end.
Ltac is_char c E := apply Z.eqb_eq in E; subst c.
Ltac is_head z :=
  let d := fresh "d" in
  destruct z as [|d z]; [done|]; match goal with E : (deref (d :: z) =? _) = true |- _ => cbn [deref] in E; is_char d E end.
Ltac is_op := unfold operators; rewrite !elem_of_cons; tauto.
Ltac one_op H r := injection H as <- <-; eapply (sound_op _ [_] r); [| |reflexivity]; [is_op|cbn].
Ltac two_op H r := injection H as <- <-; eapply (sound_op _ [_; _] r); [| |reflexivity]; [is_op|exact I].

Lemma token_sound z n t :
  cstring z -> z <> [] -> sqlite3GetToken z = (n, t) -> t <> TK_ILLEGAL -> Sound z n t.
Proof.
  intros Hz Hne Hg Ht. destruct z as [|c z]; [done|]. apply Forall_cons in Hz as [Hc Hz].
  unfold sqlite3GetToken in Hg. cbn [deref] in Hg. rewrite at_cons, <- deref_at in Hg.
  test Hg.
  { injection Hg as <- <-. cbn [drop]. rewrite drop_0.
    destruct (scan_split sqlite3Isspace z eq_refl) as (s & r & -> & Hs & Hr & <-).
    apply (sound_intro _ (c :: s) r); [|done]. apply ta_space; [|done..].
    rewrite !orb_true_iff, !Z.eqb_eq in E. rewrite !elem_of_cons. tauto. }
  test Hg.
  { is_char c E0. test Hg.
    - destruct z as [|d z]; [done|]. cbn in E0. is_char d E0. injection Hg as <- <-. cbn [drop]. rewrite drop_0.
      destruct (scan_until 10 z ltac:(done)) as (s & r & -> & Hs & Hr & <-).
      apply (sound_intro _ (45 :: 45 :: s) r); [|done]. by apply ta_line.
    - one_op Hg z. by destruct (Z.eqb_spec (deref z) 45). }
  do 5 (test Hg; [match goal with E : (c =? _) = true |- _ => is_char c E end; by one_op Hg z|]).
  test Hg.
  { is_char c E6. rewrite (at_cons 47 z 1) in Hg. destruct (Z.eqb_spec (deref z) 42) as [Ed|Ed]; cbn [negb orb] in Hg.
    - destruct z as [|d z]; [done|]. cbn in Ed. subst d. rewrite at_cons, <- deref_at in Hg. cbn [drop] in Hg.
      apply Forall_cons in Hz as [_ Hz]. destruct (Z.eqb_spec (deref z) 0) as [E0'|E0'].
      + destruct z as [|d z]; [|apply Forall_cons in Hz as [? _]; cbn in E0'; lia].
        one_op Hg [42]. by right.
      + by apply block_sound.
    - one_op Hg z. by left. }
  test Hg; [is_char c E7; by one_op Hg z|].
  test Hg.
  { is_char c E8. destruct (Z.eqb_spec (deref z) 61) as [Ed|Ed]; [|by one_op Hg z].
    destruct z as [|d z]; [done|]. cbn in Ed. subst d. two_op Hg z. }
  test Hg.
  { is_char c E9. repeat (test Hg; [is_head z; two_op Hg z|]). one_op Hg z.
    rewrite Z.eqb_neq in *. rewrite !not_elem_of_cons. auto using not_elem_of_nil. }
  test Hg.
  { is_char c E10. repeat (test Hg; [is_head z; two_op Hg z|]). one_op Hg z.
    rewrite Z.eqb_neq in *. rewrite !not_elem_of_cons. auto using not_elem_of_nil. }
  test Hg.
  { is_char c E11. destruct (Z.eqb_spec (deref z) 61) as [Ed|Ed]; [|by simplify_eq/=].
    destruct z as [|d z]; [done|]. cbn in Ed. subst d. two_op Hg z. }
  test Hg.
  { is_char c E12. destruct (Z.eqb_spec (deref z) 124) as [Ed|Ed]; [|by one_op Hg z].
    destruct z as [|d z]; [done|]. cbn in Ed. subst d. two_op Hg z. }
  do 3 (test Hg; [match goal with E : (c =? _) = true |- _ => is_char c E end; by one_op Hg z|]).
  test Hg.
  { cbn [drop] in Hg. rewrite drop_0 in Hg. apply quoted_sound; [|done..].
    rewrite !orb_true_iff, !Z.eqb_eq in E16. rewrite !elem_of_cons. tauto. }
  test Hg.
  { is_char c E17. destruct (sqlite3Isdigit (deref z)) eqn:Ed; cbn [negb] in Hg.
    - apply number_sound; [|done..]. right. by rewrite at_cons, <- deref_at.
    - by one_op Hg z. }
  assert (Hb : is_u8 c) by (unfold_int; lia).
  rewrite <- (isdigit_spec c Hb) in Hg. test Hg; [apply number_sound; auto|].
  test Hg.
  { is_char c E19. cbn [drop] in Hg. rewrite drop_0 in Hg. destruct (bracket_loop 91 z 1) as [i c] eqn:El.
    destruct (Z.eqb_spec c 93) as [->|]; [|by simplify_eq]. injection Hg as <- <-.
    destruct (bracket_loop_sound z 91 1 i El ltac:(done)) as (s & r & -> & Hs & ->).
    exists (91 :: s ++ [93]), r. cbn. rewrite <- app_assoc. split_and!; [done|rewrite length_app; cbn; lia|].
    by apply ta_bracket. }
  test Hg.
  { is_char c E20. injection Hg as <- <-. cbn [drop]. rewrite drop_0.
    destruct (scan_split sqlite3Isdigit z eq_refl) as (s & r & -> & Hs & Hr & <-).
    apply (sound_intro _ (63 :: s) r); [|done]. by apply ta_number_param. }
  test Hg.
  { is_char c E21. cbn [drop] in Hg. rewrite drop_0 in Hg.
    destruct (scan_split sqlite3Isdigit z eq_refl) as (s & r & -> & Hs & Hr & Hl). rewrite <- Hl in Hg.
    destruct s as [|d s]; cbn [length Nat.ltb Nat.leb] in Hg.
    - apply variable_sound; [set_solver|done..].
    - injection Hg as <- <-. apply (sound_intro _ (35 :: d :: s) r); [|done]. by apply ta_register. }
  test Hg.
  { rewrite !orb_true_iff, !Z.eqb_eq in E22.
    apply variable_sound; [rewrite !elem_of_cons; tauto|lia|done..]. }
  assert (Hid : id_token (c :: z) = (n, t) -> (c ∈ [120; 88] -> deref z <> 39) -> Sound (c :: z) n t).
  { intros Hi Hx. apply word_sound; try done; [|intros ->; done].
    unfold id_token in Hi. cbn [deref] in Hi. destruct (IdChar c); [done|]. by simplify_eq. }
  test Hg; [|apply Hid; [done|]; intros Hx; in_cases Hx].
  rewrite orb_true_iff, !Z.eqb_eq in E23.
  destruct (Z.eqb_spec (deref z) 39) as [Ed|Ed]; [|by apply Hid].
  apply blob_sound; [rewrite !elem_of_cons; tauto|done..].
Qed.

(** ** The longest match *)

Lemma deref_take k (r : list Z) : (0 < k)%nat -> deref (take k r) = deref r.
Proof. destruct k, r; (lia || done). Qed.

Lemma token_at_take t s r k : token_at t s r -> (0 < k)%nat -> token_at t s (take k r).
Proof.
  intros Ht Hk. pose proof (deref_take k r Hk) as Hd.
  destruct Ht as [t s r Ho Hr|c s r Hc Hs Hr|s r Hs Hr|s r Hs|s Hne Hs|q s r Hq Hr|s r Hs|ds r Hne Ha Hr H46
    |a b x r Hne Ha Hb' Hx Hr|a x r Hne Ha Hx Hr|ds r Ha Hr|ds r Hne Ha Hr|c n s t r Hc Ha Hs Ht Hr|c ds r Hc Ha He
    |c s r Hc Ha H36 Hs Hr Hx].
  - apply ta_op; [done|]. revert Ho Hr. unfold operators. rewrite !elem_of_cons, elem_of_nil.
    intros Ho. destruct_or! Ho; simplify_eq; cbn; rewrite ?Hd; auto.
    intros [?| ->]; [auto|]. right. by destruct k as [|[|k]]; [lia|..].
  - apply ta_space; congruence.
  - apply ta_line; [done|]. destruct Hr as [->|Hr]; [left; by rewrite take_nil|right; congruence].
  - by apply ta_block.
  - rewrite take_nil. by apply ta_block_open.
  - apply ta_quoted; congruence.
  - by apply ta_bracket.
  - apply ta_integer; congruence.
  - apply ta_point; congruence.
  - apply ta_exponent; congruence.
  - apply ta_number_param; congruence.
  - apply ta_register; congruence.
  - eapply ta_param; try done. intros Ht0. destruct (Hr Ht0) as (Hi & H40 & H58).
    rewrite Hd. split_and!; [done..|]. intros E. specialize (H58 E). destruct (decide (1 < k)%nat).
    + by rewrite at_take.
    + unfold at_. rewrite drop_ge; [done|]. rewrite length_take. lia.
  - by apply ta_blob.
  - apply ta_word; try done; rewrite Hd; done.
Qed.

Lemma lexeme_not_illegal t s : lexeme t s -> t <> TK_ILLEGAL.
Proof.
  intros [t' s' Ho| | | | |q ? ?| | | | | | | | |c ? ? ? ? ?]; try done.
  - unfold operators in Ho. rewrite !elem_of_cons, elem_of_nil in Ho. destruct_or! Ho; by simplify_eq.
  - by destruct (q =? 39).
  - unfold keywordCode. by destruct (keyword _).
Qed.

Lemma lexeme_self t s : cstring s -> lexeme t s -> sqlite3GetToken s = (length s, t).
Proof.
  intros Hs Hl. rewrite <- (app_nil_r s) at 1. apply token_accept; [by apply lexeme_token|by rewrite app_nil_r].
Qed.

(** C12: [sqlite3GetToken] finds the longest lexeme: a token it accepts is a
    lexeme of the grammar with that code, and no longer prefix of the text is
    a lexeme of any code; and a text that is a lexeme is one token. *)
Theorem sqlite3GetToken_longest z :
  cstring z -> z <> [] ->
  (forall n t, sqlite3GetToken z = (n, t) -> t <> TK_ILLEGAL ->
     lexeme t (take n z) /\ forall m t', (n < m <= length z)%nat -> ~ lexeme t' (take m z))
  /\ (forall t, lexeme t z -> sqlite3GetToken z = (length z, t)).
Proof.
  intros Hz Hne. split; [|intros t; by apply lexeme_self].
  intros n t Hg Ht. destruct (token_sound z n t Hz Hne Hg Ht) as (s & r & -> & -> & Hs).
  rewrite take_app_length. split; [by eapply token_lexeme|].
  intros m t' Hm Hl. rewrite take_app_ge in Hl by lia.
  assert (Hc : cstring (s ++ take (m - length s) r)).
  { apply Forall_app in Hz as [? Hr]. apply Forall_app. split; [done|by apply Forall_take]. }
  apply lexeme_self in Hl; [|done].
  rewrite (token_accept t) in Hl; [|apply token_at_take; [done|lia]|done].
  injection Hl as Hl _. rewrite length_app, length_take in Hl. rewrite length_app in Hm. lia.
Qed.

(** ** The length of a token *)

Lemma token_nonempty t s r : token_at t s r -> (0 < length s)%nat.
Proof.
  intros [t' s' r' Ho _| | | | | | |ds ? Hne| | a x ? Hne| | | | |]; try (cbn; rewrite ?length_app; cbn; lia).
  - revert Ho. unfold operators. rewrite !elem_of_cons, elem_of_nil. intros Ho. destruct_or! Ho; simplify_eq; cbn; lia.
  - destruct ds; [done|cbn; lia].
  - destruct a; [done|cbn; lia].
Qed.

Lemma string_loop_le q (n : nat) : forall z i j c,
  (length z <= n)%nat -> string_loop q z i = (j, c) -> (i <= j <= i + length z)%nat.
Proof.
  induction n as [|n IH]; intros z i j c Hn Hl; (destruct z as [|d z]; [by simplify_eq/=; lia|]); cbn in Hl, Hn |- *; [lia|].
  destruct (d =? q).
  - destruct z as [|e z]; [simplify_eq; lia|]. destruct (e =? q); [|simplify_eq; lia].
    cbn in Hn |- *. apply IH in Hl; [lia|lia].
  - apply IH in Hl; lia.
Qed.

Lemma bracket_loop_le z : forall c i j c', bracket_loop c z i = (j, c') -> (i <= j <= i + length z)%nat.
Proof.
  induction z as [|d z IH]; intros c i j c' Hl; cbn in Hl |- *; destruct (negb (c =? 93)); simplify_eq; try lia.
  apply IH in Hl. lia.
Qed.

Lemma variable_loop_le (m : nat) : forall z i n0 j n b,
  (length z <= m)%nat -> variable_loop z i n0 = (j, n, b) -> (i <= j <= i + length z)%nat.
Proof.
  induction m as [|m IH]; intros z i n0 j n b Hm Hl; (destruct z as [|c z]; [by simplify_eq/=; lia|]);
    cbn [length variable_loop] in Hl, Hm |- *; [lia|].
  destruct (IdChar c); [apply IH in Hl; lia|]. destruct (_ && _).
  - set (p := fun c => _) in Hl. pose proof (scan_le p z).
    destruct (Z.eqb_spec (deref (drop (scan p z) z)) 41) as [E|]; simplify_eq; [|lia].
    assert (scan p z <> length z) by (intros E'; rewrite E', drop_all in E; done). lia.
  - destruct z as [|d z]; [simplify_eq; lia|]. cbn [length] in Hm |- *.
    destruct (_ && _); [apply IH in Hl; lia|simplify_eq; lia].
Qed.

Lemma number_token_le z n t :
  sqlite3Isdigit (deref z) = true \/ (deref z = 46 /\ sqlite3Isdigit (at_ z 1) = true) ->
  number_token z = (n, t) -> (1 <= n <= length z)%nat.
Proof.
  intros Hd Hn. destruct (number_token_split z) as (a & p & x & r & -> & Ha & Hp & Hx & H46 & E).
  rewrite E in Hn. injection Hn as <- _. rewrite !length_app. pose proof (scan_le IdChar r).
  split; [|lia]. destruct a as [|c a]; [|cbn; lia]. destruct Hp as [->|(b & -> & _)]; [|cbn; lia].
  destruct Hx as [->|Hx]; [|by inversion Hx; cbn; lia]. cbn [app] in Hd. specialize (H46 eq_refl eq_refl).
  destruct Hd as [Hd|[Hd _]]; [|done]. apply digit_id in Hd. destruct r as [|c r]; [done|]. cbn in Hd |- *. rewrite Hd. lia.
Qed.

Lemma id_token_le z n t : z <> [] -> id_token z = (n, t) -> (1 <= n <= length z)%nat.
Proof.
  intros Hne Hi. unfold id_token in Hi. destruct z as [|c z]; [done|]. cbn [deref drop length] in *.
  rewrite drop_0 in Hi. pose proof (scan_le IdChar z). destruct (IdChar c); simplify_eq; lia.
Qed.

Lemma variable_token_le z n t : z <> [] -> variable_token z = (n, t) -> (1 <= n <= length z)%nat.
Proof.
  intros Hne Hi. unfold variable_token in Hi. destruct z as [|c z]; [done|]. cbn [drop length] in *.
  rewrite drop_0 in Hi. destruct (variable_loop z 1 0) as [[i k] b] eqn:E. simplify_eq.
  apply (variable_loop_le (length z)) in E; lia.
Qed.

(** A token that is not accepted still advances, and passes the terminator
    only for an exclamation mark at the end. *)
Lemma token_length z n t :
  cstring z -> z <> [] -> sqlite3GetToken z = (n, t) -> (1 <= n)%nat /\ ((n <= length z)%nat \/ z = [33]).
Proof.
  intros Hz Hne Hg. destruct (decide (t = TK_ILLEGAL)) as [->|Ht].
  2:{ destruct (token_sound z n t Hz Hne Hg Ht) as (s & r & -> & -> & Hs%token_nonempty).
      rewrite length_app. lia. }
  assert (Hl : (1 <= length z)%nat) by (destruct z; [done|cbn; lia]).
  assert (Hid : id_token z = (n, TK_ILLEGAL) -> (1 <= n <= length z)%nat) by by apply id_token_le.
  assert (Hvar : variable_token z = (n, TK_ILLEGAL) -> (1 <= n <= length z)%nat) by by apply variable_token_le.
  unfold sqlite3GetToken in Hg.
  assert (Hb : is_u8 (deref z)) by (destruct z; [done|]; apply Forall_cons in Hz as [? _]; cbn; unfold_int; lia).
  rewrite <- (isdigit_spec _ Hb) in Hg.
  repeat (test Hg; [first [discriminate | lia | apply Hvar in Hg; lia | idtac]|]).
  all: try discriminate.
  - by destruct (comment_loop _ _ _).
  - injection Hg as <-. split; [lia|]. match goal with E : (deref z =? 33) = true |- _ => apply Z.eqb_eq in E end.
    destruct z as [|c [|d z]]; cbn in *; [done|right; by subst|left; lia].
  - destruct z as [|c z]; [done|]. cbn [drop deref] in Hg. rewrite drop_0 in Hg.
    destruct (string_loop c z 1) as [i c'] eqn:El. apply (string_loop_le c (length z)) in El; [|lia].
    destruct (c' =? 39), (negb (c' =? 0)); simplify_eq; cbn [length]; lia.
  - apply number_token_le in Hg; [lia|]. right. split; [by apply Z.eqb_eq|]. by destruct (sqlite3Isdigit (at_ z 1)).
  - apply number_token_le in Hg; [lia|by left].
  - destruct z as [|c z]; [done|]. cbn [drop deref] in Hg. rewrite drop_0 in Hg.
    destruct (bracket_loop c z 1) as [i c'] eqn:El. apply bracket_loop_le in El. simplify_eq. cbn [length]. lia.
  - apply Hvar in Hg. lia.
  - match goal with E : (at_ z 1 =? 39) = true |- _ => apply Z.eqb_eq in E end. assert (Hl1 : (1 < length z)%nat) by (apply at_lt; lia).
    pose proof (scan_le sqlite3Isxdigit (drop 2 z)) as H2. rewrite length_drop in H2.
    set (i := (2 + scan sqlite3Isxdigit (drop 2 z))%nat) in *.
    pose proof (scan_le (not_char 39) (drop i z)) as Hk. rewrite length_drop in Hk.
    destruct (negb (at_ z i =? 39) || Nat.odd i); [|by simplify_eq].
    set (k := (i + scan (not_char 39) (drop i z))%nat) in *.
    destruct (Z.eqb_spec (at_ z k) 0) as [|Hnz]; cbn [negb] in Hg; simplify_eq; [lia|].
    apply at_lt in Hnz. lia.
  - apply Hid in Hg. lia.
  - apply Hid in Hg. lia.
Qed.
End Sound.

(** On "<=a" the longest match is the operator of two characters. *)
Lemma sqlite3GetToken_longest_witness :
  @sqlite3GetToken (fun _ => None) [60; 61; 97] = (2%nat, TK_LE)
  /\ @lexeme (fun _ => None) TK_LE (take 2 [60; 61; 97])
  /\ forall m t', (2 < m <= 3)%nat -> ~ @lexeme (fun _ => None) t' (take m [60; 61; 97]).
Proof.
  split; [reflexivity|].
  apply (@sqlite3GetToken_longest (fun _ => None) [60; 61; 97]); [|done|reflexivity|done].
  repeat constructor; lia.
Defined.
