(* ===== verification/TokenStream.v ===== *)
(** * The tokens of a text

    [tokens] is the loop every caller of [sqlite3GetToken] runs: take a token,
    move the pointer past it, until the terminator. *)

From S2P Require Import Prelude Ctype Token TokenSpec TokenLex.

Section Stream.
Context `{Keywords}.

(** A token takes at least one byte, so the bytes left bound the loop. *)
Fixpoint tokens_loop (fuel : nat) (z : list Z) : list (tk * list Z) :=
  match fuel, z with
  | S fuel, _ :: _ =>
      let '(n, t) := sqlite3GetToken z in
      (t, take n z) :: tokens_loop fuel (drop n z)
  | _, _ => []
  end.

Definition tokens (z : list Z) : list (tk * list Z) := tokens_loop (length z) z.

Lemma get_token_pos z n t : cstring z -> z <> [] -> sqlite3GetToken z = (n, t) -> (1 <= n)%nat.
Proof. intros Hz Hne Hg. apply (token_length z n t Hz Hne Hg). Qed.

Lemma tokens_loop_enough f1 f2 z :
  cstring z -> (length z <= f1)%nat -> (length z <= f2)%nat -> tokens_loop f1 z = tokens_loop f2 z.
Proof.
  revert f2 z. induction f1 as [|f1 IH]; intros f2 z Hz H1 H2.
  - destruct z; [by destruct f2|cbn in H1; lia].
  - destruct z as [|c z]; [by destruct f2|]. destruct f2 as [|f2]; [cbn in H2; lia|].
    cbn [tokens_loop]. destruct (sqlite3GetToken (c :: z)) as [n t] eqn:Hg.
    pose proof (get_token_pos _ _ _ Hz ltac:(done) Hg). f_equal.
    apply IH; [by apply Forall_drop|..]; rewrite length_drop; cbn in *; lia.
Qed.

Lemma tokens_nil : tokens [] = [].
Proof. done. Qed.

Lemma tokens_step z n t :
  cstring z -> z <> [] -> sqlite3GetToken z = (n, t) -> tokens z = (t, take n z) :: tokens (drop n z).
Proof.
  intros Hz Hne Hg. unfold tokens. destruct z as [|c z]; [done|]. cbn [length tokens_loop]. rewrite Hg.
  pose proof (get_token_pos _ _ _ Hz Hne Hg). f_equal.
  apply tokens_loop_enough; [by apply Forall_drop|..]; rewrite length_drop; cbn in *; lia.
Qed.

(** Induction over the tokens of a text. *)
Lemma tokens_ind (P : list Z -> list (tk * list Z) -> Prop) :
  P [] [] ->
  (forall z n t, cstring z -> z <> [] -> sqlite3GetToken z = (n, t) -> (1 <= n)%nat ->
     P (drop n z) (tokens (drop n z)) -> P z ((t, take n z) :: tokens (drop n z))) ->
  forall z, cstring z -> P z (tokens z).
Proof.
  intros H0 HS z. remember (length z) as m eqn:Hm. revert z Hm.
  induction m as [m IH] using lt_wf_ind. intros z -> Hz.
  destruct (decide (z = [])) as [->|Hne]; [done|].
  destruct (sqlite3GetToken z) as [n t] eqn:Hg. pose proof (get_token_pos _ _ _ Hz Hne Hg).
  rewrite (tokens_step z n t) by done. apply HS; try done.
  apply (IH (length (drop n z))); [|done|by apply Forall_drop].
  rewrite length_drop. destruct z; [done|cbn; lia].
Qed.

(** The tokens cover the text. *)
Lemma tokens_concat z : cstring z -> concat (map snd (tokens z)) = z.
Proof.
  apply (tokens_ind (fun z ts => concat (map snd ts) = z)); [done|].
  intros z' n t _ _ _ _ IH. cbn. by rewrite IH, take_drop.
Qed.

(** A lexeme that the rest does not extend comes first. *)
Lemma tokens_app t s r : token_at t s r -> cstring (s ++ r) -> tokens (s ++ r) = (t, s) :: tokens r.
Proof.
  intros Ht Hz. pose proof (token_nonempty t s r Ht) as Hs.
  rewrite (tokens_step _ _ _ Hz ltac:(by destruct s; [cbn in Hs; lia|]) (token_accept t s r Ht Hz)).
  by rewrite take_app_length, drop_app_length.
Qed.

(** The first token of a text that is accepted. *)
Lemma tokens_inv z t s ts :
  cstring z -> tokens z = (t, s) :: ts -> t <> TK_ILLEGAL ->
  exists r, z = s ++ r /\ token_at t s r /\ cstring r /\ ts = tokens r.
Proof.
  intros Hz Hts Ht. destruct (decide (z = [])) as [->|Hne]; [done|].
  destruct (sqlite3GetToken z) as [n t'] eqn:Hg. rewrite (tokens_step z n t' Hz Hne Hg) in Hts. simplify_eq.
  destruct (token_sound z n t Hz Hne Hg Ht) as (s & r & -> & -> & Hs).
  rewrite take_app_length, drop_app_length. exists r. apply Forall_app in Hz as [_ Hr]. done.
Qed.
End Stream.

(** A set of keywords, on which the statements about all sets are tried. *)
Definition sql_keywords : Keywords := fun w =>
  let w := map UpperToLower w in
  if decide (w = [98; 101; 103; 105; 110]) then Some KW_BEGIN
  else if decide (w = [102; 111; 114]) then Some KW_FOR
  else if decide (w = [111; 110]) then Some KW_ON
  else if decide (w = [114; 101; 102; 101; 114; 101; 110; 99; 101; 115]) then Some KW_REFERENCES
  else if decide (w = [117; 115; 105; 110; 103]) then Some KW_USING
  else if decide (w = [119; 104; 101; 110]) then Some KW_WHEN
  else if decide (w = [115; 101; 108; 101; 99; 116]) then Some (KW_other 1)
  else None.
