(* ===== verification/Complete.v ===== *)
(** * Complete statements (src/lmdb-backend/src/complete.c)

    [sqlite3_complete] runs an automaton over the tokens of a text.  The
    automaton recognises the sequences of statements of a grammar in which
    a CREATE TRIGGER ends at ";END;". *)

From S2P Require Import Prelude Ctype Token.

(** ** The code *)

Definition tkSEMI : Z := 0.
Definition tkWS : Z := 1.
Definition tkOTHER : Z := 2.
Definition tkEXPLAIN : Z := 3.
Definition tkCREATE : Z := 4.
Definition tkTEMP : Z := 5.
Definition tkTRIGGER : Z := 6.
Definition tkEND : Z := 7.

(** The rows are the states INVALID, START, NORMAL, EXPLAIN, CREATE, TRIGGER,
    SEMI and END, the columns the tokens. *)
Definition trans_table : list (list Z) :=
  [[1; 0; 2; 3; 4; 2; 2; 2];
   [1; 1; 2; 3; 4; 2; 2; 2];
   [1; 2; 2; 2; 2; 2; 2; 2];
   [1; 3; 3; 2; 4; 2; 2; 2];
   [1; 4; 2; 2; 2; 4; 5; 2];
   [6; 5; 5; 5; 5; 5; 5; 5];
   [6; 6; 5; 5; 5; 5; 5; 7];
   [1; 7; 5; 5; 5; 5; 5; 5]].

Definition trans (state token : Z) : Z :=
  nth (Z.to_nat token) (nth (Z.to_nat state) trans_table []) 0.

(** [while( zSql[0] && (zSql[0]!='*' || zSql[1]!='/') ){ zSql++; }] *)
Fixpoint skip_comment (z : list Z) : list Z :=
  match z with
  | [] => []
  | c :: z1 => if negb (c =? 42) || negb (deref z1 =? 47) then skip_comment z1 else z
  end.

(** [while( *zSql && *zSql!=k ){ zSql++; }] *)
Definition skip_to (k : Z) (z : list Z) : list Z := drop (scan (not_char k) z) z.

(** Text constants. *)
Definition s_create : list Z := [99; 114; 101; 97; 116; 101].
Definition s_trigger : list Z := [116; 114; 105; 103; 103; 101; 114].
Definition s_temp : list Z := [116; 101; 109; 112].
Definition s_temporary : list Z := [116; 101; 109; 112; 111; 114; 97; 114; 121].
Definition s_end : list Z := [101; 110; 100].
Definition s_explain : list Z := [101; 120; 112; 108; 97; 105; 110].

(** [nId==n && sqlite3StrNICmp(zSql, w, n)==0], where [n] is the length of [w]. *)
Definition is_word (z : list Z) (nId : nat) (w : list Z) : bool :=
  (nId =? length w)%nat && (sqlite3_strnicmp z w (Z.of_nat (length w)) =? 0).

(** The token of an identifier or a keyword. *)
Definition word_class (z : list Z) (nId : nat) : Z :=
  let c := deref z in
  if (c =? 99) || (c =? 67) then
    if is_word z nId s_create then tkCREATE else tkOTHER
  else if (c =? 116) || (c =? 84) then
    if is_word z nId s_trigger then tkTRIGGER
    else if is_word z nId s_temp then tkTEMP
    else if is_word z nId s_temporary then tkTEMP
    else tkOTHER
  else if (c =? 101) || (c =? 69) then
    if is_word z nId s_end then tkEND
    else if is_word z nId s_explain then tkEXPLAIN
    else tkOTHER
  else tkOTHER.

(** What one turn of the loop decides: the value to return, or the token and
    the pointer before the final [zSql++]. *)
Inductive turn := Return (r : bool) | Token_ (token : Z) (z : list Z).

Definition complete_turn (state : Z) (z : list Z) : turn :=
  let c := deref z in
  if c =? 59 then Token_ tkSEMI z
  else if (c =? 32) || (c =? 13) || (c =? 9) || (c =? 10) || (c =? 12) then Token_ tkWS z
  else if c =? 47 then
    if negb (at_ z 1 =? 42) then Token_ tkOTHER z
    else
      let z := skip_comment (drop 2 z) in
      if deref z =? 0 then Return false else Token_ tkWS (drop 1 z)
  else if c =? 45 then
    if negb (at_ z 1 =? 45) then Token_ tkOTHER z
    else
      let z := skip_to 10 z in
      if deref z =? 0 then Return (state =? 1) else Token_ tkWS z
  else if c =? 91 then
    let z := skip_to 93 (drop 1 z) in
    if deref z =? 0 then Return false else Token_ tkOTHER z
  else if (c =? 96) || (c =? 34) || (c =? 39) then
    let z := skip_to c (drop 1 z) in
    if deref z =? 0 then Return false else Token_ tkOTHER z
  else if IdChar c then
    let nId := S (scan IdChar (drop 1 z)) in
    Token_ (word_class z nId) (drop (nId - 1) z)
  else Token_ tkOTHER z.

(** Every turn moves the pointer on, so the bytes left bound the turns. *)
Fixpoint complete_loop (fuel : nat) (state : Z) (z : list Z) : bool :=
  match fuel, z with
  | S fuel, _ :: _ =>
      match complete_turn state z with
      | Return r => r
      | Token_ token z => complete_loop fuel (trans state token) (drop 1 z)
      end
  | _, _ => state =? 1
  end.

Definition sqlite3_complete (zSql : list Z) : bool := complete_loop (length zSql) 0 zSql.
