(* ===== verification/CompleteGrammar.v ===== *)
(** * The language of the automaton of [sqlite3_complete]

    The grammar of statements over the significant tokens, and that the table
    of transitions recognises the sequences of statements. *)

From S2P Require Import Prelude Complete.

(** ** The grammar *)

(** The tokens that can begin a CREATE TRIGGER statement, with or without
    EXPLAIN. *)
Inductive header : list Z -> Prop :=
  | header_create n : header (tkCREATE :: repeat tkTEMP n ++ [tkTRIGGER])
  | header_explain k n : header (tkEXPLAIN :: repeat tkOTHER k ++ tkCREATE :: repeat tkTEMP n ++ [tkTRIGGER]).

Definition end_mark : list Z := [tkSEMI; tkEND; tkSEMI].

(** A statement: one that does not create a trigger ends at the first
    semicolon, one that does at the first ";END;". *)
Inductive stmt : list Z -> Prop :=
  | stmt_plain b : tkSEMI ∉ b -> (forall h r, header h -> b <> h ++ r) -> stmt (b ++ [tkSEMI])
  | stmt_trigger h b : header h -> (forall x y, b ++ [tkSEMI; tkEND] <> x ++ end_mark ++ y) ->
      stmt (h ++ b ++ end_mark).

(** The classes of the tokens, whitespace left out. *)
Definition significant (c : Z) : Prop := c = 0 \/ 2 <= c <= 7.

(** ** The automaton *)

Definition run (q : Z) (ts : list Z) : Z := fold_left trans ts q.

Lemma run_app q a b : run q (a ++ b) = run (run q a) b.
Proof. apply fold_left_app. Qed.

Lemma run_repeat q c n : trans q c = q -> run q (repeat c n) = q.
Proof. intros Hq. induction n as [|n IH]; [done|]. unfold run in *. cbn [repeat fold_left]. by rewrite Hq. Qed.

Lemma header_run x : header x -> run 1 x = 5.
Proof.
  intros [n|k n]; unfold run; cbn [fold_left].
  - change (run 4 (repeat tkTEMP n ++ [tkTRIGGER]) = 5). by rewrite run_app, run_repeat.
  - change (run 3 (repeat tkOTHER k ++ tkCREATE :: repeat tkTEMP n ++ [tkTRIGGER]) = 5).
    rewrite run_app, run_repeat by done. change (run 4 (repeat tkTEMP n ++ [tkTRIGGER]) = 5).
    by rewrite run_app, run_repeat.
Qed.

(** The state after the beginning of a statement, and what it has seen. *)
Definition shape (q : Z) (b : list Z) : Prop :=
  (q = 1 /\ b = []) \/ q = 2
  \/ (q = 3 /\ exists k, b = tkEXPLAIN :: repeat tkOTHER k)
  \/ (q = 4 /\ exists n, b = tkCREATE :: repeat tkTEMP n
       \/ exists k, b = tkEXPLAIN :: repeat tkOTHER k ++ tkCREATE :: repeat tkTEMP n)
  \/ (q = 5 /\ exists x r, header x /\ b = x ++ r).

Lemma repeat_snoc {A} (c : A) n : repeat c n ++ [c] = repeat c (S n).
Proof. induction n as [|n IH]; [done|]. cbn. by rewrite IH. Qed.

Lemma run_shape b : Forall significant b -> tkSEMI ∉ b -> shape (run 1 b) b.
Proof.
  induction b as [|c b IH] using rev_ind; [by left|]. rewrite Forall_app, Forall_singleton, elem_of_app, list_elem_of_singleton.
  intros [Hb Hc] Hs. rewrite run_app. assert (c <> 0) by (intros ->; tauto). destruct Hc as [?|Hc]; [done|].
  assert (c = 2 \/ c = 3 \/ c = 4 \/ c = 5 \/ c = 6 \/ c = 7) as Hc' by lia.
  destruct (IH Hb ltac:(tauto)) as [[-> ->]|[->|[[-> [k ->]]|[[-> [n Hn]]|[-> (x & r & Hx & ->)]]]]];
    destruct_or! Hc'; subst c; unfold run; cbn [fold_left]; try (by right; left);
    try (by right; right; right; right; (split; [done|]); eexists x, _; rewrite <- app_assoc).
  - right. right. left. split; [done|]. by exists O.
  - right. right. right. left. split; [done|]. exists O. by left.
  - right. right. left. split; [done|]. exists (S k). cbn. by rewrite repeat_snoc.
  - right. right. right. left. split; [done|]. exists O. right. by exists k.
  - right. right. right. left. split; [done|]. exists (S n).
    destruct Hn as [->|[k ->]]; [left|right; exists k]; cbn; by rewrite <- ?app_assoc; cbn; rewrite repeat_snoc.
  - right. right. right. right. split; [done|]. exists (b ++ [6]), []. rewrite app_nil_r. split; [|done].
    destruct Hn as [->|[k ->]]; cbn; rewrite <- ?app_assoc; constructor.
Qed.

(** No semicolon: the state never comes back to START, and a trigger keeps
    the state TRIGGER. *)
Lemma run_trigger b : Forall significant b -> tkSEMI ∉ b -> run 5 b = 5.
Proof.
  induction b as [|c b IH]; [done|]. rewrite Forall_cons, not_elem_of_cons. intros [Hc Hb] [Hs Hn].
  change (run (trans 5 c) b = 5). replace (trans 5 c) with 5; [by apply IH|].
  destruct Hc as [->|Hc]; [done|].
  assert (c = 2 \/ c = 3 \/ c = 4 \/ c = 5 \/ c = 6 \/ c = 7) as Hc' by lia. by destruct_or! Hc'; subst c.
Qed.

(** ** The end of a trigger *)

Definition no_mark (b : list Z) : Prop := forall x y, b <> x ++ end_mark ++ y.

Definition ends_with (s b : list Z) : Prop := exists x, b = x ++ s.

Lemma ends_with_snoc c b : ends_with [c] (b ++ [c]).
Proof. by exists b. Qed.

Lemma no_mark_app b c : no_mark (b ++ c) -> no_mark b.
Proof. intros Hn x y ->. apply (Hn x (y ++ c)). by rewrite <- !app_assoc. Qed.

Lemma no_mark_snoc w c : no_mark w -> ~ (c = tkSEMI /\ ends_with [tkSEMI; tkEND] w) -> no_mark (w ++ [c]).
Proof.
  intros Hw Hc x y Heq. destruct y as [|d y _] using rev_ind.
  - change (x ++ end_mark ++ []) with (x ++ [tkSEMI; tkEND] ++ [tkSEMI]) in Heq.
    rewrite app_assoc in Heq. apply app_inj_2 in Heq as [-> [= ->]]; [|done]. apply Hc. split; [done|by exists x].
  - rewrite !app_assoc in Heq. apply app_inj_2 in Heq as [-> _]; [|done]. rewrite <- app_assoc in Hw. by apply (Hw x y).
Qed.

Lemma ends_dec w c : ends_with [c; tkEND] w \/ ~ ends_with [c; tkEND] w.
Proof.
  destruct w as [|b w _] using rev_ind; [right; by intros [[] ?]|].
  destruct w as [|a w _] using rev_ind; [right; by intros [[|? []] ?]|]. rewrite <- app_assoc. cbn.
  destruct (decide (a = c /\ b = tkEND)) as [[-> ->]|Hn]; [left; by exists w|right].
  intros [x Hx]. apply app_inj_2 in Hx as [_ [= -> ->]]; [tauto|done].
Qed.

(** The first mark of a list. *)
Lemma first_mark w : no_mark w \/ exists b r, w = b ++ end_mark ++ r /\ no_mark (b ++ [tkSEMI; tkEND]).
Proof.
  induction w as [|c w IH] using rev_ind; [left; by intros [|? [|? [|]]]|].
  destruct IH as [IH|(b & r & -> & Hb)]; [|right; exists b, (r ++ [c]); by rewrite <- !app_assoc].
  destruct (decide (c = tkSEMI)) as [->|Hc]; [|left; apply no_mark_snoc; tauto].
  destruct (ends_dec w tkSEMI) as [[b ->]|Hn]; [|left; apply no_mark_snoc; tauto].
  right. exists b, []. by rewrite <- app_assoc.
Qed.

Definition trigger_state (q : Z) (b : list Z) : Prop :=
  (q = 6 /\ ends_with [tkSEMI] b)
  \/ (q = 7 /\ ends_with [tkSEMI; tkEND] b)
  \/ (q = 5 /\ ~ ends_with [tkSEMI] b /\ ~ ends_with [tkSEMI; tkEND] b).

Lemma snoc_not_ends b c d : c <> d -> ~ ends_with [d] (b ++ [c]).
Proof. intros Hc [x Hx]. by apply app_inj_2 in Hx as [_ [= ->]]. Qed.

Lemma snoc_not_ends2 b c a d : (c <> d \/ ~ ends_with [a] b) -> ~ ends_with [a; d] (b ++ [c]).
Proof.
  intros Hc [x Hx]. change [a; d] with ([a] ++ [d]) in Hx. rewrite app_assoc in Hx.
  apply app_inj_2 in Hx as [-> [= ->]]; [|done]. destruct Hc as [?|Hc]; [done|]. apply Hc. by exists x.
Qed.

Lemma run_trigger_state b : Forall significant b -> no_mark b -> trigger_state (run 5 b) b.
Proof.
  induction b as [|c b IH] using rev_ind.
  { intros _ _. right. right. split; [done|]. split; by intros [[] ?]. }
  rewrite Forall_app, Forall_singleton. intros [Hb Hc] Hn.
  specialize (IH Hb (no_mark_app _ _ Hn)). rewrite run_app.
  destruct (decide (c = tkSEMI)) as [->|Hs].
  - left. split; [|apply ends_with_snoc].
    destruct IH as [[-> _]|[[-> [x ->]]|[-> _]]]; [done| |done]. exfalso. apply (Hn x []).
    by rewrite <- app_assoc.
  - right. destruct (decide (c = tkEND)) as [->|He].
    + destruct IH as [[-> [x ->]]|[[-> [x ->]]|(-> & H1 & H2)]].
      * left. split; [done|]. exists x. by rewrite <- app_assoc.
      * right. split; [done|]. split; [by apply snoc_not_ends|]. apply snoc_not_ends2. right.
        change [tkSEMI; tkEND] with ([tkSEMI] ++ [tkEND]). rewrite app_assoc. by apply snoc_not_ends.
      * right. split; [done|]. split; [by apply snoc_not_ends|]. apply snoc_not_ends2. by right.
    + right. split; [|split; [by apply snoc_not_ends|apply snoc_not_ends2; by left]].
      assert (c = 2 \/ c = 3 \/ c = 4 \/ c = 5 \/ c = 6) as Hc'.
      { unfold tkSEMI, tkEND in *. destruct Hc; lia. }
      destruct IH as [[-> _]|[[-> _]|[-> _]]]; by destruct_or! Hc'; subst c.
Qed.

(** ** The language of the automaton *)

Lemma stmt_run s : Forall significant s -> stmt s -> run 1 s = 1.
Proof.
  intros Hs Hst. destruct Hst as [b Hb Hn|h b Hh Hn].
  - apply Forall_app in Hs as [Hs _]. rewrite run_app.
    destruct (run_shape b Hs Hb) as [[-> _]|[->|[[-> _]|[[-> _]|[_ (x & r & Hx & ->)]]]]]; try done.
    by destruct (Hn x r).
  - rewrite run_app, header_run by done. apply Forall_app in Hs as [_ Hs]. apply Forall_app in Hs as [Hs _].
    rewrite run_app. destruct (run_trigger_state b Hs) as [[-> _]|[[-> [x ->]]|[-> _]]]; [by eapply no_mark_app|done| |done].
    exfalso. apply (Hn x [tkEND]). by rewrite <- app_assoc.
Qed.

(** In START a semicolon-free text ends elsewhere. *)
Lemma run_no_semi b : Forall significant b -> tkSEMI ∉ b -> run 1 b = 1 -> b = [].
Proof.
  intros Hb Hs Hr. destruct (run_shape b Hb Hs) as [[_ ?]|[E|[[E _]|[[E _]|[E _]]]]]; [done|rewrite Hr in E; done..].
Qed.

Lemma split_semi ts : tkSEMI ∉ ts \/ exists b r, ts = b ++ tkSEMI :: r /\ tkSEMI ∉ b.
Proof.
  destruct (decide (tkSEMI ∈ ts)) as [Hin|]; [right|by left].
  apply list_elem_of_split_l in Hin as (b & r & -> & Hb). by exists b, r.
Qed.

Lemma complete_stmts n : forall ts, (length ts <= n)%nat -> Forall significant ts ->
  run 1 ts = 1 -> exists ss, ts = concat ss /\ Forall stmt ss.
Proof.
  induction n as [|n IH]; intros ts Hn Hs Hr.
  { exists []. destruct ts; [by split; [|constructor]|cbn in Hn; lia]. }
  destruct (split_semi ts) as [Hno|(b & r & -> & Hb)].
  { exists []. rewrite (run_no_semi ts) by done. by split; [|constructor]. }
  assert (Hcons : forall s w, b ++ tkSEMI :: r = s ++ w -> stmt s -> (length w < length (b ++ tkSEMI :: r))%nat ->
     run 1 w = 1 -> exists ss, b ++ tkSEMI :: r = concat ss /\ Forall stmt ss).
  { intros s w Heq Hst Hlt Hw. rewrite Heq in Hs. apply Forall_app in Hs as [_ Hs].
    destruct (IH w ltac:(lia) Hs Hw) as (ss & -> & Hss). exists (s :: ss). rewrite Heq. by split; [|apply List.Forall_cons]. }
  assert (Hsb : Forall significant b) by (by apply Forall_app in Hs as [? _]).
  pose proof (run_shape b Hsb Hb) as Hsh. destruct (decide (run 1 b = 5)) as [E5|E5].
  - destruct Hsh as [[E _]|[E|[[E _]|[[E _]|[_ (x & b0 & Hx & ->)]]]]]; try (rewrite E in E5; done).
    rewrite <- app_assoc in *. rewrite run_app, header_run in Hr by done.
    set (w := b0 ++ tkSEMI :: r) in *. assert (Hsw : Forall significant w) by (by apply Forall_app in Hs as [_ ?]).
    destruct (first_mark w) as [Hw|(b1 & r1 & Hw & Hn1)].
    { destruct (run_trigger_state w Hsw Hw) as [[E _]|[[E _]|[E _]]]; rewrite Hr in E; done. }
    apply (Hcons (x ++ b1 ++ end_mark) r1).
    + rewrite Hw. by rewrite <- !app_assoc.
    + by constructor.
    + rewrite Hw, !length_app. cbn. lia.
    + rewrite Hw, app_assoc, run_app in Hr.
      assert (Hst : Forall significant (x ++ b1 ++ end_mark)).
      { rewrite Hw, !Forall_app in Hs. rewrite !Forall_app. tauto. }
      apply stmt_run in Hst; [|by constructor]. rewrite run_app, header_run in Hst by done.
      by rewrite Hst in Hr.
  - apply (Hcons (b ++ [tkSEMI]) r).
    + by rewrite <- app_assoc.
    + constructor; [done|]. intros h y Hh ->. apply E5. rewrite run_app, header_run by done.
      apply run_trigger; [by apply Forall_app in Hsb as [_ ?]|]. rewrite elem_of_app in Hb. tauto.
    + rewrite length_app. cbn. lia.
    + rewrite run_app in Hr. change (run (trans (run 1 b) tkSEMI) r = 1) in Hr.
      destruct Hsh as [[E _]|[E|[[E _]|[[E _]|[E _]]]]]; try done; by rewrite E in Hr.
Qed.

(** INVALID and START differ only on whitespace. *)
Lemma run_start ts : Forall significant ts -> ts <> [] -> run 0 ts = run 1 ts.
Proof.
  intros Hs Hne. destruct ts as [|c ts]; [done|]. apply Forall_cons in Hs as [Hc _].
  change (run (trans 0 c) ts = run (trans 1 c) ts). f_equal.
  destruct Hc as [->|Hc]; [done|]. assert (c = 2 \/ c = 3 \/ c = 4 \/ c = 5 \/ c = 6 \/ c = 7) as Hc' by lia.
  by destruct_or! Hc'; subst c.
Qed.

Lemma stmts_run ss : Forall significant (concat ss) -> Forall stmt ss -> run 1 (concat ss) = 1.
Proof.
  intros Hs Hss. induction Hss as [|s ss Hst Hss IH]; [done|]. cbn [concat] in *. apply Forall_app in Hs as [Hs1 Hs2].
  by rewrite run_app, stmt_run, IH.
Qed.
