(* ===== verification/CompleteText.v ===== *)
(** * What [sqlite3_complete] accepts

    On a text of plain tokens the input of the automaton is the sequence of
    classes of the tokens that [sqlite3GetToken] finds, so the text is complete
    exactly when those form statements. *)

From S2P Require Import Prelude Ctype Token TokenSpec TokenLex TokenStream Complete CompleteGrammar.

(** ** One turn of the loop *)

Lemma skip_comment_le z : (length (skip_comment z) <= length z)%nat.
Proof. induction z as [|c z IH]; [done|]. cbn. destruct (_ || _); cbn; lia. Qed.

Lemma turn_le q c z t z' : complete_turn q (c :: z) = Token_ t z' -> (length z' <= S (length z))%nat.
Proof.
  unfold complete_turn, skip_to. cbn [deref drop]. intros Ht.
  pose proof (skip_comment_le (drop 1 z)) as Hs. rewrite length_drop in Hs.
  repeat (match type of Ht with (if ?b then _ else _) = _ => destruct b end; try discriminate);
    injection Ht as _ <-; rewrite ?length_drop; cbn [length]; lia.
Qed.

Lemma complete_loop_enough f1 : forall f2 q z,
  (length z <= f1)%nat -> (length z <= f2)%nat -> complete_loop f1 q z = complete_loop f2 q z.
Proof.
  induction f1 as [|f1 IH]; intros f2 q z H1 H2; (destruct z as [|c z]; [by destruct f2|]); [cbn in H1; lia|].
  destruct f2 as [|f2]; [cbn in H2; lia|]. cbn [complete_loop length] in *.
  destruct (complete_turn q (c :: z)) as [|t z'] eqn:E; [done|]. apply turn_le in E.
  apply IH; rewrite length_drop; lia.
Qed.

Definition go (q : Z) (z : list Z) : bool := complete_loop (length z) q z.

Lemma go_turn q c z :
  go q (c :: z) = match complete_turn q (c :: z) with
                  | Return r => r
                  | Token_ t z' => go (trans q t) (drop 1 z')
                  end.
Proof.
  unfold go. cbn [length complete_loop]. destruct (complete_turn q (c :: z)) as [|t z'] eqn:E; [done|].
  apply turn_le in E. apply complete_loop_enough; rewrite ?length_drop; lia.
Qed.

Definition state (q : Z) : Prop := 0 <= q <= 7.

Lemma trans_state q t : state q -> state t -> state (trans q t).
Proof.
  unfold state. intros Hq Ht.
  assert (q = 0 \/ q = 1 \/ q = 2 \/ q = 3 \/ q = 4 \/ q = 5 \/ q = 6 \/ q = 7) as Hq' by lia.
  assert (t = 0 \/ t = 1 \/ t = 2 \/ t = 3 \/ t = 4 \/ t = 5 \/ t = 6 \/ t = 7) as Ht' by lia.
  destruct_or! Hq'; destruct_or! Ht'; subst; vm_compute; split; discriminate.
Qed.

Ltac all_states Hq :=
  let Hq' := fresh in
  unfold state in Hq;
  match type of Hq with 0 <= ?q <= 7 =>
    assert (q = 0 \/ q = 1 \/ q = 2 \/ q = 3 \/ q = 4 \/ q = 5 \/ q = 6 \/ q = 7) as Hq' by lia;
    destruct_or! Hq'; subst q end.

Lemma trans_ws q : state q -> trans q tkWS = q.
Proof. intros Hq. by all_states Hq. Qed.

Lemma trans_other q : state q -> trans (trans q tkOTHER) tkOTHER = trans q tkOTHER.
Proof. intros Hq. by all_states Hq. Qed.

Lemma trans_other_1 q : state q -> trans q tkOTHER <> 1.
Proof. intros Hq. by all_states Hq. Qed.

(** ** Texts that are one token of the automaton *)

Definition symbols : list Z := [40; 41; 43; 42; 37; 61; 60; 62; 33; 124; 44; 38; 126; 46; 63; 64; 58; 35].

Lemma go_symbol q c r : c ∈ symbols -> go q (c :: r) = go (trans q tkOTHER) r.
Proof. intros Hc. rewrite go_turn. unfold symbols in Hc. by in_cases Hc. Qed.

Lemma go_semi q r : go q (59 :: r) = go (trans q tkSEMI) r.
Proof. by rewrite go_turn. Qed.

Lemma go_space q c r : state q -> c ∈ [32; 9; 10; 12; 13] -> go q (c :: r) = go q r.
Proof.
  intros Hq Hc. rewrite go_turn. in_cases Hc; cbn [complete_turn deref Z.eqb Pos.eqb orb drop];
    by rewrite trans_ws, drop_0 by done.
Qed.

(** ** Comments, quotes and words *)

Lemma go_line q s r :
  state q -> all (not_char 10) s -> r = [] \/ deref r = 10 -> go q (45 :: 45 :: s ++ r) = go q r.
Proof.
  intros Hq Hs Hr. rewrite go_turn. cbn [complete_turn deref Z.eqb Pos.eqb orb]. rewrite at_cons, at_0. cbn [Z.eqb Pos.eqb negb].
  assert (Hk : skip_to 10 (45 :: 45 :: s ++ r) = r).
  { unfold skip_to. cbn [scan]. change (not_char 10 45) with true. cbn.
    destruct Hr as [->|Hr]; [rewrite app_nil_r, scan_all by done; by rewrite drop_all|].
    rewrite scan_app by (done || by rewrite Hr). by rewrite drop_app_length. }
  rewrite Hk. destruct Hr as [->|Hr]; [done|]. rewrite Hr. cbn [Z.eqb Pos.eqb].
  destruct r as [|c r]; [done|]. cbn in Hr. subst c. rewrite trans_ws by done. cbn [drop]. rewrite drop_0.
  by rewrite go_space; [|done|set_solver].
Qed.

Lemma skip_comment_close s r : no_close s -> skip_comment (s ++ 42 :: 47 :: r) = 42 :: 47 :: r.
Proof.
  induction s as [|c s IH]; intros Hs; [done|]. cbn [app skip_comment].
  assert (Hs' : no_close s) by (intros a b ->; by apply (Hs (c :: a) b)). rewrite IH by done.
  destruct (Z.eqb_spec c 42) as [->|]; [|done]. destruct s as [|d s]; [done|]. cbn.
  destruct (Z.eqb_spec d 47) as [->|]; [|done]. by destruct (Hs [] s).
Qed.

Lemma go_block q s r : state q -> no_close s -> go q (47 :: 42 :: s ++ 42 :: 47 :: r) = go q r.
Proof.
  intros Hq Hs. rewrite go_turn. cbn [complete_turn deref Z.eqb Pos.eqb orb]. rewrite at_cons, at_0. cbn [Z.eqb Pos.eqb negb drop].
  rewrite drop_0, skip_comment_close by done. cbn [deref Z.eqb Pos.eqb drop]. by rewrite trans_ws, drop_0.
Qed.

Lemma skip_to_app k s r : all (not_char k) s -> skip_to k (s ++ k :: r) = k :: r.
Proof.
  intros Hs. unfold skip_to. rewrite scan_app; [by rewrite drop_app_length|done|].
  cbn. unfold not_char. by rewrite Z.eqb_refl.
Qed.

Lemma go_bracket q s r : all (not_char 93) s -> go q (91 :: s ++ 93 :: r) = go (trans q tkOTHER) r.
Proof.
  intros Hs. rewrite go_turn. cbn [complete_turn deref Z.eqb Pos.eqb orb drop].
  rewrite drop_0, skip_to_app by done. cbn [deref Z.eqb Pos.eqb drop]. by rewrite drop_0.
Qed.

Lemma go_quote q k s r :
  k ∈ [39; 34; 96] -> all (not_char k) s -> go q (k :: s ++ k :: r) = go (trans q tkOTHER) r.
Proof.
  intros Hk Hs. rewrite go_turn. in_cases Hk; cbn [complete_turn deref Z.eqb Pos.eqb orb drop];
    rewrite drop_0, skip_to_app by done; cbn [deref Z.eqb Pos.eqb drop]; by rewrite drop_0.
Qed.

(** The text up to the first quote. *)
Lemma quote_split k s :
  all (not_char k) s \/ exists a b, s = a ++ k :: b /\ all (not_char k) a /\ (length b < length s)%nat.
Proof.
  induction s as [|c s IH]; [by left|]. destruct (decide (c = k)) as [->|Hc].
  - right. exists [], s. split; [done|]. split; [constructor|cbn; lia].
  - assert (Hcb : not_char k c = true) by (unfold not_char; by destruct (Z.eqb_spec c k)).
    destruct IH as [IH|(a & b & -> & Ha & Hl)]; [left; by apply List.Forall_cons|].
    right. exists (c :: a), b. split; [done|]. split; [by apply List.Forall_cons|]. cbn. lia.
Qed.

Lemma escape_app k a b : escape k (a ++ b) = escape k a ++ escape k b.
Proof. unfold escape. by rewrite map_app, concat_app. Qed.

Lemma escape_plain k a : all (not_char k) a -> escape k a = a.
Proof.
  intros Ha. induction Ha as [|c a Hc Ha IH]; [done|]. unfold escape in *. cbn. rewrite IH.
  unfold not_char in Hc. by destruct (Z.eqb_spec c k).
Qed.

Lemma go_quoted k n : forall s q r, (length s <= n)%nat -> state q -> k ∈ [39; 34; 96] ->
  go q (k :: escape k s ++ k :: r) = go (trans q tkOTHER) r.
Proof.
  induction n as [|n IH]; intros s q r Hn Hq Hk.
  { destruct s; [by apply (go_quote q k [])|cbn in Hn; lia]. }
  destruct (quote_split k s) as [Hs|(a & b & -> & Ha & Hl)].
  - rewrite escape_plain by done. by apply go_quote.
  - rewrite escape_app, (escape_plain k a) by done.
    change (escape k (k :: b)) with ((if k =? k then [k; k] else [k]) ++ escape k b). rewrite Z.eqb_refl.
    rewrite <- app_assoc. cbn [app]. rewrite go_quote by done. rewrite IH; [|lia|by apply trans_state|done].
    by rewrite trans_other.
Qed.

Lemma go_run q c s r :
  IdChar c = true -> all IdChar s -> IdChar (deref r) = false ->
  go q (c :: s ++ r) = go (trans q (word_class (c :: s ++ r) (S (length s)))) r.
Proof.
  intros Hc Hs Hr. rewrite go_turn. unfold complete_turn. cbn [deref].
  assert (Hk : forall k, IdChar k = false -> (c =? k) = false)
    by (intros k Hk; destruct (Z.eqb_spec c k); congruence).
  not_chars Hk. rewrite Hc. cbn [orb drop]. rewrite drop_0, scan_app by done.
  cbn [Nat.sub]. rewrite Nat.sub_0_r. f_equal.
  change (c :: s ++ r) with ((c :: s) ++ r). rewrite drop_drop.
  replace (length s + 1)%nat with (length (c :: s)) by (cbn; lia). apply drop_app_length.
Qed.

(** ** The classes of the tokens *)

Definition kw_class (s : list Z) : Z :=
  let w := map UpperToLower s in
  if decide (w = s_create) then tkCREATE
  else if decide (w = s_trigger) then tkTRIGGER
  else if decide (w = s_temp \/ w = s_temporary) then tkTEMP
  else if decide (w = s_end) then tkEND
  else if decide (w = s_explain) then tkEXPLAIN
  else tkOTHER.

Lemma strnicmp_word w : Forall (fun c => c <> 0 /\ UpperToLower c = c) w -> forall s r,
  length s = length w -> cstring s ->
  (strnicmp_loop (s ++ r) w (length w) =? 0) = bool_decide (map UpperToLower s = w).
Proof.
  induction 1 as [|k w [Hk0 Hk] Hw IH]; intros s r Hl Hs; (destruct s as [|c s]; [try done|]); [done|].
  apply Forall_cons in Hs as [Hc Hs]. cbn [length map app strnicmp_loop deref drop] in *. rewrite Hk, !drop_0.
  assert (Hc0 : (c =? 0) = false) by lia. rewrite Hc0. cbn [negb andb].
  destruct (Z.eqb_spec (UpperToLower c) k) as [->|Hne].
  - rewrite IH by (done || lia). apply bool_decide_ext. split; [by intros ->|by intros [= ->]].
  - rewrite bool_decide_false by congruence. lia.
Qed.

Lemma is_word_spec s r w :
  Forall (fun c => c <> 0 /\ UpperToLower c = c) w -> cstring s ->
  is_word (s ++ r) (length s) w = bool_decide (map UpperToLower s = w).
Proof.
  intros Hw Hs. unfold is_word, sqlite3_strnicmp. rewrite Nat2Z.id.
  destruct (Nat.eqb_spec (length s) (length w)) as [Hl|Hl]; [by apply strnicmp_word|].
  rewrite bool_decide_false; [done|]. intros E. apply Hl. by rewrite <- E, length_map.
Qed.

Lemma lower_inv c k : is_u8 c -> UpperToLower c = k -> 97 <= k <= 122 -> c = k \/ c = k - 32.
Proof.
  intros Hc. rewrite tolower_spec by done. unfold byte_range. intros E Hk.
  destruct (Z.leb_spec 65 c), (Z.leb_spec c 90); cbn in E; lia.
Qed.

Lemma word_class_spec s r : s <> [] -> cstring s -> word_class (s ++ r) (length s) = kw_class s.
Proof.
  intros Hne Hs. unfold word_class. rewrite !is_word_spec by (done || (repeat constructor; done)).
  destruct s as [|c s]; [done|]. cbn [app deref]. apply Forall_cons in Hs as [Hc _].
  assert (Hb : is_u8 c) by (unfold_int; lia).
  assert (Hh : forall k w, map UpperToLower (c :: s) = k :: w -> 97 <= k <= 122 -> c = k \/ c = k - 32).
  { intros k w [= Hk _] ?. by apply lower_inv. }
  unfold kw_class. set (w := map UpperToLower (c :: s)) in *. clearbody w.
  repeat match goal with |- context [decide (w = ?x)] => destruct (decide (w = x)) as [->|?] end;
    try (destruct (Hh _ _ eq_refl ltac:(done)); subst c; by vm_compute).
  destruct (decide _) as [[->| ->]|Ht];
    try (destruct (Hh _ _ eq_refl ltac:(done)); subst c; by vm_compute).
  rewrite !(bool_decide_false (w = _)) by tauto. by repeat destruct (_ || _).
Qed.

Lemma kw_class_head c s : UpperToLower c ∉ [99; 116; 101] -> kw_class (c :: s) = tkOTHER.
Proof.
  intros Hc. rewrite !not_elem_of_cons in Hc. unfold kw_class. cbn [map].
  repeat (destruct (decide _) as [E|?]; [first [injection E as E _|destruct E as [E|E]; injection E as E _]; tauto|]).
  done.
Qed.

Lemma kw_class_exponent e ds :
  e = 101 \/ e = 69 -> bytes_ok ds -> all sqlite3Isdigit ds -> kw_class (e :: ds) = tkOTHER.
Proof.
  intros He Hb Hd. assert (Hlow : UpperToLower e = 101) by (by destruct He as [-> | ->]).
  unfold kw_class. cbn [map]. rewrite Hlow.
  assert (Hd2 : forall x y, x ∈ [110; 120] -> map UpperToLower ds <> x :: y).
  { intros x y Hx E. destruct ds as [|d ds]; [done|]. injection E as E _.
    apply Forall_cons in Hd as [Hd _]. apply Forall_cons in Hb as [Hb _].
    apply isdigit_range in Hd; [|done]. rewrite tolower_spec in E by done. unfold byte_range in E.
    destruct (Z.leb_spec 65 d), (Z.leb_spec d 90); cbn in E; in_cases Hx; lia. }
  repeat (destruct (decide _) as [E|?]; [exfalso; first [injection E as E|destruct E as [E|E]; injection E as E]; try done;
    by eapply Hd2; [|done]; set_solver|]). done.
Qed.

(** What a token is to the automaton; whitespace is nothing. *)
Definition token_class (tok : tk * list Z) : option Z :=
  match tok.1 with
  | TK_SPACE => None
  | TK_SEMI => Some tkSEMI
  | _ => Some (kw_class tok.2)
  end.

(** The tokens on which the two scanners agree: no parameter whose name is one
    of the seven words or has a double colon or parentheses, no vertical tab, no
    comment that the text does not close. *)
Definition plain_token (tok : tk * list Z) : Prop :=
  match tok.1 with
  | TK_ILLEGAL | TK_REGISTER => False
  | TK_VARIABLE => exists c s, tok.2 = c :: s /\ all IdChar s /\ (c = 63 \/ s <> [] /\ (c = 36 \/ kw_class s = tkOTHER))
  | TK_SPACE =>
      match tok.2 with
      | 45 :: _ => True
      | 47 :: s => exists b, s = 42 :: b ++ [42; 47]
      | s => 11 ∉ s
      end
  | _ => True
  end.

(** The scanners see the end of a numbered parameter differently when a word
    follows at once. *)
Definition next_char (ts : list (tk * list Z)) : Z := deref (hd [] (map snd ts)).

Fixpoint plain_text (ts : list (tk * list Z)) : Prop :=
  match ts with
  | [] => True
  | tok :: ts =>
      plain_token tok /\ (tok.1 = TK_VARIABLE -> deref tok.2 = 63 -> (1 < length tok.2)%nat -> IdChar (next_char ts) = false) /\ plain_text ts
  end.

Lemma go_word q s r :
  s <> [] -> all IdChar s -> IdChar (deref r) = false -> cstring s ->
  go q (s ++ r) = go (trans q (kw_class s)) r.
Proof.
  intros Hne Hs Hr Hz. destruct s as [|c s]; [done|].
  rewrite <- (word_class_spec (c :: s) r) by done. apply Forall_cons in Hs as [Hc Hs].
  cbn [app]. rewrite go_run by done. done.
Qed.

(** *** Numbers *)

Lemma kw_class_digit d s : is_u8 d -> sqlite3Isdigit d = true -> kw_class (d :: s) = tkOTHER.
Proof.
  intros Hb Hd. apply isdigit_range in Hd; [|done]. apply kw_class_head. rewrite tolower_spec by done.
  unfold byte_range. destruct (Z.leb_spec 65 d), (Z.leb_spec d 90); cbn; try lia; not_in.
Qed.

Lemma go_digits q ds r :
  ds <> [] -> all sqlite3Isdigit ds -> IdChar (deref r) = false -> cstring ds ->
  go q (ds ++ r) = go (trans q tkOTHER) r.
Proof.
  intros Hne Hd Hr Hz. rewrite go_word; try done; [|by apply (Forall_impl _ _ _ Hd), digit_id].
  destruct ds as [|d ds]; [done|]. apply Forall_cons in Hd as [Hd _]. apply Forall_cons in Hz as [Hz _].
  rewrite kw_class_digit; [done|unfold_int; lia|done].
Qed.

Lemma go_minus q r : deref r <> 45 -> go q (45 :: r) = go (trans q tkOTHER) r.
Proof.
  intros Hr. rewrite go_turn. cbn [complete_turn deref Z.eqb Pos.eqb orb]. rewrite at_cons, <- deref_at.
  by destruct (Z.eqb_spec (deref r) 45).
Qed.

Lemma go_exponent q b x r :
  state q -> all sqlite3Isdigit b -> exponent x -> IdChar (deref r) = false -> cstring (b ++ x) ->
  go q (b ++ x ++ r) = go (trans q tkOTHER) r.
Proof.
  intros Hq Hb Hx Hr Hz. destruct Hx as [e sg ds He Hsg Hne Hd].
  assert (Hei : IdChar e = true) by (by destruct He as [-> | ->]).
  assert (Hbi : all IdChar b) by (by apply (Forall_impl _ _ _ Hb), digit_id).
  assert (Hdi : all IdChar ds) by (by apply (Forall_impl _ _ _ Hd), digit_id).
  assert (Hdc : cstring ds).
  { unfold cstring in *. rewrite Forall_app, Forall_cons, Forall_app in Hz. tauto. }
  assert (Hw : forall ds', all sqlite3Isdigit ds' -> cstring ds' -> kw_class (b ++ e :: ds') = tkOTHER).
  { intros ds' Hd' Hc'. destruct b as [|d b]; [by apply kw_class_exponent; [|apply cstring_bytes|]|].
    apply Forall_cons in Hz as [Hz _]. apply Forall_cons in Hb as [Hb _]. cbn [app]. apply kw_class_digit; [unfold_int; lia|done]. }
  assert (Hgo : forall ds' y, all sqlite3Isdigit ds' -> cstring ds' -> IdChar (deref y) = false ->
     go q (b ++ e :: ds' ++ y) = go (trans q tkOTHER) y).
  { intros ds' y Hd' Hc' Hy. replace (b ++ e :: ds' ++ y) with ((b ++ e :: ds') ++ y) by (by rewrite <- app_assoc).
    rewrite go_word; [by rewrite Hw|by destruct b| |done|].
    - apply Forall_app. split; [done|]. apply List.Forall_cons; [done|]. by apply (Forall_impl _ _ _ Hd'), digit_id.
    - unfold cstring in *. rewrite Forall_app, Forall_cons, Forall_app in Hz. apply Forall_app. split; [tauto|].
      apply List.Forall_cons; tauto. }
  destruct_or! Hsg; subst sg; cbn [app].
  - by apply Hgo.
  - etrans; [apply (Hgo [] (43 :: ds ++ r)); (done || constructor)|].
    rewrite go_symbol by (unfold symbols; set_solver). rewrite go_digits by done.
    by rewrite !trans_other by first [done | by apply trans_state].
  - etrans; [apply (Hgo [] (45 :: ds ++ r)); (done || constructor)|].
    rewrite go_minus.
    + rewrite go_digits by done. by rewrite !trans_other by first [done | by apply trans_state].
    + destruct ds as [|d ds]; [done|]. apply Forall_cons in Hd as [Hd _]. cbn. by intros ->.
Qed.

Lemma go_tail q b x r :
  state q -> trans q tkOTHER = q -> all sqlite3Isdigit b -> x = [] \/ exponent x ->
  IdChar (deref r) = false -> cstring (b ++ x) -> go q (b ++ x ++ r) = go q r.
Proof.
  intros Hq Ho Hb Hx Hr Hz. destruct Hx as [->|Hx].
  - destruct b as [|d b]; [done|]. rewrite app_nil_r in Hz.
    change ([] ++ r) with r. by rewrite go_digits, Ho.
  - by rewrite go_exponent, Ho.
Qed.

(** ** A token moves the automaton by its class *)

Lemma kw_class_symbol c s : UpperToLower c = c -> c < 97 -> kw_class (c :: s) = tkOTHER.
Proof. intros Hc Hl. apply kw_class_head. rewrite Hc. not_in. Qed.

Definition moves (tok : tk * list Z) (q : Z) : Z :=
  match token_class tok with Some c => trans q c | None => q end.

Ltac is_symbol := unfold symbols; rewrite !elem_of_cons; tauto.

Lemma go_operator t s r q :
  (t, s) ∈ operators -> op_stop s r -> state q -> go q (s ++ r) = go (moves (t, s) q) r.
Proof.
  unfold operators. rewrite !elem_of_cons, elem_of_nil. intros Ho Hr Hq.
  assert (H1 : forall c, c ∈ symbols -> go q (c :: r) = go (trans q tkOTHER) r) by (intros; by apply go_symbol).
  assert (H2 : forall c d, c ∈ symbols -> d ∈ symbols -> go q (c :: d :: r) = go (trans q tkOTHER) r).
  { intros c d Hc Hd. rewrite !go_symbol by done. by rewrite trans_other. }
  destruct_or! Ho; try done; simplify_eq; cbn [op_stop app] in *;
    try (etrans; [apply H1; is_symbol|done]);
    try (etrans; [apply H2; is_symbol|done]).
  - etrans; [by apply go_minus|done].
  - by rewrite go_semi.
  - destruct Hr as [Hr| ->].
    + rewrite go_turn. cbn [complete_turn deref Z.eqb Pos.eqb orb]. rewrite at_cons, <- deref_at.
      destruct (Z.eqb_spec (deref r) 42); [done|]. done.
    + rewrite go_turn. cbn. symmetry. change (go (moves (TK_SLASH, [47]) q) [42] = false).
      rewrite go_symbol by is_symbol. change (moves (TK_SLASH, [47]) q) with (trans q tkOTHER).
      rewrite trans_other by done. by apply Z.eqb_neq, trans_other_1.
Qed.


Lemma kw_class_range s : significant (kw_class s).
Proof. unfold kw_class, significant. repeat (destruct (decide _); [vm_compute; right; split; discriminate|]). vm_compute. right. split; discriminate. Qed.

Lemma class_range tok c : token_class tok = Some c -> significant c.
Proof.
  destruct tok as [t s]. pose proof (kw_class_range s). unfold token_class.
  destruct t; cbn; intros; simplify_eq; (done || by left).
Qed.

Lemma class_significant ts : Forall significant (omap token_class ts).
Proof.
  induction ts as [|tok ts IH]; cbn; [constructor|]. destruct (token_class tok) eqn:E; [|done].
  apply List.Forall_cons; [by eapply class_range|done].
Qed.

Lemma class_state tok c : token_class tok = Some c -> state c.
Proof. intros Hc%class_range. unfold state. destruct Hc; lia. Qed.

Section Text.
Context `{Keywords}.

Lemma go_spaces q s r : state q -> all sqlite3Isspace s -> bytes_ok s -> 11 ∉ s -> go q (s ++ r) = go q r.
Proof.
  intros Hq Hs. induction Hs as [|c s Hc Hs IH]; [done|]. unfold bytes_ok. rewrite Forall_cons, not_elem_of_cons. intros [Hb Hbs] [Hn Hns].
  cbn [app]. rewrite go_space; [by apply IH|done|]. rewrite isspace_spec in Hc by done.
  rewrite !elem_of_cons. assert ((9 <= c <= 13) \/ c = 32) by lia. lia.
Qed.

Lemma go_point q a b x r :
  state q -> a <> [] \/ b <> [] -> all sqlite3Isdigit a -> all sqlite3Isdigit b -> x = [] \/ exponent x ->
  IdChar (deref r) = false -> cstring ((a ++ 46 :: b ++ x) ++ r) ->
  go q ((a ++ 46 :: b ++ x) ++ r) = go (trans q tkOTHER) r.
Proof.
  intros Hq Hne Ha Hb Hx Hr Hz. rewrite <- !app_assoc in *. cbn [app] in *. rewrite <- app_assoc in *.
  assert (Hzb : cstring (b ++ x)).
  { unfold cstring in *. rewrite Forall_app, Forall_cons, !Forall_app in Hz. apply Forall_app. tauto. }
  assert (Hdot : forall q', state q' -> go q' (46 :: b ++ x ++ r) = go (trans q' tkOTHER) r).
  { intros q' Hq'. rewrite go_symbol by is_symbol.
    apply go_tail; try done; [by apply trans_state|by apply trans_other]. }
  destruct a as [|d a]; [by apply Hdot|].
  rewrite go_digits; [|done..|by apply Forall_app in Hz as [? _]].
  rewrite Hdot by by apply trans_state. by rewrite trans_other.
Qed.

(** A parameter: its first character and its name. *)
Lemma go_param c s r q :
  c ∈ [36; 64; 58; 35] -> s <> [] -> all IdChar s -> IdChar (deref r) = false -> c = 36 \/ kw_class s = tkOTHER ->
  cstring (c :: s) -> state q -> go q (c :: s ++ r) = go (moves (TK_VARIABLE, c :: s) q) r.
Proof.
  intros Hc Hne Hs Hr Hk Hz Hq. assert (Hcs : cstring s) by (by apply Forall_cons in Hz as [_ ?]).
  assert (Ho : kw_class (c :: s) = tkOTHER) by (apply kw_class_symbol; in_cases Hc; first [done|lia]).
  unfold moves. cbn [token_class fst snd]. rewrite Ho. destruct (Z.eqb_spec c 36) as [->|H36].
  - change (36 :: s ++ r) with ((36 :: s) ++ r). rewrite go_word, Ho; [done|done|by apply List.Forall_cons|done|done].
  - destruct Hk as [|Hk]; [done|]. rewrite go_symbol by (in_cases Hc; is_symbol). rewrite go_word by done.
    by rewrite Hk, trans_other.
Qed.

Lemma go_token t s r q :
  token_at t s r -> plain_token (t, s) -> (t = TK_VARIABLE -> deref s = 63 -> (1 < length s)%nat -> IdChar (deref r) = false) ->
  cstring (s ++ r) -> state q -> go q (s ++ r) = go (moves (t, s) q) r.
Proof.
  intros Ht Hp Hnum Hz Hq. assert (Hb : bytes_ok (s ++ r)) by by apply cstring_bytes.
  assert (Hzs : cstring s) by (by apply Forall_app in Hz as [? _]).
  destruct Ht as [t s r Ho Hr|c s r Hc Hs Hr|s r Hs Hr|s r Hs|s Hne Hs|k s r Hk Hr|s r Hs|ds r Hne Ha Hr H46
    |a b x r Hne Ha Hb' Hx Hr|a x r Hne Ha Hx Hr|ds r Ha Hr|ds r Hne Ha Hr|c n s t r Hc Ha Hs Ht Hr|c ds r Hc Ha He
    |c s r Hc Ha H36 Hs Hr Hx].
  - by apply go_operator.
  - apply Forall_app in Hb as [Hb _]. apply Forall_cons in Hb as [Hbc Hb]. cbn [app]. rewrite go_space by done.
    apply go_spaces; try done. cbn in Hp. in_cases Hc; set_solver.
  - cbn [app]. by apply go_line.
  - cbn [app]. rewrite <- app_assoc. cbn [app]. by apply go_block.
  - destruct Hp as [b [= ->]]. by destruct (Hs b []).
  - cbn [app]. rewrite <- app_assoc. cbn [app]. rewrite (go_quoted k (length s)) by done.
    f_equal. unfold moves. destruct (Z.eqb_spec k 39); cbn; rewrite kw_class_symbol; in_cases Hk; first [done | lia].
  - cbn [app]. rewrite <- app_assoc. cbn [app]. by rewrite go_bracket.
  - rewrite go_digits by done. f_equal. unfold moves. cbn. destruct ds as [|d ds]; [done|].
    apply Forall_cons in Ha as [Ha _]. apply Forall_cons in Hb as [Hb _]. by rewrite kw_class_digit.
  - rewrite go_point; try done. f_equal. unfold moves. cbn. destruct a as [|d a]; cbn [app].
    + by rewrite kw_class_symbol.
    + apply Forall_cons in Ha as [Ha _]. apply Forall_cons in Hb as [Hb _]. by rewrite kw_class_digit.
  - rewrite <- app_assoc. rewrite go_exponent by done. f_equal. unfold moves. cbn. destruct a as [|d a]; [done|].
    apply Forall_cons in Ha as [Ha _]. apply Forall_cons in Hb as [Hb _]. cbn [app]. by rewrite kw_class_digit.
  - cbn [app]. rewrite go_symbol by is_symbol. unfold moves. cbn [token_class fst snd]. rewrite kw_class_symbol by done.
    destruct ds as [|d ds]; [done|]. specialize (Hnum eq_refl eq_refl ltac:(cbn; lia)).
    rewrite (go_digits _ (d :: ds)); [by rewrite trans_other|done|done|done|by apply Forall_cons in Hzs as [_ ?]].
  - done.
  - destruct Hp as (c' & s' & [= <- <-] & Hall & Hp). cbn [app].
    assert (H63 : c <> 63) by (in_cases Hc; lia). destruct Hp as [|[Hne Hp]]; [done|].
    assert (Htail : t = []).
    { destruct Ht as [->|(b & -> & _)]; [done|]. apply Forall_app in Hall as [_ Hall]. by apply Forall_cons in Hall as [? _]. }
    subst t. destruct (Hr eq_refl) as (Hir & _). by apply go_param.
  - change (c :: 39 :: ds ++ [39]) with ([c] ++ 39 :: ds ++ [39]). rewrite <- app_assoc. cbn [app].
    rewrite <- app_assoc. cbn [app].
    assert (Hcs : cstring [c]) by (apply Forall_cons in Hz as [? _]; by apply List.Forall_cons).
    assert (Hk : forall s', kw_class (c :: s') = tkOTHER) by (intros s'; apply kw_class_head; in_cases Hc;
      [change (UpperToLower 120) with 120|change (UpperToLower 88) with 120]; not_in).
    change (c :: 39 :: ds ++ 39 :: r) with ([c] ++ 39 :: ds ++ 39 :: r).
    rewrite go_word, Hk; try done; [|by apply List.Forall_cons; [in_cases Hc|]].
    rewrite go_quote; [|set_solver|].
    + unfold moves. cbn [token_class fst snd]. by rewrite Hk, trans_other.
    + apply (Forall_impl _ _ _ Ha). intros d Hx. unfold not_char. by destruct (Z.eqb_spec d 39) as [->|].
  - rewrite go_word; try done; [|by apply List.Forall_cons]. f_equal. unfold moves, token_class, keywordCode. cbn.
    by destruct (keyword (c :: s)).
Qed.

(** ** The texts that are complete *)

Lemma next_char_tokens r : cstring r -> next_char (tokens r) = deref r.
Proof.
  intros Hr. unfold next_char, tokens. destruct r as [|c r]; [done|]. cbn [length tokens_loop].
  destruct (sqlite3GetToken (c :: r)) as [n t] eqn:Hg. pose proof (get_token_pos _ n t Hr ltac:(done) Hg) as Hn.
  cbn [map hd snd]. destruct n; [lia|done].
Qed.

Lemma complete_tokens z :
  cstring z -> plain_text (tokens z) -> forall q, state q -> go q z = (run q (omap token_class (tokens z)) =? 1).
Proof.
  apply (tokens_ind (fun z ts => plain_text ts -> forall q, state q -> go q z = (run q (omap token_class ts) =? 1))).
  - done.
  - intros z' n t Hz Hne Hg _ IH (Hp & Hnum & Hps) q Hq.
    assert (Ht : t <> TK_ILLEGAL) by (by intros ->).
    destruct (token_sound z' n t Hz Hne Hg Ht) as (s & r & -> & -> & Hs).
    rewrite take_app_length, drop_app_length in *. rewrite next_char_tokens in Hnum by (by apply Forall_app in Hz as [_ ?]).
    rewrite (go_token t) by done.
    assert (Hq' : state (moves (t, s) q)).
    { unfold moves. destruct (token_class (t, s)) eqn:E; [|done]. apply trans_state; [done|]. by eapply class_state. }
    rewrite IH by done. cbn. unfold moves. by destruct (token_class (t, s)).
Qed.

(** C13: on a text whose tokens the two scanners see alike ([plain_text]),
    [sqlite3_complete] accepts exactly the non-empty sequences of statements,
    where CREATE TRIGGER statements end at their first ";END;" and the others at
    their first semicolon. *)
Theorem sqlite3_complete_correct z :
  cstring z -> plain_text (tokens z) ->
  let ts := omap token_class (tokens z) in
  sqlite3_complete z = true <-> ts <> [] /\ exists ss, ts = concat ss /\ Forall stmt ss.
Proof.
  intros Hz Hp ts. change (sqlite3_complete z) with (go 0 z). rewrite complete_tokens by done. fold ts.
  assert (Hts : Forall significant ts) by (apply class_significant).
  rewrite Z.eqb_eq. split.
  - intros Hr. assert (Hne : ts <> []) by (by intros E; rewrite E in Hr). split; [done|].
    apply (complete_stmts (length ts)); [done|done|]. by rewrite <- run_start.
  - intros [Hne (ss & E & Hss)]. rewrite run_start by done. rewrite E in *. by apply stmts_run.
Qed.
End Text.

(** The text "create trigger t ; end; :a ?1;" is not complete without its last
    semicolon, and is complete with it. *)
Definition trigger_text : list Z :=
  s_create ++ [32] ++ s_trigger ++ [32; 116; 59; 32] ++ s_end ++ [59; 32; 58; 97; 32; 63; 49; 59].

Lemma sqlite3_complete_correct_witness :
  sqlite3_complete trigger_text = true
  <-> (omap token_class (@tokens sql_keywords trigger_text) <> []
       /\ exists ss, omap token_class (@tokens sql_keywords trigger_text) = concat ss /\ Forall stmt ss).
Proof.
  apply (@sqlite3_complete_correct sql_keywords trigger_text).
  - apply (bool_decide_unpack _). vm_compute. exact I.
  - vm_compute tokens. cbn [plain_text]. split_and!; try done; cbn; try (by not_in); try (by intros Hc; in_cases Hc).
    + exists 58, [97]. split_and!; [done|by repeat constructor|right; split; [done|right; by vm_compute]].
    + exists 63, [49]. split_and!; [done|by repeat constructor|by left].
Defined.
