(* ===== verification/Printf.v ===== *)
(** * Formatted text (src/lmdb-backend/src/printf.c)

    [sqlite3VXPrintf] renders a format into an accumulator; the accumulator
    [StrAccum] writes into a fixed buffer or into memory that grows.  The
    renderer is written against the interface [Accum] of the accumulator, so
    that the same code also runs on the plain list of the bytes produced.

    The outcome of each allocation is an input: the list of the outcomes, true
    once it runs out.  Undefined behaviour (an argument of the wrong type, a
    write outside a buffer) is [None]. *)

From S2P Require Import Prelude Ctype Ints.

(** ** The accumulator *)

Record StrAccum := mkAccum {
  zText : option (list Z);   (** the bytes written; None is the null pointer *)
  onBase : bool;             (** zText==zBase *)
  nChar : Z;
  nAlloc : Z;
  mxAlloc : Z;
  useMalloc : Z;
  tooBig : bool;
  mallocFailed : bool;
  allocs : list bool         (** the outcomes of the allocations to come *)
}.

Definition set_tooBig (p : StrAccum) : StrAccum :=
  mkAccum p.(zText) p.(onBase) p.(nChar) p.(nAlloc) p.(mxAlloc) p.(useMalloc) true p.(mallocFailed) p.(allocs).
Definition set_mallocFailed (p : StrAccum) : StrAccum :=
  mkAccum p.(zText) p.(onBase) p.(nChar) p.(nAlloc) p.(mxAlloc) p.(useMalloc) p.(tooBig) true p.(allocs).
Definition set_nAlloc (p : StrAccum) (n : Z) : StrAccum :=
  mkAccum p.(zText) p.(onBase) p.(nChar) n p.(mxAlloc) p.(useMalloc) p.(tooBig) p.(mallocFailed) p.(allocs).
Definition set_text (p : StrAccum) (t : option (list Z)) (base : bool) : StrAccum :=
  mkAccum t base p.(nChar) p.(nAlloc) p.(mxAlloc) p.(useMalloc) p.(tooBig) p.(mallocFailed) p.(allocs).

(** An allocation: its outcome. *)
Definition next_alloc (p : StrAccum) : bool * StrAccum :=
  (match p.(allocs) with [] => true | b :: _ => b end,
   mkAccum p.(zText) p.(onBase) p.(nChar) p.(nAlloc) p.(mxAlloc) p.(useMalloc) p.(tooBig) p.(mallocFailed) (tail p.(allocs))).

Definition sqlite3StrAccumInit (n mx : Z) (mallocs : list bool) : StrAccum :=
  mkAccum (Some []) true 0 n mx 1 false false mallocs.

Definition set_useMalloc (p : StrAccum) (u : Z) : StrAccum :=
  mkAccum p.(zText) p.(onBase) p.(nChar) p.(nAlloc) p.(mxAlloc) u p.(tooBig) p.(mallocFailed) p.(allocs).

Definition sqlite3StrAccumReset (p : StrAccum) : StrAccum := set_text p None false.

(** [memcpy(&p->zText[p->nChar], z, N); p->nChar += N] *)
Definition accum_copy (p : StrAccum) (z : list Z) (N : Z) : StrAccum :=
  mkAccum (match p.(zText) with Some t => Some (t ++ take (Z.to_nat N) z) | None => None end)
    p.(onBase) (p.(nChar) + N) p.(nAlloc) p.(mxAlloc) p.(useMalloc) p.(tooBig) p.(mallocFailed) p.(allocs).

Definition sqlite3StrAccumAppend (p : StrAccum) (z : list Z) (N : Z) : StrAccum :=
  if p.(tooBig) || p.(mallocFailed) then p
  else
    let N := if N <? 0 then sqlite3Strlen30 (Some z) else N in
    if N =? 0 then p
    else if i32 (p.(nChar) + N) >=? p.(nAlloc) then
      if p.(useMalloc) =? 0 then
        let p := set_tooBig p in
        let N := p.(nAlloc) - p.(nChar) - 1 in
        if N <=? 0 then p else accum_copy p z N
      else
        let szNew := p.(nChar) + (N + 1) in
        if szNew >? p.(mxAlloc) then set_tooBig (sqlite3StrAccumReset p)
        else
          let p := set_nAlloc p szNew in
          let '(ok, p) := next_alloc p in
          if ok then accum_copy (set_text p p.(zText) false) z N
          else sqlite3StrAccumReset (set_mallocFailed p)
    else accum_copy p z N.

Definition sqlite3StrAccumFinish (p : StrAccum) : option (list Z) * StrAccum :=
  match p.(zText) with
  | None => (None, p)
  | Some t =>
      if negb (p.(useMalloc) =? 0) && p.(onBase) then
        let '(ok, p) := next_alloc p in
        let p := if ok then set_text p (Some t) false else set_mallocFailed (set_text p None false) in
        (p.(zText), p)
      else (Some t, p)
  end.

(** ** The interface of the accumulator *)

Class Accum (A : Type) := {
  append : A -> list Z -> A;       (** append the bytes *)
  written : A -> Z;                (** the number of bytes so far *)
  buffer : A -> Z -> option A * A  (** allocate a buffer of that many bytes: the accumulator on success and on failure *)
}.

(** The sizes that [sqlite3Malloc] passes on to the allocator. *)
Definition malloc_size_ok (n : Z) : bool := negb ((n <=? 0) || (n >=? 0x7fffff00)).

(** [sqlite3Malloc(n)]; on failure the caller sets [mallocFailed]. *)
#[global] Instance StrAccum_accum : Accum StrAccum := {
  append p z := sqlite3StrAccumAppend p z (Z.of_nat (length z));
  written p := p.(nChar);
  buffer p n :=
    if malloc_size_ok n then
      let '(ok, p) := next_alloc p in
      (if ok then Some p else None, set_mallocFailed p)
    else (None, set_mallocFailed p)
}.

(** The specification: the bytes themselves. *)
#[global] Instance list_accum : Accum (list Z) := {
  append t z := t ++ z;
  written t := Z.of_nat (length t);
  buffer t n := (if malloc_size_ok n then Some t else None, t)
}.

(** ** Formats *)

Inductive xtype :=
  | etINVALID | etRADIX | etFLOAT | etEXP | etGENERIC | etSIZE | etSTRING | etDYNSTRING | etPERCENT
  | etCHARX | etSQLESCAPE | etSQLESCAPE2 | etTOKEN | etSRCLIST | etPOINTER | etSQLESCAPE3 | etORDINAL.

#[global] Instance xtype_eq_dec : EqDecision xtype.
Proof. solve_decision. Defined.

Record et_info := mkInfo {
  fmttype : Z; base : Z; iflags : Z; itype : xtype; charset : nat; iprefix : nat
}.

Definition FLAG_SIGNED : Z := 1.
Definition FLAG_INTERN : Z := 2.
Definition FLAG_STRING : Z := 4.

(** "0123456789ABCDEF0123456789abcdef" and "-x0\000X0". *)
Definition aDigits : list Z :=
  [48; 49; 50; 51; 52; 53; 54; 55; 56; 57; 65; 66; 67; 68; 69; 70;
   48; 49; 50; 51; 52; 53; 54; 55; 56; 57; 97; 98; 99; 100; 101; 102].
Definition aPrefix : list Z := [45; 120; 48; 0; 88; 48].

(** In order: d s g z q Q w c o u x X f e E G i n % p T S r. *)
Definition fmtinfo : list et_info :=
  [mkInfo 100 10 1 etRADIX 0 0; mkInfo 115 0 4 etSTRING 0 0; mkInfo 103 0 1 etGENERIC 30 0;
   mkInfo 122 0 4 etDYNSTRING 0 0; mkInfo 113 0 4 etSQLESCAPE 0 0; mkInfo 81 0 4 etSQLESCAPE2 0 0;
   mkInfo 119 0 4 etSQLESCAPE3 0 0; mkInfo 99 0 0 etCHARX 0 0; mkInfo 111 8 0 etRADIX 0 2;
   mkInfo 117 10 0 etRADIX 0 0; mkInfo 120 16 0 etRADIX 16 1; mkInfo 88 16 0 etRADIX 0 4;
   mkInfo 102 0 1 etFLOAT 0 0; mkInfo 101 0 1 etEXP 30 0; mkInfo 69 0 1 etEXP 14 0;
   mkInfo 71 0 1 etGENERIC 14 0; mkInfo 105 10 1 etRADIX 0 0; mkInfo 110 0 0 etSIZE 0 0;
   mkInfo 37 0 0 etPERCENT 0 0; mkInfo 112 16 0 etPOINTER 0 1; mkInfo 84 0 2 etTOKEN 0 0;
   mkInfo 83 0 2 etSRCLIST 0 0; mkInfo 114 10 3 etORDINAL 0 0].

Record flags := mkFlags {
  leftjustify : bool; plussign : bool; blanksign : bool; alternateform : bool; altform2 : bool; zeropad : bool
}.

(** What follows a percent sign, its arguments fetched. *)
Record directive := mkDirective {
  dflags : flags; width : Z; precision : Z; dlong : bool; dlonglong : bool; conv : Z
}.

(** The variable arguments. *)
Inductive arg :=
  | A_int (v : Z)
  | A_i64 (v : Z)                                (** also [long] and pointers *)
  | A_double (bits : Z)
  | A_str (z : option (list Z))                  (** [char*], to its terminator *)
  | A_token (t : option (list Z))                (** [Token*] *)
  | A_srclist (l : list (option (list Z) * list Z))  (** [SrcList*]: zDatabase and zName of the items *)
  | A_intptr.                                    (** [int*] *)

(** The floating point conversions: the text, the size of the block it is made
    in, [None] for [buf], and how much of the block is written. *)
Record float_buffer := mkFloat { ftext : list Z; fsize : option Z; fused : Z }.
Class FloatText := float_text : xtype -> directive -> Z -> float_buffer.

(** The loop over the flags: it stops at the first other character. *)
Fixpoint parse_flags (f : flags) (fmt : list Z) : flags * list Z :=
  match fmt with
  | [] => (f, [])
  | c :: rest =>
      if c =? 45 then parse_flags (mkFlags true f.(plussign) f.(blanksign) f.(alternateform) f.(altform2) f.(zeropad)) rest
      else if c =? 43 then parse_flags (mkFlags f.(leftjustify) true f.(blanksign) f.(alternateform) f.(altform2) f.(zeropad)) rest
      else if c =? 32 then parse_flags (mkFlags f.(leftjustify) f.(plussign) true f.(alternateform) f.(altform2) f.(zeropad)) rest
      else if c =? 35 then parse_flags (mkFlags f.(leftjustify) f.(plussign) f.(blanksign) true f.(altform2) f.(zeropad)) rest
      else if c =? 33 then parse_flags (mkFlags f.(leftjustify) f.(plussign) f.(blanksign) f.(alternateform) true f.(zeropad)) rest
      else if c =? 48 then parse_flags (mkFlags f.(leftjustify) f.(plussign) f.(blanksign) f.(alternateform) f.(altform2) true) rest
      else (f, fmt)
  end.

(** [while( c>='0' && c<='9' ){ n = n*10 + c - '0'; c = *++fmt; }] *)
Fixpoint parse_number (n : Z) (fmt : list Z) : Z * list Z :=
  match fmt with
  | [] => (n, [])
  | c :: rest => if (48 <=? c) && (c <=? 57) then parse_number (i32 (n * 10 + c - 48)) rest else (n, fmt)
  end.

(** An [int] argument for each star. *)
Definition int_arg (ap : list arg) : option (Z * list arg) :=
  match ap with A_int v :: ap => Some (v, ap) | _ => None end.

Definition set_left (f : flags) : flags :=
  mkFlags true f.(plussign) f.(blanksign) f.(alternateform) f.(altform2) f.(zeropad).

(** The flags, the width, the precision and the modifiers; then the format
    from the conversion character on and the arguments left. *)
Definition parse_directive (fmt : list Z) (ap : list arg) : option (directive * list Z * list arg) :=
  let '(f, fmt) := parse_flags (mkFlags false false false false false false) fmt in
  '(f, width, fmt, ap) ←
    (if deref fmt =? 42 then
       '(w, ap) ← int_arg ap;
       Some (if w <? 0 then (set_left f, i32 (- w), drop 1 fmt, ap) else (f, w, drop 1 fmt, ap))
     else let '(w, fmt) := parse_number 0 fmt in Some (f, w, fmt, ap));
  '(precision, fmt, ap) ←
    (if deref fmt =? 46 then
       let fmt := drop 1 fmt in
       if deref fmt =? 42 then
         '(p, ap) ← int_arg ap;
         Some (if p <? 0 then i32 (- p) else p, drop 1 fmt, ap)
       else let '(p, fmt) := parse_number 0 fmt in Some (p, fmt, ap)
     else Some (-1, fmt, ap));
  let '(long, longlong, fmt) :=
    if deref fmt =? 108 then
      let fmt := drop 1 fmt in
      if deref fmt =? 108 then (true, true, drop 1 fmt) else (true, false, fmt)
    else (false, false, fmt) in
  Some (mkDirective f width precision long longlong (deref fmt), fmt, ap).

Definition find_info (c : Z) : option et_info := find (fun i => c =? i.(fmttype)) fmtinfo.

(** ** Conversions *)

Definition etBUFSIZE : Z := 70.

Section Render.
Context `{FloatText} {A : Type} `{Accum A}.

(** The accumulator, the arguments left and the counts stored through %n. *)
Record state := mkState { acc : A; ap : list arg; counts : list Z }.

Definition set_acc (s : state) (a : A) : state := mkState a s.(ap) s.(counts).
Definition set_ap (s : state) (l : list arg) : state := mkState s.(acc) l s.(counts).

(** The text of a conversion and its field width; an early return; undefined
    behaviour. *)
Inductive result := Text (text : list Z) (w : Z) (s : state) | Stop (s : state) | Undefined.

(** The sign character, or 0, and the magnitude. *)
Definition signed_value (f : flags) (v : Z) : Z * Z :=
  if v <? 0 then (45, if v =? SMALLEST_INT64 then 2 ^ 63 else - v)
  else (if f.(plussign) then 43 else if f.(blanksign) then 32 else 0, v).

Definition int_value (signed wide : bool) (f : flags) (l : list arg) : option (Z * Z * list arg) :=
  match l with
  | A_i64 v :: l => if wide then Some (if signed then signed_value f v else (0, u64 v), l) else None
  | A_int v :: l => if wide then None else Some (if signed then signed_value f v else (0, u32 v), l)
  | _ => None
  end.

(** [do{ *(--bufpt) = cset[longvalue%base]; longvalue = longvalue/base; }while( longvalue>0 )];
    a 64-bit value has at most 64 digits. *)
Fixpoint radix_loop (fuel : nat) (cset : nat) (base longvalue : Z) (buf : list Z) : list Z :=
  match fuel with
  | O => buf
  | S fuel =>
      let buf := nth (cset + Z.to_nat (longvalue mod base)) aDigits 0 :: buf in
      let longvalue := longvalue / base in
      if 0 <? longvalue then radix_loop fuel cset base longvalue buf else buf
  end.

(** "thstndrd" *)
Definition zOrd : list Z := [116; 104; 115; 116; 110; 100; 114; 100].

Definition ordinal_suffix (longvalue : Z) : list Z :=
  let x := longvalue mod 10 in
  let x := if (4 <=? x) || ((longvalue / 10) mod 10 =? 1) then 0 else x in
  [nth (Z.to_nat (x * 2)) zOrd 0; nth (Z.to_nat (x * 2 + 1)) zOrd 0].

(** [for(; (x=( *pre))!=0; pre++) *(--bufpt) = x] *)
Fixpoint add_prefix (pre buf : list Z) : list Z :=
  match pre with
  | [] => buf
  | x :: pre => if x =? 0 then buf else add_prefix pre (x :: buf)
  end.

Definition radix_text (i : et_info) (xt : xtype) (precision : Z) (alt : bool) (prefix longvalue : Z) : list Z :=
  let buf := if decide (xt = etORDINAL) then ordinal_suffix longvalue else [] in
  let buf := radix_loop 64 i.(charset) i.(base) longvalue buf in
  let buf := repeat 48 (Z.to_nat (precision - Z.of_nat (length buf))) ++ buf in
  let buf := if prefix =? 0 then buf else prefix :: buf in
  if alt && negb (i.(iprefix) =? 0)%nat then add_prefix (drop i.(iprefix) aPrefix) buf else buf.

Definition convert_radix (i : et_info) (xt : xtype) (d : directive) (s : state) : result :=
  let wide := d.(dlong) || d.(dlonglong) || bool_decide (xt = etPOINTER) in
  match int_value (negb (Z.land i.(iflags) FLAG_SIGNED =? 0)) wide d.(dflags) s.(ap) with
  | None => Undefined
  | Some (prefix, longvalue, l) =>
      let s := set_ap s l in
      let alt := d.(dflags).(alternateform) && negb (longvalue =? 0) in
      let room := d.(width) - (if prefix =? 0 then 0 else 1) in
      let precision := if d.(dflags).(zeropad) && (d.(precision) <? room) then room else d.(precision) in
      let '(a, nOut) :=
        if precision <? etBUFSIZE - 10 then ((Some s.(acc), s.(acc)), etBUFSIZE)
        else let nOut := i32 (precision + 10) in (buffer s.(acc) nOut, nOut) in
      match a with
      | (None, a) => Stop (set_acc s a)
      | (Some a, _) =>
          let text := radix_text i xt precision alt prefix longvalue in
          if Z.of_nat (length text) <=? nOut - 1 then Text text d.(width) (set_acc s a) else Undefined
      end
  end.

(** "NULL" and "(NULL)" *)
Definition s_null : list Z := [78; 85; 76; 76].

Definition convert_escape (xt : xtype) (d : directive) (s : state) : result :=
  match s.(ap) with
  | A_str z :: l =>
      let s := set_ap s l in
      let q := if decide (xt = etSQLESCAPE3) then 34 else 39 in
      let isnull := match z with None => true | Some _ => false end in
      let escarg := match z with
                    | Some z => z
                    | None => if decide (xt = etSQLESCAPE2) then s_null else 40 :: s_null ++ [41]
                    end in
      let taken := if d.(precision) <? 0 then escarg else take (Z.to_nat d.(precision)) escarg in
      let n := Z.of_nat (length (filter (Z.eqb q) taken)) in
      let needQuote := negb isnull && bool_decide (xt = etSQLESCAPE2) in
      let n := i32 (n + (Z.of_nat (length taken) + 1 + (if needQuote then 2 else 0))) in
      let a := if n >? etBUFSIZE then buffer s.(acc) n else (Some s.(acc), s.(acc)) in
      match a with
      | (None, a) => Stop (set_acc s a)
      | (Some a, _) =>
          let text := escape q taken in
          let text := if needQuote then q :: text ++ [q] else text in
          (* the last byte written is the terminator *)
          if Z.of_nat (length text) + 1 <=? (if n >? etBUFSIZE then n else etBUFSIZE)
          then Text text d.(width) (set_acc s a) else Undefined
      end
  | _ => Undefined
  end.

(** [for(idx=1; idx<precision; idx++) buf[idx] = (char)c], [buf] being the bytes
    written so far; [None] when a byte is written outside of the array. *)
Fixpoint repeat_char (fuel : nat) (c precision idx : Z) (buf : list Z) : option (list Z) :=
  match fuel with
  | O => None
  | S fuel =>
      if idx <? precision then
        if idx <? etBUFSIZE then repeat_char fuel c precision (idx + 1) (buf ++ [c]) else None
      else Some buf
  end.

Definition convert_char (d : directive) (s : state) : result :=
  match s.(ap) with
  | A_int c :: l =>
      let '(buf, length) :=
        if 0 <=? d.(precision) then (repeat_char 70 (u8 c) d.(precision) 1 [u8 c], d.(precision))
        else (Some [u8 c], 1) in
      match buf with
      | Some buf => Text (take (Z.to_nat length) buf) d.(width) (set_ap s l)
      | None => Undefined (* writes past buf[] *)
      end
  | _ => Undefined
  end.

Definition convert_string (d : directive) (s : state) : result :=
  match s.(ap) with
  | A_str z :: l =>
      let bufpt := match z with Some z => z | None => [] end in
      let length := if 0 <=? d.(precision) then d.(precision) else sqlite3Strlen30 (Some bufpt) in
      Text (take (Z.to_nat length) bufpt) d.(width) (set_ap s l)
  | _ => Undefined
  end.

Definition convert_srclist (s : state) : result :=
  match s.(ap) with
  | A_srclist items :: A_int k :: l =>
      match (if 0 <=? k then items !! Z.to_nat k else None) with
      | Some (zDatabase, zName) =>
          let a := match zDatabase with Some db => append (append s.(acc) db) [46] | None => s.(acc) end in
          Text [] 0 (mkState (append a zName) l s.(counts))
      | None => Undefined
      end
  | _ => Undefined
  end.

Definition convert_double (xt : xtype) (d : directive) (s : state) : result :=
  match s.(ap) with
  | A_double b :: l =>
      let s := set_ap s l in
      let f := float_text xt d b in
      let a := match f.(fsize) with None => (Some s.(acc), s.(acc)) | Some k => buffer s.(acc) k end in
      match a with
      | (None, a) => Stop (set_acc s a)
      | (Some a, _) => if f.(fused) <=? default etBUFSIZE f.(fsize) then Text f.(ftext) d.(width) (set_acc s a) else Undefined
      end
  | _ => Undefined
  end.

Definition convert (i : et_info) (d : directive) (s : state) : result :=
  match i.(itype) with
  | etPOINTER | etORDINAL | etRADIX => convert_radix i i.(itype) d s
  | etFLOAT | etEXP | etGENERIC => convert_double i.(itype) d s
  | etSIZE =>
      match s.(ap) with
      | A_intptr :: l => Text [] 0 (mkState s.(acc) l (s.(counts) ++ [written s.(acc)]))
      | _ => Undefined
      end
  | etPERCENT => Text [37] d.(width) s
  | etCHARX => convert_char d s
  | etSTRING | etDYNSTRING => convert_string d s
  | etSQLESCAPE | etSQLESCAPE2 | etSQLESCAPE3 => convert_escape i.(itype) d s
  | etTOKEN =>
      match s.(ap) with
      | A_token t :: l =>
          Text [] 0 (mkState (match t with Some t => append s.(acc) t | None => s.(acc) end) l s.(counts))
      | _ => Undefined
      end
  | etSRCLIST => convert_srclist s
  | etINVALID => Stop s
  end.

(** ** The loop over the format *)

Fixpoint space_loop (fuel : nat) (a : A) (N : Z) : A :=
  match fuel with
  | O => a
  | S fuel =>
      if 29 <=? N then space_loop fuel (append a (repeat 32 29)) (N - 29)
      else if 0 <? N then append a (repeat 32 (Z.to_nat N)) else a
  end.

Definition sqlite3AppendSpace (a : A) (N : Z) : A := space_loop (S (Z.to_nat N)) a N.

(** The output of the text of a conversion in its field. *)
Definition emit (left : bool) (text : list Z) (w : Z) (a : A) : A :=
  let nspace := w - Z.of_nat (length text) in
  let a := if negb left && (0 <? nspace) then sqlite3AppendSpace a nspace else a in
  let a := if (0 <? length text)%nat then append a text else a in
  if left && (0 <? nspace) then sqlite3AppendSpace a nspace else a.

Definition one_directive (useExtended : bool) (fmt : list Z) (s : state) : option (list Z * state + state) :=
  '(d, fmt, l) ← parse_directive fmt s.(ap);
  let s := set_ap s l in
  match find_info d.(conv) with
  | None => Some (inr s)
  | Some i =>
      if negb useExtended && negb (Z.land i.(iflags) FLAG_INTERN =? 0) then Some (inr s)
      else
        match convert i d s with
        | Undefined => None
        | Stop s => Some (inr s)
        | Text text w s => Some (inl (drop 1 fmt, set_acc s (emit d.(dflags).(leftjustify) text w s.(acc))))
        end
  end.

(** The text up to a percent sign. *)
Fixpoint literal (fmt : list Z) : list Z * list Z :=
  match fmt with
  | [] => ([], [])
  | c :: rest => if c =? 37 then ([], fmt) else let '(t, fmt) := literal rest in (c :: t, fmt)
  end.

(** Every turn consumes a byte of the format. *)
Fixpoint format_loop (fuel : nat) (useExtended : bool) (fmt : list Z) (s : state) : option state :=
  match fuel, fmt with
  | S fuel, _ :: _ =>
      let '(bufpt, fmt) := literal fmt in
      let s := match bufpt with [] => s | _ => set_acc s (append s.(acc) bufpt) end in
      match fmt with
      | [] => Some s
      | [_] => Some (set_acc s (append s.(acc) [37]))
      | _ :: fmt =>
          r ← one_directive useExtended fmt s;
          match r with
          | inl (fmt, s) => format_loop fuel useExtended fmt s
          | inr s => Some s
          end
      end
  | _, _ => Some s
  end.

Definition sqlite3VXPrintf (useExtended : bool) (fmt : list Z) (l : list arg) (a : A) : option state :=
  format_loop (length fmt) useExtended fmt (mkState a l []).

End Render.

Arguments state : clear implicits.
Arguments result : clear implicits.

(** ** The functions that return text

    The result is the text, or None for a null pointer; with the limit of a
    connection, also whether an allocation failed and the outcomes left. *)

Section Text.
Context `{FloatText}.

Definition SQLITE_PRINT_BUF_SIZE : Z := 70.
Definition SQLITE_MAX_LENGTH : Z := 1000000000.

(** [mx] is the limit [db->aLimit[SQLITE_LIMIT_LENGTH]]. *)
Definition sqlite3VMPrintf (mx : Z) (mallocs : list bool) (fmt : list Z) (l : list arg)
    : option (option (list Z) * bool * list bool) :=
  s ← sqlite3VXPrintf true fmt l (sqlite3StrAccumInit SQLITE_PRINT_BUF_SIZE mx mallocs);
  let '(z, p) := sqlite3StrAccumFinish s.(acc) in
  Some (z, p.(mallocFailed), p.(allocs)).

Definition sqlite3MPrintf := sqlite3VMPrintf.

Definition sqlite3_vmprintf (mallocs : list bool) (fmt : list Z) (l : list arg) : option (option (list Z)) :=
  let p := set_useMalloc (sqlite3StrAccumInit SQLITE_PRINT_BUF_SIZE SQLITE_MAX_LENGTH mallocs) 2 in
  s ← sqlite3VXPrintf false fmt l p;
  Some (sqlite3StrAccumFinish s.(acc)).1.

Definition sqlite3_mprintf := sqlite3_vmprintf.

(** What [zBuf] holds up to its terminator is returned; a buffer of no bytes is
    left alone, and what it held is [old]. *)
Definition sqlite3_vsnprintf (n : Z) (old : list Z) (mallocs : list bool) (fmt : list Z) (l : list arg) : option (option (list Z)) :=
  if n <=? 0 then Some (Some old)
  else
    let p := set_useMalloc (sqlite3StrAccumInit n 0 mallocs) 0 in
    s ← sqlite3VXPrintf false fmt l p;
    Some (sqlite3StrAccumFinish s.(acc)).1.

Definition sqlite3_snprintf := sqlite3_vsnprintf.

Definition sqlite3XPrintf (p : StrAccum) (fmt : list Z) (l : list arg) : option StrAccum :=
  s ← sqlite3VXPrintf true fmt l p;
  Some s.(acc).

End Text.
