(* ===== verification/PrintfSpec.v ===== *)
(** * The accumulators hold the text

    [sqlite3VXPrintf] on the plain list of bytes defines the text of a format.
    A simulation carries it to the accumulators: a fixed buffer holds the
    beginning of the text that fits, the growing one the whole text. *)

From S2P Require Import Prelude Ctype Ints Printf.

(** ** Simulation between two accumulators *)

Section Simulation.
Context `{FloatText} {A B : Type} `{Accum A} `{Accum B}.

(** [R] while the rendering goes on, [Q] when it has stopped. *)
Context (R Q : A -> B -> Prop).
Context (Happend : forall a b z, R a b -> R (append a z) (append b z)).
Context (Hbuffer : forall a b n, R a b ->
  match buffer a n, buffer b n with
  | (Some a1, _), (Some b1, _) => R a1 b1
  | (None, a1), (None, b1) => Q a1 b1
  | _, _ => False
  end).
Context (Hstop : forall a b, R a b -> Q a b).

Definition live (s : state A) (t : state B) : Prop := R s.(acc) t.(acc) /\ s.(ap) = t.(ap).

Definition results (x : result A) (y : result B) : Prop :=
  match x, y with
  | Text t1 w1 s1, Text t2 w2 s2 => t1 = t2 /\ w1 = w2 /\ live s1 s2
  | Stop s1, Stop s2 => Q s1.(acc) s2.(acc)
  | Undefined, Undefined => True
  | _, _ => False
  end.

Lemma convert_radix_sim i xt d s t : live s t -> results (convert_radix i xt d s) (convert_radix i xt d t).
Proof.
  intros [Ha Hp]. unfold convert_radix. rewrite <- Hp. destruct (int_value _ _ _ _) as [[[pre v] l]|]; [|done].
  cbv zeta. match goal with |- context [?p <? etBUFSIZE - 10] => set (prec := p) end.
  destruct (prec <? etBUFSIZE - 10).
  - destruct (_ <=? _); [|done]. by split_and!.
  - pose proof (Hbuffer s.(acc) t.(acc) (i32 (prec + 10)) Ha) as Hb. cbn [acc set_ap].
    destruct (buffer s.(acc) _) as [[a|] a1], (buffer t.(acc) _) as [[b|] b1]; try done.
    destruct (_ <=? _); [|done]. by split_and!.
Qed.

Lemma convert_escape_sim xt d s t : live s t -> results (convert_escape xt d s) (convert_escape xt d t).
Proof.
  intros [Ha Hp]. unfold convert_escape. rewrite <- Hp. destruct s.(ap) as [|[] l]; try done.
  cbv zeta. cbn [acc set_ap]. match goal with |- context [?m >? etBUFSIZE] => set (n := m) end.
  destruct (n >? etBUFSIZE).
  - pose proof (Hbuffer s.(acc) t.(acc) n Ha) as Hb.
    destruct (buffer s.(acc) n) as [[a|] a1], (buffer t.(acc) n) as [[b|] b1]; try done. by destruct (_ <=? _).
  - destruct (_ <=? _); [by split_and!|done].
Qed.

Lemma convert_double_sim xt d s t : live s t -> results (convert_double xt d s) (convert_double xt d t).
Proof.
  intros [Ha Hp]. unfold convert_double. rewrite <- Hp. destruct s.(ap) as [|[] l]; try done.
  cbv zeta. cbn [acc set_ap]. destruct (fsize _) as [k|]; [|by destruct (_ <=? _)].
  pose proof (Hbuffer s.(acc) t.(acc) k Ha) as Hb.
  destruct (buffer s.(acc) k) as [[a|] a1], (buffer t.(acc) k) as [[b|] b1]; try done. by destruct (_ <=? _).
Qed.

Lemma convert_sim i d s t : live s t -> results (convert i d s) (convert i d t).
Proof.
  intros Hl. pose proof Hl as [Ha Hp]. unfold convert.
  destruct i.(itype) eqn:E; try (by apply convert_radix_sim); try (by apply convert_escape_sim); try (by apply convert_double_sim);
    unfold convert_string, convert_char, convert_srclist; rewrite <- ?Hp;
    try (by destruct s.(ap) as [|[] l]); try (by apply Hstop); try (by split_and!).
  - destruct s.(ap) as [|[] l]; try done. by destruct (if 0 <=? precision d then _ else _) as [[buf|] len].
  - destruct s.(ap) as [|[| | | |tok| |] l]; try done.
    refine (conj eq_refl (conj eq_refl (conj _ eq_refl))). destruct tok; cbn; auto.
  - destruct s.(ap) as [|[| | | | |items|] [|[k| | | | | |] l']]; try done.
    destruct (if 0 <=? k then _ else _) as [[[db|] nm]|]; try done;
      refine (conj eq_refl (conj eq_refl (conj _ eq_refl))); cbn; auto.
Qed.

Lemma space_sim fuel : forall a b N, R a b -> R (space_loop fuel a N) (space_loop fuel b N).
Proof.
  induction fuel as [|fuel IH]; intros a b N Ha; cbn [space_loop]; [done|].
  destruct (29 <=? N); [by apply IH, Happend|]. destruct (0 <? N); [by apply Happend|done].
Qed.

Lemma emit_sim left text w a b : R a b -> R (emit left text w a) (emit left text w b).
Proof.
  intros Ha. unfold emit, sqlite3AppendSpace. cbv zeta.
  destruct (negb left && _), (0 <? length text)%nat, (left && _); auto 7 using space_sim.
Qed.

Definition option_states (x : option (state A)) (y : option (state B)) : Prop :=
  match x, y with
  | Some s, Some t => Q s.(acc) t.(acc)
  | None, None => True
  | _, _ => False
  end.

Lemma one_directive_sim ext fmt s t : live s t ->
  match one_directive ext fmt s, one_directive ext fmt t with
  | Some (inl (f1, s1)), Some (inl (f2, t1)) => f1 = f2 /\ live s1 t1
  | Some (inr s1), Some (inr t1) => Q s1.(acc) t1.(acc)
  | None, None => True
  | _, _ => False
  end.
Proof.
  intros [Ha Hp]. unfold one_directive. rewrite <- Hp.
  destruct (parse_directive fmt s.(ap)) as [[[d f] l]|]; cbn [mbind option_bind]; [|done]. cbv zeta.
  destruct (find_info d.(conv)) as [i|]; [|by apply Hstop]. destruct (_ && _); [by apply Hstop|].
  pose proof (convert_sim i d (set_ap s l) (set_ap t l) (conj Ha eq_refl)) as Hc.
  destruct (convert i d (set_ap s l)), (convert i d (set_ap t l)); try done.
  destruct Hc as (<- & <- & Hl & Hp'). split; [done|]. split; [by apply emit_sim|done].
Qed.

Lemma format_sim fuel : forall ext fmt s t, live s t ->
  option_states (format_loop fuel ext fmt s) (format_loop fuel ext fmt t).
Proof.
  induction fuel as [|fuel IH]; intros ext fmt s t Hl; cbn [format_loop]; [by apply Hstop, Hl|].
  destruct fmt as [|c fmt]; [by apply Hstop, Hl|]. destruct (literal (c :: fmt)) as [bufpt rest].
  set (s1 := match bufpt with [] => s | _ => set_acc s (append s.(acc) bufpt) end).
  set (t1 := match bufpt with [] => t | _ => set_acc t (append t.(acc) bufpt) end).
  assert (Hl1 : live s1 t1).
  { subst s1 t1. destruct bufpt; [done|]. destruct Hl. split; [by apply Happend|done]. }
  destruct rest as [|p [|e rest]]; [by apply Hstop, Hl1|by apply Hstop, Happend, Hl1|].
  pose proof (one_directive_sim ext (e :: rest) s1 t1 Hl1) as Hd.
  destruct (one_directive ext (e :: rest) s1) as [[[f2 s2]|s2]|],
    (one_directive ext (e :: rest) t1) as [[[f3 t2]|t2]|]; cbn [mbind option_bind]; try done.
  destruct Hd as [<- Hd]. by apply IH.
Qed.

Lemma printf_sim ext fmt l a b : R a b ->
  option_states (sqlite3VXPrintf ext fmt l a) (sqlite3VXPrintf ext fmt l b).
Proof. intros Ha. by apply format_sim. Qed.

End Simulation.

(** ** Fuel *)

Section Fuel.
Context `{FloatText} {A : Type} `{Accum A}.

Lemma literal_le fmt t rest : literal fmt = (t, rest) -> (length rest <= length fmt)%nat.
Proof.
  revert t. induction fmt as [|c fmt IH]; cbn; intros t E; [by simplify_eq|].
  destruct (c =? 37); [by simplify_eq|]. destruct (literal fmt) as [t' r]. simplify_eq.
  specialize (IH t' eq_refl). lia.
Qed.

Lemma parse_flags_le fmt : forall f f' rest, parse_flags f fmt = (f', rest) -> (length rest <= length fmt)%nat.
Proof.
  induction fmt as [|c fmt IH]; cbn [parse_flags]; intros f f' rest E; [by simplify_eq|].
  repeat (match type of E with (if ?b then _ else _) = _ => destruct b end; [apply IH in E; cbn; lia|]).
  by simplify_eq.
Qed.

Lemma parse_number_le fmt : forall n n' rest, parse_number n fmt = (n', rest) -> (length rest <= length fmt)%nat.
Proof.
  induction fmt as [|c fmt IH]; cbn [parse_number]; intros n n' rest E; [by simplify_eq|].
  destruct (_ && _); [apply IH in E; cbn; lia|by simplify_eq].
Qed.

Lemma parse_directive_le fmt l d rest l' :
  parse_directive fmt l = Some (d, rest, l') -> (length rest <= length fmt)%nat.
Proof.
  unfold parse_directive. destruct (parse_flags _ fmt) as [f f1] eqn:E1. apply parse_flags_le in E1. intros E.
  assert (Hd : forall n (x : list Z), (length (drop n x) <= length x)%nat) by (intros; rewrite length_drop; lia).
  apply bind_Some in E as ([[[f' w] f2] l2] & E2 & E).
  assert (H2 : (length f2 <= length f1)%nat).
  { destruct (deref f1 =? 42).
    - apply bind_Some in E2 as ([v l3] & _ & E2). destruct (v <? 0); simplify_eq; apply Hd.
    - destruct (parse_number 0 f1) as [w' f3] eqn:E3. simplify_eq. by apply parse_number_le in E3. }
  apply bind_Some in E as ([[p f3] l3] & E3 & E).
  assert (H3 : (length f3 <= length f2)%nat).
  { destruct (deref f2 =? 46); [|by simplify_eq]. cbv zeta in E3. pose proof (Hd 1%nat f2).
    destruct (deref (drop 1 f2) =? 42).
    - apply bind_Some in E3 as ([v l4] & _ & E3). simplify_eq. pose proof (Hd 1%nat (drop 1 f2)). lia.
    - destruct (parse_number 0 (drop 1 f2)) as [w' f4] eqn:E4. simplify_eq. apply parse_number_le in E4. lia. }
  pose proof (Hd 1%nat f3). pose proof (Hd 1%nat (drop 1 f3)).
  destruct (deref f3 =? 108); [destruct (deref (drop 1 f3) =? 108)|]; simplify_eq; lia.
Qed.

Lemma one_directive_le ext fmt (s : state A) rest s' :
  one_directive ext fmt s = Some (inl (rest, s')) -> fmt <> [] -> (S (length rest) <= length fmt)%nat.
Proof.
  unfold one_directive. intros E Hne. apply bind_Some in E as ([[d f] l] & E1 & E). apply parse_directive_le in E1.
  destruct (find_info d.(conv)) as [i|] eqn:Ei; [|done]. destruct (_ && _); [done|].
  destruct (convert _ _ _); try done. simplify_eq. rewrite length_drop.
  destruct fmt; [done|]. cbn in *. lia.
Qed.

(** The fuel of the loop is enough: more changes nothing. *)
Lemma format_loop_enough f1 : forall f2 ext fmt (s : state A),
  (length fmt <= f1)%nat -> (length fmt <= f2)%nat -> format_loop f1 ext fmt s = format_loop f2 ext fmt s.
Proof.
  induction f1 as [|f1 IH]; intros f2 ext fmt s H1 H2; (destruct fmt as [|c fmt]; [by destruct f2|]); [cbn in H1; lia|].
  destruct f2 as [|f2]; [cbn in H2; lia|]. cbn [format_loop]. destruct (literal (c :: fmt)) as [t rest] eqn:El.
  apply literal_le in El. set (s1 := match t with [] => s | _ => _ end).
  destruct rest as [|p [|e rest]]; [done..|].
  destruct (one_directive ext (e :: rest) s1) as [[[f s2]|s2]|] eqn:Ed; cbn [mbind option_bind]; try done.
  apply one_directive_le in Ed; [|done]. cbn in *. apply IH; lia.
Qed.

End Fuel.

(** ** What the accumulators hold *)

Definition zlength {X} (l : list X) : Z := Z.of_nat (length l).

Lemma escape_length q z : zlength (escape q z) = zlength z + zlength (filter (Z.eqb q) z).
Proof.
  unfold zlength, escape. induction z as [|c z IH]; [done|]. cbn [map concat]. rewrite length_app, filter_cons.
  destruct (Z.eqb_spec c q) as [->|Hc].
  - rewrite decide_True by (by rewrite Z.eqb_refl). cbn [length]. lia.
  - rewrite decide_False by (destruct (Z.eqb_spec q c); [congruence|by intros []]). cbn [length]. lia.
Qed.

Lemma escape_length_le q z : zlength (escape q z) <= 2 * zlength z.
Proof.
  rewrite escape_length. unfold zlength. pose proof (length_filter (Z.eqb q) z). lia.
Qed.

Lemma zlength_app {X} (a b : list X) : zlength (a ++ b) = zlength a + zlength b.
Proof. unfold zlength. rewrite length_app. lia. Qed.

Lemma zlength_nonneg {X} (l : list X) : 0 <= zlength l.
Proof. unfold zlength. lia. Qed.

Lemma take_zlength {X} (l : list X) : take (Z.to_nat (zlength l)) l = l.
Proof. unfold zlength. rewrite Nat2Z.id. by apply firstn_all. Qed.

(** The first bytes of a text, for a buffer of [n]. *)
Definition fit (n : Z) (t : list Z) : list Z := take (Z.to_nat (n - 1)) t.

Lemma fit_all n t : zlength t < n -> fit n t = t.
Proof. unfold fit, zlength. intros Ht. apply take_ge. lia. Qed.

Lemma fit_app n t z : n <= zlength t + 1 -> fit n (t ++ z) = fit n t.
Proof. unfold fit, zlength. intros Hn. apply take_app_le. lia. Qed.

(** A fixed buffer of [n] bytes. *)
Definition fixed (n : Z) (p : StrAccum) (t : list Z) : Prop :=
  p.(useMalloc) = 0 /\ p.(nAlloc) = n /\ p.(zText) = Some (fit n t)
  /\ (p.(mallocFailed) = false -> p.(tooBig) = false -> p.(nChar) = zlength t /\ zlength t < n)
  /\ (p.(mallocFailed) = true \/ p.(tooBig) = true -> n <= zlength t + 1).

Definition fits_int {X} (t : list X) : Prop := zlength t < 2 ^ 31.

Definition fixed_live (n : Z) (p : StrAccum) (t : list Z) : Prop :=
  p.(allocs) = [] /\ (fits_int t -> fixed n p t /\ p.(mallocFailed) = false).
Definition fixed_text (n : Z) (p : StrAccum) (t : list Z) : Prop :=
  fits_int t -> p.(useMalloc) = 0 /\ p.(zText) = Some (fit n t).

Lemma copy_zlength p z :
  accum_copy p z (zlength z) =
  mkAccum (match p.(zText) with Some t => Some (t ++ z) | None => None end)
    p.(onBase) (p.(nChar) + zlength z) p.(nAlloc) p.(mxAlloc) p.(useMalloc) p.(tooBig) p.(mallocFailed) p.(allocs).
Proof. unfold accum_copy. by rewrite take_zlength. Qed.

Lemma sum_fits (t z : list Z) n : fits_int (t ++ z) -> n = zlength t -> i32 (n + zlength z) = zlength (t ++ z).
Proof.
  unfold fits_int. intros Hf ->. rewrite zlength_app in *. apply wrap_s_small; [lia|].
  pose proof (zlength_nonneg t). pose proof (zlength_nonneg z). unfold in_s. lia.
Qed.

Lemma next_alloc_ok p : p.(allocs) = [] -> next_alloc p = (true, p).
Proof. destruct p. cbn. by intros ->. Qed.

Lemma append_allocs (p : StrAccum) z : p.(allocs) = [] -> allocs (append p z) = [].
Proof.
  intros Ha. cbn [append StrAccum_accum]. unfold sqlite3StrAccumAppend.
  destruct (_ || _); [done|]. cbv zeta. destruct (_ =? 0); [done|]. destruct (_ >=? _); [|done].
  destruct (_ =? 0); [by destruct (_ <=? 0)|]. destruct (_ >? _); [done|].
  rewrite next_alloc_ok; done.
Qed.

Lemma fixed_append n p t z : fixed_live n p t -> fixed_live n (append p z) (append t z).
Proof.
  intros [Hal Hp]. split; [by apply append_allocs|]. intros Hf. cbn [append list_accum StrAccum_accum] in *.
  assert (Hft : fits_int t) by (unfold fits_int in *; rewrite zlength_app in Hf; pose proof (zlength_nonneg z); lia).
  destruct (Hp Hft) as [(Hu & Hn & Ht & Hlive & Hbig) Hm]. clear Hp. fold (zlength z).
  unfold sqlite3StrAccumAppend. rewrite Hm, orb_false_r. pose proof (zlength_nonneg z) as Hz0.
  destruct p.(tooBig) eqn:Eb.
  { split; [|done]. split_and!; try done.
    - rewrite fit_app; [done|]. apply Hbig. by right.
    - congruence.
    - intros _. rewrite zlength_app. specialize (Hbig (or_intror eq_refl)). lia. }
  destruct (Hlive Hm eq_refl) as [Hc Hlt]. destruct (Z.ltb_spec (zlength z) 0); [lia|].
  destruct (Z.eqb_spec (zlength z) 0) as [E0|E0].
  { assert (z = []) as -> by (destruct z; [done|unfold zlength in E0; cbn in E0; lia]).
    rewrite app_nil_r. split; [|done]. split_and!; rewrite ?Eb; done. }
  rewrite (sum_fits t z _ Hf Hc), Hn, Z.geb_leb. rewrite zlength_app.
  destruct (Z.leb_spec n (zlength t + zlength z)) as [Hle|Hgt].
  - rewrite Hu. cbn [Z.eqb]. cbn [set_tooBig nAlloc nChar]. rewrite Hc, Hn.
    assert (Hfit : fit n (t ++ z) = t ++ take (Z.to_nat (n - zlength t - 1)) z).
    { unfold fit. rewrite take_app_ge by (unfold zlength in *; lia). do 2 f_equal. unfold zlength. lia. }
    destruct (Z.leb_spec (n - zlength t - 1) 0).
    + split; [|done]. split_and!; try done.
      * cbn [zText set_tooBig]. rewrite Hfit, Ht, fit_all by lia. replace (Z.to_nat (n - zlength t - 1)) with O by lia. by rewrite take_0, app_nil_r.
      * intros _. rewrite zlength_app. lia.
    + split; [|done]. split_and!; try done.
      * cbn. rewrite Ht, fit_all by lia. by rewrite Hfit.
      * intros _. rewrite zlength_app. lia.
  - split; [|done]. rewrite copy_zlength. split_and!; try done.
    + cbn. rewrite Ht, (fit_all n t), fit_all by (rewrite ?zlength_app; lia). done.
    + intros _ _. cbn. rewrite Hc, zlength_app. lia.
    + cbn. rewrite Hm, Eb. by intros [|].
Qed.

Lemma fixed_buffer n p t k : fixed_live n p t ->
  match buffer p k, buffer t k with
  | (Some p1, _), (Some t1, _) => fixed_live n p1 t1
  | (None, p1), (None, t1) => fixed_text n p1 t1
  | _, _ => False
  end.
Proof.
  intros [Ha Hp]. cbn [buffer list_accum StrAccum_accum]. destruct (malloc_size_ok k).
  - by rewrite next_alloc_ok.
  - intros Hf. by destruct (Hp Hf) as [(? & ? & ? & _) _].
Qed.

(** An accumulator that grows up to [mx] bytes, starting on a buffer of 70. *)
Definition grown (mx : Z) (p : StrAccum) (t : list Z) : Prop :=
  if p.(tooBig) then p.(zText) = None /\ mx <= zlength t
  else p.(zText) = Some t /\ p.(nChar) = zlength t /\ zlength t < p.(nAlloc).

Definition grown_live (mx : Z) (p : StrAccum) (t : list Z) : Prop :=
  p.(allocs) = []
  /\ (fits_int t -> p.(useMalloc) <> 0 /\ p.(mxAlloc) = mx /\ p.(mallocFailed) = false /\ grown mx p t).
Definition grown_text (mx : Z) (p : StrAccum) (t : list Z) : Prop :=
  p.(allocs) = [] /\ (fits_int t -> grown mx p t).

Lemma grown_append mx p t z : grown_live mx p t -> grown_live mx (append p z) (append t z).
Proof.
  intros [Ha Hp]. split; [by apply append_allocs|]. intros Hf. cbn [append list_accum StrAccum_accum] in *.
  assert (Hft : fits_int t) by (unfold fits_int in *; rewrite zlength_app in Hf; pose proof (zlength_nonneg z); lia).
  destruct (Hp Hft) as (Hu & Hmx & Hm & Hg). clear Hp. fold (zlength z). unfold grown in *.
  unfold sqlite3StrAccumAppend. rewrite Hm, orb_false_r. pose proof (zlength_nonneg z) as Hz0.
  destruct p.(tooBig) eqn:Eb.
  { rewrite Eb, zlength_app. split_and!; try done; [apply Hg|]. destruct Hg. lia. }
  destruct Hg as (Ht & Hc & Hlt). destruct (Z.ltb_spec (zlength z) 0); [lia|].
  destruct (Z.eqb_spec (zlength z) 0) as [E0|E0].
  { assert (z = []) as -> by (destruct z; [done|unfold zlength in E0; cbn in E0; lia]).
    rewrite app_nil_r, Eb. by split_and!. }
  rewrite (sum_fits t z _ Hf Hc), Z.geb_leb. rewrite zlength_app.
  destruct (Z.leb_spec p.(nAlloc) (zlength t + zlength z)) as [Hle|Hgt].
  - destruct (Z.eqb_spec p.(useMalloc) 0); [done|]. rewrite Z.gtb_ltb, Hmx, Hc.
    destruct (Z.ltb_spec mx (zlength t + (zlength z + 1))); [cbn; split_and!; try done; lia|].
    rewrite next_alloc_ok by done. rewrite copy_zlength. cbn. rewrite Eb, Ht, Hc. split_and!; try done; lia.
  - rewrite copy_zlength. cbn. rewrite Eb, Ht, Hc. split_and!; try done; lia.
Qed.

Lemma grown_buffer mx p t k : grown_live mx p t ->
  match buffer p k, buffer t k with
  | (Some p1, _), (Some t1, _) => grown_live mx p1 t1
  | (None, p1), (None, t1) => grown_text mx p1 t1
  | _, _ => False
  end.
Proof.
  intros [Ha Hp]. cbn [buffer list_accum StrAccum_accum]. destruct (malloc_size_ok k).
  - by rewrite next_alloc_ok.
  - split; [done|]. intros Hf. by destruct (Hp Hf) as (_ & _ & _ & Hg).
Qed.

(** ** The functions return the text *)

Section Text.
Context `{FloatText}.

(** The text of a format: what [sqlite3VXPrintf] gives an accumulator that
    keeps everything. *)
Definition text_of (ext : bool) (fmt : list Z) (l : list arg) (t : list Z) : Prop :=
  exists s, sqlite3VXPrintf ext fmt l ([] : list Z) = Some s /\ s.(acc) = t.

Lemma fixed_init n : 0 < n -> fixed_live n (set_useMalloc (sqlite3StrAccumInit n 0 []) 0) [].
Proof.
  intros Hn. split; [done|]. intros _. split; [|done].
  assert (Hz : zlength (@nil Z) < n) by (unfold zlength; cbn; lia).
  split_and!; try done; [cbn; by rewrite fit_all|by intros [|]].
Qed.

Lemma snprintf_text n old fmt l t :
  text_of false fmt l t -> fits_int t -> 0 < n ->
  sqlite3_snprintf n old [] fmt l = Some (Some (fit n t)).
Proof.
  intros (s & Hs & <-) Hf Hn. unfold sqlite3_snprintf, sqlite3_vsnprintf. destruct (Z.leb_spec n 0); [lia|]. cbv zeta.
  pose proof (printf_sim (fixed_live n) (fixed_text n) (fun a b => fixed_append n a b) (fun a b k => fixed_buffer n a b k)) as Hsim.
  specialize (Hsim ltac:(intros a b [_ Hl] Hb; by destruct (Hl Hb) as [(? & ? & ? & _) _]) false fmt l _ [] (fixed_init n Hn)).
  rewrite Hs in Hsim.
  destruct (sqlite3VXPrintf false fmt l (set_useMalloc (sqlite3StrAccumInit n 0 []) 0)) as [s1|]; [|done]. cbn [mbind option_bind].
  destruct (Hsim Hf) as [Hu Ht]. unfold sqlite3StrAccumFinish. by rewrite Ht, Hu.
Qed.

Lemma grown_finish mx p t :
  grown_text mx p t -> fits_int t -> zlength t < mx ->
  (sqlite3StrAccumFinish p).1 = Some t /\ allocs (sqlite3StrAccumFinish p).2 = [].
Proof.
  intros [Ha Hg] Hf Hmx. specialize (Hg Hf). unfold grown in Hg. destruct (tooBig p); [lia|].
  destruct Hg as (Ht & _). unfold sqlite3StrAccumFinish. rewrite Ht. destruct (_ && _); [|done].
  rewrite next_alloc_ok by done. by split.
Qed.

Lemma grown_printf ext mx p fmt l t :
  grown_live mx p [] -> text_of ext fmt l t ->
  exists s, sqlite3VXPrintf ext fmt l p = Some s /\ grown_text mx s.(acc) t.
Proof.
  intros Hp (s & Hs & <-).
  pose proof (printf_sim (grown_live mx) (grown_text mx) (fun a b => grown_append mx a b) (fun a b k => grown_buffer mx a b k)) as Hsim.
  specialize (Hsim ltac:(intros a b [Ha Hl]; split; [done|]; intros Hb; by destruct (Hl Hb) as (_ & _ & _ & ?)) ext fmt l p [] Hp).
  rewrite Hs in Hsim. destruct (sqlite3VXPrintf ext fmt l p) as [s1|]; [|done]. by exists s1.
Qed.

Lemma grown_init n mx u : 0 < n -> u <> 0 -> grown_live mx (set_useMalloc (sqlite3StrAccumInit n mx []) u) [].
Proof. intros Hn Hu. split; [done|]. intros _. by split_and!. Qed.

Lemma mprintf_text mx fmt l t :
  text_of true fmt l t -> fits_int t -> zlength t < mx ->
  exists failed, sqlite3MPrintf mx [] fmt l = Some (Some t, failed, []).
Proof.
  intros Ht Hf Hmx. unfold sqlite3MPrintf, sqlite3VMPrintf.
  destruct (grown_printf true mx (sqlite3StrAccumInit SQLITE_PRINT_BUF_SIZE mx []) fmt l t) as (s & -> & Hg);
    [by apply (grown_init 70 mx 1)|done|]. cbn [mbind option_bind].
  destruct (grown_finish mx _ t Hg Hf Hmx) as [Hz Ha]. destruct (sqlite3StrAccumFinish s.(acc)) as [z p].
  cbn in Hz, Ha. subst z. rewrite Ha. by eexists.
Qed.

Lemma mprintf_all fmt l t :
  text_of false fmt l t -> fits_int t -> zlength t < SQLITE_MAX_LENGTH -> sqlite3_mprintf [] fmt l = Some (Some t).
Proof.
  intros Ht Hf Hmx. unfold sqlite3_mprintf, sqlite3_vmprintf. cbv zeta.
  destruct (grown_printf false SQLITE_MAX_LENGTH (set_useMalloc (sqlite3StrAccumInit SQLITE_PRINT_BUF_SIZE SQLITE_MAX_LENGTH []) 2)
    fmt l t) as (s & -> & Hg); [by apply grown_init|done|]. cbn [mbind option_bind].
  by rewrite (proj1 (grown_finish _ _ t Hg Hf Hmx)).
Qed.

(** C16: for a format whose text has fewer than 2^31 bytes, [sqlite3_snprintf]
    leaves the first n-1 bytes of the text in a buffer of n, and
    [sqlite3_mprintf] returns all of it when it is below SQLITE_MAX_LENGTH and
    no allocation fails. *)
Theorem printf_refines_text fmt l t :
  text_of false fmt l t -> zlength t < 2 ^ 31 ->
  (forall n old, 0 < n -> sqlite3_snprintf n old [] fmt l = Some (Some (take (Z.to_nat (n - 1)) t)))
  /\ (zlength t < SQLITE_MAX_LENGTH -> sqlite3_mprintf [] fmt l = Some (Some t)).
Proof.
  intros Ht Hf. split; [intros n old Hn; by apply snprintf_text|]. intros Hmx. by apply mprintf_all.
Qed.

End Text.

(** "%d of %q" with 5 and a quoted word, in a buffer of 7. *)
Lemma printf_refines_text_witness :
  let fmt := [37; 100; 32; 111; 102; 32; 37; 113] in
  let l := [A_int 5; A_str (Some [97; 39])] in
  @sqlite3_snprintf (fun _ _ _ => mkFloat [] None 0) 7 [] [] fmt l = Some (Some [53; 32; 111; 102; 32; 97])
  /\ @sqlite3_mprintf (fun _ _ _ => mkFloat [] None 0) [] fmt l = Some (Some [53; 32; 111; 102; 32; 97; 39; 39]).
Proof.
  intros fmt l.
  pose proof (@printf_refines_text (fun _ _ _ => mkFloat [] None 0) fmt l [53; 32; 111; 102; 32; 97; 39; 39]) as Hp.
  destruct Hp as [H1 H2]; [by eexists; split; [vm_compute; reflexivity|]|done|].
  split; [by rewrite H1|by apply H2].
Defined.
