(* ===== verification/Quote.v ===== *)
(** * What the conversions write

    The text of %lld is read back by [sqlite3Atoi64]; the text of %Q, of %q
    between quotes and of %w between double quotes is one token for
    [sqlite3GetToken], and [sqlite3Dequote] gives the argument back. *)

From S2P Require Import Prelude Ctype Ints Token TokenSpec TokenLex Printf PrintfSpec.

(** ** Rendering step by step, on the plain list of bytes *)

Section Steps.
Context `{FloatText}.

Definition render (ext : bool) (fmt : list Z) (s : state (list Z)) : option (state (list Z)) :=
  format_loop (length fmt) ext fmt s.

Lemma literal_app t rest : all (not_char 37) t -> deref rest = 37 \/ rest = [] -> literal (t ++ rest) = (t, rest).
Proof.
  intros Ht Hr. induction Ht as [|c t Hc Ht IH]; cbn [app literal].
  - destruct Hr as [Hr| ->]; [|done]. destruct rest as [|c rest]; [done|]. cbn in Hr. by subst c.
  - unfold not_char in Hc. destruct (c =? 37); [done|]. by rewrite IH.
Qed.

(** No directive left. *)
Lemma render_literal ext t s :
  all (not_char 37) t -> render ext t s = Some (set_acc s (s.(acc) ++ t)).
Proof.
  intros Ht. unfold render. destruct t as [|c t].
  - destruct s as [a l n]. cbn. unfold set_acc. cbn. by rewrite app_nil_r.
  - cbn [length format_loop]. rewrite <- (app_nil_r (c :: t)) at 1. rewrite literal_app by auto. done.
Qed.

(** A directive, after some text. *)
Lemma render_step ext t rest d f l i text s s' :
  all (not_char 37) t -> rest <> [] ->
  parse_directive rest s.(ap) = Some (d, f, l) -> find_info d.(conv) = Some i ->
  (ext = true \/ Z.land i.(iflags) FLAG_INTERN = 0) ->
  convert i d (mkState (s.(acc) ++ t) l s.(counts)) = Text text 0 s' ->
  render ext (t ++ 37 :: rest) s = render ext (drop 1 f) (set_acc s' (s'.(acc) ++ text)).
Proof.
  intros Ht Hne Hp Hi Hx Hc. unfold render.
  destruct (length (t ++ 37 :: rest)) as [|fuel] eqn:El; [by destruct t|].
  destruct (t ++ 37 :: rest) as [|c z] eqn:Ez; [done|]. cbn [format_loop]. rewrite <- Ez.
  rewrite literal_app by auto.
  set (s1 := match t with [] => s | _ => set_acc s (append s.(acc) t) end).
  assert (Hs1 : s1 = set_acc s (s.(acc) ++ t)).
  { subst s1. destruct t; [|done]. destruct s. cbn. unfold set_acc. cbn. by rewrite app_nil_r. }
  destruct rest as [|e rest]; [done|].
  assert (Hd : one_directive ext (e :: rest) s1 = Some (inl (drop 1 f, set_acc s' (s'.(acc) ++ text)))).
  { unfold one_directive. rewrite Hs1. cbn [ap set_acc]. rewrite Hp. cbn [mbind option_bind]. cbv zeta. rewrite Hi.
    replace (negb ext && negb (Z.land (iflags i) FLAG_INTERN =? 0)) with false
      by (destruct Hx as [-> | ->]; [done|]; by rewrite andb_false_r).
    change (set_ap _ l) with (mkState (s.(acc) ++ t) l s.(counts)). rewrite Hc.
    do 3 f_equal. unfold emit. cbv zeta.
    destruct (Z.ltb_spec 0 (0 - Z.of_nat (length text))); [lia|]. rewrite !andb_false_r.
    destruct text; cbn; [by rewrite app_nil_r|done]. }
  rewrite Hd. cbn [mbind option_bind]. pose proof (one_directive_le _ _ _ _ _ Hd ltac:(done)) as Hle.
  apply format_loop_enough; [|done]. rewrite <- Ez, length_app in El. cbn in El, Hle |- *. lia.
Qed.

Lemma text_of_render ext fmt l s t :
  render ext fmt (mkState [] l []) = Some s -> s.(acc) = t -> text_of ext fmt l t.
Proof. intros Hs <-. by exists s. Qed.

End Steps.

(** ** Integers *)

Lemma aDigits_decimal d : 0 <= d <= 9 -> nth (0 + Z.to_nat d) aDigits 0 = 48 + d.
Proof.
  intros Hd. assert (d = 0 \/ d = 1 \/ d = 2 \/ d = 3 \/ d = 4 \/ d = 5 \/ d = 6 \/ d = 7 \/ d = 8 \/ d = 9) as Hc by lia.
  by destruct_or! Hc; subst d.
Qed.

(** The digits of a number, most significant first. *)
Lemma radix_decimal fuel : forall v buf,
  0 <= v < 10 ^ Z.of_nat fuel ->
  exists ds, radix_loop fuel 0 10 v buf = chars ds ++ buf /\ digits ds /\ dval ds = v /\ (fuel <> O -> ds <> [])
    /\ forall k, v < 10 ^ Z.of_nat k -> (length ds <= Nat.max 1 k)%nat.
Proof.
  induction fuel as [|fuel IH]; intros v buf Hv.
  { exists []. cbn in Hv. split_and!; [done|constructor|cbn; lia|done|intros k _; cbn; lia]. }
  cbn [radix_loop]. pose proof (Z.mod_pos_bound v 10 ltac:(lia)) as Hm.
  rewrite aDigits_decimal by lia. set (d := v mod 10) in *.
  rewrite Nat2Z.inj_succ, Z.pow_succ_r in Hv by lia.
  pose proof (Z.div_mod v 10 ltac:(lia)) as Hdm. fold d in Hdm.
  destruct (Z.ltb_spec 0 (v / 10)) as [Hp|Hp].
  - destruct (IH (v / 10) (48 + d :: buf)) as (ds & -> & Hd & Hval & _ & Hl); [lia|].
    exists (ds ++ [d]). unfold chars. rewrite map_app, <- app_assoc. split_and!; [done| | |by destruct ds|].
    + apply Forall_app. split; [done|]. repeat constructor; lia.
    + rewrite Ints.dval_snoc, Hval. lia.
    + intros k Hk. rewrite length_app. cbn [length]. destruct k as [|k]; [cbn in Hk; lia|]. rewrite Nat2Z.inj_succ, Z.pow_succ_r in Hk by lia.
      specialize (Hl k ltac:(lia)). destruct k as [|k]; [cbn in Hk; lia|]. lia.
  - exists [d]. split_and!; [done|repeat constructor; lia| |done|intros k _; cbn; lia]. cbn. assert (v / 10 = 0) by (pose proof (Z.div_pos v 10); lia). lia.
Qed.

Definition decimal_text (v : Z) (t : list Z) : Prop :=
  exists s ds, t = sign_text s ++ chars ds /\ digits ds /\ ds <> [] /\ sign_val s (dval ds) = v.

Lemma convert_lld `{FloatText} (s : state (list Z)) d v l :
  in_s 64 v -> s.(ap) = A_i64 v :: l -> d = mkDirective (mkFlags false false false false false false) 0 (-1) true true 100 ->
  exists t, convert (mkInfo 100 10 1 etRADIX 0 0) d s = Text t 0 (mkState s.(acc) l s.(counts)) /\ decimal_text v t
    /\ (length t <= 20)%nat.
Proof.
  intros Hv Hap ->. unfold convert, convert_radix. cbn [itype]. rewrite Hap.
  cbn [dlong dlonglong orb int_value iflags FLAG_SIGNED dflags zeropad alternateform width precision andb].
  change (negb (Z.land 1 FLAG_SIGNED =? 0)) with true. cbv iota. unfold in_s in Hv.
  assert (Hs : exists sg, sign_text sg = (if (signed_value (mkFlags false false false false false false) v).1 =? 0 then [] else [45])
     /\ sign_val sg (signed_value (mkFlags false false false false false false) v).2 = v
     /\ 0 <= (signed_value (mkFlags false false false false false false) v).2 < 10 ^ 19
     /\ ((signed_value (mkFlags false false false false false false) v).1 = 0 \/ (signed_value (mkFlags false false false false false false) v).1 = 45)).
  { unfold signed_value. cbn [plussign blanksign]. destruct (Z.ltb_spec v 0).
    - exists Minus. cbn. destruct (Z.eqb_spec v SMALLEST_INT64) as [->|]; cbn; split_and!; auto; lia.
    - exists NoSign. cbn. split_and!; auto; lia. }
  destruct (signed_value _ v) as [pre mag]. cbn [fst snd] in Hs. destruct Hs as (sg & Hsg & Hsv & Hmag & Hpre).
  cbv zeta. change (-1 <? etBUFSIZE - 10) with true. cbv iota. unfold radix_text.
  destruct (decide (etRADIX = etORDINAL)); [done|]. cbn [charset base iprefix].
  destruct (radix_decimal 64 mag [] ltac:(lia)) as (ds & -> & Hd & Hval & Hne & Hl). rewrite app_nil_r. specialize (Hl 19%nat ltac:(lia)).
  replace (Z.to_nat (-1 - _)) with O by lia. cbn [repeat app].
  assert (Hcl : length (chars ds) = length ds) by apply length_map.
  exists (sign_text sg ++ chars ds). split.
  - change (false && negb (0 =? 0)%nat) with false. cbv iota.
    assert (Ht : (if pre =? 0 then chars ds else pre :: chars ds) = sign_text sg ++ chars ds)
      by (rewrite Hsg; by destruct Hpre as [-> | ->]).
    rewrite Ht. destruct (Z.leb_spec (Z.of_nat (length (sign_text sg ++ chars ds))) (etBUFSIZE - 1)) as [|Hlt]; [done|].
    exfalso. unfold etBUFSIZE in Hlt. rewrite length_app, Hcl, Hsg in Hlt. destruct (pre =? 0); cbn in Hlt; lia.
  - split; [exists sg, ds; split_and!; [done..|by apply Hne|by rewrite Hval]|].
    rewrite length_app, Hcl, Hsg. destruct (pre =? 0); cbn; lia.
Qed.

Section RoundTrip.
Context `{FloatText}.

(** The format "%lld". *)
Definition fmt_lld : list Z := [37; 108; 108; 100].

Lemma lld_text ext v : in_s 64 v ->
  exists t, text_of ext fmt_lld [A_i64 v] t /\ decimal_text v t /\ zlength t <= 20.
Proof.
  intros Hv.
  destruct (convert_lld (mkState [] [A_i64 v] []) _ v [] Hv eq_refl eq_refl) as (t & Hc & Ht & Hl).
  exists t. split; [|split; [done|unfold zlength; lia]].
  eapply text_of_render.
  - change fmt_lld with ([] ++ 37 :: [108; 108; 100]).
    rewrite (render_step ext [] [108; 108; 100] _ [100] [A_i64 v] _ t (mkState [] [A_i64 v] []) _
      ltac:(constructor) ltac:(done) eq_refl eq_refl (or_intror eq_refl) Hc).
    by apply render_literal.
  - cbn. by rewrite app_nil_r.
Qed.

Lemma decimal_atoi64 v t : in_s 64 v -> decimal_text v t -> sqlite3Atoi64 t SQLITE_UTF8 = (0, v).
Proof.
  intros Hv (sg & ds & -> & Hd & Hne & Hval).
  destruct (atoi64_spec [] sg ds [] ltac:(constructor) Hd Hne ltac:(split; [constructor|done])) as (Hc & Hs & _).
  cbn [app] in Hc, Hs. rewrite app_nil_r in Hc, Hs. rewrite Hval in Hs.
  unfold atoi64_code in Hc. cbn [deref Z.eqb negb] in Hc. rewrite Hval in Hc.
  assert (Hf : fits v = true) by (destruct (fits_spec v) as [|Hn]; [done|]; destruct Hn; unfold_int; lia).
  rewrite Hf in Hc. destruct (sqlite3Atoi64 _ _) as [a b]. cbn in Hc, Hs. by rewrite Hc, Hs.
Qed.

(** what %lld writes for a 64-bit integer, [sqlite3Atoi64] reads back as
    that integer, without an error. *)
Theorem printf_atoi64_roundtrip v :
  in_s 64 v -> exists t, sqlite3_mprintf [] fmt_lld [A_i64 v] = Some (Some t) /\ sqlite3Atoi64 t SQLITE_UTF8 = (0, v).
Proof.
  intros Hv. destruct (lld_text false v Hv) as (t & Ht & Hd & Hl).
  exists t. split; [|by apply decimal_atoi64].
  apply (mprintf_all fmt_lld [A_i64 v] t Ht); unfold fits_int, SQLITE_MAX_LENGTH; lia.
Qed.

(** ** Quoted text *)

Lemma escape_cstring q z : 0 < q < 256 -> cstring z -> cstring (escape q z).
Proof.
  intros Hq Hz. unfold cstring, escape in *. induction Hz as [|c z Hc Hz IH]; [constructor|]. cbn [map concat].
  apply Forall_app. split; [|done]. destruct (c =? q); repeat constructor; lia.
Qed.

(** A plain directive: no flags, no width, no precision. *)
Definition plain (c : Z) : directive :=
  mkDirective (mkFlags false false false false false false) 0 (-1) false false c.

Definition quote_of (xt : xtype) : Z := if decide (xt = etSQLESCAPE3) then 34 else 39.

Lemma convert_escape_text xt d (s : state (list Z)) z l :
  d.(precision) = -1 -> d.(width) = 0 -> s.(ap) = A_str (Some z) :: l -> 2 * zlength z + 3 < 0x7fffff00 ->
  convert_escape xt d s
  = Text (if bool_decide (xt = etSQLESCAPE2) then quote_of xt :: escape (quote_of xt) z ++ [quote_of xt] else escape (quote_of xt) z)
      0 (mkState s.(acc) l s.(counts)).
Proof.
  intros Hp Hw Hap Hz. unfold convert_escape, quote_of. rewrite Hap, Hp, Hw. cbv zeta. cbn [negb andb].
  change (-1 <? 0) with true. cbv iota. set (q := if decide _ then 34 else 39).
  pose proof (escape_length q z) as He. pose proof (escape_length_le q z) as Hle.
  set (need := bool_decide (xt = etSQLESCAPE2)). set (text := if need then q :: escape q z ++ [q] else escape q z).
  assert (Hl : Z.of_nat (length text) = zlength (escape q z) + (if need then 2 else 0)).
  { unfold text, zlength. destruct need; cbn [length]; rewrite ?length_app; cbn [length]; lia. }
  match goal with |- context [i32 ?m] => assert (Hm : m = Z.of_nat (length text) + 1) by (unfold zlength in *; lia);
    rewrite Hm, (i32_small (Z.of_nat (length text) + 1)) by (unfold zlength in *; destruct need; lia) end.
  set (n := Z.of_nat (length text) + 1) in *. rewrite Z.gtb_ltb. destruct (Z.ltb_spec etBUFSIZE n).
  - cbn [buffer list_accum acc set_ap]. replace (malloc_size_ok n) with true; [by rewrite Z.leb_refl|]. symmetry.
    assert (0 < n < 0x7fffff00) by (unfold n, zlength in *; destruct need; lia).
    unfold malloc_size_ok. rewrite Z.geb_leb. destruct (Z.leb_spec n 0); [lia|]. destruct (Z.leb_spec 0x7fffff00 n); [lia|done].
  - by rewrite (proj2 (Z.leb_le _ _)).
Qed.

(** A format, the quote it writes and the token it makes: "%Q", "'%q'" and
    "%w" between double quotes. *)
Definition quotings : list (list Z * Z * tk) :=
  [([37; 81], 39, TK_STRING); ([39; 37; 113; 39], 39, TK_STRING); ([34; 37; 119; 34], 34, TK_ID)].

Lemma quoting_text fmt q t z :
  (fmt, q, t) ∈ quotings -> 2 * zlength z + 3 < 0x7fffff00 ->
  text_of false fmt [A_str (Some z)] (q :: escape q z ++ [q]).
Proof.
  intros Hf Hz. unfold quotings in Hf. rewrite !elem_of_cons, elem_of_nil in Hf.
  set (out := q :: escape q z ++ [q]).
  assert (Hr : render false fmt (mkState [] [A_str (Some z)] []) = Some (mkState out [] [])); [|by eapply text_of_render].
  destruct_or! Hf; try done; injection Hf as -> -> ->; subst out.
  - change [37; 81] with ([] ++ 37 :: [81]).
    rewrite (render_step false [] [81] (plain 81) [81] [A_str (Some z)] (mkInfo 81 0 4 etSQLESCAPE2 0 0)
      (39 :: escape 39 z ++ [39]) (mkState [] [A_str (Some z)] []) (mkState [] [] [])); try done; [by right|].
    by apply (convert_escape_text etSQLESCAPE2).
  - change [39; 37; 113; 39] with ([39] ++ 37 :: [113; 39]).
    rewrite (render_step false [39] [113; 39] (plain 113) [113; 39] [A_str (Some z)] (mkInfo 113 0 4 etSQLESCAPE 0 0)
      (escape 39 z) (mkState [] [A_str (Some z)] []) (mkState [39] [] [])); try done;
      [by repeat constructor|by right|].
    by apply (convert_escape_text etSQLESCAPE).
  - change [34; 37; 119; 34] with ([34] ++ 37 :: [119; 34]).
    rewrite (render_step false [34] [119; 34] (plain 119) [119; 34] [A_str (Some z)] (mkInfo 119 0 4 etSQLESCAPE3 0 0)
      (escape 34 z) (mkState [] [A_str (Some z)] []) (mkState [34] [] [])); try done;
      [by repeat constructor|by right|].
    by apply (convert_escape_text etSQLESCAPE3).
Qed.

(** C26: a text written through one of the quoting conversions is one token,
    whatever follows it but another quote, and [sqlite3Dequote] of that token
    is the text. *)
Theorem printf_quote_roundtrip `{Keywords} fmt q t z :
  (fmt, q, t) ∈ quotings -> cstring z -> 2 * zlength z + 3 < SQLITE_MAX_LENGTH ->
  exists out, sqlite3_mprintf [] fmt [A_str (Some z)] = Some (Some out)
    /\ (forall r, cstring r -> deref r <> q -> sqlite3GetToken (out ++ r) = (length out, t))
    /\ sqlite3Dequote (Some out) = (zlength z, Some z).
Proof.
  intros Hf Hz Hl. exists (q :: escape q z ++ [q]).
  assert (Hq : q ∈ [39; 34; 96] /\ t = (if q =? 39 then TK_STRING else TK_ID) /\ (q, q) ∈ quote_pairs).
  { unfold quotings in Hf. rewrite !elem_of_cons, elem_of_nil in Hf. unfold quote_pairs.
    destruct_or! Hf; try done; injection Hf as -> -> ->; (split; [|split; [done|]]); rewrite !elem_of_cons; auto. }
  destruct Hq as (Hq & -> & Hpair). split_and!.
  - apply mprintf_all; [eapply quoting_text; [done|unfold SQLITE_MAX_LENGTH in Hl; lia]|..];
      unfold fits_int, SQLITE_MAX_LENGTH in *; pose proof (escape_length_le q z); pose proof (zlength_nonneg z);
      unfold zlength in *; cbn [length]; rewrite length_app; cbn [length]; lia.
  - intros r Hr Hd. apply token_accept; [by apply ta_quoted|].
    assert (Hqc : 0 < q < 256) by (in_cases Hq; lia).
    apply Forall_app. split; [|done]. apply List.Forall_cons; [done|]. apply Forall_app. split; [|by apply Forall_singleton].
    by apply escape_cstring.
  - apply (sqlite3Dequote_escape q q z []); [done|]. cbn. intros <-. in_cases Hq.
Qed.
End RoundTrip.

(** ** Instances *)

Lemma printf_atoi64_roundtrip_witness :
  in_s 64 (-9223372036854775808)
  /\ exists t, @sqlite3_mprintf (fun _ _ _ => mkFloat [] None 0) [] fmt_lld [A_i64 (-9223372036854775808)] = Some (Some t)
               /\ sqlite3Atoi64 t SQLITE_UTF8 = (0, -9223372036854775808).
Proof.
  split; [unfold in_s; lia|]. apply (@printf_atoi64_roundtrip (fun _ _ _ => mkFloat [] None 0) (-9223372036854775808)). unfold in_s. lia.
Defined.

(** "it's" through %Q. *)
Lemma printf_quote_roundtrip_witness :
  exists out, @sqlite3_mprintf (fun _ _ _ => mkFloat [] None 0) [] [37; 81] [A_str (Some [105; 116; 39; 115])] = Some (Some out)
    /\ (forall r, cstring r -> deref r <> 39 -> @sqlite3GetToken (fun _ => None) (out ++ r) = (length out, TK_STRING))
    /\ sqlite3Dequote (Some out) = (4, Some [105; 116; 39; 115]).
Proof.
  apply (@printf_quote_roundtrip (fun _ _ _ => mkFloat [] None 0) (fun _ => None) [37; 81] 39 TK_STRING [105; 116; 39; 115]).
  - unfold quotings. rewrite elem_of_cons. by left.
  - repeat constructor; lia.
  - vm_compute. reflexivity.
Defined.
