(* ===== verification/Alter.v ===== *)
(** * ALTER TABLE: renaming inside a statement (src/lmdb-backend/src/alter.c)

    The SQL functions that ALTER TABLE RENAME uses to edit the text of CREATE
    statements.  They scan the text with [sqlite3GetToken] and write the new
    one with [sqlite3MPrintf].

    A pointer into the text is an offset; reading past the terminator is
    undefined, [None].  A text argument or result is [None] when it is NULL. *)

From S2P Require Import Prelude Ctype Token TokenStream Printf.

Section Alter.
Context `{Keywords} `{FloatText}.

(** The text at an offset, which must not be past the terminator. *)
Definition text_at (zSql : list Z) (zCsr : nat) : option (list Z) :=
  if (zCsr <=? length zSql)%nat then Some (drop zCsr zSql) else None.

(** [do { zCsr += len; len = sqlite3GetToken(zCsr, &token); } while( token==TK_SPACE )]:
    the new [zCsr], [len] and [token].  White space takes at least one byte,
    so the bytes of the text bound the loop. *)
Fixpoint next_token (fuel : nat) (zSql : list Z) (zCsr len : nat) : option (nat * nat * tk) :=
  match fuel with
  | O => None
  | S fuel =>
      let zCsr := (zCsr + len)%nat in
      z ← text_at zSql zCsr;
      let '(len, token) := sqlite3GetToken z in
      if decide (token = TK_SPACE) then next_token fuel zSql zCsr len
      else Some (zCsr, len, token)
  end.

Definition next (zSql : list Z) : nat -> nat -> option (nat * nat * tk) :=
  next_token (S (S (length zSql))) zSql.

(** The loop of [renameTableFunc]: the token that a bracket or USING follows,
    or None when the input ends first. *)
Fixpoint table_loop (fuel : nat) (zSql : list Z) (zCsr len : nat) : option (option (nat * nat)) :=
  match fuel with
  | O => None
  | S fuel =>
      z ← text_at zSql zCsr;
      if deref z =? 0 then Some None
      else
        '(zCsr1, len1, token) ← next zSql zCsr len;
        if decide (token = TK_LP \/ token = TK_KW KW_USING) then Some (Some (zCsr, len))
        else table_loop fuel zSql zCsr1 len1
  end.

(** The format: precision and text, the name between double quotes, text. *)
Definition fmt_rename : list Z := [37; 46; 42; 115; 34; 37; 119; 34; 37; 115].

(** The text before the token, the quoted name and the text after it. *)
Definition replace_token (mx : Z) (mallocs : list bool) (zSql : list Z) (zName : option (list Z)) (tname : nat * nat)
    : option (option (list Z) * list bool) :=
  let '(z, n) := tname in
  zTail ← text_at zSql (z + n);
  '(zRet, _, mallocs) ← sqlite3MPrintf mx mallocs fmt_rename
    [A_int (Z.of_nat z); A_str (Some zSql); A_str zName; A_str (Some zTail)];
  Some (zRet, mallocs).

(** [mx] is the limit of the connection on the length of a text. *)
Definition renameTableFunc (mx : Z) (mallocs : list bool) (argv0 argv1 : option (list Z))
    : option (option (list Z) * list bool) :=
  match argv0 with
  | None => Some (None, mallocs)
  | Some zSql =>
      r ← table_loop (S (S (length zSql))) zSql 0 0;
      match r with
      | None => Some (None, mallocs)
      | Some tname => replace_token mx mallocs zSql argv1 tname
      end
  end.

(** The loop of [renameTriggerFunc]. *)
Fixpoint trigger_loop (fuel : nat) (zSql : list Z) (zCsr len : nat) (dist : Z) : option (option (nat * nat)) :=
  match fuel with
  | O => None
  | S fuel =>
      z ← text_at zSql zCsr;
      if deref z =? 0 then Some None
      else
        '(zCsr1, len1, token) ← next zSql zCsr len;
        let dist := dist + 1 in
        let dist := if decide (token = TK_DOT \/ token = TK_KW KW_ON) then 0 else dist in
        if decide (dist = 2 /\ (token = TK_KW KW_WHEN \/ token = TK_KW KW_FOR \/ token = TK_KW KW_BEGIN))
        then Some (Some (zCsr, len))
        else trigger_loop fuel zSql zCsr1 len1 dist
  end.

Definition renameTriggerFunc (mx : Z) (mallocs : list bool) (argv0 argv1 : option (list Z))
    : option (option (list Z) * list bool) :=
  match argv0 with
  | None => Some (None, mallocs)
  | Some zSql =>
      r ← trigger_loop (S (S (length zSql))) zSql 0 0 3;
      match r with
      | None => Some (None, mallocs)
      | Some tname => replace_token mx mallocs zSql argv1 tname
      end
  end.

(** *** Foreign keys *)

(** "%s%.*s", the name between double quotes; "%s%s". *)
Definition fmt_parent : list Z := [37; 115; 37; 46; 42; 115; 34; 37; 119; 34].
Definition fmt_both : list Z := [37; 115; 37; 115].

(** The loop of [renameParentFunc] from [z] on; [zInput] is the first byte not
    yet in [zOutput]. *)
Fixpoint parent_loop (fuel : nat) (mx : Z) (mallocs : list bool) (text : list Z) (zOld zNew : option (list Z))
    (z zInput : nat) (zOutput : option (list Z)) : option (nat * option (list Z) * list bool) :=
  match fuel with
  | O => None
  | S fuel =>
      zt ← text_at text z;
      if deref zt =? 0 then Some (zInput, zOutput, mallocs)
      else
        let '(n, token) := sqlite3GetToken zt in
        if decide (token = TK_KW KW_REFERENCES) then
          '(z, n, _) ← next text z n;
          let ok := match mallocs with [] => true | b :: _ => b end in
          let mallocs := tail mallocs in
          if ok then
            let zParent := match sqlite3Dequote (Some (take n (drop z text))) with (_, Some p) => p | (_, None) => [] end in
            old ← zOld;
            if sqlite3_stricmp old zParent =? 0 then
              zIn ← text_at text zInput;
              '(zOut, _, mallocs) ← sqlite3MPrintf mx mallocs fmt_parent
                [A_str (Some (default [] zOutput)); A_int (Z.of_nat (z - zInput)); A_str (Some zIn); A_str zNew];
              parent_loop fuel mx mallocs text zOld zNew (z + n) (z + n) zOut
            else parent_loop fuel mx mallocs text zOld zNew (z + n) zInput zOutput
          else Some (zInput, zOutput, mallocs)
        else parent_loop fuel mx mallocs text zOld zNew (z + n) zInput zOutput
  end.

Definition renameParentFunc (mx : Z) (mallocs : list bool) (argv0 argv1 argv2 : option (list Z))
    : option (option (list Z) * list bool) :=
  text ← argv0;
  '(zInput, zOutput, mallocs) ← parent_loop (S (length text)) mx mallocs text argv1 argv2 0 0 None;
  zIn ← text_at text zInput;
  '(zResult, _, mallocs) ← sqlite3MPrintf mx mallocs fmt_both [A_str (Some (default [] zOutput)); A_str (Some zIn)];
  Some (zResult, mallocs).

End Alter.
