(* ===== verification/AlterSpec.v ===== *)
(** * Renaming replaces one token

    [renameTableFunc] and [renameTriggerFunc] put the quoted new name in the
    place of one token of the statement and copy every other byte;
    [renameParentFunc] does so for every reference to the renamed table. *)

From S2P Require Import Prelude Ctype Token TokenSpec TokenLex TokenStream Printf PrintfSpec Quote Alter.

(** ** The text a rename writes *)

Lemma strlen_loop_length z : forall n, strlen_loop z n = n + zlength z.
Proof.
  induction z as [|c z IH]; intros n; cbn; [unfold zlength; cbn; lia|]. rewrite IH. unfold zlength. cbn [length]. lia.
Qed.

Lemma strlen30_length z : zlength z < 2 ^ 30 -> sqlite3Strlen30 (Some z) = zlength z.
Proof.
  intros Hz. unfold sqlite3Strlen30. rewrite strlen_loop_length. pose proof (zlength_nonneg z).
  rewrite wrap_s_small by (lia || (unfold in_s; lia)). rewrite Z.land_comm.
  change 0x3fffffff with (2 ^ 30 - 1). rewrite land_ones_mod by lia. apply Z.mod_small. lia.
Qed.

Section Render.
Context `{FloatText}.

Lemma convert_string_all d (s : state (list Z)) z l :
  d.(precision) = -1 -> d.(width) = 0 -> s.(ap) = A_str (Some z) :: l -> zlength z < 2 ^ 30 ->
  convert_string d s = Text z 0 (mkState s.(acc) l s.(counts)).
Proof.
  intros Hp Hw Ha Hz. unfold convert_string. rewrite Ha, Hp, Hw. change (0 <=? -1) with false. cbv iota.
  by rewrite strlen30_length, take_zlength.
Qed.

Lemma convert_string_take d (s : state (list Z)) z l (n : nat) :
  d.(precision) = Z.of_nat n -> d.(width) = 0 -> s.(ap) = A_str (Some z) :: l ->
  convert_string d s = Text (take n z) 0 (mkState s.(acc) l s.(counts)).
Proof.
  intros Hp Hw Ha. unfold convert_string. rewrite Ha, Hp, Hw.
  destruct (Z.leb_spec 0 (Z.of_nat n)); [|lia]. by rewrite Nat2Z.id.
Qed.

(** Without flags, width or modifier: %.*s. *)
Definition star (n : nat) : directive :=
  mkDirective (mkFlags false false false false false false) 0 (Z.of_nat n) false false 115.

Lemma parse_star n rest l :
  parse_directive (46 :: 42 :: 115 :: rest) (A_int (Z.of_nat n) :: l) = Some (star n, 115 :: rest, l).
Proof.
  unfold parse_directive. cbn. destruct (Z.ltb_spec (Z.of_nat n) 0); [lia|]. done.
Qed.

(** One step of a format: "%s", "%.*s" and "%w". *)
Lemma render_s ext t rest a z l c :
  all (not_char 37) t -> zlength z < 2 ^ 30 ->
  render ext (t ++ 37 :: 115 :: rest) (mkState a (A_str (Some z) :: l) c) = render ext rest (mkState (a ++ t ++ z) l c).
Proof.
  intros Ht Hz.
  rewrite (render_step ext t (115 :: rest) (plain 115) (115 :: rest) (A_str (Some z) :: l) (mkInfo 115 0 4 etSTRING 0 0) z
    (mkState a (A_str (Some z) :: l) c) (mkState (a ++ t) l c)); try done; [|by right|].
  - cbn [drop]. rewrite drop_0. unfold set_acc. cbn [acc ap counts]. by rewrite app_assoc.
  - by apply convert_string_all.
Qed.

Lemma render_star ext t rest a n z l c :
  all (not_char 37) t ->
  render ext (t ++ 37 :: 46 :: 42 :: 115 :: rest) (mkState a (A_int (Z.of_nat n) :: A_str (Some z) :: l) c)
  = render ext rest (mkState (a ++ t ++ take n z) l c).
Proof.
  intros Ht.
  rewrite (render_step ext t (46 :: 42 :: 115 :: rest) (star n) (115 :: rest) (A_str (Some z) :: l) (mkInfo 115 0 4 etSTRING 0 0)
    (take n z) (mkState a (A_int (Z.of_nat n) :: A_str (Some z) :: l) c) (mkState (a ++ t) l c));
    try done; [|apply parse_star|by right|].
  - cbn [drop]. rewrite drop_0. unfold set_acc. cbn [acc ap counts]. by rewrite app_assoc.
  - by apply convert_string_take.
Qed.

Lemma render_w ext t rest a z l c :
  all (not_char 37) t -> 2 * zlength z + 3 < 0x7fffff00 ->
  render ext (t ++ 37 :: 119 :: rest) (mkState a (A_str (Some z) :: l) c)
  = render ext rest (mkState (a ++ t ++ escape 34 z) l c).
Proof.
  intros Ht Hz.
  rewrite (render_step ext t (119 :: rest) (plain 119) (119 :: rest) (A_str (Some z) :: l) (mkInfo 119 0 4 etSQLESCAPE3 0 0)
    (escape 34 z) (mkState a (A_str (Some z) :: l) c) (mkState (a ++ t) l c)); try done; [|by right|].
  - cbn [drop]. rewrite drop_0. unfold set_acc. cbn [acc ap counts]. by rewrite app_assoc.
  - by apply (convert_escape_text etSQLESCAPE3).
Qed.

Definition quoted (name : list Z) : list Z := 34 :: escape 34 name ++ [34].

Lemma rename_text n sql name rest :
  2 * zlength name + 3 < 0x7fffff00 -> zlength rest < 2 ^ 30 ->
  text_of true fmt_rename [A_int (Z.of_nat n); A_str (Some sql); A_str (Some name); A_str (Some rest)]
    (take n sql ++ quoted name ++ rest).
Proof.
  intros Hn Hr. unfold fmt_rename.
  eapply (text_of_render _ _ _ (mkState (take n sql ++ quoted name ++ rest) [] [])); [|done].
  rewrite (render_star true [] [34; 37; 119; 34; 37; 115]) by constructor.
  rewrite (render_w true [34] [34; 37; 115]) by (done || by repeat constructor).
  rewrite (render_s true [34] []) by (done || by repeat constructor).
  rewrite render_literal by constructor. unfold set_acc, quoted. cbn [acc ap counts app]. rewrite app_nil_r.
  by rewrite <- !app_assoc.
Qed.

End Render.

(** ** Offsets into the token stream *)

Section Scan.
Context `{Keywords}.

Definition texts (ts : list (tk * list Z)) : list Z := concat (map snd ts).

Lemma texts_app a b : texts (a ++ b) = texts a ++ texts b.
Proof. unfold texts. by rewrite map_app, concat_app. Qed.

Definition legal (ts : list (tk * list Z)) : Prop := Forall (fun tok => tok.1 <> TK_ILLEGAL) ts.

(** The tokens from an offset on. *)
Lemma tokens_suffix pre : forall z rest,
  cstring z -> legal pre -> tokens z = pre ++ rest ->
  z = texts pre ++ texts rest /\ cstring (texts rest) /\ tokens (texts rest) = rest.
Proof.
  induction pre as [|[t s] pre IH]; intros z rest Hz Hl Ht.
  - cbn in *. rewrite <- Ht. unfold texts. rewrite tokens_concat by done. done.
  - apply Forall_cons in Hl as [Hl0 Hl]. cbn in Ht.
    destruct (tokens_inv z t s (pre ++ rest) Hz Ht Hl0) as (r & -> & _ & Hr & Hts).
    destruct (IH r rest Hr Hl (eq_sym Hts)) as (Hx & Hc & Hrest).
    split; [|done]. rewrite Hx at 1. unfold texts. cbn [map concat snd]. by rewrite <- app_assoc.
Qed.

Lemma text_at_tokens zSql pre rest :
  cstring zSql -> legal pre -> tokens zSql = pre ++ rest ->
  text_at zSql (length (texts pre)) = Some (texts rest).
Proof.
  intros Hz Hl Ht. destruct (tokens_suffix pre zSql rest Hz Hl Ht) as (-> & _ & _). unfold text_at.
  rewrite length_app. destruct (Nat.leb_spec (length (texts pre)) (length (texts pre) + length (texts rest))); [|lia].
  by rewrite drop_app_length.
Qed.

Lemma get_token_head t s rest :
  t <> TK_ILLEGAL -> cstring (texts ((t, s) :: rest)) -> tokens (texts ((t, s) :: rest)) = (t, s) :: rest ->
  sqlite3GetToken (texts ((t, s) :: rest)) = (length s, t) /\ (0 < length s)%nat.
Proof.
  intros Ht Hc Hts. destruct (tokens_inv _ _ _ _ Hc Hts Ht) as (r & Heq & Hta & Hr & _). rewrite Heq.
  split; [apply token_accept; [done|by rewrite <- Heq]|by eapply token_nonempty].
Qed.

(** [next] skips the white space and stops at the next token. *)
Lemma next_token_skip sp : forall fuel zSql pre zCsr len t s rest,
  cstring zSql -> legal (pre ++ sp ++ [(t, s)]) -> tokens zSql = pre ++ sp ++ (t, s) :: rest ->
  Forall (fun tok => tok.1 = TK_SPACE) sp -> t <> TK_SPACE ->
  (zCsr + len)%nat = length (texts pre) -> (length sp < fuel)%nat ->
  next_token fuel zSql zCsr len = Some (length (texts (pre ++ sp)), length s, t).
Proof.
  induction sp as [|[u w] sp IH]; intros fuel zSql pre zCsr len t s rest Hz Hl Hts Hsp Ht Hoff Hf;
    (destruct fuel as [|fuel]; [cbn in Hf; lia|]); cbn [next_token]; rewrite Hoff.
  - cbn [app] in Hts. apply Forall_app in Hl as [Hl1 Hl2]. apply Forall_cons in Hl2 as [Hl2 _].
    rewrite (text_at_tokens zSql pre ((t, s) :: rest)) by done. cbn [mbind option_bind].
    destruct (tokens_suffix pre zSql _ Hz Hl1 Hts) as (_ & Hc & Hrest).
    destruct (get_token_head t s rest Hl2 Hc Hrest) as [-> _].
    destruct (decide (t = TK_SPACE)); [done|]. by rewrite app_nil_r.
  - apply Forall_cons in Hsp as [Hu Hsp]. cbn in Hu. subst u.
    apply Forall_app in Hl as [Hl1 Hl2]. cbn [app] in Hts, Hl2.
    rewrite (text_at_tokens zSql pre ((TK_SPACE, w) :: sp ++ (t, s) :: rest)) by done. cbn [mbind option_bind].
    destruct (tokens_suffix pre zSql _ Hz Hl1 Hts) as (_ & Hc & Hrest).
    destruct (get_token_head TK_SPACE w _ ltac:(done) Hc Hrest) as [-> _].
    destruct (decide (TK_SPACE = TK_SPACE)); [|done].
    change ((TK_SPACE, w) :: sp ++ (t, s) :: rest) with ([(TK_SPACE, w)] ++ sp ++ (t, s) :: rest) in Hts.
    rewrite app_assoc in Hts.
    rewrite (IH fuel zSql (pre ++ [(TK_SPACE, w)]) _ _ t s rest); try done.
    + by rewrite <- app_assoc.
    + rewrite <- app_assoc. by apply Forall_app.
    + rewrite texts_app, length_app. unfold texts at 3. cbn. rewrite app_nil_r. lia.
    + cbn in Hf. lia.
Qed.

Lemma tokens_length z : cstring z -> (length (tokens z) <= length z)%nat.
Proof.
  apply (tokens_ind (fun z ts => (length ts <= length z)%nat)); [done|].
  intros z' n t Hz Hne _ Hn IH. cbn. rewrite length_drop in IH. destruct z'; [done|]. cbn in *. lia.
Qed.

Lemma next_skip zSql pre sp zCsr len t s rest :
  cstring zSql -> legal (pre ++ sp ++ [(t, s)]) -> tokens zSql = pre ++ sp ++ (t, s) :: rest ->
  Forall (fun tok => tok.1 = TK_SPACE) sp -> t <> TK_SPACE -> (zCsr + len)%nat = length (texts pre) ->
  next zSql zCsr len = Some (length (texts (pre ++ sp)), length s, t).
Proof.
  intros Hz Hl Hts Hsp Ht Hoff. eapply next_token_skip; try done.
  pose proof (tokens_length zSql Hz) as Hn. rewrite Hts, !length_app in Hn. cbn in Hn. lia.
Qed.

(** The white space at the head of a list of tokens. *)
Lemma split_spaces (q : list (tk * list Z)) :
  Forall (fun tok => tok.1 = TK_SPACE) q
  \/ exists sp t s q', q = sp ++ (t, s) :: q' /\ Forall (fun tok => tok.1 = TK_SPACE) sp /\ t <> TK_SPACE.
Proof.
  induction q as [|[t s] q IH]; [left; constructor|]. destruct (decide (t = TK_SPACE)) as [->|Ht].
  - destruct IH as [IH|(sp & t & w & q' & -> & Hsp & Ht)]; [left; by apply List.Forall_cons|].
    right. exists ((TK_SPACE, s) :: sp), t, w, q'. split; [done|]. split; [by apply List.Forall_cons|done].
  - right. by exists [], t, s, q.
Qed.

(** ** CREATE TABLE *)

Definition opens (t : tk) : Prop := t = TK_LP \/ t = TK_KW KW_USING.
Definition inner (tok : tk * list Z) : Prop := ~ opens tok.1 /\ tok.1 <> TK_ILLEGAL.

Lemma deref_texts t s rest :
  t <> TK_ILLEGAL -> cstring (texts ((t, s) :: rest)) -> tokens (texts ((t, s) :: rest)) = (t, s) :: rest ->
  deref (texts ((t, s) :: rest)) <> 0.
Proof.
  intros Ht Hc Hts. destruct (get_token_head t s rest Ht Hc Hts) as [_ Hl].
  destruct s as [|c s]; [cbn in Hl; lia|]. cbn. cbn in Hc. apply Forall_cons in Hc as [Hc _]. lia.
Qed.

Lemma table_loop_here fuel zSql pre sp zCsr len u w post :
  cstring zSql -> legal (pre ++ sp ++ [(u, w)]) -> tokens zSql = pre ++ sp ++ (u, w) :: post ->
  Forall (fun tok => tok.1 = TK_SPACE) sp -> opens u -> (zCsr + len)%nat = length (texts pre) ->
  (exists z, text_at zSql zCsr = Some z /\ deref z <> 0) ->
  table_loop (S fuel) zSql zCsr len = Some (Some (zCsr, len)).
Proof.
  intros Hz Hl Hts Hsp Hu Hoff (z & Hat & Hd). cbn [table_loop]. rewrite Hat. cbn [mbind option_bind].
  destruct (Z.eqb_spec (deref z) 0); [done|].
  rewrite (next_skip zSql pre sp zCsr len u w post) by (done || by intros ->; destruct Hu). cbn [mbind option_bind].
  by destruct (decide _).
Qed.

Lemma inner_legal q : Forall inner q -> legal q.
Proof. intros Hq. by apply (Forall_impl _ _ _ Hq); intros ? []. Qed.

Lemma spaces_legal sp : Forall (fun tok : tk * list Z => tok.1 = TK_SPACE) sp -> legal sp.
Proof. intros Hq. apply (Forall_impl _ _ _ Hq). by intros ? ->. Qed.

Lemma token_here zSql pre t s rest :
  cstring zSql -> legal pre -> t <> TK_ILLEGAL -> tokens zSql = pre ++ (t, s) :: rest ->
  exists z, text_at zSql (length (texts pre)) = Some z /\ deref z <> 0.
Proof.
  intros Hz Hl Ht Hts. exists (texts ((t, s) :: rest)). split; [by apply text_at_tokens|].
  destruct (tokens_suffix pre zSql _ Hz Hl Hts) as (_ & Hc & Hrest). by apply deref_texts.
Qed.

Lemma texts_snoc pre t s : length (texts (pre ++ [(t, s)])) = (length (texts pre) + length s)%nat.
Proof. rewrite texts_app, length_app. unfold texts at 2. cbn. by rewrite app_nil_r. Qed.

(** One turn of the loop: the next token does not open the body. *)
Lemma table_loop_next fuel zSql pre sp zCsr len t s rest :
  cstring zSql -> legal pre -> Forall (fun tok => tok.1 = TK_SPACE) sp -> inner (t, s) -> t <> TK_SPACE ->
  tokens zSql = pre ++ sp ++ (t, s) :: rest ->
  (zCsr + len)%nat = length (texts pre) -> (exists z, text_at zSql zCsr = Some z /\ deref z <> 0) ->
  table_loop (S fuel) zSql zCsr len = table_loop fuel zSql (length (texts (pre ++ sp))) (length s).
Proof.
  intros Hz Hl Hsp [Hno Hleg] Ht Hts Hoff (z & Hat & Hd). cbn [table_loop]. rewrite Hat. cbn [mbind option_bind].
  destruct (Z.eqb_spec (deref z) 0); [done|].
  rewrite (next_skip zSql pre sp zCsr len t s rest); try done; cycle 1.
  { apply Forall_app. split; [done|]. apply Forall_app. split; [by apply spaces_legal|by apply Forall_singleton]. }
  cbn [mbind option_bind]. by destruct (decide _).
Qed.

Lemma table_loop_spec (n : nat) : forall q fuel zSql pre zCsr len t s sp u w post,
  (length q < n)%nat -> cstring zSql -> legal pre -> tokens zSql = pre ++ q ++ (t, s) :: sp ++ (u, w) :: post ->
  Forall inner (q ++ [(t, s)]) -> t <> TK_SPACE -> Forall (fun tok => tok.1 = TK_SPACE) sp -> opens u ->
  (zCsr + len)%nat = length (texts pre) -> (exists z, text_at zSql zCsr = Some z /\ deref z <> 0) ->
  (S (length q) < fuel)%nat ->
  table_loop fuel zSql zCsr len = Some (Some (length (texts (pre ++ q)), length s)).
Proof.
  induction n as [|n IH]; intros q fuel zSql pre zCsr len t s sp u w post Hq Hz Hl Hts Hin Ht Hsp Hu Hoff Hat Hf; [lia|].
  destruct fuel as [|fuel]; [lia|]. pose proof Hin as [Hin1 Hin2]%Forall_app. apply Forall_cons in Hin2 as [Hin2 _].
  assert (Hlu : u <> TK_ILLEGAL) by (by intros ->; destruct Hu).
  destruct (split_spaces q) as [Hqs|(sp0 & t1 & s1 & q' & -> & Hsp0 & Ht1)].
  - rewrite (table_loop_next fuel zSql pre q zCsr len t s (sp ++ (u, w) :: post)) by done.
    destruct fuel as [|fuel]; [lia|].
    assert (Hts' : tokens zSql = ((pre ++ q) ++ [(t, s)]) ++ sp ++ (u, w) :: post) by (by rewrite <- !app_assoc).
    assert (Hl' : legal (pre ++ q)) by (apply Forall_app; split; [done|by apply spaces_legal]).
    apply (table_loop_here fuel zSql ((pre ++ q) ++ [(t, s)]) sp _ _ u w post); try done.
    + apply Forall_app. split; [apply Forall_app; split; [done|apply Forall_singleton, Hin2]|].
      apply Forall_app. split; [by apply spaces_legal|by apply Forall_singleton].
    + by rewrite texts_snoc.
    + apply (token_here zSql (pre ++ q) t s (sp ++ (u, w) :: post)); [done..|apply Hin2|by rewrite Hts', <- app_assoc].
  - rewrite <- app_assoc in Hts. cbn [app] in Hts.
    assert (Hin' : inner (t1, s1) /\ Forall inner q').
    { apply Forall_app in Hin1 as [_ Hin1]. by apply Forall_cons in Hin1. }
    destruct Hin' as [Hi1 Hiq].
    rewrite (table_loop_next fuel zSql pre sp0 zCsr len t1 s1 (q' ++ (t, s) :: sp ++ (u, w) :: post)) by done.
    assert (Hl0 : legal (pre ++ sp0)) by (apply Forall_app; split; [done|by apply spaces_legal]).
    rewrite (IH q' fuel zSql ((pre ++ sp0) ++ [(t1, s1)]) _ _ t s sp u w post); try done.
    + do 4 f_equal. by rewrite <- !app_assoc.
    + rewrite length_app in Hq. cbn in Hq. lia.
    + apply Forall_app. split; [done|apply Forall_singleton, Hi1].
    + by rewrite <- !app_assoc.
    + apply Forall_app. split; [done|by apply Forall_singleton].
    + by rewrite texts_snoc.
    + apply (token_here zSql (pre ++ sp0) t1 s1 (q' ++ (t, s) :: sp ++ (u, w) :: post)); [done..|apply Hi1|by rewrite <- app_assoc].
    + rewrite length_app in Hf. cbn in Hf. lia.
Qed.

(** ** A token can be replaced *)

(** What follows a token matters only for its first bytes. *)
Lemma token_at_next t s r r' :
  token_at t s r -> deref r' = deref r -> (deref r = 58 -> at_ r' 1 = at_ r 1) -> (r = [] <-> r' = []) ->
  (r = [42] -> r' = [42]) -> token_at t s r'.
Proof.
  intros Ht Hd H1 Hnil H42.
  destruct Ht as [t s r Ho Hr|c s r Hc Hs Hr|s r Hs Hr|s r Hs|s Hne Hs|q s r Hq Hr|s r Hs|ds r Hne Ha Hr H46
    |a b x r Hne Ha Hb' Hx Hr|a x r Hne Ha Hx Hr|ds r Ha Hr|ds r Hne Ha Hr|c n s t r Hc Ha Hs Ht Hr|c ds r Hc Ha He
    |c s r Hc Ha H36 Hs Hr Hx].
  - apply ta_op; [done|]. revert Ho Hr. unfold operators. rewrite !elem_of_cons, elem_of_nil.
    intros Ho. destruct_or! Ho; simplify_eq; cbn; rewrite ?Hd; auto. intros [?| ->]; [auto|]. right. by apply H42.
  - apply ta_space; congruence.
  - apply ta_line; [done|]. destruct Hr as [->|Hr]; [left; by apply Hnil|right; congruence].
  - by apply ta_block.
  - rewrite (proj1 Hnil eq_refl). by apply ta_block_open.
  - apply ta_quoted; congruence.
  - by apply ta_bracket.
  - apply ta_integer; congruence.
  - apply ta_point; congruence.
  - apply ta_exponent; congruence.
  - apply ta_number_param; congruence.
  - apply ta_register; congruence.
  - eapply ta_param; try done. intros Ht0. destruct (Hr Ht0) as (Hi & H40 & H58).
    rewrite Hd. split_and!; [done..|]. intros E. rewrite (H1 E). by apply H58.
  - by apply ta_blob.
  - apply ta_word; try done; rewrite Hd; done.
Qed.

(** A lexeme that begins with a colon has a second byte. *)
Lemma colon_length t s r : token_at t s r -> deref s = 58 -> (2 <= length s)%nat.
Proof.
  intros [t' s' r' Ho _|c s' r' Hc| | | |q s' r' Hq| |ds r' Hne Hds|a b x r' Hne Ha|a x r' Hne Ha| | |c n s' t' r' _ _ Hn| |c s' r' Hc];
    cbn; try done; try lia; intros E.
  - revert Ho. unfold operators. rewrite !elem_of_cons, elem_of_nil. intros Ho. by destruct_or! Ho; simplify_eq.
  - subst c. in_cases Hc.
  - subst q. in_cases Hq.
  - destruct ds as [|d ds]; [done|]. cbn in E. subst d. by apply Forall_cons in Hds as [? _].
  - destruct a as [|d a]; [done|]. cbn in E. subst d. by apply Forall_cons in Ha as [? _].
  - destruct a as [|d a]; [done|]. cbn in E. subst d. by apply Forall_cons in Ha as [? _].
  - inversion Hn; subst; cbn; rewrite ?length_app; cbn; lia.
  - by subst c.
Qed.

(** A separator: white space or a period. *)
Definition separator (tok : tk * list Z) : Prop :=
  tok = (TK_DOT, [46]) \/ (tok.1 = TK_SPACE /\ deref tok.2 ∈ [32; 9; 10; 12; 13]).

Lemma separator_quote t s r name : separator (t, s) -> token_at t s r -> token_at t s (34 :: name).
Proof.
  intros [[= -> ->]|[Ht Hs]] Hta; [apply ta_op; [unfold operators; set_solver|done]|]. cbn in Ht, Hs. subst t.
  inversion Hta as [t s' r' Ho Hr|c s' r' Hc Hsp Hr|s' r' Hsp Hr|s' r' Hsp|s' Hne Hsp|q s' r' Hq Hr| | | | | | | | |c s' r' Hc Ha H36 Hsp Hr Hx]; subst.
  - revert Ho. unfold operators. rewrite !elem_of_cons, elem_of_nil. intros Ho. by destruct_or! Ho.
  - by apply ta_space.
  - cbn in Hs. in_cases Hs.
  - by apply ta_block.
  - cbn in Hs. in_cases Hs.
  - by destruct (q =? 39).
  - unfold keywordCode in *. by destruct (keyword _).
Qed.

(** Behind whole tokens, what follows may change. *)
Lemma token_at_replace t0 s0 X Y y :
  legal X -> X <> [] -> Y <> [] -> legal (take 1 Y) -> cstring (texts (X ++ Y)) -> tokens (texts (X ++ Y)) = X ++ Y -> y <> [] ->
  token_at t0 s0 (texts X ++ texts Y) -> token_at t0 s0 (texts X ++ y).
Proof.
  intros Hl HX HY HlY Hc Hts Hy Hta. destruct X as [|[t1 s1] X]; [done|]. apply Forall_cons in Hl as [Hl1 Hl].
  cbn [app] in Hts. destruct (tokens_inv _ t1 s1 (X ++ Y) Hc Hts Hl1) as (r & Heq & Ht1 & Hr & Hrest).
  pose proof (token_nonempty _ _ _ Ht1) as Hn1. pose proof (colon_length _ _ _ Ht1) as Hn2.
  unfold texts at 1 in Hta. unfold texts at 1. cbn [map concat snd] in *. fold (texts X) in *. rewrite <- app_assoc in *.
  destruct s1 as [|c [|d s1]]; [cbn in Hn1; lia| |].
  - apply (token_at_next t0 s0 _ _ Hta); try done; cbn [app deref].
    + intros ->. specialize (Hn2 eq_refl). cbn in Hn2. lia.
    + intros [= _ E]. exfalso. apply app_nil in E as [E1 E2].
      destruct Y as [|[t2 s2] Y]; [done|]. apply Forall_cons in HlY as [HlY _].
      assert (r = texts (X ++ (t2, s2) :: Y)) as -> by (unfold texts in Heq |- *; cbn in Heq; by injection Heq).
      rewrite texts_app, E1, E2 in Hrest. rewrite tokens_nil in Hrest. by destruct X.
  - apply (token_at_next t0 s0 _ _ Hta); try done; cbn [app deref]; done.
Qed.

Lemma tokens_replace pre : forall sep t s rest name,
  legal (pre ++ [sep; (t, s)]) -> cstring (texts (pre ++ sep :: (t, s) :: rest)) ->
  tokens (texts (pre ++ sep :: (t, s) :: rest)) = pre ++ sep :: (t, s) :: rest ->
  separator sep -> cstring (34 :: name) -> token_at TK_ID (34 :: name) (texts rest) ->
  tokens (texts (pre ++ [sep]) ++ 34 :: name ++ texts rest) = pre ++ sep :: (TK_ID, 34 :: name) :: rest.
Proof.
  induction pre as [|[t0 s0] pre IH]; intros sep t s rest name Hl Hz Hts Hsep Hname Hid.
  - destruct sep as [t1 s1]. cbn [app] in *. apply Forall_cons in Hl as [Hl1 Hl].
    destruct (tokens_inv _ t1 s1 _ Hz Hts Hl1) as (r & Heq & Hta & Hr & Hr').
    assert (Hc1 : cstring s1) by (rewrite Heq in Hz; by apply Forall_app in Hz as [? _]).
    assert (r = texts ((t, s) :: rest)) as -> by (unfold texts in Heq |- *; cbn in Heq; by apply app_inv_head in Heq).
    apply Forall_cons in Hl as [Hl2 _].
    destruct (tokens_inv _ t s rest Hr (eq_sym Hr') Hl2) as (r2 & Heq2 & _ & Hc2 & Hrest).
    assert (r2 = texts rest) as -> by (unfold texts in Heq2 |- *; cbn in Heq2; by apply app_inv_head in Heq2).
    unfold texts at 1. cbn [map concat snd]. rewrite app_nil_r.
    rewrite (tokens_app t1 s1 (34 :: name ++ texts rest)).
    + f_equal. change (34 :: name ++ texts rest) with ((34 :: name) ++ texts rest).
      rewrite (tokens_app TK_ID); [by rewrite <- Hrest|done|]. by apply Forall_app.
    + by eapply separator_quote.
    + apply Forall_app. split; [done|]. change (34 :: name ++ texts rest) with ((34 :: name) ++ texts rest). by apply Forall_app.
  - cbn [app] in *. apply Forall_cons in Hl as [Hl1 Hl].
    destruct (tokens_inv _ t0 s0 _ Hz Hts Hl1) as (r & Heq & Hta & Hr & Hr').
    assert (Hc1 : cstring s0) by (rewrite Heq in Hz; by apply Forall_app in Hz as [? _]).
    assert (r = texts (pre ++ sep :: (t, s) :: rest)) as ->
      by (unfold texts in Heq |- *; cbn in Heq; by apply app_inv_head in Heq).
    specialize (IH sep t s rest name Hl Hr (eq_sym Hr') Hsep Hname Hid).
    unfold texts at 1. cbn [map concat snd]. rewrite <- app_assoc. fold (texts (pre ++ [sep])).
    rewrite (tokens_app t0 s0); [by rewrite IH| |].
    + assert (Hsplit : pre ++ sep :: (t, s) :: rest = (pre ++ [sep]) ++ (t, s) :: rest) by (by rewrite <- app_assoc).
      rewrite Hsplit in Hta, Hr, Hr'. rewrite texts_app in Hta.
      apply (token_at_replace t0 s0 (pre ++ [sep]) ((t, s) :: rest)); try done.
      * apply Forall_app in Hl as [Hla Hlb]. apply Forall_cons in Hlb as [Hlb _]. apply Forall_app. split; [done|by apply Forall_singleton].
      * by destruct pre.
      * apply Forall_app in Hl as [_ Hlb]. apply Forall_cons in Hlb as [_ Hlb]. exact Hlb.
    + apply Forall_app. split; [done|]. apply Forall_app. split.
      * replace (pre ++ sep :: (t, s) :: rest) with ((pre ++ [sep]) ++ (t, s) :: rest) in Hr by (by rewrite <- app_assoc).
        rewrite texts_app in Hr. by apply Forall_app in Hr as [? _].
      * change (34 :: name ++ texts rest) with ((34 :: name) ++ texts rest). apply Forall_app. split; [done|].
        replace (pre ++ sep :: (t, s) :: rest) with ((pre ++ [sep; (t, s)]) ++ rest) in Hr by (by rewrite <- app_assoc).
        rewrite texts_app in Hr. by apply Forall_app in Hr as [_ ?].
Qed.
End Scan.

(** ** The table function *)

Lemma head_not_quote `{Keywords} t s r : token_at t s r -> t = TK_SPACE \/ opens t -> deref (s ++ r) <> 34.
Proof.
  intros [t' s' r' Ho _|c s' r' Hc| | | |q s' r' Hq| |ds r' Hne Hds| | | | | | |c s' r' Hc] Hk; cbn; try done;
    try (by destruct Hk as [|[|]]).
  - revert Ho. unfold operators. rewrite !elem_of_cons, elem_of_nil. intros Ho. by destruct_or! Ho; simplify_eq.
  - intros ->. in_cases Hc.
  - by destruct (q =? 39), Hk as [|[|]].
  - by intros ->.
Qed.

Section Rename.
Context `{Keywords} `{FloatText}.

Lemma replace_token_text mx zSql name (z n : nat) rest :
  zlength zSql < 2 ^ 30 -> 2 * zlength name + 2 + zlength zSql < mx -> mx <= SQLITE_MAX_LENGTH ->
  (z <= length zSql)%nat -> text_at zSql (z + n) = Some rest ->
  replace_token mx [] zSql (Some name) (z, n) = Some (Some (take z zSql ++ quoted name ++ rest), []).
Proof.
  intros Hs Hm Hmx Hz Hat. unfold replace_token. rewrite Hat. cbn [mbind option_bind].
  assert (Hr : zlength rest + Z.of_nat (z + n) <= zlength zSql).
  { unfold text_at in Hat. destruct (Nat.leb_spec (z + n) (length zSql)); [|done]. injection Hat as <-.
    unfold zlength. rewrite length_drop. lia. }
  assert (Hlen : zlength (take z zSql ++ quoted name ++ rest) < mx).
  { rewrite !zlength_app. unfold quoted. pose proof (escape_length_le 34 name) as He. unfold zlength in *.
    cbn [length]. rewrite length_take, length_app. cbn [length]. lia. }
  unfold SQLITE_MAX_LENGTH in Hmx. pose proof (zlength_nonneg name). pose proof (zlength_nonneg zSql). pose proof (zlength_nonneg rest).
  destruct (mprintf_text mx fmt_rename _ _ (rename_text z zSql name rest ltac:(lia) ltac:(lia))) as [failed ->];
    [unfold fits_int; lia|done|done].
Qed.

(** The loop from the start of the text. *)
Lemma table_loop_finds zSql q t s sp u w post :
  cstring zSql -> tokens zSql = q ++ (t, s) :: sp ++ (u, w) :: post ->
  Forall inner (q ++ [(t, s)]) -> q <> [] -> t <> TK_SPACE -> Forall (fun tok => tok.1 = TK_SPACE) sp -> opens u ->
  table_loop (S (S (length zSql))) zSql 0 0 = Some (Some (length (texts q), length s)).
Proof.
  intros Hz Hts Hin Hne Ht Hsp Hu.
  assert (Hleg : legal q) by (apply inner_legal; by apply Forall_app in Hin as [? _]).
  pose proof (tokens_length zSql Hz) as Hn. rewrite Hts, !length_app in Hn. cbn in Hn.
  apply (table_loop_spec (S (length q)) q _ zSql [] 0 0 t s sp u w post); try done; [lia|constructor| |lia].
  destruct q as [|[t1 s1] q]; [done|].
  apply (token_here zSql [] t1 s1 (q ++ (t, s) :: sp ++ (u, w) :: post)); [done|constructor| |done].
  by apply Forall_cons in Hleg as [? _].
Qed.

(** C25: the text that ALTER TABLE RENAME writes for CREATE TABLE and CREATE
    INDEX statements: the token before the first bracket or USING is replaced
    by the new name between double quotes, every other byte is kept; and when
    white space or a period comes before that token, the new text has the same
    tokens as the old one but for the name. *)
Theorem renameTableFunc_correct mx zSql name pre sep t s sp u w post :
  cstring zSql -> cstring name -> zlength zSql < 2 ^ 30 ->
  2 * zlength name + 2 + zlength zSql < mx -> mx <= SQLITE_MAX_LENGTH ->
  tokens zSql = pre ++ sep :: (t, s) :: sp ++ (u, w) :: post ->
  Forall inner (pre ++ [sep; (t, s)]) -> t <> TK_SPACE -> Forall (fun tok => tok.1 = TK_SPACE) sp -> opens u ->
  exists out, renameTableFunc mx [] (Some zSql) (Some name) = Some (Some out, [])
    /\ out = texts (pre ++ [sep]) ++ quoted name ++ texts (sp ++ (u, w) :: post)
    /\ (separator sep -> tokens out = pre ++ sep :: (TK_ID, quoted name) :: sp ++ (u, w) :: post).
Proof.
  intros Hz Hname Hs Hm Hmx Hts Hin Ht Hsp Hu. set (rest := sp ++ (u, w) :: post) in *.
  assert (Hleg : legal (pre ++ [sep])).
  { apply inner_legal. change [sep; (t, s)] with ([sep] ++ [(t, s)]) in Hin. rewrite app_assoc in Hin.
    by apply Forall_app in Hin as [? _]. }
  assert (Hlt : t <> TK_ILLEGAL) by (apply Forall_app in Hin as [_ Hin]; apply Forall_cons in Hin as [_ Hin];
    apply Forall_cons in Hin as [[_ ?] _]; done).
  assert (Hts' : tokens zSql = (pre ++ [sep]) ++ (t, s) :: rest) by (by rewrite <- app_assoc).
  destruct (tokens_suffix (pre ++ [sep]) zSql _ Hz Hleg Hts') as (Hzeq & Hc & Hrest).
  assert (Hleg2 : legal ((pre ++ [sep]) ++ [(t, s)])) by (apply Forall_app; split; [done|by apply Forall_singleton]).
  assert (Hts2 : tokens zSql = ((pre ++ [sep]) ++ [(t, s)]) ++ rest) by (by rewrite <- app_assoc).
  assert (Hloop : table_loop (S (S (length zSql))) zSql 0 0 = Some (Some (length (texts (pre ++ [sep])), length s)))
    by (by apply (table_loop_finds zSql (pre ++ [sep]) t s sp u w post); [..|by rewrite <- app_assoc|destruct pre| | |]).
  exists (texts (pre ++ [sep]) ++ quoted name ++ texts rest). split; [|split; [done|]].
  - unfold renameTableFunc. rewrite Hloop. cbn [mbind option_bind].
    pose proof (text_at_tokens zSql _ rest Hz Hleg2 Hts2) as Hat. rewrite texts_snoc in Hat.
    assert (Hle : (length (texts (pre ++ [sep])) <= length zSql)%nat) by (rewrite Hzeq, length_app; lia).
    rewrite (replace_token_text mx zSql name _ _ (texts rest)) by done. do 3 f_equal.
    rewrite Hzeq. by rewrite take_app_length.
  - intros Hsep. destruct (tokens_suffix _ zSql rest Hz Hleg2 Hts2) as (_ & Hcr & Hrr).
    rewrite Hzeq, <- texts_app, <- app_assoc in Hz. rewrite Hzeq, <- texts_app, <- app_assoc in Hts. cbn [app] in Hz, Hts.
    apply (tokens_replace pre sep t s rest); try done.
    + by rewrite <- app_assoc in Hleg2.
    + apply List.Forall_cons; [done|]. apply Forall_app. split; [by apply escape_cstring|by apply Forall_singleton].
    + apply (ta_quoted 34 name); [set_solver|].
      assert (Hhead : exists t2 s2 q, rest = (t2, s2) :: q /\ (t2 = TK_SPACE \/ opens t2)).
      { subst rest. destruct sp as [|[t2 s2] sp]; [exists u, w, post; auto|]. apply Forall_cons in Hsp as [Hsp _]. cbn in Hsp.
        exists t2, s2, (sp ++ (u, w) :: post). auto. }
      destruct Hhead as (t2 & s2 & q & -> & Hk).
      destruct (tokens_inv _ t2 s2 q Hcr Hrr ltac:(destruct Hk as [->|[->| ->]]; done)) as (r & -> & Hta & _).
      by apply (head_not_quote t2 s2 r).
Qed.
End Rename.

(** "CREATE TABLE a(b)" with the new name "n". *)
Definition create_text : list Z := [67; 82; 69; 65; 84; 69; 32; 84; 65; 66; 76; 69; 32; 97; 40; 98; 41].

Lemma renameTableFunc_correct_witness :
  exists out, @renameTableFunc sql_keywords (fun _ _ _ => mkFloat [] None 0) 1000 [] (Some create_text) (Some [110]) = Some (Some out, [])
    /\ out = [67; 82; 69; 65; 84; 69; 32; 84; 65; 66; 76; 69; 32; 34; 110; 34; 40; 98; 41]
    /\ (separator (TK_SPACE, [32]) -> @tokens sql_keywords out
        = [(TK_ID, [67; 82; 69; 65; 84; 69]); (TK_SPACE, [32]); (TK_ID, [84; 65; 66; 76; 69])] ++ (TK_SPACE, [32])
          :: (TK_ID, [34; 110; 34]) :: [] ++ (TK_LP, [40]) :: [(TK_ID, [98]); (TK_RP, [41])]).
Proof.
  apply (@renameTableFunc_correct sql_keywords (fun _ _ _ => mkFloat [] None 0) 1000 create_text [110]
    [(TK_ID, [67; 82; 69; 65; 84; 69]); (TK_SPACE, [32]); (TK_ID, [84; 65; 66; 76; 69])]
    (TK_SPACE, [32]) TK_ID [97] [] TK_LP [40] [(TK_ID, [98]); (TK_RP, [41])]).
  - repeat constructor; lia.
  - repeat constructor; lia.
  - vm_compute. reflexivity.
  - vm_compute. reflexivity.
  - vm_compute. discriminate.
  - vm_compute. reflexivity.
  - repeat constructor; cbn; try discriminate; intros [?|?]; discriminate.
  - discriminate.
  - constructor.
  - by left.
Defined.
