(* ===== verification/Real.v ===== *)
(** * Real numbers (src/lmdb-backend/src/util.c)

    A C double is a [spec_float] of precision 53 in a computation and its 64
    bits in a memory cell; a long double is a [spec_float] of precision 64, the
    extended format of x86.  [sqlite3AtoF] converts text to a double. *)

From S2P Require Import Prelude Ctype Ints Mem.
From Stdlib Require Import Floats.SpecFloat.

(** ** The two formats *)

Definition bits_of_double (x : spec_float) : Z :=
  let sign (s : bool) := if s then 2 ^ 63 else 0 in
  match x with
  | S754_zero s => sign s
  | S754_infinity s => sign s + Z.shiftl 0x7ff 52
  | S754_nan => Z.shiftl 0xfff 51
  | S754_finite s m e =>
      if Zpos m <? 2 ^ 52 then sign s + Zpos m
      else sign s + Z.shiftl (e + 1075) 52 + (Zpos m - 2 ^ 52)
  end.

Definition double_mul : spec_float -> spec_float -> spec_float := SFmul 53 1024.
Definition double_div : spec_float -> spec_float -> spec_float := SFdiv 53 1024.
Definition double_add : spec_float -> spec_float -> spec_float := SFadd 53 1024.
Definition double_sub : spec_float -> spec_float -> spec_float := SFsub 53 1024.

Definition ldouble_mul : spec_float -> spec_float -> spec_float := SFmul 64 16384.
Definition ldouble_div : spec_float -> spec_float -> spec_float := SFdiv 64 16384.
Definition ldouble_of_i64 (i : Z) : spec_float := binary_normalize 64 16384 i 0 false.

(** The conversion of a double to a long double, which is exact, and back. *)
Definition ldouble_of_double (x : spec_float) : spec_float :=
  match x with
  | S754_finite s m e => binary_round 64 16384 s m e
  | _ => x
  end.

Definition double_of_ldouble (x : spec_float) : spec_float :=
  match x with
  | S754_finite s m e => binary_round 53 1024 s m e
  | _ => x
  end.

(** The constants 1.0e+1, 1.0e+22 and 1.0e+308, and zero. *)
Definition d_1e1 : spec_float := double_of_bits 0x4024000000000000.
Definition d_1e22 : spec_float := double_of_bits 0x4480f0cf064dd592.
Definition d_1e308 : spec_float := double_of_bits 0x7fe1ccf385ebc8a0.
Definition d_zero : spec_float := S754_zero false.

(** [x!=x] *)
Definition sqlite3IsNaN (x : spec_float) : bool := negb (SFeqb x x).

(** ** Text to double *)

(** [while( z<zEnd && sqlite3Isdigit( *z) && s<((LARGEST_INT64-9)/10) )
    { s = s*10 + ( *z - '0'); z+=incr, nDigits++, d+=step; }]: the text left,
    [s], [nDigits] and [d]. *)
Fixpoint sig_loop (fuel : nat) (step : Z) (incr : nat) (r : list Z) (s nDigits d : Z) : list Z * Z * Z * Z :=
  match fuel, r with
  | S fuel, c :: _ =>
      if sqlite3Isdigit c && (s <? (LARGEST_INT64 - 9) / 10)
      then sig_loop fuel step incr (drop incr r) (s * 10 + (c - 48)) (nDigits + 1) (d + step)
      else (r, s, nDigits, d)
  | _, _ => (r, s, nDigits, d)
  end.

(** [while( z<zEnd && f( *z) ) z+=incr, nDigits++, d+=step;] *)
Fixpoint count_loop (fuel : nat) (f : Z -> bool) (step : Z) (incr : nat) (r : list Z) (nDigits d : Z) : list Z * Z * Z :=
  match fuel, r with
  | S fuel, c :: _ =>
      if f c then count_loop fuel f step incr (drop incr r) (nDigits + 1) (d + step) else (r, nDigits, d)
  | _, _ => (r, nDigits, d)
  end.

(** The digits of the exponent: the text left, [e] and [eValid]. *)
Fixpoint exp_loop (fuel : nat) (incr : nat) (r : list Z) (e : Z) (eValid : bool) : list Z * Z * bool :=
  match fuel, r with
  | S fuel, c :: _ =>
      if sqlite3Isdigit c
      then exp_loop fuel incr (drop incr r) (if e <? 10000 then e * 10 + (c - 48) else 10000) true
      else (r, e, eValid)
  | _, _ => (r, e, eValid)
  end.

(** [while( s<(LARGEST_INT64/10) && e>0 ) e--,s*=10;] *)
Fixpoint grow_loop (fuel : nat) (s e : Z) : Z * Z :=
  match fuel with
  | O => (s, e)
  | S fuel => if (s <? LARGEST_INT64 / 10) && (e >? 0) then grow_loop fuel (s * 10) (e - 1) else (s, e)
  end.

(** [while( !(s%10) && e>0 ) e--,s/=10;] *)
Fixpoint shrink_loop (fuel : nat) (s e : Z) : Z * Z :=
  match fuel with
  | O => (s, e)
  | S fuel => if (Z.rem s 10 =? 0) && (e >? 0) then shrink_loop fuel (Z.quot s 10) (e - 1) else (s, e)
  end.

(** [while( e%k ) { scale *= 1.0e+1; e -= 1; }] *)
Fixpoint scale_rem (fuel : nat) (k : Z) (scale : spec_float) (e : Z) : spec_float * Z :=
  match fuel with
  | O => (scale, e)
  | S fuel => if negb (Z.rem e k =? 0) then scale_rem fuel k (ldouble_mul scale d_1e1) (e - 1) else (scale, e)
  end.

(** [while( e>0 ) { scale *= 1.0e+22; e -= 22; }] *)
Fixpoint scale_22 (fuel : nat) (scale : spec_float) (e : Z) : spec_float :=
  match fuel with
  | O => scale
  | S fuel => if e >? 0 then scale_22 fuel (ldouble_mul scale d_1e22) (e - 22) else scale
  end.

(** [s * 10^(esign*e)], for the signed significand [s]. *)
Definition atof_scale (s esign e : Z) : spec_float :=
  let one := ldouble_of_i64 1 in
  if (e >? 307) && (e <? 342) then
    let '(scale, _) := scale_rem 308 308 one e in
    if esign <? 0
    then double_div (double_of_ldouble (ldouble_div (ldouble_of_i64 s) scale)) d_1e308
    else double_mul (double_of_ldouble (ldouble_mul (ldouble_of_i64 s) scale)) d_1e308
  else if e >=? 342 then
    if esign <? 0 then double_mul d_zero (double_of_i64 s)
    else double_mul (double_mul d_1e308 d_1e308) (double_of_i64 s)
  else
    let '(scale, e) := scale_rem 22 22 one e in
    let scale := scale_22 (Z.to_nat e) scale e in
    double_of_ldouble (if esign <? 0 then ldouble_div (ldouble_of_i64 s) scale else ldouble_mul (ldouble_of_i64 s) scale).

(** From the label [do_atof_calc] to the store of the result. *)
Definition atof_calc (sign s d esign e nDigits : Z) : spec_float :=
  let e := e * esign + d in
  let '(esign, e) := if e <? 0 then (-1, e * -1) else (1, e) in
  if s =? 0 then (if (sign <? 0) && negb (nDigits =? 0) then S754_zero true else d_zero)
  else
    let '(s, e) := if esign >? 0 then grow_loop 19 s e else shrink_loop 19 s e in
    let s := if sign <? 0 then - s else s in
    if negb (e =? 0) then atof_scale s esign e else double_of_i64 s.

(** A sign: the text behind it. *)
Definition atof_sign (incr : nat) (r : list Z) : Z * list Z :=
  match r with
  | 45 :: _ => (-1, drop incr r)
  | 43 :: _ => (1, drop incr r)
  | _ => (1, r)
  end.

(** [z] is the [length] bytes at [z]; the result is the return value and the
    value written to [*pResult]. *)
Definition sqlite3AtoF (z : list Z) (enc : Z) : bool * spec_float :=
  let '(incr, r, nonNum) := atoi64_region z enc in
  let fuel := S (length r) in
  let r := skip_while fuel sqlite3Isspace incr r in
  match r with
  | [] => (false, d_zero)
  | _ =>
      let '(sign, r) := atof_sign incr r in
      let '(r, nDigits, _) := count_loop fuel (fun c => c =? 48) 0 incr r 0 0 in
      let '(r, s, nDigits, _) := sig_loop fuel 0 incr r 0 nDigits 0 in
      let '(r, nDigits, d) := count_loop fuel sqlite3Isdigit 1 incr r nDigits 0 in
      let '(r, s, nDigits, d) :=
        if deref r =? 46 then
          let '(r, s, nDigits, d) := sig_loop fuel (-1) incr (drop incr r) s nDigits d in
          let '(r, nDigits, d) := count_loop fuel sqlite3Isdigit 0 incr r nDigits d in
          (r, s, nDigits, d)
        else (r, s, nDigits, d) in
      let '(r, esign, e, eValid) :=
        if (deref r =? 101) || (deref r =? 69) then
          let '(esign, r) := atof_sign incr (drop incr r) in
          let '(r, e, eValid) := exp_loop fuel incr r 0 false in
          (r, esign, e, eValid)
        else (r, 1, 0, true) in
      let r := if negb (nDigits =? 0) && eValid then skip_while fuel sqlite3Isspace incr r else r in
      let valid := match r with [] => true | _ => false end in
      (valid && (nDigits >? 0) && eValid && negb nonNum, atof_calc sign s d esign e nDigits)
  end.
