(* ===== verification/FloatText.v ===== *)
(** * The text of floating point numbers (src/lmdb-backend/src/printf.c)

    The instance of [FloatText] that the code is: the cases etFLOAT, etEXP and
    etGENERIC of [sqlite3VXPrintf], on doubles and the long doubles of x86. *)

From S2P Require Import Prelude Ctype Ints Mem Real Printf.
From Stdlib Require Import Floats.SpecFloat.

Definition d_half : spec_float := double_of_bits 0x3fe0000000000000.
Definition d_tenth : spec_float := double_of_bits 0x3fb999999999999a.
Definition d_one : spec_float := double_of_bits 0x3ff0000000000000.
Definition d_1e8 : spec_float := double_of_bits 0x4197d78400000000.
Definition d_1e64 : spec_float := double_of_bits 0x4d384f03e93ff9f5.
Definition d_1e100 : spec_float := double_of_bits 0x54b249ad2594c37d.
Definition d_1em8 : spec_float := double_of_bits 0x3e45798ee2308c3a.

Definition ldouble_add : spec_float -> spec_float -> spec_float := SFadd 64 16384.
Definition ldouble_sub : spec_float -> spec_float -> spec_float := SFsub 64 16384.

(** Comparing a long double with a double constant. *)
Definition ldouble_leb (c x : spec_float) : bool := SFleb (ldouble_of_double c) x.
Definition ldouble_ltb (x c : spec_float) : bool := SFltb x (ldouble_of_double c).

(** [digit = (int)*val; *val = ( *val - digit)*10.0; (char)(digit + '0')] while
    [*cnt] lasts. *)
Definition et_getdigit (val : spec_float) (cnt : Z) : Z * spec_float * Z :=
  if cnt <=? 0 then (48, val, cnt)
  else
    let digit := i64_of_double val in
    (u8 (digit + 48), ldouble_mul (ldouble_sub val (ldouble_of_i64 digit)) d_1e1, cnt - 1).

(** That many digits. *)
Fixpoint digits_text (k : nat) (val : spec_float) (cnt : Z) : list Z * spec_float * Z :=
  match k with
  | O => ([], val, cnt)
  | S k =>
      let '(c, val, cnt) := et_getdigit val cnt in
      let '(t, val, cnt) := digits_text k val cnt in
      (c :: t, val, cnt)
  end.

(** [for(idx=precision, rounder=0.5; idx>0; idx--, rounder*=0.1){}] *)
Fixpoint rounder_loop (k : nat) (rounder : spec_float) : spec_float :=
  match k with O => rounder | S k => rounder_loop k (double_mul rounder d_tenth) end.

(** [while( realvalue>=c*scale && exp<=350 ){ scale *= c; exp+=k; }] *)
Fixpoint scale_up (fuel : nat) (c : spec_float) (k : Z) (realvalue scale : spec_float) (exp : Z) : spec_float * Z :=
  match fuel with
  | O => (scale, exp)
  | S fuel =>
      if SFleb (ldouble_mul (ldouble_of_double c) scale) realvalue && (exp <=? 350)
      then scale_up fuel c k realvalue (ldouble_mul scale c) (exp + k) else (scale, exp)
  end.

(** [while( realvalue<bound ){ realvalue *= c; exp-=k; }] *)
Fixpoint scale_down (fuel : nat) (bound c : spec_float) (k : Z) (realvalue : spec_float) (exp : Z) : spec_float * Z :=
  match fuel with
  | O => (realvalue, exp)
  | S fuel =>
      if ldouble_ltb realvalue bound then scale_down fuel bound c k (ldouble_mul realvalue c) (exp - k) else (realvalue, exp)
  end.

(** The value between 1.0 and 10.0, and its exponent.  The turns are at most
    the 350 of [exp], and those from the least double. *)
Definition normalize (realvalue : spec_float) : spec_float * Z :=
  if SFltb d_zero realvalue then
    let '(scale, exp) := scale_up 5 d_1e100 100 realvalue (ldouble_of_i64 1) 0 in
    let '(scale, exp) := scale_up 7 d_1e64 64 realvalue scale exp in
    let '(scale, exp) := scale_up 46 d_1e8 8 realvalue scale exp in
    let '(scale, exp) := scale_up 352 d_1e1 1 realvalue scale exp in
    let realvalue := ldouble_div realvalue scale in
    let '(realvalue, exp) := scale_down 48 d_1em8 d_1e8 8 realvalue exp in
    scale_down 16 d_one d_1e1 1 realvalue exp
  else (realvalue, 0).

(** [while( bufpt[-1]=='0' ) *(--bufpt) = 0;] *)
Fixpoint strip_zeros (rev_text : list Z) : list Z :=
  match rev_text with
  | c :: t => if c =? 48 then strip_zeros t else rev_text
  | [] => []
  end.

(** The zeros and a point without digits behind it removed. *)
Definition trim (altform2 : bool) (text : list Z) : list Z :=
  match strip_zeros (rev text) with
  | 46 :: t => rev (if altform2 then 48 :: 46 :: t else t)
  | t => rev t
  end.

Definition exp_suffix (xt : xtype) (e_char exp : Z) : list Z :=
  if decide (xt = etEXP) then
    let '(s, exp) := if exp <? 0 then (45, - exp) else (43, exp) in
    let '(h, exp) := if exp >=? 100 then ([u8 (exp / 100 + 48)], exp mod 100) else ([], exp) in
    e_char :: s :: h ++ [u8 (exp / 10 + 48); u8 (exp mod 10 + 48)]
  else [].

(** The sign, the digits and the point, before zeros are removed. *)
Definition float_raw (xt : xtype) (d : directive) (prefix : Z) (realvalue : spec_float) (precision exp : Z) : list Z :=
  let f := d.(dflags) in
  let e2 := if decide (xt = etEXP) then 0 else exp in
  let nsd := 16 + (if f.(altform2) then 10 else 0) in
  let flag_dp := (0 <? precision) || f.(alternateform) || f.(altform2) in
  let sign := if prefix =? 0 then [] else [prefix] in
  let '(whole, realvalue, nsd) := if e2 <? 0 then ([48], realvalue, nsd) else digits_text (Z.to_nat (e2 + 1)) realvalue nsd in
  let e2 := if e2 <? 0 then e2 else -1 in
  let zeros := repeat 48 (Z.to_nat (- (e2 + 1))) in
  let '(frac, _, _) := digits_text (Z.to_nat (precision + (e2 + 1))) realvalue nsd in
  sign ++ whole ++ (if flag_dp then [46] else []) ++ zeros ++ frac.

(** The text before the padding with zeros. *)
Definition float_digits (xt : xtype) (d : directive) (e_char precision exp : Z) (flag_rtz : bool) (text : list Z) : list Z :=
  let f := d.(dflags) in
  let flag_dp := (0 <? precision) || f.(alternateform) || f.(altform2) in
  (if flag_rtz && flag_dp then trim f.(altform2) text else text) ++ exp_suffix xt e_char exp.

(** The size that is allocated: none for a text that should fit [buf]. *)
Definition float_size (xt : xtype) (d : directive) (precision exp : Z) : option Z :=
  let e2 := if decide (xt = etEXP) then 0 else exp in
  let need := i32 (e2 + precision + d.(width)) in
  if need >? etBUFSIZE - 15 then Some (i32 (need + 15)) else None.

Definition float_pad (d : directive) (prefix : Z) (text : list Z) : list Z :=
  let length := Z.of_nat (length text) in
  if d.(dflags).(zeropad) && negb d.(dflags).(leftjustify) && (length <? d.(width)) then
    let i := if prefix =? 0 then 0%nat else 1%nat in
    take i text ++ repeat 48 (Z.to_nat (d.(width) - length)) ++ drop i text
  else text.

(** The digits string of the conversion: [aDigits] at 30 ("e") or 14 ("E"). *)
Definition e_char (d : directive) : Z :=
  match find_info d.(conv) with Some i => at_ aDigits i.(charset) | None => 0 end.

(** The conversion of a finite number. *)
Definition float_block (xt : xtype) (d : directive) (prefix : Z) (realvalue : spec_float) (precision exp : Z)
    (flag_rtz : bool) : float_buffer :=
  let raw := float_raw xt d prefix realvalue precision exp in
  let text := float_pad d prefix (float_digits xt d (e_char d) precision exp flag_rtz raw) in
  mkFloat text (float_size xt d precision exp) (Z.max (Z.of_nat (length raw)) (Z.of_nat (length text) + 1)).

Definition s_NaN : list Z := [78; 97; 78].
Definition s_Inf : list Z := [73; 110; 102].

(** The absolute value and the prefix. *)
Definition float_sign (f : flags) (realvalue : spec_float) : spec_float * Z :=
  if SFltb realvalue d_zero then (SFopp realvalue, 45)
  else (realvalue, if f.(plussign) then 43 else if f.(blanksign) then 32 else 0).

#[global] Instance convert_float : FloatText := fun xt d bits =>
  let f := d.(dflags) in
  let realvalue := ldouble_of_double (double_of_bits bits) in
  let precision := if d.(precision) <? 0 then 6 else d.(precision) in
  let '(realvalue, prefix) := float_sign f realvalue in
  let precision := if bool_decide (xt = etGENERIC) && (0 <? precision) then precision - 1 else precision in
  let rounder := rounder_loop (Z.to_nat precision) d_half in
  let realvalue := if decide (xt = etFLOAT) then ldouble_add realvalue rounder else realvalue in
  if sqlite3IsNaN (double_of_ldouble realvalue) then mkFloat s_NaN None 0
  else
    let '(realvalue, exp) := normalize realvalue in
    if exp >? 350 then mkFloat (if prefix =? 45 then 45 :: s_Inf else if prefix =? 43 then 43 :: s_Inf else s_Inf) None 0
    else
      let '(realvalue, exp) :=
        if decide (xt = etFLOAT) then (realvalue, exp)
        else
          let realvalue := ldouble_add realvalue rounder in
          if ldouble_leb d_1e1 realvalue then (ldouble_mul realvalue d_tenth, exp + 1) else (realvalue, exp) in
      let '(xt, precision, flag_rtz) :=
        if decide (xt = etGENERIC) then
          let flag_rtz := negb f.(alternateform) in
          if (exp <? -4) || (exp >? precision) then (etEXP, precision, flag_rtz)
          else (etFLOAT, precision - exp, flag_rtz)
        else (xt, precision, f.(altform2)) in
      float_block xt d prefix realvalue precision exp flag_rtz.

(** ** The text is made of bytes *)

Ltac byte_solve := first [unfold_int; lia | by apply wrap_u_range].


Lemma at_bytes z i : bytes_ok z -> is_u8 (at_ z i).
Proof.
  intros Hz. unfold at_. apply (Forall_drop _ i) in Hz. destruct Hz; cbn; [byte_solve|done].
Qed.

Lemma digits_text_bytes k : forall val cnt, bytes_ok (fst (fst (digits_text k val cnt))).
Proof.
  induction k as [|k IH]; intros val cnt; [constructor|]. cbn [digits_text]. unfold et_getdigit.
  destruct (cnt <=? 0); cbv iota beta zeta;
    match goal with |- context [digits_text k ?v ?c] => specialize (IH v c); destruct (digits_text k v c) as [[t ?] ?] end;
    cbn in *; constructor; [byte_solve|done|byte_solve|done].
Qed.

Lemma strip_zeros_bytes t : bytes_ok t -> bytes_ok (strip_zeros t).
Proof. induction 1 as [|c t Hc Ht IH]; [constructor|]. cbn. destruct (c =? 48); [done|by constructor]. Qed.

Lemma exp_suffix_bytes xt e exp : is_u8 e -> bytes_ok (exp_suffix xt e exp).
Proof.
  intros He. unfold exp_suffix. destruct (decide _); [|constructor].
  destruct (exp <? 0); cbv beta iota zeta; destruct (_ >=? 100); cbn [app]; repeat constructor; byte_solve || done.
Qed.

Lemma e_char_byte d : is_u8 (e_char d).
Proof.
  unfold e_char. destruct (find_info _) as [i|]; [|byte_solve]. apply at_bytes. repeat constructor; byte_solve.
Qed.

Lemma repeat_bytes c k : is_u8 c -> bytes_ok (repeat c k).
Proof. intros Hc. apply Forall_forall. by intros x Hx%list_elem_of_In%repeat_spec; subst. Qed.

Lemma trim_bytes a text : bytes_ok text -> bytes_ok (trim a text).
Proof.
  intros Ht. assert (Hr : bytes_ok (rev text)) by (by apply Forall_rev).
  apply strip_zeros_bytes in Hr. unfold trim. destruct (strip_zeros (rev text)) as [|c t]; [constructor|].
  assert (Hgen : bytes_ok (rev (c :: t))) by (by apply Forall_rev).
  apply Forall_cons in Hr as [Hc Hr].
  destruct (decide (c = 46)) as [->|Hne].
  - destruct a; apply Forall_rev; [|done]. repeat (apply List.Forall_cons; [byte_solve|]). done.
  - destruct c as [|p|p]; try done. do 6 (destruct p as [p|p|]; try done).
Qed.

Lemma float_raw_bytes xt d prefix v precision exp : is_u8 prefix -> bytes_ok (float_raw xt d prefix v precision exp).
Proof.
  intros Hp. unfold float_raw. set (e2 := if decide (xt = etEXP) then 0 else exp).
  set (w := if e2 <? 0 then ([48], _, _) else _).
  assert (Hw : bytes_ok (fst (fst w))).
  { unfold w. destruct (e2 <? 0); [repeat constructor; byte_solve|apply digits_text_bytes]. }
  destruct w as [[whole v'] nsd]. cbn in Hw.
  match goal with |- context [digits_text ?k v' nsd] => pose proof (digits_text_bytes k v' nsd) as Hf;
    destruct (digits_text k v' nsd) as [[frac ?] ?] end. cbn in Hf.
  rewrite !bytes_ok_app. split_and!; try done.
  - destruct (prefix =? 0); repeat constructor; apply Hp.
  - destruct (_ || _ || _); repeat constructor; byte_solve.
  - apply repeat_bytes. byte_solve.
Qed.

Lemma float_digits_bytes xt d e precision exp rtz text :
  is_u8 e -> bytes_ok text -> bytes_ok (float_digits xt d e precision exp rtz text).
Proof.
  intros He Ht. unfold float_digits. apply bytes_ok_app. split; [|by apply exp_suffix_bytes].
  destruct (rtz && _); [by apply trim_bytes|done].
Qed.

Lemma float_pad_bytes d prefix text : bytes_ok text -> bytes_ok (float_pad d prefix text).
Proof.
  intros Ht. unfold float_pad. cbv zeta. destruct (_ && _); [|done]. rewrite !bytes_ok_app.
  split_and!; [by apply Forall_take| |by apply Forall_drop]. apply repeat_bytes. byte_solve.
Qed.

Lemma float_sign_byte f v : is_u8 (float_sign f v).2.
Proof.
  unfold float_sign. destruct (SFltb _ _), f.(plussign), f.(blanksign); cbn [snd]; byte_solve.
Qed.

Lemma convert_float_bytes xt d b : bytes_ok (convert_float xt d b).(ftext).
Proof.
  unfold convert_float. pose proof (float_sign_byte d.(dflags) (ldouble_of_double (double_of_bits b))) as Hp.
  destruct (float_sign _ _) as [v prefix]. cbn [snd] in Hp. destruct (sqlite3IsNaN _); [repeat constructor; byte_solve|].
  destruct (normalize _) as [v' exp]. destruct (exp >? 350).
  { destruct (prefix =? 45), (prefix =? 43); repeat constructor; byte_solve. }
  destruct (if decide (xt = etFLOAT) then _ else _) as [v'' exp'].
  destruct (if decide (xt = etGENERIC) then _ else _) as [[xt' precision'] rtz].
  by apply float_pad_bytes, float_digits_bytes; [apply e_char_byte|apply float_raw_bytes].
Qed.

(** ** The length of the text *)

Lemma digits_text_length k : forall val cnt, length (fst (fst (digits_text k val cnt))) = k.
Proof.
  induction k as [|k IH]; intros val cnt; [done|]. cbn [digits_text]. destruct (et_getdigit val cnt) as [[c v] n].
  specialize (IH v n). destruct (digits_text k v n) as [[t ?] ?]. cbn in *. by rewrite IH.
Qed.

Lemma strip_zeros_length t : (length (strip_zeros t) <= length t)%nat.
Proof. induction t as [|c t IH]; [done|]. cbn. destruct (c =? 48); cbn; lia. Qed.

Lemma trim_length a text : (length (trim a text) <= S (length text))%nat.
Proof.
  pose proof (strip_zeros_length (rev text)) as Hs. rewrite length_rev in Hs. unfold trim.
  destruct (strip_zeros (rev text)) as [|c t]; [cbn; lia|].
  assert (H : (length (rev (c :: t)) <= S (length text))%nat) by (rewrite length_rev; lia).
  destruct (decide (c = 46)) as [->|Hne]; [destruct a; rewrite length_rev; cbn in *; lia|].
  destruct c as [|p|p]; try done. do 6 (destruct p as [p|p|]; try done).
Qed.

Lemma exp_suffix_length xt e exp : (length (exp_suffix xt e exp) <= 5)%nat.
Proof.
  unfold exp_suffix. destruct (decide _); [|cbn; lia]. destruct (exp <? 0); cbv beta iota zeta; destruct (_ >=? 100); cbn; lia.
Qed.

Lemma float_raw_length xt d prefix v precision exp :
  let e2 := if decide (xt = etEXP) then 0 else exp in
  Z.of_nat (length (float_raw xt d prefix v precision exp)) <= 3 + Z.max 0 e2 + Z.max (Z.max 0 precision) (- e2 - 1).
Proof.
  intros e2. unfold float_raw. fold e2. clearbody e2. set (w := if e2 <? 0 then ([48], _, _) else _).
  assert (Hw : Z.of_nat (length (fst (fst w))) = if e2 <? 0 then 1 else e2 + 1).
  { unfold w. destruct (Z.ltb_spec e2 0); [done|]. rewrite digits_text_length. lia. }
  destruct w as [[whole v'] nsd]. cbn in Hw.
  match goal with |- context [digits_text ?k v' nsd] => pose proof (digits_text_length k v' nsd) as Hf;
    destruct (digits_text k v' nsd) as [[frac ?] ?] end. cbn in Hf.
  rewrite !length_app, repeat_length, Hf. destruct (prefix =? 0), (_ || _ || _); cbn [length]; destruct (Z.ltb_spec e2 0); lia.
Qed.

Lemma float_digits_length xt d e precision exp rtz text :
  (length (float_digits xt d e precision exp rtz text) <= 1 + (if decide (xt = etEXP) then 5 else 0) + length text)%nat.
Proof.
  unfold float_digits. rewrite length_app. pose proof (exp_suffix_length xt e exp) as He. revert He.
  unfold exp_suffix. pose proof (trim_length (altform2 (dflags d)) text). destruct (_ && _), (decide (xt = etEXP)); cbn [length]; lia.
Qed.

Lemma float_pad_length d prefix text : Z.of_nat (length (float_pad d prefix text)) <= Z.max d.(width) (Z.of_nat (length text)).
Proof.
  unfold float_pad. cbv zeta. destruct (_ && _) eqn:E; [|lia]. apply andb_true_iff in E as [_ E%Z.ltb_lt].
  rewrite !length_app, length_take, length_drop, repeat_length. destruct (prefix =? 0); lia.
Qed.

(** The text stays in its block unless it is a small number in the notation
    without an exponent. *)
Lemma float_block_fits xt d prefix v precision exp rtz :
  let e2 := if decide (xt = etEXP) then 0 else exp in
  let f := float_block xt d prefix v precision exp rtz in
  0 <= d.(width) < 2 ^ 29 -> 0 <= precision < 2 ^ 29 -> -10 <= e2 <= 400 ->
  f.(fused) <= default etBUFSIZE f.(fsize) /\ Z.of_nat (length f.(ftext)) < f.(fused)
  /\ (e2 + precision + d.(width) <= 55 -> f.(fsize) = None).
Proof.
  intros e2 f Hw Hp He. pose proof (float_raw_length xt d prefix v precision exp) as Hr. cbv zeta in Hr. fold e2 in Hr.
  unfold f, float_block. cbv zeta. cbn [ftext fsize fused]. set (raw := float_raw _ _ _ _ _ _) in *.
  pose proof (float_pad_length d prefix (float_digits xt d (e_char d) precision exp rtz raw)) as Ht.
  pose proof (float_digits_length xt d (e_char d) precision exp rtz raw) as Hd.
  unfold float_size. cbv zeta. fold e2. split; [|split; [lia|]].
  2:{ intros H. rewrite i32_small by lia. rewrite Z.gtb_ltb. unfold etBUFSIZE. by destruct (Z.ltb_spec (70 - 15) (e2 + precision + width d)); [lia|]. }
  assert (Hs : (if decide (xt = etEXP) then 5 else 0)%nat = 0%nat \/ e2 = 0 /\ (if decide (xt = etEXP) then 5 else 0)%nat = 5%nat)
    by (unfold e2; destruct (decide _); auto).
  set (sfx := if decide (xt = etEXP) then 5%nat else 0%nat) in *. clearbody e2 raw sfx.
  rewrite (i32_small (e2 + precision + width d)), Z.gtb_ltb by lia. unfold etBUFSIZE.
  destruct (Z.ltb_spec (70 - 15) (e2 + precision + width d)); cbn [default]; [|lia]. rewrite i32_small by lia. unfold id. lia.
Qed.

(** %g with at most 40 digits and no width fits [buf]. *)
Lemma convert_generic_fits d b :
  d.(Printf.precision) <= 40 -> d.(width) = 0 ->
  let f := convert_float etGENERIC d b in
  f.(fsize) = None /\ f.(fused) <= etBUFSIZE /\ Z.of_nat (length f.(ftext)) <= etBUFSIZE.
Proof.
  intros Hd Hw. cbv zeta. unfold convert_float. destruct (float_sign _ _) as [v prefix]. destruct (sqlite3IsNaN _); [by split_and!|].
  destruct (normalize _) as [v' exp]. destruct (exp >? 350); [by destruct (prefix =? 45), (prefix =? 43); split_and!|].
  destruct (decide (etGENERIC = etFLOAT)) as [|_]; [done|].
  destruct (if ldouble_leb _ _ then _ else _) as [v'' exp']. destruct (decide (etGENERIC = etGENERIC)) as [_|]; [|done].
  set (p := if _ && _ then _ else _). assert (Hp : 0 <= p <= 40) by (unfold p; destruct (Z.ltb_spec (Printf.precision d) 0), (bool_decide _); cbn [andb]; try lia; case Z.ltb_spec; lia).
  clearbody p. rewrite Z.gtb_ltb.
  destruct (Z.ltb_spec exp' (-4)), (Z.ltb_spec p exp'); cbn [orb];
    match goal with |- context [float_block ?xt d ?pf ?w ?pr ?ex ?rt] => pose proof (float_block_fits xt d pf w pr ex rt) as Hb end;
    cbv zeta in Hb; repeat (destruct (decide _); try done);
    (destruct Hb as (H1 & H2 & H3); [lia|lia|lia|]); rewrite H3 in * by lia; cbn [default] in H1; (split; [done|lia]).
Qed.
