(* ===== verification/PrintfBounds.v ===== *)
(** * The conversions stay inside their buffers

    Every conversion of an argument of the right type is defined, but for %c
    with a precision above the size of the buffer and %f of small numbers. *)

From S2P Require Import Prelude Ctype Ints Printf PrintfSpec Mem Real FloatText.
From Stdlib Require Import Floats.SpecFloat.

(** The arguments a conversion takes. *)
Definition args_fit (i : et_info) (d : directive) (l : list arg) : Prop :=
  match i.(itype), l with
  | (etRADIX | etORDINAL), A_i64 v :: _ => d.(dlong) || d.(dlonglong) = true /\ in_s 64 v
  | (etRADIX | etORDINAL), A_int v :: _ => d.(dlong) || d.(dlonglong) = false /\ in_s 32 v
  | etPOINTER, A_i64 v :: _ => in_s 64 v
  | (etFLOAT | etEXP | etGENERIC), A_double _ :: _ => 0 <= d.(width) < 2 ^ 28 /\ d.(precision) < 2 ^ 28
  | etSIZE, A_intptr :: _ => True
  | etCHARX, A_int _ :: _ => True
  | (etSTRING | etDYNSTRING), A_str _ :: _ => True
  | (etSQLESCAPE | etSQLESCAPE2 | etSQLESCAPE3), A_str z :: _ => 2 * zlength (default [] z) + 3 < 2 ^ 31
  | etTOKEN, A_token _ :: _ => True
  | etSRCLIST, A_srclist items :: A_int k :: _ => 0 <= k < Z.of_nat (length items)
  | (etPERCENT | etINVALID), _ => True
  | _, _ => False
  end.

(** At most [n] digits for a number below base^n. *)
Lemma radix_loop_length fuel : forall n cset b v buf,
  2 <= b -> 0 <= v < b ^ Z.of_nat n -> (0 < n)%nat ->
  (length (radix_loop fuel cset b v buf) <= n + length buf)%nat.
Proof.
  induction fuel as [|fuel IH]; intros n cset b v buf Hb Hv Hn; cbn [radix_loop]; [lia|].
  destruct (Z.ltb_spec 0 (v / b)) as [Hp|Hp]; [|cbn; lia].
  destruct n as [|n]; [lia|]. rewrite Nat2Z.inj_succ, Z.pow_succ_r in Hv by lia.
  assert (Hq : 0 <= v / b < b ^ Z.of_nat n) by (split; [lia|apply Z.div_lt_upper_bound; lia]).
  destruct n as [|n]; [cbn in Hq; lia|].
  etrans; [apply (IH (S n)); lia|]. cbn. lia.
Qed.

Lemma add_prefix_length pre : forall buf, (length (add_prefix pre buf) <= length pre + length buf)%nat.
Proof.
  induction pre as [|x pre IH]; intros buf; cbn; [lia|]. destruct (x =? 0); [lia|].
  etrans; [apply IH|]. cbn. lia.
Qed.

Lemma radix_text_length i xt precision alt prefix v :
  8 <= i.(base) -> 0 <= v < 2 ^ 64 ->
  Z.of_nat (length (radix_text i xt precision alt prefix v)) <= Z.max 24 precision + 7.
Proof.
  intros Hb Hv. unfold radix_text. cbv zeta.
  set (b0 := if decide _ then _ else _). assert (H0 : (length b0 <= 2)%nat) by (subst b0; destruct (decide _); cbn; lia).
  set (b1 := radix_loop 64 (charset i) (base i) v b0).
  assert (H1 : (length b1 <= 22 + length b0)%nat).
  { apply radix_loop_length; [lia| |lia]. split; [lia|]. apply Z.lt_le_trans with (2 ^ 64); [lia|].
    change (2 ^ 64) with (2 ^ 64). apply Z.le_trans with (8 ^ 22); [lia|]. apply Z.pow_le_mono_l. lia. }
  set (b2 := repeat 48 _ ++ b1).
  assert (H2 : Z.of_nat (length b2) <= Z.max 24 precision) by (subst b2; rewrite length_app, repeat_length; lia).
  set (b3 := if prefix =? 0 then b2 else prefix :: b2).
  assert (H3 : (length b3 <= S (length b2))%nat) by (subst b3; destruct (prefix =? 0); cbn; lia).
  destruct (_ && _); [|lia].
  pose proof (add_prefix_length (drop (iprefix i) aPrefix) b3) as H4. rewrite length_drop in H4.
  assert (length aPrefix = 6)%nat by done. lia.
Qed.

Section Bounds.
Context `{FloatText} {A : Type} `{Accum A}.

(** Buffers are only given out for the sizes the allocator accepts. *)
Context (Hbuffer : forall (a a1 a2 : A) n, buffer a n = (Some a1, a2) -> malloc_size_ok n = true).

Lemma int_value_range signed wide f l pre v l' :
  int_value signed wide f l = Some (pre, v, l') ->
  match l with A_i64 v :: _ => in_s 64 v | A_int v :: _ => in_s 32 v | _ => False end -> 0 <= v < 2 ^ 64.
Proof.
  assert (Hs : forall v, in_s 64 v -> 0 <= (signed_value f v).2 < 2 ^ 64).
  { intros w Hw. unfold in_s in Hw. unfold signed_value. destruct (Z.ltb_spec w 0); cbn.
    - destruct (w =? SMALLEST_INT64); lia.
    - lia. }
  destruct l as [|[w|w| | | | |] l]; cbn [int_value]; try done; intros E Hr.
  - destruct wide; [done|]. assert (Hw : in_s 64 w) by (unfold in_s in *; lia).
    specialize (Hs w Hw). pose proof (wrap_u_range 32 w ltac:(lia)) as Hu. unfold in_u in Hu.
    destruct signed; [injection E as E _; by rewrite E in Hs|injection E as _ <- _; lia].
  - destruct wide; [|done]. specialize (Hs w Hr). pose proof (wrap_u_range 64 w ltac:(lia)) as Hu. unfold in_u in Hu.
    destruct signed; [injection E as E _; by rewrite E in Hs|injection E as _ <- _; lia].
Qed.

Lemma convert_radix_defined i xt d (s : state A) :
  8 <= i.(base) -> in_s 32 d.(precision) -> in_s 32 d.(width) ->
  match s.(ap) with
  | A_i64 v :: _ => d.(dlong) || d.(dlonglong) || bool_decide (xt = etPOINTER) = true /\ in_s 64 v
  | A_int v :: _ => d.(dlong) || d.(dlonglong) || bool_decide (xt = etPOINTER) = false /\ in_s 32 v
  | _ => False
  end ->
  convert_radix i xt d s <> Undefined.
Proof.
  intros Hb Hp Hw Ha. unfold convert_radix.
  destruct (int_value _ _ _ _) as [[[pre v] l]|] eqn:E.
  2:{ destruct s.(ap) as [|[]]; cbn in E; try done; destruct Ha as [Hx _]; rewrite Hx in E; done. }
  apply int_value_range in E; [|by destruct s.(ap) as [|[]]; try done; apply Ha]. cbv zeta.
  match goal with |- context [?p <? etBUFSIZE - 10] => set (prec := p) end.
  assert (Hprec : prec < 2 ^ 31).
  { unfold in_s in *. subst prec. destruct (_ && _); [|lia]. destruct (pre =? 0); lia. }
  pose proof (radix_text_length i xt prec (alternateform (dflags d) && negb (v =? 0)) pre v Hb E) as Hl.
  unfold etBUFSIZE. destruct (Z.ltb_spec prec (70 - 10)).
  - destruct (Z.leb_spec (Z.of_nat (length (radix_text i xt prec (alternateform (dflags d) && negb (v =? 0)) pre v))) (70 - 1)); [done|lia].
  - destruct (buffer _ (i32 (prec + 10))) as [[a|] a'] eqn:Eb; [|done]. apply Hbuffer in Eb.
    unfold malloc_size_ok in Eb. apply negb_true_iff, orb_false_iff in Eb as [E1 E2].
    assert (Hi : i32 (prec + 10) = prec + 10) by (unfold_int; zlia).
    rewrite Hi. match goal with |- context [?x <=? _] => destruct (Z.leb_spec x (prec + 10 - 1)); [done|lia] end.
Qed.

End Bounds.

Lemma StrAccum_buffer (a a1 a2 : StrAccum) n : buffer a n = (Some a1, a2) -> malloc_size_ok n = true.
Proof. cbn. by destruct (malloc_size_ok n). Qed.

Lemma fmtinfo_base i : i ∈ fmtinfo -> i.(itype) ∈ [etRADIX; etORDINAL; etPOINTER] -> 8 <= i.(base).
Proof.
  unfold fmtinfo. rewrite !elem_of_cons, elem_of_nil. intros Hi. destruct_or! Hi; try done; subst i; cbn; intros; try lia;
    set_solver.
Qed.

(** The size that the first loop of the quoting conversions computes is the
    number of bytes that the second one writes, with the terminator. *)
Lemma escape_defined `{FloatText} xt d (s : state StrAccum) :
  match s.(ap) with A_str z :: _ => 2 * zlength (default [] z) + 3 < 2 ^ 31 | _ => False end ->
  convert_escape xt d s <> Undefined.
Proof.
  intros Ha. unfold convert_escape. destruct s.(ap) as [|[] l]; try done. cbv zeta.
  set (q := if decide (xt = etSQLESCAPE3) then 34 else 39). set (need := _ && _).
  set (arg := match z with Some z => z | None => _ end).
  set (taken := if _ <? 0 then arg else _). set (text := if need then q :: escape q taken ++ [q] else escape q taken).
  assert (Harg : 2 * zlength arg + 3 < 2 ^ 31) by (unfold arg; destruct z; [exact Ha|destruct (decide (xt = etSQLESCAPE2)); reflexivity]).
  assert (Htaken : zlength taken <= zlength arg).
  { unfold taken, zlength. destruct (_ <? 0); [done|]. rewrite length_take. lia. }
  pose proof (escape_length q taken) as He. pose proof (escape_length_le q taken) as Hle.
  assert (Hl : Z.of_nat (length text) = zlength (escape q taken) + (if need then 2 else 0)).
  { unfold text, zlength. destruct need; cbn [length]; rewrite ?length_app; cbn [length]; lia. }
  match goal with |- context [i32 ?m] => assert (Hm : m = Z.of_nat (length text) + 1) by (unfold zlength in *; lia);
    rewrite Hm, (i32_small (Z.of_nat (length text) + 1)) by (destruct need; lia) end.
  set (n := Z.of_nat (length text) + 1). rewrite Z.gtb_ltb.
  destruct (Z.ltb_spec etBUFSIZE n).
  - destruct (buffer _ n) as [[a|] a']; [|done]. by rewrite Z.leb_refl.
  - by rewrite (proj2 (Z.leb_le _ _)).
Qed.

(** The bytes that the loop of %c writes: the array has room for 70. *)
Lemma repeat_char_spec fuel c p : forall idx buf,
  1 <= idx <= 70 -> Z.of_nat fuel = 71 - idx -> length buf = Z.to_nat idx ->
  if 70 <? p then repeat_char fuel c p idx buf = None
  else exists buf', repeat_char fuel c p idx buf = Some buf' /\ zlength buf' = Z.max idx p.
Proof.
  induction fuel as [|fuel IH]; intros idx buf Hi Hf Hb; [lia|]. cbn [repeat_char].
  destruct (Z.ltb_spec idx p) as [Hp|Hp].
  - unfold etBUFSIZE. destruct (Z.ltb_spec idx 70) as [Hlt|Hlt].
    + specialize (IH (idx + 1) (buf ++ [c]) ltac:(lia) ltac:(lia) ltac:(rewrite length_app; cbn; lia)).
      by replace (Z.max (idx + 1) p) with (Z.max idx p) in IH by lia.
    + by destruct (Z.ltb_spec 70 p); [|lia].
  - destruct (Z.ltb_spec 70 p); [lia|]. exists buf. split; [done|]. unfold zlength. lia.
Qed.

Lemma char_defined `{FloatText} d (s : state StrAccum) :
  match s.(ap) with A_int _ :: _ => True | _ => False end ->
  convert_char d s = Undefined <-> 70 < d.(precision).
Proof.
  intros Ha. unfold convert_char. destruct s.(ap) as [|[c| | | | | |] l]; try done.
  destruct (Z.leb_spec 0 d.(precision)); [|split; [done|lia]].
  pose proof (repeat_char_spec 70 (u8 c) d.(precision) 1 [u8 c] ltac:(lia) eq_refl eq_refl) as Hc.
  destruct (Z.ltb_spec 70 d.(precision)); [by rewrite Hc|]. destruct Hc as (buf & -> & _). split; [done|lia].
Qed.

(** ** Floating point numbers *)

(** The decimal exponent that %f gives a number: that of its absolute value
    plus one half of the last digit. *)
Definition fixed_exponent (d : directive) (b : Z) : Z :=
  let precision := if d.(precision) <? 0 then 6 else d.(precision) in
  let v := ldouble_add (float_sign d.(dflags) (ldouble_of_double (double_of_bits b))).1 (rounder_loop (Z.to_nat precision) d_half) in
  if sqlite3IsNaN (double_of_ldouble v) then 0 else (normalize v).2.

Lemma convert_float_fits xt d b :
  0 <= d.(width) < 2 ^ 28 -> d.(precision) < 2 ^ 28 -> xt ∈ [etFLOAT; etEXP; etGENERIC] ->
  (xt = etFLOAT -> -10 <= fixed_exponent d b) ->
  let f := convert_float xt d b in f.(fused) <= default etBUFSIZE f.(fsize).
Proof.
  intros Hw Hd Hx He. cbv zeta. unfold convert_float, fixed_exponent in *. destruct (float_sign _ _) as [v prefix]. cbn [fst] in He.
  set (p0 := if _ <? 0 then 6 else _) in *. assert (Hp0 : 0 <= p0 < 2 ^ 28) by (unfold p0; case Z.ltb_spec; lia).
  set (p1 := if bool_decide _ && _ then _ else _). assert (Hp1 : 0 <= p1 < 2 ^ 28) by (unfold p1; case Z.ltb_spec; destruct (bool_decide _); cbn [andb]; lia).
  assert (H1 : xt = etFLOAT -> p1 = p0) by (intros ->; unfold p1; by rewrite bool_decide_false). clearbody p0 p1.
  destruct (decide (xt = etFLOAT)) as [->|Hne].
  - specialize (He eq_refl). rewrite (H1 eq_refl) in *. destruct (sqlite3IsNaN _); [done|].
    destruct (normalize _) as [v' exp]. cbn [snd] in He. rewrite Z.gtb_ltb. destruct (Z.ltb_spec 350 exp); [done|].
    destruct (decide (etFLOAT = etGENERIC)); [done|]. apply float_block_fits; [lia|lia|]. destruct (decide _); [done|lia].
  - clear He. destruct (sqlite3IsNaN _); [done|]. destruct (normalize _) as [v' exp]. rewrite Z.gtb_ltb. destruct (Z.ltb_spec 350 exp); [done|].
    set (q := if ldouble_leb _ _ then _ else _).
    assert (Hq : q.2 <= 351) by (unfold q; destruct (ldouble_leb _ _); cbn; lia). destruct q as [v'' exp']. cbn in Hq.
    destruct (decide (xt = etGENERIC)) as [->|Hne'].
    + rewrite Z.gtb_ltb. destruct (Z.ltb_spec exp' (-4)), (Z.ltb_spec p1 exp'); cbn [orb]; apply float_block_fits;
        try done; repeat (destruct (decide _); try done); lia.
    + apply float_block_fits; [lia|lia|]. destruct (decide (xt = etEXP)) as [_|Hn]; [lia|]. exfalso. set_solver.
Qed.

Lemma scale_up_exponent fuel : forall c k v scale exp, 0 <= k -> exp <= (scale_up fuel c k v scale exp).2.
Proof.
  induction fuel as [|fuel IH]; intros c k v scale exp Hk; cbn [scale_up]; [done|]. destruct (_ && _); [|done].
  etrans; [|by apply IH]. lia.
Qed.

Lemma scale_down_exponent fuel : forall bound c k v exp, 0 <= k -> exp - Z.of_nat fuel * k <= (scale_down fuel bound c k v exp).2.
Proof.
  induction fuel as [|fuel IH]; intros bound c k v exp Hk; cbn [scale_down snd]; [lia|]. destruct (ldouble_ltb _ _); cbn [snd]; [|lia].
  etrans; [|by apply IH]. lia.
Qed.

Lemma normalize_exponent v : -400 <= (normalize v).2.
Proof.
  unfold normalize. destruct (SFltb d_zero v); [|done].
  pose proof (scale_up_exponent 5 d_1e100 100 v (ldouble_of_i64 1) 0 ltac:(lia)) as H1. destruct (scale_up 5 _ _ _ _ _) as [s1 e1].
  pose proof (scale_up_exponent 7 d_1e64 64 v s1 e1 ltac:(lia)) as H2. destruct (scale_up 7 _ _ _ _ _) as [s2 e2].
  pose proof (scale_up_exponent 46 d_1e8 8 v s2 e2 ltac:(lia)) as H3. destruct (scale_up 46 _ _ _ _ _) as [s3 e3].
  pose proof (scale_up_exponent 352 d_1e1 1 v s3 e3 ltac:(lia)) as H4. destruct (scale_up 352 _ _ _ _ _) as [s4 e4].
  pose proof (scale_down_exponent 48 d_1em8 d_1e8 8 (ldouble_div v s4) e4 ltac:(lia)) as H5. destruct (scale_down 48 _ _ _ _ _) as [v5 e5].
  pose proof (scale_down_exponent 16 d_one d_1e1 1 v5 e5 ltac:(lia)) as H6. cbn [snd] in *. lia.
Qed.

Lemma float_raw_small d prefix v precision exp : exp < 0 -> 0 < precision ->
  2 + precision <= Z.of_nat (length (float_raw etFLOAT d prefix v precision exp)).
Proof.
  intros He Hp. unfold float_raw. destruct (decide (etFLOAT = etEXP)); [done|].
  destruct (Z.ltb_spec exp 0); [|lia]. destruct (Z.ltb_spec 0 precision); [|lia]. cbn [orb].
  match goal with |- context [digits_text ?k v ?c] => pose proof (digits_text_length k v c) as Hf; destruct (digits_text k v c) as [[frac ?] ?] end.
  cbn in Hf. rewrite !length_app, repeat_length, Hf. cbn [length]. lia.
Qed.

Lemma convert_float_overflows d b :
  0 <= d.(width) < 2 ^ 28 -> 70 < d.(precision) < 2 ^ 28 ->
  fixed_exponent d b < 0 -> fixed_exponent d b + d.(precision) + d.(width) <= 55 ->
  let f := convert_float etFLOAT d b in f.(fsize) = None /\ 70 < f.(fused).
Proof.
  intros Hw Hd He Hs. cbv zeta. unfold convert_float, fixed_exponent in *. destruct (float_sign _ _) as [v prefix]. cbn [fst] in *.
  destruct (Z.ltb_spec (precision d) 0); [lia|]. cbn [andb bool_decide]. rewrite bool_decide_false by done. cbn [andb].
  destruct (decide (etFLOAT = etFLOAT)) as [_|]; [|done]. destruct (sqlite3IsNaN _); [lia|].
  match goal with |- context [normalize ?x] => pose proof (normalize_exponent x) as Hn end.
  destruct (normalize _) as [v' exp]. cbn [snd] in *. rewrite Z.gtb_ltb. destruct (Z.ltb_spec 350 exp); [lia|].
  destruct (decide (etFLOAT = etGENERIC)); [done|]. unfold float_block. cbn [fsize fused].
  pose proof (float_raw_small d prefix v' (precision d) exp He ltac:(lia)). split; [|lia].
  unfold float_size. destruct (decide (etFLOAT = etEXP)); [done|]. cbv zeta. rewrite i32_small by lia. rewrite Z.gtb_ltb. unfold etBUFSIZE.
  by destruct (Z.ltb_spec (70 - 15) (exp + precision d + width d)); [lia|].
Qed.

Lemma StrAccum_double_defined xt d b l (s : state StrAccum) :
  s.(ap) = A_double b :: l -> (convert_float xt d b).(fused) <= default etBUFSIZE (convert_float xt d b).(fsize) ->
  convert_double xt d s <> Undefined.
Proof.
  intros Ha Hf. unfold convert_double, float_text. rewrite Ha. cbv zeta.
  destruct (match fsize _ with None => _ | Some k => _ end) as [[a|] a']; [|done]. by rewrite (proj2 (Z.leb_le _ _) Hf).
Qed.

(** Every conversion but %f. *)
Lemma convert_others i d (s : state StrAccum) :
  i ∈ fmtinfo -> in_s 32 d.(precision) -> in_s 32 d.(width) -> args_fit i d s.(ap) -> i.(itype) <> etFLOAT ->
  convert i d s = Undefined <-> i.(itype) = etCHARX /\ 70 < d.(precision).
Proof.
  intros Hi Hp Hw Ha Hf.
  pose proof (fmtinfo_base i Hi) as Hb. unfold args_fit in Ha. unfold convert.
  assert (Hr : forall xt, i.(itype) = xt -> xt ∈ [etRADIX; etORDINAL; etPOINTER] ->
    match s.(ap) with
    | A_i64 v :: _ => d.(dlong) || d.(dlonglong) || bool_decide (xt = etPOINTER) = true /\ in_s 64 v
    | A_int v :: _ => d.(dlong) || d.(dlonglong) || bool_decide (xt = etPOINTER) = false /\ in_s 32 v
    | _ => False
    end -> convert_radix i xt d s = Undefined <-> xt = etCHARX /\ 70 < d.(precision)).
  { intros xt E Hx Hm. split; [|by intros [-> _]; in_cases Hx].
    intros Hu. exfalso. revert Hu. apply convert_radix_defined; try done; [apply StrAccum_buffer|]. by apply Hb; rewrite E. }
  destruct i.(itype) eqn:E; try done; try (by destruct s.(ap) as [|[] l]; split; try done; intros [? _]).
  - apply Hr; [done|set_solver|]. rewrite bool_decide_false, orb_false_r by done. exact Ha.
  - destruct s.(ap) as [|[] l] eqn:El; try done. split; [|by intros [? _]]. intros Hu. exfalso. revert Hu.
    eapply StrAccum_double_defined; [done|]. by apply convert_float_fits; [lia|lia|set_solver|].
  - destruct s.(ap) as [|[] l] eqn:El; try done. split; [|by intros [? _]]. intros Hu. exfalso. revert Hu.
    eapply StrAccum_double_defined; [done|]. by apply convert_float_fits; [lia|lia|set_solver|].
  - unfold convert_string. by destruct s.(ap) as [|[] l]; split; try done; intros [? _].
  - unfold convert_string. by destruct s.(ap) as [|[] l]; split; try done; intros [? _].
  - rewrite char_defined by (by destruct s.(ap) as [|[]]). by split; [|intros []].
  - split; [|by intros [? _]]. intros Hu. exfalso. revert Hu. by apply escape_defined.
  - split; [|by intros [? _]]. intros Hu. exfalso. revert Hu. by apply escape_defined.
  - unfold convert_srclist. destruct s.(ap) as [|[| | | | |items|] [|[k| | | | | |] l]]; try done.
    destruct (Z.leb_spec 0 k); [|lia]. destruct (lookup_lt_is_Some_2 items (Z.to_nat k) ltac:(lia)) as [[db nm] ->].
    split; [done|by intros [? _]].
  - apply Hr; [done|set_solver|]. rewrite bool_decide_true by done. rewrite orb_true_r.
    by destruct s.(ap) as [|[] l].
  - split; [|by intros [? _]]. intros Hu. exfalso. revert Hu. by apply escape_defined.
  - apply Hr; [done|set_solver|]. rewrite bool_decide_false, orb_false_r by done. exact Ha.
Qed.

(** C39: for arguments of the right types, a conversion other than %f writes
    outside its buffer only for %c with a precision above 70.  %f stays inside
    when the decimal exponent it computes for the rounded number is at least
    -10, and writes outside when the exponent is negative, the precision above
    70 and the sum of the exponent, the precision and the width at most 55. *)
Theorem convert_defined i d (s : state StrAccum) :
  i ∈ fmtinfo -> in_s 32 d.(precision) -> in_s 32 d.(width) -> args_fit i d s.(ap) ->
  (i.(itype) <> etFLOAT -> convert i d s = Undefined <-> i.(itype) = etCHARX /\ 70 < d.(precision))
  /\ (i.(itype) = etFLOAT -> forall b l, s.(ap) = A_double b :: l ->
       (-10 <= fixed_exponent d b -> convert i d s <> Undefined)
       /\ (fixed_exponent d b < 0 -> fixed_exponent d b + d.(precision) + d.(width) <= 55 -> 70 < d.(precision) ->
            convert i d s = Undefined)).
Proof.
  intros Hi Hp Hw Ha. split; [by apply convert_others|]. intros E b l El. unfold args_fit in Ha. rewrite E, El in Ha. destruct Ha as [Ha1 Ha2].
  unfold convert. rewrite E. split.
  - intros He. eapply StrAccum_double_defined; [done|]. apply convert_float_fits; [done|done|set_solver|done].
  - intros H1 H2 H3. destruct (convert_float_overflows d b Ha1 ltac:(lia) H1 H2) as [Hs Hu].
    unfold convert_double, float_text. rewrite El. cbv zeta. rewrite Hs. cbn [default]. unfold etBUFSIZE. by destruct (Z.leb_spec (fused (convert_float etFLOAT d b)) 70); [lia|].
Qed.

(** %5.3d of -7, and %.100f of 0.0, which overflows. *)
Lemma convert_defined_witness :
  let d := mkDirective (mkFlags false false false false false false) 5 3 false false 100 in
  let s := mkState (sqlite3StrAccumInit 70 1000 []) [A_int (-7)] [] in
  let d' := mkDirective (mkFlags false false false false false false) 0 100 false false 102 in
  let s' := mkState (sqlite3StrAccumInit 70 1000 []) [A_double 0] [] in
  (convert (mkInfo 100 10 1 etRADIX 0 0) d s = Undefined <-> etRADIX = etCHARX /\ 70 < 3)
  /\ convert (mkInfo 102 0 1 etFLOAT 0 0) d' s' = Undefined.
Proof.
  intros d s d' s'. split.
  - apply (convert_defined (mkInfo 100 10 1 etRADIX 0 0) d s);
      [unfold fmtinfo; set_solver|split; vm_compute; congruence|split; vm_compute; congruence|split; [done|split; vm_compute; congruence]|done].
  - apply (proj2 (convert_defined (mkInfo 102 0 1 etFLOAT 0 0) d' s' ltac:(unfold fmtinfo; set_solver) ltac:(split; vm_compute; congruence)
      ltac:(split; vm_compute; congruence) ltac:(cbn; lia)) eq_refl 0 [] eq_refl); vm_compute; congruence.
Defined.
