(* ===== verification/Value.v ===== *)
(** * Values: conversions and copies (src/lmdb-backend/src/vdbemem.c, vdbe.c)

    What [Mem] leaves out: text of numbers, numbers of text, affinities, setting
    and copying cells, texts of values.  Operations that can
    allocate run over the outcomes of the allocations to come and the flag
    [mallocFailed] of the connection. *)

From S2P Require Import Prelude Ctype Ints Utf Printf Mem Real.
From Stdlib Require Import Floats.SpecFloat.

(** ** Allocations *)

Record alloc := mkAlloc { mallocs : list bool; mallocFailed : bool }.

(** A computation over it; [None] is undefined behaviour. *)
Definition AM (A : Type) : Type := alloc -> option (A * alloc).
#[export] Instance AM_ret : MRet AM := fun A x a => Some (x, a).
#[export] Instance AM_bind : MBind AM := fun A B f m a => '(x, a) ← m a; f x a.

(** A result that must be defined. *)
Definition must {A} (x : option A) : AM A := fun a => v ← x; Some (v, a).

(** The outcome of the allocations of one call: whether one fails. *)
Definition draw : AM bool := fun a =>
  Some (match a.(mallocs) with [] => false | b :: _ => b end, mkAlloc (tail a.(mallocs)) a.(mallocFailed)).

Definition set_mallocFailed : AM () := fun a => Some ((), mkAlloc a.(mallocs) true).

(** A call that returns SQLITE_NOMEM exactly when an allocation failed. *)
Definition attempt (f : bool -> option (Z * Mem)) : AM (Z * Mem) :=
  fun a =>
    '(oom, a) ← draw a;
    '(rc, m) ← f oom;
    Some ((rc, m), if rc =? SQLITE_OK then a else mkAlloc a.(mallocs) true).

Definition grow (m : Mem) (nb : Z) (preserve : bool) : AM (Z * Mem) :=
  attempt (fun oom => Some (sqlite3VdbeMemGrow oom m nb preserve)).
Definition ExpandBlob (m : Mem) : AM (Z * Mem) := attempt (fun oom => Some (sqlite3VdbeMemExpandBlob oom m)).
Definition MakeWriteable (m : Mem) : AM (Z * Mem) :=
  '(_, m) ← ExpandBlob m;
  attempt (fun oom => Some (sqlite3VdbeMemMakeWriteable oom m)).
Definition NulTerminate (m : Mem) : AM (Z * Mem) := attempt (fun oom => Some (sqlite3VdbeMemNulTerminate oom m)).
Definition ChangeEncoding (m : Mem) (e : Z) : AM (Z * Mem) := attempt (fun oom => sqlite3VdbeChangeEncoding oom m e).
Definition HandleBom (m : Mem) : AM (Z * Mem) := attempt (fun oom => Some (sqlite3VdbeMemHandleBom oom m)).

(** ** Numbers *)

Definition set_r (m : Mem) (x : spec_float) : Mem :=
  mkMem m.(flags) (bits_of_double x) m.(u) m.(n) m.(z) m.(enc) m.(own) m.(szMalloc).

Definition sqlite3VdbeRealValue (m : Mem) : spec_float :=
  if has m.(flags) MEM_Real then double_of_bits m.(r)
  else if has m.(flags) MEM_Int then double_of_i64 m.(u)
  else if has m.(flags) (Z.lor MEM_Str MEM_Blob) then snd (sqlite3AtoF (content m) m.(enc))
  else d_zero.

Definition sqlite3VdbeMemRealify (m : Mem) : Mem := MemSetTypeFlag (set_r m (sqlite3VdbeRealValue m)) MEM_Real.

Definition clear_flags (m : Mem) (f : Z) : Mem := set_flags m (Z.land m.(flags) (Z.lnot f)).
Definition add_flags (m : Mem) (f : Z) : Mem := set_flags m (Z.lor m.(flags) f).

Definition sqlite3VdbeMemNumerify (m : Mem) : Mem :=
  let m :=
    if negb (has m.(flags) (Z.lor (Z.lor MEM_Int MEM_Real) MEM_Null)) then
      let '(rc, i) := sqlite3Atoi64 (content m) m.(enc) in
      let m := set_u m i in
      if rc =? 0 then MemSetTypeFlag m MEM_Int
      else sqlite3VdbeIntegerAffinity (MemSetTypeFlag (set_r m (sqlite3VdbeRealValue m)) MEM_Real)
    else m in
  clear_flags m (Z.lor MEM_Str MEM_Blob).

Definition sqlite3VdbeMemSetNull (m : Mem) : Mem := MemSetTypeFlag m MEM_Null.

(** [sqlite3VdbeMemRelease]: the cell keeps its other fields. *)
Definition sqlite3VdbeMemRelease (m : Mem) : Mem := mkMem m.(flags) m.(r) m.(u) m.(n) [] m.(enc) true 0.

Definition sqlite3VdbeMemSetDouble (m : Mem) (val : spec_float) : Mem :=
  if sqlite3IsNaN val then sqlite3VdbeMemSetNull m
  else set_flags (set_r (sqlite3VdbeMemRelease m) val) MEM_Real.

(** ** The manifest type *)

Definition SQLITE_INTEGER : Z := 1.
Definition SQLITE_FLOAT : Z := 2.
Definition SQLITE_TEXT : Z := 3.
Definition SQLITE_BLOB : Z := 4.
Definition SQLITE_NULL : Z := 5.

(** The value [sqlite3VdbeMemStoreType] gives the field [type]. *)
Definition sqlite3VdbeMemStoreType (m : Mem) : Z :=
  let f := m.(flags) in
  if has f MEM_Null then SQLITE_NULL
  else if has f MEM_Int then SQLITE_INTEGER
  else if has f MEM_Real then SQLITE_FLOAT
  else if has f MEM_Str then SQLITE_TEXT
  else SQLITE_BLOB.

(** ** Copies *)

(** The pointer [z] of a shallow copy is the bytes it points to, which the
    program must not change while the copy lives. *)
Definition sqlite3VdbeMemMove (pTo pFrom : Mem) : Mem * Mem :=
  (pFrom, mkMem MEM_Null pFrom.(r) pFrom.(u) pFrom.(n) pFrom.(z) pFrom.(enc) false 0).

Definition sqlite3VdbeMemCopy (pTo pFrom : Mem) : AM (Z * Mem) :=
  let m := mkMem (Z.land pFrom.(flags) (Z.lnot MEM_Dyn)) pFrom.(r) pFrom.(u) pFrom.(n) pFrom.(z) pFrom.(enc) false pTo.(szMalloc) in
  if has m.(flags) (Z.lor MEM_Str MEM_Blob) && negb (has pFrom.(flags) MEM_Static)
  then MakeWriteable (add_flags m MEM_Ephem)
  else mret (SQLITE_OK, m).

(** ** Text *)

Section Text.
Context `{FloatText}.

Definition fmt_i64 : list Z := [37; 108; 108; 100].             (* "%lld" *)
Definition fmt_real : list Z := [37; 33; 46; 49; 53; 103].     (* "%!.15g" *)

Definition sqlite3VdbeMemStringify (m : Mem) (e : Z) : AM (Z * Mem) :=
  let fg := m.(flags) in
  _ ← must (if has fg (Z.lor MEM_Zero (Z.lor MEM_Str MEM_Blob)) || negb (has fg (Z.lor MEM_Int MEM_Real)) then None else Some ());
  '(rc, m) ← grow m 32 false;
  if negb (rc =? SQLITE_OK) then mret (SQLITE_NOMEM, m)
  else
    t ← must (if has fg MEM_Int then sqlite3_snprintf 32 [] [] fmt_i64 [A_i64 m.(u)]
              else sqlite3_snprintf 32 [] [] fmt_real [A_double m.(r)]);
    let t := default [] t in
    let m := mkMem m.(flags) m.(r) m.(u) (sqlite3Strlen30 (Some t)) (t ++ [0]) SQLITE_UTF8 m.(own) m.(szMalloc) in
    '(_, m) ← ChangeEncoding (add_flags m (Z.lor MEM_Str MEM_Term)) e;
    mret (SQLITE_OK, m).

Definition applyNumericAffinity (m : Mem) : Mem :=
  if negb (has m.(flags) (Z.lor MEM_Real MEM_Int)) then
    if negb (has m.(flags) MEM_Str) then m
    else
      let '(valid, rValue) := sqlite3AtoF (content m) m.(enc) in
      if negb (valid : bool) then m
      else
        let '(rc, iValue) := sqlite3Atoi64 (content m) m.(enc) in
        if rc =? 0 then add_flags (set_u m iValue) MEM_Int
        else add_flags (set_r m rValue) MEM_Real
  else m.

Definition SQLITE_AFF_TEXT : Z := 97.
Definition SQLITE_AFF_NONE : Z := 98.
Definition SQLITE_AFF_NUMERIC : Z := 99.
Definition SQLITE_AFF_INTEGER : Z := 100.
Definition SQLITE_AFF_REAL : Z := 101.

Definition applyAffinity (m : Mem) (affinity e : Z) : AM Mem :=
  if affinity =? SQLITE_AFF_TEXT then
    m ← (if negb (has m.(flags) MEM_Str) && has m.(flags) (Z.lor MEM_Real MEM_Int)
         then '(_, m) ← sqlite3VdbeMemStringify m e; mret m
         else mret m : AM Mem);
    mret (clear_flags m (Z.lor MEM_Real MEM_Int))
  else if negb (affinity =? SQLITE_AFF_NONE) then
    let m := applyNumericAffinity m in
    mret (if has m.(flags) MEM_Real then sqlite3VdbeIntegerAffinity m else m)
  else mret m.

(** [sqlite3ValueText]: the cell, and whether the result is a text, its [z]; a
    failed allocation leaves NULL there.  [e] has no SQLITE_UTF16_ALIGNED bit. *)
Definition ValueText (m : Mem) (e : Z) : AM (Mem * bool) :=
  if has m.(flags) MEM_Null then mret (m, false)
  else
    let m := add_flags m (Z.shiftr (Z.land m.(flags) MEM_Blob) 3) in
    '(_, m) ← ExpandBlob m;
    m ← (if has m.(flags) MEM_Str then
           '(_, m) ← ChangeEncoding m e;
           '(_, m) ← NulTerminate m;
           mret m
         else '(_, m) ← sqlite3VdbeMemStringify m e; mret m : AM Mem);
    mret (m, (m.(enc) =? e) && negb (has m.(flags) MEM_Null)).

Definition sqlite3ValueBytes (m : Mem) (e : Z) : AM (Mem * Z) :=
  '(m, ok) ← (if has m.(flags) MEM_Blob then mret (m, true) else ValueText m e : AM (Mem * bool));
  mret (m, if ok : bool then (if has m.(flags) MEM_Zero then m.(n) + nZero m else m.(n)) else 0).

(** ** Setting a text or a blob *)

(** The destructor: SQLITE_STATIC, SQLITE_TRANSIENT, SQLITE_DYNAMIC or a
    function. *)
Inductive destructor := SQLITE_STATIC | SQLITE_TRANSIENT | SQLITE_DYNAMIC | xDel_other.

(** [for(nByte=0; nByte<=iLimit && z[nByte]; nByte++)] *)
Fixpoint len8 (z : list Z) (iLimit nByte : Z) : Z :=
  match z with
  | c :: z => if (nByte <=? iLimit) && negb (c =? 0) then len8 z iLimit (nByte + 1) else nByte
  | [] => nByte
  end.

(** [for(nByte=0; nByte<=iLimit && (z[nByte] | z[nByte+1]); nByte+=2)] *)
Fixpoint len16 (z : list Z) (iLimit nByte : Z) : Z :=
  match z with
  | c :: d :: z => if (nByte <=? iLimit) && negb (Z.lor c d =? 0) then len16 z iLimit (nByte + 2) else nByte
  | _ => nByte
  end.

(** [zp] is NULL or the bytes that can be read through it. *)
Definition sqlite3VdbeMemSetStr (iLimit : Z) (m : Mem) (zp : option (list Z)) (nb e : Z) (xDel : destructor) : AM (Z * Mem) :=
  match zp with
  | None => mret (SQLITE_OK, sqlite3VdbeMemSetNull m)
  | Some s =>
      let f := if e =? 0 then MEM_Blob else MEM_Str in
      let nByte := if nb <? 0 then (if e =? SQLITE_UTF8 then len8 s iLimit 0 else len16 s iLimit 0) else nb in
      let f := if nb <? 0 then Z.lor f MEM_Term else f in
      let nAlloc := if has f MEM_Term then nByte + (if e =? SQLITE_UTF8 then 1 else 2) else nByte in
      '(rc, m, f) ←
        (match xDel with
         | SQLITE_TRANSIENT =>
             if nByte >? iLimit then mret (SQLITE_TOOBIG, m, f)
             else
               '(rc, m) ← grow m nAlloc false;
               mret (rc, if rc =? SQLITE_OK then set_z m (take (Z.to_nat nAlloc) s) else m, f)
         | SQLITE_DYNAMIC => mret (SQLITE_OK, mkMem m.(flags) m.(r) m.(u) m.(n) s m.(enc) true (Z.of_nat (length s)), f)
         | SQLITE_STATIC => mret (SQLITE_OK, mkMem m.(flags) m.(r) m.(u) m.(n) s m.(enc) false 0, Z.lor f MEM_Static)
         | xDel_other => mret (SQLITE_OK, mkMem m.(flags) m.(r) m.(u) m.(n) s m.(enc) false 0, Z.lor f MEM_Dyn)
         end : AM (Z * Mem * Z));
      if negb (rc =? SQLITE_OK) then mret (rc, m)
      else
        let m := mkMem f m.(r) m.(u) nByte m.(z) (if e =? 0 then SQLITE_UTF8 else e) m.(own) m.(szMalloc) in
        '(rc, m) ← (if negb (m.(enc) =? SQLITE_UTF8) then HandleBom m else mret (SQLITE_OK, m) : AM (Z * Mem));
        if negb (rc =? SQLITE_OK) then mret (SQLITE_NOMEM, m)
        else mret (if nByte >? iLimit then SQLITE_TOOBIG else SQLITE_OK, m)
  end.
End Text.
