(* ===== verification/Vdbe.v ===== *)
(** * The virtual machine (src/lmdb-backend/src/vdbe.c)

    The interpreter [sqlite3VdbeExec] on the instructions that work on
    registers and on the program counter: control flow, constants, copies,
    arithmetic, comparison, logic, conversions, functions and result rows.  One
    definition per case of the switch, in the order of the source.  The cases
    on cursors, transactions, triggers and virtual tables are not here.

    A pointer into [aMem] is the number of a register; the cells are the store,
    so an instruction that names a register twice sees its own writes.  A failed
    assertion is undefined behaviour; so is the read of a cell marked
    MEM_Invalid where the code asserts [memIsValid]. *)

From S2P Require Import Prelude Ctype Ints Utf Printf Mem Serial Real Value.
From Stdlib Require Import Floats.SpecFloat.

(** ** Programs *)

Inductive opcode :=
  | OP_Goto | OP_Gosub | OP_Return | OP_Yield | OP_HaltIfNull | OP_Halt
  | OP_Integer | OP_Int64 | OP_Real | OP_String8 | OP_String | OP_Null | OP_Blob | OP_Variable
  | OP_Move | OP_Copy | OP_SCopy | OP_ResultRow | OP_Concat
  | OP_Add | OP_Subtract | OP_Multiply | OP_Divide | OP_Remainder
  | OP_CollSeq | OP_Function
  | OP_BitAnd | OP_BitOr | OP_ShiftLeft | OP_ShiftRight | OP_AddImm | OP_MustBeInt | OP_RealAffinity
  | OP_ToText | OP_ToBlob | OP_ToNumeric | OP_ToInt | OP_ToReal
  | OP_Eq | OP_Ne | OP_Lt | OP_Le | OP_Gt | OP_Ge | OP_Permutation | OP_Compare | OP_Jump
  | OP_And | OP_Or | OP_Not | OP_BitNot | OP_Once | OP_If | OP_IfNot | OP_IsNull | OP_NotNull
  | OP_Affinity | OP_FkCounter | OP_FkIfZero | OP_MemMax | OP_IfPos | OP_IfNeg | OP_IfZero | OP_Noop.

#[global] Instance opcode_eq_dec : EqDecision opcode.
Proof. solve_decision. Defined.

(** The context a function is called with: the result [s], the error code and
    the collating sequence. *)
Record sqlite3_context := mkContext { ctx_s : Mem; isError : Z; ctx_coll : option CollSeq }.

(** A function: the number of its arguments, -1 for any; whether it has
    SQLITE_FUNC_NEEDCOLL; and [xFunc], which may change the representation of
    its arguments. *)
Record FuncDef := mkFuncDef {
  nArg : Z;
  needcoll : bool;
  xFunc : sqlite3_context -> list Mem -> AM (sqlite3_context * list Mem);
}.

Inductive p4_union :=
  | P4_NOTUSED
  | P4_INT64 (i : Z)
  | P4_REAL (r : Z)
  | P4_TEXT (z : list Z)            (** P4_STATIC or P4_DYNAMIC: [char*] *)
  | P4_FUNCDEF (f : FuncDef)
  | P4_COLLSEQ (c : option CollSeq)
  | P4_KEYINFO (k : KeyInfo)
  | P4_INTARRAY (ai : list Z).

Record Op := mkOp { opc : opcode; p1 : Z; p2 : Z; p3 : Z; p4 : p4_union; p5 : Z }.

(** The parts of the connection that the instructions use. *)
Record sqlite3 := mkDb { encoding : Z; iLimit : Z; isInterrupted : bool; nDeferredCons : Z }.

Record Vdbe := mkVdbe {
  aOp : list Op;
  aMem : list Mem;              (** registers 1 to nMem; the first cell is not used *)
  aVar : list Mem;
  nResColumn : Z;
  aOnceFlag : list bool;
  nFkConstraint : Z;
  cacheCtr : Z;
  pc : Z;
  vrc : Z;                      (** [p->rc] *)
  errorAction : Z;
  pResultSet : Z;               (** the first register of the row *)
  iCompare : Z;
  aPermute : option (list Z);
  db : sqlite3;
  heap : alloc;
}.

(** Setters. *)
Definition set_aMem (s : Vdbe) (x : list Mem) : Vdbe :=
  mkVdbe s.(aOp) x s.(aVar) s.(nResColumn) s.(aOnceFlag) s.(nFkConstraint) s.(cacheCtr) s.(pc) s.(vrc) s.(errorAction) s.(pResultSet) s.(iCompare) s.(aPermute) s.(db) s.(heap).
Definition set_pc (s : Vdbe) (x : Z) : Vdbe :=
  mkVdbe s.(aOp) s.(aMem) s.(aVar) s.(nResColumn) s.(aOnceFlag) s.(nFkConstraint) s.(cacheCtr) x s.(vrc) s.(errorAction) s.(pResultSet) s.(iCompare) s.(aPermute) s.(db) s.(heap).
Definition set_heap (s : Vdbe) (x : alloc) : Vdbe :=
  mkVdbe s.(aOp) s.(aMem) s.(aVar) s.(nResColumn) s.(aOnceFlag) s.(nFkConstraint) s.(cacheCtr) s.(pc) s.(vrc) s.(errorAction) s.(pResultSet) s.(iCompare) s.(aPermute) s.(db) x.
Definition set_aOp (s : Vdbe) (x : list Op) : Vdbe :=
  mkVdbe x s.(aMem) s.(aVar) s.(nResColumn) s.(aOnceFlag) s.(nFkConstraint) s.(cacheCtr) s.(pc) s.(vrc) s.(errorAction) s.(pResultSet) s.(iCompare) s.(aPermute) s.(db) s.(heap).
Definition set_aOnceFlag (s : Vdbe) (x : list bool) : Vdbe :=
  mkVdbe s.(aOp) s.(aMem) s.(aVar) s.(nResColumn) x s.(nFkConstraint) s.(cacheCtr) s.(pc) s.(vrc) s.(errorAction) s.(pResultSet) s.(iCompare) s.(aPermute) s.(db) s.(heap).
Definition set_rc (s : Vdbe) (x action : Z) : Vdbe :=
  mkVdbe s.(aOp) s.(aMem) s.(aVar) s.(nResColumn) s.(aOnceFlag) s.(nFkConstraint) s.(cacheCtr) s.(pc) x action s.(pResultSet) s.(iCompare) s.(aPermute) s.(db) s.(heap).
Definition set_row (s : Vdbe) (ctr row : Z) : Vdbe :=
  mkVdbe s.(aOp) s.(aMem) s.(aVar) s.(nResColumn) s.(aOnceFlag) s.(nFkConstraint) ctr s.(pc) s.(vrc) s.(errorAction) row s.(iCompare) s.(aPermute) s.(db) s.(heap).
Definition set_compare (s : Vdbe) (c : Z) (perm : option (list Z)) : Vdbe :=
  mkVdbe s.(aOp) s.(aMem) s.(aVar) s.(nResColumn) s.(aOnceFlag) s.(nFkConstraint) s.(cacheCtr) s.(pc) s.(vrc) s.(errorAction) s.(pResultSet) c perm s.(db) s.(heap).
Definition set_fk (s : Vdbe) (n nDeferred : Z) : Vdbe :=
  mkVdbe s.(aOp) s.(aMem) s.(aVar) s.(nResColumn) s.(aOnceFlag) n s.(cacheCtr) s.(pc) s.(vrc) s.(errorAction) s.(pResultSet) s.(iCompare) s.(aPermute)
    (mkDb s.(db).(encoding) s.(db).(iLimit) s.(db).(isInterrupted) nDeferred) s.(heap).

(** ** The machine monad

    A computation goes on with a value or leaves the switch for one of the
    labels behind it. *)

Inductive label :=
  | vdbe_return_row             (** [rc = SQLITE_ROW; goto vdbe_return] *)
  | vdbe_halt                   (** behind [sqlite3VdbeHalt(p)] of OP_Halt *)
  | too_big
  | no_mem
  | abort_due_to_error (rc : Z)
  | abort_due_to_interrupt
  | vdbe_error_halt (rc : Z).

Definition VM (A : Type) : Type := Vdbe -> option ((A + label) * Vdbe).
#[export] Instance VM_ret : MRet VM := fun A x s => Some (inl x, s).
#[export] Instance VM_bind : MBind VM := fun A B f m s =>
  '(r, s) ← m s;
  match r with inl x => f x s | inr l => Some (inr l, s) end.

Definition goto {A} (l : label) : VM A := fun s => Some (inr l, s).
Definition gets {A} (f : Vdbe -> A) : VM A := fun s => Some (inl (f s), s).
Definition modify (f : Vdbe -> Vdbe) : VM () := fun s => Some (inl (), f s).
Definition assert (b : bool) : VM () := fun s => if b then Some (inl (), s) else None.
Definition some {A} (x : option A) : VM A := fun s => v ← x; Some (inl v, s).
Definition alloc_call {A} (m : AM A) : VM A := fun s => '(x, a) ← m s.(heap); Some (inl x, set_heap s a).

(** Registers. *)
Definition reg (i : Z) : VM Mem := fun s => m ← (if 0 <? i then s.(aMem) !! Z.to_nat i else None); Some (inl m, s).
Definition set_reg (i : Z) (m : Mem) : VM () := fun s =>
  if (0 <? i) && bool_decide (Z.to_nat i < length s.(aMem))%nat then Some (inl (), set_aMem s (<[Z.to_nat i := m]> s.(aMem)))
  else None.

Definition MEM_Invalid : Z := 0x0080.
Definition MEM_Cleared : Z := 0x0100.
Definition memIsValid (m : Mem) : bool := negb (has m.(flags) MEM_Invalid).

(** A register with the assertion that it is valid. *)
Definition valid_reg (i : Z) : VM Mem := m ← reg i; _ ← assert (memIsValid m); mret m.

Definition jump (dest : Z) : VM () := modify (fun s => set_pc s (dest - 1)).
Definition CHECK_FOR_INTERRUPT : VM () :=
  b ← gets (fun s => s.(db).(isInterrupted));
  if b : bool then goto abort_due_to_interrupt else mret ().

(** The output register of the instructions marked out2-prerelease. *)
Definition out2_prerelease (i : Z) : VM Mem :=
  pOut ← reg i;
  let pOut := set_flags pOut MEM_Int in
  _ ← set_reg i pOut;
  mret pOut.

(** [k] times, with the index. *)
Fixpoint for_loop (k : nat) (i : Z) (body : Z -> VM ()) : VM () :=
  match k with
  | O => mret ()
  | S k => _ ← body i; for_loop k (i + 1) body
  end.

(** ** Control flow *)

Definition do_Goto (pOp : Op) : VM () := _ ← CHECK_FOR_INTERRUPT; jump pOp.(p2).

Definition do_Gosub (pOp : Op) : VM () :=
  pIn1 ← reg pOp.(p1);
  _ ← assert (negb (has pIn1.(flags) MEM_Dyn));
  pc ← gets pc;
  _ ← set_reg pOp.(p1) (set_u (set_flags pIn1 MEM_Int) pc);
  jump pOp.(p2).

Definition do_Return (pOp : Op) : VM () :=
  pIn1 ← valid_reg pOp.(p1);
  _ ← assert (has pIn1.(flags) MEM_Int);
  modify (fun s => set_pc s (i32 pIn1.(u))).

Definition do_Yield (pOp : Op) : VM () :=
  pIn1 ← valid_reg pOp.(p1);
  _ ← assert (negb (has pIn1.(flags) MEM_Dyn));
  let pcDest := i32 pIn1.(u) in
  pc ← gets pc;
  _ ← set_reg pOp.(p1) (set_u (set_flags pIn1 MEM_Int) pc);
  modify (fun s => set_pc s pcDest).

(** OP_Halt outside of a trigger program, up to the call of [sqlite3VdbeHalt]. *)
Definition do_Halt (pOp : Op) : VM () :=
  _ ← modify (fun s => set_rc s pOp.(p1) (u8 pOp.(p2)));
  _ ← assert (match pOp.(p4) with P4_TEXT _ => negb (pOp.(p1) =? SQLITE_OK) | _ => true end);
  goto vdbe_halt.

Definition do_HaltIfNull (pOp : Op) : VM () :=
  pIn3 ← valid_reg pOp.(p3);
  if negb (has pIn3.(flags) MEM_Null) then mret () else do_Halt pOp.

(** ** Constants *)

Definition do_Integer (pOp : Op) : VM () :=
  pOut ← out2_prerelease pOp.(p2);
  set_reg pOp.(p2) (set_u pOut pOp.(p1)).

Definition do_Int64 (pOp : Op) : VM () :=
  pOut ← out2_prerelease pOp.(p2);
  i ← some (match pOp.(p4) with P4_INT64 i => Some i | _ => None end);
  set_reg pOp.(p2) (set_u pOut i).

Definition set_rbits (m : Mem) (x : Z) : Mem := mkMem m.(flags) x m.(u) m.(n) m.(z) m.(enc) m.(own) m.(szMalloc).

Definition do_Real (pOp : Op) : VM () :=
  pOut ← out2_prerelease pOp.(p2);
  r ← some (match pOp.(p4) with P4_REAL r => Some r | _ => None end);
  _ ← assert (negb (sqlite3IsNaN (double_of_bits r)));
  set_reg pOp.(p2) (set_rbits (set_flags pOut MEM_Real) r).

(** The text of an instruction, which a NULL pointer is not. *)
Definition p4z (pOp : Op) : option (list Z) := match pOp.(p4) with P4_TEXT z => Some z | _ => None end.

Definition do_String (pOp : Op) : VM () :=
  pOut ← out2_prerelease pOp.(p2);
  zp ← some (p4z pOp);
  e ← gets (fun s => s.(db).(encoding));
  set_reg pOp.(p2) (mkMem (Z.lor MEM_Str (Z.lor MEM_Static MEM_Term)) pOut.(r) pOut.(u) pOp.(p1) zp e false pOut.(szMalloc)).

(** The instruction becomes an OP_String the first time it runs, before the
    length is tested and before the text is translated. *)
Definition string_op (pOp : Op) (zp : list Z) (len : Z) : Op := mkOp OP_String len pOp.(p2) pOp.(p3) (P4_TEXT zp) pOp.(p5).

Definition rewrite_op (pOp' : Op) : VM () := modify (fun s => set_aOp s (<[Z.to_nat s.(pc) := pOp']> s.(aOp))).

Definition do_String8 (pOp : Op) : VM () :=
  pOut ← out2_prerelease pOp.(p2);
  zp ← some (p4z pOp);
  let len := sqlite3Strlen30 (Some zp) in
  _ ← rewrite_op (string_op pOp zp len);
  e ← gets (fun s => s.(db).(encoding));
  limit ← gets (fun s => s.(db).(iLimit));
  '(zp, len) ←
    (if negb (e =? SQLITE_UTF8) then
       '(rc, pOut) ← alloc_call (sqlite3VdbeMemSetStr limit pOut (Some zp) (-1) SQLITE_UTF8 SQLITE_STATIC);
       _ ← set_reg pOp.(p2) pOut;
       if rc =? SQLITE_TOOBIG then goto too_big
       else
         '(rc, pOut) ← alloc_call (ChangeEncoding pOut e);
         _ ← set_reg pOp.(p2) pOut;
         if negb (rc =? SQLITE_OK) then goto no_mem
         else
           _ ← assert (has pOut.(flags) MEM_Dyn);
           _ ← set_reg pOp.(p2) (mkMem (Z.land (Z.lor pOut.(flags) MEM_Static) (Z.lnot MEM_Dyn)) pOut.(r) pOut.(u) pOut.(n) pOut.(z) pOut.(enc) false 0);
           _ ← rewrite_op (string_op pOp pOut.(z) pOut.(n));
           mret (pOut.(z), pOut.(n))
     else mret (zp, len) : VM (list Z * Z));
  if len >? limit then goto too_big else do_String (string_op pOp zp len).

Definition do_Null (pOp : Op) : VM () :=
  pOut ← out2_prerelease pOp.(p2);
  let cnt := pOp.(p3) - pOp.(p2) in
  nMem ← gets (fun s => Z.of_nat (length s.(aMem)) - 1);
  _ ← assert (pOp.(p3) <=? nMem);
  let nullFlag := if negb (pOp.(p1) =? 0) then Z.lor MEM_Null MEM_Cleared else MEM_Null in
  _ ← set_reg pOp.(p2) (set_flags pOut nullFlag);
  for_loop (Z.to_nat cnt) (pOp.(p2) + 1) (fun i => m ← reg i; set_reg i (set_flags m nullFlag)).

Definition do_Blob (pOp : Op) : VM () :=
  pOut ← out2_prerelease pOp.(p2);
  _ ← assert (pOp.(p1) <=? SQLITE_MAX_LENGTH);
  limit ← gets (fun s => s.(db).(iLimit));
  '(_, pOut) ← alloc_call (sqlite3VdbeMemSetStr limit pOut (p4z pOp) pOp.(p1) 0 SQLITE_STATIC);
  e ← gets (fun s => s.(db).(encoding));
  set_reg pOp.(p2) (set_enc pOut e).

Definition do_Variable (pOp : Op) : VM () :=
  pOut ← out2_prerelease pOp.(p2);
  vars ← gets aVar;
  pVar ← some (if 0 <? pOp.(p1) then vars !! Z.to_nat (pOp.(p1) - 1) else None);
  limit ← gets (fun s => s.(db).(iLimit));
  if sqlite3VdbeMemTooBig limit pVar then goto too_big
  else set_reg pOp.(p2) (sqlite3VdbeMemShallowCopy pVar MEM_Static pOut.(szMalloc)).

(** ** Copies *)

(** The buffer of the target goes to the source. *)
Definition do_Move (pOp : Op) : VM () :=
  let cnt := pOp.(p3) + 1 in
  _ ← assert ((cnt >? 0) && (pOp.(p1) >? 0) && (pOp.(p2) >? 0));
  _ ← assert ((pOp.(p1) + cnt <=? pOp.(p2)) || (pOp.(p2) + cnt <=? pOp.(p1)));
  for_loop (Z.to_nat cnt) 0 (fun i =>
    pOut ← reg (pOp.(p2) + i);
    pIn1 ← valid_reg (pOp.(p1) + i);
    let '(to, from) := sqlite3VdbeMemMove pOut pIn1 in
    _ ← set_reg (pOp.(p2) + i) to;
    set_reg (pOp.(p1) + i) (mkMem from.(flags) from.(r) from.(u) from.(n) from.(z) from.(enc) false pOut.(szMalloc))).

(** A macro on a register, with a jump to no_mem. *)
Definition Deephemeralize (i : Z) : VM () :=
  m ← reg i;
  if has m.(flags) MEM_Ephem then
    '(rc, m) ← alloc_call (MakeWriteable m);
    _ ← set_reg i m;
    if negb (rc =? SQLITE_OK) then goto no_mem else mret ()
  else mret ().

Definition do_Copy (pOp : Op) : VM () :=
  _ ← assert (negb (pOp.(p1) =? pOp.(p2)));
  for_loop (S (Z.to_nat pOp.(p3))) 0 (fun i =>
    pOut ← reg (pOp.(p2) + i);
    pIn1 ← reg (pOp.(p1) + i);
    _ ← set_reg (pOp.(p2) + i) (sqlite3VdbeMemShallowCopy pIn1 MEM_Ephem pOut.(szMalloc));
    Deephemeralize (pOp.(p2) + i)).

Definition do_SCopy (pOp : Op) : VM () :=
  pIn1 ← valid_reg pOp.(p1);
  pOut ← reg pOp.(p2);
  _ ← assert (negb (pOp.(p1) =? pOp.(p2)));
  set_reg pOp.(p2) (sqlite3VdbeMemShallowCopy pIn1 MEM_Ephem pOut.(szMalloc)).

Definition OE_Abort : Z := 2.
Definition SQLITE_CONSTRAINT_FOREIGNKEY : Z := 787.

(** [sqlite3VdbeCheckFk(p, 0)] *)
Definition sqlite3VdbeCheckFk : VM Z :=
  k ← gets nFkConstraint;
  if 0 <? k then _ ← modify (fun s => set_rc s SQLITE_CONSTRAINT_FOREIGNKEY OE_Abort); mret SQLITE_ERROR
  else mret SQLITE_OK.

(** The row is registers [p1] to [p1+p2-1]; no statement transaction is open. *)
Definition do_ResultRow (pOp : Op) : VM () :=
  k ← gets nResColumn;
  _ ← assert ((k =? pOp.(p2)) && (pOp.(p1) >? 0));
  rc ← sqlite3VdbeCheckFk;
  if negb (rc =? SQLITE_OK) then goto (vdbe_error_halt rc)
  else
    _ ← modify (fun s => set_row s (Z.lor (u32 (s.(cacheCtr) + 2)) 1) pOp.(p1));
    _ ← for_loop (Z.to_nat pOp.(p2)) pOp.(p1) (fun i =>
      _ ← valid_reg i;
      _ ← Deephemeralize i;
      m ← reg i;
      '(_, m) ← alloc_call (NulTerminate m);
      set_reg i m);
    failed ← gets (fun s => s.(heap).(mallocFailed));
    if failed : bool then goto no_mem
    else
      _ ← modify (fun s => set_pc s (s.(pc) + 1));
      goto vdbe_return_row.
