(* ===== verification/VdbeExec.v ===== *)
(** * The virtual machine: values and the loop (src/lmdb-backend/src/vdbe.c)

    The instructions that compute and compare values, and the interpreter. *)

From S2P Require Import Prelude Ctype Ints Utf Printf Mem Serial Real Value Vdbe.
From Stdlib Require Import Floats.SpecFloat.

Section Exec.
Context `{FloatText}.

Definition db_encoding : VM Z := gets (fun s => s.(db).(encoding)).

(** [ExpandBlob(P)] on a register: the return code. *)
Definition expand_reg (i : Z) : VM Z :=
  m ← reg i;
  if has m.(flags) MEM_Zero then
    '(rc, m) ← alloc_call (ExpandBlob m);
    _ ← set_reg i m;
    mret rc
  else mret SQLITE_OK.

(** The macro [Stringify(P, enc)], with a jump to no_mem. *)
Definition stringify_reg (i : Z) : VM () :=
  m ← reg i;
  e ← db_encoding;
  if negb (has m.(flags) (Z.lor MEM_Str MEM_Blob)) then
    _ ← assert (has m.(flags) (Z.lor MEM_Int MEM_Real));
    '(rc, m) ← alloc_call (sqlite3VdbeMemStringify m e);
    _ ← set_reg i m;
    if negb (rc =? SQLITE_OK) then goto no_mem else mret ()
  else mret ().

(** [applyAffinity] on a register. *)
Definition affinity_reg (i affinity : Z) : VM () :=
  m ← reg i;
  e ← db_encoding;
  m ← alloc_call (applyAffinity m affinity e);
  set_reg i m.

Definition numeric_reg (i : Z) : VM () := m ← reg i; set_reg i (applyNumericAffinity m).

(** ** Concatenation and arithmetic *)

Definition do_Concat (pOp : Op) : VM () :=
  pIn1 ← valid_reg pOp.(p1);
  pIn2 ← valid_reg pOp.(p2);
  pOut ← reg pOp.(p3);
  _ ← assert (negb (pOp.(p1) =? pOp.(p3)));
  if has (Z.lor pIn1.(flags) pIn2.(flags)) MEM_Null then set_reg pOp.(p3) (sqlite3VdbeMemSetNull pOut)
  else
    rc1 ← expand_reg pOp.(p1);
    rc2 ← (if negb (rc1 =? SQLITE_OK) then mret rc1 else expand_reg pOp.(p2) : VM Z);
    if negb (rc2 =? SQLITE_OK) then goto no_mem
    else
      _ ← stringify_reg pOp.(p1);
      _ ← stringify_reg pOp.(p2);
      pIn1 ← reg pOp.(p1);
      pIn2 ← reg pOp.(p2);
      let nByte := i32 (pIn1.(n) + pIn2.(n)) in
      limit ← gets (fun s => s.(db).(iLimit));
      if nByte >? limit then goto too_big
      else
        pOut ← reg pOp.(p3);
        '(rc, pOut) ← alloc_call (grow (MemSetTypeFlag pOut MEM_Str) (nByte + 2) (pOp.(p3) =? pOp.(p2)));
        _ ← set_reg pOp.(p3) pOut;
        if negb (rc =? SQLITE_OK) then goto no_mem
        else
          e ← db_encoding;
          set_reg pOp.(p3)
            (mkMem (Z.lor pOut.(flags) MEM_Term) pOut.(r) pOut.(u) nByte
               (content pIn2 ++ content pIn1 ++ [0; 0]) e pOut.(own) pOut.(szMalloc)).

(** The result of an arithmetic instruction on integers: [None] is NULL, [inr]
    the jump to fp_math. *)
Definition int_math (op : opcode) (iA iB : Z) : option (Z + ()) :=
  let checked (r : Z * Z) := Some (if negb (fst r =? 0) then inr () else inl (snd r)) in
  match op with
  | OP_Add => checked (sqlite3AddInt64 iB iA)
  | OP_Subtract => checked (sqlite3SubInt64 iB iA)
  | OP_Multiply => checked (sqlite3MulInt64 iB iA)
  | OP_Divide =>
      if iA =? 0 then None
      else if (iA =? -1) && (iB =? SMALLEST_INT64) then Some (inr ())
      else Some (inl (Z.quot iB iA))
  | _ =>
      if iA =? 0 then None
      else Some (inl (Z.rem iB (if iA =? -1 then 1 else iA)))
  end.

(** The code from the label fp_math to the test for NaN: [None] is NULL. *)
Definition fp_math (op : opcode) (rA rB : spec_float) : option spec_float :=
  match op with
  | OP_Add => Some (double_add rB rA)
  | OP_Subtract => Some (double_sub rB rA)
  | OP_Multiply => Some (double_mul rB rA)
  | OP_Divide => if SFeqb rA d_zero then None else Some (double_div rB rA)
  | _ =>
      let iA := i64_of_double rA in
      let iB := i64_of_double rB in
      if iA =? 0 then None
      else Some (double_of_i64 (Z.rem iB (if iA =? -1 then 1 else iA)))
  end.

(** The cell that holds the result, from the operands and the output cell. *)
Definition arith_result (op : opcode) (pIn1 pIn2 pOut : Mem) : Mem :=
  let f := Z.lor pIn1.(flags) pIn2.(flags) in
  if has f MEM_Null then sqlite3VdbeMemSetNull pOut
  else
    let bIntint := has (Z.land pIn1.(flags) pIn2.(flags)) MEM_Int in
    match (if bIntint then int_math op pIn1.(u) pIn2.(u) else Some (inr ())) with
    | None => sqlite3VdbeMemSetNull pOut
    | Some (inl i) => MemSetTypeFlag (set_u pOut i) MEM_Int
    | Some (inr _) =>
        match fp_math op (sqlite3VdbeRealValue pIn1) (sqlite3VdbeRealValue pIn2) with
        | None => sqlite3VdbeMemSetNull pOut
        | Some rB =>
            if sqlite3IsNaN rB then sqlite3VdbeMemSetNull pOut
            else
              let pOut := MemSetTypeFlag (set_r pOut rB) MEM_Real in
              if negb (has f MEM_Real) && negb bIntint then sqlite3VdbeIntegerAffinity pOut else pOut
        end
    end.

Definition do_Arith (pOp : Op) : VM () :=
  _ ← valid_reg pOp.(p1);
  _ ← valid_reg pOp.(p2);
  _ ← numeric_reg pOp.(p1);
  _ ← numeric_reg pOp.(p2);
  pIn1 ← reg pOp.(p1);
  pIn2 ← reg pOp.(p2);
  pOut ← reg pOp.(p3);
  set_reg pOp.(p3) (arith_result pOp.(opc) pIn1 pIn2 pOut).

(** ** Functions *)

Definition do_CollSeq (pOp : Op) : VM () :=
  _ ← assert (match pOp.(p4) with P4_COLLSEQ _ => true | _ => false end);
  if negb (pOp.(p1) =? 0) then m ← reg pOp.(p1); set_reg pOp.(p1) (sqlite3VdbeMemSetInt64 m 0) else mret ().

(** The collating sequence of the instruction before. *)
Definition previous_coll : VM (option CollSeq) := fun s =>
  if s.(pc) >? 0 then
    match s.(aOp) !! Z.to_nat (s.(pc) - 1) with
    | Some (mkOp OP_CollSeq _ _ _ (P4_COLLSEQ c) _) => Some (inl c, s)
    | _ => None
    end
  else None.

(** The cells from a register on. *)
Fixpoint get_regs (k : nat) (i : Z) : VM (list Mem) :=
  match k with
  | O => mret []
  | S k => m ← reg i; l ← get_regs k (i + 1); mret (m :: l)
  end.

Fixpoint set_regs (i : Z) (l : list Mem) : VM () :=
  match l with
  | [] => mret ()
  | m :: l => _ ← set_reg i m; set_regs (i + 1) l
  end.

(** Auxiliary data of functions and the text of their errors are not modelled. *)
(** [sqlite3SetString(&p->zErrMsg, db, "%s", z)]: one allocation; the message
    is not part of the state. *)
Definition SetString : AM () := fun a => '(oom, a) ← draw a; Some ((), if oom : bool then mkAlloc a.(mallocs) true else a).

Definition do_Function (pOp : Op) : VM () :=
  let k := Z.to_nat pOp.(p5) in
  pOut ← reg pOp.(p3);
  _ ← assert ((pOp.(p3) <? pOp.(p2)) || (pOp.(p3) >=? pOp.(p2) + pOp.(p5)));
  _ ← for_loop k pOp.(p2) (fun i => _ ← valid_reg i; Deephemeralize i);
  f ← some (match pOp.(p4) with P4_FUNCDEF f => Some f | _ => None end);
  let '(s, from) := sqlite3VdbeMemMove (mkMem MEM_Null 0 0 0 [] 0 false 0) pOut in
  _ ← set_reg pOp.(p3) from;
  c ← (if needcoll f then previous_coll else mret None : VM (option CollSeq));
  args ← get_regs k pOp.(p2);
  '(ctx, args) ← alloc_call (xFunc f (mkContext (MemSetTypeFlag s MEM_Null) 0 c) args);
  _ ← set_regs pOp.(p2) args;
  failed ← gets (fun s => s.(heap).(mallocFailed));
  if failed : bool then goto no_mem
  else
    m ← (if negb (ctx.(isError) =? 0) then
           '(m, _) ← alloc_call (ValueText ctx.(ctx_s) SQLITE_UTF8);
           _ ← alloc_call SetString;
           mret m
         else mret ctx.(ctx_s) : VM Mem);
    e ← db_encoding;
    '(_, m) ← alloc_call (ChangeEncoding m e);
    _ ← set_reg pOp.(p3) m;
    limit ← gets (fun s => s.(db).(iLimit));
    if sqlite3VdbeMemTooBig limit m then goto too_big
    else if negb (ctx.(isError) =? 0) then goto (vdbe_error_halt ctx.(isError))
    else mret ().

(** ** Bits *)

Definition shift_value (op : opcode) (iA iB : Z) : Z :=
  if iB =? 0 then iA
  else
    let to_left := bool_decide (op = OP_ShiftLeft) in
    let '(to_left, iB) := if iB <? 0 then (negb to_left, if iB >? -64 then - iB else 64) else (to_left, iB) in
    if iB >=? 64 then (if (iA >=? 0) || to_left then 0 else -1)
    else
      let uA := u64 iA in
      i64 (if to_left then u64 (Z.shiftl uA iB)
           else
             let v := Z.shiftr uA iB in
             if iA <? 0 then Z.lor v (u64 (Z.shiftl 0xffffffffffffffff (64 - iB))) else v).

(** [iA] is the value of register [p2], [iB] that of [p1]. *)
Definition bit_value (op : opcode) (iA iB : Z) : Z :=
  match op with
  | OP_BitAnd => Z.land iA iB
  | OP_BitOr => Z.lor iA iB
  | _ => shift_value op iA iB
  end.

Definition do_Bits (pOp : Op) : VM () :=
  pIn1 ← valid_reg pOp.(p1);
  pIn2 ← valid_reg pOp.(p2);
  pOut ← reg pOp.(p3);
  set_reg pOp.(p3)
    (if has (Z.lor pIn1.(flags) pIn2.(flags)) MEM_Null then sqlite3VdbeMemSetNull pOut
     else MemSetTypeFlag (set_u pOut (bit_value pOp.(opc) (sqlite3VdbeIntValue pIn2) (sqlite3VdbeIntValue pIn1))) MEM_Int).

(** ** Conversions in place *)

(** The addition wraps on x86. *)
Definition do_AddImm (pOp : Op) : VM () :=
  pIn1 ← valid_reg pOp.(p1);
  let '(_, m) := sqlite3VdbeMemIntegerify pIn1 in
  set_reg pOp.(p1) (set_u m (i64 (m.(u) + pOp.(p2)))).

Definition SQLITE_MISMATCH : Z := 20.

Definition do_MustBeInt (pOp : Op) : VM () :=
  _ ← valid_reg pOp.(p1);
  _ ← affinity_reg pOp.(p1) SQLITE_AFF_NUMERIC;
  pIn1 ← reg pOp.(p1);
  if negb (has pIn1.(flags) MEM_Int) then
    if pOp.(p2) =? 0 then goto (abort_due_to_error SQLITE_MISMATCH) else jump pOp.(p2)
  else set_reg pOp.(p1) (MemSetTypeFlag pIn1 MEM_Int).

Definition do_RealAffinity (pOp : Op) : VM () :=
  pIn1 ← valid_reg pOp.(p1);
  if has pIn1.(flags) MEM_Int then set_reg pOp.(p1) (sqlite3VdbeMemRealify pIn1) else mret ().

Definition do_ToText (pOp : Op) : VM () :=
  pIn1 ← valid_reg pOp.(p1);
  if has pIn1.(flags) MEM_Null then mret ()
  else
    _ ← set_reg pOp.(p1) (add_flags pIn1 (Z.shiftr (Z.land pIn1.(flags) MEM_Blob) 3));
    _ ← affinity_reg pOp.(p1) SQLITE_AFF_TEXT;
    rc ← expand_reg pOp.(p1);
    pIn1 ← reg pOp.(p1);
    failed ← gets (fun s => s.(heap).(mallocFailed));
    _ ← assert (has pIn1.(flags) MEM_Str || failed);
    _ ← set_reg pOp.(p1) (clear_flags pIn1 (Z.lor (Z.lor MEM_Int MEM_Real) (Z.lor MEM_Blob MEM_Zero)));
    if negb (rc =? SQLITE_OK) then goto (vdbe_error_halt rc) else mret ().

Definition do_ToBlob (pOp : Op) : VM () :=
  pIn1 ← valid_reg pOp.(p1);
  if has pIn1.(flags) MEM_Null then mret ()
  else if negb (has pIn1.(flags) MEM_Blob) then
    _ ← affinity_reg pOp.(p1) SQLITE_AFF_TEXT;
    pIn1 ← reg pOp.(p1);
    failed ← gets (fun s => s.(heap).(mallocFailed));
    _ ← assert (has pIn1.(flags) MEM_Str || failed);
    set_reg pOp.(p1) (MemSetTypeFlag pIn1 MEM_Blob)
  else set_reg pOp.(p1) (clear_flags pIn1 (Z.land MEM_TypeMask (Z.lnot MEM_Blob))).

Definition do_ToNumeric (pOp : Op) : VM () :=
  pIn1 ← valid_reg pOp.(p1);
  set_reg pOp.(p1) (sqlite3VdbeMemNumerify pIn1).

Definition do_ToInt (pOp : Op) : VM () :=
  pIn1 ← valid_reg pOp.(p1);
  if negb (has pIn1.(flags) MEM_Null) then set_reg pOp.(p1) (snd (sqlite3VdbeMemIntegerify pIn1)) else mret ().

Definition do_ToReal (pOp : Op) : VM () :=
  pIn1 ← valid_reg pOp.(p1);
  if negb (has pIn1.(flags) MEM_Null) then set_reg pOp.(p1) (sqlite3VdbeMemRealify pIn1) else mret ().

(** ** Comparison *)

Definition SQLITE_AFF_MASK : Z := 0x67.
Definition SQLITE_JUMPIFNULL : Z := 0x08.
Definition SQLITE_STOREP2 : Z := 0x10.
Definition SQLITE_NULLEQ : Z := 0x80.
Definition OPFLAG_PERMUTE : Z := 0x01.

(** The truth of a comparison from the sign of its result. *)
Definition compare_truth (op : opcode) (res : Z) : bool :=
  match op with
  | OP_Eq => res =? 0
  | OP_Ne => negb (res =? 0)
  | OP_Lt => res <? 0
  | OP_Le => res <=? 0
  | OP_Gt => res >? 0
  | _ => res >=? 0
  end.

Definition p4_coll (pOp : Op) : option (option CollSeq) :=
  match pOp.(p4) with P4_COLLSEQ c => Some c | P4_NOTUSED => Some None | _ => None end.

(** Whether comparing two cells translates copies of them, which allocates. *)
Definition compare_translates (m1 m2 : Mem) (c : option CollSeq) : bool :=
  let f := Z.lor m1.(flags) m2.(flags) in
  negb (has f MEM_Null) && negb (numeric f) && has m1.(flags) MEM_Str && has m2.(flags) MEM_Str
  && match c with Some k => negb (m1.(enc) =? k.(coll_enc)) | None => false end.

(** [sqlite3MemCompare] of two registers. *)
Definition compare_regs (i j : Z) (c : option CollSeq) : VM Z :=
  m1 ← reg i;
  m2 ← reg j;
  oom ← alloc_call draw;
  res ← some (sqlite3MemCompare oom m1 m2 c);
  _ ← (if (oom : bool) && compare_translates m1 m2 c then alloc_call set_mallocFailed else mret () : VM ());
  mret res.

(** The type bits the register had before. *)
Definition restore_type (i f : Z) : VM () :=
  m ← reg i;
  set_reg i (set_flags m (Z.lor (Z.land m.(flags) (Z.lnot MEM_TypeMask)) (Z.land f MEM_TypeMask))).

(** Neither operand is NULL. *)
Definition compare_values (pOp : Op) : VM Z :=
  let affinity := Z.land pOp.(p5) SQLITE_AFF_MASK in
  _ ← (if negb (affinity =? 0) then
         _ ← affinity_reg pOp.(p1) affinity;
         _ ← affinity_reg pOp.(p3) affinity;
         failed ← gets (fun s => s.(heap).(mallocFailed));
         if failed : bool then goto no_mem else mret ()
       else mret () : VM ());
  c ← some (p4_coll pOp);
  _ ← expand_reg pOp.(p1);
  _ ← expand_reg pOp.(p3);
  compare_regs pOp.(p3) pOp.(p1) c.

(** From the second switch on. *)
Definition compare_store (pOp : Op) (flags1 flags3 res : Z) : VM () :=
  let res := compare_truth pOp.(opc) res in
  _ ← (if has pOp.(p5) SQLITE_STOREP2 then
         pOut ← reg pOp.(p2);
         set_reg pOp.(p2) (set_u (MemSetTypeFlag pOut MEM_Int) (if res then 1 else 0))
       else if res then jump pOp.(p2) else mret () : VM ());
  _ ← restore_type pOp.(p1) flags1;
  restore_type pOp.(p3) flags3.

Definition do_Compare2 (pOp : Op) : VM () :=
  pIn1 ← valid_reg pOp.(p1);
  pIn3 ← valid_reg pOp.(p3);
  let flags1 := pIn1.(flags) in
  let flags3 := pIn3.(flags) in
  if has (Z.lor flags1 flags3) MEM_Null then
    if has pOp.(p5) SQLITE_NULLEQ then
      _ ← assert (bool_decide (pOp.(opc) = OP_Eq \/ pOp.(opc) = OP_Ne));
      _ ← assert (negb (has flags1 MEM_Cleared));
      compare_store pOp flags1 flags3
        (if has flags1 MEM_Null && has flags3 MEM_Null && negb (has flags3 MEM_Cleared) then 0 else 1)
    else if has pOp.(p5) SQLITE_STOREP2 then
      pOut ← reg pOp.(p2);
      set_reg pOp.(p2) (MemSetTypeFlag pOut MEM_Null)
    else if has pOp.(p5) SQLITE_JUMPIFNULL then jump pOp.(p2)
    else mret ()
  else
    res ← compare_values pOp;
    compare_store pOp flags1 flags3 res.

Definition do_Permutation (pOp : Op) : VM () :=
  ai ← some (match pOp.(p4) with P4_INTARRAY ai => Some ai | _ => None end);
  modify (fun s => set_compare s s.(iCompare) (Some ai)).

(** The loop over the fields; it ends at the first difference. *)
Fixpoint compare_fields (k : nat) (i : nat) (q1 q2 : Z) (ki : KeyInfo) (perm : option (list Z)) (last : Z) : VM Z :=
  match k with
  | O => mret last
  | S k =>
      idx ← some (match perm with Some ai => ai !! i | None => Some (Z.of_nat i) end);
      _ ← valid_reg (q1 + idx);
      _ ← valid_reg (q2 + idx);
      c ← some (ki.(aColl) !! i);
      bRev ← some (ki.(aSortOrder) !! i);
      res ← compare_regs (q1 + idx) (q2 + idx) c;
      if negb (res =? 0) then mret (if bRev : bool then - res else res)
      else compare_fields k (S i) q1 q2 ki perm res
  end.

Definition do_Compare (pOp : Op) : VM () :=
  perm ← gets (fun s => if has pOp.(p5) OPFLAG_PERMUTE then s.(aPermute) else None);
  ki ← some (match pOp.(p4) with P4_KEYINFO k => Some k | _ => None end);
  _ ← assert (pOp.(p3) >? 0);
  last ← gets iCompare;
  res ← compare_fields (Z.to_nat pOp.(p3)) 0 pOp.(p1) pOp.(p2) ki perm last;
  modify (fun s => set_compare s res None).

Definition do_Jump (pOp : Op) : VM () :=
  c ← gets iCompare;
  jump (if c <? 0 then pOp.(p1) else if c =? 0 then pOp.(p2) else pOp.(p3)).

(** ** Logic *)

Definition and_logic : list Z := [0; 0; 0; 0; 1; 2; 0; 2; 2].
Definition or_logic : list Z := [0; 1; 2; 1; 1; 1; 2; 1; 2].

(** 0 is false, 1 true, 2 NULL. *)
Definition truth (m : Mem) : Z :=
  if has m.(flags) MEM_Null then 2 else if negb (sqlite3VdbeIntValue m =? 0) then 1 else 0.

Definition do_Logic (pOp : Op) : VM () :=
  pIn1 ← valid_reg pOp.(p1);
  pIn2 ← valid_reg pOp.(p2);
  let v1 := at_ (if decide (pOp.(opc) = OP_And) then and_logic else or_logic) (Z.to_nat (truth pIn1 * 3 + truth pIn2)) in
  pOut ← reg pOp.(p3);
  set_reg pOp.(p3)
    (if v1 =? 2 then MemSetTypeFlag pOut MEM_Null else MemSetTypeFlag (set_u pOut v1) MEM_Int).

Definition do_Not (pOp : Op) : VM () :=
  pIn1 ← valid_reg pOp.(p1);
  pOut ← reg pOp.(p2);
  set_reg pOp.(p2)
    (if has pIn1.(flags) MEM_Null then sqlite3VdbeMemSetNull pOut
     else sqlite3VdbeMemSetInt64 pOut (if sqlite3VdbeIntValue pIn1 =? 0 then 1 else 0)).

Definition do_BitNot (pOp : Op) : VM () :=
  pIn1 ← valid_reg pOp.(p1);
  pOut ← reg pOp.(p2);
  set_reg pOp.(p2)
    (if has pIn1.(flags) MEM_Null then sqlite3VdbeMemSetNull pOut
     else sqlite3VdbeMemSetInt64 pOut (Z.lnot (sqlite3VdbeIntValue pIn1))).

(** ** Jumps on values *)

Definition do_Once (pOp : Op) : VM () :=
  l ← gets aOnceFlag;
  b ← some (if 0 <=? pOp.(p1) then l !! Z.to_nat pOp.(p1) else None);
  if b : bool then jump pOp.(p2)
  else modify (fun s => set_aOnceFlag s (<[Z.to_nat pOp.(p1) := true]> s.(aOnceFlag))).

Definition do_If (pOp : Op) : VM () :=
  pIn1 ← valid_reg pOp.(p1);
  let c :=
    if has pIn1.(flags) MEM_Null then negb (pOp.(p3) =? 0)
    else
      let c := negb (SFeqb (sqlite3VdbeRealValue pIn1) d_zero) in
      if decide (pOp.(opc) = OP_IfNot) then negb c else c in
  if c then jump pOp.(p2) else mret ().

Definition do_IsNull (pOp : Op) : VM () :=
  pIn1 ← valid_reg pOp.(p1);
  if has pIn1.(flags) MEM_Null then jump pOp.(p2) else mret ().

Definition do_NotNull (pOp : Op) : VM () :=
  pIn1 ← valid_reg pOp.(p1);
  if negb (has pIn1.(flags) MEM_Null) then jump pOp.(p2) else mret ().

(** The characters of the affinity string, up to its terminator. *)
Fixpoint affinity_loop (aff : list Z) (i : Z) : VM () :=
  match aff with
  | [] => mret ()
  | cAff :: aff =>
      _ ← valid_reg i;
      _ ← expand_reg i;
      _ ← affinity_reg i cAff;
      affinity_loop aff (i + 1)
  end.

Definition do_Affinity (pOp : Op) : VM () :=
  zAffinity ← some (p4z pOp);
  _ ← assert (Z.of_nat (length zAffinity) =? pOp.(p2));
  affinity_loop zAffinity pOp.(p1).

Definition do_FkCounter (pOp : Op) : VM () :=
  modify (fun s =>
    if negb (pOp.(p1) =? 0) then set_fk s s.(nFkConstraint) (s.(db).(nDeferredCons) + pOp.(p2))
    else set_fk s (s.(nFkConstraint) + pOp.(p2)) s.(db).(nDeferredCons)).

Definition do_FkIfZero (pOp : Op) : VM () :=
  k ← gets (fun s => if negb (pOp.(p1) =? 0) then s.(db).(nDeferredCons) else s.(nFkConstraint));
  if k =? 0 then jump pOp.(p2) else mret ().

(** Outside of a trigger program. *)
Definition do_MemMax (pOp : Op) : VM () :=
  _ ← valid_reg pOp.(p2);
  pIn1 ← valid_reg pOp.(p1);
  _ ← set_reg pOp.(p1) (snd (sqlite3VdbeMemIntegerify pIn1));
  pIn2 ← reg pOp.(p2);
  _ ← set_reg pOp.(p2) (snd (sqlite3VdbeMemIntegerify pIn2));
  pIn1 ← reg pOp.(p1);
  pIn2 ← reg pOp.(p2);
  if pIn1.(u) <? pIn2.(u) then set_reg pOp.(p1) (set_u pIn1 pIn2.(u)) else mret ().

(** OP_IfPos, OP_IfNeg and OP_IfZero; the addition wraps on x86. *)
Definition do_IfSign (pOp : Op) : VM () :=
  pIn1 ← valid_reg pOp.(p1);
  _ ← assert (has pIn1.(flags) MEM_Int);
  let i := if decide (pOp.(opc) = OP_IfZero) then i64 (pIn1.(u) + pOp.(p3)) else pIn1.(u) in
  _ ← set_reg pOp.(p1) (set_u pIn1 i);
  if match pOp.(opc) with OP_IfPos => i >? 0 | OP_IfNeg => i <? 0 | _ => i =? 0 end
  then jump pOp.(p2) else mret ().

(** ** The interpreter *)

Definition dispatch (pOp : Op) : VM () :=
  match pOp.(opc) with
  | OP_Goto => do_Goto pOp
  | OP_Gosub => do_Gosub pOp
  | OP_Return => do_Return pOp
  | OP_Yield => do_Yield pOp
  | OP_HaltIfNull => do_HaltIfNull pOp
  | OP_Halt => do_Halt pOp
  | OP_Integer => do_Integer pOp
  | OP_Int64 => do_Int64 pOp
  | OP_Real => do_Real pOp
  | OP_String8 => do_String8 pOp
  | OP_String => do_String pOp
  | OP_Null => do_Null pOp
  | OP_Blob => do_Blob pOp
  | OP_Variable => do_Variable pOp
  | OP_Move => do_Move pOp
  | OP_Copy => do_Copy pOp
  | OP_SCopy => do_SCopy pOp
  | OP_ResultRow => do_ResultRow pOp
  | OP_Concat => do_Concat pOp
  | OP_Add | OP_Subtract | OP_Multiply | OP_Divide | OP_Remainder => do_Arith pOp
  | OP_CollSeq => do_CollSeq pOp
  | OP_Function => do_Function pOp
  | OP_BitAnd | OP_BitOr | OP_ShiftLeft | OP_ShiftRight => do_Bits pOp
  | OP_AddImm => do_AddImm pOp
  | OP_MustBeInt => do_MustBeInt pOp
  | OP_RealAffinity => do_RealAffinity pOp
  | OP_ToText => do_ToText pOp
  | OP_ToBlob => do_ToBlob pOp
  | OP_ToNumeric => do_ToNumeric pOp
  | OP_ToInt => do_ToInt pOp
  | OP_ToReal => do_ToReal pOp
  | OP_Eq | OP_Ne | OP_Lt | OP_Le | OP_Gt | OP_Ge => do_Compare2 pOp
  | OP_Permutation => do_Permutation pOp
  | OP_Compare => do_Compare pOp
  | OP_Jump => do_Jump pOp
  | OP_And | OP_Or => do_Logic pOp
  | OP_Not => do_Not pOp
  | OP_BitNot => do_BitNot pOp
  | OP_Once => do_Once pOp
  | OP_If | OP_IfNot => do_If pOp
  | OP_IsNull => do_IsNull pOp
  | OP_NotNull => do_NotNull pOp
  | OP_Affinity => do_Affinity pOp
  | OP_FkCounter => do_FkCounter pOp
  | OP_FkIfZero => do_FkIfZero pOp
  | OP_MemMax => do_MemMax pOp
  | OP_IfPos | OP_IfNeg | OP_IfZero => do_IfSign pOp
  | OP_Noop => mret ()
  end.

(** One turn of the loop: [assert( pc>=0 && pc<p->nOp )], the instruction, [pc++]. *)
Definition step : VM () :=
  failed ← gets (fun s => s.(heap).(mallocFailed));
  if failed : bool then goto no_mem
  else
    pOp ← (fun s => pOp ← (if 0 <=? s.(pc) then s.(aOp) !! Z.to_nat s.(pc) else None); Some (inl pOp, s));
    _ ← dispatch pOp;
    modify (fun s => set_pc s (s.(pc) + 1)).

Definition SQLITE_INTERRUPT : Z := 9.
Definition SQLITE_ROW : Z := 100.

(** The code behind the loop: [p->rc] and the return value.  For a program that
    halts it is the code up to the call of [sqlite3VdbeHalt], whose outcome the
    transaction decides; the value is then [None]. *)
Definition leave (l : label) (s : Vdbe) : option Z * Vdbe :=
  let error rc s := (Some SQLITE_ERROR, set_rc s rc s.(errorAction)) in
  let out_of_memory s := set_heap s (mkAlloc s.(heap).(mallocs) true) in
  match l with
  | vdbe_return_row => (Some SQLITE_ROW, s)
  | vdbe_halt => (None, s)
  | too_big => error SQLITE_TOOBIG s
  | no_mem => error SQLITE_NOMEM (out_of_memory s)
  | abort_due_to_error rc => error (if s.(heap).(mallocFailed) then SQLITE_NOMEM else rc) s
  | abort_due_to_interrupt => error SQLITE_INTERRUPT s
  | Vdbe.vdbe_error_halt rc => error rc s
  end.

(** The loop, for at most [fuel] instructions: [inr] when they run out. *)
Fixpoint exec_loop (fuel : nat) (s : Vdbe) : option ((option Z * Vdbe) + Vdbe) :=
  match fuel with
  | O => Some (inr s)
  | S fuel =>
      '(r, s) ← step s;
      match r with
      | inl _ => exec_loop fuel s
      | inr l => Some (inl (leave l s))
      end
  end.

(** [iCompare] and [aPermute] are locals of the function. *)
Definition sqlite3VdbeExec (fuel : nat) (s : Vdbe) : option ((option Z * Vdbe) + Vdbe) :=
  if s.(vrc) =? SQLITE_NOMEM then Some (inl (leave no_mem s))
  else
    let s := set_rc s SQLITE_OK s.(errorAction) in
    let s := set_compare (set_row s s.(cacheCtr) 0) 0 None in
    if s.(db).(isInterrupted) then Some (inl (leave abort_due_to_interrupt s)) else exec_loop fuel s.

End Exec.
