(* ===== verification/CellOk.v ===== *)
(** * Well-formed cells (src/lmdb-backend/src/vdbemem.c)

    What every register of the virtual machine holds between two instructions,
    and that each operation on cells keeps it. *)

From S2P Require Import Prelude Ctype Ints Utf Printf PrintfSpec Quote AlterSpec Mem Real Value Vdbe.

Abbreviation mf := Value.mallocFailed.

(** ** The bits of a cell's flags *)

Lemma has_pow k f : 0 <= k -> has f (2 ^ k) = Z.testbit f k.
Proof.
  intros Hk. unfold has. rewrite land_pow2 by done. destruct (Z.testbit f k); [|done].
  destruct (Z.eqb_spec (2 ^ k) 0); [pose proof (Z.pow_pos_nonneg 2 k); lia|done].
Qed.

Lemma has_mask a b f : has f (Z.lor a b) = has f a || has f b.
Proof. unfold has. rewrite !(Z.land_comm f). apply has_lor. Qed.

Lemma has_Null f : has f MEM_Null = Z.testbit f 0. Proof. by apply (has_pow 0). Qed.
Lemma has_Str f : has f MEM_Str = Z.testbit f 1. Proof. by apply (has_pow 1). Qed.
Lemma has_Int f : has f MEM_Int = Z.testbit f 2. Proof. by apply (has_pow 2). Qed.
Lemma has_Real f : has f MEM_Real = Z.testbit f 3. Proof. by apply (has_pow 3). Qed.
Lemma has_Blob f : has f MEM_Blob = Z.testbit f 4. Proof. by apply (has_pow 4). Qed.
Lemma has_Invalid f : has f MEM_Invalid = Z.testbit f 7. Proof. by apply (has_pow 7). Qed.
Lemma has_Cleared f : has f MEM_Cleared = Z.testbit f 8. Proof. by apply (has_pow 8). Qed.
Lemma has_Term f : has f MEM_Term = Z.testbit f 9. Proof. by apply (has_pow 9). Qed.
Lemma has_Dyn f : has f MEM_Dyn = Z.testbit f 10. Proof. by apply (has_pow 10). Qed.
Lemma has_Static f : has f MEM_Static = Z.testbit f 11. Proof. by apply (has_pow 11). Qed.
Lemma has_Ephem f : has f MEM_Ephem = Z.testbit f 12. Proof. by apply (has_pow 12). Qed.
Lemma has_Zero f : has f MEM_Zero = Z.testbit f 14. Proof. by apply (has_pow 14). Qed.

Create Rewrite HintDb flags.
#[export] Hint Rewrite has_mask has_Null has_Str has_Int has_Real has_Blob has_Invalid has_Cleared has_Term has_Dyn
  has_Static has_Ephem has_Zero Z.lor_spec Z.land_spec : flags.

(** Every test of flags becomes a test of single bits; those of constants are
    evaluated. *)
Ltac bits_norm :=
  autorewrite with flags;
  repeat match goal with
  | |- context [Z.testbit (Z.shiftr ?a ?j) ?k] =>
      rewrite (Z.shiftr_spec a j k) by done; rewrite ?Z.land_spec, ?Z.lor_spec;
      let v := eval vm_compute in (k + j) in change (k + j) with v
  | |- context [Z.testbit (?f _) ?k] => lazymatch f with flags => fail | _ => idtac end;
      match goal with |- context [Z.testbit (f ?x) k] =>
      let b := eval vm_compute in (Z.testbit (f x) k) in
      lazymatch b with true => idtac | false => idtac end; change (Z.testbit (f x) k) with b end
  | |- context [Z.testbit ?c ?k] => is_const c;
      let b := eval vm_compute in (Z.testbit c k) in change (Z.testbit c k) with b
  end; cbn [andb orb negb implb].

(** Case analysis on the bits that are left, one by one. *)
Ltac bits_done := cbn [andb orb negb implb]; try reflexivity; try (intros; reflexivity); try (intros; discriminate).
Ltac bits_cases :=
  bits_done;
  try match goal with |- context [Z.testbit ?f ?k] =>
    destruct (Z.testbit f k); bits_cases
  end.
Ltac bits := solve [bits_norm; bits_cases].

Definition flags_ok (f : Z) : bool :=
  implb (has f MEM_Zero) (has f MEM_Blob && negb (has f MEM_Str) && negb (has f MEM_Int) && negb (has f MEM_Real))
  && implb (has f MEM_Blob && (has f MEM_Int || has f MEM_Real)) (has f MEM_Str)
  && implb (has f MEM_Null) (negb (has f MEM_Str) && negb (has f MEM_Int) && negb (has f MEM_Real) && negb (has f MEM_Blob))
  && (has f MEM_Null || has f MEM_Str || has f MEM_Int || has f MEM_Real || has f MEM_Blob || has f MEM_Invalid).


(** The bits that tell the type of a cell, its validity and its destructor. *)
Record agree (f' f : Z) : Prop := {
  a_null : has f' MEM_Null = has f MEM_Null;
  a_str : has f' MEM_Str = has f MEM_Str;
  a_int : has f' MEM_Int = has f MEM_Int;
  a_real : has f' MEM_Real = has f MEM_Real;
  a_blob : has f' MEM_Blob = has f MEM_Blob;
  a_invalid : has f' MEM_Invalid = has f MEM_Invalid;
  a_cleared : has f' MEM_Cleared = has f MEM_Cleared;
  a_dyn : has f' MEM_Dyn = has f MEM_Dyn;
}.

Lemma agree_refl f : agree f f.
Proof. by split. Qed.

Lemma agree_trans f g h : agree f g -> agree g h -> agree f h.
Proof. intros [] []. split; congruence. Qed.

(** ** The invariant

    [B] bounds the length of a text or blob.  In a connection in which an
    allocation failed ([bad]) a cell may still have the flags of a value whose
    bytes are gone. *)

(** ** Numbers stay in range *)

Lemma wrap64_i64 x : is_i64 (i64 x).
Proof. by apply wrap_s_range. Qed.

Lemma smallest_i64 : is_i64 SMALLEST_INT64.
Proof. rewrite smallest_int64. unfold_int. lia. Qed.

Lemma atoi64_range z enc : is_i64 (snd (sqlite3Atoi64 z enc)).
Proof.
  assert (H : forall (g b : bool) v, is_i64 (if g then SMALLEST_INT64 else if b then i64 (- i64 v) else i64 v)).
  { intros [] [] v; apply wrap64_i64 || apply smallest_i64. }
  unfold sqlite3Atoi64. repeat match goal with |- context [let '(_, _) := ?x in _] => destruct x as [? ?] end.
  repeat match goal with |- context [if ?b then (_, _) else _] => destruct b end; apply H.
Qed.

Lemma i64_of_double_range x : is_i64 (i64_of_double x).
Proof.
  destruct x as [| | |s m e]; try apply smallest_i64; [unfold_int; cbn; lia|]. cbn [i64_of_double].
  match goal with |- context [fits ?v] => destruct (fits_spec v) end; [done|apply smallest_i64].
Qed.

Lemma doubleToInt64_range x : is_i64 (doubleToInt64 x).
Proof.
  unfold doubleToInt64. destruct (double_lt _ _); [apply smallest_i64|]. destruct (double_lt _ _); [apply smallest_i64|].
  apply i64_of_double_range.
Qed.

Section Cells.
Variable (B : Z).

Definition is_data (m : Mem) : bool := has m.(flags) MEM_Str || has m.(flags) MEM_Blob.
Definition data_ok (bad : bool) (m : Mem) : Prop :=
  0 <= m.(n) <= B /\ (m.(n) <= zlength m.(z) \/ bad = true).
Definition zero_ok (m : Mem) : Prop := 0 <= nZero m /\ m.(n) + nZero m <= B /\ m.(n) <= zlength m.(z).

Record cell_ok (bad : bool) (m : Mem) : Prop := {
  c_flags : flags_ok m.(flags) = true;
  c_bytes : bytes_ok m.(z);
  c_data : is_data m = true -> data_ok bad m;
  c_int : is_i64 m.(u);
  c_enc : is_data m = true -> is_enc m.(enc);
  c_zero : has m.(flags) MEM_Zero = true -> zero_ok m;
}.

Lemma data_weaken bad bad' m : data_ok bad m -> (bad = true -> bad' = true) -> data_ok bad' m.
Proof. intros [? [?|?]] ?; split; auto. Qed.

Lemma cell_weaken bad bad' m : cell_ok bad m -> (bad = true -> bad' = true) -> cell_ok bad' m.
Proof.
  intros [Hf Hb Hd Hi He' Hz] Hw. split; try done. intros H. eapply data_weaken; eauto.
Qed.

Lemma cell_value_range bad m : cell_ok bad m -> is_i64 (sqlite3VdbeIntValue m).
Proof.
  intros Hm. unfold sqlite3VdbeIntValue. destruct (has _ MEM_Int) eqn:Hi; [apply Hm|].
  destruct (has _ MEM_Real); [apply doubleToInt64_range|]. destruct (has _ (Z.lor _ _)); [apply atoi64_range|unfold_int; lia].
Qed.

(** A cell that is no text and no blob. *)
Lemma cell_number bad m :
  flags_ok m.(flags) = true -> is_data m = false -> has m.(flags) MEM_Zero = false ->
  bytes_ok m.(z) -> is_i64 m.(u) -> cell_ok bad m.
Proof.
  unfold is_data. intros Hf Hd Hz Hb Hi. apply orb_false_iff in Hd as [Hs Hbl].
  split; try done; unfold is_data; rewrite ?Hs, ?Hbl, ?Hz; done.
Qed.

(** A cell with the bytes of another one. *)
Lemma cell_same_bytes bad m m' :
  cell_ok bad m -> m'.(n) = m.(n) -> m'.(z) = m.(z) -> m'.(enc) = m.(enc) ->
  flags_ok m'.(flags) = true ->
  (has m'.(flags) MEM_Str = true -> has m.(flags) MEM_Str = true) ->
  (has m'.(flags) MEM_Blob = true -> is_data m = true) ->
  (has m'.(flags) MEM_Zero = true -> has m.(flags) MEM_Zero = true) ->
  (m'.(u) = m.(u) \/ has m'.(flags) MEM_Zero = false) ->
  is_i64 m'.(u) -> cell_ok bad m'.
Proof.
  intros [Hf Hb Hd Hi He' Hz] En Ez Ee Hf' Hs Hbl Hz' Hu Hi'.
  assert (Hdata : is_data m' = true -> is_data m = true).
  { unfold is_data at 1. intros H. apply orb_true_iff in H as [H|H]; [|by apply Hbl]. unfold is_data. by rewrite (Hs H). }
  split; try done.
  - by rewrite Ez.
  - intros H. unfold data_ok. rewrite En, Ez. apply Hd, Hdata, H.
  - intros H. rewrite Ee. apply He', Hdata, H.
  - intros H. destruct Hu as [Eu|Hu]; [|congruence]. unfold zero_ok, nZero. rewrite En, Eu, Ez. by apply Hz, Hz'.
Qed.

End Cells.

(** Goals on flags, from what is known of the flags of the cells at hand. *)
Ltac flag_facts :=
  repeat match goal with
  | H : cell_ok _ _ ?m |- _ => pose proof (c_flags _ _ _ H); clear H
  end;
  unfold flags_ok, is_data, memIsValid in *; cbn [flags set_flags set_u set_r set_n set_z set_enc MemSetTypeFlag clear_flags add_flags sqlite3VdbeMemSetNull sqlite3VdbeMemSetInt64] in *;
  repeat match goal with
  | H : ?b = true |- _ => revert H
  | H : ?b = false |- _ => revert H
  | H : is_true _ |- _ => revert H
  end.
Ltac flag_bits := solve [flag_facts; bits].

Section Operations.
Variable (B : Z).
Abbreviation cell_ok := (cell_ok B).
Abbreviation data_ok := (data_ok B).

(** The cells made from one whose [z] alone matters. *)
Lemma cell_null bad m : bytes_ok m.(z) -> is_i64 m.(u) -> cell_ok bad (sqlite3VdbeMemSetNull m).
Proof. intros Hm Hu. by apply cell_number; [flag_bits..| |]. Qed.

Lemma cell_int bad m i : bytes_ok m.(z) -> is_i64 i -> cell_ok bad (MemSetTypeFlag (set_u m i) MEM_Int).
Proof. intros Hm Hi. by apply cell_number; [flag_bits..| |]. Qed.

Lemma cell_real bad m x : bytes_ok m.(z) -> is_i64 m.(u) -> cell_ok bad (MemSetTypeFlag (set_r m x) MEM_Real).
Proof. intros Hm Hu. by apply cell_number; [flag_bits..| |]. Qed.

Lemma cell_set_int bad m i : is_i64 i -> cell_ok bad (sqlite3VdbeMemSetInt64 m i).
Proof. intros Hi. by apply cell_number; [done..|constructor|]. Qed.

Lemma cell_integerify bad m : cell_ok bad m -> cell_ok bad (snd (sqlite3VdbeMemIntegerify m)).
Proof. intros Hm. apply cell_int; [apply Hm|]. by apply (cell_value_range B bad). Qed.

Lemma cell_realify bad m : cell_ok bad m -> cell_ok bad (sqlite3VdbeMemRealify m).
Proof. intros Hm. apply cell_real; apply Hm. Qed.

Lemma cell_integer_affinity bad m :
  cell_ok bad m -> has m.(flags) MEM_Real = true -> cell_ok bad (sqlite3VdbeIntegerAffinity m).
Proof.
  intros Hm Hr. pose proof (doubleToInt64_range (double_of_bits m.(r))) as Hi.
  unfold sqlite3VdbeIntegerAffinity. destruct (_ && _);
    (apply (cell_same_bytes B bad m); try done; try flag_bits; right; flag_bits).
Qed.

Lemma cell_numeric bad m : cell_ok bad m -> cell_ok bad (applyNumericAffinity m).
Proof.
  intros Hm. unfold applyNumericAffinity. destruct (has _ (Z.lor MEM_Real MEM_Int)) eqn:Hn; [done|]. cbn [negb].
  destruct (has m.(flags) MEM_Str) eqn:Hs; [|done]. cbn [negb]. destruct (sqlite3AtoF _ _) as [valid x].
  destruct valid; [|done]. cbn [negb]. pose proof (atoi64_range (content m) m.(enc)) as Hi.
  destruct (sqlite3Atoi64 _ _) as [rc i]. destruct (rc =? 0);
    (apply (cell_same_bytes B bad m); try done; try apply Hm; try flag_bits; right; flag_bits).
Qed.

Lemma cell_clear_data bad m :
  cell_ok bad m -> has m.(flags) (Z.lor (Z.lor MEM_Int MEM_Real) MEM_Null) = true ->
  cell_ok bad (clear_flags m (Z.lor MEM_Str MEM_Blob)).
Proof.
  intros Hm Hn. apply cell_number; try flag_bits; apply Hm.
Qed.

Lemma cell_numerify bad m : cell_ok bad m -> cell_ok bad (sqlite3VdbeMemNumerify m).
Proof.
  intros Hm. unfold sqlite3VdbeMemNumerify. destruct (has _ (Z.lor _ MEM_Null)) eqn:Hn; cbn [negb]; [by apply cell_clear_data|].
  pose proof (atoi64_range (content m) m.(enc)) as Hi. destruct (sqlite3Atoi64 _ _) as [rc i]. cbn in Hi. destruct (rc =? 0).
  - apply cell_clear_data; [apply cell_int; [apply Hm|done]|]. flag_bits.
  - apply cell_clear_data.
    + apply cell_integer_affinity; [apply cell_real; [apply Hm|done]|flag_bits].
    + unfold sqlite3VdbeIntegerAffinity. destruct (_ && _); flag_bits.
Qed.

(** ** Operations that allocate

    The cell they leave, and what they tell when no allocation failed. *)

Definition awp {A} (c : AM A) (Q : A -> alloc -> Prop) (a : alloc) : Prop :=
  match c a with Some (x, a') => Q x a' | None => False end.

Lemma awp_bind {A C} (c : AM A) (f : A -> AM C) Q a :
  awp c (fun x => awp (f x) Q) a -> awp (x ← c; f x) Q a.
Proof. unfold awp, mbind, AM_bind. destruct (c a) as [[x a']|]; cbn; auto. Qed.

Lemma awp_ret {A} (x : A) (Q : A -> alloc -> Prop) a : Q x a -> awp (mret x) Q a.
Proof. done. Qed.

Lemma awp_mono {A} (c : AM A) (Q Q' : A -> alloc -> Prop) a :
  awp c Q a -> (forall x a', Q x a' -> Q' x a') -> awp c Q' a.
Proof. unfold awp. destruct (c a) as [[x a']|]; [|done]. auto. Qed.

Record outcome (R : Mem -> Mem -> Prop) (m : Mem) (a : alloc) (m' : Mem) (a' : alloc) : Prop := {
  o_cell : cell_ok (mf a') m';
  o_valid : memIsValid m = true -> memIsValid m' = true;
  o_rel : (mf a' = mf a /\ R m m') \/ mf a' = true;
}.

(** The same for an operation with a return code. *)
Definition returns (R : Mem -> Mem -> Prop) (m : Mem) (a : alloc) (x : Z * Mem) (a' : alloc) : Prop :=
  outcome R m a x.2 a' /\ (x.1 <> SQLITE_OK -> mf a' = true).

Lemma outcome_id (R : Mem -> Mem -> Prop) m a : cell_ok (mf a) m -> R m m -> outcome R m a m a.
Proof. intros. split; auto. Qed.

Lemma outcome_trans (R S T : Mem -> Mem -> Prop) m a m1 a1 m2 a2 :
  outcome R m a m1 a1 -> outcome S m1 a1 m2 a2 -> (R m m1 -> S m1 m2 -> T m m2) -> outcome T m a m2 a2.
Proof.
  intros [Hc1 Hv1 Hr1] [Hc2 Hv2 Hr2] HT. split; [done|auto|].
  destruct Hr2 as [[E HS]|]; [|by right]. destruct Hr1 as [[E1 HR]|E1]; [left|right; congruence].
  split; [congruence|auto].
Qed.

(** A call of one function, for each outcome of its allocation. *)
Lemma attempt_spec (R : Mem -> Mem -> Prop) f m a :
  (forall oom, exists rc m', f oom = Some (rc, m') /\ (memIsValid m = true -> memIsValid m' = true) /\
     ((rc = SQLITE_OK /\ cell_ok (mf a) m' /\ R m m') \/ (rc <> SQLITE_OK /\ cell_ok true m'))) ->
  awp (attempt f) (returns R m a) a.
Proof.
  intros Hf. unfold awp, attempt, draw. cbn [mbind option_bind].
  match goal with |- context [f ?b] => destruct (Hf b) as (rc & m' & E & Hv & Hr) end.
  rewrite E. cbn [mbind option_bind]. destruct (Z.eqb_spec rc SQLITE_OK) as [->|Hne].
  - destruct Hr as [(_ & Hc & HR)|[? _]]; [|done]. split; [|by intros ?]. split; auto.
  - destruct Hr as [(? & _)|[_ Hc]]; [done|]. split; [|by intros ?]. split; auto.
Qed.

(** The cell of a failed allocation. *)
Definition nulled (m m' : Mem) : Prop :=
  m'.(flags) = MEM_Null /\ m'.(z) = [] /\ m'.(n) = m.(n) /\ m'.(u) = m.(u) /\ m'.(enc) = m.(enc).

Lemma nulled_cell m m' bad : is_i64 m.(u) -> nulled m m' -> cell_ok bad m'.
Proof.
  intros Hm (Hf & Hz & _ & Hu & _). apply cell_number; unfold is_data; rewrite ?Hf, ?Hz, ?Hu; try done. constructor.
Qed.

Lemma nulled_valid m m' : nulled m m' -> memIsValid m' = true.
Proof. intros [Hf _]. unfold memIsValid. by rewrite Hf. Qed.

(** What [sqlite3VdbeMemGrow] returns. *)
Lemma grow_cases oom m nb preserve rc m' :
  sqlite3VdbeMemGrow oom m nb preserve = (rc, m') ->
  (rc = SQLITE_NOMEM /\ nulled m m') \/
  (rc = SQLITE_OK /\ m'.(flags) = Z.land m.(flags) (Z.lnot (Z.lor MEM_Ephem MEM_Static)) /\ m'.(u) = m.(u) /\ m'.(r) = m.(r) /\
   m'.(n) = m.(n) /\ m'.(enc) = m.(enc) /\ m'.(z) = if preserve then content m else []).
Proof.
  unfold sqlite3VdbeMemGrow. destruct (negb _ && oom); intros [= <- <-]; [left; by split|right; by split_and!].
Qed.

Lemma content_ok bad m : cell_ok bad m -> bytes_ok (content m).
Proof. intros Hm. apply Forall_take, Hm. Qed.

Lemma content_zlength bad m : data_ok bad m -> zlength (content m) = m.(n) \/ bad = true.
Proof.
  intros [Hn [Hz|Hb]]; [left|by right]. unfold content, zlength in *. rewrite length_take. lia.
Qed.

Lemma content_twice m m1 : m1.(z) = content m -> m1.(n) = m.(n) -> content m1 = content m.
Proof. intros Ez En. unfold content at 1. rewrite Ez, En. unfold content. rewrite take_take. f_equal. lia. Qed.

(** A cell that keeps its value when its bytes move. *)
Definition same_value (m m' : Mem) : Prop := agree m'.(flags) m.(flags) /\ m'.(u) = m.(u).

Lemma same_value_trans m1 m2 m3 : same_value m1 m2 -> same_value m2 m3 -> same_value m1 m3.
Proof. intros [? ?] [? ?]. split; [by eapply agree_trans|congruence]. Qed.

Ltac agree_facts :=
  repeat match goal with
  | H : agree ?f' ?f |- _ => destruct H as [-> -> -> -> -> -> -> ->] || (let E := fresh in destruct H)
  end.

Lemma agree_valid m m' : agree m'.(flags) m.(flags) -> memIsValid m = true -> memIsValid m' = true.
Proof. intros []. unfold memIsValid. congruence. Qed.

(** A cell with the flags of [m], but for the storage bits, and new bytes. *)
Lemma cell_moved bad m m' :
  cell_ok bad m -> agree m'.(flags) m.(flags) -> m'.(u) = m.(u) -> m'.(enc) = m.(enc) -> bytes_ok m'.(z) ->
  (is_data m = true -> data_ok bad m') ->
  (has m'.(flags) MEM_Zero = true -> has m.(flags) MEM_Zero = true /\ m'.(n) = m.(n) /\ m.(n) <= zlength m'.(z)) -> cell_ok bad m'.
Proof.
  intros [Hf Hb Hd Hi He' Hz] [A1 A2 A3 A4 A5 A6 A7 A8] Eu Ee Hb' Hd' Hz'. split; try done.
  - revert Hf. unfold flags_ok. rewrite A1, A2, A3, A4, A5, A6.
    destruct (has (flags m') MEM_Zero) eqn:E; [destruct (Hz' eq_refl) as [-> _]; done|].
    destruct (has (flags m) MEM_Zero); [|done]. cbn [implb].
    destruct (has (flags m) MEM_Blob), (has (flags m) MEM_Str), (has (flags m) MEM_Int), (has (flags m) MEM_Real), (has (flags m) MEM_Null); done.
  - unfold is_data. rewrite A2, A5. exact Hd'.
  - by rewrite Eu.
  - unfold is_data. rewrite A2, A5, Ee. done.
  - intros H. destruct (Hz' H) as (H1 & H2 & H3). unfold zero_ok, nZero. rewrite H2, Eu. destruct (Hz H1) as (? & ? & _). done.
Qed.

(** The result of a function of [vdbemem.c] that allocates at most once. *)
Definition pure_result (R : Mem -> Mem -> Prop) (bad : bool) (m : Mem) (x : Z * Mem) : Prop :=
  (memIsValid m = true -> memIsValid x.2 = true) /\
  ((x.1 = SQLITE_OK /\ cell_ok bad x.2 /\ R m x.2) \/ (x.1 <> SQLITE_OK /\ cell_ok true x.2)).

Lemma pure_attempt R f m a :
  (forall oom, exists x, f oom = Some x /\ pure_result R (mf a) m x) -> awp (attempt f) (returns R m a) a.
Proof. intros Hf. apply attempt_spec. intros oom. destruct (Hf oom) as ([rc m'] & E & Hv & H). eauto. Qed.

Lemma expand_pure bad m oom :
  cell_ok bad m ->
  let x := sqlite3VdbeMemExpandBlob oom m in
  pure_result same_value bad m x /\ has x.2.(flags) MEM_Zero = false /\ (x.1 <> SQLITE_OK -> nulled m x.2).
Proof.
  intros Hm. cbv zeta. unfold sqlite3VdbeMemExpandBlob.
  destruct (has m.(flags) MEM_Zero) eqn:Hz; [|split; [split; [done|left]; split_and!; done|done]].
  pose proof (c_zero _ _ _ Hm Hz) as (Hz0 & HzB & Hnz).
  assert (Hd : is_data m = true) by (clear Hz0 HzB; flag_bits).
  pose proof (c_data _ _ _ Hm Hd) as Hdata.
  destruct (sqlite3VdbeMemGrow _ _ _ _) as [rc m1] eqn:E. apply grow_cases in E as [[-> Hn]|(-> & Ef & Eu & Er & En & Ee & Ez)].
  - cbn [negb Z.eqb SQLITE_NOMEM SQLITE_OK fst snd]. split; [|split; [destruct Hn as [-> _]; done|done]].
    split; [intros _; by eapply nulled_valid|]. right. split; [done|eapply nulled_cell; [apply Hm|done]].
  - cbn [flags set_flags set_n set_z n u nZero negb Z.eqb SQLITE_OK fst snd].
    assert (HA : agree (Z.land m1.(flags) (Z.lnot (Z.lor MEM_Zero MEM_Term))) m.(flags))
      by (rewrite Ef; split; bits_norm; by rewrite ?andb_true_r).
    split; [|split; [bits|done]]. split; [by apply agree_valid|]. left. split; [done|].
    unfold nZero in *. rewrite ?Eu, ?En in *. split; [|by split].
    apply (cell_moved _ m); try done; cbn [z set_flags set_n set_z enc u n flags snd].
    + apply bytes_ok_app. split; [|apply Forall_replicate; unfold_int; lia].
      apply Forall_take. rewrite Ez. by eapply content_ok.
    + intros _. destruct Hdata as [Hn _]. unfold data_ok, nZero in *. cbn [n z u set_flags set_n set_z snd]. rewrite ?Eu, ?En.
      split; [lia|left]. rewrite zlength_app.
      assert (Hc : zlength (content m) = m.(n)) by (unfold content, zlength in *; rewrite length_take; lia).
      assert (Hc1 : content m1 = content m) by (by apply content_twice).
      rewrite Hc1, Hc. unfold zlength. rewrite length_replicate. lia.
    + rewrite Ef. clear. intros H. exfalso. revert H. bits_norm. by rewrite andb_false_r.
Qed.

Lemma expand_spec m a :
  cell_ok (mf a) m ->
  awp (ExpandBlob m) (fun x a' => returns same_value m a x a' /\ has x.2.(flags) MEM_Zero = false /\
    (x.1 = SQLITE_OK -> mf a' = mf a /\ same_value m x.2)) a.
Proof.
  intros Hm. unfold awp, ExpandBlob, attempt, draw. cbn [mbind option_bind].
  match goal with |- context [sqlite3VdbeMemExpandBlob ?b m] => destruct (expand_pure (mf a) m b Hm) as ((Hv & Hr) & Hz & _) end.
  destruct (sqlite3VdbeMemExpandBlob _ m) as [rc m']. cbn [fst snd] in *. cbn [mbind option_bind].
  destruct (Z.eqb_spec rc SQLITE_OK) as [->|Hne]; (split; [split; [|by intros ?]|split; [done|]]).
  - destruct Hr as [(_ & Hc & HR)|[? _]]; [|done]. split; auto.
  - destruct Hr as [(_ & Hc & HR)|[? _]]; [|done]. auto.
  - destruct Hr as [(? & _)|[_ Hc]]; [done|]. split; auto.
  - done.
Qed.

(** The bytes and the terminator. *)
Lemma terminate_cell bad m m1 :
  cell_ok bad m -> has m.(flags) MEM_Zero = false -> is_data m = true ->
  m1.(flags) = Z.land m.(flags) (Z.lnot (Z.lor MEM_Ephem MEM_Static)) -> m1.(u) = m.(u) -> m1.(n) = m.(n) -> m1.(enc) = m.(enc) ->
  m1.(z) = content m -> cell_ok bad (terminate m1) /\ same_value m (terminate m1).
Proof.
  intros Hm Hz Hd Ef Eu En Ee Ez.
  assert (HA : agree (terminate m1).(flags) m.(flags)).
  { unfold terminate. cbn [flags set_flags]. rewrite Ef. split; bits_norm; by rewrite ?andb_true_r, ?orb_false_r. }
  split; [|by split]. apply (cell_moved _ m); try done.
  - unfold terminate. cbn [z set_flags set_z]. apply bytes_ok_app. split; [|repeat constructor; unfold_int; lia].
    apply Forall_take. rewrite Ez. by eapply content_ok.
  - intros _. destruct (c_data _ _ _ Hm Hd) as [Hn Hl]. unfold data_ok, terminate. cbn [n z set_flags set_z]. rewrite En. split; [done|].
    rewrite (content_twice m m1) by done. unfold zlength in *. rewrite length_app. unfold content. rewrite length_take. cbn [length].
    destruct Hl as [Hl|Hl]; [left; lia|by right].
  - unfold terminate. cbn [flags set_flags]. rewrite Ef. bits_norm. rewrite andb_true_r, orb_false_r, <- has_Zero, Hz. done.
Qed.

Lemma grow_terminate R bad m oom nb :
  cell_ok bad m -> has m.(flags) MEM_Zero = false -> is_data m = true -> (forall m', same_value m m' -> R m m') ->
  pure_result R bad m (let '(rc, m1) := sqlite3VdbeMemGrow oom m nb true in
    if negb (rc =? SQLITE_OK) then (SQLITE_NOMEM, m1) else (SQLITE_OK, terminate m1)).
Proof.
  intros Hm Hz Hd HR. destruct (sqlite3VdbeMemGrow _ _ _ _) as [rc m1] eqn:E.
  apply grow_cases in E as [[-> Hn]|(-> & Ef & Eu & Er & En & Ee & Ez)]; cbn [negb Z.eqb].
  - split; [intros _; by eapply nulled_valid|right]. split; [done|eapply nulled_cell; [apply Hm|done]].
  - destruct (terminate_cell bad m m1) as [Hc Hs]; try done. split; [apply agree_valid, Hs|left]. split_and!; auto.
Qed.

Lemma makewriteable_pure bad m oom :
  cell_ok bad m -> has m.(flags) MEM_Zero = false -> pure_result same_value bad m (sqlite3VdbeMemMakeWriteable oom m).
Proof.
  intros Hm Hz. unfold sqlite3VdbeMemMakeWriteable, sqlite3VdbeMemExpandBlob. rewrite Hz. cbn [snd].
  destruct (has _ (Z.lor MEM_Str MEM_Blob)) eqn:Hd; [|split; [done|left]; split_and!; done].
  destruct (own m); cbn [negb andb]; [split; [done|left]; split_and!; done|].
  apply grow_terminate; try done. unfold is_data. by rewrite <- has_mask.
Qed.

Lemma nulterminate_spec m a :
  cell_ok (mf a) m -> awp (NulTerminate m) (returns same_value m a) a.
Proof.
  intros Hm. apply pure_attempt. intros oom. eexists. split; [reflexivity|]. unfold sqlite3VdbeMemNulTerminate.
  destruct (has m.(flags) MEM_Term || negb (has m.(flags) MEM_Str)) eqn:E; [split; [done|left]; split_and!; done|].
  apply orb_false_iff in E as [_ Hs%negb_false_iff].
  apply grow_terminate; try done; clear -Hm Hs; flag_bits.
Qed.

Lemma makewriteable_spec m a :
  cell_ok (mf a) m -> awp (MakeWriteable m) (returns same_value m a) a.
Proof.
  intros Hm. apply awp_bind. eapply awp_mono; [by apply expand_spec|]. intros [rc1 m1] a1 [[Ho _] [Hz _]]. cbn in Ho, Hz.
  eapply awp_mono; [apply pure_attempt; intros oom; eexists; split; [reflexivity|]; apply makewriteable_pure; [apply Ho|done]|].
  intros [rc2 m2] a2 [Ho2 Hrc2]. split; [|done]. eapply outcome_trans; [apply Ho|apply Ho2|]. intros ? ?. by eapply same_value_trans.
Qed.
End Operations.

(** ** Encodings *)

(** The flags but for the destructor. *)
Record types (f' f : Z) : Prop := {
  y_null : has f' MEM_Null = has f MEM_Null;
  y_str : has f' MEM_Str = has f MEM_Str;
  y_int : has f' MEM_Int = has f MEM_Int;
  y_real : has f' MEM_Real = has f MEM_Real;
  y_blob : has f' MEM_Blob = has f MEM_Blob;
  y_invalid : has f' MEM_Invalid = has f MEM_Invalid;
  y_cleared : has f' MEM_Cleared = has f MEM_Cleared;
}.

Lemma agree_types f' f : agree f' f -> types f' f.
Proof. intros []. by split. Qed.

Definition recoded (m m' : Mem) : Prop := types m'.(flags) m.(flags) /\ m'.(u) = m.(u).

Lemma same_recoded m m' : same_value m m' -> recoded m m'.
Proof. intros [? ?]. split; [by apply agree_types|done]. Qed.

Lemma writers_bytes c : bytes_ok (WRITE_UTF8 c) /\ bytes_ok (WRITE_UTF16LE c) /\ bytes_ok (WRITE_UTF16BE c).
Proof.
  unfold WRITE_UTF8, WRITE_UTF16LE, WRITE_UTF16BE. repeat destruct (_ <? _); destruct (_ <=? _);
    split_and!; repeat constructor; by apply wrap_u_range.
Qed.

Lemma translate_loop_bytes rd wr : (forall c, bytes_ok (wr c)) -> forall fuel z out,
  translate_loop fuel rd wr z = Some out -> bytes_ok out.
Proof.
  intros Hw fuel. induction fuel as [|fuel IH]; intros [|b z] out H; cbn in H; try (simplify_eq; constructor).
  destruct (rd (b :: z)) as [[c z']|]; [|done]. cbn in H. destruct (translate_loop fuel rd wr z') as [o|] eqn:E; [|done].
  cbn in H. simplify_eq. apply bytes_ok_app. split; [apply Hw|by eapply IH].
Qed.

Lemma translate_bytes from to zin out : translate from to zin = Some out -> bytes_ok out.
Proof.
  unfold translate. repeat destruct (_ =? _); apply translate_loop_bytes; intros c; apply writers_bytes.
Qed.

(** A text whose bytes all are there. *)
Definition good (m : Mem) : Prop := is_data m = true -> m.(n) <= zlength m.(z).

Lemma cell_good B m : cell_ok B false m -> good m.
Proof. intros Hm Hd. by destruct (c_data _ _ _ Hm Hd) as [_ [?|?]]. Qed.

Lemma swap_bytes_ok k : forall l, (length l <= k)%nat -> bytes_ok l -> bytes_ok (swap_bytes l).
Proof.
  induction k as [|k IH]; intros [|x [|y l]] Hk H; cbn [length] in *; try lia; try done.
  apply Forall_cons in H as [Hx H]. apply Forall_cons in H as [Hy H].
  cbn [swap_bytes]. repeat (apply List.Forall_cons; [done|]). apply IH; [lia|done].
Qed.

Lemma swap_app_length (k : nat) (l : list Z) : length (swap_bytes (take k l) ++ drop k l) = length l.
Proof. rewrite length_app, swap_length, <- length_app, take_drop. done. Qed.

(** Making a cell writeable keeps its bytes, or takes them all. *)
Lemma makewriteable_good B bad oom m rc m' :
  cell_ok B bad m -> good m -> has m.(flags) MEM_Zero = false -> sqlite3VdbeMemMakeWriteable oom m = (rc, m') ->
  if rc =? SQLITE_OK then m'.(n) = m.(n) /\ m'.(n) <= zlength m'.(z) \/ is_data m = false else nulled m m'.
Proof.
  intros Hm Hg Hz. unfold sqlite3VdbeMemMakeWriteable, sqlite3VdbeMemExpandBlob. rewrite Hz. cbn [snd].
  rewrite has_mask. fold (is_data m). destruct (is_data m) eqn:Hd; [|by intros [= <- <-]; right].
  pose proof (Hg Hd) as Hl. destruct (c_data _ _ _ Hm Hd) as [Hn _].
  destruct (own m); cbn [negb andb]; [intros [= <- <-]; left; split; [done|lia]|].
  destruct (sqlite3VdbeMemGrow _ _ _ _) as [rc1 m1] eqn:E.
  apply grow_cases in E as [[-> Hnull]|(-> & _ & _ & _ & En & _ & Ez)]; cbn [negb Z.eqb SQLITE_OK SQLITE_NOMEM]; intros [= <- <-]; [done|].
  left. unfold terminate. cbn [n z set_flags set_z]. split; [done|]. rewrite (content_twice m m1) by done.
  unfold zlength in *. rewrite length_app. unfold content. rewrite length_take. cbn [length]. lia.
Qed.

Section Encoding.
Variables (B e2 : Z) (bad : bool).
Hypothesis (HB : 0 <= B) (He2 : is_enc e2).

(** The cell of a translation: a text of at most twice the bytes. *)
Lemma recoded_cell m m' :
  cell_ok B bad m -> has m.(flags) MEM_Str = true -> types m'.(flags) m.(flags) -> has m'.(flags) MEM_Zero = false ->
  m'.(u) = m.(u) -> m'.(enc) = e2 -> bytes_ok m'.(z) -> 0 <= m'.(n) <= 2 * B -> m'.(n) <= zlength m'.(z) ->
  cell_ok (2 * B) bad m'.
Proof.
  intros [Hf Hb Hd Hi He' Hz] Hs [Y1 Y2 Y3 Y4 Y5 Y6 Y7] Z0 Eu Ee Hb' Hn Hl. split; try done.
  - revert Hf. unfold flags_ok. rewrite Y1, Y2, Y3, Y4, Y5, Y6, Z0, Hs.
    destruct (has (flags m) MEM_Blob), (has (flags m) MEM_Int), (has (flags m) MEM_Real), (has (flags m) MEM_Null), (has (flags m) MEM_Zero); done.
  - intros _. split; auto.
  - by rewrite Eu.
  - intros _. by rewrite Ee.
  - by rewrite Z0.
Qed.

Lemma cell_wider m : cell_ok B bad m -> cell_ok (2 * B) bad m.
Proof.
  intros [Hf Hb Hd Hi He' Hz]. split; try done.
  - intros H. destruct (Hd H) as [? ?]. split; [lia|done].
  - intros H. destruct (Hz H) as (? & ? & ?). split_and!; lia || done.
Qed.

Lemma text_content m : cell_ok B bad m -> good m -> has m.(flags) MEM_Str = true ->
  zlength (content m) = m.(n) /\ 0 <= m.(n) <= B /\ is_enc m.(enc).
Proof.
  intros Hm Hg Hs. assert (Hd : is_data m = true) by (unfold is_data; by rewrite Hs).
  destruct (c_data _ _ _ Hm Hd) as [Hn _]. specialize (Hg Hd). pose proof (c_enc _ _ _ Hm Hd).
  split_and!; try done; try lia. unfold content, zlength in *. rewrite length_take. lia.
Qed.

(** What a failed or a finished translation leaves. *)
Lemma failed_cell m k :
  cell_ok B bad m -> has m.(flags) MEM_Str = true -> has m.(flags) MEM_Zero = false -> good m -> 0 <= k <= m.(n) ->
  cell_ok (2 * B) true (set_n m k).
Proof.
  intros Hm Hs Hz Hg Hk. destruct (text_content m Hm Hg Hs) as (_ & Hn & Henc).
  destruct Hm as [Hf Hb Hd Hi He' Hz0]. split; try done; cbn [flags set_n].
  - intros _. split; cbn [n set_n]; [lia|by right].
  - by rewrite Hz.
Qed.

Lemma changeenc_pure oom m :
  cell_ok B bad m -> good m ->
  exists x, sqlite3VdbeChangeEncoding oom m e2 = Some x /\ pure_result (2 * B) recoded bad m x.
Proof.
  intros Hm Hg. unfold sqlite3VdbeChangeEncoding.
  destruct (has m.(flags) MEM_Str) eqn:Hs; cbn [negb orb];
    [|eexists; split; [reflexivity|]; split; [done|left]; cbn [fst snd]; split_and!; try done; by apply cell_wider].
  destruct (Z.eqb_spec m.(enc) e2) as [Heq|Hne].
  { eexists. split; [reflexivity|]. split; [done|left]. split_and!; try done. by apply cell_wider. }
  assert (Hz : has m.(flags) MEM_Zero = false) by (clear -Hm Hs; flag_bits).
  destruct (text_content m Hm Hg Hs) as (Hl & Hn & Henc). unfold sqlite3VdbeMemTranslate.
  destruct (negb (m.(enc) =? SQLITE_UTF8) && negb (e2 =? SQLITE_UTF8)) eqn:E16.
  - destruct (makewriteable_pure B bad m oom Hm Hz) as [Hv Hr].
    destruct (sqlite3VdbeMemMakeWriteable oom m) as [rc m1] eqn:E. cbn [fst snd] in *.
    pose proof (makewriteable_good _ _ _ _ _ _ Hm Hg Hz E) as Hg1.
    destruct Hr as [(-> & Hc & HA & Eu)|[Hrc Hc]].
    + cbn [negb Z.eqb SQLITE_OK] in *.
      assert (Hs1 : has m1.(flags) MEM_Str = true) by (by rewrite (a_str _ _ HA)).
      destruct Hg1 as [[En Hnl]|Hd]; [|unfold is_data in Hd; by rewrite Hs in Hd].
      eexists. split; [reflexivity|]. split; [by apply agree_valid|left]. split; [done|]. cbn [snd].
      split; [|split; [by apply agree_types|done]].
      apply (recoded_cell m); try done; [by apply agree_types|clear -Hc Hs1; flag_bits|..];
        cbn [z n set_enc set_z]; [|lia|unfold zlength in *; rewrite swap_app_length; lia].
      apply bytes_ok_app. pose proof (c_bytes _ _ _ Hc). split; [|by apply Forall_drop].
      eapply swap_bytes_ok; [reflexivity|]. by apply Forall_take.
    + destruct (Z.eqb_spec rc SQLITE_OK) as [|Hne16]; [done|]. cbn [negb].
      eexists. split; [reflexivity|]. split; [done|right]. split; [done|eapply nulled_cell; [apply Hm|done]].
  - assert (Hone : m.(enc) = SQLITE_UTF8 \/ e2 = SQLITE_UTF8).
    { destruct (Z.eqb_spec m.(enc) SQLITE_UTF8) as [?|?]; [by left|]. destruct (Z.eqb_spec e2 SQLITE_UTF8) as [?|?]; [by right|done]. }
    set (m1 := if e2 =? SQLITE_UTF8 then _ else m).
    assert (Hm1 : exists k, 0 <= k <= m.(n) /\ m1 = set_n m k /\ (e2 = SQLITE_UTF8 -> k = m.(n) - m.(n) mod 2)).
    { unfold m1. destruct (Z.eqb_spec e2 SQLITE_UTF8) as [E8|E8]; [rewrite land_not1; exists (m.(n) - m.(n) mod 2)|exists m.(n)];
        (split; [zlia|split; [by destruct m|done]]). }
    destruct Hm1 as (k & Hk & E1 & Heven). clearbody m1. subst m1. destruct oom.
    + eexists. split; [reflexivity|]. split; [done|right]. split; [done|by apply failed_cell].
    + cbn [enc set_n].
      assert (Hkl : length (content (set_n m k)) = Z.to_nat k).
      { unfold content, zlength in *. cbn [n z set_n]. rewrite length_take in *. lia. }
      destruct (translate_fits m.(enc) e2 (content (set_n m k))) as (out & Ho & Hlen); try done.
      { apply Forall_take, Hm. }
      { intros Hne8. rewrite Hkl. destruct Hone as [?|H8]; [done|]. specialize (Heven H8).
        exists (Z.to_nat (m.(n) / 2)). zlia. }
      rewrite Ho. cbn [mbind option_bind]. eexists. split; [reflexivity|]. pose proof (translate_bytes _ _ _ _ Ho) as Hob.
      set (f' := Z.lor (Z.land _ _) (Z.lor MEM_Term MEM_Dyn)).
      assert (HY : types f' m.(flags)) by (unfold f'; cbn [flags set_n]; split; bits_norm; by rewrite ?andb_true_r, ?orb_false_r).
      split; [cbn [snd]; unfold memIsValid; cbn [flags]; by rewrite (y_invalid _ _ HY)|left].
      split; [done|]. cbn [snd]. split; [|done].
      apply (recoded_cell m); try done; cbn [flags u enc z n].
      * unfold f'. cbn [flags set_n]. revert Hz. bits.
      * apply bytes_ok_app. split; [done|]. destruct (_ =? _); repeat constructor; unfold_int; lia.
      * lia.
      * unfold zlength. rewrite length_app. lia.
Qed.
(** A text stays a text, or is lost. *)
Lemma changeenc_kept oom m rc m' :
  cell_ok B bad m -> good m -> sqlite3VdbeChangeEncoding oom m e2 = Some (rc, m') ->
  has m'.(flags) MEM_Str = has m.(flags) MEM_Str /\ m'.(u) = m.(u) \/ nulled m m' /\ m.(enc) <> SQLITE_UTF8.
Proof.
  intros Hm Hg. unfold sqlite3VdbeChangeEncoding. destruct (negb (has m.(flags) MEM_Str) || (m.(enc) =? e2)) eqn:E0; [intros [= <- <-]; by left|].
  apply orb_false_iff in E0 as [Hs%negb_false_iff _]. unfold sqlite3VdbeMemTranslate.
  assert (Hz : has m.(flags) MEM_Zero = false) by (clear -Hm Hs; flag_bits).
  destruct (negb _ && negb _) eqn:E16.
  - apply andb_true_iff in E16 as [E8%negb_true_iff%Z.eqb_neq _].
    pose proof (makewriteable_pure B bad m oom Hm Hz) as [_ Hr]. destruct (sqlite3VdbeMemMakeWriteable oom m) as [rc1 m1] eqn:E.
    pose proof (makewriteable_good _ _ _ _ _ _ Hm Hg Hz E) as Hg1. cbn [fst snd] in Hr.
    destruct (Z.eqb_spec rc1 SQLITE_OK) as [->|Hne]; cbn [negb]; intros [= <- <-]; [|by right].
    destruct Hr as [(_ & _ & HA & Hu)|[? _]]; [|done]. left. split; [apply HA|exact Hu].
  - set (m1 := if e2 =? SQLITE_UTF8 then _ else m). assert (H1 : flags m1 = flags m) by (unfold m1; by destruct (e2 =? SQLITE_UTF8)).
    assert (H2 : u m1 = u m) by (unfold m1; by destruct (e2 =? SQLITE_UTF8)).
    destruct oom; [intros [= <- <-]; left; rewrite H1; split; [done|apply H2]|]. destruct (translate _ _ _) as [out|]; [|done]. cbn [mbind option_bind].
    intros [= <- <-]. left. cbn [flags u]. rewrite H1, H2. split; [|done]. bits_norm. by rewrite andb_true_r, orb_false_r.
Qed.
End Encoding.

(** ** The text of a number *)

(** What the text of %!.15g promises. *)
Class FloatTextOk `{FloatText} := float_text_ok d b :
  d.(Printf.precision) <= 40 -> d.(width) = 0 ->
  let f := float_text etGENERIC d b in
  f.(fsize) = None /\ f.(fused) <= etBUFSIZE /\ bytes_ok f.(ftext) /\ fits_int f.(ftext).

Lemma decimal_bytes v t : decimal_text v t -> bytes_ok t.
Proof.
  intros (s & ds & -> & Hd & _). apply bytes_ok_app. split; [destruct s; repeat constructor; unfold_int; lia|].
  apply Forall_map. eapply Forall_impl; [exact Hd|]. intros x Hx. cbn. unfold_int. lia.
Qed.

Section Stringify.
Context `{FloatTextOk}.

(** The text that [sqlite3VdbeMemStringify] prints. *)
Lemma number_text i b is_int :
  (is_int = true -> is_i64 i) ->
  exists t, sqlite3_snprintf 32 [] [] (if is_int : bool then fmt_i64 else fmt_real) [if is_int then A_i64 i else A_double b] = Some (Some t)
    /\ bytes_ok t /\ zlength t <= 31.
Proof.
  intros Hi.
  assert (Ht : exists t, text_of false (if is_int then fmt_i64 else fmt_real) [if is_int then A_i64 i else A_double b] t /\ bytes_ok t /\ fits_int t).
  { destruct is_int.
    - destruct (lld_text false i (Hi eq_refl)) as (t & Ht & Hd & Hl). exists t. split_and!; [done|by eapply decimal_bytes|unfold fits_int; lia].
    - set (d := mkDirective (mkFlags false false false false true false) 0 15 false false 103).
      destruct (float_text_ok d b) as (Hn & Hu & Hb & Hf); [cbn; lia|done|].
      exists (float_text etGENERIC d b).(ftext). split_and!; try done. eapply text_of_render.
      + change fmt_real with ([] ++ 37 :: [33; 46; 49; 53; 103]).
        rewrite (render_step false [] [33; 46; 49; 53; 103] d [103] [A_double b] (mkInfo 103 0 1 etGENERIC 30 0) (float_text etGENERIC d b).(ftext)
          (mkState [] [A_double b] []) (mkState [] [] [])); first [done | by right | by apply render_literal | idtac].
        unfold convert, convert_double. cbn [ap itype set_ap acc]. rewrite Hn. cbn [default]. by rewrite (proj2 (Z.leb_le _ _) Hu).
      + done. }
  destruct Ht as (t & Ht & Hb & Hf). exists (fit 32 t). split; [by apply snprintf_text|].
  unfold fit. split; [by apply Forall_take|]. unfold zlength. rewrite length_take. lia.
Qed.

Lemma grow_spec m nb preserve a :
  awp (grow m nb preserve) (fun x a' =>
    (x.1 = SQLITE_NOMEM /\ mf a' = true /\ nulled m x.2) \/
    (x.1 = SQLITE_OK /\ mf a' = mf a /\ x.2.(flags) = Z.land m.(flags) (Z.lnot (Z.lor MEM_Ephem MEM_Static)) /\
     x.2.(u) = m.(u) /\ x.2.(n) = m.(n) /\ x.2.(enc) = m.(enc) /\ x.2.(z) = if preserve then content m else [])) a.
Proof.
  unfold awp, grow, attempt, draw. cbn [mbind option_bind].
  destruct (sqlite3VdbeMemGrow _ m nb preserve) as [rc m'] eqn:E. cbn [mbind option_bind].
  apply grow_cases in E as [[-> Hn]|(-> & ? & ? & ? & ? & ? & ?)]; [by left|right; cbn; by split_and!].
Qed.

Lemma changeenc_spec B e2 m a : 0 <= B -> is_enc e2 -> cell_ok B (mf a) m -> good m ->
  awp (ChangeEncoding m e2) (returns (2 * B) recoded m a) a.
Proof. intros HB He2 Hm Hg. apply pure_attempt. intros oom. by eapply changeenc_pure. Qed.

Lemma changeenc_text B e2 m a : 0 <= B -> is_enc e2 -> cell_ok B (mf a) m -> good m ->
  awp (ChangeEncoding m e2) (fun x a' => returns (2 * B) recoded m a x a' /\
    (has x.2.(flags) MEM_Str = has m.(flags) MEM_Str /\ x.2.(u) = m.(u) \/ nulled m x.2 /\ m.(enc) <> SQLITE_UTF8)) a.
Proof.
  intros HB He2 Hm Hg. pose proof (changeenc_spec B e2 m a HB He2 Hm Hg) as Hs. revert Hs.
  unfold awp, ChangeEncoding, attempt, draw. cbn [mbind option_bind].
  destruct (sqlite3VdbeChangeEncoding _ m e2) as [[rc m']|] eqn:E; [|done]. cbn [mbind option_bind]. intros Hs.
  split; [exact Hs|]. by eapply changeenc_kept.
Qed.

Section Affinity.
Variables (B e : Z).
Hypothesis (HB : 64 <= B <= 1000000000) (He : is_enc e).

(** A number that has become a text too. *)
Record stringified (m m' : Mem) : Prop := {
  s_str : has m'.(flags) MEM_Str = true;
  s_null : has m'.(flags) MEM_Null = has m.(flags) MEM_Null;
  s_int : has m'.(flags) MEM_Int = has m.(flags) MEM_Int;
  s_real : has m'.(flags) MEM_Real = has m.(flags) MEM_Real;
  s_blob : has m'.(flags) MEM_Blob = has m.(flags) MEM_Blob;
  s_invalid : has m'.(flags) MEM_Invalid = has m.(flags) MEM_Invalid;
  s_cleared : has m'.(flags) MEM_Cleared = has m.(flags) MEM_Cleared;
  s_u : m'.(u) = m.(u);
}.

Lemma cell_narrower B' bad m : cell_ok B' bad m -> B' <= B -> cell_ok B bad m.
Proof.
  intros [Hf Hb Hd Hi He' Hz] HB'. split; try done.
  - intros H1. destruct (Hd H1) as [? ?]. split; [lia|done].
  - intros H1. destruct (Hz H1) as (? & ? & ?). split_and!; lia || done.
Qed.

(** The cell of a number with its text beside it. *)
Lemma number_cell bad bad' m m1 t :
  cell_ok B bad m -> is_data m = false -> has m.(flags) (Z.lor MEM_Int MEM_Real) = true ->
  m1.(flags) = Z.land m.(flags) (Z.lnot (Z.lor MEM_Ephem MEM_Static)) -> m1.(u) = m.(u) -> bytes_ok t -> zlength t <= 31 ->
  let m3 := add_flags (mkMem m1.(flags) m1.(r) m1.(u) (sqlite3Strlen30 (Some t)) (t ++ [0]) SQLITE_UTF8 m1.(own) m1.(szMalloc))
              (Z.lor MEM_Str MEM_Term) in
  stringified m m3 /\ cell_ok 31 bad' m3.
Proof.
  intros Hm Hd Hn Ef Eu Hb Hl. cbv zeta.
  assert (Hg : has m.(flags) (Z.lor MEM_Zero (Z.lor MEM_Str MEM_Blob)) = false) by (clear -Hm Hd; flag_bits).
  assert (Hlen : sqlite3Strlen30 (Some t) = zlength t) by (apply strlen30_length; lia).
  set (m2 := mkMem _ _ _ _ _ _ _ _). set (m3 := add_flags m2 _).
  assert (HS : stringified m m3).
  { split; try done; unfold m3, m2; cbn [flags add_flags set_flags]; rewrite ?Ef; revert Hd; unfold is_data; bits_norm;
      rewrite ?andb_true_r, ?orb_false_r, ?orb_true_r; done. }
  split; [done|]. destruct HS as [Y1 Y2 Y3 Y4 Y5 Y6 Y7 Y8]. pose proof (zlength_nonneg t).
  assert (Z3 : has m3.(flags) MEM_Zero = false).
  { unfold m3, m2. cbn [flags add_flags set_flags]. rewrite Ef. revert Hg. bits. }
  split.
  - destruct (orb_false_elim _ _ Hd) as [D1 D2]. pose proof (c_flags _ _ _ Hm) as Hf. revert Hf Hn. rewrite has_mask.
    unfold flags_ok. rewrite Y1, Y2, Y3, Y4, Y5, Y6, Z3, D1, D2.
    destruct (has (flags m) MEM_Null), (has (flags m) MEM_Int), (has (flags m) MEM_Real), (has (flags m) MEM_Zero); done.
  - cbn. apply bytes_ok_app. split; [done|]. repeat constructor; unfold_int; lia.
  - intros _. unfold data_ok, m3, m2; cbn [n z add_flags set_flags]. rewrite Hlen, zlength_app. change (zlength [0]) with 1. split; [lia|left; lia].
  - rewrite Y8. apply Hm.
  - intros _. by left.
  - by rewrite Z3.
Qed.

Lemma stringify_spec m a :
  cell_ok B (mf a) m -> is_data m = false -> has m.(flags) (Z.lor MEM_Int MEM_Real) = true ->
  awp (sqlite3VdbeMemStringify m e) (fun x a' => returns B stringified m a x a' /\
    (if x.1 =? SQLITE_OK then has x.2.(flags) MEM_Str = true else has x.2.(flags) (Z.lor MEM_Real MEM_Int) = false) /\ x.2.(u) = m.(u)) a.
Proof.
  intros Hm Hd Hn. unfold sqlite3VdbeMemStringify.
  assert (Hg : has m.(flags) (Z.lor MEM_Zero (Z.lor MEM_Str MEM_Blob)) = false) by (clear -Hm Hd; flag_bits).
  rewrite Hg, Hn. cbn [negb orb]. apply awp_bind. change (awp (must (Some ())) ?Q ?x) with (Q () x). cbv beta.
  apply awp_bind. eapply awp_mono; [apply grow_spec|].
  intros [rc m1] a1 H1. cbn [fst snd] in H1. destruct H1 as [(-> & Hbad & Hnull)|(-> & Hmf & Ef & Eu & En & Ee & Ez)]; cbn [negb Z.eqb SQLITE_NOMEM SQLITE_OK].
  { apply awp_ret. cbn [snd]. pose proof (proj1 Hnull) as Hf0. split; [|split; [by rewrite Hf0|apply Hnull]].
    split; [|done]. split; [eapply nulled_cell; [apply Hm|done]|intros _; by eapply nulled_valid|by right]. }
  destruct (number_text m1.(u) m1.(r) (has m.(flags) MEM_Int)) as (t & Ht & Hb & Hl).
  { intros _. rewrite Eu. apply Hm. }
  replace (if has m.(flags) MEM_Int then sqlite3_snprintf 32 [] [] fmt_i64 [A_i64 m1.(u)]
    else sqlite3_snprintf 32 [] [] fmt_real [A_double m1.(r)]) with (Some (Some t)) by (rewrite <- Ht; by destruct (has _ MEM_Int)).
  apply awp_bind. change (awp (must (Some (Some t))) ?Q ?x) with (Q (Some t) x). cbv beta zeta. cbn [default]. unfold id.
  destruct (number_cell (mf a) (mf a1) m m1 t) as [HS Hc3]; try done. set (m3 := add_flags _ _) in *.
  destruct (number_cell (mf a) false m m1 t) as [_ Hg3%cell_good]; try done. change (good m3) in Hg3.
  apply awp_bind. eapply awp_mono; [apply (changeenc_text 31 e); done || lia|].
  intros [rc4 m4] a4 [[[Hc Hv Hr] Hrc] Hk]. apply awp_ret. cbn [fst snd] in *. split; [split; [|done]|].
  2: { destruct Hk as [[Hk Hku]|[_ Hk]]; [|done]. split; [by rewrite Hk, (s_str _ _ HS)|by rewrite Hku, (s_u _ _ HS)]. }
  split; [eapply cell_narrower; [exact Hc|lia]| |].
  - intros Hv0. apply Hv. unfold memIsValid in *. by rewrite (s_invalid _ _ HS).
  - destruct Hr as [[E4 [Y Yu]]|E4]; [left|by right]. split; [congruence|].
    clear -HS Y Yu. clearbody m3. destruct HS, Y. split; cbn [snd]; congruence.
Qed.

(** What [applyAffinity] keeps of a cell. *)
Record affined (m m' : Mem) : Prop := {
  f_null : has m'.(flags) MEM_Null = has m.(flags) MEM_Null;
  f_blob : has m'.(flags) MEM_Blob = has m.(flags) MEM_Blob;
  f_cleared : has m'.(flags) MEM_Cleared = has m.(flags) MEM_Cleared;
  f_invalid : has m'.(flags) MEM_Invalid = has m.(flags) MEM_Invalid;
}.

Lemma affined_trans m1 m2 m3 : affined m1 m2 -> affined m2 m3 -> affined m1 m3.
Proof. intros [] []. split; congruence. Qed.

Lemma affined_numeric m : affined m (applyNumericAffinity m) /\ has (applyNumericAffinity m).(flags) MEM_Dyn = has m.(flags) MEM_Dyn.
Proof.
  unfold applyNumericAffinity. repeat match goal with
  | |- context [if ?b then _ else _] => destruct b
  | |- context [let '(_, _) := ?x in _] => destruct x
  end; (split; [split|]; cbn [flags add_flags set_flags set_u set_r]; bits_norm; by rewrite ?orb_false_r).
Qed.

Lemma affined_integer m : affined m (sqlite3VdbeIntegerAffinity m) /\ has (sqlite3VdbeIntegerAffinity m).(flags) MEM_Dyn = has m.(flags) MEM_Dyn.
Proof.
  unfold sqlite3VdbeIntegerAffinity. destruct (_ && _); (split; [split|]; cbn [flags set_flags set_u]; bits_norm; by rewrite ?orb_false_r).
Qed.

Lemma cell_clear_number bad m :
  cell_ok B bad m -> (has m.(flags) MEM_Str = true \/ has m.(flags) (Z.lor MEM_Real MEM_Int) = false) ->
  cell_ok B bad (clear_flags m (Z.lor MEM_Real MEM_Int)).
Proof.
  intros Hm [Hs|Hs]; (apply (cell_same_bytes B bad m); try done; try apply Hm; try flag_bits; by left).
Qed.

Lemma cell_numeric_affinity bad m :
  cell_ok B bad m -> let m1 := applyNumericAffinity m in
  let m2 := if has m1.(flags) MEM_Real then sqlite3VdbeIntegerAffinity m1 else m1 in
  cell_ok B bad m2 /\ affined m m2 /\ has m2.(flags) MEM_Dyn = has m.(flags) MEM_Dyn.
Proof.
  intros Hm m1 m2. pose proof (cell_numeric B bad m Hm) as Hm1. fold m1 in Hm1. destruct (affined_numeric m) as [HA HD]. fold m1 in HA, HD.
  unfold m2. destruct (has m1.(flags) MEM_Real) eqn:E; [|done]. split; [by apply cell_integer_affinity|].
  destruct (affined_integer m1) as [HA1 HD1]. split; [by eapply affined_trans|congruence].
Qed.

(** What stays through [applyAffinity] even when an allocation fails. *)
Definition keeps (m m' : Mem) : Prop :=
  (is_data m = true -> is_data m' = true) /\ (has m.(flags) MEM_Str = true -> has m'.(flags) MEM_Str = true) /\
  (is_i64 m.(u) -> is_i64 m'.(u)).

Lemma numeric_keeps m : keeps m (applyNumericAffinity m).
Proof.
  unfold keeps, is_data, applyNumericAffinity. pose proof (atoi64_range (content m) m.(enc)) as Hi.
  destruct (negb (has m.(flags) (Z.lor MEM_Real MEM_Int))); [|done]. destruct (negb (has m.(flags) MEM_Str)); [done|].
  destruct (sqlite3AtoF _ _) as [[] x]; [|done]. cbn [negb]. destruct (sqlite3Atoi64 _ _) as [rc i].
  destruct (rc =? 0); cbn [flags add_flags set_flags set_u set_r u]; (split; [bits|split; [bits|done]]).
Qed.

Lemma integer_keeps m : keeps m (sqlite3VdbeIntegerAffinity m).
Proof.
  pose proof (doubleToInt64_range (double_of_bits m.(r))). unfold keeps, is_data, sqlite3VdbeIntegerAffinity.
  destruct (_ && _); cbn [flags set_flags set_u u]; (split; [bits|split; [bits|done]]).
Qed.

Lemma affinity_spec m aff a :
  cell_ok B (mf a) m -> awp (applyAffinity m aff e) (fun m' a' => outcome B affined m a m' a' /\ keeps m m' /\
    (aff = SQLITE_AFF_TEXT -> mf a' = true \/ has m'.(flags) MEM_Str = has m.(flags) MEM_Str || has m.(flags) (Z.lor MEM_Real MEM_Int))) a.
Proof.
  intros Hm. unfold applyAffinity. destruct (Z.eqb_spec aff SQLITE_AFF_TEXT) as [Haff|Haff].
  - apply awp_bind. destruct (negb (has m.(flags) MEM_Str) && has m.(flags) (Z.lor MEM_Real MEM_Int)) eqn:E.
    + apply andb_true_iff in E as [Hs%negb_true_iff Hn].
      assert (Hd : is_data m = false) by (clear -Hm Hs Hn; flag_bits).
      apply awp_bind. eapply awp_mono; [apply stringify_spec; [done|done|by rewrite has_mask, orb_comm, <- has_mask]|].
      intros [rc m1] a1 [[[Hc Hv Hr] Hrc] [Hk Hku]]. cbn [fst snd] in *. apply awp_ret, awp_ret. split; [|split].
      3: { intros _. destruct (Z.eqb_spec rc SQLITE_OK); [right|left; auto]. rewrite Hn, orb_true_r. cbn [flags clear_flags set_flags].
           clear -Hk. revert Hk. bits. }
      2: { unfold keeps. rewrite Hd, Hs. split_and!; try done. cbn. by rewrite Hku. }
      split; [apply cell_clear_number; [done|destruct (rc =? SQLITE_OK); auto]| |].
      * intros Hv0. apply Hv in Hv0. revert Hv0. unfold memIsValid. cbn [flags clear_flags set_flags]. bits.
      * destruct Hr as [[Ea [Y1 Y2 Y3 Y4 Y5 Y6 Y7 Y8]]|Ea]; [left; split; [done|]|by right].
        split; cbn [flags clear_flags set_flags]; rewrite <- ?Y2, <- ?Y5, <- ?Y6, <- ?Y7; bits_norm; by rewrite ?andb_true_r.
    + apply awp_ret, awp_ret. split; [|split; [unfold keeps, is_data; cbn [flags clear_flags set_flags u]; split; [bits|split; [bits|done]]|]].
      2: { intros _. right. cbn [flags clear_flags set_flags]. clear -E. revert E. bits. }
      split; [apply cell_clear_number; [done|]| |left; split; [done|]].
      * apply andb_false_iff in E as [E%negb_false_iff|E]; auto.
      * unfold memIsValid. cbn [flags clear_flags set_flags]. bits.
      * split; cbn [flags clear_flags set_flags]; bits_norm; by rewrite ?andb_true_r.
  - destruct (negb (aff =? SQLITE_AFF_NONE)).
    + apply awp_ret. destruct (cell_numeric_affinity (mf a) m Hm) as (Hc & HA & _). split; [split; [done| |by left]|split; [|done]].
      * unfold memIsValid. by rewrite (f_invalid _ _ HA).
      * destruct (numeric_keeps m) as (K1 & K2 & K3). destruct (has _ MEM_Real); [|done].
        destruct (integer_keeps (applyNumericAffinity m)) as (K4 & K5 & K6). split_and!; auto.
    + apply awp_ret. split; [by apply outcome_id|done].
Qed.
End Affinity.
End Stringify.
