(* ===== verification/MakeRecord.v ===== *)
(** * Packing a row (OP_MakeRecord of src/lmdb-backend/src/vdbe.c)

    The instruction with its affinity string and its allocations, any of which
    may fail. *)

From S2P Require Import Prelude Varint Ctype Ints Printf Mem Serial Real FloatText Value CellOk.

(** ** The instruction *)

Inductive make_result : Type :=
  | TooBig
  | NoMem
  | Record (m : Mem).

Section Make.
Context `{FloatText}.

(** [if( zAffinity ){ applyAffinity(pRec, zAffinity[pRec-pData0], encoding); }] *)
Definition make_affinity (zAffinity : option (list Z)) (i : nat) (e : Z) (m : Mem) : AM Mem :=
  match zAffinity with
  | Some z => aff ← must (z !! i); applyAffinity m aff e
  | None => mret m
  end.

(** The first loop from field [i] on: the registers it leaves.  The result of
    sqlite3VdbeMemExpandBlob is ignored. *)
Fixpoint make_cells (zAffinity : option (list Z)) (e : Z) (i : nat) (regs : list Mem) : AM (list Mem) :=
  match regs with
  | [] => mret []
  | m :: regs =>
      m ← make_affinity zAffinity i e m;
      m ← (if has m.(flags) MEM_Zero && (m.(n) >? 0) then '(_, m) ← ExpandBlob m; mret m else mret m : AM Mem);
      ms ← make_cells zAffinity e (S i) regs;
      mret (m :: ms)
  end.

(** The input registers afterwards, and the result. *)
Definition OP_MakeRecord (limit file_format e : Z) (zAffinity : option (list Z)) (regs : list Mem) (pOut : Mem)
    : AM (list Mem * make_result) :=
  ms ← make_cells zAffinity e 0 regs;
  let '(nData, nHdr, nZ) := fold_left (make_size file_format) ms (0, 0, 0) in
  let nHdr := header_size nHdr in
  let nByte := nHdr + nData - nZ in
  if nByte >? limit then mret (ms, TooBig)
  else
    '(rc, pOut) ← grow pOut (i32 nByte) false;
    if negb (rc =? SQLITE_OK) then mret (ms, NoMem)
    else
      let hdr := putVarint32 nHdr
                 ++ concat (map (fun m => putVarint32 (sqlite3VdbeSerialType m file_format)) ms) in
      let data := put_fields nByte (Z.of_nat (length hdr)) file_format ms in
      let f := Z.lor MEM_Blob MEM_Dyn in
      mret (ms, Record (mkMem (if negb (nZ =? 0) then Z.lor f MEM_Zero else f) pOut.(r)
                          (if negb (nZ =? 0) then nZ else pOut.(u)) (i32 nByte) (hdr ++ data) SQLITE_UTF8
                          true pOut.(szMalloc))).

(** ** Computations whose allocations may fail *)

(** No allocation has failed nor will. *)
Definition unfailed (a : alloc) : Prop := Forall (eq false) a.(mallocs) /\ mf a = false.

(** [c] ends whatever the allocations do; unless one fails, with a [P]. *)
Definition gives {A} (c : AM A) (P : A -> Prop) : Prop :=
  forall a, awp c (fun x a' => (mf a' = false -> mf a = false /\ P x) /\ (unfailed a -> unfailed a')) a.

Lemma gives_ret {A} (x : A) (P : A -> Prop) : P x -> gives (mret x) P.
Proof. intros Hx a. by apply awp_ret. Qed.

Lemma gives_bind {A B} (c : AM A) (f : A -> AM B) (P : A -> Prop) (Q : B -> Prop) :
  gives c P -> (forall x, gives (f x) (fun y => P x -> Q y)) -> gives (x ← c; f x) Q.
Proof.
  intros Hc Hf a. apply awp_bind. eapply awp_mono; [apply Hc|]. intros x a1 [H1 U1]. cbn beta.
  eapply awp_mono; [apply Hf|]. intros y a2 [H2 U2]. cbn beta. split; [|auto].
  intros E. destruct (H2 E) as [E1 HQ]. destruct (H1 E1). auto.
Qed.

Lemma gives_mono {A} (c : AM A) (P Q : A -> Prop) : gives c P -> (forall x, P x -> Q x) -> gives c Q.
Proof. intros Hc HPQ a. eapply awp_mono; [apply Hc|]. intros x a1 [H1 U1]. split; [|done]. intros E. destruct (H1 E). auto. Qed.

(** A function that fails only when an allocation does. *)
Lemma gives_attempt f x : f false = (SQLITE_OK, x) -> (f true).1 = SQLITE_OK /\ f true = f false \/ (f true).1 <> SQLITE_OK ->
  gives (attempt (fun oom => Some (f oom))) (fun y => y = (SQLITE_OK, x)).
Proof.
  intros H0 H1 a. unfold awp, attempt, draw. cbn [mbind option_bind].
  set (b := match mallocs a with [] => false | b :: _ => b end).
  assert (unfailed a -> b = false) as Hb.
  { intros [HU _]. unfold b. destruct (mallocs a); [done|]. by apply Forall_cons in HU as [<- _]. }
  assert (unfailed a -> unfailed (mkAlloc (tail (mallocs a)) (mf a))) as HT.
  { intros [HU HF]. split; [|done]. cbn. destruct (mallocs a); [done|]. by apply Forall_cons in HU as [_ ?]. }
  destruct b eqn:Eb.
  - destruct (f true) as [rc y] eqn:E. cbn [fst] in *. destruct H1 as [[-> E1]|Hne].
    + rewrite H0 in E1. injection E1 as ->. cbn. split; [done|]. intros HU. by apply HT.
    + destruct (Z.eqb_spec rc SQLITE_OK); [done|]. split; [done|]. intros HU. by specialize (Hb HU).
  - rewrite H0. cbn. split; [done|]. intros HU. by apply HT.
Qed.

Lemma grow_oom m nb p : let g oom := sqlite3VdbeMemGrow oom m nb p in
  exists x, g false = (SQLITE_OK, x) /\ ((g true).1 = SQLITE_OK /\ g true = g false \/ (g true).1 <> SQLITE_OK).
Proof.
  cbv zeta. unfold sqlite3VdbeMemGrow. set (nb' := if nb <? 32 then 32 else nb). destruct (szMalloc m <? nb'); cbn [negb andb].
  - eexists. split; [done|by right].
  - eexists. split; [done|by left].
Qed.

Lemma grow_gives m nb p : gives (grow m nb p) (fun y => y = sqlite3VdbeMemGrow false m nb p).
Proof.
  destruct (grow_oom m nb p) as (x & E & Ho). eapply gives_mono; [exact (gives_attempt _ x E Ho)|]. cbn beta. by intros y ->.
Qed.

Lemma expand_gives m : gives (ExpandBlob m) (fun y => y.2 = snd (sqlite3VdbeMemExpandBlob false m)).
Proof.
  assert (exists x, sqlite3VdbeMemExpandBlob false m = (SQLITE_OK, x) /\
    ((sqlite3VdbeMemExpandBlob true m).1 = SQLITE_OK /\ sqlite3VdbeMemExpandBlob true m = sqlite3VdbeMemExpandBlob false m \/
     (sqlite3VdbeMemExpandBlob true m).1 <> SQLITE_OK)) as (x & E & Ho).
  { unfold sqlite3VdbeMemExpandBlob. destruct (has (flags m) MEM_Zero); [|by eexists; split; [|left]].
    set (nb := if _ <=? 0 then 1 else _). destruct (grow_oom m nb true) as (x & E & Ho). rewrite E. cbn [negb Z.eqb SQLITE_OK].
    eexists. split; [done|]. destruct (sqlite3VdbeMemGrow true m nb true) as [rc y]. cbn [fst] in Ho.
    destruct Ho as [[-> Eo]|Hne]; [rewrite E in Eo; injection Eo as ->; by left|].
    destruct (Z.eqb_spec rc SQLITE_OK); [done|]. by right. }
  eapply gives_mono; [exact (gives_attempt _ x E Ho)|]. cbn beta. intros y ->. by rewrite E.
Qed.

(** The affinities turn the registers into [cs], unless an allocation fails. *)
Fixpoint after_affinity (zAffinity : option (list Z)) (e : Z) (i : nat) (regs cs : list Mem) : Prop :=
  match regs, cs with
  | [], [] => True
  | m :: regs, c :: cs => gives (make_affinity zAffinity i e m) (eq c) /\ after_affinity zAffinity e (S i) regs cs
  | _, _ => False
  end.

Lemma no_affinity e : forall regs i, after_affinity None e i regs regs.
Proof. induction regs as [|m regs IH]; intros i; [done|]. split; [by apply gives_ret|apply IH]. Qed.

Lemma make_cells_gives zAffinity e : forall regs cs i, after_affinity zAffinity e i regs cs ->
  gives (make_cells zAffinity e i regs) (eq (map make_expand cs)).
Proof.
  induction regs as [|m regs IH]; intros [|c cs] i Ha; try done. destruct Ha as [Hm Ha]. cbn [make_cells map].
  eapply gives_bind; [exact Hm|]. intros m1. cbn beta.
  eapply (gives_bind _ _ (fun m2 => m1 = c -> m2 = make_expand c)).
  { unfold make_expand. destruct (_ && _) eqn:Ez.
    - eapply gives_bind; [apply expand_gives|]. intros [rc m2]. apply gives_ret. cbn [snd]. intros -> ->. by rewrite Ez.
    - apply gives_ret. intros ->. by rewrite Ez. }
  intros m2. cbn beta. eapply gives_bind; [apply (IH cs (S i) Ha)|]. intros ms. apply gives_ret.
  intros <- H2 H1. by rewrite H2.
Qed.

(** ** The zeros that are not written *)

(** From the last field on backwards: those of zero-filled blobs, as long as no
    field with bytes of its own is met. *)
Fixpoint zero_run (ff : Z) (rev_cells : list Mem) : Z :=
  match rev_cells with
  | [] => 0
  | m :: ms =>
      if has m.(flags) MEM_Zero && (m.(n) <=? 0) then nZero m + zero_run ff ms
      else if Z.of_nat (length (payload m ff)) =? 0 then zero_run ff ms
      else 0
  end.

Lemma size_zero_run ff cs : Forall storable cs ->
  fold_left (size_z ff) (map make_expand cs) 0 = zero_run ff (rev cs).
Proof.
  induction cs as [|m cs IH] using rev_ind; intros Hs; [done|]. apply Forall_app in Hs as [Hs Hm]. apply Forall_cons in Hm as [Hm _].
  rewrite map_app, fold_left_app, rev_app_distr, IH by done. cbn [map fold_left rev app zero_run].
  destruct (make_expand_ok m ff Hm) as (Hms & Hp & _ & Epay & _). unfold size_z. rewrite Epay.
  unfold make_expand, pure in *. rewrite Z.gtb_ltb in *. destruct (has (flags m) MEM_Zero) eqn:Ez; cbn [andb] in *.
  - destruct (Z.leb_spec (n m) 0), (Z.ltb_spec 0 (n m)); try lia; [rewrite Ez; lia|].
    set (m' := snd _) in *. destruct (has (flags m') MEM_Zero) eqn:Ez'.
    { exfalso. unfold m', sqlite3VdbeMemExpandBlob in Ez'. rewrite Ez in Ez'. unfold sqlite3VdbeMemGrow in Ez'.
      rewrite andb_false_r in Ez'. cbn [negb Z.eqb SQLITE_OK snd flags set_flags] in Ez'. rewrite has_cleared in Ez'; done. }
    by destruct (_ =? 0).
  - rewrite Ez. by destruct (_ =? 0).
Qed.

Lemma zero_run_range ff cs : Forall storable cs -> 0 <= zero_run ff (rev cs) <= Z.of_nat (length (payloads ff cs)).
Proof.
  intros Hs. destruct (expand_all ff cs Hs) as (Hms & Hpure & _ & Epay & _). cbn zeta in *.
  destruct (size_split ff _ Hms Hpure) as (pre & suf & Eps & Esuf & Hz & _). rewrite size_zero_run in * by done.
  rewrite <- Epay, Eps. unfold payloads. rewrite map_app, concat_app. fold (payloads ff suf). rewrite length_app, Esuf, length_replicate. lia.
Qed.

(** ** The record built *)

(** The cell of the record [bs] whose last [nz] bytes, all zero, are not written. *)
Definition record_cell (bs : list Z) (nz : Z) (m : Mem) : Prop :=
  m.(n) = Z.of_nat (length bs) - nz /\ Z.of_nat (length m.(z)) = m.(n) /\
  bs = m.(z) ++ replicate (Z.to_nat nz) 0 /\ mem_value m = VBlob bs /\
  has m.(flags) MEM_Zero = negb (nz =? 0) /\ (nz <> 0 -> nZero m = nz).

Lemma make_spec limit ff e zAffinity regs cs pOut : after_affinity zAffinity e 0 regs cs ->
  Forall storable cs -> Z.of_nat (length cs) <= 32767 -> Z.of_nat (length (record_bytes ff cs)) < 2 ^ 31 ->
  gives (OP_MakeRecord limit ff e zAffinity regs pOut) (fun '(ms, res) => map mem_value ms = map mem_value cs /\
    let nz := zero_run ff (rev cs) in
    if Z.of_nat (length (record_bytes ff cs)) - nz >? limit then res = TooBig
    else exists m, res = Record m /\ record_cell (record_bytes ff cs) nz m).
Proof.
  intros Ha Hs Hn Hlim. destruct (record_layout ff cs Hs Hn) as (_ & Hk & _ & Hsz & _ & _ & Hlen).
  destruct (expand_all ff cs Hs) as (Hms & Hpure & Ety & Epay & Eval). cbn zeta in *.
  destruct (size_split ff _ Hms Hpure) as (pre & suf & Eps & Esuf & Hz & Hput). pose proof (zero_run_range ff cs Hs) as Hzr.
  unfold OP_MakeRecord. eapply gives_bind; [by apply make_cells_gives|]. intros ms. cbn beta.
  destruct (fold_left (make_size ff) ms (0, 0, 0)) as [[nData nHdr] nZ] eqn:Ef.
  assert (map make_expand cs = ms -> nData = Z.of_nat (length (payloads ff cs)) /\ nHdr = Z.of_nat (length (Serial.types ff cs)) /\ nZ = zero_run ff (rev cs)) as Hacc.
  { intros <-. rewrite fold_size, !Z.add_0_l, Ety, Epay, size_zero_run in Ef by done. by injection Ef as <- <- <-. }
  destruct (Z.gtb_spec (header_size nHdr + nData - nZ) limit) as [Hbig|Hbig].
  { apply gives_ret. intros E. destruct (Hacc E) as (-> & -> & ->). rewrite <- E. split; [done|]. cbv zeta.
    destruct (Z.gtb_spec (Z.of_nat (length (record_bytes ff cs)) - zero_run ff (rev cs)) limit); [done|lia]. }
  eapply gives_bind; [apply grow_gives|]. intros [rc m0]. cbn beta. destruct (Z.eqb_spec rc SQLITE_OK) as [->|Hrc]; cbn [negb].
  2:{ apply gives_ret. intros E _. exfalso. destruct (grow_oom pOut (i32 (header_size nHdr + nData - nZ)) false) as (x & E0 & _).
      rewrite E0 in E. by injection E as ->. }
  apply gives_ret. intros _ E. destruct (Hacc E) as (-> & -> & ->). clear Hacc Ef. subst ms. split; [done|]. cbv zeta.
  rewrite size_zero_run in * by done. set (z0 := zero_run _ _) in *. set (szHdr := header_size _) in *.
  destruct (Z.gtb_spec (Z.of_nat (length (record_bytes ff cs)) - z0) limit); [lia|].
  assert (Z.of_nat (length (payloads ff cs)) = Z.of_nat (length (payloads ff pre)) + z0) as Epl.
  { rewrite <- Epay, Eps. unfold payloads. rewrite map_app, concat_app. fold (payloads ff suf).
    rewrite length_app, Esuf, length_replicate. unfold payloads. lia. }
  fold (Serial.types ff (map make_expand cs)). rewrite Ety.
  assert (Z.of_nat (length (putVarint32 szHdr ++ Serial.types ff cs)) = szHdr) as Ehdr.
  { unfold record_bytes in Hlen. fold szHdr in Hlen. rewrite !length_app in Hlen. rewrite length_app. lia. }
  rewrite Eps, put_fields_spec; [|by rewrite Eps in Hms; apply Forall_app in Hms as [? _]|done|lia|lia|lia].
  eexists. split; [reflexivity|]. set (m := mkMem _ _ _ _ _ _ _ _).
  assert (n m = szHdr + Z.of_nat (length (payloads ff pre))) as En.
  { cbn [m n]. rewrite wrap_s_small by (try lia; unfold_int; lia). lia. }
  assert (Z.of_nat (length (z m)) = n m) as El by (rewrite En; cbn [m z]; rewrite length_app; lia).
  assert (record_bytes ff cs = z m ++ replicate (Z.to_nat z0) 0) as Eb.
  { rewrite <- Esuf. cbn [m z]. unfold record_bytes. fold szHdr. rewrite <- Epay, Eps. unfold payloads.
    by rewrite map_app, concat_app, <- !app_assoc. }
  assert (has (flags m) MEM_Zero = negb (z0 =? 0)) as Ezf by (cbn [m flags]; by destruct (negb _)).
  assert (z0 <> 0 -> nZero m = z0) as EnZ.
  { intros Hne. unfold nZero. cbn [m u]. destruct (Z.eqb_spec z0 0); [done|]. cbn [negb]. apply wrap_s_small; [lia|unfold_int; lia]. }
  split; [lia|]. split; [done|]. split; [done|]. split; [|by split].
  assert (mem_value m = VBlob (content m ++ tail_zeros m)) as -> by (unfold mem_value; cbn [m flags]; by destruct (negb _)).
  f_equal. rewrite Eb. unfold content, tail_zeros. rewrite take_ge by lia. f_equal. rewrite Ezf.
  destruct (Z.eqb_spec z0 0) as [->|Hne]; [done|]. cbn [negb]. by rewrite EnZ.
Qed.
End Make.

(** ** Theorems *)

(** C23: OP_MakeRecord ends whatever the allocations do.  Unless one fails, the
    registers keep the values the affinities give them, and the result is their
    record: without the zeros of the zero-filled blobs at the end, which are
    left to MEM_Zero, and with all others written out.  Only a record whose
    written part is over the limit is refused. *)
Theorem OP_MakeRecord_correct `{FloatText} limit ff e zAffinity regs cs pOut a :
  after_affinity zAffinity e 0 regs cs -> Forall storable cs -> Z.of_nat (length cs) <= 32767 ->
  Z.of_nat (length (record_bytes ff cs)) < 2 ^ 31 ->
  exists ms res a', OP_MakeRecord limit ff e zAffinity regs pOut a = Some ((ms, res), a') /\
    (unfailed a -> unfailed a') /\
    (mf a' = false ->
      map mem_value ms = map mem_value cs /\
      let nz := zero_run ff (rev cs) in
      if Z.of_nat (length (record_bytes ff cs)) - nz >? limit then res = TooBig
      else exists m, res = Record m /\ record_cell (record_bytes ff cs) nz m).
Proof.
  intros Ha Hs Hn Hlim. pose proof (make_spec limit ff e zAffinity regs cs pOut Ha Hs Hn Hlim a) as Hw. unfold awp in Hw.
  destruct (OP_MakeRecord _ _ _ _ _ _ a) as [[[ms res] a']|]; [|done]. destruct Hw as [H1 H2].
  exists ms, res, a'. split; [done|]. split; [done|]. intros E. by apply H1.
Qed.

(** The text '12' in an INTEGER column, 5 in a TEXT column and two zero-filled
    blobs, of which the second is followed by an empty text only. *)
Definition make_row : list Mem := [text_cell [49; 50]; int_cell 5; zeroblob_cell 2; int_cell 300; zeroblob_cell 3; text_cell []].
Definition make_affinities : list Z := [100; 97; 98; 98; 98; 98].
Definition made_row : list Mem :=
  [mkMem (Z.lor MEM_Str MEM_Int) 0 12 2 [49; 50] SQLITE_UTF8 false 0;
   mkMem (Z.lor MEM_Str MEM_Term) 0 5 1 [53; 0] SQLITE_UTF8 true 32;
   zeroblob_cell 2; int_cell 300; zeroblob_cell 3; text_cell []].

Lemma made_row_storable : Forall storable made_row.
Proof.
  repeat apply List.Forall_cons; try apply int_cell_storable; try apply text_cell_storable;
    try apply zeroblob_cell_storable; try (unfold_int; lia); try (cbn; lia); repeat constructor; try (unfold_int; cbn; lia); try done.
Qed.

Lemma make_row_affinity `{FloatText} : after_affinity (Some make_affinities) SQLITE_UTF8 0 make_row made_row.
Proof.
  split; [by apply (gives_ret)|]. split; [|repeat (split; [by apply gives_ret|]); done].
  intros [l f]. unfold unfailed. destruct l as [|[] [|[] l]], f; vm_compute; (split; [done|]); intros [HU Hf]; try done;
    rewrite ?Forall_cons in HU; destruct_and?; try done; by repeat constructor.
Qed.

Example OP_MakeRecord_correct_witness :
  exists ms m a', OP_MakeRecord 1000000 4 SQLITE_UTF8 (Some make_affinities) make_row blank_cell (mkAlloc [] false) = Some ((ms, Record m), a') /\
    map mem_value ms = map mem_value made_row /\ m.(n) = 13 /\ nZero m = 3 /\
    mem_value m = VBlob [7; 1; 15; 16; 2; 18; 13; 12; 53; 0; 0; 1; 44; 0; 0; 0].
Proof.
  destruct (OP_MakeRecord_correct 1000000 4 SQLITE_UTF8 (Some make_affinities) make_row made_row blank_cell (mkAlloc [] false)
    make_row_affinity made_row_storable) as (ms & res & a' & Hrun & HU & Hr).
  - cbn. lia.
  - by vm_compute.
  - destruct (HU ltac:(split; constructor)) as [_ Hf]. destruct (Hr Hf) as (Hv & m & -> & Hn & _ & _ & Hm & _ & HZ).
    exists ms, m, a'. split; [exact Hrun|]. split; [exact Hv|]. split; [exact Hn|]. split; [|exact Hm]. by apply HZ.
Defined.
