(* ===== verification/CellKeep.v ===== *)
(** * Cells across comparisons and copies (src/lmdb-backend/src/vdbe.c, vdbemem.c)

    A comparison converts its operands and puts their type bits back; a copy
    shares the bytes of its source.  Both keep the invariant of [CellOk]. *)

From S2P Require Import Prelude Ctype Ints Utf Printf PrintfSpec Quote AlterSpec Mem Real Value Vdbe CellOk.

Section Keep.
Variable (B : Z).

(** ** The type bits put back *)

Definition with_type (m : Mem) (f : Z) : Mem := set_flags m (Z.lor (Z.land m.(flags) (Z.lnot MEM_TypeMask)) (Z.land f MEM_TypeMask)).

Lemma with_type_same m : with_type m m.(flags) = m.
Proof.
  unfold with_type. rewrite <- Z.land_lor_distr_r, Z.lor_comm, Z.lor_lnot_diag, Z.land_m1_r. by destruct m.
Qed.

Definition typed_data (f : Z) : bool := has f MEM_Str || has f MEM_Blob.

(** What has become of a cell that had the flags [f]: it may have been
    converted, then its blob expanded or lost. *)
Definition converted (f : Z) (m : Mem) : Prop :=
  typed_data f = true -> is_data m = true.
Definition expanded (f : Z) (bad : bool) (m : Mem) : Prop :=
  has m.(flags) MEM_Zero = false /\ (typed_data f = true -> data_ok B bad m) /\
  (typed_data f = true -> is_enc m.(enc)).
Definition traced (f : Z) (bad : bool) (m : Mem) : Prop := converted f m \/ expanded f bad m.

Lemma converted_refl m : converted m.(flags) m.
Proof. unfold converted, typed_data. auto. Qed.

Lemma converted_keeps f m m' : converted f m -> keeps m m' -> converted f m'.
Proof. intros C1 (K1 & K2 & K3) ?. auto. Qed.

Lemma traced_weaken f bad bad' m : traced f bad m -> (bad = true -> bad' = true) -> traced f bad' m.
Proof.
  intros [?|(E1 & E2 & E3)] Hw; [by left|right]. split_and!; try done. intros H. eapply data_weaken; eauto.
Qed.

Lemma with_type_ok f bad m :
  cell_ok B bad m -> flags_ok f = true -> expanded f bad m -> cell_ok B bad (with_type m f).
Proof.
  intros Hm Hf (Ez & Ed & Ee).
  assert (HT : forall k, 0 <= k <= 8 -> Z.testbit (with_type m f).(flags) k = Z.testbit f k).
  { intros k Hk. unfold with_type. cbn [flags set_flags]. rewrite Z.lor_spec, !Z.land_spec.
    assert (Hc : Z.testbit (Z.lnot MEM_TypeMask) k = false /\ Z.testbit MEM_TypeMask k = true).
    { assert (k = 0 \/ k = 1 \/ k = 2 \/ k = 3 \/ k = 4 \/ k = 5 \/ k = 6 \/ k = 7 \/ k = 8) as D by lia.
      destruct_or! D; by subst. }
    destruct Hc as [-> ->]. by rewrite andb_false_r, andb_true_r. }
  assert (HZ : has (with_type m f).(flags) MEM_Zero = false).
  { unfold with_type. cbn [flags set_flags]. revert Ez. bits. }
  assert (Hs : has (with_type m f).(flags) MEM_Str = has f MEM_Str) by (rewrite !has_Str; by apply HT).
  assert (Hb : has (with_type m f).(flags) MEM_Blob = has f MEM_Blob) by (rewrite !has_Blob; by apply HT).
  assert (Hi : has (with_type m f).(flags) MEM_Int = has f MEM_Int) by (rewrite !has_Int; by apply HT).
  assert (Hr : has (with_type m f).(flags) MEM_Real = has f MEM_Real) by (rewrite !has_Real; by apply HT).
  assert (Hn : has (with_type m f).(flags) MEM_Null = has f MEM_Null) by (rewrite !has_Null; by apply HT).
  assert (Hv : has (with_type m f).(flags) MEM_Invalid = has f MEM_Invalid) by (rewrite !has_Invalid; by apply HT).
  split.
  - revert Hf. unfold flags_ok. rewrite HZ, Hs, Hb, Hi, Hr, Hn, Hv. cbn [implb andb].
    destruct (has f MEM_Zero), (has f MEM_Blob), (has f MEM_Str), (has f MEM_Int), (has f MEM_Real); done.
  - apply Hm.
  - unfold is_data. rewrite Hs, Hb. exact Ed.
  - apply (c_int _ _ _ Hm).
  - unfold is_data. rewrite Hs, Hb. exact Ee.
  - by rewrite HZ.
Qed.

(** ** Blobs expanded *)

Lemma expand_good bad oom m : cell_ok B bad m -> good m -> good (snd (sqlite3VdbeMemExpandBlob oom m)).
Proof.
  intros Hm Hg. unfold sqlite3VdbeMemExpandBlob. destruct (has m.(flags) MEM_Zero) eqn:Hz; [|done].
  destruct (c_zero _ _ _ Hm Hz) as (Hz0 & _ & Hnz).
  assert (Hd : is_data m = true) by (clear Hz0 Hnz; flag_bits). destruct (c_data _ _ _ Hm Hd) as [Hn _].
  destruct (sqlite3VdbeMemGrow _ _ _ _) as [rc m1] eqn:E.
  apply grow_cases in E as [[-> Hnull]|(-> & Ef & Eu & Er & En & Ee & Ez)]; cbn [negb Z.eqb SQLITE_NOMEM SQLITE_OK snd].
  - intros H. exfalso. revert H. unfold is_data. by rewrite (proj1 Hnull).
  - intros _. unfold nZero in *. cbn [n z u set_flags set_n set_z]. rewrite Eu, En, zlength_app, (content_twice m m1) by done.
    unfold zlength in *. unfold content. rewrite length_take, length_replicate. lia.
Qed.

Lemma expand_traced m a :
  cell_ok B (mf a) m ->
  awp (ExpandBlob m) (fun x a' => returns B same_value m a x a' /\ (forall f, traced f (mf a) m -> expanded f (mf a') x.2) /\
    (good m -> good x.2)) a.
Proof.
  intros Hm. pose proof (expand_spec B m a Hm) as Hs. revert Hs. unfold awp, ExpandBlob, attempt, draw. cbn [mbind option_bind].
  match goal with |- context [sqlite3VdbeMemExpandBlob ?b m] =>
    pose proof (expand_good (mf a) b m Hm) as Hg; destruct (expand_pure B (mf a) m b Hm) as ((Hv & Hr) & Hz & Hnull) end.
  destruct (sqlite3VdbeMemExpandBlob _ m) as [rc m'] eqn:E. cbn [fst snd mbind option_bind] in *.
  intros [[Ho Hrc] _]. split; [by split|]. split; [|done]. intros f Ht. cbn [snd fst] in *.
  set (a' := if rc =? SQLITE_OK then _ else _) in *. split; [done|].
  assert (Hw : mf a = true -> mf a' = true) by (unfold a'; by destruct (rc =? SQLITE_OK)).
  destruct Ht as [C1|(E1 & E2 & E3)].
  - destruct (Z.eq_dec rc SQLITE_OK) as [->|Hne].
    + destruct Hr as [(_ & Hc & [HA Eu])|[? _]]; [|done].
      assert (Hd : typed_data f = true -> is_data m' = true).
      { intros H. specialize (C1 H). revert C1. unfold is_data. by rewrite (a_str _ _ HA), (a_blob _ _ HA). }
      split_and!.
      * intros H. by apply (c_data _ _ _ (o_cell _ _ _ _ _ _ Ho)), Hd.
      * intros H. by apply (c_enc _ _ _ (o_cell _ _ _ _ _ _ Ho)), Hd.
    + destruct (Hnull Hne) as (_ & _ & En & Eu & Ee). specialize (Hrc Hne). split_and!.
      * intros H. destruct (c_data _ _ _ Hm (C1 H)) as [? _]. split; [by rewrite En|by right].
      * intros H. rewrite Ee. apply (c_enc _ _ _ Hm (C1 H)).
  - unfold sqlite3VdbeMemExpandBlob in E. rewrite E1 in E. injection E as <- <-. by split_and!.
Qed.

(** ** Copies *)

Lemma shallow_ok bad m t sz :
  cell_ok B bad m -> t = MEM_Static \/ t = MEM_Ephem ->
  cell_ok B bad (sqlite3VdbeMemShallowCopy m t sz) /\ types (sqlite3VdbeMemShallowCopy m t sz).(flags) m.(flags).
Proof.
  intros Hm Ht. assert (HY : types (sqlite3VdbeMemShallowCopy m t sz).(flags) m.(flags)).
  { unfold sqlite3VdbeMemShallowCopy. cbn [flags]. destruct (has _ MEM_Static); [done|].
    destruct Ht as [-> | ->]; split; bits_norm; by rewrite ?andb_true_r, ?orb_false_r. }
  split; [|done]. destruct HY as [Y1 Y2 Y3 Y4 Y5 Y6 Y7].
  assert (Z0 : has (sqlite3VdbeMemShallowCopy m t sz).(flags) MEM_Zero = has m.(flags) MEM_Zero).
  { unfold sqlite3VdbeMemShallowCopy. cbn [flags]. destruct (has _ MEM_Static); [done|].
    destruct Ht as [-> | ->]; bits_norm; by rewrite ?andb_true_r, ?orb_false_r. }
  destruct Hm as [Hf Hb Hd Hi He' Hz]. split; try done.
  - revert Hf. unfold flags_ok. by rewrite Y1, Y2, Y3, Y4, Y5, Y6, Z0.
  - unfold is_data. rewrite Y2, Y5. exact Hd.
  - unfold is_data. rewrite Y2, Y5. exact He'.
  - by rewrite Z0.
Qed.

Lemma shallow_dyn m t sz : t = MEM_Static \/ t = MEM_Ephem ->
  has m.(flags) MEM_Dyn = false -> has (sqlite3VdbeMemShallowCopy m t sz).(flags) MEM_Dyn = false.
Proof.
  intros Ht Hd. unfold sqlite3VdbeMemShallowCopy. cbn [flags]. destruct (has _ MEM_Static); [done|].
  destruct Ht as [-> | ->]; bits_norm; by rewrite ?andb_false_r.
Qed.
End Keep.

(** ** Comparisons have a result *)

Lemma value_text_total B bad m oom e2 :
  cell_ok B bad m -> good m -> 0 <= B -> is_enc e2 -> has m.(flags) MEM_Str = true ->
  exists v, sqlite3ValueText oom (sqlite3VdbeMemShallowCopy m MEM_Ephem 0) e2 = Some v.
Proof.
  intros Hm Hg HB He2 Hs.
  destruct (shallow_ok B bad m MEM_Ephem 0 Hm (or_intror eq_refl)) as [Hc HY].
  set (c := sqlite3VdbeMemShallowCopy m MEM_Ephem 0) in *.
  assert (Hs1 : has c.(flags) MEM_Str = true) by (by rewrite (y_str _ _ HY)).
  unfold sqlite3ValueText. destruct (has c.(flags) MEM_Null); [by eexists|].
  set (c1 := set_flags c _). assert (E1 : sqlite3VdbeMemExpandBlob oom c1 = (SQLITE_OK, c1)).
  { unfold sqlite3VdbeMemExpandBlob, c1. cbn [flags set_flags].
    replace (has (Z.lor _ _) MEM_Zero) with false; [done|]. clear -Hc Hs1. symmetry. revert Hs1. pose proof (c_flags _ _ _ Hc) as Hf.
    revert Hf. unfold flags_ok. bits. }
  rewrite E1. cbn [snd].
  assert (Hc1 : cell_ok B bad c1).
  { apply (cell_same_bytes B bad c); try done; unfold c1; cbn [flags set_flags]; try (clear -Hc Hs1; flag_bits); [by left|apply Hc]. }
  assert (Hg1 : good c1).
  { intros _. apply Hg. unfold is_data. by rewrite Hs. }
  destruct (changeenc_pure B e2 bad HB He2 oom c1 Hc1 Hg1) as ([rc c2] & -> & _).
  cbn [mbind option_bind]. by eexists.
Qed.

Lemma compare_total B bad m1 m2 oom c :
  cell_ok B bad m1 -> good m1 -> cell_ok B bad m2 -> good m2 -> 0 <= B ->
  (forall k, c = Some k -> is_enc k.(coll_enc)) ->
  exists v, sqlite3MemCompare oom m1 m2 c = Some v.
Proof.
  intros H1 G1 H2 G2 HB Hc. unfold sqlite3MemCompare. destruct (has (Z.lor _ _) MEM_Null); [by eexists|].
  destruct (numeric (Z.lor _ _)); [destruct (negb _); [by eexists|]; destruct (negb _); by eexists|].
  destruct (has (Z.lor _ _) MEM_Str); [|by eexists].
  destruct (has m1.(flags) MEM_Str) eqn:S1; [|by eexists]. destruct (has m2.(flags) MEM_Str) eqn:S2; [|by eexists].
  cbn [negb]. destruct c as [k|]; [|by eexists]. specialize (Hc k eq_refl). destruct (_ =? _); [by eexists|]. cbv zeta.
  destruct (value_text_total B bad m1 oom (coll_enc k)) as [v1 ->]; try done.
  destruct (value_text_total B bad m2 oom (coll_enc k)) as [v2 ->]; try done.
  cbn [mbind option_bind]. by eexists.
Qed.

(** The test against the limit bounds a cell. *)
Lemma toobig_cell B B' limit bad m :
  cell_ok B' bad m -> sqlite3VdbeMemTooBig limit m = false -> limit <= B -> cell_ok B bad m.
Proof.
  intros [Hf Hb Hd Hi He Hz] Ht Hl. unfold sqlite3VdbeMemTooBig in Ht. rewrite has_mask in Ht. fold (is_data m) in Ht.
  assert (Hn : is_data m = true -> m.(n) <= B /\ (has m.(flags) MEM_Zero = true -> m.(n) + nZero m <= B)).
  { intros H. rewrite H in Ht. destruct (has m.(flags) MEM_Zero) eqn:Ez.
    - destruct (Hz eq_refl) as (? & _ & _). split; [lia|]. intros _. lia.
    - split; [lia|done]. }
  split; try done.
  - intros H. destruct (Hd H) as [? ?]. split; [|done]. destruct (Hn H). lia.
  - intros H. destruct (Hz H) as (? & _ & ?). assert (is_data m = true) as Hdata.
    { clear -Hf H. revert H Hf. unfold is_data, flags_ok. bits. }
    destruct (Hn Hdata) as [_ Hn']. specialize (Hn' H). by split_and!.
Qed.

(** ** Blobs as texts *)

(** The type bits make no difference to the expansion of a blob. *)
Lemma expand_flags oom m f :
  has f MEM_Zero = has m.(flags) MEM_Zero ->
  let x := sqlite3VdbeMemExpandBlob oom m in
  let y := sqlite3VdbeMemExpandBlob oom (set_flags m f) in
  y.1 = x.1 /\ y.2.(z) = x.2.(z) /\ y.2.(n) = x.2.(n) /\ y.2.(u) = x.2.(u) /\ y.2.(enc) = x.2.(enc) /\
  (y.1 = SQLITE_OK -> y.2.(flags) =
     if has f MEM_Zero then Z.land (Z.land f (Z.lnot (Z.lor MEM_Ephem MEM_Static))) (Z.lnot (Z.lor MEM_Zero MEM_Term)) else f).
Proof.
  intros Hz. cbv zeta. unfold sqlite3VdbeMemExpandBlob. cbn [flags set_flags]. rewrite Hz.
  destruct (has m.(flags) MEM_Zero); [|by split_and!]. unfold sqlite3VdbeMemGrow, nZero. cbn [n u szMalloc set_flags].
  destruct (_ && oom); cbn [negb Z.eqb SQLITE_NOMEM SQLITE_OK fst snd]; [by split_and!|]. by split_and!.
Qed.

Definition text_mask : Z := Z.lor (Z.lor MEM_Int MEM_Real) (Z.lor MEM_Blob MEM_Zero).

(** A blob cast to a text. *)
Lemma text_cell B bad oom m f :
  cell_ok B bad m -> has m.(flags) MEM_Blob = true ->
  has f MEM_Zero = has m.(flags) MEM_Zero -> has f MEM_Str = true -> has f MEM_Null = false ->
  let y := sqlite3VdbeMemExpandBlob oom (set_flags m f) in
  y.1 = SQLITE_OK -> cell_ok B bad (clear_flags y.2 text_mask) /\ has y.2.(flags) MEM_Str = true /\
    has y.2.(flags) MEM_Invalid = has f MEM_Invalid /\ has y.2.(flags) MEM_Cleared = has f MEM_Cleared.
Proof.
  intros Hm Hb Hz Hs Hn y Hy. destruct (expand_flags oom m f Hz) as (E1 & E2 & E3 & E4 & E5 & E6). fold y in E1, E2, E3, E4, E5, E6.
  specialize (E6 Hy). destruct (expand_pure B bad m oom Hm) as ((_ & Hr) & _ & _). rewrite <- E1, Hy in Hr.
  destruct Hr as [(_ & Hc & [HA _])|[? _]]; [|done].
  assert (HF : forall k, has y.2.(flags) k = has f k \/ has f MEM_Zero = true) by (intros k; rewrite E6; destruct (has f MEM_Zero); auto).
  assert (Hs' : has y.2.(flags) MEM_Str = true).
  { rewrite E6. destruct (has f MEM_Zero); [|done]. revert Hs. bits. }
  assert (Hn' : has y.2.(flags) MEM_Null = false).
  { rewrite E6. destruct (has f MEM_Zero); [|done]. revert Hn. bits. }
  split; [|split; [done|]].
  - assert (Hd : is_data (sqlite3VdbeMemExpandBlob oom m).2 = true) by (unfold is_data; by rewrite (a_blob _ _ HA), Hb, orb_true_r).
    split; cbn [flags clear_flags set_flags z u enc]; try (rewrite ?E2, ?E4, ?E5; apply Hc).
    + clear -Hs' Hn'. revert Hs' Hn'. unfold flags_ok, text_mask. bits.
    + intros _. unfold data_ok. cbn [n z clear_flags set_flags]. rewrite E2, E3. by apply Hc.
    + intros _. rewrite E5. by apply Hc.
    + clear. unfold text_mask. intros H. exfalso. revert H. bits.
  - rewrite E6. destruct (has f MEM_Zero); [|done]. clear. split; bits_norm; by rewrite ?andb_true_r.
Qed.

(** ** The text of a value, whatever its allocations do

    A cell all of whose bytes are there keeps them: a failed allocation leaves
    it as it was, or NULL. *)

Lemma good_cell B bad m : cell_ok B bad m -> good m -> cell_ok B false m.
Proof. intros [Hf Hb Hd Hi He Hz] Hg. split; try done. intros H1. destruct (Hd H1) as [? _]. split; [done|left; by apply Hg]. Qed.

Lemma nulled_good m m' : nulled m m' -> good m'.
Proof. intros (Hf & _) Hd. unfold is_data in Hd. by rewrite Hf in Hd. Qed.

Definition intact {A} (B : Z) (a : alloc) (m : A -> Mem) (x : A) (a' : alloc) : Prop :=
  cell_ok B false (m x) /\ (mf a = true -> mf a' = true).

Lemma intact_attempt B f a :
  (forall oom, exists rc m', f oom = Some (rc, m') /\ cell_ok B false m') -> awp (attempt f) (intact B a snd) a.
Proof.
  intros Hf. unfold awp, attempt, draw. cbn [mbind option_bind].
  match goal with |- context [f ?b] => destruct (Hf b) as (rc & m' & E & Hc) end. rewrite E. cbn [mbind option_bind].
  split; [done|]. by destruct (rc =? SQLITE_OK).
Qed.

Lemma changeenc_intact B e2 oom m :
  0 <= B -> is_enc e2 -> cell_ok B false m ->
  exists rc m', sqlite3VdbeChangeEncoding oom m e2 = Some (rc, m') /\ cell_ok (2 * B) false m'.
Proof.
  intros HB He2 Hm. pose proof (cell_good B m Hm) as Hg.
  destruct (changeenc_pure B e2 false HB He2 oom m Hm Hg) as ([rc m'] & E & _ & Hr). exists rc, m'. split; [done|].
  cbn [fst snd] in Hr. destruct Hr as [(_ & Hc & _)|[Hrc Hc]]; [done|]. eapply good_cell; [exact Hc|]. revert E.
  unfold sqlite3VdbeChangeEncoding. destruct (negb (has m.(flags) MEM_Str) || (m.(enc) =? e2)) eqn:E0; [by intros [= <- <-]|].
  apply orb_false_iff in E0 as [Hs%negb_false_iff _]. unfold sqlite3VdbeMemTranslate.
  assert (Hz : has m.(flags) MEM_Zero = false) by (clear -Hm Hs; flag_bits).
  assert (Hd : is_data m = true) by (unfold is_data; by rewrite Hs). pose proof (Hg Hd) as Hn. destruct (c_data _ _ _ Hm Hd) as [Hn0 _].
  destruct (negb _ && negb _).
  - destruct (sqlite3VdbeMemMakeWriteable oom m) as [rc1 m1] eqn:E.
    pose proof (makewriteable_good _ _ _ _ _ _ Hm Hg Hz E) as Hg1. destruct (rc1 =? SQLITE_OK); cbn [negb]; [by intros [= <- <-]|].
    intros [= <- <-]. by eapply nulled_good.
  - set (m1 := if e2 =? SQLITE_UTF8 then _ else m).
    assert (H1 : m1.(z) = m.(z) /\ m1.(n) <= m.(n)).
    { unfold m1. destruct (e2 =? SQLITE_UTF8); [|split; [done|lia]]. cbn [z n set_n]. rewrite land_not1. split; [done|zlia]. }
    destruct oom; [intros [= <- <-]; intros _; rewrite (proj1 H1); lia|].
    destruct (translate _ _ _) as [out|]; [|done]. cbn [mbind option_bind]. by intros [= <- <-].
Qed.

Lemma nulterminate_intact B oom m :
  cell_ok B false m -> exists rc m', sqlite3VdbeMemNulTerminate oom m = (rc, m') /\ cell_ok B false m'.
Proof.
  intros Hm. unfold sqlite3VdbeMemNulTerminate.
  destruct (has m.(flags) MEM_Term || negb (has m.(flags) MEM_Str)) eqn:E; [by eexists _, _|].
  apply orb_false_iff in E as [_ Hs%negb_false_iff].
  destruct (sqlite3VdbeMemGrow _ _ _ _) as [rc m1] eqn:Eg.
  apply grow_cases in Eg as [[-> Hn]|(-> & Ef & Eu & Er & En & Ee & Ez)]; cbn [negb Z.eqb]; eexists _, _; (split; [reflexivity|]).
  - eapply nulled_cell; [apply Hm|done].
  - apply (terminate_cell B false m m1); try done; clear -Hm Hs; flag_bits.
Qed.

Lemma expand_none m a : has m.(flags) MEM_Zero = false -> awp (ExpandBlob m) (fun x a' => x.2 = m /\ mf a' = mf a) a.
Proof.
  intros Hz. unfold awp, ExpandBlob, attempt, draw. cbn [mbind option_bind]. unfold sqlite3VdbeMemExpandBlob. rewrite Hz.
  cbn [mbind option_bind Z.eqb SQLITE_OK]. by split.
Qed.

Section ErrorText.
Context `{FloatTextOk}.
Variable (B : Z).
Hypothesis (HB : 31 <= B).

Lemma stringify_intact m a :
  cell_ok B false m -> is_data m = false -> has m.(flags) (Z.lor MEM_Int MEM_Real) = true ->
  awp (sqlite3VdbeMemStringify m SQLITE_UTF8) (intact B a snd) a.
Proof.
  intros Hm Hd Hn. unfold sqlite3VdbeMemStringify.
  assert (Hg : has m.(flags) (Z.lor MEM_Zero (Z.lor MEM_Str MEM_Blob)) = false) by (clear -Hm Hd; flag_bits).
  rewrite Hg, Hn. cbn [negb orb]. apply awp_bind. change (awp (must (Some ())) ?Q ?x) with (Q () x). cbv beta.
  apply awp_bind. eapply awp_mono; [apply grow_spec|].
  intros [rc m1] a1 H1. cbn [fst snd] in H1. destruct H1 as [(-> & Hbad & Hnull)|(-> & Hmf & Ef & Eu & En & Ee & Ez)]; cbn [negb Z.eqb SQLITE_NOMEM SQLITE_OK].
  { apply awp_ret. split; [eapply nulled_cell; [apply Hm|done]|by rewrite Hbad]. }
  destruct (number_text m1.(u) m1.(r) (has m.(flags) MEM_Int)) as (t & Ht & Hb & Hl).
  { intros _. rewrite Eu. apply Hm. }
  replace (if has m.(flags) MEM_Int then sqlite3_snprintf 32 [] [] fmt_i64 [A_i64 m1.(u)]
    else sqlite3_snprintf 32 [] [] fmt_real [A_double m1.(r)]) with (Some (Some t)) by (rewrite <- Ht; by destruct (has _ MEM_Int)).
  apply awp_bind. change (awp (must (Some (Some t))) ?Q ?x) with (Q (Some t) x). cbv beta zeta. cbn [default]. unfold id.
  destruct (number_cell B false false m m1 t) as [_ Hc]; try done. set (m3 := add_flags _ _) in *.
  unfold awp, ChangeEncoding, attempt, draw, sqlite3VdbeChangeEncoding.
  replace (negb (has m3.(flags) MEM_Str) || (m3.(enc) =? SQLITE_UTF8)) with true by (by rewrite orb_comm).
  cbn [mbind option_bind AM_bind Z.eqb SQLITE_OK mret AM_ret].
  split; [eapply cell_narrower; [exact Hc|lia]|cbn; by rewrite Hmf].
Qed.

Lemma value_text_intact m a :
  cell_ok B false m -> memIsValid m = true -> has m.(flags) MEM_Zero = false ->
  awp (ValueText m SQLITE_UTF8) (intact (2 * B) a fst) a.
Proof.
  intros Hm Hv Hz. unfold ValueText.
  destruct (has m.(flags) MEM_Null) eqn:Hnull.
  { apply awp_ret. split; [|done]. eapply cell_narrower; [exact Hm|lia]. }
  cbv zeta. set (m1 := add_flags m _).
  assert (Hz1 : has m1.(flags) MEM_Zero = false) by (unfold m1; cbn [flags add_flags set_flags]; revert Hz; bits).
  assert (Hc1 : cell_ok B false m1).
  { assert (Hd1 : is_data m1 = is_data m) by (unfold is_data, m1; cbn [flags add_flags set_flags]; bits).
    destruct Hm as [Hf Hb Hd Hi He Hzz]. split; try done; rewrite ?Hd1, ?Hz1; try done.
    revert Hf Hz. unfold m1, flags_ok. cbn [flags add_flags set_flags]. bits. }
  apply awp_bind. eapply awp_mono; [by apply expand_none|]. intros [rc m2] a1 [E2 Ea]. cbn [snd] in E2. subst m2.
  apply awp_bind. destruct (has m1.(flags) MEM_Str) eqn:Hs.
  - apply awp_bind. eapply awp_mono; [apply (intact_attempt (2 * B)); intros oom; apply (changeenc_intact B); [lia|by left|done]|].
    intros [rc2 m2] a2 [Hc2 Ha2]. cbn [snd] in Hc2. apply awp_bind.
    eapply awp_mono; [apply (intact_attempt (2 * B)); intros oom; destruct (nulterminate_intact (2 * B) oom m2 Hc2) as (rc' & m' & E & Hc'); exists rc', m'; by rewrite E|].
    intros [rc3 m3] a3 [Hc3 Ha3]. apply awp_ret. apply awp_ret. split; [exact Hc3|]. intros Ha. apply Ha3, Ha2. by rewrite Ea.
  - apply awp_bind. eapply awp_mono; [apply stringify_intact; [done| |]|].
    + unfold is_data. rewrite Hs. revert Hs. unfold m1; cbn [flags add_flags set_flags]. bits.
    + revert Hs Hnull Hv. pose proof (c_flags _ _ _ Hm) as Hf. revert Hf. unfold m1, memIsValid, flags_ok; cbn [flags add_flags set_flags]. bits.
    + intros [rc2 m2] a2 [Hc2 Ha2]. apply awp_ret. apply awp_ret. split; [eapply cell_narrower; [exact Hc2|lia]|]. intros Ha. apply Ha2. by rewrite Ea.
Qed.
End ErrorText.
