(* ===== verification/VdbeType.v ===== *)
(** * A type system for programs of the virtual machine

    What [sqlite3VdbeExec] takes for granted of a program: the registers it
    names exist, a register it reads was written, a return address is the
    address of an instruction, an operand is of the kind the instruction wants.
    A type says what is known of each register before an instruction; [flow]
    gives the types behind it, and [check_prog] decides whether a program
    agrees with a type for each of its instructions. *)

From S2P Require Import Prelude Ctype Ints Utf Printf Mem Serial Real Value Vdbe VdbeExec CellOk.

(** ** Types *)

(** What is known of a register: it is not MEM_Invalid, it is MEM_Int, not
    MEM_Dyn, not MEM_Cleared, and as a 32-bit integer it is one of the given. *)
Record rt := mkRt {
  t_valid : bool; t_int : bool; t_nodyn : bool; t_nocleared : bool; t_addr : option (list Z)
}.

Record types := mkTypes { regs : list rt; perm : option (list Z) }.

Definition get (ts : types) (i : Z) : option rt := if 0 <? i then ts.(regs) !! Z.to_nat i else None.
Definition put (ts : types) (i : Z) (t : rt) : types := mkTypes (<[Z.to_nat i := t]> ts.(regs)) ts.(perm).
Definition no_perm (ts : types) : types := mkTypes ts.(regs) None.

(** A value of any kind; one whose flags are those of a fresh cell; an integer
    of which the low half is known; NULL. *)
Definition t_any : rt := mkRt true false false false None.
Definition t_new : rt := mkRt true false true true None.
Definition t_newint : rt := mkRt true true true true None.
Definition t_address (a : Z) : rt := mkRt true true true true (Some [i32 a]).
Definition t_null (cleared : bool) : rt := mkRt true false true (negb cleared) None.

(** The result of an instruction that writes over the type bits. *)
Definition t_out (t : rt) : rt := mkRt true false t.(t_nodyn) true None.
Definition t_outint (t : rt) : rt := mkRt true true t.(t_nodyn) true None.
(** A value converted in place. *)
Definition t_conv (t : rt) : rt := mkRt true false false t.(t_nocleared) None.
Definition t_cast (t : rt) : rt := mkRt true false t.(t_nodyn) t.(t_nocleared) None.
(** An operand of a comparison: its type bits are put back. *)
Definition t_compared (t : rt) : rt := mkRt t.(t_valid) t.(t_int) false t.(t_nocleared) None.
Definition sub_rt (t t' : rt) : bool :=
  implb t'.(t_valid) t.(t_valid) && implb t'.(t_int) t.(t_int) && implb t'.(t_nodyn) t.(t_nodyn)
  && implb t'.(t_nocleared) t.(t_nocleared)
  && match t'.(t_addr), t.(t_addr) with
     | None, _ => true
     | Some l', Some l => forallb (fun a => existsb (Z.eqb a) l') l
     | Some _, None => false
     end.

Fixpoint sub_list (l l' : list rt) : bool :=
  match l, l' with
  | [], [] => true
  | t :: l, t' :: l' => sub_rt t t' && sub_list l l'
  | _, _ => false
  end.

Definition sub_types (ts ts' : types) : bool := sub_list ts.(regs) ts'.(regs) && bool_decide (ts.(perm) = ts'.(perm)).

(** ** The types behind an instruction *)

(** What a program is prepared for: the encoding and the limit of the
    connection, and the number of variables, flags and columns. *)
Record config := mkConfig { g_enc : Z; g_limit : Z; g_var : Z; g_once : Z; g_res : Z }.

(** The types before the instructions; none for one that is never reached. *)
Abbreviation typing := (list (option types)).

Section Flow.
Variable (g : config).

Definition need (b : bool) : option () := if b then Some () else None.

(** All of [k] registers from [i] on. *)
Fixpoint all_valid (k : nat) (i : Z) (ts : types) : bool :=
  match k with
  | O => true
  | S k => match get ts i with Some t => t.(t_valid) && all_valid k (i + 1) ts | None => false end
  end.

Fixpoint put_range (k : nat) (i : Z) (f : rt -> rt) (ts : types) : option types :=
  match k with
  | O => Some ts
  | S k => t ← get ts i; put_range k (i + 1) f (put ts i (f t))
  end.

Fixpoint move_types (k : nat) (i p1 p2 : Z) (ts : types) : option types :=
  match k with
  | O => Some ts
  | S k =>
      _ ← get ts (p2 + i);
      t ← get ts (p1 + i);
      _ ← need t.(t_valid);
      move_types k (i + 1) p1 p2 (put (put ts (p2 + i) t) (p1 + i) (t_null false))
  end.

Fixpoint copy_types (k : nat) (i p1 p2 : Z) (ts : types) : option types :=
  match k with
  | O => Some ts
  | S k =>
      _ ← get ts (p2 + i);
      t ← get ts (p1 + i);
      copy_types k (i + 1) p1 p2 (put ts (p2 + i) t)
  end.

Definition coll_ok (c : option CollSeq) : bool :=
  match c with
  | None => true
  | Some k => (k.(coll_enc) =? SQLITE_UTF8) || (k.(coll_enc) =? SQLITE_UTF16LE) || (k.(coll_enc) =? SQLITE_UTF16BE)
  end.

Fixpoint fields_ok (k : nat) (i : nat) (q1 q2 : Z) (ki : KeyInfo) (perm : option (list Z)) (ts : types) : bool :=
  match k with
  | O => true
  | S k =>
      match match perm with Some ai => ai !! i | None => Some (Z.of_nat i) end, ki.(aColl) !! i, ki.(aSortOrder) !! i with
      | Some idx, Some c, Some _ =>
          match get ts (q1 + idx), get ts (q2 + idx) with
          | Some t1, Some t2 => t1.(t_valid) && t2.(t_valid) && coll_ok c && fields_ok k (S i) q1 q2 ki perm ts
          | _, _ => false
          end
      | _, _, _ => false
      end
  end.

Definition is_byte (c : Z) : bool := (0 <=? c) && (c <? 256).

Definition is_collseq (prev : option Op) : bool :=
  match prev with Some (mkOp OP_CollSeq _ _ _ (P4_COLLSEQ _) _) => true | _ => false end.

(** The address and the types of every instruction that can come next. *)
Definition flow (prev : option Op) (op : Op) (pc : Z) (ts : types) : option (list (Z * types)) :=
  let next ts := Some [(pc + 1, ts)] in
  let branch ts := Some [(pc + 1, ts); (op.(p2), ts)] in
  match op.(opc) with
  | OP_Goto => Some [(op.(p2), ts)]
  | OP_Gosub => t ← get ts op.(p1); _ ← need t.(t_nodyn); Some [(op.(p2), put ts op.(p1) (t_address pc))]
  | OP_Return =>
      t ← get ts op.(p1); _ ← need (t.(t_valid) && t.(t_int)); l ← t.(t_addr);
      Some (map (fun a => (a + 1, ts)) l)
  | OP_Yield =>
      t ← get ts op.(p1); _ ← need (t.(t_valid) && t.(t_nodyn)); l ← t.(t_addr);
      Some (map (fun a => (a + 1, put ts op.(p1) (t_address pc))) l)
  | OP_HaltIfNull =>
      t ← get ts op.(p3); _ ← need t.(t_valid);
      _ ← need (match op.(p4) with P4_TEXT _ => negb (op.(p1) =? SQLITE_OK) | _ => true end);
      next ts
  | OP_Halt => _ ← need (match op.(p4) with P4_TEXT _ => negb (op.(p1) =? SQLITE_OK) | _ => true end); Some []
  | OP_Integer => _ ← get ts op.(p2); _ ← need (fits op.(p1)); next (put ts op.(p2) (t_address op.(p1)))
  | OP_Int64 =>
      _ ← get ts op.(p2);
      match op.(p4) with P4_INT64 i => _ ← need (fits i); next (put ts op.(p2) (t_address i)) | _ => None end
  | OP_Real =>
      _ ← get ts op.(p2);
      match op.(p4) with
      | P4_REAL r => _ ← need (negb (sqlite3IsNaN (double_of_bits r))); next (put ts op.(p2) t_new)
      | _ => None
      end
  | OP_String8 =>
      _ ← get ts op.(p2); z ← p4z op; _ ← need (forallb is_byte z && (Z.of_nat (length z) <? 2 ^ 30)); next (put ts op.(p2) t_new)
  | OP_String =>
      _ ← get ts op.(p2); z ← p4z op;
      _ ← need (forallb is_byte z && (0 <=? op.(p1)) && (op.(p1) <=? Z.of_nat (length z)) && (op.(p1) <=? g.(g_limit)));
      next (put ts op.(p2) t_new)
  | OP_Null =>
      _ ← get ts op.(p2); _ ← need (op.(p3) <=? Z.of_nat (length ts.(regs)) - 1);
      let t := t_null (negb (op.(p1) =? 0)) in
      ts ← put_range (Z.to_nat (op.(p3) - op.(p2))) (op.(p2) + 1) (fun _ => t) (put ts op.(p2) t);
      next ts
  | OP_Blob =>
      _ ← get ts op.(p2); _ ← need (op.(p1) <=? SQLITE_MAX_LENGTH);
      _ ← need (match p4z op with
                | Some z => forallb is_byte z && (0 <=? op.(p1)) && (op.(p1) <=? Z.of_nat (length z)) && (op.(p1) <=? g.(g_limit))
                | None => true
                end);
      next (put ts op.(p2) t_new)
  | OP_Variable => _ ← get ts op.(p2); _ ← need ((0 <? op.(p1)) && (op.(p1) <=? g.(g_var))); next (put ts op.(p2) t_any)
  | OP_Move =>
      let cnt := op.(p3) + 1 in
      _ ← need ((cnt >? 0) && (op.(p1) >? 0) && (op.(p2) >? 0));
      _ ← need ((op.(p1) + cnt <=? op.(p2)) || (op.(p2) + cnt <=? op.(p1)));
      ts ← move_types (Z.to_nat cnt) 0 op.(p1) op.(p2) ts;
      next ts
  | OP_Copy =>
      _ ← need (negb (op.(p1) =? op.(p2)));
      ts ← copy_types (S (Z.to_nat op.(p3))) 0 op.(p1) op.(p2) ts;
      next ts
  | OP_SCopy =>
      t ← get ts op.(p1); _ ← get ts op.(p2); _ ← need (t.(t_valid) && negb (op.(p1) =? op.(p2)));
      next (put ts op.(p2) t)
  | OP_ResultRow =>
      _ ← need ((g.(g_res) =? op.(p2)) && (op.(p1) >? 0) && all_valid (Z.to_nat op.(p2)) op.(p1) ts);
      next (no_perm ts)
  | OP_Concat =>
      t1 ← get ts op.(p1); t2 ← get ts op.(p2); _ ← get ts op.(p3);
      _ ← need (t1.(t_valid) && t2.(t_valid) && negb (op.(p1) =? op.(p3)));
      let ts := put ts op.(p1) (t_compared t1) in
      t2 ← get ts op.(p2);
      next (put (put ts op.(p2) (t_compared t2)) op.(p3) (mkRt true false false true None))
  | OP_Add | OP_Subtract | OP_Multiply | OP_Divide | OP_Remainder
  | OP_BitAnd | OP_BitOr | OP_ShiftLeft | OP_ShiftRight | OP_And | OP_Or =>
      t1 ← get ts op.(p1); t2 ← get ts op.(p2); t3 ← get ts op.(p3); _ ← need (t1.(t_valid) && t2.(t_valid));
      next (put ts op.(p3) (t_out t3))
  | OP_CollSeq =>
      _ ← need (match op.(p4) with P4_COLLSEQ _ => true | _ => false end);
      if negb (op.(p1) =? 0) then _ ← get ts op.(p1); next (put ts op.(p1) t_newint) else next ts
  | OP_Function =>
      let k := Z.to_nat op.(p5) in
      _ ← get ts op.(p3);
      _ ← need (((op.(p3) <? op.(p2)) || (op.(p3) >=? op.(p2) + op.(p5))) && (0 <=? op.(p5)));
      _ ← need (all_valid k op.(p2) ts);
      _ ← need (match op.(p4) with
                | P4_FUNCDEF f => ((nArg f =? -1) || (nArg f =? op.(p5))) && implb (needcoll f) ((pc >? 0) && is_collseq prev)
                | _ => false
                end);
      ts ← put_range k op.(p2) (fun _ => t_any) ts;
      next (put ts op.(p3) t_any)
  | OP_AddImm => t ← get ts op.(p1); _ ← need t.(t_valid); next (put ts op.(p1) (t_outint t))
  | OP_MustBeInt =>
      t ← get ts op.(p1); _ ← need t.(t_valid);
      if op.(p2) =? 0 then next (put ts op.(p1) (t_outint t))
      else Some [(pc + 1, put ts op.(p1) (t_outint t)); (op.(p2), put ts op.(p1) (t_cast t))]
  | OP_RealAffinity | OP_ToNumeric | OP_ToInt | OP_ToReal =>
      t ← get ts op.(p1); _ ← need t.(t_valid); next (put ts op.(p1) (t_cast t))
  | OP_ToText | OP_ToBlob => t ← get ts op.(p1); _ ← need t.(t_valid); next (put ts op.(p1) (t_conv t))
  | OP_Eq | OP_Ne | OP_Lt | OP_Le | OP_Gt | OP_Ge =>
      t1 ← get ts op.(p1); t3 ← get ts op.(p3);
      _ ← need (t1.(t_valid) && t3.(t_valid));
      _ ← need (match p4_coll op with Some c => coll_ok c | None => false end);
      _ ← need (implb (has op.(p5) SQLITE_NULLEQ) (bool_decide (op.(opc) = OP_Eq \/ op.(opc) = OP_Ne) && t1.(t_nocleared)));
      let ts := put ts op.(p1) (t_compared t1) in
      t3 ← get ts op.(p3);
      let ts := put ts op.(p3) (t_compared t3) in
      if has op.(p5) SQLITE_STOREP2 then
        t2 ← get ts op.(p2); _ ← need (negb (op.(p2) =? op.(p1)) && negb (op.(p2) =? op.(p3)));
        next (put ts op.(p2) (t_out t2))
      else branch ts
  | OP_Permutation => match op.(p4) with P4_INTARRAY ai => next (mkTypes ts.(regs) (Some ai)) | _ => None end
  | OP_Compare =>
      match op.(p4) with
      | P4_KEYINFO ki =>
          _ ← need ((op.(p3) >? 0) &&
            fields_ok (Z.to_nat op.(p3)) 0 op.(p1) op.(p2) ki (if has op.(p5) OPFLAG_PERMUTE then ts.(perm) else None) ts);
          next (no_perm ts)
      | _ => None
      end
  | OP_Jump => Some [(op.(p1), ts); (op.(p2), ts); (op.(p3), ts)]
  | OP_Not | OP_BitNot =>
      t ← get ts op.(p1); t2 ← get ts op.(p2); _ ← need t.(t_valid); next (put ts op.(p2) (t_out t2))
  | OP_Once => _ ← need ((0 <=? op.(p1)) && (op.(p1) <? g.(g_once))); branch ts
  | OP_If | OP_IfNot | OP_IsNull | OP_NotNull => t ← get ts op.(p1); _ ← need t.(t_valid); branch ts
  | OP_Affinity =>
      z ← p4z op;
      _ ← need ((Z.of_nat (length z) =? op.(p2)) && all_valid (length z) op.(p1) ts);
      ts ← put_range (length z) op.(p1) t_conv ts;
      next ts
  | OP_FkCounter | OP_Noop => next ts
  | OP_FkIfZero => branch ts
  | OP_MemMax =>
      t1 ← get ts op.(p1); t2 ← get ts op.(p2); _ ← need (t1.(t_valid) && t2.(t_valid));
      let ts := put ts op.(p1) (t_outint t1) in
      t2 ← get ts op.(p2);
      next (put ts op.(p2) (t_outint t2))
  | OP_IfPos | OP_IfNeg | OP_IfZero =>
      t ← get ts op.(p1); _ ← need (t.(t_valid) && t.(t_int));
      branch (put ts op.(p1) (mkRt true true t.(t_nodyn) t.(t_nocleared) None))
  end.

(** ** Programs *)

Definition at_pc {A} (l : list A) (pc : Z) : option A := if 0 <=? pc then l !! Z.to_nat pc else None.

Definition enters (G : typing) (d : Z * types) : bool :=
  match at_pc G d.1 with Some (Some ts) => sub_types d.2 ts | _ => false end.

Definition check_at (G : typing) (prog : list Op) (pc : nat) : bool :=
  match prog !! pc, G !! pc with
  | Some op, Some (Some ts) =>
      match flow (at_pc prog (Z.of_nat pc - 1)) op (Z.of_nat pc) ts with
      | Some l => forallb (enters G) l
      | None => false
      end
  | _, _ => true
  end.

Definition check_prog (G : typing) (prog : list Op) : bool :=
  (length G =? length prog)%nat && (Z.of_nat (length prog) <? 2 ^ 31) && forallb (check_at G prog) (seq 0 (length prog)).
End Flow.
