(* ===== verification/VdbeSafe.v ===== *)
(** * Well-typed programs of the virtual machine do not go wrong

    The meaning of the types of [VdbeType], a program logic for the machine
    monad, and the rules of its steps. *)

From S2P Require Import Prelude Ctype Ints Utf Printf PrintfSpec Quote AlterSpec Mem Serial Real Value Vdbe VdbeExec CellOk CellKeep VdbeType.

(** ** The meaning of a type *)

Definition strong (m : Mem) (t : rt) : Prop :=
  (t.(t_int) = true -> has m.(flags) MEM_Int = true) /\ (t.(t_nodyn) = true -> has m.(flags) MEM_Dyn = false) /\
  (t.(t_nocleared) = true -> has m.(flags) MEM_Cleared = false) /\
  (forall l, t.(t_addr) = Some l -> has m.(flags) MEM_Int = true /\ In (i32 m.(u)) l).

Definition conform (bad : bool) (m : Mem) (t : rt) : Prop :=
  (t.(t_valid) = true -> memIsValid m = true) /\ (bad = false -> strong m t).

Abbreviation bad s := (mf (heap s)).

(** A function called with the number of arguments it has keeps them valid,
    whatever its allocations do, and returns a value of any encoding; with an
    error, not a zero-filled blob. *)
Definition func_ok (B : Z) (f : FuncDef) : Prop :=
  forall c args a,
    nArg f = -1 \/ nArg f = Z.of_nat (length args) ->
    c.(isError) = 0 -> has c.(ctx_s).(flags) MEM_Null = true ->
    Forall (fun m => cell_ok B (mf a) m /\ memIsValid m = true) args ->
    memIsValid c.(ctx_s) = true -> cell_ok B (mf a) c.(ctx_s) ->
    awp (xFunc f c args) (fun x a' =>
      (mf a = true -> mf a' = true) /\ length x.2 = length args /\
      (mf a' = false ->
         cell_ok 1000000000 false x.1.(ctx_s) /\ memIsValid x.1.(ctx_s) = true /\
         (x.1.(isError) <> 0 -> has x.1.(ctx_s).(flags) MEM_Zero = false) /\
         Forall (fun m => cell_ok B false m /\ memIsValid m = true) x.2)) a.

Section Safe.
Variable (g : config).
Definition bound : Z := Z.max g.(g_limit) 64.

Definition cell_fits (bad : bool) (m : Mem) (t : rt) : Prop := cell_ok bound bad m /\ conform bad m t.

Record fixed_parts (s : Vdbe) : Prop := {
  x_enc : s.(db).(encoding) = g.(g_enc);
  x_limit : s.(db).(iLimit) = g.(g_limit);
  x_var : Z.of_nat (length s.(aVar)) = g.(g_var);
  x_vars : Forall (fun m => cell_ok (2 ^ 31) false m /\ memIsValid m = true) s.(aVar);
  x_once : Z.of_nat (length s.(aOnceFlag)) = g.(g_once);
  x_res : s.(nResColumn) = g.(g_res);
}.

Record inv (prog : list Op) (pc0 : Z) (ts : types) (s : Vdbe) : Prop := {
  i_regs : Forall2 (cell_fits (bad s)) s.(aMem) ts.(regs);
  i_perm : s.(aPermute) = ts.(perm);
  i_prog : s.(aOp) = prog;
  i_pc : s.(pc) = pc0;
  i_fixed : fixed_parts s;
}.

Lemma conform_weaken b b' m t : conform b m t -> (b = true -> b' = true) -> conform b' m t.
Proof. intros (Hv & Hs) Hw. split; [done|]. intros E. apply Hs. destruct b; [|done]. by rewrite Hw in E. Qed.

Lemma fits_weaken b b' m t : cell_fits b m t -> (b = true -> b' = true) -> cell_fits b' m t.
Proof. intros [Hc Hf] Hw. split; [by eapply cell_weaken|by eapply conform_weaken]. Qed.

Lemma get_lookup ts i t : get ts i = Some t -> 0 < i /\ ts.(regs) !! Z.to_nat i = Some t.
Proof. unfold get. destruct (Z.ltb_spec 0 i); [done|done]. Qed.

(** ** The program logic *)

Section Logic.
Variable (row : Vdbe -> Prop).

Definition exits (l : label) (s : Vdbe) : Prop := l = vdbe_return_row -> row s.

Definition wp {A} (m : VM A) (Q : A -> Vdbe -> Prop) (s : Vdbe) : Prop :=
  match m s with
  | None => False
  | Some (inl x, s') => Q x s'
  | Some (inr l, s') => exits l s'
  end.

Lemma wp_bind {A C} (m : VM A) (f : A -> VM C) Q s : wp m (fun x => wp (f x) Q) s -> wp (x ← m; f x) Q s.
Proof. unfold wp, mbind, VM_bind. destruct (m s) as [[[x|l] s']|]; cbn; auto. Qed.

Lemma wp_mono {A} (m : VM A) (Q Q' : A -> Vdbe -> Prop) s : wp m Q s -> (forall x s', Q x s' -> Q' x s') -> wp m Q' s.
Proof. unfold wp. destruct (m s) as [[[x|l] s']|]; auto. Qed.

Lemma wp_ret {A} (x : A) (Q : A -> Vdbe -> Prop) s : Q x s -> wp (mret x) Q s.
Proof. done. Qed.

Lemma wp_goto {A} l (Q : A -> Vdbe -> Prop) s : l <> vdbe_return_row -> wp (goto l) Q s.
Proof. intros Hl. unfold wp, goto, exits. by intros ->. Qed.

Lemma wp_gets {A} (f : Vdbe -> A) Q s : Q (f s) s -> wp (gets f) Q s.
Proof. done. Qed.

Lemma wp_modify f Q s : Q () (f s) -> wp (modify f) Q s.
Proof. done. Qed.

Lemma wp_assert b Q s : b = true -> Q () s -> wp (assert b) Q s.
Proof. intros ->. done. Qed.

Lemma wp_some {A} (o : option A) x Q s : o = Some x -> Q x s -> wp (some o) Q s.
Proof. intros ->. done. Qed.

Lemma wp_alloc_raw {A} (c : AM A) Q s : awp c (fun x a' => Q x (set_heap s a')) s.(heap) -> wp (alloc_call c) Q s.
Proof. unfold wp, alloc_call, awp. destruct (c (heap s)) as [[x a']|]; done. Qed.

(** ** Registers *)

Variables (prog : list Op) (pc0 : Z).
Abbreviation inv := (inv prog pc0).

Lemma inv_heap ts s a' : inv ts s -> (bad s = true -> mf a' = true) -> inv ts (set_heap s a').
Proof.
  intros [Hr Hp Ho Hc Hx] Hw. split; try done; [|by destruct Hx].
  eapply Forall2_impl; [exact Hr|]. intros m t Hmt. eapply fits_weaken; [exact Hmt|done].
Qed.

Lemma inv_lookup ts s i t : inv ts s -> get ts i = Some t -> exists m, s.(aMem) !! Z.to_nat i = Some m /\ cell_fits (bad s) m t.
Proof.
  intros Hi [_ Ht]%get_lookup. destruct (Forall2_lookup_r _ _ _ _ _ (i_regs _ _ _ _ Hi) Ht) as (m & Hm & Hf). eauto.
Qed.

Lemma wp_reg ts s i t Q :
  inv ts s -> get ts i = Some t ->
  (forall m, s.(aMem) !! Z.to_nat i = Some m -> cell_ok bound (bad s) m -> conform (bad s) m t -> Q m s) ->
  wp (reg i) Q s.
Proof.
  intros Hi Ht HQ. destruct (inv_lookup _ _ _ _ Hi Ht) as (m & Hm & Hc & Hf). destruct (get_lookup _ _ _ Ht) as [Hi0 _].
  unfold wp, reg. destruct (Z.ltb_spec 0 i); [|lia]. rewrite Hm. cbn. by apply HQ.
Qed.

Lemma inv_put ts s i t0 m' t' :
  inv ts s -> get ts i = Some t0 -> cell_ok bound (bad s) m' -> conform (bad s) m' t' ->
  inv (put ts i t') (set_aMem s (<[Z.to_nat i := m']> s.(aMem))).
Proof.
  intros [Hr Hp Ho Hc Hx] Ht Hm Hf. split; try done; [|by destruct Hx].
  cbn. apply Forall2_insert; [done|]. by split.
Qed.

Lemma wp_set_reg ts s i t0 m' t' Q :
  inv ts s -> get ts i = Some t0 -> cell_ok bound (bad s) m' -> conform (bad s) m' t' ->
  (forall s', inv (put ts i t') s' -> s' = set_aMem s (<[Z.to_nat i := m']> s.(aMem)) -> Q () s') ->
  wp (set_reg i m') Q s.
Proof.
  intros Hi Ht Hm Hf HQ. destruct (get_lookup _ _ _ Ht) as [Hi0 Hl].
  pose proof (Forall2_length _ _ _ (i_regs _ _ _ _ Hi)) as Hlen. apply lookup_lt_Some in Hl.
  unfold wp, set_reg. destruct (Z.ltb_spec 0 i); [|lia]. rewrite bool_decide_true by lia. cbn.
  apply HQ; [by eapply inv_put|done].
Qed.

(** An operation that allocates, on a cell. *)
Lemma wp_alloc {A} (c : AM A) ts s (P : A -> alloc -> Prop) Q :
  inv ts s -> awp c P s.(heap) ->
  (forall x a', P x a' -> bad s = true -> mf a' = true) ->
  (forall x s', inv ts s' -> s'.(aMem) = s.(aMem) -> P x s'.(heap) -> Q x s') ->
  wp (alloc_call c) Q s.
Proof.
  intros Hi Hc Hw HQ. apply wp_alloc_raw. eapply awp_mono; [exact Hc|]. intros x a' HP. apply HQ; [|done|done].
  apply inv_heap; [done|]. eauto.
Qed.

Lemma outcome_mono R m a m' a' : outcome bound R m a m' a' -> mf a = true -> mf a' = true.
Proof. intros Ho. destruct (o_rel _ _ _ _ _ _ Ho) as [[-> _]|]; done. Qed.
End Logic.
End Safe.
