(* ===== verification/VdbeOps.v ===== *)
(** * The instructions follow their types

    For each instruction: from a state of its types, the machine is defined and
    goes on at one of the addresses of [flow], in a state of the types given
    there, or leaves the switch. *)

From S2P Require Import Prelude Ctype Ints Utf Printf PrintfSpec Quote AlterSpec Mem Serial Real Value Vdbe VdbeExec CellOk CellKeep VdbeType VdbeSafe.

Lemma need_true b x : need b = Some x -> b = true.
Proof. by destruct b. Qed.

(** The conditions under which [flow] has a result. *)
Ltac flow_inv H :=
  cbn [mbind option_bind] in H;
  repeat match type of H with
  | @mbind option _ _ _ _ ?o = Some _ =>
      let E := fresh "E" in destruct o eqn:E; [cbn [mbind option_bind] in H|discriminate H];
      try (apply need_true in E)
  end;
  repeat match goal with E : _ && _ = true |- _ => apply andb_true_iff in E as [? ?] end;
  try (injection H as <-).

(** Steps of the proofs. *)
Ltac wbind := apply wp_bind.
Ltac wreg m Hc Hf := wbind; eapply wp_reg; [eassumption|eassumption|intros m ? Hc Hf].
Ltac wvalid m Hc Hf :=
  wbind; apply wp_bind; eapply wp_reg; [eassumption|eassumption|intros m ? Hc Hf];
  apply wp_bind, wp_assert; [apply (proj1 Hf); done|]; apply wp_ret.

Ltac start := intros ts s op prev l Hi Hb Ho Hl; unfold flow in Hl; rewrite Ho in Hl; flow_inv Hl.

Section Ops.
Context `{FloatTextOk}.
Variable (g : config).
Hypothesis (He : is_enc g.(g_enc)) (Hlimit : 0 <= g.(g_limit) <= 1000000000).
Variables (row : Vdbe -> Prop) (prog : list Op) (pc0 : Z).
Hypothesis (Hpc : 0 <= pc0 < 2 ^ 31).
Abbreviation inv := (inv g prog pc0).
Abbreviation wp := (wp row).
Abbreviation B := (bound g).

Lemma bound_range : 64 <= B <= 1000000000.
Proof. unfold bound. lia. Qed.

(** The state behind an instruction, before [pc++]: when an allocation failed,
    the next instruction is not executed. *)
Definition after (l : list (Z * types)) (s : Vdbe) : Prop :=
  bad s = true \/ exists d ts, In (d, ts) l /\ VdbeSafe.inv g prog (d - 1) ts s.

Lemma after_next ts l s : inv ts s -> In (pc0 + 1, ts) l -> after l s.
Proof. intros Hi Hl. right. exists (pc0 + 1), ts. split; [done|]. by replace (pc0 + 1 - 1) with pc0 by lia. Qed.

Lemma after_jump ts d l s : inv ts s -> In (d, ts) l -> after l (set_pc s (d - 1)).
Proof. intros [Hr Hp Ho Hc Hx] Hl. right. exists d, ts. split; [done|]. split; try done. by destruct Hx. Qed.

Lemma wp_next ts l s : inv ts s -> In (pc0 + 1, ts) l -> wp (mret ()) (fun _ => after l) s.
Proof. intros. apply wp_ret. by eapply after_next. Qed.

Lemma wp_jump ts d l s : inv ts s -> In (d, ts) l -> wp (jump d) (fun _ => after l) s.
Proof. intros. apply wp_modify. by eapply after_jump. Qed.

Lemma conform_int b m t :
  has m.(flags) MEM_Int = true -> has m.(flags) MEM_Dyn = false -> has m.(flags) MEM_Cleared = false ->
  memIsValid m = true -> (forall l, t.(t_addr) = Some l -> In (i32 m.(u)) l) -> conform b m t.
Proof. intros. split; [done|]. intros _. split_and!; auto. Qed.

(** The claim for one opcode. *)
Definition follows (o : opcode) (body : Op -> VM ()) : Prop := forall ts s op prev l,
  inv ts s -> bad s = false -> op.(opc) = o -> flow g prev op pc0 ts = Some l -> wp (body op) (fun _ => after l) s.

Lemma conform_strong b m t : conform b m t -> b = false -> strong m t.
Proof. intros (_ & Hs). exact Hs. Qed.

Lemma goto_follows : follows OP_Goto do_Goto.
Proof.
  start. unfold do_Goto, CHECK_FOR_INTERRUPT.
  wbind. wbind. apply wp_gets. destruct (isInterrupted _); [by apply wp_goto|]. apply wp_ret. eapply wp_jump; [done|by left].
Qed.

Lemma pc_i64 : is_i64 pc0.
Proof. unfold_int. lia. Qed.

(** A cell that becomes an integer in place. *)
Lemma cell_set_flag_int b m i : bytes_ok m.(z) -> is_i64 i -> cell_ok B b (set_u (set_flags m MEM_Int) i).
Proof. intros Hm Hi. by apply cell_number. Qed.

Lemma gosub_follows : follows OP_Gosub do_Gosub.
Proof.
  start. unfold do_Gosub. wreg m Hc Hf. pose proof (conform_strong _ _ _ Hf Hb) as (_ & Hd & _).
  wbind. apply wp_assert; [by rewrite Hd by done|]. wbind. apply wp_gets. rewrite (i_pc _ _ _ _ _ Hi).
  wbind. eapply (wp_set_reg _ _ _ _ _ _ _ _ _ (t_address pc0)); [done|done|apply cell_set_flag_int; [apply Hc|apply pc_i64]| |].
  { by apply conform_int; try done; intros l [= <-]; left. }
  intros s' Hi' _. eapply wp_jump; [done|by left].
Qed.

Lemma after_pc ts x l s : inv ts s -> In (x + 1, ts) l -> after l (set_pc s x).
Proof. intros Hi Hl. replace x with (x + 1 - 1) by lia. by eapply after_jump. Qed.

(** The last step: a register is written. *)
Lemma wp_last ts s i t0 m' t' l :
  inv ts s -> get ts i = Some t0 -> cell_ok B (bad s) m' -> conform (bad s) m' t' -> In (pc0 + 1, put ts i t') l ->
  wp (set_reg i m') (fun _ => after l) s.
Proof. intros Hi Ht Hm Hf Hl. eapply wp_set_reg; [done..|]. intros s' Hi' _. by eapply after_next. Qed.

Lemma get_put ts i t t0 : get ts i = Some t0 -> get (put ts i t) i = Some t.
Proof.
  intros [Hi Hl]%get_lookup. unfold get. destruct (Z.ltb_spec 0 i); [|lia]. cbn. apply list_lookup_insert_eq. by eapply lookup_lt_Some.
Qed.

Lemma get_put_ne ts i j t : i <> j -> 0 < i -> get (put ts i t) j = get ts j.
Proof. intros Hne Hi. unfold get. destruct (Z.ltb_spec 0 j); [|done]. cbn. apply list_lookup_insert_ne. lia. Qed.

Lemma get_put_some ts i t t0 j tj : get ts i = Some t0 -> get ts j = Some tj -> exists tj', get (put ts i t) j = Some tj'.
Proof.
  intros Ht Hj. destruct (Z.eq_dec i j) as [->|Hne]; [eexists; by eapply get_put|]. exists tj. rewrite get_put_ne; [done..|].
  by apply get_lookup in Ht as [? _].
Qed.

Lemma put_put ts i t t' : put (put ts i t) i t' = put ts i t'.
Proof. unfold put. cbn. by rewrite list_insert_insert_eq. Qed.

Lemma return_follows : follows OP_Return do_Return.
Proof.
  start. unfold do_Return. wvalid m Hc Hf. pose proof (conform_strong _ _ _ Hf Hb) as (Hint & _ & _ & Ha).
  wbind. apply wp_assert; [by apply Hint|]. apply wp_modify. destruct (Ha _ E1) as [_ Hl].
  eapply after_pc; [done|]. apply in_map_iff. by eexists.
Qed.

Lemma yield_follows : follows OP_Yield do_Yield.
Proof.
  start. unfold do_Yield. wvalid m Hc Hf. pose proof (conform_strong _ _ _ Hf Hb) as (_ & Hd & _ & Ha).
  wbind. apply wp_assert; [by rewrite Hd by done|]. wbind. apply wp_gets. rewrite (i_pc _ _ _ _ _ Hi). destruct (Ha _ E1) as [_ Hl].
  wbind. eapply (wp_set_reg _ _ _ _ _ _ _ _ _ (t_address pc0)); [done|done|apply cell_set_flag_int; [apply Hc|apply pc_i64]| |].
  { by apply conform_int; try done; intros l [= <-]; left. }
  intros s' Hi' _. apply wp_modify. eapply after_pc; [done|]. apply in_map_iff. by eexists.
Qed.

Lemma halt_wp op Q s :
  (match op.(p4) with P4_TEXT _ => negb (op.(p1) =? SQLITE_OK) | _ => true end) = true -> wp (do_Halt op) Q s.
Proof. intros Hp. unfold do_Halt. wbind. apply wp_modify. wbind. apply wp_assert; [done|]. by apply wp_goto. Qed.

Lemma halt_follows : follows OP_Halt do_Halt.
Proof. start. by apply halt_wp. Qed.

Lemma haltifnull_follows : follows OP_HaltIfNull do_HaltIfNull.
Proof.
  start. unfold do_HaltIfNull. wvalid m Hc Hf. destruct (has m.(flags) MEM_Null); cbn [negb]; [by apply halt_wp|]. eapply wp_next; [done|by left].
Qed.

(** ** Constants *)

Lemma conform_fresh b m f : m.(flags) = f -> memIsValid m = true -> has f MEM_Dyn = false -> has f MEM_Cleared = false -> conform b m t_new.
Proof. intros <- Hv Hd Hcl. split; [done|]. intros _. split_and!; done. Qed.

Lemma wp_out2 ts s i t Q :
  inv ts s -> get ts i = Some t ->
  (forall m s', inv (put ts i t_newint) s' -> bad s' = bad s -> m.(flags) = MEM_Int -> bytes_ok m.(z) -> is_i64 m.(u) -> Q m s') ->
  wp (out2_prerelease i) Q s.
Proof.
  intros Hi Ht HQ. unfold out2_prerelease. wreg m Hc Hf. wbind.
  eapply (wp_set_reg _ _ _ _ _ _ _ _ _ t_newint); [done|done| | |].
  - apply cell_number; try done; apply Hc.
  - by apply conform_int.
  - intros s' Hi' ->. apply wp_ret, HQ; [done..|apply Hc|apply Hc].
Qed.

(** An instruction that computes one fresh value. *)
Ltac fresh_out := match goal with E : get ?ts ?i = Some _ |- _ => wbind; eapply wp_out2; [done|exact E|] end.
Ltac fresh_last :=
  match goal with E : get ?ts ?i = Some _ |- _ =>
    eapply wp_last; [eassumption|by eapply get_put| | |rewrite put_put; by left] end.

(** Cells that are no text and no blob, by their flags. *)
Lemma cell_flags b m f : m.(flags) = f -> flags_ok f = true -> (has f MEM_Str || has f MEM_Blob) = false ->
  has f MEM_Zero = false -> bytes_ok m.(z) -> is_i64 m.(u) -> cell_ok B b m.
Proof. intros <- Hf Hd Hz Hb Hu. by apply cell_number. Qed.

Lemma conform_address b m a : m.(flags) = MEM_Int -> m.(u) = a -> conform b m (t_address a).
Proof. intros Hf <-. apply conform_int; rewrite ?Hf; try done; [unfold memIsValid; by rewrite Hf|]. intros l [= <-]. by left. Qed.

Lemma fits_i64 x : fits x = true -> is_i64 x.
Proof. by destruct (fits_spec x). Qed.

Lemma integer_follows : follows OP_Integer do_Integer.
Proof.
  start. unfold do_Integer. fresh_out. intros m s' Hi' Hb' Hf Hz Hu. fresh_last.
  - by eapply cell_flags; [exact Hf|..]; try done; apply fits_i64.
  - by apply conform_address.
Qed.

Lemma int64_follows : follows OP_Int64 do_Int64.
Proof.
  start. destruct (p4 op) as [|i| | | | | |] eqn:Ep; try done. flow_inv Hl.
  unfold do_Int64. fresh_out. intros m s' Hi' Hb' Hf Hz Hu. rewrite Ep. wbind. eapply wp_some; [done|]. fresh_last.
  - by eapply cell_flags; [exact Hf|..]; try done; apply fits_i64.
  - by apply conform_address.
Qed.

Lemma real_follows : follows OP_Real do_Real.
Proof.
  start. destruct (p4 op) as [| |x| | | | |] eqn:Ep; try done. flow_inv Hl.
  unfold do_Real. fresh_out. intros m s' Hi' Hb' Hf Hz Hu. rewrite Ep. wbind. eapply wp_some; [done|]. wbind. apply wp_assert; [done|]. fresh_last.
  - by eapply (cell_flags _ _ MEM_Real).
  - by eapply (conform_fresh _ _ MEM_Real).
Qed.

(** ** Texts *)

Lemma is_byte_ok z : forallb is_byte z = true -> bytes_ok z.
Proof.
  intros Hz. apply Forall_forall. intros c Hc%list_elem_of_In. rewrite forallb_forall in Hz. specialize (Hz c Hc).
  unfold is_byte in Hz. unfold_int. lia.
Qed.

(** A text or a blob, by its flags. *)
Lemma cell_bytes b m f : m.(flags) = f -> flags_ok f = true -> has f MEM_Zero = false -> bytes_ok m.(z) -> is_i64 m.(u) ->
  0 <= m.(n) <= g.(g_limit) -> m.(n) <= zlength m.(z) -> is_enc m.(enc) -> cell_ok B b m.
Proof.
  intros <- Hf Hz Hb Hu Hn Hl Henc. split; try done.
  - intros _. split; [unfold bound; lia|by left].
  - by rewrite Hz.
Qed.

Lemma string_follows : follows OP_String do_String.
Proof.
  start. unfold do_String. fresh_out. intros m s' Hi' Hb' Hf Hz Hu. wbind. eapply wp_some; [done|]. wbind. apply wp_gets. fresh_last.
  - apply (cell_bytes _ _ (Z.lor MEM_Str (Z.lor MEM_Static MEM_Term))); try done; cbn [z n enc].
    + by apply is_byte_ok.
    + lia.
    + unfold zlength. lia.
    + by rewrite (x_enc _ _ (i_fixed _ _ _ _ _ Hi')).
  - by eapply (conform_fresh _ _ (Z.lor MEM_Str (Z.lor MEM_Static MEM_Term))).
Qed.

Lemma bind_get {A C} (o : option A) (f : A -> option C) y : (x ← o; f x) = Some y -> exists x, o = Some x /\ f x = Some y.
Proof. destruct o as [x|]; [|done]. intros Hy. by exists x. Qed.

Lemma cell_fits_null b m c : bytes_ok m.(z) -> is_i64 m.(u) ->
  let f := if c : bool then Z.lor MEM_Null MEM_Cleared else MEM_Null in
  cell_ok B b (set_flags m f) /\ conform b (set_flags m f) (t_null c).
Proof.
  intros Hz Hu f. split.
  - by apply (cell_flags _ _ f); [done|destruct c..].
  - split; [intros _; by destruct c|]. intros _. split_and!; try done; by destruct c.
Qed.

Lemma null_loop c k : forall i ts s ts',
  inv ts s -> put_range k i (fun _ => t_null c) ts = Some ts' ->
  let f := if c : bool then Z.lor MEM_Null MEM_Cleared else MEM_Null in
  wp (for_loop k i (fun i => m ← reg i; set_reg i (set_flags m f))) (fun _ => inv ts') s.
Proof.
  induction k as [|k IH]; intros i ts s ts' Hi Hp f; cbn [put_range for_loop] in *; [by injection Hp as <-|].
  apply bind_get in Hp as (t & Ht & Hp). wbind. wreg m Hc Hf.
  destruct (cell_fits_null (bad s) m c) as [C1 C2]; [apply Hc|apply Hc|].
  eapply wp_set_reg; [done|done|exact C1|exact C2|]. intros s' Hi' _. by eapply IH.
Qed.

Lemma null_follows : follows OP_Null do_Null.
Proof.
  start. unfold do_Null. fresh_out. intros m s' Hi' Hb' Hf Hz Hu. wbind. apply wp_gets. wbind. apply wp_assert.
  { rewrite (Forall2_length _ _ _ (i_regs _ _ _ _ _ Hi')). unfold put. cbn [regs]. rewrite length_insert. done. }
  set (c := negb (p1 op =? 0)) in *.
  destruct (cell_fits_null (bad s') m c Hz Hu) as [C1 C2]. wbind.
  eapply wp_set_reg; [done|by eapply get_put|exact C1|exact C2|]. intros s2 Hi2 _. rewrite put_put in Hi2.
  eapply wp_mono; [by eapply null_loop|]. intros [] s3 Hi3. eapply after_next; [done|by left].
Qed.

Lemma setstr_blob limit m zp nb a : 0 <= nb ->
  sqlite3VdbeMemSetStr limit m (Some zp) nb 0 SQLITE_STATIC a =
  Some ((if nb >? limit then SQLITE_TOOBIG else SQLITE_OK, mkMem (Z.lor MEM_Blob MEM_Static) m.(r) m.(u) nb zp SQLITE_UTF8 false 0), a).
Proof. intros Hn. unfold sqlite3VdbeMemSetStr. destruct (Z.ltb_spec nb 0); [lia|]. reflexivity. Qed.

Lemma setstr_text limit m zp a :
  sqlite3VdbeMemSetStr limit m (Some zp) (-1) SQLITE_UTF8 SQLITE_STATIC a =
  Some ((if len8 zp limit 0 >? limit then SQLITE_TOOBIG else SQLITE_OK,
    mkMem (Z.lor (Z.lor MEM_Str MEM_Term) MEM_Static) m.(r) m.(u) (len8 zp limit 0) zp SQLITE_UTF8 false 0), a).
Proof. reflexivity. Qed.

Lemma utf8_enc : is_enc SQLITE_UTF8.
Proof. by left. Qed.

(** A blob of the program, with the encoding of the connection. *)
Lemma blob_follows : follows OP_Blob do_Blob.
Proof.
  start. unfold do_Blob. fresh_out. intros m s' Hi' Hb' Hf Hz Hu. wbind. apply wp_assert; [done|]. wbind. apply wp_gets.
  wbind. apply wp_alloc_raw. destruct (p4z op) as [zp|] eqn:Ep.
  - apply andb_true_iff in E1 as [E1 ?]. apply andb_true_iff in E1 as [E1 ?]. apply andb_true_iff in E1 as [? ?].
    unfold awp. rewrite setstr_blob by lia. wbind. apply wp_gets.
    assert (Hi2 : inv (put ts (p2 op) t_newint) (set_heap s' (heap s'))) by (by apply inv_heap). fresh_last.
    + apply (cell_bytes _ _ (Z.lor MEM_Blob MEM_Static)); try done; cbn [z n enc set_enc].
      * by apply is_byte_ok.
      * lia.
      * unfold zlength. lia.
      * cbn. by rewrite (x_enc _ _ (i_fixed _ _ _ _ _ Hi')).
    + by eapply (conform_fresh _ _ (Z.lor MEM_Blob MEM_Static)).
  - cbn [sqlite3VdbeMemSetStr]. apply awp_ret. wbind. apply wp_gets.
    assert (Hi2 : inv (put ts (p2 op) t_newint) (set_heap s' (heap s'))) by (by apply inv_heap). fresh_last.
    + apply (cell_flags _ _ MEM_Null); try done. cbn [flags set_enc sqlite3VdbeMemSetNull MemSetTypeFlag set_flags]. by rewrite Hf.
    + apply (conform_fresh _ _ MEM_Null); try done; cbn [flags set_enc sqlite3VdbeMemSetNull MemSetTypeFlag set_flags]; [by rewrite Hf|].
      unfold memIsValid. cbn [flags set_enc sqlite3VdbeMemSetNull MemSetTypeFlag set_flags]. by rewrite Hf.
Qed.

(** ** Copies *)

(** A type follows a value whose flags and integer stay. *)
Lemma conform_types b b' m m' t t' :
  conform b m t -> (b = true -> b' = true) -> CellOk.types m'.(flags) m.(flags) -> m'.(u) = m.(u) ->
  (t'.(t_nodyn) = true -> b' = false -> strong m t -> has m'.(flags) MEM_Dyn = false) ->
  implb t'.(t_valid) t.(t_valid) && implb t'.(t_int) t.(t_int) && implb t'.(t_nocleared) t.(t_nocleared) = true ->
  t'.(t_addr) = t.(t_addr) \/ t'.(t_addr) = None -> conform b' m' t'.
Proof.
  intros (Hv & Hs) Hw [Y1 Y2 Y3 Y4 Y5 Y6 Y7] Eu Hdyn Himp Ha.
  apply andb_true_iff in Himp as [Himp I3]. apply andb_true_iff in Himp as [I1 I2].
  split.
  - intros Ht. unfold memIsValid in *. rewrite Y6. apply Hv. by rewrite Ht in I1.
  - intros Hb'. destruct (Hs ltac:(destruct b; [by rewrite Hw in Hb'|done])) as (S1 & S2 & S3 & S4). split_and!.
    + intros Ht. rewrite Y3. apply S1. by rewrite Ht in I2.
    + intros Ht. by apply Hdyn.
    + intros Ht. rewrite Y7. apply S3. by rewrite Ht in I3.
    + intros l Hl. destruct Ha as [Ha|Ha]; [|by rewrite Ha in Hl]. rewrite Y3, Eu. apply S4. by rewrite <- Ha.
Qed.

Lemma variable_follows : follows OP_Variable do_Variable.
Proof.
  start. unfold do_Variable. fresh_out. intros m s' Hi' Hb' Hf Hz Hu. wbind. apply wp_gets.
  pose proof (i_fixed _ _ _ _ _ Hi') as Hx. pose proof (x_var _ _ Hx). destruct (Z.ltb_spec 0 (p1 op)); [|done].
  destruct (lookup_lt_is_Some_2 (aVar s') (Z.to_nat (p1 op - 1))) as [v Hv]; [lia|]. wbind. eapply wp_some; [exact Hv|].
  wbind. apply wp_gets. rewrite (x_limit _ _ Hx). destruct (sqlite3VdbeMemTooBig _ v) eqn:Hbig; [by apply wp_goto|].
  pose proof (x_vars _ _ Hx) as Hvs. rewrite Forall_forall in Hvs. destruct (Hvs v) as [Hc Hval]; [by eapply list_elem_of_lookup_2|].
  assert (Hc0 : cell_ok B (bad s') v).
  { apply (cell_weaken _ false); [|done]. eapply toobig_cell; [done|exact Hbig|]. unfold bound. lia. }
  destruct (shallow_ok B (bad s') v MEM_Static m.(szMalloc) Hc0 (or_introl eq_refl)) as [Hc' HY]. fresh_last; [done|].
  split; [|by intros _; split_and!]. intros _. unfold memIsValid in *. by rewrite (y_invalid _ _ HY).
Qed.

Lemma lt_get ts i t : get ts i = Some t -> 0 < i.
Proof. by intros [? _]%get_lookup. Qed.

Lemma null_conform b m : m.(flags) = MEM_Null -> conform b m (t_null false).
Proof. intros Hf. split; [intros _; unfold memIsValid; by rewrite Hf|]. intros _. split_and!; rewrite ?Hf; done. Qed.

Lemma move_loop p1 p2 k : forall i ts s ts',
  (forall j, i <= j < i + Z.of_nat k -> p2 + j <> p1 + j) ->
  inv ts s -> move_types k i p1 p2 ts = Some ts' ->
  wp (for_loop k i (fun i =>
    pOut ← reg (p2 + i);
    pIn1 ← valid_reg (p1 + i);
    let '(to, from) := sqlite3VdbeMemMove pOut pIn1 in
    _ ← set_reg (p2 + i) to;
    set_reg (p1 + i) (mkMem from.(flags) from.(r) from.(u) from.(n) from.(z) from.(enc) false pOut.(szMalloc))))
    (fun _ => inv ts') s.
Proof.
  induction k as [|k IH]; intros i ts s ts' Hne Hi Hm; cbn [move_types for_loop] in *; [by injection Hm as <-|].
  apply bind_get in Hm as (t2 & Ht2 & Hm). apply bind_get in Hm as (t1 & Ht1 & Hm). apply bind_get in Hm as (u & Hn & Hm). apply need_true in Hn.
  wbind. wreg m2 Hc2 Hf2. wvalid m1 Hc1 Hf1. cbn [sqlite3VdbeMemMove].
  wbind. eapply wp_set_reg; [done|exact Ht2|exact Hc1|exact Hf1|]. intros s1 Hi1 Es1.
  assert (Hp1 : get (put ts (p2 + i) t1) (p1 + i) = Some t1) by (rewrite get_put_ne; [done|apply Hne; lia|by eapply lt_get]).
  assert (Hb1 : bad s1 = bad s) by (by rewrite Es1).
  eapply wp_set_reg; [done|exact Hp1| | |].
  - rewrite Hb1. apply (cell_flags _ _ MEM_Null); try done; cbn; apply Hc1.
  - by apply null_conform.
  - intros s2 Hi2 _. eapply IH; [|exact Hi2|exact Hm]. intros j Hj. apply Hne. lia.
Qed.

Lemma move_follows : follows OP_Move do_Move.
Proof.
  start. unfold do_Move. wbind. apply wp_assert; [lia|]. wbind. apply wp_assert; [done|].
  eapply wp_mono; [eapply move_loop; [|done|done]; intros j Hj; lia|]. intros [] s' Hi'. eapply after_next; [done|by left].
Qed.

Lemma put_id ts i t : get ts i = Some t -> put ts i t = ts.
Proof. intros [_ Hl]%get_lookup. unfold put. rewrite list_insert_id by done. by destruct ts. Qed.

Lemma same_conform m a m' a' t : conform (mf a) m t -> outcome B same_value m a m' a' -> conform (mf a') m' t.
Proof.
  intros Hf Ho. destruct (o_rel _ _ _ _ _ _ Ho) as [[E [HA Hu]]|E].
  - eapply conform_types; [exact Hf|by rewrite E|by apply agree_types|done| |by destruct t as [[] [] ? [] ?]|by left].
    intros Ht _ (_ & Hd & _). rewrite (a_dyn _ _ HA). by apply Hd.
  - split; [|by rewrite E]. intros Ht. apply (o_valid _ _ _ _ _ _ Ho). by apply Hf.
Qed.

Lemma deephemeralize i ts s t : inv ts s -> get ts i = Some t -> wp (Deephemeralize i) (fun _ => inv ts) s.
Proof.
  intros Hi Ht. unfold Deephemeralize. wreg m Hc Hf. destruct (has m.(flags) MEM_Ephem); [|by apply wp_ret].
  wbind. eapply wp_alloc; [exact Hi|by apply makewriteable_spec|intros x a' [Ho _]; by eapply outcome_mono|].
  intros [rc m'] s1 Hi1 Ea [Ho Hrc]. cbn [fst snd] in *. wbind.
  eapply (wp_set_reg _ _ _ _ _ _ _ _ _ t); [exact Hi1|exact Ht|apply Ho|by eapply same_conform|].
  intros s2 Hi2 _. rewrite put_id in Hi2 by done. destruct (negb _); [by apply wp_goto|by apply wp_ret].
Qed.

Lemma shallow_fits b m t sz : cell_ok B b m -> conform b m t ->
  cell_ok B b (sqlite3VdbeMemShallowCopy m MEM_Ephem sz) /\ conform b (sqlite3VdbeMemShallowCopy m MEM_Ephem sz) t.
Proof.
  intros Hc Hf. destruct (shallow_ok B b m MEM_Ephem sz Hc (or_intror eq_refl)) as [Hc' HY]. split; [done|].
  eapply conform_types; [exact Hf|done|done|done| |by destruct t as [[] [] ? [] ?]|by left].
  intros Ht _ (_ & Hd & _). apply shallow_dyn; auto.
Qed.

Lemma copy_loop p1 p2 k : forall i ts s ts',
  inv ts s -> copy_types k i p1 p2 ts = Some ts' ->
  wp (for_loop k i (fun i =>
    pOut ← reg (p2 + i);
    pIn1 ← reg (p1 + i);
    _ ← set_reg (p2 + i) (sqlite3VdbeMemShallowCopy pIn1 MEM_Ephem pOut.(szMalloc));
    Deephemeralize (p2 + i))) (fun _ => inv ts') s.
Proof.
  induction k as [|k IH]; intros i ts s ts' Hi Hm; cbn [copy_types for_loop] in *; [by injection Hm as <-|].
  apply bind_get in Hm as (t2 & Ht2 & Hm). apply bind_get in Hm as (t1 & Ht1 & Hm).
  wbind. wreg m2 Hc2 Hf2. wreg m1 Hc1 Hf1. destruct (shallow_fits _ _ _ m2.(szMalloc) Hc1 Hf1) as [C1 C2].
  wbind. eapply wp_set_reg; [done|exact Ht2|exact C1|exact C2|]. intros s1 Hi1 _.
  eapply wp_mono; [eapply deephemeralize; [done|by eapply get_put]|]. intros [] s2 Hi2. by eapply IH.
Qed.

Lemma copy_follows : follows OP_Copy do_Copy.
Proof.
  start. unfold do_Copy. wbind. apply wp_assert; [done|].
  eapply wp_mono; [by eapply copy_loop|]. intros [] s' Hi'. eapply after_next; [done|by left].
Qed.

Lemma scopy_follows : follows OP_SCopy do_SCopy.
Proof.
  start. unfold do_SCopy. wvalid m1 Hc1 Hf1. wreg m2 Hc2 Hf2. wbind. apply wp_assert; [done|].
  destruct (shallow_fits _ _ _ m2.(szMalloc) Hc1 Hf1) as [C1 C2]. eapply wp_last; [done|done|exact C1|exact C2|by left].
Qed.

(** The loop over the registers of a row. *)
Lemma row_loop k : forall i ts s,
  inv ts s -> all_valid k i ts = true ->
  wp (for_loop k i (fun i =>
      _ ← valid_reg i;
      _ ← Deephemeralize i;
      m ← reg i;
      '(_, m) ← alloc_call (NulTerminate m);
      set_reg i m)) (fun _ => inv ts) s.
Proof.
  induction k as [|k IH]; intros i ts s Hi Hv; cbn [all_valid for_loop] in *; [done|].
  destruct (get ts i) as [t|] eqn:Ht; [|done]. apply andb_true_iff in Hv as [Hv1 Hv2].
  wbind. wvalid m Hc Hf. wbind. eapply wp_mono; [by eapply deephemeralize|]. intros [] s1 Hi1.
  wreg m1 Hc1 Hf1. wbind. eapply wp_alloc; [exact Hi1|by apply nulterminate_spec|intros x a' [Ho _]; by eapply outcome_mono|].
  intros [rc m'] s2 Hi2 Ea [Ho Hrc]. cbn [fst snd] in *.
  eapply (wp_set_reg _ _ _ _ _ _ _ _ _ t); [exact Hi2|exact Ht|apply Ho|by eapply same_conform|].
  intros s3 Hi3 _. rewrite put_id in Hi3 by done. by apply IH.
Qed.

(** The row is handed out in a state from which the program can go on. *)
Lemma resultrow_wp ts s op Q :
  inv ts s -> (g.(g_res) =? op.(p2)) && (op.(p1) >? 0) && all_valid (Z.to_nat op.(p2)) op.(p1) ts = true ->
  (forall s', VdbeSafe.inv g prog (pc0 + 1) (no_perm ts) (set_compare s' 0 None) -> row s') ->
  wp (do_ResultRow op) Q s.
Proof.
  intros Hi Hn Hrow. apply andb_true_iff in Hn as [Hn Hv]. unfold do_ResultRow. wbind. apply wp_gets.
  rewrite (x_res _ _ (i_fixed _ _ _ _ _ Hi)). wbind. apply wp_assert; [done|]. wbind. wbind. apply wp_gets.
  destruct (0 <? nFkConstraint s).
  { wbind. apply wp_modify. apply wp_ret. cbn [negb Z.eqb SQLITE_ERROR SQLITE_OK]. by apply wp_goto. }
  apply wp_ret. cbn [negb Z.eqb SQLITE_OK]. wbind. apply wp_modify. wbind.
  eapply wp_mono; [apply row_loop; [|exact Hv]|].
  { destruct Hi as [Hr Hp Ho Hc Hx]. split; try done. by destruct Hx. }
  intros [] s1 Hi1. wbind. apply wp_gets. destruct (mf (heap s1)); [by apply wp_goto|].
  wbind. apply wp_modify. intros _. apply Hrow. destruct Hi1 as [Hr Hp Ho Hc Hx].
  split; try done; cbn; [by rewrite Hc|by destruct Hx].
Qed.

(** ** Concatenation *)

Definition cell_at (P : Mem -> Prop) (i : Z) (s : Vdbe) : Prop := exists m, s.(aMem) !! Z.to_nat i = Some m /\ P m.

Lemma cell_at_insert (P : Mem -> Prop) i j s s' m : s'.(aMem) = <[Z.to_nat i := m]> s.(aMem) -> P m -> cell_at P j s -> cell_at P j s'.
Proof.
  intros Es Hm (m0 & Hj & Hm0). unfold cell_at. rewrite Es. destruct (decide (Z.to_nat i = Z.to_nat j)) as [Heq|Hne].
  - rewrite Heq, list_lookup_insert_eq; [by eexists|by eapply lookup_lt_Some].
  - rewrite list_lookup_insert_ne; [by eexists|done].
Qed.

(** A value that has a text: it is not NULL. *)
Definition textual (m : Mem) : Prop := is_data m = true \/ memIsValid m = true /\ has m.(flags) MEM_Null = false.

Lemma same_textual m m' : same_value m m' -> textual m -> textual m'.
Proof.
  intros [[A1 A2 A3 A4 A5 A6 A7 A8] _]. unfold textual, is_data, memIsValid. by rewrite A1, A2, A5, A6.
Qed.

Lemma expand_rule i ts s t :
  inv ts s -> get ts i = Some t ->
  wp (expand_reg i) (fun rc s' => inv ts s' /\ (rc <> SQLITE_OK -> bad s' = true) /\
    (rc = SQLITE_OK -> bad s' = bad s /\ forall j P, (forall m m', same_value m m' -> P m -> P m') -> cell_at P j s -> cell_at P j s')) s.
Proof.
  intros Hi Ht. unfold expand_reg. wreg m Hc Hf. destruct (has m.(flags) MEM_Zero); [|by apply wp_ret].
  wbind. eapply wp_alloc; [exact Hi|by apply expand_spec|intros x a' [[Ho _] _]; by eapply outcome_mono|].
  intros [rc m'] s1 Hi1 Ea ([Ho Hrc] & _ & Hok). cbn [fst snd] in *. wbind.
  eapply (wp_set_reg _ _ _ _ _ _ _ _ _ t); [exact Hi1|exact Ht|apply Ho|by eapply same_conform|].
  intros s2 Hi2 Es2. rewrite put_id in Hi2 by done. apply wp_ret. rewrite Es2. split; [by rewrite Es2 in Hi2|]. split; [done|].
  intros Hr. destruct (Hok Hr) as [Hb Hs]. split; [done|]. intros j P HP Hj.
  destruct (decide (Z.to_nat i = Z.to_nat j)) as [Heq|Hne].
  - destruct Hj as (m0 & Hj & Hm0). exists m'. cbn. rewrite Heq, Ea, list_lookup_insert_eq by (by eapply lookup_lt_Some).
    split; [done|]. eapply HP; [exact Hs|]. congruence.
  - destruct Hj as (m0 & Hj & Hm0). exists m0. cbn. by rewrite Ea, list_lookup_insert_ne.
Qed.

Lemma stringified_conform m a m' a' t :
  conform (mf a) m t -> outcome B stringified m a m' a' -> conform (mf a') m' (t_compared t).
Proof.
  intros Hf Ho. destruct (o_rel _ _ _ _ _ _ Ho) as [[E HS]|E].
  - destruct Hf as [Hv Hs]. destruct HS as [Y1 Y2 Y3 Y4 Y5 Y6 Y7 Y8]. split.
    + intros Ht. unfold memIsValid in *. rewrite Y6. by apply Hv.
    + rewrite E. intros Hb. destruct (Hs Hb) as (S1 & S2 & S3 & S4). split_and!; cbn; try done.
      * intros Ht. rewrite Y3. by apply S1.
      * intros Ht. rewrite Y7. by apply S3.
  - split; [|by rewrite E]. intros Ht. apply (o_valid _ _ _ _ _ _ Ho). by apply Hf.
Qed.

Lemma forget_conform b m t : conform b m t -> conform b m (t_compared t).
Proof. intros [Hv Hs]. split; [done|]. intros Hb. destruct (Hs Hb) as (S1 & S2 & S3 & S4). by split_and!. Qed.

Lemma put_conform ts s i t t' :
  inv ts s -> get ts i = Some t -> (forall m, conform (bad s) m t -> conform (bad s) m t') -> inv (put ts i t') s.
Proof.
  intros Hi Ht Hf. destruct (inv_lookup _ _ _ _ _ _ _ Hi Ht) as (m & Hm & Hc & Hcf). destruct (get_lookup _ _ _ Ht) as [_ Hl].
  destruct Hi as [Hr Hp Ho Hpc' Hx]. split; try done. cbn. rewrite <- (list_insert_id s.(aMem) (Z.to_nat i) m) by done.
  apply Forall2_insert; [done|]. split; [done|by apply Hf].
Qed.

(** Numbers that are neither NULL nor invalid have a text. *)
Lemma textual_number b m : cell_ok B b m -> textual m -> is_data m = false -> has m.(flags) (Z.lor MEM_Int MEM_Real) = true.
Proof. intros Hc [Hd|[Hv Hn]] Hd'; [congruence|]. flag_bits. Qed.

Lemma stringify_rule i ts s t :
  inv ts s -> get ts i = Some t -> cell_at textual i s ->
  wp (stringify_reg i) (fun _ s' => inv (put ts i (t_compared t)) s' /\
    (forall j, cell_at textual j s -> cell_at textual j s') /\ cell_at (fun m => is_data m = true) i s' /\
    (forall j, cell_at (fun m => is_data m = true) j s -> cell_at (fun m => is_data m = true) j s')) s.
Proof.
  intros Hi Ht Htext. unfold stringify_reg. wbind. eapply wp_reg; [done|done|]. intros m Hm Hc Hf.
  assert (textual m) as Htm by (destruct Htext as (m0 & Hm0 & ?); congruence).
  wbind. apply wp_gets. rewrite has_mask. fold (is_data m). destruct (is_data m) eqn:Hd; cbn [negb].
  { apply wp_ret. split; [eapply put_conform; [done|done|intros; by apply forget_conform]|]. split; [done|]. split; [by exists m|done]. }
  assert (Hn := textual_number _ _ Hc Htm Hd). wbind. apply wp_assert; [done|]. rewrite (x_enc _ _ (i_fixed _ _ _ _ _ Hi)).
  wbind. eapply wp_alloc; [exact Hi|apply stringify_spec; [apply bound_range|exact He|done|done|done]|intros x a' [[Ho _] _]; by eapply outcome_mono|].
  intros [rc m'] s1 Hi1 Ea ([Ho Hrc] & Hk & _). cbn [fst snd] in *. wbind.
  eapply (wp_set_reg _ _ _ _ _ _ _ _ _ (t_compared t)); [exact Hi1|exact Ht|apply Ho|by eapply stringified_conform|].
  intros s2 Hi2 Es2. destruct (rc =? SQLITE_OK); cbn [negb]; [|by apply wp_goto]. apply wp_ret.
  assert (Hd' : is_data m' = true) by (unfold is_data; by rewrite Hk).
  assert (Em : aMem s2 = <[Z.to_nat i := m']> (aMem s)) by (rewrite Es2; cbn; by rewrite Ea).
  split; [done|]. split_and!.
  - intros j. eapply cell_at_insert; [exact Em|by left].
  - exists m'. rewrite Em, list_lookup_insert_eq; [done|by eapply lookup_lt_Some].
  - intros j. eapply cell_at_insert; [exact Em|done].
Qed.

Lemma cell_data b m : cell_ok B b m -> is_data m = true -> 0 <= m.(n) <= B /\ (b = false -> m.(n) <= zlength m.(z)).
Proof. intros Hc Hd. destruct (c_data _ _ _ Hc Hd) as [? [?|?]]; (split; [done|]); [done|congruence]. Qed.

(** The cell that holds the concatenation. *)
Lemma concat_cell b p e f m1 m2 :
  is_i64 p.(u) -> p.(flags) = f -> has f MEM_Str = true -> has f MEM_Zero = false -> has f MEM_Null = false ->
  cell_ok B b m1 -> cell_ok B b m2 -> is_data m1 = true -> is_data m2 = true -> is_enc e -> m1.(n) + m2.(n) <= g.(g_limit) ->
  cell_ok B b (mkMem (Z.lor f MEM_Term) p.(r) p.(u) (m1.(n) + m2.(n)) (content m2 ++ content m1 ++ [0; 0]) e p.(own) p.(szMalloc)).
Proof.
  intros Hp <- Hs Hz Hn H1 H2 D1 D2 Henc Hl.
  destruct (cell_data _ _ H1 D1) as [N1 L1], (cell_data _ _ H2 D2) as [N2 L2]. split; cbn [flags z n u enc]; try done.
  - clear -Hs Hz Hn. revert Hs Hz Hn. unfold flags_ok. bits.
  - rewrite !bytes_ok_app. split_and!; [apply Forall_take, H2|apply Forall_take, H1|repeat constructor; unfold_int; lia].
  - intros _. split; cbn [n z]; [unfold bound; lia|]. destruct b; [by right|left]. specialize (L1 eq_refl). specialize (L2 eq_refl).
    unfold zlength, content in *. rewrite !length_app, !length_take. lia.
  - cbn [flags]. revert Hz. bits_norm. rewrite orb_false_r. congruence.
Qed.

Lemma set_range ts s i t : inv ts s -> get ts i = Some t -> (0 <? i) && bool_decide (Z.to_nat i < length s.(aMem))%nat = true.
Proof.
  intros Hi [H1 H2]%get_lookup. rewrite (Forall2_length _ _ _ (i_regs _ _ _ _ _ Hi)). apply lookup_lt_Some in H2.
  apply andb_true_iff. split; [lia|]. by apply bool_decide_true.
Qed.

Lemma wp_set_raw i m Q s :
  (0 <? i) && bool_decide (Z.to_nat i < length s.(aMem))%nat = true -> Q () (set_aMem s (<[Z.to_nat i := m]> s.(aMem))) ->
  wp (set_reg i m) Q s.
Proof. intros Hr HQ. unfold VdbeSafe.wp, set_reg. by rewrite Hr. Qed.


(** The registers that are compared or concatenated, as types. *)
Lemma two_compared ts s i j ti tj tj' :
  inv ts s -> get ts i = Some ti -> get ts j = Some tj -> get (put ts i (t_compared ti)) j = Some tj' ->
  inv (put (put ts i (t_compared ti)) j (t_compared tj')) s.
Proof.
  intros Hi Ei Ej Ej'. eapply put_conform; [|exact Ej'|intros; by apply forget_conform].
  eapply put_conform; [done|exact Ei|intros; by apply forget_conform].
Qed.

(** From the test of the length on. *)
Lemma concat_tail ts s op t3 t1 t2 l :
  inv ts s -> get ts op.(p1) = Some t1 -> get ts op.(p2) = Some t2 -> get ts op.(p3) = Some t3 ->
  cell_at (fun m => is_data m = true) op.(p1) s -> cell_at (fun m => is_data m = true) op.(p2) s ->
  In (pc0 + 1, put ts op.(p3) (mkRt true false false true None)) l ->
  wp (pIn1 ← reg op.(p1);
      pIn2 ← reg op.(p2);
      let nByte := i32 (pIn1.(n) + pIn2.(n)) in
      limit ← gets (fun s => s.(db).(iLimit));
      if nByte >? limit then goto too_big
      else
        pOut ← reg op.(p3);
        '(rc, pOut) ← alloc_call (grow (MemSetTypeFlag pOut MEM_Str) (nByte + 2) (op.(p3) =? op.(p2)));
        _ ← set_reg op.(p3) pOut;
        if negb (rc =? SQLITE_OK) then goto no_mem
        else
          e ← db_encoding;
          set_reg op.(p3)
            (mkMem (Z.lor pOut.(flags) MEM_Term) pOut.(r) pOut.(u) nByte
               (content pIn2 ++ content pIn1 ++ [0; 0]) e pOut.(own) pOut.(szMalloc)))
    (fun _ => after l) s.
Proof.
  intros Hi E1 E2 E3 (m1 & L1 & D1) (m2 & L2 & D2) Hl.
  wbind. eapply wp_reg; [exact Hi|exact E1|]. intros m1' L1' Hc1 _. assert (m1' = m1) as -> by congruence.
  wbind. eapply wp_reg; [exact Hi|exact E2|]. intros m2' L2' Hc2 _. assert (m2' = m2) as -> by congruence. cbv zeta.
  wbind. apply wp_gets. rewrite (x_limit _ _ (i_fixed _ _ _ _ _ Hi)).
  destruct (cell_data _ _ Hc1 D1) as [N1 _], (cell_data _ _ Hc2 D2) as [N2 _]. pose proof bound_range.
  rewrite (wrap_s_small 32 (n m1 + n m2)) by (unfold in_s; lia).
  destruct (Z.gtb_spec (n m1 + n m2) g.(g_limit)); [by apply wp_goto|].
  wreg m3 Hc3 Hf3. set (x := MemSetTypeFlag m3 MEM_Str).
  wbind. eapply wp_alloc; [exact Hi|apply grow_spec|intros y a' [(_ & ? & _)|(_ & ? & _)] ?; congruence|].
  intros [rc m'] s1 Hi1 Ea Hg. cbn [fst snd] in Hg. wbind. apply wp_set_raw; [by eapply set_range|].
  destruct Hg as [(-> & _)|(-> & Hb & Hf & Hu & _ & _ & Hz)]; cbn [negb Z.eqb SQLITE_NOMEM SQLITE_OK]; [by apply wp_goto|].
  wbind. apply wp_gets. cbn [db set_aMem]. rewrite (x_enc _ _ (i_fixed _ _ _ _ _ Hi1)).
  apply wp_set_raw; [cbn; rewrite length_insert; by eapply set_range|].
  cbn [aMem set_aMem]. rewrite list_insert_insert_eq.
  match goal with |- after l (set_aMem (set_aMem ?s0 _) ?b) => change (after l (set_aMem s0 b)) end.
  match goal with |- after l (set_aMem _ (<[_:=?c]> _)) => set (c3 := c) end.
  assert (Hflags : has m'.(flags) MEM_Str = true /\ has m'.(flags) MEM_Zero = false /\ has m'.(flags) MEM_Null = false /\
    has m'.(flags) MEM_Cleared = false /\ has m'.(flags) MEM_Invalid = false).
  { rewrite Hf. unfold x, MemSetTypeFlag. cbn [flags set_flags]. clear. split_and!; bits. }
  destruct Hflags as (F1 & F2 & F3 & F4 & F5).
  eapply after_next; [|exact Hl]. eapply inv_put; [exact Hi1|exact E3| |].
  - apply (concat_cell _ m' _ m'.(flags)); try done; rewrite ?Hb; try done. rewrite Hu. apply Hc3.
  - unfold c3. split; [intros _; unfold memIsValid; cbn [flags]; clear -F5; revert F5; bits|].
    intros _. split_and!; try done. intros _. cbn [flags]. clear -F4. revert F4. bits.
Qed.

Lemma concat_follows : follows OP_Concat do_Concat.
Proof.
  start. unfold do_Concat.
  wbind. wbind. eapply wp_reg; [done|exact E|]. intros m1 L1 Hc1 Hf1. apply wp_bind, wp_assert; [by apply Hf1|]. apply wp_ret.
  wbind. wbind. eapply wp_reg; [done|exact E0|]. intros m2 L2 Hc2 Hf2. apply wp_bind, wp_assert; [by apply Hf2|]. apply wp_ret.
  wbind. eapply wp_reg; [done|exact E1|]. intros m3 L3 Hc3 Hf3. wbind. apply wp_assert; [done|].
  destruct (get_put_some _ _ (t_compared r) _ _ _ E E1) as [t3' G3].
  destruct (get_put_some _ _ (t_compared r2) _ _ _ E3 G3) as [t3 G3'].
  destruct (has (Z.lor _ _) MEM_Null) eqn:Hnull.
  { pose proof (two_compared _ _ _ _ _ _ _ Hi E E0 E3) as Hi2. eapply wp_last; [exact Hi2|exact G3'| | |by left].
    - apply cell_null; apply Hc3.
    - unfold sqlite3VdbeMemSetNull, MemSetTypeFlag. split; [intros _; unfold memIsValid; cbn [flags set_flags]; clear; bits|].
      intros _. split_and!; try done. intros _. cbn [flags set_flags]. clear. bits. }
  rewrite has_lor in Hnull. apply orb_false_iff in Hnull as [Hn1 Hn2].
  assert (T1 : cell_at textual (p1 op) s) by (exists m1; split; [done|right; split; [by apply Hf1|done]]).
  assert (T2 : cell_at textual (p2 op) s) by (exists m2; split; [done|right; split; [by apply Hf2|done]]).
  wbind. eapply wp_mono; [by eapply expand_rule|]. intros rc1 s1 (Hi1 & Hbad1 & Hok1). wbind.
  destruct (Z.eqb_spec rc1 SQLITE_OK) as [->|Hne1]; cbn [negb].
  2: { apply wp_ret. destruct (Z.eqb_spec rc1 SQLITE_OK); [done|]. by apply wp_goto. }
  destruct (Hok1 eq_refl) as [Hb1 Hk1]. pose proof (Hk1 _ _ same_textual T1) as T1'. pose proof (Hk1 _ _ same_textual T2) as T2'.
  eapply wp_mono; [by eapply expand_rule|]. intros rc2 s2 (Hi2 & Hbad2 & Hok2).
  destruct (Z.eqb_spec rc2 SQLITE_OK) as [->|Hne2]; cbn [negb]; [|by apply wp_goto].
  destruct (Hok2 eq_refl) as [Hb2 Hk2]. pose proof (Hk2 _ _ same_textual T1') as T1''. pose proof (Hk2 _ _ same_textual T2') as T2''.
  wbind. eapply wp_mono; [by eapply stringify_rule|]. intros _ s3 (Hi3 & Hk3 & D1 & Hd3).
  wbind. eapply wp_mono; [by eapply stringify_rule; [|exact E3|apply Hk3]|]. intros _ s4 (Hi4 & Hk4 & D2 & Hd4).
  destruct (get_put_some _ _ (t_compared r2) _ _ _ E3 (get_put _ _ (t_compared r) _ E)) as [t1' G1].
  eapply concat_tail; [exact Hi4|exact G1|by eapply get_put|exact G3'|by apply Hd4|exact D2|by left].
Qed.

Lemma wp_last_bad ts s i t m l : inv ts s -> get ts i = Some t -> bad s = true -> wp (set_reg i m) (fun _ => after l) s.
Proof. intros Hi Ht Hb. apply wp_set_raw; [by eapply set_range|by left]. Qed.
End Ops.
