(* ===== verification/VdbeCalc.v ===== *)
(** * The instructions follow their types: values

    The rest of the instructions: arithmetic, functions, conversions,
    comparisons, logic and jumps. *)

From S2P Require Import Prelude Ctype Ints Utf Printf PrintfSpec Quote AlterSpec Mem Serial Real Value Vdbe VdbeExec CellOk CellKeep VdbeType VdbeSafe VdbeOps.

(** The cases of the switch with several opcodes. *)
Ltac regroup o Hop Ho Hl :=
  match type of Hl with flow ?g ?prev ?op ?pc ?ts = _ =>
    let E := fresh in
    assert (E : flow g prev op pc ts = flow g prev (mkOp o op.(p1) op.(p2) op.(p3) op.(p4) op.(p5)) pc ts)
      by (unfold flow; rewrite Ho; destruct_or! Hop; by subst);
    rewrite E in Hl; clear E; unfold flow in Hl; cbn [opc p1 p2 p3 p4 p5] in Hl; flow_inv Hl
  end.

Section Calc.
Context `{FloatTextOk}.
Variable (g : config).
Hypothesis (He : is_enc g.(g_enc)) (Hlimit : 0 <= g.(g_limit) <= 1000000000).
Variables (row : Vdbe -> Prop) (prog : list Op) (pc0 : Z).
Hypothesis (Hpc : 0 <= pc0 < 2 ^ 31).
Abbreviation inv := (inv g prog pc0).
Abbreviation wp := (wp row).
Abbreviation B := (bound g).
Abbreviation after := (after g prog).
Abbreviation follows := (follows g row prog pc0).

(** ** Results *)

(** The type of what is written over the type bits of a cell. *)
Lemma out_conform b m m' t f :
  conform b m t -> m'.(flags) = Z.lor (Z.land m.(flags) (Z.lnot (Z.lor MEM_TypeMask MEM_Zero))) f ->
  f = MEM_Null \/ f = MEM_Int \/ f = MEM_Real -> conform b m' (t_out t).
Proof.
  intros [_ Hs] Ef Hf. split.
  - intros _. unfold memIsValid. rewrite Ef. destruct Hf as [-> |[-> | ->]]; clear; bits.
  - intros Hb. destruct (Hs Hb) as (_ & Hd & _). split_and!; cbn; try done.
    + intros Ht. specialize (Hd Ht). rewrite Ef. destruct Hf as [-> |[-> | ->]]; clear -Hd; revert Hd; bits.
    + intros _. rewrite Ef. destruct Hf as [-> |[-> | ->]]; clear; bits.
Qed.

Lemma outint_conform b m m' t :
  conform b m t -> m'.(flags) = Z.lor (Z.land m.(flags) (Z.lnot (Z.lor MEM_TypeMask MEM_Zero))) MEM_Int -> conform b m' (t_outint t).
Proof.
  intros Hf Ef. destruct (out_conform _ _ _ _ _ Hf Ef (or_intror (or_introl eq_refl))) as [Hv Hs]. split; [done|].
  intros Hb. destruct (Hs Hb) as (_ & S2 & S3 & _). split_and!; try done. intros _. rewrite Ef. clear. bits.
Qed.

Lemma null_out b m t : cell_ok B b m -> conform b m t ->
  cell_ok B b (sqlite3VdbeMemSetNull m) /\ conform b (sqlite3VdbeMemSetNull m) (t_out t).
Proof. intros Hc Hf. split; [apply cell_null; apply Hc|]. eapply out_conform; [done|reflexivity|by left]. Qed.

Lemma int_out b m t i : cell_ok B b m -> conform b m t -> is_i64 i ->
  cell_ok B b (MemSetTypeFlag (set_u m i) MEM_Int) /\ conform b (MemSetTypeFlag (set_u m i) MEM_Int) (t_out t).
Proof. intros Hc Hf Hi. split; [apply cell_int; [apply Hc|done]|]. eapply out_conform; [done|reflexivity|auto]. Qed.

Lemma real_out b m t x : cell_ok B b m -> conform b m t ->
  cell_ok B b (MemSetTypeFlag (set_r m x) MEM_Real) /\ conform b (MemSetTypeFlag (set_r m x) MEM_Real) (t_out t).
Proof. intros Hc Hf. split; [apply cell_real; apply Hc|]. eapply out_conform; [done|reflexivity|auto]. Qed.

(** ** Arithmetic *)

Lemma numeric_int m : has m.(flags) MEM_Int = true -> applyNumericAffinity m = m.
Proof. intros Hi. unfold applyNumericAffinity. by rewrite has_mask, Hi, orb_true_r. Qed.

Lemma numeric_conform b m t : conform b m t -> conform b (applyNumericAffinity m) t.
Proof.
  intros [Hv Hs]. destruct (affined_numeric m) as [[A1 A2 A3 A4] HD]. split.
  - intros Ht. unfold memIsValid in *. rewrite A4. by apply Hv.
  - intros Hb. destruct (Hs Hb) as (S1 & S2 & S3 & S4). split_and!.
    + intros Ht. rewrite numeric_int; auto.
    + intros Ht. rewrite HD. auto.
    + intros Ht. rewrite A3. auto.
    + intros l Hl. destruct (S4 l Hl) as [Hi ?]. by rewrite numeric_int.
Qed.

Lemma numeric_rule i ts s t :
  inv ts s -> get ts i = Some t -> wp (numeric_reg i) (fun _ => inv ts) s.
Proof.
  intros Hi Ht. unfold numeric_reg. wreg m Hc Hf.
  eapply (wp_set_reg _ _ _ _ _ _ _ _ _ t); [done|done|by apply cell_numeric|by apply numeric_conform|].
  intros s' Hi' _. by rewrite put_id in Hi' by done.
Qed.

Lemma add_range a b : (sqlite3AddInt64 a b).1 = 0 -> is_i64 (sqlite3AddInt64 a b).2.
Proof.
  unfold sqlite3AddInt64. destruct (b >=? 0); destruct (_ && _); intros Hr; try done; apply wrap64_i64.
Qed.

Lemma int_math_range op a b i : is_i64 a -> is_i64 b -> int_math op a b = Some (inl i) -> is_i64 i.
Proof.
  intros Ha Hb. unfold int_math.
  assert (Hchk : forall r : Z * Z, (r.1 = 0 -> is_i64 r.2) -> Some (if negb (r.1 =? 0) then inr () else inl r.2) = Some (inl i) -> is_i64 i).
  { intros r Hr. destruct (Z.eqb_spec r.1 0); cbn [negb]; [intros [= <-]; auto|done]. }
  assert (Hrem : (if a =? 0 then None else Some (inl (Z.rem b (if a =? -1 then 1 else a)))) = Some (inl i : Z + ()) -> is_i64 i).
  { destruct (Z.eqb_spec a 0) as [|Hz]; [done|]. intros [= <-].
    pose proof (Z.rem_bound_abs b (if a =? -1 then 1 else a)) as Hr. destruct (a =? -1); unfold_int; lia. }
  destruct op; try exact Hrem.
  - apply Hchk. apply add_range.
  - apply Hchk. unfold sqlite3SubInt64. destruct (a =? SMALLEST_INT64); [destruct (b >=? 0); [done|intros _; apply wrap64_i64]|apply add_range].
  - apply Hchk. unfold sqlite3MulInt64. destruct (negb (i64 _ =? 0)); [done|]. destruct (_ || _); [done|].
    pose proof (add_range (i64 (i64 (i64 (Z.quot b TWOPOWER32 * Z.rem a TWOPOWER32) + i64 (Z.rem b TWOPOWER32 * Z.quot a TWOPOWER32)) * TWOPOWER32))
      (i64 (Z.rem b TWOPOWER32 * Z.rem a TWOPOWER32))) as Hadd.
    cbv zeta. destruct (sqlite3AddInt64 _ _) as [rc r]. cbn [fst snd] in Hadd. destruct (Z.eqb_spec rc 0); cbn [negb]; [by auto|done].
  - destruct (Z.eqb_spec a 0) as [|Hz]; [done|]. destruct (Z.eqb_spec a (-1)) as [->|Hm1]; cbn [andb].
    + destruct (Z.eqb_spec b SMALLEST_INT64) as [|Hs]; [done|]. intros [= <-]. change (-1) with (- (1)). rewrite Z.quot_opp_r, Z.quot_1_r by lia.
      rewrite smallest_int64 in Hs. unfold_int. lia.
    + intros [= <-]. pose proof (Z.quot_abs b a Hz) as Hq.
      assert (Z.abs b ÷ Z.abs a <= Z.abs b) by (apply Z.quot_le_upper_bound; nia).
      assert (a = 1 \/ 2 <= Z.abs a) as [->|H2] by lia; [rewrite Z.quot_1_r; done|].
      assert (Z.abs b ÷ Z.abs a <= Z.abs b / 2).
      { rewrite Z.quot_div_nonneg by lia. apply Z.div_le_compat_l; lia. }
      assert (Z.abs b / 2 < Z.abs b \/ Z.abs b = 0) by (destruct (Z.eq_dec (Z.abs b) 0); [lia|left; apply Z.div_lt; lia]).
      unfold_int. lia.
Qed.

Lemma arith_fits b op m1 m2 m t : cell_ok B b m1 -> cell_ok B b m2 -> cell_ok B b m -> conform b m t ->
  cell_ok B b (arith_result op m1 m2 m) /\ conform b (arith_result op m1 m2 m) (t_out t).
Proof.
  intros H1 H2 Hc Hf. unfold arith_result. destruct (has (Z.lor _ _) MEM_Null); [by apply null_out|].
  destruct (if has (Z.land _ _) MEM_Int then _ else _) as [[i|]|] eqn:E; [|clear E|by apply null_out].
  - apply int_out; [done|done|]. destruct (has (Z.land _ _) MEM_Int); [|done].
    eapply int_math_range; [apply H1|apply H2|exact E].
  - destruct (fp_math op _ _) as [x|]; [|by apply null_out]. destruct (sqlite3IsNaN x); [by apply null_out|].
    destruct (real_out b m t x Hc Hf) as [C1 C2]. destruct (negb _ && negb _); [|done].
    destruct (affined_integer (MemSetTypeFlag (set_r m x) MEM_Real)) as [[A1 A2 A3 A4] HD].
    split; [apply cell_integer_affinity; [done|clear; unfold MemSetTypeFlag; cbn [flags set_flags]; bits]|].
    destruct C2 as [Cv Cs]. split.
    + intros Ht. unfold memIsValid. rewrite A4. by apply Cv.
    + intros Hb. destruct (Cs Hb) as (S1 & S2 & S3 & S4). split_and!; try done; [intros Ht; rewrite HD; auto|intros Ht; rewrite A3; auto].
Qed.

Definition is_arith (o : opcode) : Prop := o = OP_Add \/ o = OP_Subtract \/ o = OP_Multiply \/ o = OP_Divide \/ o = OP_Remainder.

Lemma arith_follows o : is_arith o -> follows o do_Arith.
Proof.
  intros Hop ts s op prev l Hi Hb Ho Hl. unfold is_arith in Hop. regroup OP_Add Hop Ho Hl. unfold do_Arith.
  wvalid m1 Hc1 Hf1. wvalid m2 Hc2 Hf2. wbind. eapply wp_mono; [by eapply (numeric_rule (p1 op))|]. intros [] s1 Hi1.
  wbind. eapply wp_mono; [by eapply (numeric_rule (p2 op))|]. intros [] s2 Hi2.
  wreg n1 Hd1 Hg1. wreg n2 Hd2 Hg2. wreg n3 Hd3 Hg3.
  destruct (arith_fits _ (opc op) _ _ _ _ Hd1 Hd2 Hd3 Hg3) as [C1 C2].
  eapply wp_last; [done|done|exact C1|exact C2|by left].
Qed.

Definition is_bits (o : opcode) : Prop := o = OP_BitAnd \/ o = OP_BitOr \/ o = OP_ShiftLeft \/ o = OP_ShiftRight.

Lemma shift_range op a b : is_i64 a -> is_i64 (shift_value op a b).
Proof.
  intros Ha. unfold shift_value. destruct (b =? 0); [done|]. cbv zeta.
  destruct (if b <? 0 then _ else _) as [lf k]. destruct (k >=? 64); [|apply wrap64_i64].
  destruct (_ || _); unfold_int; lia.
Qed.

Lemma i64_sign x : is_i64 x <-> Z.shiftr x 63 = 0 \/ Z.shiftr x 63 = -1.
Proof. rewrite Z.shiftr_div_pow2 by lia. change (2 ^ 63) with 9223372036854775808. split; zlia. Qed.

Lemma bit_range op a b : is_i64 a -> is_i64 b -> is_i64 (bit_value op a b).
Proof.
  intros Ha Hb. unfold bit_value. destruct op; try by apply shift_range.
  - rewrite i64_sign in *. rewrite Z.shiftr_land. destruct Ha as [-> | ->], Hb as [-> | ->]; auto.
  - rewrite i64_sign in *. rewrite Z.shiftr_lor. destruct Ha as [-> | ->], Hb as [-> | ->]; auto.
Qed.

Lemma bits_follows o : is_bits o -> follows o do_Bits.
Proof.
  intros Hop ts s op prev l Hi Hb Ho Hl. unfold is_bits in Hop. regroup OP_Add Hop Ho Hl. unfold do_Bits.
  wvalid m1 Hc1 Hf1. wvalid m2 Hc2 Hf2. wreg m3 Hc3 Hf3. destruct (has (Z.lor _ _) MEM_Null).
  - destruct (null_out _ _ _ Hc3 Hf3) as [C1 C2]. eapply wp_last; [done|done|exact C1|exact C2|by left].
  - destruct (int_out _ m3 _ (bit_value (opc op) (sqlite3VdbeIntValue m2) (sqlite3VdbeIntValue m1)) Hc3 Hf3) as [C1 C2];
      [apply bit_range; by eapply cell_value_range|]. eapply wp_last; [done|done|exact C1|exact C2|by left].
Qed.

Definition is_logic (o : opcode) : Prop := o = OP_And \/ o = OP_Or.

Lemma at_forall (P : Z -> Prop) l k : P 0 -> Forall P l -> P (at_ l k).
Proof. intros H1 Hl. unfold at_. apply (Forall_drop _ k) in Hl. by destruct Hl. Qed.

Lemma logic_follows o : is_logic o -> follows o do_Logic.
Proof.
  intros Hop ts s op prev l Hi Hb Ho Hl. unfold is_logic in Hop. regroup OP_Add Hop Ho Hl. unfold do_Logic.
  wvalid m1 Hc1 Hf1. wvalid m2 Hc2 Hf2. wreg m3 Hc3 Hf3. set (v := at_ _ _).
  assert (Hv : is_i64 v).
  { unfold v. destruct (decide _); apply at_forall; try (unfold_int; lia); repeat constructor; unfold_int; lia. }
  destruct (v =? 2).
  - destruct (null_out _ _ _ Hc3 Hf3) as [C1 C2]. eapply wp_last; [done|done|exact C1|exact C2|by left].
  - destruct (int_out _ m3 _ v Hc3 Hf3 Hv) as [C1 C2]. eapply wp_last; [done|done|exact C1|exact C2|by left].
Qed.

Lemma setint_out b m t i : conform b m t -> is_i64 i ->
  cell_ok B b (sqlite3VdbeMemSetInt64 m i) /\ conform b (sqlite3VdbeMemSetInt64 m i) (t_out t).
Proof. intros Hf Hi. split; [by apply cell_set_int|]. split; [done|]. intros _. by split_and!. Qed.

Lemma unary_follows o (f : Mem -> Z) body :
  o = OP_Not \/ o = OP_BitNot -> (forall m, cell_ok B false m -> is_i64 (f m)) ->
  (forall op, body op = (pIn1 ← valid_reg op.(p1); pOut ← reg op.(p2);
     set_reg op.(p2) (if has pIn1.(flags) MEM_Null then sqlite3VdbeMemSetNull pOut else sqlite3VdbeMemSetInt64 pOut (f pIn1)))) ->
  follows o body.
Proof.
  intros Hop Hf Hbody ts s op prev l Hi Hb Ho Hl. regroup OP_Not Hop Ho Hl. rewrite Hbody.
  wvalid m1 Hc1 Hf1. wreg m2 Hc2 Hf2. destruct (has _ MEM_Null).
  - destruct (null_out _ _ _ Hc2 Hf2) as [C1 C2]. eapply wp_last; [done|done|exact C1|exact C2|by left].
  - rewrite Hb in Hc1. destruct (setint_out _ m2 _ (f m1) Hf2 (Hf _ Hc1)) as [C1 C2]. eapply wp_last; [done|done|exact C1|exact C2|by left].
Qed.

Lemma not_follows : follows OP_Not do_Not.
Proof. apply (unary_follows _ (fun m => if sqlite3VdbeIntValue m =? 0 then 1 else 0)); [by left| |done]. intros m _. destruct (_ =? 0); unfold_int; lia. Qed.

Lemma bitnot_follows : follows OP_BitNot do_BitNot.
Proof.
  apply (unary_follows _ (fun m => Z.lnot (sqlite3VdbeIntValue m))); [by right| |done]. intros m Hm.
  pose proof (cell_value_range _ _ _ Hm). unfold Z.lnot. unfold_int. lia.
Qed.

(** ** Conversions in place *)

(** An integer replaced. *)
Lemma cell_replace b m x : cell_ok B b m -> has m.(flags) MEM_Int = true -> is_i64 x -> cell_ok B b (set_u m x).
Proof.
  intros Hc Hi Hx. apply (cell_same_bytes B b m); try done; try (by intros ?); [apply Hc|clear -Hc; flag_bits|]. right. cbn [flags set_u]. clear Hx. flag_bits.
Qed.

Lemma int_flag m : has (MemSetTypeFlag m MEM_Int).(flags) MEM_Int = true.
Proof. unfold MemSetTypeFlag. cbn [flags set_flags]. bits. Qed.

Lemma addimm_follows : follows OP_AddImm do_AddImm.
Proof.
  start. unfold do_AddImm. wvalid m Hc Hf. unfold sqlite3VdbeMemIntegerify. eapply wp_last; [done|done| | |by left].
  - apply cell_replace; [by apply cell_integerify|apply int_flag|apply wrap64_i64].
  - eapply outint_conform; [done|reflexivity].
Qed.

Lemma integer_conform b m t : conform b m t -> conform b (snd (sqlite3VdbeMemIntegerify m)) (t_outint t).
Proof. intros Hf. eapply outint_conform; [done|reflexivity]. Qed.

Lemma cast_of_out b m t : conform b m (t_out t) -> conform b m (t_cast t).
Proof. intros [Hv Hs]. split; [done|]. intros Hb. destruct (Hs Hb) as (_ & S2 & S3 & _). split_and!; try done. by intros _; apply S3. Qed.

Lemma cast_of_same b m t : conform b m t -> t_valid t = true -> conform b m (t_cast t).
Proof. intros [Hv Hs] Ht. split; [intros _; by apply Hv|]. intros Hb. destruct (Hs Hb) as (_ & S2 & S3 & _). by split_and!. Qed.

(** The four conversions without a text. *)
Definition is_cast (o : opcode) : Prop := o = OP_RealAffinity \/ o = OP_ToNumeric \/ o = OP_ToInt \/ o = OP_ToReal.

Lemma realify_cast b m t : cell_ok B b m -> conform b m t ->
  cell_ok B b (sqlite3VdbeMemRealify m) /\ conform b (sqlite3VdbeMemRealify m) (t_cast t).
Proof. intros Hc Hf. split; [by apply cell_realify|]. apply cast_of_out. eapply out_conform; [done|reflexivity|auto]. Qed.

Lemma cast_keep ts s i t l :
  inv ts s -> get ts i = Some t -> t_valid t = true -> In (pc0 + 1, put ts i (t_cast t)) l -> wp (mret ()) (fun _ => after l) s.
Proof. intros Hi Ht Hv Hl. eapply wp_next; [eapply put_conform; [done|done|intros m Hf; by apply cast_of_same]|done]. Qed.

Lemma numerify_conform b m t : conform b m t -> t_valid t = true -> conform b (sqlite3VdbeMemNumerify m) (t_cast t).
Proof.
  intros Hf Hv. unfold sqlite3VdbeMemNumerify. set (m1 := if negb _ then _ else m).
  assert (H1 : conform b m1 (t_cast t)).
  { unfold m1. destruct (negb _); [|by apply cast_of_same]. destruct (sqlite3Atoi64 _ _) as [rc i]. destruct (rc =? 0).
    - apply cast_of_out. eapply out_conform; [done|reflexivity|auto].
    - match goal with |- conform b (sqlite3VdbeIntegerAffinity ?c) _ => destruct (affined_integer c) as [[A1 A2 A3 A4] HD];
        assert (Hc : conform b c (t_out t)) by (eapply out_conform; [done|reflexivity|auto]) end.
      destruct Hc as [Cv Cs]. split; [intros _; unfold memIsValid; rewrite A4; by apply Cv|].
      intros Hb. destruct (Cs Hb) as (_ & S2 & S3 & _). split_and!; try done; [intros Ht; rewrite HD; auto|intros Ht; rewrite A3; by apply S3]. }
  clearbody m1. destruct H1 as [Cv Cs]. split.
  - intros Ht. specialize (Cv Ht). revert Cv. unfold memIsValid. cbn [flags clear_flags set_flags]. bits.
  - intros Hb. destruct (Cs Hb) as (_ & S2 & S3 & _). split_and!; try done; cbn [flags clear_flags set_flags];
      [intros Ht; specialize (S2 Ht); revert S2; bits|intros Ht; specialize (S3 Ht); revert S3; bits].
Qed.

Lemma toreal_follows : follows OP_ToReal do_ToReal.
Proof.
  start. unfold do_ToReal. wvalid m Hc Hf. destruct (negb _); [|eapply cast_keep; [done..|by left]].
  destruct (realify_cast _ _ _ Hc Hf) as [C1 C2]. eapply wp_last; [done|done|exact C1|exact C2|by left].
Qed.

Lemma realaffinity_follows : follows OP_RealAffinity do_RealAffinity.
Proof.
  start. unfold do_RealAffinity. wvalid m Hc Hf. destruct (has _ MEM_Int); [|eapply cast_keep; [done..|by left]].
  destruct (realify_cast _ _ _ Hc Hf) as [C1 C2]. eapply wp_last; [done|done|exact C1|exact C2|by left].
Qed.

Lemma toint_follows : follows OP_ToInt do_ToInt.
Proof.
  start. unfold do_ToInt. wvalid m Hc Hf. destruct (negb _); [|eapply cast_keep; [done..|by left]].
  eapply wp_last; [done|done|by apply cell_integerify| |by left]. apply cast_of_out. eapply out_conform; [done|reflexivity|auto].
Qed.

Lemma tonumeric_follows : follows OP_ToNumeric do_ToNumeric.
Proof.
  start. unfold do_ToNumeric. wvalid m Hc Hf. eapply wp_last; [done|done|by apply cell_numerify| |by left]. by apply numerify_conform.
Qed.

Lemma affined_conform b m m' t : conform b m t -> t_valid t = true -> affined m m' ->
  (b = false -> t_nodyn t = true -> has m'.(flags) MEM_Dyn = has m.(flags) MEM_Dyn) -> conform b m' (t_cast t).
Proof.
  intros [Hv Hs] Ht [A1 A2 A3 A4] Hd. split; [intros _; unfold memIsValid; rewrite A4; by apply Hv|].
  intros Hb. destruct (Hs Hb) as (_ & S2 & S3 & _). split_and!; try done; cbn; [intros Hn; rewrite Hd; auto|intros Hn; rewrite A3; auto].
Qed.

(** An affinity that does not allocate. *)
Lemma numeric_affinity_rule i ts s t :
  inv ts s -> get ts i = Some t -> t_valid t = true -> wp (affinity_reg i SQLITE_AFF_NUMERIC) (fun _ => inv (put ts i (t_cast t))) s.
Proof.
  intros Hi Ht Hv. unfold affinity_reg. wreg m Hc Hf. wbind. apply wp_gets. wbind. apply wp_alloc_raw. apply awp_ret.
  destruct (cell_numeric_affinity B _ _ Hc) as (C1 & HA & HD).
  assert (Hi2 : inv ts (set_heap s (heap s))) by (by apply inv_heap).
  eapply (wp_set_reg _ _ _ _ _ _ _ _ _ (t_cast t)); [exact Hi2|exact Ht|exact C1|by eapply affined_conform|]. by intros s' Hi' _.
Qed.

Lemma mustbeint_follows : follows OP_MustBeInt do_MustBeInt.
Proof.
  start. unfold do_MustBeInt. wvalid m Hc Hf. wbind. eapply wp_mono; [by eapply numeric_affinity_rule|]. intros [] s1 Hi1.
  wbind. eapply wp_reg; [exact Hi1|by eapply get_put|]. intros m1 _ Hc1 Hf1. destruct (has _ MEM_Int) eqn:Hint; cbn [negb].
  - eapply wp_last with (t' := t_outint r); [exact Hi1|by eapply get_put|apply (cell_int B _ m1 (Mem.u m1)); apply Hc1| |].
    + eapply (outint_conform _ _ _ (t_cast r)); [exact Hf1|reflexivity].
    + rewrite put_put. destruct (p2 op =? 0); injection Hl as <-; by left.
  - destruct (p2 op =? 0); [by apply wp_goto|]. injection Hl as <-. eapply wp_jump; [exact Hi1|]. right. by left.
Qed.

Lemma affinity_rule i aff ts s t :
  inv ts s -> get ts i = Some t -> t_valid t = true ->
  wp (affinity_reg i aff) (fun _ s' => inv (put ts i (t_conv t)) s' /\
    exists m m', s.(aMem) !! Z.to_nat i = Some m /\ s'.(aMem) = <[Z.to_nat i := m']> s.(aMem) /\
      outcome B affined m (heap s) m' (heap s') /\ keeps m m' /\
      (aff = SQLITE_AFF_TEXT -> bad s' = true \/ has m'.(flags) MEM_Str = has m.(flags) MEM_Str || has m.(flags) (Z.lor MEM_Real MEM_Int))) s.
Proof.
  intros Hi Ht Hv. unfold affinity_reg. wbind. eapply wp_reg; [done|done|]. intros m Hm Hc Hf. wbind. apply wp_gets.
  rewrite (x_enc _ _ (i_fixed _ _ _ _ _ Hi)). wbind.
  eapply wp_alloc; [exact Hi|apply affinity_spec; [apply bound_range; exact Hlimit|exact He|exact Hc]|intros x a' [Ho _]; by eapply outcome_mono|].
  intros m' s1 Hi1 Ea (Ho & Hk & Htext).
  eapply (wp_set_reg _ _ _ _ _ _ _ _ _ (t_conv t)); [exact Hi1|exact Ht|apply Ho| |].
  - split; [intros _; apply (o_valid _ _ _ _ _ _ Ho); by apply Hf|]. intros Hb.
    destruct (o_rel _ _ _ _ _ _ Ho) as [[E [A1 A2 A3 A4]]|E]; [|congruence].
    destruct (proj2 Hf) as (_ & _ & S3 & _); [congruence|]. split_and!; try done. cbn. intros Hn. rewrite A3. by apply S3.
  - intros s' Hi' Es'. split; [done|]. exists m, m'. rewrite Es'. cbn. rewrite Ea. by split_and!.
Qed.

Lemma all_valid_put i t0 t k : t_valid t = true -> forall j ts, get ts i = Some t0 -> all_valid k j ts = true -> all_valid k j (put ts i t) = true.
Proof.
  intros Ht. induction k as [|k IH]; intros j ts Hi Hv; [done|]. cbn [all_valid] in *.
  destruct (get ts j) as [tj|] eqn:Hj; [|done]. apply andb_true_iff in Hv as [Hv1 Hv2].
  destruct (Z.eq_dec i j) as [->|Hne].
  - rewrite (get_put _ _ _ _ Hi), Ht. cbn. by apply IH.
  - rewrite get_put_ne, Hj, Hv1 by (done || by eapply lt_get). cbn. by apply IH.
Qed.

(** The letters of an affinity string. *)
Lemma affinity_loop_rule aff : forall i ts s ts',
  inv ts s -> all_valid (length aff) i ts = true -> put_range (length aff) i t_conv ts = Some ts' ->
  wp (affinity_loop aff i) (fun _ => inv ts') s.
Proof.
  induction aff as [|c aff IH]; intros i ts s ts' Hi Hv Hp; cbn [length all_valid put_range affinity_loop] in *; [by injection Hp as <-|].
  destruct (get ts i) as [t|] eqn:Ht; [|done]. cbn [mbind option_bind] in Hp. apply andb_true_iff in Hv as [Hv1 Hv2].
  wvalid m Hc Hf. wbind. eapply wp_mono; [by eapply expand_rule|]. intros rc s1 (Hi1 & _).
  wbind. eapply wp_mono; [by eapply affinity_rule|]. intros [] s2 (Hi2 & _).
  eapply IH; [exact Hi2| |exact Hp]. by eapply all_valid_put.
Qed.

Lemma affinity_follows : follows OP_Affinity do_Affinity.
Proof.
  start. unfold do_Affinity. wbind. eapply wp_some; [done|]. wbind. apply wp_assert; [done|].
  eapply wp_mono; [by eapply affinity_loop_rule|]. intros [] s' Hi'. eapply after_next; [done|by left].
Qed.

Lemma conv_of_same b m t : conform b m t -> t_valid t = true -> conform b m (t_conv t).
Proof. intros [Hv Hs] Ht. split; [intros _; by apply Hv|]. intros Hb. destruct (Hs Hb) as (_ & S2 & S3 & _). by split_and!. Qed.

Lemma conv_keep ts s i t l :
  inv ts s -> get ts i = Some t -> t_valid t = true -> In (pc0 + 1, put ts i (t_conv t)) l -> wp (mret ()) (fun _ => after l) s.
Proof. intros Hi Ht Hv Hl. eapply wp_next; [eapply put_conform; [done|done|intros m Hf; by apply conv_of_same]|done]. Qed.

(** A text of a number becomes a blob. *)
Lemma as_blob b m t : cell_ok B b m -> is_data m = true -> conform b m (t_conv t) ->
  cell_ok B b (MemSetTypeFlag m MEM_Blob) /\ conform b (MemSetTypeFlag m MEM_Blob) (t_conv t).
Proof.
  intros Hc Hd Hf. split.
  - apply (cell_same_bytes B b m); try done; [clear; unfold flags_ok, MemSetTypeFlag; cbn [flags set_flags]; bits| | |by left|apply Hc];
      unfold MemSetTypeFlag; cbn [flags set_flags]; clear; intros H1; exfalso; revert H1; bits.
  - split; [intros _; unfold memIsValid, MemSetTypeFlag; cbn [flags set_flags]; clear; bits|].
    intros _. split_and!; try done. intros _. unfold MemSetTypeFlag. cbn [flags set_flags]. clear. bits.
Qed.

Lemma keep_blob b m t : cell_ok B b m -> has m.(flags) MEM_Blob = true -> conform b m t ->
  let m' := clear_flags m (Z.land MEM_TypeMask (Z.lnot MEM_Blob)) in cell_ok B b m' /\ conform b m' (t_conv t).
Proof.
  intros Hc Hbl Hf m'. pose proof (c_flags _ _ _ Hc) as Hfl. split.
  - unfold m'. apply (cell_same_bytes B b m); try done; try (by left); [..|apply Hc]; cbn [flags clear_flags set_flags].
    + clear -Hbl. revert Hbl. unfold flags_ok. bits.
    + clear. intros H1. exfalso. revert H1. bits.
    + intros _. unfold is_data. by rewrite Hbl, orb_true_r.
    + clear. bits.
  - split; [intros _; unfold memIsValid, m'; cbn [flags clear_flags set_flags]; clear; bits|].
    intros _. split_and!; try done. intros _. unfold m'. cbn [flags clear_flags set_flags]. clear. bits.
Qed.

Lemma toblob_follows : follows OP_ToBlob do_ToBlob.
Proof.
  start. unfold do_ToBlob. wbind. wbind. eapply wp_reg; [done|done|]. intros m Hm Hc Hf. apply wp_bind, wp_assert; [by apply Hf|]. apply wp_ret.
  destruct (has m.(flags) MEM_Null) eqn:Hn; [eapply conv_keep; [done..|by left]|].
  destruct (has m.(flags) MEM_Blob) eqn:Hbl; cbn [negb].
  - destruct (keep_blob _ _ _ Hc Hbl Hf) as [C1 C2]. eapply wp_last; [done|done|exact C1|exact C2|by left].
  - wbind. eapply wp_mono; [by eapply affinity_rule|]. intros [] s1 (Hi1 & m0 & m1 & Hm0 & Em & Ho' & Hk & Htext).
    assert (m0 = m) as -> by congruence.
    wbind. eapply wp_reg; [exact Hi1|by eapply get_put|]. intros m1' Hm1 Hc1 Hf1.
    assert (m1' = m1) as -> by (rewrite Em, list_lookup_insert_eq in Hm1 by (by eapply lookup_lt_Some); congruence).
    wbind. apply wp_gets. destruct (Htext eq_refl) as [Hbad|Hstr].
    + wbind. apply wp_assert; [by rewrite Hbad, orb_true_r|]. eapply wp_last_bad; [exact Hi1|by eapply get_put|done].
    + assert (Hs1 : has m1.(flags) MEM_Str = true).
      { rewrite Hstr. destruct Hf as [Hv _]. specialize (Hv E0). clear -Hc Hv Hn Hbl. flag_bits. }
      wbind. apply wp_assert; [by rewrite Hs1|].
      destruct (as_blob _ m1 _ Hc1 ltac:(unfold is_data; by rewrite Hs1) Hf1) as [C1 C2].
      eapply wp_last with (t' := t_conv r); [exact Hi1|by eapply get_put|exact C1|exact C2|rewrite put_put; by left].
Qed.

(** A state that differs in one register and in the heap. *)
Definition only_reg (i : Z) (c : Mem) (s s' : Vdbe) : Prop :=
  s'.(aMem) = <[Z.to_nat i := c]> s.(aMem) /\ set_heap (set_aMem s' s.(aMem)) s.(heap) = s.

Lemma only_reg_set i c m s s' : only_reg i c s s' -> only_reg i m s (set_aMem s' (<[Z.to_nat i := m]> s'.(aMem))).
Proof. intros [Em Es]. split; [|exact Es]. cbn. by rewrite Em, list_insert_insert_eq. Qed.

Lemma only_reg_heap i c s s' a : only_reg i c s s' -> only_reg i c s (set_heap s' a).
Proof. intros [Em Es]. split; [exact Em|exact Es]. Qed.

Lemma inv_only_reg ts s s' i t0 c t' :
  inv ts s -> get ts i = Some t0 -> only_reg i c s s' -> (bad s = true -> bad s' = true) ->
  cell_ok B (bad s') c -> conform (bad s') c t' -> inv (put ts i t') s'.
Proof.
  intros Hi Ht [Em Es] Hb Hc Hf. destruct s' as [x1 x2 x3 x4 x5 x6 x7 x8 x9 x10 x11 x12 x13 x14 x15].
  cbn in Em. subst x2. rewrite <- Es in Hi. cbn in Hi, Hb, Hc, Hf.
  pose proof (inv_heap _ _ _ _ _ x15 Hi Hb) as Hi2. apply (inv_put _ _ _ _ _ _ _ c t' Hi2 Ht Hc Hf).
Qed.

Lemma wp_reg_raw i m (Q : Mem -> Vdbe -> Prop) s : 0 < i -> s.(aMem) !! Z.to_nat i = Some m -> Q m s -> wp (reg i) Q s.
Proof. intros Hi Hm HQ. unfold VdbeSafe.wp, reg. destruct (Z.ltb_spec 0 i); [|lia]. by rewrite Hm. Qed.

Lemma only_lookup i c s s' : only_reg i c s s' -> (Z.to_nat i < length s.(aMem))%nat -> s'.(aMem) !! Z.to_nat i = Some c.
Proof. intros [-> _] Hl. by apply list_lookup_insert_eq. Qed.

(** From [ExpandBlob] on, for a cell that is a text whatever it was before. *)
Lemma totext_tail ts s s1 i t m f l :
  inv ts s -> get ts i = Some t -> t_valid t = true -> s.(aMem) !! Z.to_nat i = Some m -> has m.(flags) MEM_Blob = true ->
  only_reg i (set_flags m f) s s1 -> bad s1 = bad s ->
  has f MEM_Zero = has m.(flags) MEM_Zero -> has f MEM_Str = true -> has f MEM_Null = false -> has f MEM_Invalid = false ->
  (t_nocleared t = true -> bad s = false -> has f MEM_Cleared = false) -> In (pc0 + 1, put ts i (t_conv t)) l ->
  wp (rc ← expand_reg i;
      pIn1 ← reg i;
      failed ← gets (fun s => s.(heap).(mallocFailed));
      _ ← assert (has pIn1.(flags) MEM_Str || failed);
      _ ← set_reg i (clear_flags pIn1 (Z.lor (Z.lor MEM_Int MEM_Real) (Z.lor MEM_Blob MEM_Zero)));
      if negb (rc =? SQLITE_OK) then goto (vdbe_error_halt rc) else mret ()) (fun _ => after l) s1.
Proof.
  intros Hi Ht Hv Hm Hbl Ho Hb1 Hz Hs Hn Hinv Hcl Hl.
  destruct (inv_lookup _ _ _ _ _ _ _ Hi Ht) as (m0 & Hm0 & Hc & Hf). assert (m0 = m) as -> by congruence.
  pose proof (lt_get _ _ _ Ht) as Hi0. pose proof (lookup_lt_Some _ _ _ Hm) as Hlen.
  assert (Hfinal : forall y s', only_reg i y.2 s s' -> y = sqlite3VdbeMemExpandBlob false (set_flags m f) \/ y = sqlite3VdbeMemExpandBlob true (set_flags m f) ->
    (y.1 = SQLITE_OK -> bad s' = bad s) -> (y.1 <> SQLITE_OK -> bad s' = true) ->
    wp (pIn1 ← reg i;
        failed ← gets (fun s => s.(heap).(mallocFailed));
        _ ← assert (has pIn1.(flags) MEM_Str || failed);
        _ ← set_reg i (clear_flags pIn1 (Z.lor (Z.lor MEM_Int MEM_Real) (Z.lor MEM_Blob MEM_Zero)));
        if negb (y.1 =? SQLITE_OK) then goto (vdbe_error_halt y.1) else mret ()) (fun _ => after l) s').
  { intros y s' Ho' Hy Hok Hko.
    wbind. eapply wp_reg_raw; [done|eapply only_lookup; [exact Ho'|exact Hlen]|]. wbind. apply wp_gets. wbind.
    assert (Hr : (0 <? i) && bool_decide (Z.to_nat i < length s'.(aMem))%nat = true).
    { rewrite (proj1 Ho'), length_insert, bool_decide_true by done. apply andb_true_iff. split; [lia|done]. }
    destruct (Z.eqb_spec y.1 SQLITE_OK) as [Hy1|Hy1]; cbn [negb].
    - assert (HT : exists oom, y = sqlite3VdbeMemExpandBlob oom (set_flags m f)) by (destruct Hy; eauto). destruct HT as [oom HT].
      pose proof (text_cell B (bad s) oom m f Hc Hbl Hz Hs Hn) as HC. cbv zeta in HC. rewrite <- HT in HC. destruct (HC Hy1) as (C1 & C2 & C3 & C4).
      apply wp_assert; [by rewrite C2|]. wbind. apply wp_set_raw; [done|]. apply wp_ret. eapply after_next; [|exact Hl].
      eapply inv_only_reg; [exact Hi|exact Ht|eapply only_reg_set; exact Ho'|cbn; by rewrite Hok|cbn; rewrite Hok by done; exact C1|].
      split; [intros _; unfold memIsValid; cbn [flags clear_flags set_flags]; rewrite <- C3 in Hinv; clear -Hinv; revert Hinv; bits|].
      cbn. rewrite Hok by done. intros Hb. split_and!; try done. cbn. intros Hnc. specialize (Hcl Hnc Hb). rewrite <- C4 in Hcl. clear -Hcl. revert Hcl. bits.
    - apply wp_assert; [by rewrite (Hko Hy1), orb_true_r|]. wbind. apply wp_set_raw; [done|]. by apply wp_goto. }
  wbind. unfold expand_reg. wbind. eapply wp_reg_raw; [done|eapply only_lookup; [exact Ho|exact Hlen]|].
  cbn [flags set_flags]. destruct (has f MEM_Zero) eqn:Hfz.
  - wbind. apply wp_alloc_raw. unfold awp, ExpandBlob, attempt, draw. cbn [mbind option_bind].
    match goal with |- context [sqlite3VdbeMemExpandBlob ?b (set_flags m f)] => set (oom := b) end.
    destruct (sqlite3VdbeMemExpandBlob oom (set_flags m f)) as [rc m2] eqn:Ey. cbn [mbind option_bind]. wbind. apply wp_set_raw.
    { cbn. rewrite (proj1 Ho), length_insert, bool_decide_true by done. apply andb_true_iff. split; [lia|done]. }
    apply wp_ret. apply (Hfinal (rc, m2)).
    + cbn [snd]. eapply only_reg_set. by apply only_reg_heap.
    + rewrite <- Ey. destruct oom; auto.
    + cbn. intros ->. done.
    + cbn. intros Hne. destruct (Z.eqb_spec rc SQLITE_OK); [done|]. done.
  - apply wp_ret. apply (Hfinal (SQLITE_OK, set_flags m f)); [done| |done|done].
    left. unfold sqlite3VdbeMemExpandBlob. cbn [flags set_flags]. by rewrite Hfz.
Qed.

(** A number that became a text. *)
Lemma as_text b m t : cell_ok B b m -> has m.(flags) MEM_Str = true -> has m.(flags) MEM_Null = false -> has m.(flags) MEM_Blob = false ->
  conform b m (t_conv t) ->
  let m' := clear_flags m (Z.lor (Z.lor MEM_Int MEM_Real) (Z.lor MEM_Blob MEM_Zero)) in
  cell_ok B b m' /\ conform b m' (t_conv t).
Proof.
  intros Hc Hs Hn Hbl [Hv Hst] m'. split.
  - unfold m'. apply (cell_same_bytes B b m); try done; try (by left); [..|apply Hc]; cbn [flags clear_flags set_flags]; clear -Hs Hn Hbl.
    + revert Hs Hn. unfold flags_ok. bits.
    + intros H1. exfalso. revert H1. bits.
    + intros H1. exfalso. revert H1. bits.
  - split; [intros Ht; specialize (Hv Ht); unfold m', memIsValid in *; cbn [flags clear_flags set_flags]; clear -Hv; revert Hv; bits|].
    intros Hb. destruct (Hst Hb) as (_ & _ & S3 & _). split_and!; try done. intros Ht. specialize (S3 Ht).
    unfold m'. cbn [flags clear_flags set_flags]. clear -S3. revert S3. bits.
Qed.

Lemma totext_number ts s i t m l :
  inv ts s -> get ts i = Some t -> t_valid t = true -> s.(aMem) !! Z.to_nat i = Some m ->
  has m.(flags) MEM_Null = false -> has m.(flags) MEM_Blob = false -> In (pc0 + 1, put ts i (t_conv t)) l ->
  wp (_ ← affinity_reg i SQLITE_AFF_TEXT;
      rc ← expand_reg i;
      pIn1 ← reg i;
      failed ← gets (fun s => s.(heap).(mallocFailed));
      _ ← assert (has pIn1.(flags) MEM_Str || failed);
      _ ← set_reg i (clear_flags pIn1 (Z.lor (Z.lor MEM_Int MEM_Real) (Z.lor MEM_Blob MEM_Zero)));
      if negb (rc =? SQLITE_OK) then goto (vdbe_error_halt rc) else mret ()) (fun _ => after l) s.
Proof.
  intros Hi Ht Hv Hm Hn Hbl Hl. destruct (inv_lookup _ _ _ _ _ _ _ Hi Ht) as (m0 & Hm0 & Hc & Hf). assert (m0 = m) as -> by congruence.
  wbind. eapply wp_mono; [by eapply affinity_rule|]. intros [] s1 (Hi1 & m0 & m1 & Hm0' & Em & Ho' & Hk & Htext).
  assert (m0 = m) as -> by congruence. pose proof (get_put _ _ (t_conv t) _ Ht) as Ht1.
  assert (Hm1 : s1.(aMem) !! Z.to_nat i = Some m1) by (rewrite Em; apply list_lookup_insert_eq; by eapply lookup_lt_Some).
  wbind. eapply wp_mono; [by eapply expand_rule|]. intros rc s2 (Hi2 & Hko & Hok).
  wbind. eapply wp_reg; [exact Hi2|exact Ht1|]. intros m2 Hm2 Hc2 Hf2. wbind. apply wp_gets.
  destruct (bad s2) eqn:Hb2.
  { wbind. apply wp_assert; [by rewrite orb_true_r|]. wbind. eapply wp_set_raw; [by eapply set_range|].
    destruct (negb _); [by apply wp_goto|]. apply wp_ret. by left. }
  destruct (Z.eqb_spec rc SQLITE_OK) as [->|Hne]; [|by specialize (Hko Hne)].
  destruct (Hok eq_refl) as [Hb Hsame].
  assert (HP : cell_at (fun c => has c.(flags) MEM_Str = true /\ has c.(flags) MEM_Null = false /\ has c.(flags) MEM_Blob = false) i s2).
  { apply Hsame; [intros c c' [A _] (? & ? & ?); rewrite (a_str _ _ A), (a_null _ _ A), (a_blob _ _ A); done|].
    exists m1. split; [done|]. destruct (o_rel _ _ _ _ _ _ Ho') as [[_ [A1 A2 A3 A4]]|?]; [|congruence]. split_and!; [|congruence|congruence].
    destruct (Htext eq_refl) as [?|Hs]; [congruence|]. rewrite Hs. destruct Hf as [Hval _]. specialize (Hval Hv). clear -Hc Hval Hn Hbl. flag_bits. }
  destruct HP as (c & Hc' & S1 & S2 & S3). assert (c = m2) as -> by congruence.
  wbind. apply wp_assert; [by rewrite S1|]. rewrite <- Hb2 in Hc2, Hf2. destruct (as_text _ _ t Hc2 S1 S2 S3 Hf2) as [C1 C2].
  wbind. eapply wp_set_reg with (t' := t_conv t); [exact Hi2|exact Ht1|exact C1|exact C2|]. intros s3 Hi3 _. rewrite put_put in Hi3.
  by eapply wp_next.
Qed.

Lemma totext_follows : follows OP_ToText do_ToText.
Proof.
  start. unfold do_ToText. wbind. wbind. eapply wp_reg; [done|done|]. intros m Hm Hc Hf. apply wp_bind, wp_assert; [by apply Hf|]. apply wp_ret.
  destruct (has m.(flags) MEM_Null) eqn:Hn; [eapply conv_keep; [done..|by left]|].
  assert (Hval : memIsValid m = true) by (by apply Hf).
  destruct (has m.(flags) MEM_Blob) eqn:Hbl.
  - set (x := add_flags m _). wbind. apply wp_set_raw; [by eapply set_range|].
    set (s1 := set_aMem s _). assert (Ho1 : only_reg (p1 op) x s s1) by (by split; [|by destruct s]).
    assert (Hx : has x.(flags) MEM_Str = true) by (unfold x; cbn [flags add_flags set_flags]; clear -Hbl; revert Hbl; bits).
    wbind. unfold affinity_reg. wbind. eapply wp_reg_raw; [by eapply lt_get|eapply only_lookup; [exact Ho1|by eapply lookup_lt_Some]|].
    wbind. apply wp_gets. wbind. apply wp_alloc_raw. unfold applyAffinity. cbn [Z.eqb SQLITE_AFF_TEXT Pos.eqb]. rewrite Hx. cbn [negb andb].
    apply awp_bind, awp_ret, awp_ret. apply wp_set_raw.
    { cbn. rewrite length_insert. by eapply set_range. }
    set (f := Z.land x.(flags) (Z.lnot (Z.lor MEM_Real MEM_Int))).
    eapply (totext_tail ts s _ (p1 op) r m f); [exact Hi|exact E|exact E0|exact Hm|exact Hbl| |done| | | | | |by left].
    + eapply (only_reg_set _ x). by apply only_reg_heap.
    + unfold f, x. cbn [flags add_flags set_flags]. clear. bits_norm. by rewrite ?orb_false_r, ?andb_true_r, ?andb_false_r, ?orb_false_r.
    + unfold f. clear -Hx. revert Hx. bits.
    + unfold f, x. cbn [flags add_flags set_flags]. clear -Hn. revert Hn. bits.
    + unfold f, x. cbn [flags add_flags set_flags]. clear -Hval. revert Hval. unfold memIsValid. bits.
    + intros Ht Hb'. destruct (proj2 Hf Hb') as (_ & _ & S3 & _). specialize (S3 Ht). unfold f, x. cbn [flags add_flags set_flags].
      clear -S3. revert S3. bits.
  - assert (Hx : add_flags m (Z.shiftr (Z.land m.(flags) MEM_Blob) 3) = m).
    { unfold add_flags. assert (Hz : Z.land m.(flags) MEM_Blob = 0).
      { unfold has in Hbl. by apply negb_false_iff, Z.eqb_eq in Hbl. }
      rewrite Hz. cbn. rewrite Z.lor_0_r. by destruct m. }
    rewrite Hx. wbind. eapply wp_set_reg with (t' := r); [exact Hi|exact E|exact Hc|exact Hf|].
    intros s1 Hi1 Es1. rewrite put_id in Hi1 by done. eapply totext_number; [exact Hi1|done|done| |done|done|by left].
    rewrite Es1. cbn. rewrite list_insert_id by done. exact Hm.
Qed.
End Calc.
