(* ===== verification/VdbeCmp.v ===== *)
(** * The instructions follow their types: comparisons, functions, jumps *)

From S2P Require Import Prelude Ctype Ints Utf Printf PrintfSpec Quote AlterSpec Mem Serial Real Value Vdbe VdbeExec CellOk CellKeep VdbeType VdbeSafe VdbeOps VdbeCalc.

Lemma with_type_twice m f : with_type (with_type m f) f = with_type m f.
Proof.
  unfold with_type. cbn [flags set_flags]. f_equal. apply Z.bits_inj'. intros k Hk.
  rewrite !Z.lor_spec, !Z.land_spec, !Z.lor_spec, !Z.land_spec, !Z.lnot_spec by done.
  by destruct (Z.testbit _ _), (Z.testbit f k), (Z.testbit MEM_TypeMask k).
Qed.

(** ** Putting the types back *)

Section Restore.
Variable (g : config).
Variables (row : Vdbe -> Prop) (prog : list Op) (pcx : Z).
Abbreviation inv := (inv g prog pcx).
Abbreviation wp := (wp row).
Abbreviation B := (bound g).

(** The type of the register is that of the flags put back. *)
Definition typed_flags (f : Z) (t : rt) : Prop :=
  (t.(t_valid) = true -> has f MEM_Invalid = false) /\ (t.(t_int) = true -> has f MEM_Int = true) /\
  (t.(t_nocleared) = true -> has f MEM_Cleared = false).

Lemma typed_conform b m f t : typed_flags f t -> conform b (with_type m f) (t_compared t).
Proof.
  intros (Hv & Hi & Hc). unfold with_type. split.
  - cbn. intros Ht. unfold memIsValid. specialize (Hv Ht). cbn [flags set_flags]. clear -Hv. revert Hv. bits.
  - intros _. split_and!; try done; cbn; intros Ht; [specialize (Hi Ht); clear -Hi; revert Hi; bits|specialize (Hc Ht); clear -Hc; revert Hc; bits].
Qed.

Lemma conform_typed b m t : conform b m t -> b = false -> typed_flags m.(flags) t.
Proof.
  intros [Hv Hs] Hb. destruct (Hs Hb) as (S1 & _ & S3 & _). split_and!; try done. intros Ht. specialize (Hv Ht). unfold memIsValid in Hv.
  by apply negb_true_iff.
Qed.

Definition restorable (b : bool) (f : Z) (m : Mem) : Prop := cell_ok B b (with_type m f).

Lemma restore_rule i f ts s t t' :
  inv ts s -> get ts i = Some t' -> typed_flags f t -> cell_at (restorable (bad s) f) i s ->
  wp (restore_type i f) (fun _ s' => inv (put ts i (t_compared t)) s' /\ bad s' = bad s /\
    exists m, s.(aMem) !! Z.to_nat i = Some m /\ s'.(aMem) = <[Z.to_nat i := with_type m f]> s.(aMem)) s.
Proof.
  intros Hi Ht Hf (m & Hm & Hr). unfold restore_type. wbind. eapply wp_reg; [exact Hi|exact Ht|].
  intros m' Hm' _ _. assert (m' = m) as -> by congruence.
  eapply wp_set_reg with (t' := t_compared t); [exact Hi|exact Ht|exact Hr|by apply typed_conform|].
  intros s' Hi' Es. rewrite Es in *. split; [done|]. split; [done|]. by exists m.
Qed.

(** Both operands. *)
Lemma restore_both i j fi fj ts s ti tj ti' tj' tj0 :
  inv ts s -> get ts i = Some ti' -> get ts j = Some tj' -> typed_flags fi ti -> typed_flags fj tj ->
  cell_at (restorable (bad s) fi) i s -> cell_at (restorable (bad s) fj) j s -> (i = j -> fi = fj) ->
  get (put ts i (t_compared ti)) j = Some tj0 ->
  wp (_ ← restore_type i fi; restore_type j fj) (fun _ => inv (put (put ts i (t_compared ti)) j (t_compared tj))) s.
Proof.
  intros Hi Hti Htj Hfi Hfj Hri Hrj Heq H0. wbind. eapply wp_mono; [by eapply restore_rule|].
  intros [] s1 (Hi1 & Hb1 & m & Hm & Em). eapply wp_mono; [eapply restore_rule; [exact Hi1|exact H0|exact Hfj|]|by intros [] s2 (? & _)].
  rewrite Hb1. destruct Hrj as (mj & Hmj & Hrj). pose proof (lt_get _ _ _ Hti). pose proof (lt_get _ _ _ Htj).
  destruct (Z.eq_dec i j) as [->|Hne].
  - exists (with_type m fi). rewrite Em, list_lookup_insert_eq by (by eapply lookup_lt_Some). split; [done|].
    assert (mj = m) as -> by congruence. rewrite <- (Heq eq_refl) in *. unfold restorable. by rewrite with_type_twice.
  - exists mj. rewrite Em, list_lookup_insert_ne by lia. done.
Qed.
End Restore.

(** ** Types written one over the other *)

Lemma put_comm ts i j t t' : 0 < i -> 0 < j -> i <> j -> put (put ts i t) j t' = put (put ts j t') i t.
Proof. intros Hi Hj Hne. unfold put. cbn. f_equal. apply list_insert_insert_ne. lia. Qed.

Lemma put_over ts i j a b c d : 0 < i -> 0 < j -> put (put (put (put ts i a) j b) i c) j d = put (put ts i c) j d.
Proof.
  intros Hi Hj. destruct (Z.eq_dec i j) as [->|Hne]; [by rewrite !put_put|].
  rewrite (put_comm _ i j a b), put_put, (put_comm _ j i), put_put by done. done.
Qed.

Section Compare.
Context `{FloatTextOk}.
Variable (g : config).
Hypothesis (He : is_enc g.(g_enc)) (Hlimit : 0 <= g.(g_limit) <= 1000000000).
Variables (row : Vdbe -> Prop) (prog : list Op) (pc0 : Z).
Hypothesis (Hpc : 0 <= pc0 < 2 ^ 31).
Abbreviation inv := (inv g prog pc0).
Abbreviation wp := (wp row).
Abbreviation B := (bound g).
Abbreviation after := (after g prog).
Abbreviation follows := (follows g row prog pc0).

Lemma B_pos : 0 <= B.
Proof. unfold bound. lia. Qed.

Lemma cell_at_other (P : Mem -> Prop) i j s s' m : s'.(aMem) = <[Z.to_nat i := m]> s.(aMem) -> Z.to_nat i <> Z.to_nat j -> cell_at P j s -> cell_at P j s'.
Proof. intros Es Hne (m0 & Hj & Hm0). exists m0. rewrite Es, list_lookup_insert_ne by done. done. Qed.

(** A property that one write keeps, and the heap only weakens. *)
Lemma cell_at_step (P Q : Mem -> Prop) i j s s' m m' :
  s.(aMem) !! Z.to_nat i = Some m -> s'.(aMem) = <[Z.to_nat i := m']> s.(aMem) ->
  (P m -> Q m') -> (forall c, P c -> Q c) -> cell_at P j s -> cell_at Q j s'.
Proof.
  intros Hm Es H1 H2 (c & Hc & Pc). unfold cell_at. rewrite Es. destruct (decide (Z.to_nat i = Z.to_nat j)) as [Heq|Hne].
  - rewrite <- Heq in Hc. rewrite Heq, list_lookup_insert_eq by (rewrite <- Heq; by eapply lookup_lt_Some).
    exists m'. split; [done|]. apply H1. congruence.
  - exists c. rewrite list_lookup_insert_ne by done. auto.
Qed.

Lemma cell_at_mono (P Q : Mem -> Prop) i s s' : s'.(aMem) = s.(aMem) -> (forall c, P c -> Q c) -> cell_at P i s -> cell_at Q i s'.
Proof. intros Es HPQ (m & Hm & Pm). exists m. rewrite Es. auto. Qed.

(** ** The operands *)

Lemma expanded_weaken f b b' m : expanded B f b m -> (b = true -> b' = true) -> expanded B f b' m.
Proof. intros (E1 & E2 & E3) Hw. split_and!; try done. intros Hf. eapply data_weaken; eauto. Qed.

(** [ExpandBlob] of an operand: what is known of all the cells stays. *)
Lemma expand_operand i ts s t :
  inv ts s -> get ts i = Some t ->
  wp (expand_reg i) (fun _ s' => inv ts s' /\
    (forall f, cell_at (traced B f (bad s)) i s -> cell_at (expanded B f (bad s')) i s') /\
    (forall f j, cell_at (traced B f (bad s)) j s -> cell_at (traced B f (bad s')) j s') /\
    (forall f j, cell_at (expanded B f (bad s)) j s -> cell_at (expanded B f (bad s')) j s') /\
    (forall j, cell_at good j s -> cell_at good j s')) s.
Proof.
  intros Hi Ht. unfold expand_reg. wbind. eapply wp_reg; [done|done|]. intros m Hm Hc Hf.
  destruct (has m.(flags) MEM_Zero) eqn:Hz.
  - wbind. eapply wp_alloc; [exact Hi|by apply expand_traced|intros x a' [[Ho _] _]; by eapply outcome_mono|].
    intros [rc m'] s1 Hi1 Ea ([Ho Hrc] & Htr & Hgd). cbn [fst snd] in *. wbind.
    pose proof (outcome_mono _ _ _ _ _ _ Ho) as Hw.
    eapply (wp_set_reg _ _ _ _ _ _ _ _ _ t); [exact Hi1|exact Ht|apply Ho|by eapply same_conform|].
    intros s2 Hi2 Es2. rewrite put_id in Hi2 by done. apply wp_ret. split; [done|].
    assert (Em : s2.(aMem) = <[Z.to_nat i := m']> s.(aMem)) by (rewrite Es2; cbn; by rewrite Ea).
    assert (Eb : bad s2 = bad s1) by (by rewrite Es2). rewrite Eb.
    assert (Ht2 : forall f c, traced B f (bad s) c -> traced B f (bad s1) c) by (intros; by eapply traced_weaken).
    assert (He2 : forall f c, expanded B f (bad s) c -> expanded B f (bad s1) c) by (intros; by eapply expanded_weaken).
    split_and!.
    + intros f (c & Hcc & Pc). exists m'. rewrite Em, list_lookup_insert_eq by (by eapply lookup_lt_Some).
      split; [done|]. apply Htr. congruence.
    + intros f j. apply (cell_at_step _ _ i j s s2 m m' Hm Em); [|apply Ht2]. intros P1. right. by apply Htr.
    + intros f j. apply (cell_at_step _ _ i j s s2 m m' Hm Em); [|apply He2]. intros P1. apply Htr. by right.
    + intros j. apply (cell_at_step _ _ i j s s2 m m' Hm Em); [exact Hgd|done].
  - apply wp_ret. split; [done|]. split_and!; try done. intros f (c & Hcc & Pc). assert (c = m) as -> by congruence.
    exists m. split; [done|]. destruct Pc as [P1|P1]; [|done]. split; [done|]. split; intros Hd; [by apply (c_data _ _ _ Hc), P1|by apply (c_enc _ _ _ Hc), P1].
Qed.

Lemma compare_regs_rule i j c ts s ti tj :
  inv ts s -> get ts i = Some ti -> get ts j = Some tj -> cell_at good i s -> cell_at good j s -> coll_ok c = true ->
  wp (compare_regs i j c) (fun _ s' => inv ts s' /\ s'.(aMem) = s.(aMem) /\ s'.(aPermute) = s.(aPermute) /\ (bad s = true -> bad s' = true)) s.
Proof.
  intros Hi Hti Htj (mi & Lmi & Gi) (mj & Lmj & Gj) Hcoll. unfold compare_regs.
  wbind. eapply wp_reg; [exact Hi|exact Hti|]. intros m1 L1 C1 _. assert (m1 = mi) as -> by congruence.
  wbind. eapply wp_reg; [exact Hi|exact Htj|]. intros m2 L2 C2 _. assert (m2 = mj) as -> by congruence.
  wbind. apply wp_alloc_raw. unfold awp, draw. set (oom := match mallocs (heap s) with [] => false | b :: _ => b end).
  assert (Hi1 : inv ts (set_heap s (mkAlloc (tail (mallocs (heap s))) (bad s)))) by (by apply inv_heap).
  destruct (compare_total B (bad s) mi mj oom c C1 Gi C2 Gj B_pos) as [v Hv].
  { intros k ->. cbn in Hcoll. unfold is_enc. lia. }
  wbind. eapply wp_some; [exact Hv|]. wbind. destruct (oom && compare_translates mi mj c).
  - apply wp_alloc_raw. unfold awp, set_mallocFailed. apply wp_ret. split_and!; try done. by apply inv_heap.
  - apply wp_ret, wp_ret. by split_and!.
Qed.

(** An affinity keeps what is known of all the cells. *)
Lemma affinity_operand i aff ts s t :
  inv ts s -> get ts i = Some t -> t_valid t = true ->
  wp (affinity_reg i aff) (fun _ s' => inv (put ts i (t_conv t)) s' /\
    forall f j, cell_at (converted f) j s -> cell_at (converted f) j s') s.
Proof.
  intros Hi Ht Hv. eapply wp_mono; [by eapply affinity_rule|]. intros [] s' (Hi' & m & m' & Hm & Em & _ & Hk & _). split; [done|].
  intros f j. apply (cell_at_step _ _ i j s s' m m' Hm Em); [|done]. intros P1. by eapply converted_keeps.
Qed.

(** The state between the conversion of the operands and the comparison. *)
Lemma compare_operands op ts s t1 t3 m1 m3 :
  inv ts s -> bad s = false -> get ts op.(p1) = Some t1 -> get ts op.(p3) = Some t3 -> t_valid t1 = true -> t_valid t3 = true ->
  s.(aMem) !! Z.to_nat op.(p1) = Some m1 -> s.(aMem) !! Z.to_nat op.(p3) = Some m3 ->
  let affinity := Z.land op.(p5) SQLITE_AFF_MASK in
  wp (if negb (affinity =? 0) then
         _ ← affinity_reg op.(p1) affinity;
         _ ← affinity_reg op.(p3) affinity;
         failed ← gets (fun s => s.(heap).(mallocFailed));
         if failed : bool then goto no_mem else mret ()
       else mret ())
    (fun _ s' => inv (put (put ts op.(p1) (t_conv t1)) op.(p3) (t_conv t3)) s' /\ bad s' = false /\
      cell_at (converted m1.(flags)) op.(p1) s' /\ cell_at (converted m3.(flags)) op.(p3) s') s.
Proof.
  intros Hi Hb Ht1 Ht3 Hv1 Hv3 Hm1 Hm3 affinity.
  assert (C1 : cell_at (converted m1.(flags)) op.(p1) s) by (exists m1; split; [done|apply converted_refl]).
  assert (C3 : cell_at (converted m3.(flags)) op.(p3) s) by (exists m3; split; [done|apply converted_refl]).
  assert (Hg3 : exists t3', get (put ts op.(p1) (t_conv t1)) op.(p3) = Some t3' /\ t_valid t3' = true /\ t_conv t3' = t_conv t3).
  { destruct (Z.eq_dec op.(p1) op.(p3)) as [Heq|Hne].
    - exists (t_conv t1). rewrite <- Heq. split; [by eapply get_put|]. split; [done|]. rewrite <- Heq in Ht3. assert (t1 = t3) as -> by congruence. done.
    - exists t3. rewrite get_put_ne by (done || by eapply lt_get). done. }
  destruct Hg3 as (t3' & Ht3' & Hv3' & Ec). destruct (negb (affinity =? 0)).
  - wbind. eapply wp_mono; [by eapply affinity_operand|]. intros [] s1 (Hi1 & K1).
    wbind. eapply wp_mono; [by eapply affinity_operand|]. intros [] s2 (Hi2 & K2). rewrite Ec in Hi2.
    wbind. apply wp_gets. destruct (bad s2) eqn:Hb2; [by apply wp_goto|]. apply wp_ret. split_and!; auto.
  - apply wp_ret. split_and!; try done. rewrite <- Ec. eapply put_conform; [|exact Ht3'|intros m Hf; by apply conv_of_same].
    eapply put_conform; [done|exact Ht1|intros m Hf; by apply conv_of_same].
Qed.

Lemma inv_good ts s i t : inv ts s -> bad s = false -> get ts i = Some t -> cell_at good i s.
Proof.
  intros Hi Hb Ht. destruct (inv_lookup _ _ _ _ _ _ _ Hi Ht) as (m & Hm & Hc & _). exists m. split; [done|]. rewrite Hb in Hc. by eapply cell_good.
Qed.

Lemma restorable_expanded f i ts s t : inv ts s -> get ts i = Some t -> flags_ok f = true ->
  cell_at (expanded B f (bad s)) i s -> cell_at (restorable g (bad s) f) i s.
Proof.
  intros Hi Ht Hf (m & Hm & Hx). destruct (inv_lookup _ _ _ _ _ _ _ Hi Ht) as (m' & Hm' & Hc & _). assert (m' = m) as -> by congruence.
  exists m. split; [done|]. by apply with_type_ok.
Qed.

Lemma compare_values_rule op ts s t1 t3 m1 m3 c :
  inv ts s -> bad s = false -> get ts op.(p1) = Some t1 -> get ts op.(p3) = Some t3 -> t_valid t1 = true -> t_valid t3 = true ->
  s.(aMem) !! Z.to_nat op.(p1) = Some m1 -> s.(aMem) !! Z.to_nat op.(p3) = Some m3 ->
  p4_coll op = Some c -> coll_ok c = true ->
  wp (compare_values op) (fun _ s' => inv (put (put ts op.(p1) (t_conv t1)) op.(p3) (t_conv t3)) s' /\
    cell_at (restorable g (bad s') m1.(flags)) op.(p1) s' /\ cell_at (restorable g (bad s') m3.(flags)) op.(p3) s') s.
Proof.
  intros Hi Hb Ht1 Ht3 Hv1 Hv3 Hm1 Hm3 Hc Hcoll. unfold compare_values.
  assert (F1 : flags_ok m1.(flags) = true).
  { destruct (inv_lookup _ _ _ _ _ _ _ Hi Ht1) as (m & Hm & Hcm & _). assert (m = m1) as -> by congruence. apply Hcm. }
  assert (F3 : flags_ok m3.(flags) = true).
  { destruct (inv_lookup _ _ _ _ _ _ _ Hi Ht3) as (m & Hm & Hcm & _). assert (m = m3) as -> by congruence. apply Hcm. }
  wbind. eapply wp_mono; [by eapply compare_operands|]. cbv beta. intros [] s1 (Hi1 & Hb1 & C1 & C3).
  wbind. eapply wp_some; [exact Hc|].
  set (ts1 := put (put ts op.(p1) (t_conv t1)) op.(p3) (t_conv t3)) in *.
  destruct (get_put_some _ _ (t_conv t1) _ _ _ Ht1 Ht3) as [x3 G3].
  destruct (get_put_some _ _ (t_conv t3) _ _ _ G3 (get_put _ _ (t_conv t1) _ Ht1)) as [y1 G1].
  pose proof (get_put _ _ (t_conv t3) _ G3) as G3'. fold ts1 in G1, G3'.
  pose proof (inv_good _ _ _ _ Hi1 Hb1 G1) as D1. pose proof (inv_good _ _ _ _ Hi1 Hb1 G3') as D3.
  wbind. eapply wp_mono; [by eapply expand_operand|]. intros rc2 s2 (Hi2 & E1 & K2 & _ & Gd2).
  wbind. eapply wp_mono; [by eapply expand_operand|]. intros rc3 s3 (Hi3 & E3 & _ & K3 & Gd3).
  assert (X1 : cell_at (expanded B m1.(flags) (bad s3)) op.(p1) s3).
  { apply K3, E1. destruct C1 as (x & Hx & Px). exists x. split; [done|by left]. }
  assert (X3 : cell_at (expanded B m3.(flags) (bad s3)) op.(p3) s3).
  { apply E3, K2. destruct C3 as (x & Hx & Px). exists x. split; [done|by left]. }
  eapply wp_mono; [eapply compare_regs_rule; [exact Hi3|exact G3'|exact G1|by apply Gd3, Gd2|by apply Gd3, Gd2|exact Hcoll]|].
  intros res s4 (Hi4 & Em & _ & Hw). split; [done|].
  assert (W : forall f i, cell_at (expanded B f (bad s3)) i s3 -> cell_at (expanded B f (bad s4)) i s4).
  { intros f i. apply cell_at_mono; [done|]. intros x Hx. by eapply expanded_weaken. }
  split; (eapply restorable_expanded; [exact Hi4|eassumption|done|by apply W]).
Qed.

(** ** The six comparisons *)

Definition is_compare (o : opcode) : Prop := o = OP_Eq \/ o = OP_Ne \/ o = OP_Lt \/ o = OP_Le \/ o = OP_Gt \/ o = OP_Ge.

(** The types behind a comparison, as [flow] gives them. *)
Definition compare_flow (op : Op) (ts : types) : option (list (Z * types)) :=
  if has op.(p5) SQLITE_STOREP2 then
    t2 ← get ts op.(p2); _ ← need (negb (op.(p2) =? op.(p1)) && negb (op.(p2) =? op.(p3)));
    Some [(pc0 + 1, put ts op.(p2) (t_out t2))]
  else Some [(pc0 + 1, ts); (op.(p2), ts)].

Lemma get_other ts i t j tj : 0 < i -> i <> j -> get (put ts i t) j = Some tj -> get ts j = Some tj.
Proof. intros Hi Hne Hg. by rewrite get_put_ne in Hg. Qed.

(** A result written to a register that is not an operand. *)
Lemma store_out ts s i j k ti tj a b t2 m2 m' :
  inv (put (put ts i a) j b) s -> get ts i = Some ti -> get ts j = Some tj -> k <> i -> k <> j -> 0 < k ->
  get ts k = Some t2 -> s.(aMem) !! Z.to_nat k = Some m2 -> cell_ok B (bad s) m' -> conform (bad s) m' (t_out t2) ->
  inv (put (put (put ts k (t_out t2)) i a) j b) (set_aMem s (<[Z.to_nat k := m']> s.(aMem))).
Proof.
  intros Hi Hti Htj Hki Hkj Hk Ht2 Hm2 Hc Hf. pose proof (lt_get _ _ _ Hti). pose proof (lt_get _ _ _ Htj).
  rewrite (put_comm ts k i), (put_comm _ k j) by done.
  eapply inv_put; [exact Hi|rewrite !get_put_ne by done; exact Ht2|done|done].
Qed.

(** From the second switch on. *)
Lemma compare_store_wp op ts s t1 t3 a b f1 f3 res t3' l :
  inv (put (put ts op.(p1) a) op.(p3) b) s -> get ts op.(p1) = Some t1 -> get ts op.(p3) = Some t3 ->
  typed_flags f1 t1 -> typed_flags f3 t3 -> (op.(p1) = op.(p3) -> f1 = f3) ->
  cell_at (restorable g (bad s) f1) op.(p1) s -> cell_at (restorable g (bad s) f3) op.(p3) s ->
  get (put ts op.(p1) (t_compared t1)) op.(p3) = Some t3' ->
  compare_flow op (put (put ts op.(p1) (t_compared t1)) op.(p3) (t_compared t3')) = Some l ->
  wp (compare_store op f1 f3 res) (fun _ => after l) s.
Proof.
  intros Hi Ht1 Ht3 Hf1 Hf3 Heq R1 R3 Hg3 Hl. pose proof (lt_get _ _ _ Ht1) as L1. pose proof (lt_get _ _ _ Ht3) as L3.
  assert (Ec : t_compared t3' = t_compared t3).
  { destruct (Z.eq_dec op.(p1) op.(p3)) as [E|E].
    - rewrite <- E in Hg3, Ht3. rewrite (get_put _ _ _ _ Ht1) in Hg3. injection Hg3 as <-. assert (t1 = t3) as -> by congruence. done.
    - rewrite get_put_ne in Hg3 by done. congruence. }
  rewrite Ec in Hl. clear Ec Hg3 t3'.
  assert (Hboth : forall pcx tsx s', VdbeSafe.inv g prog pcx (put (put tsx op.(p1) a) op.(p3) b) s' ->
    get tsx op.(p1) = Some t1 -> get tsx op.(p3) = Some t3 ->
    cell_at (restorable g (bad s') f1) op.(p1) s' -> cell_at (restorable g (bad s') f3) op.(p3) s' ->
    wp (_ ← restore_type op.(p1) f1; restore_type op.(p3) f3)
      (fun _ => VdbeSafe.inv g prog pcx (put (put tsx op.(p1) (t_compared t1)) op.(p3) (t_compared t3))) s').
  { intros pcx tsx s' Hi' Hx1 Hx3 R1' R3'.
    destruct (get_put_some _ _ a _ _ _ Hx1 Hx3) as [x3 G3].
    destruct (get_put_some _ _ b _ _ _ G3 (get_put _ _ a _ Hx1)) as [y1 G1].
    pose proof (get_put _ _ b _ G3) as G3'. destruct (get_put_some _ _ (t_compared t1) _ _ _ G1 G3') as [z3 G3''].
    eapply wp_mono; [eapply restore_both; [exact Hi'|exact G1|exact G3'|exact Hf1|exact Hf3|exact R1'|exact R3'|exact Heq|exact G3'']|].
    intros [] s2 Hi2. by rewrite put_over in Hi2. }
  unfold compare_store, compare_flow in *. cbv zeta. destruct (has op.(p5) SQLITE_STOREP2).
  - apply bind_get in Hl as (t2' & Ht2' & Hl). apply bind_get in Hl as ([] & Hn%need_true & Hl). injection Hl as <-.
    assert (Hne1 : op.(p2) <> op.(p1)) by lia. assert (Hne3 : op.(p2) <> op.(p3)) by lia. pose proof (lt_get _ _ _ Ht2') as L2.
    assert (Ht2 : get ts op.(p2) = Some t2') by (rewrite !get_put_ne in Ht2' by done; exact Ht2').
    assert (G2 : get (put (put ts op.(p1) a) op.(p3) b) op.(p2) = Some t2') by (rewrite !get_put_ne by done; exact Ht2).
    wbind. wbind. eapply wp_reg; [exact Hi|exact G2|]. intros m2 Hm2 Hc2 Hf2. apply wp_set_raw; [by eapply set_range|].
    set (m' := set_u _ _). set (s' := set_aMem s _).
    assert (Hc' : cell_ok B (bad s) m') by (apply cell_int; [apply Hc2|destruct (compare_truth _ _); unfold_int; lia]).
    assert (Hcf : conform (bad s) m' (t_out t2')) by (eapply out_conform; [exact Hf2|reflexivity|auto]).
    pose proof (store_out _ _ _ _ _ _ _ _ _ _ _ _ Hi Ht1 Ht3 Hne1 Hne3 L2 Ht2 Hm2 Hc' Hcf) as Hi'. fold s' in Hi'.
    eapply wp_mono; [eapply Hboth; [exact Hi'|by rewrite get_put_ne by done|by rewrite get_put_ne by done|..]|].
    + destruct R1 as (x & Hx & Px). exists x. unfold s'. cbn. rewrite list_lookup_insert_ne by lia. done.
    + destruct R3 as (x & Hx & Px). exists x. unfold s'. cbn. rewrite list_lookup_insert_ne by lia. done.
    + intros [] s2 Hi2. eapply after_next; [exact Hi2|]. left. f_equal. by rewrite (put_comm ts op.(p2) op.(p1)), (put_comm _ op.(p2) op.(p3)) by done.
  - injection Hl as <-. wbind. destruct (compare_truth op.(opc) res).
    + apply wp_modify. set (s' := set_pc s _).
      assert (Hi' : VdbeSafe.inv g prog (op.(p2) - 1) (put (put ts op.(p1) a) op.(p3) b) s').
      { destruct Hi as [I1 I2 I3 I4 I5]. split; try done. by destruct I5. }
      eapply wp_mono; [by eapply Hboth|]. intros [] s2 Hi2. right. eexists _, _. split; [|exact Hi2]. right. by left.
    + apply wp_ret. eapply wp_mono; [by eapply Hboth|]. intros [] s2 Hi2. eapply after_next; [exact Hi2|by left].
Qed.

Lemma compare_follows o : is_compare o -> follows o do_Compare2.
Proof.
  intros Hop ts s op prev l Hi Hb Ho Hl.
  assert (Hf : (t1 ← get ts op.(p1); t3 ← get ts op.(p3);
      _ ← need (t1.(t_valid) && t3.(t_valid));
      _ ← need (match p4_coll op with Some c => coll_ok c | None => false end);
      _ ← need (implb (has op.(p5) SQLITE_NULLEQ) (bool_decide (op.(opc) = OP_Eq \/ op.(opc) = OP_Ne) && t1.(t_nocleared)));
      let ts := put ts op.(p1) (t_compared t1) in
      t3 ← get ts op.(p3);
      compare_flow op (put ts op.(p3) (t_compared t3))) = Some l).
  { rewrite <- Hl. unfold flow. rewrite Ho. unfold is_compare in Hop. destruct_or! Hop; by subst. }
  clear Hl. apply bind_get in Hf as (t1 & Ht1 & Hf). apply bind_get in Hf as (t3 & Ht3 & Hf).
  apply bind_get in Hf as ([] & [Hv1 Hv3]%need_true%andb_true_iff & Hf). apply bind_get in Hf as ([] & Hcoll%need_true & Hf).
  apply bind_get in Hf as ([] & Hne%need_true & Hf). cbv zeta in Hf. apply bind_get in Hf as (t3' & Hg3 & Hl).
  destruct (p4_coll op) as [c|] eqn:Hp4; [|done].
  unfold do_Compare2.
  wbind. wbind. eapply wp_reg; [done|exact Ht1|]. intros m1 Hm1 Hc1 Hf1. apply wp_bind, wp_assert; [by apply Hf1|]. apply wp_ret.
  wbind. wbind. eapply wp_reg; [done|exact Ht3|]. intros m3 Hm3 Hc3 Hf3. apply wp_bind, wp_assert; [by apply Hf3|]. apply wp_ret.
  cbv zeta. pose proof (conform_typed _ _ _ Hf1 Hb) as T1. pose proof (conform_typed _ _ _ Hf3 Hb) as T3.
  assert (Heq : op.(p1) = op.(p3) -> m1.(flags) = m3.(flags)) by (intros E; rewrite E in Hm1; congruence).
  destruct (has (Z.lor _ _) MEM_Null).
  - assert (Hi' : inv (put (put ts op.(p1) t1) op.(p3) t3) s).
    { rewrite (put_id ts _ t1) by done. by rewrite put_id by done. }
    assert (R1 : cell_at (restorable g (bad s) m1.(flags)) op.(p1) s) by (exists m1; split; [done|]; unfold restorable; by rewrite with_type_same).
    assert (R3 : cell_at (restorable g (bad s) m3.(flags)) op.(p3) s) by (exists m3; split; [done|]; unfold restorable; by rewrite with_type_same).
    destruct (has op.(p5) SQLITE_NULLEQ).
    + cbn [implb] in Hne. apply andb_true_iff in Hne as [Hq Hcl].
      wbind. apply wp_assert; [done|]. destruct T1 as (T1 & T1' & T1''). wbind. apply wp_assert; [by rewrite T1''|].
      eapply compare_store_wp; [exact Hi'|exact Ht1|exact Ht3|done|exact T3|exact Heq|exact R1|exact R3|exact Hg3|exact Hl].
    + assert (Hi2 : inv (put (put ts op.(p1) (t_compared t1)) op.(p3) (t_compared t3')) s) by (by eapply two_compared).
      unfold compare_flow in Hl. destruct (has op.(p5) SQLITE_STOREP2).
      * apply bind_get in Hl as (t2 & Ht2 & Hl). apply bind_get in Hl as ([] & Hn%need_true & Hl). injection Hl as <-.
        wbind. eapply wp_reg; [exact Hi2|exact Ht2|]. intros m2 Hm2 Hc2 Hf2.
        destruct (null_out _ _ _ _ Hc2 Hf2) as [C1 C2]. eapply wp_last; [exact Hi2|exact Ht2|exact C1|exact C2|by left].
      * injection Hl as <-. destruct (has op.(p5) SQLITE_JUMPIFNULL); [eapply wp_jump; [exact Hi2|right; by left]|eapply wp_next; [exact Hi2|by left]].
  - wbind. eapply wp_mono; [by eapply compare_values_rule|]. cbv beta. intros res s1 (Hi1 & R1 & R3).
    eapply compare_store_wp; [exact Hi1|exact Ht1|exact Ht3|exact T1|exact T3|exact Heq|exact R1|exact R3|exact Hg3|exact Hl].
Qed.
End Compare.
