(* ===== verification/VdbeJump.v ===== *)
(** * The instructions follow their types: records, jumps and functions *)

From S2P Require Import Prelude Ctype Ints Utf Printf PrintfSpec Quote AlterSpec Mem Serial Real Value Vdbe VdbeExec CellOk CellKeep VdbeType VdbeSafe VdbeOps VdbeCalc VdbeCmp.

Section Jumps.
Context `{FloatTextOk}.
Variable (g : config).
Hypothesis (He : is_enc g.(g_enc)) (Hlimit : 0 <= g.(g_limit) <= 1000000000).
Variables (row : Vdbe -> Prop) (prog : list Op) (pc0 : Z).
Hypothesis (Hpc : 0 <= pc0 < 2 ^ 31).
Abbreviation inv := (inv g prog pc0).
Abbreviation wp := (wp row).
Abbreviation B := (bound g).
Abbreviation after := (after g prog).
Abbreviation follows := (follows g row prog pc0).

(** ** States that differ in a part without a type *)

Lemma inv_ts_perm ts s c q : inv ts s -> inv (mkTypes ts.(regs) q) (set_compare s c q).
Proof. intros [I1 I2 I3 I4 I5]. split; try done. by destruct I5. Qed.

Lemma inv_fk ts s k d : inv ts s -> inv ts (set_fk s k d).
Proof. intros [I1 I2 I3 I4 I5]. split; try done. by destruct I5. Qed.

Lemma permutation_follows : follows OP_Permutation do_Permutation.
Proof.
  start. destruct (p4 op) as [| | | | | | |ai] eqn:Ep; try done. flow_inv Hl. unfold do_Permutation. rewrite Ep.
  wbind. eapply wp_some; [done|]. apply wp_modify. eapply after_next; [by apply inv_ts_perm|by left].
Qed.

(** Every cell has its bytes. *)
Definition all_good (s : Vdbe) : Prop := Forall good s.(aMem).

Lemma good_at s i m : all_good s -> s.(aMem) !! Z.to_nat i = Some m -> cell_at good i s.
Proof. intros Hg Hm. exists m. split; [done|]. by eapply Forall_lookup_1. Qed.

Lemma inv_all_good ts s : inv ts s -> bad s = false -> all_good s.
Proof.
  intros Hi Hb. apply Forall_lookup_2. intros k m Hm. destruct (Forall2_lookup_l _ _ _ _ _ (i_regs _ _ _ _ _ Hi) Hm) as (t & _ & Hc & _).
  rewrite Hb in Hc. by eapply cell_good.
Qed.

Lemma fields_loop q1 q2 ki perm0 k : forall i last ts s,
  inv ts s -> all_good s -> fields_ok k i q1 q2 ki perm0 ts = true ->
  wp (compare_fields k i q1 q2 ki perm0 last) (fun _ => inv ts) s.
Proof.
  induction k as [|k IH]; intros i last ts s Hi Hg Hk; cbn [fields_ok compare_fields] in *; [done|].
  destruct (match perm0 with Some ai => ai !! i | None => _ end) as [idx|] eqn:Ex; [|done].
  destruct (aColl ki !! i) as [c|] eqn:Ec; [|done]. destruct (aSortOrder ki !! i) as [b|] eqn:Eb; [|done].
  destruct (get ts (q1 + idx)) as [t1|] eqn:E1; [|done]. destruct (get ts (q2 + idx)) as [t2|] eqn:E2; [|done].
  apply andb_true_iff in Hk as [Hk Hrest]. apply andb_true_iff in Hk as [Hk Hc]. apply andb_true_iff in Hk as [V1 V2].
  wbind. eapply wp_some; [done|].
  wbind. wbind. eapply wp_reg; [done|exact E1|]. intros m1 Hm1 C1 F1. apply wp_bind, wp_assert; [by apply F1|]. apply wp_ret.
  wbind. wbind. eapply wp_reg; [done|exact E2|]. intros m2 Hm2 C2 F2. apply wp_bind, wp_assert; [by apply F2|]. apply wp_ret.
  wbind. eapply wp_some; [done|]. wbind. eapply wp_some; [done|].
  wbind. eapply wp_mono; [eapply compare_regs_rule; [exact Hi|exact E1|exact E2|by eapply good_at|by eapply good_at|exact Hc]|].
  intros res s1 (Hi1 & Em & _ & _). destruct (negb (res =? 0)); [by apply wp_ret|]. apply IH; [done| |done]. unfold all_good. by rewrite Em.
Qed.

Lemma compare_record_follows : follows OP_Compare do_Compare.
Proof.
  start. destruct (p4 op) as [| | | | | |ki|] eqn:Ep; try done. flow_inv Hl. unfold do_Compare. rewrite Ep.
  wbind. apply wp_gets. wbind. eapply wp_some; [done|]. wbind. apply wp_assert; [done|]. wbind. apply wp_gets.
  wbind. eapply wp_mono; [apply fields_loop; [exact Hi|by eapply inv_all_good|by rewrite (i_perm _ _ _ _ _ Hi)]|].
  intros res s1 Hi1. apply wp_modify. eapply after_next; [apply inv_ts_perm; exact Hi1|by left].
Qed.

Lemma jump_follows : follows OP_Jump do_Jump.
Proof.
  start. unfold do_Jump. wbind. apply wp_gets. eapply wp_jump; [done|]. cbn. destruct (_ <? 0); [by left|]. destruct (_ =? 0); auto.
Qed.

(** ** Jumps on values *)

Lemma once_follows : follows OP_Once do_Once.
Proof.
  start. unfold do_Once. wbind. apply wp_gets. pose proof (i_fixed _ _ _ _ _ Hi) as Hx. pose proof (x_once _ _ Hx).
  destruct (lookup_lt_is_Some_2 (aOnceFlag s) (Z.to_nat (p1 op))) as [b Hv]; [lia|].
  wbind. eapply wp_some; [destruct (Z.leb_spec 0 (p1 op)); [exact Hv|lia]|]. destruct b; [eapply wp_jump; [done|right; by left]|].
  apply wp_modify. eapply after_next; [|by left]. destruct Hi as [I1 I2 I3 I4 I5]. split; try done. destruct I5. split; try done.
  cbn. by rewrite length_insert.
Qed.

(** The jumps that look at a value. *)
Definition is_test (o : opcode) : Prop := o = OP_If \/ o = OP_IfNot \/ o = OP_IsNull \/ o = OP_NotNull.

Lemma test_follows o (f : Op -> Mem -> bool) body :
  is_test o -> (forall op, body op = (pIn1 ← valid_reg op.(p1); if f op pIn1 then jump op.(p2) else mret ())) -> follows o body.
Proof.
  intros Hop Hbody ts s op prev l Hi Hb Ho Hl. unfold is_test in Hop. regroup OP_If Hop Ho Hl. rewrite Hbody.
  wvalid m Hc Hf. destruct (f op m); [eapply wp_jump; [done|right; by left]|eapply wp_next; [done|by left]].
Qed.

Lemma if_follows o : o = OP_If \/ o = OP_IfNot -> follows o do_If.
Proof.
  intros Hop. eapply (test_follows _ (fun op m => if has m.(flags) MEM_Null then negb (op.(p3) =? 0)
    else let c := negb (SpecFloat.SFeqb (sqlite3VdbeRealValue m) d_zero) in if decide (op.(opc) = OP_IfNot) then negb c else c)); [|done].
  unfold is_test. tauto.
Qed.

Lemma isnull_follows : follows OP_IsNull do_IsNull.
Proof. apply (test_follows _ (fun _ m => has m.(flags) MEM_Null)); [unfold is_test; tauto|done]. Qed.

Lemma notnull_follows : follows OP_NotNull do_NotNull.
Proof. apply (test_follows _ (fun _ m => negb (has m.(flags) MEM_Null))); [unfold is_test; tauto|done]. Qed.

Lemma fkcounter_follows : follows OP_FkCounter do_FkCounter.
Proof.
  start. unfold do_FkCounter. apply wp_modify. destruct (negb _); (eapply after_next; [by apply inv_fk|by left]).
Qed.

Lemma fkifzero_follows : follows OP_FkIfZero do_FkIfZero.
Proof.
  start. unfold do_FkIfZero. wbind. apply wp_gets. destruct (_ =? 0); [eapply wp_jump; [done|right; by left]|eapply wp_next; [done|by left]].
Qed.

Lemma noop_follows : follows OP_Noop (fun _ => mret ()).
Proof. start. eapply wp_next; [done|by left]. Qed.

Lemma collseq_follows : follows OP_CollSeq do_CollSeq.
Proof.
  start. unfold do_CollSeq. wbind. apply wp_assert; [done|]. destruct (negb (p1 op =? 0)).
  - flow_inv Hl. wreg m Hc Hf. eapply wp_last; [done|done|apply cell_set_int; unfold_int; lia| |by left]. split; [done|].
    intros _. by split_and!.
  - injection Hl as <-. eapply wp_next; [done|by left].
Qed.

(** An integer that is replaced keeps its flags. *)
Lemma replace_conform b m t x : conform b m t -> t_valid t = true -> t_int t = true ->
  conform b (set_u m x) (mkRt true true t.(t_nodyn) t.(t_nocleared) None).
Proof.
  intros [Hv Hs] Ht Hti. split; [intros _; by apply Hv|]. intros Hb. destruct (Hs Hb) as (S1 & S2 & S3 & _). split_and!; try done. intros _. by apply S1.
Qed.

Definition is_sign (o : opcode) : Prop := o = OP_IfPos \/ o = OP_IfNeg \/ o = OP_IfZero.

Lemma sign_follows o : is_sign o -> follows o do_IfSign.
Proof.
  intros Hop ts s op prev l Hi Hb Ho Hl. unfold is_sign in Hop. regroup OP_IfPos Hop Ho Hl. unfold do_IfSign.
  wvalid m Hc Hf. pose proof (conform_strong _ _ _ Hf Hb) as (Hint & _). specialize (Hint ltac:(done)).
  wbind. apply wp_assert; [done|]. cbv zeta. set (i := if decide _ then _ else _).
  assert (Hi64 : is_i64 i) by (unfold i; destruct (decide _); [apply wrap64_i64|apply Hc]).
  wbind. eapply wp_set_reg; [done|done|by apply cell_replace|by apply replace_conform|]. intros s' Hi' _.
  match goal with |- context [if ?b then jump _ else _] => destruct b end; [eapply wp_jump; [done|right; by left]|eapply wp_next; [done|by left]].
Qed.

Lemma outint_twice t : t_outint (t_outint t) = t_outint t.
Proof. done. Qed.

Lemma memmax_follows : follows OP_MemMax do_MemMax.
Proof.
  start. unfold do_MemMax. wvalid m2 Hc2 Hf2. wvalid m1 Hc1 Hf1.
  pose proof (lt_get _ _ _ E) as L1. pose proof (lt_get _ _ _ E0) as L2.
  wbind. eapply wp_set_reg with (t' := t_outint r); [done|exact E|by apply cell_integerify|by apply integer_conform|]. intros s1 Hi1 Es1.
  wbind. eapply wp_reg; [exact Hi1|exact E2|]. intros n2 Hn2 Hd2 Hg2.
  wbind. eapply wp_set_reg with (t' := t_outint r1); [exact Hi1|exact E2|by apply cell_integerify|by apply integer_conform|]. intros s2 Hi2 Es2.
  assert (G : exists t1, get (put (put ts (p1 op) (t_outint r)) (p2 op) (t_outint r1)) (p1 op) = Some t1 /\ t_valid t1 = true /\ t_int t1 = true /\
    mkRt true true t1.(t_nodyn) t1.(t_nocleared) None = t1).
  { destruct (Z.eq_dec (p1 op) (p2 op)) as [Heq|Hne].
    - rewrite <- Heq. exists (t_outint r1). split; [|done]. rewrite <- Heq in E2. by eapply get_put.
    - exists (t_outint r). rewrite get_put_ne by (lia || done). split; [by eapply get_put|done]. }
  destruct G as (t1 & G1 & V1 & I1 & Et). pose proof (get_put _ _ (t_outint r1) _ E2) as G2.
  wbind. eapply wp_reg; [exact Hi2|exact G1|]. intros k1 Hk1 Hck1 Hgk1.
  wbind. eapply wp_reg; [exact Hi2|exact G2|]. intros k2 Hk2 Hck2 Hgk2.
  destruct (_ <? _); [|eapply wp_next; [exact Hi2|by left]].
  assert (Hb2 : bad s2 = false) by (by rewrite Es2, Es1).
  eapply wp_last with (t' := t1); [exact Hi2|exact G1| | |].
  - apply cell_replace; [done|by apply (proj1 (conform_strong _ _ _ Hgk1 Hb2))|apply Hck2].
  - rewrite <- Et. by apply replace_conform.
  - left. by rewrite (put_id _ _ t1 G1).
Qed.
End Jumps.
