(* ===== verification/VdbeFunc.v ===== *)
(** * The instructions follow their types: function calls and OP_String8 *)

From S2P Require Import Prelude Ctype Ints Utf Printf PrintfSpec Quote AlterSpec Mem Serial Real Value Vdbe VdbeExec CellOk CellKeep VdbeType VdbeSafe VdbeOps VdbeCalc VdbeCmp.

Lemma put_range_put k : forall i j f x ts ts', j < i \/ i + Z.of_nat k <= j -> 0 < j ->
  put_range k i f ts = Some ts' -> put_range k i f (put ts j x) = Some (put ts' j x).
Proof.
  induction k as [|k IH]; intros i j f x ts ts' Hj Hj0 Hp; cbn [put_range] in *; [by injection Hp as <-|].
  apply bind_get in Hp as (t & Ht & Hp). pose proof (lt_get _ _ _ Ht) as Hi0.
  rewrite get_put_ne, Ht by lia. cbn [mbind option_bind]. rewrite put_comm by lia. apply IH; [lia|done|done].
Qed.

Lemma put_range_get k : forall i f ts ts' j tj, put_range k i f ts = Some ts' -> get ts j = Some tj -> exists tj', get ts' j = Some tj'.
Proof.
  induction k as [|k IH]; intros i f ts ts' j tj Hp Hj; cbn [put_range] in *; [injection Hp as <-; by eexists|].
  apply bind_get in Hp as (t & Ht & Hp). destruct (get_put_some _ _ (f t) _ _ _ Ht Hj) as [tj' Hj']. by eapply IH.
Qed.

(** [flow] looks at the instruction before only for its collating sequence. *)
Lemma flow_prev g prev prev' op pc0 ts : is_collseq prev = is_collseq prev' -> flow g prev op pc0 ts = flow g prev' op pc0 ts.
Proof. intros E. unfold flow. by rewrite E. Qed.

Section Calls.
Context `{FloatTextOk}.
Variable (g : config).
Hypothesis (He : is_enc g.(g_enc)) (Hlimit : 0 <= g.(g_limit) <= 1000000000).
Variables (row : Vdbe -> Prop) (prog : list Op) (pc0 : Z).
Hypothesis (Hpc : 0 <= pc0 < 2 ^ 31).
Abbreviation inv := (inv g prog pc0).
Abbreviation wp := (wp row).
Abbreviation B := (bound g).
Abbreviation after := (after g prog).
Abbreviation arg_ok b := (fun m => cell_ok B b m /\ memIsValid m = true).

(** ** The arguments *)

Lemma args_loop k : forall i ts s, inv ts s -> all_valid k i ts = true ->
  wp (for_loop k i (fun i => _ ← valid_reg i; Deephemeralize i)) (fun _ => inv ts) s.
Proof.
  induction k as [|k IH]; intros i ts s Hi Hv; cbn [all_valid for_loop] in *; [done|].
  destruct (get ts i) as [t|] eqn:Ht; [|done]. apply andb_true_iff in Hv as [Hv1 Hv2].
  wbind. wvalid m Hc Hf. eapply wp_mono; [by eapply deephemeralize|]. intros [] s1 Hi1. by apply IH.
Qed.

Lemma get_regs_rule k : forall i ts s, inv ts s -> all_valid k i ts = true ->
  wp (get_regs k i) (fun l s' => s' = s /\ length l = k /\ Forall (arg_ok (bad s)) l) s.
Proof.
  induction k as [|k IH]; intros i ts s Hi Hv; cbn [all_valid get_regs] in *; [done|].
  destruct (get ts i) as [t|] eqn:Ht; [|done]. apply andb_true_iff in Hv as [Hv1 Hv2].
  wreg m Hc Hf. wbind. eapply wp_mono; [by eapply IH|]. intros l s' (-> & Hl & Hall). apply wp_ret. split_and!; [done|cbn; lia|].
  apply List.Forall_cons; [split; [done|by apply Hf]|done].
Qed.

Lemma set_regs_rule args : forall i ts ts' s, inv ts s -> put_range (length args) i (fun _ => t_any) ts = Some ts' ->
  Forall (arg_ok (bad s)) args -> wp (set_regs i args) (fun _ s' => inv ts' s' /\ s'.(heap) = s.(heap)) s.
Proof.
  induction args as [|m args IH]; intros i ts ts' s Hi Hp Hall; cbn [length put_range set_regs] in *; [injection Hp as <-; done|].
  apply bind_get in Hp as (t & Ht & Hp). apply Forall_cons in Hall as [[Hc Hv] Hall].
  wbind. eapply wp_set_reg with (t' := t_any); [done|exact Ht|done|by split|]. intros s1 Hi1 Es. rewrite Es.
  eapply wp_mono; [eapply IH; [rewrite Es in Hi1; exact Hi1|exact Hp|exact Hall]|]. by intros [] s2 [? ?].
Qed.

(** The same for cells of which nothing is known. *)
Lemma set_regs_raw args : forall i ts ts' s, length s.(aMem) = length ts.(regs) -> put_range (length args) i (fun _ => t_any) ts = Some ts' ->
  wp (set_regs i args) (fun _ s' => s'.(heap) = s.(heap)) s.
Proof.
  induction args as [|m args IH]; intros i ts ts' s Hlen Hp; cbn [length put_range set_regs] in *; [done|].
  apply bind_get in Hp as (t & Ht & Hp). destruct (get_lookup _ _ _ Ht) as [Hi0 Hl]. apply lookup_lt_Some in Hl.
  wbind. apply wp_set_raw; [apply andb_true_iff; split; [lia|apply bool_decide_true; lia]|].
  eapply wp_mono; [eapply IH; [|exact Hp]|by intros [] s' ?]. cbn. by rewrite !length_insert.
Qed.

Lemma previous_coll_rule f ts s op0 : inv ts s -> at_pc prog (pc0 - 1) = op0 ->
  implb (needcoll f) ((pc0 >? 0) && is_collseq op0) = true ->
  wp (if needcoll f then previous_coll else mret None) (fun _ s' => s' = s) s.
Proof.
  intros Hi Hop Hn. destruct (needcoll f); [|done]. cbn [implb] in Hn. apply andb_true_iff in Hn as [Hp Hc].
  unfold VdbeSafe.wp, previous_coll. rewrite (i_pc _ _ _ _ _ Hi), (i_prog _ _ _ _ _ Hi). rewrite Hp.
  unfold at_pc in Hop. destruct (Z.leb_spec 0 (pc0 - 1)); [|lia]. rewrite Hop.
  destruct op0 as [[o q1 q2 q3 q4 q5]|]; [|done]. destruct o; try done. by destruct q4.
Qed.

(** The text of an error message, when the cell is no zero-filled blob. *)
Lemma error_text_rule ts s m :
  inv ts s -> cell_ok 1000000000 false m -> memIsValid m = true -> has m.(flags) MEM_Zero = false ->
  wp ('(m, _) ← alloc_call (ValueText m SQLITE_UTF8); _ ← alloc_call SetString; mret m)
    (fun m' s' => inv ts s' /\ s'.(aMem) = s.(aMem) /\ cell_ok 2000000000 false m') s.
Proof.
  intros Hi Hc Hv Hz. wbind.
  eapply wp_alloc; [exact Hi|by apply (value_text_intact 1000000000)|by intros [x ok] a' [_ Ha]|].
  intros [m' ok] s1 Hi1 Ea1 [Hc1 _]. wbind.
  eapply wp_alloc with (P := fun _ a' => mf s1.(heap) = true -> mf a' = true); [exact Hi1| |by intros x a' Ha|].
  - unfold awp, SetString, draw. cbn [mbind option_bind]. by destruct (mallocs (heap s1)) as [|[] l].
  - intros [] s2 Hi2 Ea2 _. apply wp_ret. split; [done|]. by rewrite Ea2.
Qed.

(** From the return of the function on. *)
Lemma function_tail ts s p t m a err l :
  inv ts s -> bad s = false -> get ts p = Some t -> cell_ok 1000000000 false m -> memIsValid m = true ->
  (err <> 0 -> has m.(flags) MEM_Zero = false) -> In (pc0 + 1, put ts p t_any) l ->
  wp (m ← (if negb (err =? 0) then '(m, _) ← alloc_call (ValueText m SQLITE_UTF8); _ ← alloc_call SetString; mret m
           else mret m : VM Mem);
      e ← db_encoding;
      '(_, m) ← alloc_call (ChangeEncoding m e);
      _ ← set_reg p m;
      limit ← gets (fun s => s.(db).(iLimit));
      if sqlite3VdbeMemTooBig limit m then goto too_big
      else if negb (err =? 0) then goto (vdbe_error_halt a)
      else mret ()) (fun _ => after l) s.
Proof.
  intros Hi Hb Ht Hc Hv Hz Hl. destruct (Z.eqb_spec err 0) as [_|Hne]; cbn [negb]; wbind.
  - apply wp_ret. wbind. apply wp_gets. rewrite (x_enc _ _ (i_fixed _ _ _ _ _ Hi)). wbind.
    eapply wp_alloc; [exact Hi|apply (changeenc_spec 1000000000); [done|exact He|by rewrite Hb|by eapply cell_good]|
      intros x a' [Ho _] Hbad; congruence|].
    intros [rc m'] s1 Hi1 Ea [Ho Hrc]. cbn [fst snd] in *. wbind. apply wp_set_raw; [by eapply set_range|].
    wbind. apply wp_gets. cbn [db set_aMem]. rewrite (x_limit _ _ (i_fixed _ _ _ _ _ Hi1)).
    destruct (sqlite3VdbeMemTooBig _ m') eqn:Hbig; [by apply wp_goto|]. apply wp_ret.
    eapply after_next; [|exact Hl]. eapply inv_put; [exact Hi1|exact Ht| |].
    + eapply toobig_cell; [apply Ho|exact Hbig|unfold bound; lia].
    + split; [intros _; by apply (o_valid _ _ _ _ _ _ Ho)|]. intros _. split_and!; done.
  - eapply wp_mono; [eapply error_text_rule; [exact Hi|done|done|by apply Hz]|]. intros m' s1 (Hi1 & Ea & Hc1).
    wbind. apply wp_gets. rewrite (x_enc _ _ (i_fixed _ _ _ _ _ Hi1)). wbind.
    eapply wp_alloc; [exact Hi1|apply (intact_attempt 4000000000); intros oom; by apply (changeenc_intact 2000000000)|by intros x a' [_ Ha]|].
    intros [rc m2] s2 Hi2 Ea2 _. cbn [fst snd] in *. wbind. apply wp_set_raw; [by eapply set_range|].
    wbind. apply wp_gets. destruct (sqlite3VdbeMemTooBig _ m2); by apply wp_goto.
Qed.

Lemma function_follows ts s op prev l :
  inv ts s -> bad s = false -> op.(opc) = OP_Function -> at_pc prog (pc0 - 1) = prev ->
  (forall f, op.(p4) = P4_FUNCDEF f -> func_ok B f) ->
  flow g prev op pc0 ts = Some l -> wp (do_Function op) (fun _ => after l) s.
Proof.
  intros Hi Hb Ho Hprev Hfun Hl. unfold flow in Hl. rewrite Ho in Hl. flow_inv Hl.
  match goal with E : put_range _ _ _ _ = Some _ |- _ => rename E into Hput end.
  destruct (p4 op) as [| | | |f| | |] eqn:Ep; try done. specialize (Hfun f eq_refl).
  match goal with E : _ && implb _ _ = true |- _ => apply andb_true_iff in E as [Hnarg Hcoll] end.
  set (k := Z.to_nat (p5 op)) in *. unfold do_Function. fold k.
  wreg m0 Hc0 Hf0. wbind. apply wp_assert; [done|]. wbind. eapply wp_mono; [by eapply args_loop|]. intros [] s1 Hi1.
  wbind. rewrite Ep. eapply wp_some; [done|]. cbn [sqlite3VdbeMemMove].
  wbind. set (from := mkMem MEM_Null _ _ _ _ _ _ _).
  eapply wp_set_reg with (t' := t_null false); [exact Hi1|exact E| |by apply null_conform|].
  { apply (cell_flags _ _ _ MEM_Null); try done; apply Hc0. }
  intros s2 Hi2 Es2.
  wbind. eapply wp_mono; [by eapply previous_coll_rule|]. intros c s2' ->.
  assert (Hv2 : all_valid k (p2 op) (put ts (p3 op) (t_null false)) = true) by (by eapply all_valid_put).
  wbind. eapply wp_mono; [by eapply get_regs_rule|]. intros args s2' (-> & Hlen & Hargs).
  wbind. apply wp_alloc_raw.
  eapply awp_mono; [apply Hfun; [apply orb_true_iff in Hnarg as [Hnarg%Z.eqb_eq|Hnarg%Z.eqb_eq]; [by left|right; rewrite Hlen; unfold k; lia]|done|clear; cbn; unfold MemSetTypeFlag; cbn [flags set_flags]; bits|exact Hargs|clear; cbn; unfold memIsValid, MemSetTypeFlag; cbn [flags set_flags]; bits|]|].
  { cbn [ctx_s]. rewrite Es2. apply (cell_null B). 1, 2: apply Hc0. }
  intros [ctx args'] a' (Hmono & Hlen' & Hok). cbn [fst snd] in *.
  assert (Hout : p3 op < p2 op \/ p2 op + Z.of_nat k <= p3 op) by lia.
  pose proof (put_range_put _ _ _ _ (t_null false) _ _ Hout (lt_get _ _ _ E) Hput) as Hp. rewrite <- Hlen, <- Hlen' in Hp.
  set (s3 := set_heap s2 a'). destruct (mf a') eqn:Ha'.
  - wbind. eapply wp_mono; [eapply set_regs_raw; [|exact Hp]|].
    { cbn. apply (Forall2_length _ _ _ (i_regs _ _ _ _ _ Hi2)). }
    intros [] s4 Eh. wbind. apply wp_gets. rewrite Eh. cbn [heap set_heap s3]. rewrite Ha'. by apply wp_goto.
  - destruct (Hok eq_refl) as (C1 & C2 & C4 & C3).
    assert (Hi3 : inv (put ts (p3 op) (t_null false)) s3) by (apply inv_heap; [done|intros Hbad; rewrite Hmono in Ha' by done; done]).
    wbind. eapply wp_mono; [eapply set_regs_rule; [exact Hi3|exact Hp|]|].
    { cbn [heap set_heap s3]. by rewrite Ha'. }
    intros [] s4 [Hi4 Eh]. wbind. apply wp_gets. rewrite Eh. cbn [heap set_heap s3]. rewrite Ha'.
    destruct (put_range_get _ _ _ _ _ _ _ Hput E) as [t3 G3].
    eapply function_tail; [exact Hi4|by rewrite Eh|by eapply get_put|exact C1|exact C2|exact C4|]. rewrite put_put. by left.
Qed.
End Calls.

(** ** OP_String8 *)

Lemma len8_range z limit : forall k, 0 <= k -> k <= len8 z limit k <= k + zlength z.
Proof.
  induction z as [|c z IH]; intros k Hk; cbn [len8]; [unfold zlength; cbn; lia|].
  assert (Hz : zlength (c :: z) = zlength z + 1) by (unfold zlength; cbn [length]; lia).
  destruct (_ && _); [specialize (IH (k + 1)); lia|]. pose proof (zlength_nonneg z). lia.
Qed.

(** The state with one instruction replaced. *)
Lemma inv_aOp g prog prog' pc0 ts s : inv g prog pc0 ts s -> inv g prog' pc0 ts (set_aOp s prog').
Proof. intros [I1 I2 I3 I4 I5]. split; try done. by destruct I5. Qed.

(** A text whose length is known to be smaller. *)
Lemma cell_data_of L m : cell_ok L false m -> is_data m = true -> 0 <= m.(n) <= L /\ m.(n) <= zlength m.(z).
Proof. intros Hc Hd. destruct (c_data _ _ _ Hc Hd) as [? [?|?]]; done. Qed.

Lemma cell_shorter L L' b m : cell_ok L b m -> has m.(flags) MEM_Zero = false -> m.(n) <= L' -> cell_ok L' b m.
Proof.
  intros [Hf Hb Hd Hi He Hz] Hz0 Hn. split; try done.
  - intros H1. destruct (Hd H1) as [? ?]. split; [lia|done].
  - by rewrite Hz0.
Qed.

Section String8.
Context `{FloatTextOk}.
Variable (g : config).
Hypothesis (He : is_enc g.(g_enc)) (Hlimit : 0 <= g.(g_limit) <= 1000000000).
Variables (row : Vdbe -> Prop) (prog : list Op) (pc0 : Z).
Hypothesis (Hpc : 0 <= pc0 < 2 ^ 31).
Abbreviation inv := (inv g prog pc0).
Abbreviation wp := (wp row).
Abbreviation B := (bound g).

(** The instruction has become another one of the same effect. *)
Definition rewritten (op : Op) (ts : types) (l : list (Z * types)) (s' : Vdbe) : Prop :=
  exists op', op'.(opc) = OP_String /\ (forall prev, flow g prev op' pc0 ts = Some l) /\
    after g (<[Z.to_nat pc0 := op']> prog) l s'.

(** The cell of the text before and after its translation. *)
Lemma setstr_cell limit m zp b : bytes_ok zp -> is_i64 m.(u) -> len8 zp limit 0 <= limit ->
  cell_ok limit b (mkMem (Z.lor (Z.lor MEM_Str MEM_Term) MEM_Static) m.(r) m.(u) (len8 zp limit 0) zp SQLITE_UTF8 false 0).
Proof.
  intros Hz Hu Hl. pose proof (len8_range zp limit 0). split; cbn [flags z n u enc]; try done; [|by left].
  intros _. split; [cbn; lia|left; cbn; lia].
Qed.

(** The instruction that takes the place, when its length is within the limit. *)
Lemma rewritten_string op ts s t t1 len zp :
  VdbeSafe.inv g (<[Z.to_nat pc0 := string_op op zp len]> prog) pc0 (put ts op.(p2) t1) s -> bad s = false -> get ts op.(p2) = Some t ->
  bytes_ok zp -> 0 <= len <= zlength zp -> len <= g.(g_limit) ->
  wp (do_String (string_op op zp len)) (fun _ => rewritten op ts [(pc0 + 1, put ts op.(p2) t_new)]) s.
Proof.
  intros Hi Hb Ht Hz Hlen Hl. set (op' := string_op op zp len) in *.
  assert (Hf : forall prev ts' t', get ts' op.(p2) = Some t' -> flow g prev op' pc0 ts' = Some [(pc0 + 1, put ts' op.(p2) t_new)]).
  { intros prev ts' t' Ht'. unfold flow, p4z, op', string_op. cbn [opc p1 p2 p3 p4]. rewrite Ht'. cbn [mbind option_bind].
    unfold need. replace (forallb is_byte zp && _ && _ && _) with true; [done|]. symmetry. rewrite !andb_true_iff. unfold zlength in *.
    split_and!; try lia. apply forallb_forall. intros c Hc%list_elem_of_In. unfold bytes_ok in Hz. rewrite Forall_forall in Hz.
    specialize (Hz c Hc). unfold is_byte. revert Hz. unfold_int. lia. }
  pose proof (Hf None _ _ (get_put _ _ t1 _ Ht)) as Hl'. rewrite put_put in Hl'.
  eapply wp_mono; [eapply (string_follows g) with (prog := <[Z.to_nat pc0 := op']> prog); [exact He|exact Hi|exact Hb|done|exact Hl']|].
  intros [] s' Ha. exists op'. split; [done|]. split; [intros prev; by eapply Hf|done].
Qed.

(** The test of the length. *)
Lemma string8_tail op ts s t t1 len zp :
  VdbeSafe.inv g (<[Z.to_nat pc0 := string_op op zp len]> prog) pc0 (put ts op.(p2) t1) s \/ g.(g_limit) < len -> bad s = false ->
  get ts op.(p2) = Some t -> bytes_ok zp -> 0 <= len <= zlength zp ->
  wp (if len >? g.(g_limit) then goto too_big else do_String (string_op op zp len))
    (fun _ => rewritten op ts [(pc0 + 1, put ts op.(p2) t_new)]) s.
Proof.
  intros Hi Hb Ht Hz Hlen. destruct (Z.gtb_spec len g.(g_limit)); [by apply wp_goto|]. destruct Hi as [Hi|?]; [|lia]. by eapply rewritten_string.
Qed.

Lemma wp_rewrite_op prog1 ts s op' Q : VdbeSafe.inv g prog1 pc0 ts s ->
  (VdbeSafe.inv g (<[Z.to_nat pc0 := op']> prog1) pc0 ts (set_aOp s (<[Z.to_nat pc0 := op']> prog1)) -> Q () (set_aOp s (<[Z.to_nat pc0 := op']> prog1))) ->
  wp (rewrite_op op') Q s.
Proof.
  intros Hi HQ. apply wp_modify. rewrite (i_pc _ _ _ _ _ Hi), (i_prog _ _ _ _ _ Hi). by apply HQ; eapply inv_aOp.
Qed.

(** The translation of a UTF-8 text to UTF-16. *)
Lemma changeenc_dyn L e m a :
  0 <= L -> is_enc e -> e <> SQLITE_UTF8 -> cell_ok L (mf a) m -> good m -> has m.(flags) MEM_Str = true -> m.(enc) = SQLITE_UTF8 ->
  awp (ChangeEncoding m e) (fun x a' => x.1 = SQLITE_OK ->
    mf a' = mf a /\ cell_ok (2 * L) (mf a) x.2 /\ has x.2.(flags) MEM_Dyn = true /\ has x.2.(flags) MEM_Str = true /\
    (memIsValid m = true -> memIsValid x.2 = true)) a.
Proof.
  intros HL Hen Hne Hc Hg Hs E8. unfold awp, ChangeEncoding, attempt, draw. cbn [mbind option_bind].
  match goal with |- context [sqlite3VdbeChangeEncoding ?b m e] => set (oom := b) end.
  destruct (changeenc_pure L e (mf a) HL Hen oom m Hc Hg) as ([rc c2] & E & Hv & Hr). rewrite E. cbn [mbind option_bind fst snd].
  intros ->. cbn [Z.eqb SQLITE_OK]. split; [done|]. destruct Hr as [(_ & C & [Y _])|(? & _)]; [|done]. cbn [snd] in *.
  split; [done|]. split; [|split; [by rewrite (y_str _ _ Y)|done]].
  revert E. unfold sqlite3VdbeChangeEncoding. rewrite Hs, E8. cbn [negb orb].
  destruct (Z.eqb_spec SQLITE_UTF8 e) as [|_]; [congruence|]. unfold sqlite3VdbeMemTranslate. rewrite E8.
  destruct (Z.eqb_spec e SQLITE_UTF8) as [|_]; [done|]. rewrite Z.eqb_refl. cbn [negb andb].
  destruct oom; [done|]. destruct (translate _ _ _); [|done]. cbn [mbind option_bind]. intros [= <-]. cbn [flags]. clear. bits.
Qed.

Lemma string8_follows ts s op prev l :
  inv ts s -> bad s = false -> op.(opc) = OP_String8 -> flow g prev op pc0 ts = Some l ->
  wp (do_String8 op) (fun _ => rewritten op ts l) s.
Proof.
  intros Hi Hb Ho Hl. unfold flow in Hl. rewrite Ho in Hl. flow_inv Hl.
  match goal with E : get _ _ = Some ?t |- _ => rename E into Ht; rename t into t0 end.
  match goal with E : p4z _ = Some ?z |- _ => rename E into Hp4; rename z into zp end.
  assert (Hz : bytes_ok zp) by (by apply is_byte_ok). assert (Hlen : zlength zp < 2 ^ 30) by (unfold zlength; lia).
  pose proof (zlength_nonneg zp) as Hz0.
  unfold do_String8. wbind. eapply wp_out2; [exact Hi|exact Ht|]. intros m s0 Hi0 Hb0 Hf Hmz Hmu.
  wbind. eapply wp_some; [exact Hp4|]. rewrite strlen30_length by done. wbind. eapply wp_rewrite_op; [exact Hi0|].
  intros Hi1. set (s1 := set_aOp s0 _) in *. assert (Hb1 : bad s1 = false) by (change (bad s0 = false); congruence).
  pose proof (i_fixed _ _ _ _ _ Hi1) as Hx. wbind. apply wp_gets. rewrite (x_enc _ _ Hx).
  wbind. apply wp_gets. rewrite (x_limit _ _ Hx). pose proof (get_put _ _ t_newint _ Ht) as G1.
  wbind. destruct (Z.eqb_spec g.(g_enc) SQLITE_UTF8) as [E8|E8]; cbn [negb].
  - apply wp_ret. eapply string8_tail; [by left|done|exact Ht|done|lia].
  - wbind. apply wp_alloc_raw. unfold awp at 1. rewrite setstr_text. wbind. apply wp_set_raw; [cbn; by eapply set_range|].
    destruct (Z.gtb_spec (len8 zp g.(g_limit) 0) g.(g_limit)) as [|Hl8]; cbn [Z.eqb SQLITE_TOOBIG SQLITE_OK Pos.eqb]; [by apply wp_goto|].
    set (c1 := mkMem _ _ _ _ _ _ _ _). pose proof (len8_range zp g.(g_limit) 0 ltac:(lia)) as Hr8.
    wbind. apply wp_alloc_raw. cbn [heap set_aMem set_heap].
    eapply awp_mono; [apply (changeenc_dyn g.(g_limit)); [lia|exact He|exact E8|by apply setstr_cell|intros _; cbn; lia|done|done]|].
    intros [rc c2] a' Hok. cbn [fst snd] in *. wbind. apply wp_set_raw.
    { cbn. rewrite length_insert. by eapply set_range. }
    destruct (Z.eqb_spec rc SQLITE_OK) as [->|Hne]; cbn [negb]; [|by apply wp_goto].
    destruct (Hok eq_refl) as (Ha & Hc2 & Hdyn & Hstr & Hval). wbind. apply wp_assert; [done|].
    rewrite Hb1 in Hc2, Ha. assert (Hdata : is_data c2 = true) by (unfold is_data; by rewrite Hstr).
    destruct (cell_data_of _ _ Hc2 Hdata) as [Hn Hnz].
    wbind. apply wp_set_raw. { cbn. rewrite !length_insert. by eapply set_range. }
    cbn [aMem set_heap set_aMem]. rewrite !list_insert_insert_eq. set (c3 := mkMem _ _ _ _ _ _ _ _).
    assert (Hc3 : n c2 <= g.(g_limit) -> cell_ok B false c3).
    { intros Hle. assert (HZ : has c2.(flags) MEM_Zero = false) by (clear -Hc2 Hstr; flag_bits).
      pose proof (cell_shorter _ B _ _ Hc2 HZ ltac:(unfold bound; lia)) as Hcb.
      apply (cell_same_bytes B false c2); try done; try (by left); try apply Hc2; unfold c3; cbn [flags]; clear -Hc2 Hstr; flag_bits. }
    wbind. apply wp_modify. set (s3 := set_aOp _ _).
    assert (Es : s3 = set_aOp (set_aMem (set_heap s1 a') (<[Z.to_nat (p2 op) := c3]> (aMem s1))) (<[Z.to_nat pc0 := string_op op (Mem.z c2) (Mem.n c2)]> prog)).
    { unfold s3. cbn [pc aOp set_aMem set_heap set_aOp s1]. rewrite (i_pc _ _ _ _ _ Hi0). by rewrite list_insert_insert_eq. }
    rewrite Es. apply wp_ret. eapply string8_tail with (t1 := t_any) (t := t0); try done; try exact Ha; try apply Hc2. 2: lia.
    destruct (Z.le_gt_cases (Mem.n c2) g.(g_limit)) as [Hle|]; [left|right; lia]. specialize (Hc3 Hle).
    assert (Hi2 : VdbeSafe.inv g (<[Z.to_nat pc0 := string_op op zp (zlength zp)]> prog) pc0 (put ts (p2 op) t_newint) (set_heap s1 a')) by (apply inv_heap; [done|congruence]).
    eapply inv_aOp. rewrite <- (put_put ts (p2 op) t_newint). eapply (inv_put _ _ _ _ _ _ _ c3 t_any Hi2 G1).
    + cbn. by rewrite Ha.
    + split; [intros _; specialize (Hval eq_refl); unfold c3, memIsValid in *; cbn [flags]; clear -Hval; revert Hval; bits|]. intros _. by split_and!.
Qed.
End String8.
