(* ===== verification/VdbeSound.v ===== *)
(** * Well-typed programs run

    The step of the interpreter keeps a state well typed; so a run is defined,
    and where it stops for a row or for lack of fuel it can go on. *)

From S2P Require Import Prelude Ctype Ints Utf Printf PrintfSpec Quote AlterSpec Mem Serial Real FloatText Value Vdbe VdbeExec CellOk CellKeep VdbeType VdbeSafe VdbeOps VdbeCalc VdbeCmp VdbeJump VdbeFunc.

(** The text of a number fits its buffer. *)
#[global] Instance convert_float_ok : FloatTextOk.
Proof.
  intros d b Hp Hw f. destruct (convert_generic_fits d b Hp Hw) as (H1 & H2 & H3).
  split_and!; [done|done|apply convert_float_bytes|]. unfold fits_int, zlength. unfold etBUFSIZE in H3. unfold f, float_text. lia.
Qed.

(** ** Types that say less *)

Lemma implb_elim a b : implb a b = true -> a = true -> b = true.
Proof. by destruct a, b. Qed.

Lemma conform_sub b m t t' : conform b m t -> sub_rt t t' = true -> conform b m t'.
Proof.
  intros [Hv Hs] Hsub. unfold sub_rt in Hsub. rewrite !andb_true_iff in Hsub. destruct Hsub as ((((I1 & I2) & I3) & I4) & I5).
  split; [intros Ht; apply Hv; by eapply implb_elim|]. intros Hb. destruct (Hs Hb) as (S1 & S2 & S3 & S4).
  split_and!; [intros Ht; apply S1; by eapply implb_elim|intros Ht; apply S2; by eapply implb_elim|intros Ht; apply S3; by eapply implb_elim|].
  intros l' Hl'. rewrite Hl' in I5. destruct (t_addr t) as [l|] eqn:El; [|done]. destruct (S4 l eq_refl) as [Hi Hin].
  split; [done|]. rewrite forallb_forall in I5. specialize (I5 _ Hin). apply existsb_exists in I5 as (x & Hx & Heq%Z.eqb_eq). by subst.
Qed.

Lemma sub_list_forall2 b B ms l l' :
  Forall2 (fun m t => cell_ok B b m /\ conform b m t) ms l -> sub_list l l' = true ->
  Forall2 (fun m t => cell_ok B b m /\ conform b m t) ms l'.
Proof.
  intros Hf. revert l'. induction Hf as [|m t ms l [Hc Ht] Hf IH]; intros [|t' l'] Hsub; cbn in Hsub; try done.
  apply andb_true_iff in Hsub as [H1 H2]. constructor; [split; [done|by eapply conform_sub]|by apply IH].
Qed.

Lemma inv_sub g prog pc0 ts ts' s : inv g prog pc0 ts s -> sub_types ts ts' = true -> inv g prog pc0 ts' s.
Proof.
  intros [I1 I2 I3 I4 I5] [Hl Hp%bool_decide_eq_true]%andb_true_iff. split; try done; [by eapply sub_list_forall2|congruence].
Qed.

Section Sound.
Variable (g : config).
Hypothesis (He : is_enc g.(g_enc)) (Hlimit : 0 <= g.(g_limit) <= 1000000000).
Variable (G : typing).
Abbreviation B := (bound g).

(** The functions of a program. *)
Definition funcs_ok (prog : list Op) : Prop := Forall (fun op => forall f, op.(p4) = P4_FUNCDEF f -> func_ok B f) prog.

(** A state before an instruction. *)
Record well_typed (s : Vdbe) : Prop := {
  w_check : check_prog g G s.(aOp) = true;
  w_funcs : funcs_ok s.(aOp);
  w_state : exists ts, at_pc G s.(pc) = Some (Some ts) /\ inv g s.(aOp) s.(pc) ts s;
}.

(** A state of a run: after a failed allocation nothing is promised but that
    the next instruction is not executed. *)
Definition running (s : Vdbe) : Prop := bad s = true \/ well_typed s.

(** A state in which a call of [sqlite3VdbeExec] can begin. *)
Definition ready (s : Vdbe) : Prop := running (set_compare s 0 None).

(** ** One instruction *)

(** The flow of the instruction at an address of a program. *)
Definition flow_at (prog : list Op) (k : nat) (ts : types) : option (list (Z * types)) :=
  op ← prog !! k; flow g (at_pc prog (Z.of_nat k - 1)) op (Z.of_nat k) ts.

(** Programs that differ in instructions with the same flow. *)
Definition same_flow (prog prog' : list Op) : Prop :=
  length prog' = length prog /\ forall k ts, G !! k = Some (Some ts) -> flow_at prog' k ts = flow_at prog k ts.

Lemma same_flow_trans p1 p2 p3 : same_flow p1 p2 -> same_flow p2 p3 -> same_flow p1 p3.
Proof. intros [L1 F1] [L2 F2]. split; [congruence|]. intros k ts Hk. by rewrite F2, F1. Qed.

Lemma check_at_flow prog k ts : length G = length prog -> G !! k = Some (Some ts) ->
  check_at g G prog k = match flow_at prog k ts with Some l => forallb (enters G) l | None => false end.
Proof.
  intros Hlen Hk. unfold check_at, flow_at. pose proof (lookup_lt_Some _ _ _ Hk).
  destruct (lookup_lt_is_Some_2 prog k) as [op ->]; [lia|]. by rewrite Hk.
Qed.

Lemma check_same_flow prog prog' : check_prog g G prog = true -> same_flow prog prog' -> check_prog g G prog' = true.
Proof.
  intros Hc [Hl Hf]. unfold check_prog in *. rewrite !andb_true_iff in *. destruct Hc as ((Hlen & Hsmall) & Hall). rewrite Hl.
  split_and!; [done|done|]. apply Nat.eqb_eq in Hlen. rewrite forallb_forall in *. intros k Hk. specialize (Hall k Hk).
  destruct (G !! k) as [[ts|]|] eqn:Hk2; try (unfold check_at; rewrite Hk2; by destruct (prog' !! k)).
  rewrite (check_at_flow prog' k ts) by (done || congruence). rewrite Hf by done. by rewrite (check_at_flow prog k ts) in Hall.
Qed.

Lemma check_instruction prog pc0 ts :
  check_prog g G prog = true -> at_pc G pc0 = Some (Some ts) ->
  0 <= pc0 < 2 ^ 31 /\ G !! Z.to_nat pc0 = Some (Some ts) /\
  exists op l, prog !! Z.to_nat pc0 = Some op /\ flow g (at_pc prog (pc0 - 1)) op pc0 ts = Some l /\ forallb (enters G) l = true.
Proof.
  intros Hc Ht. unfold check_prog in Hc. rewrite !andb_true_iff in Hc. destruct Hc as ((Hlen%Nat.eqb_eq & Hsmall) & Hall).
  unfold at_pc in Ht. destruct (Z.leb_spec 0 pc0); [|done]. pose proof (lookup_lt_Some _ _ _ Ht) as Hlt.
  split; [lia|]. split; [done|]. rewrite forallb_forall in Hall. specialize (Hall (Z.to_nat pc0)). rewrite in_seq in Hall.
  specialize (Hall ltac:(lia)). rewrite (check_at_flow _ _ ts) in Hall by done. unfold flow_at in Hall.
  destruct (lookup_lt_is_Some_2 prog (Z.to_nat pc0)) as [op Hop]; [lia|].
  rewrite Hop, Z2Nat.id in Hall by lia. cbn [mbind option_bind] in Hall. destruct (flow g _ op pc0 ts) as [l|] eqn:Hl; [|done]. by exists op, l.
Qed.

(** A program with an OP_String8 replaced by an OP_String of the same flow. *)
Lemma rewritten_same_flow prog pc0 op op' l ts :
  at_pc G pc0 = Some (Some ts) -> prog !! Z.to_nat pc0 = Some op -> op.(opc) = OP_String8 -> op'.(opc) = OP_String ->
  flow g (at_pc prog (pc0 - 1)) op pc0 ts = Some l -> (forall prev, flow g prev op' pc0 ts = Some l) ->
  same_flow prog (<[Z.to_nat pc0 := op']> prog).
Proof.
  intros Ht Hop H8 Ho Hl Hf. split; [by rewrite length_insert|]. intros k tk Hk. unfold flow_at.
  unfold at_pc in Ht. destruct (Z.leb_spec 0 pc0); [|done]. destruct (decide (k = Z.to_nat pc0)) as [->|Hne].
  - rewrite list_lookup_insert_eq by (by eapply lookup_lt_Some). rewrite Hop. cbn [mbind option_bind]. rewrite Z2Nat.id by lia.
    assert (tk = ts) as -> by congruence. by rewrite Hl, Hf.
  - rewrite list_lookup_insert_ne by done. destruct (prog !! k) as [opk|]; [|done]. cbn [mbind option_bind].
    apply flow_prev. unfold at_pc. destruct (Z.leb_spec 0 (Z.of_nat k - 1)); [|done].
    destruct (decide (Z.to_nat (Z.of_nat k - 1) = Z.to_nat pc0)) as [->|Hne1]; [|by rewrite list_lookup_insert_ne].
    rewrite list_lookup_insert_eq, Hop by (by eapply lookup_lt_Some).
    destruct op' as [o' ? ? ? ? ?], op as [o0 ? ? ? ? ?]. cbn in Ho, H8. by subst.
Qed.

Lemma after_running prog l s :
  check_prog g G prog = true -> funcs_ok prog -> forallb (enters G) l = true -> after g prog l s -> running (set_pc s (s.(pc) + 1)).
Proof.
  intros Hc Hfn Hl [Hb|(d & ts & Hin & Hi)]; [by left|right]. rewrite forallb_forall in Hl. specialize (Hl _ Hin). unfold enters in Hl. cbn [fst snd] in Hl.
  destruct (at_pc G d) as [[ts'|]|] eqn:Ed; try done. pose proof (inv_sub _ _ _ _ _ _ Hi Hl) as Hi'.
  assert (Epc : s.(pc) + 1 = d) by (rewrite (i_pc _ _ _ _ _ Hi'); lia). assert (Eprog : s.(aOp) = prog) by apply Hi'.
  rewrite Epc. split; cbn [aOp set_pc pc]; rewrite ?Eprog; try done. exists ts'. split; [done|].
  destruct Hi' as [I1 I2 I3 I4 I5]. split; try done. by destruct I5.
Qed.

Definition row_ok (s : Vdbe) : Prop := ready s.

Abbreviation goes prog l := (fun _ s' => exists prog', same_flow prog prog' /\ funcs_ok prog' /\ after g prog' l s').

Lemma follows_goes prog pc0 o body ts s op prev l :
  funcs_ok prog ->
  follows g row_ok prog pc0 o body -> inv g prog pc0 ts s -> bad s = false -> op.(opc) = o -> flow g prev op pc0 ts = Some l ->
  wp row_ok (body op) (goes prog l) s.
Proof. intros Hfn Hf Hi Hb Ho Hl. eapply wp_mono; [by eapply Hf|]. intros x s' Ha. by exists prog. Qed.

Lemma funcs_insert prog k op' : funcs_ok prog -> op'.(opc) = OP_String -> (exists prev pc0 ts l, flow g prev op' pc0 ts = Some l) -> funcs_ok (<[k := op']> prog).
Proof.
  intros Hf Ho (prev & pc0 & ts & l & Hl). apply Forall_insert; [done|]. intros f Hp. unfold flow, p4z in Hl. rewrite Ho, Hp in Hl. by destruct (get ts (p2 op')).
Qed.

Lemma dispatch_goes prog pc0 ts s op l :
  check_prog g G prog = true -> funcs_ok prog -> at_pc G pc0 = Some (Some ts) -> 0 <= pc0 < 2 ^ 31 ->
  inv g prog pc0 ts s -> bad s = false -> prog !! Z.to_nat pc0 = Some op -> flow g (at_pc prog (pc0 - 1)) op pc0 ts = Some l ->
  forallb (enters G) l = true -> wp row_ok (dispatch op) (goes prog l) s.
Proof.
  intros Hc Hfn Ht Hpc Hi Hb Hop Hl Hent. unfold dispatch.
  assert (Hfollow : forall body, follows g row_ok prog pc0 (opc op) body -> wp row_ok (body op) (goes prog l) s) by (intros; by eapply follows_goes).
  destruct (opc op) eqn:Ho;
    try (apply Hfollow; first
      [ by apply goto_follows | by apply gosub_follows | by apply return_follows | by apply yield_follows | by apply haltifnull_follows
      | by apply halt_follows | by apply integer_follows | by apply int64_follows | by apply real_follows | by apply string_follows
      | by apply null_follows | by apply blob_follows | by apply variable_follows | by apply move_follows | by apply copy_follows
      | by apply scopy_follows | by apply concat_follows
      | apply arith_follows; unfold is_arith; tauto | by apply collseq_follows | apply bits_follows; unfold is_bits; tauto
      | by apply addimm_follows | by apply mustbeint_follows | by apply realaffinity_follows | by apply totext_follows | by apply toblob_follows
      | by apply tonumeric_follows | by apply toint_follows | by apply toreal_follows
      | apply compare_follows; [done|done|unfold is_compare; tauto] | by apply permutation_follows
      | by apply compare_record_follows | by apply jump_follows | apply logic_follows; unfold is_logic; tauto | by apply not_follows
      | by apply bitnot_follows | by apply once_follows | apply if_follows; tauto | by apply isnull_follows | by apply notnull_follows
      | by apply affinity_follows | by apply fkcounter_follows | by apply fkifzero_follows | by apply memmax_follows
      | apply sign_follows; unfold is_sign; tauto ]).
  - eapply wp_mono; [by eapply string8_follows|]. intros [] s' (op' & Ho' & Hf' & Ha). exists (<[Z.to_nat pc0 := op']> prog). split_and!; [by eapply rewritten_same_flow|apply funcs_insert; [done|done|by exists None, pc0, ts, l]|done].
  - unfold flow in Hl. rewrite Ho in Hl. flow_inv Hl. eapply resultrow_wp; [exact Hi|rewrite !andb_true_iff; split_and!; done|].
    intros s' Hi'. right. unfold enters in Hent. cbn [forallb fst snd] in Hent. rewrite andb_true_r in Hent.
    destruct (at_pc G (pc0 + 1)) as [[ts'|]|] eqn:Ed; try done. pose proof (inv_sub _ _ _ _ _ _ Hi' Hent) as Hi2.
    pose proof (i_prog _ _ _ _ _ Hi2) as Eprog. pose proof (i_pc _ _ _ _ _ Hi2) as Epc.
    split; rewrite ?Eprog, ?Epc; try done. by exists ts'.
  - eapply wp_mono; [eapply function_follows; try done|intros [] s' Ha; by exists prog].
    intros f Hf. unfold funcs_ok in Hfn. rewrite Forall_lookup in Hfn. by eapply Hfn.
  - apply (Hfollow (fun _ => mret ())). by apply noop_follows.
Qed.

(** ** The run *)

(** A step that goes on, goes to an address of the flow. *)
Definition moves (s s' : Vdbe) : Prop :=
  exists ts l ts', at_pc G s.(pc) = Some (Some ts) /\ flow_at s.(aOp) (Z.to_nat s.(pc)) ts = Some l /\ In (s'.(pc), ts') l /\
    same_flow s.(aOp) s'.(aOp).

Lemma step_running s : running s ->
  match step s with
  | None => False
  | Some (inl _, s') => running s' /\ (bad s' = true \/ bad s = false /\ moves s s')
  | Some (inr l, s') => l = vdbe_return_row -> ready s'
  end.
Proof.
  intros Hr. change (wp row_ok step (fun _ s' => running s' /\ (bad s' = true \/ bad s = false /\ moves s s')) s).
  unfold step. wbind. apply wp_gets.
  destruct (bad s) eqn:Hb; [by apply wp_goto|]. destruct Hr as [|[Hc Hfn (ts & Ht & Hi)]]; [congruence|].
  destruct (check_instruction _ _ _ Hc Ht) as (Hpc & Hk & op & l & Hop & Hl & Hent).
  wbind. unfold VdbeSafe.wp at 1. destruct (Z.leb_spec 0 s.(pc)); [|lia]. rewrite Hop. cbn [mbind option_bind].
  wbind. eapply wp_mono; [by eapply dispatch_goes|]. intros [] s' (prog' & Hsame & Hfn' & Ha). apply wp_modify.
  split; [eapply after_running; [by eapply check_same_flow|done..]|].
  destruct Ha as [Hb'|(d & ts' & Hin & Hi')]; [by left|right]. split; [done|]. exists ts, l, ts'. split; [done|]. unfold flow_at. rewrite Hop.
  cbn [mbind option_bind pc set_pc aOp]. rewrite Z2Nat.id by lia. split; [done|].
  rewrite (i_pc _ _ _ _ _ Hi'), (i_prog _ _ _ _ _ Hi'). split; [by replace (d - 1 + 1) with d by lia|done].
Qed.

Lemma loop_running fuel : forall s, running s ->
  match exec_loop fuel s with
  | None => False
  | Some (inl (rc, s')) => rc = Some SQLITE_ROW -> ready s'
  | Some (inr s') => running s'
  end.
Proof.
  induction fuel as [|fuel IH]; intros s Hs; cbn [exec_loop]; [done|].
  pose proof (step_running s Hs) as Hstep. destruct (step s) as [[[[]|l] s']|]; cbn [mbind option_bind]; [by apply IH, Hstep| |done].
  destruct l; cbn [leave]; try done. intros _. by apply Hstep.
Qed.

(** The locals of the function are set, and the row of the call before is gone. *)
Lemma ready_start s r a c w : ready s -> running (set_compare (set_row (set_rc s r a) c w) 0 None).
Proof.
  intros [Hb|[Hc Hfn (ts & Ht & Hi)]]; [by left|right]. split; [done|done|]. exists ts. split; [done|].
  destruct Hi as [I1 I2 I3 I4 I5]. split; try done. by destruct I5.
Qed.

Lemma ready_exec fuel s : ready s ->
  match sqlite3VdbeExec fuel s with
  | None => False
  | Some (inl (rc, s')) => rc = Some SQLITE_ROW -> ready s'
  | Some (inr s') => running s'
  end.
Proof.
  intros Hs. unfold sqlite3VdbeExec. destruct (_ =? SQLITE_NOMEM); [done|]. cbv zeta. destruct (isInterrupted _); [done|].
  by apply loop_running, ready_start.
Qed.
End Sound.
