(* ===== verification/Func.v ===== *)
(** * SQL functions (src/lmdb-backend/src/func.c, vdbeapi.c)

    The scalar functions that compute a value from their arguments, over the
    interface of functions in vdbeapi.c: sqlite3_value_* read an argument, and
    may convert it in place; sqlite3_result_* set the result.  Each is a
    function of the kind the virtual machine calls ([FuncDef] of [Vdbe]). *)

From S2P Require Import Prelude Ctype Ints Utf Like Printf Mem Serial Real Value Vdbe VdbeExec.
From Stdlib Require Import Floats.SpecFloat.

(** ** A call in progress

    The context, the arguments, and their types at the time of the call. *)

Record call := mkCall { ctx : sqlite3_context; argv : list Mem; vtypes : list Z }.

Definition FM (A : Type) : Type := call -> AM (A * call).
#[export] Instance FM_ret : MRet FM := fun A x k => mret (x, k).
#[export] Instance FM_bind : MBind FM := fun A B f m k => '(x, k) ← m k; f x k.

Definition am {A} (m : AM A) : FM A := fun k => x ← m; mret (x, k).
Definition defined {A} (x : option A) : FM A := am (must x).
Definition get_arg (i : nat) : FM Mem := fun k => m ← must (k.(argv) !! i); mret (m, k).
Definition set_arg (i : nat) (m : Mem) : FM () := fun k => mret ((), mkCall k.(ctx) (<[i := m]> k.(argv)) k.(vtypes)).
Definition set_result (f : Mem -> Mem) : FM () := fun k =>
  mret ((), mkCall (mkContext (f k.(ctx).(ctx_s)) k.(ctx).(isError) k.(ctx).(ctx_coll)) k.(argv) k.(vtypes)).
Definition set_error (rc : Z) : FM () := fun k =>
  mret ((), mkCall (mkContext k.(ctx).(ctx_s) rc k.(ctx).(ctx_coll)) k.(argv) k.(vtypes)).
Definition argc : FM nat := fun k => mret (length k.(argv), k).
Definition GetFuncCollSeq : FM (option CollSeq) := fun k => mret (k.(ctx).(ctx_coll), k).

(** The call, as the virtual machine makes it. *)
Definition as_function (f : FM ()) (c : sqlite3_context) (args : list Mem) : AM (sqlite3_context * list Mem) :=
  '(_, k) ← f (mkCall c args (map sqlite3VdbeMemStoreType args));
  mret (k.(ctx), k.(argv)).

Definition zlen {A} (l : list A) : Z := Z.of_nat (length l).

(** [sqlite3Malloc(n)]: whether there is a block. *)
Definition sqlite3Malloc (n : Z) : FM bool :=
  if negb (malloc_size_ok n) then mret false else failed ← am draw; mret (negb failed).

Section Functions.
Context `{FloatText}.

(** [db->aLimit[SQLITE_LIMIT_LENGTH]] *)
Variable (iLimit : Z).

(** ** Arguments *)

Definition sqlite3_value_type (i : nat) : FM Z := fun k => t ← must (k.(vtypes) !! i); mret (t, k).

Definition sqlite3_value_text (i : nat) : FM (option (list Z)) :=
  m ← get_arg i;
  '(m, ok) ← am (ValueText m SQLITE_UTF8);
  _ ← set_arg i m;
  mret (if ok : bool then Some m.(z) else None).

Definition sqlite3_value_bytes (i : nat) : FM Z :=
  m ← get_arg i;
  '(m, k) ← am (sqlite3ValueBytes m SQLITE_UTF8);
  _ ← set_arg i m;
  mret k.

Definition sqlite3_value_blob (i : nat) : FM (option (list Z)) :=
  m ← get_arg i;
  if has m.(flags) (Z.lor MEM_Blob MEM_Str) then
    '(_, m) ← am (ExpandBlob m);
    let m := add_flags (clear_flags m MEM_Str) MEM_Blob in
    _ ← set_arg i m;
    mret (if (m.(n) =? 0) || has m.(flags) MEM_Null then None else Some m.(z))
  else sqlite3_value_text i.

Definition sqlite3_value_double (i : nat) : FM spec_float := m ← get_arg i; mret (sqlite3VdbeRealValue m).
Definition sqlite3_value_int64 (i : nat) : FM Z := m ← get_arg i; mret (sqlite3VdbeIntValue m).
Definition sqlite3_value_int (i : nat) : FM Z := v ← sqlite3_value_int64 i; mret (i32 v).

(** ** Results *)

Definition set_str (zp : option (list Z)) (nb e : Z) (xDel : destructor) : FM Z := fun k =>
  '(rc, m) ← sqlite3VdbeMemSetStr iLimit k.(ctx).(ctx_s) zp nb e xDel;
  mret (rc, mkCall (mkContext m k.(ctx).(isError) k.(ctx).(ctx_coll)) k.(argv) k.(vtypes)).

(** "string or blob too big" *)
Definition s_too_big : list Z :=
  [115; 116; 114; 105; 110; 103; 32; 111; 114; 32; 98; 108; 111; 98; 32; 116; 111; 111; 32; 98; 105; 103].

Definition sqlite3_result_error_toobig : FM () :=
  _ ← set_error SQLITE_TOOBIG;
  _ ← set_str (Some (s_too_big ++ [0])) (-1) SQLITE_UTF8 SQLITE_STATIC;
  mret ().

Definition setResultStrOrError (zp : option (list Z)) (nb e : Z) (xDel : destructor) : FM () :=
  rc ← set_str zp nb e xDel;
  if rc =? SQLITE_TOOBIG then sqlite3_result_error_toobig else mret ().

Definition sqlite3_result_text (zp : option (list Z)) (nb : Z) (xDel : destructor) : FM () := setResultStrOrError zp nb SQLITE_UTF8 xDel.
Definition sqlite3_result_blob (zp : option (list Z)) (nb : Z) (xDel : destructor) : FM () :=
  _ ← defined (if nb >=? 0 then Some () else None);
  setResultStrOrError zp nb 0 xDel.
Definition sqlite3_result_double (v : spec_float) : FM () := set_result (fun m => sqlite3VdbeMemSetDouble m v).
Definition sqlite3_result_int64 (v : Z) : FM () := set_result (fun m => sqlite3VdbeMemSetInt64 m v).
Definition sqlite3_result_int (v : Z) : FM () := sqlite3_result_int64 (i32 v).
Definition sqlite3_result_null : FM () := set_result sqlite3VdbeMemSetNull.
Definition sqlite3_result_zeroblob (nb : Z) : FM () := set_result (fun m => sqlite3VdbeMemSetZeroBlob m nb).

Definition sqlite3_result_value (pValue : Mem) : FM () := fun k =>
  '(_, m) ← sqlite3VdbeMemCopy k.(ctx).(ctx_s) pValue;
  mret ((), mkCall (mkContext m k.(ctx).(isError) k.(ctx).(ctx_coll)) k.(argv) k.(vtypes)).

Definition sqlite3_result_error (msg : list Z) : FM () :=
  _ ← set_error SQLITE_ERROR;
  _ ← set_str (Some (msg ++ [0])) (-1) SQLITE_UTF8 SQLITE_TRANSIENT;
  mret ().

Definition sqlite3_result_error_nomem : FM () :=
  _ ← set_result sqlite3VdbeMemSetNull;
  _ ← set_error SQLITE_NOMEM;
  am set_mallocFailed.

(** Whether there is a block of that size; the error is set otherwise. *)
Definition contextMalloc (nByte : Z) : FM bool :=
  _ ← defined (if nByte >? 0 then Some () else None);
  if nByte >? iLimit then _ ← sqlite3_result_error_toobig; mret false
  else
    ok ← sqlite3Malloc (i32 nByte);
    _ ← (if ok : bool then mret () else sqlite3_result_error_nomem : FM ());
    mret ok.

(** ** Types, lengths and numbers *)

(** "integer", "text", "real", "blob", "null" *)
Definition type_name (t : Z) : list Z :=
  if t =? SQLITE_INTEGER then [105; 110; 116; 101; 103; 101; 114]
  else if t =? SQLITE_TEXT then [116; 101; 120; 116]
  else if t =? SQLITE_FLOAT then [114; 101; 97; 108]
  else if t =? SQLITE_BLOB then [98; 108; 111; 98]
  else [110; 117; 108; 108].

Definition typeofFunc : FM () :=
  t ← sqlite3_value_type 0;
  sqlite3_result_text (Some (type_name t ++ [0])) (-1) SQLITE_STATIC.

(** [while( *z ){ len++; SQLITE_SKIP_UTF8(z); }] *)
Fixpoint count_chars (fuel : nat) (z : list Z) (len : Z) : Z :=
  match fuel with
  | O => len
  | S fuel => if deref z =? 0 then len else count_chars fuel (skip z) (len + 1)
  end.

Definition lengthFunc : FM () :=
  t ← sqlite3_value_type 0;
  if (t =? SQLITE_BLOB) || (t =? SQLITE_INTEGER) || (t =? SQLITE_FLOAT) then
    k ← sqlite3_value_bytes 0; sqlite3_result_int k
  else if t =? SQLITE_TEXT then
    zp ← sqlite3_value_text 0;
    match zp with
    | None => mret ()
    | Some z => sqlite3_result_int (count_chars (length z) z 0)
    end
  else sqlite3_result_null.

(** "integer overflow" *)
Definition s_overflow : list Z := [105; 110; 116; 101; 103; 101; 114; 32; 111; 118; 101; 114; 102; 108; 111; 119].

Definition absFunc : FM () :=
  t ← sqlite3_value_type 0;
  if t =? SQLITE_INTEGER then
    iVal ← sqlite3_value_int64 0;
    if iVal <? 0 then
      if i64 (Z.shiftl iVal 1) =? 0 then sqlite3_result_error s_overflow
      else sqlite3_result_int64 (- iVal)
    else sqlite3_result_int64 iVal
  else if t =? SQLITE_NULL then sqlite3_result_null
  else
    rVal ← sqlite3_value_double 0;
    sqlite3_result_double (if SFltb rVal d_zero then SFopp rVal else rVal).

(** "%.*f" *)
Definition fmt_round : list Z := [37; 46; 42; 102].

(** [sqlite3_mprintf], on the allocations to come. *)
Definition mprintf (fmt : list Z) (l : list Printf.arg) : FM (option (list Z)) := fun k a =>
  let p := set_useMalloc (sqlite3StrAccumInit SQLITE_PRINT_BUF_SIZE SQLITE_MAX_LENGTH (map negb a.(mallocs))) 2 in
  s ← sqlite3VXPrintf false fmt l p;
  let '(t, p) := sqlite3StrAccumFinish s.(acc) in
  Some ((t, k), mkAlloc (map negb p.(allocs)) a.(mallocFailed)).

Definition d_half : spec_float := double_of_bits 0x3fe0000000000000.

Definition roundFunc : FM () :=
  k ← argc;
  _ ← defined (if (k =? 1)%nat || (k =? 2)%nat then Some () else None);
  t1 ← (if (k =? 2)%nat then sqlite3_value_type 1 else mret SQLITE_INTEGER : FM Z);
  if t1 =? SQLITE_NULL then mret ()
  else
    nd ← (if (k =? 2)%nat then sqlite3_value_int 1 else mret 0 : FM Z);
    let nd := if nd >? 30 then 30 else nd in
    let nd := if nd <? 0 then 0 else nd in
    t0 ← sqlite3_value_type 0;
    if t0 =? SQLITE_NULL then mret ()
    else
      r ← sqlite3_value_double 0;
      let big := double_of_i64 (LARGEST_INT64 - 1) in
      if (nd =? 0) && SFleb d_zero r && SFltb r big then
        sqlite3_result_double (double_of_i64 (i64_of_double (double_add r d_half)))
      else if (nd =? 0) && SFltb r d_zero && SFltb (SFopp r) big then
        sqlite3_result_double (SFopp (double_of_i64 (i64_of_double (double_add (SFopp r) d_half))))
      else
        zBuf ← mprintf fmt_round [A_int nd; A_double (bits_of_double r)];
        match zBuf with
        | None => sqlite3_result_error_nomem
        | Some t => sqlite3_result_double (snd (sqlite3AtoF t SQLITE_UTF8))
        end.

(** ** Search *)

(** [do{ nHaystack--; zHaystack++; }while( isText && (zHaystack[0]&0xc0)==0x80 )] *)
Fixpoint instr_step (isText : bool) (z : list Z) (nHaystack : Z) : list Z * Z :=
  match z with
  | [] => ([], nHaystack - 1)
  | _ :: z =>
      if isText && (Z.land (deref z) 0xc0 =? 0x80) then instr_step isText z (nHaystack - 1) else (z, nHaystack - 1)
  end.

Definition memcmp_eq (a b : list Z) (k : Z) : bool := bool_decide (take (Z.to_nat k) a = take (Z.to_nat k) b).

(** The loop and the test behind it. *)
Fixpoint instr_loop (fuel : nat) (isText : bool) (zHaystack : list Z) (nHaystack : Z) (zNeedle : list Z) (nNeedle N : Z) : Z :=
  match fuel with
  | O => 0
  | S fuel =>
      if nNeedle <=? nHaystack then
        if memcmp_eq zHaystack zNeedle nNeedle then N
        else
          let '(z, k) := instr_step isText zHaystack nHaystack in
          instr_loop fuel isText z k zNeedle nNeedle (i32 (N + 1))
      else 0
  end.

(** A NULL pointer is passed to [memcmp] when a conversion failed. *)
Definition instrFunc : FM () :=
  typeHaystack ← sqlite3_value_type 0;
  typeNeedle ← sqlite3_value_type 1;
  if (typeHaystack =? SQLITE_NULL) || (typeNeedle =? SQLITE_NULL) then mret ()
  else
    nHaystack ← sqlite3_value_bytes 0;
    nNeedle ← sqlite3_value_bytes 1;
    let isText := negb ((typeHaystack =? SQLITE_BLOB) && (typeNeedle =? SQLITE_BLOB)) in
    zHaystack ← (if isText then sqlite3_value_text 0 else sqlite3_value_blob 0);
    zNeedle ← (if isText then sqlite3_value_text 1 else sqlite3_value_blob 1);
    let null (zp : option (list Z)) := match zp with None => true | Some _ => false end in
    _ ← defined (if (nNeedle <=? nHaystack) && (0 <? nNeedle) && (null zHaystack || null zNeedle) then None else Some ());
    sqlite3_result_int
      (instr_loop (S (Z.to_nat nHaystack)) isText (default [] zHaystack) nHaystack (default [] zNeedle) nNeedle 1).

(** [while( *z && k ){ SQLITE_SKIP_UTF8(z); k--; }] *)
Fixpoint skip_chars (fuel : nat) (z : list Z) (k : Z) : list Z :=
  match fuel with
  | O => z
  | S fuel => if negb (deref z =? 0) && negb (k =? 0) then skip_chars fuel (skip z) (k - 1) else z
  end.

(** The start and the number of characters, both not negative. *)
Definition substr_range (p1 p2 len : Z) (negP2 : bool) : Z * Z :=
  let '(p1, p2) :=
    if p1 <? 0 then
      let p1 := p1 + len in
      if p1 <? 0 then (0, if p2 + p1 <? 0 then 0 else p2 + p1) else (p1, p2)
    else if p1 >? 0 then (p1 - 1, p2)
    else (p1, if p2 >? 0 then p2 - 1 else p2) in
  if negP2 then
    let p1 := p1 - p2 in
    if p1 <? 0 then (0, p2 + p1) else (p1, p2)
  else (p1, p2).

(** The end of the function, for the bytes at [z]. *)
Definition substr_result (blob : bool) (z : list Z) (p1 p2 len : Z) : FM () :=
  if negb blob then
    let z := skip_chars (length z) z p1 in
    let z2 := skip_chars (length z) z p2 in
    sqlite3_result_text (Some z) (Z.of_nat (length z) - Z.of_nat (length z2)) SQLITE_TRANSIENT
  else
    let p2 := if p1 + p2 >? len then (if len - p1 <? 0 then 0 else len - p1) else p2 in
    sqlite3_result_blob (Some (drop (Z.to_nat p1) z)) (i32 p2) SQLITE_TRANSIENT.

Definition substrFunc : FM () :=
  k ← argc;
  _ ← defined (if (k =? 3)%nat || (k =? 2)%nat then Some () else None);
  t1 ← sqlite3_value_type 1;
  t2 ← (if (k =? 3)%nat then sqlite3_value_type 2 else mret SQLITE_INTEGER : FM Z);
  if (t1 =? SQLITE_NULL) || (t2 =? SQLITE_NULL) then mret ()
  else
    p0type ← sqlite3_value_type 0;
    p1 ← sqlite3_value_int 1;
    let blob := p0type =? SQLITE_BLOB in
    len ← (if blob then sqlite3_value_bytes 0 else mret 0 : FM Z);
    zp ← (if blob then sqlite3_value_blob 0 else sqlite3_value_text 0);
    match zp with
    | None => mret ()
    | Some z =>
        let len := if blob then len else if p1 <? 0 then count_chars (length z) z 0 else 0 in
        p2 ← (if (k =? 3)%nat then sqlite3_value_int 2 else mret iLimit : FM Z);
        let negP2 := (k =? 3)%nat && (p2 <? 0) in
        let '(p1, p2) := substr_range p1 (if negP2 then - p2 else p2) len negP2 in
        _ ← defined (if (p1 >=? 0) && (p2 >=? 0) then Some () else None);
        substr_result blob z p1 p2 len
    end.

(** ** Case, quoting and hexadecimal *)

(** [upperFunc] and [lowerFunc], for the mapping of a character. *)
Definition caseFunc (f : Z -> Z) : FM () :=
  z2 ← sqlite3_value_text 0;
  n ← sqlite3_value_bytes 0;
  match z2 with
  | None => mret ()
  | Some z2 =>
      ok ← contextMalloc (n + 1);
      if ok : bool then sqlite3_result_text (Some (map f (take (Z.to_nat n) z2))) n xDel_other else mret ()
  end.

Definition upperFunc : FM () := caseFunc sqlite3Toupper.
Definition lowerFunc : FM () := caseFunc sqlite3Tolower.

(** "0123456789ABCDEF" *)
Definition hexdigits : list Z := [48; 49; 50; 51; 52; 53; 54; 55; 56; 57; 65; 66; 67; 68; 69; 70].

Definition hex_pairs (bs : list Z) : list Z :=
  concat (map (fun c => [at_ hexdigits (Z.to_nat (Z.land (Z.shiftr c 4) 0xf)); at_ hexdigits (Z.to_nat (Z.land c 0xf))]) bs).

Definition hexFunc : FM () :=
  pBlob ← sqlite3_value_blob 0;
  n ← sqlite3_value_bytes 0;
  ok ← contextMalloc (n * 2 + 1);
  if ok : bool then
    bs ← defined (match pBlob with None => if n =? 0 then Some [] else None | Some z => Some (take (Z.to_nat n) z) end);
    sqlite3_result_text (Some (hex_pairs bs ++ [0])) (i32 (n * 2)) xDel_other
  else mret ().

(** "%!.15g" and "%!.20e" *)
Definition fmt_quote : list Z := [37; 33; 46; 49; 53; 103].
Definition fmt_quote_exact : list Z := [37; 33; 46; 50; 48; 101].

Definition snprintf50 (fmt : list Z) (r : spec_float) : FM (list Z) :=
  t ← defined (sqlite3_snprintf 50 [] [] fmt [A_double (bits_of_double r)]);
  mret (default [] t).

(** The characters of [zArg], with every quote twice. *)
Fixpoint quote_loop (zArg : list Z) : list Z :=
  match zArg with
  | [] => []
  | c :: z => if c =? 0 then [] else if c =? 39 then c :: c :: quote_loop z else c :: quote_loop z
  end.

Definition quoteFunc : FM () :=
  t ← sqlite3_value_type 0;
  if t =? SQLITE_FLOAT then
    r1 ← sqlite3_value_double 0;
    zBuf ← snprintf50 fmt_quote r1;
    let r2 := snd (sqlite3AtoF (take 20 (zBuf ++ [0])) SQLITE_UTF8) in
    zBuf ← (if negb (SFeqb r1 r2) then snprintf50 fmt_quote_exact r1 else mret zBuf : FM (list Z));
    sqlite3_result_text (Some (zBuf ++ [0])) (-1) SQLITE_TRANSIENT
  else if t =? SQLITE_INTEGER then m ← get_arg 0; sqlite3_result_value m
  else if t =? SQLITE_BLOB then
    zBlob ← sqlite3_value_blob 0;
    nBlob ← sqlite3_value_bytes 0;
    ok ← contextMalloc (2 * nBlob + 4);
    if ok : bool then
      bs ← defined (match zBlob with None => if nBlob =? 0 then Some [] else None | Some z => Some (take (Z.to_nat nBlob) z) end);
      sqlite3_result_text (Some ([88; 39] ++ hex_pairs bs ++ [39; 0])) (-1) SQLITE_TRANSIENT
    else mret ()
  else if t =? SQLITE_TEXT then
    zArg ← sqlite3_value_text 0;
    match zArg with
    | None => mret ()
    | Some zArg =>
        let body := quote_loop zArg in
        ok ← contextMalloc (Z.of_nat (length body) + 3);
        if ok : bool then sqlite3_result_text (Some (39 :: body ++ [39; 0])) (Z.of_nat (length body) + 2) xDel_other else mret ()
    end
  else sqlite3_result_text (Some s_null) 4 SQLITE_STATIC.

(** ** Characters *)

Definition unicodeFunc : FM () :=
  zp ← sqlite3_value_text 0;
  match zp with
  | Some z => if negb (deref z =? 0) then sqlite3_result_int (fst (sqlite3Utf8Read z)) else mret ()
  | None => mret ()
  end.

(** The bytes of one character. *)
Definition char_bytes (x : Z) : list Z :=
  let x := if (x <? 0) || (x >? 0x10ffff) then 0xfffd else x in
  let c := Z.land x 0x1fffff in
  let tail k := u8 (0x80 + u8 (Z.land (Z.shiftr c k) 0x3f)) in
  if c <? 0x80 then [u8 (Z.land c 0xff)]
  else if c <? 0x800 then [u8 (0xC0 + u8 (Z.land (Z.shiftr c 6) 0x1f)); tail 0]
  else if c <? 0x10000 then [u8 (0xE0 + u8 (Z.land (Z.shiftr c 12) 0x0f)); tail 6; tail 0]
  else [u8 (0xF0 + u8 (Z.land (Z.shiftr c 18) 0x07)); tail 12; tail 6; tail 0].

(** The characters of the arguments from [i] on. *)
Fixpoint char_loop (k i : nat) : FM (list Z) :=
  match k with
  | O => mret []
  | S k => x ← sqlite3_value_int64 i; t ← char_loop k (S i); mret (char_bytes x ++ t)
  end.

(** The block for no arguments has no bytes, and there is none. *)
Definition charFunc : FM () :=
  k ← argc;
  ok ← sqlite3Malloc (i32 (Z.of_nat k * 4));
  if ok : bool then
    z ← char_loop k 0;
    sqlite3_result_text (Some z) (Z.of_nat (length z)) xDel_other
  else sqlite3_result_error_nomem.

Definition zeroblobFunc : FM () :=
  k ← sqlite3_value_int64 0;
  if k >? iLimit then sqlite3_result_error_toobig else sqlite3_result_zeroblob (i32 k).

(** ** Comparison *)

Definition compare_args (i j : nat) (c : option CollSeq) : FM Z :=
  m1 ← get_arg i;
  m2 ← get_arg j;
  oom ← am draw;
  res ← defined (sqlite3MemCompare oom m1 m2 c);
  _ ← am (if (oom : bool) && compare_translates m1 m2 c then set_mallocFailed else mret ());
  mret res.

Definition nullifFunc : FM () :=
  c ← GetFuncCollSeq;
  res ← compare_args 0 1 c;
  if negb (res =? 0) then m ← get_arg 0; sqlite3_result_value m else mret ().

(** The arguments from [i] on: the best one, or [None] when one is NULL. *)
Fixpoint minmax_loop (k i : nat) (mask : Z) (c : option CollSeq) (iBest : nat) : FM (option nat) :=
  match k with
  | O => mret (Some iBest)
  | S k =>
      t ← sqlite3_value_type i;
      if t =? SQLITE_NULL then mret None
      else
        res ← compare_args iBest i c;
        minmax_loop k (S i) mask c (if Z.lxor res mask >=? 0 then i else iBest)
  end.

(** [mask] is 0 for min() and -1 for max(). *)
Definition minmaxFunc (mask : Z) : FM () :=
  k ← argc;
  _ ← defined (if (1 <? k)%nat then Some () else None);
  c ← GetFuncCollSeq;
  _ ← defined (match c with Some _ => Some () | None => None end);
  t ← sqlite3_value_type 0;
  if t =? SQLITE_NULL then mret ()
  else
    best ← minmax_loop (k - 1) 1 mask c 0;
    match best with Some i => m ← get_arg i; sqlite3_result_value m | None => mret () end.

(** ** replace() and trim() *)

(** The loop at the bytes [z], [nLeft] of them in the string: the output so far,
    the bytes left, and the size of the block; the reason of a failure. *)
Inductive replace_end := Done (out z : list Z) (nLeft nOut : Z) | TooBig | NoMem.

Fixpoint replace_loop (fuel : nat) (z : list Z) (nLeft : Z) (zPattern : list Z) (nPattern : Z) (zRep : list Z) (nRep : Z)
    (out : list Z) (nOut : Z) : FM replace_end :=
  match fuel with
  | O => mret (Done out z nLeft nOut)
  | S fuel =>
      if nLeft >=? nPattern then
        if negb (deref z =? deref zPattern) || negb (memcmp_eq z zPattern nPattern) then
          replace_loop fuel (drop 1 z) (nLeft - 1) zPattern nPattern zRep nRep (out ++ [deref z]) nOut
        else
          let nOut := nOut + (nRep - nPattern) in
          if nOut - 1 >? iLimit then mret TooBig
          else
            ok ← sqlite3Malloc (i32 nOut);
            if negb ok then mret NoMem
            else replace_loop fuel (drop (Z.to_nat nPattern) z) (nLeft - nPattern) zPattern nPattern zRep nRep
                   (out ++ take (Z.to_nat nRep) zRep) nOut
      else mret (Done out z nLeft nOut)
  end.

(** Behind the loop. *)
Definition replace_finish (e : replace_end) : FM () :=
  match e with
  | TooBig => sqlite3_result_error_toobig
  | NoMem => sqlite3_result_error_nomem
  | Done out z nLeft nOut =>
      let out := out ++ take (Z.to_nat nLeft) z in
      _ ← defined (if zlen out + 1 =? nOut then Some () else None);
      sqlite3_result_text (Some (out ++ [0])) (zlen out) xDel_other
  end.

(** The call of [sqlite3_realloc] is an allocation that may fail. *)
Definition replaceFunc : FM () :=
  zStr ← sqlite3_value_text 0;
  match zStr with
  | None => mret ()
  | Some zStr =>
      nStr ← sqlite3_value_bytes 0;
      zPattern ← sqlite3_value_text 1;
      match zPattern with
      | None => mret ()
      | Some zPattern =>
          if deref zPattern =? 0 then m ← get_arg 0; sqlite3_result_value m
          else
            nPattern ← sqlite3_value_bytes 1;
            zRep ← sqlite3_value_text 2;
            match zRep with
            | None => mret ()
            | Some zRep =>
                nRep ← sqlite3_value_bytes 2;
                let nOut := nStr + 1 in
                _ ← defined (if nOut <? SQLITE_MAX_LENGTH then Some () else None);
                ok ← contextMalloc nOut;
                if negb ok then mret ()
                else
                  e ← replace_loop (S (Z.to_nat nStr)) zStr nStr zPattern nPattern zRep nRep [] nOut;
                  replace_finish e
            end
      end
  end.

(** The characters of the set. *)
Fixpoint set_of_chars (fuel : nat) (z : list Z) : list (list Z) :=
  match fuel with
  | O => []
  | S fuel => if deref z =? 0 then [] else take (SQLITE_SKIP_UTF8 z) z :: set_of_chars fuel (skip z)
  end.

(** The length of a character is kept in a byte. *)
Definition aLen (c : list Z) : Z := u8 (zlen c).

(** The length of the first character of the set that a test finds. *)
Fixpoint first_char (set : list (list Z)) (f : list Z -> bool) : option Z :=
  match set with
  | [] => None
  | c :: set => if f c then Some (aLen c) else first_char set f
  end.

(** The loops; they do not end once the length found is 0. *)
Fixpoint trim_left (fuel : nat) (set : list (list Z)) (z : list Z) (nIn : Z) : option (list Z * Z) :=
  match fuel with
  | O => None
  | S fuel =>
      if nIn >? 0 then
        match first_char set (fun c => (aLen c <=? nIn) && memcmp_eq z c (aLen c)) with
        | None => Some (z, nIn)
        | Some len => trim_left fuel set (drop (Z.to_nat len) z) (nIn - len)
        end
      else Some (z, nIn)
  end.

Fixpoint trim_right (fuel : nat) (set : list (list Z)) (z : list Z) (nIn : Z) : option Z :=
  match fuel with
  | O => None
  | S fuel =>
      if nIn >? 0 then
        match first_char set (fun c => (aLen c <=? nIn) && memcmp_eq (drop (Z.to_nat (nIn - aLen c)) z) c (aLen c)) with
        | None => Some nIn
        | Some len => trim_right fuel set z (nIn - len)
        end
      else Some nIn
  end.

(** [fl] is 1 for ltrim(), 2 for rtrim() and 3 for trim(). *)
Definition trimFunc (fl : Z) : FM () :=
  t ← sqlite3_value_type 0;
  if t =? SQLITE_NULL then mret ()
  else
    zIn ← sqlite3_value_text 0;
    match zIn with
    | None => mret ()
    | Some zIn =>
        nIn ← sqlite3_value_bytes 0;
        k ← argc;
        zCharSet ← (if (k =? 1)%nat then mret (Some [32]) else sqlite3_value_text 1 : FM (option (list Z)));
        match zCharSet with
        | None => mret ()
        | Some zCharSet =>
            let set := set_of_chars (length zCharSet) zCharSet in
            ok ← (if (k =? 1)%nat || (length set =? 0)%nat then mret true else contextMalloc (zlen set * 9) : FM bool);
            if negb ok then mret ()
            else
              let fuel := S (Z.to_nat nIn) in
              '(z, nIn) ← defined (if negb (length set =? 0)%nat && has fl 1 then trim_left fuel set zIn nIn else Some (zIn, nIn));
              nIn ← defined (if negb (length set =? 0)%nat && has fl 2 then trim_right fuel set z nIn else Some nIn);
              sqlite3_result_text (Some z) nIn SQLITE_TRANSIENT
        end
    end.

End Functions.
