(* ===== verification/FuncSafe.v ===== *)
(** * The contract of the functions (src/lmdb-backend/src/func.c)

    The theorems on well-typed programs ask the functions that a program calls
    to keep their contract ([func_ok] of [VdbeSafe]).  Here typeof and abs are
    shown to keep it, and instr not to. *)

From S2P Require Import Prelude Ctype Ints Utf Printf PrintfSpec Quote AlterSpec Mem Serial Real Value Vdbe VdbeExec CellOk CellKeep VdbeType VdbeSafe VdbeOps VdbeFunc Func.

(** ** Rules for the interface of functions *)

Definition fwp {A} (m : FM A) (Q : A -> call -> alloc -> Prop) (k : call) (a : alloc) : Prop :=
  awp (m k) (fun x a' => Q x.1 x.2 a') a.

Lemma fwp_ret {A} (x : A) Q k a : Q x k a -> fwp (mret x) Q k a.
Proof. apply awp_ret. Qed.

Lemma fwp_bind {A C} (m : FM A) (f : A -> FM C) Q k a :
  fwp m (fun x k' a' => fwp (f x) Q k' a') k a -> fwp (x ← m; f x) Q k a.
Proof. intros Hm. apply awp_bind. eapply awp_mono; [exact Hm|]. by intros [x k'] a'. Qed.

Lemma fwp_mono {A} (m : FM A) (Q Q' : A -> call -> alloc -> Prop) k a :
  fwp m Q k a -> (forall x k' a', Q x k' a' -> Q' x k' a') -> fwp m Q' k a.
Proof. intros Hm HQ. eapply awp_mono; [exact Hm|]. intros [x k'] a'. apply HQ. Qed.

(** A result that is no zero-filled blob. *)
Definition result_ok (m : Mem) : Prop :=
  cell_ok 1000000000 false m /\ memIsValid m = true /\ has m.(flags) MEM_Zero = false.

(** A step that leaves the arguments alone. *)
Definition answers (k : call) (a : alloc) (k' : call) (a' : alloc) : Prop :=
  k'.(argv) = k.(argv) /\ result_ok k'.(ctx).(ctx_s) /\ (mf a = true -> mf a' = true).

Lemma answers_trans k a k1 a1 k2 a2 : answers k a k1 a1 -> answers k1 a1 k2 a2 -> answers k a k2 a2.
Proof. intros (E1 & _ & M1) (E2 & R2 & M2). split_and!; [congruence|done|auto]. Qed.

Lemma text_result f rr uu nn zz ow sz :
  f = Z.lor (Z.lor MEM_Str MEM_Term) MEM_Static \/ f = Z.lor MEM_Str MEM_Term ->
  is_i64 uu -> bytes_ok zz -> 0 <= nn <= zlength zz -> nn <= 1000000000 ->
  result_ok (mkMem f rr uu nn zz SQLITE_UTF8 ow sz).
Proof.
  intros Hf Hu Hz Hn Hl. destruct Hf as [-> | ->]; (split_and!; [|done..]); (split; cbn [flags z u n enc]; try done; [|by left]);
    intros _; (split; [cbn; lia|left; cbn; lia]).
Qed.

Section Rules.
Context `{FloatText}.
Variable (iLimit : Z).

Lemma set_str_rule zp xDel k a :
  xDel = SQLITE_STATIC \/ xDel = SQLITE_TRANSIENT -> bytes_ok zp -> zlength zp <= 1000000000 -> result_ok k.(ctx).(ctx_s) ->
  fwp (set_str iLimit (Some zp) (-1) SQLITE_UTF8 xDel) (fun _ => answers k a) k a.
Proof.
  intros Hx Hz Hl Hk. pose proof (len8_range zp iLimit 0 ltac:(done)) as Hn. pose proof (c_int _ _ _ (proj1 Hk)) as Hu.
  unfold fwp, set_str. apply awp_bind. destruct Hx as [-> | ->].
  - unfold awp at 1. rewrite setstr_text. apply awp_ret. split_and!; try done. apply text_result; auto; lia.
  - unfold sqlite3VdbeMemSetStr. cbn [Z.ltb Z.compare Z.eqb Pos.eqb SQLITE_UTF8].
    apply awp_bind. destruct (len8 zp iLimit 0 >? iLimit); [apply awp_ret; cbn [negb Z.eqb SQLITE_TOOBIG SQLITE_OK]; by do 2 apply awp_ret|].
    apply awp_bind. eapply awp_mono; [apply grow_spec|]. intros [rc m1] a1 H1. cbn [fst snd] in H1.
    destruct H1 as [(-> & Ha & Hnull)|(-> & Ha & Ef & Eu & En & Ee & Ez)]; apply awp_ret; cbn [negb Z.eqb SQLITE_NOMEM SQLITE_OK].
    + do 2 apply awp_ret. split_and!; [done| |by rewrite Ha]. cbn [ctx ctx_s fst snd].
      split_and!; [by eapply nulled_cell|by eapply nulled_valid|]. by destruct Hnull as [-> _].
    + apply awp_bind. do 3 apply awp_ret. split_and!; [done| |by rewrite Ha]. cbn [ctx ctx_s fst snd].
      apply text_result; cbn [u z set_z]; [by right|by rewrite Eu|by apply Forall_take| |lia].
      unfold zlength in *. rewrite length_take. replace (has (Z.lor MEM_Str MEM_Term) MEM_Term) with true by done. lia.
Qed.

Lemma set_error_rule rc k a : result_ok k.(ctx).(ctx_s) -> fwp (set_error rc) (fun _ => answers k a) k a.
Proof. intros Hk. by apply awp_ret. Qed.

Lemma error_rule rc zp xDel k a :
  xDel = SQLITE_STATIC \/ xDel = SQLITE_TRANSIENT -> bytes_ok zp -> zlength zp <= 1000000000 -> result_ok k.(ctx).(ctx_s) ->
  fwp (_ ← set_error rc; _ ← set_str iLimit (Some zp) (-1) SQLITE_UTF8 xDel; mret ()) (fun _ => answers k a) k a.
Proof.
  intros Hx Hz Hl Hk. apply fwp_bind. eapply fwp_mono; [by apply set_error_rule|]. intros x1 k1 a1 H1.
  apply fwp_bind. eapply fwp_mono; [apply set_str_rule; [done..|apply H1]|]. intros x2 k2 a2 H2. apply fwp_ret. exact (answers_trans _ _ _ _ _ _ H1 H2).
Qed.

Lemma result_text_rule zp k a :
  bytes_ok zp -> zlength zp <= 1000000000 -> result_ok k.(ctx).(ctx_s) ->
  fwp (sqlite3_result_text iLimit (Some zp) (-1) SQLITE_STATIC) (fun _ => answers k a) k a.
Proof.
  intros Hz Hl Hk. apply fwp_bind. eapply fwp_mono; [by apply set_str_rule; [left|..]|]. intros rc k1 a1 H1.
  destruct (rc =? SQLITE_TOOBIG); [|by apply fwp_ret].
  eapply fwp_mono; [apply error_rule; [by left| |done|apply H1]|].
  - unfold s_too_big. repeat constructor; unfold_int; lia.
  - intros x2 k2 a2 H2. exact (answers_trans _ _ _ _ _ _ H1 H2).
Qed.

Lemma set_result_rule f k a : result_ok (f k.(ctx).(ctx_s)) -> fwp (set_result f) (fun _ => answers k a) k a.
Proof. intros Hf. by apply awp_ret. Qed.

(** A function of [n] arguments that answers from their values. *)
Lemma answering_ok B n f :
  (forall k a m, k.(argv) !! 0%nat = Some m -> k.(vtypes) !! 0%nat = Some (sqlite3VdbeMemStoreType m) ->
     cell_ok B (mf a) m -> result_ok k.(ctx).(ctx_s) -> fwp f (fun _ => answers k a) k a) ->
  0 < n -> func_ok B (mkFuncDef n false (as_function f)).
Proof.
  intros Hf Hn c args a Hlen Hc Hnull Hargs Hv Hcs. cbn [nArg xFunc] in *.
  destruct args as [|m args]; [destruct Hlen; cbn in *; lia|]. pose proof Hargs as [[Hm _] _]%Forall_cons.
  assert (Hk : result_ok c.(ctx_s)).
  { assert (Hd : is_data c.(ctx_s) = false) by (clear -Hnull Hcs; flag_bits).
    assert (Hz : has c.(ctx_s).(flags) MEM_Zero = false) by (clear -Hnull Hcs; flag_bits).
    split_and!; [|done|done]. apply cell_number; try done; apply Hcs. }
  unfold as_function. apply awp_bind. eapply awp_mono.
  { apply (Hf (mkCall c (m :: args) (map sqlite3VdbeMemStoreType (m :: args))) a m); try done. }
  intros [[] k'] a' (E & (R1 & R2 & R3) & Hmono). cbn [fst snd] in *. apply awp_ret. cbn [fst snd]. rewrite E. cbn [argv].
  split; [done|]. split; [done|]. intros Ha'. split_and!; [done..|].
  destruct (mf a) eqn:Ha; [by rewrite Hmono in Ha'|]. exact Hargs.
Qed.

(** ** Functions *)

Lemma value_type_rule k a m Q :
  k.(vtypes) !! 0%nat = Some (sqlite3VdbeMemStoreType m) -> Q (sqlite3VdbeMemStoreType m) k a -> fwp (sqlite3_value_type 0) Q k a.
Proof. intros Hv HQ. unfold fwp, sqlite3_value_type. apply awp_bind. unfold awp, must. rewrite Hv. exact HQ. Qed.

Lemma get_arg_rule k a m Q : k.(argv) !! 0%nat = Some m -> Q m k a -> fwp (get_arg 0) Q k a.
Proof. intros Hv HQ. unfold fwp, get_arg. apply awp_bind. unfold awp, must. rewrite Hv. exact HQ. Qed.

Lemma typeof_ok B : func_ok B (mkFuncDef 1 false (as_function (typeofFunc iLimit))).
Proof.
  apply answering_ok; [|done]. intros k a m Hm Ht Hc Hk. apply fwp_bind. eapply value_type_rule; [exact Ht|].
  assert (Hz : forall t, bytes_ok (type_name t ++ [0]) /\ zlength (type_name t ++ [0]) <= 1000000000).
  { intros t. unfold type_name. repeat destruct (_ =? _); (split; [repeat constructor; unfold_int; lia|unfold zlength; cbn; lia]). }
  by apply result_text_rule; [apply Hz|apply Hz|].
Qed.

Lemma int64_result i k a : is_i64 i -> fwp (sqlite3_result_int64 i) (fun _ => answers k a) k a.
Proof. intros Hi. apply set_result_rule. split_and!; [by apply cell_set_int|done..]. Qed.

Lemma double_result v k a : result_ok k.(ctx).(ctx_s) -> fwp (sqlite3_result_double v) (fun _ => answers k a) k a.
Proof.
  intros (Hc & Hv & Hz). apply set_result_rule. unfold sqlite3VdbeMemSetDouble. destruct (sqlite3IsNaN v).
  - split_and!; [apply cell_null; apply Hc|unfold memIsValid, sqlite3VdbeMemSetNull, MemSetTypeFlag in *; cbn [flags set_flags] in *; revert Hv; bits|].
    unfold sqlite3VdbeMemSetNull, MemSetTypeFlag. cbn [flags set_flags]. bits.
  - split_and!; [|done..]. apply cell_number; try done; [constructor|apply Hc].
Qed.

Lemma abs_ok B : func_ok B (mkFuncDef 1 false (as_function (absFunc iLimit))).
Proof.
  apply answering_ok; [|done]. intros k a m Hm Ht Hc Hk. apply fwp_bind. eapply value_type_rule; [exact Ht|].
  destruct (_ =? SQLITE_INTEGER).
  - apply fwp_bind, fwp_bind. eapply get_arg_rule; [exact Hm|]. apply fwp_ret.
    pose proof (cell_value_range _ _ _ Hc) as Hi. set (i := sqlite3VdbeIntValue m) in *.
    destruct (Z.ltb_spec i 0) as [Hneg|Hpos]; [|by apply int64_result].
    destruct (Z.eqb_spec (i64 (Z.shiftl i 1)) 0) as [E|E].
    + apply error_rule; [by right| |done|done]. unfold s_overflow. repeat constructor; unfold_int; lia.
    + apply int64_result. revert Hi. unfold_int. intros Hi. assert (i <> - 9223372036854775808); [|lia]. intros ->. by apply E.
  - destruct (_ =? SQLITE_NULL).
    + apply set_result_rule. destruct Hk as (Hc0 & Hv & _). split_and!; [apply cell_null; apply Hc0| |];
        unfold memIsValid, sqlite3VdbeMemSetNull, MemSetTypeFlag in *; cbn [flags set_flags] in *; [revert Hv|]; bits.
    + apply fwp_bind, fwp_bind. eapply get_arg_rule; [exact Hm|]. apply fwp_ret. by apply double_result.
Qed.

(** instr of a zero-filled blob reads through a NULL pointer when the block for
    its bytes fails. *)
Lemma instr_not_ok B : 64 <= B -> ~ func_ok B (mkFuncDef 2 false (as_function instrFunc)).
Proof.
  intros HB Hf.
  set (ctx := mkContext (mkMem MEM_Null 0 0 0 [] SQLITE_UTF8 false 0) 0 None).
  set (zeroblob := mkMem (Z.lor MEM_Blob MEM_Zero) 0 10 0 [] SQLITE_UTF8 false 0).
  set (needle := mkMem MEM_Blob 0 0 1 [0] SQLITE_UTF8 false 0).
  specialize (Hf ctx [zeroblob; needle] (mkAlloc [true; true; true] false) (or_intror eq_refl) eq_refl eq_refl).
  assert (Hargs : Forall (fun m => cell_ok B false m /\ memIsValid m = true) [zeroblob; needle]).
  { assert (Hb : 0 <= 0 <= B /\ 0 <= 1 <= B /\ 0 + 10 <= B) by lia.
    assert (Hz : nZero zeroblob = 10) by done.
    repeat apply List.Forall_cons; [..|constructor]; (split; [|done]); split; try done;
      try (by repeat constructor; unfold_int; lia); try (by intros _; left);
      intros _; unfold data_ok, zero_ok, zlength; rewrite ?Hz; cbn; lia. }
  assert (Hctx : cell_ok B false ctx.(ctx_s)) by (apply cell_number; try done; constructor).
  specialize (Hf Hargs eq_refl Hctx). unfold awp in Hf.
  assert (E : xFunc (mkFuncDef 2 false (as_function instrFunc)) ctx [zeroblob; needle] (mkAlloc [true; true; true] false) = None)
    by (by vm_compute).
  by rewrite E in Hf.
Qed.
End Rules.
