(* ===== verification/VdbeRun.v ===== *)
(** * Runs of well-typed programs

    The theorems on whole runs, on programs that only jump forward, and the
    programs they are tried on. *)

From S2P Require Import Prelude Ctype Ints Utf Printf PrintfSpec Quote AlterSpec Mem Serial Real FloatText Value Vdbe VdbeExec CellOk CellKeep VdbeType VdbeSafe VdbeSound Func FuncSafe.

(** C2: A program that [check_prog] accepts runs, from a state of its types, to a
    result or to the end of its fuel: it never reads a register that is
    invalid or does not exist, fails no assertion and jumps to no address
    outside of itself, whatever its allocations do.  Where the run stops for a
    row, the next call can begin; where the fuel ends, it can go on. *)
Theorem well_typed_programs_run g G fuel s :
  is_enc g.(g_enc) -> 0 <= g.(g_limit) <= 1000000000 -> ready g G s ->
  match sqlite3VdbeExec fuel s with
  | None => False
  | Some (inl (rc, s')) => rc = Some SQLITE_ROW -> ready g G s'
  | Some (inr s') => running g G s'
  end.
Proof. intros He Hl. by apply ready_exec. Qed.

(** ** Programs without loops *)

Section Forward.
Variables (g : config) (G : typing).

Definition goes_forward (prog : list Op) (k : nat) : bool :=
  match G !! k with
  | Some (Some ts) => match flow_at g prog k ts with Some l => forallb (fun d => Z.of_nat k <? d.1) l | None => true end
  | _ => true
  end.

(** Every instruction goes on at a later one. *)
Definition forward (prog : list Op) : bool := forallb (goes_forward prog) (seq 0 (length prog)).

Lemma forward_same prog prog' : same_flow g G prog prog' -> forward prog = true -> forward prog' = true.
Proof.
  intros [Hl Hf]. unfold forward. rewrite Hl, !forallb_forall. intros H k Hk. specialize (H k Hk). unfold goes_forward in *.
  destruct (G !! k) as [[ts|]|] eqn:Hg; [|done..]. by rewrite Hf.
Qed.

Lemma forward_moves s s' : 0 <= s.(pc) -> (Z.to_nat s.(pc) < length s.(aOp))%nat -> forward s.(aOp) = true -> moves g G s s' -> s.(pc) < s'.(pc).
Proof.
  intros H0 Hlt Hf (ts & l & ts' & Ht & Hl & Hin & _). unfold forward in Hf. rewrite forallb_forall in Hf.
  specialize (Hf (Z.to_nat s.(pc))). rewrite in_seq in Hf. specialize (Hf ltac:(lia)). unfold goes_forward in Hf.
  unfold at_pc in Ht. destruct (Z.leb_spec 0 s.(pc)); [|done]. rewrite Ht, Hl, forallb_forall in Hf. specialize (Hf _ Hin). cbn [fst] in Hf. rewrite Z2Nat.id in Hf by done. by apply Z.ltb_lt.
Qed.

Lemma step_bad s : bad s = true -> step s = Some (inr no_mem, s).
Proof. intros Hb. unfold step, gets, mbind, VM_bind. by rewrite Hb. Qed.

Hypothesis (He : is_enc g.(g_enc)) (Hlimit : 0 <= g.(g_limit) <= 1000000000).

Lemma forward_loop fuel : forall s, running g G s -> bad s = false -> forward s.(aOp) = true ->
  (length s.(aOp) < Z.to_nat s.(pc) + fuel)%nat -> exists r, exec_loop fuel s = Some (inl r).
Proof.
  induction fuel as [|fuel IH]; intros s Hs Hb Hf Hlen.
  { destruct Hs as [|[Hc _ (ts & Ht & _)]]; [congruence|]. destruct (check_instruction _ _ _ _ _ Hc Ht) as (_ & _ & op & l & Hop & _).
    apply lookup_lt_Some in Hop. lia. }
  assert (Hin : 0 <= s.(pc) /\ (Z.to_nat s.(pc) < length s.(aOp))%nat).
  { destruct Hs as [|[Hc _ (ts & Ht & _)]]; [congruence|]. destruct (check_instruction _ _ _ _ _ Hc Ht) as (? & _ & op & l & Hop & _).
    apply lookup_lt_Some in Hop. lia. }
  cbn [exec_loop]. pose proof (step_running g He Hlimit G s Hs) as Hstep. destruct (step s) as [[[[]|l] s']|]; [| |done].
  2: { cbn [mbind option_bind]. by eexists. }
  cbn [mbind option_bind]. destruct Hstep as [Hs' [Hb'|[_ Hm]]].
  - destruct fuel as [|fuel]; [lia|]. cbn [exec_loop]. rewrite step_bad by done. cbn. by eexists.
  - destruct (bad s') eqn:Hb'.
    { destruct fuel as [|fuel]; [lia|]. cbn [exec_loop]. rewrite step_bad by done. cbn. by eexists. }
    destruct Hin as [H0 Hlt]. pose proof (forward_moves _ _ H0 Hlt Hf Hm) as Hpc. destruct Hm as (_ & _ & _ & _ & _ & _ & Hsame).
    apply IH; [done|done|by eapply forward_same|]. rewrite (proj1 Hsame). lia.
Qed.
End Forward.

(** C18: A well-typed program in which every instruction goes on at a later one
    leaves the loop after at most as many turns as it has instructions, and
    one. *)
Theorem forward_programs_halt g G s :
  is_enc g.(g_enc) -> 0 <= g.(g_limit) <= 1000000000 -> ready g G s -> forward g G s.(aOp) = true ->
  exists r, sqlite3VdbeExec (S (length s.(aOp))) s = Some (inl r).
Proof.
  intros He Hlimit Hs Hf. unfold sqlite3VdbeExec. destruct (_ =? SQLITE_NOMEM); [by eexists|]. cbv zeta.
  destruct (isInterrupted _); [by eexists|]. set (s1 := set_compare _ _ _).
  assert (Hr : running g G s1) by (by apply ready_start).
  destruct (bad s1) eqn:Hb; [cbn [exec_loop]; rewrite step_bad by done; cbn; by eexists|].
  eapply forward_loop; try done. change (aOp s1) with (aOp s). lia.
Qed.

(** ** A program *)

Definition op_ o p1 p2 p3 p4 p5 : Op := mkOp o p1 p2 p3 p4 p5.

(** typeof, for results of at most 1000 bytes. *)
Definition typeof_def : FuncDef := mkFuncDef 1 false (as_function (typeofFunc 1000)).

(** [r2 = 'ab'; for(r1=3; r1>0; r1--) give r2||typeof(r1)], with the body in a
    subroutine. *)
Definition loop_program : list Op := [
  op_ OP_Integer 3 1 0 P4_NOTUSED 0;
  op_ OP_String8 0 2 0 (P4_TEXT [97; 98]) 0;
  op_ OP_Gosub 3 6 0 P4_NOTUSED 0;
  op_ OP_AddImm 1 (-1) 0 P4_NOTUSED 0;
  op_ OP_IfPos 1 2 0 P4_NOTUSED 0;
  op_ OP_Halt 0 0 0 P4_NOTUSED 0;
  op_ OP_SCopy 1 5 0 P4_NOTUSED 0;
  op_ OP_Function 0 5 6 (P4_FUNCDEF typeof_def) 1;
  op_ OP_Concat 6 2 4 P4_NOTUSED 0;
  op_ OP_ResultRow 4 1 0 P4_NOTUSED 0;
  op_ OP_Return 3 0 0 P4_NOTUSED 0].

Definition t_unknown : rt := mkRt false false false false None.
Definition t_text : rt := mkRt true false false true None.
Definition loop_types : typing :=
  let at_ r1 r2 r3 r4 r5 r6 := Some (mkTypes [t_unknown; r1; r2; r3; r4; r5; r6] None) in
  let nothing := mkRt false false true false None in
  [ at_ t_unknown t_unknown nothing t_unknown t_unknown t_unknown;
    at_ t_newint t_unknown nothing t_unknown t_unknown t_unknown;
    at_ t_newint t_text nothing t_unknown t_unknown t_unknown;
    at_ t_newint t_text (t_address 2) t_text t_unknown t_unknown;
    at_ t_newint t_text (t_address 2) t_text t_unknown t_unknown;
    at_ t_newint t_text (t_address 2) t_text t_unknown t_unknown;
    at_ t_newint t_text (t_address 2) t_unknown t_unknown t_unknown;
    at_ t_newint t_text (t_address 2) t_unknown t_newint t_unknown;
    at_ t_newint t_text (t_address 2) t_unknown t_unknown t_any;
    at_ t_newint t_text (t_address 2) t_text t_unknown t_unknown;
    at_ t_newint t_text (t_address 2) t_text t_unknown t_unknown ].

Definition loop_config : config := mkConfig SQLITE_UTF16LE 1000 0 0 1.

Definition new_cell : Mem := mkMem MEM_Null 0 0 0 [] 0 false 0.
Definition start (prog : list Op) (nMem nRes e limit : Z) : Vdbe :=
  mkVdbe prog (replicate (Z.to_nat nMem + 1) new_cell) [] nRes [] 0 0 0 0 0 0 0 None (mkDb e limit false 0) (mkAlloc [] false).

(** A run can begin where every register is NULL and nothing is promised. *)
Lemma start_ready g G prog nMem nRes e limit ts :
  check_prog g G prog = true -> funcs_ok g prog ->
  at_pc G 0 = Some (Some ts) -> g = mkConfig e limit 0 0 nRes -> ts.(perm) = None ->
  Forall (fun t => t.(t_int) = false /\ t.(t_addr) = None) ts.(regs) -> length ts.(regs) = (Z.to_nat nMem + 1)%nat ->
  ready g G (start prog nMem nRes e limit).
Proof.
  intros Hc Hf Ht -> Hp Hts Hl. right. split; [done| |].
  - exact Hf.
  - exists ts. split; [done|]. split; cbn; try done.
    apply Forall2_same_length_lookup_2; [by rewrite length_replicate|]. intros k m t Hm Ht'.
    apply lookup_replicate in Hm as [-> _]. rewrite Forall_lookup in Hts. destruct (Hts _ _ Ht') as [H1 H2]. split.
    + apply (cell_number _ _ new_cell); try done. constructor.
    + split; [done|]. intros _. split_and!; rewrite ?H1, ?H2; done.
Qed.

Lemma loop_ready : ready loop_config loop_types (start loop_program 6 1 SQLITE_UTF16LE 1000).
Proof.
  eapply start_ready; [by vm_compute|repeat (apply List.Forall_cons; [by intros f [= <-]; apply typeof_ok|]); constructor|reflexivity|reflexivity|reflexivity|repeat constructor|reflexivity].
Qed.

(** Its first row is abinteger, in UTF-16. *)
Lemma well_typed_programs_run_witness :
  match sqlite3VdbeExec 100 (start loop_program 6 1 SQLITE_UTF16LE 1000) with
  | None => False
  | Some (inl (rc, s')) => rc = Some SQLITE_ROW -> ready loop_config loop_types s'
  | Some (inr s') => running loop_config loop_types s'
  end /\
  exists s' m, sqlite3VdbeExec 100 (start loop_program 6 1 SQLITE_UTF16LE 1000) = Some (inl (Some SQLITE_ROW, s')) /\
    s'.(aMem) !! Z.to_nat s'.(pResultSet) = Some m /\ content m = [97; 0; 98; 0; 105; 0; 110; 0; 116; 0; 101; 0; 103; 0; 101; 0; 114; 0].
Proof.
  split; [apply (well_typed_programs_run loop_config loop_types 100); [right; by left|done|exact loop_ready]|].
  eexists _, _. split; [vm_compute; reflexivity|]. split; reflexivity.
Defined.

(** [r3 = r1+r2], once. *)
Definition add_program : list Op := [
  op_ OP_Integer 40 1 0 P4_NOTUSED 0;
  op_ OP_Integer 2 2 0 P4_NOTUSED 0;
  op_ OP_Add 1 2 3 P4_NOTUSED 0;
  op_ OP_IsNull 3 5 0 P4_NOTUSED 0;
  op_ OP_ResultRow 3 1 0 P4_NOTUSED 0;
  op_ OP_Halt 0 0 0 P4_NOTUSED 0].

Definition add_types : typing :=
  let at_ r1 r2 r3 := Some (mkTypes [t_unknown; r1; r2; r3] None) in
  let value := mkRt true false false true None in
  [ at_ t_unknown t_unknown t_unknown;
    at_ t_newint t_unknown t_unknown;
    at_ t_newint t_newint t_unknown;
    at_ t_unknown t_unknown value;
    at_ t_unknown t_unknown value;
    at_ t_unknown t_unknown value ].

Definition add_config : config := mkConfig SQLITE_UTF8 1000 0 0 1.

Lemma forward_programs_halt_witness :
  forward add_config add_types add_program = true /\
  exists r, sqlite3VdbeExec 7 (start add_program 3 1 SQLITE_UTF8 1000) = Some (inl r).
Proof.
  split; [reflexivity|]. apply (forward_programs_halt add_config add_types (start add_program 3 1 SQLITE_UTF8 1000)); [by left|done| |reflexivity].
  eapply start_ready; [by vm_compute|repeat (apply List.Forall_cons; [by intros f|]); constructor|reflexivity|reflexivity|reflexivity|repeat constructor|reflexivity].
Defined.
