(* ===== verification/VdbeSpec.v ===== *)
(** * What the instructions compute

    Arithmetic on integers, logic of three values, comparisons of integers,
    casts between integers and texts; and the instructions whose effect goes
    beyond their result. *)

From S2P Require Import Prelude Ctype Ints Utf Printf PrintfSpec Quote AlterSpec Mem Serial Real FloatText Value Vdbe VdbeExec CellOk CellKeep VdbeType VdbeOps VdbeCalc VdbeCmp VdbeRun.
From Stdlib Require Import Floats.SpecFloat.

(** ** Cells and registers *)

(** The cell is the integer [i]; NULL; a real with the bits [x]. *)
Definition int_cell (m : Mem) (i : Z) : Prop :=
  has m.(flags) MEM_Int = true /\ has m.(flags) (Z.lor MEM_Null (Z.lor MEM_Real MEM_Zero)) = false /\ memIsValid m = true /\ m.(u) = i.
Definition null_cell (m : Mem) : Prop := has m.(flags) MEM_Null = true /\ memIsValid m = true.
Definition real_cell (m : Mem) (x : spec_float) : Prop :=
  has m.(flags) MEM_Real = true /\ has m.(flags) (Z.lor MEM_Int MEM_Null) = false /\ memIsValid m = true /\ m.(r) = bits_of_double x.

Definition register (s : Vdbe) (i : Z) : option Mem := if 0 <? i then s.(aMem) !! Z.to_nat i else None.
Definition with_register (s : Vdbe) (i : Z) (m : Mem) : Vdbe := set_aMem s (<[Z.to_nat i := m]> s.(aMem)).

Lemma run_bind {A C} (f : VM A) (k : A -> VM C) s x s' : f s = Some (inl x, s') -> (y ← f; k y) s = k x s'.
Proof. intros E. unfold mbind, VM_bind. by rewrite E. Qed.

Lemma run_reg s i m : register s i = Some m -> reg i s = Some (inl m, s).
Proof. intros E. unfold reg. fold (register s i). by rewrite E. Qed.

Lemma run_valid s i m : register s i = Some m -> memIsValid m = true -> valid_reg i s = Some (inl m, s).
Proof. intros E Hv. unfold valid_reg. erewrite run_bind by by apply run_reg. unfold assert, mbind, VM_bind. by rewrite Hv. Qed.

Lemma register_range s i m : register s i = Some m -> 0 < i /\ (Z.to_nat i < length s.(aMem))%nat.
Proof. unfold register. destruct (Z.ltb_spec 0 i); [|done]. intros E%lookup_lt_Some. done. Qed.

Lemma run_set s i m0 m : register s i = Some m0 -> set_reg i m s = Some (inl (), with_register s i m).
Proof.
  intros [H1 H2]%register_range. unfold set_reg. destruct (Z.ltb_spec 0 i); [|lia]. rewrite bool_decide_true by done. done.
Qed.

Lemma with_same s i m : register s i = Some m -> with_register s i m = s.
Proof.
  unfold register, with_register. destruct (0 <? i); [|done]. intros E. rewrite list_insert_id by exact E. by destruct s.
Qed.

Lemma register_with s i j m m0 : register s i = Some m0 ->
  register (with_register s i m) j = if j =? i then Some m else register s j.
Proof.
  intros E%register_range. unfold register, with_register. cbn. destruct (Z.eqb_spec j i) as [->|Hne].
  - destruct (Z.ltb_spec 0 i); [|lia]. rewrite list_lookup_insert_eq by tauto. done.
  - destruct (Z.ltb_spec 0 j); [|done]. rewrite list_lookup_insert_ne by lia. done.
Qed.

(** ** Arithmetic *)

(** The result as a number, for the registers [p1] and [p2]; [None] is NULL. *)
Definition exact (o : opcode) (a b : Z) : option Z :=
  match o with
  | OP_Add => Some (b + a)
  | OP_Subtract => Some (b - a)
  | OP_Multiply => Some (b * a)
  | OP_Divide => if a =? 0 then None else Some (Z.quot b a)
  | _ => if a =? 0 then None else Some (Z.rem b a)
  end.

Definition real_op (o : opcode) (x y : spec_float) : spec_float :=
  match o with
  | OP_Add => double_add y x
  | OP_Subtract => double_sub y x
  | OP_Multiply => double_mul y x
  | _ => double_div y x
  end.

(** The integer the code gives: the exact result when it is a 64-bit integer;
    for a product also where its check of the overflow fails ([mul_wraps]). *)
Definition integer_result (o : opcode) (a b v : Z) : option Z :=
  if fits v then Some v
  else match o with OP_Multiply => if mul_wraps b a then Some (i64 v) else None | _ => None end.

Definition arithmetic (o : opcode) : Prop :=
  o = OP_Add \/ o = OP_Subtract \/ o = OP_Multiply \/ o = OP_Divide \/ o = OP_Remainder.

Lemma fits_false x : fits x = false -> ~ is_i64 x.
Proof. destruct (fits_spec x); done. Qed.

(** The integer path. *)
Lemma int_math_exact o a b : arithmetic o -> is_i64 a -> is_i64 b ->
  int_math o a b = match exact o a b with
                   | None => None
                   | Some v => Some (match integer_result o a b v with Some i => inl i | None => inr () end)
                   end.
Proof.
  intros Ho Ha Hb. unfold integer_result. destruct Ho as [-> |[-> |[-> |[-> | ->]]]]; cbn [int_math exact].
  - rewrite add_spec by done. by destruct (fits (b + a)).
  - rewrite sub_spec by done. by destruct (fits (b - a)).
  - rewrite mul_total by done. by destruct (fits (b * a)), (mul_wraps b a).
  - destruct (Z.eqb_spec a 0) as [|Hz]; [done|]. rewrite smallest_int64.
    destruct (Z.eqb_spec a (-1)) as [->|Hm1], (Z.eqb_spec b (-9223372036854775808)) as [->|Hs]; cbn [andb]; [reflexivity|..];
      (replace (fits _) with true; [done|]; symmetry; destruct (fits_spec (Z.quot b a)) as [|Hn] || destruct (fits_spec (Z.quot b (-1))) as [|Hn] ||
        destruct (fits_spec (Z.quot (-9223372036854775808) a)) as [|Hn]; [done|]; destruct Hn; revert Ha Hb; unfold_int; intros; Z.quot_rem_to_equations; nia).
  - destruct (Z.eqb_spec a 0) as [|Hz]; [done|]. assert (Hf : is_i64 (Z.rem b a)).
    { pose proof (Z.rem_bound_abs b a Hz). revert Ha Hb. unfold_int. lia. }
    destruct (fits_spec (Z.rem b a)); [|done]. destruct (Z.eqb_spec a (-1)) as [->|]; [|done].
    do 2 f_equal. rewrite Z.rem_1_r. change (-1) with (- (1)). by rewrite Z.rem_opp_r', Z.rem_1_r.
Qed.

Lemma out_null m : null_cell (sqlite3VdbeMemSetNull m).
Proof. unfold null_cell, memIsValid, sqlite3VdbeMemSetNull, MemSetTypeFlag. cbn [flags set_flags]. split; bits. Qed.

Lemma out_int m i : int_cell (MemSetTypeFlag (set_u m i) MEM_Int) i.
Proof. unfold int_cell, memIsValid, MemSetTypeFlag. cbn [flags set_flags set_u u]. split_and!; [bits|bits|bits|done]. Qed.

Lemma out_real m x : real_cell (MemSetTypeFlag (set_r m x) MEM_Real) x.
Proof. unfold real_cell, memIsValid, MemSetTypeFlag. cbn [flags set_flags set_r r]. split_and!; [bits|bits|bits|done]. Qed.

Lemma int_real m i : int_cell m i -> sqlite3VdbeRealValue m = double_of_i64 i.
Proof. intros (Hi & Hr & _ & <-). rewrite !has_mask in Hr. apply orb_false_iff in Hr as [_ [Hr _]%orb_false_iff]. unfold sqlite3VdbeRealValue. by rewrite Hr, Hi. Qed.

Lemma int_flags m1 m2 i j : int_cell m1 i -> int_cell m2 j ->
  has (Z.lor m1.(flags) m2.(flags)) MEM_Null = false /\ has (Z.land m1.(flags) m2.(flags)) MEM_Int = true.
Proof.
  intros (H1 & N1 & _) (H2 & N2 & _). rewrite has_mask in N1, N2. apply orb_false_iff in N1 as [N1 _]. apply orb_false_iff in N2 as [N2 _].
  split; [by rewrite has_lor, N1, N2|]. revert H1 H2. clear. bits.
Qed.

(** C7: OP_Add, OP_Subtract, OP_Multiply, OP_Divide and OP_Remainder on registers
    that hold integers, the second operated on by the first: the exact result
    when it is a 64-bit integer, NULL for a division by zero, and the operation
    on doubles when the result is too large, but for the products that
    sqlite3MulInt64 takes for exact ([mul_wraps]), which are wrapped to 64 bits;
    no register but the third changes. *)
Theorem integer_arithmetic op s m1 m2 m3 a b :
  arithmetic op.(opc) ->
  register s op.(p1) = Some m1 -> int_cell m1 a ->
  register s op.(p2) = Some m2 -> int_cell m2 b ->
  register s op.(p3) = Some m3 -> is_i64 a -> is_i64 b ->
  exists m, do_Arith op s = Some (inl (), with_register s op.(p3) m) /\
    match exact op.(opc) a b with
    | None => null_cell m
    | Some v =>
        match integer_result op.(opc) a b v with
        | Some i => int_cell m i
        | None =>
            let x := real_op op.(opc) (double_of_i64 a) (double_of_i64 b) in
            if sqlite3IsNaN x then null_cell m else real_cell m x
        end
    end.
Proof.
  intros Ho R1 H1 R2 H2 R3 Ha Hb. exists (arith_result op.(opc) m1 m2 m3).
  assert (Hn : forall i m v, register s i = Some m -> int_cell m v -> numeric_reg i s = Some (inl (), s)).
  { intros i m v Hr (Hi & _). unfold numeric_reg. erewrite run_bind by by apply run_reg.
    replace (applyNumericAffinity m) with m by (unfold applyNumericAffinity; by rewrite has_mask, Hi, orb_true_r).
    erewrite run_set by exact Hr. by rewrite with_same. }
  split.
  - unfold do_Arith. erewrite run_bind by (apply run_valid; [exact R1|apply H1]). erewrite run_bind by (apply run_valid; [exact R2|apply H2]).
    erewrite run_bind by by eapply Hn. erewrite run_bind by by eapply Hn.
    erewrite run_bind by by apply run_reg. erewrite run_bind by by apply run_reg. erewrite run_bind by by apply run_reg. by eapply run_set.
  - unfold arith_result. destruct (int_flags _ _ _ _ H1 H2) as [-> ->]. pose proof (proj2 (proj2 (proj2 H1))) as E1. pose proof (proj2 (proj2 (proj2 H2))) as E2.
    rewrite E1, E2, int_math_exact by done. rewrite (int_real _ _ H1), (int_real _ _ H2).
    destruct (exact op.(opc) a b) as [v|] eqn:Ev; [|apply out_null]. destruct (integer_result op.(opc) a b v) as [i|] eqn:Ei; [apply out_int|].
    assert (Ef : fits v = false) by (unfold integer_result in Ei; by destruct (fits v)).
    assert (Hfp : fp_math op.(opc) (double_of_i64 a) (double_of_i64 b) = Some (real_op op.(opc) (double_of_i64 a) (double_of_i64 b))).
    { destruct Ho as [E|[E|[E|[E|E]]]]; rewrite E in *; cbn [fp_math real_op exact] in *; try done.
      - destruct (Z.eqb_spec a 0) as [|Hz]; [done|]. injection Ev as <-. apply fits_false in Ef.
        assert (a = -1) as ->; [|done]. destruct (Z.eq_dec a (-1)) as [|Hm]; [done|]. destruct Ef. revert Ha Hb. unfold_int. intros. Z.quot_rem_to_equations. nia.
      - destruct (Z.eqb_spec a 0) as [|Hz]; [done|]. injection Ev as <-. apply fits_false in Ef. destruct Ef.
        pose proof (Z.rem_bound_abs b a Hz). revert Ha Hb. unfold_int. lia. }
    rewrite Hfp. cbv zeta. destruct (sqlite3IsNaN _); [apply out_null|]. cbn [negb]. rewrite andb_false_r. apply out_real.
Qed.

(** 9223372036854775807 + 1 is a real; -7 / 2 is -3; 4294967295 * 4294967295 is
    the integer -8589934591. *)
Lemma integer_arithmetic_witness :
  let c i := mkMem MEM_Int 0 i 0 [] 0 false 0 in
  let s i j := mkVdbe [] [new_cell; c i; c j; new_cell] [] 0 [] 0 0 0 0 0 0 0 None (mkDb SQLITE_UTF8 1000 false 0) (mkAlloc [] false) in
  let run o i j m := do_Arith (op_ o 1 2 3 P4_NOTUSED 0) (s i j) = Some (inl (), with_register (s i j) 3 m) in
  (exists m, run OP_Add 1 9223372036854775807 m /\ real_cell m (double_of_bits 4890909195324358656)) /\
  (exists m, run OP_Divide 2 (-7) m /\ int_cell m (-3)) /\
  (exists m, run OP_Multiply 4294967295 4294967295 m /\ int_cell m (-8589934591)).
Proof.
  intros c s run. split; [|split].
  - destruct (integer_arithmetic (op_ OP_Add 1 2 3 P4_NOTUSED 0) (s 1 9223372036854775807) (c 1) (c 9223372036854775807) new_cell 1 9223372036854775807)
      as (m & E & Hm); try reflexivity; try (unfold int_cell; split_and!; reflexivity); try (unfold_int; lia); try done; [by left|].
    exists m. split; [exact E|exact Hm].
  - destruct (integer_arithmetic (op_ OP_Divide 1 2 3 P4_NOTUSED 0) (s 2 (-7)) (c 2) (c (-7)) new_cell 2 (-7))
      as (m & E & Hm); try reflexivity; try (unfold int_cell; split_and!; reflexivity); try (unfold_int; lia); try done; [by right; right; right; left|].
    exists m. split; [exact E|exact Hm].
  - destruct (integer_arithmetic (op_ OP_Multiply 1 2 3 P4_NOTUSED 0) (s 4294967295 4294967295) (c 4294967295) (c 4294967295) new_cell 4294967295 4294967295)
      as (m & E & Hm); try reflexivity; try (unfold int_cell; split_and!; reflexivity); try (unfold_int; lia); try done; [by right; right; left|].
    exists m. split; [exact E|exact Hm].
Defined.

(** ** Logic *)

Definition truth_value (m : Mem) : option bool :=
  if has m.(flags) MEM_Null then None else Some (negb (sqlite3VdbeIntValue m =? 0)).

(** Conjunction and disjunction of three values. *)
Definition and3 (a b : option bool) : option bool :=
  match a, b with
  | Some false, _ | _, Some false => Some false
  | Some true, Some true => Some true
  | _, _ => None
  end.
Definition or3 (a b : option bool) : option bool :=
  match a, b with
  | Some true, _ | _, Some true => Some true
  | Some false, Some false => Some false
  | _, _ => None
  end.

Definition truth_cell (m : Mem) (v : option bool) : Prop :=
  match v with None => null_cell m | Some b => int_cell m (if b then 1 else 0) end.

Lemma truth_code m : truth m = match truth_value m with None => 2 | Some true => 1 | Some false => 0 end.
Proof. unfold truth, truth_value. destruct (has _ MEM_Null); [done|]. by destruct (_ =? 0). Qed.

(** C20: OP_And and OP_Or give the conjunction and the disjunction of three values,
    whatever the types of the operands. *)
Theorem logic_three_values op s m1 m2 m3 :
  op.(opc) = OP_And \/ op.(opc) = OP_Or ->
  register s op.(p1) = Some m1 -> memIsValid m1 = true -> register s op.(p2) = Some m2 -> memIsValid m2 = true ->
  register s op.(p3) = Some m3 ->
  exists m, do_Logic op s = Some (inl (), with_register s op.(p3) m) /\
    truth_cell m ((if decide (op.(opc) = OP_And) then and3 else or3) (truth_value m1) (truth_value m2)).
Proof.
  intros Ho R1 V1 R2 V2 R3. unfold do_Logic. erewrite run_bind by by apply run_valid. erewrite run_bind by by apply run_valid.
  cbv zeta. erewrite run_bind by by apply run_reg. eexists. split; [by eapply run_set|]. rewrite !truth_code.
  destruct Ho as [-> | ->]; destruct (decide _) as [Hd|Hd]; try done; destruct (truth_value m1) as [[]|], (truth_value m2) as [[]|];
    cbn; try apply out_int; apply (out_null m3).
Qed.

(** NULL and 0 is 0; NULL or 0 is NULL. *)
Lemma logic_three_values_witness :
  let zero := mkMem MEM_Int 0 0 0 [] 0 false 0 in
  let s := mkVdbe [] [new_cell; new_cell; zero; new_cell] [] 0 [] 0 0 0 0 0 0 0 None (mkDb SQLITE_UTF8 1000 false 0) (mkAlloc [] false) in
  (exists m, do_Logic (op_ OP_And 1 2 3 P4_NOTUSED 0) s = Some (inl (), with_register s 3 m) /\ int_cell m 0) /\
  (exists m, do_Logic (op_ OP_Or 1 2 3 P4_NOTUSED 0) s = Some (inl (), with_register s 3 m) /\ null_cell m).
Proof.
  intros zero s. split.
  - apply (logic_three_values (op_ OP_And 1 2 3 P4_NOTUSED 0) s new_cell zero new_cell); [by left|reflexivity..].
  - apply (logic_three_values (op_ OP_Or 1 2 3 P4_NOTUSED 0) s new_cell zero new_cell); [by right|reflexivity..].
Defined.

(** ** Comparison *)

(** The cell is an integer or NULL. *)
Definition number_cell (m : Mem) (v : option Z) : Prop :=
  match v with Some i => int_cell m i | None => null_cell m end.

Definition relation (o : opcode) (a b : Z) : bool :=
  match o with
  | OP_Eq => a =? b
  | OP_Ne => negb (a =? b)
  | OP_Lt => a <? b
  | OP_Le => a <=? b
  | OP_Gt => b <? a
  | _ => b <=? a
  end.

(** What [p3 op p1] is, for the flags of the instruction: [None] is NULL. *)
Definition sql_compare (op : Op) (v1 v3 : option Z) : option bool :=
  match v1, v3 with
  | Some a, Some b => Some (relation op.(opc) b a)
  | _, _ =>
      if has op.(p5) SQLITE_NULLEQ then
        let equal := match v1, v3 with None, None => true | _, _ => false end in
        Some (if decide (op.(opc) = OP_Eq) then equal else negb equal)
      else None
  end.

(** The state behind it: a register is written, or the jump is taken. *)
Definition compare_effect (op : Op) (v : option bool) (m2 : Mem) (s : Vdbe) : Vdbe :=
  if has op.(p5) SQLITE_STOREP2 then
    with_register s op.(p2) (match v with
      | None => MemSetTypeFlag m2 MEM_Null
      | Some b => set_u (MemSetTypeFlag m2 MEM_Int) (if b then 1 else 0)
      end)
  else if match v with Some b => b | None => has op.(p5) SQLITE_JUMPIFNULL end then set_pc s (op.(p2) - 1) else s.

Lemma run_restore s i m : register s i = Some m -> restore_type i m.(flags) s = Some (inl (), s).
Proof.
  intros R. unfold restore_type. erewrite run_bind by by apply run_reg. fold (CellKeep.with_type m m.(flags)).
  rewrite CellKeep.with_type_same. erewrite run_set by exact R. by rewrite with_same.
Qed.

Lemma run_store op s m1 m2 m3 res :
  register s op.(p1) = Some m1 -> register s op.(p3) = Some m3 ->
  (has op.(p5) SQLITE_STOREP2 = true -> op.(p2) <> op.(p1) /\ op.(p2) <> op.(p3) /\ register s op.(p2) = Some m2) ->
  compare_store op m1.(flags) m3.(flags) res s = Some (inl (), compare_effect op (Some (compare_truth op.(opc) res)) m2 s).
Proof.
  intros R1 R3 H2. unfold compare_store, compare_effect. cbv zeta. destruct (has _ SQLITE_STOREP2).
  - destruct (H2 eq_refl) as (N1 & N3 & R2). erewrite run_bind; [|erewrite run_bind by (apply run_reg; exact R2); eapply run_set; exact R2].
    assert (R : forall j m, op.(p2) <> j -> register s j = Some m -> forall m', register (with_register s op.(p2) m') j = Some m).
    { intros j m Hj Hr m'. rewrite (register_with _ _ _ _ _ R2). destruct (Z.eqb_spec j op.(p2)); [lia|done]. }
    erewrite run_bind by (apply run_restore; by apply R). apply run_restore. by apply R.
  - destruct (compare_truth _ _); (erewrite run_bind by reflexivity); (erewrite run_bind by by apply run_restore); by apply run_restore.
Qed.

(** The operands of a comparison of numbers stay as they are. *)
Lemma run_affinity s i m v aff : register s i = Some m -> int_cell m v -> aff <> SQLITE_AFF_TEXT -> affinity_reg i aff s = Some (inl (), s).
Proof.
  intros R (Hi & Hn & _) Ha. rewrite !has_mask in Hn. apply orb_false_iff in Hn as [_ [Hr _]%orb_false_iff].
  unfold affinity_reg. erewrite run_bind by by apply run_reg. erewrite run_bind by reflexivity.
  assert (E : forall e a, applyAffinity m aff e a = Some (m, a)).
  { intros e a. unfold applyAffinity. destruct (Z.eqb_spec aff SQLITE_AFF_TEXT); [done|]. destruct (negb _); [|done].
    unfold applyNumericAffinity. rewrite has_mask, Hi, orb_true_r. cbn [negb]. by rewrite Hr. }
  erewrite run_bind; [|unfold alloc_call; rewrite E; cbn [mbind option_bind]; reflexivity].
  assert (Es : set_heap s (heap s) = s) by (by destruct s). rewrite Es. erewrite run_set by exact R. by rewrite with_same.
Qed.

Lemma run_expand s i m v : register s i = Some m -> int_cell m v -> expand_reg i s = Some (inl SQLITE_OK, s).
Proof.
  intros R (_ & Hn & _). rewrite !has_mask in Hn. apply orb_false_iff in Hn as [_ [_ Hz]%orb_false_iff].
  unfold expand_reg. erewrite run_bind by by apply run_reg. by rewrite Hz.
Qed.

Lemma compare_ints oom m1 m3 a b c : int_cell m1 a -> int_cell m3 b ->
  sqlite3MemCompare oom m3 m1 c = Some (if b <? a then -1 else if b >? a then 1 else 0) /\ compare_translates m3 m1 c = false.
Proof.
  intros H1 H3. destruct (int_flags _ _ _ _ H3 H1) as [Hn Hi]. destruct H1 as (I1 & _ & _ & <-), H3 as (I3 & _ & _ & <-).
  assert (Hnum : numeric (Z.lor m3.(flags) m1.(flags)) = true) by (unfold numeric; by rewrite has_lor, !has_mask, I3).
  unfold sqlite3MemCompare, compare_translates. rewrite Hn, Hnum. cbn [negb andb]. split; [|done].
  unfold numeric. rewrite !has_mask, I1, I3. cbn [orb negb]. unfold compare_numbers.
  unfold has in Hi. apply negb_true_iff in Hi. by rewrite Hi.
Qed.

Lemma truth_relation o a b : is_compare o -> compare_truth o (if b <? a then -1 else if b >? a then 1 else 0) = relation o b a.
Proof.
  intros Ho. unfold is_compare in Ho. destruct_or! Ho; subst; cbn [compare_truth relation];
    destruct (Z.ltb_spec b a), (Z.gtb_spec b a); cbn; lia.
Qed.

(** C19: The comparison instructions on registers that hold integers or NULL: the
    order of the integers, NULL with NULL unless the instruction is for IS; the
    operands stay, and the result is stored or decides the jump. *)
Theorem number_comparison op s m1 m2 m3 v1 v3 c :
  is_compare op.(opc) -> p4_coll op = Some c -> Z.land op.(p5) SQLITE_AFF_MASK <> SQLITE_AFF_TEXT ->
  (has op.(p5) SQLITE_NULLEQ = true -> (op.(opc) = OP_Eq \/ op.(opc) = OP_Ne) /\ has (Z.lor m1.(flags) m3.(flags)) MEM_Cleared = false) ->
  register s op.(p1) = Some m1 -> number_cell m1 v1 -> register s op.(p3) = Some m3 -> number_cell m3 v3 ->
  (has op.(p5) SQLITE_STOREP2 = true -> op.(p2) <> op.(p1) /\ op.(p2) <> op.(p3) /\ register s op.(p2) = Some m2) ->
  s.(heap).(mallocFailed) = false ->
  exists a, a.(mallocFailed) = false /\
    do_Compare2 op s = Some (inl (), compare_effect op (sql_compare op v1 v3) m2 (set_heap s a)).
Proof.
  intros Ho Hc Haff Hq R1 H1 R3 H3 H2 Hb.
  assert (Valid : forall m v, number_cell m v -> memIsValid m = true) by (intros m [i|]; [by intros (_ & _ & ? & _)|by intros [_ ?]]).
  assert (Null : forall m v, number_cell m v -> has m.(flags) MEM_Null = match v with None => true | Some _ => false end).
  { intros m [i|]; [|by intros [? _]]. intros (_ & Hn & _). rewrite has_mask in Hn. by apply orb_false_iff in Hn as [? _]. }
  unfold do_Compare2. erewrite run_bind by (apply run_valid; [exact R1|by eapply Valid]). erewrite run_bind by (apply run_valid; [exact R3|by eapply Valid]).
  cbv zeta. rewrite has_lor, (Null _ _ H1), (Null _ _ H3).
  assert (Es : set_heap s (heap s) = s) by (by destruct s).
  destruct v1 as [a|], v3 as [b|]; cbn [orb].
  { exists (mkAlloc (tail s.(heap).(mallocs)) false). split; [done|]. set (s' := set_heap s _). cbn [number_cell] in *.
    erewrite run_bind with (x := if b <? a then -1 else if b >? a then 1 else 0) (s' := s').
    { cbn [sql_compare]. rewrite <- truth_relation by exact Ho. by eapply run_store. }
    unfold compare_values. cbv zeta.
    erewrite run_bind with (x := ()) (s' := s).
    2: { destruct (negb _); [|done]. erewrite run_bind by by eapply run_affinity. erewrite run_bind by by eapply run_affinity.
         erewrite run_bind by reflexivity. by rewrite Hb. }
    erewrite run_bind by (unfold some; rewrite Hc; reflexivity).
    erewrite run_bind by by eapply run_expand. erewrite run_bind by by eapply run_expand.
    unfold compare_regs. erewrite run_bind by by apply run_reg. erewrite run_bind by by apply run_reg.
    set (oom := match mallocs (heap s) with [] => false | b :: _ => b end).
    erewrite run_bind with (x := oom) (s' := s'); [|unfold alloc_call, draw; cbn [mbind option_bind]; unfold s'; by rewrite Hb].
    destruct (compare_ints oom m1 m3 a b c H1 H3) as [-> ->]. rewrite andb_false_r. by erewrite run_bind by reflexivity. }
  all: exists (heap s); rewrite Es; split; [done|]; destruct (has op.(p5) SQLITE_NULLEQ) eqn:Eq; unfold sql_compare; rewrite Eq.
  1, 3, 5: destruct (Hq eq_refl) as [Hop Hcl]; rewrite has_lor in Hcl; apply orb_false_iff in Hcl as [C1 C3];
    (erewrite run_bind by (unfold assert; by rewrite bool_decide_true)); rewrite C1;
    (erewrite run_bind by reflexivity); rewrite C3; cbn [negb andb];
    (erewrite run_store by done); destruct Hop as [-> | ->]; reflexivity.
  all: unfold compare_effect; destruct (has op.(p5) SQLITE_STOREP2);
    [destruct (H2 eq_refl) as (_ & _ & R2); (erewrite run_bind by by apply run_reg); by eapply run_set|by destruct (has op.(p5) SQLITE_JUMPIFNULL)].
Qed.

(** 3 < 5 jumps; NULL = NULL does not, NULL IS NULL does. *)
Lemma number_comparison_witness :
  let c i := mkMem MEM_Int 0 i 0 [] 0 false 0 in
  let s := mkVdbe [] [new_cell; c 5; new_cell; c 3; new_cell] [] 0 [] 0 0 0 0 0 0 0 None (mkDb SQLITE_UTF8 1000 false 0) (mkAlloc [true] false) in
  (exists a, a.(mallocFailed) = false /\ do_Compare2 (op_ OP_Lt 1 9 3 P4_NOTUSED 0) s = Some (inl (), set_pc (set_heap s a) 8)) /\
  (exists a, a.(mallocFailed) = false /\ do_Compare2 (op_ OP_Eq 2 9 4 P4_NOTUSED 0) s = Some (inl (), set_heap s a)) /\
  (exists a, a.(mallocFailed) = false /\ do_Compare2 (op_ OP_Eq 2 9 4 P4_NOTUSED 128) s = Some (inl (), set_pc (set_heap s a) 8)).
Proof.
  intros c s. split; [|split].
  - apply (number_comparison (op_ OP_Lt 1 9 3 P4_NOTUSED 0) s (c 5) new_cell (c 3) (Some 5) (Some 3) None); try done; [unfold is_compare; tauto|split_and!; reflexivity..].
  - apply (number_comparison (op_ OP_Eq 2 9 4 P4_NOTUSED 0) s new_cell new_cell new_cell None None None); try done. by left.
  - apply (number_comparison (op_ OP_Eq 2 9 4 P4_NOTUSED 128) s new_cell new_cell new_cell None None None); try done; [by left|].
    intros _. split; [by left|reflexivity].
Defined.

(** ** Casts *)

Lemma am_bind {A C} (f : AM A) (k : A -> AM C) a x a' : f a = Some (x, a') -> (y ← f; k y) a = k x a'.
Proof. intros E. unfold mbind, AM_bind. by rewrite E. Qed.

(** Allocations that all succeed. *)
Definition plenty : alloc := mkAlloc [] false.

Lemma grow_plenty m nb preserve : exists m1, grow m nb preserve plenty = Some ((SQLITE_OK, m1), plenty) /\
  m1.(flags) = Z.land m.(flags) (Z.lnot (Z.lor MEM_Ephem MEM_Static)) /\ m1.(u) = m.(u).
Proof.
  destruct (sqlite3VdbeMemGrow false m nb preserve) as [rc m1] eqn:E. exists m1.
  unfold grow, attempt, draw, plenty. cbn [mallocs tail mbind option_bind]. rewrite E. cbn [mbind option_bind].
  revert E. unfold sqlite3VdbeMemGrow. rewrite andb_false_r. by intros [= <- <-].
Qed.

Lemma changeenc_plenty m e : m.(enc) = e -> ChangeEncoding m e plenty = Some ((SQLITE_OK, m), plenty).
Proof.
  intros E. unfold ChangeEncoding, attempt, draw, plenty, sqlite3VdbeChangeEncoding. cbn [mallocs tail mbind option_bind].
  by rewrite E, Z.eqb_refl, orb_true_r.
Qed.

Lemma set_plenty s : s.(heap) = plenty -> set_heap s plenty = s.
Proof. intros <-. by destruct s. Qed.

(** The text of an integer in a UTF-8 database. *)
Lemma stringify_int m v : has m.(flags) MEM_Int = true -> has m.(flags) (Z.lor MEM_Zero (Z.lor MEM_Str MEM_Blob)) = false -> is_i64 m.(u) -> m.(u) = v ->
  exists m' t, sqlite3VdbeMemStringify m SQLITE_UTF8 plenty = Some ((SQLITE_OK, m'), plenty) /\
    decimal_text v t /\ m'.(z) = t ++ [0] /\ m'.(n) = zlength t /\ m'.(enc) = SQLITE_UTF8 /\
    m'.(flags) = Z.lor (Z.land m.(flags) (Z.lnot (Z.lor MEM_Ephem MEM_Static))) (Z.lor MEM_Str MEM_Term).
Proof.
  intros Hi Hg Hu <-. destruct (lld_text false m.(u)) as (t & Ht & Hd & Hl); [exact Hu|].
  assert (Hs : sqlite3_snprintf 32 [] [] fmt_lld [A_i64 m.(u)] = Some (Some t)).
  { rewrite (snprintf_text 32 [] fmt_lld [A_i64 m.(u)] t Ht) by (unfold fits_int; lia). unfold fit. rewrite take_ge; [done|]. unfold zlength in Hl. lia. }
  destruct (grow_plenty m 32 false) as (m1 & Hg1 & Ef & Eu).
  eexists _, t. split.
  - unfold sqlite3VdbeMemStringify. cbv zeta. rewrite Hg, (has_mask MEM_Int), Hi. cbn [orb negb].
    erewrite am_bind by reflexivity. erewrite am_bind by exact Hg1. cbn [Z.eqb SQLITE_OK negb].
    erewrite am_bind; [|unfold must; rewrite Eu; change fmt_i64 with fmt_lld; rewrite Hs; reflexivity].
    cbn [default]. erewrite am_bind by by apply changeenc_plenty. reflexivity.
  - cbn [flags z n enc add_flags set_flags]. unfold id. rewrite strlen30_length by lia. rewrite Ef. by split_and!.
Qed.

(** The flags of a cell that is an integer and nothing else. *)
Definition only_int (m : Mem) : Prop :=
  has m.(flags) MEM_Int = true /\ memIsValid m = true /\
  has m.(flags) (Z.lor MEM_Null (Z.lor MEM_Real (Z.lor MEM_Zero (Z.lor MEM_Str MEM_Blob)))) = false.

(** The cast of an integer to a text and back: OP_ToText leaves a text, the
    decimal notation of the integer, and OP_ToInt the integer again. *)
Theorem cast_text_int op op' s m v :
  register s op.(p1) = Some m -> only_int m -> m.(u) = v -> is_i64 v ->
  s.(db).(encoding) = SQLITE_UTF8 -> s.(heap) = plenty -> op'.(p1) = op.(p1) ->
  exists m1 m2, do_ToText op s = Some (inl (), with_register s op.(p1) m1) /\
    sqlite3VdbeMemStoreType m1 = SQLITE_TEXT /\ decimal_text v (content m1) /\
    do_ToInt op' (with_register s op.(p1) m1) = Some (inl (), with_register s op.(p1) m2) /\ int_cell m2 v.
Proof.
  intros R (Hi & Hv & Hn) Hu Hr He Hh Ep. rewrite !has_mask in Hn.
  apply orb_false_iff in Hn as [Hnull [Hreal [Hzero [Hstr Hblob]%orb_false_iff]%orb_false_iff]%orb_false_iff].
  destruct (stringify_int m v) as (m' & t & Es & Hd & Hz & Hl & Henc & Hf); [done|by rewrite !has_mask, Hzero, Hstr, Hblob|by rewrite Hu|done|].
  set (m1 := clear_flags (clear_flags m' (Z.lor MEM_Real MEM_Int)) (Z.lor (Z.lor MEM_Int MEM_Real) (Z.lor MEM_Blob MEM_Zero))).
  assert (R1 : forall x, register (with_register s op.(p1) x) op.(p1) = Some x) by (intros x; rewrite (register_with _ _ _ _ _ R), Z.eqb_refl; done).
  assert (W : forall x y, with_register (with_register s op.(p1) x) op.(p1) y = with_register s op.(p1) y).
  { intros x y. unfold with_register. cbn. by rewrite list_insert_insert_eq. }
  assert (Hc : content m1 = t).
  { unfold content, m1. cbn [z n clear_flags set_flags]. rewrite Hz, Hl. unfold zlength. by rewrite Nat2Z.id, take_app_length. }
  assert (Hm1 : has m1.(flags) MEM_Null = false /\ has m1.(flags) MEM_Int = false /\ has m1.(flags) MEM_Real = false /\
    has m1.(flags) MEM_Str = true /\ memIsValid m1 = true).
  { unfold m1, memIsValid in *. cbn [flags clear_flags set_flags]. rewrite Hf. clear -Hnull Hv. split_and!; revert Hnull Hv; bits. }
  destruct Hm1 as (M1 & M2 & M3 & M4 & M5).
  exists m1, (MemSetTypeFlag (set_u m1 v) MEM_Int).
  split; [|split; [|split; [|split]]].
  - unfold do_ToText. erewrite run_bind by by apply run_valid. rewrite Hnull.
    assert (Hsame : add_flags m (Z.shiftr (Z.land m.(flags) MEM_Blob) 3) = m).
    { unfold add_flags, has in *. apply negb_false_iff, Z.eqb_eq in Hblob. rewrite Hblob. cbn. rewrite Z.lor_0_r. by destruct m. }
    rewrite Hsame. erewrite run_bind by by eapply run_set. rewrite with_same by done.
    assert (Haff : affinity_reg op.(p1) SQLITE_AFF_TEXT s = Some (inl (), with_register s op.(p1) (clear_flags m' (Z.lor MEM_Real MEM_Int)))).
    { unfold affinity_reg. erewrite run_bind by by apply run_reg. erewrite run_bind by reflexivity. rewrite He.
      erewrite run_bind with (x := clear_flags m' (Z.lor MEM_Real MEM_Int)) (s' := s); [by eapply run_set|].
      unfold alloc_call, applyAffinity. cbn [Z.eqb SQLITE_AFF_TEXT Pos.eqb]. rewrite Hstr, has_mask, Hi, orb_true_r. cbn [negb andb].
      rewrite Hh. erewrite am_bind by (erewrite am_bind by exact Es; reflexivity). cbn. by rewrite set_plenty. }
    erewrite run_bind by exact Haff.
    assert (Hmz : has (clear_flags m' (Z.lor MEM_Real MEM_Int)).(flags) MEM_Zero = false).
    { cbn [flags clear_flags set_flags]. rewrite Hf. clear -Hzero. revert Hzero. bits. }
    erewrite run_bind by (unfold expand_reg; erewrite run_bind by (apply run_reg; apply R1); rewrite Hmz; reflexivity).
    erewrite run_bind by (apply run_reg; apply R1). erewrite run_bind by reflexivity.
    erewrite run_bind with (x := ()) (s' := with_register s op.(p1) (clear_flags m' (Z.lor MEM_Real MEM_Int))).
    2: { unfold assert. replace (has _ MEM_Str || _) with true; [done|]. symmetry. apply orb_true_iff. left. cbn [flags clear_flags set_flags]. rewrite Hf. clear. bits. }
    erewrite run_bind by (eapply run_set; apply R1). cbn [Z.eqb SQLITE_OK negb]. by rewrite W.
  - unfold sqlite3VdbeMemStoreType. by rewrite M1, M2, M3, M4.
  - by rewrite Hc.
  - unfold do_ToInt. rewrite Ep. erewrite run_bind by (apply run_valid; [apply R1|exact M5]). rewrite M1. cbn [negb].
    replace (snd (sqlite3VdbeMemIntegerify m1)) with (MemSetTypeFlag (set_u m1 v) MEM_Int); [by erewrite run_set, W by apply R1|].
    unfold sqlite3VdbeMemIntegerify. cbn [snd]. do 2 f_equal. unfold sqlite3VdbeIntValue. rewrite M2, M3, has_mask, M4. cbn [orb].
    rewrite Hc. change (enc m1) with (enc m'). by rewrite Henc, (decimal_atoi64 v t).
  - apply out_int.
Qed.

(** The least integer. *)
Lemma cast_text_int_witness :
  let m := mkMem MEM_Int 0 (-9223372036854775808) 0 [] 0 false 0 in
  let s := mkVdbe [] [new_cell; m] [] 0 [] 0 0 0 0 0 0 0 None (mkDb SQLITE_UTF8 1000 false 0) plenty in
  exists m1 m2, do_ToText (op_ OP_ToText 1 0 0 P4_NOTUSED 0) s = Some (inl (), with_register s 1 m1) /\
    sqlite3VdbeMemStoreType m1 = SQLITE_TEXT /\ decimal_text (-9223372036854775808) (content m1) /\
    do_ToInt (op_ OP_ToInt 1 0 0 P4_NOTUSED 0) (with_register s 1 m1) = Some (inl (), with_register s 1 m2) /\ int_cell m2 (-9223372036854775808).
Proof.
  intros m s. apply (cast_text_int (op_ OP_ToText 1 0 0 P4_NOTUSED 0) (op_ OP_ToInt 1 0 0 P4_NOTUSED 0) s m);
    [reflexivity|split_and!; reflexivity|reflexivity|unfold_int; lia|reflexivity..].
Defined.

(** ** Effects beyond the result *)

Lemma len8_over z limit : forall k, Forall (fun c => c <> 0) z -> limit < k + zlength z -> limit < len8 z limit k.
Proof.
  induction z as [|c z IH]; intros k Hz Hl; cbn [len8]; [unfold zlength in Hl; cbn in Hl; lia|].
  apply Forall_cons in Hz as [Hc Hz]. destruct (Z.leb_spec k limit); cbn [andb]; [|lia].
  destruct (Z.eqb_spec c 0); [done|]. cbn [negb]. apply IH; [done|]. unfold zlength in *. cbn [length] in Hl. lia.
Qed.

Lemma run_out2 s i m : register s i = Some m -> out2_prerelease i s = Some (inl (set_flags m MEM_Int), with_register s i (set_flags m MEM_Int)).
Proof. intros R. unfold out2_prerelease. erewrite run_bind by by apply run_reg. cbv zeta. by erewrite run_bind by by eapply run_set. Qed.

Lemma with_with s i x y : with_register (with_register s i x) i y = with_register s i y.
Proof. unfold with_register. cbn. by rewrite list_insert_insert_eq. Qed.

(** OP_String on a text, whatever its length. *)
Lemma run_string op s m zp len : op.(p4) = P4_TEXT zp -> op.(p1) = len -> register s op.(p2) = Some m ->
  do_String op s = Some (inl (), with_register s op.(p2)
    (mkMem (Z.lor MEM_Str (Z.lor MEM_Static MEM_Term)) m.(r) m.(u) len zp s.(db).(encoding) false m.(szMalloc))).
Proof.
  intros Hp <- R. unfold do_String, p4z. rewrite Hp. erewrite run_bind by by apply run_out2. erewrite run_bind by reflexivity. erewrite run_bind by reflexivity.
  erewrite run_set by (rewrite (register_with _ _ _ _ _ R), Z.eqb_refl; reflexivity). by rewrite with_with.
Qed.

(** C22: OP_String8 on a text over the limit fails, but has by then become an
    OP_String, which looks neither at the limit nor at the encoding: when the
    statement is run again, the instruction gives the bytes of the program as a
    text of the encoding of the database. *)
Theorem string8_limit_once op s m zp :
  s.(aOp) !! Z.to_nat s.(pc) = Some op -> op.(p4) = P4_TEXT zp -> register s op.(p2) = Some m ->
  Forall (fun c => c <> 0) zp -> s.(db).(iLimit) < zlength zp < 2 ^ 30 ->
  exists s1 op1 m2, do_String8 op s = Some (inr too_big, s1) /\ s1.(aOp) !! Z.to_nat s.(pc) = Some op1 /\ op1.(opc) = OP_String /\
    do_String op1 s1 = Some (inl (), with_register s1 op.(p2) m2) /\
    has m2.(flags) MEM_Str = true /\ content m2 = zp /\ m2.(enc) = s.(db).(encoding).
Proof.
  intros Hop Hp R Hz Hl. set (op1 := string_op op zp (zlength zp)).
  set (s0 := set_aOp (with_register s op.(p2) (set_flags m MEM_Int)) (<[Z.to_nat s.(pc) := op1]> s.(aOp))).
  assert (R0 : register s0 op.(p2) = Some (set_flags m MEM_Int)).
  { unfold s0. change (register (set_aOp ?x _) ?i) with (register x i). by rewrite (register_with _ _ _ _ _ R), Z.eqb_refl. }
  assert (Hrun : forall s1 x, register s1 op.(p2) = Some x -> s1.(aOp) = s0.(aOp) -> s1.(db) = s.(db) -> do_String8 op s = Some (inr too_big, s1) ->
    exists s1 op1 m2, do_String8 op s = Some (inr too_big, s1) /\ s1.(aOp) !! Z.to_nat s.(pc) = Some op1 /\ op1.(opc) = OP_String /\
    do_String op1 s1 = Some (inl (), with_register s1 op.(p2) m2) /\
    has m2.(flags) MEM_Str = true /\ content m2 = zp /\ m2.(enc) = s.(db).(encoding)).
  { intros s1 x Rx Ho Hd E. exists s1, op1. eexists. split; [exact E|]. split; [rewrite Ho; cbn; rewrite list_lookup_insert_eq; [done|by eapply lookup_lt_Some]|].
    split; [done|]. split; [apply (run_string op1 s1 x zp (zlength zp)); done|]. split; [done|]. split; [|cbn; by rewrite Hd].
    unfold content. cbn. unfold zlength. by rewrite Nat2Z.id, take_ge. }
  assert (Hstart : forall r s1, (e ← gets (fun s => s.(db).(encoding)); limit ← gets (fun s => s.(db).(iLimit));
      '(z, len) ← (if negb (e =? SQLITE_UTF8) then
         '(rc, pOut) ← alloc_call (sqlite3VdbeMemSetStr limit (set_flags m MEM_Int) (Some zp) (-1) SQLITE_UTF8 SQLITE_STATIC);
         _ ← set_reg op.(p2) pOut;
         if rc =? SQLITE_TOOBIG then goto too_big
         else
           '(rc, pOut) ← alloc_call (ChangeEncoding pOut e);
           _ ← set_reg op.(p2) pOut;
           if negb (rc =? SQLITE_OK) then goto no_mem
           else
             _ ← assert (has pOut.(flags) MEM_Dyn);
             _ ← set_reg op.(p2) (mkMem (Z.land (Z.lor pOut.(flags) MEM_Static) (Z.lnot MEM_Dyn)) pOut.(Mem.r) pOut.(u) pOut.(n) pOut.(z) pOut.(enc) false 0);
             _ ← rewrite_op (string_op op pOut.(Mem.z) pOut.(n));
             mret (pOut.(Mem.z), pOut.(n))
       else mret (zp, zlength zp) : VM (list Z * Z));
      if len >? limit then goto too_big else do_String (string_op op z len)) s0 = Some (r, s1) -> do_String8 op s = Some (r, s1)).
  { intros r s1 E. unfold do_String8, p4z. rewrite Hp. erewrite run_bind by by apply run_out2. erewrite run_bind by reflexivity. cbv zeta.
    rewrite strlen30_length by lia. erewrite run_bind by reflexivity. exact E. }
  destruct (Z.eq_dec s.(db).(encoding) SQLITE_UTF8) as [He|He].
  - eapply (Hrun s0); [exact R0|done|done|]. apply Hstart. erewrite run_bind by reflexivity. erewrite run_bind by reflexivity.
    cbn [db s0 set_aOp with_register set_aMem]. rewrite He. cbn [Z.eqb SQLITE_UTF8 Pos.eqb negb]. erewrite run_bind by reflexivity.
    cbv beta iota. destruct (Z.gtb_spec (zlength zp) (iLimit (db s))); [done|lia].
  - set (c := mkMem (Z.lor (Z.lor MEM_Str MEM_Term) MEM_Static) m.(r) m.(u) (len8 zp (iLimit (db s)) 0) zp SQLITE_UTF8 false 0).
    eapply (Hrun (with_register s0 op.(p2) c)); [rewrite (register_with _ _ _ _ _ R0), Z.eqb_refl; done|done|done|]. apply Hstart.
    erewrite run_bind by reflexivity. erewrite run_bind by reflexivity.
    destruct (Z.eqb_spec (encoding (db s0)) SQLITE_UTF8) as [E|_]; [done|]. cbn [negb].
    pose proof (len8_over zp (iLimit (db s)) 0 Hz ltac:(lia)) as Hlen.
    unfold mbind at 1, VM_bind at 1. erewrite run_bind with (s' := s0).
    2: { unfold alloc_call. rewrite setstr_text. cbn [mbind option_bind]. reflexivity. }
    cbv beta iota. erewrite run_bind by (eapply run_set; exact R0).
    change (iLimit (db s0)) with (iLimit (db s)). destruct (Z.gtb_spec (len8 zp (iLimit (db s)) 0) (iLimit (db s))); [done|lia].
Qed.

(** Four bytes, with a limit of three, in a UTF-16 database. *)
Lemma string8_limit_once_witness :
  let op := op_ OP_String8 0 1 0 (P4_TEXT [97; 98; 99; 100]) 0 in
  let s := mkVdbe [op] [new_cell; new_cell] [] 0 [] 0 0 0 0 0 0 0 None (mkDb SQLITE_UTF16LE 3 false 0) plenty in
  exists s1 op1 m2, do_String8 op s = Some (inr too_big, s1) /\ s1.(aOp) !! 0%nat = Some op1 /\ op1.(opc) = OP_String /\
    do_String op1 s1 = Some (inl (), with_register s1 1 m2) /\ has m2.(flags) MEM_Str = true /\
    content m2 = [97; 98; 99; 100] /\ m2.(enc) = SQLITE_UTF16LE.
Proof.
  intros op s. apply (string8_limit_once op s new_cell [97; 98; 99; 100]); try reflexivity; [repeat constructor; lia|split; reflexivity].
Defined.

(** The arithmetic instructions convert their operands in place: a register
    that held the text of an integer is of type INTEGER afterwards, though it
    is no output of the instruction. *)
Theorem arithmetic_converts_operand op s m1 m2 m3 v x :
  arithmetic op.(opc) -> register s op.(p1) = Some m1 -> register s op.(p2) = Some m2 -> register s op.(p3) = Some m3 ->
  op.(p1) <> op.(p2) -> op.(p1) <> op.(p3) -> memIsValid m1 = true -> memIsValid m2 = true ->
  has m1.(flags) MEM_Str = true -> has m1.(flags) (Z.lor MEM_Null (Z.lor MEM_Real MEM_Int)) = false ->
  sqlite3AtoF (content m1) m1.(enc) = (true, x) -> sqlite3Atoi64 (content m1) m1.(enc) = (0, v) ->
  exists s' m1', do_Arith op s = Some (inl (), s') /\ register s' op.(p1) = Some m1' /\
    sqlite3VdbeMemStoreType m1 = SQLITE_TEXT /\ sqlite3VdbeMemStoreType m1' = SQLITE_INTEGER.
Proof.
  intros Ho R1 R2 R3 N2 N3 V1 V2 Hs Hn HF HI. rewrite !has_mask in Hn.
  apply orb_false_iff in Hn as [Hnull [Hreal Hint]%orb_false_iff].
  assert (E : applyNumericAffinity m1 = add_flags (set_u m1 v) MEM_Int).
  { unfold applyNumericAffinity. by rewrite has_mask, Hreal, Hint, Hs, HF, HI. }
  set (m1' := applyNumericAffinity m1). set (s1 := with_register s op.(p1) m1').
  assert (G2 : register s1 op.(p2) = Some m2) by (unfold s1; rewrite (register_with _ _ _ _ _ R1); destruct (Z.eqb_spec op.(p2) op.(p1)); [lia|done]).
  set (s2 := with_register s1 op.(p2) (applyNumericAffinity m2)).
  assert (Hk : forall j y, register s1 j = Some y -> j <> op.(p2) -> register s2 j = Some y).
  { intros j y Hy Hj. unfold s2. rewrite (register_with _ _ _ _ _ G2). destruct (Z.eqb_spec j op.(p2)); [lia|done]. }
  assert (G1 : register s2 op.(p1) = Some m1') by (apply Hk; [unfold s1; rewrite (register_with _ _ _ _ _ R1), Z.eqb_refl; done|done]).
  assert (G2' : register s2 op.(p2) = Some (applyNumericAffinity m2)) by (unfold s2; rewrite (register_with _ _ _ _ _ G2), Z.eqb_refl; done).
  assert (G3 : exists y, register s2 op.(p3) = Some y).
  { destruct (Z.eq_dec op.(p3) op.(p2)) as [->|Hne]; [by eexists|]. exists m3. apply Hk; [|done]. unfold s1. rewrite (register_with _ _ _ _ _ R1).
    destruct (Z.eqb_spec op.(p3) op.(p1)); [lia|done]. }
  destruct G3 as [y G3]. exists (with_register s2 op.(p3) (arith_result op.(opc) m1' (applyNumericAffinity m2) y)), m1'.
  split; [|split; [|split]].
  - unfold do_Arith. erewrite run_bind by by apply run_valid. erewrite run_bind by by apply run_valid.
    erewrite run_bind with (s' := s1) (x := ()) by (unfold numeric_reg; erewrite run_bind by (apply run_reg; exact R1); by eapply run_set).
    erewrite run_bind with (s' := s2) (x := ()) by (unfold numeric_reg; erewrite run_bind by (apply run_reg; exact G2); by eapply run_set).
    erewrite run_bind by (apply run_reg; exact G1). erewrite run_bind by (apply run_reg; exact G2'). erewrite run_bind by (apply run_reg; exact G3).
    by eapply run_set.
  - rewrite (register_with _ _ _ _ _ G3). destruct (Z.eqb_spec op.(p1) op.(p3)); [lia|done].
  - unfold sqlite3VdbeMemStoreType. by rewrite Hnull, Hint, Hreal, Hs.
  - unfold m1'. rewrite E. unfold sqlite3VdbeMemStoreType. cbn [flags add_flags set_flags set_u].
    replace (has _ MEM_Null) with false by (symmetry; clear -Hnull; revert Hnull; bits). replace (has _ MEM_Int) with true by (symmetry; clear; bits). done.
Qed.

(** The text 12, added to NULL. *)
Lemma arithmetic_converts_operand_witness :
  let t := mkMem (Z.lor MEM_Str MEM_Term) 0 0 2 [49; 50; 0] SQLITE_UTF8 true 3 in
  let op := op_ OP_Add 1 2 3 P4_NOTUSED 0 in
  let s := mkVdbe [op] [new_cell; t; new_cell; new_cell] [] 0 [] 0 0 0 0 0 0 0 None (mkDb SQLITE_UTF8 1000 false 0) plenty in
  exists s' m1', do_Arith op s = Some (inl (), s') /\ register s' 1 = Some m1' /\
    sqlite3VdbeMemStoreType t = SQLITE_TEXT /\ sqlite3VdbeMemStoreType m1' = SQLITE_INTEGER.
Proof.
  intros t op s. apply (arithmetic_converts_operand op s t new_cell new_cell 12 (double_of_i64 12)); try reflexivity; [by left|done|done].
Defined.
