(* ===== verification/FuncSpec.v ===== *)
(** * What the SQL functions compute

    substr(), instr() and replace() against specifications on characters and
    pieces of text, for arguments that are texts in UTF-8 and integers, when no
    allocation fails; and the calls that go wrong. *)

From S2P Require Import Prelude Ctype Ints Utf Like Printf Mem Serial Real Value Vdbe VdbeExec CellOk VdbeSpec Func.
From Stdlib Require Import Floats.SpecFloat.

(** ** Arguments *)

(** The cell is the text [t] in UTF-8; a text that is marked as terminated is. *)
Record text_arg (m : Mem) (t : list Z) : Prop := {
  ta_str : has m.(flags) MEM_Str = true;
  ta_flags : has m.(flags) (Z.lor MEM_Null (Z.lor MEM_Blob (Z.lor MEM_Zero (Z.lor MEM_Int MEM_Real)))) = false;
  ta_enc : m.(enc) = SQLITE_UTF8;
  ta_n : m.(n) = zlen t;
  ta_content : content m = t;
  ta_term : has m.(flags) MEM_Term = true -> exists rest, m.(z) = t ++ 0 :: rest;
}.

Record int_arg (m : Mem) (v : Z) : Prop := {
  ia_int : has m.(flags) MEM_Int = true;
  ia_null : has m.(flags) MEM_Null = false;
  ia_val : m.(u) = v;
}.

Inductive value := VText (t : list Z) | VInt (v : Z).
Definition arg_is (m : Mem) (v : value) : Prop :=
  match v with VText t => text_arg m t | VInt v => int_arg m v end.

(** ** Runs *)

Lemma fm_bind {A C} (f : FM A) (g : A -> FM C) k a x k' a' :
  f k a = Some ((x, k'), a') -> (y ← f; g y) k a = g x k' a'.
Proof. intros E. unfold mbind, FM_bind, mbind, AM_bind. by rewrite E. Qed.

Lemma text_flags m t : text_arg m t ->
  has m.(flags) MEM_Null = false /\ has m.(flags) MEM_Blob = false /\ has m.(flags) MEM_Zero = false /\
  has m.(flags) MEM_Int = false /\ has m.(flags) MEM_Real = false.
Proof.
  intros [_ H _ _ _ _]. rewrite !has_mask in H. repeat (apply orb_false_iff in H as [? H]). by split_and!.
Qed.

Lemma add_no_flags m : add_flags m 0 = m.
Proof. unfold add_flags. rewrite Z.lor_0_r. by destruct m. Qed.

Lemma no_blob f : has f MEM_Blob = false -> Z.shiftr (Z.land f MEM_Blob) 3 = 0.
Proof. unfold has. rewrite negb_false_iff. by intros ->%Z.eqb_eq. Qed.

Lemma nulterminate_plenty m t : text_arg m t ->
  exists m' rest, NulTerminate m plenty = Some ((SQLITE_OK, m'), plenty) /\ text_arg m' t /\ m'.(z) = t ++ 0 :: rest.
Proof.
  intros Ht. pose proof Ht as [Hs Hf He Hn Hc Hz]. unfold NulTerminate, attempt, draw, plenty. cbn [mallocs tail mbind option_bind].
  unfold sqlite3VdbeMemNulTerminate. rewrite Hs. destruct (has m.(flags) MEM_Term) eqn:E.
  { destruct (Hz eq_refl) as [rest Hr]. exists m, rest. by split_and!. }
  cbn [orb negb]. unfold sqlite3VdbeMemGrow. rewrite andb_false_r. cbn. eexists _, [0]. split; [done|].
  unfold terminate, content. cbn. fold (content m). rewrite Hc, Hn. unfold zlen. rewrite Nat2Z.id, firstn_all.
  split; [|done]. split; cbn; try done.
  - revert Hs. clear. bits.
  - revert Hf. clear. bits.
  - unfold content. cbn. unfold zlen. by rewrite Nat2Z.id, take_app_length.
  - intros _. by exists [0].
Qed.

Lemma expand_plenty m : has m.(flags) MEM_Zero = false -> ExpandBlob m plenty = Some ((SQLITE_OK, m), plenty).
Proof. intros Hz. unfold ExpandBlob, attempt, draw, plenty, sqlite3VdbeMemExpandBlob. by rewrite Hz. Qed.

Lemma value_text_plenty m t : text_arg m t ->
  exists m' rest, ValueText m SQLITE_UTF8 plenty = Some ((m', true), plenty) /\ text_arg m' t /\ m'.(z) = t ++ 0 :: rest.
Proof.
  intros Ht. destruct (text_flags _ _ Ht) as (Hn & Hb & Hz & _). destruct (nulterminate_plenty m t Ht) as (m' & rest & Hm & Ht' & Hr).
  exists m', rest. split; [|done]. unfold ValueText. rewrite Hn, no_blob, add_no_flags by done.
  erewrite am_bind by by apply expand_plenty.
  cbv beta iota. rewrite (ta_str _ _ Ht). erewrite am_bind.
  2:{ erewrite am_bind by (apply changeenc_plenty, Ht). cbv beta iota. erewrite am_bind by exact Hm. reflexivity. }
  cbv beta.
  rewrite (ta_enc _ _ Ht'). destruct (text_flags _ _ Ht') as (-> & _). done.
Qed.

(** The arguments are these values. *)
Definition args (k : call) (vs : list value) : Prop := Forall2 arg_is k.(argv) vs.

(** A step that leaves the arguments the same values, and everything else. *)
Definition same_call (k k' : call) (vs : list value) : Prop :=
  args k' vs /\ k'.(ctx) = k.(ctx) /\ k'.(vtypes) = k.(vtypes).

Lemma same_call_args k k' vs : same_call k k' vs -> args k' vs.
Proof. by intros [? _]. Qed.

Lemma run_get_arg k vs i v : args k vs -> vs !! i = Some v -> exists m, get_arg i k plenty = Some ((m, k), plenty) /\ k.(argv) !! i = Some m /\ arg_is m v.
Proof.
  intros Ha Hv. destruct (Forall2_lookup_r _ _ _ _ _ Ha Hv) as (m & Hm & Hi). exists m. split; [|done].
  unfold get_arg, mbind, AM_bind, must. by rewrite Hm.
Qed.

Lemma set_same k vs i v m : args k vs -> vs !! i = Some v -> arg_is m v ->
  same_call k (mkCall k.(ctx) (<[i := m]> k.(argv)) k.(vtypes)) vs.
Proof.
  intros Ha Hv Hm. split; [|done]. unfold args. cbn. rewrite <- (list_insert_id vs i v) by done. by apply Forall2_insert.
Qed.

Lemma run_value_text k vs i t : args k vs -> vs !! i = Some (VText t) ->
  exists rest k', sqlite3_value_text i k plenty = Some ((Some (t ++ 0 :: rest), k'), plenty) /\ same_call k k' vs.
Proof.
  intros Ha Hv. destruct (run_get_arg _ _ _ _ Ha Hv) as (m & Hm & Hl & Ht). destruct (value_text_plenty m t Ht) as (m' & rest & Hr & Ht' & Hz).
  eexists rest, _. unfold sqlite3_value_text. erewrite fm_bind by exact Hm. erewrite fm_bind.
  2:{ unfold am. erewrite am_bind by exact Hr. reflexivity. }
  cbn beta iota. erewrite fm_bind by reflexivity. rewrite Hz. split; [reflexivity|]. by eapply set_same.
Qed.

Lemma run_value_bytes k vs i t : args k vs -> vs !! i = Some (VText t) ->
  exists k', sqlite3_value_bytes i k plenty = Some ((zlen t, k'), plenty) /\ same_call k k' vs.
Proof.
  intros Ha Hv. destruct (run_get_arg _ _ _ _ Ha Hv) as (m & Hm & Hl & Ht). destruct (value_text_plenty m t Ht) as (m' & rest & Hr & Ht' & Hz).
  destruct (text_flags _ _ Ht) as (_ & Hb & _). destruct (text_flags _ _ Ht') as (_ & _ & Hz' & _).
  eexists _. unfold sqlite3_value_bytes. erewrite fm_bind by exact Hm. erewrite fm_bind.
  2:{ unfold am. erewrite am_bind; [reflexivity|]. unfold sqlite3ValueBytes. rewrite Hb. erewrite am_bind by exact Hr. cbv beta iota. rewrite Hz', (ta_n _ _ Ht'). reflexivity. }
  cbn beta iota. erewrite fm_bind by reflexivity. split; [reflexivity|]. by eapply set_same.
Qed.

Lemma run_value_int k vs i v : args k vs -> vs !! i = Some (VInt v) ->
  sqlite3_value_int i k plenty = Some ((i32 v, k), plenty).
Proof.
  intros Ha Hv. destruct (run_get_arg _ _ _ _ Ha Hv) as (m & Hm & _ & [Hi _ Hu]).
  unfold sqlite3_value_int, sqlite3_value_int64. erewrite fm_bind.
  2:{ erewrite fm_bind by exact Hm. reflexivity. }
  unfold sqlite3VdbeIntValue. by rewrite Hi, Hu.
Qed.

(** The call as it begins. *)
Definition begins (c : sqlite3_context) (ms : list Mem) (vs : list value) : Prop :=
  Forall2 arg_is ms vs /\ c.(isError) = 0.

Definition value_type (v : value) : Z := match v with VText _ => SQLITE_TEXT | VInt _ => SQLITE_INTEGER end.

Lemma types_of ms vs : Forall2 arg_is ms vs -> map sqlite3VdbeMemStoreType ms = map value_type vs.
Proof.
  induction 1 as [|m v ms vs Hm _ IH]; [done|]. cbn. f_equal; [|done]. unfold sqlite3VdbeMemStoreType. destruct v as [t|v].
  - destruct (text_flags _ _ Hm) as (-> & _ & _ & -> & ->). by rewrite (ta_str _ _ Hm).
  - by rewrite (ia_null _ _ Hm), (ia_int _ _ Hm).
Qed.

Lemma run_function f c ms k' : f (mkCall c ms (map sqlite3VdbeMemStoreType ms)) plenty = Some (((), k'), plenty) ->
  as_function f c ms plenty = Some ((k'.(ctx), k'.(argv)), plenty).
Proof. intros E. unfold as_function. by erewrite am_bind by exact E. Qed.

Lemma run_value_type k vs i v : k.(vtypes) = map value_type vs -> vs !! i = Some v -> sqlite3_value_type i k plenty = Some ((value_type v, k), plenty).
Proof.
  intros Ht Hv. unfold sqlite3_value_type, mbind, AM_bind, must. rewrite Ht, list_lookup_fmap, Hv. done.
Qed.

(** ** Results *)

(** The result of the call is the text [t]; the error code [rc]. *)
Definition gives_text (c : sqlite3_context) (t : list Z) : Prop :=
  has c.(ctx_s).(flags) MEM_Str = true /\ has c.(ctx_s).(flags) MEM_Null = false /\ content c.(ctx_s) = t /\
  c.(ctx_s).(n) = zlen t /\ c.(ctx_s).(enc) = SQLITE_UTF8 /\ c.(isError) = 0.
Definition gives_int (c : sqlite3_context) (v : Z) : Prop :=
  has c.(ctx_s).(flags) MEM_Int = true /\ has c.(ctx_s).(flags) MEM_Null = false /\ c.(ctx_s).(u) = v /\ c.(isError) = 0.

Lemma setstr_plenty limit m z k xDel : xDel = SQLITE_TRANSIENT \/ xDel = xDel_other ->
  0 <= k <= limit -> k <= zlen z ->
  exists m', sqlite3VdbeMemSetStr limit m (Some z) k SQLITE_UTF8 xDel plenty = Some ((SQLITE_OK, m'), plenty) /\
    has m'.(flags) MEM_Str = true /\ has m'.(flags) MEM_Null = false /\ content m' = take (Z.to_nat k) z /\ m'.(n) = k /\ m'.(enc) = SQLITE_UTF8.
Proof.
  intros Hx Hk Hz. unfold sqlite3VdbeMemSetStr. change (SQLITE_UTF8 =? 0) with false. cbv beta iota zeta.
  destruct (Z.ltb_spec k 0); [lia|]. change (has MEM_Str MEM_Term) with false. cbv iota. rewrite Z.gtb_ltb.
  destruct (Z.ltb_spec limit k); [lia|]. destruct Hx as [-> | ->].
  - destruct (grow_plenty m k false) as (m1 & Hg & _). erewrite am_bind by (erewrite am_bind by exact Hg; reflexivity).
    cbv beta iota. change (negb (SQLITE_OK =? SQLITE_OK)) with false. cbv iota. cbn [enc set_z].
    change (negb (SQLITE_UTF8 =? SQLITE_UTF8)) with false. cbv iota. erewrite am_bind by reflexivity. cbv beta iota.
    change (negb (SQLITE_OK =? SQLITE_OK)) with false. cbv iota. eexists. split; [reflexivity|]. cbn. split_and!; try done.
    unfold content. cbn. by rewrite take_take, Nat.min_id.
  - erewrite am_bind by reflexivity. cbv beta iota. change (negb (SQLITE_OK =? SQLITE_OK)) with false. cbv iota. cbn [enc].
    change (negb (SQLITE_UTF8 =? SQLITE_UTF8)) with false. cbv iota. erewrite am_bind by reflexivity. cbv beta iota.
    change (negb (SQLITE_OK =? SQLITE_OK)) with false. cbv iota. eexists. split; [reflexivity|]. by split_and!.
Qed.

Lemma run_result_text limit k z w xDel : xDel = SQLITE_TRANSIENT \/ xDel = xDel_other ->
  k.(ctx).(isError) = 0 -> 0 <= w <= limit -> w <= zlen z ->
  exists k', sqlite3_result_text limit (Some z) w xDel k plenty = Some (((), k'), plenty) /\ gives_text k'.(ctx) (take (Z.to_nat w) z) /\ k'.(argv) = k.(argv).
Proof.
  intros Hx He Hw Hz. destruct (setstr_plenty limit k.(ctx).(ctx_s) z w xDel Hx Hw Hz) as (m' & Hm & H1 & H2 & H3 & H4 & H5).
  unfold sqlite3_result_text, setResultStrOrError. eexists. erewrite fm_bind.
  2:{ unfold set_str. erewrite am_bind by exact Hm. reflexivity. }
  cbv beta. change (SQLITE_OK =? SQLITE_TOOBIG) with false. cbv iota. split; [reflexivity|]. split; [|done].
  split_and!; try done. cbn [ctx ctx_s]. rewrite H4. unfold zlen in *. rewrite length_take. lia.
Qed.

Lemma run_result_int k v : k.(ctx).(isError) = 0 -> is_i32 v ->
  exists k', sqlite3_result_int v k plenty = Some (((), k'), plenty) /\ gives_int k'.(ctx) v /\ k'.(argv) = k.(argv).
Proof.
  intros He Hv. eexists. split; [reflexivity|]. split; [|done]. split_and!; try done. cbn. by apply wrap_s_small; [lia|].
Qed.

(** ** Characters *)

(** The characters of a text, as SQLITE_SKIP_UTF8 separates them. *)
Definition characters (t : list Z) : list (list Z) := set_of_chars (length t) t.

Lemma skip_tail_app t rest : skip_tail (t ++ 0 :: rest) = skip_tail t.
Proof. induction t as [|c t IH]; [done|]. cbn. by rewrite IH. Qed.

Lemma skip_app t rest : t <> [] -> SQLITE_SKIP_UTF8 (t ++ 0 :: rest) = SQLITE_SKIP_UTF8 t.
Proof. destruct t as [|c t]; [done|]. intros _. cbn. by rewrite skip_tail_app. Qed.

Lemma skip_tail_le t : (skip_tail t <= length t)%nat.
Proof. induction t as [|c t IH]; [done|]. cbn. destruct (_ =? _); lia. Qed.

Lemma skip_range t : t <> [] -> (1 <= SQLITE_SKIP_UTF8 t <= length t)%nat.
Proof. destruct t as [|c t]; [done|]. intros _. cbn. pose proof (skip_tail_le t). destruct (_ >=? _); lia. Qed.

Lemma cstring_deref t rest : cstring t -> t <> [] -> (deref (t ++ 0 :: rest) =? 0) = false /\ (deref t =? 0) = false.
Proof. intros Hc Ht. destruct Hc as [|c t Hc _]; [done|]. cbn. lia. Qed.

Lemma cstring_skip t : cstring t -> cstring (skip t).
Proof. intros Hc. by apply Forall_drop. Qed.

Lemma skip_length t : t <> [] -> (length (skip t) < length t)%nat.
Proof. intros Ht. pose proof (skip_range t Ht). unfold skip. rewrite length_drop. lia. Qed.

(** More fuel changes nothing. *)
Lemma chars_fuel fuel : forall t, cstring t -> (length t <= fuel)%nat -> set_of_chars fuel t = characters t.
Proof.
  induction fuel as [fuel IH] using lt_wf_ind. intros t Hc Hf. unfold characters. destruct t as [|c t0]; [by destruct fuel|].
  destruct fuel as [|fuel]; [cbn in Hf; lia|]. remember (c :: t0) as t eqn:Et.
  assert (El : length t = S (length t0)) by (by rewrite Et). assert (Hne : t <> []) by (by rewrite Et).
  rewrite El. cbn [set_of_chars]. destruct (deref t =? 0); [done|]. f_equal. pose proof (skip_length t Hne) as Hl.
  rewrite (IH fuel) by (first [lia|by apply cstring_skip]). symmetry. apply (IH (length t0)); [lia|by apply cstring_skip|lia].
Qed.

Lemma characters_cons t : cstring t -> t <> [] -> characters t = take (SQLITE_SKIP_UTF8 t) t :: characters (skip t).
Proof.
  intros Hc Ht. destruct (cstring_deref t [] Hc Ht) as [_ Hd]. pose proof (skip_length t Ht). unfold characters at 1.
  destruct (length t) as [|f] eqn:El; [lia|]. cbn [set_of_chars]. rewrite Hd. f_equal. apply chars_fuel; [by apply cstring_skip|lia].
Qed.

Lemma characters_concat t : cstring t -> concat (characters t) = t.
Proof.
  remember (length t) as k eqn:Hk. revert t Hk. induction k as [k IH] using lt_wf_ind. intros t -> Hc.
  destruct (decide (t = [])) as [->|Ht]; [done|]. rewrite characters_cons by done. cbn [concat].
  pose proof (skip_length t Ht). rewrite (IH (length (skip t))); [apply take_drop|done|done|by apply cstring_skip].
Qed.

Lemma skip_suffix t rest : t <> [] -> skip (t ++ 0 :: rest) = skip t ++ 0 :: rest.
Proof. intros Ht. unfold skip. rewrite skip_app by done. pose proof (skip_range t Ht). by rewrite drop_app_le by lia. Qed.

Lemma count_spec fuel : forall t rest len, cstring t -> (length t <= fuel)%nat -> count_chars fuel (t ++ 0 :: rest) len = len + zlen (characters t).
Proof.
  induction fuel as [|fuel IH]; intros t rest len Hc Hf.
  { destruct t; [unfold zlen; cbn; lia|cbn in Hf; lia]. }
  cbn [count_chars]. destruct (decide (t = [])) as [->|Ht]; [unfold zlen; cbn; lia|].
  destruct (cstring_deref t rest Hc Ht) as [-> _]. rewrite skip_suffix, characters_cons by done. pose proof (skip_length t Ht).
  rewrite IH by (first [by apply cstring_skip|lia]). unfold zlen. cbn [length]. lia.
Qed.

Lemma skip_chars_spec fuel : forall t rest k, cstring t -> (length t <= fuel)%nat -> 0 <= k ->
  skip_chars fuel (t ++ 0 :: rest) k = concat (drop (Z.to_nat k) (characters t)) ++ 0 :: rest.
Proof.
  induction fuel as [|fuel IH]; intros t rest k Hc Hf Hk.
  { destruct t; [|cbn in Hf; lia]. cbn. by rewrite drop_nil. }
  cbn [skip_chars]. destruct (decide (t = [])) as [->|Ht]; [cbn; by rewrite drop_nil|].
  destruct (cstring_deref t rest Hc Ht) as [-> _]. cbn [negb andb]. destruct (Z.eqb_spec k 0) as [->|Hne]; cbn [negb].
  { change (Z.to_nat 0) with 0%nat. by rewrite drop_0, characters_concat. }
  pose proof (skip_length t Ht). rewrite skip_suffix, IH, (characters_cons t) by (first [done|by apply cstring_skip|lia]).
  replace (Z.to_nat k) with (S (Z.to_nat (k - 1))) by lia. done.
Qed.

Lemma characters_drop k : forall t, cstring t -> characters (concat (drop k (characters t))) = drop k (characters t).
Proof.
  induction k as [|k IH]; intros t Hc; [by rewrite drop_0, characters_concat|].
  destruct (decide (t = [])) as [->|Ht]; [done|]. rewrite (characters_cons t) by done. cbn [drop]. by apply IH, cstring_skip.
Qed.

(** ** substr() *)

(** The characters number [lo] to [hi - 1], of those there are; the first one is
    number 1. *)
Definition between (lo hi : Z) (chs : list (list Z)) : list (list Z) :=
  take (Z.to_nat (hi - Z.max 1 lo)) (drop (Z.to_nat (Z.max 1 lo - 1)) chs).

(** What substr(t, p, len) is to be: [p] counts from the end when it is negative,
    and the characters are those before when [len] is. *)
Definition substr_spec (t : list Z) (p len : Z) : list Z :=
  let chs := characters t in
  let start := if p <? 0 then zlen chs + p + 1 else p in
  concat (if len <? 0 then between (start + len) start chs else between start (start + len) chs).

Lemma substr_range_spec (chs : list (list Z)) p len L : (p < 0 -> L = zlen chs) ->
  let start := if p <? 0 then zlen chs + p + 1 else p in
  let '(p1, p2) := substr_range p (Z.abs len) L (len <? 0) in
  0 <= p1 /\ 0 <= p2 /\
  take (Z.to_nat p2) (drop (Z.to_nat p1) chs) = if len <? 0 then between (start + len) start chs else between start (start + len) chs.
Proof.
  intros HL start. assert (Hend : forall k1 k2 a b, k2 <= 0 -> b <= 0 -> take (Z.to_nat k2) (drop (Z.to_nat k1) chs) = take (Z.to_nat b) (drop (Z.to_nat a) chs)).
  { intros k1 k2 a b H1 H2. by replace (Z.to_nat k2) with 0%nat by lia; replace (Z.to_nat b) with 0%nat by lia. }
  assert (Hzlen : 0 <= zlen chs) by (unfold zlen; lia).
  unfold substr_range, between. subst start. rewrite !Z.gtb_ltb.
  destruct (Z.ltb_spec p 0) as [Hp|Hp]; rewrite ?(HL Hp); cbv zeta beta iota;
    repeat (match goal with |- context [?x <? ?y] => destruct (Z.ltb_spec x y) end; cbv beta iota);
    (split; [lia|split; [lia|]]); first [apply Hend; lia|f_equal; [lia|f_equal; lia]].
Qed.

Lemma abs_neg len : (if len <? 0 then - len else len) = Z.abs len.
Proof. destruct (Z.ltb_spec len 0); lia. Qed.

(** The last part, on a text. *)
Lemma run_substr_result limit k t rest p1 p2 len : cstring t -> zlen t <= limit -> 0 <= p1 -> 0 <= p2 -> k.(ctx).(isError) = 0 ->
  exists k', substr_result limit false (t ++ 0 :: rest) p1 p2 len k plenty = Some (((), k'), plenty) /\
    gives_text k'.(ctx) (concat (take (Z.to_nat p2) (drop (Z.to_nat p1) (characters t)))) /\ k'.(argv) = k.(argv).
Proof.
  intros Hc Hl H1 H2 He. unfold substr_result. cbn [negb]. cbv zeta.
  set (chs := characters t). pose proof (characters_concat t Hc) as Hcat. fold chs in Hcat.
  assert (Hfuel : (length t <= length (t ++ 0%Z :: rest))%nat) by (rewrite length_app; lia).
  rewrite skip_chars_spec by done. fold chs. set (t1 := concat (drop (Z.to_nat p1) chs)).
  assert (Hd : concat (take (Z.to_nat p1) chs) ++ t1 = t) by (unfold t1; by rewrite <- concat_app, take_drop).
  assert (Hc1 : cstring t1) by (unfold cstring in *; rewrite <- Hd in Hc; by apply Forall_app in Hc as [_ Hc]).
  assert (Hchs : characters t1 = drop (Z.to_nat p1) chs) by (by apply characters_drop).
  rewrite skip_chars_spec by (try done; rewrite length_app; lia). rewrite Hchs.
  set (t2 := concat (drop (Z.to_nat p2) _)). set (out := concat (take _ _)).
  assert (Hd1 : out ++ t2 = t1) by (unfold out, t2, t1; by rewrite <- concat_app, take_drop).
  assert (Hw : Z.of_nat (length (t1 ++ 0 :: rest)) - Z.of_nat (length (t2 ++ 0 :: rest)) = zlen out)
    by (unfold zlen; rewrite <- Hd1, !length_app; lia).
  assert (Hlen : zlen out <= zlen t) by (unfold zlen; rewrite <- Hd, <- Hd1, !length_app; lia).
  rewrite Hw. destruct (run_result_text limit k (t1 ++ 0 :: rest) (zlen out) SQLITE_TRANSIENT) as (k' & Hk & Hg & Ha);
    [by left|done|unfold zlen in *; lia|unfold zlen; rewrite <- Hd1, !length_app; lia|].
  exists k'. split; [done|]. split; [|done]. revert Hg. unfold zlen. rewrite Nat2Z.id, <- Hd1, <- app_assoc, take_app_length. done.
Qed.

(** A text as a C string: up to its first NUL. *)
Fixpoint c_text (t : list Z) : list Z :=
  match t with [] => [] | c :: t => if c =? 0 then [] else c :: c_text t end.

Lemma c_text_split t rest : bytes_ok t -> exists rest', t ++ 0 :: rest = c_text t ++ 0 :: rest' /\ cstring (c_text t) /\ zlen (c_text t) <= zlen t.
Proof.
  induction 1 as [|c t Hb _ (rest' & E & Hc & Hl)]; [exists rest; split_and!; [done|apply List.Forall_nil|done]|]. cbn [c_text app].
  destruct (Z.eqb_spec c 0) as [->|Hne].
  - exists (t ++ 0 :: rest). split_and!; [done|apply List.Forall_nil|unfold zlen; cbn; lia].
  - exists rest'. split_and!; [by rewrite E| |unfold zlen in *; cbn [length]; lia].
    apply List.Forall_cons; [|done]. revert Hb. unfold_int. lia.
Qed.

(** C15: substr() on a text and integers gives the characters with the numbers
    from the start to the start plus the length, counted from the end of the
    text when the start is negative, and those before the start when the length
    is; no more than there are; the arguments stay the values they were.  The
    text counts up to its first NUL, and of the integers the low 32 bits. *)
Theorem substr_correct limit c ms t p l :
  let vs := VText t :: VInt p :: match l with Some l => [VInt l] | None => [] end in
  begins c ms vs -> bytes_ok t -> zlen t <= limit -> limit < 2 ^ 31 ->
  exists c' ms', as_function (substrFunc limit) c ms plenty = Some ((c', ms'), plenty) /\
    gives_text c' (substr_spec (c_text t) (i32 p) (default limit (i32 <$> l))) /\ Forall2 arg_is ms' vs.
Proof.
  intros vs [Ha He] Hb Hl Hlim. set (k := mkCall c ms (map sqlite3VdbeMemStoreType ms)).
  assert (Hk : args k vs) by done. pose proof (types_of ms vs Ha) as Ht.
  assert (Hn : length ms = length vs) by (by eapply Forall2_length).
  assert (Hlim0 : 0 <= limit) by (unfold zlen in Hl; lia).
  destruct (run_value_text k vs 0 t Hk eq_refl) as (rest0 & k1 & Hk1 & Ha1 & Hctx & Hty).
  destruct (c_text_split t rest0 Hb) as (rest & Et & Hc & Hle). rewrite Et in Hk1. set (ct := c_text t) in *.
  set (lz := default limit (i32 <$> l)).
  pose proof (substr_range_spec (characters ct) (i32 p) lz (if i32 p <? 0 then zlen (characters ct) else 0)) as Hr.
  cbv zeta in Hr. destruct (substr_range (i32 p) (Z.abs lz) _ (lz <? 0)) as [q1 q2] eqn:Eq.
  destruct Hr as (Hq1 & Hq2 & Hq); [destruct (Z.ltb_spec (i32 p) 0); [done|lia]|].
  destruct (run_substr_result limit k1 ct rest q1 q2 (if i32 p <? 0 then zlen (characters ct) else 0)) as (k2 & Hk2 & Hg & Hargs); try done; [lia|by rewrite Hctx|].
  exists k2.(ctx), k2.(argv). split; [|split; [|by rewrite Hargs]].
  2:{ revert Hg. unfold substr_spec. cbv zeta. by rewrite Hq. }
  apply run_function. fold k.
  unfold substrFunc. erewrite fm_bind by reflexivity. change (argv k) with ms. rewrite Hn.
  destruct l as [l|]; cbn [length vs Nat.eqb orb] in Hn |- *.
  all: erewrite fm_bind by reflexivity.
  all: erewrite fm_bind by (eapply (run_value_type k vs 1 (VInt p)); [exact Ht|reflexivity]).
  - erewrite fm_bind by (eapply (run_value_type k vs 2 (VInt l)); [exact Ht|reflexivity]).
    cbn [value_type]. change (SQLITE_INTEGER =? SQLITE_NULL) with false. cbn [orb].
    erewrite fm_bind by (eapply (run_value_type k vs 0 (VText t)); [exact Ht|reflexivity]).
    erewrite fm_bind by (eapply (run_value_int k vs 1 p); [exact Hk|reflexivity]).
    cbn [value_type]. change (SQLITE_TEXT =? SQLITE_BLOB) with false. cbv iota.
    erewrite fm_bind by reflexivity. erewrite fm_bind by exact Hk1. cbv beta iota.
    erewrite fm_bind by (eapply (run_value_int k1 vs 2 l); [exact Ha1|reflexivity]).
    unfold lz in Eq; cbn [default fmap option_fmap option_map] in Eq; unfold id in Eq. rewrite count_spec by (first [done|lia|rewrite length_app; lia]). rewrite Z.add_0_l.
    cbn [andb]. rewrite abs_neg, Eq. erewrite fm_bind; [exact Hk2|].
    rewrite !Z.geb_leb. by destruct (Z.leb_spec 0 q1), (Z.leb_spec 0 q2); [|lia..].
  - erewrite fm_bind by reflexivity. cbn [value_type]. change (SQLITE_INTEGER =? SQLITE_NULL) with false. cbn [orb].
    erewrite fm_bind by (eapply (run_value_type k vs 0 (VText t)); [exact Ht|reflexivity]).
    erewrite fm_bind by (eapply (run_value_int k vs 1 p); [exact Hk|reflexivity]).
    cbn [value_type]. change (SQLITE_TEXT =? SQLITE_BLOB) with false. cbv iota.
    erewrite fm_bind by reflexivity. erewrite fm_bind by exact Hk1. cbv beta iota.
    erewrite fm_bind by reflexivity. unfold lz in Eq; cbn [default fmap option_fmap option_map] in Eq; unfold id in Eq. rewrite count_spec by (first [done|lia|rewrite length_app; lia]). rewrite Z.add_0_l.
    cbn [andb]. rewrite Z.abs_eq in Eq by lia. destruct (Z.ltb_spec limit 0); [lia|]. rewrite Eq. erewrite fm_bind; [exact Hk2|].
    rewrite !Z.geb_leb. by destruct (Z.leb_spec 0 q1), (Z.leb_spec 0 q2); [|lia..].
Qed.

(** substr('a' || e acute || 'z', -2, 4294967301): the length is 5. *)
Lemma substr_correct_witness :
  let text_cell t := mkMem (Z.lor MEM_Str MEM_Term) 0 0 (zlen t) (t ++ [0]) SQLITE_UTF8 false 0 in
  let int_cell v := mkMem MEM_Int 0 v 0 [] 0 false 0 in
  let t := [97; 195; 169; 122] in
  exists c' ms', as_function (substrFunc 1000) (mkContext (mkMem MEM_Null 0 0 0 [] SQLITE_UTF8 false 0) 0 None) [text_cell t; int_cell (-2); int_cell 4294967301] plenty = Some ((c', ms'), plenty) /\
    gives_text c' [195; 169; 122] /\ Forall2 arg_is ms' [VText t; VInt (-2); VInt 4294967301].
Proof.
  intros text_cell int_cell t. apply (substr_correct 1000 _ _ t (-2) (Some 4294967301)).
  - split; [|done]. repeat constructor. by exists [].
  - repeat constructor; unfold_int; lia.
  - vm_compute. congruence.
  - lia.
Defined.

(** ** replace() *)

(** [ps] are the pieces of [s] between the occurrences of [B], found from left
    to right. *)
Definition occurs (B s : list Z) : Prop := exists p q, s = p ++ B ++ q.

Inductive pieces (B : list Z) : list Z -> list (list Z) -> Prop :=
  | pieces_last s : ~ occurs B s -> pieces B s [s]
  | pieces_next p s ps :
      (forall p' q', p ++ B ++ s = p' ++ B ++ q' -> (length p <= length p')%nat) ->
      pieces B s ps -> pieces B (p ++ B ++ s) (p :: ps).

Fixpoint join (C : list Z) (ps : list (list Z)) : list Z :=
  match ps with
  | [] => []
  | [p] => p
  | p :: ps => p ++ C ++ join C ps
  end.

Lemma pieces_nonempty B s ps : pieces B s ps -> ps <> [].
Proof. by destruct 1. Qed.

Lemma join_cons C p ps : ps <> [] -> join C (p :: ps) = p ++ C ++ join C ps.
Proof. by destruct ps. Qed.

Lemma pieces_join B s ps : pieces B s ps -> join B ps = s.
Proof. induction 1 as [s Ho|p s ps Hf Hp IH]; [done|]. rewrite join_cons by by eapply pieces_nonempty. by rewrite IH. Qed.

(** One character more in front, where [B] does not begin. *)
Lemma pieces_cons B c s p ps : (forall q, c :: s <> B ++ q) -> pieces B s (p :: ps) -> pieces B (c :: s) ((c :: p) :: ps).
Proof.
  intros Hb Hp. inversion Hp as [s' Ho|p' s' ps' Hf Hps]; subst.
  - apply pieces_last. intros (p' & q & E). destruct p' as [|c' p']; [by eapply Hb|]. apply Ho. exists p', q. by injection E as _ ->.
  - apply (pieces_next B (c :: p)); [|done]. intros p' q' E. destruct p' as [|c' p']; [exfalso; by eapply Hb|].
    injection E as _ E. cbn. apply le_n_S. by eapply Hf.
Qed.

Lemma pieces_hit B s ps : pieces B s ps -> pieces B (B ++ s) ([] :: ps).
Proof. intros Hp. apply (pieces_next B []); [cbn; lia|done]. Qed.

Lemma pieces_short B s : (length s < length B)%nat -> pieces B s [s].
Proof. intros Hl. apply pieces_last. intros (p & q & ->). rewrite !length_app in Hl. lia. Qed.

(** Where the first bytes are [B]. *)
Lemma prefix_split B s rest rest' : (length B <= length s)%nat ->
  memcmp_eq (s ++ rest) (B ++ rest') (zlen B) = true <-> exists q, s = B ++ q.
Proof.
  intros Hl. unfold memcmp_eq, zlen. rewrite Nat2Z.id, bool_decide_eq_true, take_app_length, take_app_le by done. split.
  - intros E. exists (drop (length B) s). rewrite <- E at 1. by rewrite take_drop.
  - intros [q ->]. apply take_app_length.
Qed.

Lemma pieces_exist B s : B <> [] -> exists ps, pieces B s ps.
Proof.
  intros HB. remember (length s) as k eqn:Hk. revert s Hk. induction k as [k IH] using lt_wf_ind. intros s ->.
  destruct (decide (B `prefix_of` s)) as [[q ->]|Hn].
  - destruct (IH (length q)) with (s := q) as [ps Hp]; [destruct B; [done|cbn; rewrite length_app; lia]|done|].
    eexists. by apply pieces_hit.
  - destruct s as [|c s]; [exists [[]]; apply pieces_short; destruct B; [done|cbn; lia]|].
    destruct (IH (length s)) with (s := s) as [ps Hp]; [cbn; lia|done|]. destruct ps as [|p ps]; [by apply pieces_nonempty in Hp|].
    eexists. apply pieces_cons; [|exact Hp]. intros q E. apply Hn. by exists q.
Qed.

Lemma join_longer B C ps : (length B <= length C)%nat -> (length (join B ps) <= length (join C ps))%nat.
Proof.
  intros Hl. induction ps as [|p [|p' ps] IH]; [done|done|]. rewrite (join_cons B p), (join_cons C p), !length_app by done. lia.
Qed.

Lemma malloc_plenty x k : 0 < x < 0x7fffff00 -> sqlite3Malloc (i32 x) k plenty = Some ((true, k), plenty).
Proof.
  intros Hx. rewrite wrap_s_small by (first [lia|unfold in_s; change (2 ^ (32 - 1)) with 2147483648; lia]).
  unfold sqlite3Malloc, malloc_size_ok. rewrite Z.geb_leb. destruct (Z.leb_spec x 0), (Z.leb_spec 0x7fffff00 x); try lia. done.
Qed.

(** The test of the loop. *)
Lemma replace_test B s rest rB : B <> [] -> (length B <= length s)%nat ->
  (exists q, s = B ++ q /\ negb (deref (s ++ rest) =? deref (B ++ 0 :: rB)) || negb (memcmp_eq (s ++ rest) (B ++ 0 :: rB) (zlen B)) = false)
  \/ (forall q, s <> B ++ q) /\ negb (deref (s ++ rest) =? deref (B ++ 0 :: rB)) || negb (memcmp_eq (s ++ rest) (B ++ 0 :: rB) (zlen B)) = true.
Proof.
  intros HB Hl. pose proof (prefix_split B s rest (0 :: rB) Hl) as Hp. destruct (memcmp_eq _ _ _); cbn [negb].
  - left. destruct (proj1 Hp eq_refl) as [q ->]. exists q. split; [done|]. destruct B; [done|]. cbn. by rewrite Z.eqb_refl.
  - right. split; [|by rewrite orb_true_r]. intros q Eq. by assert (false = true) by (apply Hp; by exists q).
Qed.

(** What a run of the loop from [s] on, with [out] before it, gives. *)
Definition replace_outcome (limit : Z) (final : list Z) (x : option ((replace_end * call) * alloc)) (k : call) : Prop :=
  if zlen final <=? limit
  then exists out z n, x = Some ((Done out z n (zlen final + 1), k), plenty) /\ out ++ take (Z.to_nat n) z = final
  else x = Some ((TooBig, k), plenty).

Lemma replace_loop_spec limit B C rB rC rest k fuel : B <> [] -> limit <= 1000000000 ->
  forall s out, (length s < fuel)%nat -> zlen out + zlen s <= limit ->
  exists ps, pieces B s ps /\
    replace_outcome limit (out ++ join C ps)
      (replace_loop limit fuel (s ++ rest) (zlen s) (B ++ 0 :: rB) (zlen B) (C ++ rC) (zlen C) out (zlen out + zlen s + 1) k plenty) k.
Proof.
  intros HB Hlim. induction fuel as [|fuel IH]; intros s out Hf Hl; [lia|]. cbn [replace_loop]. rewrite Z.geb_leb.
  destruct (Z.leb_spec (zlen B) (zlen s)) as [Hge|Hlt].
  2:{ exists [s]. split; [apply pieces_short; unfold zlen in Hlt; lia|]. cbn [join]. unfold replace_outcome.
      assert (E : zlen (out ++ s) = zlen out + zlen s) by (unfold zlen; rewrite length_app; lia). rewrite E.
      destruct (Z.leb_spec (zlen out + zlen s) limit); [|lia]. exists out, (s ++ rest), (zlen s). split; [done|].
      unfold zlen. by rewrite Nat2Z.id, take_app_length. }
  destruct (replace_test B s rest rB HB) as [(q & Es & ->)|(Hn & ->)]; [unfold zlen in Hge; lia|..].
  - assert (Hlen : zlen s = zlen B + zlen q) by (rewrite Es; unfold zlen; rewrite length_app; lia).
    assert (Hout : zlen out + zlen s + 1 + (zlen C - zlen B) = zlen (out ++ C) + zlen q + 1) by (unfold zlen in *; rewrite length_app; lia).
    rewrite Hout, Z.gtb_ltb. destruct (Z.ltb_spec limit (zlen (out ++ C) + zlen q + 1 - 1)) as [Hbig|Hok].
    + destruct (pieces_exist B q HB) as [ps Hp]. exists ([] :: ps). split; [rewrite Es; by apply pieces_hit|].
      assert (Hj : (length (join B ps) <= length (join C ps))%nat) by (apply join_longer; unfold zlen in *; rewrite length_app in Hbig; lia).
      rewrite (pieces_join _ _ _ Hp) in Hj. rewrite join_cons by by eapply pieces_nonempty. unfold replace_outcome.
      destruct (Z.leb_spec (zlen (out ++ [] ++ C ++ join C ps)) limit) as [Hc|_]; [|done].
      exfalso. cbn [app] in Hc. unfold zlen in *. rewrite !length_app in *. lia.
    + erewrite fm_bind by (apply malloc_plenty; unfold zlen in *; lia). cbn [negb].
      destruct (IH q (out ++ C)) as (ps & Hp & Ho); [rewrite Es, length_app in Hf; destruct B; [done|cbn in Hf; lia]|lia|].
      exists ([] :: ps). split; [rewrite Es; by apply pieces_hit|]. rewrite join_cons by by eapply pieces_nonempty. cbn [app].
      assert (Hd : drop (Z.to_nat (zlen B)) (s ++ rest) = q ++ rest) by (rewrite Es, <- app_assoc; unfold zlen; by rewrite Nat2Z.id, drop_app_length).
      assert (Ht : take (Z.to_nat (zlen C)) (C ++ rC) = C) by (unfold zlen; by rewrite Nat2Z.id, take_app_length).
      rewrite Hd, Ht, app_assoc. by replace (zlen s - zlen B) with (zlen q) by lia.
  - destruct s as [|c s]; [destruct B; [done|unfold zlen in Hge; cbn in Hge; lia]|].
    assert (H1 : zlen (c :: s) - 1 = zlen s) by (unfold zlen; cbn [length]; lia).
    assert (H2 : zlen out + zlen (c :: s) + 1 = zlen (out ++ [c]) + zlen s + 1) by (unfold zlen; rewrite length_app; cbn [length]; lia).
    destruct (IH s (out ++ [c])) as (ps & Hp & Ho); [cbn in Hf; lia|lia|]. destruct ps as [|p ps]; [by apply pieces_nonempty in Hp|].
    exists ((c :: p) :: ps). split; [by apply pieces_cons|].
    assert (Hj : out ++ join C ((c :: p) :: ps) = (out ++ [c]) ++ join C (p :: ps)) by (destruct ps; by rewrite <- app_assoc).
    rewrite Hj, H1, H2. exact Ho.
Qed.

Lemma run_error_toobig limit k : exists k', sqlite3_result_error_toobig limit k plenty = Some (((), k'), plenty) /\
  k'.(ctx).(isError) = SQLITE_TOOBIG /\ k'.(argv) = k.(argv).
Proof.
  unfold sqlite3_result_error_toobig. erewrite fm_bind by reflexivity.
  set (k1 := mkCall _ _ _). assert (H : exists rc m', sqlite3VdbeMemSetStr limit k1.(ctx).(ctx_s) (Some (s_too_big ++ [0])) (-1) SQLITE_UTF8 SQLITE_STATIC plenty = Some ((rc, m'), plenty)).
  { unfold sqlite3VdbeMemSetStr. change (-1 <? 0) with true. change (SQLITE_UTF8 =? 0) with false. change (SQLITE_UTF8 =? SQLITE_UTF8) with true.
    cbv beta iota zeta. erewrite am_bind by reflexivity. cbv beta iota. change (negb (SQLITE_OK =? SQLITE_OK)) with false. cbv iota. cbn [enc].
    change (negb (SQLITE_UTF8 =? SQLITE_UTF8)) with false. cbv iota. erewrite am_bind by reflexivity. cbv beta iota.
    change (negb (SQLITE_OK =? SQLITE_OK)) with false. cbv iota. eexists _, _. reflexivity. }
  destruct H as (rc & m' & Hm). eexists. erewrite fm_bind.
  2:{ unfold set_str. erewrite am_bind by exact Hm. reflexivity. }
  split; [reflexivity|done].
Qed.

Lemma run_replace limit B C rB rC A rA k : B <> [] -> limit <= 1000000000 -> zlen A <= limit -> k.(ctx).(isError) = 0 ->
  exists k' ps, (e ← replace_loop limit (S (Z.to_nat (zlen A))) (A ++ 0 :: rA) (zlen A) (B ++ 0 :: rB) (zlen B) (C ++ 0 :: rC) (zlen C) [] (zlen A + 1);
      replace_finish limit e) k plenty = Some (((), k'), plenty) /\ pieces B A ps /\
    (if zlen (join C ps) <=? limit then gives_text k'.(ctx) (join C ps) else k'.(ctx).(isError) = SQLITE_TOOBIG) /\ k'.(argv) = k.(argv).
Proof.
  intros HB Hlim Hl He.
  destruct (replace_loop_spec limit B C rB (0 :: rC) (0 :: rA) k (S (Z.to_nat (zlen A))) HB Hlim A []) as (ps & Hp & Ho);
    [unfold zlen; rewrite Nat2Z.id; lia|unfold zlen in *; cbn; lia|]. cbn [app] in Ho. change (zlen (@nil Z) + zlen A + 1) with (zlen A + 1) in Ho.
  unfold replace_outcome in Ho. destruct (Z.leb_spec (zlen (join C ps)) limit) as [Hle|Hgt].
  - destruct Ho as (out & z & w & Ho & Eo). set (t := join C ps) in *.
    destruct (run_result_text limit k (t ++ [0]) (zlen t) xDel_other) as (k' & Hk & Hg & Ha);
      [by right|done|unfold zlen in *; lia|unfold zlen; rewrite length_app; lia|].
    exists k', ps. split; [|split; [done|split; [|done]]].
    + erewrite fm_bind by exact Ho. cbn [replace_finish]. rewrite Eo. cbv zeta. rewrite Z.eqb_refl. by erewrite fm_bind by reflexivity.
    + fold t. rewrite (proj2 (Z.leb_le _ _) Hle). revert Hg. unfold zlen. by rewrite Nat2Z.id, take_app_length.
  - destruct (run_error_toobig limit k) as (k' & Hk & He' & Ha). exists k', ps. rewrite (proj2 (Z.leb_gt _ _) Hgt). split; [|done]. by erewrite fm_bind by exact Ho.
Qed.

(** The copy of an argument as the result. *)
Lemma run_result_value k m t : text_arg m t -> k.(ctx).(isError) = 0 ->
  exists k', sqlite3_result_value m k plenty = Some (((), k'), plenty) /\ gives_text k'.(ctx) t /\ k'.(argv) = k.(argv).
Proof.
  intros Ht He. pose proof Ht as [Hs Hf Hen Hn Hc Hz]. destruct (text_flags _ _ Ht) as (Hnull & Hb & Hzero & _).
  assert (H : exists rc m', sqlite3VdbeMemCopy k.(ctx).(ctx_s) m plenty = Some ((rc, m'), plenty) /\
    has m'.(flags) MEM_Str = true /\ has m'.(flags) MEM_Null = false /\ content m' = t /\ m'.(n) = zlen t /\ m'.(enc) = SQLITE_UTF8).
  { unfold sqlite3VdbeMemCopy. set (m1 := mkMem _ _ _ _ _ _ _ _).
    assert (H1 : has m1.(flags) MEM_Str = true /\ has m1.(flags) MEM_Null = false /\ has m1.(flags) MEM_Zero = false /\ content m1 = t).
    { split_and!; [| | |exact Hc]; unfold m1; cbn [flags]; [revert Hs|revert Hnull|revert Hzero]; clear; bits. }
    destruct H1 as (Hs1 & Hn1 & Hz1 & Hc1). destruct (_ && negb _); [|by eexists _, m1].
    set (m2 := add_flags m1 MEM_Ephem). assert (Hz2 : has m2.(flags) MEM_Zero = false) by (unfold m2; cbn [flags add_flags set_flags]; revert Hz1; clear; bits).
    assert (Hs2 : has m2.(flags) MEM_Str = true) by (unfold m2; cbn [flags add_flags set_flags]; revert Hs1; clear; bits).
    assert (Hn2 : has m2.(flags) MEM_Null = false) by (unfold m2; cbn [flags add_flags set_flags]; revert Hn1; clear; bits).
    unfold MakeWriteable. erewrite am_bind by by apply expand_plenty. cbv beta iota.
    unfold attempt, draw, plenty. cbn [mallocs tail mbind option_bind]. unfold sqlite3VdbeMemMakeWriteable, sqlite3VdbeMemExpandBlob. rewrite Hz2. cbn [snd].
    destruct (_ && _); [|by eexists _, m2]. unfold sqlite3VdbeMemGrow. rewrite andb_false_r. cbn [negb Z.eqb SQLITE_OK].
    eexists _, _. split; [reflexivity|]. unfold terminate. cbn [flags set_flags set_z n enc].
    assert (content m2 = t) as Hc2 by exact Hc1. assert (n m2 = zlen t) as En2 by exact Hn.
    split_and!; [revert Hs2; clear; bits|revert Hn2; clear; bits| |exact Hn|exact Hen].
    unfold content at 1. cbn [n z set_flags set_z]. fold (content m2). unfold content at 1. cbn [n z]. rewrite Hc2, En2. unfold zlen.
    rewrite Nat2Z.id, firstn_all. apply take_app_length. }
  destruct H as (rc & m' & Hm & H1 & H2 & H3 & H4 & H5). eexists. unfold sqlite3_result_value. split; [by erewrite am_bind by exact Hm|].
  split; [|done]. by split_and!.
Qed.

(** replace() once it has a text to look for. *)
Definition replace_body (limit : Z) (A rA B rB : list Z) : FM () :=
  nPattern ← sqlite3_value_bytes 1;
  zRep ← sqlite3_value_text 2;
  match zRep with
  | None => mret ()
  | Some zRep =>
      nRep ← sqlite3_value_bytes 2;
      let nOut := zlen A + 1 in
      _ ← defined (if nOut <? SQLITE_MAX_LENGTH then Some () else None);
      ok ← contextMalloc limit nOut;
      if negb ok then mret ()
      else
        e ← replace_loop limit (S (Z.to_nat (zlen A))) (A ++ 0 :: rA) (zlen A) (B ++ 0 :: rB) nPattern zRep nRep [] nOut;
        replace_finish limit e
  end.

Lemma run_replace_body limit k A rA B rB C : args k [VText A; VText B; VText C] -> k.(ctx).(isError) = 0 -> B <> [] ->
  limit <= 1000000000 -> zlen A + 1 < 1000000000 ->
  exists k', replace_body limit A rA B rB k plenty = Some (((), k'), plenty) /\
    if limit <=? zlen A then k'.(ctx).(isError) = SQLITE_TOOBIG
    else exists ps, pieces B A ps /\
      if zlen (join C ps) <=? limit then gives_text k'.(ctx) (join C ps) else k'.(ctx).(isError) = SQLITE_TOOBIG.
Proof.
  intros Ha3 He HB Hlim HA. set (vs := [VText A; VText B; VText C]) in *.
  destruct (run_value_bytes k vs 1 B Ha3 eq_refl) as (k4 & Hk4 & Ha4 & Hc4 & _).
  destruct (run_value_text k4 vs 2 C Ha4 eq_refl) as (rC & k5 & Hk5 & Ha5 & Hc5 & _).
  destruct (run_value_bytes k5 vs 2 C Ha5 eq_refl) as (k6 & Hk6 & Ha6 & Hc6 & _).
  assert (Hctx : k6.(ctx).(isError) = 0) by (rewrite Hc6, Hc5, Hc4; exact He). assert (H0 : 0 <= zlen A) by (unfold zlen; lia).
  assert (Hpre : forall (ok : bool) k7 k8, contextMalloc limit (zlen A + 1) k6 plenty = Some ((ok, k7), plenty) ->
    (if negb ok then mret ()
     else e ← replace_loop limit (S (Z.to_nat (zlen A))) (A ++ 0 :: rA) (zlen A) (B ++ 0 :: rB) (zlen B) (C ++ 0 :: rC) (zlen C) [] (zlen A + 1);
          replace_finish limit e) k7 plenty = Some (((), k8), plenty) ->
    replace_body limit A rA B rB k plenty = Some (((), k8), plenty)).
  { intros ok k7 k8 E7 E8. unfold replace_body. erewrite fm_bind by exact Hk4. erewrite fm_bind by exact Hk5. cbv beta iota.
    erewrite fm_bind by exact Hk6. cbv zeta.
    erewrite fm_bind with (x := ()) (k' := k6) (a' := plenty) by (unfold SQLITE_MAX_LENGTH; by destruct (Z.ltb_spec (zlen A + 1) 1000000000); [|lia]).
    by erewrite fm_bind by exact E7. }
  unfold contextMalloc in Hpre. rewrite !Z.gtb_ltb in Hpre. destruct (Z.leb_spec limit (zlen A)) as [Hbig|Hsmall].
  - destruct (run_error_toobig limit k6) as (k8 & Hk8 & He8 & _). exists k8. split; [|exact He8]. apply (Hpre false k8 k8); [|reflexivity].
    destruct (Z.ltb_spec 0 (zlen A + 1)), (Z.ltb_spec limit (zlen A + 1)); try lia. erewrite fm_bind by reflexivity. by erewrite fm_bind by exact Hk8.
  - destruct (run_replace limit B C rB rC A rA k6) as (k8 & ps & Hk8 & Hp & Hr & _); [done|lia|lia|done|].
    exists k8. split; [|by exists ps]. apply (Hpre true k6 k8); [|exact Hk8].
    destruct (Z.ltb_spec 0 (zlen A + 1)), (Z.ltb_spec limit (zlen A + 1)); try lia.
    erewrite fm_bind by reflexivity. erewrite fm_bind by (apply malloc_plenty; lia). done.
Qed.

(** C14: replace(A, B, C) on texts, whatever bytes they have: A, when B is empty
    or begins with a NUL; the error "string or blob too big", when A has not
    less bytes than the limit; and else the pieces of A between the occurrences
    of B, found from left to right, joined by C, or the same error, when that
    is over the limit. *)
Theorem replace_correct limit c ms A B C :
  begins c ms [VText A; VText B; VText C] -> limit <= SQLITE_MAX_LENGTH -> zlen A + 1 < SQLITE_MAX_LENGTH ->
  exists c' ms', as_function (replaceFunc limit) c ms plenty = Some ((c', ms'), plenty) /\
    if deref B =? 0 then gives_text c' A
    else if limit <=? zlen A then c'.(isError) = SQLITE_TOOBIG
    else exists ps, pieces B A ps /\
      if zlen (join C ps) <=? limit then gives_text c' (join C ps) else c'.(isError) = SQLITE_TOOBIG.
Proof.
  intros [Ha He] Hlim HA. unfold SQLITE_MAX_LENGTH in *. set (vs := [VText A; VText B; VText C]) in *. set (k := mkCall c ms (map sqlite3VdbeMemStoreType ms)).
  destruct (run_value_text k vs 0 A Ha eq_refl) as (rA & k1 & Hk1 & Ha1 & Hc1 & _).
  destruct (run_value_bytes k1 vs 0 A Ha1 eq_refl) as (k2 & Hk2 & Ha2 & Hc2 & _).
  destruct (run_value_text k2 vs 1 B Ha2 eq_refl) as (rB & k3 & Hk3 & Ha3 & Hc3 & _).
  assert (EB : deref (B ++ 0 :: rB) = deref B) by (by destruct B).
  assert (He3 : k3.(ctx).(isError) = 0) by (rewrite Hc3, Hc2, Hc1; exact He).
  assert (Hstart : forall k', (if deref B =? 0 then m ← get_arg 0; sqlite3_result_value m else replace_body limit A rA B rB) k3 plenty = Some (((), k'), plenty) ->
    as_function (replaceFunc limit) c ms plenty = Some ((k'.(ctx), k'.(argv)), plenty)).
  { intros k' Hk'. apply run_function. fold k. unfold replaceFunc. erewrite fm_bind by exact Hk1. cbv beta iota. erewrite fm_bind by exact Hk2.
    erewrite fm_bind by exact Hk3. cbv beta iota. rewrite EB. exact Hk'. }
  destruct (Z.eqb_spec (deref B) 0) as [E0|HB0].
  - destruct (run_get_arg k3 vs 0 (VText A) Ha3 eq_refl) as (m & Hm & _ & Hta). destruct (run_result_value k3 m A Hta He3) as (k' & Hk' & Hg & _).
    exists k'.(ctx), k'.(argv). split; [|done]. apply Hstart. by erewrite fm_bind by exact Hm.
  - assert (HBne : B <> []) by (by intros ->).
    destruct (run_replace_body limit k3 A rA B rB C) as (k' & Hk' & Hg); try done.
    exists k'.(ctx), k'.(argv). split; [by apply Hstart|done].
Qed.

(** replace('banana', 'an', 'o') *)
Lemma replace_correct_witness :
  let text_cell t := mkMem (Z.lor MEM_Str MEM_Term) 0 0 (zlen t) (t ++ [0]) SQLITE_UTF8 false 0 in
  let A := [98; 97; 110; 97; 110; 97] in let B := [97; 110] in let C := [111] in
  exists c' ms', as_function (replaceFunc 1000) (mkContext (mkMem MEM_Null 0 0 0 [] SQLITE_UTF8 false 0) 0 None)
    [text_cell A; text_cell B; text_cell C] plenty = Some ((c', ms'), plenty) /\
    exists ps, pieces B A ps /\ if zlen (join C ps) <=? 1000 then gives_text c' (join C ps) else c'.(isError) = SQLITE_TOOBIG.
Proof.
  intros text_cell A B C. apply (replace_correct 1000 _ _ A B C).
  - split; [|done]. repeat constructor; by exists [].
  - vm_compute. congruence.
  - by vm_compute.
Defined.

(** ** instr() *)

(** The text and its suffixes at which a character begins, the empty one
    included: those whose first byte is no continuation byte. *)
Definition continues (s : list Z) : bool := Z.land (deref s) 0xc0 =? 0x80.

Fixpoint next_starts (s : list Z) : list (list Z) :=
  match s with
  | [] => []
  | _ :: s => if continues s then next_starts s else s :: next_starts s
  end.
Definition starts (s : list Z) : list (list Z) := s :: next_starts s.

(** One plus the number of characters before the first suffix that begins with
    the needle; 0 when there is none. *)
Definition instr_spec (needle s : list Z) (v : Z) : Prop :=
  (v = 0 /\ Forall (fun x => ~ needle `prefix_of` x) (starts s)) \/
  (exists before x after, starts s = before ++ x :: after /\ needle `prefix_of` x /\
     Forall (fun x => ~ needle `prefix_of` x) before /\ v = 1 + zlen before).

Lemma instr_step_spec c s rest : exists s2,
  instr_step true (c :: s ++ 0 :: rest) (zlen (c :: s)) = (s2 ++ 0 :: rest, zlen s2) /\ next_starts (c :: s) = starts s2 /\ (length s2 <= length s)%nat.
Proof.
  revert c. induction s as [|d s IH]; intros c.
  - exists []. by split_and!.
  - cbn [app instr_step next_starts andb]. unfold continues. cbn [deref].
    assert (E : zlen (c :: d :: s) - 1 = zlen (d :: s)) by (unfold zlen; cbn [length]; lia). rewrite E.
    destruct (Z.land d 0xc0 =? 0x80).
    + destruct (IH d) as (s2 & H1 & H2 & H3). exists s2. split; [exact H1|]. split; [exact H2|]. cbn. lia.
    + exists (d :: s). by split_and!.
Qed.

Lemma starts_short needle s : (length s < length needle)%nat -> Forall (fun x => ~ needle `prefix_of` x) (starts s).
Proof.
  intros Hl. constructor; [intros Hp%prefix_length; lia|]. induction s as [|c s IH]; [constructor|]. cbn [next_starts].
  assert (Hs : Forall (fun x => ~ needle `prefix_of` x) (next_starts s)) by (apply IH; cbn in Hl; lia).
  destruct (continues s); [done|]. constructor; [intros Hp%prefix_length; cbn in Hl; lia|done].
Qed.

(** A start that does not match, before the others. *)
Lemma instr_spec_cons needle s s2 v : ~ needle `prefix_of` s -> next_starts s = starts s2 ->
  instr_spec needle s2 v -> instr_spec needle s (if v =? 0 then 0 else v + 1).
Proof.
  intros Hn Es [[-> Hf]|(before & x & after & E & Hx & Hb & ->)].
  - left. split; [done|]. unfold starts. rewrite Es. by constructor.
  - right. exists (s :: before), x, after. unfold starts at 1. rewrite Es, E. split; [done|]. split; [done|]. split; [by constructor|].
    unfold zlen. cbn [length]. destruct (Z.eqb_spec (1 + Z.of_nat (length before)) 0); lia.
Qed.

Lemma instr_loop_spec needle rest rest' fuel : forall s N, (length s < fuel)%nat -> 1 <= N -> N + zlen s < 2 ^ 31 ->
  exists v, instr_spec needle s v /\
    instr_loop fuel true (s ++ 0 :: rest) (zlen s) (needle ++ 0 :: rest') (zlen needle) N = if v =? 0 then 0 else N - 1 + v.
Proof.
  induction fuel as [|fuel IH]; intros s N Hf HN Hb; [lia|]. cbn [instr_loop].
  destruct (Z.leb_spec (zlen needle) (zlen s)) as [Hle|Hgt].
  2:{ exists 0. split; [|done]. left. split; [done|]. apply starts_short. unfold zlen in Hgt. lia. }
  pose proof (prefix_split needle s (0 :: rest) (0 :: rest') ltac:(unfold zlen in Hle; lia)) as Hp. destruct (memcmp_eq _ _ _).
  - exists 1. split; [|cbn; lia]. right. exists [], s, (next_starts s). split; [done|]. split; [|by split]. destruct (proj1 Hp eq_refl) as [q ->]. by exists q.
  - assert (Hn : ~ needle `prefix_of` s) by (intros [q E]; by assert (false = true) by (apply Hp; by exists q)).
    destruct s as [|c s]; [exfalso; apply Hn; destruct needle; [by exists []|unfold zlen in Hle; cbn in Hle; lia]|].
    destruct (instr_step_spec c s rest) as (s2 & H1 & H2 & H3). cbn [app]. rewrite H1.
    assert (Hi : i32 (N + 1) = N + 1) by (apply wrap_s_small; [lia|]; unfold in_s, zlen in *; change (2 ^ (32 - 1)) with (2 ^ 31); cbn [length] in Hb; lia).
    rewrite Hi. destruct (IH s2 (N + 1)) as (v & Hv & E); [cbn in Hf; lia|lia|unfold zlen in *; cbn [length] in Hb; lia|].
    exists (if v =? 0 then 0 else v + 1). split; [by eapply instr_spec_cons|]. rewrite E.
    destruct (Z.eqb_spec v 0); [done|]. destruct (Z.eqb_spec (v + 1) 0) as [Hv1|]; [|lia].
    exfalso. destruct Hv as [[-> _]|(b & ? & ? & _ & _ & _ & ->)]; unfold zlen in *; lia.
Qed.

(** C30: instr() on texts gives one plus the number of characters before the first
    occurrence of the needle at the beginning of a character, and 0 when there
    is none; the arguments stay the values they were. *)
Theorem instr_correct c ms haystack needle :
  begins c ms [VText haystack; VText needle] -> zlen haystack < 2 ^ 31 - 1 ->
  exists c' ms' v, as_function instrFunc c ms plenty = Some ((c', ms'), plenty) /\
    instr_spec needle haystack v /\ gives_int c' v /\ Forall2 arg_is ms' [VText haystack; VText needle].
Proof.
  intros [Ha He] Hb. set (vs := [VText haystack; VText needle]) in *. set (k := mkCall c ms (map sqlite3VdbeMemStoreType ms)).
  pose proof (types_of ms vs Ha) as Ht.
  destruct (run_value_bytes k vs 0 haystack Ha eq_refl) as (k1 & Hk1 & Ha1 & Hc1 & _).
  destruct (run_value_bytes k1 vs 1 needle Ha1 eq_refl) as (k2 & Hk2 & Ha2 & Hc2 & _).
  destruct (run_value_text k2 vs 0 haystack Ha2 eq_refl) as (rH & k3 & Hk3 & Ha3 & Hc3 & _).
  destruct (run_value_text k3 vs 1 needle Ha3 eq_refl) as (rN & k4 & Hk4 & Ha4 & Hc4 & _).
  destruct (instr_loop_spec needle rH rN (S (Z.to_nat (zlen haystack))) haystack 1) as (v & Hv & El); [unfold zlen; lia|lia|lia|].
  assert (Hv' : (if v =? 0 then 0 else 1 - 1 + v) = v) by (destruct (Z.eqb_spec v 0); lia). rewrite Hv' in El.
  assert (Hlen : zlen (starts haystack) <= 1 + zlen haystack).
  { unfold starts, zlen. cbn [length]. assert (length (next_starts haystack) <= length haystack)%nat; [|lia].
    clear. induction haystack as [|c s IH]; [done|]. cbn. destruct (continues s); cbn; lia. }
  destruct (run_result_int k4 v) as (k5 & Hk5 & Hg & Ha5); [by rewrite Hc4, Hc3, Hc2, Hc1| |].
  { unfold in_s. change (2 ^ (32 - 1)) with (2 ^ 31). destruct Hv as [[-> _]|(b & x & af & E & _ & _ & ->)]; [lia|].
    rewrite E in Hlen. unfold zlen in *. rewrite length_app in Hlen. cbn [length] in Hlen. lia. }
  exists k5.(ctx), k5.(argv), v. split; [|split; [done|split; [done|by rewrite Ha5]]]. apply run_function. fold k. unfold instrFunc.
  erewrite fm_bind by (eapply (run_value_type k vs 0 (VText haystack)); [exact Ht|reflexivity]).
  erewrite fm_bind by (eapply (run_value_type k vs 1 (VText needle)); [exact Ht|reflexivity]).
  cbn [value_type]. change (SQLITE_TEXT =? SQLITE_NULL) with false. change (SQLITE_TEXT =? SQLITE_BLOB) with false. cbn [orb andb negb].
  erewrite fm_bind by exact Hk1. erewrite fm_bind by exact Hk2. cbv iota. erewrite fm_bind by exact Hk3. erewrite fm_bind by exact Hk4.
  cbv zeta. cbn [orb default]. rewrite andb_false_r. erewrite fm_bind by reflexivity. unfold id. by rewrite El.
Qed.

(** instr('naive' with a dieresis, 've') *)
Lemma instr_correct_witness :
  let text_cell t := mkMem (Z.lor MEM_Str MEM_Term) 0 0 (zlen t) (t ++ [0]) SQLITE_UTF8 false 0 in
  let h := [110; 97; 195; 175; 118; 101] in let nd := [118; 101] in
  exists c' ms' v, as_function instrFunc (mkContext (mkMem MEM_Null 0 0 0 [] SQLITE_UTF8 false 0) 0 None) [text_cell h; text_cell nd] plenty = Some ((c', ms'), plenty) /\
    instr_spec nd h v /\ gives_int c' v /\ Forall2 arg_is ms' [VText h; VText nd].
Proof.
  intros text_cell h nd. apply (instr_correct _ _ h nd).
  - split; [|done]. repeat constructor; by exists [].
  - vm_compute. congruence.
Defined.

(** ** Calls that go wrong *)

(** char() asks for a block of no bytes; there is none, and the call runs out
    of memory. *)
Lemma char_no_arguments limit c a : exists c',
  as_function (charFunc limit) c [] a = Some ((c', []), mkAlloc a.(mallocs) true) /\ c'.(isError) = SQLITE_NOMEM.
Proof. by eexists. Qed.

(** A character of 256 bytes, which are one character for SQLITE_SKIP_UTF8, has
    the length 0: trim() finds it everywhere and the loop does not end. *)
Lemma trim_wraps_length chr z nIn fuel : zlen chr = 256 -> 0 < nIn -> trim_left fuel [chr] z nIn = None.
Proof.
  intros Hc Hn. assert (Ha : aLen chr = 0) by (unfold aLen; by rewrite Hc). revert z.
  induction fuel as [|fuel IH]; intros z; [done|]. cbn [trim_left]. rewrite Z.gtb_ltb. destruct (Z.ltb_spec 0 nIn); [|lia].
  assert (Hf : first_char [chr] (fun c => (aLen c <=? nIn) && memcmp_eq z c (aLen c)) = Some 0).
  { unfold first_char. rewrite Ha. destruct (Z.leb_spec 0 nIn); [|lia]. unfold memcmp_eq. by rewrite bool_decide_eq_true_2. }
  rewrite Hf, Z.sub_0_r. apply IH.
Qed.

(** The character 0xf0 with 255 continuation bytes. *)
Definition long_character : list Z := 240 :: replicate 255 128.

Lemma long_character_one : set_of_chars (length (long_character ++ [0])) (long_character ++ [0]) = [long_character].
Proof. by vm_compute. Qed.

(** replace() cannot give a text of as many bytes as the limit allows, even when
    nothing is to be replaced: the block has one byte more. *)
Lemma replace_at_limit limit (A : list Z) k : zlen A = limit ->
  exists k', contextMalloc limit (zlen A + 1) k plenty = Some ((false, k'), plenty) /\ k'.(ctx).(isError) = SQLITE_TOOBIG.
Proof.
  intros Hl. unfold contextMalloc. assert (H0 : 0 <= zlen A) by (unfold zlen; lia). rewrite !Z.gtb_ltb.
  destruct (Z.ltb_spec 0 (zlen A + 1)), (Z.ltb_spec limit (zlen A + 1)); try lia. erewrite fm_bind by reflexivity.
  destruct (run_error_toobig limit k) as (k' & Hk & He & _). exists k'. split; [|done]. by erewrite fm_bind by exact Hk.
Qed.

(** instr() of zeroblob(10) when the block for its bytes fails: the length is
    known, the bytes are a NULL pointer, and memcmp reads it. *)
Lemma instr_reads_null :
  let zeroblob := mkMem (Z.lor MEM_Blob MEM_Zero) 0 10 0 [] SQLITE_UTF8 false 0 in
  let needle := mkMem MEM_Blob 0 0 1 [0] SQLITE_UTF8 false 0 in
  as_function instrFunc (mkContext (mkMem MEM_Null 0 0 0 [] SQLITE_UTF8 false 0) 0 None) [zeroblob; needle] (mkAlloc [true; true; true] false) = None.
Proof. by vm_compute. Qed.
